(* ===== verification/_CoqProject ===== *)
-Q . S2P
Prelude.v
Float32.v
FloatBounds.v
InferObject.v
Geometry.v
History.v
Schedule.v
Checkers.v
CheckersProps.v
CheckersLine.v
CheckersArea.v
Hungarian.v
HungarianProps.v
HungarianSpec.v
HungarianOptimal.v
Kalman.v
Sort.v
SortProps.v
StringUtils.v
Json.v
JsonLexer.v
JsonParser.v
Grisu.v
FloatRound.v
FloatText.v
JsonDump.v
JsonText.v
SettingData.v
SettingManager.v
EngineTypes.v
SafeQueue.v
InferenceCounter.v
LoadBalancer.v
SafeThread.v
EngineHandler.v
Yolo.v
YoloDevice.v
Letterbox.v
EngineClient.v
DetectorUnit.v
DetectorPipeline.v
DetectorProps.v
DetectorEvents.v
DetectorStop.v
DetectorTracking.v
FrameStore.v
FrameStoreProps.v
RtpPayload.v
RtspReceiver.v
RtspClient.v
RtspClientProps.v
ReplyDispatcher.v
ReplyDispatcherProps.v
SettingFacade.v
SettingFacadeProps.v
ServiceGraph.v
ServiceGraphProps.v
GrpcServer.v
GrpcServerProps.v
RtspServer.v
RtspServerProps.v
OnvifMetadata.v
GrpcClient.v
GrpcClientProps.v
IOStreamManager.v
Logger.v
Metrics.v
RtspPipeline.v
Profiling.v
Profiles.v
ProfilesProps.v
SioParser.v
SioHandler.v
EventDelivery.v
NetworkManager.v
ApiHandler.v
JsonMessages.v
Service.v
ServiceProps.v
