(* ===== verification/Prelude.v ===== *)
(** * DetectBase: a verification development

    DetectBase watches cameras: it receives their streams, detects objects with
    YOLOv5 on an NPU, tracks them, and reports abnormal actions (line and area
    intrusion, parking) to a server.  This library models its own code, from the
    arithmetic of a box to [main], in the language of Rocq, and proves what makes it
    correct.  All source paths are below [src/code/].

    ** How the program works, and where each part is modelled

    A _detector unit_ ([Main/DETECTOR/src/RtspDetectorUnit.cpp]) per camera runs four
    threads that hand items on through bounded queues.

<<
      frames --> InferenceThread --request--> EngineLoadBalancer --> EngineHandler (YOLOv5)
                     | inflight                     ^                     |
                     v                              +------ response -----+
                 ResponseThread --> SORT trackers --> EventThread --> checkers --> messages
                                                          | images
                                                          v
                                                      IOWorker --> /frame
>>

    - Arithmetic.  [Float32]: [float] and [double] as the standard library's
      [spec_float] at binary32 and binary64, the conversions to [int] as AArch64 does
      them (saturating), no contraction to fused operations; [FloatBounds]:
      facts on rounded results.  Integers are [Z] with the wrap-around of
      their width written out ([Prelude]: [u32], [i32], [u64]).
    - Data.  [InferObject] (BasicLibs/core/types): detected objects and the conversion of
      boxes between coordinate styles.  [EngineTypes]: engine profiles, requester
      identifiers, requests and responses.  [StringUtils]: names.
    - JSON (BasicLibs/core/parser/json/json.hpp).  [Json]: the values, with the accessors the
      program calls.  [JsonLexer] is the scanner of bytes, [JsonParser] the loop over its tokens
      with its stack of open containers, [Grisu] the digits and the layout of a double (and the
      printing of integers), [JsonDump] the serializer; each with its theorems: the parser ends on every
      input, with a value that can be printed, and the escapes are exact.  [FloatRound]: the
      conversion of [strtod] is correctly rounded; [FloatText]: the digits lie between the
      boundaries of the double, which is read as it was printed; [JsonText]: every value is.
    - Abnormal actions.  [Geometry], [History], [Schedule], [Checkers] follow the files of
      AbnormalActions; [CheckersProps], [CheckersLine], [CheckersArea] hold their theorems;
      a small scene for the examples ends [Checkers].
    - Tracking.  [Hungarian] is Tracker/SORT/MgenHungarian.cpp as a machine whose steps
      are the functions of the code; [HungarianProps], [HungarianSpec]
      prove it total, terminating and correct.  [Kalman] and [Sort] follow MgenKalman.cpp
      and SORTTracker.cpp; [SortProps] has their theorems.
      [HungarianOptimal] proves the cost optimal on exact numbers.
    - Settings.  [SettingData] reads the settings from JSON, [SettingManager] distributes
      them and follows a notification of the server to the renewal of the settings.
      [SettingFacade] (Management/manager/src/SettingManager.cpp, SettingMonitor.cpp) starts
      them with their requests and keeps the subscriptions of the units;
      [SettingFacadeProps]: no callback after its unit is gone.
    - Engines.  [SafeQueue], [SafeThread], [InferenceCounter]: the shared structures.
      [LoadBalancer] is a step relation over the critical
      sections of EngineLoadBalancer.cpp, with each method as the composition of its own.  [EngineHandler] is the loop of a handler over
      the class [Device]; [Yolo] is the decoding and the suppression of
      YoloV5_Torch_Onnx_RKNN_NPU.cpp, and [YoloDevice] makes the detector an instance of
      [Device].  [Letterbox] is FramePreProcessor.cpp, [EngineClient] the client of an engine.
    - Streams.  [RtspReceiver], [RtspClient] (theorems in [RtspClientProps]) are
      GstRtspReceiver.cpp and GstRtspClient.cpp: a pipeline with the references it holds, and
      the worker that reconnects it; [RtspPipeline] is the text of the pipeline and what watches it.  [RtspServer] (GstRtspProxyServer.cpp, RtspHandler.cpp;
      [RtspServerProps]) serves the streams to viewers, [OnvifMetadata] writes the tracked objects of a
      frame as a document and [RtpPayload] cuts it into packets.
    - Messages.  [ReplyDispatcher] ([ReplyDispatcherProps]) brings replies to the threads
      that wait for them.  [GrpcServer] and [GrpcClient] ([GrpcServerProps],
      [GrpcClientProps]) follow Protocol/GRPC: calls are objects of a store, so that a use
      after a deletion shows.  [SioHandler] is the connection to the broker, [SioParser] makes its
      messages of JSON values and reads them, and [EventDelivery] follows an event from the
      unit to what its receiver reads.  [ApiHandler] is the REST client with its bodies and deadlines
      (Protocol/REST, ApiHandler.cpp).  [JsonMessages] puts the parser and the serializer in the
      place of the parameters of these parts, and reads the text of an event.
      [IOStreamManager] is the registry of all queues.
    - The service.  [Profiles] ([ProfilesProps]) reads the settings files and builds the
      engines; [ServiceGraph] ([ServiceGraphProps]) is the graph of blocks of
      BasicLibs/profile; [NetworkManager] makes and closes the
      connections; [Logger] and [Metrics] are BasicLibs/core/logger and metrics: the lines of the
      log with the identifiers of their events, and the families of metrics; [Service]
      ([ServiceProps]) puts all parts together: RtspDetectorBlock.cpp,
      DETECTOR.cpp and Main.cpp.
    - The unit.  [DetectorUnit] (set-up and inference thread), [DetectorPipeline]
      (response and event thread, start and stop), [FrameStore] (IO worker and the
      cleaning of the disk), [Profiling] (what the threads measure of themselves).  Their theorems: [DetectorProps] (resolution filter, pairing
      of frames and responses, exclusion), [DetectorEvents] (the event thread refines its
      schedules), [DetectorStop] (stopping), [DetectorTracking] (trackers),
      [FrameStoreProps] (what the cleanings delete).

    Objects keep the names of the code; a method is a function on the object's record that
    returns the new record.  [None] is an exception that leaves a [noexcept] function, a
    null pointer or a read out of range: the end of the process.  Each file says what
    its options stand for where it is something else.  A thread's loop is one function
    per turn; what runs in parallel is a relation that interleaves turns or, where the
    code takes locks in between, critical sections.

    ** What the theorems show

    - The program: a start that succeeds has every engine active, both events of the
      server bound and one ready unit for each camera; the run that follows cannot fail; and
      however far the start came, [main] ends with every thread joined, every queue woken
      and no connection left, if what it waits for comes ([Service.Waits]: the calls of the
      gRPC server complete and the receivers stop) ([ServiceProps]).
    - End to end: the event thread is a refinement of its schedules run alone from one
      renewal of the schedules to the next; a frame gets its own response exactly as long as
      the frames given up and the responses pushed out balance; every request to a handler is
      answered once, unless [Postprocess] returns the empty vector for its batch, which the
      detector on the NPU never does: there a runtime that fails ends the process; no unit
      receives a response that names another as its requester; stopping a camera leaves
      nothing in its queues or with the balancer.
    - Tracking: the solver terminates with a maximal matching, on the program's [double]s
      too; every detection updates one tracker of its class, starts one, or is dropped; ids
      are never shared; the trackers of a unit stay consistent.
    - Checkers: what is reported is justified by the trajectory and the exact geometry,
      events are rate limited, nothing throws; and what is never reported.
    - Bounds: boxes, regions, letterboxes and tensors are never left, for every input,
      NaN included; a limited queue stays limited; a buffer in use is not written.
    - Settings: schedules and renewals are all or nothing; a callback that was taken back
      is never called; a settings file written from a profile is read back as this profile.
    - Streams: the worker never gives up a camera; a receiver gives back exactly the
      references it took; a document arrives as a whole or not at all, except after a push
      that found no buffer, and what a viewer
      reads from it is exactly the objects of the frame; every client of a
      camera is stopped once.
    - Messages: a reply reaches the thread that waits for it; a call of the server is
      answered once, unless it wants a reply and no dispatcher was set, which ends the process;
      a shutdown of the server that begins can only come to rest at its end; a call of the
      client is completed and deleted once; the messages to the broker are handed over in
      order and arrive whole, though with their arrays turned around; the
      registry is one map from types and keys to queues.
    - JSON: the parser returns on every input, valid or not; what is printed of a value is
      parsed as the value, every double to the last bit; printing fails exactly for
      strings that are not UTF-8; an answer that was read can be printed and read again, and the text
      of an event holds the whole event.
    - Log: what was logged is read back from the file, whatever it contains and however the
      threads are interleaved; identifiers of events are distinct and restored.
    - Graph: the order of execution is topological and the test for cycles exact.
    - Disk: the regular cleaning deletes the expired days and nothing else, the emergency
      cleaning the oldest and never the newest.

    ** Bounds and fuel

    [Hungarian.FUEL] bounds the transitions of the solver; [HungarianSpec.solver_terminates]
    proves it enough, when no element of the matrix overflows.  [step4_loop] has its
    own fuel, the number of rows, shown enough by the same proof.
    [ServiceGraph.order_loop] has the number of blocks and [RtpPayload.push_loop] the length
    of the document, both proved enough where they are used; [GrpcClient.hex_digits] has the
    eight digits of 32 bits, enough by [setw_hex_spec].  The parser has the length of its input
    and two turns more ([JsonParser.sax_parse_internal_ends]); the loops of the scanner what
    is left to read; the escaper twice the length of its string; the loops of Grisu2 the
    10 digits of 32 bits, 20 digits of a fraction and 64 shifts, enough by the proofs of
    [FloatText].  Other loops over containers recurse
    over the elements; a loop that runs until its thread is stopped is one function per
    turn.

    ** Parameters

    Code that is not in the repository is a class or an argument, with the documented
    behaviour that is needed as its laws: [StdSort] (the order [std::sort] gives to equal
    elements), [OpenCV] (Kalman filter), [FFmpeg] (scaling contexts), [RknnApi] (NPU
    runtime), [FileSystem] (statvfs, removal, file times, writing of images), [Files]
    (settings files and network interfaces), the random UUIDs, clocks and answers of the
    server, whether the broker answers and which events GStreamer and gRPC deliver.  An
    [unordered_map] is visited in the order of [map_to_list] and no theorem depends on it; a
    [std::set] in its own order ([Sort.set_order]).  The bytes of an image are values;
    [Letterbox] has the sharing of its buffers.  [strtod], [strtoull] and [strtoll] of the C library
    are definitions of [JsonLexer], for the texts the scanner gives them.

    The theorems on the texts of doubles ([FloatRound], [FloatText], [JsonText]) use
    the real numbers of the Standard Library, with their axioms, to say which double is nearest; no
    definition of the model does.

    ** Not modelled

    Of json.hpp: the binary formats, the callbacks and filters of the parser, JSON pointers and patches,
    iterators, the diagnostics, user-defined types and wide strings; nothing of the program uses them.  The headers of curl,
    of the Socket.IO client and of the RKNN runtime, which declare code that is not in the repository; where
    the other parts write to the log and count, which nothing reads back. *)

From Stdlib Require Export ZArith Lia.
From stdpp Require Export base list gmap strings.

Declare Scope mgen_scope.
Delimit Scope mgen_scope with mgen.

(** ** Automation *)

Create HintDb mgen discriminated.

(** Split every conjunction of the context and every existential. *)
Ltac deex :=
  repeat match goal with
  | H : exists _, _ |- _ => destruct H
  | H : _ /\ _ |- _ => destruct H
  end.

(** Turn the boolean comparisons of the code into propositions. *)
Ltac bool_to_prop :=
  repeat match goal with
  | H : _ && _ = true |- _ => apply andb_true_iff in H; destruct H
  | H : _ || _ = false |- _ => apply orb_false_iff in H; destruct H
  | H : negb _ = true |- _ => apply negb_true_iff in H
  | H : negb _ = false |- _ => apply negb_false_iff in H
  | H : (_ <? _)%Z = true |- _ => apply Z.ltb_lt in H
  | H : (_ <? _)%Z = false |- _ => apply Z.ltb_ge in H
  | H : (_ <=? _)%Z = true |- _ => apply Z.leb_le in H
  | H : (_ <=? _)%Z = false |- _ => apply Z.leb_gt in H
  | H : (_ =? _)%Z = true |- _ => apply Z.eqb_eq in H
  | H : (_ =? _)%Z = false |- _ => apply Z.eqb_neq in H
  | H : (_ <? _)%nat = true |- _ => apply Nat.ltb_lt in H
  | H : (_ <? _)%nat = false |- _ => apply Nat.ltb_ge in H
  | H : (_ <=? _)%nat = true |- _ => apply Nat.leb_le in H
  | H : (_ <=? _)%nat = false |- _ => apply Nat.leb_gt in H
  | H : (_ =? _)%nat = true |- _ => apply Nat.eqb_eq in H
  | H : (_ =? _)%nat = false |- _ => apply Nat.eqb_neq in H
  | H : bool_decide _ = true |- _ => apply bool_decide_eq_true in H
  | H : bool_decide _ = false |- _ => apply bool_decide_eq_false in H
  end.

(** Case analysis on the scrutinee of the first [if] or [match] found. *)
Ltac case_if :=
  match goal with
  | |- context [if ?b then _ else _] => let E := fresh "E" in destruct b eqn:E
  | H : context [if ?b then _ else _] |- _ => let E := fresh "E" in destruct b eqn:E
  end.

(** ** Machine integers

    The code's [int] is 32-bit two's complement, [unsigned int] and
    [InferEngineID] are 32-bit, [size_t] and [uint64_t] are 64-bit. *)

Definition wrap_u (w : Z) (z : Z) : Z := (z mod 2 ^ w)%Z.

Definition wrap_s (w : Z) (z : Z) : Z :=
  ((z + 2 ^ (w - 1)) mod 2 ^ w - 2 ^ (w - 1))%Z.

Abbreviation i32 := (wrap_s 32).
Abbreviation u32 := (wrap_u 32).
Abbreviation u64 := (wrap_u 64).

Definition in_i32 (z : Z) : Prop := (- 2 ^ 31 <= z < 2 ^ 31)%Z.
Definition in_u32 (z : Z) : Prop := (0 <= z < 2 ^ 32)%Z.

Lemma wrap_u_id w z : (0 <= z < 2 ^ w)%Z -> wrap_u w z = z.
Proof. intros H. unfold wrap_u. by apply Z.mod_small. Qed.

Lemma wrap_s_id w z :
  (0 < w)%Z -> (- 2 ^ (w - 1) <= z < 2 ^ (w - 1))%Z -> wrap_s w z = z.
Proof.
  intros Hw H. unfold wrap_s.
  assert ((2 ^ w = 2 * 2 ^ (w - 1))%Z) as Hp.
  { rewrite <- Z.pow_succ_r by lia. f_equal. lia. }
  rewrite Z.mod_small; lia.
Qed.

Lemma i32_id z : in_i32 z -> i32 z = z.
Proof. intros H. apply wrap_s_id; [lia | exact H]. Qed.

Lemma u32_id z : in_u32 z -> u32 z = z.
Proof. apply wrap_u_id. Qed.

Lemma u32_range z : in_u32 (u32 z).
Proof. unfold in_u32, wrap_u. apply Z.mod_pos_bound. lia. Qed.

Lemma i32_range z : in_i32 (i32 z).
Proof.
  unfold in_i32, wrap_s.
  pose proof (Z.mod_pos_bound (z + 2 ^ (32 - 1)) (2 ^ 32) ltac:(lia)). lia.
Qed.

#[export] Hint Resolve i32_range u32_range : mgen.

(** ** Time

    A [time_point] is a number of nanoseconds, and
    [duration_cast<milliseconds>] truncates toward zero. *)

Definition time_point := Z.
Definition duration_ms (later earlier : time_point) : Z := Z.quot (later - earlier) 1000000.
Definition duration_s (later earlier : time_point) : Z := Z.quot (later - earlier) 1000000000.

Lemma duration_ms_nonneg a b : (b <= a)%Z -> (0 <= duration_ms a b)%Z.
Proof. intros H. apply Z.quot_pos; lia. Qed.

Lemma duration_ms_le a b ms : (a - b <= ms * 1000000)%Z -> (0 <= ms)%Z -> (duration_ms a b <= ms)%Z.
Proof.
  intros H Hms. unfold duration_ms.
  destruct (Z_le_gt_dec 0 (a - b)) as [Hp | Hn].
  - rewrite Z.quot_div_nonneg by lia. apply Z.div_le_upper_bound; lia.
  - apply Z.le_trans with 0%Z; [| lia].
    apply Z.opp_nonneg_nonpos. rewrite <- Z.quot_opp_l by lia. apply Z.quot_pos; lia.
Qed.

Lemma Z_odd_of_nat n : Z.odd (Z.of_nat n) = Nat.odd n.
Proof.
  induction n as [| n IH]; [done |].
  by rewrite Nat2Z.inj_succ, Z.odd_succ, <- Z.negb_odd, IH, Nat.odd_succ, Nat.negb_odd.
Qed.

(** ** Lists *)

(** [std::find_if] over a vector. *)
Definition exists_bool {A} (p : A -> bool) (l : list A) : bool := existsb p l.

Lemma existsb_false_iff {A} (p : A -> bool) l :
  existsb p l = false <-> Forall (fun x => p x = false) l.
Proof.
  induction l as [| a l IH]; cbn; [split; auto |].
  rewrite orb_false_iff, IH, Forall_cons. tauto.
Qed.

Lemma fold_left_inv {A B} (P : A -> Prop) (f : A -> B -> A) (l : list B) a :
  P a -> (forall a b, b ∈ l -> P a -> P (f a b)) -> P (fold_left f l a).
Proof.
  revert a. induction l as [| b l IH]; intros a Ha Hstep; cbn; [done |].
  apply IH.
  - apply Hstep; [left | done].
  - intros a' b' Hb. apply Hstep. by right.
Qed.
