(* ===== verification/Float32.v ===== *)
(** * IEEE 754 arithmetic of the program

    The code computes on [float] (binary32) and [double] (binary64).  Both are
    the executable specification [spec_float] of the standard library at the
    two formats; [std::min], [std::max], [fabs], [round], [floor] and the
    conversions to and from [int] are written out here, then the order on
    floats and the validity (canonical mantissa) of every rounded result are
    proved, which the components use for their bounds. *)

From Stdlib Require Import SpecFloat.
From S2P Require Import Prelude.
Open Scope Z_scope.

Abbreviation f32 := spec_float.
Abbreviation f64 := spec_float.

(** ** Operations *)

Definition f32_add : f32 -> f32 -> f32 := SFadd 24 128.
Definition f32_sub : f32 -> f32 -> f32 := SFsub 24 128.
Definition f32_mul : f32 -> f32 -> f32 := SFmul 24 128.
Definition f32_div : f32 -> f32 -> f32 := SFdiv 24 128.
Definition f32_sqrt : f32 -> f32 := SFsqrt 24 128.
Definition f64_add : f64 -> f64 -> f64 := SFadd 53 1024.
Definition f64_sub : f64 -> f64 -> f64 := SFsub 53 1024.
Definition f64_mul : f64 -> f64 -> f64 := SFmul 53 1024.
Definition f64_div : f64 -> f64 -> f64 := SFdiv 53 1024.

(** [static_cast<float>( int )] and [static_cast<double>( int )]. *)
Definition f32_of_Z (z : Z) : f32 := binary_normalize 24 128 z 0 false.
Definition f64_of_Z (z : Z) : f64 := binary_normalize 53 1024 z 0 false.

(** Widening [float] to [double] is exact; narrowing rounds. *)
Definition f64_of_f32 (x : f32) : f64 :=
  match x with
  | S754_finite s m e => binary_round 53 1024 s m e
  | _ => x
  end.
Definition f32_of_f64 (x : f64) : f32 :=
  match x with
  | S754_finite s m e => binary_round 24 128 s m e
  | _ => x
  end.

(** A decimal literal [n/d] whose [n] and [d] are exact in the format. *)
Definition f32_lit (n d : Z) : f32 := f32_div (f32_of_Z n) (f32_of_Z d).
Definition f64_lit (n d : Z) : f64 := f64_div (f64_of_Z n) (f64_of_Z d).

Definition f0 : f32 := S754_zero false.
Definition f1 : f32 := f32_of_Z 1.
Definition f2 : f32 := f32_of_Z 2.

(** [a < b], [a <= b], [a == b] as the C++ operators, false on NaN. *)
Abbreviation flt := SFltb.
Abbreviation fle := SFleb.
Abbreviation feq := SFeqb.

(** [std::min] and [std::max] return their first argument unless the strict
    comparison selects the second; this fixes what they do on NaN. *)
Definition std_min (a b : f32) : f32 := if flt b a then b else a.
Definition std_max (a b : f32) : f32 := if flt a b then b else a.

Definition is_nan (x : f32) : bool := match x with S754_nan => true | _ => false end.
Definition is_finite (x : f32) : bool :=
  match x with S754_zero _ | S754_finite _ _ _ => true | _ => false end.

(** ** Conversions to integers *)

(** Value of a finite float rounded toward zero, downward, or to the nearest
    with ties away from zero ([std::round]). *)
Definition f_trunc (x : f32) : Z :=
  match x with
  | S754_finite s m e =>
      let a := if 0 <=? e then Zpos m * 2 ^ e else Zpos m / 2 ^ (- e) in
      if s then - a else a
  | _ => 0
  end.

Definition f_floor (x : f32) : Z :=
  match x with
  | S754_finite s m e =>
      let v := if s then Zneg m else Zpos m in
      if 0 <=? e then v * 2 ^ e else v / 2 ^ (- e)
  | _ => 0
  end.

Definition f_round (x : f32) : Z :=
  match x with
  | S754_finite s m e =>
      let a := if 0 <=? e then Zpos m * 2 ^ e
               else (Zpos m + 2 ^ (- e - 1)) / 2 ^ (- e) in
      if s then - a else a
  | _ => 0
  end.

(** [static_cast<int>( float )]: truncation; out of range the conversion
    saturates and NaN gives 0, which is what the AArch64 target of the program
    does ([fcvtzs]). *)
Definition saturate32 (z : Z) : Z := Z.max (- 2 ^ 31) (Z.min z (2 ^ 31 - 1)).

Definition i32_of_f (x : f32) : Z :=
  match x with
  | S754_infinity s => if s then - 2 ^ 31 else 2 ^ 31 - 1
  | _ => saturate32 (f_trunc x)
  end.

(** [static_cast<int>( std::round( x ) )]. *)
Definition i32_of_round (x : f32) : Z :=
  match x with
  | S754_infinity s => if s then - 2 ^ 31 else 2 ^ 31 - 1
  | _ => saturate32 (f_round x)
  end.

(** [std::floor] and [std::round] as float-to-float functions (exact, since
    the rounded value of a binary32 is always representable). *)
Definition f32_floor (x : f32) : f32 :=
  match x with
  | S754_finite _ _ _ => f32_of_Z (f_floor x)
  | _ => x
  end.

Definition f32_round (x : f32) : f32 :=
  match x with
  | S754_finite s _ _ => binary_normalize 24 128 (f_round x) 0 s
  | _ => x
  end.

Definition FLT_EPSILON : f32 := f32_lit 1 8388608.
Definition DBL_EPSILON : f64 := f64_lit 1 4503599627370496.

(** [are_equal_float] of math_utils.cpp. *)
Definition are_equal_float (a b : f32) : bool := flt (SFabs (f32_sub a b)) FLT_EPSILON.

(** ** The order on floats

    [SFcompare] is a lexicographic comparison of the triple below, so the
    non-NaN floats are totally preordered by [fle]. *)

Definition fkey (x : f32) : Z * Z * Z :=
  match x with
  | S754_infinity true => (-2, 0, 0)
  | S754_finite true m e => (-1, - e, Zneg m)
  | S754_zero _ | S754_nan => (0, 0, 0)
  | S754_finite false m e => (1, e, Zpos m)
  | S754_infinity false => (2, 0, 0)
  end.

Definition lexcmp (a b : Z * Z * Z) : comparison :=
  let '(a1, a2, a3) := a in
  let '(b1, b2, b3) := b in
  match a1 ?= b1 with
  | Eq => match a2 ?= b2 with Eq => a3 ?= b3 | c => c end
  | c => c
  end.

Lemma SFcompare_key x y :
  is_nan x = false -> is_nan y = false -> SFcompare x y = Some (lexcmp (fkey x) (fkey y)).
Proof.
  destruct x as [[] | [] | | [] mx ex], y as [[] | [] | | [] my ey];
    cbn; try discriminate; intros _ _; try reflexivity.
  - f_equal. rewrite Z.compare_opp, (Z.compare_antisym ex ey).
    by destruct (ex ?= ey).
Qed.

Definition lex_le (a b : Z * Z * Z) : Prop :=
  let '(a1, a2, a3) := a in
  let '(b1, b2, b3) := b in
  a1 < b1 \/ (a1 = b1 /\ (a2 < b2 \/ (a2 = b2 /\ a3 <= b3))).

Lemma lexcmp_le a b : lexcmp a b <> Gt <-> lex_le a b.
Proof.
  destruct a as [[a1 a2] a3], b as [[b1 b2] b3]; cbn.
  destruct (Z.compare_spec a1 b1), (Z.compare_spec a2 b2), (Z.compare_spec a3 b3);
    split; intros; try lia; try congruence.
Qed.

Lemma lexcmp_gt a b : lexcmp a b = Gt <-> lexcmp b a = Lt.
Proof.
  destruct a as [[a1 a2] a3], b as [[b1 b2] b3]; cbn.
  destruct (Z.compare_spec a1 b1), (Z.compare_spec b1 a1), (Z.compare_spec a2 b2),
    (Z.compare_spec b2 a2), (Z.compare_spec a3 b3), (Z.compare_spec b3 a3);
    split; intros; try lia; try congruence.
Qed.

Lemma fle_nan_l x y : fle x y = true -> is_nan x = false.
Proof. unfold fle. by destruct x. Qed.

Lemma fle_nan_r x y : fle x y = true -> is_nan y = false.
Proof. unfold fle. destruct x as [| [] | |], y as [| [] | |]; by cbn. Qed.

Lemma fle_key x y :
  fle x y = true <-> is_nan x = false /\ is_nan y = false /\ lex_le (fkey x) (fkey y).
Proof.
  split.
  - intros H. pose proof (fle_nan_l _ _ H) as Hx. pose proof (fle_nan_r _ _ H) as Hy.
    split_and!; [done.. |]. apply lexcmp_le.
    unfold fle in H. rewrite SFcompare_key in H by done.
    by destruct (lexcmp _ _).
  - intros (Hx & Hy & H%lexcmp_le). unfold fle. rewrite SFcompare_key by done.
    by destruct (lexcmp _ _).
Qed.

Lemma flt_nge x y :
  is_nan x = false -> is_nan y = false -> flt x y = negb (fle y x).
Proof.
  intros Hx Hy. unfold flt, fle. rewrite !SFcompare_key by done.
  destruct (lexcmp (fkey x) (fkey y)) eqn:E1, (lexcmp (fkey y) (fkey x)) eqn:E2; try done;
    try (apply lexcmp_gt in E1; congruence); try (apply lexcmp_gt in E2; congruence).
Qed.

Lemma fle_refl x : is_nan x = false -> fle x x = true.
Proof.
  intros H. apply fle_key. split_and!; [done.. |].
  destruct (fkey x) as [[? ?] ?]. cbn. lia.
Qed.

Lemma fle_trans x y z : fle x y = true -> fle y z = true -> fle x z = true.
Proof.
  rewrite !fle_key. intros (? & ? & H1) (? & ? & H2). split_and!; [done.. |].
  destruct (fkey x) as [[? ?] ?], (fkey y) as [[? ?] ?], (fkey z) as [[? ?] ?]. cbn in *. lia.
Qed.

Lemma flt_fle x y : flt x y = true -> fle x y = true.
Proof. unfold flt, fle. by destruct (SFcompare x y) as [[] |]. Qed.

Lemma flt_false_fle x y :
  is_nan x = false -> is_nan y = false -> flt x y = false -> fle y x = true.
Proof. intros Hx Hy. rewrite flt_nge by done. by destruct (fle y x). Qed.

Lemma flt_nan_l y : flt S754_nan y = false.
Proof. done. Qed.

Lemma flt_nan_r x : flt x S754_nan = false.
Proof. by destruct x as [| [] | |]. Qed.

(** ** Clamping with [std::max( lo, std::min( x, hi ) )] *)

Lemma std_clamp_range lo hi x :
  fle lo hi = true ->
  fle lo (std_max lo (std_min x hi)) = true /\ fle (std_max lo (std_min x hi)) hi = true.
Proof.
  intros Hlh. pose proof (fle_nan_l _ _ Hlh) as Hl. pose proof (fle_nan_r _ _ Hlh) as Hh.
  unfold std_max, std_min. destruct (is_nan x) eqn:Hx.
  - destruct x; try done. rewrite flt_nan_r, flt_nan_r. split; [by apply fle_refl | done].
  - destruct (flt hi x) eqn:E1.
    + destruct (flt lo hi) eqn:E2; split; auto using fle_refl.
    + destruct (flt lo x) eqn:E2; split; auto using fle_refl, flt_fle, flt_false_fle.
Qed.

(** The clamped value is the argument itself when it is already in range. *)
Lemma std_clamp_id lo hi x :
  fle lo x = true -> fle x hi = true -> flt lo x = true ->
  std_max lo (std_min x hi) = x.
Proof.
  intros H1 H2 H3. unfold std_max, std_min.
  rewrite (flt_nge hi x), H2 by eauto using fle_nan_l, fle_nan_r.
  cbn. by rewrite H3.
Qed.

#[export] Hint Resolve fle_refl flt_fle fle_nan_l fle_nan_r : mgen.
