(* ===== verification/FloatBounds.v ===== *)
(** * Validity of rounded results

    Every arithmetic operation of [Float32] returns a float with a canonical
    mantissa when its arguments have one, never changes the sign its exact
    result has, and only makes a NaN in the cases IEEE 754 names.  These are
    the facts behind the bounds the components prove on coordinates.

    Magnitudes of rounded results.  Upper bounds on the values of binary32 products and quotients, through the
    value scaled by a power of two large enough for every exponent; the result
    used by the letterbox is that scaling a length by a factor not above
    [target / source] and rounding never exceeds the target. *)

From Stdlib Require Import SpecFloat.
From S2P Require Import Prelude Float32.
Open Scope Z_scope.

Definition fsign (x : f32) : bool :=
  match x with
  | S754_zero s | S754_infinity s | S754_finite s _ _ => s
  | S754_nan => false
  end.

(** ** Digits and shifts *)

Lemma digits2_pos_bounds p :
  2 ^ (Zpos (digits2_pos p) - 1) <= Zpos p < 2 ^ Zpos (digits2_pos p).
Proof.
  induction p as [p IH | p IH |]; cbn [digits2_pos]; [| | cbn; lia].
  all: rewrite Pos2Z.inj_succ; replace (Z.succ (Zpos (digits2_pos p)) - 1) with
         (Z.succ (Zpos (digits2_pos p) - 1)) by lia;
       rewrite !Z.pow_succ_r by lia; lia.
Qed.

Lemma Zdigits2_unique m d : 0 < m -> 2 ^ (d - 1) <= m < 2 ^ d -> Zdigits2 m = d.
Proof.
  intros Hm Hd. destruct m as [| p | p]; try lia. cbn [Zdigits2].
  pose proof (digits2_pos_bounds p) as Hp.
  assert (0 < d).
  { destruct (Z_lt_le_dec 0 d); [done |]. assert (2 ^ d <= 2 ^ 0) as Hc; [| cbn in Hc; lia].
    apply Z.pow_le_mono_r; lia. }
  destruct (Z.lt_total (Zpos (digits2_pos p)) d) as [Hc | [Hc | Hc]]; [| done |].
  - pose proof (Z.pow_le_mono_r 2 (Zpos (digits2_pos p)) (d - 1)). lia.
  - pose proof (Z.pow_le_mono_r 2 d (Zpos (digits2_pos p) - 1)). lia.
Qed.

Lemma Zdigits2_nonneg m : 0 <= m -> 0 <= Zdigits2 m.
Proof. destruct m; cbn; lia. Qed.

Lemma Zdigits2_bounds m : 0 < m -> 2 ^ (Zdigits2 m - 1) <= m < 2 ^ Zdigits2 m.
Proof. intros Hm. destruct m; try lia. apply digits2_pos_bounds. Qed.

(** [m < 2 ^ d] bounds the number of digits, and [2 ^ (d-1) <= m] from below. *)
Lemma Zdigits2_ge m d : 0 < m -> 2 ^ (d - 1) <= m -> d <= Zdigits2 m.
Proof.
  intros Hm Hd. pose proof (Zdigits2_bounds m Hm) as [_ Hlt].
  destruct (Z_lt_le_dec (Zdigits2 m) d); [| done].
  pose proof (Z.pow_le_mono_r 2 (Zdigits2 m) (d - 1)). lia.
Qed.

Lemma Zdigits2_mul_pow2 m k : 0 < m -> 0 <= k -> Zdigits2 (m * 2 ^ k) = Zdigits2 m + k.
Proof.
  intros Hm Hk. pose proof (Zdigits2_bounds m Hm).
  assert (0 < 2 ^ k) by (apply Z.pow_pos_nonneg; lia).
  assert (0 < Zdigits2 m) by (destruct m; cbn; lia).
  apply Zdigits2_unique; [nia |].
  replace (Zdigits2 m + k - 1) with (Zdigits2 m - 1 + k) by lia.
  rewrite !Z.pow_add_r by lia. nia.
Qed.

Lemma Zdigits2_div_pow2 m k :
  0 < m -> 0 <= k < Zdigits2 m -> Zdigits2 (m / 2 ^ k) = Zdigits2 m - k.
Proof.
  intros Hm Hk. pose proof (Zdigits2_bounds m Hm) as [Hl Hu].
  assert (0 < 2 ^ k) by (apply Z.pow_pos_nonneg; lia).
  assert (2 ^ (Zdigits2 m - 1 - k) <= m / 2 ^ k) as Hlo.
  { apply Z.div_le_lower_bound; [done |]. rewrite <- Z.pow_add_r by lia.
    replace (k + (Zdigits2 m - 1 - k)) with (Zdigits2 m - 1) by lia. done. }
  assert (0 < 2 ^ (Zdigits2 m - 1 - k)) by (apply Z.pow_pos_nonneg; lia).
  apply Zdigits2_unique; [lia |]. split.
  - replace (Zdigits2 m - k - 1) with (Zdigits2 m - 1 - k) by lia. done.
  - apply Z.div_lt_upper_bound; [done |]. rewrite <- Z.pow_add_r by lia.
    replace (k + (Zdigits2 m - k)) with (Zdigits2 m) by lia. done.
Qed.

Lemma div_pow2_small m k : 0 <= m -> Zdigits2 m <= k -> m / 2 ^ k = 0.
Proof.
  intros Hm Hk. apply Z.div_small.
  destruct (Z.eq_dec m 0) as [-> | Hn].
  - split; [done |]. cbn in Hk. apply Z.pow_pos_nonneg; lia.
  - pose proof (Zdigits2_bounds m ltac:(lia)).
    pose proof (Z.pow_le_mono_r 2 (Zdigits2 m) k). lia.
Qed.

Lemma shr_1_m mrs : 0 <= shr_m mrs -> shr_m (shr_1 mrs) = shr_m mrs / 2.
Proof.
  destruct mrs as [m r s]. cbn. destruct m as [| [p | p |] | p]; cbn; intros; try lia; try done.
  - rewrite Pos2Z.inj_xI. rewrite Z.add_comm, Z.mul_comm, Z.div_add by lia. done.
  - rewrite Pos2Z.inj_xO, Z.mul_comm, Z.div_mul by lia. done.
Qed.

Lemma shr_iter_m n mrs :
  0 <= shr_m mrs -> shr_m (SpecFloat.iter_pos shr_1 n mrs) = shr_m mrs / 2 ^ Zpos n.
Proof.
  revert mrs. induction n as [n IH | n IH |]; intros mrs Hm; cbn [SpecFloat.iter_pos].
  - assert (0 <= shr_m (shr_1 mrs)) by (rewrite shr_1_m by done; by apply Z.div_pos).
    rewrite IH, IH, shr_1_m; try done.
    + assert (0 < 2 ^ Zpos n) by (apply Z.pow_pos_nonneg; lia).
      rewrite !Z.div_div by lia. f_equal.
      replace (Zpos n~1) with (1 + Zpos n + Zpos n) by lia.
      by rewrite !Z.pow_add_r, Z.mul_assoc by lia.
    + rewrite IH by done. apply Z.div_pos; lia.
  - rewrite IH, IH; try done.
    + assert (0 < 2 ^ Zpos n) by (apply Z.pow_pos_nonneg; lia).
      rewrite Z.div_div by lia. f_equal.
      replace (Zpos n~0) with (Zpos n + Zpos n) by lia. by rewrite Z.pow_add_r by lia.
    + rewrite IH by done. apply Z.div_pos; lia.
  - by apply shr_1_m.
Qed.

(** ** Rounding *)

Section Rounding.
Context (prec emax : Z) (Hprec : 1 < prec) (Hemax : prec < emax).

Abbreviation fexp := (SpecFloat.fexp prec emax).
Abbreviation emin := (SpecFloat.emin prec emax).
Abbreviation valid := (valid_binary prec emax).

Lemma fexp_alt e : fexp e = Z.max (e - prec) emin.
Proof. reflexivity. Qed.

Lemma emin_neg : emin < 0.
Proof. unfold SpecFloat.emin. lia. Qed.

Lemma shr_record_of_loc_m m l : shr_m (shr_record_of_loc m l) = m.
Proof. by destruct l as [| []]. Qed.

Lemma shr_fexp_spec m e l :
  0 <= m ->
  let n := Z.max 0 (fexp (Zdigits2 m + e) - e) in
  let '(mrs, e') := shr_fexp prec emax m e l in
  shr_m mrs = m / 2 ^ n /\ e' = e + n.
Proof.
  intros Hm n. unfold shr_fexp, shr.
  destruct (fexp (Zdigits2 m + e) - e) as [| p | p] eqn:E; subst n.
  - rewrite shr_record_of_loc_m. cbn. rewrite Z.div_1_r. lia.
  - rewrite shr_iter_m; rewrite shr_record_of_loc_m; [| done]. split; [f_equal; f_equal; lia | lia].
  - rewrite shr_record_of_loc_m. cbn. rewrite Z.div_1_r. lia.
Qed.

Lemma round_nearest_even_step m l :
  round_nearest_even m l = m \/ round_nearest_even m l = m + 1.
Proof. destruct l as [| []]; cbn; auto. case_if; auto. Qed.

Lemma Zdigits2_succ m :
  0 < m -> Zdigits2 (m + 1) = Zdigits2 m \/
           (Zdigits2 (m + 1) = Zdigits2 m + 1 /\ m + 1 = 2 ^ Zdigits2 m).
Proof.
  intros Hm. pose proof (Zdigits2_bounds m Hm) as [Hl Hu].
  assert (0 < Zdigits2 m) by (destruct m; cbn; lia).
  destruct (Z.eq_dec (m + 1) (2 ^ Zdigits2 m)) as [He | Hn].
  - right. split; [| done]. rewrite He. apply Zdigits2_unique; [lia |].
    replace (Zdigits2 m + 1 - 1) with (Zdigits2 m) by lia.
    rewrite Z.pow_add_r by lia. lia.
  - left. apply Zdigits2_unique; lia.
Qed.

(** The mantissa and exponent after the first shift and the rounding are
    canonical up to one more shift by at most one position. *)
Lemma round_canonical m e m2 :
  0 <= m -> e <= fexp (Zdigits2 m + e) ->
  let n := Z.max 0 (fexp (Zdigits2 m + e) - e) in
  m2 = m / 2 ^ n \/ m2 = m / 2 ^ n + 1 ->
  let n2 := Z.max 0 (fexp (Zdigits2 m2 + (e + n)) - (e + n)) in
  0 <= m2 /\
  (0 < m2 / 2 ^ n2 ->
   fexp (Zdigits2 (m2 / 2 ^ n2) + (e + n + n2)) = e + n + n2 /\ n2 <= 1).
Proof.
  intros Hm He n Hm2 n2.
  assert (n = Z.max 0 (fexp (Zdigits2 m + e) - e)) as Hndef by reflexivity.
  assert (n2 = Z.max 0 (fexp (Zdigits2 m2 + (e + n)) - (e + n))) as Hn2def by reflexivity.
  clearbody n n2.
  assert (0 < 2 ^ n) by (apply Z.pow_pos_nonneg; lia).
  assert (0 <= m / 2 ^ n) by (by apply Z.div_pos).
  assert (0 <= m2) as Hm2pos by lia. split; [done |]. intros Hres.
  pose proof emin_neg. pose proof (Zdigits2_nonneg m Hm).
  assert (0 <= n2) by lia.
  assert (e + n = fexp (Zdigits2 m + e)) as En by lia.
  assert (0 < m2) as Hm2'.
  { destruct (Z.eq_dec m2 0) as [E0 |]; [| lia]. rewrite E0, Z.div_0_l in Hres; lia. }
  destruct (Z_lt_le_dec n (Zdigits2 m)) as [Hn | Hn].
  - assert (0 < m) by (destruct m; cbn in *; lia).
    pose proof (Zdigits2_div_pow2 m n ltac:(lia) ltac:(lia)) as Hd.
    assert (0 < m / 2 ^ n) as Hq.
    { destruct (Z.eq_dec (m / 2 ^ n) 0) as [E0 |]; [| lia]. rewrite E0 in Hd. cbn in Hd. lia. }
    assert (Zdigits2 m2 = Zdigits2 m - n \/
            (Zdigits2 m2 = Zdigits2 m - n + 1 /\ m2 = 2 ^ (Zdigits2 m - n))) as [Hd2 | [Hd2 Hp2]].
    { destruct Hm2 as [-> | ->]; [by left |].
      destruct (Zdigits2_succ _ Hq) as [-> | [-> ->]]; rewrite Hd; auto. }
    + assert (n2 = 0) as -> by (rewrite !fexp_alt in *; lia). rewrite Z.div_1_r. rewrite !fexp_alt in *. lia.
    + assert (n2 = 0 \/ n2 = 1) as [-> | ->] by (rewrite !fexp_alt in *; lia).
      * rewrite Z.div_1_r. rewrite !fexp_alt in *. lia.
      * assert (Zdigits2 (m2 / 2 ^ 1) = Zdigits2 m2 - 1) as -> by (apply Zdigits2_div_pow2; lia).
        rewrite !fexp_alt in *. lia.
  - rewrite (div_pow2_small m n) in Hm2 by lia.
    assert (m2 = 1) as -> by lia. cbn [Zdigits2 digits2_pos] in *.
    assert (e + n = emin) by (rewrite !fexp_alt in *; lia).
    assert (n2 = 0) as -> by (rewrite !fexp_alt in *; lia).
    change (2 ^ 0) with 1. rewrite Z.div_1_r. cbn [Zdigits2 digits2_pos].
    rewrite fexp_alt. lia.
Qed.

Lemma binary_round_aux_valid sx m e l :
  0 <= m -> e <= fexp (Zdigits2 m + e) ->
  valid (binary_round_aux prec emax sx m e l) = true /\
  is_nan (binary_round_aux prec emax sx m e l) = false /\
  fsign (binary_round_aux prec emax sx m e l) = sx.
Proof.
  intros Hm He. unfold binary_round_aux.
  pose proof (shr_fexp_spec m e l Hm) as H1.
  destruct (shr_fexp prec emax m e l) as [mrs1 e1]. cbn in H1. destruct H1 as [Hm1 He1].
  set (m2 := round_nearest_even (shr_m mrs1) (loc_of_shr_record mrs1)) in *.
  pose proof (round_canonical m e m2 Hm He) as Hc. cbn in Hc.
  destruct Hc as [Hm2 Hcan].
  { rewrite <- Hm1. apply round_nearest_even_step. }
  pose proof (shr_fexp_spec m2 e1 loc_Exact Hm2) as H2.
  destruct (shr_fexp prec emax m2 e1 loc_Exact) as [mrs2 e2]. cbn in H2. destruct H2 as [Hm3 He3].
  rewrite <- !He1 in Hcan. rewrite <- Hm3, <- He3 in Hcan.
  assert (0 <= shr_m mrs2).
  { rewrite Hm3. apply Z.div_pos; [done |]. apply Z.pow_pos_nonneg; lia. }
  destruct (shr_m mrs2) as [| p | p]; [done | | lia].
  destruct (e2 <=? emax - prec) eqn:Ele; [| done].
  split_and!; [| done..]. cbn. unfold bounded, canonical_mantissa. rewrite Ele, andb_true_r.
  apply Z.eqb_eq. apply Hcan. lia.
Qed.

Lemma binary_round_aux_finite sx m e l :
  0 <= m -> e <= fexp (Zdigits2 m + e) -> fexp (Zdigits2 m + e) + 1 <= emax - prec ->
  is_finite (binary_round_aux prec emax sx m e l) = true.
Proof.
  intros Hm He Hbig. unfold binary_round_aux.
  pose proof (shr_fexp_spec m e l Hm) as H1.
  destruct (shr_fexp prec emax m e l) as [mrs1 e1]. cbn in H1. destruct H1 as [Hm1 He1].
  set (m2 := round_nearest_even (shr_m mrs1) (loc_of_shr_record mrs1)) in *.
  pose proof (round_canonical m e m2 Hm He) as Hc. cbn in Hc.
  destruct Hc as [Hm2 Hcan].
  { rewrite <- Hm1. apply round_nearest_even_step. }
  pose proof (shr_fexp_spec m2 e1 loc_Exact Hm2) as H2.
  destruct (shr_fexp prec emax m2 e1 loc_Exact) as [mrs2 e2]. cbn in H2. destruct H2 as [Hm3 He3].
  rewrite <- !He1 in Hcan. rewrite <- Hm3, <- He3 in Hcan.
  assert (0 <= shr_m mrs2).
  { rewrite Hm3. apply Z.div_pos; [done |]. apply Z.pow_pos_nonneg; lia. }
  destruct (shr_m mrs2) as [| p | p]; [done | | lia].
  destruct (e2 <=? emax - prec) eqn:Ele; [done |]. apply Z.leb_gt in Ele. lia.
Qed.

(** ** Aligning and normalising *)

Lemma shl_align_spec m e e' :
  let '(m', e1) := shl_align m e e' in
  e1 = Z.min e e' /\ Zpos m' = Zpos m * 2 ^ (e - e1).
Proof.
  unfold shl_align. destruct (e' - e) as [| p | p] eqn:E.
  - split; [lia |]. rewrite Z.sub_diag. cbn. lia.
  - split; [lia |]. rewrite Z.sub_diag. cbn. lia.
  - split; [lia |]. replace (e - e') with (Zpos p) by lia.
    change (Pos.iter xO m p) with (shift_pos p m).
    by rewrite Zpower.shift_pos_correct, Z.mul_comm.
Qed.

Definition canonical (x : spec_float) : Prop := valid x = true.

Lemma canonical_mantissa_inv m e :
  canonical_mantissa prec emax m e = true ->
  (Zdigits2 (Zpos m) = prec /\ emin <= e) \/ (e = emin /\ Zdigits2 (Zpos m) <= prec).
Proof.
  unfold canonical_mantissa. intros H%Z.eqb_eq. rewrite fexp_alt in H. cbn [Zdigits2]. lia.
Qed.

Lemma binary_normalize_valid m e :
  let r := binary_normalize prec emax m e false in
  valid r = true /\ is_nan r = false /\ (0 <= m -> fsign r = false).
Proof.
  cbn. destruct m as [| p | p]; [done | |].
  all: cbn; unfold binary_round;
    pose proof (shl_align_spec p e (fexp (Zpos (digits2_pos p) + e))) as Hs;
    destruct (shl_align p e _) as [mz ez]; destruct Hs as [Hez Hmz];
    match goal with
    | |- context [binary_round_aux _ _ ?s _ _ _] =>
        destruct (binary_round_aux_valid s (Zpos mz) ez loc_Exact) as (? & ? & ?)
    end; [lia | | split_and!; auto; intros; lia].
  all: rewrite Hmz, Zdigits2_mul_pow2 by lia; cbn [Zdigits2];
    replace (Zpos (digits2_pos p) + (e - ez) + ez) with (Zpos (digits2_pos p) + e) by lia; lia.
Qed.

Lemma Zdigits2_mul_ge a b :
  0 < a -> 0 < b -> Zdigits2 a + Zdigits2 b - 1 <= Zdigits2 (a * b).
Proof.
  intros Ha Hb. pose proof (Zdigits2_bounds a Ha). pose proof (Zdigits2_bounds b Hb).
  assert (0 < Zdigits2 a) by (destruct a; cbn; lia).
  assert (0 < Zdigits2 b) by (destruct b; cbn; lia).
  apply Zdigits2_ge; [nia |].
  replace (Zdigits2 a + Zdigits2 b - 1 - 1) with ((Zdigits2 a - 1) + (Zdigits2 b - 1)) by lia.
  rewrite Z.pow_add_r by lia.
  assert (0 < 2 ^ (Zdigits2 a - 1)) by (apply Z.pow_pos_nonneg; lia).
  assert (0 < 2 ^ (Zdigits2 b - 1)) by (apply Z.pow_pos_nonneg; lia). nia.
Qed.

Lemma Zdigits2_quot a b s :
  0 < a -> 0 < b -> 0 <= s ->
  Zdigits2 a + s - Zdigits2 b <= Zdigits2 (a * 2 ^ s / b).
Proof.
  intros Ha Hb Hs. pose proof (Zdigits2_bounds a Ha). pose proof (Zdigits2_bounds b Hb).
  assert (0 < Zdigits2 a) by (destruct a; cbn; lia).
  assert (0 < Zdigits2 b) by (destruct b; cbn; lia).
  assert (0 < 2 ^ s) by (apply Z.pow_pos_nonneg; lia).
  set (k := Zdigits2 a + s - Zdigits2 b).
  destruct (Z_le_gt_dec k 0) as [Hk | Hk].
  { pose proof (Zdigits2_nonneg (a * 2 ^ s / b)). pose proof (Z.div_pos (a * 2 ^ s) b). lia. }
  assert (2 ^ (k - 1) <= a * 2 ^ s / b) as Hq.
  { apply Z.div_le_lower_bound; [done |].
    transitivity (2 ^ (Zdigits2 a - 1) * 2 ^ s); [| nia].
    rewrite <- Z.pow_add_r by lia.
    replace (Zdigits2 a - 1 + s) with (Zdigits2 b + (k - 1)) by lia.
    rewrite Z.pow_add_r by lia.
    assert (0 < 2 ^ (k - 1)) by (apply Z.pow_pos_nonneg; lia). nia. }
  assert (0 < 2 ^ (k - 1)) by (apply Z.pow_pos_nonneg; lia).
  apply Zdigits2_ge; lia.
Qed.

(** ** The four operations *)

Lemma SFadd_valid x y : valid x = true -> valid y = true -> valid (SFadd prec emax x y) = true.
Proof.
  intros Hx Hy. destruct x as [[] | [] | | sx mx ex], y as [[] | [] | | sy my ey]; try done.
  apply binary_normalize_valid.
Qed.

Lemma SFsub_valid x y : valid x = true -> valid y = true -> valid (SFsub prec emax x y) = true.
Proof.
  intros Hx Hy. destruct x as [[] | [] | | sx mx ex], y as [[] | [] | | sy my ey]; try done.
  apply binary_normalize_valid.
Qed.

Lemma SFmul_fin mx ex my ey sx sy :
  valid (S754_finite sx mx ex) = true -> valid (S754_finite sy my ey) = true ->
  let r := SFmul prec emax (S754_finite sx mx ex) (S754_finite sy my ey) in
  valid r = true /\ is_nan r = false /\ fsign r = xorb sx sy.
Proof.
  cbn. unfold bounded. intros [Hx _]%andb_true_iff [Hy _]%andb_true_iff.
  apply canonical_mantissa_inv in Hx, Hy.
  apply binary_round_aux_valid; [lia |].
  pose proof (Zdigits2_mul_ge (Zpos mx) (Zpos my) ltac:(lia) ltac:(lia)) as Hd.
  rewrite Pos2Z.inj_mul, fexp_alt. pose proof emin_neg.
  assert (0 < Zdigits2 (Zpos mx)) by (cbn; lia). assert (0 < Zdigits2 (Zpos my)) by (cbn; lia).
  lia.
Qed.

Lemma SFmul_valid x y : valid x = true -> valid y = true -> valid (SFmul prec emax x y) = true.
Proof.
  intros Hx Hy. destruct x as [[] | [] | | sx mx ex], y as [[] | [] | | sy my ey]; try done.
  by apply SFmul_fin.
Qed.

Lemma SFdiv_fin mx ex my ey sx sy :
  let r := SFdiv prec emax (S754_finite sx mx ex) (S754_finite sy my ey) in
  valid r = true /\ is_nan r = false /\ fsign r = xorb sx sy.
Proof.
  cbn [SFdiv]. unfold SFdiv_core_binary.
  set (d1 := Zdigits2 (Zpos mx)). set (d2 := Zdigits2 (Zpos my)).
  set (e' := Z.min (fexp (d1 + ex - (d2 + ey))) (ex - ey)).
  set (s := ex - ey - e').
  assert (0 <= s) as Hs by (unfold s, e'; lia).
  assert (match s with Z0 => Zpos mx | Zpos _ => Z.shiftl (Zpos mx) s | Zneg _ => 0 end
          = Zpos mx * 2 ^ s) as ->.
  { destruct s; [cbn; lia | | lia]. by rewrite Z.shiftl_mul_pow2 by lia. }
  assert (0 < 2 ^ s) by (apply Z.pow_pos_nonneg; lia).
  pose proof (Zdigits2_quot (Zpos mx) (Zpos my) s ltac:(lia) ltac:(lia) Hs) as Hq.
  pose proof (Z.div_pos (Zpos mx * 2 ^ s) (Zpos my) ltac:(lia) ltac:(lia)) as Hpos.
  unfold Z.div in Hq, Hpos.
  destruct (Z.div_eucl (Zpos mx * 2 ^ s) (Zpos my)) as [q r].
  apply binary_round_aux_valid; [done |].
  fold d1 d2 in Hq.
  assert (e' <= fexp (d1 + ex - (d2 + ey))) as He' by (unfold e'; lia).
  assert (e' = ex - ey - s) by (unfold s; lia).
  clearbody e' s. rewrite !fexp_alt in *. lia.
Qed.

Lemma SFdiv_valid x y : valid x = true -> valid y = true -> valid (SFdiv prec emax x y) = true.
Proof.
  intros Hx Hy. destruct x as [[] | [] | | sx mx ex], y as [[] | [] | | sy my ey]; try done.
  by apply SFdiv_fin.
Qed.

(** ** Signs of sums and differences *)

Definition nonneg (x : spec_float) : Prop := fle f0 x = true.

Lemma nonneg_sign x : is_nan x = false -> fsign x = false -> nonneg x.
Proof. unfold nonneg. by destruct x as [[] | [] | | [] m e]. Qed.

(** The canonical order of two positive finite floats is the order of their
    values, compared at the common exponent. *)
Lemma fle_aligned mx ex my ey :
  valid (S754_finite false mx ex) = true -> valid (S754_finite false my ey) = true ->
  fle (S754_finite false my ey) (S754_finite false mx ex) = true ->
  let ez := Z.min ex ey in
  Zpos (fst (shl_align my ey ez)) <= Zpos (fst (shl_align mx ex ez)).
Proof.
  cbn [valid_binary]. unfold bounded.
  intros [Hx _]%andb_true_iff [Hy _]%andb_true_iff Hle.
  set (ez := Z.min ex ey).
  apply canonical_mantissa_inv in Hx, Hy.
  apply fle_key in Hle as (_ & _ & Hle). cbn in Hle.
  pose proof (shl_align_spec mx ex ez) as Hax. pose proof (shl_align_spec my ey ez) as Hay.
  destruct (shl_align mx ex ez) as [ax eax], (shl_align my ey ez) as [ay eay]. cbn in *.
  destruct Hax as [-> ->], Hay as [-> ->].
  replace (ex - Z.min ex ez) with (ex - ez) by lia.
  replace (ey - Z.min ey ez) with (ey - ez) by lia.
  assert (ey < ex \/ (ey = ex /\ Zpos my <= Zpos mx)) as [Hlt | [-> Hm]] by lia.
  - assert (ez = ey) as -> by lia. rewrite Z.sub_diag, Z.mul_1_r.
    assert (Z.pos (digits2_pos mx) = prec) as Hd by lia.
    assert (Z.pos (digits2_pos my) <= prec) as Hd' by lia.
    pose proof (digits2_pos_bounds mx) as [Hb _]. pose proof (digits2_pos_bounds my) as [_ Hb'].
    rewrite Hd in Hb. pose proof (Z.pow_le_mono_r 2 _ _ ltac:(lia) Hd').
    pose proof (Z.pow_le_mono_r 2 1 (ex - ey) ltac:(lia) ltac:(lia)).
    pose proof (Z.pow_succ_r 2 (prec - 1) ltac:(lia)) as Hp.
    replace (Z.succ (prec - 1)) with prec in Hp by lia. nia.
  - assert (ez = ex) as -> by lia. rewrite Z.sub_diag. lia.
Qed.

Lemma SFsub_nonneg x y :
  valid x = true -> valid y = true -> is_finite y = true ->
  nonneg y -> fle y x = true -> nonneg (SFsub prec emax x y).
Proof.
  intros Hx Hy Hfy Hny Hle.
  destruct x as [[] | [] | | [] mx ex], y as [[] | [] | | [] my ey]; try done.
  cbn [SFsub cond_Zopp]. set (ez := Z.min ex ey).
  pose proof (fle_aligned mx ex my ey Hx Hy Hle) as Ha. cbn in Ha. fold ez in Ha.
  match goal with
  | |- nonneg (binary_normalize _ _ ?m ?e false) =>
      destruct (binary_normalize_valid m e) as (_ & Hn & Hs)
  end.
  apply nonneg_sign; [done |]. apply Hs. lia.
Qed.

Lemma SFadd_nonneg x y : nonneg x -> nonneg y -> nonneg (SFadd prec emax x y).
Proof.
  intros Hnx Hny.
  destruct x as [[] | [] | | [] mx ex], y as [[] | [] | | [] my ey]; try done.
  cbn [SFadd cond_Zopp].
  match goal with
  | |- nonneg (binary_normalize _ _ ?m ?e false) =>
      destruct (binary_normalize_valid m e) as (_ & Hn & Hs)
  end.
  apply nonneg_sign; [done |]. apply Hs. lia.
Qed.

Lemma SFdiv_nonneg x y :
  nonneg x -> nonneg y -> is_finite x = true -> is_finite y = true -> fle y f0 = false ->
  nonneg (SFdiv prec emax x y).
Proof.
  intros Hnx Hny Hfx Hfy Hy0.
  destruct x as [[] | [] | | [] mx ex], y as [[] | [] | | [] my ey]; try done.
  destruct (SFdiv_fin mx ex my ey false false) as (_ & Hn & Hs).
  by apply nonneg_sign.
Qed.
End Rounding.

(** ** The two formats of the program *)

Definition f32_ok (x : f32) : Prop := valid_binary 24 128 x = true.
Definition f64_ok (x : f64) : Prop := valid_binary 53 1024 x = true.

Lemma f32_add_ok x y : f32_ok x -> f32_ok y -> f32_ok (f32_add x y).
Proof. apply SFadd_valid; lia. Qed.
Lemma f32_sub_ok x y : f32_ok x -> f32_ok y -> f32_ok (f32_sub x y).
Proof. apply SFsub_valid; lia. Qed.
Lemma f32_mul_ok x y : f32_ok x -> f32_ok y -> f32_ok (f32_mul x y).
Proof. apply SFmul_valid; lia. Qed.
Lemma f32_div_ok x y : f32_ok x -> f32_ok y -> f32_ok (f32_div x y).
Proof. apply SFdiv_valid; lia. Qed.
Lemma f32_of_Z_ok z : f32_ok (f32_of_Z z).
Proof. apply binary_normalize_valid; lia. Qed.
Lemma f32_f0_ok : f32_ok f0.
Proof. reflexivity. Qed.
Lemma f32_f2_ok : f32_ok f2.
Proof. reflexivity. Qed.
Lemma std_min_ok x y : f32_ok x -> f32_ok y -> f32_ok (std_min x y).
Proof. unfold std_min. by case_if. Qed.
Lemma std_max_ok x y : f32_ok x -> f32_ok y -> f32_ok (std_max x y).
Proof. unfold std_max. by case_if. Qed.

#[export] Hint Resolve f32_add_ok f32_sub_ok f32_mul_ok f32_div_ok f32_of_Z_ok f32_f0_ok
  f32_f2_ok std_min_ok std_max_ok : mgen.

Lemma f32_of_Z_nonnan z : is_nan (f32_of_Z z) = false.
Proof. apply binary_normalize_valid; lia. Qed.

Lemma f32_of_Z_nonneg z : 0 <= z -> nonneg (f32_of_Z z).
Proof.
  intros Hz. destruct (binary_normalize_valid 24 128 ltac:(lia) ltac:(lia) z 0) as (_ & ? & Hs).
  apply nonneg_sign; auto.
Qed.

Lemma f32_sub_nonneg x y :
  f32_ok x -> f32_ok y -> is_finite y = true -> nonneg y -> fle y x = true -> nonneg (f32_sub x y).
Proof. apply SFsub_nonneg; lia. Qed.

Lemma f32_add_nonneg x y : nonneg x -> nonneg y -> nonneg (f32_add x y).
Proof. apply SFadd_nonneg; lia. Qed.

Lemma nonneg_nonnan x : nonneg x -> is_nan x = false.
Proof. apply fle_nan_r. Qed.

(** A float between 0 and a finite float is finite. *)
Lemma fle_finite x y :
  nonneg x -> fle x y = true -> is_finite y = true -> is_finite x = true.
Proof. unfold nonneg. destruct x as [[] | [] | | [] ? ?], y as [[] | [] | | [] ? ?]; done. Qed.

#[export] Hint Resolve f32_of_Z_nonnan nonneg_nonnan f32_add_nonneg : mgen.

(** [int] values convert to finite floats. *)
Lemma f32_of_Z_finite z : in_i32 z -> is_finite (f32_of_Z z) = true.
Proof.
  intros Hz. unfold f32_of_Z, binary_normalize. destruct z as [| p | p]; [done | |].
  all: unfold binary_round;
    pose proof (shl_align_spec p 0 (fexp 24 128 (Zpos (digits2_pos p) + 0))) as Hs;
    destruct (shl_align p 0 _) as [mz ez]; destruct Hs as [Hez Hmz];
    assert (Zpos (digits2_pos p) <= 32) as Hd;
    [ apply Z.nlt_ge; intros Hd; pose proof (digits2_pos_bounds p) as [Hb _];
      pose proof (Z.pow_le_mono_r 2 32 (Zpos (digits2_pos p) - 1)); unfold in_i32 in Hz; lia |].
  all: assert (Zdigits2 (Zpos mz) + ez = Zpos (digits2_pos p)) as Hsum
      by (rewrite Hmz, Zdigits2_mul_pow2 by lia; cbn [Zdigits2]; lia);
    assert (Zpos (digits2_pos p) + 0 = Zpos (digits2_pos p)) as Hz0 by lia;
    rewrite Hz0 in Hez; apply binary_round_aux_finite; try lia; rewrite Hsum;
    unfold fexp, emin in *; lia.
Qed.

#[export] Hint Resolve f32_of_Z_finite : mgen.

(** The scale: [2 ^ 400] times the smallest exponents is still integral. *)
Definition K : Z := 400.

(** The scaled value of a non-negative float. *)
Definition sval (x : f32) : Z :=
  match x with S754_finite false m e => Zpos m * 2 ^ (e + K) | _ => 0 end.

Abbreviation fexp32 := (SpecFloat.fexp 24 128).

Lemma fexp32_alt e : fexp32 e = Z.max (e - 24) (-149).
Proof. reflexivity. Qed.

Lemma pow2_pos k : 0 <= k -> 0 < 2 ^ k.
Proof. intros. by apply Z.pow_pos_nonneg. Qed.

Lemma pow2_lt_inv a b : 0 <= b -> 2 ^ a < 2 ^ b -> a < b.
Proof. intros Hb H. destruct (Z_lt_le_dec a b) as [|Hba]; [done |]. pose proof (Z.pow_le_mono_r 2 b a). lia. Qed.

(** The rounded value is at most one unit in the last place above the truncated
    one. *)
Lemma round_upper m e l :
  0 <= m -> e <= fexp32 (Zdigits2 m + e) -> 0 <= e + K ->
  let e1 := fexp32 (Zdigits2 m + e) in
  sval (binary_round_aux 24 128 false m e l) <= (m / 2 ^ (e1 - e) + 1) * 2 ^ (e1 + K).
Proof.
  intros Hm He HeK e1. unfold binary_round_aux.
  pose proof (shr_fexp_spec 24 128 m e l Hm) as H1.
  destruct (shr_fexp 24 128 m e l) as [mrs1 e1']. cbn in H1. destruct H1 as [Hm1 He1].
  fold e1 in Hm1, He1. replace (Z.max 0 (e1 - e)) with (e1 - e) in * by lia.
  pose proof (pow2_pos (e1 - e) ltac:(lia)). pose proof (pow2_pos (e1 + K) ltac:(lia)).
  assert (0 <= m / 2 ^ (e1 - e)) by (apply Z.div_pos; lia).
  set (m2 := round_nearest_even (shr_m mrs1) (loc_of_shr_record mrs1)).
  assert (m2 = m / 2 ^ (e1 - e) \/ m2 = m / 2 ^ (e1 - e) + 1) as Hm2 by (rewrite <- Hm1; apply round_nearest_even_step).
  clearbody m2. pose proof (shr_fexp_spec 24 128 m2 e1' loc_Exact ltac:(lia)) as H2.
  destruct (shr_fexp 24 128 m2 e1' loc_Exact) as [mrs2 e2]. cbn in H2. destruct H2 as [Hm3 He3].
  set (n := Z.max 0 _) in *. assert (0 <= n) by lia. clearbody n.
  replace e1' with e1 in * by lia. destruct (shr_m mrs2) as [| p | p] eqn:Ep; [cbn [sval]; nia | | cbn [sval]; nia].
  destruct (e2 <=? 128 - 24); [| cbn [sval]; nia]. cbn [sval].
  rewrite He3, Hm3. replace (e1 + n + K) with (n + (e1 + K)) by lia. rewrite Z.pow_add_r by lia.
  pose proof (pow2_pos n ltac:(lia)) as Hn. pose proof (Z.mul_div_le m2 (2 ^ n) Hn). nia.
Qed.

Lemma f32_finite_bounds s m e :
  f32_ok (S754_finite s m e) -> 2 ^ 23 <= Zpos m < 2 ^ 24 /\ -149 <= e \/ e = -149 /\ Zpos m < 2 ^ 24.
Proof.
  unfold f32_ok. cbn [valid_binary]. unfold bounded. intros [H _]%andb_true_iff.
  apply canonical_mantissa_inv in H; [| lia..]. pose proof (Zdigits2_bounds (Zpos m) ltac:(lia)) as Hb.
  destruct H as [[Hd He] | [He Hd]].
  - left. rewrite Hd in Hb. split; [lia | exact He].
  - right. split; [exact He |]. pose proof (Z.pow_le_mono_r 2 _ _ ltac:(lia) Hd). lia.
Qed.

Lemma f32_exponent s m e : f32_ok (S754_finite s m e) -> -149 <= e.
Proof. intros H. apply f32_finite_bounds in H. lia. Qed.

(** A product strictly below a sixteenth of an integer stays there. *)
Lemma mul_upper x y T :
  f32_ok x -> f32_ok y -> nonneg x -> nonneg y -> is_finite x = true -> is_finite y = true ->
  0 < T < 2 ^ 24 -> sval x * sval y < T * 2 ^ (2 * K - 4) ->
  sval (f32_mul x y) <= T * 2 ^ (K - 4) /\ nonneg (f32_mul x y) /\ is_finite (f32_mul x y) = true.
Proof.
  intros Hx Hy Hnx Hny Hfx Hfy HT Hlt. pose proof (pow2_pos (K - 4) ltac:(unfold K; lia)).
  destruct x as [[] | [] | | [] mx ex], y as [[] | [] | | [] my ey]; try done; try (split; [cbn [f32_mul SFmul sval xorb]; nia | done]).
  pose proof (f32_exponent _ _ _ Hx). pose proof (f32_exponent _ _ _ Hy).
  pose proof (SFmul_fin 24 128 ltac:(lia) ltac:(lia) mx ex my ey false false Hx Hy) as (_ & Hnan & Hsign).
  unfold f32_mul. cbn [SFmul xorb sval] in *. set (m := Zpos (mx * my)). set (E := ex + ey).
  assert (0 < m) as Hm by (unfold m; lia).
  assert (m * 2 ^ (E + K) < T * 2 ^ (K - 4)) as Hlt'.
  { assert (2 ^ (ex + K) * 2 ^ (ey + K) = 2 ^ (E + K) * 2 ^ K) as E1
      by (rewrite <- !Z.pow_add_r by (unfold E, K in *; lia); f_equal; unfold E; lia).
    assert (2 ^ (2 * K - 4) = 2 ^ (K - 4) * 2 ^ K) as E2 by (rewrite <- Z.pow_add_r by (unfold K; lia); f_equal; lia).
    assert (0 < 2 ^ K) by (apply pow2_pos; unfold K; lia). unfold m. rewrite Pos2Z.inj_mul.
    rewrite E2 in Hlt. nia. }
  pose proof (Zdigits2_bounds m Hm) as [Hd _].
  assert (Zdigits2 m + E <= 20) as Hd20.
  { assert (2 ^ (Zdigits2 m - 1 + (E + K)) < 2 ^ (24 + (K - 4))) as Hp.
    { assert (0 < Zdigits2 m) by (destruct m; cbn; lia).
      rewrite (Z.pow_add_r 2 (Zdigits2 m - 1)), (Z.pow_add_r 2 24) by (unfold E, K in *; lia).
      pose proof (pow2_pos (E + K) ltac:(unfold E, K in *; lia)).
      apply (Z.le_lt_trans _ (m * 2 ^ (E + K))); [by apply Z.mul_le_mono_nonneg_r; lia |].
      apply (Z.lt_le_trans _ _ _ Hlt'). apply Z.mul_le_mono_nonneg_r; lia. }
    apply pow2_lt_inv in Hp; unfold K in *; lia. }
  assert (E <= fexp32 (Zdigits2 m + E)) as HE.
  { rewrite fexp32_alt. pose proof (Zdigits2_mul_ge 24 ltac:(lia) (Zpos mx) (Zpos my) ltac:(lia) ltac:(lia)) as Hg.
    rewrite <- Pos2Z.inj_mul in Hg. fold m in Hg.
    assert (0 < Zdigits2 (Zpos mx)) by (cbn; lia). assert (0 < Zdigits2 (Zpos my)) by (cbn; lia).
    assert (forall p e, f32_ok (S754_finite false p e) -> 24 <= Zdigits2 (Zpos p) \/ e = -149) as H24.
    { intros p e Hp. apply f32_finite_bounds in Hp as [[Hp _] | [Hp _]]; [left | by right].
      apply Zdigits2_ge; [lia | exact (proj1 Hp)]. }
    destruct (H24 _ _ Hx), (H24 _ _ Hy); unfold E; lia. }
  set (e1 := fexp32 (Zdigits2 m + E)) in *. assert (-149 <= e1 <= -4) as He1 by (unfold e1; rewrite fexp32_alt; lia).
  split; [| split].
  - etrans; [apply round_upper; [lia | exact HE | unfold E, K; lia] |]. fold e1.
    assert (2 ^ (K - 4) = 2 ^ (-4 - e1) * 2 ^ (e1 + K)) as -> by (rewrite <- Z.pow_add_r by (unfold K; lia); f_equal; lia).
    rewrite Z.mul_assoc. apply Z.mul_le_mono_nonneg_r; [apply Z.pow_nonneg; lia |].
    assert (m / 2 ^ (e1 - E) < T * 2 ^ (-4 - e1)); [| lia].
    apply Z.div_lt_upper_bound; [apply pow2_pos; lia |].
    assert (2 ^ (E + K) > 0) by (apply Z.lt_gt, pow2_pos; unfold E, K; lia).
    apply (Zmult_lt_reg_r _ _ (2 ^ (E + K))); [lia |].
    assert (2 ^ (e1 - E) * (T * 2 ^ (-4 - e1)) * 2 ^ (E + K) = T * 2 ^ (K - 4)) as ->; [| done].
    rewrite <- (Z.mul_comm (2 ^ (E + K))), !Z.mul_assoc, <- Z.pow_add_r by (unfold E, K in *; lia).
    rewrite (Z.mul_comm _ T), <- Z.mul_assoc, <- Z.pow_add_r by (unfold E, K in *; lia). do 2 f_equal. lia.
  - apply nonneg_sign; done.
  - apply binary_round_aux_finite; [lia.. | exact HE |]. fold e1. lia.
Qed.

(** An integer of no more than [prec] bits is exact. *)
Lemma binary_round_exact prec emax s p :
  0 < prec -> prec <= emax -> 2 <= emax -> Zpos p < 2 ^ prec ->
  exists m e, binary_round prec emax s p 0 = S754_finite s m e /\ Zpos m = Zpos p * 2 ^ (prec - Zdigits2 (Zpos p)) /\ e = Zdigits2 (Zpos p) - prec.
Proof.
  intros Hp Hx Hx2 Hn. unfold binary_round.
  pose proof (shl_align_spec p 0 (fexp prec emax (Zpos (digits2_pos p) + 0))) as Hs.
  destruct (shl_align p 0 _) as [mz ez]. destruct Hs as [Hez Hmz].
  pose proof (Zdigits2_bounds (Zpos p) ltac:(lia)) as [Hb Hb']. change (Zdigits2 (Zpos p)) with (Zpos (digits2_pos p)) in *.
  set (d := Zpos (digits2_pos p)) in *. assert (1 <= d) as Hd1 by (unfold d; lia). clearbody d.
  assert (d <= prec) as Hd by (apply Z.nlt_ge; intros Hc; pose proof (Z.pow_le_mono_r 2 prec (d - 1)); lia).
  unfold fexp, emin in *. assert (ez = d - prec) as -> by lia.
  replace (0 - (d - prec)) with (prec - d) in Hmz by lia.
  assert (Zdigits2 (Zpos mz) = prec) as Hdz.
  { rewrite Hmz. apply Zdigits2_unique; [pose proof (pow2_pos (prec - d)); nia |].
    replace (prec - 1) with ((d - 1) + (prec - d)) by lia. replace (2 ^ prec) with (2 ^ (d + (prec - d))) by (f_equal; lia).
    rewrite !Z.pow_add_r by lia. pose proof (pow2_pos (prec - d)). nia. }
  exists mz, (d - prec). split; [| done]. unfold binary_round_aux, shr_fexp, shr, fexp, emin. rewrite Hdz.
  replace (Z.max (prec + (d - prec) - prec) (3 - emax - prec) - (d - prec)) with 0 by lia. cbn [shr_record_of_loc loc_of_shr_record round_nearest_even shr_m].
  rewrite Hdz. replace (Z.max (prec + (d - prec) - prec) (3 - emax - prec) - (d - prec)) with 0 by lia.
  cbn [shr_record_of_loc shr_m]. by rewrite (proj2 (Z.leb_le _ _)) by lia.
Qed.

(** Integers below [2 ^ 24] are exact. *)
Lemma f32_of_Z_exact n :
  0 < n < 2 ^ 24 ->
  exists m e, f32_of_Z n = S754_finite false m e /\ Zpos m = n * 2 ^ (24 - Zdigits2 n) /\ e = Zdigits2 n - 24.
Proof. intros Hn. destruct n as [| p | p]; try lia. apply (binary_round_exact 24 128); lia. Qed.

(** An integer below [2 ^ 53] comes back from its double. *)
Lemma f64_of_Z_exact n : Z.abs n < 2 ^ 53 -> f_trunc (f64_of_Z n) = n /\ is_finite (f64_of_Z n) = true.
Proof.
  assert (forall s p, Zpos p < 2 ^ 53 -> f_trunc (binary_round 53 1024 s p 0) = (if s then Zneg p else Zpos p) /\ is_finite (binary_round 53 1024 s p 0) = true) as Hg.
  { intros s p Hp. destruct (binary_round_exact 53 1024 s p) as (m & e & -> & Hm & He); [lia.. |]. split; [| done]. cbn [f_trunc].
    pose proof (Zdigits2_bounds (Zpos p) ltac:(lia)) as [Hb _]. set (d := Zdigits2 (Zpos p)) in *.
    assert (d <= 53) as Hd by (apply Z.nlt_ge; intros Hc; pose proof (Z.pow_le_mono_r 2 53 (d - 1)); lia). clearbody d.
    assert ((if 0 <=? e then Zpos m * 2 ^ e else Zpos m / 2 ^ (- e)) = Zpos p) as ->; [| by destruct s].
    rewrite Hm. destruct (Z.leb_spec 0 e).
    - replace e with 0 by lia. replace (53 - d) with 0 by lia. lia.
    - replace (- e) with (53 - d) by lia. rewrite Z.div_mul; [done |]. pose proof (pow2_pos (53 - d)). lia. }
  intros Hn. destruct n as [| p | p]; [done | apply (Hg false); lia | apply (Hg true); lia].
Qed.

Lemma sval_of_Z n : 0 < n < 2 ^ 24 -> sval (f32_of_Z n) = n * 2 ^ K.
Proof.
  intros Hn. destruct (f32_of_Z_exact n Hn) as (m & e & -> & Hm & He). cbn [sval].
  assert (Zdigits2 n <= 24) as Hd.
  { apply Z.nlt_ge. intros Hc. pose proof (Zdigits2_bounds n ltac:(lia)). pose proof (Z.pow_le_mono_r 2 24 (Zdigits2 n - 1)). lia. }
  pose proof (Zdigits2_nonneg n ltac:(lia)).
  rewrite Hm, He, <- Z.mul_assoc, <- Z.pow_add_r by (unfold K; lia). do 2 f_equal. lia.
Qed.

(** A quotient of integers is at most [1 + 2 ^ -23] times the exact one. *)
Lemma div_upper a b :
  0 < a < 2 ^ 24 -> 0 < b < 2 ^ 24 ->
  sval (f32_div (f32_of_Z a) (f32_of_Z b)) * b * 2 ^ 23 <= a * (2 ^ 23 + 1) * 2 ^ K /\
  nonneg (f32_div (f32_of_Z a) (f32_of_Z b)) /\ is_finite (f32_div (f32_of_Z a) (f32_of_Z b)) = true.
Proof.
  intros Ha Hb. destruct (f32_of_Z_exact a Ha) as (mx & ex & Ex & Hmx & Hex).
  destruct (f32_of_Z_exact b Hb) as (my & ey & Ey & Hmy & Hey).
  pose proof (f32_of_Z_ok a) as Hokx. pose proof (f32_of_Z_ok b) as Hoky. rewrite Ex in Hokx. rewrite Ey in Hoky.
  pose proof (sval_of_Z a Ha) as Hsx. pose proof (sval_of_Z b Hb) as Hsy. rewrite Ex in Hsx. rewrite Ey in Hsy.
  rewrite Ex, Ey. pose proof (SFdiv_fin 24 128 ltac:(lia) ltac:(lia) mx ex my ey false false) as (_ & Hnan & Hsg).
  assert (nonneg (f32_div (S754_finite false mx ex) (S754_finite false my ey))) as Hnn by by apply nonneg_sign.
  clear Hnan Hsg. cbn [sval] in Hsx, Hsy.
  assert (-23 <= ex <= 0 /\ -23 <= ey <= 0) as [Hexb Heyb].
  { assert (forall n, 0 < n < 2 ^ 24 -> 1 <= Zdigits2 n <= 24) as Hd; [| pose proof (Hd a Ha); pose proof (Hd b Hb); lia].
    intros n Hn. pose proof (Zdigits2_bounds n ltac:(lia)). split; [destruct n; cbn; lia |].
    apply Z.nlt_ge. intros Hc. pose proof (Z.pow_le_mono_r 2 24 (Zdigits2 n - 1)). lia. }
  revert Hnn. unfold f32_div. cbn [SFdiv]. unfold SFdiv_core_binary.
  assert (Zdigits2 (Zpos mx) = 24) as Hd1.
  { rewrite Hmx, Zdigits2_mul_pow2 by lia. lia. }
  assert (Zdigits2 (Zpos my) = 24) as Hd2.
  { rewrite Hmy, Zdigits2_mul_pow2 by lia. lia. }
  rewrite Hd1, Hd2. set (e' := Z.min (fexp32 (24 + ex - (24 + ey))) (ex - ey)). set (s := ex - ey - e').
  assert (e' = ex - ey - 24) as He' by (unfold e'; rewrite fexp32_alt; lia). assert (s = 24) as Hs by (unfold s; lia).
  clearbody e' s. rewrite Hs. rewrite Z.shiftl_mul_pow2 by lia.
  pose proof (Zdigits2_quot (Zpos mx) (Zpos my) 24 ltac:(lia) ltac:(lia) ltac:(lia)) as Hq.
  pose proof (Z.div_pos (Zpos mx * 2 ^ 24) (Zpos my) ltac:(lia) ltac:(lia)) as Hpos.
  pose proof (Z.mul_div_le (Zpos mx * 2 ^ 24) (Zpos my) ltac:(lia)) as Hle.
  unfold Z.div in Hq, Hpos, Hle. destruct (Z.div_eucl (Zpos mx * 2 ^ 24) (Zpos my)) as [q r].
  rewrite Hd1, Hd2 in Hq. cbn [xorb]. assert (24 <= Zdigits2 q) as Hdq by lia. clear Hq.
  match goal with |- context [binary_round_aux _ _ _ _ _ ?l] => generalize l end. intros l Hnn.
  assert (0 < q) as Hq0 by (destruct q; cbn in Hdq; lia).
  assert (fexp32 (Zdigits2 q + e') = e' + (Zdigits2 q - 24)) as He1 by (rewrite fexp32_alt; lia).
  assert (is_finite (binary_round_aux 24 128 false q e' l) = true) as Hfin.
  { assert (2 ^ 23 <= Zpos my) as Hmy23 by (pose proof (Zdigits2_bounds (Zpos my) ltac:(lia)) as Hb'; rewrite Hd2 in Hb'; lia).
    assert (Zpos mx < 2 ^ 24) as Hmx24 by (pose proof (Zdigits2_bounds (Zpos mx) ltac:(lia)) as Hb'; rewrite Hd1 in Hb'; lia).
    assert (q < 2 ^ 25) as Hq25 by nia. assert (Zdigits2 q <= 25) as Hdq25.
    { apply Z.nlt_ge. intros Hc. pose proof (Zdigits2_bounds q ltac:(lia)). pose proof (Z.pow_le_mono_r 2 25 (Zdigits2 q - 1)). lia. }
    apply binary_round_aux_finite; lia. }
  split; [| done]. clear Hnn Hfin.
  pose proof (round_upper q e' l ltac:(lia) ltac:(lia) ltac:(unfold K; lia)) as Hr. cbv zeta in Hr. rewrite He1 in Hr.
  set (n := Zdigits2 q - 24) in *. replace (e' + n - e') with n in Hr by lia.
  assert (0 <= n) by (unfold n; lia). pose proof (pow2_pos n ltac:(lia)).
  assert (2 ^ 23 <= q / 2 ^ n) as Hv.
  { apply Z.div_le_lower_bound; [done |]. rewrite <- Z.pow_add_r by lia. replace (n + 23) with (Zdigits2 q - 1) by (unfold n; lia).
    apply Zdigits2_bounds; lia. }
  pose proof (Z.mul_div_le q (2 ^ n) ltac:(lia)) as Hvq. set (v := q / 2 ^ n) in *. clearbody n v.
  set (R := sval _) in *. clearbody R.
  assert (v * 2 ^ (e' + n + K) * b <= a * 2 ^ K) as Hvb.
  { assert (0 < 2 ^ K) as HK by (apply pow2_pos; unfold K; lia). apply (Zmult_le_reg_r _ _ (2 ^ K)); [lia |].
    replace (e' + n + K) with (n + (e' + K)) by lia. rewrite Z.pow_add_r by (unfold K; lia).
    pose proof (pow2_pos (e' + K) ltac:(unfold K; lia)) as HeK. pose proof (pow2_pos (ey + K) ltac:(unfold K; lia)) as HyK.
    rewrite <- Z.mul_assoc, <- Hsy, <- Hsx.
    assert (2 ^ (ex + K) * 2 ^ K = 2 ^ 24 * 2 ^ (e' + K) * 2 ^ (ey + K)) as Hpow
      by (rewrite <- !Z.pow_add_r by (unfold K; lia); f_equal; unfold K; lia).
    assert (v * 2 ^ n * Zpos my <= Zpos mx * 2 ^ 24) as Hc.
    { etrans; [| exact Hle]. rewrite (Z.mul_comm (Zpos my)). apply Z.mul_le_mono_nonneg_r; lia. }
    set (P1 := 2 ^ (e' + K)) in *. set (P2 := 2 ^ (ey + K)) in *. set (P3 := 2 ^ n) in *. set (P4 := 2 ^ 24) in *.
    assert (0 <= P1 * P2) as Hpp by (apply Z.mul_nonneg_nonneg; lia).
    pose proof (Z.mul_le_mono_nonneg_r _ _ _ Hpp Hc) as Hf. clearbody P1 P2 P3 P4.
    etrans; [| etrans; [exact Hf |]].
    - apply Z.eq_le_incl. ring.
    - rewrite <- (Z.mul_assoc (Zpos mx) (2 ^ (ex + K))), Hpow. apply Z.eq_le_incl. ring. }
  pose proof (pow2_pos (e' + n + K) ltac:(unfold K; lia)) as Hp.
  set (P := 2 ^ (e' + n + K)) in *. set (S23 := 2 ^ 23) in *. assert (0 < S23) by done. clearbody P S23.
  assert (S23 * P <= v * P) as HvP by (apply Z.mul_le_mono_nonneg_r; lia).
  assert (R * S23 <= v * P * (S23 + 1)) as HR.
  { etrans; [apply Z.mul_le_mono_nonneg_r; [lia | exact Hr] |]. ring_simplify. ring_simplify in HvP. lia. }
  replace (R * b * S23) with (R * S23 * b) by ring. replace (a * (S23 + 1) * 2 ^ K) with (a * 2 ^ K * (S23 + 1)) by ring.
  etrans; [apply Z.mul_le_mono_nonneg_r; [lia | exact HR] |].
  replace (v * P * (S23 + 1) * b) with (v * P * b * (S23 + 1)) by ring. apply Z.mul_le_mono_nonneg_r; lia.
Qed.

(** The order on non-negative floats is the order of their values. *)
Lemma sval_mono x y :
  f32_ok x -> f32_ok y -> nonneg x -> is_finite y = true -> fle x y = true -> sval x <= sval y.
Proof.
  intros Hx Hy Hnx Hfy Hle. pose proof (fle_trans _ _ _ Hnx Hle) as Hny.
  destruct x as [[] | [] | | [] mx ex], y as [[] | [] | | [] my ey]; try done; cbn [sval].
  1,2: apply Z.mul_nonneg_nonneg; [lia | apply Z.pow_nonneg; lia].
  pose proof (f32_exponent _ _ _ Hx). pose proof (f32_exponent _ _ _ Hy).
  pose proof (fle_aligned 24 128 ltac:(lia) my ey mx ex Hy Hx Hle) as Ha. cbv zeta in Ha.
  set (ez := Z.min ey ex) in *. pose proof (shl_align_spec mx ex ez) as Hax. pose proof (shl_align_spec my ey ez) as Hay.
  destruct (shl_align mx ex ez) as [ax eax], (shl_align my ey ez) as [ay eay]. cbn [fst] in *.
  destruct Hax as [-> Hax], Hay as [-> Hay]. rewrite Hax, Hay in Ha.
  replace (Z.min ex ez) with ez in Ha by lia. replace (Z.min ey ez) with ez in Ha by lia.
  replace (ex + K) with ((ex - ez) + (ez + K)) by lia. replace (ey + K) with ((ey - ez) + (ez + K)) by lia.
  rewrite (Z.pow_add_r 2 (ex - ez) (ez + K)), (Z.pow_add_r 2 (ey - ez) (ez + K)) by (unfold K; lia).
  rewrite !Z.mul_assoc. apply Z.mul_le_mono_nonneg_r; [apply Z.pow_nonneg; lia | done].
Qed.

(** Rounding a value at most a sixteenth above an integer. *)
Lemma round_le x T :
  nonneg x -> is_finite x = true -> f32_ok x -> 0 <= T -> sval x <= (16 * T + 1) * 2 ^ (K - 4) ->
  0 <= f_round x <= T.
Proof.
  intros Hn Hf Hok HT Hle. destruct x as [[] | [] | | [] m e]; try done; cbn [f_round sval] in *.
  pose proof (f32_exponent _ _ _ Hok) as He. destruct (Z.leb_spec 0 e) as [H0 | H0].
  - assert (Zpos m * 2 ^ e * 16 <= 16 * T + 1) as Hm; [| pose proof (pow2_pos e H0); nia].
    apply (Zmult_le_reg_r _ _ (2 ^ (K - 4))); [apply Z.lt_gt, pow2_pos; unfold K; lia |].
    etrans; [| exact Hle]. apply Z.eq_le_incl. change 16 with (2 ^ 4).
    rewrite <- !Z.mul_assoc, <- !Z.pow_add_r by (unfold K; lia). do 2 f_equal; lia.
  - assert (Zpos m * 16 <= (16 * T + 1) * 2 ^ (- e)) as Hm.
    { apply (Zmult_le_reg_r _ _ (2 ^ (e + K - 4))); [apply Z.lt_gt, pow2_pos; unfold K; lia |].
      etrans; [| etrans; [exact Hle |]]; apply Z.eq_le_incl.
      - change 16 with (2 ^ 4). rewrite <- Z.mul_assoc, <- Z.pow_add_r by (unfold K; lia). do 2 f_equal; lia.
      - rewrite <- Z.mul_assoc, <- Z.pow_add_r by (unfold K; lia). do 2 f_equal; lia. }
    assert (2 ^ (- e) = 2 * 2 ^ (- e - 1)) as Hp
      by (replace (- e) with (1 + (- e - 1)) at 1 by lia; rewrite Z.pow_add_r by lia; done).
    pose proof (pow2_pos (- e - 1) ltac:(lia)). split.
    + apply Z.div_pos; lia.
    + apply Z.lt_succ_r, Z.div_lt_upper_bound; [lia |]. nia.
Qed.

(** Scaling a length by a factor not above [target / source]. *)
Lemma scaled_length_le source target s :
  0 < source < 2 ^ 24 -> 0 < target < 2 ^ 19 -> f32_ok s -> nonneg s ->
  fle s (f32_div (f32_of_Z target) (f32_of_Z source)) = true ->
  0 <= i32_of_round (f32_mul (f32_of_Z source) s) <= target.
Proof.
  intros Hsrc Htgt Hok Hn Hle. destruct (div_upper target source ltac:(lia) Hsrc) as (Hdiv & _ & Hfin).
  pose proof (fle_finite _ _ Hn Hle Hfin) as Hfs.
  pose proof (sval_mono s (f32_div (f32_of_Z target) (f32_of_Z source)) Hok ltac:(auto with mgen) Hn Hfin Hle) as Hmono.
  set (r := sval (f32_div _ _)) in *. clearbody r.
  assert (0 <= sval s) as Hs0.
  { destruct s as [| | | [] m e]; cbn [sval]; lia. }
  assert (0 < 2 ^ (K - 4)) as HK4 by (apply pow2_pos; unfold K; lia).
  assert (2 ^ K = 16 * 2 ^ (K - 4)) as HK by (change 16 with (2 ^ 4); rewrite <- Z.pow_add_r by (unfold K; lia); f_equal; unfold K; lia).
  assert (2 ^ (2 * K - 4) = 2 ^ K * 2 ^ (K - 4)) as HK2 by (rewrite <- Z.pow_add_r by (unfold K; lia); f_equal; lia).
  destruct (mul_upper (f32_of_Z source) s (16 * target + 1)) as (Hup & Hnn & Hf); try done; auto with mgen.
  - apply f32_of_Z_nonneg. lia.
  - apply f32_of_Z_finite. unfold in_i32. lia.
  - lia.
  - rewrite sval_of_Z by done. rewrite HK2.
    assert (source * sval s < (16 * target + 1) * 2 ^ (K - 4)) as Hlt.
    { assert (sval s * source * 2 ^ 23 <= target * (2 ^ 23 + 1) * 2 ^ K) as H1.
      { etrans; [| exact Hdiv]. apply Z.mul_le_mono_nonneg_r; [lia |]. apply Z.mul_le_mono_nonneg_r; lia. }
      rewrite HK in H1. set (Q := 2 ^ (K - 4)) in *. clearbody Q. assert (target * Q < 2 ^ 19 * Q) by (apply Z.mul_lt_mono_pos_r; lia). nia. }
    assert (0 < 2 ^ K) by lia. nia.
  - pose proof (round_le (f32_mul (f32_of_Z source) s) target Hnn Hf ltac:(auto with mgen) ltac:(lia) Hup) as Hr.
    unfold i32_of_round, saturate32. destruct (f32_mul (f32_of_Z source) s) as [| [] | | ]; try done; try (cbn; lia). lia.
Qed.
