(* ===== verification/InferObject.v ===== *)
(** * Detected objects and coordinate styles

    [core/types/InferObject.h] and [InferObject.cpp]: the record every stage of
    the pipeline exchanges, its copy and move operations, and the conversion
    of its bounding box between pixel/ratio, corner/center and
    original/letterboxed coordinate styles. *)

From Stdlib Require Import SpecFloat.
From S2P Require Import Prelude Float32 FloatBounds.
Open Scope Z_scope.

(** ** Data *)

(** The enums have underlying type [unsigned char]; the third constructor is a
    value of that type that names no enumerator, which the code's final [else]
    branches reject. *)
Inductive BBoxReferenceType :=
| cx_type
| ltx_type
| ref_raw (value : Z).

Inductive BBoxCoordinateFormat :=
| ratio_float
| pixel_int
| format_raw (value : Z).

#[export] Instance BBoxReferenceType_eq_dec : EqDecision BBoxReferenceType.
Proof. solve_decision. Defined.
#[export] Instance BBoxCoordinateFormat_eq_dec : EqDecision BBoxCoordinateFormat.
Proof. solve_decision. Defined.

Record InferBBox := mkBBox { bb_x : f32; bb_y : f32; bb_w : f32; bb_h : f32 }.

Definition InferBBox_default : InferBBox := mkBBox f0 f0 f0 f0.

Definition INFER_CLASS_ID_NOT_SET : Z := -1.
Definition INFER_TRACK_ID_NOT_SET : Z := -2.
Definition INFER_ENGINE_ID_NOT_SET : Z := 0.

Record InferObject := mkInferObject {
  infer_engine_id : Z;
  class_id : Z;
  track_id : Z;
  score : f32;
  bbox : InferBBox;
  xy_ref_type : BBoxReferenceType;
  coord_format : BBoxCoordinateFormat;
  extend_data : list f32
}.

Definition InferObject_default : InferObject :=
  mkInferObject INFER_ENGINE_ID_NOT_SET INFER_CLASS_ID_NOT_SET INFER_TRACK_ID_NOT_SET
    f0 InferBBox_default ltx_type pixel_int [].

Record ImageExpressStyle := mkStyle {
  width : Z;
  height : Z;
  format : BBoxCoordinateFormat;
  ref_type : BBoxReferenceType;
  is_padded_or_scaled : bool;
  scale_factor_from_original : f32;
  pad_x_offset : Z;
  pad_y_offset : Z;
  original_width : Z;
  original_height : Z
}.

(** The constructor fills in missing original dimensions of a padded style. *)
Definition ImageExpressStyle_make w h fmt ref padded scale px py ow oh : ImageExpressStyle :=
  mkStyle w h fmt ref padded scale px py
    (if padded && (ow =? 0) && (0 <? w) then w else ow)
    (if padded && (oh =? 0) && (0 <? h) then h else oh).

(** ** Copy, move and equality *)

(** [extend_data.push_back]. *)
Definition push_extend (o : InferObject) (v : f32) : InferObject :=
  mkInferObject (infer_engine_id o) (class_id o) (track_id o) (score o) (bbox o)
    (xy_ref_type o) (coord_format o) (extend_data o ++ [v]).

Definition copy_construct (other : InferObject) : InferObject :=
  mkInferObject (infer_engine_id other) (class_id other) (track_id other) (score other)
    (bbox other) (xy_ref_type other) (coord_format other) (extend_data other).

(** The state the source of a move is left in: every field is reset except the
    bounding box, and the moved vector is empty. *)
Definition moved_from (other : InferObject) : InferObject :=
  mkInferObject INFER_ENGINE_ID_NOT_SET INFER_CLASS_ID_NOT_SET INFER_TRACK_ID_NOT_SET
    f0 (bbox other) ltx_type pixel_int [].

Definition move_construct (other : InferObject) : InferObject * InferObject :=
  (mkInferObject (infer_engine_id other) (class_id other) (track_id other) (score other)
     (bbox other) (xy_ref_type other) (coord_format other) (extend_data other),
   moved_from other).

(** Assignment between two addresses of a store of objects; both operators
    return without effect when the addresses are equal. *)
Definition copy_assign (store : gmap nat InferObject) (this other : nat) : gmap nat InferObject :=
  if decide (this = other) then store
  else match store !! other with
       | Some o => <[this := copy_construct o]> store
       | None => store
       end.

Definition move_assign (store : gmap nat InferObject) (this other : nat) : gmap nat InferObject :=
  if decide (this = other) then store
  else match store !! other with
       | Some o => let '(o', rest) := move_construct o in <[other := rest]> (<[this := o']> store)
       | None => store
       end.

Definition InferObject_eqb (lhs rhs : InferObject) : bool :=
  (infer_engine_id lhs =? infer_engine_id rhs) && (class_id lhs =? class_id rhs) &&
  (track_id lhs =? track_id rhs) && are_equal_float (score lhs) (score rhs) &&
  are_equal_float (bb_x (bbox lhs)) (bb_x (bbox rhs)) &&
  are_equal_float (bb_y (bbox lhs)) (bb_y (bbox rhs)) &&
  are_equal_float (bb_w (bbox lhs)) (bb_w (bbox rhs)) &&
  are_equal_float (bb_h (bbox lhs)) (bb_h (bbox rhs)) &&
  bool_decide (xy_ref_type lhs = xy_ref_type rhs) &&
  bool_decide (coord_format lhs = coord_format rhs).

(** ** Conversion to and from the intermediate form (ratio, left-top) *)

Record RatioBox := mkRatio { rx : f32; ry : f32; rw : f32; rh : f32 }.

Definition ConvertToIntermediateRatioLtx
    (b : InferBBox) (ref : BBoxReferenceType) (fmt : BBoxCoordinateFormat)
    (src_width src_height : Z) : option RatioBox :=
  if (src_width <=? 0) || (src_height <=? 0) then None
  else
    let src_w_f := f32_of_Z src_width in
    let src_h_f := f32_of_Z src_height in
    let temp :=
      match fmt with
      | pixel_int => Some (mkRatio (f32_div (bb_x b) src_w_f) (f32_div (bb_y b) src_h_f)
                                   (f32_div (bb_w b) src_w_f) (f32_div (bb_h b) src_h_f))
      | ratio_float => Some (mkRatio (bb_x b) (bb_y b) (bb_w b) (bb_h b))
      | format_raw _ => None
      end in
    match temp with
    | None => None
    | Some t =>
        match ref with
        | cx_type => Some (mkRatio (f32_sub (rx t) (f32_div (rw t) f2))
                                   (f32_sub (ry t) (f32_div (rh t) f2)) (rw t) (rh t))
        | ltx_type => Some t
        | ref_raw _ => None
        end
    end.

Definition ConvertFromIntermediateRatioLtx (r : RatioBox) (dst : ImageExpressStyle)
    : option InferBBox :=
  if (width dst <=? 0) || (height dst <=? 0) then None
  else
    let dst_w_f := f32_of_Z (width dst) in
    let dst_h_f := f32_of_Z (height dst) in
    let corner :=
      match ref_type dst with
      | cx_type => Some (f32_add (rx r) (f32_div (rw r) f2), f32_add (ry r) (f32_div (rh r) f2))
      | ltx_type => Some (rx r, ry r)
      | ref_raw _ => None
      end in
    match corner with
    | None => None
    | Some (tx, ty) =>
        match format dst with
        | pixel_int => Some (mkBBox (f32_mul tx dst_w_f) (f32_mul ty dst_h_f)
                                    (f32_mul (rw r) dst_w_f) (f32_mul (rh r) dst_h_f))
        | ratio_float => Some (mkBBox tx ty (rw r) (rh r))
        | format_raw _ => None
        end
    end.

(** ** Is a conversion needed? *)

Definition padding_details_match (src dst : ImageExpressStyle) : bool :=
  are_equal_float (scale_factor_from_original src) (scale_factor_from_original dst) &&
  (pad_x_offset src =? pad_x_offset dst) && (pad_y_offset src =? pad_y_offset dst) &&
  (original_width src =? original_width dst) && (original_height src =? original_height dst).

Definition styles_are_identical (object : InferObject) (src dst : ImageExpressStyle) : bool :=
  let basic :=
    bool_decide (coord_format object = format dst) &&
    bool_decide (xy_ref_type object = ref_type dst) &&
    (width src =? width dst) && (height src =? height dst) &&
    Bool.eqb (is_padded_or_scaled src) (is_padded_or_scaled dst) in
  let padding := basic && is_padded_or_scaled src && padding_details_match src dst in
  basic && (negb (is_padded_or_scaled src) || padding).

(** ** Padding and scaling between the original and the letterboxed frame *)

Definition SCALE_MIN : f32 := f32_lit 1 1000000.

(** Guard shared by the two directions: the padded style [p] must describe a
    scaling of an image of the size of the unpadded style [o]. *)
Definition padding_params_invalid (p o : ImageExpressStyle) : bool :=
  fle (scale_factor_from_original p) SCALE_MIN ||
  (width o <=? 0) || (height o <=? 0) || (width p <=? 0) || (height p <=? 0) ||
  (original_width p <=? 0) || (original_height p <=? 0) ||
  negb (width o =? original_width p) || negb (height o =? original_height p).

Definition padded_to_original (src dst : ImageExpressStyle) (r : RatioBox) : RatioBox :=
  if padding_params_invalid src dst then r
  else
    let px1_padded := f32_mul (rx r) (f32_of_Z (width src)) in
    let py1_padded := f32_mul (ry r) (f32_of_Z (height src)) in
    let pw_padded := f32_mul (rw r) (f32_of_Z (width src)) in
    let ph_padded := f32_mul (rh r) (f32_of_Z (height src)) in
    let px1_scaled := f32_sub px1_padded (f32_of_Z (pad_x_offset src)) in
    let py1_scaled := f32_sub py1_padded (f32_of_Z (pad_y_offset src)) in
    let inv_scale := f32_div f1 (scale_factor_from_original src) in
    let x1_orig := f32_mul px1_scaled inv_scale in
    let y1_orig := f32_mul py1_scaled inv_scale in
    let w_orig := f32_mul pw_padded inv_scale in
    let h_orig := f32_mul ph_padded inv_scale in
    let inv_dst_w := f32_div f1 (f32_of_Z (width dst)) in
    let inv_dst_h := f32_div f1 (f32_of_Z (height dst)) in
    mkRatio (f32_mul x1_orig inv_dst_w) (f32_mul y1_orig inv_dst_h)
            (f32_mul w_orig inv_dst_w) (f32_mul h_orig inv_dst_h).

Definition original_to_padded (src dst : ImageExpressStyle) (r : RatioBox) : RatioBox :=
  if padding_params_invalid dst src then r
  else
    let scale := scale_factor_from_original dst in
    let x1_orig := f32_mul (rx r) (f32_of_Z (width src)) in
    let y1_orig := f32_mul (ry r) (f32_of_Z (height src)) in
    let w_orig := f32_mul (rw r) (f32_of_Z (width src)) in
    let h_orig := f32_mul (rh r) (f32_of_Z (height src)) in
    let px1_scaled := f32_mul x1_orig scale in
    let py1_scaled := f32_mul y1_orig scale in
    let pw_scaled := f32_mul w_orig scale in
    let ph_scaled := f32_mul h_orig scale in
    let px1_padded := f32_add px1_scaled (f32_of_Z (pad_x_offset dst)) in
    let py1_padded := f32_add py1_scaled (f32_of_Z (pad_y_offset dst)) in
    let inv_dst_w := f32_div f1 (f32_of_Z (width dst)) in
    let inv_dst_h := f32_div f1 (f32_of_Z (height dst)) in
    mkRatio (f32_mul px1_padded inv_dst_w) (f32_mul py1_padded inv_dst_h)
            (f32_mul pw_scaled inv_dst_w) (f32_mul ph_scaled inv_dst_h).

Definition apply_padding (src dst : ImageExpressStyle) (r : RatioBox) : RatioBox :=
  match is_padded_or_scaled src, is_padded_or_scaled dst with
  | true, false => padded_to_original src dst r
  | false, true => original_to_padded src dst r
  | _, _ => r
  end.

(** ** Final clamping *)

Record Corners := mkCorners { x1 : f32; y1 : f32; x2 : f32; y2 : f32 }.

Definition corners_of (ref : BBoxReferenceType) (b : InferBBox) : Corners :=
  match ref with
  | ltx_type => mkCorners (bb_x b) (bb_y b) (f32_add (bb_x b) (bb_w b)) (f32_add (bb_y b) (bb_h b))
  | _ => mkCorners (f32_sub (bb_x b) (f32_div (bb_w b) f2)) (f32_sub (bb_y b) (f32_div (bb_h b) f2))
                   (f32_add (bb_x b) (f32_div (bb_w b) f2)) (f32_add (bb_y b) (f32_div (bb_h b) f2))
  end.

Definition clamp_corners (max_x max_y : f32) (c : Corners) : Corners :=
  let cx1 := std_max f0 (std_min (x1 c) max_x) in
  let cy1 := std_max f0 (std_min (y1 c) max_y) in
  mkCorners cx1 cy1 (std_max cx1 (std_min (x2 c) max_x)) (std_max cy1 (std_min (y2 c) max_y)).

Definition bbox_of_corners (ref : BBoxReferenceType) (c : Corners) : InferBBox :=
  let w := f32_sub (x2 c) (x1 c) in
  let h := f32_sub (y2 c) (y1 c) in
  match ref with
  | ltx_type => mkBBox (x1 c) (y1 c) w h
  | _ => mkBBox (f32_add (x1 c) (f32_div w f2)) (f32_add (y1 c) (f32_div h f2)) w h
  end.

Definition clamp_pixel (dst : ImageExpressStyle) (ref : BBoxReferenceType) (b : InferBBox) : InferBBox :=
  bbox_of_corners ref
    (clamp_corners (f32_of_Z (width dst)) (f32_of_Z (height dst)) (corners_of ref b)).

Definition clamp_ratio (ref : BBoxReferenceType) (b : InferBBox) : InferBBox :=
  bbox_of_corners ref (clamp_corners f1 f1 (corners_of ref b)).

Definition clamp_to_style (dst : ImageExpressStyle) (b : InferBBox) : InferBBox :=
  match format dst with
  | pixel_int => if (0 <? width dst) && (0 <? height dst) then clamp_pixel dst (ref_type dst) b else b
  | ratio_float => clamp_ratio (ref_type dst) b
  | format_raw _ => b
  end.

(** ** The conversion *)

Definition set_bbox (o : InferObject) (b : InferBBox) (dst : ImageExpressStyle) : InferObject :=
  mkInferObject (infer_engine_id o) (class_id o) (track_id o) (score o) b
    (ref_type dst) (format dst) (extend_data o).

(** Returns the flag the code returns and the object as the call leaves it. *)
Definition ConvertInferObjectCoordinate (object : InferObject) (src dst : ImageExpressStyle)
    : bool * InferObject :=
  if styles_are_identical object src dst then (true, object)
  else
    match ConvertToIntermediateRatioLtx (bbox object) (xy_ref_type object) (coord_format object)
            (width src) (height src) with
    | None => (false, object)
    | Some r =>
        match ConvertFromIntermediateRatioLtx (apply_padding src dst r) dst with
        | None => (false, object)
        | Some b => (true, set_bbox object (clamp_to_style dst b) dst)
        end
    end.

Definition ConvertInferObjectsCoordinates (objects : list InferObject) (src dst : ImageExpressStyle)
    : list InferObject * nat :=
  foldl (fun '(done, failure_count) obj =>
           let '(ok, obj') := ConvertInferObjectCoordinate obj src dst in
           (done ++ [obj'], if (ok : bool) then failure_count else S failure_count))
        ([], 0%nat) objects.

(** ** Clamping lemmas *)

(** [0 <= v <= hi] as the code's float comparisons. *)
Definition within (hi v : f32) : Prop := nonneg v /\ fle v hi = true.

Definition corners_within (mx my : f32) (c : Corners) : Prop :=
  within mx (x1 c) /\ within mx (x2 c) /\ within my (y1 c) /\ within my (y2 c) /\
  fle (x1 c) (x2 c) = true /\ fle (y1 c) (y2 c) = true.

Definition corners_ok (c : Corners) : Prop :=
  f32_ok (x1 c) /\ f32_ok (y1 c) /\ f32_ok (x2 c) /\ f32_ok (y2 c).

Definition bbox_ok (b : InferBBox) : Prop :=
  f32_ok (bb_x b) /\ f32_ok (bb_y b) /\ f32_ok (bb_w b) /\ f32_ok (bb_h b).

Definition ratio_ok (r : RatioBox) : Prop :=
  f32_ok (rx r) /\ f32_ok (ry r) /\ f32_ok (rw r) /\ f32_ok (rh r).

Lemma clamp_pair hi v w :
  nonneg hi ->
  let a := std_max f0 (std_min v hi) in
  let b := std_max a (std_min w hi) in
  within hi a /\ within hi b /\ fle a b = true.
Proof.
  intros Hhi a b. destruct (std_clamp_range f0 hi v Hhi) as [Ha1 Ha2]. fold a in Ha1, Ha2.
  destruct (std_clamp_range a hi w Ha2) as [Hb1 Hb2]. fold b in Hb1, Hb2.
  unfold within, nonneg. split_and!; eauto using fle_trans.
Qed.

Lemma clamp_corners_within mx my c :
  nonneg mx -> nonneg my -> corners_within mx my (clamp_corners mx my c).
Proof.
  intros Hx Hy. destruct (clamp_pair mx (x1 c) (x2 c) Hx) as (? & ? & ?).
  destruct (clamp_pair my (y1 c) (y2 c) Hy) as (? & ? & ?). by split_and!.
Qed.

Lemma clamp_corners_ok mx my c :
  f32_ok mx -> f32_ok my -> corners_ok c -> corners_ok (clamp_corners mx my c).
Proof. intros ? ? (? & ? & ? & ?). split_and!; cbn; auto 6 with mgen. Qed.

Lemma corners_of_ok ref b : bbox_ok b -> corners_ok (corners_of ref b).
Proof. intros (? & ? & ? & ?). destruct ref; split_and!; cbn; auto with mgen. Qed.

Lemma f32_half_nonneg v : nonneg v -> nonneg (f32_div v f2).
Proof.
  intros Hv. destruct v as [[] | [] | | [] m e]; try done.
  apply SFdiv_nonneg; done || lia.
Qed.

(** What the final clamping guarantees of a box, for limits [mx], [my]. *)
Definition bbox_within (ref : BBoxReferenceType) (mx my : f32) (b : InferBBox) : Prop :=
  nonneg (bb_x b) /\ nonneg (bb_y b) /\ nonneg (bb_w b) /\ nonneg (bb_h b) /\
  (ref = ltx_type -> fle (bb_x b) mx = true /\ fle (bb_y b) my = true).

Lemma bbox_of_corners_within ref mx my c :
  is_finite mx = true -> is_finite my = true ->
  corners_within mx my c -> corners_ok c -> bbox_within ref mx my (bbox_of_corners ref c).
Proof.
  intros Hfx Hfy ([Hx1 Hx1m] & [Hx2 Hx2m] & [Hy1 Hy1m] & [Hy2 Hy2m] & Hxx & Hyy) (? & ? & ? & ?).
  assert (nonneg (f32_sub (x2 c) (x1 c))).
  { apply f32_sub_nonneg; eauto using fle_finite. }
  assert (nonneg (f32_sub (y2 c) (y1 c))).
  { apply f32_sub_nonneg; eauto using fle_finite. }
  destruct ref; unfold bbox_within; cbn; split_and!;
    auto using f32_half_nonneg with mgen; intros; try discriminate; auto.
Qed.

Lemma clamp_bbox_within ref mx my b :
  f32_ok mx -> f32_ok my -> is_finite mx = true -> is_finite my = true ->
  nonneg mx -> nonneg my -> bbox_ok b ->
  bbox_within ref mx my (bbox_of_corners ref (clamp_corners mx my (corners_of ref b))).
Proof.
  intros. apply bbox_of_corners_within; auto using clamp_corners_within, clamp_corners_ok, corners_of_ok.
Qed.

(** ** Validity of the conversion pipeline *)

Lemma to_intermediate_ok b ref fmt w h r :
  bbox_ok b -> ConvertToIntermediateRatioLtx b ref fmt w h = Some r -> ratio_ok r.
Proof.
  intros (? & ? & ? & ?). unfold ConvertToIntermediateRatioLtx. case_if; [done |].
  destruct fmt, ref; intros [= <-]; split_and!; cbn; auto with mgen.
Qed.

Lemma apply_padding_ok src dst r :
  f32_ok (scale_factor_from_original src) -> f32_ok (scale_factor_from_original dst) ->
  ratio_ok r -> ratio_ok (apply_padding src dst r).
Proof.
  intros ? ? Hr. pose proof Hr as (? & ? & ? & ?).
  assert (f32_ok f1) by reflexivity.
  unfold apply_padding, padded_to_original, original_to_padded.
  destruct (is_padded_or_scaled src), (is_padded_or_scaled dst); try done; case_if; try done.
  all: split_and!; cbn; auto 8 with mgen.
Qed.

Lemma from_intermediate_ok r dst b :
  ratio_ok r -> ConvertFromIntermediateRatioLtx r dst = Some b -> bbox_ok b.
Proof.
  intros (? & ? & ? & ?). unfold ConvertFromIntermediateRatioLtx. case_if; [done |].
  destruct (ref_type dst), (format dst); intros [= <-]; split_and!; cbn; auto with mgen.
Qed.

Lemma from_intermediate_dims r dst b :
  ConvertFromIntermediateRatioLtx r dst = Some b ->
  0 < width dst /\ 0 < height dst /\
  (format dst = pixel_int \/ format dst = ratio_float) /\
  (ref_type dst = ltx_type \/ ref_type dst = cx_type).
Proof.
  unfold ConvertFromIntermediateRatioLtx. case_if; [done |]. bool_to_prop.
  destruct (ref_type dst), (format dst); intros [=]; auto with lia.
Qed.

(** The limits of a style: pixel dimensions, or 1 for ratios. *)
Definition limit_x (s : ImageExpressStyle) : f32 :=
  match format s with pixel_int => f32_of_Z (width s) | _ => f1 end.
Definition limit_y (s : ImageExpressStyle) : f32 :=
  match format s with pixel_int => f32_of_Z (height s) | _ => f1 end.

Definition style_ok (s : ImageExpressStyle) : Prop :=
  in_i32 (width s) /\ in_i32 (height s) /\ f32_ok (scale_factor_from_original s).

Lemma clamp_to_style_within dst b :
  style_ok dst -> bbox_ok b -> 0 < width dst -> 0 < height dst ->
  (format dst = pixel_int \/ format dst = ratio_float) ->
  bbox_within (ref_type dst) (limit_x dst) (limit_y dst) (clamp_to_style dst b).
Proof.
  intros (Hw & Hh & _) Hb Hpw Hph Hf. unfold clamp_to_style, limit_x, limit_y.
  destruct Hf as [-> | ->].
  - rewrite (proj2 (Z.ltb_lt 0 _) Hpw), (proj2 (Z.ltb_lt 0 _) Hph). cbn.
    apply clamp_bbox_within; auto using f32_of_Z_nonneg, Z.lt_le_incl with mgen.
  - by apply clamp_bbox_within.
Qed.

Lemma convert_success_inv o src dst o' :
  ConvertInferObjectCoordinate o src dst = (true, o') ->
  styles_are_identical o src dst = false ->
  exists r b,
    ConvertToIntermediateRatioLtx (bbox o) (xy_ref_type o) (coord_format o)
      (width src) (height src) = Some r /\
    ConvertFromIntermediateRatioLtx (apply_padding src dst r) dst = Some b /\
    o' = set_bbox o (clamp_to_style dst b) dst.
Proof.
  unfold ConvertInferObjectCoordinate. intros H Hs. rewrite Hs in H.
  destruct (ConvertToIntermediateRatioLtx _ _ _ _ _) as [r |] eqn:E1; [| done].
  destruct (ConvertFromIntermediateRatioLtx _ _) as [b |] eqn:E2; [| done].
  injection H as <-. eauto.
Qed.

Lemma to_intermediate_None b ref fmt w h :
  ConvertToIntermediateRatioLtx b ref fmt w h = None <->
  w <= 0 \/ h <= 0 \/ (exists v, fmt = format_raw v) \/ (exists v, ref = ref_raw v).
Proof.
  unfold ConvertToIntermediateRatioLtx.
  destruct (Z.leb_spec w 0), (Z.leb_spec h 0); cbn; [split; auto 3.. |].
  destruct fmt, ref; split; intros Hx; try done; eauto 6;
    destruct Hx as [? | [? | [[? [=]] | [? [=]]]]]; lia.
Qed.

Lemma from_intermediate_None r dst :
  ConvertFromIntermediateRatioLtx r dst = None <->
  width dst <= 0 \/ height dst <= 0 \/
  (exists v, format dst = format_raw v) \/ (exists v, ref_type dst = ref_raw v).
Proof.
  unfold ConvertFromIntermediateRatioLtx.
  destruct (Z.leb_spec (width dst) 0), (Z.leb_spec (height dst) 0); cbn; [split; auto 3.. |].
  destruct (format dst), (ref_type dst); split; intros Hx; try done; eauto 6;
    destruct Hx as [? | [? | [[? [=]] | [? [=]]]]]; lia.
Qed.

(** ** Properties *)

(** Whenever a conversion is carried out and reports success, the resulting
    box is inside the destination frame whatever the input box was (NaN and
    infinite coordinates included): left, top, width and height are
    non-negative numbers, a corner-based box starts inside
    [0..width] x [0..height] (or [0..1] x [0..1] for ratios), and the object is
    tagged with the destination's format and reference point. *)
Theorem convert_in_bounds o src dst o' :
  bbox_ok (bbox o) -> f32_ok (scale_factor_from_original src) -> style_ok dst ->
  ConvertInferObjectCoordinate o src dst = (true, o') ->
  styles_are_identical o src dst = false ->
  bbox_within (ref_type dst) (limit_x dst) (limit_y dst) (bbox o') /\
  coord_format o' = format dst /\ xy_ref_type o' = ref_type dst.
Proof.
  intros Hb Hs Hd Hc Hn.
  destruct (convert_success_inv _ _ _ _ Hc Hn) as (r & b & H1 & H2 & ->).
  destruct (from_intermediate_dims _ _ _ H2) as (? & ? & Hf & _).
  split; [| done]. apply clamp_to_style_within; auto.
  eapply from_intermediate_ok; [| done].
  apply apply_padding_ok; [done | apply Hd | by eapply to_intermediate_ok].
Qed.

(** The conversion is all or nothing: it fails exactly when it is needed
    and a source or destination dimension is not positive or one of the four
    enum values names no enumerator, a failure leaves the object untouched, and
    a success changes nothing but the box and its two tags. *)
Theorem convert_all_or_nothing o src dst :
  let '(ok, o') := ConvertInferObjectCoordinate o src dst in
  (ok = false <->
     styles_are_identical o src dst = false /\
     (width src <= 0 \/ height src <= 0 \/ width dst <= 0 \/ height dst <= 0 \/
      (exists v, coord_format o = format_raw v) \/ (exists v, xy_ref_type o = ref_raw v) \/
      (exists v, format dst = format_raw v) \/ (exists v, ref_type dst = ref_raw v))) /\
  (ok = false -> o' = o) /\
  infer_engine_id o' = infer_engine_id o /\ class_id o' = class_id o /\
  track_id o' = track_id o /\ score o' = score o /\ extend_data o' = extend_data o.
Proof.
  unfold ConvertInferObjectCoordinate.
  destruct (styles_are_identical o src dst); [split_and!; try done; split; [done | by intros [? _]] |].
  destruct (ConvertToIntermediateRatioLtx _ _ _ _ _) as [r |] eqn:E1.
  - assert (~ (ConvertToIntermediateRatioLtx (bbox o) (xy_ref_type o) (coord_format o)
                 (width src) (height src) = None)) as N1 by congruence.
    rewrite to_intermediate_None in N1.
    destruct (ConvertFromIntermediateRatioLtx _ _) as [b |] eqn:E2.
    + assert (~ (ConvertFromIntermediateRatioLtx (apply_padding src dst r) dst = None)) as N2
        by congruence.
      rewrite from_intermediate_None in N2. split_and!; try done. split; [done | tauto].
    + apply from_intermediate_None in E2. split_and!; try done. split; [tauto | done].
  - apply to_intermediate_None in E1. split_and!; try done. split; [tauto | done].
Qed.

(** The style of a letterboxed 640x640 inference frame of a 1280x720 camera. *)
Definition example_src : ImageExpressStyle :=
  mkStyle 640 640 ratio_float ltx_type true (f32_lit 1 2) 0 140 1280 720.
Definition example_dst : ImageExpressStyle :=
  mkStyle 1280 720 pixel_int ltx_type false f1 0 0 0 0.
Definition example_object : InferObject :=
  mkInferObject 1 0 7 (f32_lit 1 2)
    (mkBBox (f32_lit (-1) 2) (f32_lit 1 2) (f32_of_Z 1) (f32_of_Z 3)) ltx_type ratio_float [].

Lemma convert_in_bounds_witness :
  bbox_within ltx_type (f32_of_Z 1280) (f32_of_Z 720)
    (bbox (snd (ConvertInferObjectCoordinate example_object example_src example_dst))) /\
  coord_format (snd (ConvertInferObjectCoordinate example_object example_src example_dst))
    = pixel_int /\
  xy_ref_type (snd (ConvertInferObjectCoordinate example_object example_src example_dst)) = ltx_type.
Proof.
  apply (convert_in_bounds example_object example_src example_dst);
    [vm_compute; auto | reflexivity | repeat split; vm_compute; congruence
    | vm_compute; reflexivity | reflexivity].
Defined.

(** Moving an object transfers every field and resets the source to the
    default object except for its bounding box, which keeps its old
    coordinates; assignment of an object to itself changes nothing. *)
Theorem move_semantics o store a b :
  fst (move_construct o) = o /\
  (snd (move_construct o) = InferObject_default <-> bbox o = InferBBox_default) /\
  bbox (snd (move_construct o)) = bbox o /\
  move_assign store a a = store /\ copy_assign store a a = store /\
  (a <> b -> store !! b = Some o ->
   move_assign store a b !! a = Some o /\ move_assign store a b !! b = Some (moved_from o) /\
   copy_assign store a b !! a = Some o /\ copy_assign store a b !! b = Some o).
Proof.
  unfold move_assign, copy_assign. destruct o. cbn. split_and!; try done.
  - split; [by intros [=] | intros ->; done].
  - by rewrite decide_True.
  - by rewrite decide_True.
  - intros Hab Hb. rewrite decide_False, Hb by done. cbn.
    split_and!; simplify_map_eq; done.
Qed.

Lemma move_semantics_witness :
  move_assign {[ 0%nat := InferObject_default; 1%nat := example_object ]} 0 1 !! 0%nat
  = Some example_object.
Proof.
  destruct (move_semantics example_object
              {[ 0%nat := InferObject_default; 1%nat := example_object ]} 0 1)
    as (_ & _ & _ & _ & _ & H).
  apply H; [discriminate | reflexivity].
Defined.
