(* ===== verification/Geometry.v ===== *)
(** * Geometry of the abnormal-action checks

    [AbnormalActions/include/GeometricLogic.h] and [src/GeometricLogic.cpp]:
    the mid point of a box, the even-odd point-in-polygon test, the
    orientation of three points and the intersection test of two segments.
    Coordinates are [cv::Point] ([int]); the products of the orientation test
    are 32-bit and wrap. *)

From Stdlib Require Import SpecFloat.
From S2P Require Import Prelude Float32 InferObject.
Open Scope Z_scope.

Record Point := mkPoint { px : Z; py : Z }.

#[export] Instance Point_eq_dec : EqDecision Point.
Proof. solve_decision. Defined.

Definition Point_eqb (a b : Point) : bool := (px a =? px b) && (py a =? py b).

Lemma Point_eqb_eq a b : Point_eqb a b = true <-> a = b.
Proof.
  unfold Point_eqb. rewrite andb_true_iff, !Z.eqb_eq.
  destruct a, b; cbn. split; [by intros [-> ->] | by intros [=]].
Qed.

(** ** Operations *)

Definition getMidPointFromInferObject (object : InferObject) : Point :=
  mkPoint (i32_of_f (f32_add (bb_x (bbox object)) (f32_div (bb_w (bbox object)) f2)))
          (i32_of_f (f32_add (bb_y (bbox object)) (f32_div (bb_h (bbox object)) f2))).

(** The edge from [pi] to [pj] crosses the horizontal line of [c] to its right.
    The numerator is an [int] product; the division and the sum are [double]. *)
Definition edge_crosses (c pi pj : Point) : bool :=
  if negb (Bool.eqb (py c <? py pi) (py c <? py pj)) then
    let num := i32 (i32 (px pj - px pi) * i32 (py c - py pi)) in
    let atX := f64_add (f64_div (f64_of_Z num) (f64_of_Z (i32 (py pj - py pi))))
                       (f64_of_Z (px pi)) in
    flt (f64_of_Z (px c)) atX
  else false.

(** The loop over [i] with [j = (i + 1) % polygon_size]; [fuel] counts the
    remaining iterations. *)
Fixpoint isIncludePoint_loop (c : Point) (p : list Point) (i fuel : nat) (nCrosses : Z) : bool :=
  match fuel with
  | O => 0 <? Z.rem nCrosses 2
  | S fuel' =>
      match p !! i, p !! Nat.modulo (i + 1) (length p) with
      | Some pi, Some pj =>
          if Point_eqb pi c then true
          else isIncludePoint_loop c p (S i) fuel'
                 (if edge_crosses c pi pj then nCrosses + 1 else nCrosses)
      | _, _ => false
      end
  end.

Definition isIncludePoint (c : Point) (p : list Point) : bool :=
  isIncludePoint_loop c p 0 (length p) 0.

Definition getDistance (first_box last_box : InferObject) : f64 :=
  let center_x o := i32 (i32_of_f (bb_x (bbox o)) + i32_of_f (f32_div (bb_w (bbox o)) f2)) in
  let center_y o := i32 (i32_of_f (bb_y (bbox o)) + i32_of_f (f32_div (bb_h (bbox o)) f2)) in
  let x := f64_of_Z (Z.abs (i32 (center_x first_box - center_x last_box))) in
  let y := f64_of_Z (Z.abs (i32 (center_y first_box - center_y last_box))) in
  SFsqrt 53 1024 (f64_add (f64_mul x x) (f64_mul y y)).

Definition onLineSegment (p q r : Point) : bool :=
  (px q <=? Z.max (px p) (px r)) && (Z.min (px p) (px r) <=? px q) &&
  (py q <=? Z.max (py p) (py r)) && (Z.min (py p) (py r) <=? py q).

Inductive LineOrientation := NotCrossed | OnLine | Clockwise | CounterClockwise.

#[export] Instance LineOrientation_eq_dec : EqDecision LineOrientation.
Proof. solve_decision. Defined.

(** The enumerators' [int] values. *)
Definition LineOrientation_int (o : LineOrientation) : Z :=
  match o with NotCrossed => -1 | OnLine => 0 | Clockwise => 1 | CounterClockwise => 2 end.

Definition lineOrientation (p q r : Point) : LineOrientation :=
  let val := i32 (i32 (i32 (py q - py p) * i32 (px r - px q))
                  - i32 (i32 (px q - px p) * i32 (py r - py q))) in
  if val =? 0 then OnLine
  else if 0 <? val then Clockwise else CounterClockwise.

Definition checkLineIntersect (p1 q1 p2 q2 : Point) : LineOrientation :=
  let o1 := lineOrientation p1 q1 p2 in
  let o2 := lineOrientation p1 q1 q2 in
  let o3 := lineOrientation p2 q2 p1 in
  let o4 := lineOrientation p2 q2 q1 in
  if bool_decide (o1 <> o2) && bool_decide (o3 <> o4) then o4
  else if bool_decide (o1 = OnLine) && onLineSegment p1 p2 q1 then OnLine
  else if bool_decide (o2 = OnLine) && onLineSegment p1 q2 q1 then OnLine
  else if bool_decide (o3 = OnLine) && onLineSegment p2 p1 q2 then OnLine
  else if bool_decide (o4 = OnLine) && onLineSegment p2 q1 q2 then OnLine
  else NotCrossed.

(** The [clamp] template at [int]. *)
Definition clamp (min_value origin_value max_value : Z) : Z :=
  Z.min (Z.max origin_value min_value) max_value.

(** ** Reference definitions *)

(** The closed polygon's edges, last vertex to first included. *)
Definition polygon_edges (p : list Point) : list (Point * Point) :=
  match p with
  | [] => []
  | a :: rest => zip p (rest ++ [a])
  end.

Definition inside_spec (c : Point) (p : list Point) : bool :=
  existsb (fun v => Point_eqb v c) p ||
  Nat.odd (length (List.filter (fun '(a, b) => edge_crosses c a b) (polygon_edges p))).

(** The exact cross product whose sign is the orientation. *)
Definition cross (p q r : Point) : Z :=
  (py q - py p) * (px r - px q) - (px q - px p) * (py r - py q).

(** Coordinates for which the 32-bit products do not overflow; a video frame
    is far below. *)
Definition COORD_MAX : Z := 16383.
Definition coord_ok (p : Point) : Prop :=
  - COORD_MAX <= px p <= COORD_MAX /\ - COORD_MAX <= py p <= COORD_MAX.

(** The segments share a point: rational parameters [s/d] and [t/d] in [0,1]. *)
Definition segments_meet (p1 q1 p2 q2 : Point) : Prop :=
  exists d s t : Z, 0 < d /\ 0 <= s <= d /\ 0 <= t <= d /\
    d * px p1 + s * (px q1 - px p1) = d * px p2 + t * (px q2 - px p2) /\
    d * py p1 + s * (py q1 - py p1) = d * py p2 + t * (py q2 - py p2).

(** ** Point in polygon *)

Lemma polygon_edge_lookup p i a b :
  p !! i = Some a -> p !! Nat.modulo (i + 1) (length p) = Some b ->
  polygon_edges p !! i = Some (a, b).
Proof.
  intros Ha Hb. destruct p as [| v rest]; [done |]. unfold polygon_edges.
  pose proof (lookup_lt_Some _ _ _ Ha) as Hlt. cbn [length] in *.
  assert ((rest ++ [v]) !! i = Some b) as Hb'.
  { destruct (decide (i = length rest)) as [-> | Hn].
    - rewrite Nat.add_1_r, Nat.Div0.mod_same in Hb. cbn in Hb.
      rewrite lookup_app_r, Nat.sub_diag by lia. done.
    - rewrite Nat.mod_small in Hb by lia. rewrite Nat.add_1_r in Hb. cbn in Hb.
      by rewrite lookup_app_l by lia. }
  clear Hb. apply lookup_zip_with_Some. eauto.
Qed.

Lemma polygon_edges_length p : length (polygon_edges p) = length p.
Proof. destruct p as [| v rest]; [done |]. unfold polygon_edges. rewrite length_zip_with, length_app. cbn [length]. lia. Qed.

Lemma odd_rem n : 0 <= n -> (0 <? Z.rem n 2) = Z.odd n.
Proof.
  intros Hn. rewrite Z.rem_mod_nonneg, Zmod_odd by lia. by destruct (Z.odd n).
Qed.

Lemma isIncludePoint_loop_spec c p fuel i n :
  (i + fuel = length p)%nat -> 0 <= n ->
  isIncludePoint_loop c p i fuel n =
    existsb (fun v => Point_eqb v c) (drop i p) ||
    Z.odd (n + Z.of_nat (length (List.filter (fun '(a, b) => edge_crosses c a b)
                                   (drop i (polygon_edges p))))).
Proof.
  revert i n. induction fuel as [| fuel IH]; intros i n Hlen Hn.
  - rewrite !drop_ge by (rewrite ?polygon_edges_length; lia). cbn.
    rewrite Z.add_0_r. by apply odd_rem.
  - destruct (lookup_lt_is_Some_2 p i ltac:(lia)) as [a Ha].
    assert (Nat.modulo (i + 1) (length p) < length p)%nat as Hm by (apply Nat.mod_upper_bound; lia).
    destruct (lookup_lt_is_Some_2 p _ Hm) as [b Hb].
    cbn [isIncludePoint_loop]. rewrite Ha, Hb.
    rewrite (drop_S _ _ _ Ha), (drop_S _ _ _ (polygon_edge_lookup _ _ _ _ Ha Hb)).
    cbn [existsb List.filter]. destruct (Point_eqb a c); [done |]. cbn [orb].
    rewrite IH by (try lia; case_if; lia). f_equal.
    destruct (edge_crosses c a b); cbn [length]; f_equal; lia.
Qed.

(** The indexed loop with its early return computes the even-odd rule: the
    point is a vertex, or the ray to its right crosses an odd number of the
    closed polygon's edges. *)
Theorem isIncludePoint_even_odd c p : isIncludePoint c p = inside_spec c p.
Proof.
  unfold isIncludePoint, inside_spec. rewrite isIncludePoint_loop_spec by lia.
  rewrite !drop_0, Z.add_0_l. f_equal.
  set (k := length _). apply Z_odd_of_nat.
Qed.


(** ** Orientation *)

Definition orientation_of (v : Z) : LineOrientation :=
  if v =? 0 then OnLine else if 0 <? v then Clockwise else CounterClockwise.

Lemma lineOrientation_exact p q r :
  coord_ok p -> coord_ok q -> coord_ok r ->
  lineOrientation p q r = orientation_of (cross p q r).
Proof.
  unfold coord_ok, COORD_MAX. intros [? ?] [? ?] [? ?].
  unfold lineOrientation, orientation_of, cross.
  assert (forall a, -32766 <= a <= 32766 -> i32 a = a) as Hi
    by (intros; apply i32_id; unfold in_i32; lia).
  rewrite (Hi (py q - py p)), (Hi (px r - px q)), (Hi (px q - px p)), (Hi (py r - py q)) by lia.
  assert (forall a b, -32766 <= a <= 32766 -> -32766 <= b <= 32766 ->
            -1073610756 <= a * b <= 1073610756) as Hm by (intros; nia).
  pose proof (Hm (py q - py p) (px r - px q) ltac:(lia) ltac:(lia)).
  pose proof (Hm (px q - px p) (py r - py q) ltac:(lia) ltac:(lia)).
  rewrite (i32_id ((py q - py p) * (px r - px q))), (i32_id ((px q - px p) * (py r - py q)))
    by (unfold in_i32; lia).
  rewrite i32_id by (unfold in_i32; lia). done.
Qed.

Lemma orientation_of_sgn a b : orientation_of a = orientation_of b <-> Z.sgn a = Z.sgn b.
Proof.
  unfold orientation_of.
  destruct (Z.eqb_spec a 0), (Z.eqb_spec b 0), (Z.ltb_spec 0 a), (Z.ltb_spec 0 b);
    split; intros; try done; try lia.
Qed.

Lemma orientation_of_0 a : orientation_of a = OnLine <-> a = 0.
Proof. unfold orientation_of. destruct (Z.eqb_spec a 0), (Z.ltb_spec 0 a); split; try done; lia. Qed.

Lemma orientation_not_NotCrossed a : orientation_of a <> NotCrossed.
Proof. unfold orientation_of. repeat case_if; done. Qed.

(** The intersection test on exact cross products. *)
Definition intersect_test (p1 q1 p2 q2 : Point) : Prop :=
  let a := cross p1 q1 p2 in let b := cross p1 q1 q2 in
  let c := cross p2 q2 p1 in let d := cross p2 q2 q1 in
  (Z.sgn a <> Z.sgn b /\ Z.sgn c <> Z.sgn d) \/
  (a = 0 /\ onLineSegment p1 p2 q1 = true) \/ (b = 0 /\ onLineSegment p1 q2 q1 = true) \/
  (c = 0 /\ onLineSegment p2 p1 q2 = true) \/ (d = 0 /\ onLineSegment p2 q1 q2 = true).

Lemma checkLineIntersect_test p1 q1 p2 q2 :
  coord_ok p1 -> coord_ok q1 -> coord_ok p2 -> coord_ok q2 ->
  checkLineIntersect p1 q1 p2 q2 <> NotCrossed <-> intersect_test p1 q1 p2 q2.
Proof.
  intros. unfold checkLineIntersect, intersect_test. rewrite !lineOrientation_exact by done.
  set (a := cross p1 q1 p2). set (b := cross p1 q1 q2).
  set (c := cross p2 q2 p1). set (d := cross p2 q2 q1).
  rewrite <- !orientation_of_0, <- !orientation_of_sgn.
  pose proof (orientation_not_NotCrossed d).
  repeat case_if; rewrite ?andb_true_iff, ?andb_false_iff, ?bool_decide_eq_true,
    ?bool_decide_eq_false in *; split; intros; try done; try tauto.
  exfalso. destruct_or!; destruct_and?; congruence || tauto.
Qed.

(** On-segment points of a collinear triple lie on the segment. *)
Lemma on_segment_meet p q r :
  cross p r q = 0 -> onLineSegment p q r = true ->
  exists d s, 0 < d /\ 0 <= s <= d /\
    d * px q = d * px p + s * (px r - px p) /\ d * py q = d * py p + s * (py r - py p).
Proof.
  unfold cross, onLineSegment. intros Hc Ho. bool_to_prop.
  destruct (Z.eq_dec (px r) (px p)) as [Ex | Nx].
  - destruct (Z.eq_dec (py r) (py p)) as [Ey | Ny].
    + exists 1, 0. lia.
    + exists (Z.abs (py r - py p)), (Z.abs (py q - py p)).
      assert (px q = px p) by lia. destruct (Z_le_gt_dec (py p) (py r)); split_and!; lia || nia.
  - exists (Z.abs (px r - px p)), (Z.abs (px q - px p)).
    destruct (Z_le_gt_dec (px p) (px r)); split_and!; lia || nia.
Qed.

(** A point of the line [p r] whose projection on a non-degenerate axis is
    within the segment lies on the segment. *)
Lemma on_line_range_x p q r :
  px p <> px r -> cross p r q = 0 ->
  Z.min (px p) (px r) <= px q <= Z.max (px p) (px r) -> onLineSegment p q r = true.
Proof.
  unfold cross, onLineSegment. intros Hn Hc Hr.
  rewrite !andb_true_iff, !Z.leb_le.
  assert (Z.min (py p) (py r) <= py q <= Z.max (py p) (py r)); [| lia].
  destruct (Z_le_gt_dec (px p) (px r)), (Z_le_gt_dec (py p) (py r)); nia.
Qed.

Lemma on_line_range_y p q r :
  py p <> py r -> cross p r q = 0 ->
  Z.min (py p) (py r) <= py q <= Z.max (py p) (py r) -> onLineSegment p q r = true.
Proof.
  unfold cross, onLineSegment. intros Hn Hc Hr.
  rewrite !andb_true_iff, !Z.leb_le.
  assert (Z.min (px p) (px r) <= px q <= Z.max (px p) (px r)); [| lia].
  destruct (Z_le_gt_dec (px p) (px r)), (Z_le_gt_dec (py p) (py r)); nia.
Qed.

(** Two intervals with a common (rational) point: one of the ends of either
    lies in the other. *)
Lemma interval_overlap d s t a b c e :
  0 < d -> 0 <= s <= d -> 0 <= t <= d -> d * a + s * (b - a) = d * c + t * (e - c) ->
  Z.min a b <= c <= Z.max a b \/ Z.min a b <= e <= Z.max a b \/
  (c <> e /\ Z.min c e <= a <= Z.max c e).
Proof.
  intros Hd Hs Ht H.
  assert (d * Z.min a b <= d * a + s * (b - a) <= d * Z.max a b).
  { destruct (Z_le_gt_dec a b);
      [rewrite Z.min_l, Z.max_r by lia | rewrite Z.min_r, Z.max_l by lia]; nia. }
  assert (d * Z.min c e <= d * c + t * (e - c) <= d * Z.max c e).
  { destruct (Z_le_gt_dec c e);
      [rewrite Z.min_l, Z.max_r by lia | rewrite Z.min_r, Z.max_l by lia]; nia. }
  assert (Z.min a b <= Z.max c e) by nia.
  assert (Z.min c e <= Z.max a b) by nia.
  lia.
Qed.

Lemma intersect_test_sound p1 q1 p2 q2 : intersect_test p1 q1 p2 q2 -> segments_meet p1 q1 p2 q2.
Proof.
  unfold intersect_test, segments_meet.
  intros [[Hab Hcd] | [[H0 Ho] | [[H0 Ho] | [[H0 Ho] | [H0 Ho]]]]].
  - set (K := cross p1 q1 q2 - cross p1 q1 p2).
    assert (cross p2 q2 q1 = cross p2 q2 p1 - K) as HD by (unfold K, cross; ring).
    assert (cross p1 q1 q2 = cross p1 q1 p2 + K) as HB by (unfold K; ring).
    destruct (Z_le_gt_dec K 0).
    + exists (- K), (- cross p2 q2 p1), (cross p1 q1 p2).
      split_and!; try lia; unfold K, cross; ring.
    + exists K, (cross p2 q2 p1), (- cross p1 q1 p2).
      split_and!; try lia; unfold K, cross; ring.
  - destruct (on_segment_meet _ _ _ H0 Ho) as (d & s & ?). exists d, s, 0. lia.
  - destruct (on_segment_meet _ _ _ H0 Ho) as (d & s & ?). exists d, s, d. lia.
  - destruct (on_segment_meet _ _ _ H0 Ho) as (d & s & ?). exists d, 0, s. lia.
  - destruct (on_segment_meet _ _ _ H0 Ho) as (d & s & ?). exists d, d, s. lia.
Qed.

Lemma collinear_meet_test p1 q1 p2 q2 :
  segments_meet p1 q1 p2 q2 ->
  cross p1 q1 p2 = 0 -> cross p1 q1 q2 = 0 -> cross p2 q2 p1 = 0 ->
  onLineSegment p1 p2 q1 = true \/ onLineSegment p1 q2 q1 = true \/ onLineSegment p2 p1 q2 = true.
Proof.
  intros (d & s & t & Hd & Hs & Ht & Hx & Hy) HA HB HC.
  destruct (Z.eq_dec (px p1) (px q1)) as [Ex | Nx].
  - destruct (Z.eq_dec (py p1) (py q1)) as [Ey | Ny].
    + right; right.
      destruct (Z.eq_dec (px p2) (px q2)) as [Ex2 | Nx2].
      * destruct (Z.eq_dec (py p2) (py q2)) as [Ey2 | Ny2].
        -- unfold onLineSegment. rewrite !andb_true_iff, !Z.leb_le.
           assert (px p1 = px p2) by nia. assert (py p1 = py p2) by nia. lia.
        -- apply on_line_range_y; [done.. |].
           destruct (interval_overlap d t s _ _ _ _ Hd Ht Hs (eq_sym Hy)) as [? | [? | ?]]; lia.
      * apply on_line_range_x; [done.. |].
        destruct (interval_overlap d t s _ _ _ _ Hd Ht Hs (eq_sym Hx)) as [? | [? | ?]]; lia.
    + destruct (interval_overlap d s t _ _ _ _ Hd Hs Ht Hy) as [? | [? | [? ?]]];
        auto using on_line_range_y.
  - destruct (interval_overlap d s t _ _ _ _ Hd Hs Ht Hx) as [? | [? | [? ?]]];
      auto using on_line_range_x.
Qed.

Lemma intersect_test_complete p1 q1 p2 q2 :
  segments_meet p1 q1 p2 q2 -> intersect_test p1 q1 p2 q2.
Proof.
  intros Hm. pose proof Hm as (d & s & t & Hd & Hs & Ht & Hx & Hy).
  unfold intersect_test.
  set (K := cross p1 q1 q2 - cross p1 q1 p2).
  assert (cross p2 q2 q1 = cross p2 q2 p1 - K) as HD by (unfold K, cross; ring).
  assert (cross p1 q1 q2 = cross p1 q1 p2 + K) as HB by (unfold K; ring).
  assert (d * (px p2 - px p1) = s * (px q1 - px p1) - t * (px q2 - px p2)) as Ex by lia.
  assert (d * (py p2 - py p1) = s * (py q1 - py p1) - t * (py q2 - py p2)) as Ey by lia.
  assert (d * cross p1 q1 p2 = - t * K) as HA'.
  { transitivity ((py q1 - py p1) * (d * (px p2 - px p1)) - (px q1 - px p1) * (d * (py p2 - py p1)));
      [unfold cross; ring | rewrite Ex, Ey; unfold K, cross; ring]. }
  assert (d * cross p2 q2 p1 = s * K) as HC'.
  { transitivity ((px q2 - px p2) * (d * (py p2 - py p1)) - (py q2 - py p2) * (d * (px p2 - px p1)));
      [unfold cross; ring | rewrite Ex, Ey; unfold K, cross; ring]. }
  clearbody K.
  destruct (Z.eq_dec K 0) as [-> | Hk].
  - assert (cross p1 q1 p2 = 0) as HA by nia. assert (cross p2 q2 p1 = 0) as HC by nia.
    destruct (collinear_meet_test _ _ _ _ Hm HA ltac:(lia) HC) as [? | [? | ?]]; auto 6 with lia.
  - left. rewrite HB, HD.
    set (A := cross p1 q1 p2) in *. set (C := cross p2 q2 p1) in *. clearbody A C.
    destruct (Z_le_gt_dec K 0).
    + assert (0 <= A) by nia. assert (A + K <= 0) by nia.
      assert (C <= 0) by nia. assert (0 <= C - K) by nia. lia.
    + assert (A <= 0) by nia. assert (0 <= A + K) by nia.
      assert (0 <= C) by nia. assert (C - K <= 0) by nia. lia.
Qed.

(** For coordinates of a frame the intersection test is exact: it reports
    an orientation if and only if the two closed segments have a common point,
    degenerate and collinear segments included, so the wrapping of its 32-bit
    products is never observed. *)
Theorem checkLineIntersect_exact p1 q1 p2 q2 :
  coord_ok p1 -> coord_ok q1 -> coord_ok p2 -> coord_ok q2 ->
  checkLineIntersect p1 q1 p2 q2 <> NotCrossed <-> segments_meet p1 q1 p2 q2.
Proof.
  intros. rewrite checkLineIntersect_test by done.
  split; auto using intersect_test_sound, intersect_test_complete.
Qed.

Lemma checkLineIntersect_exact_witness :
  checkLineIntersect (mkPoint 0 0) (mkPoint 10 10) (mkPoint 0 10) (mkPoint 10 0) <> NotCrossed <->
  segments_meet (mkPoint 0 0) (mkPoint 10 10) (mkPoint 0 10) (mkPoint 10 0).
Proof.
  apply (checkLineIntersect_exact (mkPoint 0 0) (mkPoint 10 10) (mkPoint 0 10) (mkPoint 10 0));
    unfold coord_ok, COORD_MAX; cbn; lia.
Defined.
