(* ===== verification/History.v ===== *)
(** * Per-track histories

    [AbnormalActions/include/HistoryChecker.h]: a map from track id to a value
    and the steady-clock time of its creation or last refresh.  Every reading
    of the clock is an argument: a loop over the map takes the readings of each
    iteration as functions of the visited track id. *)

From stdpp Require Import fin_maps.
From S2P Require Import Prelude Float32 InferObject.
Open Scope Z_scope.

Section HistoryChecker.
Context {T : Type}.

Record HistoryChecker := mkHistory {
  history_map : gmap Z (T * time_point);
  release_threshold_millisecs : Z
}.

(** The constructor takes seconds. *)
Definition HistoryChecker_make (release_limit_secs : Z) : HistoryChecker :=
  mkHistory ∅ (i32 (release_limit_secs * 1000)).

Definition with_map (h : HistoryChecker) (m : gmap Z (T * time_point)) : HistoryChecker :=
  mkHistory m (release_threshold_millisecs h).

(** [fresh] is the value [T {}] the call would construct. *)
Definition CreateNewHistory (h : HistoryChecker) (id : Z) (fresh : T) (now : time_point)
    : HistoryChecker :=
  match history_map h !! id with
  | None => with_map h (<[id := (fresh, now)]> (history_map h))
  | Some _ => h
  end.

Definition OverrideHistory (h : HistoryChecker) (id : Z) (fresh : T) (now : time_point)
    : HistoryChecker :=
  match history_map h !! id with
  | Some _ => with_map h (<[id := (fresh, now)]> (history_map h))
  | None => h
  end.

(** [now] is the reading that ages the entry, [now'] the one stored in a
    created or overridden entry.  The code returns a reference to the value:
    the caller's writes go through [SetHistory]. *)
Definition GetHistory (h : HistoryChecker) (id : Z) (fresh : T) (now now' : time_point)
    : T * HistoryChecker :=
  let h' :=
    match history_map h !! id with
    | None => CreateNewHistory h id fresh now'
    | Some (_, t) =>
        if release_threshold_millisecs h <? duration_ms now t
        then OverrideHistory h id fresh now' else h
    end in
  match history_map h' !! id with
  | Some (v, _) => (v, h')
  | None => (fresh, h')
  end.

Definition SetHistory (h : HistoryChecker) (id : Z) (v : T) : HistoryChecker :=
  with_map h (alter (fun '(_, t) => (v, t)) id (history_map h)).

Definition tracked (layer : list InferObject) (id : Z) : bool :=
  existsb (fun o => track_id o =? id) layer.

(** One iteration of the release loop on the entry of [id]. *)
Definition release_entry (h : HistoryChecker) (layer : list InferObject)
    (now touch : Z -> time_point) (id : Z) (e : T * time_point) : option (T * time_point) :=
  let '(v, t) := e in
  if release_threshold_millisecs h <=? duration_ms (now id) t then None
  else Some (v, if tracked layer id then touch id else t).

Definition ReleaseInactiveHistory (h : HistoryChecker) (layer : list InferObject)
    (now touch : Z -> time_point) : HistoryChecker :=
  with_map h (map_imap (release_entry h layer now touch) (history_map h)).

(** ** Lemmas *)

Lemma GetHistory_threshold h id fresh n n' :
  release_threshold_millisecs (snd (GetHistory h id fresh n n')) = release_threshold_millisecs h.
Proof.
  unfold GetHistory, CreateNewHistory, OverrideHistory.
  destruct (history_map h !! id) as [[v t] |] eqn:E; [case_if |]; cbn.
  all: rewrite ?E; cbn; rewrite ?lookup_insert_eq; cbn; rewrite ?E; done.
Qed.

(** What the reference returned by [GetHistory] points to, entry by entry. *)
Lemma GetHistory_lookup h id fresh n n' j :
  history_map (snd (GetHistory h id fresh n n')) !! j =
    if decide (j = id) then
      match history_map h !! id with
      | Some (v, t) =>
          if release_threshold_millisecs h <? duration_ms n t then Some (fresh, n') else Some (v, t)
      | None => Some (fresh, n')
      end
    else history_map h !! j.
Proof.
  unfold GetHistory, CreateNewHistory, OverrideHistory.
  destruct (history_map h !! id) as [[v t] |] eqn:E; [case_if |]; cbn.
  all: rewrite ?E; cbn; rewrite ?lookup_insert_eq; cbn; rewrite ?E; cbn.
  all: case_decide; subst; rewrite ?lookup_insert_eq, ?lookup_insert_ne by done; done.
Qed.

Lemma GetHistory_value h id fresh n n' :
  Some (fst (GetHistory h id fresh n n')) = fst <$> history_map (snd (GetHistory h id fresh n n')) !! id.
Proof.
  rewrite GetHistory_lookup, decide_True by done.
  unfold GetHistory, CreateNewHistory, OverrideHistory.
  destruct (history_map h !! id) as [[v t] |] eqn:E; [case_if |]; cbn.
  all: rewrite ?E; cbn; rewrite ?lookup_insert_eq; cbn; rewrite ?E; done.
Qed.

Lemma SetHistory_lookup h id v j :
  history_map (SetHistory h id v) !! j =
    if decide (j = id) then (fun '(_, t) => (v, t)) <$> history_map h !! id
    else history_map h !! j.
Proof.
  cbn. rewrite lookup_alter. case_decide; case_decide; congruence.
Qed.

Lemma Release_lookup h layer now touch id :
  history_map (ReleaseInactiveHistory h layer now touch) !! id =
    history_map h !! id ≫= release_entry h layer now touch id.
Proof. cbn. by rewrite map_lookup_imap. Qed.

(** An invariant of all stored entries survives every operation. *)
Definition history_forall (P : Z -> T -> time_point -> Prop) (h : HistoryChecker) : Prop :=
  forall id v t, history_map h !! id = Some (v, t) -> P id v t.

Lemma Get_forall P h id fresh n n' :
  history_forall P h -> P id fresh n' -> history_forall P (snd (GetHistory h id fresh n n')).
Proof.
  intros Hh Hf j v t. rewrite GetHistory_lookup. case_decide; [subst j | apply Hh].
  destruct (history_map h !! id) as [[w u] |] eqn:E; [case_if |]; intros [= <- <-]; eauto.
Qed.

Lemma Set_forall P h id v :
  history_forall P h -> (forall w t, history_map h !! id = Some (w, t) -> P id v t) ->
  history_forall P (SetHistory h id v).
Proof.
  intros Hh Hv j w t. rewrite SetHistory_lookup. case_decide; [subst j | apply Hh].
  destruct (history_map h !! id) as [[w' u] |] eqn:E; cbn; [| done].
  intros [= <- <-]. eauto.
Qed.

Lemma Release_forall P h layer now touch :
  history_forall P h -> (forall id v t, P id v t -> P id v (touch id)) ->
  history_forall P (ReleaseInactiveHistory h layer now touch).
Proof.
  intros Hh Ht id v t. rewrite Release_lookup.
  destruct (history_map h !! id) as [[w u] |] eqn:E; cbn; [| done].
  case_if; [done |]. intros [= <- <-]. case_if; eauto.
Qed.

(** Reading the entry of [id] and writing back a value that keeps the
    invariant, which is what every checker step does. *)
Lemma Get_Set_forall P h id fresh n n' (f : T -> T) :
  history_forall P h -> P id fresh n' ->
  (forall v t, P id v t -> P id (f v) t) ->
  let '(v, h') := GetHistory h id fresh n n' in
  history_forall P (SetHistory h' id (f v)).
Proof.
  intros Hh Hf Hp. pose proof (Get_forall P h id fresh n n' Hh Hf) as Hg.
  pose proof (GetHistory_value h id fresh n n') as Hv.
  destruct (GetHistory h id fresh n n') as [v h']. cbn in *.
  apply Set_forall; [done |]. intros w t Hw. rewrite Hw in Hv. injection Hv as ->. eauto.
Qed.

(** The value returned by [GetHistory] satisfies the invariant at the time its
    entry carries. *)
Lemma Get_value_forall P h id fresh n n' :
  history_forall P h -> P id fresh n' ->
  exists t, history_map (snd (GetHistory h id fresh n n')) !! id
              = Some (fst (GetHistory h id fresh n n'), t) /\
    P id (fst (GetHistory h id fresh n n')) t.
Proof.
  intros Hh Hf. pose proof (Get_forall P h id fresh n n' Hh Hf) as Hg.
  pose proof (GetHistory_value h id fresh n n') as Hv.
  destruct (history_map (snd (GetHistory h id fresh n n')) !! id) as [[w t] |] eqn:E; [| done].
  cbn in Hv. injection Hv as Hv. rewrite Hv. eauto.
Qed.

Lemma SetHistory_get h id fresh n n' v :
  history_map (SetHistory (snd (GetHistory h id fresh n n')) id v) !! id =
    (fun t => (v, t)) <$> (snd <$> history_map (snd (GetHistory h id fresh n n')) !! id).
Proof.
  rewrite SetHistory_lookup, decide_True by done.
  by destruct (history_map _ !! id) as [[] |].
Qed.
End HistoryChecker.

Arguments HistoryChecker : clear implicits.

(** Releasing keeps exactly the entries younger than the threshold, with
    their values; it refreshes the age of those whose track is in the current
    layer and of no other, and creates nothing. *)
Theorem release_inactive_correct {T} (h : HistoryChecker T) layer now touch id :
  (history_map (ReleaseInactiveHistory h layer now touch) !! id = None <->
     forall v t, history_map h !! id = Some (v, t) ->
       release_threshold_millisecs h <= duration_ms (now id) t) /\
  (forall v t', history_map (ReleaseInactiveHistory h layer now touch) !! id = Some (v, t') ->
     exists t, history_map h !! id = Some (v, t) /\
       duration_ms (now id) t < release_threshold_millisecs h /\
       t' = if tracked layer id then touch id else t).
Proof.
  rewrite Release_lookup. destruct (history_map h !! id) as [[w u] |] eqn:E; cbn.
  - case_if; bool_to_prop; split.
    + split; [intros _ v t [= <- <-]; lia | done].
    + done.
    + split; [done |]. intros H. specialize (H w u eq_refl). lia.
    + intros v t' [= <- <-]. exists u. split_and!; [done | lia | done].
  - split; [split; [by intros _ ? ? [=] | done] | done].
Qed.
