(* ===== verification/Schedule.v ===== *)
(** * Event schedules

    [AbnormalActions/include/MgenSchedule.h], [ScheduleTypes.h] and
    [src/MgenSchedule.cpp]: one schedule of one camera with its regions, its
    validity window (black list, weekly days, time of day), its event interval
    and the per-track histories its checker works on.  The checkers themselves
    are in [Checkers]. *)

From Stdlib Require Import SpecFloat Ascii String.
From S2P Require Import Prelude Float32 InferObject Geometry History.
Open Scope Z_scope.
Open Scope list_scope.

(** ** Data *)

(** [EventClass] has underlying type [int]; a value that names no enumerator
    comes from a configured event code. *)
Inductive EventClass :=
| EventNone
| LineIntrusion
| AreaIntrusion
| VehicleIntrusion
| VehicleParking
| event_raw (code : Z).

#[export] Instance EventClass_eq_dec : EqDecision EventClass.
Proof. solve_decision. Defined.

Definition EventClass_of_int (z : Z) : EventClass :=
  if z =? -1 then EventNone
  else if z =? 202 then LineIntrusion
  else if z =? 203 then AreaIntrusion
  else if z =? 209 then VehicleIntrusion
  else if z =? 210 then VehicleParking
  else event_raw z.

Definition EventClass_int (e : EventClass) : Z :=
  match e with
  | EventNone => -1 | LineIntrusion => 202 | AreaIntrusion => 203
  | VehicleIntrusion => 209 | VehicleParking => 210 | event_raw z => z
  end.

(** [namespace DefineDefault] of SettingData.h. *)
Definition MIN_ABOUT_1_DAY : Z := 1440.
Definition DAY_ABOUT_1_WEEK : Z := 7.
Definition WEEKLY_DAY_ON : Z := 1.
Definition MINIMUM_EVENT_ACTIVE_INTERVAL_SEC : Z := 60.
Definition DEFAULT_EVENT_REQUIR_DURATION_SEC : Z := 1.
Definition DEFAULT_EVENT_LOITER_DURATION_SEC : Z := 60.
Definition DEFAULT_EVENT_FRAME_RELEASE_S_SEC : Z := 10.
Definition DEFAULT_EVENT_FRAME_RELEASE_L_SEC : Z := 120.

(** A region: areas of points given as ratios of the frame. *)
Abbreviation ROI := (list (list (f32 * f32))).

Record ScheduleInfo := mkScheduleInfo {
  schedule_id : Z;
  event_code : EventClass;
  level_code : Z;
  start_time : string;
  range_minutes : Z;
  weekly : list Z;
  roi : ROI;
  exclude_roi : ROI;
  two_way_roi : ROI;
  one_way_roi : ROI;
  black_list_days : list string;
  notification_min_interval_sec : Z;
  loitering_require_dur_sec : Z
}.

Abbreviation DataLayer := (list InferObject).
Abbreviation ClassEqualChecker := (option (Z -> string -> bool)).

Record RoiEventInfo := mkRoiEvent { continuous : bool; event_time : time_point }.

Record LoiteringEventInfo := mkLoitering {
  is_history_compressed : bool;
  last_compressed_end_time : time_point;
  infer_objects : list (InferObject * time_point)
}.

(** The value-initialised entries; [now] is the system-clock reading of their
    default member initialiser. *)
Definition RoiEventInfo_default (now : time_point) : RoiEventInfo := mkRoiEvent false now.
Definition LoiteringEventInfo_default (now : time_point) : LoiteringEventInfo := mkLoitering false now [].

Inductive EventChecker := CheckIntrusionLine | CheckIntrusionZone | CheckVehicleIntrusion | CheckVehicleParking.

Record Schedule := mkSchedule {
  sch_info : ScheduleInfo;
  abnormal_require_seconds : Z;
  abnormal_release_seconds : Z;
  cv_rois : list (list Point);
  cv_exclude_rois : list (list Point);
  cv_two_way_rois : list (list Point);
  cv_one_way_rois : list (list Point);
  object_history : HistoryChecker (list InferObject);
  roi_state_history : HistoryChecker RoiEventInfo;
  moving_state_history : HistoryChecker LoiteringEventInfo;
  class_equal_checker : ClassEqualChecker;
  last_active_time : time_point;
  checker : option EventChecker
}.

Definition set_object_history (s : Schedule) h : Schedule :=
  mkSchedule (sch_info s) (abnormal_require_seconds s) (abnormal_release_seconds s) (cv_rois s)
    (cv_exclude_rois s) (cv_two_way_rois s) (cv_one_way_rois s) h (roi_state_history s)
    (moving_state_history s) (class_equal_checker s) (last_active_time s) (checker s).
Definition set_roi_state_history (s : Schedule) h : Schedule :=
  mkSchedule (sch_info s) (abnormal_require_seconds s) (abnormal_release_seconds s) (cv_rois s)
    (cv_exclude_rois s) (cv_two_way_rois s) (cv_one_way_rois s) (object_history s) h
    (moving_state_history s) (class_equal_checker s) (last_active_time s) (checker s).
Definition set_moving_state_history (s : Schedule) h : Schedule :=
  mkSchedule (sch_info s) (abnormal_require_seconds s) (abnormal_release_seconds s) (cv_rois s)
    (cv_exclude_rois s) (cv_two_way_rois s) (cv_one_way_rois s) (object_history s)
    (roi_state_history s) h (class_equal_checker s) (last_active_time s) (checker s).

(** ** Construction *)

Definition SelectChecker (event_type : EventClass) : option EventChecker :=
  match event_type with
  | LineIntrusion => Some CheckIntrusionLine
  | AreaIntrusion => Some CheckIntrusionZone
  | VehicleIntrusion => Some CheckVehicleIntrusion
  | VehicleParking => Some CheckVehicleParking
  | _ => None
  end.

Definition GetAbnormalRequireFrame (info : ScheduleInfo) (event_type : EventClass) : Z :=
  match event_type with
  | VehicleParking => loitering_require_dur_sec info
  | LineIntrusion => DEFAULT_EVENT_REQUIR_DURATION_SEC
  | AreaIntrusion => DEFAULT_EVENT_REQUIR_DURATION_SEC
  | _ => DEFAULT_EVENT_REQUIR_DURATION_SEC
  end.

Definition GetAbnormalReleaseFrame (event_type : EventClass) : Z :=
  match event_type with
  | VehicleParking => DEFAULT_EVENT_FRAME_RELEASE_L_SEC
  | LineIntrusion => DEFAULT_EVENT_FRAME_RELEASE_S_SEC
  | AreaIntrusion => DEFAULT_EVENT_FRAME_RELEASE_S_SEC
  | _ => DEFAULT_EVENT_FRAME_RELEASE_S_SEC
  end.

Definition scale_point (frame_w frame_h : Z) (p : f32 * f32) : Point :=
  let '(xpos_ratio, ypos_ratio) := p in
  mkPoint (clamp 0 (i32_of_round (f32_mul (f32_of_Z frame_w) xpos_ratio)) frame_w)
          (clamp 0 (i32_of_round (f32_mul (f32_of_Z frame_h) ypos_ratio)) frame_h).

Definition MakeCvScaledRoiFromScheduleRoi (rois : ROI) (frame_w frame_h : Z) : list (list Point) :=
  map (map (scale_point frame_w frame_h)) rois.

(** [SetClassEqualChecker]: an empty function object is refused. *)
Definition SetClassEqualChecker (s : Schedule) (cec : ClassEqualChecker) : bool * Schedule :=
  match cec with
  | None => (false, s)
  | Some _ =>
      (true, mkSchedule (sch_info s) (abnormal_require_seconds s) (abnormal_release_seconds s)
         (cv_rois s) (cv_exclude_rois s) (cv_two_way_rois s) (cv_one_way_rois s)
         (object_history s) (roi_state_history s) (moving_state_history s) cec
         (last_active_time s) (checker s))
  end.

Definition Schedule_make (info : ScheduleInfo) (frame_w frame_h : Z) (cec : ClassEqualChecker)
    (now : time_point) : Schedule :=
  let release := GetAbnormalReleaseFrame (event_code info) in
  snd (SetClassEqualChecker
    (mkSchedule info
       (GetAbnormalRequireFrame info (event_code info)) release
       (MakeCvScaledRoiFromScheduleRoi (roi info) frame_w frame_h)
       (MakeCvScaledRoiFromScheduleRoi (exclude_roi info) frame_w frame_h)
       (MakeCvScaledRoiFromScheduleRoi (two_way_roi info) frame_w frame_h)
       (MakeCvScaledRoiFromScheduleRoi (one_way_roi info) frame_w frame_h)
       (HistoryChecker_make release) (HistoryChecker_make release) (HistoryChecker_make release)
       None now (SelectChecker (event_code info))) cec).

(** ** Queries *)

Definition IsEvent (s : Schedule) (event : EventClass) : bool :=
  bool_decide (event_code (sch_info s) = event).

Definition IsWithinExcludeROI (s : Schedule) (infer_object : InferObject) : bool :=
  existsb (isIncludePoint (getMidPointFromInferObject infer_object)) (cv_exclude_rois s).

Definition NON_TRACKING_IDX : Z := -1.

Definition GetUidSuffixNumber (s : Schedule) (track_id non_track_suffix_identifier : Z) : Z :=
  match event_code (sch_info s) with
  | AreaIntrusion => if track_id =? NON_TRACKING_IDX then 0 else track_id
  | _ => non_track_suffix_identifier
  end.

Definition GetEventName (event_type : EventClass) : string :=
  match event_type with
  | LineIntrusion => "LineIntrusion"
  | AreaIntrusion => "AreaIntrusion"
  | VehicleIntrusion => "VehicleIntrusion"
  | VehicleParking => "VehicleParking"
  | _ => "NotDefined"
  end%string.

Definition TRACK_ALL_OFF : Z := 0.
Definition TRACK_ON_PERSON : Z := 1.
Definition TRACK_ON_CAR : Z := 2.

Definition GetTrackType (event_type : EventClass) : Z :=
  match event_type with
  | LineIntrusion => TRACK_ON_PERSON
  | AreaIntrusion => TRACK_ON_PERSON
  | VehicleIntrusion => TRACK_ON_CAR
  | VehicleParking => TRACK_ON_CAR
  | _ => TRACK_ALL_OFF
  end.

(** The key and value added to the event's JSON object, if any. *)
Definition SetExtendedDataToJson (infer_object : InferObject) (event_type : EventClass)
    : option (string * Z) :=
  match extend_data infer_object with
  | [] => None
  | val :: _ =>
      match event_type with
      | LineIntrusion => Some ("Direction"%string, i32_of_f val)
      | AreaIntrusion | VehicleParking => Some ("Duration"%string, i32_of_f val)
      | _ => None
      end
  end.

(** ** Event interval *)

Definition UpdateEventActivateTime (s : Schedule) (now : time_point) : Schedule :=
  mkSchedule (sch_info s) (abnormal_require_seconds s) (abnormal_release_seconds s) (cv_rois s)
    (cv_exclude_rois s) (cv_two_way_rois s) (cv_one_way_rois s) (object_history s)
    (roi_state_history s) (moving_state_history s) (class_equal_checker s) now (checker s).

Definition GetEnoughEventInterval (s : Schedule) (now : time_point) : bool :=
  i32 (notification_min_interval_sec (sch_info s) * 1000) <? duration_ms now (last_active_time s).

Definition GetDurationIfSatisfyEventRequireSeconds (s : Schedule) (now event_start_time : time_point) : Z :=
  let duration := duration_ms now event_start_time in
  if i32 (abnormal_require_seconds s * 1000) <? duration then i32 (Z.quot duration 1000) else 0.

(** ** Validity window

    [localtime_r] is what the C library returns for the current time. *)
Record tm := mkTm {
  tm_year : Z; (* years since 1900 *)
  tm_mon : Z;  (* 0..11 *)
  tm_mday : Z;
  tm_hour : Z;
  tm_min : Z;
  tm_wday : Z  (* days since Sunday *)
}.

Definition digit_char (d : Z) : ascii := ascii_of_nat (Z.to_nat (48 + d)).
Definition two_digits (z : Z) : string :=
  String (digit_char (z / 10 mod 10)) (String (digit_char (z mod 10)) EmptyString).
Definition four_digits (z : Z) : string := (two_digits (z / 100) ++ two_digits (z mod 100))%string.

(** [strftime( "%Y-%m-%d" )] for the years 1000 to 9999. *)
Definition strftime_date (t : tm) : string :=
  (four_digits (tm_year t + 1900) ++ "-" ++ two_digits (tm_mon t + 1) ++ "-" ++ two_digits (tm_mday t))%string.

Definition IsWithinBlackList (black_list : list string) (now : tm) : bool :=
  match black_list with
  | [] => false
  | _ => existsb (fun d => String.eqb d (strftime_date now)) black_list
  end.

Definition IsWithinWeeklyDay (weekly_list : list Z) (now : tm) : bool :=
  if negb (Z.of_nat (length weekly_list) =? DAY_ABOUT_1_WEEK) then false
  else match weekly_list !! Z.to_nat (tm_wday now) with
       | Some d => d =? WEEKLY_DAY_ON
       | None => false
       end.

(** [sscanf( "%2d:%2d" )]: each [%2d] skips white space and reads at most two
    characters, an optional sign included; the colon must follow at once. *)
Definition is_space (c : ascii) : bool :=
  let n := nat_of_ascii c in (n =? 32)%nat || ((9 <=? n) && (n <=? 13))%nat.
Definition digit_of (c : ascii) : option Z :=
  let n := nat_of_ascii c in
  if ((48 <=? n) && (n <=? 57))%nat then Some (Z.of_nat n - 48) else None.

Fixpoint skip_space (s : list ascii) : list ascii :=
  match s with
  | c :: s' => if is_space c then skip_space s' else s
  | [] => []
  end.

Fixpoint scan_digits (width : nat) (acc : Z) (s : list ascii) : Z * list ascii :=
  match width, s with
  | S w, c :: s' =>
      match digit_of c with
      | Some d => scan_digits w (10 * acc + d) s'
      | None => (acc, s)
      end
  | _, _ => (acc, s)
  end.

Definition scan_int2 (s : list ascii) : option (Z * list ascii) :=
  let s := skip_space s in
  let '(sign, width, s) :=
    match s with
    | "-"%char :: s' => (-1, 1%nat, s')
    | "+"%char :: s' => (1, 1%nat, s')
    | _ => (1, 2%nat, s)
    end in
  match s with
  | c :: _ =>
      match digit_of c with
      | Some _ => let '(v, rest) := scan_digits width 0 s in Some (sign * v, rest)
      | None => None
      end
  | [] => None
  end.

Definition sscanf_hh_mm (s : string) : option (Z * Z) :=
  match scan_int2 (list_ascii_of_string s) with
  | Some (h, ":"%char :: rest) =>
      match scan_int2 rest with
      | Some (m, _) => Some (h, m)
      | None => None
      end
  | _ => None
  end.

(** Both [mktime] calls are on the same calendar day with daylight saving off,
    so the difference of their results is the difference of the clock times. *)
Definition mktime_minutes (hour min : Z) : Z := 60 * hour + min.

Definition IsWithinTimeRange (startTime : string) (rangeInMinute : Z) (now : tm) : bool :=
  if MIN_ABOUT_1_DAY <=? rangeInMinute then true
  else match sscanf_hh_mm startTime with
       | None => false
       | Some (targetHour, targetMin) =>
           let dur_count := mktime_minutes (tm_hour now) (tm_min now) - mktime_minutes targetHour targetMin in
           let minutes_diff := if 0 <? dur_count then dur_count else dur_count + MIN_ABOUT_1_DAY in
           minutes_diff <=? rangeInMinute
       end.

(** The gate of [Schedule::Check]; each of the three tests reads the clock. *)
Definition within_window (s : Schedule) (t_black t_week t_range : tm) : bool :=
  if IsWithinBlackList (black_list_days (sch_info s)) t_black then false
  else if negb (IsWithinWeeklyDay (weekly (sch_info s)) t_week) then false
  else if negb (IsWithinTimeRange (start_time (sch_info s)) (range_minutes (sch_info s)) t_range)
       then false
  else true.

(** ** Properties *)

Lemma EventClass_int_of_int z : EventClass_int (EventClass_of_int z) = z.
Proof. unfold EventClass_of_int. repeat case_if; cbn; bool_to_prop; lia. Qed.

Lemma clamp_range lo v hi : lo <= hi -> lo <= clamp lo v hi <= hi.
Proof. unfold clamp. lia. Qed.

(** Every vertex of a scaled region lies in the frame, whatever ratio the
    configuration gives, so the coordinates of regions of a frame of up to
    16383 x 16383 pixels never overflow the orientation test. *)
Theorem scaled_roi_in_frame rois frame_w frame_h area p :
  0 <= frame_w <= COORD_MAX -> 0 <= frame_h <= COORD_MAX ->
  area ∈ MakeCvScaledRoiFromScheduleRoi rois frame_w frame_h -> p ∈ area ->
  0 <= px p <= frame_w /\ 0 <= py p <= frame_h /\ coord_ok p.
Proof.
  intros Hw Hh (r & -> & _)%list_elem_of_fmap ([x y] & -> & _)%list_elem_of_fmap.
  cbn. pose proof (clamp_range 0 (i32_of_round (f32_mul (f32_of_Z frame_w) x)) frame_w).
  pose proof (clamp_range 0 (i32_of_round (f32_mul (f32_of_Z frame_h) y)) frame_h).
  unfold coord_ok. cbn. lia.
Qed.

Lemma scaled_roi_in_frame_witness :
  let p := mkPoint 1920 0 in
  0 <= px p <= 1920 /\ 0 <= py p <= 1080 /\ coord_ok p.
Proof.
  apply (scaled_roi_in_frame [[(f32_of_Z 3, f32_of_Z (-2))]] 1920 1080 [mkPoint 1920 0]);
    [unfold COORD_MAX; lia | unfold COORD_MAX; lia | left | left].
Defined.

(** The time-of-day test: with a start [h:m] of the day and a window shorter
    than a day, the current minute is inside exactly when it is between 1 and
    [range] minutes after the start, modulo a day.  In particular the start
    minute itself is outside every window shorter than a day. *)
Theorem time_range_window s h m range now :
  sscanf_hh_mm s = Some (h, m) -> 0 <= h <= 23 -> 0 <= m <= 59 ->
  0 <= tm_hour now <= 23 -> 0 <= tm_min now <= 59 -> range < MIN_ABOUT_1_DAY ->
  let elapsed := (60 * tm_hour now + tm_min now - (60 * h + m)) mod 1440 in
  IsWithinTimeRange s range now = true <-> 1 <= elapsed <= range.
Proof.
  intros Hs Hh Hm Hnh Hnm Hr elapsed. unfold MIN_ABOUT_1_DAY in *.
  unfold IsWithinTimeRange, MIN_ABOUT_1_DAY, mktime_minutes. rewrite Hs.
  rewrite (proj2 (Z.leb_gt 1440 range) Hr), Z.leb_le.
  subst elapsed. set (d := 60 * tm_hour now + tm_min now - (60 * h + m)).
  destruct (Z.ltb_spec 0 d).
  - rewrite Z.mod_small by lia. lia.
  - destruct (Z.eq_dec d 0) as [-> | Hd].
    + rewrite Z.mod_0_l by lia. lia.
    + rewrite <- (Z.mod_unique d 1440 (-1) (d + 1440)) by lia. lia.
Qed.

Lemma time_range_window_witness :
  IsWithinTimeRange "23:30" 60 (mkTm 126 4 26 23 30 2) = true <->
  1 <= (60 * 23 + 30 - (60 * 23 + 30)) mod 1440 <= 60.
Proof.
  apply (time_range_window "23:30" 23 30 60 (mkTm 126 4 26 23 30 2)); cbn; unfold MIN_ABOUT_1_DAY;
    [reflexivity | lia..].
Defined.
