(* ===== verification/Checkers.v ===== *)
(** * Abnormal-action checkers

    [AbnormalActions/src/AbnormalActionChecker.cpp]: line intrusion of persons
    and vehicles, area intrusion and vehicle parking, and [Schedule::Check],
    which runs the selected checker inside the schedule's validity window.

    A handler returns [None] where the code would leave a [noexcept] function
    by an exception ([vector::at] out of range), which terminates the process.

    A concrete scene.  One camera of 1000 x 1000 pixels, one person walking down the frame at 20
    pixels per second across a horizontal line at half height; the inputs on
    which the theorems about the checkers are instantiated. *)

From Stdlib Require Import SpecFloat String.
From S2P Require Import Prelude Float32 InferObject Geometry History Schedule.
Open Scope Z_scope.
Open Scope list_scope.

Definition DATA_LAYER_HIST_MAX : nat := 600.
Definition REQUIRE_MIN_TRACKING_COUNT : nat := 10.

(** The clock readings of one checker call: per visited history entry for the
    release loop, per index of the input layer for the main loop. *)
Record Readings := mkReadings {
  rd_now : Z -> time_point;        (* steady: age test of ReleaseInactiveHistory *)
  rd_touch : Z -> time_point;      (* steady: refresh of ReleaseInactiveHistory *)
  rd_age : nat -> time_point;      (* steady: age test of GetHistory *)
  rd_create : nat -> time_point;   (* steady: created or overridden entry *)
  rd_fresh : nat -> time_point;    (* system: default value of a new entry *)
  rd_store : nat -> time_point;    (* system: stored with the observation *)
  rd_duration : nat -> time_point; (* system: duration of the observation *)
  rd_interval : nat -> time_point; (* system: event interval test *)
  rd_end : time_point              (* system: UpdateEventActivateTime *)
}.

(** ** Line crossing *)

(** First orientation reported by consecutive mid points against one line. *)
Fixpoint scan_history (h : list InferObject) (a b : Point) : LineOrientation :=
  match h with
  | prev :: ((next :: _) as rest) =>
      let line_cross := checkLineIntersect (getMidPointFromInferObject prev)
                          (getMidPointFromInferObject next) a b in
      if bool_decide (line_cross <> NotCrossed) then line_cross else scan_history rest a b
  | _ => NotCrossed
  end.

Fixpoint scan_lines (h : list InferObject) (roi_points : list Point) : LineOrientation :=
  match roi_points with
  | a :: ((b :: _) as rest) =>
      let line_cross := scan_history h a b in
      if bool_decide (line_cross <> NotCrossed) then line_cross else scan_lines h rest
  | _ => NotCrossed
  end.

(** The loop bounds are [size() - 1] on [size_t]: on an empty region or an
    empty history the bound wraps to 2^64 - 1 and [at] throws, unless the other
    loop makes no iteration. *)
Fixpoint calcLineCross (target_history : list InferObject) (target_rois : list (list Point))
    : option LineOrientation :=
  match target_rois with
  | [] => Some NotCrossed
  | roi_points :: rest =>
      match roi_points, target_history with
      | [_], _ => calcLineCross target_history rest
      | [], [_] => calcLineCross target_history rest
      | [], _ => None
      | _, [] => None
      | _, _ =>
          let line_cross := scan_lines target_history roi_points in
          if bool_decide (line_cross <> NotCrossed) then Some line_cross
          else calcLineCross target_history rest
      end
  end.

(** ** Line intrusion *)

Definition line_direction (two_way one_way : LineOrientation) : LineOrientation :=
  if bool_decide (one_way = Clockwise) then one_way else two_way.

(** The history of one object after the push and the size cap. *)
Definition push_capped (boxes : list InferObject) (object : InferObject) : list InferObject :=
  let boxes' := boxes ++ [object] in
  if (DATA_LAYER_HIST_MAX <? length boxes')%nat then [] else boxes'.

Definition LineIntrusion_step (r : Readings) (class_name : string) (cec : Z -> string -> bool)
    (i : nat) (object : InferObject) (st : Schedule * DataLayer) : option (Schedule * DataLayer) :=
  let '(s, results) := st in
  if negb (cec (class_id object) class_name) then Some (s, results)
  else if IsWithinExcludeROI s object then Some (s, results)
  else
    let '(boxes, h) := GetHistory (object_history s) (track_id object) [] (rd_age r i) (rd_create r i) in
    let boxes := push_capped boxes object in
    let s := set_object_history s (SetHistory h (track_id object) boxes) in
    if (length boxes <? REQUIRE_MIN_TRACKING_COUNT)%nat then Some (s, results)
    else if negb (GetEnoughEventInterval s (rd_interval r i)) then Some (s, results)
    else
      match calcLineCross boxes (cv_two_way_rois s), calcLineCross boxes (cv_one_way_rois s) with
      | Some two_way, Some one_way =>
          let dir := line_direction two_way one_way in
          if bool_decide (dir <> NotCrossed)
          then Some (s, results ++ [push_extend object (f32_of_Z (LineOrientation_int dir))])
          else Some (s, results)
      | _, _ => None
      end.

(** The loop over the input layer, [i] being the index of the first object. *)
Fixpoint run_layer (step : nat -> InferObject -> Schedule * DataLayer -> option (Schedule * DataLayer))
    (i : nat) (layer : DataLayer) (st : Schedule * DataLayer) : option (Schedule * DataLayer) :=
  match layer with
  | [] => Some st
  | object :: rest =>
      match step i object st with
      | Some st' => run_layer step (S i) rest st'
      | None => None
      end
  end.

(** The common end: the activation time is updated when something was reported. *)
Definition finish (r : Readings) (st : Schedule * DataLayer) : DataLayer * Schedule :=
  let '(s, results) := st in
  (results, match results with [] => s | _ => UpdateEventActivateTime s (rd_end r) end).

Definition LineIntrusionBase (r : Readings) (class_name : string) (in_layer : DataLayer) (s : Schedule)
    : option (DataLayer * Schedule) :=
  match class_equal_checker s with
  | None => Some ([], s)
  | Some cec =>
      let s := set_object_history s
                 (ReleaseInactiveHistory (object_history s) in_layer (rd_now r) (rd_touch r)) in
      finish r <$> run_layer (LineIntrusion_step r class_name cec) 0 in_layer (s, [])
  end.

Definition IntrusionLine (r : Readings) in_layer s := LineIntrusionBase r "Person" in_layer s.
Definition VehicleIntrusion_check (r : Readings) in_layer s := LineIntrusionBase r "Car" in_layer s.

(** ** Area intrusion *)

(** [is_exist_roi_contain_box]. *)
Definition in_any_roi (s : Schedule) (object : InferObject) : bool :=
  existsb (isIncludePoint (getMidPointFromInferObject object)) (cv_rois s).

(** The loop over the regions: each region containing the object reports it
    unless its track is already in the results. *)
Definition zone_report (r : Readings) (i : nat) (s : Schedule) (roi_check : RoiEventInfo)
    (object : InferObject) (results : DataLayer) : DataLayer :=
  foldl (fun results roi_points =>
           if continuous roi_check && isIncludePoint (getMidPointFromInferObject object) roi_points then
             if existsb (fun elem => track_id elem =? track_id object) results then results
             else results ++ [push_extend object
                                (f32_of_Z (duration_s (rd_duration r i) (event_time roi_check)))]
           else results)
        results (cv_rois s).

Definition IntrusionZone_step (r : Readings) (cec : Z -> string -> bool)
    (i : nat) (object : InferObject) (st : Schedule * DataLayer) : option (Schedule * DataLayer) :=
  let '(s, results) := st in
  if negb (cec (class_id object) "Person"%string) then Some (s, results)
  else if IsWithinExcludeROI s object then Some (s, results)
  else
    let contained := in_any_roi s object in
    let '(roi_check, h) := GetHistory (roi_state_history s) (track_id object)
                             (RoiEventInfo_default (rd_fresh r i)) (rd_age r i) (rd_create r i) in
    let roi_check := if contained then roi_check else mkRoiEvent true (rd_store r i) in
    let s := set_roi_state_history s (SetHistory h (track_id object) roi_check) in
    if negb (GetEnoughEventInterval s (rd_interval r i)) then Some (s, results)
    else Some (s, zone_report r i s roi_check object results).

Definition IntrusionZone (r : Readings) (in_layer : DataLayer) (s : Schedule)
    : option (DataLayer * Schedule) :=
  match class_equal_checker s with
  | None => Some ([], s)
  | Some cec =>
      let s := set_roi_state_history s
                 (ReleaseInactiveHistory (roi_state_history s) in_layer (rd_now r) (rd_touch r)) in
      finish r <$> run_layer (IntrusionZone_step r cec) 0 in_layer (s, [])
  end.

(** ** Vehicle parking *)

Definition push_parking (info : LoiteringEventInfo) (object : InferObject) (now : time_point)
    : LoiteringEventInfo :=
  let objs := infer_objects info ++ [(object, now)] in
  mkLoitering (is_history_compressed info) (last_compressed_end_time info)
    (if (DATA_LAYER_HIST_MAX <? length objs)%nat then firstn 1 objs else objs).

Definition VehicleParking_step (r : Readings) (cec : Z -> string -> bool)
    (i : nat) (object : InferObject) (st : Schedule * DataLayer) : option (Schedule * DataLayer) :=
  let '(s, results) := st in
  if negb (cec (class_id object) "Car"%string) then Some (s, results)
  else if IsWithinExcludeROI s object then Some (s, results)
  else
    let '(info, h) := GetHistory (moving_state_history s) (track_id object)
                        (LoiteringEventInfo_default (rd_fresh r i)) (rd_age r i) (rd_create r i) in
    if negb (in_any_roi s object) then Some (set_moving_state_history s h, results)
    else
      let info := push_parking info object (rd_store r i) in
      let s := set_moving_state_history s (SetHistory h (track_id object) info) in
      match infer_objects info with
      | [] => Some (s, results)
      | (_, first_tracked_time) :: _ =>
          if (length (infer_objects info) <? REQUIRE_MIN_TRACKING_COUNT)%nat then Some (s, results)
          else
            let duration :=
              GetDurationIfSatisfyEventRequireSeconds s (rd_duration r i) first_tracked_time in
            if (0 <? duration) && GetEnoughEventInterval s (rd_interval r i)
            then Some (s, results ++ [push_extend object (f32_of_Z duration)])
            else Some (s, results)
      end.

Definition VehicleParking_check (r : Readings) (in_layer : DataLayer) (s : Schedule)
    : option (DataLayer * Schedule) :=
  match class_equal_checker s with
  | None => Some ([], s)
  | Some cec => finish r <$> run_layer (VehicleParking_step r cec) 0 in_layer (s, [])
  end.

(** ** [Schedule::Check] *)

Definition run_checker (c : EventChecker) (r : Readings) in_layer s : option (DataLayer * Schedule) :=
  match c with
  | CheckIntrusionLine => IntrusionLine r in_layer s
  | CheckIntrusionZone => IntrusionZone r in_layer s
  | CheckVehicleIntrusion => VehicleIntrusion_check r in_layer s
  | CheckVehicleParking => VehicleParking_check r in_layer s
  end.

Definition Check_ (r : Readings) (t_black t_week t_range : tm) (in_layer : DataLayer) (s : Schedule)
    : option (DataLayer * Schedule) :=
  if within_window s t_black t_week t_range then
    match checker s with
    | Some c => run_checker c r in_layer s
    | None => Some ([], s)
    end
  else Some ([], s).

Definition half : f32 := f32_lit 1 2.
Definition tenth (n : Z) : f32 := f32_lit n 10.

Definition demo_line : ROI := [[(f0, half); (f1, half)]].
Definition demo_square : ROI :=
  [[(tenth 1, tenth 3); (tenth 9, tenth 3); (tenth 9, tenth 7); (tenth 1, tenth 7)]].

Definition demo_info (code : EventClass) (area two_way : ROI) (loiter : Z) : ScheduleInfo :=
  mkScheduleInfo 1 code 1 "00:00" 1440 [1; 1; 1; 1; 1; 1; 1] area [] two_way [] [] 5 loiter.

Definition demo_schedule (code : EventClass) (area two_way : ROI) (loiter : Z) : Schedule :=
  Schedule_make (demo_info code area two_way loiter) 1000 1000 (Some (fun _ _ => true)) 0.

(** The person of track 7 with its middle point at (500, [y]). *)
Definition demo_person (y : Z) : InferObject :=
  mkInferObject 0 0 7 f1 (mkBBox (f32_of_Z 495) (f32_of_Z (y - 5)) (f32_of_Z 10) (f32_of_Z 10))
    ltx_type pixel_int [].

(** Every clock read at second [t]. *)
Definition second (t : Z) : time_point := t * 1000000000.
Definition demo_readings (t : Z) : Readings :=
  mkReadings (fun _ => second t) (fun _ => second t) (fun _ => second t) (fun _ => second t)
    (fun _ => second t) (fun _ => second t) (fun _ => second t) (fun _ => second t) (second t).

Definition demo_tm : tm := mkTm 126 0 1 12 0 4.

(** The layer seen at second [t], [y] being the height of the person. *)
Definition demo_layer (y : Z) : DataLayer := [demo_person y].
