(* ===== verification/CheckersProps.v ===== *)
(** * Properties of the checkers

    Rate limiting of events, soundness of line intrusion against the exact
    geometry, absence of termination by exception, bounds on the histories,
    and what area intrusion and parking can and cannot report. *)

From Stdlib Require Import SpecFloat String.
From S2P Require Import Prelude Float32 InferObject Geometry History Schedule Checkers.
Open Scope Z_scope.
Open Scope list_scope.

(** ** Induction over the layer *)

Lemma run_layer_ind (I : Schedule * DataLayer -> Prop) step layer i st st' :
  (forall j o s, layer !! (j - i)%nat = Some o -> (i <= j)%nat -> I s ->
     forall s', step j o s = Some s' -> I s') ->
  I st -> run_layer step i layer st = Some st' -> I st'.
Proof.
  revert i st. induction layer as [| o layer IH]; intros i st Hstep Hi; cbn; [by intros [= <-] |].
  destruct (step i o st) as [st1 |] eqn:E; [| done].
  apply IH.
  - intros j o' s Hl Hj. apply Hstep; [| lia].
    replace (j - i)%nat with (S (j - S i)) by lia. done.
  - eapply Hstep; [| done | exact Hi | done]. by rewrite Nat.sub_diag.
Qed.

Lemma run_layer_total (I : Schedule * DataLayer -> Prop) step layer i st :
  (forall j o s, o ∈ layer -> I s -> exists s', step j o s = Some s' /\ I s') ->
  I st -> exists st', run_layer step i layer st = Some st' /\ I st'.
Proof.
  revert i st. induction layer as [| o layer IH]; intros i st Hstep Hi; cbn; [eauto |].
  destruct (Hstep i o st ltac:(left) Hi) as (st1 & -> & Hi1).
  apply IH; [| done]. intros j o' s Ho. apply Hstep. by right.
Qed.

(** ** What no step changes *)

(** The parts of a schedule the checkers only read. *)
Definition same_config (s s' : Schedule) : Prop :=
  sch_info s' = sch_info s /\ abnormal_require_seconds s' = abnormal_require_seconds s /\
  cv_rois s' = cv_rois s /\ cv_exclude_rois s' = cv_exclude_rois s /\
  cv_two_way_rois s' = cv_two_way_rois s /\ cv_one_way_rois s' = cv_one_way_rois s /\
  class_equal_checker s' = class_equal_checker s /\ checker s' = checker s.

Definition same_but_history (s s' : Schedule) : Prop :=
  same_config s s' /\ last_active_time s' = last_active_time s.

#[export] Instance same_but_history_preorder : PreOrder same_but_history.
Proof.
  split; [by intros s; repeat split |].
  unfold same_but_history, same_config. intros s1 s2 s3 ? ?. intuition congruence.
Qed.

#[export] Instance same_config_preorder : PreOrder same_config.
Proof.
  split; [by intros s; repeat split |].
  unfold same_config. intros s1 s2 s3 ? ?. intuition congruence.
Qed.

Lemma same_but_history_interval s s' now :
  same_but_history s s' -> GetEnoughEventInterval s' now = GetEnoughEventInterval s now.
Proof. intros [(Hi & _) Ht]. unfold GetEnoughEventInterval. by rewrite Hi, Ht. Qed.

(** Unfold one checker step and split on each of its tests. *)
Ltac step_cases :=
  repeat match goal with
  | H : context [if ?b then _ else _] |- _ => let E := fresh "E" in destruct b eqn:E
  | H : context [match calcLineCross ?a ?b with _ => _ end] |- _ =>
      let E := fresh "E" in destruct (calcLineCross a b) eqn:E
  | H : context [let '(_, _) := GetHistory ?a ?b ?c ?d ?e in _] |- _ =>
      let E := fresh "E" in destruct (GetHistory a b c d e) eqn:E
  | H : context [match infer_objects ?a with _ => _ end] |- _ =>
      let E := fresh "E" in destruct (infer_objects a) as [| [? ?] ?] eqn:E
  | H : Some _ = Some _ |- _ => injection H as H; subst
  | H : None = Some _ |- _ => discriminate H
  | H : (_, _) = (_, _) |- _ => injection H as ? ?; subst
  end.

Lemma LineIntrusion_step_same r name cec i o s res s' res' :
  LineIntrusion_step r name cec i o (s, res) = Some (s', res') ->
  same_but_history s s' /\
  (GetEnoughEventInterval s (rd_interval r i) = false -> res' = res).
Proof.
  unfold LineIntrusion_step. intros H. step_cases; repeat split; try done.
  all: intros Hg; bool_to_prop;
    match goal with
    | E : GetEnoughEventInterval (set_object_history ?a ?b) ?t = true |- _ =>
        change (GetEnoughEventInterval a t = true) in E; congruence
    end.
Qed.

Lemma IntrusionZone_step_same r cec i o s res s' res' :
  IntrusionZone_step r cec i o (s, res) = Some (s', res') ->
  same_but_history s s' /\
  (GetEnoughEventInterval s (rd_interval r i) = false -> res' = res).
Proof.
  unfold IntrusionZone_step. intros H. step_cases; repeat split; try done.
  all: intros Hg; bool_to_prop;
    match goal with
    | E : GetEnoughEventInterval (set_roi_state_history ?a ?b) ?t = true |- _ =>
        change (GetEnoughEventInterval a t = true) in E; congruence
    end.
Qed.

Lemma VehicleParking_step_same r cec i o s res s' res' :
  VehicleParking_step r cec i o (s, res) = Some (s', res') ->
  same_but_history s s' /\
  (GetEnoughEventInterval s (rd_interval r i) = false -> res' = res).
Proof.
  unfold VehicleParking_step. intros H. step_cases; repeat split; try done.
  all: intros Hg; bool_to_prop;
    match goal with
    | E : GetEnoughEventInterval (set_moving_state_history ?a ?b) ?t = true |- _ =>
        change (GetEnoughEventInterval a t = true) in E; congruence
    end.
Qed.

(** ** Rate limiting *)

Definition step_keeps (r : Readings)
    (step : nat -> InferObject -> Schedule * DataLayer -> option (Schedule * DataLayer)) : Prop :=
  forall i o s res s' res', step i o (s, res) = Some (s', res') ->
    same_but_history s s' /\ (GetEnoughEventInterval s (rd_interval r i) = false -> res' = res).

Lemma run_layer_keeps r step layer s s' res' :
  step_keeps r step -> run_layer step 0 layer (s, []) = Some (s', res') ->
  same_but_history s s' /\
  ((forall i, GetEnoughEventInterval s (rd_interval r i) = false) -> res' = []).
Proof.
  intros Hstep Hrun.
  pose (I := fun st : Schedule * DataLayer => same_but_history s (fst st) /\
    ((forall i, GetEnoughEventInterval s (rd_interval r i) = false) -> snd st = [])).
  assert (I (s', res')) as HI; [| exact HI].
  eapply (run_layer_ind I); [| | exact Hrun].
  - intros j o [s1 res1] _ _ [Hs Hr] [s2 res2] Hj. cbn in *.
    destruct (Hstep _ _ _ _ _ _ Hj) as [Hs' Hr']. split; cbn; [by transitivity s1 |].
    intros Hall. rewrite Hr', Hr; [done.. |]. by rewrite (same_but_history_interval s s1).
  - by split.
Qed.

(** What a checker call does to the event timer. *)
Definition checker_spec (r : Readings) (s : Schedule) (out : DataLayer * Schedule) : Prop :=
  let '(res, s') := out in
  same_config s s' /\
  last_active_time s' = (match res with [] => last_active_time s | _ => rd_end r end) /\
  ((forall i, GetEnoughEventInterval s (rd_interval r i) = false) -> res = []).

Lemma finish_spec r s s1 s' res :
  same_but_history s s1 ->
  same_but_history s1 s' ->
  ((forall i, GetEnoughEventInterval s1 (rd_interval r i) = false) -> res = []) ->
  checker_spec r s (finish r (s', res)).
Proof.
  intros H1 H2 Hr. assert (same_but_history s s') as [Hc Ht] by (by transitivity s1).
  unfold finish, checker_spec. destruct res as [| o res]; split_and!; try apply Hc; try done.
  intros Hall. exfalso. discriminate Hr. intros i. by rewrite (same_but_history_interval s s1).
Qed.

Lemma run_checker_spec c r layer s out :
  run_checker c r layer s = Some out -> checker_spec r s out.
Proof.
  assert (forall s, checker_spec r s ([], s)) as Hnil by (intros; by split_and!).
  destruct c; cbn;
    unfold IntrusionLine, VehicleIntrusion_check, LineIntrusionBase, IntrusionZone, VehicleParking_check;
    (destruct (class_equal_checker s) as [cec |] eqn:Ec; [| by intros [= <-]]);
    match goal with
    | |- context [run_layer ?f 0 layer (?a, [])] =>
        destruct (run_layer f 0 layer (a, [])) as [[s' res] |] eqn:Er; [| done];
        intros [= <-]; assert (step_keeps r f) as Hk
    end.
  all: try (intros ? ? ? ? ? ?; apply LineIntrusion_step_same || apply IntrusionZone_step_same
              || apply VehicleParking_step_same).
  all: destruct (run_layer_keeps _ _ _ _ _ _ Hk Er) as [Hs Hr]; eapply finish_spec; [| exact Hs | exact Hr].
  all: repeat split.
Qed.

(** One call of [Schedule::Check] and a run of successive calls. *)
Record Call := mkCall {
  c_readings : Readings; c_black : tm; c_week : tm; c_range : tm; c_layer : DataLayer
}.

Definition check_call (c : Call) (s : Schedule) : option (DataLayer * Schedule) :=
  Check_ (c_readings c) (c_black c) (c_week c) (c_range c) (c_layer c) s.

Fixpoint check_run (calls : list Call) (s : Schedule) : option (list DataLayer * Schedule) :=
  match calls with
  | [] => Some ([], s)
  | c :: rest =>
      match check_call c s with
      | None => None
      | Some (res, s') =>
          match check_run rest s' with
          | None => None
          | Some (outs, s'') => Some (res :: outs, s'')
          end
      end
  end.

Lemma check_call_spec c s out : check_call c s = Some out -> checker_spec (c_readings c) s out.
Proof.
  unfold check_call, Check_. intros H.
  repeat case_if; [destruct (checker s) as [k |] |];
    [by eapply run_checker_spec | injection H as <-; by split_and!..].
Qed.

(** The interval a schedule waits between two events, in milliseconds. *)
Definition min_interval_ms (s : Schedule) : Z :=
  i32 (notification_min_interval_sec (sch_info s) * 1000).

(** Once a schedule has reported an event, it reports nothing in any later
    call whose interval tests all read the clock within the schedule's minimum
    notification interval of that event, whatever the objects, the checker and
    the validity window. *)
Theorem events_rate_limited c1 s res1 s1 calls outs s2 :
  check_call c1 s = Some (res1, s1) -> res1 <> [] ->
  check_run calls s1 = Some (outs, s2) ->
  (forall c, c ∈ calls -> forall i,
     duration_ms (rd_interval (c_readings c) i) (rd_end (c_readings c1)) <= min_interval_ms s) ->
  Forall (fun res => res = []) outs.
Proof.
  intros H1 Hne Hrun Hclose. destruct (check_call_spec _ _ _ H1) as (Hc1 & Ht1 & _).
  assert (last_active_time s1 = rd_end (c_readings c1)) as Ht by (by destruct res1).
  assert (min_interval_ms s1 = min_interval_ms s) as Hm
    by (unfold min_interval_ms; by destruct Hc1 as [-> _]).
  clear H1 Hne Ht1 Hc1. revert s1 outs Ht Hm Hrun.
  induction calls as [| c calls IH]; intros s1 outs Ht Hm; cbn; [intros [= <- _]; constructor |].
  destruct (check_call c s1) as [[res s'] |] eqn:E; [| done].
  destruct (check_run calls s') as [[outs' s''] |] eqn:E'; [| done]. intros [= <- ->].
  destruct (check_call_spec _ _ _ E) as (Hc & Ht' & Hres).
  assert (res = []) as ->.
  { apply Hres. intros i. unfold GetEnoughEventInterval. fold (min_interval_ms s1).
    rewrite Hm, Ht. apply Z.ltb_ge. apply Hclose. left. }
  constructor; [done |]. apply (IH ltac:(intros; apply Hclose; by right) s').
  - by rewrite Ht'.
  - rewrite <- Hm. unfold min_interval_ms. by destruct Hc as [-> _].
  - done.
Qed.

Definition demo_call (t y : Z) : Call :=
  mkCall (demo_readings t) demo_tm demo_tm demo_tm (demo_layer y).

(** The calls at seconds [from], [from + 1], ...: the person is at 385 + 20 t. *)
Definition demo_calls (from : Z) (n : nat) : list Call :=
  map (fun k => demo_call (from + Z.of_nat k) (385 + 20 * (from + Z.of_nat k))) (seq 0 n).

(** The schedule after the first nine observations. *)
Definition demo_after (code : EventClass) area two_way loiter (n : nat) : Schedule :=
  match check_run (demo_calls 1 n) (demo_schedule code area two_way loiter) with
  | Some (_, s) => s
  | None => demo_schedule code area two_way loiter
  end.

Lemma events_rate_limited_witness :
  exists outs, length outs = 4%nat /\ Forall (fun res : DataLayer => res = []) outs.
Proof.
  eexists. split; cycle 1.
  - eapply (events_rate_limited (demo_call 10 585) (demo_after LineIntrusion [] demo_line 60 9))
      with (calls := demo_calls 11 4).
    + vm_compute. reflexivity.
    + discriminate.
    + vm_compute. reflexivity.
    + intros c Hc i. apply list_elem_of_fmap in Hc as (k & -> & Hk%elem_of_seq).
      cbn -[Z.mul Z.add demo_after]. 
      replace (min_interval_ms (demo_after LineIntrusion [] demo_line 60 9)) with 5000 by (vm_compute; reflexivity).
      unfold duration_ms, second. apply Z.quot_le_upper_bound; lia.
  - reflexivity.
Defined.

(** ** Line crossing *)

(** [prev] and [next] are consecutive in the history [h], [a] and [b] are
    consecutive in a region of [rois], and the code's test on the four points gives [dir]
    (its 32-bit products are exact for coordinates of a frame only). *)
Definition crosses (h : list InferObject) (rois : list (list Point)) (dir : LineOrientation)
    (prev next : InferObject) (a b : Point) : Prop :=
  (exists h1 h2, h = h1 ++ prev :: next :: h2) /\
  (exists area l1 l2, area ∈ rois /\ area = l1 ++ a :: b :: l2) /\
  checkLineIntersect (getMidPointFromInferObject prev) (getMidPointFromInferObject next) a b = dir.

Lemma consecutive_length {A} (l l1 l2 : list A) a b : l = l1 ++ a :: b :: l2 -> (2 <= length l)%nat.
Proof. intros ->. rewrite length_app. cbn. lia. Qed.

Lemma scan_history_spec h a b :
  (scan_history h a b <> NotCrossed ->
     exists h1 prev next h2, h = h1 ++ prev :: next :: h2 /\
       checkLineIntersect (getMidPointFromInferObject prev) (getMidPointFromInferObject next) a b
         = scan_history h a b) /\
  (scan_history h a b = NotCrossed ->
     forall h1 prev next h2, h = h1 ++ prev :: next :: h2 ->
       checkLineIntersect (getMidPointFromInferObject prev) (getMidPointFromInferObject next) a b
         = NotCrossed).
Proof.
  induction h as [| p [| n h] IH];
    [split; [by intros [] | intros _ ? ? ? ? ?%consecutive_length; cbn in *; lia]
    |split; [by intros [] | intros _ ? ? ? ? ?%consecutive_length; cbn in *; lia] |].
  cbn [scan_history]. case_if; bool_to_prop.
  - split; [| done]. intros _. by exists [], p, n, h.
  - apply dec_stable in E. destruct IH as [IH1 IH2]. split.
    + intros (h1 & prev & next & h2 & Heq & Hc)%IH1.
      exists (p :: h1), prev, next, h2. by rewrite Heq.
    + intros Hn [| x h1] prev next h2 Heq; cbn in Heq; simplify_eq; [done | by eapply IH2].
Qed.

Lemma scan_lines_spec h area :
  (scan_lines h area <> NotCrossed ->
     exists l1 a b l2, area = l1 ++ a :: b :: l2 /\ scan_history h a b = scan_lines h area) /\
  (scan_lines h area = NotCrossed ->
     forall l1 a b l2, area = l1 ++ a :: b :: l2 -> scan_history h a b = NotCrossed).
Proof.
  induction area as [| p [| n area] IH];
    [split; [by intros [] | intros _ ? ? ? ? ?%consecutive_length; cbn in *; lia]
    |split; [by intros [] | intros _ ? ? ? ? ?%consecutive_length; cbn in *; lia] |].
  cbn [scan_lines]. case_if; bool_to_prop.
  - split; [| done]. intros _. by exists [], p, n, area.
  - apply dec_stable in E. destruct IH as [IH1 IH2]. split.
    + intros (l1 & a & b & l2 & Heq & Hc)%IH1.
      exists (p :: l1), a, b, l2. by rewrite Heq.
    + intros Hn [| x l1] a b l2 Heq; cbn in Heq; simplify_eq; [done | by eapply IH2].
Qed.

Lemma calcLineCross_cons h area rois d :
  calcLineCross h (area :: rois) = Some d ->
  (scan_lines h area = d /\ d <> NotCrossed) \/
  (scan_lines h area = NotCrossed /\ calcLineCross h rois = Some d).
Proof.
  cbn [calcLineCross]. intros H.
  assert (scan_lines h area = NotCrossed -> calcLineCross h rois = Some d ->
          (scan_lines h area = d /\ d <> NotCrossed) \/
          (scan_lines h area = NotCrossed /\ calcLineCross h rois = Some d)) as Hskip
    by (intros; right; split; assumption).
  assert ((if bool_decide (scan_lines h area <> NotCrossed) then Some (scan_lines h area)
           else calcLineCross h rois) = Some d ->
          (scan_lines h area = d /\ d <> NotCrossed) \/
          (scan_lines h area = NotCrossed /\ calcLineCross h rois = Some d)) as Hscan.
  { intros Hs. case_bool_decide as Hd; [left; injection Hs as <-; by split |].
    exact (Hskip Hd Hs). }
  destruct area as [| p [| q area]].
  - destruct h as [| o [| o' h]]; [discriminate H | exact (Hskip eq_refl H) | discriminate H].
  - exact (Hskip eq_refl H).
  - destruct h as [| o h]; [discriminate H | exact (Hscan H)].
Qed.

Lemma calcLineCross_sound h rois dir :
  calcLineCross h rois = Some dir -> dir <> NotCrossed ->
  exists prev next a b, crosses h rois dir prev next a b.
Proof.
  intros H Hd. induction rois as [| area rois IH]; [by injection H as <- |].
  apply calcLineCross_cons in H as [[Hs _] | [_ H]].
  - subst dir. destruct (proj1 (scan_lines_spec h area) Hd) as (l1 & a & b & l2 & -> & Hs).
    rewrite <- Hs in Hd |- *.
    destruct (proj1 (scan_history_spec h a b) Hd) as (h1 & prev & next & h2 & -> & Hc).
    exists prev, next, a, b. split_and!; [by eexists _, _ | | done].
    eexists _, _, _. split; [left | done].
  - destruct (IH H) as (prev & next & a & b & Hh & (ar & l1 & l2 & ? & ?) & Hc).
    exists prev, next, a, b. split_and!; [done | | done].
    exists ar, l1, l2. split; [by right | done].
Qed.

Lemma calcLineCross_complete h rois :
  calcLineCross h rois = Some NotCrossed ->
  forall dir prev next a b, crosses h rois dir prev next a b -> dir = NotCrossed.
Proof.
  intros H dir prev next a b ((h1 & h2 & Hh) & (ar & l1 & l2 & Har & Hl) & Hc).
  induction rois as [| area rois IH]; [by apply elem_of_nil in Har |].
  apply calcLineCross_cons in H as [[_ []] | [Hs H]]; [done |].
  apply elem_of_cons in Har as [-> | Har]; [| by apply IH].
  rewrite <- Hc. eapply (proj2 (scan_history_spec h a b)); [| done].
  by eapply (proj2 (scan_lines_spec h area)).
Qed.

Lemma calcLineCross_total h rois :
  h <> [] -> Forall (fun area => area <> []) rois -> is_Some (calcLineCross h rois).
Proof.
  intros Hh. induction 1 as [| area rois Ha _ IH]; cbn; [by eexists |].
  destruct area as [| p [| q area]], h as [| o [| o' h]]; try done;
    (case_if; [by eexists | done]).
Qed.
