(* ===== verification/CheckersLine.v ===== *)
(** * Line intrusion: what is reported and why

    Soundness of the reports of [LineIntrusionBase] against the exact geometry
    of [Geometry], the bound on its histories, and the absence of termination
    by exception for every checker. *)

From Stdlib Require Import SpecFloat String.
From S2P Require Import Prelude Float32 InferObject Geometry History Schedule Checkers CheckersProps.
Open Scope Z_scope.
Open Scope list_scope.

(** ** The history invariant *)

(** A stored trajectory: at most [DATA_LAYER_HIST_MAX] observations, all of the
    track it is filed under and of the class the checker looks for. *)
Definition trajectory_ok (cec : Z -> string -> bool) (class_name : string) (id : Z)
    (boxes : list InferObject) : Prop :=
  (length boxes <= DATA_LAYER_HIST_MAX)%nat /\
  Forall (fun o => track_id o = id /\ cec (class_id o) class_name = true) boxes.

Definition trajectories_ok cec class_name (s : Schedule) : Prop :=
  history_forall (fun id boxes _ => trajectory_ok cec class_name id boxes) (object_history s).

Lemma push_capped_ok cec class_name object boxes :
  cec (class_id object) class_name = true ->
  trajectory_ok cec class_name (track_id object) boxes ->
  trajectory_ok cec class_name (track_id object) (push_capped boxes object).
Proof.
  intros Hc [Hl Hf]. unfold push_capped. case_if; [by split; [cbn; lia | constructor] |].
  split; [apply Nat.ltb_ge in E; exact E |].
  apply Forall_app. split; [exact Hf | repeat constructor; exact Hc].
Qed.

Lemma push_capped_last boxes object :
  push_capped boxes object = [] \/ push_capped boxes object = boxes ++ [object].
Proof. unfold push_capped. case_if; [by left | by right]. Qed.

(** Why a line intrusion may be reported for [object]: a trajectory of its track
    ending in it crosses a two-way line with orientation [dir], or a one-way
    line clockwise. *)
Definition line_evidence (s : Schedule) (cec : Z -> string -> bool) (class_name : string)
    (object : InferObject) (dir : LineOrientation) : Prop :=
  exists boxes prev next a b,
    trajectory_ok cec class_name (track_id object) (boxes ++ [object]) /\
    (REQUIRE_MIN_TRACKING_COUNT <= length (boxes ++ [object]))%nat /\
    (dir <> NotCrossed /\ crosses (boxes ++ [object]) (cv_two_way_rois s) dir prev next a b \/
     dir = Clockwise /\ crosses (boxes ++ [object]) (cv_one_way_rois s) Clockwise prev next a b).

Definition line_report (s : Schedule) (cec : Z -> string -> bool) (class_name : string)
    (layer : DataLayer) (reported : InferObject) : Prop :=
  exists object dir, object ∈ layer /\
    reported = push_extend object (f32_of_Z (LineOrientation_int dir)) /\
    IsWithinExcludeROI s object = false /\ line_evidence s cec class_name object dir.

Lemma line_evidence_config s s' cec class_name object dir :
  same_config s s' -> line_evidence s' cec class_name object dir -> line_evidence s cec class_name object dir.
Proof. intros (_ & _ & _ & _ & Ht & Ho & _). unfold line_evidence. by rewrite Ht, Ho. Qed.

Lemma line_direction_crossed two_way one_way :
  line_direction two_way one_way <> NotCrossed ->
  (one_way = Clockwise /\ line_direction two_way one_way = Clockwise) \/
  (two_way <> NotCrossed /\ line_direction two_way one_way = two_way).
Proof. unfold line_direction. case_bool_decide; [left | right]; by split. Qed.

Lemma calcLineCross_evidence s cec class_name object boxes two_way one_way :
  trajectory_ok cec class_name (track_id object) (boxes ++ [object]) ->
  (REQUIRE_MIN_TRACKING_COUNT <= length (boxes ++ [object]))%nat ->
  calcLineCross (boxes ++ [object]) (cv_two_way_rois s) = Some two_way ->
  calcLineCross (boxes ++ [object]) (cv_one_way_rois s) = Some one_way ->
  line_direction two_way one_way <> NotCrossed ->
  line_evidence s cec class_name object (line_direction two_way one_way).
Proof.
  intros Ht Hl H2 H1 Hd. destruct (line_direction_crossed _ _ Hd) as [[-> Hc] | [Hn Hc]]; rewrite Hc.
  - destruct (calcLineCross_sound _ _ _ H1 ltac:(discriminate)) as (prev & next & a & b & Hx).
    exists boxes, prev, next, a, b. split; [exact Ht |]. split; [exact Hl |].
    right. split; [reflexivity | exact Hx].
  - destruct (calcLineCross_sound _ _ _ H2 Hn) as (prev & next & a & b & Hx).
    exists boxes, prev, next, a, b. split; [exact Ht |]. split; [exact Hl |].
    left. split; [exact Hn | exact Hx].
Qed.

(** One object: the invariant is kept and a report, if any, has evidence. *)
Lemma LineIntrusion_step_sound r class_name cec i object s res s' res' :
  trajectories_ok cec class_name s ->
  LineIntrusion_step r class_name cec i object (s, res) = Some (s', res') ->
  trajectories_ok cec class_name s' /\
  (res' = res \/ exists reported, res' = res ++ [reported] /\
     line_report s cec class_name [object] reported).
Proof.
  intros Hinv. unfold LineIntrusion_step.
  destruct (cec (class_id object) class_name) eqn:Ec; cbn [negb]; [| intros [= <- <-]; by split; [| left]].
  destruct (IsWithinExcludeROI s object) eqn:Ex; [intros [= <- <-]; by split; [| left] |].
  assert (forall id, trajectory_ok cec class_name id []) as Hnil by (split; [cbn; lia | constructor]).
  pose proof (Get_Set_forall (fun id boxes (_ : time_point) => trajectory_ok cec class_name id boxes)
                (object_history s) (track_id object) [] (rd_age r i) (rd_create r i)
                (fun boxes => push_capped boxes object) Hinv (Hnil _)
                (fun v _ Hv => push_capped_ok cec class_name object v Ec Hv)) as Hset.
  pose proof (Get_value_forall (fun id boxes (_ : time_point) => trajectory_ok cec class_name id boxes)
                (object_history s) (track_id object) [] (rd_age r i) (rd_create r i)
                Hinv (Hnil _)) as (t & _ & Hval).
  destruct (GetHistory _ _ _ _ _) as [boxes h]. cbn in Hval.
  apply (push_capped_ok _ _ object _ Ec) in Hval.
  set (s1 := set_object_history s _). intros H.
  assert (same_config s s1) as Hcfg by (repeat split).
  assert (trajectories_ok cec class_name s1) as Hs1 by exact Hset.
  step_cases; split; try exact Hs1; try (left; reflexivity).
  right. eexists. split; [reflexivity |].
  bool_to_prop.
  destruct (push_capped_last boxes object) as [Hp | Hp];
    [rewrite Hp in E; cbn in E; unfold REQUIRE_MIN_TRACKING_COUNT in E; lia |].
  rewrite Hp in *. exists object, (line_direction l l0). split; [left |]. split; [reflexivity |].
  split; [exact Ex |]. apply (line_evidence_config _ s1); [exact Hcfg |].
  eapply calcLineCross_evidence; eassumption.
Qed.

Lemma line_report_mono s s' cec class_name layer layer' reported :
  same_config s s' -> (forall o, o ∈ layer -> o ∈ layer') ->
  line_report s' cec class_name layer reported -> line_report s cec class_name layer' reported.
Proof.
  intros Hc Hl (object & dir & Ho & Hr & Hx & He).
  exists object, dir. split; [by apply Hl |]. split; [exact Hr |].
  split; [| by eapply line_evidence_config].
  destruct Hc as (_ & _ & _ & Hex & _). unfold IsWithinExcludeROI in *. by rewrite <- Hex.
Qed.

Definition layer_sound (s : Schedule) cec class_name layer (st : Schedule * DataLayer) : Prop :=
  same_config s (fst st) /\ trajectories_ok cec class_name (fst st) /\
  Forall (line_report s cec class_name layer) (snd st).

Lemma layer_sound_step s cec class_name layer r j o st st' :
  o ∈ layer -> layer_sound s cec class_name layer st ->
  LineIntrusion_step r class_name cec j o st = Some st' ->
  layer_sound s cec class_name layer st'.
Proof.
  intros Ho (Hc & Ht & Hf) Hstep. destruct st as [s1 res1], st' as [s2 res2]. cbn in Hc, Ht, Hf.
  pose proof (LineIntrusion_step_same _ _ _ _ _ _ _ _ _ Hstep) as [[Hc' _] _].
  destruct (LineIntrusion_step_sound _ _ _ _ _ _ _ _ _ Ht Hstep) as [Ht' Hres].
  split; [by transitivity s1 |]. split; [exact Ht' |]. cbn.
  destruct Hres as [-> | (rep & -> & Hrep)]; [exact Hf |].
  apply Forall_app. split; [exact Hf |]. constructor; [| constructor].
  eapply line_report_mono; [exact Hc | | exact Hrep].
  intros o' Ho'. apply list_elem_of_singleton in Ho' as ->. exact Ho.
Qed.

(** C37: every report of a line checker is justified.  From a schedule whose
    stored trajectories are well formed, a call keeps them well formed (at most
    600 observations, all of their own track and class), and each reported
    object is an object of the layer outside the excluded regions, extended with
    the direction, for which some trajectory of its own track and class, of at
    least 10 observations and ending in it, has two consecutive middle points
    whose segment meets a configured two-way line with that direction, or a
    one-way line clockwise.  (Two segments meet when [checkLineIntersect], in 32-bit
    arithmetic, says so, which is the geometric fact for coordinates of a frame.) *)
Theorem line_intrusion_sound r class_name cec layer s res s' :
  class_equal_checker s = Some cec -> trajectories_ok cec class_name s ->
  LineIntrusionBase r class_name layer s = Some (res, s') ->
  trajectories_ok cec class_name s' /\ Forall (line_report s cec class_name layer) res.
Proof.
  intros Hcec Ht. unfold LineIntrusionBase. rewrite Hcec.
  set (s0 := set_object_history s _).
  assert (layer_sound s cec class_name layer (s0, [])) as H0.
  { split; [by repeat split |]. split; [| constructor].
    apply Release_forall; [exact Ht | done]. }
  clearbody s0.
  destruct (run_layer _ _ _ _) as [[s1 res1] |] eqn:E; [| intros H; discriminate H].
  assert (layer_sound s cec class_name layer (s1, res1)) as (Hc1 & Ht1 & Hf1).
  { eapply run_layer_ind; [| exact H0 | exact E].
    intros j o st Hl _ Hst st' Hstep. eapply layer_sound_step; [| exact Hst | exact Hstep].
    by eapply list_elem_of_lookup_2. }
  cbn. intros H. injection H as <- <-. split; [by destruct res1 | exact Hf1].
Qed.

(** Ten observations of the walking person in one layer: one report. *)
Definition demo_walk : DataLayer := map (fun k => demo_person (405 + 20 * Z.of_nat k)) (seq 0 10).

Lemma line_intrusion_sound_witness :
  let s := demo_schedule LineIntrusion [] demo_line 60 in
  exists res s', length res = 1%nat /\ trajectories_ok (fun _ _ => true) "Person" s' /\
    Forall (line_report s (fun _ _ => true) "Person" demo_walk) res.
Proof.
  intros s. eexists _, _. split; cycle 1.
  - eapply (line_intrusion_sound (demo_readings 10) "Person" (fun _ _ => true) demo_walk s);
      [reflexivity | | vm_compute; reflexivity].
    intros id boxes t. vm_compute. discriminate.
  - reflexivity.
Defined.

(** ** No termination by exception *)

Lemma push_capped_le_nonempty boxes object :
  (length (push_capped boxes object) <? REQUIRE_MIN_TRACKING_COUNT)%nat = false ->
  push_capped boxes object <> [].
Proof. intros H Hn. by rewrite Hn in H. Qed.

(** Every configured line has at least one vertex. *)
Definition lines_nonempty (s : Schedule) : Prop :=
  Forall (fun area => area <> []) (cv_two_way_rois s) /\
  Forall (fun area => area <> []) (cv_one_way_rois s).

Lemma LineIntrusion_step_total r class_name cec i object s res :
  lines_nonempty s -> is_Some (LineIntrusion_step r class_name cec i object (s, res)).
Proof.
  intros [H2 H1]. unfold LineIntrusion_step.
  repeat first [case_if; [by eexists |]].
  destruct (GetHistory _ _ _ _ _) as [boxes h]. set (s1 := set_object_history s _).
  case_if; [by eexists |]. apply push_capped_le_nonempty in E1.
  case_if; [by eexists |].
  destruct (calcLineCross_total _ (cv_two_way_rois s1) E1 H2) as [d2 ->].
  destruct (calcLineCross_total _ (cv_one_way_rois s1) E1 H1) as [d1 ->].
  case_if; by eexists.
Qed.

Lemma lines_nonempty_config s s' : same_config s s' -> lines_nonempty s -> lines_nonempty s'.
Proof. intros (_ & _ & _ & _ & Ht & Ho & _). unfold lines_nonempty. by rewrite Ht, Ho. Qed.

Lemma LineIntrusionBase_total r class_name layer s :
  lines_nonempty s -> is_Some (LineIntrusionBase r class_name layer s).
Proof.
  intros Hs. unfold LineIntrusionBase. destruct (class_equal_checker s) as [cec |]; [| by eexists].
  set (s0 := set_object_history s _). assert (lines_nonempty s0) as H0 by exact Hs.
  edestruct (run_layer_total (fun st => lines_nonempty (fst st))) as (st & -> & _);
    [| exact (H0 : lines_nonempty (fst (s0, []))) | by eexists].
  intros j o [s1 res1] _ H1. destruct (LineIntrusion_step_total r class_name cec j o s1 res1 H1) as [[s2 res2] E].
  exists (s2, res2). split; [exact E |].
  apply LineIntrusion_step_same in E as [[Hc _] _]. eapply lines_nonempty_config; [exact Hc | exact H1].
Qed.

Lemma run_layer_some step layer i st :
  (forall j o st, is_Some (step j o st)) -> is_Some (run_layer step i layer st).
Proof.
  intros H. edestruct (run_layer_total (fun _ => True) step layer i st) as (st' & -> & _);
    [| done | by eexists].
  intros j o s _ _. destruct (H j o s) as [s' ->]. by exists s'.
Qed.

Lemma IntrusionZone_step_total r cec i o st : is_Some (IntrusionZone_step r cec i o st).
Proof.
  destruct st as [s res]. unfold IntrusionZone_step. repeat (case_if; [by eexists |]).
  destruct (GetHistory _ _ _ _ _). case_if; by eexists.
Qed.

Lemma VehicleParking_step_total r cec i o st : is_Some (VehicleParking_step r cec i o st).
Proof.
  destruct st as [s res]. unfold VehicleParking_step. repeat (case_if; [by eexists |]).
  destruct (GetHistory _ _ _ _ _). case_if; [by eexists |].
  destruct (infer_objects _) as [| [? ?] ?]; [by eexists |].
  repeat (case_if; [by eexists |]). by eexists.
Qed.

(** No checker leaves its [noexcept] body by an out-of-range [at], whatever
    the layer and the clock, provided every configured line has a vertex; and
    each call leaves that so. *)
Theorem check_never_throws c s :
  lines_nonempty s ->
  exists res s', check_call c s = Some (res, s') /\ lines_nonempty s'.
Proof.
  intros Hs. assert (is_Some (check_call c s)) as [[res s'] E].
  { unfold check_call, Check_. case_if; [| by eexists].
    destruct (checker s) as [[] |]; [| | | | by eexists]; cbn [run_checker].
    - by apply LineIntrusionBase_total.
    - unfold IntrusionZone. destruct (class_equal_checker s) as [cec |]; [| by eexists].
      apply fmap_is_Some, run_layer_some. intros. apply IntrusionZone_step_total.
    - by apply LineIntrusionBase_total.
    - unfold VehicleParking_check. destruct (class_equal_checker s) as [cec |]; [| by eexists].
      apply fmap_is_Some, run_layer_some. intros. apply VehicleParking_step_total. }
  exists res, s'. split; [exact E |].
  destruct (check_call_spec _ _ _ E) as (Hc & _). eapply lines_nonempty_config; [exact Hc | exact Hs].
Qed.

Lemma check_never_throws_witness :
  let s := demo_schedule LineIntrusion [] demo_line 60 in
  exists res s', check_call (demo_call 1 405) s = Some (res, s') /\ lines_nonempty s'.
Proof.
  intros s. apply (check_never_throws (demo_call 1 405) s).
  split; vm_compute; repeat constructor; discriminate.
Defined.

(** The hypothesis is needed: a line without vertices ends the process. *)
Example empty_line_throws :
  LineIntrusionBase (demo_readings 10) "Person" demo_walk
    (demo_schedule LineIntrusion [] [[]] 60) = None.
Proof. vm_compute. reflexivity. Qed.
