(* ===== verification/CheckersArea.v ===== *)
(** * Area intrusion and parking: what is and is not reported

    Area intrusion reports a track at most once per call, and only a track that
    was seen outside before.  Parking reports need ten observations over the
    required time, and with a required time of 121 seconds or more nothing is
    ever reported, because the per-track entry is restarted after 120 seconds. *)

From Stdlib Require Import SpecFloat String.
From S2P Require Import Prelude Float32 InferObject Geometry History Schedule Checkers CheckersProps.
Open Scope Z_scope.
Open Scope list_scope.

(** ** Area intrusion *)

Definition zone_reported (s : Schedule) (layer : DataLayer) (reported : InferObject) : Prop :=
  exists object sec, object ∈ layer /\ reported = push_extend object (f32_of_Z sec) /\
    IsWithinExcludeROI s object = false /\ in_any_roi s object = true.

Lemma zone_report_spec r i s roi_check object results :
  zone_report r i s roi_check object results = results \/
  (continuous roi_check = true /\ in_any_roi s object = true /\
   Forall (fun e => track_id e <> track_id object) results /\
   zone_report r i s roi_check object results =
     results ++ [push_extend object (f32_of_Z (duration_s (rd_duration r i) (event_time roi_check)))]).
Proof.
  unfold zone_report, in_any_roi. set (rep := push_extend object _).
  assert (track_id rep = track_id object) as Hrep by done. clearbody rep.
  assert (forall rois res, In rep res ->
    foldl (fun results roi_points =>
       if continuous roi_check && isIncludePoint (getMidPointFromInferObject object) roi_points then
         if existsb (fun elem => track_id elem =? track_id object) results then results
         else results ++ [rep] else results) res rois = res) as Hkeep.
  { induction rois as [| p rois IH]; intros res Hin; cbn; [done |].
    replace (existsb _ res) with true; [by case_if; apply IH |].
    symmetry. apply existsb_exists. exists rep. split; [done | by apply Z.eqb_eq]. }
  induction (cv_rois s) as [| p rois IH]; cbn [foldl existsb]; [by left |].
  destruct (continuous roi_check) eqn:Ec; cbn [andb] in *.
  - destruct (isIncludePoint (getMidPointFromInferObject object) p) eqn:Ei; cbn [orb].
    + case_if; [destruct IH as [IH | (_ & _ & IH1 & IH2)];
        [by left | right; by split_and!] |].
      right. split_and!; try done.
      * apply existsb_false_iff in E. eapply Forall_impl; [exact E |]. intros e He. by apply Z.eqb_neq.
      * apply Hkeep. apply in_or_app. right. by left.
    + exact IH.
  - destruct IH as [IH | (IH & _)]; [left; exact IH | discriminate].
Qed.

(** A track that the current entries have only seen inside the regions. *)
Definition never_outside (t : Z) (s : Schedule) : Prop :=
  history_forall (fun id info _ => id = t -> continuous info = false) (roi_state_history s).

(** What one object does to the results and to the entries. *)
Lemma IntrusionZone_step_spec r cec i object s res s' res' :
  IntrusionZone_step r cec i object (s, res) = Some (s', res') ->
  same_but_history s s' /\
  (res' = res \/ exists reported, res' = res ++ [reported] /\
     Forall (fun e => track_id e <> track_id reported) res /\
     track_id reported = track_id object /\ zone_reported s [object] reported) /\
  (forall t, never_outside t s -> (track_id object = t -> in_any_roi s object = true) ->
     never_outside t s' /\ (res' = res \/ track_id object <> t)).
Proof.
  intros Hs. split; [by eapply IntrusionZone_step_same |].
  revert Hs. unfold IntrusionZone_step. case_if; [intros [= <- <-]; split; [by left | by split; [| left]] |].
  destruct (IsWithinExcludeROI s object) eqn:Ex; [intros [= <- <-]; split; [by left | by split; [| left]] |].
  pose proof (fun t (H : never_outside t s) =>
    Get_Set_forall _ (roi_state_history s) (track_id object) (RoiEventInfo_default (rd_fresh r i))
      (rd_age r i) (rd_create r i)
      (fun info => if in_any_roi s object then info else mkRoiEvent true (rd_store r i)) H (fun _ => eq_refl))
    as Hset.
  pose proof (fun t (H : never_outside t s) =>
    Get_value_forall _ (roi_state_history s) (track_id object) (RoiEventInfo_default (rd_fresh r i))
      (rd_age r i) (rd_create r i) H (fun _ => eq_refl)) as Hval.
  destruct (GetHistory _ _ _ _ _) as [info h]. cbn in Hval.
  set (s1 := set_roi_state_history s _).
  assert (forall t, never_outside t s -> (track_id object = t -> in_any_roi s object = true) ->
            never_outside t s1) as Hno.
  { intros t H Hin. apply (Hset t H). intros v _ Hv Ht. rewrite Hin by done. by apply Hv. }
  case_if; [intros [= <- <-]; split; [by left | split; [by apply Hno | by left]] |].
  intros [= <- <-]. set (info' := if in_any_roi s object then _ else _).
  destruct (zone_report_spec r i s1 info' object res) as [-> | (Hc & Hi & Hnew & ->)];
    [split; [by left | split; [by apply Hno | by left]] |].
  change (in_any_roi s1 object) with (in_any_roi s object) in Hi. subst info'. rewrite Hi in *. split.
  - right. eexists. split_and!; [done | done | done |]. eexists object, _. split_and!; [left | done | done | done].
  - intros t H Hin. split; [by apply Hno |]. right. intros Ht.
    destruct (Hval t H) as (? & _ & Hf). rewrite Hf in Hc; done.
Qed.

Lemma zone_reported_mono s s' layer layer' rep :
  same_config s s' -> (forall o, o ∈ layer -> o ∈ layer') -> zone_reported s' layer rep -> zone_reported s layer' rep.
Proof.
  intros (_ & _ & Hr & Hx & _) Hl (o & sec & Ho & He & Hex & Hi).
  exists o, sec. split; [by apply Hl |]. unfold IsWithinExcludeROI, in_any_roi in *.
  rewrite <- Hr, <- Hx. by split_and!.
Qed.

Definition zone_sound (s : Schedule) (layer : DataLayer) (st : Schedule * DataLayer) : Prop :=
  same_but_history s (fst st) /\ NoDup (map track_id (snd st)) /\
  Forall (zone_reported s layer) (snd st).

Lemma zone_sound_step s layer r cec j o st st' :
  o ∈ layer -> zone_sound s layer st -> IntrusionZone_step r cec j o st = Some st' -> zone_sound s layer st'.
Proof.
  intros Ho (Hc & Hn & Hf) Hstep. destruct st as [s1 res1], st' as [s2 res2]. cbn in Hc, Hn, Hf.
  destruct (IntrusionZone_step_spec _ _ _ _ _ _ _ _ Hstep) as (Hc' & Hres & _).
  split; [by transitivity s1 |].
  destruct Hres as [-> | (rep & -> & Hnew & _ & Hrep)]; [by split | cbn].
  rewrite map_app. split.
  - apply NoDup_app. split_and!; [exact Hn | | apply NoDup_singleton].
    intros t (e & -> & He)%list_elem_of_fmap Ht%list_elem_of_singleton.
    rewrite Forall_forall in Hnew. by apply (Hnew e He).
  - apply Forall_app. split; [exact Hf |]. constructor; [| constructor].
    eapply zone_reported_mono; [apply Hc | | exact Hrep].
    intros o' ->%list_elem_of_singleton. exact Ho.
Qed.

(** One call of the area checker reports each track at most once, whatever
    the number of regions and of boxes with that track, and each report is an
    object of the layer, outside the excluded regions and with its middle point
    inside a region. *)
Theorem zone_reports_sound r layer s res s' :
  IntrusionZone r layer s = Some (res, s') ->
  NoDup (map track_id res) /\ Forall (zone_reported s layer) res.
Proof.
  unfold IntrusionZone. destruct (class_equal_checker s) as [cec |]; [| intros [= <- <-]; split; constructor].
  set (s0 := set_roi_state_history s _).
  assert (zone_sound s layer (s0, [])) as H0 by (split; [by repeat split | split; constructor]).
  clearbody s0.
  destruct (run_layer _ _ _ _) as [[s1 res1] |] eqn:E; [| intros H; discriminate H].
  assert (zone_sound s layer (s1, res1)) as (_ & Hn & Hf).
  { eapply run_layer_ind; [| exact H0 | exact E].
    intros j o st Hl _ Hst st' Hstep. eapply zone_sound_step; [| exact Hst | exact Hstep].
    by eapply list_elem_of_lookup_2. }
  intros H. injection H as <- <-. by split.
Qed.

Lemma zone_reports_sound_witness :
  let s := demo_after AreaIntrusion demo_square [] 60 0 in
  let res := [push_extend (demo_person 325) (f32_of_Z 0)] in
  NoDup (map track_id res) /\ Forall (zone_reported s [demo_person 285; demo_person 325]) res.
Proof.
  intros s res.
  apply (zone_reports_sound (demo_readings 10) [demo_person 285; demo_person 325] s res
           (match IntrusionZone (demo_readings 10) [demo_person 285; demo_person 325] s with
            | Some (_, s') => s' | None => s end)).
  vm_compute. reflexivity.
Defined.

Lemma never_outside_layer s0 t r cec layer s1 s2 res2 :
  never_outside t s1 -> same_config s0 s1 ->
  (forall o, o ∈ layer -> track_id o = t -> in_any_roi s0 o = true) ->
  run_layer (IntrusionZone_step r cec) 0 layer (s1, []) = Some (s2, res2) ->
  never_outside t s2 /\ Forall (fun e => track_id e <> t) res2.
Proof.
  intros Hno Hcfg Hin Hrun.
  pose (I := fun st : Schedule * DataLayer => same_config s0 (fst st) /\ never_outside t (fst st) /\
               Forall (fun e => track_id e <> t) (snd st)).
  assert (I (s1, [])) as H0 by (split; [exact Hcfg | split; [exact Hno | constructor]]).
  assert (I (s2, res2)) as (_ & H1 & H2); [| done].
  eapply (run_layer_ind I); [| exact H0 | exact Hrun].
  intros j o [s res] Ho _ (Hc & Hn & Hf) [s' res'] Hstep. cbn in Hc, Hn, Hf.
  apply list_elem_of_lookup_2 in Ho.
  destruct (IntrusionZone_step_spec _ _ _ _ _ _ _ _ Hstep) as ([Hc' _] & Hres & Hstay).
  destruct (Hstay t Hn) as [Hn' Hor].
  { intros Ht. destruct Hc as (_ & _ & Hr & _). unfold in_any_roi in *. rewrite Hr. by apply Hin. }
  split; [by transitivity s |]. split; [exact Hn' | cbn].
  destruct Hres as [-> | (rep & -> & _ & Hrep & _)]; [exact Hf |].
  apply Forall_app. split; [exact Hf |]. constructor; [| constructor].
  rewrite Hrep. destruct Hor as [Heq | Hne]; [| exact Hne].
  apply (f_equal length) in Heq. rewrite length_app in Heq. cbn in Heq. lia.
Qed.

Lemma never_outside_call t s c res s' :
  checker s = Some CheckIntrusionZone -> never_outside t s ->
  (forall o, o ∈ c_layer c -> track_id o = t -> in_any_roi s o = true) ->
  check_call c s = Some (res, s') ->
  never_outside t s' /\ Forall (fun e => track_id e <> t) res.
Proof.
  intros Hck Hno Hin. unfold check_call, Check_. rewrite Hck. cbn [run_checker].
  case_if; [| intros [= <- <-]; by split].
  unfold IntrusionZone. destruct (class_equal_checker s) as [cec |]; [| intros [= <- <-]; by split].
  set (s0 := set_roi_state_history s _).
  assert (never_outside t s0) as H0 by (apply Release_forall; [exact Hno | done]).
  assert (same_config s s0) as Hc0 by (by repeat split). clearbody s0.
  destruct (run_layer _ _ _ _) as [[s1 res1] |] eqn:Er; [| intros H; discriminate H].
  destruct (never_outside_layer s t _ _ _ _ _ _ H0 Hc0 Hin Er) as [H1 H2].
  intros H. injection H as <- <-. split; [by destruct res1 | exact H2].
Qed.

(** Area intrusion means entering: over any run of calls, a track whose
    boxes have only ever been seen inside the regions is never reported, however
    long it stays. *)
Theorem area_requires_entry t calls s outs s' :
  checker s = Some CheckIntrusionZone -> never_outside t s ->
  check_run calls s = Some (outs, s') ->
  (forall c o, c ∈ calls -> o ∈ c_layer c -> track_id o = t -> in_any_roi s o = true) ->
  Forall (Forall (fun e => track_id e <> t)) outs.
Proof.
  revert s outs. induction calls as [| c calls IH]; intros s outs Hck Hno Hrun Hin; cbn in Hrun;
    [injection Hrun as <- _; constructor |].
  destruct (check_call c s) as [[res s1] |] eqn:E; [| discriminate Hrun].
  destruct (check_run calls s1) as [[outs' s2] |] eqn:E'; [| discriminate Hrun].
  injection Hrun as <- ->.
  destruct (never_outside_call t s c res s1 Hck Hno) as [Hno1 Hres]; [| exact E |].
  { intros o. apply Hin. left. }
  destruct (check_call_spec _ _ _ E) as ((_ & _ & Hr & _ & _ & _ & _ & Hk) & _).
  constructor; [exact Hres |]. apply (IH s1 outs'); [by rewrite Hk | exact Hno1 | exact E' |].
  intros c' o Hc Ho Ht. unfold in_any_roi. rewrite Hr. apply (Hin c'); [by right | exact Ho | exact Ht].
Qed.

Lemma area_requires_entry_witness :
  exists outs, length outs = 12%nat /\ Forall (Forall (fun e => track_id e <> 7)) outs.
Proof.
  eexists. split; cycle 1.
  - eapply (area_requires_entry 7 (demo_calls 1 12) (demo_schedule AreaIntrusion demo_square [] 60)).
    + reflexivity.
    + intros id info u. vm_compute. discriminate.
    + vm_compute. reflexivity.
    + intros c o (k & -> & Hk%elem_of_seq)%list_elem_of_fmap Ho%list_elem_of_singleton _.
      subst o. do 12 (destruct k as [| k]; [vm_compute; reflexivity |]). lia.
  - reflexivity.
Defined.

(** ** Vehicle parking *)

(** The parked object of a report: inside a region, with a stored trajectory of
    at least ten observations whose first is older than the required time. *)
Definition parking_reported (s : Schedule) (r : Readings) (layer : DataLayer) (reported : InferObject) : Prop :=
  exists object i first_tracked_time, object ∈ layer /\
    IsWithinExcludeROI s object = false /\ in_any_roi s object = true /\
    let duration := duration_ms (rd_duration r i) first_tracked_time in
    i32 (abnormal_require_seconds s * 1000) < duration /\
    reported = push_extend object (f32_of_Z (i32 (Z.quot duration 1000))).

(** The steady clock is [off] ahead of the system clock, and all readings of one
    call are taken between [lo] and [hi] on the steady clock. *)
Definition call_window (off lo hi : Z) (r : Readings) : Prop :=
  forall i, lo <= rd_create r i <= hi /\ lo <= rd_age r i /\ lo <= rd_store r i + off /\
            rd_duration r i + off <= hi.

(** Every entry was created at or before [bound], and its first observation is
    at most [slack] older than the entry. *)
Definition parking_inv (off slack bound : Z) (s : Schedule) : Prop :=
  release_threshold_millisecs (moving_state_history s) = 120000 /\
  history_forall (fun _ info t => t <= bound /\
      forall o ft, head (infer_objects info) = Some (o, ft) -> t <= ft + off + slack)
    (moving_state_history s).

Lemma push_parking_head info object now :
  infer_objects (push_parking info object now) <> [] /\
  (infer_objects info <> [] ->
     head (infer_objects (push_parking info object now)) = head (infer_objects info)) /\
  (infer_objects info = [] -> head (infer_objects (push_parking info object now)) = Some (object, now)).
Proof.
  unfold push_parking. set (big := (_ <? _)%nat). clearbody big.
  destruct (infer_objects info) as [| x l], big; cbn; split_and!; done.
Qed.

Lemma parking_threshold s :
  release_threshold_millisecs (moving_state_history s) = 120000 ->
  forall id fresh n n',
    let '(info, h) := GetHistory (moving_state_history s) id fresh n n' in
    exists t, history_map h !! id = Some (info, t) /\
      (infer_objects info <> [] -> infer_objects fresh = [] -> duration_ms n t <= 120000).
Proof.
  intros Ht id fresh n n'. pose proof (GetHistory_value (moving_state_history s) id fresh n n') as Hv.
  pose proof (GetHistory_lookup (moving_state_history s) id fresh n n' id) as Hl.
  destruct (GetHistory _ _ _ _ _) as [info h]. cbn [fst snd] in *. rewrite decide_True in Hl by done.
  rewrite Ht in Hl.
  destruct (history_map (moving_state_history s) !! id) as [[v t] |]; [case_if |];
    rewrite Hl in Hv; injection Hv as ->; rewrite Hl.
  - exists n'. split; [done | intros H1 H2; contradiction].
  - exists t. split; [done |]. intros _ _. by apply Z.ltb_ge in E.
  - exists n'. split; [done | intros H1 H2; contradiction].
Qed.

Lemma duration_ms_slack d age t ft off slack :
  t <= ft + off -> d + off <= age + slack -> 0 <= slack -> duration_ms age t <= 120000 ->
  duration_ms d ft <= 120000 + slack / 1000000 + 1.
Proof.
  unfold duration_ms. intros H1 H2 Hs Hd.
  assert (age - t < 120001 * 1000000) as Ha.
  { destruct (Z.le_gt_cases 0 (age - t)); [| lia].
    rewrite Z.quot_div_nonneg in Hd by lia.
    pose proof (Z.mul_succ_div_gt (age - t) 1000000). lia. }
  pose proof (Z.mul_succ_div_gt slack 1000000 ltac:(lia)).
  assert (0 <= slack / 1000000) by (apply Z.div_pos; lia).
  destruct (Z.le_gt_cases 0 (d - ft)).
  - apply Z.lt_succ_r. apply Z.quot_lt_upper_bound; lia.
  - pose proof (Z.quot_opp_l (d - ft) 1000000 ltac:(lia)).
    pose proof (Z.quot_pos (- (d - ft)) 1000000). lia.
Qed.

Lemma push_parking_inv off slack lo hi r i info object t :
  call_window off lo hi r -> hi <= lo + slack -> t <= hi ->
  (forall o ft, head (infer_objects info) = Some (o, ft) -> t <= ft + off + slack) ->
  forall o ft, head (infer_objects (push_parking info object (rd_store r i))) = Some (o, ft) ->
    t <= ft + off + slack.
Proof.
  intros Hw Hlo Ht Hinfo o ft Hh. destruct (Hw i) as (_ & _ & Hst & _).
  destruct (push_parking_head info object (rd_store r i)) as (_ & H1 & H2).
  destruct (decide (infer_objects info = [])) as [He | He].
  - rewrite H2 in Hh by done. injection Hh as _ <-. lia.
  - rewrite H1 in Hh by done. by eapply Hinfo.
Qed.

(** One object: what is reported, and the entries keep the invariant. *)
Lemma VehicleParking_step_spec off slack lo hi r cec i object s res s' res' :
  0 <= slack -> call_window off lo hi r -> hi <= lo + slack -> parking_inv off slack hi s ->
  VehicleParking_step r cec i object (s, res) = Some (s', res') ->
  parking_inv off slack hi s' /\
  (res' = res \/ exists reported, res' = res ++ [reported] /\
     parking_reported s r [object] reported /\
     i32 (abnormal_require_seconds s * 1000) < 120000 + 2 * slack / 1000000 + 1).
Proof.
  intros Hslack Hwin Hlo [Hthr Hinv]. pose proof (Hwin i) as (Hcreate & Hage & _ & Hdur).
  unfold VehicleParking_step.
  case_if; [intros [= <- <-]; split; [by split | by left] |].
  destruct (IsWithinExcludeROI s object) eqn:Ex; [intros [= <- <-]; split; [by split | by left] |].
  set (fresh := LoiteringEventInfo_default (rd_fresh r i)).
  pose proof (Get_forall _ (moving_state_history s) (track_id object) fresh (rd_age r i) (rd_create r i)
                Hinv ltac:(split; [lia | intros o ft H; discriminate H])) as Hget.
  pose proof (GetHistory_threshold (moving_state_history s) (track_id object) fresh (rd_age r i) (rd_create r i)) as Hgt.
  pose proof (parking_threshold s Hthr (track_id object) fresh (rd_age r i) (rd_create r i)) as Hold.
  destruct (GetHistory _ _ _ _ _) as [info h]. cbn [fst snd] in *. destruct Hold as (t & Ht & Hold).
  destruct (in_any_roi s object) eqn:Ei; cbn [negb]; 
    [| intros [= <- <-]; split; [split; [cbn; congruence | exact Hget] | by left]].
  destruct (Hget _ _ _ Ht) as [Hthi Hfirst].
  pose proof (push_parking_inv off slack lo hi r i info object t Hwin Hlo Hthi Hfirst) as Hpush.
  pose proof (push_parking_head info object (rd_store r i)) as (_ & Hh1 & Hh2).
  set (info' := push_parking info object (rd_store r i)) in *.
  set (s1 := set_moving_state_history s _).
  assert (parking_inv off slack hi s1) as Hs1.
  { split; [cbn; congruence |]. apply Set_forall; [exact Hget |].
    intros w u Hw. assert (u = t) as -> by congruence. split; [exact Hthi | exact Hpush]. }
  destruct (infer_objects info') as [| [o1 ft] rest] eqn:Einfo; [intros [= <- <-]; split; [exact Hs1 | by left] |].
  case_if; [intros [= <- <-]; split; [exact Hs1 | by left] |].
  case_if; [| intros [= <- <-]; split; [exact Hs1 | by left]].
  intros [= <- <-]. split; [exact Hs1 |]. right. eexists. split; [reflexivity |].
  apply andb_prop in E1 as [Hd _]. unfold GetDurationIfSatisfyEventRequireSeconds in Hd |- *.
  change (abnormal_require_seconds s1) with (abnormal_require_seconds s) in *.
  destruct (Z.ltb_spec (i32 (abnormal_require_seconds s * 1000)) (duration_ms (rd_duration r i) ft)) as [Hreq |];
    [| discriminate Hd].
  split; [exists object, i, ft; split_and!; [left | done..] |].
  assert (infer_objects info <> []) as Hne.
  { intros He. subst info'. unfold push_parking in Einfo. rewrite He in Einfo. cbn in Einfo.
    injection Einfo as _ _ <-. cbn in E0. discriminate E0. }
  specialize (Hold Hne eq_refl). specialize (Hpush o1 ft eq_refl).
  eapply Z.lt_le_trans; [exact Hreq |].
  apply (duration_ms_slack _ (rd_age r i) t _ (off + slack) (2 * slack)); lia.
Qed.

(** Successive calls, each at most [slack] long, starting at or after [bound]. *)
Fixpoint windows (off slack bound : Z) (calls : list Call) : Prop :=
  match calls with
  | [] => True
  | c :: rest => exists lo hi, bound <= lo /\ lo <= hi <= lo + slack /\
                   call_window off lo hi (c_readings c) /\ windows off slack hi rest
  end.

Definition CALL_MAX : Z := 400000000.

Lemma parking_inv_mono off slack b b' s : b <= b' -> parking_inv off slack b s -> parking_inv off slack b' s.
Proof. intros Hb [Ht Hi]. split; [exact Ht |]. intros id v t H. destruct (Hi id v t H). split; [lia | done]. Qed.

Lemma parking_layer off lo hi r cec layer s s' res' :
  call_window off lo hi r -> hi <= lo + CALL_MAX -> parking_inv off CALL_MAX hi s ->
  121000 <= i32 (abnormal_require_seconds s * 1000) ->
  run_layer (VehicleParking_step r cec) 0 layer (s, []) = Some (s', res') ->
  parking_inv off CALL_MAX hi s' /\ res' = [].
Proof.
  intros Hw Hlo Hinv Hreq Hrun.
  pose (I := fun st : Schedule * DataLayer => same_but_history s (fst st) /\
               parking_inv off CALL_MAX hi (fst st) /\ snd st = []).
  assert (I (s, [])) as H0 by (split; [reflexivity | by split]).
  assert (I (s', res')) as (_ & H1 & H2); [| done].
  eapply (run_layer_ind I); [| exact H0 | exact Hrun].
  intros j o [s1 res1] _ _ (Hc & Hi & Hr) [s2 res2] Hstep. cbn in Hc, Hi, Hr. subst res1.
  destruct (VehicleParking_step_same _ _ _ _ _ _ _ _ Hstep) as [Hc' _].
  destruct (VehicleParking_step_spec off CALL_MAX lo hi _ _ _ _ _ _ _ _ ltac:(unfold CALL_MAX; lia) Hw Hlo Hi Hstep)
    as [Hi' Hres].
  split; [by transitivity s1 |]. split; [exact Hi' |].
  destruct Hres as [-> | (_ & _ & _ & Hlt)]; [done | exfalso].
  destruct Hc as [(_ & Ha & _) _]. rewrite Ha in Hlt.
  change (2 * CALL_MAX / 1000000) with 800 in Hlt. lia.
Qed.

(** Parking that has to last 121 seconds or more is never reported: over
    any run of calls of at most 400 ms each, in clock order, a schedule of the
    parking checker whose required time is between 121 s and the largest one
    whose milliseconds fit an [int] reports nothing at all, because the entry of
    a track restarts 120 s after its creation ([VehicleParking] never refreshes
    it). *)
Theorem long_parking_never_reported off bound calls s outs s' :
  checker s = Some CheckVehicleParking -> parking_inv off CALL_MAX bound s ->
  121 <= abnormal_require_seconds s <= 2147483 ->
  windows off CALL_MAX bound calls -> check_run calls s = Some (outs, s') ->
  Forall (fun res => res = []) outs.
Proof.
  intros Hck Hinv Hreq. revert s bound outs Hck Hinv Hreq.
  induction calls as [| c calls IH]; intros s bound outs Hck Hinv Hreq Hw Hrun; cbn in Hrun;
    [injection Hrun as <- _; constructor |].
  destruct Hw as (lo & hi & Hlo & Hhi & Hwin & Hrest).
  destruct (check_call c s) as [[res s1] |] eqn:E; [| discriminate Hrun].
  destruct (check_run calls s1) as [[outs' s2] |] eqn:E'; [| discriminate Hrun].
  injection Hrun as <- ->.
  destruct (check_call_spec _ _ _ E) as ((_ & Hr & _ & _ & _ & _ & _ & Hk) & _).
  assert (parking_inv off CALL_MAX hi s) as Hinv' by (eapply parking_inv_mono; [| exact Hinv]; lia).
  assert (res = [] /\ parking_inv off CALL_MAX hi s1) as [-> H1].
  { revert E. unfold check_call, Check_. rewrite Hck. cbn [run_checker].
    case_if; [| by intros [= <- <-]].
    unfold VehicleParking_check. destruct (class_equal_checker s) as [cec |]; [| by intros [= <- <-]].
    destruct (run_layer _ _ _ _) as [[s3 res3] |] eqn:Er; [| intros H; discriminate H].
    apply (parking_layer off lo hi) in Er as [H3 ->]; [| exact Hwin | lia | exact Hinv' |].
    - intros H. injection H as <- <-. by split.
    - rewrite i32_id; [lia | unfold in_i32; lia]. }
  constructor; [done |]. eapply (IH s1 hi); [by rewrite Hk | exact H1 | by rewrite Hr | exact Hrest | exact E'].
Qed.

(** A car standing still at [y] = 500, observed once every ten seconds. *)
Definition demo_parked (n : nat) : list Call :=
  map (fun k => let t := 10 * (1 + Z.of_nat k) in
         mkCall (demo_readings t) demo_tm demo_tm demo_tm (demo_layer 500)) (seq 0 n).

Lemma long_parking_never_reported_witness :
  exists outs, length outs = 30%nat /\ Forall (fun res : DataLayer => res = []) outs.
Proof.
  eexists. split; cycle 1.
  - eapply (long_parking_never_reported 0 0 (demo_parked 30) (demo_schedule VehicleParking demo_square [] 121)).
    + reflexivity.
    + split; [reflexivity |]. intros id info u. vm_compute. discriminate.
    + vm_compute. split; discriminate.
    + assert (forall n k b, b <= second (10 * (1 + Z.of_nat k)) -> windows 0 CALL_MAX b
        (map (fun k => let t := 10 * (1 + Z.of_nat k) in
           mkCall (demo_readings t) demo_tm demo_tm demo_tm (demo_layer 500)) (seq k n))) as Hw.
      { induction n as [| n IH]; intros k b Hb; cbn -[Z.mul Z.add Z.of_nat]; [exact I |].
        set (T := 10 * (1 + Z.of_nat k)) in *. assert (T + 10 = 10 * (1 + Z.of_nat (S k))) as HT by lia.
        exists (second T), (second T). split; [exact Hb |]. split; [unfold CALL_MAX; lia |].
        split; [| apply IH; rewrite <- HT; unfold second; lia].
        clearbody T. intros i. cbn -[Z.add Z.sub]. unfold second. lia. }
      apply (Hw 30%nat 0%nat 0). unfold second. lia.
    + vm_compute. reflexivity.
  - reflexivity.
Defined.

(** With 60 required seconds the same car is reported, after 100 seconds. *)
Example parking_reported_at_60s :
  map (@length InferObject) (match check_run (demo_parked 12) (demo_schedule VehicleParking demo_square [] 60) with
       | Some (outs, _) => outs | None => [] end) = repeat 0%nat 9 ++ repeat 1%nat 3.
Proof. vm_compute. reflexivity. Qed.
