(* ===== verification/Hungarian.v ===== *)
(** * The assignment solver

    [Tracker/SORT/MgenHungarian.h] and [.cpp]: the Munkres algorithm on a flat
    column-major cost matrix (element [row + nOfRows * col]).  The mutually
    tail-recursive functions [step2a] .. [step5] are the transitions of a
    machine whose state is the function to run next and the memory unit.

    The code is written against the operations the solver uses of its number
    type, [CostOps]: the program's are the [double] ones ([f64_cost]). *)

From Stdlib Require Import SpecFloat.
From S2P Require Import Prelude Float32.
Open Scope nat_scope.
Open Scope list_scope.

(** ** Number type *)

Class CostOps (C : Type) := {
  c_add : C -> C -> C;
  c_sub : C -> C -> C;
  c_lt : C -> C -> bool;
  c_is_zero : C -> bool;   (* fabs( x ) < DBL_EPSILON *)
  c_zero : C;
  c_max : C                (* DBL_MAX *)
}.

Definition DBL_MAX : f64 := S754_finite false 9007199254740991 971.

#[export] Instance f64_cost : CostOps f64 := {|
  c_add := f64_add; c_sub := f64_sub; c_lt := flt;
  c_is_zero := fun x => flt (SFabs x) DBL_EPSILON;
  c_zero := S754_zero false; c_max := DBL_MAX
|}.

(** ** Loops over an index range *)

(** The first [i] in [from .. from + n - 1] with [f i], else the end. *)
Fixpoint find_from (f : nat -> bool) (from n : nat) : nat :=
  match n with
  | O => from
  | S n' => if f from then from else find_from f (S from) n'
  end.
Definition find_first (f : nat -> bool) (n : nat) : nat := find_from f 0 n.

(** [for( k : ks ) a[k] = g( a[k] )]. *)
Definition map_at {A} (g : A -> A) (ks : list nat) (a : list A) : list A :=
  foldl (fun a k => alter g k a) a ks.

Definition bget (l : list bool) (k : nat) : bool := default false (l !! k).

(** The function the machine runs next. *)
Inductive Pc := Step2a | Step2b | Step3 | Step4 (row col : nat) | Step5 | Done.

#[export] Instance Pc_eq_dec : EqDecision Pc.
Proof. solve_decision. Defined.

Section Hungarian.
Context {C : Type} `{!CostOps C}.

(** ** Memory *)

(** The arrays of [HungarianMemoryUnit], cut to the region in use. *)
Record Memory := mkMemory {
  assignment : list Z;
  dist_matrix : list C;
  star_matrix : list bool;
  new_star_matrix : list bool;
  prime_matrix : list bool;
  covered_cols : list bool;
  covered_rows : list bool
}.

Definition set_assignment m a := mkMemory a (dist_matrix m) (star_matrix m) (new_star_matrix m)
  (prime_matrix m) (covered_cols m) (covered_rows m).
Definition set_dist m d := mkMemory (assignment m) d (star_matrix m) (new_star_matrix m)
  (prime_matrix m) (covered_cols m) (covered_rows m).
Definition set_stars m s n p := mkMemory (assignment m) (dist_matrix m) s n p
  (covered_cols m) (covered_rows m).
Definition set_covers m cc cr := mkMemory (assignment m) (dist_matrix m) (star_matrix m)
  (new_star_matrix m) (prime_matrix m) cc cr.

Definition cget (l : list C) (k : nat) : C := default c_zero (l !! k).

Section Sized.
Context (nR nC : nat).

Definition idx (row col : nat) : nat := row + nR * col.
Definition row_idx (row : nat) : list nat := map (idx row) (seq 0 nC).
Definition col_idx (col : nat) : list nat := map (fun row => idx row col) (seq 0 nR).
Definition minDim : nat := if (nR <=? nC) then nR else nC.

(** ** AssignmentOptimal: preliminary steps *)

Definition min_over (d : list C) (ks : list nat) : C :=
  match ks with
  | [] => c_zero
  | k :: ks => foldl (fun minValue k => if c_lt (cget d k) minValue then cget d k else minValue)
                     (cget d k) ks
  end.

(** Subtract the smallest element of the line from each of its elements. *)
Definition reduce_line (d : list C) (ks : list nat) : list C :=
  let minValue := min_over d ks in map_at (fun v => c_sub v minValue) ks d.

Definition is_zero_at (m : Memory) (row col : nat) : bool :=
  c_is_zero (cget (dist_matrix m) (idx row col)).

(** Steps 1 and 2a, at most as many rows as columns: star the first zero of
    the row in an uncovered column. *)
Definition star_row (m : Memory) (row : nat) : Memory :=
  let col := find_first (fun col => is_zero_at m row col && negb (bget (covered_cols m) col)) nC in
  if col <? nC then
    set_covers (set_stars m (<[idx row col := true]> (star_matrix m)) (new_star_matrix m) (prime_matrix m))
      (<[col := true]> (covered_cols m)) (covered_rows m)
  else m.

(** The same by columns, when there are more rows than columns. *)
Definition star_col (m : Memory) (col : nat) : Memory :=
  let row := find_first (fun row => is_zero_at m row col && negb (bget (covered_rows m) row)) nR in
  if row <? nR then
    set_covers (set_stars m (<[idx row col := true]> (star_matrix m)) (new_star_matrix m) (prime_matrix m))
      (<[col := true]> (covered_cols m)) (<[row := true]> (covered_rows m))
  else m.

Definition initial_memory (dist_matrix_in : list C) : Memory :=
  mkMemory (replicate nR (-1)%Z) dist_matrix_in (replicate (nR * nC) false)
    (replicate (nR * nC) false) (replicate (nR * nC) false) (replicate nC false) (replicate nR false).

Definition preliminary (dist_matrix_in : list C) : Memory :=
  let m := initial_memory dist_matrix_in in
  if nR <=? nC then
    let m := set_dist m (foldl (fun d row => reduce_line d (row_idx row)) (dist_matrix m) (seq 0 nR)) in
    foldl star_row m (seq 0 nR)
  else
    let m := set_dist m (foldl (fun d col => reduce_line d (col_idx col)) (dist_matrix m) (seq 0 nC)) in
    let m := foldl star_col m (seq 0 nC) in
    set_covers m (covered_cols m) (replicate nR false).

(** ** The steps *)

Definition star_in_row (m : Memory) (row : nat) : nat :=
  find_first (fun col => bget (star_matrix m) (idx row col)) nC.
Definition star_in_col (m : Memory) (col : nat) : nat :=
  find_first (fun row => bget (star_matrix m) (idx row col)) nR.
Definition prime_in_row (m : Memory) (row : nat) : nat :=
  find_first (fun col => bget (prime_matrix m) (idx row col)) nC.

Definition BuildAssignmentVector (m : Memory) : Memory :=
  set_assignment m
    (foldl (fun a row => let col := star_in_row m row in
                         if col <? nC then <[row := Z.of_nat col]> a else a)
           (assignment m) (seq 0 nR)).

Definition step2a (m : Memory) : Memory :=
  set_covers m
    (foldl (fun cc col => if star_in_col m col <? nR then <[col := true]> cc else cc)
           (covered_cols m) (seq 0 nC))
    (covered_rows m).

Definition nOfCoveredColumns (m : Memory) : nat :=
  length (filter (fun col => bget (covered_cols m) col = true) (seq 0 nC)).

Definition step2b (m : Memory) : Pc * Memory :=
  if nOfCoveredColumns m =? minDim then (Done, BuildAssignmentVector m) else (Step3, m).

(** The [for] loop of [step3] over the remaining columns: a call of [step4],
    or the end of the pass with [zerosFound]. *)
Fixpoint step3_pass (cols : list nat) (zerosFound : bool) (m : Memory) : Pc * Memory :=
  match cols with
  | [] => (if zerosFound then Step3 else Step5, m)
  | col :: cols =>
      if bget (covered_cols m) col then step3_pass cols zerosFound m
      else
        let row := find_first (fun row => negb (bget (covered_rows m) row) && is_zero_at m row col) nR in
        if row <? nR then
          let m := set_stars m (star_matrix m) (new_star_matrix m)
                     (<[idx row col := true]> (prime_matrix m)) in
          let starCol := star_in_row m row in
          if starCol =? nC then (Step4 row col, m)
          else step3_pass cols true
                 (set_covers m (<[starCol := false]> (covered_cols m)) (<[row := true]> (covered_rows m)))
        else step3_pass cols zerosFound m
  end.

(** The [while] loop of [step4] on the new star matrix.  A primed zero that
    is not found would index the matrix out of range: no result. *)
Fixpoint step4_loop (fuel : nat) (m : Memory) (newStarMatrix : list bool) (starRow starCol : nat)
    : option (list bool) :=
  if negb (starRow <? nR) then Some newStarMatrix
  else match fuel with
  | O => None
  | S fuel' =>
      let newStarMatrix := <[idx starRow starCol := false]> newStarMatrix in
      let primeRow := starRow in
      let primeCol := prime_in_row m primeRow in
      if primeCol <? nC then
        step4_loop fuel' m (<[idx primeRow primeCol := true]> newStarMatrix)
          (star_in_col m primeCol) primeCol
      else None
  end.

Definition step4 (m : Memory) (row col : nat) : option Memory :=
  let newStarMatrix := <[idx row col := true]> (star_matrix m) in
  match step4_loop (S nR) m newStarMatrix (star_in_col m col) col with
  | None => None
  | Some newStarMatrix =>
      Some (set_covers (set_stars m newStarMatrix newStarMatrix (replicate (nR * nC) false))
              (covered_cols m) (replicate nR false))
  end.

(** The uncovered elements in the order of the loops. *)
Definition uncovered (m : Memory) : list nat :=
  flat_map (fun row => if bget (covered_rows m) row then [] else
              flat_map (fun col => if bget (covered_cols m) col then [] else [idx row col]) (seq 0 nC))
           (seq 0 nR).

Definition smallest_uncovered (m : Memory) : C :=
  foldl (fun h k => if c_lt (cget (dist_matrix m) k) h then cget (dist_matrix m) k else h)
        c_max (uncovered m).

Definition step5 (m : Memory) : Memory :=
  let h := smallest_uncovered m in
  let d := foldl (fun d row => if bget (covered_rows m) row
                               then map_at (fun v => c_add v h) (row_idx row) d else d)
                 (dist_matrix m) (seq 0 nR) in
  set_dist m
    (foldl (fun d col => if bget (covered_cols m) col then d
                         else map_at (fun v => c_sub v h) (col_idx col) d)
           d (seq 0 nC)).

(** One transition; [None] is undefined behaviour. *)
Definition step (st : Pc * Memory) : option (Pc * Memory) :=
  let '(pc, m) := st in
  match pc with
  | Step2a => Some (Step2b, step2a m)
  | Step2b => Some (step2b m)
  | Step3 => Some (step3_pass (seq 0 nC) false m)
  | Step4 row col => match step4 m row col with Some m' => Some (Step2a, m') | None => None end
  | Step5 => Some (Step3, step5 m)
  | Done => Some (Done, m)
  end.

Fixpoint run (fuel : nat) (st : Pc * Memory) : option (Pc * Memory) :=
  match fuel with
  | O => Some st
  | S fuel' => match step st with Some st' => run fuel' st' | None => None end
  end.

(** Enough transitions to finish: see [assignment_terminates]. *)
Definition FUEL : nat := minDim * (3 * nR + 5) + (3 * nR + 4).

(** The assignment vector, [None] when the machine has not finished. *)
Definition AssignmentOptimal (dist_matrix_in : list C) : option (list Z) :=
  match run FUEL (Step2b, preliminary dist_matrix_in) with
  | Some (Done, m) => Some (assignment m)
  | _ => None
  end.
End Sized.

Definition transpose_flat (nR nC : nat) (D : list (list C)) : list C :=
  flat_map (fun col => map (fun row => cget (default [] (D !! row)) col) (seq 0 nR)) (seq 0 nC).

(** [None]: an empty matrix (its first line is read), or one larger than the
    memory unit. *)
Definition Solve (max_matrix_size : nat) (DistMatrix : list (list C)) : option (list Z) :=
  match DistMatrix with
  | [] => None
  | line :: _ =>
      let nRows := length DistMatrix in
      let nCols := length line in
      if (nRows <=? max_matrix_size) && (nCols <=? max_matrix_size) then
        AssignmentOptimal nRows nCols (transpose_flat nRows nCols DistMatrix)
      else None
  end.
End Hungarian.

Definition test_matrix : list (list f64) :=
  map (map (fun n => f64_lit n 10)) [[4; 1; 3]; [2; 0; 5]; [3; 2; 2]]%Z.
Example solve_test : Solve 10 test_matrix = Some [1; 0; 2]%Z.
Proof. vm_compute. reflexivity. Qed.
