(* ===== verification/HungarianProps.v ===== *)
(** * Correctness of the assignment solver

    Whatever the number type, the machine of [Hungarian] never indexes out of
    range, keeps the stars a partial matching, and what it returns is an
    injective assignment of maximal size.  It reaches the end within a number of
    transitions computed from the size of the matrix, provided no element of the
    working matrix overflows.

    Then the machine itself: its invariant, totality and termination. *)

From Stdlib Require Import SpecFloat.
From S2P Require Import Prelude Float32 FloatBounds Hungarian.
Open Scope nat_scope.
Open Scope list_scope.

(** ** Loops and arrays *)

Lemma find_from_spec f from n :
  let k := find_from f from n in
  from <= k <= from + n /\ (k < from + n -> f k = true) /\
  (forall j, from <= j < k -> f j = false).
Proof.
  revert from. induction n as [| n IH]; intros from; cbn; [split_and!; lia |].
  destruct (f from) eqn:E; cbn; [split_and!; [lia.. | done | lia] |].
  destruct (IH (S from)) as (H1 & H2 & H3). split_and!; [lia.. | intros; apply H2; lia |].
  intros j Hj. destruct (decide (j = from)) as [-> | ]; [done | apply H3; lia].
Qed.

Lemma find_first_lt f n : find_first f n < n -> f (find_first f n) = true.
Proof. intros H. by apply (find_from_spec f 0 n). Qed.

Lemma find_first_le f n : find_first f n <= n.
Proof. apply (find_from_spec f 0 n). Qed.

Lemma find_first_none f n : find_first f n = n -> forall j, j < n -> f j = false.
Proof.
  intros H j Hj. destruct (find_from_spec f 0 n) as (_ & _ & H3). apply H3.
  unfold find_first in H. rewrite H. lia.
Qed.

Lemma find_first_some f n j : j < n -> f j = true -> find_first f n < n.
Proof.
  intros Hj Hf. pose proof (find_first_le f n). destruct (decide (find_first f n = n)) as [E |]; [| lia].
  by rewrite (find_first_none f n E j Hj) in Hf.
Qed.

Lemma bget_insert l k v j :
  k < length l -> bget (<[k := v]> l) j = if decide (j = k) then v else bget l j.
Proof.
  intros Hk. unfold bget. case_decide; subst.
  - by rewrite list_lookup_insert_eq.
  - by rewrite list_lookup_insert_ne.
Qed.

Lemma bget_replicate n j : bget (replicate n false) j = false.
Proof.
  unfold bget. destruct (replicate n false !! j) as [b |] eqn:E; [| done].
  by apply lookup_replicate in E as [-> _].
Qed.

(** A loop that overwrites some elements. *)
Lemma insert_loop {A} (P : nat -> bool) (v : nat -> A) xs (a : list A) r :
  r < length a ->
  foldl (fun a x => if P x then <[x := v x]> a else a) a xs !! r =
    if decide (r ∈ xs /\ P r = true) then Some (v r) else a !! r.
Proof.
  revert a. induction xs as [| x xs IH]; intros a Hr; cbn [foldl].
  { rewrite decide_False; [done | set_solver]. }
  rewrite IH by (destruct (P x); rewrite ?length_insert; done).
  destruct (decide (r ∈ xs /\ P r = true)) as [Hin | Hout].
  { rewrite decide_True; [done | set_solver]. }
  destruct (P x) eqn:E.
  - destruct (decide (x = r)) as [-> | Hne].
    + rewrite list_lookup_insert_eq by done. rewrite decide_True; [done | split; [left | done]].
    + rewrite list_lookup_insert_ne by done. rewrite decide_False; [done | set_solver].
  - rewrite decide_False; [done |]. intros [[-> | ?]%elem_of_cons ?]; [congruence | tauto].
Qed.

Lemma insert_loop_length {A} (P : nat -> bool) (v : nat -> A) xs (a : list A) :
  length (foldl (fun a x => if P x then <[x := v x]> a else a) a xs) = length a.
Proof.
  revert a. induction xs as [| x xs IH]; intros a; cbn [foldl]; [done |].
  rewrite IH. destruct (P x); by rewrite ?length_insert.
Qed.

Lemma map_at_length {A} (g : A -> A) ks a : length (map_at g ks a) = length a.
Proof.
  unfold map_at. revert a. induction ks as [| k ks IH]; intros a; cbn [foldl]; [done |].
  by rewrite IH, length_alter.
Qed.

Lemma map_at_notin {A} (g : A -> A) ks a k : k ∉ ks -> map_at g ks a !! k = a !! k.
Proof.
  unfold map_at. revert a. induction ks as [| x ks IH]; intros a Hk; cbn [foldl]; [done |].
  apply not_elem_of_cons in Hk as [Hx Hk]. rewrite IH by done. by rewrite list_lookup_alter_ne.
Qed.

Lemma map_at_in {A} (g : A -> A) ks a k : NoDup ks -> k ∈ ks -> map_at g ks a !! k = g <$> a !! k.
Proof.
  unfold map_at. revert a. induction ks as [| x ks IH]; intros a Hn Hk; [by apply elem_of_nil in Hk |].
  apply NoDup_cons in Hn as [Hx Hn]. cbn [foldl]. destruct (decide (x = k)) as [-> | Hne].
  - fold (map_at g ks (alter g k a)). rewrite map_at_notin by done. by rewrite list_lookup_alter_eq.
  - apply elem_of_cons in Hk as [Hk | Hk]; [congruence |]. rewrite IH by done.
    by rewrite list_lookup_alter_ne.
Qed.

(** A loop over lines [x] of index lists [L x], some of which are updated. *)
Lemma lines_loop {A} (P : nat -> bool) (L : nat -> list nat) (g : A -> A) xs a k x0 :
  NoDup xs -> x0 ∈ xs -> k ∈ L x0 -> NoDup (L x0) -> (forall x, x ∈ xs -> k ∈ L x -> x = x0) ->
  foldl (fun d x => if P x then map_at g (L x) d else d) a xs !! k =
    if P x0 then g <$> a !! k else a !! k.
Proof.
  intros Hn Hx0 Hk HnL. revert a. induction xs as [| x xs IH]; intros a Honly; [by apply elem_of_nil in Hx0 |].
  apply NoDup_cons in Hn as [Hx Hn]. cbn [foldl].
  destruct (decide (x = x0)) as [-> | Hne].
  - clear IH Hx0.
    assert (forall b, foldl (fun d x => if P x then map_at g (L x) d else d) b xs !! k = b !! k) as ->.
    { clear Hn. induction xs as [| y xs IH]; intros b; cbn [foldl]; [done |].
      assert (y <> x0) by set_solver. rewrite IH; [| set_solver | set_solver].
      destruct (P y); [| done]. apply map_at_notin. intros Hky.
      apply Honly in Hky; [done | set_solver]. }
    destruct (P x0); [by apply map_at_in | done].
  - apply elem_of_cons in Hx0 as [| Hx0]; [congruence |].
    rewrite IH; [| done | done | set_solver].
    assert (k ∉ L x) as Hkx by (intros H; apply Hne, Honly; [left | done]).
    assert ((if P x then map_at g (L x) a else a) !! k = a !! k) as ->; [| done].
    destruct (P x); [by apply map_at_notin | done].
Qed.

Lemma lines_loop_length {A} (P : nat -> bool) (L : nat -> list nat) (g : A -> A) xs a :
  length (foldl (fun d x => if P x then map_at g (L x) d else d) a xs) = length a.
Proof.
  revert a. induction xs as [| x xs IH]; intros a; cbn [foldl]; [done |].
  rewrite IH. destruct (P x); [apply map_at_length | done].
Qed.

Section Props.
Context {C : Type} `{!CostOps C} (nR nC : nat).

Abbreviation idx := (idx nR).
Abbreviation minDim := (minDim nR nC).
Abbreviation Mem := (Memory (C := C)).

Lemma idx_lt r c : r < nR -> c < nC -> idx r c < nR * nC.
Proof. unfold Hungarian.idx. nia. Qed.

Lemma idx_inj r c r' c' : r < nR -> r' < nR -> idx r c = idx r' c' -> r = r' /\ c = c'.
Proof. unfold Hungarian.idx. intros ? ? ?. assert (c = c') by nia. subst. lia. Qed.

(** ** Boolean matrices *)

Definition mat (l : list bool) (r c : nat) : bool := bget l (idx r c).

Lemma mat_insert l r c v r' c' :
  length l = nR * nC -> r < nR -> c < nC -> r' < nR ->
  mat (<[idx r c := v]> l) r' c' = if decide (r' = r /\ c' = c) then v else mat l r' c'.
Proof.
  intros Hl Hr Hc Hr'. unfold mat. rewrite bget_insert by (rewrite Hl; by apply idx_lt).
  repeat case_decide; try done.
  - exfalso. match goal with H : idx _ _ = idx _ _ |- _ => apply idx_inj in H; tauto end.
  - exfalso. match goal with H : _ /\ _ |- _ => destruct H; subst; done end.
Qed.

Lemma mat_replicate r c : mat (replicate (nR * nC) false) r c = false.
Proof. apply bget_replicate. Qed.

Definition rows_unique (l : list bool) : Prop :=
  forall r c c', r < nR -> c < nC -> c' < nC -> mat l r c = true -> mat l r c' = true -> c = c'.
Definition cols_unique (l : list bool) : Prop :=
  forall r r' c, r < nR -> r' < nR -> c < nC -> mat l r c = true -> mat l r' c = true -> r = r'.
Definition matching (l : list bool) : Prop := rows_unique l /\ cols_unique l.

Definition starred_col (l : list bool) (c : nat) : Prop := exists r, r < nR /\ mat l r c = true.
Definition starred_row (l : list bool) (r : nat) : Prop := exists c, c < nC /\ mat l r c = true.

Lemma star_in_col_spec (m : Mem) c :
  (star_in_col nR m c < nR -> mat (star_matrix m) (star_in_col nR m c) c = true) /\
  (starred_col (star_matrix m) c <-> star_in_col nR m c < nR).
Proof.
  pose proof (find_first_lt (fun row => mat (star_matrix m) row c) nR) as Hlt.
  split; [exact Hlt |]. split.
  - intros (r & Hr & Hm). exact (find_first_some (fun row => mat (star_matrix m) row c) nR r Hr Hm).
  - intros H. eexists. split; [exact H | exact (Hlt H)].
Qed.

Lemma star_in_row_spec (m : Mem) r :
  (star_in_row nR nC m r < nC -> mat (star_matrix m) r (star_in_row nR nC m r) = true) /\
  (starred_row (star_matrix m) r <-> star_in_row nR nC m r < nC).
Proof.
  pose proof (find_first_lt (fun col => mat (star_matrix m) r col) nC) as Hlt.
  split; [exact Hlt |]. split.
  - intros (c & Hc & Hm). exact (find_first_some (fun col => mat (star_matrix m) r col) nC c Hc Hm).
  - intros H. eexists. split; [exact H | exact (Hlt H)].
Qed.

(** ** The augmenting path

    The covered rows, most recently covered first: each has a star and a
    primed zero, and the star in the column of its primed zero, if any, is in
    a row covered before. *)

Fixpoint ordered (s p : list bool) (ord : list nat) : Prop :=
  match ord with
  | [] => True
  | r :: older =>
      (r < nR) /\ (r ∉ older) /\ starred_row s r /\ (exists c, c < nC /\ mat p r c = true) /\
      (forall c r', c < nC -> r' < nR -> mat p r c = true -> mat s r' c = true -> r' ∈ older) /\
      ordered s p older
  end.

Lemma ordered_split s p l1 r older :
  ordered s p (l1 ++ r :: older) -> ordered s p (r :: older).
Proof. induction l1 as [| x l1 IH]; [done |]. cbn. intros (_ & _ & _ & _ & _ & H). by apply IH. Qed.

(** The matrix under construction [N]: rows unique, columns unique but for
    column [c], which has the star of row [r] and one other; on the rows still
    to visit it agrees with [s], and its new stars are in columns starred by
    [s]. *)
Record path_inv (s N : list bool) (todo : list nat) (r c : nat) : Prop := {
  pi_len : length N = nR * nC;
  pi_rows : rows_unique N;
  pi_cols : forall x y d, x < nR -> y < nR -> d < nC -> d <> c ->
              mat N x d = true -> mat N y d = true -> x = y;
  pi_here : forall x y, x < nR -> y < nR -> x <> r -> y <> r ->
              mat N x c = true -> mat N y c = true -> x = y;
  pi_other : exists x, x < nR /\ x <> r /\ mat N x c = true;
  pi_agree : forall x d, d < nC -> x = r \/ x ∈ todo -> mat N x d = mat s x d;
  pi_new : forall x d, x < nR -> d < nC -> mat N x d = true -> starred_col s d;
  pi_keep : forall d, d < nC -> starred_col s d -> starred_col N d
}.

(** What step 4 delivers: a matching that stars every column starred before,
    and one more. *)
Definition augmented (s N : list bool) : Prop :=
  length N = nR * nC /\ matching N /\
  (forall d, d < nC -> starred_col s d -> starred_col N d) /\
  exists d, d < nC /\ starred_col N d /\ ~ starred_col s d.

(** One turn of the loop: from the star (r, c) along row [r] to its primed
    zero (r, d). *)
Lemma path_step s p N r todo c d :
  matching s -> ordered s p (r :: todo) -> c < nC -> mat s r c = true ->
  d < nC -> mat p r d = true -> path_inv s N todo r c ->
  let N' := <[idx r d := true]> (<[idx r c := false]> N) in
  d <> c /\
  (~ starred_col s d -> augmented s N') /\
  (forall r2 older l, r2 < nR -> mat s r2 d = true -> todo = l ++ r2 :: older -> path_inv s N' older r2 d).
Proof.
  intros [Hsr Hsc] (Hr & Hnin & _ & _ & Hord & Hrest) Hc Hrc Hd Hpd Hinv N'.
  destruct Hinv as [Hlen Hrows Hcols Hhere (p0 & Hp0 & Hp0r & Hp0c) Hagree Hnew Hkeep].
  assert (d <> c) as Hdc.
  { intros ->. apply Hnin. by apply (Hord c r Hc Hr Hpd). }
  assert (length (<[idx r c := false]> N) = nR * nC) as Hl1 by (by rewrite length_insert).
  assert (forall x y, x < nR -> y < nC ->
    mat N' x y = if decide (x = r /\ y = d) then true
                 else if decide (x = r /\ y = c) then false else mat N x y) as HN'.
  { intros x y Hx Hy. unfold N'. rewrite mat_insert by done. case_decide; [done |].
    by rewrite mat_insert. }
  assert (length N' = nR * nC) as Hl2 by (unfold N'; by rewrite !length_insert).
  assert (mat N r c = true) as HNrc by (rewrite Hagree by (by auto); done).
  (* row r of N' holds only d *)
  assert (forall y, y < nC -> mat N' r y = true -> y = d) as Hrow.
  { intros y Hy. rewrite HN' by done. repeat case_decide; [intuition | done |].
    intros Hm. assert (y = c) by (by apply (Hrows r)). subst. exfalso. intuition. }
  assert (rows_unique N') as HR.
  { intros x y y' Hx Hy Hy' H1 H2. destruct (decide (x = r)) as [-> | Hxr].
    - by rewrite (Hrow y Hy H1), (Hrow y' Hy' H2).
    - rewrite HN' in H1, H2 by done. repeat case_decide; try (by intuition). by apply (Hrows x). }
  assert (forall x y, x < nR -> y < nC -> x <> r -> mat N' x y = mat N x y) as Hsame.
  { intros x y Hx Hy Hxr. rewrite HN' by done. repeat case_decide; intuition. }
  assert (forall y, y < nC -> starred_col s y -> starred_col N' y) as Hkeep'.
  { intros y Hy Hs. destruct (decide (y = c)) as [-> | Hyc].
    - exists p0. split; [done |]. by rewrite Hsame.
    - destruct (Hkeep y Hy Hs) as (x & Hx & Hxy). exists x. split; [done |].
      rewrite HN' by done. repeat case_decide; intuition. }
  assert (starred_col N' d) as HdN'.
  { exists r. split; [done |]. rewrite HN' by done. by rewrite decide_True. }
  assert (forall x y z, x < nR -> y < nR -> z < nC -> z <> d -> mat N' x z = true ->
            mat N' y z = true -> x = y) as Hcols'.
  { intros x y z Hx Hy Hz Hzd H1 H2.
    assert (x <> r) by (intros ->; apply Hzd; by apply Hrow).
    assert (y <> r) by (intros ->; apply Hzd; by apply Hrow).
    rewrite Hsame in H1, H2 by done. destruct (decide (z = c)) as [-> |]; [by apply Hhere | by apply (Hcols x y z)]. }
  split; [done |]. split.
  - intros Hno. split; [done |]. split; [split; [done |] | split; [done |]; by exists d].
    intros x y z Hx Hy Hz H1 H2. destruct (decide (z = d)) as [-> |]; [| by apply (Hcols' x y z)].
    assert (forall w, w < nR -> mat N' w d = true -> w = r) as Honly; [| by rewrite (Honly x), (Honly y)].
    intros w Hw Hwd. destruct (decide (w = r)); [done |]. rewrite Hsame in Hwd by done.
    exfalso. apply Hno. by eapply Hnew.
  - intros r2 older l Hr2 Hs2 ->.
    assert (r2 <> r) as Hne by (intros ->; apply Hnin; set_solver).
    assert (mat N r2 d = true) as HN2 by (rewrite Hagree by (first [done | right; set_solver]); done).
    split; try done.
    + intros x y Hx Hy Hxr Hyr H1 H2.
      assert (forall w, w < nR -> w <> r2 -> mat N' w d = true -> w = r) as Honly; [| by rewrite (Honly x), (Honly y)].
      intros w Hw Hwr Hwd. destruct (decide (w = r)); [done |]. rewrite Hsame in Hwd by done.
      exfalso. apply Hwr. by apply (Hcols w r2 d).
    + exists r. split; [done |]. split; [done |]. rewrite HN' by done. by rewrite decide_True.
    + intros x y Hy Hx. assert (x <> r) by (intros ->; apply Hnin; set_solver).
      assert (x < nR) as HxR.
      { destruct Hx as [-> | Hx]; [done |]. apply ordered_split in Hrest.
        destruct Hrest as (_ & _ & _ & _ & _ & Ho). clear -Ho Hx.
        induction older as [| z older IH]; [set_solver |]. destruct Ho as (Hz & _ & _ & _ & _ & Ho).
        apply elem_of_cons in Hx as [-> | Hx]; [done | by apply IH]. }
      rewrite Hsame by done. apply Hagree; [done | right; set_solver].
    + intros x y Hx Hy Hm. destruct (decide (x = r /\ y = d)) as [[-> ->] | Hn].
      * by exists r2.
      * apply (Hnew x y Hx Hy). rewrite HN' in Hm by done. repeat case_decide; try discriminate; intuition.
Qed.

Lemma ordered_bound s p ord : ordered s p ord -> NoDup ord /\ Forall (fun r => r < nR) ord.
Proof.
  induction ord as [| r ord IH]; [by split; constructor |].
  intros (Hr & Hn & _ & _ & _ & H). destruct (IH H). split; by constructor.
Qed.

Lemma NoDup_bound_length (l : list nat) n : NoDup l -> Forall (fun x => x < n) l -> length l <= n.
Proof.
  intros Hn Hf. rewrite <- (length_seq n 0). apply NoDup_incl_length; [by apply NoDup_ListNoDup |].
  intros x Hx. apply in_seq. rewrite Forall_forall in Hf. apply list_elem_of_In in Hx. specialize (Hf x Hx). lia.
Qed.

Lemma prime_in_row_spec (m : Mem) r :
  (exists c, c < nC /\ mat (prime_matrix m) r c = true) ->
  prime_in_row nR nC m r < nC /\ mat (prime_matrix m) r (prime_in_row nR nC m r) = true.
Proof.
  intros (c & Hc & Hm).
  pose proof (find_first_some (fun col => mat (prime_matrix m) r col) nC c Hc Hm) as H.
  split; [exact H | exact (find_first_lt (fun col => mat (prime_matrix m) r col) nC H)].
Qed.

Lemma step4_loop_exit fuel (m : Mem) N r c : nR <= r -> step4_loop nR nC fuel m N r c = Some N.
Proof. intros H. destruct fuel; cbn [step4_loop]; by rewrite (proj2 (Nat.ltb_ge r nR) H). Qed.

Lemma step4_loop_ok fuel (m : Mem) N r todo c :
  matching (star_matrix m) -> ordered (star_matrix m) (prime_matrix m) (r :: todo) ->
  c < nC -> mat (star_matrix m) r c = true -> path_inv (star_matrix m) N todo r c ->
  length (r :: todo) <= fuel ->
  exists N', step4_loop nR nC fuel m N r c = Some N' /\ augmented (star_matrix m) N'.
Proof.
  intros Hs. revert N r todo c. induction fuel as [| fuel IH]; intros N r todo c Hord Hc Hrc Hinv Hfuel;
    [cbn in Hfuel; lia |].
  pose proof Hord as (Hr & _ & _ & Hp & Hcov & Hrest).
  destruct (prime_in_row_spec m r Hp) as [Hd Hpd]. cbn [step4_loop].
  rewrite (proj2 (Nat.ltb_lt r nR) Hr), (proj2 (Nat.ltb_lt _ nC) Hd). cbn [negb].
  set (d := prime_in_row nR nC m r) in *.
  destruct (path_step _ _ N r todo c d Hs Hord Hc Hrc Hd Hpd Hinv) as (_ & Hend & Hgo).
  destruct (star_in_col_spec m d) as [Hstar Hiff].
  destruct (decide (star_in_col nR m d < nR)) as [Hlt | Hge].
  - assert (star_in_col nR m d ∈ todo) as Hin by (apply (Hcov d); auto).
    apply list_elem_of_split in Hin as (l & older & Ht).
    apply (IH _ _ older).
    + rewrite Ht in Hrest. by apply ordered_split in Hrest.
    + exact Hd.
    + by apply Hstar.
    + apply (Hgo _ older l); [exact Hlt | by apply Hstar | exact Ht].
    + rewrite Ht in Hfuel. cbn in Hfuel |- *. rewrite length_app in Hfuel. cbn in Hfuel. lia.
  - rewrite step4_loop_exit by lia. eexists. split; [done |]. apply Hend. by rewrite Hiff.
Qed.

(** Starring an element of an unstarred row keeps the rows unique. *)
Lemma star_new_row s row col :
  length s = nR * nC -> rows_unique s -> row < nR -> col < nC -> ~ starred_row s row ->
  let N := <[idx row col := true]> s in
  rows_unique N /\
  (forall x y, x < nR -> y < nC -> mat N x y = true -> x = row /\ y = col \/ x <> row /\ mat s x y = true) /\
  (forall x y, x < nR -> y < nC -> x <> row -> mat N x y = mat s x y) /\
  mat N row col = true.
Proof.
  intros Hlen Hu Hrow Hcol Hno N.
  assert (forall x y, x < nR -> y < nC -> mat N x y = if decide (x = row /\ y = col) then true else mat s x y)
    as HN by (intros; by apply mat_insert).
  assert (forall x y, x < nR -> y < nC -> mat N x y = true ->
            x = row /\ y = col \/ x <> row /\ mat s x y = true) as Hor.
  { intros x y Hx Hy. rewrite HN by done. case_decide; [by left |]. intros Hm. right. split; [| done].
    intros ->. apply Hno. by exists y. }
  split_and!; [| done | |].
  - intros x y y' Hx Hy Hy' H1 H2.
    destruct (Hor x y Hx Hy H1) as [[-> ->] | [Hn1 H1']], (Hor _ y' Hx Hy' H2) as [[? ->] | [Hn2 H2']]; try done.
    by apply (Hu x).
  - intros x y Hx Hy Hn. rewrite HN by done. rewrite decide_False; [done | by intros [-> _]].
  - rewrite HN by done. by rewrite decide_True.
Qed.

Lemma step4_path (m : Mem) row col ord :
  length (star_matrix m) = nR * nC -> matching (star_matrix m) -> row < nR -> col < nC ->
  ~ starred_row (star_matrix m) row -> ordered (star_matrix m) (prime_matrix m) ord ->
  (forall r, r < nR -> mat (star_matrix m) r col = true -> r ∈ ord) ->
  exists N, step4_loop nR nC (S nR) m (<[idx row col := true]> (star_matrix m)) (star_in_col nR m col) col = Some N
            /\ augmented (star_matrix m) N.
Proof.
  intros Hlen Hm Hrow Hcol Hno Hord Hcov. pose proof Hm as [Hu Hc].
  destruct (star_new_row _ row col Hlen Hu Hrow Hcol Hno) as (HuN & Hor & Hsame & Hhit).
  destruct (star_in_col_spec m col) as [Hstar Hiff].
  set (N := <[idx row col := true]> (star_matrix m)) in *.
  assert (length N = nR * nC) as HlN by (unfold N; by rewrite length_insert).
  assert (forall d, d < nC -> starred_col (star_matrix m) d -> starred_col N d) as Hkeep.
  { intros d Hd (r & Hr & Hrd). exists r. split; [done |]. rewrite Hsame; [done.. |].
    intros ->. apply Hno. by exists d. }
  destruct (decide (star_in_col nR m col < nR)) as [Hlt | Hge].
  - set (r := star_in_col nR m col) in *. specialize (Hstar Hlt).
    assert (r ∈ ord) as Hin by (by apply Hcov). apply list_elem_of_split in Hin as (l & older & ->).
    pose proof (ordered_bound _ _ _ Hord) as [Hnd Hb]. apply ordered_split in Hord.
    pose proof (NoDup_bound_length _ _ Hnd Hb) as Hlb. rewrite length_app in Hlb. cbn in Hlb.
    assert (r <> row) as Hrr by (intros He; apply Hno; rewrite <- He; by exists col).
    apply (step4_loop_ok _ _ _ _ older); [done | done | done | done | | cbn; lia].
    split; [done | done | | | | | | done].
    + intros x y d Hx Hy Hd Hdc H1 H2.
      destruct (Hor x d Hx Hd H1) as [[_ ?] |[_ ?]], (Hor y d Hy Hd H2) as [[_ ?] | [_ ?]]; try done.
      by apply (Hc x y d).
    + intros x y Hx Hy Hxr Hyr H1 H2.
      destruct (Hor x col Hx Hcol H1) as [[-> _] | [_ H1']]; [| exfalso; apply Hxr; by apply (Hc x r col)].
      destruct (Hor y col Hy Hcol H2) as [[-> _] | [_ H2']]; [done | exfalso; apply Hyr; by apply (Hc y r col)].
    + exists row. by split_and!.
    + intros x d Hd Hx. assert (x ∈ r :: older) as Hx' by (apply elem_of_cons; naive_solver).
      assert (x < nR /\ starred_row (star_matrix m) x) as [HxR Hsx].
      { clear -Hx' Hord. revert Hx' Hord. generalize (r :: older). intros o. induction o as [| z o IH]; [set_solver |].
        intros Hin (Hz & _ & Hs & _ & _ & Ho). apply elem_of_cons in Hin as [-> | Hin]; [done | by apply IH]. }
      rewrite Hsame; [done.. |]. intros ->. done.
    + intros x d Hx Hd Hxd. destruct (Hor x d Hx Hd Hxd) as [[-> ->] | [_ ?]]; [by exists r | by exists x].
  - rewrite step4_loop_exit by lia. exists N. split; [done |]. split; [done |].
    assert (~ starred_col (star_matrix m) col) as Hnc by (by rewrite Hiff).
    split; [split; [done |] | split; [done |]; exists col; split_and!; [done | by exists row | done]].
    intros x y d Hx Hy Hd H1 H2.
    destruct (Hor x d Hx Hd H1) as [[-> ->] | [_ H1']], (Hor y _ Hy Hd H2) as [[-> ?] | [_ H2']]; try done.
    + exfalso. apply Hnc. by exists y.
    + subst. exfalso. apply Hnc. by exists x.
    + by apply (Hc x y d).
Qed.
End Props.

(** What the termination argument needs of the number type: a class of numbers,
    all below the largest one, on which [x - x] is a zero. *)
Class CostLaws (C : Type) `{!CostOps C} := {
  c_fin : C -> bool;
  c_fin_lt : forall x, c_fin x = true -> c_lt x c_max = true;
  c_fin_sub : forall x, c_fin x = true -> c_is_zero (c_sub x x) = true
}.

Section Run.
Context {C : Type} `{!CostOps C} (nR nC : nat).
Abbreviation idx := (idx nR).
Abbreviation minDim := (minDim nR nC).
Abbreviation Mem := (Memory (C := C)).
Abbreviation mat := (mat nR).
Abbreviation starred_col := (starred_col nR).
Abbreviation starred_row := (starred_row nR nC).
Abbreviation matching := (matching nR nC).
Abbreviation ordered := (ordered nR nC).

Lemma minDim_le : minDim <= nR /\ minDim <= nC /\ (minDim = nR \/ minDim = nC).
Proof. unfold Hungarian.minDim. destruct (Nat.leb_spec nR nC); lia. Qed.

(** ** Counting stars *)

#[global] Instance starred_col_dec l c : Decision (starred_col l c).
Proof.
  destruct (decide (Exists (fun r => mat l r c = true) (seq 0 nR))) as [H | H]; [left | right].
  - apply Exists_exists in H as (r & Hr%elem_of_seq & Hm). exists r. split; [lia | done].
  - intros (r & Hr & Hm). apply H, Exists_exists. exists r. split; [apply elem_of_seq; lia | done].
Defined.

Definition stars (l : list bool) : nat := length (filter (starred_col l) (seq 0 nC)).

Lemma elem_of_starred l c : c ∈ filter (starred_col l) (seq 0 nC) <-> c < nC /\ starred_col l c.
Proof. rewrite list_elem_of_filter, elem_of_seq. split; intros [? ?]; (split; [lia || done | done || lia]). Qed.

Lemma NoDup_starred l : NoDup (filter (starred_col l) (seq 0 nC)).
Proof. apply NoDup_filter, NoDup_seq. Qed.

Lemma NoDup_incl_le (l l' : list nat) : NoDup l -> (forall x, x ∈ l -> x ∈ l') -> length l <= length l'.
Proof. intros Hn Hi. apply submseteq_length, NoDup_submseteq; done. Qed.

Lemma stars_le_cols l : stars l <= nC.
Proof. unfold stars. rewrite length_filter. rewrite length_seq. lia. Qed.

Definition star_row_of (l : list bool) (c : nat) : nat := find_first (fun r => mat l r c) nR.
Definition star_col_of (l : list bool) (r : nat) : nat := find_first (fun c => mat l r c) nC.

Lemma star_row_of_spec l c : starred_col l c -> star_row_of l c < nR /\ mat l (star_row_of l c) c = true.
Proof.
  intros (r & Hr & Hm). pose proof (find_first_some (fun r => mat l r c) nR r Hr Hm) as H.
  split; [exact H | exact (find_first_lt (fun r => mat l r c) nR H)].
Qed.

Lemma star_col_of_spec l r : starred_row l r -> star_col_of l r < nC /\ mat l r (star_col_of l r) = true.
Proof.
  intros (c & Hc & Hm). pose proof (find_first_some (fun c => mat l r c) nC c Hc Hm) as H.
  split; [exact H | exact (find_first_lt (fun c => mat l r c) nC H)].
Qed.

(** The rows of the stars, one per starred column. *)
Lemma star_rows l :
  matching l ->
  let rows := map (star_row_of l) (filter (starred_col l) (seq 0 nC)) in
  NoDup rows /\ length rows = stars l /\ forall r, r ∈ rows -> r < nR /\ starred_row l r.
Proof.
  intros [Hr _] rows. split_and!; [| by unfold rows; rewrite length_map |].
  - apply NoDup_fmap_2_strong; [| apply NoDup_starred].
    intros c c' [Hc Hs]%elem_of_starred [Hc' Hs']%elem_of_starred He.
    destruct (star_row_of_spec _ _ Hs) as [H1 H2], (star_row_of_spec _ _ Hs') as [H3 H4].
    rewrite <- He in H4. by apply (Hr (star_row_of l c)).
  - intros r (c & -> & [Hc Hs]%elem_of_starred)%list_elem_of_fmap.
    destruct (star_row_of_spec _ _ Hs) as [H1 H2]. split; [done | by exists c].
Qed.

Lemma stars_le_rows l : matching l -> stars l <= nR.
Proof.
  intros Hm. destruct (star_rows l Hm) as (Hn & <- & Hin). rewrite <- (length_seq nR 0).
  apply NoDup_incl_le; [done |]. intros r Hr. apply elem_of_seq. specialize (Hin r Hr). lia.
Qed.

Lemma stars_le l : matching l -> stars l <= minDim.
Proof. intros Hm. pose proof (stars_le_cols l). pose proof (stars_le_rows l Hm). destruct minDim_le as (_ & _ & [-> | ->]); lia. Qed.

Lemma stars_full_cols l : stars l = nC -> forall c, c < nC -> starred_col l c.
Proof.
  intros Hs c Hc. destruct (decide (starred_col l c)) as [| Hn]; [done | exfalso].
  assert (length (c :: filter (starred_col l) (seq 0 nC)) <= length (seq 0 nC)) as H.
  { apply NoDup_incl_le.
    - constructor; [| apply NoDup_starred]. rewrite elem_of_starred. tauto.
    - intros x [-> | Hx]%elem_of_cons; [apply elem_of_seq; lia | apply list_elem_of_filter in Hx as [_ Hx]; exact Hx]. }
  cbn in H. fold (stars l) in H. rewrite Hs, length_seq in H. lia.
Qed.

Lemma stars_full_rows l : matching l -> stars l = nR -> forall r, r < nR -> starred_row l r.
Proof.
  intros Hm Hs r Hr. destruct (star_rows l Hm) as (Hn & Hl & Hin).
  set (rows := map _ _) in *.
  destruct (decide (r ∈ rows)) as [H | H]; [by apply Hin | exfalso].
  assert (length (r :: rows) <= length (seq 0 nR)) as Hle.
  { apply NoDup_incl_le; [by constructor |].
    intros x [-> | Hx]%elem_of_cons; apply elem_of_seq; [lia | specialize (Hin x Hx); lia]. }
  cbn in Hle. rewrite length_seq in Hle. lia.
Qed.

Lemma full_rows_stars l : matching l -> (forall r, r < nR -> starred_row l r) -> nR <= stars l.
Proof.
  intros [_ Hc] Hall. transitivity (length (map (star_col_of l) (seq 0 nR))); [by rewrite length_map, length_seq |].
  apply NoDup_incl_le.
  - apply NoDup_fmap_2_strong; [| apply NoDup_seq].
    intros r r' Hr%elem_of_seq Hr'%elem_of_seq He.
    destruct (star_col_of_spec l r) as [H1 H2]; [apply Hall; lia |].
    destruct (star_col_of_spec l r') as [H3 H4]; [apply Hall; lia |].
    rewrite <- He in H4. apply (Hc _ _ (star_col_of l r)); first [done | lia].
  - intros c (r & -> & Hr%elem_of_seq)%list_elem_of_fmap. apply elem_of_starred.
    destruct (star_col_of_spec l r) as [H1 H2]; [apply Hall; lia |]. split; [done | exists r; split; [lia | done]].
Qed.

Lemma full_cols_stars l : (forall c, c < nC -> starred_col l c) -> nC <= stars l.
Proof.
  intros Hall. transitivity (length (seq 0 nC)); [by rewrite length_seq |].
  apply NoDup_incl_le; [apply NoDup_seq |]. intros c Hc%elem_of_seq. apply elem_of_starred.
  split; [lia | apply Hall; lia].
Qed.

Lemma stars_increase l l' :
  (forall d, d < nC -> starred_col l d -> starred_col l' d) ->
  (exists d, d < nC /\ starred_col l' d /\ ~ starred_col l d) -> stars l < stars l'.
Proof.
  intros Hkeep (d & Hd & Hd' & Hn). unfold stars.
  change (length (d :: filter (starred_col l) (seq 0 nC)) <= length (filter (starred_col l') (seq 0 nC))).
  apply NoDup_incl_le.
  - constructor; [| apply NoDup_starred]. rewrite elem_of_starred. tauto.
  - intros x [-> | Hx]%elem_of_cons; apply elem_of_starred; [done |].
    apply elem_of_starred in Hx as [Hx Hs]. auto.
Qed.

(** ** The invariant *)

Record base (m : Mem) : Prop := {
  b_assign : assignment m = replicate nR (-1)%Z;
  b_dist : length (dist_matrix m) = nR * nC;
  b_star : length (star_matrix m) = nR * nC;
  b_prime : length (prime_matrix m) = nR * nC;
  b_cols : length (covered_cols m) = nC;
  b_rows : length (covered_rows m) = nR;
  b_match : matching (star_matrix m)
}.

(** No row covered and no zero primed. *)
Definition clean (m : Mem) : Prop :=
  (forall r, r < nR -> bget (covered_rows m) r = false) /\
  (forall r c, r < nR -> c < nC -> mat (prime_matrix m) r c = false).

(** During step 3 a star is covered by its row or by its column, not both;
    the covered rows are [ord]. *)
Record covers (m : Mem) (ord : list nat) : Prop := {
  cv_ord : ordered (star_matrix m) (prime_matrix m) ord;
  cv_rows : forall r, r < nR -> bget (covered_rows m) r = true <-> r ∈ ord;
  cv_prime : forall r c, r < nR -> c < nC -> mat (prime_matrix m) r c = true -> r ∈ ord;
  cv_cols : forall c, c < nC -> bget (covered_cols m) c = true <->
              exists r, r < nR /\ mat (star_matrix m) r c = true /\ bget (covered_rows m) r = false
}.

Definition path_start (m : Mem) (row col : nat) : Prop :=
  row < nR /\ col < nC /\ ~ starred_row (star_matrix m) row /\
  (forall c, c < nC -> bget (covered_cols m) c = true -> starred_col (star_matrix m) c) /\
  exists ord, ordered (star_matrix m) (prime_matrix m) ord /\
    forall r, r < nR -> mat (star_matrix m) r col = true -> r ∈ ord.

(** The assignment read off a matching. *)
Definition assigned (l : list bool) (a : list Z) : Prop :=
  length a = nR /\
  forall r, r < nR -> a !! r = Some (if (star_col_of l r <? nC)%nat then Z.of_nat (star_col_of l r) else (-1)%Z).

Definition inv (st : Pc * Mem) : Prop :=
  let '(pc, m) := st in
  match pc with
  | Step2a => base m /\ clean m /\
      (forall c, c < nC -> bget (covered_cols m) c = true -> starred_col (star_matrix m) c)
  | Step2b => base m /\ clean m /\
      (forall c, c < nC -> bget (covered_cols m) c = true <-> starred_col (star_matrix m) c)
  | Step3 | Step5 => base m /\ stars (star_matrix m) < minDim /\ exists ord, covers m ord
  | Step4 row col => base m /\ stars (star_matrix m) < minDim /\ path_start m row col
  | Done => matching (star_matrix m) /\ stars (star_matrix m) = minDim /\
      assigned (star_matrix m) (assignment m)
  end.

(** ** Step 3 *)

Lemma ordered_prime_other s p row col ord :
  length p = nR * nC -> row < nR -> col < nC -> row ∉ ord -> ordered s p ord ->
  ordered s (<[idx row col := true]> p) ord.
Proof.
  intros Hl Hrow Hcol. induction ord as [| r ord IH]; [done |].
  intros Hnin (Hr & Hro & Hs & (c & Hc & Hp) & Hcov & Hord).
  apply not_elem_of_cons in Hnin as [Hne Hnin].
  assert (forall c, c < nC -> mat (<[idx row col := true]> p) r c = mat p r c) as Hsame.
  { intros d Hd. rewrite (mat_insert nR nC) by done. rewrite decide_False; [done |].
    intros [He _]. by apply Hne. }
  split_and!; [done | done | done | | | by apply IH].
  - exists c. by rewrite Hsame.
  - intros d r' Hd Hr' Hpd. rewrite Hsame in Hpd by done. by apply Hcov.
Qed.

(** The memory after priming the uncovered zero (row, col). *)
Definition primed (m : Mem) (row col : nat) : Mem :=
  set_stars m (star_matrix m) (new_star_matrix m) (<[idx row col := true]> (prime_matrix m)).

Lemma base_primed m row col : base m -> base (primed m row col).
Proof. intros []. split; cbn; rewrite ?length_insert; done. Qed.

Lemma primed_path_start m ord row col :
  base m -> covers m ord -> row < nR -> col < nC -> bget (covered_cols m) col = false ->
  bget (covered_rows m) row = false -> ~ starred_row (star_matrix m) row ->
  path_start (primed m row col) row col.
Proof.
  intros Hb [Ho Hr Hp Hc] Hrow Hcol Hcc Hcr Hno. split_and!; cbn; [done | done | done | |].
  - intros c Hlt Hcov. apply Hc in Hcov as (r & ? & ? & _); [| done]. by exists r.
  - exists ord. split.
    + apply ordered_prime_other; [by apply Hb | done | done | | done]. rewrite <- Hr by done. congruence.
    + intros r Hlt Hm. apply Hr; [done |]. destruct (bget (covered_rows m) r) eqn:E; [done |].
      enough (bget (covered_cols m) col = true) by congruence. apply Hc; [done | by exists r].
Qed.

Definition covered_step (m : Mem) (row col starCol : nat) : Mem :=
  set_covers (primed m row col) (<[starCol := false]> (covered_cols m)) (<[row := true]> (covered_rows m)).

Lemma covers_step m ord row col starCol :
  base m -> covers m ord -> row < nR -> col < nC -> starCol < nC ->
  bget (covered_cols m) col = false -> bget (covered_rows m) row = false ->
  mat (star_matrix m) row starCol = true ->
  base (covered_step m row col starCol) /\ covers (covered_step m row col starCol) (row :: ord).
Proof.
  intros Hb [Ho Hr Hp Hc] Hrow Hcol Hsc Hcc Hcr Hstar.
  pose proof Hb as [_ _ Hls Hlp Hlc Hlr [Hmr Hmc]].
  assert (row ∉ ord) as Hnin by (rewrite <- Hr by done; congruence).
  split; [destruct (base_primed m row col Hb); split; cbn in *; rewrite ?length_insert; done |].
  split; cbn.
  - split_and!; [done | done | by exists starCol | exists col | | by apply ordered_prime_other].
    + rewrite (mat_insert nR nC) by done. by rewrite decide_True.
    + intros c r' Hlt Hr' Hpc Hsr'.
      rewrite (mat_insert nR nC) in Hpc by done. case_decide as Hd.
      * destruct Hd as [_ ->]. apply Hr; [done |]. destruct (bget (covered_rows m) r') eqn:E; [done |].
        enough (bget (covered_cols m) col = true) by congruence. apply Hc; [done | by exists r'].
      * exfalso. by apply Hnin, (Hp row c).
  - intros r Hlt. rewrite bget_insert by lia. rewrite elem_of_cons. case_decide; [tauto |].
    rewrite Hr by done. tauto.
  - intros r c Hlt Hltc Hpc. rewrite (mat_insert nR nC) in Hpc by done. case_decide as Hd.
    + destruct Hd as [-> _]. left.
    + right. by apply (Hp r c).
  - intros c Hlt. rewrite bget_insert by lia. case_decide as Hd.
    + subst c. split; [done |]. intros (r & Hltr & Hm & Hcr').
      assert (r = row) as -> by (by apply (Hmc r row starCol)).
      rewrite bget_insert in Hcr' by lia. by rewrite decide_True in Hcr'.
    + rewrite Hc by done. split; intros (r & Hltr & Hm & Hcr'); exists r; (split; [done |]; split; [done |]);
        rewrite bget_insert in * by lia.
      * rewrite decide_False; [done |]. intros ->. apply Hd. by apply (Hmr row).
      * by case_decide.
Qed.

(** An uncovered zero. *)
Definition has_zero (m : Mem) (cols : list nat) : Prop :=
  exists row col, row < nR /\ col ∈ cols /\ bget (covered_rows m) row = false /\
    bget (covered_cols m) col = false /\ is_zero_at nR m row col = true.

Definition pass_post (cols : list nat) (found : bool) (m : Mem) (ord : list nat) (out : Pc * Mem) : Prop :=
  let '(pc, m') := out in
  star_matrix m' = star_matrix m /\ base m' /\
  match pc with
  | Step4 row col => path_start m' row col
  | Step3 => exists ord', covers m' ord' /\ length ord <= length ord' /\
                          (found = false -> length ord < length ord')
  | Step5 => found = false /\ m' = m /\ ~ has_zero m cols
  | _ => False
  end.

Lemma step3_pass_spec cols found m ord :
  (forall c, c ∈ cols -> c < nC) -> base m -> covers m ord ->
  pass_post cols found m ord (step3_pass nR nC cols found m).
Proof.
  revert found m ord. induction cols as [| col cols IH]; intros found m ord Hcols Hb Hc; cbn [step3_pass].
  { destruct found; (split; [done |]; split; [done |]).
    - exists ord. split; [done |]. split; [lia | done].
    - split; [done |]. split; [done |]. intros (? & ? & _ & H%elem_of_nil & _). done. }
  assert (col < nC) as Hcol by (apply Hcols; left).
  assert (forall c, c ∈ cols -> c < nC) as Hcols' by (intros; apply Hcols; by right).
  destruct (bget (covered_cols m) col) eqn:Ecc.
  - specialize (IH found m ord Hcols' Hb Hc). revert IH. unfold pass_post.
    destruct (step3_pass _ _ _ _ _) as [pc m']. destruct pc; try done.
    intros (? & ? & ? & ? & Hz). split_and!; try done. intros (r & c & Hr & Hin & H3 & H4 & H5).
    apply Hz. exists r, c. apply elem_of_cons in Hin as [-> | ?]; [congruence | done].
  - set (f := fun row => negb (bget (covered_rows m) row) && is_zero_at nR m row col).
    destruct (Nat.ltb_spec (find_first f nR) nR) as [Hrow | Hnone].
    + pose proof (find_first_lt f nR Hrow) as Hf. set (row := find_first f nR) in *. clearbody row.
      unfold f in Hf. apply andb_prop in Hf as [Hcr%negb_true_iff Hz].
      fold (primed m row col). destruct (star_in_row_spec nR nC (primed m row col) row) as [Hstar Hiff].
      set (starCol := star_in_row nR nC (primed m row col) row) in *. cbn in Hstar, Hiff.
      destruct (Nat.eqb_spec starCol nC) as [He | Hne].
      * cbn. split; [done |]. split; [by apply base_primed |].
        eapply primed_path_start; try done. rewrite Hiff. lia.
      * assert (starCol < nC) as Hsc
          by (pose proof (find_first_le (fun c => bget (star_matrix m) (idx row c)) nC : starCol <= nC); lia).
        destruct (covers_step m ord row col starCol Hb Hc Hrow Hcol Hsc Ecc Hcr (Hstar Hsc)) as [Hb' Hc'].
        specialize (IH true _ _ Hcols' Hb' Hc'). revert IH. unfold pass_post.
        fold (covered_step m row col starCol).
        change (set_covers (primed m row col) (<[starCol:=false]> (covered_cols (primed m row col)))
                  (<[row:=true]> (covered_rows (primed m row col)))) with (covered_step m row col starCol).
        destruct (step3_pass _ _ _ _ _) as [pc m']. intros (H1 & H2 & H3). split; [done |]. split; [done |].
        destruct pc; try done; [| by destruct H3].
        destruct H3 as (ord' & H3 & H4 & _). exists ord'. cbn in H4. split; [done |]. lia.
    + specialize (IH found m ord Hcols' Hb Hc). revert IH. unfold pass_post.
      destruct (step3_pass _ _ _ _ _) as [pc m']. destruct pc; try done.
      intros (? & ? & ? & ? & Hz). split_and!; try done. intros (r & c & Hr & Hin & H3 & H4 & H5).
      apply elem_of_cons in Hin as [-> | Hin]; [| apply Hz; by exists r, c].
      pose proof (find_first_le f nR).
      pose proof (find_first_none f nR ltac:(lia) r Hr) as Hfr. unfold f in Hfr. by rewrite H3, H5 in Hfr.
Qed.

(** ** Step 5 *)

Lemma elem_of_row_idx k row : k ∈ row_idx nR nC row <-> exists c, c < nC /\ k = idx row c.
Proof.
  unfold row_idx. rewrite list_elem_of_fmap. split.
  - intros (c & -> & Hc%elem_of_seq). exists c. split; [lia | done].
  - intros (c & Hc & ->). exists c. split; [done | apply elem_of_seq; lia].
Qed.

Lemma elem_of_col_idx k col : k ∈ col_idx nR col <-> exists r, r < nR /\ k = idx r col.
Proof.
  unfold col_idx. rewrite list_elem_of_fmap. split.
  - intros (c & -> & Hc%elem_of_seq). exists c. split; [lia | done].
  - intros (c & Hc & ->). exists c. split; [done | apply elem_of_seq; lia].
Qed.

Lemma NoDup_row_idx row : row < nR -> NoDup (row_idx nR nC row).
Proof.
  intros Hr. apply NoDup_fmap_2; [| apply NoDup_seq]. intros c c' He. unfold Hungarian.idx in He. nia.
Qed.

Lemma NoDup_col_idx col : NoDup (col_idx nR col).
Proof.
  apply NoDup_fmap_2; [| apply NoDup_seq]. intros c c' He. unfold Hungarian.idx in He. lia.
Qed.

(** A loop over the rows, element by element. *)
Lemma rows_loop {A} (P : nat -> bool) (g : A -> A) a r c :
  r < nR -> c < nC ->
  foldl (fun d row => if P row then map_at g (row_idx nR nC row) d else d) a (seq 0 nR) !! idx r c =
    if P r then g <$> a !! idx r c else a !! idx r c.
Proof.
  intros Hr Hc. apply lines_loop.
  - apply NoDup_seq.
  - apply elem_of_seq. lia.
  - apply elem_of_row_idx. by exists c.
  - by apply NoDup_row_idx.
  - intros x Hx%elem_of_seq (c' & Hc' & He)%elem_of_row_idx. apply idx_inj in He; lia.
Qed.

Lemma cols_loop {A} (P : nat -> bool) (g : A -> A) a r c :
  r < nR -> c < nC ->
  foldl (fun d col => if P col then d else map_at g (col_idx nR col) d) a (seq 0 nC) !! idx r c =
    if P c then a !! idx r c else g <$> a !! idx r c.
Proof.
  intros Hr Hc.
  pose proof (lines_loop (fun c => negb (P c)) (fun col => col_idx nR col) g (seq 0 nC) a (idx r c) c) as H.
  assert (forall (x y : list A) b, (if negb b then x else y) = if b then y else x) as Hneg by (by intros ? ? []).
  assert (forall (x y : option A) b, (if negb b then x else y) = if b then y else x) as Hneg' by (by intros ? ? []).
  cbv beta in H. rewrite Hneg' in H. rewrite <- H; clear H.
  - revert a. induction (seq 0 nC) as [| x xs IH]; intros a; cbn [foldl]; [done |]. by rewrite IH, Hneg.
  - apply NoDup_seq.
  - apply elem_of_seq. lia.
  - apply elem_of_col_idx. by exists r.
  - apply NoDup_col_idx.
  - intros x Hx%elem_of_seq (r' & Hr' & He)%elem_of_col_idx. apply idx_inj in He; lia.
Qed.

(** What step 5 does to each element. *)
Lemma step5_lookup m r c :
  r < nR -> c < nC ->
  let h := smallest_uncovered nR nC m in
  dist_matrix (step5 nR nC m) !! idx r c =
    let add := if bget (covered_rows m) r then fun v => c_add v h else id in
    let sub := if bget (covered_cols m) c then id else fun v => c_sub v h in
    (fun v => sub (add v)) <$> dist_matrix m !! idx r c.
Proof.
  intros Hr Hc h. cbn. rewrite cols_loop, rows_loop by done. fold h.
  destruct (bget (covered_rows m) r), (bget (covered_cols m) c), (dist_matrix m !! idx r c); done.
Qed.

Lemma step5_length m : length (dist_matrix (step5 nR nC m)) = length (dist_matrix m).
Proof.
  cbn. set (h := smallest_uncovered nR nC m).
  rewrite <- (lines_loop_length (bget (covered_rows m)) (row_idx nR nC) (fun v => c_add v h) (seq 0 nR) (dist_matrix m)).
  generalize (foldl (fun d row => if bget (covered_rows m) row
    then map_at (fun v => c_add v h) (row_idx nR nC row) d else d) (dist_matrix m) (seq 0 nR)).
  intros d. revert d. induction (seq 0 nC) as [| x xs IH]; intros d; cbn [foldl]; [done |].
  rewrite IH. destruct (bget _ _); [done | apply map_at_length].
Qed.

Definition all_fin `{!CostLaws C} (m : Mem) : Prop :=
  forall k, k < nR * nC -> c_fin (cget (dist_matrix m) k) = true.

Lemma elem_of_uncovered (m : Mem) k :
  k ∈ uncovered nR nC m <-> exists r c, r < nR /\ c < nC /\ k = idx r c /\
    bget (covered_rows m) r = false /\ bget (covered_cols m) c = false.
Proof.
  unfold uncovered. rewrite list_elem_of_In, in_flat_map. setoid_rewrite <- list_elem_of_In. split.
  - intros (r & Hr%elem_of_seq & Hk). destruct (bget (covered_rows m) r) eqn:Er; [by apply elem_of_nil in Hk |].
    rewrite list_elem_of_In, in_flat_map in Hk. destruct Hk as (c & Hc%list_elem_of_In%elem_of_seq & Hk).
    destruct (bget (covered_cols m) c) eqn:Ec; [destruct Hk |]. destruct Hk as [<- | []].
    exists r, c. split_and!; first [lia | done].
  - intros (r & c & Hr & Hc & -> & Hcr & Hcc). exists r. split; [apply elem_of_seq; lia |]. rewrite Hcr.
    rewrite list_elem_of_In, in_flat_map. exists c. rewrite Hcc. split; [apply in_seq; lia | by left].
Qed.

(** The minimum is one of the elements. *)
Lemma smallest_is_element `{!CostLaws C} (d : list C) ks :
  ks <> [] -> (forall k, k ∈ ks -> c_fin (cget d k) = true) ->
  exists k, k ∈ ks /\
    foldl (fun h k => if c_lt (cget d k) h then cget d k else h) c_max ks = cget d k.
Proof.
  intros Hne Hfin.
  assert (forall l h, foldl (fun h k => if c_lt (cget d k) h then cget d k else h) h l = h \/
            exists k, k ∈ l /\ foldl (fun h k => if c_lt (cget d k) h then cget d k else h) h l = cget d k) as Hgo.
  { induction l as [| k l IH]; intros h; cbn [foldl]; [by left |].
    destruct (IH (if c_lt (cget d k) h then cget d k else h)) as [-> | (j & Hj & ->)].
    - destruct (c_lt _ _); [right; exists k; split; [left | done] | by left].
    - right. exists j. split; [by right | done]. }
  destruct ks as [| k ks]; [done |]. cbn [foldl]. rewrite c_fin_lt by (apply Hfin; left).
  destruct (Hgo ks (cget d k)) as [-> | (j & Hj & ->)].
  - exists k. split; [left | done].
  - exists j. split; [by right | done].
Qed.

Lemma uncovered_exists (m : Mem) ord :
  matching (star_matrix m) -> covers m ord -> stars (star_matrix m) < minDim -> uncovered nR nC m <> [].
Proof.
  intros Hm [Ho Hr Hp Hc] Hs. destruct minDim_le as (HminR & HminC & _).
  assert (exists r, r < nR /\ bget (covered_rows m) r = false) as (r & Hltr & Hcr).
  { destruct (decide (Exists (fun r => bget (covered_rows m) r = false) (seq 0 nR))) as [H | H].
    - apply Exists_exists in H as (r & Hr'%elem_of_seq & H). exists r. split; [lia | done].
    - exfalso. pose proof (full_rows_stars _ Hm) as Hfull.
      assert (nR <= stars (star_matrix m)); [| lia]. apply Hfull. intros r Hlt.
      assert (r ∈ ord) as Hin.
      { apply Hr; [done |]. destruct (bget (covered_rows m) r) eqn:E; [done |]. exfalso. apply H, Exists_exists.
        exists r. split; [apply elem_of_seq; lia | done]. }
      apply list_elem_of_split in Hin as (l1 & l2 & ->). apply ordered_split in Ho. apply Ho. }
  assert (exists c, c < nC /\ bget (covered_cols m) c = false) as (c & Hltc & Hcc).
  { destruct (decide (Exists (fun c => bget (covered_cols m) c = false) (seq 0 nC))) as [H | H].
    - apply Exists_exists in H as (c & Hc'%elem_of_seq & H). exists c. split; [lia | done].
    - exfalso. pose proof (full_cols_stars (star_matrix m)) as Hfull.
      assert (nC <= stars (star_matrix m)); [| lia]. apply Hfull. intros c Hlt.
      destruct (bget (covered_cols m) c) eqn:E.
      + apply Hc in E as (r' & ? & ? & _); [| done]. by exists r'.
      + exfalso. apply H, Exists_exists. exists c. split; [apply elem_of_seq; lia | done]. }
  intros Hn. assert (idx r c ∈ uncovered nR nC m) as Hin by (apply elem_of_uncovered; by exists r, c).
  rewrite Hn in Hin. by apply elem_of_nil in Hin.
Qed.

Lemma step5_inv m : inv (Step5, m) -> inv (Step3, step5 nR nC m).
Proof.
  intros ([] & Hs & ord & []). split; [| split; [done |]].
  - split; try done. by rewrite step5_length.
  - exists ord. by split.
Qed.

(** After step 5 step 3 finds a zero. *)
Lemma step5_zero `{!CostLaws C} m :
  inv (Step5, m) -> all_fin m -> has_zero (step5 nR nC m) (seq 0 nC).
Proof.
  intros (Hb & Hs & ord & Hc) Hfin. pose proof Hb as [_ Hld _ _ _ _ Hm].
  destruct (smallest_is_element (dist_matrix m) (uncovered nR nC m)) as (k & Hk & Hmin).
  - by eapply uncovered_exists.
  - intros k (r & c & Hr & Hcl & -> & _)%elem_of_uncovered. apply Hfin. by apply idx_lt.
  - apply elem_of_uncovered in Hk as (r & c & Hr & Hcl & -> & Hcr & Hcc).
    exists r, c. split_and!; [done | apply elem_of_seq; lia | done | done |].
    unfold is_zero_at, cget. rewrite step5_lookup by done. rewrite Hcr, Hcc. cbn.
    destruct (dist_matrix m !! idx r c) as [v |] eqn:Ev.
    + cbn. unfold smallest_uncovered. rewrite Hmin. unfold cget. rewrite Ev. cbn.
      apply c_fin_sub. specialize (Hfin (idx r c) (idx_lt _ _ _ _ Hr Hcl)). unfold cget in Hfin. by rewrite Ev in Hfin.
    + apply lookup_ge_None in Ev. pose proof (idx_lt nR nC r c Hr Hcl). lia.
Qed.

(** ** Steps 2a, 2b and 4 *)

Lemma step2a_inv m : inv (Step2a, m) -> inv (Step2b, step2a nR nC m).
Proof.
  intros ([] & [Hcr Hp] & Hc). split; [| split; [by split |]].
  - split; try done. cbn.
    by rewrite (insert_loop_length (fun col => star_in_col nR m col <? nR) (fun _ => true)).
  - intros c Hlt. cbn. unfold bget.
    rewrite (insert_loop (fun col => star_in_col nR m col <? nR) (fun _ => true)) by lia.
    destruct (star_in_col_spec nR m c) as [_ Hiff]. cbn in Hiff. case_decide as Hd.
    + split; [intros _ | done]. apply Hiff. apply Nat.ltb_lt. apply Hd.
    + split; [by apply Hc |]. intros Hs. exfalso. apply Hd. split; [apply elem_of_seq; lia |].
      apply Nat.ltb_lt. by apply Hiff.
Qed.

Lemma covered_count (m : Mem) :
  (forall c, c < nC -> bget (covered_cols m) c = true <-> starred_col (star_matrix m) c) ->
  nOfCoveredColumns nC m = stars (star_matrix m).
Proof.
  intros Hc. unfold nOfCoveredColumns, stars. f_equal.
  assert (forall c, c ∈ seq 0 nC -> bget (covered_cols m) c = true <-> starred_col (star_matrix m) c) as Hc'
    by (intros c Hin%elem_of_seq; apply Hc; lia).
  clear Hc. induction (seq 0 nC) as [| c l IH]; [done |]. rewrite !filter_cons.
  rewrite IH by (intros; apply Hc'; by right). specialize (Hc' c ltac:(left)).
  case_decide; case_decide; [done | tauto | tauto | done].
Qed.

Lemma assigned_build m : base m -> assigned (star_matrix m) (assignment (BuildAssignmentVector nR nC m)).
Proof.
  intros [Ha _ _ _ _ _ _]. cbn. rewrite Ha. split.
  - rewrite (insert_loop_length (fun row => star_in_row nR nC m row <? nC)
               (fun row => Z.of_nat (star_in_row nR nC m row))). apply length_replicate.
  - intros r Hr.
    rewrite (insert_loop (fun row => star_in_row nR nC m row <? nC)
               (fun row => Z.of_nat (star_in_row nR nC m row))) by (by rewrite length_replicate).
    change (star_in_row nR nC m r) with (star_col_of (star_matrix m) r).
    rewrite lookup_replicate_2 by done. destruct (star_col_of (star_matrix m) r <? nC) eqn:E.
    + rewrite decide_True; [done | split; [apply elem_of_seq; lia | done]].
    + rewrite decide_False; [done | by intros [_ ?]].
Qed.

Lemma step2b_inv m : inv (Step2b, m) -> inv (step2b nR nC m) /\
  (fst (step2b nR nC m) = Done \/ step2b nR nC m = (Step3, m)).
Proof.
  intros (Hb & [Hcr Hp] & Hc). unfold step2b. rewrite covered_count by done.
  destruct (Nat.eqb_spec (stars (star_matrix m)) minDim) as [He | Hne]; cbn.
  - split; [| by left]. split; [apply Hb |]. split; [done | by apply assigned_build].
  - split; [| by right]. split; [done |]. split.
    + pose proof (stars_le _ (b_match _ Hb)). lia.
    + exists []. split; cbn; [done | | |].
      * intros r Hr. rewrite Hcr by done. split; [done | by intros ?%elem_of_nil].
      * intros r c Hr Hlt Hm. by rewrite Hp in Hm.
      * intros c Hlt. rewrite Hc by done. split; intros (r & Hr & H); exists r; [by rewrite Hcr | tauto].
Qed.

Lemma step4_inv m row col :
  inv (Step4 row col, m) ->
  exists m', step4 nR nC m row col = Some m' /\ inv (Step2a, m') /\
    stars (star_matrix m) < stars (star_matrix m').
Proof.
  intros (Hb & Hs & Hrow & Hcol & Hno & Hcc & ord & Hord & Hin). pose proof Hb as [].
  destruct (step4_path nR nC m row col ord) as (N & HN & Hlen & Hm & Hkeep & Hnew); try done.
  unfold step4. rewrite HN. eexists. split; [done |]. split; cbn.
  - split; [split; cbn; rewrite ?length_replicate; done |]. split; [split; cbn |].
    + intros. apply bget_replicate.
    + intros. apply mat_replicate.
    + intros c Hlt Hc. apply Hkeep; [done | by apply Hcc].
  - by apply stars_increase.
Qed.

(** ** The preliminary steps *)

Lemma reduce_length (ls : list (list nat)) (d : list C) :
  length (foldl (fun d ks => reduce_line d ks) d ls) = length d.
Proof.
  revert d. induction ls as [| ks ls IH]; intros d; cbn [foldl]; [done |].
  rewrite IH. apply map_at_length.
Qed.

Lemma foldl_map {A B D} (f : D -> B -> D) (g : A -> B) l d :
  foldl (fun d x => f d (g x)) d l = foldl f d (map g l).
Proof. revert d. induction l as [| x l IH]; intros d; cbn; [done | apply IH]. Qed.

(** The state of the starring loops: as [Step2b], but for the rows covered. *)
Definition starring (m : Mem) : Prop :=
  base m /\ (forall r c, r < nR -> c < nC -> mat (prime_matrix m) r c = false) /\
  (forall c, c < nC -> bget (covered_cols m) c = true <-> starred_col (star_matrix m) c).

(** Starring an element of an unstarred row and an unstarred column. *)
Lemma starring_star m row col cr :
  starring m -> row < nR -> col < nC -> ~ starred_row (star_matrix m) row ->
  ~ starred_col (star_matrix m) col -> length cr = nR ->
  let m' := set_covers (set_stars m (<[idx row col := true]> (star_matrix m)) (new_star_matrix m) (prime_matrix m))
              (<[col := true]> (covered_cols m)) cr in
  starring m' /\
  (forall r, r < nR -> starred_row (star_matrix m') r <-> r = row \/ starred_row (star_matrix m) r) /\
  (forall c, c < nC -> starred_col (star_matrix m') c <-> c = col \/ starred_col (star_matrix m) c).
Proof.
  intros (Hb & Hp & Hc) Hrow Hcol Hnr Hnc Hcr m'. pose proof Hb as [_ _ Hls _ Hlc _ [Hmr Hmc]].
  destruct (star_new_row nR nC _ row col Hls Hmr Hrow Hcol Hnr) as (Hu & Hor & Hsame & Hhit).
  change (<[idx row col:=true]> (star_matrix m)) with (star_matrix m') in Hu, Hor, Hsame, Hhit.
  assert (forall r, r < nR -> starred_row (star_matrix m') r <-> r = row \/ starred_row (star_matrix m) r) as Hrows.
  { intros r Hr. split.
    - intros (c & Hlt & H). destruct (Hor r c Hr Hlt H) as [[-> _] | [_ ?]]; [by left | right; by exists c].
    - intros [-> | (c & Hlt & H)]; [by exists col |]. exists c. split; [done |].
      rewrite Hsame; [done.. |]. intros ->. apply Hnr. by exists c. }
  assert (forall c, c < nC -> starred_col (star_matrix m') c <-> c = col \/ starred_col (star_matrix m) c) as Hcols.
  { intros c Hlt. split.
    - intros (r & Hr & H). destruct (Hor r c Hr Hlt H) as [[_ ->] | [_ ?]]; [by left | right; by exists r].
    - intros [-> | (r & Hr & H)]; [by exists row |]. exists r. split; [done |].
      rewrite Hsame; [done.. |]. intros ->. apply Hnr. by exists c. }
  split; [| done]. split; [| split; [done |]].
  - destruct Hb. split; cbn; rewrite ?length_insert; try done. split; [done |].
    intros x y d Hx Hy Hd H1 H2. change (<[idx row col:=true]> (star_matrix m)) with (star_matrix m') in H1, H2.
    destruct (Hor x d Hx Hd H1) as [[-> ->] | [_ H1']], (Hor y _ Hy Hd H2) as [[-> ?] | [_ H2']]; try done.
    + exfalso. apply Hnc. by exists y.
    + subst. exfalso. apply Hnc. by exists x.
    + by apply (Hmc x y d).
  - intros c Hlt. change (covered_cols m') with (<[col := true]> (covered_cols m)).
    rewrite bget_insert by lia. rewrite Hcols by done. case_decide; [tauto |]. rewrite Hc by done. tauto.
Qed.

Lemma star_row_spec m row :
  starring m -> row < nR -> ~ starred_row (star_matrix m) row ->
  let m' := star_row nR nC m row in
  starring m' /\ covered_rows m' = covered_rows m /\
  (forall r, r < nR -> starred_row (star_matrix m') r -> r = row \/ starred_row (star_matrix m) r).
Proof.
  intros Hs Hrow Hno. unfold star_row.
  set (f := fun col => is_zero_at nR m row col && negb (bget (covered_cols m) col)).
  destruct (Nat.ltb_spec (find_first f nC) nC) as [Hlt | _]; [| by split_and!; [| | right]].
  pose proof (find_first_lt f nC Hlt) as Hf. set (col := find_first f nC) in *. clearbody col.
  unfold f in Hf. apply andb_prop in Hf as [_ Hcc%negb_true_iff].
  assert (~ starred_col (star_matrix m) col) as Hnc.
  { destruct Hs as (_ & _ & Hc). rewrite <- Hc by done. congruence. }
  destruct (starring_star m row col (covered_rows m) Hs Hrow Hlt Hno Hnc) as (H1 & H2 & _).
  { destruct Hs as [[] _]. done. }
  split_and!; [done | done |]. intros r Hr. apply H2. done.
Qed.

Lemma star_col_spec m col :
  starring m -> (forall r, r < nR -> bget (covered_rows m) r = true <-> starred_row (star_matrix m) r) ->
  col < nC -> ~ starred_col (star_matrix m) col ->
  let m' := star_col nR m col in
  starring m' /\ (forall r, r < nR -> bget (covered_rows m') r = true <-> starred_row (star_matrix m') r) /\
  (forall c, c < nC -> starred_col (star_matrix m') c -> c = col \/ starred_col (star_matrix m) c).
Proof.
  intros Hs Hr Hcol Hno. unfold star_col.
  set (f := fun row => is_zero_at nR m row col && negb (bget (covered_rows m) row)).
  destruct (Nat.ltb_spec (find_first f nR) nR) as [Hlt | _]; [| by split_and!; [| | right]].
  pose proof (find_first_lt f nR Hlt) as Hf. set (row := find_first f nR) in *. clearbody row.
  unfold f in Hf. apply andb_prop in Hf as [_ Hcr%negb_true_iff].
  assert (~ starred_row (star_matrix m) row) as Hnr by (rewrite <- Hr by done; congruence).
  assert (length (covered_rows m) = nR) as Hl by (destruct Hs as [[] _]; done).
  destruct (starring_star m row col (<[row := true]> (covered_rows m)) Hs Hlt Hcol Hnr Hno) as (H1 & H2 & H3).
  { by rewrite length_insert. }
  split_and!; [done | | intros; by apply H3].
  intros r Hltr. rewrite H2 by done. cbn. rewrite bget_insert by lia. case_decide; [tauto |].
  rewrite Hr by done. tauto.
Qed.

Lemma star_rows_loop m rows :
  starring m -> NoDup rows -> Forall (fun r => r < nR) rows ->
  (forall r, r ∈ rows -> ~ starred_row (star_matrix m) r) ->
  starring (foldl (star_row nR nC) m rows) /\
  covered_rows (foldl (star_row nR nC) m rows) = covered_rows m.
Proof.
  revert m. induction rows as [| row rows IH]; intros m Hs Hn Hb Hno; cbn [foldl]; [done |].
  apply NoDup_cons in Hn as [Hnin Hn]. apply Forall_cons in Hb as [Hr Hb].
  destruct (star_row_spec m row Hs Hr (Hno row ltac:(left))) as (H1 & H2 & H3).
  destruct (IH _ H1 Hn Hb) as [H4 H5]; [| split; [done | by rewrite H5]].
  intros r Hin Hs'. rewrite Forall_forall in Hb. apply H3 in Hs' as [-> | Hs']; [done | | by apply Hb].
  by apply (Hno r ltac:(by right)).
Qed.

Lemma star_cols_loop m cols :
  starring m -> (forall r, r < nR -> bget (covered_rows m) r = true <-> starred_row (star_matrix m) r) ->
  NoDup cols -> Forall (fun c => c < nC) cols ->
  (forall c, c ∈ cols -> ~ starred_col (star_matrix m) c) ->
  starring (foldl (star_col nR) m cols).
Proof.
  revert m. induction cols as [| col cols IH]; intros m Hs Hr Hn Hb Hno; cbn [foldl]; [done |].
  apply NoDup_cons in Hn as [Hnin Hn]. apply Forall_cons in Hb as [Hc Hb].
  destruct (star_col_spec m col Hs Hr Hc (Hno col ltac:(left))) as (H1 & H2 & H3).
  apply (IH _ H1 H2 Hn Hb).
  intros c Hin Hs'. rewrite Forall_forall in Hb. apply H3 in Hs' as [-> | Hs']; [done | | by apply Hb].
  by apply (Hno c ltac:(by right)).
Qed.

Lemma no_stars r c : ~ mat (replicate (nR * nC) false) r c = true.
Proof. by rewrite mat_replicate. Qed.

Lemma starring_initial (d : list C) : length d = nR * nC -> starring (set_dist (initial_memory nR nC d) d).
Proof.
  intros Hd. split; [| split]; cbn.
  - split; cbn; rewrite ?length_replicate; try done.
    split; [intros r c c' _ _ _ H | intros r c c' _ _ _ H]; by apply no_stars in H.
  - intros. apply mat_replicate.
  - intros c _. rewrite bget_replicate. split; [done |]. intros (r & _ & H). by apply no_stars in H.
Qed.

Lemma seq_bound n : Forall (fun r => r < n) (seq 0 n).
Proof. apply Forall_forall. intros x Hx%elem_of_seq. lia. Qed.

Lemma preliminary_inv (d : list C) : length d = nR * nC -> inv (Step2b, preliminary nR nC d).
Proof.
  intros Hd. unfold preliminary. destruct (Nat.leb_spec nR nC).
  - set (d' := foldl (fun d row => reduce_line d (row_idx nR nC row)) _ _). assert (length d' = nR * nC) as Hd'.
    { unfold d'. rewrite (foldl_map (fun d ks => reduce_line d ks)), reduce_length. done. }
    clearbody d'. change (set_dist (initial_memory nR nC d) d') with (set_dist (initial_memory nR nC d') d').
    destruct (star_rows_loop (set_dist (initial_memory nR nC d') d') (seq 0 nR)) as [(Hb & Hp & Hc) Hcr].
    + by apply starring_initial.
    + apply NoDup_seq.
    + apply seq_bound.
    + intros r _ (c & _ & H'). by apply no_stars in H'.
    + split; [done |]. split; [split; [| done] | done]. intros r _. rewrite Hcr. apply bget_replicate.
  - set (d' := foldl (fun d col => reduce_line d (col_idx nR col)) _ _). assert (length d' = nR * nC) as Hd'.
    { unfold d'. rewrite (foldl_map (fun d ks => reduce_line d ks)), reduce_length. done. }
    clearbody d'. change (set_dist (initial_memory nR nC d) d') with (set_dist (initial_memory nR nC d') d').
    destruct (star_cols_loop (set_dist (initial_memory nR nC d') d') (seq 0 nC)) as (Hb & Hp & Hc).
    + by apply starring_initial.
    + intros r _. cbn. rewrite bget_replicate. split; [done |]. intros (c & _ & H'). by apply no_stars in H'.
    + apply NoDup_seq.
    + apply seq_bound.
    + intros c _ (r & _ & H'). by apply no_stars in H'.
    + split; [destruct Hb; split; cbn; rewrite ?length_replicate; done |].
      split; [split; [| exact Hp] | exact Hc]. intros. apply bget_replicate.
Qed.

(** ** The machine *)

(** Covered rows, and the measure: missing stars, then the work left in the
    phase, with a zero still to be found counting less than none. *)
Definition covered_count_rows (m : Mem) : nat :=
  length (filter (fun r => bget (covered_rows m) r = true) (seq 0 nR)).

Lemma covers_count m ord : covers m ord -> covered_count_rows m = length ord.
Proof.
  intros [Ho Hr _ _]. pose proof (ordered_bound _ _ _ _ _ Ho) as [Hn Hb]. rewrite Forall_forall in Hb.
  apply Permutation_length, NoDup_Permutation; [apply NoDup_filter, NoDup_seq | done |].
  intros r. rewrite list_elem_of_filter, elem_of_seq. split.
  - intros [H ?]. apply Hr; [lia | done].
  - intros H. split; [by apply Hr; [apply Hb |] | specialize (Hb r H); lia].
Qed.

Lemma covered_count_le m : covered_count_rows m <= nR.
Proof. unfold covered_count_rows. rewrite length_filter, length_seq. lia. Qed.

#[global] Instance has_zero_dec m cols : Decision (has_zero m cols).
Proof.
  destruct (decide (Exists (fun row => bget (covered_rows m) row = false /\
    Exists (fun col => bget (covered_cols m) col = false /\ is_zero_at nR m row col = true) cols) (seq 0 nR)))
    as [H | H]; [left | right].
  - apply Exists_exists in H as (r & Hr%elem_of_seq & Hcr & (c & Hc & Hcc & Hz)%Exists_exists).
    exists r, c. split_and!; first [lia | done].
  - intros (r & c & Hr & Hc & Hcr & Hcc & Hz). apply H, Exists_exists. exists r.
    split; [apply elem_of_seq; lia |]. split; [done |]. apply Exists_exists. exists c. by split_and!.
Defined.

Definition measure (st : Pc * Mem) : nat :=
  let '(pc, m) := st in
  let u := nR - covered_count_rows m in
  match pc with
  | Done => 0
  | _ => (minDim - stars (star_matrix m)) * (3 * nR + 5) +
      match pc with
      | Step2a => 3 * nR + 4
      | Step2b => 3 * nR + 3
      | Step3 => if decide (has_zero m (seq 0 nC)) then 3 * u else 3 * u + 2
      | Step5 => 3 * u + 1
      | _ => 0
      end
  end.

Lemma has_zero_uncovered m cols : has_zero m cols -> covered_count_rows m < nR.
Proof.
  intros (r & c & Hr & _ & Hcr & _). unfold covered_count_rows.
  assert (length (r :: filter (fun r => bget (covered_rows m) r = true) (seq 0 nR)) <= length (seq 0 nR)) as H.
  { apply NoDup_incl_le.
    - constructor; [| apply NoDup_filter, NoDup_seq]. rewrite list_elem_of_filter. intros [? _]. congruence.
    - intros x [-> | Hx]%elem_of_cons; [apply elem_of_seq; lia |].
      apply list_elem_of_filter in Hx as [_ Hx]; exact Hx. }
  cbn in H. rewrite length_seq in H. lia.
Qed.

Lemma step3_step m :
  inv (Step3, m) -> exists st', step nR nC (Step3, m) = Some st' /\ inv st' /\ measure st' < measure (Step3, m).
Proof.
  intros (Hb & Hs & ord & Hc). exists (step3_pass nR nC (seq 0 nC) false m). split; [done |].
  pose proof (step3_pass_spec (seq 0 nC) false m ord (fun c Hc => proj2 (proj1 (elem_of_seq _ _ _) Hc)) Hb Hc) as Hp.
  pose proof (has_zero_uncovered m (seq 0 nC)) as Hu.
  pose proof (covers_count m ord Hc) as Hcount.
  destruct (step3_pass nR nC (seq 0 nC) false m) as [pc m']. destruct Hp as (Hst & Hb' & Hp).
  unfold inv, measure. rewrite Hst. destruct pc as [| | | row col | |]; try done.
  - destruct Hp as (ord' & Hc' & _ & Hlt). specialize (Hlt eq_refl).
    split; [by split_and!; [| | exists ord'] |].
    pose proof (covers_count m' ord' Hc'). pose proof (covered_count_le m').
    repeat case_decide; lia.
  - split; [done |]. case_decide; [specialize (Hu ltac:(done)) |]; lia.
  - destruct Hp as (_ & -> & Hz). split; [by split_and!; [| | exists ord] |].
    rewrite decide_False by done. lia.
Qed.

Lemma machine_step st :
  inv st -> exists st', step nR nC st = Some st' /\ inv st' /\
    (fst st <> Done -> fst st <> Step5 -> measure st' < measure st).
Proof.
  destruct st as [pc m]. intros Hinv. destruct pc as [| | | row col | |].
  - exists (Step2b, step2a nR nC m). split; [done |]. split; [by apply step2a_inv |].
    intros _ _. cbn. lia.
  - destruct (step2b_inv m Hinv) as [H1 H2]. exists (step2b nR nC m). split; [done |]. split; [done |].
    intros _ _. destruct H2 as [H2 | ->].
    + destruct (step2b nR nC m) as [pc m']. cbn in H2. subst pc. unfold measure. apply Nat.add_pos_r. lia.
    + unfold measure. case_decide; lia.
  - destruct (step3_step m Hinv) as (st' & H1 & H2 & H3). by exists st'.
  - destruct (step4_inv m row col Hinv) as (m' & H1 & H2 & H3).
    exists (Step2a, m'). cbn [step]. rewrite H1. split; [done |]. split; [done |]. intros _ _. unfold measure.
    destruct H2 as ([] & _). pose proof (stars_le _ b_match0). nia.
  - exists (Step3, step5 nR nC m). split; [done |]. split; [by apply step5_inv |]. done.
  - exists (Done, m). done.
Qed.

Lemma run_inv n st : inv st -> exists st', run nR nC n st = Some st' /\ inv st'.
Proof.
  revert st. induction n as [| n IH]; intros st Hinv; [by exists st |].
  destruct (machine_step st Hinv) as (st1 & H1 & H2 & _). cbn [run]. rewrite H1. by apply IH.
Qed.

Lemma run_done n m : run nR nC n (Done, m) = Some (Done, m).
Proof. induction n as [| n IH]; [done | exact IH]. Qed.

Lemma run_terminates `{!CostLaws C} n st :
  inv st -> measure st <= n ->
  (exists m, run nR nC n st = Some (Done, m)) \/
  (exists k m, k < n /\ run nR nC k st = Some (Step5, m) /\ ~ all_fin m).
Proof.
  revert st. induction n as [| n IH]; intros st Hinv Hle.
  { destruct st as [pc m]. left. exists m. apply Nat.le_0_r in Hle.
    destruct pc; [exfalso; unfold measure in Hle; apply Nat.eq_add_0 in Hle as [Hle1 Hle].. | done]; try lia.
    - case_decide; [| lia]. match goal with H : has_zero _ _ |- _ => apply has_zero_uncovered in H end. lia.
    - destruct Hinv as (_ & Hs & _). nia. }
  destruct (machine_step st Hinv) as (st1 & H1 & H2 & H3).
  destruct (decide (fst st = Done)) as [Hd | Hd].
  { destruct st as [pc m]. cbn in Hd. subst pc. left. exists m. apply run_done. }
  assert (measure st1 < measure st \/ exists m, st = (Step5, m) /\ ~ all_fin m) as [Hlt | (m & -> & Hm)].
  { destruct (decide (fst st = Step5)) as [H5 | H5]; [| left; by apply H3].
    destruct st as [pc m]. cbn in H5. subst pc.
    destruct (decide (Forall (fun k => c_fin (cget (dist_matrix m) k) = true) (seq 0 (nR * nC)))) as [Hf | Hf].
    - left. injection H1 as <-. unfold measure. rewrite decide_True.
      + change (star_matrix (step5 nR nC m)) with (star_matrix m).
        change (covered_count_rows (step5 nR nC m)) with (covered_count_rows m). lia.
      + apply step5_zero; [done |]. intros k Hk. rewrite Forall_forall in Hf. apply Hf, elem_of_seq. lia.
    - right. exists m. split; [done |]. intros Hall. apply Hf, Forall_forall.
      intros k Hk%elem_of_seq. apply Hall. lia. }
  - destruct (IH st1 H2 ltac:(lia)) as [[m Hm] | (k & m & Hk & Hr & Hm)].
    + left. exists m. cbn [run]. by rewrite H1.
    + right. exists (S k), m. split; [lia |]. cbn [run]. by rewrite H1.
  - right. exists 0, m. split; [lia | done].
Qed.

Lemma measure_initial m : inv (Step2b, m) -> measure (Step2b, m) <= FUEL nR nC.
Proof. intros ([] & _). unfold measure, FUEL. nia. Qed.

(** The assignment of a finished run. *)
Lemma assigned_spec l a :
  matching l -> stars l = minDim -> assigned l a ->
  length a = nR /\
  (forall r z, a !! r = Some z -> z = (-1)%Z \/ (0 <= z < Z.of_nat nC)%Z) /\
  (forall r r' z, z <> (-1)%Z -> a !! r = Some z -> a !! r' = Some z -> r = r') /\
  (nR <= nC -> (-1)%Z ∉ a) /\ (nC <= nR -> forall c, c < nC -> Z.of_nat c ∈ a).
Proof.
  intros Hm Hs [Hl Ha]. pose proof Hm as [Hmr Hmc].
  assert (forall r z, a !! r = Some z -> r < nR) as Hlt.
  { intros r z H. rewrite <- Hl. by eapply lookup_lt_Some. }
  assert (forall r z, a !! r = Some z -> z <> (-1)%Z ->
            r < nR /\ star_col_of l r < nC /\ z = Z.of_nat (star_col_of l r) /\ mat l r (star_col_of l r) = true) as Hz.
  { intros r z H Hne. pose proof (Hlt r z H) as Hr. rewrite Ha in H by done. injection H as <-.
    destruct (Nat.ltb_spec (star_col_of l r) nC); [| done]. split_and!; try done.
    exact (find_first_lt (fun c => mat l r c) nC ltac:(done)). }
  split; [done |]. split_and!.
  - intros r z H. destruct (decide (z = -1)%Z); [by left | right]. destruct (Hz r z H) as (_ & ? & -> & _); [done | lia].
  - intros r r' z Hne H H'. destruct (Hz r z H Hne) as (Hr & Hc & -> & Hm1), (Hz r' _ H' Hne) as (Hr' & Hc' & He & Hm2).
    apply Nat2Z.inj in He. rewrite <- He in Hm2. by apply (Hmc r r' (star_col_of l r)).
  - intros Hle (r & H)%list_elem_of_lookup_1. pose proof (Hlt r _ H) as Hr. rewrite Ha in H by done.
    injection H as H. unfold Hungarian.minDim in Hs. rewrite (proj2 (Nat.leb_le _ _) Hle) in Hs.
    destruct (star_col_of_spec l r (stars_full_rows l Hm Hs r Hr)) as [Hc _].
    rewrite (proj2 (Nat.ltb_lt _ _) Hc) in H. lia.
  - intros Hle c Hc. assert (stars l = nC) as Hs' by (pose proof minDim_le; lia).
    destruct (stars_full_cols l Hs' c Hc) as (r & Hr & Hrc).
    assert (starred_row l r) as Hsr by (by exists c). destruct (star_col_of_spec l r Hsr) as [Hc' Hm'].
    assert (star_col_of l r = c) as He by (by apply (Hmr r)).
    apply (list_elem_of_lookup_2 a r). rewrite Ha by done. rewrite (proj2 (Nat.ltb_lt _ _) Hc'). by rewrite He.
Qed.
End Run.
