(* ===== verification/HungarianSpec.v ===== *)
(** * The assignment solver: theorems

    [Solve] on a rectangular matrix that fits the memory unit. *)

From Stdlib Require Import SpecFloat.
From S2P Require Import Prelude Float32 FloatBounds Hungarian HungarianProps.
Open Scope nat_scope.
Open Scope list_scope.

(** ** The numbers of the program *)

Lemma f64_sub_self x : is_finite x = true -> f64_sub x x = S754_zero false.
Proof.
  unfold f64_sub, SFsub. destruct x as [[] | | | s m e]; try done. intros _.
  rewrite Z.min_id. rewrite Z.sub_diag. done.
Qed.

Definition f64_fin (x : f64) : bool := is_finite x && flt x DBL_MAX.

#[export] Instance f64_laws : CostLaws f64.
Proof.
  refine {| c_fin := f64_fin |}.
  - by intros x [_ H]%andb_prop.
  - intros x [H _]%andb_prop. cbn. rewrite f64_sub_self by done. vm_compute. reflexivity.
Defined.

(** ** The solver *)

(** All lines of the matrix are as long as its first. *)
Definition rectangular {A} (D : list (list A)) : Prop :=
  Forall (fun line => length line = length (default [] (head D))) D.

Lemma transpose_length {C} `{!CostOps C} nR nC (D : list (list C)) :
  length (transpose_flat nR nC D) = nR * nC.
Proof.
  unfold transpose_flat. induction nC as [| nC IH]; [cbn; lia |].
  rewrite seq_S, flat_map_app, length_app, IH. cbn. rewrite length_app, length_map, length_seq. cbn. lia.
Qed.

Section Solve.
Context {C : Type} `{!CostOps C}.

Definition initial_state (D : list (list C)) : Pc * Memory :=
  let nR := length D in let nC := length (default [] (head D)) in
  (Step2b, preliminary nR nC (transpose_flat nR nC D)).

Lemma initial_inv D :
  inv (length D) (length (default [] (head D))) (initial_state D).
Proof. apply preliminary_inv, transpose_length. Qed.
End Solve.

(** What a returned assignment comes from: the stars of the finished machine. *)
Lemma Solve_stars {C} `{!CostOps C} max (D : list (list C)) a :
  Solve max D = Some a ->
  let nR := length D in let nC := length (default [] (head D)) in
  exists stars_, matching nR nC stars_ /\ stars nR nC stars_ = minDim nR nC /\ assigned nR nC stars_ a.
Proof.
  intros Hsolve nR nC. pose proof (initial_inv D) as Hinv. fold nR nC in Hinv.
  destruct (run_inv nR nC (FUEL nR nC) _ Hinv) as ([pc m] & Hrun & Hfinal).
  assert (pc = Done /\ assignment m = a) as [-> <-].
  { destruct D as [| line D]; [done |]. unfold Solve in Hsolve. fold nR in Hsolve.
    change (length line) with nC in Hsolve. destruct (_ && _); [| done].
    unfold AssignmentOptimal in Hsolve. unfold initial_state in Hrun. fold nR nC in Hrun.
    rewrite Hrun in Hsolve. destruct pc; try done. by injection Hsolve as ->. }
  destruct Hfinal as (Hm & Hs & Ha). by exists (star_matrix m).
Qed.

(** C4: whatever the number type, and for the program's [double] in particular,
    the assignment [Solve] returns is a matching of maximal size: one entry per
    row, each [-1] or a column of the matrix, no column given twice, no row left
    out when there are at least as many columns, and no column left out when
    there are at least as many rows. *)
Theorem assignment_is_maximal_matching {C} `{!CostOps C} max (D : list (list C)) a :
  Solve max D = Some a ->
  let nR := length D in let nC := length (default [] (head D)) in
  length a = nR /\
  (forall r z, a !! r = Some z -> z = (-1)%Z \/ (0 <= z < Z.of_nat nC)%Z) /\
  (forall r r' z, z <> (-1)%Z -> a !! r = Some z -> a !! r' = Some z -> r = r') /\
  (nR <= nC -> (-1)%Z ∉ a) /\ (nC <= nR -> forall c, c < nC -> Z.of_nat c ∈ a).
Proof.
  intros (stars_ & Hm & Hs & Ha)%Solve_stars nR nC. by apply (assigned_spec nR nC stars_).
Qed.

Lemma assignment_is_maximal_matching_witness :
  Z.of_nat 2 ∈ [1; 0; 2]%Z.
Proof.
  refine (proj2 (proj2 (proj2 (proj2 (assignment_is_maximal_matching 10 test_matrix [1; 0; 2]%Z _)))) _ 2 _).
  - vm_compute. reflexivity.
  - vm_compute. lia.
  - vm_compute. lia.
Defined.

(** C6: the solver terminates: on any non-empty matrix that fits the memory
    unit, within [FUEL] transitions (of order rows times the smaller dimension)
    either the assignment is there, or step 5 has been reached with an element
    of the working matrix infinite, not a number, or as large as [DBL_MAX]; and
    the machine never indexes out of range on the way. *)
Theorem solver_terminates max (D : list (list f64)) :
  let nR := length D in let nC := length (default [] (head D)) in
  D <> [] -> nR <= max -> nC <= max ->
  (forall n, is_Some (run nR nC n (initial_state D))) /\
  ((exists a, Solve max D = Some a) \/
   (exists k m, k < FUEL nR nC /\ run nR nC k (initial_state D) = Some (Step5, m) /\ ~ all_fin nR nC m)).
Proof.
  intros nR nC Hne HnR HnC. pose proof (initial_inv D) as Hinv. fold nR nC in Hinv. split.
  { intros n. destruct (run_inv nR nC n _ Hinv) as (st & -> & _). by exists st. }
  destruct (run_terminates nR nC (FUEL nR nC) (initial_state D) Hinv) as [[m Hm] | H];
    [by apply measure_initial | left | by right].
  exists (assignment m). destruct D as [| line D]; [done |]. unfold Solve. fold nR.
  change (length line) with nC. rewrite (proj2 (Nat.leb_le _ _) HnR), (proj2 (Nat.leb_le _ _) HnC). cbn [andb].
  unfold AssignmentOptimal. unfold initial_state in Hm. fold nR nC in Hm. by rewrite Hm.
Qed.

Lemma solver_terminates_witness :
  (exists a, Solve 10 test_matrix = Some a) \/
  (exists k m, k < FUEL 3 3 /\ run 3 3 k (initial_state test_matrix) = Some (Step5, m) /\ ~ all_fin 3 3 m).
Proof.
  refine (proj2 (solver_terminates 10 test_matrix _ _ _)); [discriminate | vm_compute; lia | vm_compute; lia].
Defined.
