(* ===== verification/HungarianOptimal.v ===== *)
(** * The assignment solver: optimality

    On numbers without rounding the assignment that [Solve] returns has the least
    total cost of all assignments of maximal size.  The proof keeps potentials of
    the rows and columns along the run of the machine: an element of the working
    matrix is the cost less the potentials of its row and its column. *)

From S2P Require Import Prelude Hungarian HungarianProps HungarianSpec.
Open Scope nat_scope.
Open Scope list_scope.

(** ** Exact numbers *)

(** Integers, and the number that is larger than all of them. *)
Inductive cost := Fin (z : Z) | Inf.

Definition lift_cost (f : Z -> Z -> Z) (a b : cost) : cost :=
  match a, b with Fin x, Fin y => Fin (f x y) | _, _ => Inf end.

#[export] Instance exact_cost : CostOps cost := {|
  c_add := lift_cost Z.add;
  c_sub := lift_cost Z.sub;
  c_lt a b := match a, b with Fin x, Fin y => (x <? y)%Z | Fin _, Inf => true | Inf, _ => false end;
  c_is_zero a := match a with Fin x => (x =? 0)%Z | Inf => false end;
  c_zero := Fin 0;
  c_max := Inf
|}.

#[export] Instance exact_laws : CostLaws cost.
Proof.
  refine {| c_fin := fun a => match a with Fin _ => true | Inf => false end |}.
  - by intros [z |].
  - intros [z |]; [| done]. intros _. cbn. by rewrite Z.sub_diag.
Defined.

(** ** Assignments and their cost *)

Definition zsum (l : list Z) : Z := foldr Z.add 0%Z l.

Definition col_of (a : list Z) (r : nat) : Z := default (-1)%Z (a !! r).

(** The rows with a column, each with its column. *)
Definition pairs_of (a : list Z) : list (nat * nat) :=
  map (fun r => (r, Z.to_nat (col_of a r))) (filter (fun r => (0 <= col_of a r)%Z) (seq 0 (length a))).

Definition element (D : list (list Z)) (r c : nat) : Z := default 0%Z (default [] (D !! r) !! c).

Definition total_cost (D : list (list Z)) (a : list Z) : Z := zsum (map (fun '(r, c) => element D r c) (pairs_of a)).

(** One entry per row, [-1] or a column, no column twice; as many as possible. *)
Record maximal_assignment (nR nC : nat) (a : list Z) : Prop := {
  ma_length : length a = nR;
  ma_range r z : a !! r = Some z -> z = (-1)%Z \/ (0 <= z < Z.of_nat nC)%Z;
  ma_injective r r' z : z <> (-1)%Z -> a !! r = Some z -> a !! r' = Some z -> r = r';
  ma_rows : nR <= nC -> (-1)%Z ∉ a;
  ma_cols : nC <= nR -> forall c, c < nC -> Z.of_nat c ∈ a
}.

Lemma zsum_app l l' : zsum (l ++ l') = (zsum l + zsum l')%Z.
Proof. unfold zsum. induction l as [| z l IH]; cbn; [done |]. rewrite IH. lia. Qed.

Lemma zsum_perm l l' : l ≡ₚ l' -> zsum l = zsum l'.
Proof. unfold zsum. induction 1; cbn; lia. Qed.

Lemma zsum_nonpos l : Forall (fun z => z <= 0)%Z l -> (zsum l <= 0)%Z.
Proof. unfold zsum. induction 1; cbn; lia. Qed.

Lemma zsum_zero l : Forall (fun z => z = 0)%Z l -> zsum l = 0%Z.
Proof. unfold zsum. induction 1; cbn; lia. Qed.

Lemma zsum_add {A} (f g : A -> Z) l : zsum (map (fun x => f x + g x)%Z l) = (zsum (map f l) + zsum (map g l))%Z.
Proof. unfold zsum. induction l as [| x l IH]; cbn; lia. Qed.

Lemma zsum_le {A} (f g : A -> Z) l : (forall x, x ∈ l -> (f x <= g x)%Z) -> (zsum (map f l) <= zsum (map g l))%Z.
Proof.
  unfold zsum. induction l as [| x l IH]; intros Hl; cbn; [done |].
  pose proof (Hl x ltac:(left)). specialize (IH (fun y Hy => Hl y ltac:(by right))). lia.
Qed.

(** A part of the indices, and the rest. *)
Lemma part_of_seq l n : NoDup l -> (forall x, x ∈ l -> x < n) ->
  exists k, seq 0 n ≡ₚ l ++ k /\ forall x, x ∈ k -> x < n /\ x ∉ l.
Proof.
  intros Hnd Hl. destruct (submseteq_Permutation l (seq 0 n)) as [k Hk].
  { apply NoDup_submseteq; [done |]. intros x Hx. apply elem_of_seq. specialize (Hl x Hx). lia. }
  exists k. split; [done |]. intros x Hx. pose proof (NoDup_seq 0 n) as Hs. rewrite Hk in Hs. apply NoDup_app in Hs as (_ & Hd & _).
  split; [| intros Hxl; by apply (Hd x)]. assert (x ∈ seq 0 n) as Hin%elem_of_seq; [| lia]. rewrite Hk. apply elem_of_app. by right.
Qed.

Lemma zsum_part (f : nat -> Z) l n : NoDup l -> (forall x, x ∈ l -> x < n) ->
  ((forall x, x < n -> (f x <= 0)%Z) -> (zsum (map f (seq 0 n)) <= zsum (map f l))%Z) /\
  ((forall x, x < n -> x ∉ l -> f x = 0%Z) -> zsum (map f (seq 0 n)) = zsum (map f l)).
Proof.
  intros Hnd Hl. destruct (part_of_seq l n Hnd Hl) as (k & Hk & Hkx).
  rewrite (zsum_perm _ _ (Permutation_map f Hk)), map_app, zsum_app. split; intros Hf.
  - assert (zsum (map f k) <= 0)%Z; [| lia]. apply zsum_nonpos, Forall_forall.
    intros z (x & -> & Hx)%list_elem_of_fmap. by apply Hf, Hkx.
  - rewrite (zsum_zero (map f k)); [lia |]. apply Forall_forall. intros z (x & -> & Hx)%list_elem_of_fmap.
    destruct (Hkx x Hx). by apply Hf.
Qed.

Lemma elem_of_all_pairs a r c : (r, c) ∈ pairs_of a <-> a !! r = Some (Z.of_nat c).
Proof.
  unfold pairs_of, col_of. rewrite list_elem_of_fmap. split.
  - intros (r' & [= -> ->] & [Hz Hr]%list_elem_of_filter). apply elem_of_seq in Hr.
    destruct (a !! r') as [z |] eqn:E; cbn in *; [by rewrite Z2Nat.id | lia].
  - intros H. exists r. rewrite H. cbn. rewrite Nat2Z.id. split; [done |]. apply list_elem_of_filter. rewrite H.
    split; [cbn; lia |]. apply lookup_lt_Some in H. apply elem_of_seq. lia.
Qed.

Section Duality.
Context (D : list (list Z)) (nR nC : nat) (u v : nat -> Z).

Lemma pairs_lines a : maximal_assignment nR nC a ->
  (NoDup (map fst (pairs_of a)) /\ forall r, r ∈ map fst (pairs_of a) -> r < nR) /\
  (NoDup (map snd (pairs_of a)) /\ forall c, c ∈ map snd (pairs_of a) -> c < nC) /\
  (nR <= nC -> forall r, r < nR -> r ∈ map fst (pairs_of a)) /\
  (nC <= nR -> forall c, c < nC -> c ∈ map snd (pairs_of a)).
Proof.
  intros [Hl Hr Hi Hrows Hcols].
  assert (NoDup (pairs_of a)) as Hnd.
  { apply NoDup_fmap_2_strong; [| apply NoDup_filter, NoDup_seq]. by intros x y _ _ [= -> _]. }
  split_and!.
  - apply NoDup_fmap_fst; [| done]. intros r c c' H1%elem_of_all_pairs H2%elem_of_all_pairs. rewrite H1 in H2. injection H2. lia.
  - intros r ([r' c] & -> & H%elem_of_all_pairs)%list_elem_of_fmap. apply lookup_lt_Some in H. cbn. lia.
  - apply NoDup_fmap_2_strong; [| done]. intros [r c] [r' c'] H1%elem_of_all_pairs H2%elem_of_all_pairs. cbn. intros <-.
    f_equal. apply (Hi r r' (Z.of_nat c)); [lia | done | done].
  - intros c ([r c'] & -> & H%elem_of_all_pairs)%list_elem_of_fmap. cbn. destruct (Hr _ _ H); lia.
  - intros Hle r Hlt. apply list_elem_of_fmap. assert (exists z, a !! r = Some z) as [z Hz] by (apply lookup_lt_is_Some_2; lia).
    destruct (Hr _ _ Hz) as [-> | Hz'].
    + exfalso. apply (Hrows Hle). by eapply list_elem_of_lookup_2.
    + exists (r, Z.to_nat z). split; [done |]. apply elem_of_all_pairs. rewrite Hz. f_equal. lia.
  - intros Hle c Hlt. apply list_elem_of_fmap. destruct (list_elem_of_lookup_1 _ _ (Hcols Hle c Hlt)) as [r H].
    exists (r, c). split; [done |]. by apply elem_of_all_pairs.
Qed.

Lemma potentials_split a :
  zsum (map (fun '(r, c) => (u r + v c)%Z) (pairs_of a)) =
  (zsum (map u (map fst (pairs_of a))) + zsum (map v (map snd (pairs_of a))))%Z.
Proof. rewrite !map_map, <- zsum_add. f_equal. apply map_ext. by intros [r c]. Qed.

(** No assignment costs less than the potentials allow. *)
Lemma lower_bound a :
  maximal_assignment nR nC a ->
  (forall r c, r < nR -> c < nC -> (u r + v c <= element D r c)%Z) ->
  (if nR <=? nC then forall c, c < nC -> (v c <= 0)%Z else forall r, r < nR -> (u r <= 0)%Z) ->
  (zsum (map u (seq 0 nR)) + zsum (map v (seq 0 nC)) <= total_cost D a)%Z.
Proof.
  intros Ha Hle Hsign. destruct (pairs_lines a Ha) as ([Hn1 Hb1] & [Hn2 Hb2] & Hrows & Hcols).
  etransitivity; [| apply (zsum_le (fun '(r, c) => (u r + v c)%Z))].
  - rewrite potentials_split. destruct (zsum_part u _ nR Hn1 Hb1) as [Hu1 Hu2], (zsum_part v _ nC Hn2 Hb2) as [Hv1 Hv2].
    destruct (Nat.leb_spec nR nC) as [Hc | Hc].
    + rewrite Hu2; [specialize (Hv1 Hsign); lia |]. intros r Hr Hn. by destruct Hn; apply Hrows.
    + rewrite Hv2; [specialize (Hu1 Hsign); lia |]. intros c Hc' Hn. destruct Hn; apply Hcols; [lia | done].
  - intros [r c] Hp. apply Hle; [apply Hb1 | apply Hb2]; apply list_elem_of_fmap; by exists (r, c).
Qed.

(** The bound is reached on tight elements. *)
Lemma bound_reached a :
  maximal_assignment nR nC a ->
  (forall r c, a !! r = Some (Z.of_nat c) -> element D r c = (u r + v c)%Z) ->
  (if nR <=? nC then forall c, c < nC -> Z.of_nat c ∉ a -> v c = 0%Z else forall r, r < nR -> a !! r = Some (-1)%Z -> u r = 0%Z) ->
  total_cost D a = (zsum (map u (seq 0 nR)) + zsum (map v (seq 0 nC)))%Z.
Proof.
  intros Ha Heq Hz. destruct (pairs_lines a Ha) as ([Hn1 Hb1] & [Hn2 Hb2] & Hrows & Hcols).
  destruct (zsum_part u _ nR Hn1 Hb1) as [_ Hu], (zsum_part v _ nC Hn2 Hb2) as [_ Hv].
  rewrite Hu, Hv, <- potentials_split.
  - unfold total_cost. f_equal. apply map_ext_in. intros [r c] Hp%list_elem_of_In%elem_of_all_pairs. by apply Heq.
  - intros c Hlt Hn. destruct (Nat.leb_spec nR nC) as [Hc | Hc]; [| by destruct Hn; apply Hcols; [lia |]].
    apply Hz; [done |]. intros [r Hr]%list_elem_of_lookup_1. apply Hn, list_elem_of_fmap. exists (r, c). split; [done |]. by apply elem_of_all_pairs.
  - intros r Hlt Hn. destruct (Nat.leb_spec nR nC) as [Hc | Hc]; [by destruct Hn; apply Hrows |].
    apply Hz; [done |]. destruct Ha as [Hl Hr _ _ _]. assert (exists z, a !! r = Some z) as [z E] by (apply lookup_lt_is_Some_2; lia).
    rewrite E. destruct (Hr _ _ E) as [-> | Hz']; [done |]. exfalso. apply Hn, list_elem_of_fmap.
    exists (r, Z.to_nat z). split; [done |]. apply elem_of_all_pairs. rewrite E. f_equal. lia.
Qed.
End Duality.

(** ** Potentials of the working matrix *)

(** The smallest element by the loops of the code. *)
Lemma fold_min (d : list cost) ks h0 :
  (forall k, k ∈ ks -> exists z, cget d k = Fin z) ->
  let h := foldl (fun h k => if c_lt (cget d k) h then cget d k else h) h0 ks in
  (h = h0 \/ exists k, k ∈ ks /\ h = cget d k) /\
  (forall z, h = Fin z -> (forall k z', k ∈ ks -> cget d k = Fin z' -> (z <= z')%Z) /\ (forall z', h0 = Fin z' -> (z <= z')%Z)).
Proof.
  revert h0. induction ks as [| k ks IH]; intros h0 Hfin; cbn [foldl].
  { split; [by left |]. intros z ->. split; [by intros k z' ?%elem_of_nil | intros z' [= ->]; done]. }
  destruct (Hfin k ltac:(left)) as [zk Hk]. rewrite Hk.
  destruct (IH (if c_lt (Fin zk) h0 then Fin zk else h0) (fun x Hx => Hfin x ltac:(by right))) as [H1 H2].
  cbv zeta. set (h := foldl _ _ _) in *. split.
  - destruct H1 as [-> | (x & Hx & ->)]; [| right; exists x; split; [by right | done]].
    destruct (c_lt (Fin zk) h0); [right; exists k; split; [left | by rewrite Hk] | by left].
  - intros z Hz. destruct (H2 z Hz) as [H3 H4]. split.
    + intros x z' [-> | Hx]%elem_of_cons Hxz; [| by apply (H3 x)]. rewrite Hk in Hxz. injection Hxz as <-.
      destruct (c_lt (Fin zk) h0) eqn:E; [by apply H4 |]. destruct h0 as [z0 |]; [| done]. cbn in E.
      specialize (H4 z0 eq_refl). apply Z.ltb_ge in E. lia.
    + intros z' ->. cbn in H4. destruct (Z.ltb_spec zk z') as [Hlt | Hge]; [specialize (H4 zk eq_refl); lia | by apply H4].
Qed.

Section Optimal.
Context (nR nC : nat) (D0 : nat -> nat -> Z).
Abbreviation idx := (idx nR).
Abbreviation mat := (mat nR).
Abbreviation Mem := (Memory (C := cost)).

(** What the potentials [u] of the rows and [v] of the columns say of a memory. *)
Record dual (m : Mem) (u v : nat -> Z) : Prop := {
  du_value r c : r < nR -> c < nC -> cget (dist_matrix m) (idx r c) = Fin (D0 r c - u r - v c);
  du_nonneg r c : r < nR -> c < nC -> (u r + v c <= D0 r c)%Z;
  du_star r c : r < nR -> c < nC -> mat (star_matrix m) r c = true -> D0 r c = (u r + v c)%Z;
  du_slack : if nR <=? nC then forall c, c < nC -> (v c <= 0)%Z /\ (~ starred_col nR (star_matrix m) c -> v c = 0%Z)
             else forall r, r < nR -> (u r <= 0)%Z /\ (~ starred_row nR nC (star_matrix m) r -> u r = 0%Z)
}.

(** With the primed zeros, and the zero from which step 4 starts. *)
Definition tight (st : Pc * Mem) (u v : nat -> Z) : Prop :=
  dual (snd st) u v /\
  (forall r c, r < nR -> c < nC -> mat (prime_matrix (snd st)) r c = true -> D0 r c = (u r + v c)%Z) /\
  match fst st with Step4 row col => row < nR /\ col < nC /\ D0 row col = (u row + v col)%Z | _ => True end.

Definition good (st : Pc * Mem) : Prop := exists u v, tight st u v.

Lemma dual_same (m m' : Mem) u v :
  dist_matrix m' = dist_matrix m -> star_matrix m' = star_matrix m -> dual m u v -> dual m' u v.
Proof. intros Hd Hs [H1 H2 H3 H4]. split; rewrite ?Hd, ?Hs; done. Qed.

Lemma tight_same pc (m m' : Mem) u v :
  dist_matrix m' = dist_matrix m -> star_matrix m' = star_matrix m -> prime_matrix m' = prime_matrix m ->
  (forall row col, pc <> Step4 row col) -> (exists pc', tight (pc', m) u v) -> tight (pc, m') u v.
Proof.
  intros Hd Hs Hp Hpc (pc' & H1 & H2 & _). split_and!; cbn [fst snd] in *.
  - by apply (dual_same m).
  - by rewrite Hp.
  - destruct pc; try done. by destruct (Hpc row col).
Qed.

Lemma bget_insert_true l k j : bget (<[k := true]> l) j = true -> j = k \/ bget l j = true.
Proof.
  destruct (decide (k < length l)) as [Hl | Hl].
  - rewrite bget_insert by done. case_decide; auto.
  - rewrite list_insert_ge by lia. auto.
Qed.

Lemma bget_insert_false l k j : bget (<[k := false]> l) j = true -> bget l j = true.
Proof.
  destruct (decide (k < length l)) as [Hl | Hl].
  - rewrite bget_insert by done. by case_decide.
  - by rewrite list_insert_ge by lia.
Qed.

Lemma zero_tight (m : Mem) u v row col :
  dual m u v -> row < nR -> col < nC -> is_zero_at nR m row col = true -> D0 row col = (u row + v col)%Z.
Proof.
  intros Hd Hr Hc Hz. unfold is_zero_at in Hz. rewrite (du_value _ _ _ Hd row col Hr Hc) in Hz. cbn in Hz.
  apply Z.eqb_eq in Hz. lia.
Qed.

(** *** Step 3 *)

Lemma step3_tight cols found (m : Mem) u v :
  (forall c, c ∈ cols -> c < nC) -> tight (Step3, m) u v -> tight (step3_pass nR nC cols found m) u v.
Proof.
  revert found m. induction cols as [| col cols IH]; intros found m Hcols (Hd & Hp & _); cbn [step3_pass].
  { by destruct found. }
  assert (forall c, c ∈ cols -> c < nC) as Hcols' by (intros; apply Hcols; by right).
  destruct (bget (covered_cols m) col); [by apply IH |].
  set (f := fun row => negb (bget (covered_rows m) row) && is_zero_at nR m row col).
  destruct (Nat.ltb_spec (find_first f nR) nR) as [Hrow | Hnone]; [| by apply IH].
  pose proof (find_first_lt f nR Hrow) as Hf. set (row := find_first f nR) in *. clearbody row.
  apply andb_prop in Hf as [_ Hz]. pose proof (zero_tight m u v row col Hd Hrow (Hcols col ltac:(left)) Hz) as Ht.
  assert (forall r c, r < nR -> c < nC -> mat (<[idx row col := true]> (prime_matrix m)) r c = true -> D0 r c = (u r + v c)%Z) as Hp'.
  { intros r c Hr Hc [He | Hm]%bget_insert_true; [| by apply Hp]. by apply idx_inj in He as [-> ->]. }
  destruct (_ =? nC); [| apply IH; [done |]]; (split; [by apply (dual_same m) | split; [done |]]); [| done].
  split_and!; [done | apply Hcols; left | done].
Qed.

(** *** Step 4 *)

(** A new star was a star before, or a primed zero. *)
Lemma step4_loop_marks fuel (m : Mem) N r c N' :
  step4_loop nR nC fuel m N r c = Some N' -> forall k, bget N' k = true ->
  bget N k = true \/ exists pr pc, pr < nR /\ pc < nC /\ k = idx pr pc /\ mat (prime_matrix m) pr pc = true.
Proof.
  revert N r c. induction fuel as [| fuel IH]; intros N r c; cbn [step4_loop].
  - destruct (negb _); [| done]. intros [= ->]. auto.
  - destruct (r <? nR) eqn:Er; cbn [negb]; [| intros [= ->]; auto].
    destruct (prime_in_row nR nC m r <? nC) eqn:Ep; [| done]. apply Nat.ltb_lt in Er, Ep.
    intros HN k Hk. destruct (IH _ _ _ HN k Hk) as [H | H]; [| by right].
    apply bget_insert_true in H as [-> | H]; [| left; by eapply bget_insert_false]. right.
    exists r, (prime_in_row nR nC m r). split_and!; [done | done | done |].
    exact (find_first_lt (fun col => mat (prime_matrix m) r col) nC Ep).
Qed.

(** A row with a star keeps one. *)
Lemma step4_loop_rows fuel (m : Mem) N r c N' :
  length N = nR * nC -> step4_loop nR nC fuel m N r c = Some N' ->
  forall x, x < nR -> starred_row nR nC N x -> starred_row nR nC N' x.
Proof.
  revert N r c. induction fuel as [| fuel IH]; intros N r c Hl; cbn [step4_loop].
  - destruct (negb _); [| done]. by intros [= ->].
  - destruct (r <? nR) eqn:Er; cbn [negb]; [| by intros [= ->]].
    destruct (prime_in_row nR nC m r <? nC) eqn:Ep; [| done]. apply Nat.ltb_lt in Er, Ep.
    intros HN x Hx (y & Hy & Hxy). refine (IH _ _ _ _ HN x Hx _); [by rewrite !length_insert |].
    destruct (decide (x = r)) as [-> | Hne].
    + exists (prime_in_row nR nC m r). split; [done |]. unfold HungarianProps.mat. rewrite bget_insert; [by case_decide |].
      rewrite length_insert, Hl. by apply idx_lt.
    + exists y. split; [done |].
      assert (forall z, idx x y <> idx r z) as Hz by (intros z He; apply idx_inj in He as [? _]; done).
      unfold HungarianProps.mat, bget. rewrite !list_lookup_insert_ne by (intros He; by eapply Hz). exact Hxy.
Qed.

Lemma step4_tight (m m' : Mem) row col u v :
  inv nR nC (Step4 row col, m) -> step4 nR nC m row col = Some m' ->
  tight (Step4 row col, m) u v -> tight (Step2a, m') u v.
Proof.
  intros (Hb & _ & Hrow & Hcol & Hno & _ & ord & Hord & Hin) Hs (Hd & Hp & (_ & _ & Ht)). cbn [fst snd] in *.
  pose proof Hb as [_ _ Hls _ _ _ Hm].
  destruct (step4_path nR nC m row col ord) as (N & HN & Hlen & _ & Hkeep & _); try done.
  unfold step4 in Hs. rewrite HN in Hs. injection Hs as <-.
  split; [| split; [| done]]; cbn.
  2: { intros r c Hr Hc Hm'. by rewrite mat_replicate in Hm'. }
  destruct Hd as [H1 H2 H3 H4]. split; cbn; [done | done | |].
  - intros r c Hr Hc Hrc. destruct (step4_loop_marks _ _ _ _ _ _ HN _ Hrc) as [H | (pr & pc & Hpr & Hpc & He & Hpm)].
    + apply bget_insert_true in H as [He | H]; [by apply idx_inj in He as [-> ->] | by apply H3].
    + apply idx_inj in He as [-> ->]; [| done | done]. by apply Hp.
  - destruct (Nat.leb_spec nR nC).
    + intros c Hc. destruct (H4 c Hc) as [Hv Hz]. split; [done |]. intros Hn. apply Hz. intros Hs. by apply Hn, Hkeep.
    + intros r Hr. destruct (H4 r Hr) as [Hu Hz]. split; [done |]. intros Hn. apply Hz. intros (c & Hc & Hrc). apply Hn.
      eapply (step4_loop_rows _ _ _ _ _ _ _ HN r Hr). exists c. split; [done |].
      unfold HungarianProps.mat, bget. destruct (decide (r = row)) as [-> | Hne]; [by exfalso; apply Hno; exists c |].
      rewrite list_lookup_insert_ne; [exact Hrc |]. intros He. apply idx_inj in He as [? _]; done.
      Unshelve. by rewrite length_insert.
Qed.

(** *** Step 5 *)

Lemma smallest_tight (m : Mem) u v :
  inv nR nC (Step5, m) -> dual m u v ->
  exists h, smallest_uncovered nR nC m = Fin h /\ (0 <= h)%Z /\
    forall r c, r < nR -> c < nC -> bget (covered_rows m) r = false -> bget (covered_cols m) c = false -> (u r + v c + h <= D0 r c)%Z.
Proof.
  intros (Hb & Hs & ord & Hc) Hd. pose proof (uncovered_exists nR nC m ord (b_match _ _ _ Hb) Hc Hs) as Hne.
  assert (forall k, k ∈ uncovered nR nC m -> exists z, cget (dist_matrix m) k = Fin z /\ (0 <= z)%Z) as Hfin.
  { intros k (r & c & Hr & Hcl & -> & _)%elem_of_uncovered. rewrite (du_value _ _ _ Hd r c Hr Hcl).
    pose proof (du_nonneg _ _ _ Hd r c Hr Hcl). eexists. split; [done |]. lia. }
  destruct (fold_min (dist_matrix m) (uncovered nR nC m) c_max) as [H1 H2].
  { intros k Hk. destruct (Hfin k Hk) as (z & ? & _). by exists z. }
  fold (smallest_uncovered nR nC m) in H1, H2. destruct H1 as [H1 | (k & Hk & H1)].
  - exfalso. destruct (smallest_is_element (dist_matrix m) (uncovered nR nC m) Hne) as (k & Hk & Hmin).
    { intros k Hk. by destruct (Hfin k Hk) as (z & -> & _). }
    fold (smallest_uncovered nR nC m) in Hmin. destruct (Hfin k Hk) as (z & Hz & _). rewrite H1, Hz in Hmin. done.
  - destruct (Hfin k Hk) as (h & Hh & Hpos). rewrite Hh in H1. exists h. split_and!; [done | done |].
    intros r c Hr Hcl Hcr Hcc. destruct (H2 h H1) as [Hle _].
    specialize (Hle (idx r c) (D0 r c - u r - v c)%Z). rewrite (du_value _ _ _ Hd r c Hr Hcl) in Hle.
    enough (h <= D0 r c - u r - v c)%Z by lia. apply Hle; [| done]. apply elem_of_uncovered. by exists r, c.
Qed.

(** A covered row is starred, as is a covered column; a star is covered once, a prime by its row only. *)
Lemma cover_facts (m : Mem) ord :
  matching nR nC (star_matrix m) -> covers nR nC m ord ->
  (forall r, r < nR -> bget (covered_rows m) r = true -> starred_row nR nC (star_matrix m) r) /\
  (forall c, c < nC -> bget (covered_cols m) c = true -> starred_col nR (star_matrix m) c) /\
  (forall r c, r < nR -> c < nC -> mat (star_matrix m) r c = true -> bget (covered_cols m) c = negb (bget (covered_rows m) r)) /\
  (forall r c, r < nR -> c < nC -> mat (prime_matrix m) r c = true -> bget (covered_rows m) r = true /\ bget (covered_cols m) c = false).
Proof.
  intros [_ Hmc] [Ho Hr Hp Hc]. split_and!.
  - intros r Hlt Hcr. apply Hr in Hcr; [| done]. apply list_elem_of_split in Hcr as (l1 & l2 & ->). apply ordered_split in Ho. apply Ho.
  - intros c Hlt Hcc. apply Hc in Hcc as (r & ? & ? & _); [| done]. by exists r.
  - intros r c Hlt Hltc Hrc. destruct (bget (covered_rows m) r) eqn:Er; cbn.
    + destruct (bget (covered_cols m) c) eqn:Ec; [| done]. apply Hc in Ec as (r' & Hr' & Hrc' & Hn); [| done].
      assert (r' = r) as -> by (by apply (Hmc r' r c)). congruence.
    + apply Hc; [done |]. by exists r.
  - intros r c Hlt Hltc Hrc. pose proof (Hp r c Hlt Hltc Hrc) as Hin. split; [by apply Hr |].
    destruct (bget (covered_cols m) c) eqn:Ec; [| done]. apply Hc in Ec as (r' & Hr' & Hrc' & Hn); [| done].
    apply list_elem_of_split in Hin as (l1 & older & ->). apply ordered_split in Ho as (_ & _ & _ & _ & Hcov & _).
    pose proof (Hcov c r' Hltc Hr' Hrc Hrc') as Ho'. assert (bget (covered_rows m) r' = true); [| congruence].
    apply Hr; [done |]. apply elem_of_app. right. by right.
Qed.

Lemma step5_value (m : Mem) u v h r c :
  smallest_uncovered nR nC m = Fin h -> base nR nC m -> dual m u v -> r < nR -> c < nC ->
  cget (dist_matrix (step5 nR nC m)) (idx r c) =
    Fin (D0 r c - u r - v c + (if bget (covered_rows m) r then h else 0) - (if bget (covered_cols m) c then 0 else h)).
Proof.
  intros Hh Hb Hd Hr Hc. pose proof (du_value _ _ _ Hd r c Hr Hc) as Hv. unfold cget in *. rewrite step5_lookup, Hh by done.
  destruct (lookup_lt_is_Some_2 (dist_matrix m) (idx r c)) as [x Hx].
  { rewrite (b_dist _ _ _ Hb). by apply idx_lt. }
  rewrite Hx in Hv |- *. cbn in Hv. subst x. destruct (bget (covered_rows m) r), (bget (covered_cols m) c); cbn; f_equal; lia.
Qed.

Lemma step5_good (m : Mem) : inv nR nC (Step5, m) -> good (Step5, m) -> good (Step3, step5 nR nC m).
Proof.
  intros Hinv (u & v & Hd & Hp & _). cbn [fst snd] in *. destruct (smallest_tight m u v Hinv Hd) as (h & Hh & Hpos & Hmin).
  destruct Hinv as (Hb & _ & ord & Hcov). destruct (cover_facts m ord (b_match _ _ _ Hb) Hcov) as (Fr & Fc & Fs & Fp).
  pose proof (step5_value m u v h) as Hval. set (cr := fun r => bget (covered_rows m) r) in *. set (cc := fun c => bget (covered_cols m) c) in *.
  set (u' := fun r => (u r + (if (nR <=? nC)%nat then (if cr r then 0 else h) else (if cr r then - h else 0)))%Z).
  set (v' := fun c => (v c + (if (nR <=? nC)%nat then (if cc c then - h else 0) else (if cc c then 0 else h)))%Z).
  assert (forall r c, (u' r + v' c = u r + v c - (if cr r then h else 0) + (if cc c then 0 else h))%Z) as Huv.
  { intros r c. unfold u', v'. destruct (nR <=? nC), (cr r), (cc c); lia. }
  assert (forall r c, r < nR -> c < nC -> D0 r c = (u r + v c)%Z -> (cr r = true -> cc c = false) -> (cr r = false -> cc c = true) ->
            D0 r c = (u' r + v' c)%Z) as Hkeep.
  { intros r c Hr Hc He H1 H2. rewrite Huv, He. destruct (cr r); [rewrite H1 by done | rewrite H2 by done]; lia. }
  exists u', v'. split; [split | split; [| done]]; cbn [fst snd].
  - intros r c Hr Hc. rewrite Hval by done. specialize (Huv r c). f_equal. lia.
  - intros r c Hr Hc. rewrite Huv. pose proof (du_nonneg _ _ _ Hd r c Hr Hc) as H1. specialize (Hmin r c Hr Hc).
    fold (cr r) (cc c) in Hmin. destruct (cr r), (cc c); lia.
  - intros r c Hr Hc Hs. change (star_matrix (step5 nR nC m)) with (star_matrix m) in Hs.
    pose proof (Fs r c Hr Hc Hs) as Hx. fold (cr r) (cc c) in Hx.
    apply Hkeep; [done | done | by apply (du_star _ _ _ Hd) | |]; intros E; by rewrite Hx, E.
  - change (star_matrix (step5 nR nC m)) with (star_matrix m). pose proof (du_slack _ _ _ Hd) as Hsl. unfold u', v'.
    destruct (nR <=? nC).
    + intros c Hc. destruct (Hsl c Hc) as [H1 H2]. specialize (Fc c Hc). fold (cc c) in Fc.
      destruct (cc c); (split; [lia |]); intros Hn; [by destruct Hn; apply Fc | rewrite H2 by done; lia].
    + intros r Hr. destruct (Hsl r Hr) as [H1 H2]. specialize (Fr r Hr). fold (cr r) in Fr.
      destruct (cr r); (split; [lia |]); intros Hn; [by destruct Hn; apply Fr | rewrite H2 by done; lia].
  - intros r c Hr Hc Hpm. change (prime_matrix (step5 nR nC m)) with (prime_matrix m) in Hpm.
    destruct (Fp r c Hr Hc Hpm) as [H1 H2]. apply Hkeep; [done | done | by apply Hp | done |]. fold (cr r) in H1. congruence.
Qed.

(** *** The machine *)

Lemma step_good st st' : inv nR nC st -> good st -> step nR nC st = Some st' -> good st'.
Proof.
  destruct st as [pc m]. intros Hinv Hg Hs. destruct pc as [| | | row col | |]; cbn [step] in Hs.
  - injection Hs as <-. destruct Hg as (u & v & Ht). exists u, v. eapply (tight_same _ m); [done.. |]. by exists Step2a.
  - injection Hs as <-. destruct Hg as (u & v & Ht). exists u, v. unfold step2b.
    destruct (_ =? _); eapply (tight_same _ m); try done; by exists Step2b.
  - injection Hs as <-. destruct Hg as (u & v & Ht). exists u, v. apply step3_tight; [| done]. intros c Hc%elem_of_seq. lia.
  - destruct (step4 nR nC m row col) as [m' |] eqn:E; [| done]. injection Hs as <-. destruct Hg as (u & v & Ht).
    exists u, v. by eapply step4_tight.
  - injection Hs as <-. by apply step5_good.
  - by injection Hs as <-.
Qed.

Lemma run_good n st st' : inv nR nC st -> good st -> run nR nC n st = Some st' -> good st'.
Proof.
  revert st. induction n as [| n IH]; intros st Hinv Hg; cbn [run]; [by intros [= <-] |].
  destruct (machine_step nR nC st Hinv) as (st1 & Hs & Hinv1 & _). rewrite Hs. apply (IH st1 Hinv1). exact (step_good st st1 Hinv Hg Hs).
Qed.

Lemma good_finite pc (m : Mem) : base nR nC m -> good (pc, m) -> all_fin nR nC m.
Proof.
  intros Hb (u & v & Hd & _) k Hk. assert (0 < nR) by nia.
  pose proof (Nat.div_mod_eq k nR) as He. pose proof (Nat.mod_upper_bound k nR ltac:(lia)) as Hr.
  assert (k / nR < nC) as Hc by (apply Nat.Div0.div_lt_upper_bound; lia).
  assert (k = idx (k mod nR) (k / nR)) as Hki by (unfold Hungarian.idx; lia). clear He.
  rewrite Hki. cbn [snd] in Hd. by rewrite (du_value _ _ _ Hd _ _ Hr Hc).
Qed.

(** *** The preliminary steps *)

Lemma reduce_line_spec (d : list cost) ks (val : nat -> Z) :
  NoDup ks -> (forall k, k < length d -> cget d k = Fin (val k)) -> (forall k, k ∈ ks -> k < length d) ->
  exists mu, (forall k, k ∈ ks -> cget (reduce_line d ks) k = Fin (val k - mu) /\ (mu <= val k)%Z) /\
    (forall k, k < length d -> k ∉ ks -> cget (reduce_line d ks) k = Fin (val k)).
Proof.
  intros Hnd Hval Hks.
  assert (exists mu, min_over d ks = Fin mu /\ forall k, k ∈ ks -> (mu <= val k)%Z) as (mu & Hmu & Hle).
  { destruct ks as [| k0 ks]; [exists 0%Z; split; [done | by intros k ?%elem_of_nil] |]. cbn [min_over].
    assert (forall k, k ∈ k0 :: ks -> exists z, cget d k = Fin z) as Hfin by (intros k Hk; exists (val k); by apply Hval, Hks).
    destruct (fold_min d ks (cget d k0)) as [H1 H2]; [intros k Hk; apply Hfin; by right |].
    set (h := foldl _ _ _) in *.
    assert (exists z, h = Fin z) as [z Hz].
    { destruct H1 as [-> | (k & Hk & ->)]; apply Hfin; [left | by right]. }
    exists z. split; [done |]. destruct (H2 z Hz) as [H3 H4]. intros k [-> | Hk]%elem_of_cons.
    - apply H4. by apply Hval, Hks; left.
    - apply (H3 k); [done |]. by apply Hval, Hks; right. }
  exists mu. unfold reduce_line. rewrite Hmu. split.
  - intros k Hk. split; [| by apply Hle]. specialize (Hks k Hk). specialize (Hval k Hks). unfold cget in *.
    rewrite map_at_in by done. destruct (lookup_lt_is_Some_2 d k Hks) as [x Hx]. rewrite Hx in *. cbn in *. by subst x.
  - intros k Hk Hn. unfold cget. rewrite map_at_notin by done. by apply Hval.
Qed.

Lemma reduce_lines (L : nat -> list nat) xs (d : list cost) (val : nat -> Z) :
  NoDup xs -> (forall k, k < length d -> cget d k = Fin (val k)) ->
  (forall x, x ∈ xs -> NoDup (L x) /\ forall k, k ∈ L x -> k < length d) ->
  (forall x y k, x ∈ xs -> y ∈ xs -> k ∈ L x -> k ∈ L y -> x = y) ->
  let d' := foldl (fun d x => reduce_line d (L x)) d xs in
  exists pot : nat -> Z,
    (forall x k, x ∈ xs -> k ∈ L x -> cget d' k = Fin (val k - pot x) /\ (pot x <= val k)%Z) /\
    (forall k, k < length d -> (forall x, x ∈ xs -> k ∉ L x) -> cget d' k = Fin (val k)).
Proof.
  revert d val. induction xs as [| x xs IH]; intros d val Hnd Hval HL Hdisj; cbn [foldl].
  { exists (fun _ => 0%Z). split; [by intros x k ?%elem_of_nil | intros k Hk _; by apply Hval]. }
  apply NoDup_cons in Hnd as [Hx Hnd]. destruct (HL x ltac:(left)) as [HLn HLb].
  destruct (reduce_line_spec d (L x) val HLn Hval HLb) as (mu & Hin & Hout).
  assert (length (reduce_line d (L x)) = length d) as Hlen by apply map_at_length.
  destruct (IH (reduce_line d (L x)) (fun k => if decide (k ∈ L x) then val k - mu else val k)%Z Hnd) as (pot & H1 & H2).
  { intros k Hk. rewrite Hlen in Hk. case_decide; [by apply Hin | by apply Hout]. }
  { intros y Hy. rewrite Hlen. apply HL. by right. }
  { intros y z k Hy Hz. apply Hdisj; by right. }
  exists (fun y => if decide (y = x) then mu else pot y). split.
  - intros y k Hy Hk. destruct (decide (y = x)) as [-> | Hne].
    + rewrite H2; [| rewrite Hlen; by apply HLb |]. { rewrite decide_True by done. split; [done | by apply Hin]. }
      intros z Hz Hkz. assert (z = x) as -> by (apply (Hdisj z x k); [by right | left | done | done]). done.
    + apply elem_of_cons in Hy as [| Hy]; [done |]. destruct (H1 y k Hy Hk) as [H3 H4].
      assert (k ∉ L x) as Hn by (intros Hkx; apply Hne, (Hdisj y x k); [by right | left | done | done]).
      by rewrite decide_False in H3, H4.
  - intros k Hk Hn. rewrite H2.
    + rewrite decide_False; [done |]. apply Hn. left.
    + by rewrite Hlen.
    + intros y Hy. apply Hn. by right.
Qed.

Lemma star_dual (m : Mem) u v row col cc cr :
  dual m u v -> row < nR -> col < nC -> is_zero_at nR m row col = true ->
  dual (set_covers (set_stars m (<[idx row col := true]> (star_matrix m)) (new_star_matrix m) (prime_matrix m)) cc cr) u v.
Proof.
  intros Hd Hr Hc Hz. pose proof (zero_tight m u v row col Hd Hr Hc Hz) as Ht.
  assert (forall r c, mat (star_matrix m) r c = true -> mat (<[idx row col := true]> (star_matrix m)) r c = true) as Hmono.
  { intros r c Hrc. unfold HungarianProps.mat, bget in *. destruct (decide (idx row col = idx r c)) as [-> | Hne].
    - destruct (decide (idx r c < length (star_matrix m))) as [Hl | Hl]; [by rewrite list_lookup_insert_eq | by rewrite list_insert_ge by lia].
    - by rewrite list_lookup_insert_ne. }
  destruct Hd as [H1 H2 H3 H4]. split; cbn; [done | done | |].
  - intros r c Hr' Hc' [He | Hm]%bget_insert_true; [by apply idx_inj in He as [-> ->] | by apply H3].
  - destruct (nR <=? nC).
    + intros c Hc'. destruct (H4 c Hc') as [Hv Hz']. split; [done |]. intros Hn. apply Hz'. intros (r & ? & ?). apply Hn. exists r. auto.
    + intros r Hr'. destruct (H4 r Hr') as [Hv Hz']. split; [done |]. intros Hn. apply Hz'. intros (c & ? & ?). apply Hn. exists c. auto.
Qed.

Lemma star_rows_dual rows (m : Mem) u v : Forall (fun r => r < nR) rows -> dual m u v -> dual (foldl (star_row nR nC) m rows) u v.
Proof.
  intros Hrows. revert m. induction Hrows as [| row rows Hr _ IH]; intros m Hd; cbn [foldl]; [done |]. apply IH. unfold star_row.
  set (f := fun col => is_zero_at nR m row col && negb (bget (covered_cols m) col)).
  destruct (Nat.ltb_spec (find_first f nC) nC) as [Hlt | _]; [| done].
  pose proof (find_first_lt f nC Hlt) as [Hz _]%andb_prop. by apply star_dual.
Qed.

Lemma star_cols_dual cols (m : Mem) u v : Forall (fun c => c < nC) cols -> dual m u v -> dual (foldl (star_col nR) m cols) u v.
Proof.
  intros Hcols. revert m. induction Hcols as [| col cols Hc _ IH]; intros m Hd; cbn [foldl]; [done |]. apply IH. unfold star_col.
  set (f := fun row => is_zero_at nR m row col && negb (bget (covered_rows m) row)).
  destruct (Nat.ltb_spec (find_first f nR) nR) as [Hlt | _]; [| done].
  pose proof (find_first_lt f nR Hlt) as [Hz _]%andb_prop. by apply star_dual.
Qed.

Lemma dual_initial (d d' : list cost) u v :
  (forall r c, r < nR -> c < nC -> cget d' (idx r c) = Fin (D0 r c - u r - v c) /\ (u r + v c <= D0 r c)%Z) ->
  (if nR <=? nC then forall c, v c = 0%Z else forall r, u r = 0%Z) ->
  dual (set_dist (initial_memory nR nC d) d') u v.
Proof.
  intros Hv Hs. split; cbn.
  - intros r c Hr Hc. by apply Hv.
  - intros r c Hr Hc. by apply Hv.
  - intros r c _ _ H. by apply no_stars in H.
  - destruct (nR <=? nC); intros x _; rewrite Hs; done.
Qed.

Lemma preliminary_good (d : list cost) :
  0 < nR -> length d = nR * nC -> (forall r c, r < nR -> c < nC -> cget d (idx r c) = Fin (D0 r c)) ->
  good (Step2b, preliminary nR nC d).
Proof.
  intros HR Hl Hd. pose proof (preliminary_inv nR nC d Hl) as (_ & [_ Hclean] & _).
  assert (forall r, r < nR -> forall c, idx r c mod nR = r /\ idx r c / nR = c) as Hidx.
  { intros r Hr c. unfold Hungarian.idx. rewrite (Nat.mul_comm nR c). split.
    - rewrite Nat.Div0.mod_add. by apply Nat.mod_small.
    - rewrite Nat.div_add by lia. by rewrite Nat.div_small. }
  assert (forall k, k < length d -> cget d k = Fin (D0 (k mod nR) (k / nR))) as Hval.
  { intros k Hk. pose proof (Nat.div_mod_eq k nR) as He. pose proof (Nat.mod_upper_bound k nR ltac:(lia)) as Hr.
    rewrite <- Hd; [| done | apply Nat.Div0.div_lt_upper_bound; lia]. f_equal. unfold Hungarian.idx. lia. }
  assert (exists u v, dual (preliminary nR nC d) u v) as (u & v & Hdual).
  { unfold preliminary. destruct (Nat.leb_spec nR nC) as [Hle | Hlt].
    - destruct (reduce_lines (row_idx nR nC) (seq 0 nR) d _ (NoDup_seq 0 nR) Hval) as (pot & H1 & _).
      { intros r Hr%elem_of_seq. split; [apply NoDup_row_idx; lia |]. intros k (c & Hc & ->)%elem_of_row_idx. rewrite Hl. apply idx_lt; lia. }
      { intros x y k Hx%elem_of_seq Hy%elem_of_seq (c & _ & ->)%elem_of_row_idx (c' & _ & He)%elem_of_row_idx. apply idx_inj in He; lia. }
      exists pot, (fun _ => 0%Z). apply star_rows_dual; [apply seq_bound |]. apply dual_initial; [| by rewrite (proj2 (Nat.leb_le _ _) Hle)].
      intros r c Hr Hc. destruct (H1 r (idx r c)) as [H2 H3]; [apply elem_of_seq; lia | apply elem_of_row_idx; by exists c |].
      destruct (Hidx r Hr c) as [E1 E2]. rewrite E1, E2 in H2, H3. cbn [dist_matrix initial_memory]. rewrite H2. split; [f_equal; lia | lia].
    - destruct (reduce_lines (col_idx nR) (seq 0 nC) d _ (NoDup_seq 0 nC) Hval) as (pot & H1 & _).
      { intros c Hc%elem_of_seq. split; [apply NoDup_col_idx |]. intros k (r & Hr & ->)%elem_of_col_idx. rewrite Hl. apply idx_lt; lia. }
      { intros x y k _ _ (r & Hr & ->)%elem_of_col_idx (r' & Hr' & He)%elem_of_col_idx. apply idx_inj in He; lia. }
      exists (fun _ => 0%Z), pot.
      match goal with |- dual (set_covers ?m _ _) _ _ => apply (dual_same m); [done | done |] end.
      apply star_cols_dual; [apply seq_bound |]. apply dual_initial; [| by rewrite (proj2 (Nat.leb_gt _ _) Hlt)].
      intros r c Hr Hc. destruct (H1 c (idx r c)) as [H2 H3]; [apply elem_of_seq; lia | apply elem_of_col_idx; by exists r |].
      destruct (Hidx r Hr c) as [E1 E2]. rewrite E1, E2 in H2, H3. cbn [dist_matrix initial_memory]. rewrite H2. split; [f_equal; lia | lia]. }
  exists u, v. split; [done | split; [| done]]. intros r c Hr Hc Hp. cbn in Hp. by rewrite Hclean in Hp.
Qed.

End Optimal.

(** ** The solver *)

Lemma transpose_lookup nR nC (D : list (list cost)) r c :
  r < nR -> c < nC -> cget (transpose_flat nR nC D) (idx nR r c) = cget (default [] (D !! r)) c.
Proof.
  intros Hr. induction nC as [| nC IH]; intros Hc; [lia |]. unfold transpose_flat. rewrite seq_S, flat_map_app.
  fold (transpose_flat nR nC D). pose proof (transpose_length nR nC D) as Hl. unfold cget at 1. destruct (decide (c < nC)) as [Hlt | Hge].
  - rewrite lookup_app_l by (rewrite Hl; by apply idx_lt). by apply IH.
  - assert (c = nC) as -> by lia. rewrite lookup_app_r by (rewrite Hl; unfold idx; lia). rewrite Hl. cbn [flat_map].
    rewrite app_nil_r. replace (idx nR r nC - nR * nC) with r by (unfold idx; lia). cbn.
    rewrite list_lookup_fmap, lookup_seq_lt by done. done.
Qed.

Lemma element_fin (D : list (list Z)) r c : cget (default [] (map (map Fin) D !! r)) c = Fin (element D r c).
Proof.
  unfold cget, element. rewrite list_lookup_fmap. destruct (D !! r) as [line |]; cbn; [| by destruct c].
  rewrite list_lookup_fmap. by destruct (line !! c).
Qed.

(** A finished run whose working matrix has potentials. *)
Lemma finished_optimal (D : list (list Z)) nR nC (m : Memory (C := cost)) :
  inv nR nC (Done, m) -> good nR nC (element D) (Done, m) ->
  maximal_assignment nR nC (assignment m) /\
  forall b, maximal_assignment nR nC b -> (total_cost D (assignment m) <= total_cost D b)%Z.
Proof.
  intros (Hm & Hs & Ha) (u & v & Hd & _). cbn [snd] in Hd.
  assert (maximal_assignment nR nC (assignment m)) as Hmax.
  { destruct (assigned_spec nR nC _ _ Hm Hs Ha) as (H1 & H2 & H3 & H4 & H5). by split. }
  destruct Ha as [Hl Ha]. split; [done |]. intros b Hb.
  rewrite (bound_reached D nR nC u v _ Hmax).
  - apply (lower_bound D nR nC u v b Hb); [intros r c; apply (du_nonneg _ _ _ _ _ _ Hd) |].
    pose proof (du_slack _ _ _ _ _ _ Hd) as Hsl. destruct (nR <=? nC); intros x Hx; by apply Hsl.
  - intros r c Hrc. assert (r < nR) as Hr by (rewrite <- Hl; by eapply lookup_lt_Some). rewrite Ha in Hrc by done.
    injection Hrc as Hrc. destruct (Nat.ltb_spec (star_col_of nR nC (star_matrix m) r) nC) as [Hlt | _]; [| lia].
    assert (star_col_of nR nC (star_matrix m) r = c) as <- by lia.
    apply (du_star _ _ _ _ _ _ Hd); [done | done |].
    exact (find_first_lt (fun c => mat nR (star_matrix m) r c) nC Hlt).
  - assert (forall r c, r < nR -> c < nC -> mat nR (star_matrix m) r c = true -> assignment m !! r = Some (Z.of_nat c)) as Hstar.
    { intros r c Hr Hc Hrc. rewrite Ha by done. destruct (star_col_of_spec nR nC (star_matrix m) r) as [H1 H2]; [by exists c |].
      rewrite (proj2 (Nat.ltb_lt _ _) H1). do 2 f_equal. by apply (proj1 Hm r). }
    pose proof (du_slack _ _ _ _ _ _ Hd) as Hsl. destruct (nR <=? nC).
    + intros c Hc Hn. apply Hsl; [done |]. intros (r & Hr & Hrc). apply Hn. eapply list_elem_of_lookup_2. by apply Hstar.
    + intros r Hr Hn. apply Hsl; [done |]. intros (c & Hc & Hrc). rewrite (Hstar r c Hr Hc Hrc) in Hn. injection Hn. lia.
Qed.

(** C5: on numbers without rounding the solver is optimal.  For any rectangular matrix of
    integers that fits the memory unit, negative ones included, [Solve] returns an
    assignment of maximal size, and no other assignment of maximal size has a
    smaller total cost. *)
Theorem solver_optimal max (D : list (list Z)) :
  let nR := length D in let nC := length (default [] (head D)) in
  rectangular D -> D <> [] -> nR <= max -> nC <= max ->
  exists a, Solve max (map (map Fin) D) = Some a /\ maximal_assignment nR nC a /\
    forall b, maximal_assignment nR nC b -> (total_cost D a <= total_cost D b)%Z.
Proof.
  intros nR nC _ Hne HR HC. set (D' := map (map Fin) D).
  assert (length D' = nR) as HR' by apply length_map.
  assert (length (default [] (head D')) = nC) as HC' by (destruct D as [| line D]; [done | cbn; apply length_map]).
  pose proof (initial_inv D') as Hinv. rewrite HR', HC' in Hinv.
  assert (good nR nC (element D) (initial_state D')) as Hgood.
  { unfold initial_state. rewrite HR', HC'. apply preliminary_good.
    - subst nR. destruct D; cbn; [done | lia].
    - apply transpose_length.
    - intros r c Hr Hc. rewrite transpose_lookup by done. apply element_fin. }
  destruct (run_terminates nR nC (FUEL nR nC) (initial_state D') Hinv) as [[m Hm] | (k & m & _ & Hk & Hf)].
  - unfold initial_state. rewrite HR', HC'. apply measure_initial. unfold initial_state in Hinv. by rewrite HR', HC' in Hinv.
  - destruct (run_inv nR nC (FUEL nR nC) _ Hinv) as (st & Hst & Hinv'). rewrite Hm in Hst. injection Hst as <-.
    pose proof (run_good nR nC _ _ _ _ Hinv Hgood Hm) as Hg.
    exists (assignment m). split; [| by apply finished_optimal].
    unfold Solve. destruct D' as [| line D''] eqn:E; [by destruct D |]. change (length line = nC) in HC'. rewrite HR', HC'.
    rewrite (proj2 (Nat.leb_le _ _) HR), (proj2 (Nat.leb_le _ _) HC). cbn [andb]. unfold AssignmentOptimal.
    unfold initial_state in Hm. change (length (default [] (head (line :: D'')))) with (length line) in Hm.
    rewrite HR', HC' in Hm. by rewrite Hm.
  - exfalso. destruct (run_inv nR nC k _ Hinv) as (st & Hst & Hb). rewrite Hk in Hst. injection Hst as <-.
    apply Hf. apply (good_finite nR nC (element D) Step5); [apply Hb | exact (run_good nR nC _ _ _ _ Hinv Hgood Hk)].
Qed.

(** Two tracks and three detections; the cheapest pair of the first row is not taken. *)
Definition demo_costs : list (list Z) := [[1; 2; 9]; [1; 7; 8]]%Z.

Lemma solver_optimal_witness :
  exists a, Solve 10 (map (map Fin) demo_costs) = Some a /\ total_cost demo_costs a = 3%Z /\
    forall b, maximal_assignment 2 3 b -> (3 <= total_cost demo_costs b)%Z.
Proof.
  destruct (solver_optimal 10 demo_costs) as (a & Ha & _ & Hb).
  - repeat constructor.
  - discriminate.
  - cbn. lia.
  - cbn. lia.
  - exists a. split; [exact Ha |]. vm_compute in Ha. injection Ha as <-. split; [vm_compute; reflexivity | exact Hb].
Defined.
