(* ===== verification/Kalman.v ===== *)
(** * One tracked object

    [Tracker/SORT/MgenKalman.h] and [.cpp]: the life cycle of a tracker around
    [cv::KalmanFilter].  What the code uses of OpenCV is the class [OpenCV]; its
    laws are not needed by any theorem, so none is assumed. *)

From Stdlib Require Import SpecFloat.
From S2P Require Import Prelude Float32 InferObject.
Open Scope Z_scope.
Open Scope list_scope.

(** [cv::Rect_<float>]. *)
Record StateXYWH := mkState { st_x : f32; st_y : f32; st_w : f32; st_h : f32 }.

(** The first four rows of a state or of a measurement: cx, cy, s, r. *)
Record XYSR := mkXYSR { cx_ : f32; cy_ : f32; s_ : f32; r_ : f32 }.

(** [cv::KalmanFilter] and the operators of [cv::Rect_]. *)
Class OpenCV (K : Type) := {
  kf_make : list (list Z) -> f64 -> f64 -> f64 -> XYSR -> K;
  kf_predict : K -> XYSR * K;
  kf_correct : K -> XYSR -> K;
  kf_statePost : K -> XYSR;
  rect_area : StateXYWH -> f32;
  rect_and : StateXYWH -> StateXYWH -> StateXYWH;
  rect_or : StateXYWH -> StateXYWH -> StateXYWH
}.

Definition PAD_ZERO : f32 := f32_lit 1 100000.
Definition NEAR_ZERO_PIXEL : f32 := f32_lit 1 100.

Definition pixelize (v : f32) : f32 :=
  if flt DBL_EPSILON (f64_of_f32 (SFabs v)) then f32_floor (f32_add v PAD_ZERO) else f0.

(** [get_StateXYWH( obj, src_style, dst_style )]; a failed conversion leaves the
    object as it is. *)
Definition state_of_object (obj : InferObject) (src_style dst_style : ImageExpressStyle) : StateXYWH :=
  let '(_, infer_object) := ConvertInferObjectCoordinate obj src_style dst_style in
  let b := bbox infer_object in
  if bool_decide (xy_ref_type infer_object = ltx_type) then mkState (bb_x b) (bb_y b) (bb_w b) (bb_h b)
  else mkState (f32_sub (bb_x b) (f32_div (bb_w b) f2)) (f32_sub (bb_y b) (f32_div (bb_h b) f2))
         (bb_w b) (bb_h b).

(** [get_StateXYWH( cx, cy, s, r )]: the left-top point falls back to a small
    positive value when it is negative in [float] but positive in [double]. *)
Definition near_zero (center x size : f32) : f32 :=
  if flt x f0 && flt (f64_of_Z 0) (f64_sub (f64_of_f32 center) (f64_div (f64_of_f32 size) (f64_of_Z 2)))
  then NEAR_ZERO_PIXEL else x.

Definition state_of_xysr (v : XYSR) : StateXYWH :=
  let w := f32_sqrt (f32_mul (s_ v) (r_ v)) in
  let h := if flt (f64_of_f32 w) DBL_EPSILON then s_ v else f32_div (s_ v) w in
  let x := f32_sub (cx_ v) (f32_div w f2) in
  let y := f32_sub (cy_ v) (f32_div h f2) in
  mkState (near_zero (cx_ v) x w) (near_zero (cy_ v) y h) w h.

Definition transitionMatrix : list (list Z) :=
  [[1; 0; 0; 0; 1; 0; 0];
   [0; 1; 0; 0; 0; 1; 0];
   [0; 0; 1; 0; 0; 0; 1];
   [0; 0; 0; 1; 0; 0; 0];
   [0; 0; 0; 0; 1; 0; 0];
   [0; 0; 0; 0; 0; 1; 0];
   [0; 0; 0; 0; 0; 0; 1]].

Section Kalman.
Context {K : Type} `{!OpenCV K}.

Record MgenKalmanTracker := mkTracker {
  tk_track_id : Z;
  tk_class_id : Z;
  tk_engine_id : Z;
  track_in_style : ImageExpressStyle;
  track_out_style : ImageExpressStyle;
  last_update_score : f32;
  time_since_update : Z;   (* unsigned int *)
  hits : Z;                (* unsigned int *)
  hit_streak : Z;          (* unsigned int *)
  age : Z;                 (* unsigned int *)
  kf : K
}.

(** The state or measurement of a box. *)
Definition xysr_of_state (st : StateXYWH) : XYSR :=
  mkXYSR (f32_add (st_x st) (f32_div (st_w st) f2)) (f32_add (st_y st) (f32_div (st_h st) f2))
    (rect_area st) (f32_div (st_w st) (st_h st)).

Definition InitKf (stateMat : StateXYWH) : K :=
  kf_make transitionMatrix (f64_lit 1 100) (f64_lit 1 10) (f64_of_Z 1) (xysr_of_state stateMat).

(** [uuid] is an [unsigned int] passed as an [int]. *)
Definition MgenKalmanTracker_make (uuid : Z) (init_object : InferObject)
    (in_style out_style : ImageExpressStyle) : MgenKalmanTracker :=
  mkTracker (i32 uuid) (class_id init_object) (infer_engine_id init_object) in_style out_style
    (score init_object) 0 0 0 0 (InitKf (state_of_object init_object in_style out_style)).

Definition predict (t : MgenKalmanTracker) : StateXYWH * MgenKalmanTracker :=
  let '(p, kf') := kf_predict (kf t) in
  (state_of_xysr p,
   mkTracker (tk_track_id t) (tk_class_id t) (tk_engine_id t) (track_in_style t) (track_out_style t)
     (last_update_score t) (u32 (time_since_update t + 1)) (hits t)
     (if 0 <? time_since_update t then 0 else hit_streak t) (u32 (age t + 1)) kf').

Definition update (t : MgenKalmanTracker) (object : InferObject) : MgenKalmanTracker :=
  if negb (tk_class_id t =? class_id object) then t
  else
    let stateMat := state_of_object object (track_in_style t) (track_out_style t) in
    mkTracker (tk_track_id t) (tk_class_id t) (tk_engine_id t) (track_in_style t) (track_out_style t)
      (score object) 0 (u32 (hits t + 1)) (u32 (hit_streak t + 1)) (age t)
      (kf_correct (kf t) (xysr_of_state stateMat)).

Definition is_over_age (t : MgenKalmanTracker) (max_age : Z) : bool := max_age <? time_since_update t.

Definition is_detected_track_object (t : MgenKalmanTracker) (min_hits init_threshold : Z) : bool :=
  (time_since_update t <? 1) && ((min_hits <=? hit_streak t) || (init_threshold <=? min_hits)).

Definition at_least_zero (v : f32) : f32 := if flt v f0 then f0 else v.

Definition get_predict_track_object (t : MgenKalmanTracker) : InferObject :=
  let state := state_of_xysr (kf_statePost (kf t)) in
  let object :=
    mkInferObject (tk_engine_id t) (tk_class_id t) (tk_track_id t) (last_update_score t)
      (mkBBox (at_least_zero (pixelize (st_x state))) (at_least_zero (pixelize (st_y state)))
         (at_least_zero (pixelize (st_w state))) (at_least_zero (pixelize (st_h state))))
      ltx_type pixel_int [] in
  let out := track_out_style t in
  if bool_decide (ltx_type <> ref_type out) || bool_decide (pixel_int <> format out) then
    let predict_style :=
      mkStyle (width out) (height out) pixel_int ltx_type (is_padded_or_scaled out)
        (scale_factor_from_original out) (pad_x_offset out) (pad_y_offset out)
        (original_width out) (original_height out) in
    snd (ConvertInferObjectCoordinate object predict_style out)
  else object.

(** ** Lemmas *)

Lemma convert_track_id o src dst :
  track_id (snd (ConvertInferObjectCoordinate o src dst)) = track_id o /\
  class_id (snd (ConvertInferObjectCoordinate o src dst)) = class_id o.
Proof.
  unfold ConvertInferObjectCoordinate. case_if; [done |].
  destruct (ConvertToIntermediateRatioLtx _ _ _ _ _); [| done].
  by destruct (ConvertFromIntermediateRatioLtx _ _).
Qed.

Lemma predicted_object_ids t :
  track_id (get_predict_track_object t) = tk_track_id t /\
  class_id (get_predict_track_object t) = tk_class_id t.
Proof. unfold get_predict_track_object. case_if; [apply convert_track_id | done]. Qed.

Lemma predict_same t :
  tk_track_id (snd (predict t)) = tk_track_id t /\ tk_class_id (snd (predict t)) = tk_class_id t.
Proof. unfold predict. by destruct (kf_predict (kf t)). Qed.

Lemma update_same t o :
  tk_track_id (update t o) = tk_track_id t /\ tk_class_id (update t o) = tk_class_id t.
Proof. unfold update. by case_if. Qed.
End Kalman.

Arguments MgenKalmanTracker : clear implicits.
