(* ===== verification/Sort.v ===== *)
(** * The SORT tracker

    [Tracker/SORT/SORTTracker.h] and [.cpp]: one call of [TrackObjects] on the
    tracker's state.  The mutex only serialises calls.  Besides [std::nullopt]
    the model has an outcome for a call that does not return
    ([solver_terminates] says when that is). *)

From Stdlib Require Import SpecFloat.
From stdpp Require Import gmap sorting.
From S2P Require Import Prelude Float32 InferObject Hungarian Kalman.
Open Scope Z_scope.
Open Scope list_scope.

Definition SORT_TRACKING_MAX_NUM : nat := 200.
Definition SORT_TRACKER_DEFAULT_MAX_AGE : Z := 10.
Definition SORT_TRACKER_DEFAULT_MIN_HIT : Z := 3.
(** [0.7f] stored as a [double]. *)
Definition SORT_TRACKER_IOU_THRESHOLD : f64 := f64_of_f32 (f32_lit 7 10).
Definition TRACK_ID_CYCLE_THRESHOLD : Z := 2000000000.

Section Sort.
Context {K : Type} `{!OpenCV K}.

Record SORTTracker := mkSort {
  track_in_style_ : ImageExpressStyle;
  track_out_style_ : ImageExpressStyle;
  kalmans_ : list (MgenKalmanTracker K);
  kalman_tracker_create_count_ : Z   (* unsigned int *)
}.

Definition SORTTracker_make (in_style out_style : ImageExpressStyle) : SORTTracker :=
  mkSort in_style out_style [] 1.

Definition set_kalmans (s : SORTTracker) ks : SORTTracker :=
  mkSort (track_in_style_ s) (track_out_style_ s) ks (kalman_tracker_create_count_ s).

Definition GetAliveKalmanCount (s : SORTTracker) : nat := length (kalmans_ s).
Definition GetCreatedKalmanCount (s : SORTTracker) : Z := kalman_tracker_create_count_ s.

Definition GetIOU (s : SORTTracker) (predict_state : StateXYWH) (infer_object : InferObject) : f64 :=
  let tracking_state := state_of_object infer_object (track_in_style_ s) (track_out_style_ s) in
  let denom := f64_of_f32 (rect_area (rect_or predict_state tracking_state)) in
  if flt (SFabs denom) DBL_EPSILON then f64_of_Z 0
  else f64_div (f64_of_f32 (rect_area (rect_and predict_state tracking_state))) denom.

(** A new tracker for [object]. *)
Definition add_tracker (s : SORTTracker) (object : InferObject) : SORTTracker :=
  mkSort (track_in_style_ s) (track_out_style_ s)
    (kalmans_ s ++ [MgenKalmanTracker_make (kalman_tracker_create_count_ s) object
                      (track_in_style_ s) (track_out_style_ s)])
    (u32 (kalman_tracker_create_count_ s + 1)).

(** The prediction loop: a tracker whose predicted corner is not at or right of
    and below the origin is erased. *)
Fixpoint predict_all (ks : list (MgenKalmanTracker K)) : list StateXYWH * list (MgenKalmanTracker K) :=
  match ks with
  | [] => ([], [])
  | k :: ks =>
      let '(predict_result, k') := predict k in
      let '(boxes, rest) := predict_all ks in
      if fle f0 (st_x predict_result) && fle f0 (st_y predict_result)
      then (predict_result :: boxes, k' :: rest) else (boxes, rest)
  end.

Definition erase_over_age (ks : list (MgenKalmanTracker K)) : list (MgenKalmanTracker K) :=
  List.filter (fun k => negb (is_over_age k SORT_TRACKER_DEFAULT_MAX_AGE)) ks.

Definition cost_matrix (s : SORTTracker) (boxes : list StateXYWH) (objects : list InferObject)
    : list (list f64) :=
  map (fun box => map (fun object => f64_sub (f64_of_Z 1) (GetIOU s box object)) objects) boxes.

(** Element [i][j], [j] an entry of the assignment. *)
Definition cost_at (cost : list (list f64)) (i : nat) (j : Z) : f64 :=
  default (f64_of_Z 0) (default [] (cost !! i) !! Z.to_nat j).

(** [unmatchedItems] before the threshold test: the detections no tracker was
    assigned, when there are more detections than trackers. *)
Definition unassigned (det_num trk_num : nat) (assignment : list Z) : gset Z :=
  if (trk_num <? det_num)%nat then
    list_to_set (map Z.of_nat (seq 0 det_num)) ∖ list_to_set assignment
  else ∅.

(** The loop over the trackers: pairs over the threshold become unmatched
    detections, the others matched pairs. *)
Definition classify_step (cost : list (list f64)) (acc : gset Z * list (nat * Z)) (p : nat * Z)
    : gset Z * list (nat * Z) :=
  let '(unmatched, matched_pairs) := acc in
  let '(i, a) := p in
  if a =? -1 then (unmatched, matched_pairs)
  else if flt SORT_TRACKER_IOU_THRESHOLD (cost_at cost i a) then ({[ a ]} ∪ unmatched, matched_pairs)
  else (unmatched, matched_pairs ++ [(i, a)]).

Definition classify (cost : list (list f64)) (assignment : list Z) (unmatched : gset Z)
    : gset Z * list (nat * Z) :=
  foldl (classify_step cost) (unmatched, []) (imap (fun i a => (i, a)) assignment).

(** [object_copies[j]]. *)
Definition detection (objects : list InferObject) (j : Z) : InferObject :=
  default InferObject_default (objects !! Z.to_nat j).

(** [kalmans_[pt.x]->update( object_copies[pt.y] )]. *)
Definition update_matched (objects : list InferObject) (matched_pairs : list (nat * Z))
    (ks : list (MgenKalmanTracker K)) : list (MgenKalmanTracker K) :=
  foldl (fun ks '(x, y) =>
           alter (fun k => update k (detection objects y)) x ks)
        ks matched_pairs.

(** The iteration of a [std::set< int >] is in increasing order. *)
Definition set_order (X : gset Z) : list Z := merge_sort Z.le (elements X).

Lemma set_order_elem (X : gset Z) x : x ∈ set_order X <-> x ∈ X.
Proof. unfold set_order. by rewrite (sorting.merge_sort_Permutation Z.le), elem_of_elements. Qed.

Definition add_unmatched (objects : list InferObject) (unmatched : gset Z) (s : SORTTracker) : SORTTracker :=
  foldl (fun s umd => add_tracker s (detection objects umd))
        s (set_order unmatched).

(** The last loop: results first, then the age test of the same tracker. *)
Definition collect (request_seq : Z) (ks : list (MgenKalmanTracker K)) : list InferObject :=
  map get_predict_track_object
    (List.filter (fun k => is_detected_track_object k SORT_TRACKER_DEFAULT_MIN_HIT (u32 request_seq)) ks).

Definition cycle_track_id (count : Z) : Z := if TRACK_ID_CYCLE_THRESHOLD <? count then 0 else count.

(** The regular path, from the prediction on: trackers and boxes are given. *)
Definition associate (s : SORTTracker) (boxes : list StateXYWH) (objects : list InferObject)
    (assignment : list Z) : SORTTracker :=
  let cost := cost_matrix s boxes objects in
  let '(unmatched, matched_pairs) :=
    classify cost assignment (unassigned (length objects) (length boxes) assignment) in
  add_unmatched objects unmatched (set_kalmans s (update_matched objects matched_pairs (kalmans_ s))).

Inductive TrackResult := Diverges | Returns (r : option (list InferObject)) (s : SORTTracker).

Definition TrackObjects (objects : list InferObject) (request_seq : Z) (s : SORTTracker) : TrackResult :=
  match objects with
  | [] => Returns None s
  | _ =>
      match kalmans_ s with
      | [] => Returns None (foldl add_tracker s objects)
      | _ =>
          let '(boxes, ks) := predict_all (kalmans_ s) in
          let s := set_kalmans s ks in
          if ((SORT_TRACKING_MAX_NUM <? length boxes) || (SORT_TRACKING_MAX_NUM <? length objects))%nat then
            Returns None (set_kalmans s (erase_over_age (kalmans_ s)))
          else if (length boxes =? 0)%nat then Returns None s
          else
            match Solve SORT_TRACKING_MAX_NUM (cost_matrix s boxes objects) with
            | None => Diverges
            | Some assignment =>
                let s := associate s boxes objects assignment in
                let results := collect request_seq (kalmans_ s) in
                Returns (Some results)
                  (mkSort (track_in_style_ s) (track_out_style_ s) (erase_over_age (kalmans_ s))
                     (cycle_track_id (kalman_tracker_create_count_ s)))
            end
      end
  end.
End Sort.

Arguments SORTTracker : clear implicits.
