(* ===== verification/SortProps.v ===== *)
(** * The SORT tracker: theorems

    Every detection of a frame is settled exactly once (one that is paired with a tracker
    of another class is dropped), track ids are never shared, no tracker outlives
    [max_age] predictions without a match, and at most one report is made per
    detection. *)

From Stdlib Require Import SpecFloat.
From stdpp Require Import gmap sorting.
From S2P Require Import Prelude Float32 InferObject Hungarian HungarianProps HungarianSpec Kalman Sort.
Open Scope Z_scope.
Open Scope list_scope.

(** ** Classification *)

Definition pair_over (cost : list (list f64)) (p : nat * Z) : bool :=
  flt SORT_TRACKER_IOU_THRESHOLD (cost_at cost (fst p) (snd p)).
Definition pair_set (p : nat * Z) : bool := negb (snd p =? -1).

Lemma exists_pair_cons (Q : nat * Z -> Prop) i a l z :
  (exists k, (k, z) ∈ (i, a) :: l /\ Q (k, z)) <->
  (z = a /\ Q (i, a)) \/ (exists k, (k, z) ∈ l /\ Q (k, z)).
Proof.
  split.
  - intros (k & [Heq | Hin]%elem_of_cons & HQ); [left | right; by exists k].
    injection Heq as -> ->. done.
  - intros [[-> HQ] | (k & Hin & HQ)]; [exists i | exists k]; (split; [| done]); [left | by right].
Qed.

Lemma classify_spec cost assignment unmatched :
  let l := imap (fun i a => (i, a)) assignment in
  let '(U, P) := classify cost assignment unmatched in
  P = List.filter (fun p => pair_set p && negb (pair_over cost p)) l /\
  (forall z, z ∈ U <-> z ∈ unmatched \/ exists i, (i, z) ∈ l /\ (pair_set (i, z) && pair_over cost (i, z)) = true).
Proof.
  intros l. unfold classify. fold l.
  assert (forall P0 U0,
    let '(U, P) := foldl (classify_step cost) (U0, P0) l in
    P = P0 ++ List.filter (fun p => pair_set p && negb (pair_over cost p)) l /\
    (forall z, z ∈ U <-> z ∈ U0 \/ exists i, (i, z) ∈ l /\ (pair_set (i, z) && pair_over cost (i, z)) = true)) as Hgo;
    [| exact (Hgo [] unmatched)].
  clear. induction l as [| [i a] l IH]; intros P0 U0; cbn [foldl List.filter classify_step].
  { split; [by rewrite app_nil_r |]. intros z. split; [by left | intros [? | (? & H & _)]; [done | by apply elem_of_nil in H]]. }
  pose proof (fun z => exists_pair_cons (fun p => (pair_set p && pair_over cost p) = true) i a l z) as Hcons.
  cbv beta in Hcons.
  change (pair_set (i, a)) with (negb (a =? -1)) in *.
  change (pair_over cost (i, a)) with (flt SORT_TRACKER_IOU_THRESHOLD (cost_at cost i a)) in *.
  destruct (a =? -1); cbn [negb andb] in *;
    [| destruct (flt SORT_TRACKER_IOU_THRESHOLD (cost_at cost i a)); cbn [negb] in *].
  - specialize (IH P0 U0). destruct (foldl _ _ _) as [U P]. destruct IH as [-> IH]. split; [done |].
    intros z. rewrite IH, Hcons. intuition congruence.
  - specialize (IH P0 ({[a]} ∪ U0)). destruct (foldl _ _ _) as [U P]. destruct IH as [-> IH]. split; [done |].
    intros z. rewrite IH, Hcons, elem_of_union, elem_of_singleton. tauto.
  - specialize (IH (P0 ++ [(i, a)]) U0). destruct (foldl _ _ _) as [U P]. destruct IH as [-> IH].
    split; [by rewrite <- app_assoc |]. intros z. rewrite IH, Hcons. intuition congruence.
Qed.

Lemma elem_of_pairs (a : list Z) i z : (i, z) ∈ imap (fun i a => (i, a)) a <-> a !! i = Some z.
Proof.
  rewrite elem_of_lookup_imap. split; [intros (j & y & [= -> ->] & ?); done | intros; by exists i, z].
Qed.

Lemma elem_of_List_filter {A} (f : A -> bool) l x : x ∈ List.filter f l <-> x ∈ l /\ f x = true.
Proof. rewrite !list_elem_of_In. apply filter_In. Qed.

Lemma NoDup_pairs (a : list Z) : NoDup (imap (fun i a => (i, a)) a).
Proof.
  apply (NoDup_fmap_1 fst). rewrite fmap_imap. apply NoDup_alt. intros i j x.
  rewrite !list_lookup_imap. destruct (a !! i), (a !! j); cbn; congruence.
Qed.

(** How the detections and the trackers of one frame are used. *)
Record association (det_num trk_num : nat) (U : gset Z) (P : list (nat * Z)) : Prop := {
  as_unmatched : forall j, j ∈ U -> 0 <= j < Z.of_nat det_num;
  as_pairs : forall i j, (i, j) ∈ P -> (i < trk_num)%nat /\ 0 <= j < Z.of_nat det_num;
  as_once : NoDup P;
  as_tracker : forall i j j', (i, j) ∈ P -> (i, j') ∈ P -> j = j';
  as_detection : forall i i' j, (i, j) ∈ P -> (i', j) ∈ P -> i = i';
  as_disjoint : forall i j, (i, j) ∈ P -> j ∉ U;
  as_all : forall j, 0 <= j < Z.of_nat det_num -> j ∈ U \/ exists i, (i, j) ∈ P
}.

Lemma elem_of_unassigned det_num trk_num a j :
  j ∈ unassigned det_num trk_num a <->
  (trk_num < det_num)%nat /\ 0 <= j < Z.of_nat det_num /\ j ∉ a.
Proof.
  unfold unassigned. destruct (Nat.ltb_spec trk_num det_num); [| split; [set_solver | lia]].
  rewrite elem_of_difference, !elem_of_list_to_set, list_elem_of_fmap. split.
  - intros [(n & -> & Hn%elem_of_seq) Hj]. split; [done |]. split; [lia | done].
  - intros (_ & Hj & Hn). split; [| done]. exists (Z.to_nat j). split; [lia | apply elem_of_seq; lia].
Qed.

Lemma matrix_dims {K} `{!OpenCV K} (s : SORTTracker K) boxes objects :
  length (cost_matrix s boxes objects) = length boxes /\
  (boxes <> [] -> length (default [] (head (cost_matrix s boxes objects))) = length objects).
Proof.
  unfold cost_matrix. split; [apply length_map |]. destruct boxes; [done |]. intros _. cbn. apply length_map.
Qed.

Lemma classify_association {K} `{!OpenCV K} (s : SORTTracker K) boxes objects max a :
  boxes <> [] -> Solve max (cost_matrix s boxes objects) = Some a ->
  let '(U, P) := classify (cost_matrix s boxes objects) a (unassigned (length objects) (length boxes) a) in
  association (length objects) (length boxes) U P.
Proof.
  intros Hb Hsolve. destruct (matrix_dims s boxes objects) as [Hrows Hcols]. specialize (Hcols Hb).
  destruct (Solve_stars _ _ _ Hsolve) as (l & Hm & Hs & Ha).
  destruct (assigned_spec _ _ l a Hm Hs Ha) as (Hlen & Hrange & Hinj & Hall & Hcover).
  rewrite Hrows in *. rewrite Hcols in *.
  set (cost := cost_matrix s boxes objects) in *. clearbody cost.
  pose proof (classify_spec cost a (unassigned (length objects) (length boxes) a)) as Hc.
  destruct (classify _ _ _) as [U P]. destruct Hc as [-> HU].
  assert (forall i j, (i, j) ∈ List.filter (fun p => pair_set p && negb (pair_over cost p)) (imap (fun i a => (i, a)) a)
            <-> a !! i = Some j /\ j <> -1 /\ pair_over cost (i, j) = false) as HP.
  { intros i j. rewrite elem_of_List_filter, elem_of_pairs, andb_true_iff. unfold pair_set. cbn.
    rewrite !negb_true_iff, Z.eqb_neq. tauto. }
  assert (forall z, z ∈ U <-> z ∈ unassigned (length objects) (length boxes) a \/
            exists i, a !! i = Some z /\ z <> -1 /\ pair_over cost (i, z) = true) as HU'.
  { intros z. rewrite HU. setoid_rewrite elem_of_pairs. unfold pair_set. cbn.
    setoid_rewrite andb_true_iff. setoid_rewrite negb_true_iff. setoid_rewrite Z.eqb_neq. done. }
  clear HU. split.
  - intros j [Hj | (i & Hj & Hne & _)]%HU'; [apply elem_of_unassigned in Hj as (_ & Hj & _); exact Hj |].
    destruct (Hrange i j Hj); lia.
  - intros i j (Hj & Hne & _)%HP. split; [rewrite <- Hlen; by eapply lookup_lt_Some | destruct (Hrange i j Hj); lia].
  - apply NoDup_ListNoDup, List.NoDup_filter, NoDup_ListNoDup, NoDup_pairs.
  - intros i j j' (H & _)%HP (H' & _)%HP. congruence.
  - intros i i' j (H & Hne & _)%HP (H' & _)%HP. by apply (Hinj i i' j).
  - intros i j (H & Hne & Ho)%HP [Hj | (i' & H' & _ & Ho')]%HU'.
    + apply elem_of_unassigned in Hj as (_ & _ & Hj). apply Hj. by eapply list_elem_of_lookup_2.
    + assert (i = i') as -> by (by apply (Hinj i i' j)). congruence.
  - intros j Hj. assert (j ∈ a \/ j ∈ unassigned (length objects) (length boxes) a) as [Hin | Hun].
    { destruct (decide (j ∈ a)) as [| Hn]; [by left |]. destruct (Nat.lt_ge_cases (length boxes) (length objects)).
      - right. by apply elem_of_unassigned.
      - exfalso. apply Hn. specialize (Hcover ltac:(done) (Z.to_nat j) ltac:(lia)).
        by rewrite Z2Nat.id in Hcover by lia. }
    + apply list_elem_of_lookup_1 in Hin as (i & Hi). destruct (pair_over cost (i, j)) eqn:Eo.
      * left. apply HU'. right. exists i. split_and!; [done | lia | done].
      * right. exists i. apply HP. split_and!; [done | lia | done].
    + left. apply HU'. by left.
Qed.

(** ** The loops of a call *)

Section Loops.
Context {K : Type} `{!OpenCV K}.
Abbreviation Tracker := (MgenKalmanTracker K).

Lemma update_matched_length objects P (ks : list Tracker) : length (update_matched objects P ks) = length ks.
Proof.
  unfold update_matched. revert ks. induction P as [| [x y] P IH]; intros ks; cbn [foldl]; [done |].
  by rewrite IH, length_alter.
Qed.

Lemma update_matched_lookup objects P (ks : list Tracker) i :
  (forall i j j', (i, j) ∈ P -> (i, j') ∈ P -> j = j') -> NoDup P ->
  (forall j, (i, j) ∈ P -> update_matched objects P ks !! i = (fun k => update k (detection objects j)) <$> ks !! i) /\
  ((forall j, (i, j) ∉ P) -> update_matched objects P ks !! i = ks !! i).
Proof.
  unfold update_matched. revert ks. induction P as [| [x y] P IH]; intros ks Hu Hn; cbn [foldl].
  { split; [intros j Hj; by apply elem_of_nil in Hj | done]. }
  apply NoDup_cons in Hn as [Hxy Hn].
  destruct (IH (alter (fun k => update k (detection objects y)) x ks)) as [IH1 IH2]; [| done |].
  { intros i' j j' H H'. apply (Hu i'); by right. }
  split.
  - intros j [[= -> ->] | Hj]%elem_of_cons.
    + rewrite IH2; [by rewrite list_lookup_alter_eq |]. intros j' Hj'. apply Hxy.
      rewrite (Hu x y j'); [done | left | by right].
    + rewrite (IH1 j Hj). rewrite list_lookup_alter_ne; [done |].
      intros ->. apply Hxy. rewrite (Hu i y j); [done | left | by right].
  - intros Hno. rewrite IH2.
    + rewrite list_lookup_alter_ne; [done |]. intros ->. apply (Hno y). left.
    + intros j Hj. apply (Hno j). by right.
Qed.

(** A run of new trackers. *)
Definition new_trackers (s : SORTTracker K) (os : list InferObject) : list Tracker :=
  imap (fun n o => MgenKalmanTracker_make (u32 (kalman_tracker_create_count_ s + Z.of_nat n)) o
                     (track_in_style_ s) (track_out_style_ s)) os.

Lemma add_trackers_spec os (s : SORTTracker K) :
  in_u32 (kalman_tracker_create_count_ s) ->
  kalmans_ (foldl add_tracker s os) = kalmans_ s ++ new_trackers s os /\
  kalman_tracker_create_count_ (foldl add_tracker s os) = u32 (kalman_tracker_create_count_ s + Z.of_nat (length os)) /\
  track_in_style_ (foldl add_tracker s os) = track_in_style_ s /\
  track_out_style_ (foldl add_tracker s os) = track_out_style_ s.
Proof.
  revert s. induction os as [| o os IH]; intros s Hs; cbn [foldl].
  { cbn. rewrite app_nil_r, Z.add_0_r, u32_id by done. done. }
  destruct (IH (add_tracker s o) (u32_range _)) as (H1 & H2 & H3 & H4). rewrite H1, H2, H3, H4. clear IH H1 H2 H3 H4.
  assert (forall n, u32 (u32 (kalman_tracker_create_count_ s + 1) + n) = u32 (kalman_tracker_create_count_ s + (1 + n)))
    as Hw by (intros n; unfold wrap_u; rewrite Zplus_mod_idemp_l; f_equal; lia).
  split_and!; try done.
  - cbn [kalmans_ add_tracker]. rewrite <- app_assoc. f_equal. unfold new_trackers. cbn [imap].
    rewrite Z.add_0_r, u32_id by done. cbn. f_equal. apply imap_ext. intros n o' _. cbn. rewrite Hw.
    do 2 f_equal. lia.
  - cbn. rewrite Hw. f_equal. cbn [length]. lia.
Qed.

Lemma add_unmatched_foldl objects U (s : SORTTracker K) :
  add_unmatched objects U s = foldl add_tracker s (map (detection objects) (set_order U)).
Proof.
  unfold add_unmatched. generalize (set_order U). intros l. revert s.
  induction l as [| j l IH]; intros s; cbn [foldl map]; [done | apply IH].
Qed.

Lemma predict_all_spec (ks : list Tracker) :
  let '(boxes, ks') := predict_all ks in
  length boxes = length ks' /\
  map tk_track_id ks' `sublist_of` map tk_track_id ks /\
  Forall (fun k' => exists k, k ∈ ks /\ k' = snd (predict k)) ks'.
Proof.
  induction ks as [| k ks IH]; [by split_and!; [| | constructor] |]. cbn [predict_all].
  pose proof (predict_same k) as [Hid _]. destruct (predict k) as [p k'] eqn:Ek. cbn in Hid.
  destruct (predict_all ks) as [boxes rest]. destruct IH as (Hl & Hs & Hf).
  assert (Forall (fun k' => exists k0, k0 ∈ k :: ks /\ k' = snd (predict k0)) rest) as Hf'.
  { eapply Forall_impl; [exact Hf |]. intros x (k0 & ? & ?). exists k0. split; [by right | done]. }
  case_if; cbn [length map].
  - split; [by rewrite Hl |]. split; [rewrite Hid; by constructor |]. constructor; [| done].
    exists k. split; [left | by rewrite Ek].
  - split; [done |]. split; [by constructor | done].
Qed.

(** ** The state invariant *)

(** Track ids are distinct and below the creation counter, and every tracker was
    predicted at most [max_age] times since it was matched or created. *)
Record sort_inv (s : SORTTracker K) : Prop := {
  si_ids : NoDup (map tk_track_id (kalmans_ s));
  si_range : Forall (fun k => 0 <= tk_track_id k < kalman_tracker_create_count_ s) (kalmans_ s);
  si_age : Forall (fun k => 0 <= time_since_update k <= SORT_TRACKER_DEFAULT_MAX_AGE) (kalmans_ s);
  si_count : 0 <= kalman_tracker_create_count_ s <= TRACK_ID_CYCLE_THRESHOLD
}.

Lemma erase_sublist (ks : list Tracker) :
  map tk_track_id (erase_over_age ks) `sublist_of` map tk_track_id ks.
Proof.
  unfold erase_over_age. induction ks as [| k ks IH]; cbn; [constructor |].
  destruct (negb _); cbn; by constructor.
Qed.

Lemma erase_age (ks : list Tracker) :
  Forall (fun k => 0 <= time_since_update k) ks ->
  Forall (fun k => 0 <= time_since_update k <= SORT_TRACKER_DEFAULT_MAX_AGE) (erase_over_age ks).
Proof.
  rewrite !Forall_forall. intros H k [Hk Ha]%elem_of_List_filter.
  apply negb_true_iff in Ha. unfold is_over_age in Ha. apply Z.ltb_ge in Ha. specialize (H k Hk). lia.
Qed.

Lemma erase_subset (ks : list Tracker) k : k ∈ erase_over_age ks -> k ∈ ks.
Proof. by intros [? _]%elem_of_List_filter. Qed.

Lemma new_trackers_ids (s : SORTTracker K) os :
  0 <= kalman_tracker_create_count_ s ->
  kalman_tracker_create_count_ s + Z.of_nat (length os) <= TRACK_ID_CYCLE_THRESHOLD ->
  map tk_track_id (new_trackers s os) =
    map (fun n => kalman_tracker_create_count_ s + Z.of_nat n) (seq 0 (length os)) /\
  Forall (fun k => time_since_update k = 0) (new_trackers s os).
Proof.
  intros H0 H1. unfold new_trackers. split.
  - change (map tk_track_id) with (fmap (M := list) (@tk_track_id K)). rewrite fmap_imap.
    apply list_eq. intros n. rewrite list_lookup_imap, list_lookup_fmap.
    destruct (os !! n) as [o |] eqn:E.
    + pose proof (lookup_lt_Some _ _ _ E). rewrite lookup_seq_lt by done. cbn. f_equal.
      unfold TRACK_ID_CYCLE_THRESHOLD in H1.
      rewrite (u32_id (_ + _)) by (unfold in_u32; lia). apply i32_id. unfold in_i32. lia.
    + apply lookup_ge_None in E. by rewrite lookup_seq_ge.
  - apply Forall_forall. intros k (n & o & -> & _)%elem_of_lookup_imap. done.
Qed.

(** Adding trackers to a list that satisfies the invariant. *)
Lemma add_trackers_inv (s : SORTTracker K) os :
  NoDup (map tk_track_id (kalmans_ s)) ->
  Forall (fun k => 0 <= tk_track_id k < kalman_tracker_create_count_ s) (kalmans_ s) ->
  0 <= kalman_tracker_create_count_ s ->
  kalman_tracker_create_count_ s + Z.of_nat (length os) <= TRACK_ID_CYCLE_THRESHOLD ->
  let s' := foldl add_tracker s os in
  NoDup (map tk_track_id (kalmans_ s')) /\
  Forall (fun k => 0 <= tk_track_id k < kalman_tracker_create_count_ s') (kalmans_ s') /\
  kalman_tracker_create_count_ s' = kalman_tracker_create_count_ s + Z.of_nat (length os) /\
  kalmans_ s' = kalmans_ s ++ new_trackers s os /\
  Forall (fun k => time_since_update k = 0) (new_trackers s os).
Proof.
  intros Hn Hr H0 H1 s'. assert (in_u32 (kalman_tracker_create_count_ s)) as Hu
    by (unfold in_u32, TRACK_ID_CYCLE_THRESHOLD in *; lia).
  destruct (add_trackers_spec os s Hu) as (Hk & Hc & _). fold s' in Hk, Hc.
  rewrite u32_id in Hc by (unfold in_u32, TRACK_ID_CYCLE_THRESHOLD in *; lia).
  destruct (new_trackers_ids s os H0 H1) as [Hids Hage].
  assert (forall x, x ∈ map tk_track_id (new_trackers s os) ->
            kalman_tracker_create_count_ s <= x < kalman_tracker_create_count_ s + Z.of_nat (length os)) as Hnew.
  { intros x. rewrite Hids. intros (n & -> & Hn')%list_elem_of_fmap. apply elem_of_seq in Hn'. lia. }
  rewrite Forall_forall in Hr. rewrite Hk, Hc. split_and!; [| | done | done | done].
  - rewrite map_app. apply NoDup_app. split_and!; [done | |].
    + intros x (k & -> & Hx)%list_elem_of_fmap Hx'%Hnew. specialize (Hr k Hx). lia.
    + rewrite Hids. apply NoDup_fmap_2; [intros ? ? ?; lia | apply NoDup_seq].
  - apply Forall_forall. intros k [Hx | Hx]%elem_of_app; [specialize (Hr k Hx); lia |].
    assert (tk_track_id k ∈ map tk_track_id (new_trackers s os)) as Hin%Hnew by (by apply list_elem_of_fmap_2). lia.
Qed.

Lemma update_matched_ids objects P (ks : list Tracker) :
  map tk_track_id (update_matched objects P ks) = map tk_track_id ks.
Proof.
  unfold update_matched. revert ks. induction P as [| [x y] P IH]; intros ks; cbn [foldl]; [done |].
  rewrite IH. apply list_eq. intros i. rewrite !list_lookup_fmap.
  destruct (decide (x = i)) as [-> | Hne]; [rewrite list_lookup_alter_eq | by rewrite list_lookup_alter_ne].
  destruct (ks !! i) as [k |]; [| done]. cbn. f_equal. apply update_same.
Qed.

Lemma update_matched_ages objects P (ks : list Tracker) :
  Forall (fun k => 0 <= time_since_update k) ks ->
  Forall (fun k => 0 <= time_since_update k) (update_matched objects P ks).
Proof.
  unfold update_matched. revert ks. induction P as [| [x y] P IH]; intros ks H; cbn [foldl]; [done |].
  apply IH. apply Forall_alter; [done |]. intros k Hk Hf. unfold update. case_if; [done | cbn; lia].
Qed.

(** Trackers seen in the current frame. *)
Definition fresh_count (ks : list Tracker) : nat := length (List.filter (fun k => time_since_update k <? 1) ks).

Lemma fresh_count_app ks ks' : fresh_count (ks ++ ks') = (fresh_count ks + fresh_count ks')%nat.
Proof. unfold fresh_count. by rewrite List.filter_app, length_app. Qed.

Lemma fresh_count_le ks : (fresh_count ks <= length ks)%nat.
Proof. apply List.filter_length_le. Qed.

Lemma fresh_count_alter f x ks : (fresh_count (alter f x ks) <= S (fresh_count ks))%nat.
Proof.
  unfold fresh_count. revert x. induction ks as [| k ks IH]; intros x; [destruct x; cbn; lia |].
  destruct x as [| x]; cbn.
  - destruct (_ <? _), (_ <? _); cbn; lia.
  - specialize (IH x). destruct (_ <? _); cbn; lia.
Qed.

Lemma fresh_count_update objects P (ks : list Tracker) :
  Forall (fun k => 1 <= time_since_update k) ks ->
  (fresh_count (update_matched objects P ks) <= length P)%nat.
Proof.
  intros Hf. assert (forall ks, fresh_count (update_matched objects P ks) <= length P + fresh_count ks)%nat as Hgo.
  { unfold update_matched. induction P as [| [x y] P IH]; intros ks0; cbn [foldl length]; [lia |].
    pose proof (fresh_count_alter (fun k => update k (detection objects y)) x ks0).
    etransitivity; [apply IH |]. lia. }
  etransitivity; [apply Hgo |]. enough (fresh_count ks = 0%nat) by lia.
  unfold fresh_count. rewrite Forall_forall in Hf. clear Hgo. induction ks as [| k ks IH]; [done |]. cbn.
  rewrite (proj2 (Z.ltb_ge _ _)) by (apply Hf; left). apply IH. intros; apply Hf; by right.
Qed.

Lemma association_count det_num trk_num U P :
  association det_num trk_num U P -> (length P + size U <= det_num)%nat.
Proof.
  intros [HU HP Hn Ht Hd Hdis _].
  assert (length (map snd P ++ elements U) <= length (map Z.of_nat (seq 0 det_num)))%nat as H.
  { apply submseteq_length, NoDup_submseteq.
    - apply NoDup_app. split_and!; [| | apply NoDup_elements].
      + apply NoDup_fmap_2_strong; [| done]. intros [i j] [i' j'] H H' He. cbn in He. subst j'. f_equal. by eapply Hd.
      + intros j ([i j'] & -> & Hj)%list_elem_of_fmap Hj'%elem_of_elements. by apply (Hdis i j').
    - intros j [Hj | Hj]%elem_of_app; apply list_elem_of_fmap; exists (Z.to_nat j).
      + apply list_elem_of_fmap in Hj as ([i j'] & -> & Hj). apply HP in Hj as [_ ?]. cbn.
        split; [lia | apply elem_of_seq; lia].
      + apply elem_of_elements, HU in Hj. split; [lia | apply elem_of_seq; lia]. }
  rewrite length_app, !length_map, length_seq in H. exact H.
Qed.

(** ** One call *)

Definition regular_call (s : SORTTracker K) (objects : list InferObject) (request_seq : Z)
    (ks : list Tracker) U P (r : option (list InferObject)) (s' : SORTTracker K) : Prop :=
  association (length objects) (length ks) U P /\
  let s1 := foldl add_tracker (set_kalmans s (update_matched objects P ks))
              (map (detection objects) (set_order U)) in
  r = Some (collect request_seq (kalmans_ s1)) /\
  kalmans_ s' = erase_over_age (kalmans_ s1) /\
  kalman_tracker_create_count_ s' = cycle_track_id (kalman_tracker_create_count_ s1).

Lemma TrackObjects_cases objects request_seq (s : SORTTracker K) r s' :
  TrackObjects objects request_seq s = Returns r s' ->
  (r = None /\ (s' = s \/ (kalmans_ s = [] /\ s' = foldl add_tracker s objects))) \/
  (exists boxes ks, predict_all (kalmans_ s) = (boxes, ks) /\
     (r = None /\ s' = set_kalmans s (erase_over_age ks) \/ r = None /\ ks = [] /\ s' = set_kalmans s ks \/
      exists U P, regular_call s objects request_seq ks U P r s')).
Proof.
  unfold TrackObjects. destruct objects as [| o os]; [intros [= <- <-]; left; by auto |].
  set (objects := o :: os). clearbody objects.
  destruct (kalmans_ s) as [| k0 ks0] eqn:Ek; [intros [= <- <-]; left; by auto |].
  pose proof (predict_all_spec (k0 :: ks0)) as Hp.
  destruct (predict_all (k0 :: ks0)) as [boxes ks]. destruct Hp as (Hlen & _ & _).
  case_if; [intros [= <- <-]; right; exists boxes, ks; split; [done |]; by left |].
  case_if; [intros [= <- <-]; right; exists boxes, ks; split; [done |]; right; left |].
  { apply Nat.eqb_eq in E0. rewrite Hlen in E0. by apply nil_length_inv in E0 as ->. }
  apply Nat.eqb_neq in E0. assert (boxes <> []) as Hne by (by intros ->).
  destruct (Solve _ _) as [a |] eqn:Es; [| done]. intros [= <- <-].
  right. exists boxes, ks. split; [done |]. right; right.
  pose proof (classify_association _ _ _ _ _ Hne Es) as Ha. unfold associate.
  set (s0 := set_kalmans s ks) in *.
  destruct (classify (cost_matrix s0 boxes objects) a (unassigned (length objects) (length boxes) a)) as [U P].
  exists U, P. rewrite Hlen in Ha. rewrite add_unmatched_foldl. split; [exact Ha |]. done.
Qed.

Lemma predicted_ages (ks ks' : list Tracker) :
  Forall (fun k => 0 <= time_since_update k <= SORT_TRACKER_DEFAULT_MAX_AGE) ks ->
  Forall (fun k' => exists k, k ∈ ks /\ k' = snd (predict k)) ks' ->
  Forall (fun k => 1 <= time_since_update k) ks'.
Proof.
  rewrite !Forall_forall. intros Ha Hf k' Hk'. destruct (Hf k' Hk') as (k & Hk & ->).
  specialize (Ha k Hk). unfold SORT_TRACKER_DEFAULT_MAX_AGE in Ha. unfold predict. destruct (kf_predict _). cbn.
  rewrite u32_id by (unfold in_u32; lia). lia.
Qed.

Lemma predicted_inv (s : SORTTracker K) boxes ks :
  sort_inv s -> predict_all (kalmans_ s) = (boxes, ks) ->
  NoDup (map tk_track_id ks) /\
  Forall (fun k => 0 <= tk_track_id k < kalman_tracker_create_count_ s) ks /\
  Forall (fun k => 1 <= time_since_update k) ks.
Proof.
  intros [Hn Hr Ha Hc] Hp. pose proof (predict_all_spec (kalmans_ s)) as H. rewrite Hp in H.
  destruct H as (_ & Hsub & Hf). split_and!.
  - by eapply sublist_NoDup.
  - rewrite Forall_forall in *. intros k' Hk'. destruct (Hf k' Hk') as (k & Hk & ->).
    destruct (predict_same k) as [-> _]. by apply Hr.
  - by eapply predicted_ages.
Qed.

Lemma collect_ids request_seq (ks : list Tracker) :
  map track_id (collect request_seq ks) `sublist_of` map tk_track_id ks /\
  (length (collect request_seq ks) <= fresh_count ks)%nat.
Proof.
  unfold collect, fresh_count. rewrite length_map. induction ks as [| k ks [IH1 IH2]]; cbn; [by split |].
  destruct (is_detected_track_object k _ _) eqn:E.
  - unfold is_detected_track_object in E. apply andb_prop in E as [-> _]. cbn.
    rewrite (proj1 (predicted_object_ids k)). split; [by constructor | lia].
  - split; [by constructor |]. destruct (time_since_update k <? 1); cbn; lia.
Qed.

Lemma set_order_length (U : gset Z) : length (set_order U) = size U.
Proof. unfold set_order. by rewrite (Permutation_length (merge_sort_Permutation Z.le (elements U))). Qed.

Lemma regular_call_inv s objects request_seq boxes ks U P r s' :
  sort_inv s -> kalman_tracker_create_count_ s + Z.of_nat (length objects) <= TRACK_ID_CYCLE_THRESHOLD ->
  predict_all (kalmans_ s) = (boxes, ks) ->
  regular_call s objects request_seq ks U P r s' ->
  sort_inv s' /\ (exists results, r = Some results /\ NoDup (map track_id results) /\
                    (length results <= length objects)%nat).
Proof.
  intros Hinv Hcount Hp (Ha & Hr & Hk & Hc).
  destruct (predicted_inv s boxes ks Hinv Hp) as (Hn & Hrange & Hage).
  pose proof (association_count _ _ _ _ Ha) as Hsize.
  set (s0 := set_kalmans s (update_matched objects P ks)) in *.
  set (os := map (detection objects) (set_order U)) in *.
  assert (length os = size U) as Hos by (unfold os; by rewrite length_map, set_order_length).
  assert (0 <= kalman_tracker_create_count_ s0) as H0 by apply Hinv.
  destruct (add_trackers_inv s0 os) as (H1 & H2 & H3 & H4 & H5).
  { unfold s0. cbn. by rewrite update_matched_ids. }
  { unfold s0. cbn. rewrite Forall_forall in *. intros k Hin.
    assert (tk_track_id k ∈ map tk_track_id ks) as Hid.
    { rewrite <- (update_matched_ids objects P). by apply list_elem_of_fmap_2. }
    apply list_elem_of_fmap in Hid as (k' & -> & Hk'). by apply Hrange. }
  { exact H0. }
  { unfold s0. cbn. rewrite Hos. lia. }
  set (s1 := foldl add_tracker s0 os) in *.
  assert (Forall (fun k => 0 <= time_since_update k) (kalmans_ s1)) as Hages.
  { rewrite H4. apply Forall_app. split.
    - apply update_matched_ages. eapply Forall_impl; [exact Hage |]. intros; cbn in *; lia.
    - eapply Forall_impl; [exact H5 |]. intros; cbn in *; lia. }
  destruct (collect_ids request_seq (kalmans_ s1)) as [Hsub Hfresh].
  assert (cycle_track_id (kalman_tracker_create_count_ s1) = kalman_tracker_create_count_ s1) as Hcy.
  { unfold cycle_track_id. rewrite (proj2 (Z.ltb_ge _ _)); [done |]. rewrite H3. unfold s0. cbn. lia. }
  split.
  - split.
    + rewrite Hk. eapply sublist_NoDup; [exact H1 | apply erase_sublist].
    + rewrite Hk, Hc, Hcy. rewrite Forall_forall in *. intros k Hin. apply H2. by apply erase_subset.
    + rewrite Hk. by apply erase_age.
    + rewrite Hc, Hcy, H3. unfold s0 in *. cbn in *. lia.
  - exists (collect request_seq (kalmans_ s1)). split; [done |]. split; [by eapply sublist_NoDup |].
    etransitivity; [exact Hfresh |]. rewrite H4, fresh_count_app.
    change (kalmans_ s0) with (update_matched objects P ks).
    pose proof (fresh_count_update objects P ks Hage). pose proof (fresh_count_le (new_trackers s0 os)) as Hle.
    unfold new_trackers in Hle at 2. rewrite length_imap in Hle. lia.
Qed.
End Loops.

(** A tracker is corrected by a detection of its own class only. *)
Lemma update_own_class {K} `{!OpenCV K} (k : MgenKalmanTracker K) o :
  (tk_class_id k = class_id o -> time_since_update (update k o) = 0) /\ (tk_class_id k <> class_id o -> update k o = k).
Proof.
  unfold update. split; intros Hc; [by rewrite (proj2 (Z.eqb_eq _ _) Hc) | by rewrite (proj2 (Z.eqb_neq _ _) Hc)].
Qed.

(** C17: every detection of a frame is settled exactly once.  When a call reports
    (possibly nothing), the detections are split, without overlap and without
    remainder, between the matched pairs - no tracker and no detection in two of
    them - and the unmatched ones.  Each unmatched detection starts exactly one new
    tracker, in increasing order of the detections.  The tracker of a pair is corrected
    with its detection when their classes agree; when they differ it stays as
    predicted and the detection is dropped, starting no tracker either.  Every other
    tracker stays as predicted. *)
Theorem every_detection_settled_once {K} `{!OpenCV K} objects request_seq (s : SORTTracker K) results s' :
  in_u32 (kalman_tracker_create_count_ s) ->
  TrackObjects objects request_seq s = Returns (Some results) s' ->
  exists boxes ks U P olds,
    predict_all (kalmans_ s) = (boxes, ks) /\ association (length objects) (length ks) U P /\
    length olds = length ks /\
    (forall i k, ks !! i = Some k ->
       (forall j, (i, j) ∈ P ->
          (tk_class_id k = class_id (detection objects j) ->
             olds !! i = Some (update k (detection objects j)) /\ time_since_update (update k (detection objects j)) = 0) /\
          (tk_class_id k <> class_id (detection objects j) -> olds !! i = Some k)) /\
       ((forall j, (i, j) ∉ P) -> olds !! i = Some k)) /\
    let all := olds ++ new_trackers s (map (detection objects) (set_order U)) in
    results = collect request_seq all /\ kalmans_ s' = erase_over_age all.
Proof.
  intros Hu H. apply TrackObjects_cases in H as [[? _] | (boxes & ks & Hp & [[? _] | [[? _] | (U & P & Ha & Hr & Hk & _)]])];
    try done.
  set (s0 := set_kalmans s (update_matched objects P ks)) in *.
  destruct (add_trackers_spec (map (detection objects) (set_order U)) s0 Hu) as (Hall & _).
  exists boxes, ks, U, P, (update_matched objects P ks).
  split; [exact Hp |]. split; [exact Ha |]. split; [| split; [| split]].
  - apply update_matched_length.
  - intros i k Hi. destruct (update_matched_lookup objects P ks i) as [H1 H2]; [apply Ha | apply Ha |].
    rewrite Hi in H1, H2. split; [| exact H2]. intros j Hj. rewrite (H1 j Hj). cbn [fmap option_fmap option_map].
    destruct (update_own_class k (detection objects j)) as [U1 U2]. split; [by auto | intros Hc; by rewrite (U2 Hc)].
  - injection Hr as ->. rewrite Hall. done.
  - rewrite Hk, Hall. done.
Qed.

(** A call keeps the invariant of the tracker and reports distinct ids. *)
Lemma TrackObjects_inv {K} `{!OpenCV K} objects request_seq (s : SORTTracker K) r s' :
  sort_inv s -> kalman_tracker_create_count_ s + Z.of_nat (length objects) <= TRACK_ID_CYCLE_THRESHOLD ->
  TrackObjects objects request_seq s = Returns r s' ->
  sort_inv s' /\
  (forall results, r = Some results -> NoDup (map track_id results) /\ (length results <= length objects)%nat).
Proof.
  intros Hinv Hcount H.
  assert (forall boxes ks ks', predict_all (kalmans_ s) = (boxes, ks) -> map tk_track_id ks' `sublist_of` map tk_track_id ks ->
            (forall k, k ∈ ks' -> k ∈ ks) -> Forall (fun k => 0 <= time_since_update k <= SORT_TRACKER_DEFAULT_MAX_AGE) ks' ->
            sort_inv (set_kalmans s ks')) as Hset.
  { intros boxes ks ks' Hp Hsub Hin Hage. destruct (predicted_inv s boxes ks Hinv Hp) as (Hn & Hr & _).
    split; cbn; [by eapply sublist_NoDup | | done | apply Hinv].
    rewrite Forall_forall in *. auto. }
  apply TrackObjects_cases in H as [[-> [-> | [Hnil ->]]] | (boxes & ks & Hp & [[-> ->] | [(-> & Hks & ->) | (U & P & Hreg)]])].
  - split; [done | by intros].
  - split; [| by intros]. destruct (add_trackers_inv s objects) as (H1 & H2 & H3 & H4 & H5); try (apply Hinv || done).
    split; [done | done | | rewrite H3; destruct Hinv; lia].
    rewrite H4, Hnil. eapply Forall_impl; [exact H5 |]. unfold SORT_TRACKER_DEFAULT_MAX_AGE. intros; cbn in *; lia.
  - split; [| by intros]. eapply Hset; [exact Hp | apply erase_sublist | apply erase_subset |].
    apply erase_age. destruct (predicted_inv s boxes ks Hinv Hp) as (_ & _ & Ha).
    eapply Forall_impl; [exact Ha |]. intros; cbn in *; lia.
  - split; [| by intros]. subst ks. eapply Hset; [exact Hp | done | done | constructor].
  - destruct (regular_call_inv _ _ _ _ _ _ _ _ _ Hinv Hcount Hp Hreg) as (H1 & results & -> & H2 & H3).
    split; [done |]. by intros ? [= <-].
Qed.

(** C16: track ids are never shared and an unmatched tracker is kept for ten predictions
    at most.  A call keeps the ids of the live trackers distinct and below the counter,
    and each live tracker was predicted at most 10 times since its last match; the
    objects it reports have distinct track ids and are no more than the detections it
    was given.  (The counter must stay below the threshold of its reset.)  A call
    without detections returns before the prediction: it reports nothing and changes
    nothing, so frames without detections do not age the trackers. *)
Theorem track_ids_unique {K} `{!OpenCV K} objects request_seq (s : SORTTracker K) r s' :
  sort_inv s -> kalman_tracker_create_count_ s + Z.of_nat (length objects) <= TRACK_ID_CYCLE_THRESHOLD ->
  TrackObjects objects request_seq s = Returns r s' ->
  sort_inv s' /\
  (forall results, r = Some results -> NoDup (map track_id results) /\ (length results <= length objects)%nat) /\
  (objects = [] -> r = None /\ s' = s).
Proof.
  intros Hi Hc H. destruct (TrackObjects_inv _ _ _ _ _ Hi Hc H) as [H1 H2]. split; [done |]. split; [done |].
  intros ->. by injection H as <- <-.
Qed.

(** ** A concrete tracker

    A filter that predicts what it last measured, and the rectangle operations
    of OpenCV. *)

Definition rect_empty (a : StateXYWH) : bool := fle (st_w a) f0 || fle (st_h a) f0.

#[local] Instance demo_cv : OpenCV XYSR := {|
  kf_make := fun _ _ _ _ v => v;
  kf_predict := fun k => (k, k);
  kf_correct := fun _ v => v;
  kf_statePost := fun k => k;
  rect_area := fun a => f32_mul (st_w a) (st_h a);
  rect_and := fun a b =>
    let x1 := std_max (st_x a) (st_x b) in let y1 := std_max (st_y a) (st_y b) in
    let r := mkState x1 y1 (f32_sub (std_min (f32_add (st_x a) (st_w a)) (f32_add (st_x b) (st_w b))) x1)
               (f32_sub (std_min (f32_add (st_y a) (st_h a)) (f32_add (st_y b) (st_h b))) y1) in
    if rect_empty r then mkState f0 f0 f0 f0 else r;
  rect_or := fun a b =>
    let x1 := std_min (st_x a) (st_x b) in let y1 := std_min (st_y a) (st_y b) in
    if rect_empty a then b else if rect_empty b then a else
    mkState x1 y1 (f32_sub (std_max (f32_add (st_x a) (st_w a)) (f32_add (st_x b) (st_w b))) x1)
      (f32_sub (std_max (f32_add (st_y a) (st_h a)) (f32_add (st_y b) (st_h b))) y1)
|}.

Definition demo_style : ImageExpressStyle :=
  ImageExpressStyle_make 1000 1000 pixel_int ltx_type false f1 0 0 0 0.

Definition demo_object (class x : Z) : InferObject :=
  mkInferObject 0 class (-1) f1 (mkBBox (f32_of_Z x) (f32_of_Z 100) (f32_of_Z 50) (f32_of_Z 50))
    ltx_type pixel_int [].

(** The state after a list of frames, with the last report. *)
Fixpoint demo_frames (frames : list (list InferObject)) (n : Z) (s : SORTTracker XYSR)
    : option (list InferObject) * SORTTracker XYSR :=
  match frames with
  | [] => (None, s)
  | f :: rest =>
      match TrackObjects f n s with
      | Returns r s' => match rest with [] => (r, s') | _ => demo_frames rest (n + 1) s' end
      | Diverges => (None, s)
      end
  end.

Definition demo_start : SORTTracker XYSR := SORTTracker_make demo_style demo_style.
Definition demo_tracked : SORTTracker XYSR :=
  snd (demo_frames [[demo_object 0 100]; [demo_object 0 102; demo_object 1 500]] 1 demo_start).
Definition demo_next : list InferObject := [demo_object 1 501; demo_object 0 104; demo_object 0 800].
Definition demo_outcome : option (list InferObject) * SORTTracker XYSR := demo_frames [demo_next] 3 demo_tracked.

Lemma demo_tracked_inv : sort_inv demo_tracked.
Proof. split; apply (bool_decide_unpack _); vm_compute; exact I. Qed.

Lemma every_detection_settled_once_witness :
  exists boxes ks U P olds,
    predict_all (kalmans_ demo_tracked) = (boxes, ks) /\ association 3 (length ks) U P /\
    length olds = length ks /\
    (forall i k, ks !! i = Some k ->
       (forall j, (i, j) ∈ P ->
          (tk_class_id k = class_id (detection demo_next j) ->
             olds !! i = Some (update k (detection demo_next j)) /\ time_since_update (update k (detection demo_next j)) = 0) /\
          (tk_class_id k <> class_id (detection demo_next j) -> olds !! i = Some k)) /\
       ((forall j, (i, j) ∉ P) -> olds !! i = Some k)) /\
    let all := olds ++ new_trackers demo_tracked (map (detection demo_next) (set_order U)) in
    default [] (fst demo_outcome) = collect 3 all /\ kalmans_ (snd demo_outcome) = erase_over_age all.
Proof.
  apply (every_detection_settled_once demo_next 3 demo_tracked).
  - vm_compute. split; [discriminate | reflexivity].
  - vm_compute. reflexivity.
Defined.

Lemma track_ids_unique_witness :
  sort_inv (snd demo_outcome) /\
  NoDup (map track_id (default [] (fst demo_outcome))) /\ (length (default [] (fst demo_outcome)) <= 3)%nat.
Proof.
  destruct (track_ids_unique demo_next 3 demo_tracked (fst demo_outcome) (snd demo_outcome) demo_tracked_inv) as (H1 & H2 & _).
  - vm_compute. discriminate.
  - vm_compute. reflexivity.
  - split; [exact H1 |]. apply H2. vm_compute. reflexivity.
Defined.

(** The three detections: two continue the tracks 1 and 2, one starts track 3. *)
Example demo_outcome_ids :
  map track_id (default [] (fst demo_outcome)) = [1; 2; 3] /\
  kalman_tracker_create_count_ (snd demo_outcome) = 4.
Proof. vm_compute. split; reflexivity. Qed.

(** A detection paired with a tracker of another class is dropped: it neither
    updates the tracker nor starts a new one. *)
Example class_mismatch_drops_detection :
  let '(r, s) := demo_frames [[demo_object 0 100]; [demo_object 1 100]] 1 demo_start in
  r = Some [] /\ map tk_class_id (kalmans_ s) = [0] /\ map time_since_update (kalmans_ s) = [1].
Proof. vm_compute. split; [reflexivity | split; reflexivity]. Qed.
