(* ===== verification/StringUtils.v ===== *)
(** * String helpers

    [BasicLibs/utils/string_utils.h] and [string_utils.cpp]: case conversion of
    byte strings.  [std::toupper], [std::tolower] and [std::isupper] are those of
    the "C" locale, which the program never changes.

    Facts on strings.  What the files that print have in common: concatenation, strings whose characters all have a
    property, the characters of a printed number, and the parts of a string at a separator. *)

From Stdlib Require Import Ascii String.
From stdpp Require Import gmap pretty.
From S2P Require Import Prelude.
Open Scope nat_scope.

Definition is_lower (c : ascii) : bool := (97 <=? nat_of_ascii c) && (nat_of_ascii c <=? 122).
Definition is_upper (c : ascii) : bool := (65 <=? nat_of_ascii c) && (nat_of_ascii c <=? 90).
Definition is_digit (c : ascii) : bool := (48 <=? nat_of_ascii c) && (nat_of_ascii c <=? 57).
Definition toupper (c : ascii) : ascii := if is_lower c then ascii_of_nat (nat_of_ascii c - 32) else c.
Definition tolower (c : ascii) : ascii := if is_upper c then ascii_of_nat (nat_of_ascii c + 32) else c.

Definition underscore : ascii := "_"%char.

Fixpoint ToUpperCase (s : string) : string :=
  match s with EmptyString => EmptyString | String c s => String (toupper c) (ToUpperCase s) end.

(** [first]: the loop index is 0. *)
Fixpoint camel_from (first next_upper : bool) (s : string) : string :=
  match s with
  | EmptyString => EmptyString
  | String c s =>
      if Ascii.eqb c underscore then camel_from false true s
      else if next_upper then String (toupper c) (camel_from false false s)
      else if first then String (tolower c) (camel_from false next_upper s)
      else String c (camel_from false next_upper s)
  end.
Definition ConvertToCamelCase (s : string) : string := camel_from true false s.

Fixpoint pascal_from (next_upper : bool) (s : string) : string :=
  match s with
  | EmptyString => EmptyString
  | String c s =>
      if Ascii.eqb c underscore then pascal_from true s
      else if next_upper then String (toupper c) (pascal_from false s)
      else String (tolower c) (pascal_from next_upper s)
  end.
Definition ConvertToPascalCase (s : string) : string := pascal_from true s.

Fixpoint snake_from (first : bool) (s : string) : string :=
  match s with
  | EmptyString => EmptyString
  | String c s =>
      let rest := String (tolower c) (snake_from false s) in
      if is_upper c && negb first then String underscore rest else rest
  end.
Definition ConvertToSnakeCase (s : string) : string := snake_from true s.

(** ** Characters *)

(** Any statement about one character is decided by the 256 cases. *)
Definition all_ascii : list ascii := map ascii_of_nat (seq 0 256).

Lemma all_ascii_complete c : In c all_ascii.
Proof.
  unfold all_ascii. rewrite in_map_iff. exists (nat_of_ascii c).
  split; [apply ascii_nat_embedding |]. apply in_seq. pose proof (nat_ascii_bounded c). lia.
Qed.

Lemma ascii_forall (p : ascii -> bool) : forallb p all_ascii = true -> forall c, p c = true.
Proof. intros H c. rewrite forallb_forall in H. apply H, all_ascii_complete. Qed.

Lemma toupper_idemp c : toupper (toupper c) = toupper c.
Proof. apply Ascii.eqb_eq. revert c. apply ascii_forall. vm_compute. reflexivity. Qed.

Lemma tolower_toupper c : is_lower c = true -> tolower (toupper c) = c.
Proof.
  intros H. apply Ascii.eqb_eq. apply (proj1 (implb_true_iff (is_lower c) _)); [| exact H].
  revert c H. intros c _. revert c. apply ascii_forall. vm_compute. reflexivity.
Qed.

Lemma upper_of_lower c : is_lower c = true -> is_upper (toupper c) = true.
Proof.
  intros H. apply (proj1 (implb_true_iff (is_lower c) _)); [| exact H].
  revert c H. intros c _. revert c. apply ascii_forall. vm_compute. reflexivity.
Qed.

(** Neither a lower-case letter nor a digit is changed or read as a capital. *)
Lemma plain_char c :
  is_lower c || is_digit c = true ->
  tolower c = c /\ is_upper c = false /\ Ascii.eqb c underscore = false.
Proof.
  intros H.
  assert (Ascii.eqb (tolower c) c && negb (is_upper c) && negb (Ascii.eqb c underscore) = true) as Hc.
  { apply (proj1 (implb_true_iff (is_lower c || is_digit c) _)); [| exact H].
    revert c H. intros c _. revert c. apply ascii_forall. vm_compute. reflexivity. }
  bool_to_prop. split_and!; [by apply Ascii.eqb_eq | done | done].
Qed.

Lemma ToUpperCase_idemp s : ToUpperCase (ToUpperCase s) = ToUpperCase s.
Proof. induction s as [| c s IH]; [done |]. cbn. by rewrite toupper_idemp, IH. Qed.

(** ** Names in snake case

    Segments of lower-case letters and digits that start with a letter, joined by
    single underscores. *)
Fixpoint snake_name (segment_start : bool) (s : string) : bool :=
  match s with
  | EmptyString => negb segment_start
  | String c s =>
      if Ascii.eqb c underscore then negb segment_start && snake_name true s
      else if segment_start then is_lower c && snake_name false s
      else (is_lower c || is_digit c) && snake_name false s
  end.

(** Inside a name: the separators are rebuilt from the capitals. *)
Lemma snake_of_pascal s b :
  snake_name b s = true ->
  snake_from false (pascal_from b s) = if b then String underscore s else s.
Proof.
  revert b. induction s as [| c s IH]; intros b; [by destruct b |]. cbn [snake_name pascal_from].
  destruct (Ascii.eqb c underscore) eqn:Eu.
  - intros [Hb Hs]%andb_true_iff. destruct b; [done |]. apply Ascii.eqb_eq in Eu as ->. by apply IH in Hs.
  - destruct b; intros [Hc Hs]%andb_true_iff; specialize (IH _ Hs); cbn [snake_from]; cbv zeta.
    + rewrite (upper_of_lower _ Hc), (tolower_toupper _ Hc), IH. done.
    + destruct (plain_char c Hc) as (Hl & Hu & _). by rewrite !Hl, Hu, IH.
Qed.

Lemma snake_of_camel s b :
  snake_name b s = true ->
  snake_from false (camel_from false b s) = if b then String underscore s else s.
Proof.
  revert b. induction s as [| c s IH]; intros b; [by destruct b |]. cbn [snake_name camel_from].
  destruct (Ascii.eqb c underscore) eqn:Eu.
  - intros [Hb Hs]%andb_true_iff. destruct b; [done |]. apply Ascii.eqb_eq in Eu as ->. by apply IH in Hs.
  - destruct b; intros [Hc Hs]%andb_true_iff; specialize (IH _ Hs); cbn [snake_from]; cbv zeta.
    + rewrite (upper_of_lower _ Hc), (tolower_toupper _ Hc), IH. done.
    + destruct (plain_char c Hc) as (Hl & Hu & _). by rewrite Hl, Hu, IH.
Qed.

Lemma snake_round_trip s :
  snake_name true s = true ->
  ConvertToSnakeCase (ConvertToPascalCase s) = s /\ ConvertToSnakeCase (ConvertToCamelCase s) = s.
Proof.
  destruct s as [| c s]; [done |]. cbn [snake_name].
  destruct (Ascii.eqb c underscore) eqn:Eu; [done |]. intros [Hc Hs]%andb_true_iff.
  pose proof (plain_char c ltac:(by rewrite Hc)) as (Hl & Hu & _).
  unfold ConvertToSnakeCase, ConvertToPascalCase, ConvertToCamelCase.
  cbn [pascal_from camel_from]. rewrite Eu. cbn [snake_from]. cbv zeta. rewrite andb_false_r.
  split.
  - rewrite (tolower_toupper _ Hc). by rewrite (snake_of_pascal s false Hs).
  - rewrite Hl, Hu. cbn [andb]. rewrite Hl. by rewrite (snake_of_camel s false Hs).
Qed.

(** A name that is already in camel case loses its inner capitals. *)
Example pascal_of_camel : ConvertToPascalCase "cameraId" = "Cameraid"%string.
Proof. reflexivity. Qed.

Open Scope Z_scope.
Open Scope list_scope.

(** ** Concatenation *)

Lemma append_assoc' a b c : ((a ++ b) ++ c)%string = (a ++ (b ++ c))%string.
Proof. induction a as [| x a IH]; [done | exact (f_equal (String x) IH)]. Qed.

Lemma append_cons x a b : (String x a ++ b)%string = String x (a ++ b)%string.
Proof. done. Qed.

Lemma append_nil_l a : ("" ++ a)%string = a.
Proof. done. Qed.

Lemma append_nil a : (a ++ "")%string = a.
Proof. induction a as [| x a IH]; [done | exact (f_equal (String x) IH)]. Qed.

Lemma append_cancel a b c : (a ++ b = a ++ c)%string -> b = c.
Proof. induction a as [| x a IH]; [done |]. rewrite !append_cons. intros [= H]. by apply IH. Qed.

Lemma list_of_append a b : list_ascii_of_string (a ++ b) = list_ascii_of_string a ++ list_ascii_of_string b.
Proof. induction a as [| x a IH]; [done | exact (f_equal (cons x) IH)]. Qed.

(** ** Strings of such characters *)

Definition chars (P : ascii -> Prop) (s : string) : Prop := Forall P (list_ascii_of_string s).

Section Chars.
Context (P : ascii -> Prop).

Lemma chars_app a b : chars P (a ++ b) <-> chars P a /\ chars P b.
Proof. unfold chars. by rewrite list_of_append, Forall_app. Qed.

Lemma chars_cons c s : chars P (String c s) <-> P c /\ chars P s.
Proof. apply Forall_cons. Qed.

Lemma chars_nil : chars P "".
Proof. constructor. Qed.

(** *** Printed numbers *)

Definition digits_are : Prop := forall d, (d < 10)%N -> P (pretty_N_char d).

Lemma chars_pretty_N_go x s : digits_are -> chars P s -> chars P (pretty_N_go x s).
Proof.
  intros HP. revert s. induction (N.lt_wf_0 x) as [x _ IH]; intros s Hs. destruct (decide (x = 0)%N) as [-> | Hx]; [by rewrite pretty_N_go_0 |].
  rewrite pretty_N_go_step by lia. apply IH; [apply N.div_lt; lia |]. apply chars_cons. split; [apply HP, N.mod_lt; lia | done].
Qed.

Lemma chars_pretty_nonneg (z : Z) : digits_are -> 0 <= z -> chars P (pretty z).
Proof.
  intros HP Hz. destruct z as [| p | p]; [| | lia].
  - apply chars_cons. split; [exact (HP 0%N eq_refl) | apply chars_nil].
  - change (chars P (pretty (N.pos p))). unfold pretty, pretty_N. rewrite decide_False by done. apply chars_pretty_N_go; [done | apply chars_nil].
Qed.

Lemma chars_pretty (z : Z) : digits_are -> P "-"%char -> chars P (pretty z).
Proof.
  intros HP Hm. destruct z as [| p | p]; [by apply chars_pretty_nonneg | by apply chars_pretty_nonneg |].
  apply chars_cons. split; [done |]. exact (chars_pretty_nonneg (Z.pos p) HP (Pos2Z.is_nonneg p)).
Qed.
End Chars.

(** A property of the ten digits, by evaluation. *)
Lemma digits_are_forallb (f : ascii -> bool) : forallb (fun n => f (pretty_N_char (N.of_nat n))) (seq 0 10) = true -> digits_are (fun c => f c = true).
Proof.
  intros H d Hd. rewrite forallb_forall in H. specialize (H (N.to_nat d)). rewrite N2Nat.id in H. apply H, in_seq. lia.
Qed.

Lemma digits_are_not c : forallb (fun n => negb (Ascii.eqb (pretty_N_char (N.of_nat n)) c)) (seq 0 10) = true -> digits_are (fun d => d <> c).
Proof.
  intros H d Hd. pose proof (digits_are_forallb (fun d => negb (Ascii.eqb d c)) H d Hd) as He. cbn beta in He. by destruct (Ascii.eqb_spec (pretty_N_char d) c).
Qed.

Lemma pretty_not_empty (z : Z) : pretty z <> ""%string.
Proof.
  assert (forall x s, pretty_N_go x s = "" -> s = "")%string as Hg.
  { intros x. induction (N.lt_wf_0 x) as [x _ IH]; intros s Hs. destruct (decide (x = 0)%N) as [-> | Hx]; [by rewrite pretty_N_go_0 in Hs |].
    rewrite pretty_N_go_step in Hs by lia. apply IH in Hs; [done | apply N.div_lt; lia]. }
  destruct z as [| p | p]; [done | | done]. change (pretty (N.pos p) <> ""%string). unfold pretty, pretty_N. rewrite decide_False by done.
  rewrite pretty_N_go_step by lia. intros H. by apply Hg in H.
Qed.

(** ** Parts at a separator *)

Definition without (sep : ascii) : string -> Prop := chars (fun c => c <> sep).

(** A rest is empty or begins with the separator. *)
Definition rest_at (sep : ascii) (s : string) : Prop := s = ""%string \/ exists t, s = String sep t.

Lemma first_part sep a a' r r' : without sep a -> without sep a' -> rest_at sep r -> rest_at sep r' -> (a ++ r = a' ++ r')%string -> a = a' /\ r = r'.
Proof.
  intros Ha Ha' Hr Hr'. revert a' Ha'. induction a as [| c a IH]; intros [| c' a'] Ha' H; rewrite ?append_nil_l, ?append_cons in H.
  - done.
  - apply chars_cons in Ha' as [Hc _]. destruct Hr as [-> | [t ->]]; [done |]. by injection H as ->.
  - apply chars_cons in Ha as [Hc _]. destruct Hr' as [-> | [t ->]]; [done |]. by injection H as ->.
  - injection H as -> H. apply chars_cons in Ha as [_ Ha], Ha' as [_ Ha']. by destruct (IH Ha a' Ha' H) as [-> ->].
Qed.

Lemma last_part sep a a' d d' : without sep d -> without sep d' -> (a ++ String sep d = a' ++ String sep d')%string -> d = d'.
Proof.
  intros Hd Hd'. assert (forall x b, ~ without sep (b ++ String sep x)) as Hn.
  { intros x b H. apply chars_app in H as [_ H]. by apply chars_cons in H as [H _]. }
  revert a'. induction a as [| c a IH]; intros [| c' a'] H; rewrite ?append_nil_l, ?append_cons in H.
  - by injection H.
  - injection H as _ H. rewrite H in Hd. by apply Hn in Hd.
  - injection H as _ H. rewrite <- H in Hd'. by apply Hn in Hd'.
  - injection H as _ H. by apply (IH a').
Qed.
