(* ===== verification/Json.v ===== *)
(** * JSON values

    What the program uses of the vendored [nlohmann::json] 3.11.3
    ([BasicLibs/core/parser/json/json.hpp], [json_impl.h]): values, type tests,
    member access and conversions.  [None] is a thrown exception.  A value holds
    integers of [int64_t] and [uint64_t]; an object is the list of its members in
    the order of their names (a [std::map]).

    Facts on JSON values.  Values whose objects have their members in the order of their keys, as [std::map] has
    them, induction on nested values, and the members of an object after an assignment. *)

From Stdlib Require Import SpecFloat Ascii String.
From stdpp Require Import pretty list.
From S2P Require Import Prelude Float32 StringUtils.
Open Scope Z_scope.
Open Scope list_scope.

#[warnings="-register-all"]
Inductive json :=
| JNull
| JBool (b : bool)
| JInt (z : Z)
| JFloat (f : f64)
| JString (s : string)
| JArray (l : list json)
| JObject (m : list (string * json)).

(** ** Type tests *)

Definition is_null (j : json) : bool := match j with JNull => true | _ => false end.
Definition is_object (j : json) : bool := match j with JObject _ => true | _ => false end.
Definition is_array (j : json) : bool := match j with JArray _ => true | _ => false end.
Definition is_string (j : json) : bool := match j with JString _ => true | _ => false end.
Definition is_number_integer (j : json) : bool := match j with JInt _ => true | _ => false end.
Definition is_number (j : json) : bool := match j with JInt _ | JFloat _ => true | _ => false end.

Definition json_empty (j : json) : bool :=
  match j with
  | JNull => true
  | JArray [] => true
  | JObject [] => true
  | _ => false
  end.

(** ** Members *)

Fixpoint find_member (key : string) (m : list (string * json)) : option json :=
  match m with
  | [] => None
  | (k, v) :: m => if String.eqb k key then Some v else find_member key m
  end.

Definition member (j : json) (key : string) : option json :=
  match j with JObject m => find_member key m | _ => None end.

Definition contains (j : json) (key : string) : bool :=
  match member j key with Some _ => true | None => false end.

(** [j[key]] of a [const] object, used only where [contains] holds. *)
Definition at_key (j : json) (key : string) : json := default JNull (member j key).

(** [j[key] = v]. *)
Fixpoint replace_member (key : string) (v : json) (m : list (string * json)) : list (string * json) :=
  match m with
  | [] => [(key, v)]
  | (k, w) :: m => if String.eqb k key then (k, v) :: m
                   else if String.ltb key k then (key, v) :: (k, w) :: m
                   else (k, w) :: replace_member key v m
  end.

(** A null value becomes an object; other types throw. *)
Definition set_member (j : json) (key : string) (v : json) : option json :=
  match j with
  | JObject m => Some (JObject (replace_member key v m))
  | JNull => Some (JObject [(key, v)])
  | _ => None
  end.

(** The elements a range [for] visits. *)
Definition elements_of (j : json) : list json :=
  match j with
  | JArray l => l
  | JObject m => map snd m
  | JNull => []
  | _ => [j]
  end.

(** ** Conversions *)

Definition get_int (j : json) : option Z :=
  match j with
  | JInt z => Some (i32 z)
  | JFloat f => Some (i32_of_f f)
  | JBool b => Some (if b then 1 else 0)
  | _ => None
  end.

Definition get_float (j : json) : option f32 :=
  match j with
  | JInt z => Some (f32_of_Z z)
  | JFloat f => Some (f32_of_f64 f)
  | JBool b => Some (if b then f1 else f0)
  | _ => None
  end.

Definition get_bool (j : json) : option bool := match j with JBool b => Some b | _ => None end.
Definition get_string (j : json) : option string := match j with JString s => Some s | _ => None end.

(** An enumeration whose underlying type is [unsigned int]: no booleans. *)
Definition saturate_u32 (z : Z) : Z := Z.max 0 (Z.min z (2 ^ 32 - 1)).
Definition get_enum (j : json) : option Z :=
  match j with
  | JInt z => Some (u32 z)
  | JFloat (S754_infinity s) => Some (if s then 0 else 2 ^ 32 - 1)
  | JFloat f => Some (saturate_u32 (f_trunc f))
  | _ => None
  end.

(** [j.value( key, default_value )]. *)
Definition value {A} (get : json -> option A) (j : json) (key : string) (default_value : A) : option A :=
  match j with
  | JObject m => match find_member key m with Some v => get v | None => Some default_value end
  | _ => None
  end.

(** [filterJsonArray]: the objects of the array whose member equals the value. *)
Fixpoint filter_objects (l : list json) (key : string) (unit_id : Z) : option (list json) :=
  match l with
  | [] => Some []
  | obj :: l =>
      if contains obj key then
        match get_int (at_key obj key), filter_objects l key unit_id with
        | Some z, Some rest => Some (if z =? unit_id then obj :: rest else rest)
        | _, _ => None
        end
      else filter_objects l key unit_id
  end.

Definition filterJsonArray (j : json) (key : string) (unit_id : Z) : option json :=
  match j with
  | JArray l => JArray <$> filter_objects l key unit_id
  | _ => Some (JArray [])
  end.

(** ** Numbers in strings *)

Definition is_space (c : ascii) : bool :=
  let n := nat_of_ascii c in ((n =? 32) || ((9 <=? n) && (n <=? 13)))%nat.

Fixpoint skip_spaces (s : string) : string :=
  match s with String c s' => if is_space c then skip_spaces s' else s | EmptyString => s end.

Definition digit_value (c : ascii) : Z := Z.of_nat (nat_of_ascii c - 48).

(** The value of the leading digits, and whether there is one. *)
Fixpoint leading_digits (acc : Z) (seen : bool) (s : string) : option Z :=
  match s with
  | String c s' => if is_digit c then leading_digits (10 * acc + digit_value c) true s'
                   else if seen then Some acc else None
  | EmptyString => if seen then Some acc else None
  end.

(** [std::stoi]: leading spaces, a sign, digits; what follows is ignored. *)
Definition stoi (s : string) : option Z :=
  let s := skip_spaces s in
  let '(sign, s) := match s with
                    | String c s' => if Ascii.eqb c "-"%char then (-1, s')
                                     else if Ascii.eqb c "+"%char then (1, s') else (1, s)
                    | EmptyString => (1, s)
                    end in
  match leading_digits 0 false s with
  | Some n => let z := sign * n in if (- 2 ^ 31 <=? z) && (z <=? 2 ^ 31 - 1) then Some z else None
  | None => None
  end.

(** ** Lemmas *)

Lemma contains_member j key : contains j key = true <-> exists v, member j key = Some v.
Proof. unfold contains. destruct (member j key); split; [eauto | done | done | by intros [? [=]]]. Qed.

Lemma contains_object j key : contains j key = true -> is_object j = true.
Proof. by destruct j. Qed.

Lemma filter_objects_nil key u l :
  Forall (fun o => contains o key = false \/ exists z, get_int (at_key o key) = Some z /\ z <> u) l ->
  filter_objects l key u = Some [].
Proof.
  induction 1 as [| o l [Ho | (z & Ho & Hz)] _ IH]; cbn; [done | by rewrite Ho |].
  rewrite Ho, IH. case_if; [| done]. by rewrite (proj2 (Z.eqb_neq z u) Hz).
Qed.

Lemma stoi_range s z : stoi s = Some z -> in_i32 z.
Proof.
  unfold stoi. destruct (match skip_spaces s with String _ _ => _ | EmptyString => _ end) as [sign s'].
  destruct (leading_digits 0 false s') as [n |]; [| done]. case_if; [| done]. intros [= <-].
  bool_to_prop. unfold in_i32. lia.
Qed.

Example stoi_examples : stoi " 42 cams" = Some 42 /\ stoi "-7" = Some (-7) /\ stoi "x" = None /\ stoi "2147483648" = None.
Proof. split_and!; reflexivity. Qed.

#[export] Hint Resolve stoi_range : mgen.

Fixpoint keys_sorted {A} (m : list (string * A)) : bool :=
  match m with [] => true | (k, _) :: m => forallb (fun kv => String.ltb k (fst kv)) m && keys_sorted m end.

(** The members of an object are in the order of their names, each once. *)
Fixpoint wf_json (j : json) : bool :=
  match j with
  | JArray l => forallb wf_json l
  | JObject m => keys_sorted m && forallb (fun kv => wf_json (snd kv)) m
  | _ => true
  end.

Section JsonInduction.
Context (P : json -> Prop) (Hleaf : forall j, is_object j = false -> is_array j = false -> P j)
  (Harray : forall l, Forall P l -> P (JArray l)) (Hobject : forall m, Forall (fun kv => P (snd kv)) m -> P (JObject m)).

Fixpoint json_nested_ind (j : json) : P j :=
  match j with
  | JArray l => Harray l ((fix all l : Forall P l := match l with [] => Forall_nil_2 _ | x :: l => Forall_cons_2 _ x l (json_nested_ind x) (all l) end) l)
  | JObject m => Hobject m ((fix all m : Forall (fun kv => P (snd kv)) m :=
      match m with [] => Forall_nil_2 _ | x :: m => Forall_cons_2 _ x m (json_nested_ind (snd x)) (all m) end) m)
  | JNull => Hleaf JNull eq_refl eq_refl
  | JBool b => Hleaf (JBool b) eq_refl eq_refl
  | JInt z => Hleaf (JInt z) eq_refl eq_refl
  | JFloat f => Hleaf (JFloat f) eq_refl eq_refl
  | JString s => Hleaf (JString s) eq_refl eq_refl
  end.

End JsonInduction.

Lemma ltb_neq k k' : String.ltb k k' = true -> String.eqb k' k = false.
Proof.
  intros H. apply String.eqb_neq. intros ->. unfold String.ltb in H. pose proof (String.compare_antisym k k) as Ha.
  by destruct (String.compare k k).
Qed.

Lemma ltb_asym k k' : String.ltb k k' = true -> String.eqb k k' = false /\ String.ltb k' k = false.
Proof.
  intros H. split; [rewrite String.eqb_sym; by apply ltb_neq |]. unfold String.ltb in *. rewrite String.compare_antisym.
  by destruct (String.compare k k').
Qed.

Lemma replace_member_last k v acc : forallb (fun kv => String.ltb (fst kv) k) acc = true -> replace_member k v acc = acc ++ [(k, v)].
Proof.
  induction acc as [| [k' w] acc IH]; [done |]. cbn. intros [H Hr]%andb_prop. destruct (ltb_asym k' k H) as [-> ->]. by rewrite IH.
Qed.

(** ** The order of the keys *)

Lemma ascii_compare_lt a b : Ascii.compare a b = Lt <-> (N_of_ascii a < N_of_ascii b)%N.
Proof. apply N.compare_lt_iff. Qed.

Lemma compare_trans a b c : String.compare a b = Lt -> String.compare b c = Lt -> String.compare a c = Lt.
Proof.
  revert b c. induction a as [| x a IH]; intros [| y b] [| z c]; cbn; try done.
  destruct (Ascii.compare x y) eqn:E1; [apply Ascii.compare_eq_iff in E1 as -> | | done];
    (destruct (Ascii.compare y z) eqn:E2; [apply Ascii.compare_eq_iff in E2 as -> | | done]); intros H1 H2.
  - by apply (IH b).
  - done.
  - by rewrite E1.
  - assert (Ascii.compare x z = Lt) as ->; [| done]. pose proof (proj1 (ascii_compare_lt x y) E1). pose proof (proj1 (ascii_compare_lt y z) E2). apply (proj2 (ascii_compare_lt x z)). lia.
Qed.

Lemma ltb_trans a b c : String.ltb a b = true -> String.ltb b c = true -> String.ltb a c = true.
Proof.
  unfold String.ltb. destruct (String.compare a b) eqn:E1; try done. destruct (String.compare b c) eqn:E2; try done. by rewrite (compare_trans a b c E1 E2).
Qed.

Lemma ltb_total a b : String.eqb a b = false -> String.ltb a b = false -> String.ltb b a = true.
Proof.
  unfold String.ltb. rewrite (String.compare_antisym b a). intros He. destruct (String.compare a b) eqn:E; [| done | done]. apply String.compare_eq_iff in E as ->. by rewrite String.eqb_refl in He.
Qed.

(** ** Assignment *)

Lemma replace_member_forall (Q : string * json -> bool) k v m : Q (k, v) = true -> forallb Q m = true -> forallb Q (replace_member k v m) = true.
Proof.
  intros Hk. induction m as [| [k' w] m IH]; cbn; [by rewrite Hk |]. intros [H Hr]%andb_prop. destruct (String.eqb_spec k' k) as [-> | _]; cbn; [by rewrite Hk, Hr |].
  destruct (String.ltb k k'); cbn; [by rewrite Hk, H, Hr | by rewrite H, IH].
Qed.

Lemma replace_member_sorted k v m : keys_sorted m = true -> keys_sorted (replace_member k v m) = true.
Proof.
  induction m as [| [k' w] m IH]; [done |]. cbn. intros [H Hr]%andb_prop. destruct (String.eqb k' k) eqn:E; cbn; [by rewrite H, Hr |].
  destruct (String.ltb k k') eqn:El; cbn.
  - rewrite El, H, Hr. cbn. rewrite andb_true_r. apply forallb_forall. intros [k2 w2] Hin. rewrite forallb_forall in H. specialize (H _ Hin). by apply (ltb_trans k k').
  - rewrite IH by done. rewrite andb_true_r. apply (replace_member_forall (fun kv => String.ltb k' (fst kv))); [cbn | done]. apply ltb_total; [by rewrite String.eqb_sym | done].
Qed.

(** A new key after all others, assigned twice. *)
Lemma find_member_above k m : forallb (fun kv => String.ltb (fst kv) k) m = true -> find_member k m = None.
Proof. induction m as [| [k' w] m IH]; [done |]. cbn. intros [H Hr]%andb_prop. destruct (ltb_asym k' k H) as [-> _]. by apply IH. Qed.

Lemma replace_member_again k v w m : forallb (fun kv => String.ltb (fst kv) k) m = true -> replace_member k v (m ++ [(k, w)]) = m ++ [(k, v)].
Proof. induction m as [| [k' u] m IH]; cbn; [by rewrite String.eqb_refl |]. intros [H Hr]%andb_prop. destruct (ltb_asym k' k H) as [-> ->]. by rewrite IH. Qed.
