(* ===== verification/JsonLexer.v ===== *)
(** * The JSON lexer

    [lexer] of the vendored nlohmann::json 3.11.3 ([BasicLibs/core/parser/json/json.hpp]), by
    which every file, answer and text of the program is read.  The input is a list of bytes; the
    lexer is the record of its fields, and a function that reads returns the lexer after it.
    The counters of the position count characters of an input and cannot overflow.  The loops
    have the length of the input as fuel: each turn reads a character or ends.  The decimal
    point is that of the "C" locale, which the program never changes.

    Properties of the JSON lexer.  What a function of the lexer reads: a part of what was unread, at least one byte for a token
    that is not the last.  So the loops have fuel enough, and every string token is UTF-8. *)

From Stdlib Require Import SpecFloat Ascii String.
From stdpp Require Import list pretty.
From S2P Require Import Prelude Float32.
Open Scope Z_scope.
Open Scope list_scope.

(** ** Bytes *)

Definition eof : Z := -1.
Definition bytes_of_string (s : string) : list Z := map (fun c => Z.of_nat (nat_of_ascii c)) (list_ascii_of_string s).
Definition string_of_bytes (l : list Z) : string := string_of_list_ascii (map (fun b => ascii_of_nat (Z.to_nat b)) l).

(** The code of a character. *)
Definition ch (c : ascii) : Z := Z.of_nat (nat_of_ascii c).
Definition QUOTE : Z := 34.
Definition BACKSLASH : Z := 92.

Definition between (lo hi c : Z) : bool := (lo <=? c) && (c <=? hi).
Definition is_digit_byte (c : Z) : bool := between 48 57 c.

(** ** Data *)

Inductive token_type :=
| uninitialized | literal_true | literal_false | literal_null | value_string | value_unsigned | value_integer | value_float
| begin_array | begin_object | end_array | end_object | name_separator | value_separator | parse_error | end_of_input | literal_or_value.

#[export] Instance token_type_eq_dec : EqDecision token_type.
Proof. solve_decision. Defined.

Definition token_type_name (t : token_type) : string :=
  match t with
  | uninitialized => "<uninitialized>" | literal_true => "true literal" | literal_false => "false literal" | literal_null => "null literal"
  | value_string => "string literal" | value_unsigned | value_integer | value_float => "number literal"
  | begin_array => "'['" | begin_object => "'{'" | end_array => "']'" | end_object => "'}'" | name_separator => "':'" | value_separator => "','"
  | parse_error => "<parse error>" | end_of_input => "end of input" | literal_or_value => "'[', '{', or a literal"
  end.

(** The conversions of the C library: what [token_buffer] holds is a number of the grammar. *)
Definition digits_value (l : list Z) : Z := fold_left (fun acc c => 10 * acc + (c - 48)) l 0.

(** The leading digits and what follows. *)
Fixpoint span_digits (l : list Z) : list Z * list Z :=
  match l with
  | [] => ([], [])
  | c :: l' => if is_digit_byte c then let '(d, r) := span_digits l' in (c :: d, r) else ([], l)
  end.

Definition take_sign (l : list Z) : bool * list Z :=
  match l with
  | c :: l' => if c =? 45 then (true, l') else if c =? 43 then (false, l') else (false, l)
  | [] => (false, [])
  end.

(** [m * 10^e], rounded once. *)
Definition decimal_to_f64 (s : bool) (m : Z) (e : Z) : f64 :=
  match m with
  | Zpos p =>
      if 0 <=? e then let x := f64_of_Z (m * 10 ^ e) in if s then SFopp x else x
      else match 10 ^ (- e) with
           | Zpos q => f64_div (S754_finite s p 0) (S754_finite false q 0)
           | _ => S754_nan
           end
  | _ => S754_zero s
  end.

Definition strtod (l : list Z) : f64 :=
  let '(s, l) := take_sign l in
  let '(whole, l) := span_digits l in
  let '(fraction, l) := match l with c :: l' => if c =? 46 then span_digits l' else ([], l) | [] => ([], []) end in
  let e := match l with
           | c :: l' => if (c =? 101) || (c =? 69) then let '(neg, d) := take_sign l' in let n := digits_value (fst (span_digits d)) in if neg then - n else n else 0
           | [] => 0
           end in
  decimal_to_f64 s (digits_value (whole ++ fraction)) (e - Z.of_nat (length fraction)).

(** [None]: out of range. *)
Definition strtoull (l : list Z) : option Z := let x := digits_value (fst (span_digits l)) in if x <? 2 ^ 64 then Some x else None.
Definition strtoll (l : list Z) : option Z :=
  let '(neg, d) := take_sign l in
  let n := digits_value (fst (span_digits d)) in
  let x := if neg then - n else n in
  if (- 2 ^ 63 <=? x) && (x <? 2 ^ 63) then Some x else None.

Record lexer := mkLexer {
  ia : list Z;                       (* what the input adapter still has *)
  current : Z;
  next_unget : bool;
  chars_read_total : nat;
  chars_read_current_line : nat;
  lines_read : nat;
  token_string : list Z;
  token_buffer : list Z;
  error_message : string;
  lex_integer : Z;
  lex_unsigned : Z;
  lex_float : f64
}.

Definition lexer_make (input : list Z) : lexer := mkLexer input eof false 0 0 0 [] [] "" 0 0 f0.

Definition with_buffer (l : lexer) (b : list Z) : lexer :=
  mkLexer (ia l) (current l) (next_unget l) (chars_read_total l) (chars_read_current_line l) (lines_read l) (token_string l) b (error_message l) (lex_integer l) (lex_unsigned l) (lex_float l).
Definition with_token (l : lexer) (t : list Z) : lexer :=
  mkLexer (ia l) (current l) (next_unget l) (chars_read_total l) (chars_read_current_line l) (lines_read l) t (token_buffer l) (error_message l) (lex_integer l) (lex_unsigned l) (lex_float l).
Definition with_error (l : lexer) (m : string) : lexer :=
  mkLexer (ia l) (current l) (next_unget l) (chars_read_total l) (chars_read_current_line l) (lines_read l) (token_string l) (token_buffer l) m (lex_integer l) (lex_unsigned l) (lex_float l).
Definition with_values (l : lexer) (i u : Z) (f : f64) : lexer :=
  mkLexer (ia l) (current l) (next_unget l) (chars_read_total l) (chars_read_current_line l) (lines_read l) (token_string l) (token_buffer l) (error_message l) i u f.

Definition fail (m : string) (l : lexer) : token_type * lexer := (parse_error, with_error l m).

(** ** Input *)

Definition lexer_reset (l : lexer) : lexer := with_token (with_buffer l []) [current l].
Definition add (c : Z) (l : lexer) : lexer := with_buffer l (token_buffer l ++ [c]).

Definition get (l : lexer) : lexer :=
  let '(c, rest) := if next_unget l then (current l, ia l) else match ia l with [] => (eof, []) | c :: rest => (c, rest) end in
  mkLexer rest c false (S (chars_read_total l))
    (if c =? 10 then 0%nat else S (chars_read_current_line l)) (if c =? 10 then S (lines_read l) else lines_read l)
    (if c =? eof then token_string l else token_string l ++ [c]) (token_buffer l) (error_message l) (lex_integer l) (lex_unsigned l) (lex_float l).

Definition unget (l : lexer) : lexer :=
  mkLexer (ia l) (current l) true (pred (chars_read_total l))
    (pred (chars_read_current_line l)) (if (chars_read_current_line l =? 0)%nat then pred (lines_read l) else lines_read l)
    (if current l =? eof then token_string l else removelast (token_string l)) (token_buffer l) (error_message l) (lex_integer l) (lex_unsigned l) (lex_float l).

(** The control characters of the text of an error, [<U+00XX>]. *)
Definition hex_upper (n : Z) : Z := if n <? 10 then 48 + n else 55 + n.
Definition get_token_string (l : lexer) : list Z :=
  flat_map (fun c => if c <=? 31 then map ch (list_ascii_of_string "<U+00") ++ [hex_upper (c / 16); hex_upper (c mod 16); 62] else [c]) (token_string l).

(** What is still to be read. *)
Definition unread (l : lexer) : list Z := if next_unget l then (if current l =? eof then [] else current l :: ia l) else ia l.

(** ** Strings *)

Definition hex_digit (c : Z) : option Z :=
  if between 48 57 c then Some (c - 48) else if between 65 70 c then Some (c - 55) else if between 97 102 c then Some (c - 87) else None.

(** The four digits, by the shifts of their values; -1 where one is none. *)
Fixpoint get_codepoint_from (factors : list Z) (codepoint : Z) (l : lexer) : Z * lexer :=
  match factors with
  | [] => (codepoint, l)
  | factor :: factors =>
      let l := get l in
      match hex_digit (current l) with
      | Some d => get_codepoint_from factors (codepoint + Z.shiftl d factor) l
      | None => (-1, l)
      end
  end.
Definition get_codepoint (l : lexer) : Z * lexer := get_codepoint_from [12; 8; 4; 0] 0 l.

Fixpoint next_byte_in_range_from (ranges : list (Z * Z)) (l : lexer) : bool * lexer :=
  match ranges with
  | [] => (true, l)
  | (lo, hi) :: ranges =>
      let l := get l in
      if between lo hi (current l) then next_byte_in_range_from ranges (add (current l) l)
      else (false, with_error l "invalid string: ill-formed UTF-8 byte")
  end.
Definition next_byte_in_range (ranges : list (Z * Z)) (l : lexer) : bool * lexer := next_byte_in_range_from ranges (add (current l) l).

(** The bytes of a code point. *)
Definition encode (codepoint : Z) : list Z :=
  if codepoint <? 128 then [codepoint]
  else if codepoint <=? 2047 then [Z.lor 192 (Z.shiftr codepoint 6); Z.lor 128 (Z.land codepoint 63)]
  else if codepoint <=? 65535 then [Z.lor 224 (Z.shiftr codepoint 12); Z.lor 128 (Z.land (Z.shiftr codepoint 6) 63); Z.lor 128 (Z.land codepoint 63)]
  else [Z.lor 240 (Z.shiftr codepoint 18); Z.lor 128 (Z.land (Z.shiftr codepoint 12) 63); Z.lor 128 (Z.land (Z.shiftr codepoint 6) 63); Z.lor 128 (Z.land codepoint 63)].

Definition add_all (cs : list Z) (l : lexer) : lexer := fold_left (fun l c => add c l) cs l.

Definition four_hex : string := "invalid string: '\u' must be followed by 4 hex digits".
Definition high_surrogate : string := "invalid string: surrogate U+D800..U+DBFF must be followed by U+DC00..U+DFFF".
Definition low_surrogate : string := "invalid string: surrogate U+DC00..U+DFFF must follow U+D800..U+DBFF".

(** What follows [\u]; nothing where the string is broken. *)
Definition scan_unicode (l : lexer) : bool * lexer :=
  let '(codepoint1, l) := get_codepoint l in
  if codepoint1 =? -1 then (false, with_error l four_hex)
  else if between 55296 56319 codepoint1 then
    let l := get l in
    if negb (current l =? BACKSLASH) then (false, with_error l high_surrogate)
    else
      let l := get l in
      if negb (current l =? ch "u") then (false, with_error l high_surrogate)
      else
        let '(codepoint2, l) := get_codepoint l in
        if codepoint2 =? -1 then (false, with_error l four_hex)
        else if between 56320 57343 codepoint2 then (true, add_all (encode (Z.shiftl codepoint1 10 + codepoint2 - 56613888)) l)
        else (false, with_error l high_surrogate)
  else if between 56320 57343 codepoint1 then (false, with_error l low_surrogate)
  else (true, add_all (encode codepoint1) l).

(** What follows a backslash. *)
Definition escape_of (c : Z) : option Z :=
  if c =? QUOTE then Some QUOTE else if c =? BACKSLASH then Some BACKSLASH else if c =? ch "/" then Some (ch "/")
  else if c =? ch "b" then Some 8 else if c =? ch "f" then Some 12 else if c =? ch "n" then Some 10
  else if c =? ch "r" then Some 13 else if c =? ch "t" then Some 9 else None.

Definition scan_escape (l : lexer) : bool * lexer :=
  let l := get l in
  match escape_of (current l) with
  | Some c => (true, add c l)
  | None => if current l =? ch "u" then scan_unicode l else (false, with_error l "invalid string: forbidden character after backslash")
  end.

(** The ranges of the bytes after the first of a code point: nothing for a byte that begins none. *)
Definition utf8_ranges (c : Z) : option (list (Z * Z)) :=
  if between 0 127 c then Some []
  else if between 194 223 c then Some [(128, 191)]
  else if c =? 224 then Some [(160, 191); (128, 191)]
  else if c =? 237 then Some [(128, 159); (128, 191)]
  else if between 225 239 c then Some [(128, 191); (128, 191)]
  else if c =? 240 then Some [(144, 191); (128, 191); (128, 191)]
  else if between 241 243 c then Some [(128, 191); (128, 191); (128, 191)]
  else if c =? 244 then Some [(128, 143); (128, 191); (128, 191)]
  else None.

(** The names of the control characters in the errors. *)
Definition control_message (c : Z) : string :=
  nth (Z.to_nat c)
    ["U+0000 (NUL) must be escaped to \u0000"; "U+0001 (SOH) must be escaped to \u0001"; "U+0002 (STX) must be escaped to \u0002"; "U+0003 (ETX) must be escaped to \u0003";
     "U+0004 (EOT) must be escaped to \u0004"; "U+0005 (ENQ) must be escaped to \u0005"; "U+0006 (ACK) must be escaped to \u0006"; "U+0007 (BEL) must be escaped to \u0007";
     "U+0008 (BS) must be escaped to \u0008 or \b"; "U+0009 (HT) must be escaped to \u0009 or \t"; "U+000A (LF) must be escaped to \u000A or \n"; "U+000B (VT) must be escaped to \u000B";
     "U+000C (FF) must be escaped to \u000C or \f"; "U+000D (CR) must be escaped to \u000D or \r"; "U+000E (SO) must be escaped to \u000E"; "U+000F (SI) must be escaped to \u000F";
     "U+0010 (DLE) must be escaped to \u0010"; "U+0011 (DC1) must be escaped to \u0011"; "U+0012 (DC2) must be escaped to \u0012"; "U+0013 (DC3) must be escaped to \u0013";
     "U+0014 (DC4) must be escaped to \u0014"; "U+0015 (NAK) must be escaped to \u0015"; "U+0016 (SYN) must be escaped to \u0016"; "U+0017 (ETB) must be escaped to \u0017";
     "U+0018 (CAN) must be escaped to \u0018"; "U+0019 (EM) must be escaped to \u0019"; "U+001A (SUB) must be escaped to \u001A"; "U+001B (ESC) must be escaped to \u001B";
     "U+001C (FS) must be escaped to \u001C"; "U+001D (GS) must be escaped to \u001D"; "U+001E (RS) must be escaped to \u001E"; "U+001F (US) must be escaped to \u001F"]%string ""%string.

Fixpoint scan_string_loop (fuel : nat) (l : lexer) : token_type * lexer :=
  match fuel with
  | O => (uninitialized, l)
  | S fuel =>
      let l := get l in
      let c := current l in
      if c =? eof then fail "invalid string: missing closing quote" l
      else if c =? QUOTE then (value_string, l)
      else if c =? BACKSLASH then
        let '(ok, l) := scan_escape l in
        if ok : bool then scan_string_loop fuel l else (parse_error, l)
      else if between 0 31 c then fail ("invalid string: control character " ++ control_message c) l
      else match utf8_ranges c with
           | Some ranges =>
               let '(ok, l) := next_byte_in_range ranges l in
               if ok : bool then scan_string_loop fuel l else (parse_error, l)
           | None => fail "invalid string: ill-formed UTF-8 byte" l
           end
  end.

Definition scan_string (l : lexer) : token_type * lexer := scan_string_loop (S (length (unread l))) (lexer_reset l).

(** ** Comments *)

Fixpoint single_line (fuel : nat) (l : lexer) : lexer :=
  match fuel with
  | O => l
  | S fuel => let l := get l in if (current l =? 10) || (current l =? 13) || (current l =? eof) || (current l =? 0) then l else single_line fuel l
  end.

Fixpoint multi_line (fuel : nat) (l : lexer) : bool * lexer :=
  match fuel with
  | O => (false, l)
  | S fuel =>
      let l := get l in
      if (current l =? eof) || (current l =? 0) then (false, with_error l "invalid comment; missing closing '*/'")
      else if current l =? 42 then
        let l := get l in
        if current l =? 47 then (true, l) else multi_line fuel (unget l)
      else multi_line fuel l
  end.

Definition scan_comment (l : lexer) : bool * lexer :=
  let l := get l in
  if current l =? 47 then (true, single_line (S (length (unread l))) l)
  else if current l =? 42 then multi_line (S (length (unread l))) l
  else (false, with_error l "invalid comment; expecting '/' or '*' after '/'").

(** ** Numbers *)

(** The states of the machine: what was just read. *)
Inductive number_state := num_minus | num_zero | num_any1 | num_decimal1 | num_decimal2 | num_exponent | num_sign | num_any2.

(** The next state for a character; the message where there is none; nothing where the number ends. *)
Inductive number_step := To (st : number_state) | Done | Wrong (m : string).

Definition number_next (st : number_state) (c : Z) : number_step :=
  match st with
  | num_minus => if c =? 48 then To num_zero else if between 49 57 c then To num_any1 else Wrong "invalid number; expected digit after '-'"
  | num_zero => if c =? 46 then To num_decimal1 else if (c =? 101) || (c =? 69) then To num_exponent else Done
  | num_any1 => if is_digit_byte c then To num_any1 else if c =? 46 then To num_decimal1 else if (c =? 101) || (c =? 69) then To num_exponent else Done
  | num_decimal1 => if is_digit_byte c then To num_decimal2 else Wrong "invalid number; expected digit after '.'"
  | num_decimal2 => if is_digit_byte c then To num_decimal2 else if (c =? 101) || (c =? 69) then To num_exponent else Done
  | num_exponent =>
      if (c =? 43) || (c =? 45) then To num_sign else if is_digit_byte c then To num_any2 else Wrong "invalid number; expected '+', '-', or digit after exponent"
  | num_sign => if is_digit_byte c then To num_any2 else Wrong "invalid number; expected digit after exponent sign"
  | num_any2 => if is_digit_byte c then To num_any2 else Done
  end.

(** The type of the number when a state is entered. *)
Definition number_type_in (st : number_state) (number_type : token_type) : token_type :=
  match st with num_minus => value_integer | num_decimal1 | num_exponent => value_float | _ => number_type end.

Fixpoint scan_number_states (fuel : nat) (st : number_state) (number_type : token_type) (l : lexer) : option token_type * lexer :=
  match fuel with
  | O => (None, l)
  | S fuel =>
      let number_type := number_type_in st number_type in
      let l := get l in
      match number_next st (current l) with
      | To st' => scan_number_states fuel st' number_type (add (current l) l)
      | Done => (Some number_type, l)
      | Wrong m => (None, with_error l m)
      end
  end.

Definition scan_number_done (number_type : token_type) (l : lexer) : token_type * lexer :=
  let l := unget l in
  let as_float := (value_float, with_values l (lex_integer l) (lex_unsigned l) (strtod (token_buffer l))) in
  match number_type with
  | value_unsigned => match strtoull (token_buffer l) with Some x => (value_unsigned, with_values l (lex_integer l) x (lex_float l)) | None => as_float end
  | value_integer => match strtoll (token_buffer l) with Some x => (value_integer, with_values l x (lex_unsigned l) (lex_float l)) | None => as_float end
  | _ => as_float
  end.

Definition number_start (c : Z) : number_state := if c =? 45 then num_minus else if c =? 48 then num_zero else num_any1.

Definition scan_number (l : lexer) : token_type * lexer :=
  let l := lexer_reset l in
  let l := add (current l) l in
  match scan_number_states (S (length (unread l))) (number_start (current l)) value_unsigned l with
  | (Some number_type, l) => scan_number_done number_type l
  | (None, l) => (parse_error, l)
  end.

(** ** Tokens *)

(** [text]: the characters after the first. *)
Fixpoint scan_literal (text : list Z) (return_type : token_type) (l : lexer) : token_type * lexer :=
  match text with
  | [] => (return_type, l)
  | c :: text => let l := get l in if current l =? c then scan_literal text return_type l else fail "invalid literal" l
  end.

Definition skip_bom (l : lexer) : bool * lexer :=
  let l := get l in
  if current l =? 239 then
    let l := get l in
    if current l =? 187 then let l := get l in (current l =? 191, l) else (false, l)
  else (true, unget l).

Definition is_whitespace (c : Z) : bool := (c =? 32) || (c =? 9) || (c =? 10) || (c =? 13).

Fixpoint skip_whitespace (fuel : nat) (l : lexer) : lexer :=
  match fuel with
  | O => l
  | S fuel => let l := get l in if is_whitespace (current l) then skip_whitespace fuel l else l
  end.

Definition skip_whitespaces (l : lexer) : lexer := skip_whitespace (S (length (unread l))) l.

Fixpoint skip_comments (fuel : nat) (l : lexer) : bool * lexer :=
  match fuel with
  | O => (false, l)
  | S fuel =>
      if current l =? 47 then
        let '(ok, l) := scan_comment l in
        if ok : bool then skip_comments fuel (skip_whitespaces l) else (false, l)
      else (true, l)
  end.

Definition scan_current (l : lexer) : token_type * lexer :=
  let c := current l in
  if c =? ch "[" then (begin_array, l)
  else if c =? ch "]" then (end_array, l)
  else if c =? ch "{" then (begin_object, l)
  else if c =? ch "}" then (end_object, l)
  else if c =? ch ":" then (name_separator, l)
  else if c =? ch "," then (value_separator, l)
  else if c =? ch "t" then scan_literal [ch "r"; ch "u"; ch "e"] literal_true l
  else if c =? ch "f" then scan_literal [ch "a"; ch "l"; ch "s"; ch "e"] literal_false l
  else if c =? ch "n" then scan_literal [ch "u"; ch "l"; ch "l"] literal_null l
  else if c =? QUOTE then scan_string l
  else if (c =? 45) || is_digit_byte c then scan_number l
  else if (c =? 0) || (c =? eof) then (end_of_input, l)
  else fail "invalid literal" l.

Definition scan (ignore_comments : bool) (l : lexer) : token_type * lexer :=
  let '(ok, l) := if (chars_read_total l =? 0)%nat then skip_bom l else (true, l) in
  if negb ok then fail "invalid BOM; must be 0xEF 0xBB 0xBF if given" l
  else
    let l := skip_whitespaces l in
    if ignore_comments then
      let '(ok, l) := skip_comments (S (length (unread l))) l in
      if ok : bool then scan_current l else (parse_error, l)
    else scan_current l.

(** ** Input *)

Definition byte (c : Z) : Prop := 0 <= c < 256.

(** The state after [get]: a byte, or the end of the input. *)
Definition fetched (l : lexer) : Prop := Forall byte (ia l) /\ next_unget l = false /\ (current l = eof /\ ia l = [] \/ byte (current l)).
Definition lexer_ok (l : lexer) : Prop := Forall byte (ia l) /\ (next_unget l = true -> current l = eof /\ ia l = [] \/ byte (current l)).

Lemma fetched_ok l : fetched l -> lexer_ok l.
Proof. intros (H1 & H2 & H3). split; [done |]. by rewrite H2. Qed.

Lemma fetched_unread l : fetched l -> unread l = ia l.
Proof. intros (_ & H & _). unfold unread. by rewrite H. Qed.

Lemma byte_not_eof c : byte c -> (c =? eof) = false.
Proof. intros H. apply Z.eqb_neq. unfold byte, eof in *. lia. Qed.

Lemma get_fetched l : lexer_ok l -> fetched (get l).
Proof.
  intros [H1 H2]. unfold get, fetched. destruct (next_unget l) eqn:E; cbn; [split_and!; auto |].
  destruct (ia l) as [| c s] eqn:Ei; cbn; [by split_and!; auto |]. apply Forall_cons in H1 as [Hc Hs]. by split_and!; auto.
Qed.

(** What [get] takes away. *)
Lemma get_unread l : lexer_ok l -> unread l = (if current (get l) =? eof then [] else [current (get l)]) ++ unread (get l) /\ (current (get l) = eof -> unread (get l) = []).
Proof.
  intros [H1 H2]. unfold get, unread. destruct (next_unget l) eqn:E; cbn.
  - destruct (H2 eq_refl) as [[-> Hi] | Hb]; [by rewrite Hi |]. rewrite (byte_not_eof _ Hb). split; [done |]. intros He. unfold byte in Hb. rewrite He in Hb. unfold eof in Hb. lia.
  - destruct (ia l) as [| c s] eqn:Ei; cbn; [done |]. apply Forall_cons in H1 as [Hc _]. rewrite (byte_not_eof _ Hc). split; [done |]. intros ->. unfold byte, eof in Hc. lia.
Qed.

Lemma get_buffer l : token_buffer (get l) = token_buffer l.
Proof. unfold get. by destruct (next_unget l), (ia l). Qed.

Lemma get_suffix l : lexer_ok l -> unread (get l) `suffix_of` unread l.
Proof. intros H. destruct (get_unread l H) as [-> _]. by apply suffix_app_r. Qed.

Lemma get_shorter l : lexer_ok l -> current (get l) <> eof -> (length (unread (get l)) < length (unread l))%nat.
Proof. intros H He. destruct (get_unread l H) as [-> _]. rewrite (proj2 (Z.eqb_neq _ _) He). cbn. lia. Qed.

Lemma unget_ok l : fetched l -> lexer_ok (unget l) /\ unread (unget l) = (if current l =? eof then [] else [current l]) ++ unread l.
Proof.
  intros (H1 & H2 & H3). split; [by split; cbn |]. unfold unread. rewrite H2. cbn. destruct H3 as [[-> ->] | Hb]; [done |]. by rewrite (byte_not_eof _ Hb).
Qed.

(** A fetched lexer after another, on the same input. *)
Definition reads (l l' : lexer) : Prop := fetched l' /\ unread l' `suffix_of` unread l.

Lemma reads_refl l : fetched l -> reads l l.
Proof. by split. Qed.

Lemma reads_trans l1 l2 l3 : reads l1 l2 -> reads l2 l3 -> reads l1 l3.
Proof. intros [_ H1] [H2 H3]. split; [done |]. by etrans. Qed.

Lemma get_reads l : lexer_ok l -> reads l (get l).
Proof. intros H. split; [by apply get_fetched | by apply get_suffix]. Qed.

Lemma suffix_length_le {A} (l k : list A) : l `suffix_of` k -> (length l <= length k)%nat.
Proof. intros [x ->]. rewrite length_app. lia. Qed.

Lemma reads_length l l' : reads l l' -> (length (unread l') <= length (unread l))%nat.
Proof. intros [_ H]. by apply suffix_length_le. Qed.

Create HintDb lexer.
#[export] Hint Resolve fetched_ok get_fetched get_reads reads_refl get_suffix : lexer.

(** ** UTF-8 *)

(** The bytes of one code point. *)
Definition utf8_sequence (s : list Z) : Prop :=
  match s with
  | [] => False
  | c :: s => exists ranges, utf8_ranges c = Some ranges /\ Forall2 (fun r b => between (fst r) (snd r) b = true) ranges s
  end.

Inductive utf8 : list Z -> Prop :=
| utf8_nil : utf8 []
| utf8_app q s : utf8_sequence q -> utf8 s -> utf8 (q ++ s).

Lemma utf8_concat s t : utf8 s -> utf8 t -> utf8 (s ++ t).
Proof. induction 1 as [| q s Hq _ IH]; intros Ht; [done |]. rewrite <- app_assoc. apply utf8_app; [done | by apply IH]. Qed.

Lemma utf8_snoc s q : utf8 s -> utf8_sequence q -> utf8 (s ++ q).
Proof. intros Hs Hq. apply utf8_concat; [done |]. rewrite <- (app_nil_r q). by apply utf8_app; [| apply utf8_nil]. Qed.

Lemma between_true lo hi c : between lo hi c = true <-> lo <= c <= hi.
Proof. unfold between. rewrite andb_true_iff, !Z.leb_le. done. Qed.

Lemma between_false lo hi c : between lo hi c = false <-> ~ (lo <= c <= hi).
Proof. rewrite <- between_true. by destruct (between lo hi c). Qed.

(** A statement about the numbers below a bound, by evaluation. *)
Lemma below_forallb (f : Z -> bool) (n : nat) : forallb (fun i => f (Z.of_nat i)) (seq 0 n) = true -> forall x, 0 <= x < Z.of_nat n -> f x = true.
Proof. intros H x Hx. rewrite forallb_forall in H. specialize (H (Z.to_nat x)). rewrite Z2Nat.id in H by lia. apply H, in_seq. lia. Qed.

Lemma lor_128 x : 0 <= x < 64 -> Z.lor 128 x = 128 + x.
Proof. intros H. apply Z.eqb_eq. by apply (below_forallb (fun x => Z.lor 128 x =? 128 + x) 64). Qed.
Lemma lor_192 x : 0 <= x < 32 -> Z.lor 192 x = 192 + x.
Proof. intros H. apply Z.eqb_eq. by apply (below_forallb (fun x => Z.lor 192 x =? 192 + x) 32). Qed.
Lemma lor_224 x : 0 <= x < 16 -> Z.lor 224 x = 224 + x.
Proof. intros H. apply Z.eqb_eq. by apply (below_forallb (fun x => Z.lor 224 x =? 224 + x) 16). Qed.
Lemma lor_240 x : 0 <= x < 8 -> Z.lor 240 x = 240 + x.
Proof. intros H. apply Z.eqb_eq. by apply (below_forallb (fun x => Z.lor 240 x =? 240 + x) 8). Qed.

(** The six bits from a position. *)
Lemma six_bits x n : 0 <= n -> Z.land (Z.shiftr x n) 63 = x / 2 ^ n mod 64.
Proof. intros Hn. rewrite Z.shiftr_div_pow2 by done. exact (Z.land_ones (x / 2 ^ n) 6 ltac:(lia)). Qed.

Definition scalar (codepoint : Z) : Prop := 0 <= codepoint <= 1114111 /\ ~ (55296 <= codepoint <= 57343).

(** The branch of a first byte. *)
Ltac utf8_branch :=
  unfold utf8_ranges;
  repeat match goal with
  | |- context [if between ?a ?b ?c then _ else _] => first [rewrite (proj2 (between_true a b c)) by lia | rewrite (proj2 (between_false a b c)) by lia]
  | |- context [if ?c =? ?k then _ else _] => first [rewrite (proj2 (Z.eqb_eq c k)) by lia | rewrite (proj2 (Z.eqb_neq c k)) by lia]
  end.

Ltac in_ranges := repeat constructor; apply between_true; cbn; lia.

Lemma encode_bytes codepoint :
  encode codepoint =
  if codepoint <? 128 then [codepoint]
  else if codepoint <=? 2047 then [Z.lor 192 (codepoint / 64); Z.lor 128 (codepoint mod 64)]
  else if codepoint <=? 65535 then [Z.lor 224 (codepoint / 4096); Z.lor 128 (codepoint / 64 mod 64); Z.lor 128 (codepoint mod 64)]
  else [Z.lor 240 (codepoint / 262144); Z.lor 128 (codepoint / 4096 mod 64); Z.lor 128 (codepoint / 64 mod 64); Z.lor 128 (codepoint mod 64)].
Proof.
  unfold encode. pose proof (six_bits codepoint 0 ltac:(lia)) as H0. rewrite Z.shiftr_0_r, Z.div_1_r in H0. by rewrite H0, !six_bits, !Z.shiftr_div_pow2 by lia.
Qed.

Lemma encode_utf8 codepoint : scalar codepoint -> utf8_sequence (encode codepoint).
Proof.
  intros [Hr Hs]. rewrite encode_bytes. assert (forall x, Z.lor 128 (x mod 64) = 128 + x mod 64) as Hl by (intros x; apply lor_128, Z.mod_pos_bound; lia). rewrite !Hl. clear Hl.
  pose proof (Z.mod_pos_bound codepoint 64 ltac:(lia)) as B0. pose proof (Z.mod_pos_bound (codepoint / 64) 64 ltac:(lia)) as B1. pose proof (Z.mod_pos_bound (codepoint / 4096) 64 ltac:(lia)) as B2.
  pose proof (Z.div_mod codepoint 64 ltac:(lia)) as D0. pose proof (Z.div_mod (codepoint / 64) 64 ltac:(lia)) as D1. rewrite Z.div_div in D1 by lia. change (64 * 64) with 4096 in D1.
  pose proof (Z.div_mod (codepoint / 4096) 64 ltac:(lia)) as D2. rewrite Z.div_div in D2 by lia. change (4096 * 64) with 262144 in D2.
  set (r0 := codepoint mod 64) in *. set (r1 := codepoint / 64 mod 64) in *. set (r2 := codepoint / 4096 mod 64) in *.
  set (q1 := codepoint / 64) in *. set (q2 := codepoint / 4096) in *. set (q3 := codepoint / 262144) in *. clearbody r0 r1 r2 q1 q2 q3.
  destruct (Z.ltb_spec codepoint 128); [| destruct (Z.leb_spec codepoint 2047); [| destruct (Z.leb_spec codepoint 65535)]]; cbn [utf8_sequence].
  - exists []. split; [by utf8_branch | done].
  - rewrite lor_192 by lia. exists [(128, 191)]. split; [by utf8_branch | in_ranges].
  - rewrite lor_224 by lia. destruct (decide (q2 = 0)) as [-> | ]; [| destruct (decide (q2 = 13)) as [-> | ]].
    + exists [(160, 191); (128, 191)]. split; [done | in_ranges].
    + exists [(128, 159); (128, 191)]. split; [done | in_ranges].
    + exists [(128, 191); (128, 191)]. split; [by utf8_branch | in_ranges].
  - rewrite lor_240 by lia. destruct (decide (q3 = 0)) as [-> | ]; [| destruct (decide (q3 = 4)) as [-> | ]].
    + exists [(144, 191); (128, 191); (128, 191)]. split; [done | in_ranges].
    + exists [(128, 143); (128, 191); (128, 191)]. split; [done | in_ranges].
    + exists [(128, 191); (128, 191); (128, 191)]. split; [by utf8_branch | in_ranges].
Qed.

(** ** Strings *)

(** What a part of a string does: it reads, and adds code points where it succeeds. *)
Definition string_part (l : lexer) (r : bool * lexer) : Prop :=
  reads l (snd r) /\ (fst r = true -> exists q, utf8_sequence q /\ token_buffer (snd r) = token_buffer l ++ q).

Lemma hex_digit_range c d : hex_digit c = Some d -> 0 <= d < 16.
Proof.
  unfold hex_digit. destruct (between 48 57 c) eqn:E1; [apply between_true in E1; intros [= <-]; lia |].
  destruct (between 65 70 c) eqn:E2; [apply between_true in E2; intros [= <-]; lia |].
  destruct (between 97 102 c) eqn:E3; [apply between_true in E3; intros [= <-]; lia | done].
Qed.

Lemma get_codepoint_from_reads factors codepoint l : fetched l ->
  let '(r, l') := get_codepoint_from factors codepoint l in reads l l' /\ token_buffer l' = token_buffer l /\ (r = -1 \/ exists ds, length ds = length factors /\ Forall (fun d => 0 <= d < 16) ds /\ r = codepoint + foldr Z.add 0 (zip_with Z.shiftl ds factors)).
Proof.
  revert codepoint l. induction factors as [| f factors IH]; intros codepoint l Hl; cbn [get_codepoint_from]; [split_and!; [by apply reads_refl | done | right; exists []; cbn; split_and!; [done | constructor | lia]] |].
  assert (reads l (get l)) as Hg by auto with lexer. destruct (hex_digit (current (get l))) as [d |] eqn:E; [| split_and!; [done | by apply get_buffer | by left]].
  specialize (IH (codepoint + Z.shiftl d f) (get l) (proj1 Hg)). destruct (get_codepoint_from _ _ _) as [r l']. destruct IH as (H1 & H2 & H3).
  split_and!; [by apply (reads_trans l (get l)) | by rewrite H2, get_buffer |]. destruct H3 as [-> | (ds & Hl' & Hd & ->)]; [by left |]. right. exists (d :: ds). cbn. split_and!; [by rewrite Hl' | | lia].
  constructor; [by apply (hex_digit_range (current (get l))) | done].
Qed.

Lemma get_codepoint_reads l : fetched l -> let '(r, l') := get_codepoint l in reads l l' /\ token_buffer l' = token_buffer l /\ (r = -1 \/ 0 <= r <= 65535).
Proof.
  intros Hl. unfold get_codepoint. pose proof (get_codepoint_from_reads [12; 8; 4; 0] 0 l Hl) as H. destruct (get_codepoint_from _ _ _) as [r l']. destruct H as (H1 & H2 & H3).
  split_and!; [done.. |]. destruct H3 as [-> | (ds & Hn & Hd & ->)]; [by left | right]. destruct ds as [| a [| b [| c [| d [| ? ?]]]]]; try done.
  rewrite !Forall_cons in Hd. cbn [zip_with foldr]. rewrite !Z.shiftl_mul_pow2 by lia. lia.
Qed.

Lemma add_all_buffer cs l : token_buffer (add_all cs l) = token_buffer l ++ cs /\ unread (add_all cs l) = unread l /\ (fetched (add_all cs l) <-> fetched l).
Proof.
  unfold add_all. revert l. induction cs as [| c cs IH]; intros l; cbn; [by rewrite app_nil_r |]. destruct (IH (add c l)) as (H1 & H2 & H3). rewrite H1. cbn. by rewrite <- app_assoc.
Qed.

Lemma add_all_part l0 l codepoint : reads l0 l -> token_buffer l = token_buffer l0 -> scalar codepoint -> string_part l0 (true, add_all (encode codepoint) l).
Proof.
  intros [H1 H2] Hb Hs. destruct (add_all_buffer (encode codepoint) l) as (Ha & Hu & Hf). split; cbn [fst snd].
  - split; [by apply Hf | by rewrite Hu].
  - intros _. exists (encode codepoint). split; [by apply encode_utf8 | by rewrite Ha, Hb].
Qed.

Lemma broken_part l0 l m : reads l0 l -> string_part l0 (false, with_error l m).
Proof. intros H. by split. Qed.

Lemma scan_unicode_part l : fetched l -> string_part l (scan_unicode l).
Proof.
  intros Hl. unfold scan_unicode. pose proof (get_codepoint_reads l Hl) as H. destruct (get_codepoint l) as [c1 l1]. destruct H as (H1 & Hb1 & Hr1).
  destruct (Z.eqb_spec c1 (-1)); [by apply broken_part |]. destruct (between 55296 56319 c1) eqn:E1.
  - apply between_true in E1. assert (reads l (get l1)) as H2 by (eapply reads_trans; [done | apply get_reads, fetched_ok, H1]).
    destruct (negb (current (get l1) =? _)); [by apply broken_part |]. assert (reads l (get (get l1))) as H3 by (eapply reads_trans; [done | apply get_reads, fetched_ok, H2]).
    destruct (negb (current (get (get l1)) =? _)); [by apply broken_part |]. pose proof (get_codepoint_reads (get (get l1)) (proj1 H3)) as H. destruct (get_codepoint (get (get l1))) as [c2 l2].
    destruct H as (H4 & Hb2 & Hr2). assert (reads l l2) as H5 by by eapply reads_trans. destruct (Z.eqb_spec c2 (-1)); [by apply broken_part |].
    destruct (between 56320 57343 c2) eqn:E2; [| by apply broken_part]. apply between_true in E2.
    apply add_all_part; [done | by rewrite Hb2, !get_buffer | unfold scalar; rewrite Z.shiftl_mul_pow2 by lia; lia].
  - apply between_false in E1. destruct (between 56320 57343 c1) eqn:E2; [by apply broken_part |]. apply between_false in E2. apply add_all_part; [done.. | unfold scalar; lia].
Qed.

(** A part that begins with a character. *)
Lemma string_part_get l r : lexer_ok l -> string_part (get l) r -> string_part l r.
Proof.
  intros Hl [H1 H2]. split; [by eapply reads_trans; [apply get_reads |] |]. intros Ho. destruct (H2 Ho) as (q & Hq & Hb). exists q. by rewrite Hb, get_buffer.
Qed.

Lemma escape_is_ascii c x : escape_of c = Some x -> 0 <= x < 128.
Proof. unfold escape_of. repeat (destruct (c =? _); [by intros [= <-] |]). done. Qed.

Lemma ascii_sequence c : 0 <= c < 128 -> utf8_sequence [c].
Proof. intros H. exists []. split; [by utf8_branch | done]. Qed.

Lemma scan_escape_part l : fetched l -> string_part l (scan_escape l).
Proof.
  intros Hl. unfold scan_escape. assert (fetched (get l)) as Hg by auto with lexer. apply string_part_get; [auto with lexer |]. destruct (escape_of (current (get l))) as [x |] eqn:E.
  - split; cbn [fst snd]; [by split |]. intros _. exists [x]. split; [by apply ascii_sequence, (escape_is_ascii (current (get l))) | done].
  - destruct (_ =? _); [by apply scan_unicode_part | apply broken_part; auto with lexer].
Qed.

Lemma next_byte_in_range_from_reads ranges l : fetched l ->
  let '(ok, l') := next_byte_in_range_from ranges l in
  reads l l' /\ (ok = true -> exists bs, Forall2 (fun r b => between (fst r) (snd r) b = true) ranges bs /\ token_buffer l' = token_buffer l ++ bs).
Proof.
  revert l. induction ranges as [| [lo hi] ranges IH]; intros l Hl; cbn [next_byte_in_range_from].
  - split; [by apply reads_refl |]. intros _. exists []. by rewrite app_nil_r.
  - assert (reads l (get l)) as Hg by auto with lexer. destruct (between lo hi (current (get l))) eqn:E; [| by split].
    specialize (IH (add (current (get l)) (get l)) (proj1 Hg)). destruct (next_byte_in_range_from _ _) as [ok l']. destruct IH as [H1 H2].
    split; [by apply (reads_trans l (get l)) |]. intros Ho. destruct (H2 Ho) as (bs & Hb & ->). exists (current (get l) :: bs). split; [by constructor |].
    cbn. rewrite get_buffer. by rewrite <- app_assoc.
Qed.

Lemma next_byte_part ranges l : fetched l -> utf8_ranges (current l) = Some ranges -> string_part l (next_byte_in_range ranges l).
Proof.
  intros Hl Hr. unfold next_byte_in_range. pose proof (next_byte_in_range_from_reads ranges (add (current l) l) Hl) as H. destruct (next_byte_in_range_from _ _) as [ok l'].
  destruct H as [H1 H2]. split; [done |]. intros Ho. destruct (H2 Ho) as (bs & Hb & He). exists (current l :: bs). split; [by exists ranges |]. cbn [snd]. rewrite He. cbn. by rewrite <- app_assoc.
Qed.

(** A string ends, with a token or an error; its bytes are UTF-8. *)
Lemma scan_string_loop_reads fuel l : fetched l -> (length (unread l) < fuel)%nat ->
  let '(t, l') := scan_string_loop fuel l in
  reads l l' /\ (t = value_string \/ t = parse_error) /\ (t = value_string -> utf8 (token_buffer l) -> utf8 (token_buffer l')).
Proof.
  revert l. induction fuel as [| fuel IH]; intros l Hl Hf; [lia |]. cbn [scan_string_loop]. assert (reads l (get l)) as Hg by auto with lexer.
  assert (current (get l) <> eof -> (length (unread (get l)) < fuel)%nat) as Hlt by (intros He; apply get_shorter in He; [lia | auto with lexer]).
  destruct (Z.eqb_spec (current (get l)) eof) as [He | He]; [split_and!; [done | by right | done] |]. specialize (Hlt He).
  assert (forall r, string_part (get l) r -> let '(t, l') := (let '(ok, l) := r in if ok : bool then scan_string_loop fuel l else (parse_error, l)) in
    reads l l' /\ (t = value_string \/ t = parse_error) /\ (t = value_string -> utf8 (token_buffer l) -> utf8 (token_buffer l'))) as Hpart.
  { intros [ok l1] [H1 H2]. cbn [fst snd] in *. destruct ok; [| split_and!; [by apply (reads_trans l (get l)) | by right | done]].
    destruct (H2 eq_refl) as (q & Hq & Hb). apply reads_length in H1 as Hn. specialize (IH l1 (proj1 H1) ltac:(lia)). destruct (scan_string_loop fuel l1) as [t l']. destruct IH as (I1 & I2 & I3).
    split_and!; [apply (reads_trans l (get l)); [done | by apply (reads_trans _ l1)] | done |]. intros Ht Hu. apply I3; [done |]. rewrite Hb, get_buffer. by apply utf8_snoc. }
  destruct (_ =? QUOTE); [split; [done |]; split; [by left |]; intros _ Hu; by rewrite get_buffer |].
  destruct (_ =? BACKSLASH); [by apply (Hpart (scan_escape (get l))), scan_escape_part, Hg |].
  destruct (between 0 31 _); [split_and!; [done | by right | done] |].
  destruct (utf8_ranges (current (get l))) as [ranges |] eqn:Er; [by apply (Hpart (next_byte_in_range ranges (get l))), next_byte_part; [apply Hg |] | split_and!; [done | by right | done]].
Qed.

(** ** Numbers *)

(** What is read again after [unget]. *)
Definition given_back (l : lexer) : list Z := (if current l =? eof then [] else [current l]) ++ unread l.

Lemma scan_number_states_reads fuel st nt l : fetched l -> (length (unread l) < fuel)%nat ->
  fetched (snd (scan_number_states fuel st nt l)) /\ given_back (snd (scan_number_states fuel st nt l)) `suffix_of` unread l.
Proof.
  revert st nt l. induction fuel as [| fuel IH]; intros st nt l Hl Hf; [lia |]. cbn [scan_number_states]. assert (reads l (get l)) as Hg by auto with lexer.
  assert (given_back (get l) `suffix_of` unread l) as Hb by (unfold given_back; by destruct (get_unread l (fetched_ok l Hl)) as [<- _]).
  destruct (number_next st (current (get l))) as [st' | | m] eqn:E; [| by split; [apply Hg |] ..].
  assert (current (get l) <> eof) as He by (intros He; rewrite He in E; destruct st; discriminate E).
  apply get_shorter in He; [| auto with lexer]. destruct (IH st' (number_type_in st nt) (add (current (get l)) (get l)) (proj1 Hg)) as [H1 H2].
  - change (unread (add (current (get l)) (get l))) with (unread (get l)). lia.
  - split; [done |]. etrans; [exact H2 | apply Hg].
Qed.

Lemma scan_number_done_unget nt l : exists i u f, snd (scan_number_done nt l) = with_values (unget l) i u f.
Proof. unfold scan_number_done. destruct nt; try destruct (strtoull _); try destruct (strtoll _); cbn [fst snd]; by do 3 eexists. Qed.

Definition terminal (t : token_type) : bool := match t with end_of_input | parse_error => true | _ => false end.
Definition scalar_or_bracket (t : token_type) : bool := match t with uninitialized | literal_or_value => false | _ => true end.

Lemma scan_number_done_token nt l : fst (scan_number_done nt l) <> value_string /\ terminal (fst (scan_number_done nt l)) = false /\ scalar_or_bracket (fst (scan_number_done nt l)) = true.
Proof. unfold scan_number_done. by destruct nt; try destruct (strtoull _); try destruct (strtoll _). Qed.

(** The lexer after a token, from one whose first character was fetched: a number gives back the character
    after it. *)
Definition token_read (l : lexer) (r : token_type * lexer) : Prop :=
  lexer_ok (snd r) /\ unread (snd r) `suffix_of` unread l /\ (fst r = value_string -> utf8 (token_buffer (snd r))) /\ scalar_or_bracket (fst r) = true.

Lemma scan_number_read l : fetched l -> token_read l (scan_number l).
Proof.
  intros Hl. unfold scan_number. set (l1 := add (current (lexer_reset l)) (lexer_reset l)).
  destruct (scan_number_states_reads (S (length (unread l1))) (number_start (current l1)) value_unsigned l1 Hl ltac:(lia)) as [H1 H2]. change (unread l1) with (unread l) in H2.
  destruct (scan_number_states _ _ _ l1) as [[nt |] l2]; cbn [snd] in *.
  - destruct (scan_number_done_unget nt l2) as (i & u & f & E). destruct (scan_number_done_token nt l2) as (T1 & _ & T3). destruct (unget_ok l2 H1) as [Hu1 Hu2].
    unfold token_read. rewrite E. split_and!; [exact Hu1 | change (unread (with_values (unget l2) i u f)) with (unread (unget l2)); by rewrite Hu2 | done | done].
  - unfold token_read. cbn [fst snd]. split_and!; [auto with lexer | | done | done]. etrans; [| exact H2]. unfold given_back. by apply suffix_app_r.
Qed.

(** ** Tokens *)

Lemma reads_token l t l' : reads l l' -> t <> value_string -> scalar_or_bracket t = true -> token_read l (t, l').
Proof. intros [H1 H2] Ht Hs. split_and!; cbn [fst snd]; [auto with lexer | done | done | done]. Qed.

Lemma scan_literal_read text t l : fetched l -> t <> value_string -> scalar_or_bracket t = true -> token_read l (scan_literal text t l).
Proof.
  intros Hl Ht Hs. assert (forall l1, reads l l1 -> token_read l (scan_literal text t l1)) as H; [| by apply H, reads_refl].
  induction text as [| c text IH]; intros l1 Hr; cbn [scan_literal]; [by apply reads_token |]. assert (reads l (get l1)) as Hg by (eapply reads_trans; [done | apply get_reads, fetched_ok, Hr]).
  destruct (_ =? c); [by apply IH | by apply reads_token].
Qed.

Lemma scan_current_read l : fetched l -> token_read l (scan_current l).
Proof.
  intros Hl. unfold scan_current. repeat (destruct (_ =? ch _); [by first [apply reads_token; [apply reads_refl | |] | apply scan_literal_read] |]).
  destruct (_ =? QUOTE).
  - unfold scan_string. pose proof (scan_string_loop_reads (S (length (unread l))) (lexer_reset l) Hl ltac:(change (unread (lexer_reset l)) with (unread l); lia)) as H.
    destruct (scan_string_loop _ _) as [t l']. destruct H as ((H1 & H2) & Ht & H3). split_and!; cbn [fst snd]; [auto with lexer | done | | by destruct Ht as [-> | ->]].
    intros Hv. apply H3; [done | apply utf8_nil].
  - destruct (_ || _); [by apply scan_number_read |]. destruct (_ || _); apply reads_token; try done; exact (reads_refl l Hl).
Qed.

Lemma skip_whitespace_reads fuel l : lexer_ok l -> (length (unread l) < fuel)%nat -> reads l (skip_whitespace fuel l).
Proof.
  revert l. induction fuel as [| fuel IH]; intros l Hl Hf; [lia |]. cbn [skip_whitespace]. assert (reads l (get l)) as Hg by auto with lexer.
  destruct (is_whitespace (current (get l))) eqn:E; [| done]. eapply reads_trans; [done |]. apply IH; [apply fetched_ok, Hg |].
  assert (current (get l) <> eof) as He by (intros He; by rewrite He in E). apply get_shorter in He; [lia | done].
Qed.

(** After white space a character was read, if there was one. *)
Lemma skip_whitespaces_progress l : lexer_ok l -> let l' := skip_whitespaces l in reads l l' /\ (current l' <> eof -> (length (unread l') < length (unread l))%nat) /\ (current l' = eof -> unread l' = []).
Proof.
  intros Hl. cbn zeta. unfold skip_whitespaces. assert (forall fuel l, lexer_ok l -> (length (unread l) < fuel)%nat ->
    (current (skip_whitespace fuel l) <> eof -> (length (unread (skip_whitespace fuel l)) < length (unread l))%nat) /\ (current (skip_whitespace fuel l) = eof -> unread (skip_whitespace fuel l) = [])) as H.
  { clear. induction fuel as [| fuel IH]; intros l Hl Hf; [lia |]. cbn [skip_whitespace]. destruct (is_whitespace (current (get l))) eqn:E.
    - assert (current (get l) <> eof) as He by (intros He; by rewrite He in E). apply get_shorter in He; [| done].
      destruct (IH (get l)) as [H1 H2]; [auto with lexer | lia |]. split; [| done]. intros Hc. specialize (H1 Hc). lia.
    - split; [intros; by apply get_shorter | by apply get_unread]. }
  split; [apply skip_whitespace_reads; [done | lia] | apply H; [done | lia]].
Qed.

Lemma skip_bom_read l : lexer_ok l -> lexer_ok (snd (skip_bom l)) /\ unread (snd (skip_bom l)) `suffix_of` unread l.
Proof.
  intros Hl. unfold skip_bom. assert (reads l (get l)) as H1 by auto with lexer. destruct (_ =? 239).
  - assert (reads l (get (get l))) as H2 by (eapply reads_trans; [done | apply get_reads, fetched_ok, H1]). destruct (_ =? 187); [| by split; [apply fetched_ok, H2 | apply H2]].
    assert (reads l (get (get (get l)))) as H3 by (eapply reads_trans; [done | apply get_reads, fetched_ok, H2]). by split; [apply fetched_ok, H3 | apply H3].
  - cbn [fst snd]. destruct (unget_ok (get l) (proj1 H1)) as [Hu ->]. destruct (get_unread l Hl) as [<- _]. by split.
Qed.

Lemma scan_current_eof l : current l = eof -> scan_current l = (end_of_input, l).
Proof. intros H. unfold scan_current. by rewrite H. Qed.

(** A token that is not the last takes at least a byte. *)
Lemma scan_read l : lexer_ok l ->
  let r := scan false l in
  token_read l r /\ (terminal (fst r) = false -> (length (unread (snd r)) < length (unread l))%nat).
Proof.
  intros Hl. unfold scan. assert (forall l1, lexer_ok l1 -> unread l1 `suffix_of` unread l -> let r := scan_current (skip_whitespaces l1) in
    token_read l r /\ (terminal (fst r) = false -> (length (unread (snd r)) < length (unread l))%nat)) as Hmain.
  { intros l1 Hl1 Hs. cbn zeta. destruct (skip_whitespaces_progress l1 Hl1) as (H1 & H2 & _). destruct (scan_current_read (skip_whitespaces l1) (proj1 H1)) as (T1 & T2 & T3 & T4).
    split; [split_and!; [done | etrans; [done |]; etrans; [apply H1 | done] | done | done] |].
    intros Ht. destruct (decide (current (skip_whitespaces l1) = eof)) as [He | He]; [by rewrite (scan_current_eof _ He) in Ht |].
    specialize (H2 He). apply suffix_length_le in T2, Hs. lia. }
  destruct (chars_read_total l =? 0)%nat; [| by apply Hmain].
  destruct (skip_bom_read l Hl) as [H1 H2]. destruct (skip_bom l) as [[] l1]; cbn [negb fst snd] in *; [by apply Hmain |]. by split; [split_and! |].
Qed.
