(* ===== verification/JsonParser.v ===== *)
(** * The JSON parser

    [parser] and [json_sax_dom_parser] of the vendored nlohmann::json 3.11.3
    ([BasicLibs/core/parser/json/json.hpp]): the loop over the tokens with its stack of
    open arrays and objects, and the value that its events build.  The program passes no
    callback.  [ref_stack] holds pointers into the value under construction; here each open
    array or object is a value of its own, which takes its place when it is closed: nothing
    reads the place before, and what was built is dropped on an error.

    Properties of the JSON parser.  The parser ends on every input, with a value, with an exception, or with nothing where it
    is told not to throw; and every value it builds is one that the program can hold and print:
    its strings and keys are UTF-8, its integers fit their 64 bits, its doubles are finite, its
    members are in order. *)

From Stdlib Require Import SpecFloat Ascii String.
From stdpp Require Import list pretty.
From S2P Require Import Prelude Float32 Json JsonLexer FloatBounds.
Open Scope Z_scope.
Open Scope list_scope.

(** ** The value under construction *)

(** An open container; an object with the key that was read last ([object_element]). *)
Inductive Frame := FArray (l : list json) | FObject (m : list (string * json)) (object_element : string).

Record Dom := mkDom { root : json; ref_stack : list Frame }.

Definition handle_value (v : json) (d : Dom) : Dom :=
  match ref_stack d with
  | [] => mkDom v []
  | FArray l :: s => mkDom (root d) (FArray (l ++ [v]) :: s)
  | FObject m k :: s => mkDom (root d) (FObject (replace_member k v m) k :: s)
  end.

Definition start_object (d : Dom) : Dom := mkDom (root d) (FObject [] "" :: ref_stack d).
Definition start_array (d : Dom) : Dom := mkDom (root d) (FArray [] :: ref_stack d).

(** [operator[]]: a new key holds null. *)
Definition subscript (k : string) (m : list (string * json)) : list (string * json) := match find_member k m with Some _ => m | None => replace_member k JNull m end.

Definition dom_key (k : string) (d : Dom) : Dom :=
  match ref_stack d with
  | FObject m _ :: s => mkDom (root d) (FObject (subscript k m) k :: s)
  | _ => d
  end.

Definition container (f : Frame) : json := match f with FArray l => JArray l | FObject m _ => JObject m end.

(** [end_array], [end_object]. *)
Definition end_container (d : Dom) : Dom :=
  match ref_stack d with f :: s => handle_value (container f) (mkDom (root d) s) | [] => d end.

(** ** The parser *)

Record parser := mkParser { m_lexer : lexer; last_token : token_type; sax : Dom }.

Definition with_sax (p : parser) (d : Dom) : parser := mkParser (m_lexer p) (last_token p) d.

Section Parser.
Context (ignore_comments : bool).

Definition get_token (p : parser) : parser := let '(t, l) := scan ignore_comments (m_lexer p) in mkParser l t (sax p).

Definition parser_make (input : list Z) : parser := get_token (mkParser (lexer_make input) uninitialized (mkDom JNull [])).

Definition get_string_token (p : parser) : string := string_of_bytes (token_buffer (m_lexer p)).
Definition token_text (p : parser) : string := string_of_bytes (get_token_string (m_lexer p)).

Definition exception_message (expected : token_type) (context : string) (p : parser) : string :=
  ("syntax error " ++ (if String.eqb context "" then "" else "while parsing " ++ context ++ " ") ++ "- " ++
   (match last_token p with
    | parse_error => error_message (m_lexer p) ++ "; last read: '" ++ token_text p ++ "'"
    | t => "unexpected " ++ token_type_name t
    end) ++
   match expected with uninitialized => "" | _ => "; expected " ++ token_type_name expected end)%string.

(** The text of the exceptions. *)
Definition parse_error_101 (what_arg : string) (p : parser) : string :=
  ("[json.exception.parse_error.101] parse error at line " ++ pretty (S (lines_read (m_lexer p))) ++ ", column " ++ pretty (chars_read_current_line (m_lexer p)) ++ ": " ++ what_arg)%string.
Definition out_of_range_406 (p : parser) : string :=
  ("[json.exception.out_of_range.406] number overflow parsing '" ++ token_text p ++ "'")%string.

Definition expect (expected : token_type) (context : string) (p : parser) : string := parse_error_101 (exception_message expected context p) p.

(** ** The loop *)

(** How a part of the loop ends: with a value, with the next turn, or with an exception. *)
Inductive Turn := Break (p : parser) | Continue (skip : bool) (states : list bool) (p : parser) | Return (p : parser) | Throw (what : string) (p : parser).

(** A key and the colon, with the token of the key read. *)
Definition parse_key (p : parser) : string + parser :=
  if negb (bool_decide (last_token p = value_string)) then inl (expect value_string "object key" p)
  else
    let p := with_sax p (dom_key (get_string_token p) (sax p)) in
    let p := get_token p in
    if negb (bool_decide (last_token p = name_separator)) then inl (expect name_separator "object separator" p) else inr p.

Definition parse_value (states : list bool) (p : parser) : Turn :=
  match last_token p with
  | begin_object =>
      let p := get_token (with_sax p (start_object (sax p))) in
      if bool_decide (last_token p = end_object) then Break (with_sax p (end_container (sax p)))
      else match parse_key p with
           | inl what => Throw what p
           | inr p => Continue false (false :: states) (get_token p)
           end
  | begin_array =>
      let p := get_token (with_sax p (start_array (sax p))) in
      if bool_decide (last_token p = end_array) then Break (with_sax p (end_container (sax p)))
      else Continue false (true :: states) p
  | value_float =>
      let res := lex_float (m_lexer p) in
      if negb (is_finite res) then Throw (out_of_range_406 p) p else Break (with_sax p (handle_value (JFloat res) (sax p)))
  | literal_false => Break (with_sax p (handle_value (JBool false) (sax p)))
  | literal_null => Break (with_sax p (handle_value JNull (sax p)))
  | literal_true => Break (with_sax p (handle_value (JBool true) (sax p)))
  | value_integer => Break (with_sax p (handle_value (JInt (lex_integer (m_lexer p))) (sax p)))
  | value_string => Break (with_sax p (handle_value (JString (get_string_token p)) (sax p)))
  | value_unsigned => Break (with_sax p (handle_value (JInt (lex_unsigned (m_lexer p))) (sax p)))
  | parse_error => Throw (expect uninitialized "value" p) p
  | end_of_input =>
      if (chars_read_total (m_lexer p) =? 1)%nat
      then Throw (parse_error_101 "attempting to parse an empty input; check that your input string or stream contains the expected JSON" p) p
      else Throw (expect literal_or_value "value" p) p
  | _ => Throw (expect literal_or_value "value" p) p
  end.

(** After a value. *)
Definition parse_state (states : list bool) (p : parser) : Turn :=
  match states with
  | [] => Return p
  | true :: outer =>
      let p := get_token p in
      if bool_decide (last_token p = value_separator) then Continue false states (get_token p)
      else if bool_decide (last_token p = end_array) then Continue true outer (with_sax p (end_container (sax p)))
      else Throw (expect end_array "array" p) p
  | false :: outer =>
      let p := get_token p in
      if bool_decide (last_token p = value_separator) then
        match parse_key (get_token p) with
        | inl what => Throw what p
        | inr p => Continue false states (get_token p)
        end
      else if bool_decide (last_token p = end_object) then Continue true outer (with_sax p (end_container (sax p)))
      else Throw (expect end_object "object" p) p
  end.

(** [None]: out of fuel. *)
Fixpoint sax_parse_internal (fuel : nat) (skip : bool) (states : list bool) (p : parser) : option (string + parser) :=
  match fuel with
  | O => None
  | S fuel =>
      match (if skip then Break p else parse_value states p) with
      | Break p =>
          match parse_state states p with
          | Continue skip states p => sax_parse_internal fuel skip states p
          | Throw what _ => Some (inl what)
          | Break p | Return p => Some (inr p)
          end
      | Continue skip states p => sax_parse_internal fuel skip states p
      | Throw what _ => Some (inl what)
      | Return p => Some (inr p)
      end
  end.

Inductive Parsed := Value (j : json) | Discarded | Thrown (what : string).

Definition fuel_for (input : list Z) : nat := S (S (length input)).

(** [parse( strict, result )] of a parser made with [allow_exceptions]; [None]: out of fuel. *)
Definition parse (allow_exceptions strict : bool) (input : list Z) : option Parsed :=
  let failed what := if allow_exceptions then Thrown what else Discarded in
  sax_parse_internal (fuel_for input) false [] (parser_make input) ≫= fun r =>
  Some match r with
       | inl what => failed what
       | inr p =>
           if strict then
             let p' := get_token p in
             if bool_decide (last_token p' = end_of_input) then Value (root (sax p)) else failed (expect end_of_input "value" p')
           else Value (root (sax p))
       end.
End Parser.

(** [json::parse( text, nullptr, false )], a text whose errors are silent. *)
Definition json_parse_quiet (text : string) : option json :=
  match parse false false true (bytes_of_string text) with Some (Value j) => Some j | _ => None end.

(** [stream >> json]: what follows the value is left in the stream; [None]: the exception. *)
Definition json_read (text : string) : option json :=
  match parse false true false (bytes_of_string text) with Some (Value j) => Some j | _ => None end.

Example parse_examples :
  json_read "{ }  and the rest" = Some (JObject []) /\ json_parse_quiet "{ }  and the rest" = None /\
  json_read "[1, -2, true, 18446744073709551615, -9223372036854775809, 1e400]" = None /\
  json_read "[1, -2 ,true,null, 18446744073709551615, 0.5, -0.25e1, [[]]]" =
    Some (JArray [JInt 1; JInt (-2); JBool true; JNull; JInt (2 ^ 64 - 1); JFloat (f64_lit 1 2); JFloat (f64_lit (-5) 2); JArray [JArray []]]) /\
  parse false true true (bytes_of_string "[1,") = Some (Thrown "[json.exception.parse_error.101] parse error at line 1, column 4: syntax error while parsing value - unexpected end of input; expected '[', '{', or a literal") /\
  parse false true true (bytes_of_string "") = Some (Thrown "[json.exception.parse_error.101] parse error at line 1, column 1: attempting to parse an empty input; check that your input string or stream contains the expected JSON").
Proof. split_and!; vm_compute; reflexivity. Qed.

(** ** Values that can be printed *)

(** [pending]: the ranges of the bytes that the code point still needs. *)
Fixpoint utf8_from (pending : list (Z * Z)) (s : list Z) : bool :=
  match s with
  | [] => match pending with [] => true | _ => false end
  | b :: s =>
      match pending with
      | [] => match utf8_ranges b with Some ranges => utf8_from ranges s | None => false end
      | (lo, hi) :: pending => between lo hi b && utf8_from pending s
      end
  end.
Definition utf8b : list Z -> bool := utf8_from [].

Definition text_ok (s : string) : bool := utf8b (bytes_of_string s).

Fixpoint json_ok (j : json) : bool :=
  match j with
  | JNull | JBool _ => true
  | JInt z => (- 2 ^ 63 <=? z) && (z <? 2 ^ 64)
  | JFloat x => is_finite x && valid_binary 53 1024 x
  | JString s => text_ok s
  | JArray l => forallb json_ok l
  | JObject m => keys_sorted m && forallb (fun kv => text_ok (fst kv) && json_ok (snd kv)) m
  end.

Definition in_range (r : Z * Z) (b : Z) : Prop := between (fst r) (snd r) b = true.

Lemma utf8_from_app rs bs s : Forall2 in_range rs bs -> utf8_from rs (bs ++ s) = utf8b s.
Proof. induction 1 as [| [lo hi] b rs bs Hb _ IH]; [done |]. cbn [app utf8_from]. unfold in_range in Hb. cbn in Hb. by rewrite Hb, IH. Qed.

Lemma utf8b_app q s : utf8_sequence q -> utf8b (q ++ s) = utf8b s.
Proof. destruct q as [| c q]; [done |]. intros (rs & Hr & Hf). unfold utf8b. cbn [utf8_from app]. rewrite Hr. by apply utf8_from_app. Qed.

Lemma utf8_utf8b s : utf8 s -> utf8b s = true.
Proof. induction 1 as [| q s Hq _ IH]; [done |]. by rewrite utf8b_app. Qed.

Lemma utf8_from_inv rs s : utf8_from rs s = true -> exists bs s', Forall2 in_range rs bs /\ s = bs ++ s' /\ utf8b s' = true.
Proof.
  revert s. induction rs as [| [lo hi] rs IH]; intros s H; [by exists [], s |]. destruct s as [| b s]; [done |]. cbn in H. apply andb_prop in H as [Hb H].
  destruct (IH s H) as (bs & s' & H1 & -> & H2). exists (b :: bs), s'. split_and!; [by constructor | done | done].
Qed.

(** The first code point of a string that is UTF-8. *)
Lemma utf8b_inv s : utf8b s = true -> s = [] \/ exists q s', utf8_sequence q /\ s = q ++ s' /\ utf8b s' = true.
Proof.
  destruct s as [| c s]; [by left |]. unfold utf8b. cbn [utf8_from]. destruct (utf8_ranges c) as [rs |] eqn:E; [| done]. intros H. right.
  destruct (utf8_from_inv rs s H) as (bs & s' & H1 & -> & H2). exists (c :: bs), s'. split_and!; [by exists rs | done | done].
Qed.

Lemma utf8b_utf8 s : utf8b s = true -> utf8 s.
Proof.
  remember (length s) as n eqn:En. revert s En. induction (lt_wf n) as [n _ IH]; intros s -> H. destruct (utf8b_inv s H) as [-> | (q & s' & Hq & -> & Hs)]; [apply utf8_nil |].
  apply utf8_app; [done |]. eapply (IH (length s')); [| done | done]. destruct q as [| c q]; [done |]. cbn. rewrite length_app. lia.
Qed.

(** ** Strings as bytes *)

Lemma utf8_sequence_bytes q : utf8_sequence q -> Forall byte q.
Proof.
  destruct q as [| c q]; [done |]. intros (rs & Hr & Hf). assert (0 <= c < 256 /\ Forall (fun r => 0 <= fst r /\ snd r < 256) rs) as [Hc Hrs].
  { unfold utf8_ranges in Hr. repeat match type of Hr with (if between ?a ?b ?x then _ else _) = _ => destruct (between a b x) eqn:E; [apply between_true in E; injection Hr as <-; split; [lia | by repeat constructor] | clear E]
      | (if ?x =? ?k then _ else _) = _ => destruct (Z.eqb_spec x k) as [-> |]; [injection Hr as <-; split; [lia | by repeat constructor] |] end. done. }
  constructor; [done |]. clear Hr Hc. induction Hf as [| [lo hi] b rs bs Hb _ IH]; [done |]. apply Forall_cons in Hrs as [[H1 H2] Hrs]. apply between_true in Hb. cbn in *. constructor; [unfold byte; lia | by apply IH].
Qed.

Lemma utf8_bytes s : utf8 s -> Forall byte s.
Proof. induction 1 as [| q s Hq _ IH]; [done |]. apply Forall_app. split; [by apply utf8_sequence_bytes | done]. Qed.

Lemma bytes_of_string_of_bytes l : Forall byte l -> bytes_of_string (string_of_bytes l) = l.
Proof.
  intros H. unfold bytes_of_string, string_of_bytes. rewrite list_ascii_of_string_of_list_ascii, map_map. induction H as [| c l Hc _ IH]; [done |]. cbn [map]. f_equal; [| exact IH].
  rewrite nat_ascii_embedding; [by rewrite Z2Nat.id by (unfold byte in Hc; lia) | unfold byte in Hc; lia].
Qed.

Lemma string_of_bytes_of_string s : string_of_bytes (bytes_of_string s) = s.
Proof.
  unfold bytes_of_string, string_of_bytes. rewrite map_map. rewrite <- (string_of_list_ascii_of_string s) at 2. f_equal. rewrite <- (map_id (list_ascii_of_string s)) at 2. apply map_ext. intros c.
  by rewrite Nat2Z.id, ascii_nat_embedding.
Qed.

Lemma bytes_of_string_bytes s : Forall byte (bytes_of_string s).
Proof. unfold bytes_of_string. induction (list_ascii_of_string s) as [| c l IH]; constructor; [| done]. unfold byte. pose proof (nat_ascii_bounded c). lia. Qed.

Lemma token_text_ok b : utf8 b -> text_ok (string_of_bytes b) = true.
Proof. intros H. unfold text_ok. rewrite bytes_of_string_of_bytes by by apply utf8_bytes. by apply utf8_utf8b. Qed.

(** ** Numbers of a token *)

Lemma digits_value_app a b : digits_value (a ++ b) = digits_value a * 10 ^ Z.of_nat (length b) + digits_value b.
Proof.
  unfold digits_value. rewrite fold_left_app. generalize (fold_left (fun acc c => 10 * acc + (c - 48)) a 0) as x. intros x.
  assert (forall y, fold_left (fun acc c => 10 * acc + (c - 48)) b y = y * 10 ^ Z.of_nat (length b) + fold_left (fun acc c => 10 * acc + (c - 48)) b 0) as H; [| apply H].
  induction b as [| c b IH]; intros y; cbn [fold_left length]; [lia |]. rewrite IH, (IH (10 * 0 + (c - 48))). rewrite Nat2Z.inj_succ, Z.pow_succ_r by lia. lia.
Qed.

Definition digits (l : list Z) : Prop := Forall (fun c => is_digit_byte c = true) l.

Lemma digits_value_nonneg l : digits l -> 0 <= digits_value l.
Proof.
  induction l as [| c l IH] using rev_ind; [done |]. intros [Hl Hc]%Forall_app. apply Forall_cons in Hc as [Hc _]. rewrite digits_value_app. apply between_true in Hc. specialize (IH Hl).
  assert (0 <= digits_value [c]) by (cbn; lia). cbn [length]. lia.
Qed.

Lemma span_digits_digits l : digits (fst (span_digits l)).
Proof. induction l as [| c l IH]; cbn; [constructor |]. destruct (is_digit_byte c) eqn:E; [| constructor]. destruct (span_digits l) as [d r]. by constructor. Qed.

Lemma span_digits_app d r : digits d -> (match r with [] => True | c :: _ => is_digit_byte c = false end) -> span_digits (d ++ r) = (d, r).
Proof. induction 1 as [| c d Hc _ IH]; intros Hr; cbn. - destruct r as [| c r]; [done |]. cbn. by rewrite Hr. - by rewrite Hc, IH. Qed.

Lemma strtoull_range l x : strtoull l = Some x -> 0 <= x < 2 ^ 64.
Proof. unfold strtoull. pose proof (digits_value_nonneg _ (span_digits_digits l)). destruct (Z.ltb_spec (digits_value (fst (span_digits l))) (2 ^ 64)); [intros [= <-]; lia | done]. Qed.

Lemma strtoll_range l x : strtoll l = Some x -> - 2 ^ 63 <= x < 2 ^ 63.
Proof.
  unfold strtoll. destruct (take_sign l) as [neg d]. destruct (_ && _) eqn:E; [| done]. intros [= <-]. apply andb_prop in E as [E1 E2]. lia.
Qed.

Lemma SFopp_valid x : f64_ok x -> f64_ok (SFopp x).
Proof. by destruct x. Qed.

Lemma decimal_to_f64_ok s m e : f64_ok (decimal_to_f64 s m e).
Proof.
  unfold decimal_to_f64. destruct m as [| p | p]; [done | | done]. destruct (0 <=? e).
  - assert (f64_ok (f64_of_Z (Z.pos p * 10 ^ e))) as H by (apply (binary_normalize_valid 53 1024); lia). destruct s; [by apply SFopp_valid | done].
  - destruct (10 ^ (- e)) as [| q | q]; [done | | done]. by apply (SFdiv_fin 53 1024).
Qed.

Lemma strtod_ok l : f64_ok (strtod l).
Proof.
  unfold strtod. destruct (take_sign l) as [s l1]. destruct (span_digits l1) as [whole l2]. destruct (match l2 with [] => ([], []) | _ => _ end) as [fraction l3]. apply decimal_to_f64_ok.
Qed.

(** The values that go with the tokens of numbers. *)
Definition values_ok (r : token_type * lexer) : Prop :=
  (fst r = value_unsigned -> 0 <= lex_unsigned (snd r) < 2 ^ 64) /\ (fst r = value_integer -> - 2 ^ 63 <= lex_integer (snd r) < 2 ^ 63) /\ (fst r = value_float -> f64_ok (lex_float (snd r))).

Lemma scan_number_done_values nt l : values_ok (scan_number_done nt l).
Proof.
  unfold scan_number_done. assert (values_ok (value_float, with_values (unget l) (lex_integer (unget l)) (lex_unsigned (unget l)) (strtod (token_buffer (unget l))))) as Hf by (split_and!; [done | done | intros _; apply strtod_ok]).
  destruct nt; try exact Hf.
  - destruct (strtoull _) as [x |] eqn:E; [| exact Hf]. split_and!; [intros _; by apply (strtoull_range (token_buffer (unget l))) | done | done].
  - destruct (strtoll _) as [x |] eqn:E; [| exact Hf]. split_and!; [done | intros _; by apply (strtoll_range (token_buffer (unget l))) | done].
Qed.

Lemma other_values t l : t <> value_unsigned -> t <> value_integer -> t <> value_float -> values_ok (t, l).
Proof. done. Qed.

Lemma scan_literal_values text t l : t <> value_unsigned -> t <> value_integer -> t <> value_float -> values_ok (scan_literal text t l).
Proof. intros H1 H2 H3. revert l. induction text as [| c text IH]; intros l; cbn; [done |]. destruct (_ =? c); [apply IH | done]. Qed.

Lemma scan_string_values fuel l : values_ok (scan_string_loop fuel l).
Proof.
  revert l. induction fuel as [| fuel IH]; intros l; cbn [scan_string_loop]; [done |]. destruct (_ =? eof); [done |]. destruct (_ =? QUOTE); [done |]. destruct (_ =? BACKSLASH).
  - destruct (scan_escape (get l)) as [[] l1]; [apply IH | done].
  - destruct (between 0 31 _); [done |]. destruct (utf8_ranges _) as [rs |]; [| done]. destruct (next_byte_in_range rs (get l)) as [[] l1]; [apply IH | done].
Qed.

Lemma scan_current_values l : values_ok (scan_current l).
Proof.
  unfold scan_current. repeat (destruct (_ =? ch _); [first [apply other_values; discriminate | apply scan_literal_values; discriminate] |]).
  destruct (_ =? QUOTE); [apply scan_string_values |]. destruct (_ || _); [| by destruct (_ || _)].
  unfold scan_number. destruct (scan_number_states _ _ _ _) as [[nt |] l2]; [apply scan_number_done_values | done].
Qed.

Lemma scan_values l : values_ok (scan false l).
Proof. unfold scan. destruct (if (_ =? 0)%nat then _ else _) as [[] l1]; [apply scan_current_values | done]. Qed.

(** ** The value under construction *)

Definition member_ok (kv : string * json) : bool := text_ok (fst kv) && json_ok (snd kv).

Definition frame_ok (f : Frame) : bool :=
  match f with
  | FArray l => forallb json_ok l
  | FObject m k => keys_sorted m && forallb member_ok m && text_ok k
  end.

Definition dom_ok (d : Dom) : bool := json_ok (root d) && forallb frame_ok (ref_stack d).

Lemma replace_member_ok k v m : text_ok k = true -> json_ok v = true -> keys_sorted m && forallb member_ok m = true ->
  keys_sorted (replace_member k v m) && forallb member_ok (replace_member k v m) = true.
Proof.
  intros Hk Hv [H1 H2]%andb_prop. rewrite replace_member_sorted by done. apply replace_member_forall; [| done]. unfold member_ok. cbn [fst snd]. by rewrite Hk, Hv.
Qed.

Lemma forallb_cons {A} (f : A -> bool) x l : forallb f (x :: l) = f x && forallb f l.
Proof. done. Qed.

Lemma handle_value_ok v d : json_ok v = true -> dom_ok d = true -> dom_ok (handle_value v d) = true.
Proof.
  unfold dom_ok, handle_value. intros Hv [Hr Hs]%andb_prop. destruct (ref_stack d) as [| f s]; [cbn; by rewrite Hv |]. rewrite forallb_cons in Hs. apply andb_prop in Hs as [Hf Hs].
  destruct f as [l | m k]; cbn [root ref_stack]; rewrite Hr, forallb_cons, Hs, andb_true_r; cbn [frame_ok andb] in *.
  - rewrite forallb_app, Hf. cbn. by rewrite Hv.
  - apply andb_prop in Hf as [Hm Hk]. by rewrite (replace_member_ok k v m Hk Hv Hm), Hk.
Qed.

Lemma end_container_ok d : dom_ok d = true -> dom_ok (end_container d) = true.
Proof.
  unfold end_container. intros H. destruct (ref_stack d) as [| f s] eqn:E; [done |]. unfold dom_ok in H. rewrite E, forallb_cons, !andb_true_iff in H. destruct H as (Hr & Hf & Hs).
  apply handle_value_ok; [| unfold dom_ok; cbn [root ref_stack]; by rewrite Hr, Hs]. destruct f as [l | m k]; [done |]. by apply andb_prop in Hf as [? _].
Qed.

Lemma start_ok d : dom_ok d = true -> dom_ok (start_object d) = true /\ dom_ok (start_array d) = true.
Proof. unfold dom_ok. intros [Hr Hs]%andb_prop. unfold start_object, start_array. cbn [root ref_stack]. by rewrite Hr, !forallb_cons, Hs. Qed.

Lemma dom_key_ok k d : text_ok k = true -> dom_ok d = true -> dom_ok (dom_key k d) = true.
Proof.
  unfold dom_ok, dom_key. intros Hk H. destruct (ref_stack d) as [| [l | m k'] s] eqn:E; try by rewrite E. rewrite forallb_cons, !andb_true_iff in H. destruct H as (Hr & Hf & Hs).
  cbn [root ref_stack]. rewrite Hr, forallb_cons, Hs, andb_true_r. cbn [frame_ok andb] in *. apply andb_prop in Hf as [Hm _]. rewrite Hk, andb_true_r. unfold subscript. destruct (find_member k m); [done |]. by apply replace_member_ok.
Qed.

(** ** The loop *)

Record parser_ok (p : parser) : Prop := {
  ok_lexer : lexer_ok (m_lexer p);
  ok_values : values_ok (last_token p, m_lexer p);
  ok_text : last_token p = value_string -> utf8 (token_buffer (m_lexer p));
  ok_dom : dom_ok (sax p) = true
}.

Definition left_to_read (p : parser) : nat := length (unread (m_lexer p)).

Lemma with_sax_ok p d : parser_ok p -> dom_ok d = true -> parser_ok (with_sax p d).
Proof. intros [H1 H2 H3 H4] Hd. by split. Qed.

Lemma get_token_ok p : lexer_ok (m_lexer p) -> dom_ok (sax p) = true ->
  let p' := get_token false p in parser_ok p' /\ sax p' = sax p /\ (left_to_read p' <= left_to_read p)%nat /\ (terminal (last_token p') = true \/ (left_to_read p' < left_to_read p)%nat).
Proof.
  intros Hl Hd. destruct (scan_read (m_lexer p) Hl) as [(T1 & T2 & T3 & _) T4]. pose proof (scan_values (m_lexer p)) as Hv. unfold get_token, left_to_read. destruct (scan false (m_lexer p)) as [t l] eqn:E. cbn [fst snd] in *.
  split; [by split |]. split; [done |]. cbn [m_lexer last_token]. split; [by apply suffix_length_le |]. destruct (terminal t); [by left | right; auto].
Qed.

(** A turn reads on, unless the next token ends the loop. *)
Definition turn_ok (p : parser) (t : Turn) : Prop :=
  match t with
  | Break p' => parser_ok p' /\ (left_to_read p' <= left_to_read p)%nat
  | Continue skip _ p' => parser_ok p' /\ (left_to_read p' <= left_to_read p)%nat /\ (skip = false /\ terminal (last_token p') = true \/ (left_to_read p' < left_to_read p)%nat)
  | Return p' => p' = p
  | Throw _ _ => True
  end.

Lemma parse_key_ok p : parser_ok p ->
  match parse_key false p with inl _ => True | inr p' => parser_ok p' /\ (left_to_read p' <= left_to_read p)%nat end.
Proof.
  intros Hp. unfold parse_key. case_bool_decide as Ht; cbn [negb]; [| done].
  set (p1 := with_sax p _). assert (parser_ok p1) as H1 by (apply with_sax_ok; [done |]; apply dom_key_ok; [by apply token_text_ok, Hp | apply Hp]).
  destruct (get_token_ok p1 (ok_lexer _ H1) (ok_dom _ H1)) as (H2 & _ & H3 & _). case_bool_decide; cbn [negb]; [| done]. done.
Qed.

Lemma leaf_ok p v : parser_ok p -> json_ok v = true -> turn_ok p (Break (with_sax p (handle_value v (sax p)))).
Proof. intros Hp Hv. split; [| done]. apply with_sax_ok; [done |]. apply handle_value_ok; [done | apply Hp]. Qed.

Lemma parse_value_ok states p : parser_ok p -> turn_ok p (parse_value false states p).
Proof.
  intros Hp. unfold parse_value. destruct (last_token p) eqn:Et; try done; try by apply leaf_ok.
  - apply leaf_ok; [done |]. by apply token_text_ok, Hp.
  - apply leaf_ok; [done |]. pose proof (proj1 (ok_values _ Hp)) as H. cbn [fst snd] in H. specialize (H Et). cbn. rewrite andb_true_iff, Z.leb_le, Z.ltb_lt. lia.
  - apply leaf_ok; [done |]. pose proof (proj1 (proj2 (ok_values _ Hp))) as H. cbn [fst snd] in H. specialize (H Et). cbn. rewrite andb_true_iff, Z.leb_le, Z.ltb_lt. lia.
  - destruct (is_finite _) eqn:Ef; cbn [negb]; [| done]. apply leaf_ok; [done |]. cbn [json_ok]. rewrite Ef. by apply Hp.
  - set (p1 := with_sax p (start_array (sax p))). assert (parser_ok p1) as H1 by (apply with_sax_ok; [done | apply start_ok, Hp]).
    destruct (get_token_ok p1 (ok_lexer _ H1) (ok_dom _ H1)) as (H2 & _ & H3 & H4). change (left_to_read p1) with (left_to_read p) in *. case_bool_decide.
    + split; [| done]. apply with_sax_ok; [done |]. apply end_container_ok, H2.
    + split_and!; [done | done |]. destruct H4; [by left | by right].
  - set (p1 := with_sax p (start_object (sax p))). assert (parser_ok p1) as H1 by (apply with_sax_ok; [done | apply start_ok, Hp]).
    destruct (get_token_ok p1 (ok_lexer _ H1) (ok_dom _ H1)) as (H2 & _ & H3 & H4). change (left_to_read p1) with (left_to_read p) in *. case_bool_decide.
    + split; [| done]. apply with_sax_ok; [done |]. apply end_container_ok, H2.
    + pose proof (parse_key_ok _ H2) as Hk. destruct (parse_key false _) as [what | p2]; [done |]. destruct Hk as [H5 H6].
      destruct (get_token_ok p2 (ok_lexer _ H5) (ok_dom _ H5)) as (H7 & _ & H8 & H9). split_and!; [done | lia |]. destruct H9; [by left | right; lia].
  - by destruct (_ =? 1)%nat.
Qed.

Lemma parse_state_ok states p : parser_ok p -> turn_ok p (parse_state false states p).
Proof.
  intros Hp. unfold parse_state. destruct states as [| array outer]; [done |].
  destruct (get_token_ok p (ok_lexer _ Hp) (ok_dom _ Hp)) as (H2 & _ & H3 & H4). set (p1 := get_token false p) in *.
  assert (last_token p1 <> end_of_input /\ last_token p1 <> parse_error -> (left_to_read p1 < left_to_read p)%nat) as Hlt by (intros [E1 E2]; destruct H4 as [H4 |]; [by destruct (last_token p1) | done]).
  assert (forall p2, parser_ok p2 -> (left_to_read p2 <= left_to_read p1)%nat -> last_token p1 = value_separator -> turn_ok p (Continue false (array :: outer) (get_token false p2))) as Hnext.
  { intros p2 Hp2 Hle Hs. rewrite Hs in Hlt. destruct (get_token_ok p2 (ok_lexer _ Hp2) (ok_dom _ Hp2)) as (G1 & _ & G2 & _). specialize (Hlt ltac:(done)). split_and!; [done | lia | right; lia]. }
  assert (forall t, last_token p1 = t -> t = end_array \/ t = end_object -> turn_ok p (Continue true outer (with_sax p1 (end_container (sax p1))))) as Hend.
  { intros t Ht Hor. rewrite Ht in Hlt. assert (left_to_read p1 < left_to_read p)%nat by (apply Hlt; by destruct Hor as [-> | ->]). split_and!; [apply with_sax_ok; [done |]; apply end_container_ok, H2 | exact H3 | by right]. }
  destruct array; (case_bool_decide as Hsep; [| case_bool_decide as He; [by eapply Hend; [exact He | auto] | done]]).
  - by apply Hnext.
  - destruct (get_token_ok p1 (ok_lexer _ H2) (ok_dom _ H2)) as (G1 & _ & G2 & _). pose proof (parse_key_ok _ G1) as Hk. destruct (parse_key false _) as [what | p2]; [done |]. destruct Hk as [K1 K2].
    apply Hnext; [done | lia | done].
Qed.

(** The loop ends: its fuel is the length of what is left, and two turns more. *)
Lemma sax_parse_internal_ends fuel skip states p : parser_ok p ->
  ((left_to_read p + 2 <= fuel)%nat \/ skip = false /\ terminal (last_token p) = true /\ (1 <= fuel)%nat) ->
  match sax_parse_internal false fuel skip states p with None => False | Some (inl _) => True | Some (inr p') => parser_ok p' end.
Proof.
  revert skip states p. induction fuel as [| fuel IH]; intros skip states p Hp Hf; [lia |]. cbn [sax_parse_internal].
  destruct Hf as [Hf | (-> & Ht & _)]; [| unfold parse_value; destruct (last_token p); try done; by destruct (_ =? 1)%nat].
  assert (forall p1 skip1 states1 p2, (left_to_read p1 <= left_to_read p)%nat -> turn_ok p1 (Continue skip1 states1 p2) -> match sax_parse_internal false fuel skip1 states1 p2 with None => False | Some (inl _) => True | Some (inr p') => parser_ok p' end) as Hgo.
  { intros p1 skip1 states1 p2 Hle (H1 & H2 & H3). apply IH; [done |]. destruct H3 as [[-> H3] | H3]; [right; split_and!; [done | done | lia] | left; lia]. }
  assert (turn_ok p (if skip then Break p else parse_value false states p)) as Ht by (destruct skip; [by split | by apply parse_value_ok]).
  destruct (if skip then _ else _) as [p1 | skip1 states1 p1 | p1 | what p1]; [| by apply (Hgo p) | by cbn in Ht; subst p1 | done]. destruct Ht as [H1 H2].
  pose proof (parse_state_ok states p1 H1) as Ht. destruct (parse_state false states p1) as [p2 | skip1 states1 p2 | p2 | what p2]; [apply Ht | by apply (Hgo p1) | by cbn in Ht; subst p2 | done].
Qed.

Lemma parser_make_ok input : Forall byte input -> parser_ok (parser_make false input) /\ (left_to_read (parser_make false input) <= length input)%nat.
Proof. intros H. destruct (get_token_ok (mkParser (lexer_make input) uninitialized (mkDom JNull []))) as (H1 & _ & H2 & _); [by split | done | by split]. Qed.

(** More fuel changes nothing. *)
Lemma sax_parse_more fuel fuel' skip states p r : (fuel <= fuel')%nat -> sax_parse_internal false fuel skip states p = Some r -> sax_parse_internal false fuel' skip states p = Some r.
Proof.
  intros Hle. revert fuel' Hle skip states p. induction fuel as [| fuel IH]; intros fuel' Hle skip states p H; [done |]. destruct fuel' as [| fuel']; [lia |]. cbn [sax_parse_internal] in *.
  destruct (if skip then _ else _) as [p1 | skip1 states1 p1 | p1 | what p1]; [| by apply IH; [lia |] | done | done]. destruct (parse_state false states p1); [done | by apply IH; [lia |] | done | done].
Qed.

(** Every input ends the parser, and what it builds is a value that can be printed. *)
Lemma parse_result quiet strict input : Forall byte input ->
  exists r, parse false quiet strict input = Some r /\ (forall j, r = Value j -> json_ok j = true) /\ (quiet = false -> forall what, r <> Thrown what) /\ (quiet = true -> r <> Discarded).
Proof.
  intros Hi. unfold parse. destruct (parser_make_ok input Hi) as [H1 H2]. pose proof (sax_parse_internal_ends (fuel_for input) false [] _ H1 ltac:(unfold fuel_for; lia)) as H.
  destruct (sax_parse_internal _ _ _ _ _) as [[what | p] |]; [| | done]; cbn [mbind option_bind]; eexists; (split; [reflexivity |]).
  - by destruct quiet.
  - assert (json_ok (root (sax p)) = true) as Hr by (by destruct (andb_prop _ _ (ok_dom _ H)) as [? _]). destruct strict; [| split_and!; [by intros ? [= <-] | done | done]].
    case_bool_decide; [split_and!; [by intros ? [= <-] | done | done] | by destruct quiet].
Qed.

(** Without exceptions the parser accepts the same texts. *)
Lemma parse_quiet_same strict input j : parse false true strict input = Some (Value j) <-> parse false false strict input = Some (Value j).
Proof.
  unfold parse. destruct (sax_parse_internal _ _ _ _ _) as [[what | p] |]; cbn [mbind option_bind]; [done | | done]. destruct strict; [| done]. by case_bool_decide.
Qed.

(** C9: The parser returns on every input, valid or not: as many turns of the loop as the input has
    bytes, and two more, are enough, and more change nothing. It returns a value, or the error it
    is made to report (an exception where they are allowed, the discarded value otherwise, and
    never the other one); which of the two reports is asked for does not change the values it
    accepts. Every value it returns is one that the serializer prints: finite valid doubles,
    integers of 64 bits, text that is UTF-8, no key twice. *)
Theorem parse_ends allow_exceptions strict input : Forall byte input ->
  (forall fuel, (length input + 2 <= fuel)%nat -> sax_parse_internal false fuel false [] (parser_make false input) = sax_parse_internal false (fuel_for input) false [] (parser_make false input)) /\
  exists r, parse false allow_exceptions strict input = Some r /\
    (forall j, r = Value j -> json_ok j = true) /\ (allow_exceptions = false -> forall what, r <> Thrown what) /\ (allow_exceptions = true -> r <> Discarded) /\
    (forall j, r = Value j <-> parse false (negb allow_exceptions) strict input = Some (Value j)).
Proof.
  intros Hi. split.
  - intros fuel Hle. destruct (parser_make_ok input Hi) as [H1 H2]. pose proof (sax_parse_internal_ends (fuel_for input) false [] _ H1 ltac:(unfold fuel_for; lia)) as Hend.
    destruct (sax_parse_internal false (fuel_for input) false [] (parser_make false input)) as [r |] eqn:E; [| done]. by apply (sax_parse_more _ fuel) in E; [| unfold fuel_for; lia].
  - destruct (parse_result allow_exceptions strict input Hi) as (r & Hr & H1 & H2 & H3). exists r. split; [done |]. split; [done |]. split; [done |]. split; [done |].
    intros j. pose proof (parse_quiet_same strict input j) as Hs. destruct allow_exceptions; cbn [negb]; rewrite Hr in Hs; [rewrite <- Hs | rewrite Hs]; split; congruence.
Qed.

Lemma parse_ends_witness : exists r, parse false false true (bytes_of_string "[1, 2.50 }") = Some r /\ r = Discarded.
Proof.
  destruct (parse_ends false true (bytes_of_string "[1, 2.50 }")) as (_ & r & Hr & _); [by vm_compute; repeat (apply Forall_cons_2; [split; [by intros [=] | reflexivity] |]); apply Forall_nil_2 |].
  exists r. split; [done |]. vm_compute in Hr. congruence.
Defined.
