(* ===== verification/Grisu.v ===== *)
(** * The text of a number

    [dtoa_impl] and [dump_integer] of the vendored nlohmann::json 3.11.3
    ([BasicLibs/core/parser/json/json.hpp]): the digits of an integer, two at a time, and
    the shortest digits of a double by the algorithm Grisu2, in 64-bit arithmetic.  Buffers are lists
    of bytes; loops have fuel, as much as a 64-bit integer has digits. *)

From Stdlib Require Import SpecFloat Ascii String.
From stdpp Require Import list pretty.
From S2P Require Import Prelude Float32 JsonLexer.
Open Scope Z_scope.
Open Scope list_scope.

(** ** Integers *)

Fixpoint count_digits (fuel : nat) (x n_digits : Z) : Z :=
  match fuel with
  | O => n_digits
  | S fuel =>
      if x <? 10 then n_digits
      else if x <? 100 then n_digits + 1
      else if x <? 1000 then n_digits + 2
      else if x <? 10000 then n_digits + 3
      else count_digits fuel (x / 10000) (n_digits + 4)
  end.

Definition digits_to_99 (i : Z) : Z * Z := (48 + i / 10, 48 + i mod 10).

(** The digits are written from the end; [buffer_ptr] is an index. *)
Fixpoint write_pairs (fuel : nat) (abs_value : Z) (buffer_ptr : nat) (buffer : list Z) : Z * nat * list Z :=
  match fuel with
  | O => (abs_value, buffer_ptr, buffer)
  | S fuel =>
      if 100 <=? abs_value then
        let '(d0, d1) := digits_to_99 (abs_value mod 100) in
        write_pairs fuel (abs_value / 100) (buffer_ptr - 2) (<[(buffer_ptr - 2)%nat := d0]> (<[(buffer_ptr - 1)%nat := d1]> buffer))
      else (abs_value, buffer_ptr, buffer)
  end.

(** [remove_sign], of a negative [int64_t]. *)
Definition remove_sign (x : Z) : Z := u64 (- (x + 1)) + 1.

(** [number_buffer] holds what the number before left. *)
Definition dump_integer (number_buffer : list Z) (x : Z) : list Z :=
  if x =? 0 then [48]
  else
    let abs_value := if x <? 0 then remove_sign x else x in
    let n_chars := (if x <? 0 then 1 else 0) + count_digits 20 abs_value 1 in
    let buffer := if x <? 0 then <[0%nat := 45]> number_buffer else number_buffer in
    let '(abs_value, buffer_ptr, buffer) := write_pairs 20 abs_value (Z.to_nat n_chars) buffer in
    let buffer :=
      if 10 <=? abs_value then
        let '(d0, d1) := digits_to_99 abs_value in <[(buffer_ptr - 2)%nat := d0]> (<[(buffer_ptr - 1)%nat := d1]> buffer)
      else <[(buffer_ptr - 1)%nat := 48 + abs_value]> buffer in
    take (Z.to_nat n_chars) buffer.

(** ** Binary fractions of 64 bits *)

Record diyfp := mkDiy { df : Z; de : Z }.

Definition diy_sub (x y : diyfp) : diyfp := mkDiy (u64 (df x - df y)) (de x).

Definition lo32 (x : Z) : Z := Z.land x (2 ^ 32 - 1).
Definition hi32 (x : Z) : Z := Z.shiftr x 32.

Definition diy_mul (x y : diyfp) : diyfp :=
  let u_lo := lo32 (df x) in let u_hi := hi32 (df x) in
  let v_lo := lo32 (df y) in let v_hi := hi32 (df y) in
  let p0 := u64 (u_lo * v_lo) in let p1 := u64 (u_lo * v_hi) in
  let p2 := u64 (u_hi * v_lo) in let p3 := u64 (u_hi * v_hi) in
  let Q := u64 (hi32 p0 + lo32 p1 + lo32 p2) in
  let Q := u64 (Q + Z.shiftl 1 31) in
  mkDiy (u64 (p3 + hi32 p2 + hi32 p1 + hi32 Q)) (de x + de y + 64).

Fixpoint normalize_from (fuel : nat) (x : diyfp) : diyfp :=
  match fuel with
  | O => x
  | S fuel => if Z.shiftr (df x) 63 =? 0 then normalize_from fuel (mkDiy (u64 (Z.shiftl (df x) 1)) (de x - 1)) else x
  end.
Definition normalize (x : diyfp) : diyfp := normalize_from 64 x.

Definition normalize_to (x : diyfp) (target_exponent : Z) : diyfp := mkDiy (u64 (Z.shiftl (df x) (de x - target_exponent))) target_exponent.

(** ** A double and its boundaries *)

Definition kBias : Z := 1075.
Definition kHiddenBit : Z := 2 ^ 52.

(** The fields of the bits of a positive double. *)
Definition f64_bits (m : positive) (e : Z) : Z * Z := if Zpos m <? kHiddenBit then (0, Zpos m) else (e + kBias, Zpos m - kHiddenBit).

Record Boundaries := mkBoundaries { b_w : diyfp; b_minus : diyfp; b_plus : diyfp }.

Definition compute_boundaries (m : positive) (e : Z) : Boundaries :=
  let '(E, F) := f64_bits m e in
  let v := if E =? 0 then mkDiy F (1 - kBias) else mkDiy (F + kHiddenBit) (E - kBias) in
  let lower_boundary_is_closer := (F =? 0) && (1 <? E) in
  let m_plus := mkDiy (2 * df v + 1) (de v - 1) in
  let m_minus := if lower_boundary_is_closer then mkDiy (4 * df v - 1) (de v - 2) else mkDiy (2 * df v - 1) (de v - 1) in
  let w_plus := normalize m_plus in
  mkBoundaries (normalize v) (normalize_to m_minus (de w_plus)) w_plus.

(** ** Powers of ten *)

Definition kAlpha : Z := -60.
Definition kGamma : Z := -32.
Definition kCachedPowersMinDecExp : Z := -300.
Definition kCachedPowersDecStep : Z := 8.

Record cached_power := mkPower { cf : Z; ce : Z; ck : Z }.

Definition kCachedPowers : list cached_power :=
  [mkPower 0xAB70FE17C79AC6CA (-1060) (-300);
   mkPower 0xFF77B1FCBEBCDC4F (-1034) (-292);
   mkPower 0xBE5691EF416BD60C (-1007) (-284);
   mkPower 0x8DD01FAD907FFC3C (-980) (-276);
   mkPower 0xD3515C2831559A83 (-954) (-268);
   mkPower 0x9D71AC8FADA6C9B5 (-927) (-260);
   mkPower 0xEA9C227723EE8BCB (-901) (-252);
   mkPower 0xAECC49914078536D (-874) (-244);
   mkPower 0x823C12795DB6CE57 (-847) (-236);
   mkPower 0xC21094364DFB5637 (-821) (-228);
   mkPower 0x9096EA6F3848984F (-794) (-220);
   mkPower 0xD77485CB25823AC7 (-768) (-212);
   mkPower 0xA086CFCD97BF97F4 (-741) (-204);
   mkPower 0xEF340A98172AACE5 (-715) (-196);
   mkPower 0xB23867FB2A35B28E (-688) (-188);
   mkPower 0x84C8D4DFD2C63F3B (-661) (-180);
   mkPower 0xC5DD44271AD3CDBA (-635) (-172);
   mkPower 0x936B9FCEBB25C996 (-608) (-164);
   mkPower 0xDBAC6C247D62A584 (-582) (-156);
   mkPower 0xA3AB66580D5FDAF6 (-555) (-148);
   mkPower 0xF3E2F893DEC3F126 (-529) (-140);
   mkPower 0xB5B5ADA8AAFF80B8 (-502) (-132);
   mkPower 0x87625F056C7C4A8B (-475) (-124);
   mkPower 0xC9BCFF6034C13053 (-449) (-116);
   mkPower 0x964E858C91BA2655 (-422) (-108);
   mkPower 0xDFF9772470297EBD (-396) (-100);
   mkPower 0xA6DFBD9FB8E5B88F (-369) (-92);
   mkPower 0xF8A95FCF88747D94 (-343) (-84);
   mkPower 0xB94470938FA89BCF (-316) (-76);
   mkPower 0x8A08F0F8BF0F156B (-289) (-68);
   mkPower 0xCDB02555653131B6 (-263) (-60);
   mkPower 0x993FE2C6D07B7FAC (-236) (-52);
   mkPower 0xE45C10C42A2B3B06 (-210) (-44);
   mkPower 0xAA242499697392D3 (-183) (-36);
   mkPower 0xFD87B5F28300CA0E (-157) (-28);
   mkPower 0xBCE5086492111AEB (-130) (-20);
   mkPower 0x8CBCCC096F5088CC (-103) (-12);
   mkPower 0xD1B71758E219652C (-77) (-4);
   mkPower 0x9C40000000000000 (-50) (4);
   mkPower 0xE8D4A51000000000 (-24) (12);
   mkPower 0xAD78EBC5AC620000 (3) (20);
   mkPower 0x813F3978F8940984 (30) (28);
   mkPower 0xC097CE7BC90715B3 (56) (36);
   mkPower 0x8F7E32CE7BEA5C70 (83) (44);
   mkPower 0xD5D238A4ABE98068 (109) (52);
   mkPower 0x9F4F2726179A2245 (136) (60);
   mkPower 0xED63A231D4C4FB27 (162) (68);
   mkPower 0xB0DE65388CC8ADA8 (189) (76);
   mkPower 0x83C7088E1AAB65DB (216) (84);
   mkPower 0xC45D1DF942711D9A (242) (92);
   mkPower 0x924D692CA61BE758 (269) (100);
   mkPower 0xDA01EE641A708DEA (295) (108);
   mkPower 0xA26DA3999AEF774A (322) (116);
   mkPower 0xF209787BB47D6B85 (348) (124);
   mkPower 0xB454E4A179DD1877 (375) (132);
   mkPower 0x865B86925B9BC5C2 (402) (140);
   mkPower 0xC83553C5C8965D3D (428) (148);
   mkPower 0x952AB45CFA97A0B3 (455) (156);
   mkPower 0xDE469FBD99A05FE3 (481) (164);
   mkPower 0xA59BC234DB398C25 (508) (172);
   mkPower 0xF6C69A72A3989F5C (534) (180);
   mkPower 0xB7DCBF5354E9BECE (561) (188);
   mkPower 0x88FCF317F22241E2 (588) (196);
   mkPower 0xCC20CE9BD35C78A5 (614) (204);
   mkPower 0x98165AF37B2153DF (641) (212);
   mkPower 0xE2A0B5DC971F303A (667) (220);
   mkPower 0xA8D9D1535CE3B396 (694) (228);
   mkPower 0xFB9B7CD9A4A7443C (720) (236);
   mkPower 0xBB764C4CA7A44410 (747) (244);
   mkPower 0x8BAB8EEFB6409C1A (774) (252);
   mkPower 0xD01FEF10A657842C (800) (260);
   mkPower 0x9B10A4E5E9913129 (827) (268);
   mkPower 0xE7109BFBA19C0C9D (853) (276);
   mkPower 0xAC2820D9623BF429 (880) (284);
   mkPower 0x80444B5E7AA7CF85 (907) (292);
   mkPower 0xBF21E44003ACDD2D (933) (300);
   mkPower 0x8E679C2F5E44FF8F (960) (308);
   mkPower 0xD433179D9C8CB841 (986) (316);
   mkPower 0x9E19DB92B4E31BA9 (1013) (324)].

Definition cached_default : cached_power := mkPower 0 0 0.

(** The division of C rounds to zero. *)
Definition get_cached_power_for_binary_exponent (e : Z) : cached_power :=
  let f := kAlpha - e - 1 in
  let k := Z.quot (f * 78913) (Z.shiftl 1 18) + (if 0 <? f then 1 else 0) in
  let index := Z.quot (- kCachedPowersMinDecExp + k + (kCachedPowersDecStep - 1)) kCachedPowersDecStep in
  nth (Z.to_nat index) kCachedPowers cached_default.

(** The number of digits and the power of ten of the first. *)
Definition find_largest_pow10 (n : Z) : Z * Z :=
  if 1000000000 <=? n then (10, 1000000000)
  else if 100000000 <=? n then (9, 100000000)
  else if 10000000 <=? n then (8, 10000000)
  else if 1000000 <=? n then (7, 1000000)
  else if 100000 <=? n then (6, 100000)
  else if 10000 <=? n then (5, 10000)
  else if 1000 <=? n then (4, 1000)
  else if 100 <=? n then (3, 100)
  else if 10 <=? n then (2, 10)
  else (1, 1).

(** ** Digits *)

(** The last digit of the buffer is decremented. *)
Definition dec_last (buf : list Z) : list Z := match rev buf with c :: r => rev (c - 1 :: r) | [] => [] end.

Fixpoint grisu2_round (fuel : nat) (buf : list Z) (dist delta rest ten_k : Z) : list Z :=
  match fuel with
  | O => buf
  | S fuel =>
      if (rest <? dist) && (ten_k <=? u64 (delta - rest)) && ((u64 (rest + ten_k) <? dist) || (u64 (u64 (rest + ten_k) - dist) <? u64 (dist - rest)))
      then grisu2_round fuel (dec_last buf) dist delta (u64 (rest + ten_k)) ten_k
      else buf
  end.

(** The rounding makes at most nine steps. *)
Definition round_fuel : nat := 10.

(** The digits of the integral part: the buffer and the exponent where they are enough, or the buffer
    after all of them. *)
Fixpoint digits_of_integral (n : nat) (buffer : list Z) (p1 pow10 p2 e dist delta : Z) : (list Z * Z) + list Z :=
  match n with
  | O => inr buffer
  | S n =>
      let d := p1 / pow10 in
      let r := p1 mod pow10 in
      let buffer := buffer ++ [48 + d] in
      let rest := u64 (u64 (Z.shiftl r (- e)) + p2) in
      if rest <=? delta then inl (grisu2_round round_fuel buffer dist delta rest (u64 (Z.shiftl pow10 (- e))), Z.of_nat n)
      else digits_of_integral n buffer r (pow10 / 10) p2 e dist delta
  end.

(** The digits of the fractional part, [m] of them so far. *)
Fixpoint digits_of_fractional (fuel : nat) (buffer : list Z) (p2 e dist delta m : Z) : list Z * Z :=
  match fuel with
  | O => (buffer, m)
  | S fuel =>
      let p2 := u64 (p2 * 10) in
      let d := Z.shiftr p2 (- e) in
      let r := Z.land p2 (u64 (Z.shiftl 1 (- e)) - 1) in
      let buffer := buffer ++ [48 + d] in
      let m := m + 1 in
      let delta := u64 (delta * 10) in
      let dist := u64 (dist * 10) in
      if r <=? delta then (grisu2_round round_fuel buffer dist delta r (u64 (Z.shiftl 1 (- e))), m)
      else digits_of_fractional fuel buffer r e dist delta m
  end.

(** The digits and the decimal exponent; [delta] grows by ten with each digit of the fraction, [p2]
    is below [2^60]. *)
Definition grisu2_digit_gen (decimal_exponent : Z) (M_minus w M_plus : diyfp) : list Z * Z :=
  let delta := df (diy_sub M_plus M_minus) in
  let dist := df (diy_sub M_plus w) in
  let e := de M_plus in
  let p1 := u32 (Z.shiftr (df M_plus) (- e)) in
  let p2 := Z.land (df M_plus) (u64 (Z.shiftl 1 (- e)) - 1) in
  let '(k, pow10) := find_largest_pow10 p1 in
  match digits_of_integral (Z.to_nat k) [] p1 pow10 p2 e dist delta with
  | inl (buffer, n) => (buffer, decimal_exponent + n)
  | inr buffer => let '(buffer, m) := digits_of_fractional 20 buffer p2 e dist delta 0 in (buffer, decimal_exponent - m)
  end.

Definition grisu2_scaled (m_minus v m_plus : diyfp) : list Z * Z :=
  let cached := get_cached_power_for_binary_exponent (de m_plus) in
  let c_minus_k := mkDiy (cf cached) (ce cached) in
  let w := diy_mul v c_minus_k in
  let w_minus := diy_mul m_minus c_minus_k in
  let w_plus := diy_mul m_plus c_minus_k in
  grisu2_digit_gen (- ck cached) (mkDiy (u64 (df w_minus + 1)) (de w_minus)) w (mkDiy (u64 (df w_plus - 1)) (de w_plus)).

Definition grisu2 (m : positive) (e : Z) : list Z * Z :=
  let b := compute_boundaries m e in grisu2_scaled (b_minus b) (b_w b) (b_plus b).

(** ** Layout *)

Definition append_exponent (e : Z) : list Z :=
  let '(sign, k) := if e <? 0 then (45, - e) else (43, e) in
  sign :: (if k <? 10 then [48; 48 + k]
           else if k <? 100 then [48 + k / 10; 48 + k mod 10]
           else [48 + k / 100; 48 + (k mod 100) / 10; 48 + (k mod 100) mod 10]).

Definition format_buffer (buf : list Z) (decimal_exponent min_exp max_exp : Z) : list Z :=
  let k := Z.of_nat (length buf) in
  let n := k + decimal_exponent in
  if (k <=? n) && (n <=? max_exp) then buf ++ replicate (Z.to_nat (n - k)) 48 ++ [46; 48]
  else if (0 <? n) && (n <=? max_exp) then take (Z.to_nat n) buf ++ [46] ++ drop (Z.to_nat n) buf
  else if (min_exp <? n) && (n <=? 0) then [48; 46] ++ replicate (Z.to_nat (- n)) 48 ++ buf
  else (if k =? 1 then buf else take 1 buf ++ [46] ++ drop 1 buf) ++ [101] ++ append_exponent (n - 1).

(** [to_chars]. *)
Definition to_chars (x : f64) : list Z :=
  let sign (s : bool) := if s then [45] else [] in
  match x with
  | S754_zero s => sign s ++ [48; 46; 48]
  | S754_finite s m e => sign s ++ (let '(buf, decimal_exponent) := grisu2 m e in format_buffer buf decimal_exponent (-4) 15)
  | _ => []
  end.

Definition dump_float (x : f64) : list Z :=
  match x with S754_infinity _ | S754_nan => [110; 117; 108; 108] | _ => to_chars x end.

Example dump_examples :
  map (fun x => string_of_bytes (dump_float x)) [f64_lit 1 10; f64_lit 1 3; f64_of_Z 1; f64_lit (-1) 2; f64_of_Z (10 ^ 15); f64_of_Z (10 ^ 22); f64_lit 1 (10 ^ 7); f64_lit 5 2; S754_finite false 1 (-1074); f64_lit 123456789 1000; f64_of_Z (2 ^ 53)] =
    ["0.1"; "0.3333333333333333"; "1.0"; "-0.5"; "1e+15"; "1e+22"; "1e-07"; "2.5"; "5e-324"; "123456.789"; "9.007199254740992e+15"]%string /\
  map (fun z => string_of_bytes (dump_integer (replicate 64 88) z)) [0; 7; -7; 42; 100; 12345; - 2 ^ 63; 2 ^ 64 - 1] =
    ["0"; "7"; "-7"; "42"; "100"; "12345"; "-9223372036854775808"; "18446744073709551615"]%string.
Proof. split; vm_compute; reflexivity. Qed.

#[export] Instance f64_eq_dec : EqDecision f64.
Proof. solve_decision. Defined.

Example dump_reads_back :
  forallb (fun x => bool_decide (strtod (dump_float x) = x)) [f64_lit 1 10; f64_lit 1 3; f64_of_Z 1; f64_lit (-1) 2; f64_of_Z (10 ^ 22); f64_lit 1 (10 ^ 7); S754_finite false 1 (-1074); S754_zero true;
    S754_finite false 9007199254740991 971; S754_finite true 4503599627370496 (-1074); f64_lit 123456789 1000] = true.
Proof. vm_compute. reflexivity. Qed.
