(* ===== verification/FloatRound.v ===== *)
(** * Rounding to the nearest

    The operations of [Float32] round an exact result once: a result that lies strictly
    between the midpoints of a float and its neighbours is that float.  The exact values are
    real numbers. *)

From Stdlib Require Import SpecFloat Reals Lra.
From S2P Require Import Prelude Float32 FloatBounds JsonLexer.
Open Scope R_scope.
Open Scope Z_scope.

(** ** Powers *)

Definition rpow (b e : Z) : R := powerRZ (IZR b) e.
Abbreviation bpow := (rpow 2).
Abbreviation tpow := (rpow 10).

Section Powers.
Context (b : Z) (Hb : 2 <= b).

Lemma base_pos : (0 < IZR b)%R.
Proof. apply IZR_lt. lia. Qed.

Lemma rpow_pos e : (0 < rpow b e)%R.
Proof. apply powerRZ_lt, base_pos. Qed.

Lemma rpow_add m n : rpow b (m + n) = (rpow b m * rpow b n)%R.
Proof. apply powerRZ_add. pose proof base_pos. lra. Qed.

Lemma rpow_0 : rpow b 0 = 1%R.
Proof. reflexivity. Qed.

Lemma rpow_IZR n : 0 <= n -> IZR (b ^ n) = rpow b n.
Proof.
  intros Hn. pattern n. apply natlike_ind; [reflexivity | | done]. intros m Hm IH. rewrite Z.pow_succ_r, mult_IZR, IH by done.
  rewrite <- Z.add_1_l, rpow_add. unfold rpow at 2. by rewrite powerRZ_1.
Qed.

Lemma rpow_opp n : rpow b (- n) = (/ rpow b n)%R.
Proof. unfold rpow. apply powerRZ_neg'. Qed.

Lemma rpow_ge_1 n : 0 <= n -> (1 <= rpow b n)%R.
Proof. intros Hn. rewrite <- rpow_IZR by done. apply IZR_le. assert (0 < b ^ n) by (apply Z.pow_pos_nonneg; lia). lia. Qed.

Lemma rpow_le m n : m <= n -> (rpow b m <= rpow b n)%R.
Proof.
  intros H. replace n with (m + (n - m)) by lia. rewrite rpow_add. pose proof (rpow_pos m). pose proof (rpow_ge_1 (n - m) ltac:(lia)). nra.
Qed.

Lemma rpow_lt_inv m n : (rpow b m < rpow b n)%R -> m < n.
Proof. intros H. destruct (Z_lt_le_dec m n); [done |]. pose proof (rpow_le n m ltac:(lia)). lra. Qed.
End Powers.

Lemma bpow_succ e : bpow (e + 1) = (2 * bpow e)%R.
Proof. rewrite rpow_add by lia. change (bpow 1) with (2 * 1)%R. lra. Qed.

(** ** The place of an exact value *)

(** [y] is in the binade cell of the mantissa, where the two bits say. *)
Definition located (mrs : shr_record) (y : R) : Prop :=
  let d := (y - IZR (shr_m mrs))%R in
  match shr_r mrs, shr_s mrs with
  | false, false => d = 0%R
  | false, true => (0 < d < / 2)%R
  | true, false => d = (/ 2)%R
  | true, true => (/ 2 < d < 1)%R
  end.

Lemma located_floor mrs y : located mrs y -> (IZR (shr_m mrs) <= y < IZR (shr_m mrs) + 1)%R.
Proof. unfold located. destruct (shr_r mrs), (shr_s mrs); lra. Qed.

Lemma shr_1_located mrs y : 0 <= shr_m mrs -> located mrs y -> located (shr_1 mrs) (y / 2)%R.
Proof.
  unfold located. destruct mrs as [m r s]. cbn [shr_m shr_r shr_s]. intros Hm H. destruct m as [| p | p]; [| destruct p as [p | p |] | lia]; cbn [shr_1 shr_m shr_r shr_s].
  - destruct r, s; cbn [orb]; lra.
  - rewrite (Pos2Z.inj_xI p), plus_IZR, (mult_IZR 2 (Zpos p)) in H. revert H. generalize (IZR (Zpos p)) as x. intros x H. destruct r, s; cbn [orb]; lra.
  - rewrite (Pos2Z.inj_xO p), (mult_IZR 2 (Zpos p)) in H. revert H. generalize (IZR (Zpos p)) as x. intros x H. destruct r, s; cbn [orb]; lra.
  - destruct r, s; cbn [orb]; lra.
Qed.

Lemma shr_iter_located n mrs y : 0 <= shr_m mrs -> located mrs y -> located (SpecFloat.iter_pos shr_1 n mrs) (y / bpow (Zpos n))%R.
Proof.
  revert mrs y. assert (forall mrs, 0 <= shr_m mrs -> 0 <= shr_m (shr_1 mrs)) as Hs by (intros mrs H; rewrite shr_1_m by done; by apply Z.div_pos).
  assert (forall n mrs, 0 <= shr_m mrs -> 0 <= shr_m (SpecFloat.iter_pos shr_1 n mrs)) as Hi by (intros k mrs H; rewrite shr_iter_m by done; apply Z.div_pos; [done | by apply Z.pow_pos_nonneg]).
  induction n as [n IH | n IH |]; intros mrs y Hm H; cbn [SpecFloat.iter_pos].
  - replace (y / bpow (Zpos n~1))%R with (y / 2 / bpow (Zpos n) / bpow (Zpos n))%R; [auto using shr_1_located |].
    replace (Zpos n~1) with (Zpos n + Zpos n + 1) by lia. rewrite bpow_succ, rpow_add by lia. field. pose proof (rpow_pos 2 ltac:(lia) (Zpos n)). lra.
  - replace (y / bpow (Zpos n~0))%R with (y / bpow (Zpos n) / bpow (Zpos n))%R; [auto |].
    replace (Zpos n~0) with (Zpos n + Zpos n) by lia. rewrite rpow_add by lia. field. pose proof (rpow_pos 2 ltac:(lia) (Zpos n)). lra.
  - change (bpow 1) with (2 * 1)%R. rewrite Rmult_1_r. by apply shr_1_located.
Qed.

Lemma loc_of_record mrs : shr_record_of_loc (shr_m mrs) (loc_of_shr_record mrs) = mrs.
Proof. by destruct mrs as [m [] []]. Qed.

(** The rounding takes the nearest integer. *)
Lemma round_nearest mrs y n : located mrs y -> (IZR n - / 2 < y < IZR n + / 2)%R -> round_nearest_even (shr_m mrs) (loc_of_shr_record mrs) = n.
Proof.
  intros Hl Hn. assert (shr_m mrs = n \/ shr_m mrs = n - 1) as Hm.
  { apply located_floor in Hl. assert (shr_m mrs < n + 1) by (apply lt_IZR; rewrite plus_IZR; lra). assert (n - 2 < shr_m mrs) by (apply lt_IZR; rewrite minus_IZR; lra). lia. }
  unfold located in Hl. destruct mrs as [m r s]. cbn [shr_m shr_r shr_s] in *. destruct Hm as [-> | ->]; [| rewrite minus_IZR in Hl]; destruct r, s; cbn [loc_of_shr_record round_nearest_even]; try lia; try lra.
Qed.

(** ** The nearest float *)

Section Nearest.
Context (prec emax : Z) (Hprec : 1 < prec) (Hemax : prec < emax).

Abbreviation fexp := (SpecFloat.fexp prec emax).
Abbreviation emin := (SpecFloat.emin prec emax).

(** Four times the mantissa at the midpoint below: the float below the first of a binade is closer. *)
Definition quarters_below (m e : Z) : Z := if (m =? 2 ^ (prec - 1)) && (emin <? e) then 4 * m - 1 else 4 * m - 2.

(** The value lies strictly between the midpoints around [m * 2^e]. *)
Definition nearest (m e : Z) (x : R) : Prop := (IZR (quarters_below m e) * bpow (e - 2) < x < IZR (4 * m + 2) * bpow (e - 2))%R.

Lemma shr_fexp_located m e l x : 0 <= m -> located (shr_record_of_loc m l) (x / bpow e) ->
  let '(mrs, e') := shr_fexp prec emax m e l in located mrs (x / bpow e').
Proof.
  intros Hm Hl. unfold shr_fexp, shr. destruct (fexp (Zdigits2 m + e) - e) as [| p | p]; [done | | done].
  replace (x / bpow (e + Zpos p))%R with (x / bpow e / bpow (Zpos p))%R; [apply shr_iter_located; [by rewrite shr_record_of_loc_m | done] |].
  rewrite rpow_add by lia. field. split; apply Rgt_not_eq, rpow_pos; lia.
Qed.

Lemma mantissa_bounds s m e : valid_binary prec emax (S754_finite s m e) = true ->
  emin <= e <= emax - prec /\ Zpos m < 2 ^ prec /\ fexp (Zdigits2 (Zpos m) + e) = e /\ (emin < e -> 2 ^ (prec - 1) <= Zpos m /\ Zdigits2 (Zpos m) = prec).
Proof.
  cbn [valid_binary]. unfold bounded. intros [Hc He%Z.leb_le]%andb_prop. pose proof Hc as Hc'. apply (canonical_mantissa_inv prec emax) in Hc.
  pose proof (Zdigits2_bounds (Zpos m) ltac:(lia)) as [Hb1 Hb2]. assert (Zdigits2 (Zpos m) <= prec) as Hd by lia.
  pose proof (Z.pow_le_mono_r 2 (Zdigits2 (Zpos m)) prec ltac:(lia) Hd). split_and!; [lia | lia | lia | |].
  - unfold canonical_mantissa in Hc'. by apply Z.eqb_eq in Hc'.
  - intros Hlt. assert (Zdigits2 (Zpos m) = prec) as Hp by lia. by rewrite Hp in Hb1.
Qed.

Lemma scaled_lt a b e : (a < b)%R -> (a * bpow e < b * bpow e)%R.
Proof. intros H. apply Rmult_lt_compat_r; [apply rpow_pos; lia | done]. Qed.

Lemma IZR_bpow_le m d e : 0 <= d -> 2 ^ d <= m -> (bpow (d + e) <= IZR m * bpow e)%R.
Proof. intros Hd H. rewrite rpow_add by lia. rewrite <- (rpow_IZR 2 ltac:(lia) d) by done. apply Rmult_le_compat_r; [apply Rlt_le, rpow_pos; lia | by apply IZR_le]. Qed.

Lemma IZR_bpow_ge m d e : 0 <= d -> m <= 2 ^ d -> (IZR m * bpow e <= bpow (d + e))%R.
Proof. intros Hd H. rewrite rpow_add by lia. rewrite <- (rpow_IZR 2 ltac:(lia) d) by done. apply Rmult_le_compat_r; [apply Rlt_le, rpow_pos; lia | by apply IZR_le]. Qed.

(** The binade of a value with a nearest float. *)
Lemma nearest_binade s m e x : valid_binary prec emax (S754_finite s m e) = true -> nearest (Zpos m) e x ->
  (x < bpow (prec + e))%R /\ (emin < e -> (bpow (prec + e - 2) < x)%R).
Proof.
  intros Hv [Hl Hu]. destruct (mantissa_bounds s m e Hv) as (He & Hm & _ & Hn). split.
  - eapply Rlt_le_trans; [exact Hu |]. replace (prec + e) with (prec + 2 + (e - 2)) by lia. apply IZR_bpow_ge; [lia |]. rewrite Z.pow_add_r by lia. lia.
  - intros Hlt. eapply Rle_lt_trans; [| exact Hl]. replace (prec + e - 2) with (prec + (e - 2)) by lia. apply IZR_bpow_le; [lia |].
    destruct (Hn Hlt) as [Hn1 _]. replace prec with (1 + (prec - 1)) at 1 by lia. rewrite Z.pow_add_r by lia. pose proof (Z.pow_le_mono_r 2 1 (prec - 1) ltac:(lia) ltac:(lia)). unfold quarters_below. destruct (_ && _); lia.
Qed.

(** The exponent of the first shift: that of the float, or one less below the first float of a binade. *)
Lemma first_exponent s m e x k c l : valid_binary prec emax (S754_finite s m e) = true -> nearest (Zpos m) e x -> 0 <= k -> located (shr_record_of_loc k l) (x / bpow c) -> c <= fexp (Zdigits2 k + c) ->
  fexp (Zdigits2 k + c) = e \/ fexp (Zdigits2 k + c) = e - 1 /\ emin < e /\ Zpos m = 2 ^ (prec - 1) /\ (x < IZR (Zpos m) * bpow e)%R.
Proof.
  intros Hv Hx Hk Hl Hc. destruct (nearest_binade s m e x Hv Hx) as [Hu Hb]. destruct (mantissa_bounds s m e Hv) as (He & Hm & _ & Hn).
  apply located_floor in Hl. rewrite shr_record_of_loc_m in Hl. assert (x = x / bpow c * bpow c)%R as Ex by (field; apply Rgt_not_eq, rpow_pos; lia).
  set (y := (x / bpow c)%R) in *. clearbody y. pose proof (rpow_pos 2 ltac:(lia) c) as Hpc. rewrite fexp_alt in *. destruct (Z.eq_dec k 0) as [-> | Hk0].
  - cbn [Zdigits2] in *. assert (c <= emin) as Hce by lia. left. destruct (Z.eq_dec e emin) as [-> | Hne]; [lia |]. exfalso. specialize (Hb ltac:(lia)).
    assert (prec + e - 2 < c) by (apply (rpow_lt_inv 2); [lia |]; nra). lia.
  - pose proof (Zdigits2_bounds k ltac:(lia)) as [Hd1 Hd2]. assert (0 < Zdigits2 k) as Hd by (destruct k; [done | cbn; lia | lia]). set (d := Zdigits2 k) in *. clearbody d.
    assert (bpow (d - 1 + c) <= x)%R as L1 by (eapply Rle_trans; [apply IZR_bpow_le; [| exact Hd1]; lia | nra]).
    assert (x < bpow (d + c))%R as L2 by (eapply Rlt_le_trans; [| apply (IZR_bpow_ge (k + 1)); lia]; rewrite plus_IZR; nra).
    assert (d - 1 + c < prec + e) as L3 by (apply (rpow_lt_inv 2); [lia | lra]).
    destruct (Z.eq_dec e emin) as [-> | Hne]; [left; lia |]. assert (prec + e - 2 < d + c) as L4 by (apply (rpow_lt_inv 2); [lia |]; specialize (Hb ltac:(lia)); lra).
    destruct (Z.eq_dec (d + c) (prec + e)) as [| Hdc]; [left; lia |]. right. assert (d + c = prec - 1 + e) as E by lia. rewrite E in L2. rewrite rpow_add in L2 by lia. rewrite <- (rpow_IZR 2 ltac:(lia) (prec - 1)) in L2 by lia.
    destruct (Hn ltac:(lia)) as [Hn1 _]. assert (Zpos m = 2 ^ (prec - 1)) as Em; [| rewrite <- Em in L2; split_and!; [lia | lia | done | done]].
    destruct (Z.eq_dec (Zpos m) (2 ^ (prec - 1))) as [| Hne']; [done |]. exfalso. destruct Hx as [Hx _]. unfold quarters_below in Hx. rewrite (proj2 (Z.eqb_neq _ _) Hne') in Hx. cbn [andb] in Hx.
    replace e with (e - 2 + 1 + 1) in L2 at 1 by lia. rewrite !bpow_succ in L2. pose proof (rpow_pos 2 ltac:(lia) (e - 2)) as Hp.
    assert (IZR (4 * 2 ^ (prec - 1) + 2) <= IZR (4 * Zpos m - 2))%R as Hle by (apply IZR_le; lia). rewrite plus_IZR, mult_IZR in Hle. nra.
Qed.

(** A value strictly between the midpoints around a float is rounded to it. *)
Lemma binary_round_aux_nearest s s' m e x k c l : valid_binary prec emax (S754_finite s' m e) = true -> nearest (Zpos m) e x -> 0 <= k -> located (shr_record_of_loc k l) (x / bpow c) -> c <= fexp (Zdigits2 k + c) ->
  binary_round_aux prec emax s k c l = S754_finite s m e.
Proof.
  intros Hv Hx Hk Hl Hc. destruct (mantissa_bounds s' m e Hv) as (He & Hm & Hf & Hn). pose proof (first_exponent s' m e x k c l Hv Hx Hk Hl Hc) as Hfirst.
  unfold binary_round_aux. pose proof (shr_fexp_spec prec emax k c l Hk) as H1. pose proof (shr_fexp_located k c l x Hk Hl) as H2. destruct (shr_fexp prec emax k c l) as [mrs e1]. cbn zeta in H1. destruct H1 as [_ H1].
  assert (e1 = fexp (Zdigits2 k + c)) as -> by lia. clear H1. pose proof (rpow_pos 2 ltac:(lia) (e - 2)) as Hp. assert (bpow e = 4 * bpow (e - 2))%R as Ep by (replace e with (e - 2 + 1 + 1) at 1 by lia; rewrite !bpow_succ; lra).
  destruct Hx as [Hlo Hhi]. assert (x = x / bpow e * bpow e)%R as Ex by (field; apply Rgt_not_eq, rpow_pos; lia).
  assert (IZR (4 * Zpos m - 2) * bpow (e - 2) < x)%R as Hlo' by (eapply Rle_lt_trans; [| exact Hlo]; apply Rmult_le_compat_r; [lra |]; apply IZR_le; unfold quarters_below; destruct (_ && _); lia).
  destruct Hfirst as [Hfe | (Hfe & Hmin & Hpow & Hup)]; rewrite Hfe in H2 |- *.
  - rewrite (round_nearest mrs (x / bpow e) (Zpos m)); [| done |].
    + pose proof (shr_fexp_spec prec emax (Zpos m) e loc_Exact ltac:(lia)) as H3. destruct (shr_fexp prec emax (Zpos m) e loc_Exact) as [mrs2 e2]. cbn zeta in H3. rewrite Hf in H3. rewrite Z.sub_diag in H3. destruct H3 as [-> ->].
      change (Z.max 0 0) with 0. rewrite Z.pow_0_r, Z.div_1_r, Z.add_0_r. by rewrite (proj2 (Z.leb_le e (emax - prec))) by lia.
    + rewrite Ep in Ex at 2. rewrite minus_IZR, (mult_IZR 4) in Hlo'. rewrite plus_IZR, (mult_IZR 4) in Hhi. set (y := (x / bpow e)%R) in *. clearbody y. subst x. revert Hlo' Hhi. generalize (IZR (Zpos m)) as M. intros M H4 H5. nra.
  - rewrite (round_nearest mrs (x / bpow (e - 1)) (2 * Zpos m)); [| done |].
    + pose proof (shr_fexp_spec prec emax (2 * Zpos m) (e - 1) loc_Exact ltac:(lia)) as H3. destruct (shr_fexp prec emax (2 * Zpos m) (e - 1) loc_Exact) as [mrs2 e2]. cbn zeta in H3.
      assert (Zdigits2 (2 * Zpos m) = prec + 1) as Ed by (replace (2 * Zpos m) with (Zpos m * 2 ^ 1) by lia; rewrite Zdigits2_mul_pow2 by lia; destruct (Hn Hmin) as [_ ->]; done).
      rewrite Ed, fexp_alt in H3. replace (Z.max 0 _) with 1 in H3 by lia. destruct H3 as [-> ->].
      change (2 ^ 1) with 2. rewrite Z.mul_comm, Z.div_mul by done. replace (e - 1 + 1) with e by lia. by rewrite (proj2 (Z.leb_le e (emax - prec))) by lia.
    + assert (bpow (e - 1) = 2 * bpow (e - 2))%R as Ep1 by (replace (e - 1) with (e - 2 + 1) by lia; by rewrite bpow_succ).
      assert (x = x / bpow (e - 1) * (2 * bpow (e - 2)))%R as Ex1 by (rewrite <- Ep1; field; apply Rgt_not_eq, rpow_pos; lia).
      unfold quarters_below in Hlo. rewrite (proj2 (Z.eqb_eq _ _) Hpow), (proj2 (Z.ltb_lt _ _) Hmin) in Hlo. cbn [andb] in Hlo. rewrite minus_IZR, (mult_IZR 4) in Hlo. rewrite (mult_IZR 2). rewrite Ep in Hup.
      set (y := (x / bpow (e - 1))%R) in *. clearbody y. subst x. clear Hlo' Hhi Ex. revert Hlo Hup. generalize (IZR (Zpos m)) as M. intros M H4 H5. nra.
Qed.

(** Integers and quotients are rounded to the nearest float. *)
Lemma binary_normalize_nearest s n c m e : 0 < n -> valid_binary prec emax (S754_finite s m e) = true -> nearest (Zpos m) e (IZR n * bpow c) -> binary_normalize prec emax n c false = S754_finite false m e.
Proof.
  intros Hn Hv Hx. destruct n as [| p | p]; [done | | done]. cbn [binary_normalize]. unfold binary_round.
  pose proof (shl_align_spec p c (fexp (Zpos (digits2_pos p) + c))) as Hs. destruct (shl_align p c _) as [mz ez]. destruct Hs as [Hez Hmz].
  apply (binary_round_aux_nearest false s m e (IZR (Zpos p) * bpow c)); [done | done | lia | |].
  - unfold located. cbn [shr_record_of_loc shr_m shr_r shr_s]. rewrite Hmz, mult_IZR, rpow_IZR by lia. replace c with (c - ez + ez) at 1 by lia. rewrite rpow_add by lia. field. apply Rgt_not_eq, rpow_pos. lia.
  - rewrite Hmz, Zdigits2_mul_pow2 by lia. cbn [Zdigits2]. replace (Zpos (digits2_pos p) + (c - ez) + ez) with (Zpos (digits2_pos p) + c) by lia. lia.
Qed.

Lemma new_location_located q n r : 0 < n -> 0 <= r < n -> located (shr_record_of_loc q (new_location n r)) (IZR q + IZR r / IZR n).
Proof.
  intros Hn Hr. assert (0 < IZR n)%R as Hn' by by apply (IZR_lt 0). assert (IZR r / IZR n * IZR n = IZR r)%R as Ed by (field; lra). set (d := (IZR r / IZR n)%R) in *. clearbody d.
  assert (forall a, (a * IZR n < d * IZR n)%R -> (a < d)%R) as Hlt by (intros a H; by apply Rmult_lt_reg_r in H). assert (forall a, (d * IZR n < a * IZR n)%R -> (d < a)%R) as Hgt by (intros a H; by apply Rmult_lt_reg_r in H).
  assert (r <> 0 -> (0 < d)%R) as H0 by (intros Hr0; apply Hlt; rewrite Ed, Rmult_0_l; apply (IZR_lt 0); lia). assert (d < 1)%R as H1 by (apply Hgt; rewrite Ed, Rmult_1_l; apply IZR_lt; lia).
  assert (2 * r < n -> (d < / 2)%R) as Hl by (intros H; apply Hgt; apply IZR_lt in H; rewrite mult_IZR in H; lra). assert (n < 2 * r -> (/ 2 < d)%R) as Hg by (intros H; apply Hlt; apply IZR_lt in H; rewrite mult_IZR in H; lra).
  assert (2 * r = n -> d = (/ 2)%R) as He by (intros H; apply (Rmult_eq_reg_r (IZR n)); [rewrite Ed, <- H, mult_IZR; lra | lra]).
  assert (r = 0 -> d = 0%R) as Hz by (intros ->; apply (Rmult_eq_reg_r (IZR n)); lra).
  unfold new_location, new_location_even, new_location_odd. destruct (Z.even n) eqn:Ev; destruct (Z.eqb_spec r 0) as [E0 | E0]; unfold located; try (cbn [shr_record_of_loc shr_m shr_r shr_s]; rewrite (Hz E0); lra); specialize (H0 E0).
  - destruct (Z.compare_spec (2 * r) n) as [Hc | Hc | Hc]; cbn [shr_record_of_loc shr_m shr_r shr_s]; [specialize (He Hc) | specialize (Hl Hc) | specialize (Hg Hc)]; lra.
  - assert (2 * r <> n) as Hne by (intros <-; by rewrite Z.even_mul in Ev).
    destruct (Z.compare_spec (2 * r + 1) n) as [Hc | Hc | Hc]; cbn [shr_record_of_loc shr_m shr_r shr_s]; [specialize (Hl ltac:(lia)) | specialize (Hl ltac:(lia)) | specialize (Hg ltac:(lia))]; lra.
Qed.

Lemma SFdiv_nearest s m1 m2 m e : valid_binary prec emax (S754_finite s m e) = true -> nearest (Zpos m) e (IZR (Zpos m1) / IZR (Zpos m2)) ->
  forall sx, SFdiv prec emax (S754_finite sx m1 0) (S754_finite false m2 0) = S754_finite sx m e.
Proof.
  intros Hv Hx sx. cbn [SFdiv]. rewrite xorb_false_r. unfold SFdiv_core_binary. set (d1 := Zdigits2 (Zpos m1)). set (d2 := Zdigits2 (Zpos m2)). set (c := Z.min (fexp (d1 + 0 - (d2 + 0))) (0 - 0)).
  assert (0 - 0 - c = - c) as -> by lia. assert (c <= 0) as Hc by (unfold c; lia).
  assert (match - c with Z0 => Zpos m1 | Zpos _ => Z.shiftl (Zpos m1) (- c) | Zneg _ => 0 end = Zpos m1 * 2 ^ (- c)) as ->.
  { destruct (- c) as [| p | p] eqn:E; [lia | by rewrite Z.shiftl_mul_pow2 by lia | lia]. }
  assert (0 < 2 ^ (- c)) as Hp by (apply Z.pow_pos_nonneg; lia).
  pose proof (Zdigits2_quot (Zpos m1) (Zpos m2) (- c) ltac:(lia) ltac:(lia) ltac:(lia)) as Hq. pose proof (Z.div_pos (Zpos m1 * 2 ^ (- c)) (Zpos m2) ltac:(lia) ltac:(lia)) as Hpos.
  pose proof (Z_div_mod (Zpos m1 * 2 ^ (- c)) (Zpos m2) ltac:(lia)) as Hdiv. unfold Z.div in Hq, Hpos. destruct (Z.div_eucl (Zpos m1 * 2 ^ (- c)) (Zpos m2)) as [q r]. destruct Hdiv as [Hdiv Hr].
  assert (0 < IZR (Zpos m2))%R as Hm2 by (apply (IZR_lt 0); lia).
  apply (binary_round_aux_nearest sx s m e (IZR (Zpos m1) / IZR (Zpos m2))); [done | done | done | |].
  - replace (IZR (Zpos m1) / IZR (Zpos m2) / bpow c)%R with (IZR q + IZR r / IZR (Zpos m2))%R; [apply new_location_located; lia |].
    replace c with (- - c) at 1 by lia. rewrite (rpow_opp 2 (- c)) by lia. rewrite <- (rpow_IZR 2 ltac:(lia) (- c)) by lia. apply (f_equal IZR) in Hdiv. rewrite plus_IZR, !mult_IZR in Hdiv.
    assert (0 < IZR (2 ^ (- c)))%R as Hp' by by apply (IZR_lt 0). apply (Rmult_eq_reg_r (IZR (Zpos m2))); [| lra]. replace ((IZR q + IZR r / IZR (Zpos m2)) * IZR (Zpos m2))%R with (IZR (Zpos m2) * IZR q + IZR r)%R by (field; lra). rewrite <- Hdiv. field. lra.
  - fold d1 d2 in Hq. assert (c <= fexp (d1 - d2)) by (unfold c; replace (d1 + 0 - (d2 + 0)) with (d1 - d2) by lia; apply Z.le_min_l). clearbody c. rewrite !fexp_alt in *. lia.
Qed.
End Nearest.

(** ** Decimal numbers *)

(** The conversion of the C library gives the double that is nearest. *)
Lemma decimal_nearest s n k m e : 0 < n -> valid_binary 53 1024 (S754_finite s m e) = true -> nearest 53 1024 (Zpos m) e (IZR n * tpow k) -> decimal_to_f64 s n k = S754_finite s m e.
Proof.
  intros Hn Hv Hx. destruct n as [| p | p]; [done | | done]. unfold decimal_to_f64. destruct (Z.leb_spec 0 k).
  - assert (f64_of_Z (Zpos p * 10 ^ k) = S754_finite false m e) as ->; [| by destruct s]. assert (0 < 10 ^ k) by (apply Z.pow_pos_nonneg; lia).
    apply (binary_normalize_nearest 53 1024 ltac:(lia) s); [by apply Z.mul_pos_pos | done |]. rewrite rpow_0, Rmult_1_r, mult_IZR, rpow_IZR by lia. done.
  - assert (0 < 10 ^ (- k)) as Hp by (apply Z.pow_pos_nonneg; lia). destruct (10 ^ (- k)) as [| q | q] eqn:E; [done | | done].
    apply (SFdiv_nearest 53 1024 ltac:(lia) s); [done |]. rewrite <- E. rewrite rpow_IZR by lia. rewrite rpow_opp by lia. replace (IZR (Zpos p) / / tpow k)%R with (IZR (Zpos p) * tpow k)%R; [done |]. field. apply Rgt_not_eq, rpow_pos. lia.
Qed.
