(* ===== verification/FloatText.v ===== *)
(** * Grisu2 prints what is read back

    The digits that the vendored Grisu2 finds for a positive double are a decimal number that
    lies strictly between the midpoints around the double: the nearest double of the number is
    the one that was printed.  The products of 64 bits are exact to one unit, the powers of the
    table to half a unit, and the digits stay between the two boundaries less one unit.

    The text of a double.  What [dump_float] prints of a finite double is a number of the grammar of JSON, with a point or an
    exponent, and the conversion of the C library reads it as the same double: its
    digits are nearest to it, and the layout moves only the point. *)

From Stdlib Require Import SpecFloat Reals Lra.
From stdpp Require Import list.
From S2P Require Import Prelude Float32 FloatBounds FloatRound JsonLexer JsonParser Grisu.
Open Scope Z_scope.
Open Scope list_scope.

(** ** Products and powers of two *)

Lemma lo32_mod x : lo32 x = x mod 2 ^ 32.
Proof. unfold lo32. by rewrite <- (Z.land_ones x 32) by lia. Qed.

Lemma hi32_div x : hi32 x = x / 2 ^ 32.
Proof. unfold hi32. by rewrite Z.shiftr_div_pow2 by lia. Qed.

(** The product is rounded half up. *)
Lemma diy_mul_spec x y : 0 <= df x < 2 ^ 64 -> 0 <= df y < 2 ^ 64 ->
  2 ^ 64 * df (diy_mul x y) <= df x * df y + 2 ^ 63 < 2 ^ 64 * (df (diy_mul x y) + 1) /\ de (diy_mul x y) = de x + de y + 64.
Proof.
  intros Hx Hy. split; [| done]. unfold diy_mul. cbn zeta. cbn [df]. rewrite !lo32_mod, !hi32_div. set (ul := df x mod 2 ^ 32). set (uh := df x / 2 ^ 32). set (vl := df y mod 2 ^ 32). set (vh := df y / 2 ^ 32).
  assert (df x = uh * 2 ^ 32 + ul /\ 0 <= ul < 2 ^ 32 /\ 0 <= uh < 2 ^ 32) as (Ex & Hul & Huh) by (unfold uh, ul; Z.to_euclidean_division_equations; lia).
  assert (df y = vh * 2 ^ 32 + vl /\ 0 <= vl < 2 ^ 32 /\ 0 <= vh < 2 ^ 32) as (Ey & Hvl & Hvh) by (unfold vh, vl; Z.to_euclidean_division_equations; lia).
  clearbody ul uh vl vh. assert (forall a b, 0 <= a < 2 ^ 32 -> 0 <= b < 2 ^ 32 -> 0 <= a * b <= 2 ^ 64 - 2 ^ 33 + 1) as Hp by (intros a b Ha Hb; nia).
  pose proof (Hp ul vl Hul Hvl) as H0. pose proof (Hp ul vh Hul Hvh) as H1. pose proof (Hp uh vl Huh Hvl) as H2. pose proof (Hp uh vh Huh Hvh) as H3.
  assert (df x * df y = uh * vh * 2 ^ 64 + (ul * vh + uh * vl) * 2 ^ 32 + ul * vl) as -> by (rewrite Ex, Ey; ring).
  rewrite !(wrap_u_id 64 (_ * _)) by lia. set (p0 := ul * vl) in *. set (p1 := ul * vh) in *. set (p2 := uh * vl) in *. set (p3 := uh * vh) in *. clearbody p0 p1 p2 p3.
  change (Z.shiftl 1 31) with (2 ^ 31). assert (forall p, 0 <= p <= 2 ^ 64 - 2 ^ 33 + 1 -> p = p / 2 ^ 32 * 2 ^ 32 + p mod 2 ^ 32 /\ 0 <= p mod 2 ^ 32 < 2 ^ 32 /\ 0 <= p / 2 ^ 32 <= 2 ^ 32 - 2) as Hs by (intros p Hp'; Z.to_euclidean_division_equations; lia).
  destruct (Hs p0 H0) as (E0 & L0 & U0). destruct (Hs p1 H1) as (E1 & L1 & U1). destruct (Hs p2 H2) as (E2 & L2 & U2).
  set (h0 := p0 / 2 ^ 32) in *. set (l0 := p0 mod 2 ^ 32) in *. set (h1 := p1 / 2 ^ 32) in *. set (l1 := p1 mod 2 ^ 32) in *. set (h2 := p2 / 2 ^ 32) in *. set (l2 := p2 mod 2 ^ 32) in *. clearbody h0 l0 h1 l1 h2 l2.
  rewrite (wrap_u_id 64 (h0 + l1 + l2)) by lia. rewrite (wrap_u_id 64 (h0 + l1 + l2 + 2 ^ 31)) by lia. set (Q := h0 + l1 + l2 + 2 ^ 31).
  assert (Q = Q / 2 ^ 32 * 2 ^ 32 + Q mod 2 ^ 32 /\ 0 <= Q mod 2 ^ 32 < 2 ^ 32 /\ 0 <= Q / 2 ^ 32 <= 3) as (EQ & LQ & UQ) by (unfold Q; Z.to_euclidean_division_equations; lia).
  set (qh := Q / 2 ^ 32) in *. set (ql := Q mod 2 ^ 32) in *. clearbody qh ql. unfold Q in EQ. rewrite wrap_u_id by lia. lia.
Qed.

Lemma shiftl_pow2 x n : 0 <= n -> Z.shiftl x n = x * 2 ^ n.
Proof. apply Z.shiftl_mul_pow2. Qed.

Lemma normalize_from_spec fuel f e : 0 < f < 2 ^ 64 -> 2 ^ 63 <= f * 2 ^ Z.of_nat fuel ->
  exists s, 0 <= s /\ normalize_from fuel (mkDiy f e) = mkDiy (f * 2 ^ s) (e - s) /\ 2 ^ 63 <= f * 2 ^ s < 2 ^ 64.
Proof.
  revert f e. induction fuel as [| fuel IH]; intros f e Hf Hn; cbn [normalize_from].
  - exists 0. rewrite Z.mul_1_r, Z.sub_0_r. cbn in Hn. split_and!; lia || done.
  - cbn [df de]. rewrite Z.shiftr_div_pow2 by lia. destruct (Z.eqb_spec (f / 2 ^ 63) 0) as [E | E].
    + assert (f < 2 ^ 63) as Hlt by (destruct (Z_lt_le_dec f (2 ^ 63)); [done | assert (1 <= f / 2 ^ 63) by (apply Z.div_le_lower_bound; lia); lia]).
      rewrite shiftl_pow2 by lia. change (2 ^ 1) with 2. rewrite wrap_u_id by lia. destruct (IH (f * 2) (e - 1)) as (s & Hs & -> & Hb); [lia | rewrite Nat2Z.inj_succ, Z.pow_succ_r in Hn by lia; lia |].
      exists (s + 1). rewrite Z.pow_add_r by lia. change (2 ^ 1) with 2. split_and!; [lia | f_equal; lia | lia | lia].
    + exists 0. rewrite Z.mul_1_r, Z.sub_0_r. split_and!; [done | done | | lia]. destruct (Z_lt_le_dec f (2 ^ 63)); [| done]. rewrite Z.div_small in E by lia. done.
Qed.

(** ** The boundaries *)

(** Both boundaries at the scale of the upper one. *)
Lemma compute_boundaries_spec s m e : valid_binary 53 1024 (S754_finite s m e) = true ->
  exists k, 10 <= k <= 62 /\ -1137 <= e - 1 - k <= 960 /\ b_plus (compute_boundaries m e) = mkDiy ((2 * Zpos m + 1) * 2 ^ k) (e - 1 - k) /\ 2 ^ 63 <= (2 * Zpos m + 1) * 2 ^ k < 2 ^ 64 /\
    b_minus (compute_boundaries m e) = mkDiy (quarters_below 53 1024 (Zpos m) e * 2 ^ (k - 1)) (e - 1 - k).
Proof.
  intros Hv. destruct (mantissa_bounds 53 1024 ltac:(lia) s m e Hv) as (He & Hm & _ & Hn). change (SpecFloat.emin 53 1024) with (-1074) in *.
  unfold compute_boundaries, f64_bits, kHiddenBit, kBias. assert (exists E F, (if Zpos m <? 2 ^ 52 then (0, Zpos m) else (e + 1075, Zpos m - 2 ^ 52)) = (E, F) /\
    (if E =? 0 then mkDiy F (1 - 1075) else mkDiy (F + 2 ^ 52) (E - 1075)) = mkDiy (Zpos m) e /\ ((F =? 0) && (1 <? E)) = ((Zpos m =? 2 ^ 52) && (-1074 <? e))) as (E & F & -> & -> & ->).
  { destruct (Z.ltb_spec (Zpos m) (2 ^ 52)); eexists _, _; (split; [reflexivity |]).
    - rewrite Z.eqb_refl. assert (e = -1074) as -> by (destruct (Z.eq_dec e (-1074)); [done | destruct (Hn ltac:(lia)); lia]). split; [done |]. rewrite (proj2 (Z.eqb_neq _ _)) by lia. by rewrite andb_false_r, andb_false_r.
    - rewrite (proj2 (Z.eqb_neq (e + 1075) 0)) by lia. split; [f_equal; lia |]. f_equal; [destruct (Z.eqb_spec (Zpos m) (2 ^ 52)); destruct (Z.eqb_spec (Zpos m - 2 ^ 52) 0); lia || done | destruct (Z.ltb_spec 1 (e + 1075)), (Z.ltb_spec (-1074) e); lia || done]. }
  cbn zeta. cbn [df de b_plus b_minus]. destruct (normalize_from_spec 64 (2 * Zpos m + 1) (e - 1)) as (k & Hk & Hnorm & Hb); [lia | change (2 ^ Z.of_nat 64) with (2 ^ 64); lia |]. unfold normalize. rewrite Hnorm.
  assert (10 <= k <= 62) as Hk'.
  { split.
    - destruct (Z_lt_le_dec k 10); [| done]. assert (2 ^ k <= 2 ^ 9) by (apply Z.pow_le_mono_r; lia). nia.
    - destruct (Z_lt_le_dec 62 k); [| done]. assert (2 ^ 63 <= 2 ^ k) by (apply Z.pow_le_mono_r; lia). nia. }
  assert (-1137 <= e - 1 - k <= 960) as Hr.
  { split; [| lia]. destruct (Z.eq_dec e (-1074)); [lia |]. destruct (Z_lt_le_dec 10 k); [| lia]. assert (2 ^ 11 <= 2 ^ k) by (apply Z.pow_le_mono_r; lia). destruct (Hn ltac:(lia)) as [Hn1 _]. change (2 ^ (53 - 1)) with (2 ^ 52) in Hn1. nia. }
  exists k. split_and!; [lia .. | done | lia | lia |]. cbn [de]. unfold quarters_below. change (2 ^ (53 - 1)) with (2 ^ 52). change (SpecFloat.emin 53 1024) with (-1074).
  assert (2 ^ k = 2 * 2 ^ (k - 1)) as Ek by (rewrite <- Z.pow_succ_r by lia; f_equal; lia). unfold normalize_to. destruct (_ && _); cbn [df de]; f_equal.
  - replace (e - 2 - (e - 1 - k)) with (k - 1) by lia. rewrite shiftl_pow2 by lia. apply wrap_u_id. nia.
  - replace (e - 1 - (e - 1 - k)) with k by lia. rewrite shiftl_pow2, Ek by lia. rewrite wrap_u_id by nia. lia.
Qed.

(** ** The table of powers *)

(** [b^k] as a quotient. *)
Definition pow_num (b k : Z) : Z := if 0 <=? k then b ^ k else 1.
Definition pow_den (b k : Z) : Z := if 0 <=? k then 1 else b ^ (- k).

Lemma rpow_quotient b k : 2 <= b -> 0 < pow_den b k /\ (rpow b k = IZR (pow_num b k) / IZR (pow_den b k))%R.
Proof.
  intros Hb. unfold pow_num, pow_den. destruct (Z.leb_spec 0 k).
  - split; [lia |]. rewrite rpow_IZR by lia. field.
  - split; [apply Z.pow_pos_nonneg; lia |]. rewrite rpow_IZR by lia. rewrite rpow_opp by lia. field. apply Rgt_not_eq, rpow_pos. lia.
Qed.

(** A power of the table is that of ten to half a unit. *)
Definition power_ok (c : cached_power) : bool :=
  (2 ^ 63 <=? cf c) && (cf c <? 2 ^ 64) && (Z.abs (2 * cf c * pow_num 2 (ce c) * pow_den 10 (ck c) - 2 * pow_num 10 (ck c) * pow_den 2 (ce c)) <=? pow_num 2 (ce c) * pow_den 10 (ck c)).

Lemma power_ok_spec c : power_ok c = true -> 2 ^ 63 <= cf c < 2 ^ 64 /\ ((IZR (cf c) - / 2) * bpow (ce c) <= tpow (ck c) <= (IZR (cf c) + / 2) * bpow (ce c))%R.
Proof.
  unfold power_ok. intros [[H1%Z.leb_le H2%Z.ltb_lt]%andb_prop H3%Z.leb_le]%andb_prop. split; [lia |].
  destruct (rpow_quotient 2 (ce c) ltac:(lia)) as [D2 ->]. destruct (rpow_quotient 10 (ck c) ltac:(lia)) as [D10 ->].
  set (a := pow_num 2 (ce c)) in *. set (b := pow_den 2 (ce c)) in *. set (x := pow_num 10 (ck c)) in *. set (y := pow_den 10 (ck c)) in *. clearbody a b x y.
  apply IZR_lt in D2, D10. assert ((2 * cf c - 1) * a * y <= 2 * x * b /\ 2 * x * b <= (2 * cf c + 1) * a * y) as [L U] by lia. apply IZR_le in L, U. rewrite !mult_IZR, minus_IZR, mult_IZR in L. rewrite !mult_IZR, plus_IZR, mult_IZR in U.
  assert (forall v, (v * (IZR a / IZR b) = v * IZR a * IZR y / (IZR b * IZR y))%R) as Ea by (intros v; field; lra). assert (IZR x / IZR y = IZR x * IZR b / (IZR b * IZR y))%R as Ex by (field; lra). rewrite !Ea, Ex.
  assert (0 < / (IZR b * IZR y))%R as Hi by (apply Rinv_0_lt_compat; nra). unfold Rdiv. split; (apply Rmult_le_compat_r; [lra |]); lra.
Qed.

Lemma table_ok : forallb power_ok kCachedPowers = true.
Proof. vm_compute. reflexivity. Qed.

(** The exponent of the product is in the range of the digits. *)
Definition exponent_ok (e : Z) : bool :=
  let c := get_cached_power_for_binary_exponent e in (-60 <=? ce c + e + 64) && (ce c + e + 64 <=? -32) && power_ok c.

Lemma exponents_ok : forallb (fun n => exponent_ok (Z.of_nat n - 1137)) (seq 0 2098) = true.
Proof. vm_compute. reflexivity. Qed.

Lemma cached_power_spec e : -1137 <= e <= 960 -> let c := get_cached_power_for_binary_exponent e in -60 <= ce c + e + 64 <= -32 /\ power_ok c = true.
Proof.
  intros He. pose proof exponents_ok as H. rewrite forallb_forall in H. specialize (H (Z.to_nat (e + 1137)) ltac:(apply in_seq; lia)). cbn beta in H. replace (Z.of_nat (Z.to_nat (e + 1137)) - 1137) with e in H by lia.
  unfold exponent_ok in H. cbn zeta in *. apply andb_prop in H as [[H1%Z.leb_le H2%Z.leb_le]%andb_prop H3]. done.
Qed.

(** ** The scaled boundaries *)

(** A product with a power of the table is the exact one to less than one unit. *)
Lemma scaled_bounds f e c : 0 <= f < 2 ^ 64 -> power_ok c = true -> let w := diy_mul (mkDiy f e) (mkDiy (cf c) (ce c)) in
  de w = e + ce c + 64 /\ 2 ^ 64 * df w <= f * cf c + 2 ^ 63 < 2 ^ 64 * (df w + 1) /\
  (IZR (df w - 1) * bpow (de w) < IZR f * bpow e * tpow (ck c) < IZR (df w + 1) * bpow (de w))%R.
Proof.
  intros Hf Hc. destruct (power_ok_spec c Hc) as [Hcf [L U]]. destruct (diy_mul_spec (mkDiy f e) (mkDiy (cf c) (ce c)) Hf ltac:(cbn; lia)) as [[M1 M2] Ee]. cbn [df de] in *. cbn zeta.
  set (w := diy_mul _ _) in *. split; [done |]. split; [done |]. rewrite Ee. replace (e + ce c + 64) with (e + (ce c + 64)) by lia. rewrite (rpow_add 2 ltac:(lia) e), (rpow_add 2 ltac:(lia) (ce c)). rewrite <- (rpow_IZR 2 ltac:(lia) 64) by lia.
  pose proof (rpow_pos 2 ltac:(lia) e) as Pe. pose proof (rpow_pos 2 ltac:(lia) (ce c)) as Pc. set (be := bpow e) in *. set (bc := bpow (ce c)) in *. set (t := tpow (ck c)) in *. clearbody be bc t.
  destruct Hf as [Hf0 Hf1]. apply IZR_le in M1, Hf0. apply IZR_lt in M2, Hf1. rewrite plus_IZR, !mult_IZR in M1. rewrite plus_IZR, !mult_IZR, plus_IZR in M2. rewrite minus_IZR, plus_IZR.
  change (2 ^ 64) with 18446744073709551616 in *. change (2 ^ 63) with 9223372036854775808 in *. set (F := IZR f) in *. set (C := IZR (cf c)) in *. set (D := IZR (df w)) in *. clearbody F C D.
  assert (F * (C - / 2) * bc <= F * t <= F * (C + / 2) * bc)%R as [L' U'] by (split; nra).
  assert ((D - 1) * 18446744073709551616 < F * (C - / 2))%R as L2 by nra. assert (F * (C + / 2) < (D + 1) * 18446744073709551616)%R as U2 by nra.
  assert ((D - 1) * 18446744073709551616 * bc < F * t)%R as L3 by nra. assert (F * t < (D + 1) * 18446744073709551616 * bc)%R as U3 by nra. split.
  - replace ((D - 1) * (be * (bc * 18446744073709551616)))%R with (((D - 1) * 18446744073709551616 * bc) * be)%R by ring. replace (F * be * t)%R with (F * t * be)%R by ring. by apply Rmult_lt_compat_r.
  - replace ((D + 1) * (be * (bc * 18446744073709551616)))%R with (((D + 1) * 18446744073709551616 * bc) * be)%R by ring. replace (F * be * t)%R with (F * t * be)%R by ring. by apply Rmult_lt_compat_r.
Qed.

(** ** Digits *)

Lemma find_largest_pow10_spec n : 0 < n < 2 ^ 32 -> exists k, find_largest_pow10 n = (Z.of_nat (S k), 10 ^ Z.of_nat k) /\ 10 ^ Z.of_nat k <= n < 10 ^ Z.of_nat (S k).
Proof.
  intros Hn. unfold find_largest_pow10.
  destruct (Z.leb_spec 1000000000 n); [exists 9%nat; split; [done |]; change (10 ^ Z.of_nat 10) with 10000000000; change (10 ^ Z.of_nat 9) with 1000000000; lia |].
  destruct (Z.leb_spec 100000000 n); [exists 8%nat; done |]. destruct (Z.leb_spec 10000000 n); [exists 7%nat; done |]. destruct (Z.leb_spec 1000000 n); [exists 6%nat; done |].
  destruct (Z.leb_spec 100000 n); [exists 5%nat; done |]. destruct (Z.leb_spec 10000 n); [exists 4%nat; done |]. destruct (Z.leb_spec 1000 n); [exists 3%nat; done |].
  destruct (Z.leb_spec 100 n); [exists 2%nat; done |]. destruct (Z.leb_spec 10 n); [exists 1%nat; done |]. exists 0%nat. split; [done |]. cbn. lia.
Qed.

(** Digits of which the first is not zero. *)
Definition leading (buf : list Z) : Prop := match buf with c :: _ => 49 <= c <= 57 | [] => False end.
Definition number_digits (buf : list Z) : Prop := digits buf /\ leading buf.

Lemma digits_snoc b d : digits b -> 0 <= d <= 9 -> digits (b ++ [48 + d]).
Proof. intros Hb Hd. apply Forall_app_2; [done |]. constructor; [| constructor]. apply between_true. lia. Qed.

Lemma leading_snoc b d : (leading b \/ b = [] /\ 1 <= d) -> d <= 9 -> leading (b ++ [48 + d]).
Proof. intros [Hb | [-> Hd]] Hd9; [by destruct b | cbn; lia]. Qed.

Lemma digits_value_snoc b d : digits_value (b ++ [48 + d]) = 10 * digits_value b + d.
Proof. rewrite digits_value_app. cbn. lia. Qed.

Lemma dec_last_snoc b c : dec_last (b ++ [c]) = b ++ [c - 1].
Proof. unfold dec_last. rewrite rev_app_distr. cbn [rev app]. by rewrite rev_involutive. Qed.

(** Rounding takes units of the last digit off, fewer than it has, and stays within [delta]. *)
Lemma grisu2_round_spec fuel b d dist delta rest ten : 0 <= rest <= delta -> delta < 2 ^ 64 -> 0 < ten -> delta < rest + d * ten ->
  exists j, 0 <= j < d /\ grisu2_round fuel (b ++ [48 + d]) dist delta rest ten = b ++ [48 + (d - j)] /\ rest + j * ten <= delta.
Proof.
  revert d rest. induction fuel as [| fuel IH]; intros d rest Hr Hd Ht Hgt; cbn [grisu2_round].
  - exists 0. split_and!; [lia | nia | by rewrite Z.sub_0_r | lia].
  - destruct (_ && _) eqn:E; [| exists 0; split_and!; [lia | nia | by rewrite Z.sub_0_r | lia]].
    apply andb_prop in E as [[_ E2%Z.leb_le]%andb_prop _]. rewrite wrap_u_id in E2 by lia. rewrite dec_last_snoc, (wrap_u_id 64 (rest + ten)) by lia. replace (48 + d - 1) with (48 + (d - 1)) by lia.
    destruct (IH (d - 1) (rest + ten)) as (j & Hj & -> & Hle); [lia | done | done | lia |]. exists (j + 1). split_and!; [lia | lia | do 3 f_equal; lia | lia].
Qed.

(** The digits of the integral part of [total]. *)
Lemma digits_of_integral_spec n : forall buf p1 p2 e dist delta total, let one := 2 ^ (- e) in
  digits buf -> (leading buf \/ buf = [] /\ exists n', n = S n' /\ 10 ^ Z.of_nat n' <= p1) -> -60 <= e <= -32 -> 0 <= p1 < 10 ^ Z.of_nat n -> 0 <= p2 < one -> 0 <= delta < p1 * one + p2 -> total < 2 ^ 64 ->
  total = digits_value buf * 10 ^ Z.of_nat n * one + p1 * one + p2 -> 0 <= digits_value buf ->
  match digits_of_integral n buf p1 (10 ^ Z.of_nat (pred n)) p2 e dist delta with
  | inl (buf', k) => number_digits buf' /\ 0 <= k /\ delta < 10 ^ (k + 1) * one /\ total - delta <= digits_value buf' * 10 ^ k * one <= total
  | inr buf' => number_digits buf' /\ total = digits_value buf' * one + p2 /\ delta < p2
  end.
Proof.
  induction n as [| n IH]; intros buf p1 p2 e dist delta total one Hb Hl He H1 H2 Hd Ht Htot Hv; cbn [digits_of_integral].
  - cbn in H1. assert (p1 = 0) as -> by lia. split; [split; [done | by destruct Hl as [| (_ & n' & [=] & _)]] |]. cbn in Htot. lia.
  - cbn [pred]. set (pow := 10 ^ Z.of_nat n) in *. assert (0 < pow) as Hp by (apply Z.pow_pos_nonneg; lia). assert (0 < one) as Ho by (apply Z.pow_pos_nonneg; lia). rewrite Nat2Z.inj_succ, Z.pow_succ_r in H1, Htot by lia. fold pow in H1, Htot.
    pose proof (Z.div_mod p1 pow ltac:(lia)) as Edm. pose proof (Z.mod_pos_bound p1 pow Hp) as Hr. set (d := p1 / pow) in *. set (r := p1 mod pow) in *.
    assert (0 <= d) as Hd0 by (apply Z.div_pos; lia). assert (d < 10) as Hd9 by (apply Z.div_lt_upper_bound; lia). clearbody d r.
    assert (0 <= r * one /\ r * one + p2 <= p1 * one + p2 /\ p1 * one + p2 <= total) as (Hr0 & Hle & Hle2) by (rewrite Edm, Htot; split_and!; nia).
    rewrite shiftl_pow2 by lia. change (2 ^ (- e)) with one. rewrite (wrap_u_id 64 (r * one)) by lia. rewrite (wrap_u_id 64 (r * one + p2)) by lia.
    assert (leading buf \/ buf = [] /\ 1 <= d) as Hl'.
    { destruct Hl as [| (-> & n' & [= <-] & Hn')]; [by left |]. right. split; [done |]. fold pow in Hn'. nia. }
    destruct (Z.leb_spec (r * one + p2) delta) as [Hs | Hs].
    + rewrite shiftl_pow2 by lia. fold one. assert (delta < r * one + p2 + d * (pow * one)) as Hgt by nia. assert (0 < pow * one <= total) as Hten by (split; [nia |]; assert (1 <= d) by nia; nia). rewrite (wrap_u_id 64 (pow * one)) by lia.
      destruct (grisu2_round_spec round_fuel buf d dist delta (r * one + p2) (pow * one) ltac:(lia) ltac:(lia) ltac:(lia) Hgt) as (j & Hj & -> & Hj2).
      split; [split; [apply digits_snoc; [done | lia] | apply leading_snoc; [destruct Hl' as [| [-> _]]; [by left | right; split; [done | lia]] | lia]] |]. split; [lia |]. split; [rewrite Z.pow_add_r by lia; change (10 ^ 1) with 10; fold pow; nia |]. rewrite digits_value_snoc. fold pow.
      assert ((10 * digits_value buf + (d - j)) * pow * one = total - (r * one + p2 + j * (pow * one))) as -> by (rewrite Htot, Edm; ring). nia.
    + assert (pow / 10 = match n with O => 0 | S n' => 10 ^ Z.of_nat n' end) as Epow by (unfold pow; clear; destruct n as [| n']; [reflexivity |]; rewrite Nat2Z.inj_succ, Z.pow_succ_r by lia; rewrite (Z.mul_comm 10); by apply Z.div_mul).
      assert (digits (buf ++ [48 + d])) as G1 by (apply digits_snoc; [done | lia]). assert (leading (buf ++ [48 + d])) as G2 by (apply leading_snoc; [done | lia]).
      assert (total = digits_value (buf ++ [48 + d]) * pow * one + r * one + p2) as G3 by (rewrite digits_value_snoc, Htot, Edm; ring).
      assert (0 <= digits_value (buf ++ [48 + d])) as G4 by (rewrite digits_value_snoc; lia).
      destruct n as [| n']; [cbn [digits_of_integral]; cbn in Hr, G3; assert (r = 0) as -> by (unfold pow in Hr; cbn in Hr; lia); split; [by split |]; unfold pow in G3; cbn in G3; lia |].
      rewrite Epow. exact (IH (buf ++ [48 + d]) r p2 e dist delta total G1 (or_introl G2) He Hr H2 ltac:(lia) Ht G3 G4).
Qed.

(** The digits of the fraction [p2], until the rest is within [delta]. *)
Lemma digits_of_fractional_spec fuel : forall buf p2 e dist delta m, let one := 2 ^ (- e) in
  number_digits buf -> -60 <= e <= -32 -> 0 <= delta < p2 -> p2 < one -> one <= delta * 10 ^ Z.of_nat fuel ->
  exists buf' k, digits_of_fractional fuel buf p2 e dist delta m = (buf', m + k) /\ number_digits buf' /\ 1 <= k /\ delta * 10 ^ (k - 1) < one /\
    (digits_value buf * one + p2 - delta) * 10 ^ k <= digits_value buf' * one <= (digits_value buf * one + p2) * 10 ^ k.
Proof.
  induction fuel as [| fuel IH]; intros buf p2 e dist delta m one [Hb Hl] He Hd Hp Hf; cbn [digits_of_fractional]; [cbn in Hf; lia |].
  assert (0 < one <= 2 ^ 60) as Ho by (split; [apply Z.pow_pos_nonneg; lia | apply Z.pow_le_mono_r; lia]).
  rewrite (wrap_u_id 64 (p2 * 10)), (wrap_u_id 64 (delta * 10)) by lia. rewrite Z.shiftr_div_pow2 by lia. rewrite Z.shiftl_1_l. fold one. rewrite (wrap_u_id 64 one) by lia.
  assert (Z.land (p2 * 10) (one - 1) = (p2 * 10) mod one) as -> by (unfold one; rewrite <- Z.land_ones by lia; by rewrite Z.ones_equiv, <- Z.sub_1_r).
  pose proof (Z.div_mod (p2 * 10) one ltac:(lia)) as Edm. pose proof (Z.mod_pos_bound (p2 * 10) one ltac:(lia)) as Hr. set (d := p2 * 10 / one) in *. set (r := (p2 * 10) mod one) in *.
  assert (0 <= d) as Hd0 by (apply Z.div_pos; lia). assert (d < 10) as Hd9 by (apply Z.div_lt_upper_bound; lia). clearbody d r.
  assert (leading (buf ++ [48 + d])) as Hl2 by (apply leading_snoc; [by left | lia]).
  destruct (Z.leb_spec r (delta * 10)) as [Hs | Hs].
  - destruct (grisu2_round_spec round_fuel buf d (u64 (dist * 10)) (delta * 10) r one ltac:(lia) ltac:(lia) ltac:(lia) ltac:(lia)) as (j & Hj & -> & Hj2).
    eexists _, 1. split; [reflexivity |]. split; [split; [apply digits_snoc; [done | lia] | apply leading_snoc; [by left | lia]] |]. split; [lia |]. split; [change (10 ^ (1 - 1)) with 1; lia |]. rewrite digits_value_snoc. change (10 ^ 1) with 10. lia.
  - destruct (IH (buf ++ [48 + d]) r e (u64 (dist * 10)) (delta * 10) (m + 1)) as (buf' & k & -> & H1 & H2 & H4 & H3); [split; [apply digits_snoc; [done | lia] | done] | done | lia | lia | fold one; rewrite Nat2Z.inj_succ, Z.pow_succ_r in Hf by lia; lia |].
    fold one in H3. exists buf', (k + 1). split; [f_equal; lia |]. split; [done |]. split; [lia |]. split; [fold one in H4; replace (k + 1 - 1) with (1 + (k - 1)) by lia; rewrite Z.pow_add_r by lia; change (10 ^ 1) with 10; lia |]. split; rewrite digits_value_snoc in H3; rewrite Z.pow_add_r by lia; change (10 ^ 1) with 10;
      assert ((10 * digits_value buf + d) * one + r = 10 * (digits_value buf * one + p2)) as E by lia; rewrite E in H3; lia.
Qed.

Lemma digits_value_pos b : number_digits b -> 0 < digits_value b.
Proof.
  intros [Hd Hl]. destruct b as [| c b]; [done |]. apply Forall_cons in Hd as [_ Hd]. change (c :: b) with ([c] ++ b). rewrite digits_value_app. pose proof (digits_value_nonneg b Hd). cbn in Hl. assert (0 < digits_value [c]) by (cbn; lia).
  assert (0 < 10 ^ Z.of_nat (length b)) by (apply Z.pow_pos_nonneg; lia). nia.
Qed.

(** A quotient by the unit of the digits. *)
Lemma unit_bounds n a b e k k' : -60 <= e <= -32 -> 0 <= k -> a * 10 ^ k <= n * 2 ^ (- e) <= b * 10 ^ k -> k' = - k -> (IZR a * bpow e <= IZR n * tpow k' <= IZR b * bpow e)%R.
Proof.
  intros He Hk [H1 H2] ->. apply IZR_le in H1, H2. rewrite !mult_IZR, !rpow_IZR in H1, H2 by lia. rewrite (rpow_opp 2) in H1, H2 by lia. rewrite (rpow_opp 10) by lia.
  pose proof (rpow_pos 2 ltac:(lia) e) as Pe. pose proof (rpow_pos 10 ltac:(lia) k) as Pk. set (p := bpow e) in *. set (t := tpow k) in *. clearbody p t.
  assert (0 < p * / t)%R as Hpt by (apply Rmult_lt_0_compat; [done | by apply Rinv_0_lt_compat]). split.
  - apply (Rmult_le_compat_r (p * / t)) in H1; [| lra]. replace (IZR a * t * (p * / t))%R with (IZR a * p)%R in H1 by (field; lra). replace (IZR n * / p * (p * / t))%R with (IZR n * / t)%R in H1 by (field; lra). done.
  - apply (Rmult_le_compat_r (p * / t)) in H2; [| lra]. replace (IZR b * t * (p * / t))%R with (IZR b * p)%R in H2 by (field; lra). replace (IZR n * / p * (p * / t))%R with (IZR n * / t)%R in H2 by (field; lra). done.
Qed.

Lemma digit_unit d e i f k : -60 <= e <= -32 -> 0 <= f -> 0 <= i /\ k + 1 = i - f -> d * 10 ^ f < 10 ^ i * 2 ^ (- e) -> (IZR d * bpow e < 10 * tpow k)%R.
Proof.
  intros He Hf [Hi Hk] H. apply IZR_lt in H. rewrite !mult_IZR, !rpow_IZR in H by lia. rewrite (rpow_opp 2) in H by lia. assert (10 * tpow k = tpow i * / tpow f)%R as ->.
  { rewrite <- rpow_opp, <- rpow_add by lia. replace (i + - f) with (1 + k) by lia. rewrite rpow_add by lia. change (tpow 1) with (10 * 1)%R. ring. }
  pose proof (rpow_pos 2 ltac:(lia) e) as Pe. pose proof (rpow_pos 10 ltac:(lia) f) as Pf. set (p := bpow e) in *. set (t := tpow f) in *. set (u := tpow i) in *. clearbody p t u.
  apply (Rmult_lt_reg_r (t * / p)); [apply Rmult_lt_0_compat; [done | by apply Rinv_0_lt_compat] |]. replace (IZR d * p * (t * / p))%R with (IZR d * t)%R by (field; lra). replace (u * / t * (t * / p))%R with (u * / p)%R by (field; lra). done.
Qed.

(** The digits between two boundaries. *)
Lemma grisu2_digit_gen_spec x a b w e : -60 <= e <= -32 -> 0 < a < b -> 2 ^ 60 <= b < 2 ^ 64 ->
  exists buf k, grisu2_digit_gen x (mkDiy a e) w (mkDiy b e) = (buf, x + k) /\ number_digits buf /\ (IZR a * bpow e <= IZR (digits_value buf) * tpow k <= IZR b * bpow e)%R /\ (IZR (b - a) * bpow e < 10 * tpow k)%R.
Proof.
  intros He Ha Hb. unfold grisu2_digit_gen. cbn [diy_sub df de]. rewrite (wrap_u_id 64 (b - a)) by lia. rewrite Z.shiftr_div_pow2, Z.shiftl_1_l by lia. set (one := 2 ^ (- e)).
  assert (2 ^ 32 <= one <= 2 ^ 60) as Ho by (split; apply Z.pow_le_mono_r; lia). rewrite (wrap_u_id 64 one) by lia.
  assert (Z.land b (one - 1) = b mod one) as -> by (unfold one; rewrite <- Z.land_ones by lia; by rewrite Z.ones_equiv, <- Z.sub_1_r).
  pose proof (Z.div_mod b one ltac:(lia)) as Edm. pose proof (Z.mod_pos_bound b one ltac:(lia)) as Hr.
  assert (0 < b / one < 2 ^ 32) as Hp1 by (split; [apply Z.div_str_pos; lia | apply Z.div_lt_upper_bound; nia]). rewrite (wrap_u_id 32) by lia. set (p1 := b / one) in *. set (p2 := b mod one) in *. clearbody p1 p2.
  destruct (find_largest_pow10_spec p1 Hp1) as (k & -> & Hk). rewrite Nat2Z.id. set (dist := u64 _). clearbody dist.
  pose proof (digits_of_integral_spec (S k) [] p1 p2 e dist (b - a) b (Forall_nil_2 _)) as Hi. fold one in Hi. cbn zeta in Hi.
  specialize (Hi (or_intror (conj eq_refl (ex_intro _ k (conj eq_refl (proj1 Hk))))) He ltac:(lia) Hr ltac:(lia) ltac:(lia) ltac:(cbn [digits_value fold_left]; lia) ltac:(done)). cbn [pred] in Hi.
  destruct (digits_of_integral _ _ _ _ _ _ _ _) as [[buf n] | buf].
  - destruct Hi as (Hn & Hk0 & Hlen & Hv). exists buf, n. split; [done |]. split; [done |]. split; [| by apply (digit_unit (b - a) e (n + 1) 0 n); [| | lia | rewrite Z.mul_1_r; fold one; lia]]. rewrite <- (rpow_IZR 10 ltac:(lia) n), <- mult_IZR by done.
    rewrite <- (Rmult_1_r (IZR (_ * _))). change (IZR a * bpow e <= IZR (digits_value buf * 10 ^ n) * tpow 0 <= IZR b * bpow e)%R. apply (unit_bounds _ a b e 0); [done | lia | fold one; lia | done].
  - destruct Hi as (Hn & Hv & Hd). destruct (digits_of_fractional_spec 20 buf p2 e dist (b - a) 0 Hn He ltac:(lia) (proj2 Hr) ltac:(fold one; change (10 ^ Z.of_nat 20) with 100000000000000000000; nia)) as (buf' & m & -> & Hn' & Hm & Hlen & Hb').
    fold one in Hb'. exists buf', (- m). split; [f_equal; lia |]. split; [done |]. split; [| apply (digit_unit (b - a) e 0 (m - 1) (- m)); [done | lia | lia | fold one; lia]]. apply (unit_bounds _ a b e m); [done | lia | | done]. fold one. rewrite <- Hv in Hb'. replace (b - (b - a)) with a in Hb' by lia. done.
Qed.

Lemma digits_value_bounds b : number_digits b -> 10 ^ (Z.of_nat (length b) - 1) <= digits_value b < 10 ^ Z.of_nat (length b).
Proof.
  intros [Hd Hl]. assert (forall b, digits b -> digits_value b < 10 ^ Z.of_nat (length b)) as Hup.
  { clear. intros b. induction b as [| c b IH] using rev_ind; [done |]. intros [Hb Hc]%Forall_app. apply Forall_cons in Hc as [Hc%between_true _]. rewrite digits_value_app, length_app. cbn [length]. specialize (IH Hb).
    rewrite Nat2Z.inj_add, Z.pow_add_r by lia. change (10 ^ Z.of_nat 1) with 10. assert (digits_value [c] = c - 48) as -> by (cbn; lia). lia. }
  split; [| by apply Hup]. destruct b as [| c b]; [done |]. cbn in Hl. apply Forall_cons in Hd as [_ Hd]. change (c :: b) with ([c] ++ b). rewrite digits_value_app. pose proof (digits_value_nonneg b Hd).
  assert (digits_value [c] = c - 48) as -> by (cbn; lia). rewrite length_app. cbn [length]. replace (Z.of_nat (1 + length b) - 1) with (Z.of_nat (length b)) by lia. assert (0 < 10 ^ Z.of_nat (length b)) by (apply Z.pow_pos_nonneg; lia). nia.
Qed.

(** Boundaries that are not too close have few digits. *)
Lemma few_digits buf k a b e n : number_digits buf -> (IZR (digits_value buf) * tpow k <= IZR b * bpow e)%R -> (IZR (b - a) * bpow e < 10 * tpow k)%R -> 0 <= n -> 0 < b <= 10 ^ n * (b - a) -> Z.of_nat (length buf) <= n + 1.
Proof.
  intros Hd H1 H2 Hn [Hb Hw]. destruct (digits_value_bounds buf Hd) as [B _]. set (len := Z.of_nat (length buf)) in *. apply IZR_le in B, Hw. rewrite mult_IZR, (rpow_IZR 10 ltac:(lia) n) in Hw by done.
  assert (1 <= len) as Hlen by (unfold len; destruct Hd as [_ Hd]; destruct buf; [done | cbn; lia]). rewrite rpow_IZR in B by lia. pose proof (rpow_pos 10 ltac:(lia) k) as Pk. pose proof (rpow_pos 2 ltac:(lia) e) as Pe. pose proof (rpow_pos 10 ltac:(lia) n) as Pn.
  assert (tpow (len - 1) < tpow (n + 1))%R as Hlt; [| apply rpow_lt_inv in Hlt; lia]. rewrite (rpow_add 10 ltac:(lia) n). change (tpow 1) with (10 * 1)%R. apply (Rmult_lt_reg_r (tpow k)); [done |].
  eapply Rle_lt_trans; [apply Rmult_le_compat_r; [lra | exact B] |]. eapply Rle_lt_trans; [exact H1 |]. eapply Rle_lt_trans; [apply Rmult_le_compat_r; [lra | exact Hw] |]. replace (tpow n * (10 * 1) * tpow k)%R with (tpow n * (10 * tpow k))%R by ring. rewrite Rmult_assoc. by apply Rmult_lt_compat_l.
Qed.

(** The distance of the boundaries against their size. *)
Lemma relative_width s m e : valid_binary 53 1024 (S754_finite s m e) = true -> 4 * Zpos m + 2 <= 2 ^ 53 * (4 * Zpos m + 2 - quarters_below 53 1024 (Zpos m) e).
Proof.
  intros Hv. destruct (mantissa_bounds 53 1024 ltac:(lia) s m e Hv) as (_ & Hm & _). unfold quarters_below.
  destruct (Z.eqb_spec (Zpos m) (2 ^ (53 - 1))) as [-> |]; [destruct (_ <? _); cbn [andb]; lia | cbn [andb]; lia].
Qed.

(** The digits of a positive double are nearest to it, and no more than seventeen. *)
Lemma grisu2_nearest s m e : valid_binary 53 1024 (S754_finite s m e) = true ->
  exists buf k, grisu2 m e = (buf, k) /\ number_digits buf /\ nearest 53 1024 (Zpos m) e (IZR (digits_value buf) * tpow k) /\ (length buf <= 17)%nat.
Proof.
  intros Hv. destruct (compute_boundaries_spec s m e Hv) as (k & Hk & Hr & Hp & Hpb & Hm). unfold grisu2, grisu2_scaled. rewrite Hp, Hm. cbn [de].
  destruct (cached_power_spec _ Hr) as [Hc1 Hc2]. set (c := get_cached_power_for_binary_exponent (e - 1 - k)) in *. destruct (power_ok_spec c Hc2) as [Hcf _].
  set (fp := (2 * Zpos m + 1) * 2 ^ k) in *. set (q := quarters_below 53 1024 (Zpos m) e) in *. set (fm := q * 2 ^ (k - 1)) in *.
  assert (4 * Zpos m - 2 <= q <= 4 * Zpos m - 1) as Hq by (unfold q, quarters_below; destruct (_ && _); lia).
  assert (2 ^ k = 2 * 2 ^ (k - 1)) as Ek by (rewrite <- Z.pow_succ_r by lia; f_equal; lia). assert (2 ^ 9 <= 2 ^ (k - 1)) as Hk9 by (apply Z.pow_le_mono_r; lia).
  assert (fm + 3 * 2 ^ 9 <= fp /\ 2 ^ 61 <= fm) as [Hdiff Hfm] by (unfold fm, fp in *; rewrite Ek in *; split; nia).
  destruct (scaled_bounds fp (e - 1 - k) c ltac:(lia) Hc2) as (Ep & Bp & Lp & _). destruct (scaled_bounds fm (e - 1 - k) c ltac:(lia) Hc2) as (Em & Bm & _ & Um).
  set (wp := diy_mul (mkDiy fp (e - 1 - k)) (mkDiy (cf c) (ce c))) in *. set (wm := diy_mul (mkDiy fm (e - 1 - k)) (mkDiy (cf c) (ce c))) in *.
  assert (0 <= df wm /\ df wm + 2 < df wp /\ 2 ^ 62 <= df wp < 2 ^ 64 /\ df wp - 1 <= 10 ^ 16 * (df wp - 1 - (df wm + 1))) as (Hwm & Hlt & Hwp & Hfew).
  { assert (2 ^ 63 * 2 ^ 63 <= fp * cf c <= (2 ^ 64 - 1) * (2 ^ 64 - 1)) as Hpc by (split; apply Z.mul_le_mono_nonneg; lia). assert (3 * 2 ^ 9 * 2 ^ 63 <= (fp - fm) * cf c) as Hdc by (apply Z.mul_le_mono_nonneg; lia).
    assert (fp * cf c <= 2 ^ 53 * (fp - fm) * cf c) as Hrel.
    { apply Z.mul_le_mono_nonneg_r; [lia |]. pose proof (relative_width s m e Hv) as Hrw. fold q in Hrw. unfold fp, fm. rewrite Ek. replace ((2 * Zpos m + 1) * (2 * 2 ^ (k - 1))) with ((4 * Zpos m + 2) * 2 ^ (k - 1)) by ring. rewrite <- Z.mul_sub_distr_r, Z.mul_assoc. apply Z.mul_le_mono_nonneg_r; lia. }
    rewrite <- Z.mul_assoc, Z.mul_sub_distr_r in Hrel. rewrite Z.mul_sub_distr_r in Hdc. assert (0 <= fm * cf c) by (apply Z.mul_nonneg_nonneg; lia). lia. }
  rewrite Em, Ep in *. rewrite (wrap_u_id 64 (df wm + 1)), (wrap_u_id 64 (df wp - 1)) by lia.
  destruct (grisu2_digit_gen_spec (- ck c) (df wm + 1) (df wp - 1) (diy_mul (b_w (compute_boundaries m e)) (mkDiy (cf c) (ce c))) (e - 1 - k + ce c + 64)) as (buf & n & -> & Hd & [Hlo Hhi] & Hunit); [lia | lia | lia |].
  exists buf, (- ck c + n). split; [done |]. split; [done |]. split; [| pose proof (few_digits buf n _ _ _ 16 Hd Hhi Hunit ltac:(lia) ltac:(lia)); lia]. unfold nearest. fold q. rewrite rpow_add, rpow_opp by lia. pose proof (rpow_pos 10 ltac:(lia) (ck c)) as Pt. set (t := tpow (ck c)) in *. clearbody t.
  assert (forall z, IZR (z * 2 ^ (k - 1)) * bpow (e - 1 - k) = IZR z * bpow (e - 2))%R as Esc.
  { intros z. rewrite mult_IZR, rpow_IZR by lia. rewrite Rmult_assoc, <- rpow_add by lia. do 3 f_equal. lia. }
  assert (IZR fp * bpow (e - 1 - k) = IZR (4 * Zpos m + 2) * bpow (e - 2))%R as Efp by (rewrite <- Esc; do 2 f_equal; unfold fp; rewrite Ek; ring). rewrite Efp in Lp. unfold fm in Um. rewrite Esc in Um.
  set (V := IZR (digits_value buf)) in *. set (T := tpow n) in *. assert (V * (/ t * T) = V * T * / t)%R as -> by ring.
  assert (0 < / t)%R as Pi by by apply Rinv_0_lt_compat. split.
  - apply (Rmult_lt_reg_r t); [done |]. replace (V * T * / t * t)%R with (V * T)%R by (field; lra). lra.
  - apply (Rmult_lt_reg_r t); [done |]. replace (V * T * / t * t)%R with (V * T)%R by (field; lra). lra.
Qed.

(** ** The grammar of numbers *)

Fixpoint number_run (st : number_state) (nt : token_type) (text : list Z) : option (number_state * token_type) :=
  match text with
  | [] => Some (st, number_type_in st nt)
  | c :: text => match number_next st c with To st' => number_run st' (number_type_in st nt) text | _ => None end
  end.

(** A number may end here. *)
Definition number_may_end (st : number_state) : bool := match st with num_zero | num_any1 | num_decimal2 | num_any2 => true | _ => false end.

(** The type of a text that is a number. *)
Definition number_type (text : list Z) : option token_type :=
  match text with
  | c :: text => if (c =? 45) || is_digit_byte c then match number_run (number_start c) value_unsigned text with Some (st, nt) => if number_may_end st then Some nt else None | None => None end else None
  | [] => None
  end.

Lemma number_run_digits d nt : digits d -> number_run num_any1 nt d = Some (num_any1, nt).
Proof. induction 1 as [| c d Hc _ IH]; [done |]. cbn [number_run number_next]. by rewrite Hc. Qed.

Lemma number_type_in_twice st nt : number_type_in st (number_type_in st nt) = number_type_in st nt.
Proof. by destruct st. Qed.

Lemma number_run_app st nt a b : number_run st nt (a ++ b) = match number_run st nt a with Some (st', nt') => number_run st' nt' b | None => None end.
Proof.
  revert st nt. induction a as [| c a IH]; intros st nt; cbn [app number_run]; [| destruct (number_next st c); done].
  destruct b as [| c b]; cbn [number_run]; by rewrite number_type_in_twice.
Qed.

(** A state in which digits are read on. *)
Lemma number_run_more st nt d : (st = num_any1 \/ st = num_decimal2 \/ st = num_any2) -> digits d -> number_run st nt d = Some (st, nt).
Proof. intros Hst. induction 1 as [| c d Hc _ IH]; [by destruct Hst as [-> | [-> | ->]] |]. destruct Hst as [-> | [-> | ->]]; cbn [number_run number_next]; by rewrite Hc. Qed.

(** ** The parts of a number *)

Definition number_text (whole fraction : list Z) (ex : option Z) : list Z :=
  whole ++ match fraction with [] => [] | _ => 46 :: fraction end ++ match ex with Some x => 101 :: append_exponent x | None => [] end.

Definition sign_text (s : bool) : list Z := if s then [45] else [].

Definition whole_ok (whole : list Z) : Prop := digits whole /\ (whole = [48] \/ leading whole).

Lemma append_exponent_spec x : -1000 < x < 1000 -> exists c d r, append_exponent x = c :: d :: r /\ (c = 43 \/ c = 45) /\ (c =? 45) = (x <? 0) /\ digits (d :: r) /\ digits_value (d :: r) = Z.abs x.
Proof.
  intros Hx. unfold append_exponent. assert (forall a, 0 <= a <= 9 -> is_digit_byte (48 + a) = true) as Hd by (intros a Ha; apply between_true; lia).
  assert (forall sgn k, k = Z.abs x -> (sgn = 43 \/ sgn = 45) -> (sgn =? 45) = (x <? 0) -> exists c d r, sgn :: (if k <? 10 then [48; 48 + k] else if k <? 100 then [48 + k / 10; 48 + k mod 10] else [48 + k / 100; 48 + k mod 100 / 10; 48 + (k mod 100) mod 10]) = c :: d :: r /\
    (c = 43 \/ c = 45) /\ (c =? 45) = (x <? 0) /\ digits (d :: r) /\ digits_value (d :: r) = Z.abs x) as Hmain.
  { intros sgn k Hk Hs1 Hs2. assert (0 <= k < 1000) as Hk' by lia. destruct (Z.ltb_spec k 10); [| destruct (Z.ltb_spec k 100)]; eexists sgn, _, _; (split; [reflexivity |]); split_and!; try done.
    - apply Forall_cons_2; [done |]. apply Forall_cons_2; [apply Hd; lia | constructor].
    - unfold digits_value. cbn [fold_left]. lia.
    - by repeat (apply Forall_cons_2; [apply Hd; Z.to_euclidean_division_equations; lia |]); apply Forall_nil_2.
    - unfold digits_value. cbn [fold_left]. Z.to_euclidean_division_equations; lia.
    - by repeat (apply Forall_cons_2; [apply Hd; Z.to_euclidean_division_equations; lia |]); apply Forall_nil_2.
    - unfold digits_value. cbn [fold_left]. Z.to_euclidean_division_equations; lia. }
  destruct (Z.ltb_spec x 0); apply Hmain; lia || auto.
Qed.

(** A number with a point or an exponent is a double for the scanner. *)
Lemma number_text_type s whole fraction ex : whole_ok whole -> digits fraction -> (forall x, ex = Some x -> -1000 < x < 1000) -> fraction <> [] \/ ex <> None ->
  number_type (sign_text s ++ number_text whole fraction ex) = Some value_float.
Proof.
  intros [Hw Hl] Hf Hx Hne. destruct whole as [| c whole]; [by destruct Hl |]. apply Forall_cons in Hw as [Hc Hw]. unfold number_text.
  set (tail := match fraction with [] => [] | _ => _ end ++ _). assert (forall st nt, st = num_zero \/ st = num_any1 -> exists st', number_run st nt tail = Some (st', value_float) /\ number_may_end st' = true) as Htail.
  { intros st nt Hst. assert (forall st1 nt1 x, (st1 = num_zero \/ st1 = num_any1 \/ st1 = num_decimal2) -> -1000 < x < 1000 -> number_run st1 nt1 (101 :: append_exponent x) = Some (num_any2, value_float)) as Hex.
    { intros st1 nt1 x Hst1 Hx1. destruct (append_exponent_spec x Hx1) as (c0 & d & r & -> & Hc0 & _ & Hdr & _). apply Forall_cons in Hdr as [Hd Hr]. cbn [number_run].
      assert (number_next st1 101 = To num_exponent) as -> by (by destruct Hst1 as [-> | [-> | ->]]). assert (number_next num_exponent c0 = To num_sign) as -> by (by destruct Hc0 as [-> | ->]). cbn [number_next]. rewrite Hd. by rewrite number_run_more by auto. }
    unfold tail. destruct fraction as [| f fraction]; [destruct ex as [x |]; [| by destruct Hne] |].
    - exists num_any2. cbn [app]. split; [| done]. apply Hex; [tauto | by apply Hx].
    - apply Forall_cons in Hf as [Hf0 Hf]. rewrite number_run_app. assert (number_run st nt (46 :: f :: fraction) = Some (num_decimal2, value_float)) as ->.
      { cbn [number_run]. assert (number_next st 46 = To num_decimal1) as -> by (by destruct Hst as [-> | ->]). cbn [number_next]. rewrite Hf0. by rewrite number_run_more by auto. }
      destruct ex as [x |]; [exists num_any2; split; [apply Hex; [tauto | by apply Hx] | done] | by exists num_decimal2]. }
  assert (forall nt, exists st', number_run (number_start c) nt (whole ++ tail) = Some (st', value_float) /\ number_may_end st' = true) as Hrun.
  { intros nt. rewrite number_run_app. destruct Hl as [[= -> ->] | Hl].
    - cbn [number_run]. apply Htail. by left.
    - cbn in Hl. unfold number_start. rewrite !(proj2 (Z.eqb_neq c _)) by lia. rewrite number_run_digits by done. apply Htail. by right. }
  assert (is_digit_byte c = true -> (c =? 45) = false) as Hc45 by (intros Hcd%between_true; apply Z.eqb_neq; lia). destruct s; cbn [sign_text app number_type].
  - change ((45 =? 45) || is_digit_byte 45) with true. cbn iota. change (number_start 45) with num_minus. cbn [number_run]. assert (number_next num_minus c = To (number_start c)) as ->.
    { unfold number_start. rewrite (Hc45 Hc). cbn [number_next]. destruct (Z.eqb_spec c 48); [done |]. apply between_true in Hc. by rewrite (proj2 (between_true 49 57 c)) by lia. }
    destruct (Hrun (number_type_in num_minus value_unsigned)) as (st' & -> & Hst). by rewrite Hst.
  - rewrite Hc, orb_true_r. destruct (Hrun value_unsigned) as (st' & -> & Hst). by rewrite Hst.
Qed.

Lemma number_text_value s whole fraction ex : whole_ok whole -> digits fraction -> (forall x, ex = Some x -> -1000 < x < 1000) ->
  strtod (sign_text s ++ number_text whole fraction ex) = decimal_to_f64 s (digits_value (whole ++ fraction)) (default 0 ex - Z.of_nat (length fraction)).
Proof.
  intros [Hw Hl] Hf Hx. unfold strtod. assert (take_sign (sign_text s ++ number_text whole fraction ex) = (s, number_text whole fraction ex)) as ->.
  { destruct s; [done |]. cbn [sign_text app]. destruct whole as [| c whole]; [by destruct Hl |]. apply Forall_cons in Hw as [Hc _]. apply between_true in Hc. unfold number_text. cbn [app take_sign]. by rewrite !(proj2 (Z.eqb_neq c _)) by lia. }
  unfold number_text. rewrite span_digits_app; [| done | destruct fraction; [by destruct ex | done]].
  assert (forall n, match (match ex with Some x => 101 :: append_exponent x | None => [] end) with c :: l' => if (c =? 101) || (c =? 69) then let '(neg, d) := take_sign l' in let n := digits_value (fst (span_digits d)) in if neg : bool then - n else n else 0 | [] => 0 end - n = default 0 ex - n) as Hex.
  { intros n. destruct ex as [x |]; [| done]. specialize (Hx x eq_refl). destruct (append_exponent_spec x Hx) as (c & d & r & -> & Hc & Hc' & Hd & Hv). change ((101 =? 101) || (101 =? 69)) with true. cbn iota.
    assert (span_digits (d :: r) = (d :: r, [])) as Hsp by (rewrite <- (app_nil_r (d :: r)) at 1; by apply span_digits_app). change (default 0 (Some x)) with x.
    destruct Hc as [-> | ->]; [change (take_sign (43 :: d :: r)) with (false, d :: r) | change (take_sign (45 :: d :: r)) with (true, d :: r)]; cbn iota zeta; rewrite Hsp; cbn [fst]; rewrite Hv;
      [change (43 =? 45) with false in Hc' | change (45 =? 45) with true in Hc']; destruct (Z.ltb_spec x 0); try done; lia. }
  destruct fraction as [| f fraction].
  - cbn [app]. destruct ex as [x |]; [| done]. change (101 =? 46) with false. cbn iota. by rewrite Hex.
  - cbn [app]. change (46 =? 46) with true. cbn iota. change (f :: fraction ++ ?e) with ((f :: fraction) ++ e). rewrite span_digits_app; [| done | by destruct ex]. by rewrite Hex.
Qed.

(** ** The layout *)

Lemma digits_zeros n : digits (replicate n 48).
Proof. by apply Forall_replicate. Qed.

Lemma digits_value_zeros n : digits_value (replicate n 48) = 0.
Proof. induction n as [| n IH]; [done |]. change (replicate (S n) 48) with ([48] ++ replicate n 48). rewrite digits_value_app, IH. change (digits_value [48]) with 0. lia. Qed.

Lemma leading_take n b : (0 < n)%nat -> leading b -> leading (take n b).
Proof. intros Hn Hb. destruct n as [| n]; [lia |]. by destruct b. Qed.

(** The layout moves the point. *)
Lemma format_buffer_text buf k : number_digits buf -> -1000 < Z.of_nat (length buf) + k - 1 < 1000 ->
  exists whole fraction ex, format_buffer buf k (-4) 15 = number_text whole fraction ex /\ whole_ok whole /\ digits fraction /\ (forall x, ex = Some x -> -1000 < x < 1000) /\ (fraction <> [] \/ ex <> None) /\
    0 < digits_value (whole ++ fraction) /\ (IZR (digits_value (whole ++ fraction)) * tpow (default 0 ex - Z.of_nat (length fraction))%Z = IZR (digits_value buf) * tpow k)%R.
Proof.
  intros [Hd Hl] Hn. pose proof (digits_value_pos buf (conj Hd Hl)) as Hpos. set (len := Z.of_nat (length buf)) in *. assert (1 <= len) as Hlen by (unfold len; destruct buf; [done | cbn; lia]).
  unfold format_buffer. fold len. cbn zeta. destruct ((len <=? len + k) && _) eqn:E1; [| destruct ((0 <? len + k) && _) eqn:E2; [| destruct ((-4 <? len + k) && _) eqn:E3; [| destruct (Z.eqb_spec len 1) as [E4 | E4]]]].
  - apply andb_prop in E1 as [E1%Z.leb_le _]. exists (buf ++ replicate (Z.to_nat (len + k - len)) 48), [48], None. unfold number_text. split_and!.
    + by rewrite <- app_assoc.
    + split; [apply Forall_app_2; [done | apply digits_zeros] | right; by destruct buf].
    + by constructor.
    + done.
    + by left.
    + rewrite !digits_value_app, digits_value_zeros, length_replicate. change (digits_value [48]) with 0. cbn [length]. assert (0 < 10 ^ Z.of_nat (Z.to_nat (len + k - len))) by (apply Z.pow_pos_nonneg; lia). nia.
    + rewrite !digits_value_app, digits_value_zeros, length_replicate. change (digits_value [48]) with 0. cbn [length]. rewrite Z2Nat.id by lia. replace (len + k - len) with k by lia. rewrite !Z.add_0_r, !mult_IZR. rewrite (rpow_IZR 10 ltac:(lia) k) by lia.
      change (10 ^ Z.of_nat 1) with 10. change (default 0 None - Z.of_nat 1) with (- (1)). rewrite rpow_opp by lia. change (tpow 1) with (10 * 1)%R. field.
  - apply andb_prop in E2 as [E2%Z.ltb_lt E2'%Z.leb_le]. assert (len + k < len) as Hlt by (destruct (Z.leb_spec len (len + k)); [rewrite (proj2 (Z.leb_le _ _) E2') in E1; done | done]).
    assert (length (drop (Z.to_nat (len + k)) buf) = Z.to_nat (- k)) as Hld by (rewrite length_drop; unfold len in *; lia).
    exists (take (Z.to_nat (len + k)) buf), (drop (Z.to_nat (len + k)) buf), None. rewrite take_drop. unfold number_text. split_and!; [| split; [by apply Forall_take | right; apply leading_take; [lia | done]] | by apply Forall_drop | done | left; intros E; rewrite E in Hld; cbn in Hld; lia | done |].
    + destruct (drop _ buf) eqn:E; [cbn in Hld; lia |]. by rewrite app_nil_r.
    + rewrite Hld. cbn [default]. do 2 f_equal. change (default 0 None) with 0. lia.
  - apply andb_prop in E3 as [E3%Z.ltb_lt E3'%Z.leb_le]. exists [48], (replicate (Z.to_nat (- (len + k))) 48 ++ buf), None. unfold number_text. split_and!; [| split; [by constructor | by left] | apply Forall_app_2; [apply digits_zeros | done] | done | left; by destruct (Z.to_nat _), buf | |].
    + destruct (replicate _ _ ++ buf) eqn:E; [by destruct (Z.to_nat _), buf |]. by rewrite app_nil_r.
    + rewrite !digits_value_app, digits_value_zeros. change (digits_value [48]) with 0. lia.
    + rewrite !digits_value_app, digits_value_zeros, length_app, length_replicate. change (digits_value [48]) with 0. cbn [Z.mul Z.add]. do 2 f_equal. change (default 0 None) with 0. unfold len in *. lia.
  - exists buf, [], (Some (len + k - 1)). rewrite app_nil_r. unfold number_text. split_and!; [done | split; [done | right; by destruct buf] | constructor | by intros x [= <-] | by right | done |].
    do 2 f_equal. change (default 0 (Some (len + k - 1))) with (len + k - 1). cbn [length]. lia.
  - assert (exists c d r, buf = c :: d :: r) as (c & d & r & Eb) by (destruct buf as [| c [| d r]]; [done | unfold len in E4; cbn in E4; lia | by eexists _, _, _]).
    exists [c], (d :: r), (Some (len + k - 1)). unfold number_text. rewrite Eb in Hd, Hl |- *. apply Forall_cons in Hd as [Hc Hd]. split_and!; [done | split; [by constructor | right; exact Hl] | done | by intros x [= <-] | by left | rewrite Eb in Hpos; exact Hpos |].
    change ([c] ++ d :: r) with (c :: d :: r). do 2 f_equal. change (default 0 (Some (len + k - 1))) with (len + k - 1). unfold len. rewrite Eb. cbn [length]. lia.
Qed.

(** ** Every double is read as it was printed *)

(** The decimal exponent of a double. *)
Lemma nearest_exponent s m e buf k : valid_binary 53 1024 (S754_finite s m e) = true -> number_digits buf -> nearest 53 1024 (Zpos m) e (IZR (digits_value buf) * tpow k) -> -325 <= Z.of_nat (length buf) + k - 1 <= 308.
Proof.
  intros Hv Hd Hx. destruct (nearest_binade 53 1024 ltac:(lia) s m e _ Hv Hx) as [Hu _]. destruct (mantissa_bounds 53 1024 ltac:(lia) s m e Hv) as (He & _). destruct Hx as [Hl _]. change (SpecFloat.emin 53 1024) with (-1074) in *.
  destruct (digits_value_bounds buf Hd) as [B1 B2]. set (n := Z.of_nat (length buf)) in *. assert (1 <= n) as Hn by (unfold n; destruct Hd as [_ Hd]; destruct buf; [done | cbn; lia]).
  apply IZR_le in B1. apply IZR_lt in B2. rewrite rpow_IZR in B1, B2 by lia. pose proof (rpow_pos 10 ltac:(lia) k) as Pk. set (D := IZR (digits_value buf)) in *.
  assert (tpow (n + k - 1) < tpow 309)%R as H1.
  { replace (n + k - 1) with (n - 1 + k) by lia. rewrite rpow_add by lia. assert (bpow (53 + e) <= bpow 1024)%R by (apply rpow_le; lia). assert (bpow 1024 <= tpow 309)%R by (rewrite <- !rpow_IZR by lia; apply IZR_le; by vm_compute). nra. }
  assert (tpow (- (324)) < tpow (n + k))%R as H2.
  { rewrite (rpow_add 10 ltac:(lia) n). assert (bpow (-1075) <= IZR (quarters_below 53 1024 (Zpos m) e) * bpow (e - 2))%R as H2.
    { replace (-1075) with (1 + -1076) by lia. eapply Rle_trans; [| apply (IZR_bpow_le _ 1 (e - 2)); [lia | unfold quarters_below; destruct (_ && _); lia]]. apply rpow_le; lia. }
    assert (tpow (- (324)) <= bpow (- (1075)))%R as H3.
    { rewrite !rpow_opp by lia. rewrite <- !rpow_IZR by lia. apply Rinv_le_contravar; [by apply (IZR_lt 0) | apply IZR_le; by vm_compute]. }
    change (- (1075)) with (-1075) in H3. assert (D * tpow k < tpow n * tpow k)%R by by apply Rmult_lt_compat_r. lra. }
  apply rpow_lt_inv in H1, H2; lia.
Qed.

(** A finite double is printed as a number that is read as the same double. *)
Lemma float_text_reads x : is_finite x = true -> valid_binary 53 1024 x = true -> number_type (dump_float x) = Some value_float /\ strtod (dump_float x) = x.
Proof.
  intros Hf Hv. destruct x as [s | | | s m e]; [by destruct s | done | done |]. unfold dump_float, to_chars. destruct (grisu2_nearest s m e Hv) as (buf & k & -> & Hd & Hx & _).
  pose proof (nearest_exponent s m e buf k Hv Hd Hx) as Hr. destruct (format_buffer_text buf k Hd ltac:(lia)) as (whole & fraction & ex & -> & Hw & Hfr & Hex & Hne & Hpos & Hval).
  change ((if s then [45] else []) ++ ?t) with (sign_text s ++ t). split; [by apply number_text_type |]. rewrite number_text_value by done. apply decimal_nearest; [done | done |]. by rewrite Hval.
Qed.

(** ** The length of the text *)

Lemma append_exponent_length x : (length (append_exponent x) <= 4)%nat.
Proof. unfold append_exponent. destruct (x <? 0); cbn [length]; repeat (case_match; cbn [length]); lia. Qed.

Lemma format_buffer_length buf k : (1 <= length buf <= 17)%nat -> (length (format_buffer buf k (-4) 15) <= 23)%nat.
Proof.
  intros Hb. unfold format_buffer. cbn zeta. set (n := Z.of_nat (length buf) + k).
  destruct ((_ <=? n) && (n <=? 15)) eqn:E1; [| destruct ((0 <? n) && _) eqn:E2; [| destruct ((-4 <? n) && _) eqn:E3]]; rewrite ?length_app.
  - apply andb_prop in E1 as [E1%Z.leb_le E1'%Z.leb_le]. rewrite length_replicate. cbn [length]. lia.
  - rewrite length_take, length_drop. cbn [length]. lia.
  - apply andb_prop in E3 as [E3%Z.ltb_lt E3'%Z.leb_le]. rewrite length_replicate. cbn [length]. lia.
  - pose proof (append_exponent_length (n - 1)). assert (length (if (Z.of_nat (length buf) =? 1)%Z then buf else take 1 buf ++ [46%Z] ++ drop 1 buf) <= 18)%nat by (destruct (_ =? 1); rewrite ?length_app, ?length_take, ?length_drop; cbn [length]; lia). cbn [length]. lia.
Qed.

(** C8: A finite double is printed with at most 24 characters, which fit [number_buffer] of 64; the text is a number of JSON
    with a point or an exponent, so that it stays a double; and [strtod] reads it as exactly the
    same double: the digits of Grisu2 lie between the boundaries of the number. *)
Theorem doubles_printed_exactly x : is_finite x = true -> valid_binary 53 1024 x = true ->
  (length (dump_float x) <= 24)%nat /\ number_type (dump_float x) = Some value_float /\ strtod (dump_float x) = x.
Proof.
  intros Hf Hv. split; [| by apply float_text_reads]. destruct x as [s | | | s m e]; [by destruct s; cbn; lia | done | done |].
  unfold dump_float, to_chars. destruct (grisu2_nearest s m e Hv) as (buf & k & -> & [_ Hl] & _ & Hlen). rewrite length_app.
  assert (1 <= length buf)%nat by (destruct buf; [done | cbn; lia]). pose proof (format_buffer_length buf k ltac:(lia)). destruct s; cbn [length]; lia.
Qed.

Lemma doubles_printed_exactly_witness : strtod (dump_float (S754_finite true 1 (-1074))) = S754_finite true 1 (-1074).
Proof. apply (doubles_printed_exactly (S754_finite true 1 (-1074))); vm_compute; reflexivity. Defined.
