(* ===== verification/JsonDump.v ===== *)
(** * The text of a JSON value

    [serializer] of the vendored nlohmann::json 3.11.3
    ([BasicLibs/core/parser/json/json.hpp]): strings with the table that checks their UTF-8, and
    the values.  The program only dumps with the default handler, which throws on a string that is not
    UTF-8, and without escaping to ASCII; the other handlers and the escapes are modelled as well.
    An output is the list of its bytes; an exception is its text.

    Properties of the JSON serializer.  The table of the serializer accepts exactly the strings that the lexer accepts; the fast
    integers are the decimal ones; a value with broken text is refused, any other is printed as
    [text] says. *)

From Stdlib Require Import SpecFloat Ascii String.
From stdpp Require Import list pretty.
From S2P Require Import Prelude Float32 Json JsonLexer Grisu JsonParser.
Open Scope Z_scope.
Open Scope list_scope.

Inductive error_handler_t := strict | replace | ignore.

(** ** UTF-8 *)

Definition UTF8_ACCEPT : Z := 0.
Definition UTF8_REJECT : Z := 1.

(** The classes of the 256 bytes, then the next state of each state and class. *)
Definition utf8d : list Z :=
  [0; 0; 0; 0; 0; 0; 0; 0; 0; 0; 0; 0; 0; 0; 0; 0; 0; 0; 0; 0; 0; 0; 0; 0; 0; 0; 0; 0; 0; 0; 0; 0;
   0; 0; 0; 0; 0; 0; 0; 0; 0; 0; 0; 0; 0; 0; 0; 0; 0; 0; 0; 0; 0; 0; 0; 0; 0; 0; 0; 0; 0; 0; 0; 0;
   0; 0; 0; 0; 0; 0; 0; 0; 0; 0; 0; 0; 0; 0; 0; 0; 0; 0; 0; 0; 0; 0; 0; 0; 0; 0; 0; 0; 0; 0; 0; 0;
   0; 0; 0; 0; 0; 0; 0; 0; 0; 0; 0; 0; 0; 0; 0; 0; 0; 0; 0; 0; 0; 0; 0; 0; 0; 0; 0; 0; 0; 0; 0; 0;
   1; 1; 1; 1; 1; 1; 1; 1; 1; 1; 1; 1; 1; 1; 1; 1; 9; 9; 9; 9; 9; 9; 9; 9; 9; 9; 9; 9; 9; 9; 9; 9;
   7; 7; 7; 7; 7; 7; 7; 7; 7; 7; 7; 7; 7; 7; 7; 7; 7; 7; 7; 7; 7; 7; 7; 7; 7; 7; 7; 7; 7; 7; 7; 7;
   8; 8; 2; 2; 2; 2; 2; 2; 2; 2; 2; 2; 2; 2; 2; 2; 2; 2; 2; 2; 2; 2; 2; 2; 2; 2; 2; 2; 2; 2; 2; 2;
   10; 3; 3; 3; 3; 3; 3; 3; 3; 3; 3; 3; 3; 4; 3; 3; 11; 6; 6; 6; 5; 8; 8; 8; 8; 8; 8; 8; 8; 8; 8; 8;
   0; 1; 2; 3; 5; 8; 7; 1; 1; 1; 4; 6; 1; 1; 1; 1; 1; 1; 1; 1; 1; 1; 1; 1; 1; 1; 1; 1; 1; 1; 1; 1;
   1; 0; 1; 1; 1; 1; 1; 0; 1; 0; 1; 1; 1; 1; 1; 1; 1; 2; 1; 1; 1; 1; 1; 2; 1; 2; 1; 1; 1; 1; 1; 1;
   1; 1; 1; 1; 1; 1; 1; 2; 1; 1; 1; 1; 1; 1; 1; 1; 1; 2; 1; 1; 1; 1; 1; 1; 1; 2; 1; 1; 1; 1; 1; 1;
   1; 1; 1; 1; 1; 1; 1; 3; 1; 3; 1; 1; 1; 1; 1; 1; 1; 3; 1; 1; 1; 1; 1; 3; 1; 3; 1; 1; 1; 1; 1; 1;
   1; 3; 1; 1; 1; 1; 1; 1; 1; 1; 1; 1; 1; 1; 1; 1].

(** The next state and the code point so far. *)
Definition decode (state codep byte : Z) : Z * Z :=
  let type := nth (Z.to_nat byte) utf8d 0 in
  let codep := if negb (state =? UTF8_ACCEPT) then Z.lor (Z.land byte 63) (u32 (Z.shiftl codep 6)) else Z.land (Z.shiftr 255 type) byte in
  (nth (Z.to_nat (256 + state * 16 + type)) utf8d 0, codep).

(** ** Strings *)

Definition hex_lower (n : Z) : Z := if n <? 10 then 48 + n else 87 + n.
Definition u16 (z : Z) : Z := z mod 2 ^ 16.

(** [\u%04x]. *)
Definition unicode_escape (x : Z) : list Z := [BACKSLASH; ch "u"; hex_lower (x / 4096); hex_lower (x / 256 mod 16); hex_lower (x / 16 mod 16); hex_lower (x mod 16)].

(** What is written for a code point that ends with this byte; its other bytes are written already,
    unless they are escaped. *)
Definition escape_codepoint (ensure_ascii : bool) (codepoint byte : Z) : list Z :=
  if codepoint =? 8 then [BACKSLASH; ch "b"]
  else if codepoint =? 9 then [BACKSLASH; ch "t"]
  else if codepoint =? 10 then [BACKSLASH; ch "n"]
  else if codepoint =? 12 then [BACKSLASH; ch "f"]
  else if codepoint =? 13 then [BACKSLASH; ch "r"]
  else if codepoint =? 34 then [BACKSLASH; QUOTE]
  else if codepoint =? 92 then [BACKSLASH; BACKSLASH]
  else if (codepoint <=? 31) || (ensure_ascii && (127 <=? codepoint)) then
    if codepoint <=? 65535 then unicode_escape (u16 codepoint)
    else unicode_escape (u16 (55232 + Z.shiftr codepoint 10)) ++ unicode_escape (u16 (56320 + Z.land codepoint 1023))
  else [byte].

(** [o]: what the output adapter has; [string_buffer]: the bytes in use. *)
Record Escaper := mkEscaper { o : list Z; string_buffer : list Z; bytes_after_last_accept : nat; undumped_chars : nat; e_state : Z; e_codepoint : Z }.

Definition Escaper_make (out : list Z) : Escaper := mkEscaper out [] 0 0 UTF8_ACCEPT 0.

(** The buffer of 512 bytes is written when less than 13 are left. *)
Definition flush (out buf : list Z) : list Z * list Z := if (512 - length buf <? 13)%nat then (out ++ buf, []) else (out, buf).

Definition hex_bytes (byte : Z) : string := string_of_bytes [hex_upper (byte / 16); hex_upper (byte mod 16)].
Definition type_error_316 (what_arg : string) : string := ("[json.exception.type_error.316] " ++ what_arg)%string.

Definition replacement (ensure_ascii : bool) : list Z := if ensure_ascii then [BACKSLASH; ch "u"; ch "f"; ch "f"; ch "f"; ch "d"] else [239; 191; 189].

Section Dump.
Context (error_handler : error_handler_t) (ensure_ascii : bool).

(** [rest]: the bytes from index [i] on.  After a broken sequence the byte is read again, so that a byte
    takes at most two turns. *)
Fixpoint dump_escaped_loop (fuel i : nat) (rest : list Z) (s : Escaper) : string + Escaper :=
  match fuel with
  | O => inr s
  | S fuel =>
      match rest with
      | [] => inr s
      | byte :: rest' =>
          let '(state, codepoint) := decode (e_state s) (e_codepoint s) byte in
          if state =? UTF8_ACCEPT then
            let '(out, buf) := flush (o s) (string_buffer s ++ escape_codepoint ensure_ascii codepoint byte) in
            dump_escaped_loop fuel (S i) rest' (mkEscaper out buf (length buf) 0 state codepoint)
          else if state =? UTF8_REJECT then
            match error_handler with
            | strict => inl (type_error_316 ("invalid UTF-8 byte at index " ++ pretty i ++ ": 0x" ++ hex_bytes byte))
            | _ =>
                let buf := take (bytes_after_last_accept s) (string_buffer s) in
                let '(out, buf, last_accept) :=
                  match error_handler with
                  | replace => let '(out, buf) := flush (o s) (buf ++ replacement ensure_ascii) in (out, buf, length buf)
                  | _ => (o s, buf, bytes_after_last_accept s)
                  end in
                let s' := mkEscaper out buf last_accept 0 UTF8_ACCEPT codepoint in
                if (0 <? undumped_chars s)%nat then dump_escaped_loop fuel i rest s' else dump_escaped_loop fuel (S i) rest' s'
            end
          else
            let buf := if ensure_ascii then string_buffer s else string_buffer s ++ [byte] in
            dump_escaped_loop fuel (S i) rest' (mkEscaper (o s) buf (bytes_after_last_accept s) (S (undumped_chars s)) state codepoint)
      end
  end.

Definition dump_escaped (out : list Z) (s : list Z) : string + list Z :=
  match dump_escaped_loop (2 * length s) 0 s (Escaper_make out) with
  | inl what => inl what
  | inr e =>
      if e_state e =? UTF8_ACCEPT then inr (o e ++ string_buffer e)
      else match error_handler with
           | strict => inl (type_error_316 ("incomplete UTF-8 string; last byte: 0x" ++ hex_bytes (List.last s 0)))
           | ignore => inr (o e ++ take (bytes_after_last_accept e) (string_buffer e))
           | replace => inr (o e ++ take (bytes_after_last_accept e) (string_buffer e) ++ replacement ensure_ascii)
           end
  end.

(** ** Values *)

(** [number_buffer]: what the 64 bytes of the buffer for numbers hold. *)
Context (indent_char : Z) (number_buffer : list Z).

Definition indent (n : nat) : list Z := replicate n indent_char.

Definition write (b : list Z) (out : list Z) : string + list Z := inr (out ++ b).

Definition bind {A B} (x : string + A) (f : A -> string + B) : string + B := match x with inl what => inl what | inr a => f a end.

(** The elements with what is written before each, between them, and after the last. *)
Fixpoint dump_elements {A} (before : list Z) (between : list Z) (dump : A -> list Z -> string + list Z) (l : list A) (out : list Z) : string + list Z :=
  match l with
  | [] => inr out
  | [x] => bind (write before out) (dump x)
  | x :: l => bind (bind (bind (write before out) (dump x)) (write between)) (dump_elements before between dump l)
  end.

Fixpoint dump_value (pretty_print : bool) (indent_step current_indent : nat) (val : json) (out : list Z) : string + list Z :=
  match val with
  | JObject m =>
      if decide (m = []) then write [123; 125] out
      else
        let dump_member (sep : list Z) (next : nat) (kv : string * json) out :=
          bind (bind (bind (write [QUOTE] out) (fun out => dump_escaped out (bytes_of_string (fst kv)))) (write (QUOTE :: sep)))
               (dump_value pretty_print indent_step next (snd kv)) in
        if pretty_print then
          let new_indent := (current_indent + indent_step)%nat in
          bind (bind (write [123; 10] out) (dump_elements (indent new_indent) [44; 10] (dump_member [58; 32] new_indent) m))
               (write (10 :: indent current_indent ++ [125]))
        else bind (bind (write [123] out) (dump_elements [] [44] (dump_member [58] current_indent) m)) (write [125])
  | JArray l =>
      if decide (l = []) then write [91; 93] out
      else if pretty_print then
        let new_indent := (current_indent + indent_step)%nat in
        bind (bind (write [91; 10] out) (dump_elements (indent new_indent) [44; 10] (dump_value pretty_print indent_step new_indent) l))
             (write (10 :: indent current_indent ++ [93]))
      else bind (bind (write [91] out) (dump_elements [] [44] (dump_value pretty_print indent_step current_indent) l)) (write [93])
  | JString s => bind (bind (write [QUOTE] out) (fun out => dump_escaped out (bytes_of_string s))) (write [QUOTE])
  | JBool b => write (bytes_of_string (if b then "true" else "false")) out
  | JInt z => write (dump_integer number_buffer z) out
  | JFloat x => write (dump_float x) out
  | JNull => write (bytes_of_string "null") out
  end.
End Dump.

(** [dump( indent )], with the defaults of the program: a negative indent is compact. *)
Definition dump (indent_ : Z) (j : json) : string + list Z :=
  dump_value strict false 32 (replicate 64 0) (0 <=? indent_) (Z.to_nat indent_) 0 j [].

(** The text, or the exception. *)
Definition dump_text (indent_ : Z) (j : json) : string + string :=
  match dump indent_ j with inl what => inl what | inr b => inr (string_of_bytes b) end.

Definition dump_sample : json :=
  JObject [("box"%string, JArray [JInt 1; JFloat (f64_lit 1 4); JInt (-20)]); ("name"%string, JString (string_of_bytes [65; 10; 34; 92; 7; 195; 169; 240; 159; 154; 151]));
           ("none"%string, JArray []); ("ok"%string, JBool true)].

Example dump_sample_text : dump_text (-1) dump_sample =
  inr (string_of_bytes ([123; 34; 98; 111; 120; 34; 58] ++ bytes_of_string "[1,0.25,-20]," ++ [34; 110; 97; 109; 101; 34; 58; 34; 65; 92; 110; 92; 34; 92; 92] ++ bytes_of_string "\u0007" ++ [195; 169; 240; 159; 154; 151; 34; 44]
                        ++ [34; 110; 111; 110; 101; 34; 58; 91; 93; 44; 34; 111; 107; 34; 58] ++ bytes_of_string "true}")).
Proof. vm_compute. reflexivity. Qed.

Example dump_broken : dump_text 2 (JArray [JString (string_of_bytes [65; 233; 66])]) = inl "[json.exception.type_error.316] invalid UTF-8 byte at index 2: 0x42"%string.
Proof. vm_compute. reflexivity. Qed.

(** ** The table *)

(** The state that waits for bytes of these ranges. *)
Definition state_of (pending : list (Z * Z)) : Z :=
  match pending with
  | [] => 0
  | [_] => 2
  | [(lo, hi); _] => if lo =? 160 then 4 else if hi =? 159 then 5 else 3
  | [(lo, hi); _; _] => if lo =? 144 then 6 else if hi =? 143 then 8 else 7
  | _ => 1
  end.

Definition tail := (128, 191).
Definition pendings : list (list (Z * Z)) :=
  [[tail]; [(160, 191); tail]; [(128, 159); tail]; [tail; tail]; [(144, 191); tail; tail]; [(128, 143); tail; tail]; [tail; tail; tail]].

Lemma utf8_ranges_pendings c rs : utf8_ranges c = Some rs -> rs = [] \/ In rs pendings.
Proof.
  unfold utf8_ranges. repeat (match goal with |- (if ?b then _ else _) = _ -> _ => destruct b; [intros [= <-]; first [by left | right; cbn; tauto] |] end). done.
Qed.

Lemma pendings_tail r rs : In (r :: rs) pendings -> rs = [] \/ In rs pendings.
Proof. intros H. cbn in H. repeat (destruct H as [H | H]; [injection H as <- <-; first [by left | right; cbn; tauto] |]). done. Qed.

(** The step of the table from the first state, and from a state that waits. *)
Lemma decode_first cp b : 0 <= b < 256 -> fst (decode 0 cp b) = match utf8_ranges b with Some rs => state_of rs | None => 1 end.
Proof.
  intros H. apply Z.eqb_eq. by apply (below_forallb (fun b => fst (decode 0 cp b) =? match utf8_ranges b with Some rs => state_of rs | None => 1 end) 256).
Qed.

Lemma decode_next cp lo hi rs b : In ((lo, hi) :: rs) pendings -> 0 <= b < 256 -> fst (decode (state_of ((lo, hi) :: rs)) cp b) = if between lo hi b then state_of rs else 1.
Proof.
  intros Hin H. apply Z.eqb_eq.
  assert (forallb (fun ps => match ps with [] => true | (lo, hi) :: rs => forallb (fun i => let b := Z.of_nat i in fst (decode (state_of ps) cp b) =? (if between lo hi b then state_of rs else 1)) (seq 0 256) end) pendings = true) as Hall by reflexivity.
  rewrite forallb_forall in Hall. specialize (Hall _ Hin). cbv beta iota in Hall. by apply (below_forallb (fun b => fst (decode (state_of ((lo, hi) :: rs)) cp b) =? (if between lo hi b then state_of rs else 1)) 256).
Qed.

(** ** Code points *)

Lemma lor_sixty_four x c : 0 <= x < 64 -> 0 <= c -> Z.lor x (c * 64) = c * 64 + x.
Proof.
  intros Hx Hc. assert (Z.land x (c * 64) = 0) as Hl.
  { apply Z.bits_inj'. intros n Hn. rewrite Z.land_spec, Z.bits_0. change 64 with (2 ^ 6). destruct (Z.lt_ge_cases n 6) as [H6 | H6].
    - rewrite Z.mul_pow2_bits_low by lia. apply andb_false_r.
    - destruct (Z.eq_dec x 0) as [-> | Hx0]; [by rewrite Z.bits_0 |]. rewrite (Z.bits_above_log2 x n); [done | lia |]. apply Z.log2_lt_pow2; [lia |]. pose proof (Z.pow_le_mono_r 2 6 n ltac:(lia) H6). change (2 ^ 6) with 64 in *. lia. }
  pose proof (Z.add_lor_land x (c * 64)) as H. lia.
Qed.

(** What is known of a code point that waits for bytes. *)
Definition cp_known (pending : list (Z * Z)) (cp : Z) : bool :=
  match pending with
  | [] => true
  | [_] => between 2 32767 cp
  | [(lo, _); _] => between 1 511 cp || ((cp =? 0) && (lo =? 160))
  | [(lo, _); _; _] => between 1 7 cp || ((cp =? 0) && (lo =? 144))
  | _ => false
  end.

Lemma first_codepoint cp0 b rs : 0 <= b < 256 -> utf8_ranges b = Some rs -> let cp := snd (decode 0 cp0 b) in if decide (rs = []) then cp = b /\ 0 <= b < 128 else cp_known rs cp = true /\ 128 <= b.
Proof.
  intros Hb Hr. cbn zeta.
  pose proof (below_forallb (fun b => match utf8_ranges b with
    | Some [] => (snd (decode 0 cp0 b) =? b) && (b <? 128) | Some rs => cp_known rs (snd (decode 0 cp0 b)) && (128 <=? b) | None => true end) 256 eq_refl b Hb) as H. cbn beta in H. rewrite Hr in H.
  destruct rs as [| r rs]; destruct (decide _); try done; apply andb_prop in H as [H1 H2]; [apply Z.eqb_eq in H1; lia | split; [done | lia]].
Qed.

Lemma next_codepoint cp lo hi rs b : In ((lo, hi) :: rs) pendings -> cp_known ((lo, hi) :: rs) cp = true -> between lo hi b = true ->
  let cp' := snd (decode (state_of ((lo, hi) :: rs)) cp b) in 128 <= b < 256 /\ if decide (rs = []) then 128 <= cp' else cp_known rs cp' = true.
Proof.
  intros Hin Hk Hb. cbn zeta. apply between_true in Hb. unfold decode. cbn [snd].
  assert (128 <= lo /\ hi < 192 /\ (state_of ((lo, hi) :: rs) =? UTF8_ACCEPT) = false) as (Hlo & Hhi & ->) by (cbn in Hin; repeat (destruct Hin as [Hin | Hin]; [injection Hin as <- <- <-; split_and!; [lia | lia | done] |]); done). cbn [negb].
  assert (0 <= cp < 2 ^ 20) as Hcp.
  { cbn in Hin. repeat (destruct Hin as [Hin | Hin]; [injection Hin as <- <- <-; cbn in Hk; rewrite ?orb_true_iff, ?andb_true_iff, ?between_true, ?Z.eqb_eq in Hk; lia |]). done. }
  split; [lia |]. assert (Z.lor (Z.land b 63) (u32 (Z.shiftl cp 6)) = cp * 64 + b mod 64) as ->.
  { rewrite Z.shiftl_mul_pow2 by lia. change (2 ^ 6) with 64. rewrite u32_id by (unfold in_u32; lia). pose proof (Z.land_ones b 6 ltac:(lia)) as H6. change (Z.land b (Z.ones 6)) with (Z.land b 63) in H6. rewrite H6. change (2 ^ 6) with 64.
    apply lor_sixty_four; [apply Z.mod_pos_bound |]; lia. }
  assert (b mod 64 = b - 128) as -> by (Z.to_euclidean_division_equations; lia).
  cbn in Hin. repeat (destruct Hin as [Hin | Hin]; [injection Hin as <- <- <-; destruct (decide _) as [Hd |]; try done; cbn in Hk |- *; rewrite ?orb_true_iff, ?andb_true_iff, ?between_true, ?Z.eqb_eq in *; lia |]). done.
Qed.

(** ** Strings *)

(** The text of a byte of a string that is UTF-8. *)
Definition escape_byte (c : Z) : list Z := if c <? 128 then escape_codepoint false c c else [c].
Definition escaped (s : list Z) : list Z := flat_map escape_byte s.

Lemma escape_large cp b : 128 <= cp -> escape_codepoint false cp b = [b].
Proof.
  intros H. unfold escape_codepoint. repeat (rewrite (proj2 (Z.eqb_neq cp _)) by lia). rewrite (proj2 (Z.leb_gt cp 31)) by lia. done.
Qed.

Lemma flush_content out buf : fst (flush out buf) ++ snd (flush out buf) = out ++ buf.
Proof. unfold flush. destruct (_ <? 13)%nat; cbn; [by rewrite app_nil_r | done]. Qed.

Definition written (e : Escaper) : list Z := o e ++ string_buffer e.

Lemma dump_loop_strict rest : forall pending fuel i s, Forall byte rest -> (length rest <= fuel)%nat -> e_state s = state_of pending -> pending = [] \/ In pending pendings -> cp_known pending (e_codepoint s) = true ->
  match dump_escaped_loop strict false fuel i rest s with
  | inl _ => utf8_from pending rest = false
  | inr e => (e_state e =? UTF8_ACCEPT) = utf8_from pending rest /\ (utf8_from pending rest = true -> written e = written s ++ escaped rest)
  end.
Proof.
  induction rest as [| b rest IH]; intros pending fuel i s Hb Hf Hs Hp Hk.
  - assert (match dump_escaped_loop strict false fuel i [] s with inl _ => False | inr e => e = s end) as H by by destruct fuel. destruct (dump_escaped_loop _ _ _ _ _ _) as [w | e]; [done | subst e].
    rewrite Hs. split; [| intros _; by rewrite app_nil_r]. destruct Hp as [-> | Hp]; [done |]. cbn in Hp. repeat (destruct Hp as [<- | Hp]; [done |]). done.
  - destruct fuel as [| fuel]; [cbn in Hf; lia |]. apply Forall_cons in Hb as [Hb0 Hb]. cbn [length] in Hf. cbn [dump_escaped_loop].
    assert (forall out buf la un pending' cp, out ++ buf = written s ++ escape_byte b -> utf8_from pending (b :: rest) = utf8_from pending' rest -> pending' = [] \/ In pending' pendings -> cp_known pending' cp = true ->
      match dump_escaped_loop strict false fuel (S i) rest (mkEscaper out buf la un (state_of pending') cp) with
      | inl _ => utf8_from pending (b :: rest) = false
      | inr e => (e_state e =? UTF8_ACCEPT) = utf8_from pending (b :: rest) /\ (utf8_from pending (b :: rest) = true -> written e = written s ++ escaped (b :: rest))
      end) as Hstep.
    { intros out buf la un pending' cp Ho Hu Hp' Hk'. specialize (IH pending' fuel (S i) (mkEscaper out buf la un (state_of pending') cp) Hb ltac:(lia) eq_refl Hp' Hk'). rewrite Hu.
      destruct (dump_escaped_loop _ _ _ _ _ _) as [w | e]; [done |]. destruct IH as [I1 I2]. split; [done |]. intros Ht. rewrite (I2 Ht). change (written (mkEscaper out buf la un (state_of pending') cp)) with (out ++ buf). rewrite Ho. by rewrite <- app_assoc. }
    destruct pending as [| [lo hi] rs].
    + pose proof (decode_first (e_codepoint s) b Hb0) as Hd. rewrite Hs. change (state_of []) with 0. destruct (decode 0 (e_codepoint s) b) as [st cp] eqn:Ed. cbn [fst] in Hd. cbn [utf8_from] in *.
      destruct (utf8_ranges b) as [rs |] eqn:Er; [| by rewrite Hd]. pose proof (first_codepoint (e_codepoint s) b rs Hb0 Er) as Hc. rewrite Ed in Hc. cbn [snd] in Hc.
      destruct (utf8_ranges_pendings b rs Er) as [-> | Hin]; [destruct Hc as [-> Hlt] |].
      * rewrite Hd. cbn [Z.eqb]. pose proof (flush_content (o s) (string_buffer s ++ escape_codepoint false b b)) as Hfl. destruct (flush _ _) as [out buf]. cbn [fst snd] in Hfl. cbn [state_of UTF8_ACCEPT Z.eqb].
        apply (Hstep out buf _ _ []); [| done | by left | done]. rewrite Hfl. unfold written, escape_byte. rewrite (proj2 (Z.ltb_lt b 128)) by lia. by rewrite app_assoc.
      * destruct (decide (rs = [])) as [-> |]; [by cbn in Hin; repeat (destruct Hin as [Hin | Hin]; [done |]) |]. destruct Hc as [Hc Hge].
        assert ((st =? UTF8_ACCEPT) = false /\ (st =? UTF8_REJECT) = false) as [-> ->] by (rewrite Hd; cbn in Hin; repeat (destruct Hin as [<- | Hin]; [done |]); done). rewrite Hd.
        apply Hstep; [| done | by right | done]. unfold written, escape_byte. rewrite (proj2 (Z.ltb_ge b 128)) by lia. by rewrite app_assoc.
    + destruct Hp as [? | Hin]; [done |]. pose proof (decode_next (e_codepoint s) lo hi rs b Hin Hb0) as Hd. rewrite Hs. destruct (decode (state_of ((lo, hi) :: rs)) (e_codepoint s) b) as [st cp] eqn:Ed. cbn [fst] in Hd.
      cbn [utf8_from] in *. destruct (between lo hi b) eqn:Eb; [| by rewrite Hd]. cbn [andb] in *.
      pose proof (next_codepoint (e_codepoint s) lo hi rs b Hin Hk Eb) as Hc. rewrite Ed in Hc. cbn [snd] in Hc. destruct Hc as [Hge Hc]. assert (escape_byte b = [b]) as He by (unfold escape_byte; by rewrite (proj2 (Z.ltb_ge b 128)) by lia).
      destruct (pendings_tail _ _ Hin) as [-> | Hin'].
      * rewrite Hd. cbn [state_of]. change (0 =? UTF8_ACCEPT) with true. cbn [decide] in Hc. cbn iota. rewrite escape_large by (destruct (decide _) in Hc; [exact Hc | done]).
        pose proof (flush_content (o s) (string_buffer s ++ [b])) as Hfl. destruct (flush _ _) as [out buf]. cbn [fst snd] in Hfl.
        apply (Hstep out buf _ _ []); [| done | by left | done]. rewrite Hfl, He. unfold written. by rewrite app_assoc.
      * destruct (decide (rs = [])) as [-> |]; [by cbn in Hin'; repeat (destruct Hin' as [Hin' | Hin']; [done |]) |].
        assert ((st =? UTF8_ACCEPT) = false /\ (st =? UTF8_REJECT) = false) as [-> ->] by (rewrite Hd; cbn in Hin'; repeat (destruct Hin' as [<- | Hin']; [done |]); done). rewrite Hd.
        apply Hstep; [| done | by right | done]. rewrite He. unfold written. by rewrite app_assoc.
Qed.

(** A string is written if it is UTF-8, as [escaped] says; any other is refused. *)
Lemma dump_escaped_utf8 out s : Forall byte s -> (utf8b s = true -> dump_escaped strict false out s = inr (out ++ escaped s)) /\ (utf8b s = false -> exists what, dump_escaped strict false out s = inl what).
Proof.
  intros Hb. unfold dump_escaped. pose proof (dump_loop_strict s [] (2 * length s) 0 (Escaper_make out) Hb ltac:(lia) eq_refl (or_introl eq_refl) eq_refl) as H.
  destruct (dump_escaped_loop _ _ _ _ _ _) as [w | e]; unfold utf8b; [split; [by rewrite H | by eexists] |]. destruct H as [H1 H2]. rewrite H1. split; intros Hu; rewrite Hu; [| by eexists].
  f_equal. specialize (H2 Hu). unfold written in H2. cbn [o string_buffer Escaper_make] in H2. by rewrite app_nil_r in H2.
Qed.

(** ** Integers *)

(** The decimal text of a number that is not negative. *)
Definition dec (n : Z) : list Z := bytes_of_string (pretty (Z.to_N n)).

Lemma bytes_of_string_app a b : bytes_of_string (a ++ b) = bytes_of_string a ++ bytes_of_string b.
Proof. unfold bytes_of_string. rewrite <- map_app. f_equal. induction a as [| c a IH]; [done | exact (f_equal (cons c) IH)]. Qed.

Lemma pretty_N_go_app x s : bytes_of_string (pretty_N_go x s) = bytes_of_string (pretty_N_go x "") ++ bytes_of_string s.
Proof.
  revert s. induction (N.lt_wf_0 x) as [x _ IH]; intros s. destruct (decide (x = 0)%N) as [-> | Hx]; [by rewrite !pretty_N_go_0 |].
  assert (x / 10 < x)%N as Hd by (apply N.div_lt; lia). rewrite !(pretty_N_go_step x) by lia. rewrite (IH _ Hd (String _ s)), (IH _ Hd (String _ "")), <- app_assoc. done.
Qed.

Lemma digit_char_byte d : (d < 10)%N -> Z.of_nat (nat_of_ascii (pretty_N_char d)) = 48 + Z.of_N d.
Proof. intros H. destruct d as [| p]; [done |]. repeat (destruct p as [p | p |]; try done). Qed.

Lemma dec_small n : 0 <= n < 10 -> dec n = [48 + n].
Proof.
  intros H. pose proof (below_forallb (fun n => bool_decide (dec n = [48 + n])) 10 eq_refl n H) as Hb. by apply bool_decide_eq_true in Hb.
Qed.

Lemma dec_step n : 10 <= n -> dec n = dec (n / 10) ++ [48 + n mod 10].
Proof.
  intros H. unfold dec, pretty, pretty_N. pose proof (Z.div_le_mono 10 n 10 ltac:(lia) H) as Hd. change (10 / 10) with 1 in Hd.
  assert (Z.to_N n <> 0%N) as H1 by lia. assert (Z.to_N (n / 10) <> 0%N) as H2 by lia.
  rewrite !decide_False by done. rewrite pretty_N_go_step by lia. rewrite pretty_N_go_app. assert (Z.to_N (n / 10) = Z.to_N n / 10)%N as -> by (rewrite Z2N.inj_div by lia; done). f_equal.
  unfold bytes_of_string. cbn [list_ascii_of_string map]. rewrite digit_char_byte by (apply N.mod_lt; lia). rewrite N2Z.inj_mod, Z2N.id by lia. done.
Qed.

Lemma dec_ind (P : Z -> Prop) : (forall n, 0 <= n < 10 -> P n) -> (forall n, 10 <= n -> P (n / 10) -> P n) -> forall n, 0 <= n -> P n.
Proof.
  intros H1 H2 n Hn. induction (Z.lt_wf 0 n) as [n _ IH]. destruct (Z.lt_ge_cases n 10); [by apply H1 |]. apply H2; [done |]. apply IH; [split; [apply Z.div_pos; lia | apply Z.div_lt; lia] | apply Z.div_pos; lia].
Qed.

Lemma digit_byte d : 0 <= d < 10 -> is_digit_byte (48 + d) = true.
Proof. intros H. apply between_true. lia. Qed.

Lemma dec_digits n : 0 <= n -> digits (dec n).
Proof.
  intros Hn. pattern n. apply dec_ind; [clear n Hn; intros n H | clear n Hn; intros n H IH | done]; [rewrite dec_small by done; repeat constructor; by apply digit_byte |]. rewrite dec_step by done. apply Forall_app. split; [done |].
  repeat constructor. apply digit_byte, Z.mod_pos_bound. lia.
Qed.

Lemma dec_value n : 0 <= n -> digits_value (dec n) = n.
Proof.
  intros Hn. pattern n. apply dec_ind; [clear n Hn; intros n H | clear n Hn; intros n H IH | done]; [rewrite dec_small by done; cbn; lia |]. rewrite dec_step, digits_value_app, IH by done. cbn. pose proof (Z.div_mod n 10 ltac:(lia)). lia.
Qed.

(** No leading zero. *)
Lemma dec_first n : 1 <= n -> exists c s, dec n = c :: s /\ 49 <= c <= 57.
Proof.
  intros Hn. assert (0 <= n) as H0 by lia. revert Hn. pattern n. apply dec_ind; [clear n H0; intros n H Hn | clear n H0; intros n H IH Hn | done]; [exists (48 + n), []; rewrite dec_small by done; split; [done | lia] |].
  rewrite dec_step by done. destruct IH as (c & s & -> & Hc); [pose proof (Z.div_le_mono 10 n 10 ltac:(lia) H); change (10 / 10) with 1 in *; lia |]. by exists c, (s ++ [48 + n mod 10]).
Qed.

Lemma dec_length_pos n : 0 <= n -> (1 <= length (dec n))%nat.
Proof. intros Hn. destruct (Z.lt_ge_cases n 10); [rewrite dec_small by lia; cbn; lia |]. rewrite dec_step, length_app by done. cbn. lia. Qed.

Lemma dec_two_digits n : 100 <= n -> dec n = dec (n / 100) ++ [48 + n mod 100 / 10; 48 + n mod 100 mod 10].
Proof.
  intros H. rewrite (dec_step n), (dec_step (n / 10)) by (Z.to_euclidean_division_equations; lia). rewrite <- app_assoc, Z.div_div by lia. change (10 * 10) with 100. cbn [app]. f_equal. f_equal; [| f_equal]; Z.to_euclidean_division_equations; lia.
Qed.

Lemma dec_length_step n : 10 <= n -> length (dec n) = S (length (dec (n / 10))).
Proof. intros H. rewrite dec_step, length_app by done. cbn. lia. Qed.

Lemma count_digits_spec fuel x n : 0 <= x < 10000 ^ Z.of_nat fuel -> count_digits fuel x n = n - 1 + Z.of_nat (length (dec x)).
Proof.
  revert x n. induction fuel as [| fuel IH]; intros x n Hx; cbn [count_digits].
  - assert (x = 0) as -> by (cbn in Hx; lia). rewrite dec_small by lia. cbn [length]. lia.
  - destruct (Z.ltb_spec x 10); [rewrite dec_small by lia; cbn [length]; lia |]. rewrite dec_length_step by done.
    destruct (Z.ltb_spec x 100); [rewrite dec_small by (Z.to_euclidean_division_equations; lia); cbn [length]; lia |]. rewrite dec_length_step by (Z.to_euclidean_division_equations; lia). rewrite Z.div_div by lia. change (10 * 10) with 100.
    destruct (Z.ltb_spec x 1000); [rewrite dec_small by (Z.to_euclidean_division_equations; lia); cbn [length]; lia |]. rewrite dec_length_step by (Z.to_euclidean_division_equations; lia). rewrite Z.div_div by lia. change (100 * 10) with 1000.
    destruct (Z.ltb_spec x 10000); [rewrite dec_small by (Z.to_euclidean_division_equations; lia); cbn [length]; lia |]. rewrite dec_length_step by (Z.to_euclidean_division_equations; lia). rewrite Z.div_div by lia. change (1000 * 10) with 10000.
    rewrite IH; [lia |]. rewrite Nat2Z.inj_succ, Z.pow_succ_r in Hx by lia. split; [apply Z.div_pos; lia | apply Z.div_lt_upper_bound; lia].
Qed.

(** The buffer after the digits are written from [p] backwards. *)
Lemma insert_pair p d0 d1 (buf : list Z) : (2 <= p <= length buf)%nat -> <[(p - 2)%nat := d0]> (<[(p - 1)%nat := d1]> buf) = take (p - 2) buf ++ [d0; d1] ++ drop p buf.
Proof.
  intros H. destruct p as [| [| p]]; [lia | lia |]. cbn [Nat.sub]. rewrite Nat.sub_0_r. revert buf H. induction p as [| p IH]; intros buf H.
  - destruct buf as [| x [| y buf]]; cbn in H; [lia | lia | done].
  - destruct buf as [| x buf]; cbn in H; [lia |]. exact (f_equal (cons x) (IH buf ltac:(lia))).
Qed.

Lemma insert_one p d (buf : list Z) : (1 <= p <= length buf)%nat -> <[(p - 1)%nat := d]> buf = take (p - 1) buf ++ [d] ++ drop p buf.
Proof.
  intros H. destruct p as [| p]; [lia |]. cbn [Nat.sub]. rewrite Nat.sub_0_r. revert buf H. induction p as [| p IH]; intros [| x buf] H; cbn in H; [lia | done | lia |].
  exact (f_equal (cons x) (IH buf ltac:(lia))).
Qed.

Lemma write_pairs_spec fuel a p buf : 0 <= a < 100 ^ Z.of_nat (S fuel) -> (length (dec a) <= p <= length buf)%nat ->
  let '(a', p', buf') := write_pairs fuel a p buf in
  0 <= a' < 100 /\ exists D, dec a = dec a' ++ D /\ p = (p' + length D)%nat /\ buf' = take p' buf ++ D ++ drop p buf.
Proof.
  revert a p buf. induction fuel as [| fuel IH]; intros a p buf Ha Hp; cbn [write_pairs].
  - split; [cbn in Ha; lia |]. exists []. rewrite app_nil_r. cbn. split_and!; [done | lia | by rewrite take_drop].
  - destruct (Z.leb_spec 100 a).
    + unfold digits_to_99. rewrite dec_two_digits, length_app in Hp by done. cbn [length] in Hp. assert (0 <= a / 100) as Hq by (apply Z.div_pos; lia). pose proof (dec_length_pos (a / 100) Hq) as Hl.
      rewrite insert_pair by lia. set (buf1 := take (p - 2) buf ++ _). assert (length buf1 = length buf) as Hl1 by (unfold buf1; rewrite !length_app, length_take, length_drop; cbn; lia).
      specialize (IH (a / 100) (p - 2)%nat buf1). destruct (write_pairs fuel (a / 100) (p - 2) buf1) as [[a' p'] buf'].
      destruct IH as (H1 & D & H2 & H3 & H4); [rewrite Nat2Z.inj_succ, Z.pow_succ_r in Ha by lia; split; [done | apply Z.div_lt_upper_bound; lia] | lia |].
      split; [done |]. exists (D ++ [48 + a mod 100 / 10; 48 + a mod 100 mod 10]). split_and!; [by rewrite dec_two_digits, H2, <- app_assoc | rewrite length_app; cbn; lia |].
      rewrite H4. unfold buf1. rewrite take_app_le by (rewrite length_take; lia). rewrite take_take, Nat.min_l by lia. rewrite (drop_app_length' (take (p - 2) buf)) by (rewrite length_take; lia). by rewrite <- app_assoc.
    + split; [lia |]. exists []. rewrite app_nil_r. cbn. split_and!; [done | lia | by rewrite take_drop].
Qed.

Lemma dec_length_bound n k : 0 <= n < 10 ^ Z.of_nat k -> (0 < k)%nat -> (length (dec n) <= k)%nat.
Proof.
  revert n. induction k as [| k IH]; intros n Hn Hk; [lia |]. destruct (Z.lt_ge_cases n 10); [rewrite dec_small by lia; cbn; lia |]. rewrite dec_length_step by done.
  rewrite Nat2Z.inj_succ, Z.pow_succ_r in Hn by lia. destruct k as [| k]; [cbn in Hn; lia |].
  assert (length (dec (n / 10)) <= S k)%nat; [| lia]. apply IH; [split; [apply Z.div_pos; lia | apply Z.div_lt_upper_bound; lia] | lia].
Qed.

(** The digits of the fast algorithm are the decimal ones, whatever the buffer held before. *)
Lemma dump_integer_decimal buf x : length buf = 64%nat -> - 2 ^ 63 <= x < 2 ^ 64 -> dump_integer buf x = if x <? 0 then 45 :: dec (- x) else dec x.
Proof.
  intros Hb Hx. unfold dump_integer. destruct (Z.eqb_spec x 0) as [-> | Hx0]; [done |].
  assert ((if x <? 0 then remove_sign x else x) = Z.abs x) as ->.
  { destruct (Z.ltb_spec x 0); [| lia]. unfold remove_sign, wrap_u. rewrite Z.mod_small by lia. lia. }
  assert (0 < Z.abs x < 2 ^ 64) as Ha by lia. rewrite count_digits_spec by (change (10000 ^ Z.of_nat 20) with (10 ^ 80); lia).
  assert ((if x <? 0 then 45 :: dec (- x) else dec x) = (if x <? 0 then [45] else []) ++ dec (Z.abs x)) as -> by (destruct (Z.ltb_spec x 0); cbn [app]; do 2 f_equal; lia).
  set (a := Z.abs x) in *. set (sgn := if x <? 0 then 1%nat else 0%nat). assert (sgn <= 1)%nat as Hsgn by (unfold sgn; destruct (x <? 0); lia).
  assert ((if x <? 0 then 1 else 0) + (1 - 1 + Z.of_nat (length (dec a))) = Z.of_nat (sgn + length (dec a))) as -> by (unfold sgn; destruct (x <? 0); lia). rewrite Nat2Z.id.
  pose proof (dec_length_bound a 20 ltac:(change (10 ^ Z.of_nat 20) with (10 ^ 20); lia) ltac:(lia)) as Hl. pose proof (dec_length_pos a ltac:(lia)) as Hl1.
  set (buf1 := if x <? 0 then <[0%nat := 45]> buf else buf). assert (length buf1 = 64%nat) as Hb1 by (unfold buf1; destruct (x <? 0); rewrite ?length_insert; done).
  assert (take sgn buf1 = if x <? 0 then [45] else []) as Hs by (unfold buf1, sgn; destruct (x <? 0); [by destruct buf | done]).
  pose proof (write_pairs_spec 20 a (sgn + length (dec a)) buf1 ltac:(change (100 ^ Z.of_nat 21) with (10 ^ 42); lia) ltac:(unfold sgn; destruct (x <? 0); lia)) as Hw.
  destruct (write_pairs 20 a _ buf1) as [[a' p'] buf']. destruct Hw as (Ha' & D & HD & Hp & ->). pose proof (f_equal length HD) as Hla. rewrite length_app in Hla.
  assert (length (take p' buf1 ++ D ++ drop (sgn + length (dec a)) buf1) = 64%nat) as Hlen by (rewrite !length_app, length_take, length_drop; unfold sgn in *; destruct (x <? 0); lia).
  assert (length (dec a') <= 2)%nat as Hl2 by (apply dec_length_bound; cbn; lia). pose proof (dec_length_pos a' ltac:(lia)) as Hl3.
  assert (forall d, dec a' = d -> take (sgn + length (dec a)) (take (p' - length d) (take p' buf1 ++ D ++ drop (sgn + length (dec a)) buf1) ++ d ++ drop p' (take p' buf1 ++ D ++ drop (sgn + length (dec a)) buf1)) = (if x <? 0 then [45] else []) ++ dec a) as Hfin.
  { intros d <-. assert (p' - length (dec a') = sgn)%nat as -> by lia. rewrite (take_app_le (take p' buf1)) by (rewrite length_take; lia). rewrite take_take, Nat.min_l by lia. rewrite Hs.
    rewrite (drop_app_length' (take p' buf1)) by (rewrite length_take; lia). rewrite (app_assoc (dec a')), <- HD, app_assoc.
    apply take_app_length'. rewrite length_app. unfold sgn. by destruct (x <? 0). }
  unfold digits_to_99. destruct (Z.leb_spec 10 a').
  - rewrite insert_pair by (rewrite Hlen; rewrite (dec_step a'), (dec_small (a' / 10)) in Hl3, Hl2, Hla by (Z.to_euclidean_division_equations; lia); cbn in *; unfold sgn in *; destruct (x <? 0); lia).
    apply (Hfin [48 + a' / 10; 48 + a' mod 10]). rewrite dec_step, dec_small by (Z.to_euclidean_division_equations; lia). done.
  - rewrite insert_one by (rewrite Hlen; rewrite (dec_small a') in Hl3, Hl2, Hla by lia; cbn in *; unfold sgn in *; destruct (x <? 0); lia).
    apply (Hfin [48 + a']). apply dec_small; lia.
Qed.
