(* ===== verification/JsonText.v ===== *)
(** * Printing and reading JSON

    What the serializer prints of a value is read as the same value, compact or indented,
    whatever follows: the round trip of every message that the program sends as text and of
    every file and answer that it reads. *)

From Stdlib Require Import SpecFloat Ascii String.
From stdpp Require Import list pretty.
From S2P Require Import Prelude Float32 FloatBounds Json JsonLexer JsonParser Grisu FloatText JsonDump.
Open Scope Z_scope.
Open Scope list_scope.

(** ** Reading known text *)

(** The lexer is about to read [s]. *)
Definition feeds (l : lexer) (s : list Z) : Prop := lexer_ok l /\ unread l = s.

(** A fetched lexer, about to read [s], with these bytes of the token. *)
Record moved (l l' : lexer) (s b : list Z) : Prop := {
  moved_fetched : fetched l';
  moved_unread : unread l' = s;
  moved_buffer : token_buffer l' = b;
  moved_total : (chars_read_total l <= chars_read_total l')%nat
}.

Lemma moved_feeds l l' s b : moved l l' s b -> feeds l' s.
Proof. intros [H1 H2 _ _]. split; [by apply fetched_ok | done]. Qed.

Lemma moved_trans l1 l2 l3 s2 b2 s3 b3 : moved l1 l2 s2 b2 -> moved l2 l3 s3 b3 -> moved l1 l3 s3 b3.
Proof. intros [_ _ _ H] [H1 H2 H3 H4]. split; [done | done | done | lia]. Qed.

Lemma moved_add l l' s b c : moved l l' s b -> moved l (add c l') s (b ++ [c]).
Proof. intros [H1 H2 H3 H4]. split; [done | done | cbn; by rewrite H3 | done]. Qed.

Lemma moved_refl l s : fetched l -> feeds l s -> moved l l s (token_buffer l).
Proof. by intros H1 [_ H2]. Qed.

Lemma get_spec l c s : feeds l (c :: s) -> current (get l) = c /\ moved l (get l) s (token_buffer l) /\ chars_read_total (get l) = S (chars_read_total l).
Proof.
  intros [Hl Hu]. destruct (get_unread l Hl) as [H1 H2]. rewrite Hu in H1. destruct (Z.eqb_spec (current (get l)) eof) as [He | He]; [by rewrite (H2 He) in H1 |].
  injection H1 as Hc Hs. assert (chars_read_total (get l) = S (chars_read_total l)) as Ht by (unfold get; by destruct (next_unget l), (ia l)).
  split_and!; [done | | done]. split; [by apply get_fetched | done | apply get_buffer | lia].
Qed.

Lemma feeds_not_eof l c s : feeds l (c :: s) -> c <> eof.
Proof.
  intros Hf He. destruct (get_spec l c s Hf) as (H1 & _). destruct Hf as [Hl Hu]. destruct (get_unread l Hl) as [Hg1 Hg2]. subst c. rewrite H1, (Hg2 H1), Hu in Hg1. done.
Qed.

Lemma get_end l : feeds l [] -> current (get l) = eof.
Proof. intros [Hl Hu]. destruct (get_unread l Hl) as [H1 _]. rewrite Hu in H1. destruct (Z.eqb_spec (current (get l)) eof); [done | by destruct (unread (get l))]. Qed.

(** ** Strings *)

Lemma hex_digit_lower n : 0 <= n < 16 -> hex_digit (hex_lower n) = Some n.
Proof.
  intros H. pose proof (below_forallb (fun n => match hex_digit (hex_lower n) with Some d => d =? n | None => false end) 16 eq_refl n H) as Hb. cbn beta in Hb. destruct (hex_digit (hex_lower n)) as [d |]; [| done]. f_equal. by apply Z.eqb_eq.
Qed.

Lemma get_codepoint_from_spec fs ds cp l s : length ds = length fs -> Forall (fun d => 0 <= d < 16) ds -> fetched l -> feeds l (map hex_lower ds ++ s) ->
  exists l', get_codepoint_from fs cp l = (cp + foldr Z.add 0 (zip_with Z.shiftl ds fs), l') /\ moved l l' s (token_buffer l).
Proof.
  revert ds cp l. induction fs as [| f fs IH]; intros [| d ds] cp l Hn Hd Hf Hl; try done; cbn [get_codepoint_from].
  - exists l. cbn. rewrite Z.add_0_r. split; [done | by apply moved_refl].
  - apply Forall_cons in Hd as [Hd0 Hd]. cbn [map app] in Hl. destruct (get_spec l _ _ Hl) as (H1 & H2 & _). rewrite H1, hex_digit_lower by done.
    destruct (IH ds (cp + Z.shiftl d f) (get l)) as (l' & H3 & H4); [by injection Hn | done | apply H2 | by eapply moved_feeds |]. exists l'. split; [rewrite H3; f_equal; cbn; lia |].
    rewrite get_buffer in H4. by eapply moved_trans.
Qed.

Lemma get_codepoint_spec a b c d l s : 0 <= a < 16 -> 0 <= b < 16 -> 0 <= c < 16 -> 0 <= d < 16 -> fetched l -> feeds l (hex_lower a :: hex_lower b :: hex_lower c :: hex_lower d :: s) ->
  exists l', get_codepoint l = (4096 * a + 256 * b + 16 * c + d, l') /\ moved l l' s (token_buffer l).
Proof.
  intros Ha Hb Hc Hd Hf Hl. destruct (get_codepoint_from_spec [12; 8; 4; 0] [a; b; c; d] 0 l s eq_refl) as (l' & H1 & H2); [by repeat (apply Forall_cons_2; [done |]) | done | done |].
  exists l'. split; [| done]. unfold get_codepoint. rewrite H1. f_equal. cbn [zip_with foldr]. rewrite !Z.shiftl_mul_pow2 by lia. lia.
Qed.

Lemma next_bytes_spec rs bs l s : Forall2 in_range rs bs -> fetched l -> feeds l (bs ++ s) ->
  exists l', next_byte_in_range_from rs l = (true, l') /\ moved l l' s (token_buffer l ++ bs).
Proof.
  intros Hr. revert l. induction Hr as [| [lo hi] b rs bs Hb _ IH]; intros l Hf Hl; cbn [next_byte_in_range_from].
  - exists l. rewrite app_nil_r. split; [done | by apply moved_refl].
  - destruct (get_spec l _ _ Hl) as (H1 & H2 & _). rewrite H1. unfold in_range in Hb. cbn in Hb. rewrite Hb. apply (moved_add _ _ _ _ b) in H2.
    destruct (IH (add b (get l))) as (l' & H3 & H4); [apply H2 | by eapply moved_feeds |]. exists l'. split; [done |]. change (token_buffer (add b (get l))) with (token_buffer (get l) ++ [b]) in H4.
    rewrite get_buffer, <- app_assoc in H4. by eapply moved_trans.
Qed.

(** One code point of the text of a string. *)
Definition part_of (l : lexer) (q s : list Z) (r : bool * lexer) : Prop := exists l', r = (true, l') /\ moved l l' s (token_buffer l ++ q).

(** The ways in which a code point is written. *)
Inductive escape_form : list Z -> list Z -> Prop :=
| form_plain c bs rs : utf8_ranges c = Some rs -> Forall2 in_range rs bs -> 32 <= c -> c <> QUOTE -> c <> BACKSLASH -> escape_form (c :: bs) (c :: bs)
| form_short c e : escape_of e = Some c -> escape_form [c] [BACKSLASH; e]
| form_unicode c x y : 0 <= x < 16 -> 0 <= y < 16 -> c = 16 * x + y -> c <= 31 -> escape_form [c] [BACKSLASH; ch "u"; hex_lower 0; hex_lower 0; hex_lower x; hex_lower y].

Lemma escaped_form q : utf8_sequence q -> escape_form q (escaped q).
Proof.
  destruct q as [| c bs]; [done |]. intros (rs & Hr & Hf).
  assert (forall b, 128 <= b -> escape_byte b = [b]) as Hlarge by (intros b H; unfold escape_byte; by rewrite (proj2 (Z.ltb_ge b 128)) by lia).
  destruct (decide (c < 128)) as [Hc | Hc].
  - assert (0 <= c) as H0 by (assert (byte c) as Hb by (eapply (Forall_inv (P := byte)), utf8_sequence_bytes; by exists rs); unfold byte in Hb; lia).
    assert (rs = []) as -> by (unfold utf8_ranges in Hr; rewrite (proj2 (between_true 0 127 c)) in Hr by lia; by injection Hr). apply Forall2_nil_inv_l in Hf as ->.
    unfold escaped. cbn [flat_map]. rewrite app_nil_r. unfold escape_byte. rewrite (proj2 (Z.ltb_lt c 128)) by lia. unfold escape_codepoint.
    repeat match goal with |- context [if c =? ?k then _ else _] => destruct (Z.eqb_spec c k) as [-> |]; [by apply form_short |] end.
    rewrite andb_false_l, orb_false_r. destruct (Z.leb_spec c 31).
    + assert (u16 c = c) as Hu by (apply Z.mod_small; lia). rewrite (proj2 (Z.leb_le c 65535)) by lia. rewrite Hu. unfold unicode_escape.
      assert (c / 4096 = 0) as -> by (Z.to_euclidean_division_equations; lia). assert (c / 256 = 0) as -> by (Z.to_euclidean_division_equations; lia). apply form_unicode; [Z.to_euclidean_division_equations; lia .. | lia].
    + apply form_plain with []; [done | done | lia | done | done].
  - assert (escaped (c :: bs) = c :: bs) as ->.
    { assert (Forall (fun b => 128 <= b) (c :: bs)) as Hall.
      { constructor; [lia |]. destruct (utf8_ranges_pendings c rs Hr) as [-> | Hin]; [by apply Forall2_nil_inv_l in Hf as -> |].
        assert (Forall (fun r => 128 <= fst r) rs) as Hrs by (cbn in Hin; repeat (destruct Hin as [<- | Hin]; [by repeat constructor |]); done).
        clear -Hf Hrs. induction Hf as [| r b rs bs Hb _ IH]; [constructor |]. apply Forall_cons in Hrs as [H1 Hrs]. apply between_true in Hb. constructor; [lia | by apply IH]. }
      unfold escaped. induction Hall as [| b l Hb _ IH]; [done |]. cbn [flat_map]. by rewrite Hlarge, IH. }
    apply form_plain with rs; [done | done | lia | unfold QUOTE; lia | unfold BACKSLASH; lia].
Qed.

Lemma loop_escape fuel l t r : feeds l (BACKSLASH :: t) -> scan_escape (get l) = (true, r) -> scan_string_loop (S fuel) l = scan_string_loop fuel r.
Proof. intros Hl Hr. destruct (get_spec l _ _ Hl) as (H1 & _). cbn [scan_string_loop]. rewrite H1. change (BACKSLASH =? eof) with false. change (BACKSLASH =? QUOTE) with false. change (BACKSLASH =? BACKSLASH) with true. cbn iota. by rewrite Hr. Qed.

(** A turn of the loop reads one code point. *)
Lemma loop_form q t fuel l s : escape_form q t -> fetched l -> feeds l (t ++ s) -> exists l', scan_string_loop (S fuel) l = scan_string_loop fuel l' /\ moved l l' s (token_buffer l ++ q).
Proof.
  intros [c bs rs Hr Hb Hc Hq Hk | c e He | c x y Hx Hy Hc Hle] Hf Hl; cbn [app] in Hl; destruct (get_spec l _ _ Hl) as (H1 & H2 & _); pose proof (moved_feeds _ _ _ _ H2) as Hl1.
  - destruct (next_bytes_spec rs bs (add c (get l)) s Hb) as (l' & H3 & H4); [apply H2 | exact Hl1 |]. exists l'. split.
    + cbn [scan_string_loop]. rewrite H1. rewrite (proj2 (Z.eqb_neq c eof)) by (unfold eof; lia). rewrite (proj2 (Z.eqb_neq c QUOTE)), (proj2 (Z.eqb_neq c BACKSLASH)) by done.
      rewrite (proj2 (between_false 0 31 c)) by lia. rewrite Hr. unfold next_byte_in_range. rewrite H1. by rewrite H3.
    + change (token_buffer (add c (get l))) with (token_buffer (get l) ++ [c]) in H4. rewrite get_buffer, <- app_assoc in H4. eapply moved_trans; [exact (moved_add _ _ _ _ c H2) | exact H4].
  - destruct (get_spec _ _ _ Hl1) as (G1 & G2 & _). exists (add c (get (get l))). split.
    + apply (loop_escape _ _ (e :: s)); [done |]. unfold scan_escape. by rewrite G1, He.
    + rewrite get_buffer in G2. apply moved_add. by eapply moved_trans.
  - destruct (get_spec _ _ _ Hl1) as (G1 & G2 & _). pose proof (moved_feeds _ _ _ _ G2) as Hl2.
    destruct (get_codepoint_spec 0 0 x y (get (get l)) s ltac:(lia) ltac:(lia) Hx Hy (moved_fetched _ _ _ _ G2) Hl2) as (l' & G3 & G4). exists (add c l'). split.
    + eapply loop_escape; [done |]. unfold scan_escape. rewrite G1. change (escape_of (ch "u")) with (@None Z). change (ch "u" =? ch "u") with true. cbn iota. unfold scan_unicode. rewrite G3.
      assert (4096 * 0 + 256 * 0 + 16 * x + y = c) as -> by lia. rewrite (proj2 (Z.eqb_neq c (-1))) by lia. rewrite (proj2 (between_false 55296 56319 c)), (proj2 (between_false 56320 57343 c)) by lia.
      unfold encode. by rewrite (proj2 (Z.ltb_lt c 128)) by lia.
    + rewrite !get_buffer in G4. rewrite get_buffer in G2. apply moved_add. eapply moved_trans; [exact H2 |]. by eapply moved_trans.
Qed.

(** The text of a string that is UTF-8, with its closing quote. *)
Lemma scan_string_loop_spec b fuel l s : utf8 b -> fetched l -> feeds l (escaped b ++ QUOTE :: s) -> (length (unread l) < fuel)%nat ->
  exists l', scan_string_loop fuel l = (value_string, l') /\ moved l l' s (token_buffer l ++ b).
Proof.
  intros Hb. revert fuel l. induction Hb as [| q b Hq _ IH]; intros fuel l Hf Hl Hlt; (destruct fuel as [| fuel]; [lia |]).
  - destruct (get_spec l _ _ Hl) as (H1 & H2 & _). exists (get l). rewrite app_nil_r. split; [cbn [scan_string_loop]; by rewrite H1 | done].
  - unfold escaped in Hl. rewrite flat_map_app, <- app_assoc in Hl. pose proof (escaped_form q Hq) as Hform. destruct (loop_form q (escaped q) fuel l _ Hform Hf Hl) as (l1 & -> & H2).
    assert (0 < length (escaped q))%nat as Hpos by (destruct Hform; cbn; lia). destruct Hl as [_ Hu]. destruct (IH fuel l1) as (l' & H3 & H4); [apply H2 | by eapply moved_feeds | |].
    + rewrite (moved_unread _ _ _ _ H2). rewrite Hu, length_app in Hlt. unfold escaped in *. lia.
    + exists l'. split; [done |]. rewrite (moved_buffer _ _ _ _ H2), <- app_assoc in H4. by eapply moved_trans.
Qed.

(** ** Tokens *)

Definition whitespace : list Z -> Prop := Forall (fun c => is_whitespace c = true).

Lemma whitespace_app a b : whitespace a -> whitespace b -> whitespace (a ++ b).
Proof. apply Forall_app_2. Qed.

Lemma skip_whitespace_spec w fuel l c s : whitespace w -> is_whitespace c = false -> feeds l (w ++ c :: s) -> (length (unread l) < fuel)%nat ->
  current (skip_whitespace fuel l) = c /\ moved l (skip_whitespace fuel l) s (token_buffer l) /\ (0 < chars_read_total (skip_whitespace fuel l))%nat.
Proof.
  intros Hw Hc. revert fuel l. induction Hw as [| d w Hd _ IH]; intros fuel l Hl Hlt; (destruct fuel as [| fuel]; [lia |]); destruct (get_spec l _ _ Hl) as (H1 & H2 & H3); cbn [skip_whitespace]; rewrite H1.
  - rewrite Hc. split_and!; [done | done | lia].
  - rewrite Hd. destruct (IH fuel (get l)) as (I1 & I2 & I3); [by eapply moved_feeds | rewrite (moved_unread _ _ _ _ H2); destruct Hl as [_ Hu]; rewrite Hu in Hlt; cbn in Hlt; rewrite length_app in *; cbn in *; lia |].
    split_and!; [done | | done]. rewrite get_buffer in I2. by eapply moved_trans.
Qed.

(** The first byte of the input is not that of a byte order mark, or the mark was passed. *)
Definition started (l : lexer) (s : list Z) : Prop := (0 < chars_read_total l)%nat \/ match s with c :: _ => c <> 239 | [] => True end.

(** A token after white space. *)
Lemma scan_spec w l c s : whitespace w -> is_whitespace c = false -> feeds l (w ++ c :: s) -> started l (w ++ c :: s) ->
  exists l1, scan false l = scan_current l1 /\ current l1 = c /\ fetched l1 /\ feeds l1 s /\ (0 < chars_read_total l1)%nat.
Proof.
  intros Hw Hc Hl Hs. assert (forall l0, feeds l0 (w ++ c :: s) -> let l1 := skip_whitespaces l0 in current l1 = c /\ fetched l1 /\ feeds l1 s /\ (0 < chars_read_total l1)%nat) as Hmain.
  { intros l0 Hl0. destruct (skip_whitespace_spec w (S (length (unread l0))) l0 c s Hw Hc Hl0 ltac:(lia)) as (H1 & H2 & H3). split_and!; [done | apply H2 | by eapply moved_feeds | done]. }
  unfold scan. destruct (Nat.eqb_spec (chars_read_total l) 0) as [H0 | H0]; [| eexists; split; [reflexivity | by apply Hmain]].
  destruct Hs as [Hs | Hs]; [lia |]. assert (exists d t, w ++ c :: s = d :: t) as (d & t & E) by (destruct w; by eexists _, _). rewrite E in Hs, Hl.
  destruct (get_spec l d t Hl) as (H1 & H2 & _). unfold skip_bom. rewrite H1, (proj2 (Z.eqb_neq d 239)) by done. cbn [negb]. eexists; split; [reflexivity |]. apply Hmain.
  destruct (unget_ok (get l) (moved_fetched _ _ _ _ H2)) as [G1 G2]. split; [done |]. rewrite G2, H1, (moved_unread _ _ _ _ H2), E.
  by rewrite (proj2 (Z.eqb_neq d eof)) by by eapply feeds_not_eof.
Qed.

(** What a token is, and the lexer after it. *)
Definition token (l : lexer) (t : token_type) (s : list Z) (P : lexer -> Prop) : Prop :=
  exists l', scan false l = (t, l') /\ feeds l' s /\ (0 < chars_read_total l')%nat /\ P l'.

(** The scanner at a character, with the same text after the token. *)
Definition token_at (l : lexer) (t : token_type) (s : list Z) (P : lexer -> Prop) : Prop :=
  exists l', scan_current l = (t, l') /\ feeds l' s /\ (chars_read_total l <= chars_read_total l')%nat /\ P l'.

Lemma token_after w l c r t s P : whitespace w -> is_whitespace c = false -> feeds l (w ++ c :: r) -> started l (w ++ c :: r) ->
  (forall l1, current l1 = c -> fetched l1 -> feeds l1 r -> (0 < chars_read_total l1)%nat -> token_at l1 t s P) -> token l t s P.
Proof.
  intros Hw Hc Hl Hs H. destruct (scan_spec w l c r Hw Hc Hl Hs) as (l1 & H1 & H2 & H3 & H4 & H5). destruct (H l1 H2 H3 H4 H5) as (l' & G1 & G2 & G3 & G4). exists l'. split_and!; [by rewrite H1 | done | lia | done].
Qed.

Definition bracket (c : Z) : option token_type :=
  if c =? 91 then Some begin_array else if c =? 93 then Some end_array else if c =? 123 then Some begin_object else if c =? 125 then Some end_object
  else if c =? 58 then Some name_separator else if c =? 44 then Some value_separator else None.

Lemma bracket_cases c t : bracket c = Some t -> (c = 91 /\ t = begin_array \/ c = 93 /\ t = end_array \/ c = 123 /\ t = begin_object \/ c = 125 /\ t = end_object \/ c = 58 /\ t = name_separator \/ c = 44 /\ t = value_separator).
Proof. unfold bracket. repeat (match goal with |- (if ?x =? ?k then _ else _) = _ -> _ => destruct (Z.eqb_spec x k) as [-> |]; [intros [= <-]; tauto |] end). done. Qed.

Lemma token_bracket w l c t s : bracket c = Some t -> whitespace w -> feeds l (w ++ c :: s) -> started l (w ++ c :: s) -> token l t s (fun _ => True).
Proof.
  intros Hb%bracket_cases Hw Hl Hs. eapply token_after; [done | | exact Hl | done |]; [by repeat (destruct Hb as [[-> _] | Hb] || destruct Hb as [-> _]) |].
  intros l1 H1 H2 H3 H4. exists l1. split_and!; [| done | done | done]. unfold scan_current. rewrite H1. by repeat (destruct Hb as [[-> ->] | Hb] || destruct Hb as [-> ->]).
Qed.

Lemma scan_literal_spec text t l s : fetched l -> feeds l (text ++ s) -> exists l', scan_literal text t l = (t, l') /\ moved l l' s (token_buffer l).
Proof.
  revert l. induction text as [| c text IH]; intros l Hf Hl; cbn [scan_literal]; [exists l; split; [done | by apply moved_refl] |].
  destruct (get_spec l _ _ Hl) as (H1 & H2 & _). rewrite H1, Z.eqb_refl. destruct (IH (get l)) as (l' & H3 & H4); [apply H2 | by eapply moved_feeds |]. exists l'. split; [done |]. rewrite get_buffer in H4. by eapply moved_trans.
Qed.

(** The text of a literal. *)
Definition literal (t : token_type) : list Z :=
  match t with literal_true => [116; 114; 117; 101] | literal_false => [102; 97; 108; 115; 101] | _ => [110; 117; 108; 108] end.

Lemma token_literal w l t s : t = literal_true \/ t = literal_false \/ t = literal_null -> whitespace w -> feeds l (w ++ literal t ++ s) -> started l (w ++ literal t ++ s) -> token l t s (fun _ => True).
Proof.
  intros Ht Hw Hl Hs. assert (exists c r, literal t = c :: r /\ is_whitespace c = false /\ forall l1, current l1 = c -> scan_current l1 = scan_literal r t l1) as (c & r & E & Hc & Hsc).
  { destruct Ht as [-> | [-> | ->]]; eexists _, _; (split; [reflexivity |]); (split; [done |]); intros l1 H; unfold scan_current; by rewrite H. }
  rewrite E in Hl, Hs. eapply token_after; [done | exact Hc | exact Hl | done |]. intros l1 H1 H2 H3 H4. destruct (scan_literal_spec r t l1 s H2 H3) as (l' & G1 & G2).
  exists l'. split_and!; [by rewrite Hsc | by eapply moved_feeds | by destruct G2 | done].
Qed.

Lemma token_string w l b s : utf8 b -> whitespace w -> feeds l (w ++ QUOTE :: escaped b ++ QUOTE :: s) -> started l (w ++ QUOTE :: escaped b ++ QUOTE :: s) -> token l value_string s (fun l' => token_buffer l' = b).
Proof.
  intros Hb Hw Hl Hs. eapply token_after; [done | | exact Hl | done |]; [done |]. intros l1 H1 H2 H3 H4.
  destruct (scan_string_loop_spec b (S (length (unread l1))) (lexer_reset l1) s Hb H2 H3 ltac:(change (unread (lexer_reset l1)) with (unread l1); lia)) as (l' & G1 & G2).
  exists l'. split_and!; [| by eapply moved_feeds | by destruct G2 | by destruct G2]. unfold scan_current. rewrite H1. exact G1.
Qed.

(** ** Numbers *)

(** What follows does not continue a number. *)
Definition number_ends (s : list Z) : Prop := match s with [] => True | c :: _ => is_digit_byte c = false /\ c <> 46 /\ c <> 101 /\ c <> 69 end.

Lemma number_stops st c : number_may_end st = true -> is_digit_byte c = false -> c <> 46 -> c <> 101 -> c <> 69 -> number_next st c = Done.
Proof. intros Hst H1 H2 H3 H4. destruct st; try done; cbn; rewrite ?H1, ?(proj2 (Z.eqb_neq c 46) H2), ?(proj2 (Z.eqb_neq c 101) H3), ?(proj2 (Z.eqb_neq c 69) H4); done. Qed.

Lemma scan_number_states_spec text st nt st' nt' fuel l s : number_run st nt text = Some (st', nt') -> number_may_end st' = true -> number_ends s -> feeds l (text ++ s) -> (length (unread l) < fuel)%nat ->
  exists l', scan_number_states fuel st nt l = (Some nt', l') /\ token_buffer l' = token_buffer l ++ text /\ feeds (unget l') s /\ (chars_read_total l < chars_read_total l')%nat.
Proof.
  intros Hr He Hs. revert st nt fuel l Hr. induction text as [| c text IH]; intros st nt fuel l Hr Hl Hlt; (destruct fuel as [| fuel]; [lia |]); cbn [scan_number_states number_run] in *.
  - injection Hr as -> <-. destruct s as [| c s].
    + pose proof (get_end l Hl) as Hc. exists (get l). rewrite Hc. assert (number_next st' eof = Done) as -> by (destruct st'; done). rewrite get_buffer, app_nil_r.
      assert (fetched (get l)) as Hf by (apply get_fetched, Hl). destruct (unget_ok (get l) Hf) as [G1 G2]. destruct (get_unread l (proj1 Hl)) as [_ Hu].
      split_and!; [done | done | split; [done |]; rewrite G2, Hc; by rewrite (Hu Hc) | unfold get; destruct (next_unget l), (ia l); cbn; lia].
    + destruct (get_spec l _ _ Hl) as (H1 & H2 & H3). exists (get l). destruct Hs as (S1 & S2 & S3 & S4). rewrite H1, number_stops by done. rewrite get_buffer, app_nil_r.
      destruct (unget_ok (get l) (moved_fetched _ _ _ _ H2)) as [G1 G2]. split_and!; [done | done | split; [done |]; rewrite G2, H1, (moved_unread _ _ _ _ H2) | lia].
      by rewrite (proj2 (Z.eqb_neq c eof)) by by eapply feeds_not_eof.
  - change ((c :: text) ++ s) with (c :: text ++ s) in Hl. destruct (get_spec l _ _ Hl) as (H1 & H2 & H3). rewrite H1. destruct (number_next st c) as [st1 | |]; try done.
    destruct (IH st1 (number_type_in st nt) fuel (add c (get l)) Hr) as (l' & G1 & G2 & G3 & G4); [exact (moved_feeds _ _ _ _ H2) | |].
    + change (unread (add c (get l))) with (unread (get l)). rewrite (moved_unread _ _ _ _ H2). destruct Hl as [_ Hu]. rewrite Hu in Hlt. cbn [length app] in Hlt. lia.
    + exists l'. split_and!; [done | | done | change (chars_read_total (add c (get l))) with (chars_read_total (get l)) in G4; lia].
      rewrite G2. change (token_buffer (add c (get l))) with (token_buffer (get l) ++ [c]). by rewrite get_buffer, <- app_assoc.
Qed.

(** The lexer after the text of a number, as the conversion of its type leaves it. *)
Lemma token_number w l text nt s : number_type text = Some nt -> number_ends s -> whitespace w -> feeds l (w ++ text ++ s) -> started l (w ++ text ++ s) ->
  exists l', scan false l = scan_number_done nt l' /\ token_buffer l' = text /\ feeds (unget l') s /\ (1 < chars_read_total l')%nat.
Proof.
  intros Ht He Hw Hl Hs. destruct text as [| c text]; [done |]. cbn [number_type] in Ht. destruct (_ || _) eqn:Ec; [| done]. destruct (number_run _ _ text) as [[st nt'] |] eqn:Er; [| done].
  destruct (number_may_end st) eqn:Em; [| done]. injection Ht as ->. cbn [app] in Hl, Hs.
  assert (is_whitespace c = false) as Hc by (unfold is_whitespace; apply orb_prop in Ec as [->%Z.eqb_eq | Ec]; [done |]; apply between_true in Ec; rewrite !(proj2 (Z.eqb_neq c _)) by lia; done).
  destruct (scan_spec w l c (text ++ s) Hw Hc Hl Hs) as (l1 & H1 & H2 & H3 & H4 & H5).
  destruct (scan_number_states_spec text (number_start c) value_unsigned st nt (S (length (unread l1))) (add c (lexer_reset l1)) s Er Em He H4 ltac:(change (unread (add c (lexer_reset l1))) with (unread l1); lia)) as (l' & G1 & G2 & G3 & G4).
  exists l'. split_and!; [| done | done | change (chars_read_total (add c (lexer_reset l1))) with (chars_read_total l1) in G4; lia]. rewrite H1. unfold scan_current. rewrite H2.
  assert (forall k, k <> 45 -> is_digit_byte k = false -> (c =? k) = false) as Hne by (intros k K1 K2; apply Z.eqb_neq; intros ->; apply orb_prop in Ec as [->%Z.eqb_eq | Ec]; [done | by rewrite Ec in K2]).
  rewrite !Hne by done. rewrite Ec. unfold scan_number. change (current (lexer_reset l1)) with (current l1). change (current (add (current l1) (lexer_reset l1))) with (current l1).
  change (unread (add (current l1) (lexer_reset l1))) with (unread l1). rewrite H2. by rewrite G1.
Qed.

Definition int_text (z : Z) : list Z := if z <? 0 then 45 :: dec (- z) else dec z.

Lemma dec_run n : 0 <= n -> exists c d st, dec n = c :: d /\ is_digit_byte c = true /\ number_may_end st = true /\ (forall nt, nt = value_unsigned \/ nt = value_integer -> number_run (number_start c) nt d = Some (st, nt)) /\
  (c = 48 /\ d = [] \/ 49 <= c <= 57 /\ digits d).
Proof.
  intros Hn. destruct (Z.eq_dec n 0) as [-> | Hn0]; [exists 48, [], num_zero; by split_and!; try left|].
  destruct (dec_first n ltac:(lia)) as (c & d & E & Hc). pose proof (dec_digits n Hn) as Hd. rewrite E in Hd. apply Forall_cons in Hd as [Hd0 Hd]. exists c, d, num_any1. split_and!; try done.
  - intros nt _. unfold number_start. rewrite !(proj2 (Z.eqb_neq c _)) by lia. by apply number_run_digits.
  - by right.
Qed.

Lemma int_text_type z : number_type (int_text z) = Some (if z <? 0 then value_integer else value_unsigned).
Proof.
  unfold int_text. destruct (Z.ltb_spec z 0); destruct (dec_run (Z.abs z) ltac:(lia)) as (c & d & st & E & Hc & Hst & Hr & Hs).
  - replace (- z) with (Z.abs z) by lia. rewrite E. cbn [number_type]. change ((45 =? 45) || is_digit_byte 45) with true. cbn iota. change (number_start 45) with num_minus. cbn [number_run number_next number_type_in].
    assert ((if c =? 48 then To num_zero else if between 49 57 c then To num_any1 else Wrong "invalid number; expected digit after '-'") = To (number_start c)) as ->.
    { unfold number_start. destruct Hs as [[-> _] | [Hc' _]]; [done |]. rewrite !(proj2 (Z.eqb_neq c _)) by lia. by rewrite (proj2 (between_true 49 57 c)) by lia. }
    rewrite Hr by auto. by rewrite Hst.
  - replace z with (Z.abs z) by lia. rewrite E. cbn [number_type]. rewrite Hc, orb_true_r, Hr by auto. by rewrite Hst.
Qed.

Lemma span_all d : digits d -> fst (span_digits d) = d.
Proof. intros H. rewrite <- (app_nil_r d) at 1. by rewrite span_digits_app. Qed.

Lemma int_text_value z : (0 <= z < 2 ^ 64 -> strtoull (int_text z) = Some z) /\ (- 2 ^ 63 <= z < 0 -> strtoll (int_text z) = Some z).
Proof.
  unfold int_text. split; intros H.
  - rewrite (proj2 (Z.ltb_ge z 0)) by lia. unfold strtoull. rewrite span_all by (apply dec_digits; lia). rewrite dec_value by lia. by rewrite (proj2 (Z.ltb_lt z (2 ^ 64))) by lia.
  - rewrite (proj2 (Z.ltb_lt z 0)) by lia. unfold strtoll. cbn [take_sign]. change (45 =? 45) with true. cbn iota. rewrite span_all by (apply dec_digits; lia). rewrite dec_value by lia. rewrite Z.opp_involutive.
    by rewrite (proj2 (Z.leb_le (- 2 ^ 63) z)), (proj2 (Z.ltb_lt z (2 ^ 63))) by lia.
Qed.

Lemma with_values_feeds l i u f s : feeds (unget l) s -> (1 < chars_read_total l)%nat -> feeds (with_values (unget l) i u f) s /\ (0 < chars_read_total (with_values (unget l) i u f))%nat.
Proof. intros H Ht. split; [exact H | cbn; lia]. Qed.

Lemma token_int w l z s : - 2 ^ 63 <= z < 2 ^ 64 -> number_ends s -> whitespace w -> feeds l (w ++ int_text z ++ s) -> started l (w ++ int_text z ++ s) ->
  token l (if z <? 0 then value_integer else value_unsigned) s (fun l' => (if z <? 0 then lex_integer l' else lex_unsigned l') = z).
Proof.
  intros Hz He Hw Hl Hs. destruct (token_number w l (int_text z) _ s (int_text_type z) He Hw Hl Hs) as (l' & H1 & H2 & H3 & H4). destruct (int_text_value z) as [V1 V2].
  unfold token. rewrite H1. unfold scan_number_done. change (token_buffer (unget l')) with (token_buffer l'). rewrite H2. destruct (Z.ltb_spec z 0).
  - rewrite V2 by lia. eexists. split; [reflexivity |]. split_and!; [by apply with_values_feeds | by eapply with_values_feeds | done].
  - rewrite V1 by lia. eexists. split; [reflexivity |]. split_and!; [by apply with_values_feeds | by eapply with_values_feeds | done].
Qed.

Lemma token_float w l text s : number_type text = Some value_float -> number_ends s -> whitespace w -> feeds l (w ++ text ++ s) -> started l (w ++ text ++ s) ->
  token l value_float s (fun l' => lex_float l' = strtod text).
Proof.
  intros Ht He Hw Hl Hs. destruct (token_number w l text _ s Ht He Hw Hl Hs) as (l' & H1 & H2 & H3 & H4).
  unfold token. rewrite H1. cbn [scan_number_done]. eexists. split; [reflexivity |]. split_and!; [by apply with_values_feeds | by eapply with_values_feeds | cbn [lex_float with_values]; change (token_buffer (unget l')) with (token_buffer l'); by rewrite H2].
Qed.

(** ** The text of a value *)

Fixpoint joined {A} (before between : list Z) (f : A -> list Z) (l : list A) : list Z :=
  match l with [] => [] | [x] => before ++ f x | x :: l => before ++ f x ++ between ++ joined before between f l end.

Definition blanks (n : nat) : list Z := replicate n 32.

(** What is written before an element, after a comma and after the last element. *)
Definition before_of (pp : bool) (next : nat) : list Z := if pp then blanks next else [].
Definition break_of (pp : bool) : list Z := if pp then [10] else [].
Definition after_of (pp : bool) (cur : nat) : list Z := if pp then 10 :: blanks cur else [].
Definition next_of (pp : bool) (step cur : nat) : nat := if pp then (cur + step)%nat else cur.

Fixpoint text (pp : bool) (step cur : nat) (j : json) : list Z :=
  match j with
  | JObject m =>
      if decide (m = []) then [123; 125]
      else 123 :: break_of pp ++ joined (before_of pp (next_of pp step cur)) (44 :: break_of pp)
             (fun kv => QUOTE :: escaped (bytes_of_string (fst kv)) ++ QUOTE :: 58 :: (if pp then [32] else []) ++ text pp step (next_of pp step cur) (snd kv)) m ++ after_of pp cur ++ [125]
  | JArray l => if decide (l = []) then [91; 93] else 91 :: break_of pp ++ joined (before_of pp (next_of pp step cur)) (44 :: break_of pp) (text pp step (next_of pp step cur)) l ++ after_of pp cur ++ [93]
  | JString s => QUOTE :: escaped (bytes_of_string s) ++ [QUOTE]
  | JBool b => literal (if b then literal_true else literal_false)
  | JInt z => int_text z
  | JFloat x => dump_float x
  | JNull => literal literal_null
  end.

Lemma dump_elements_joined {A} before between (dump_one : A -> list Z -> string + list Z) (f : A -> list Z) l out :
  Forall (fun x => forall out, dump_one x out = inr (out ++ f x)) l -> dump_elements before between dump_one l out = inr (out ++ joined before between f l).
Proof.
  intros Hl. revert out. induction Hl as [| x l Hx Hl IH]; intros out; cbn [dump_elements joined]; [by rewrite app_nil_r |].
  destruct l as [| y l]; unfold write; cbn [bind]; rewrite Hx; [by rewrite <- app_assoc |]. cbn [bind]. rewrite IH. by rewrite <- !app_assoc.
Qed.

(** The serializer writes the text of a value whose strings are UTF-8, and refuses no other. *)
Lemma dump_value_text nb pp step j : length nb = 64%nat -> forall cur out, json_ok j = true -> dump_value strict false 32 nb pp step cur j out = inr (out ++ text pp step cur j).
Proof.
  intros Hn. induction j as [j Ho Ha | l Hl | m Hm] using json_nested_ind; intros cur out Hok.
  - destruct j as [| b | z | x | s | |]; try done; cbn [dump_value text]; unfold write.
    + by destruct b.
    + cbn in Hok. apply andb_prop in Hok as [H1 H2]. rewrite dump_integer_decimal; [done | done | apply Z.leb_le in H1; apply Z.ltb_lt in H2; lia].
    + cbn [bind]. destruct (dump_escaped_utf8 (out ++ [QUOTE]) (bytes_of_string s) (bytes_of_string_bytes s)) as [-> _]; [| done]. cbn [bind]. by rewrite <- !app_assoc.
  - cbn [dump_value text]. destruct (decide (l = [])) as [-> |]; [done |]. cbn [json_ok] in Hok. rewrite forallb_forall in Hok.
    assert (forall next, Forall (fun x => forall out, dump_value strict false 32 nb pp step next x out = inr (out ++ text pp step next x)) l) as Hall.
    { intros next. apply Forall_forall. intros x Hx out'. rewrite Forall_forall in Hl. apply (Hl x Hx). by apply Hok, list_elem_of_In. }
    destruct pp; unfold write; cbn [bind]; rewrite (dump_elements_joined _ _ _ (text _ step _)) by apply Hall; cbn [bind]; unfold after_of, break_of, before_of, next_of, indent, blanks; by rewrite <- !app_assoc.
  - cbn [dump_value text]. destruct (decide (m = [])) as [-> |]; [done |]. cbn [json_ok] in Hok. apply andb_prop in Hok as [_ Hok]. rewrite forallb_forall in Hok.
    set (member_text := fun next (kv : string * json) => QUOTE :: escaped (bytes_of_string (fst kv)) ++ QUOTE :: 58 :: (if pp then [32] else []) ++ text pp step next (snd kv)).
    assert (forall next, Forall (fun kv => forall out, bind (bind (bind (write [QUOTE] out) (fun out => dump_escaped strict false out (bytes_of_string (fst kv)))) (write (QUOTE :: 58 :: (if pp then [32] else [])))) (dump_value strict false 32 nb pp step next (snd kv)) = inr (out ++ member_text next kv)) m) as Hall.
    { intros next. apply Forall_forall. intros kv Hkv out'. rewrite Forall_forall in Hm. specialize (Hok kv ltac:(by apply list_elem_of_In)). apply andb_prop in Hok as [Hk Hv].
      unfold write. cbn [bind]. destruct (dump_escaped_utf8 (out' ++ [QUOTE]) (bytes_of_string (fst kv)) (bytes_of_string_bytes (fst kv))) as [-> _]; [| done]. cbn [bind]. rewrite (Hm kv Hkv) by done. unfold member_text. rewrite <- !app_assoc. by destruct pp. }
    destruct pp; unfold write; cbn [bind]; rewrite (dump_elements_joined _ _ _ (member_text _)) by exact (Hall _); cbn [bind]; unfold member_text, after_of, break_of, before_of, next_of, indent, blanks; by rewrite <- !app_assoc.
Qed.

(** ** Reading the text of a value *)

(** The parser after the token [t]. *)
Lemma get_token_token p t s P : token (m_lexer p) t s P -> exists p', get_token false p = p' /\ last_token p' = t /\ sax p' = sax p /\ feeds (m_lexer p') s /\ (0 < chars_read_total (m_lexer p'))%nat /\ P (m_lexer p').
Proof. intros (l' & H1 & H2 & H3 & H4). eexists. split; [reflexivity |]. unfold get_token. rewrite H1. by split_and!. Qed.

(** The loop reads a value: after its turns it is where a value was just read. *)
Definition run_reads (p : parser) (d : Dom) (s : list Z) : Prop :=
  exists k p1, (forall fuel states, sax_parse_internal false (k + S fuel) false states p = sax_parse_internal false (S fuel) true states p1) /\
    feeds (m_lexer p1) s /\ (0 < chars_read_total (m_lexer p1))%nat /\ sax p1 = d.

Definition value_reads (t : list Z) (j : json) : Prop := forall p0 w s, whitespace w -> feeds (m_lexer p0) (w ++ t ++ s) -> started (m_lexer p0) (w ++ t ++ s) -> number_ends s ->
  last_token (get_token false p0) <> end_array /\ run_reads (get_token false p0) (handle_value j (sax p0)) s.

Lemma run_break p p1 s : (forall states, parse_value false states p = Break p1) -> feeds (m_lexer p1) s -> (0 < chars_read_total (m_lexer p1))%nat -> run_reads p (sax p1) s.
Proof. intros Hb Hs Ht. exists O, p1. split_and!; [intros fuel states; cbn [Nat.add sax_parse_internal]; by rewrite Hb | done | done | done]. Qed.

(** A value that is one token. *)
Lemma leaf_reads t j tok P : tok <> end_array ->
  (forall l w s, whitespace w -> feeds l (w ++ t ++ s) -> started l (w ++ t ++ s) -> number_ends s -> token l tok s P) ->
  (forall states p, last_token p = tok -> P (m_lexer p) -> parse_value false states p = Break (with_sax p (handle_value j (sax p)))) -> value_reads t j.
Proof.
  intros Hn Htok Hval p0 w s Hw Hl Hst He. destruct (get_token_token p0 tok s P (Htok _ w s Hw Hl Hst He)) as (p & -> & H1 & <- & H2 & H3 & H4). rewrite H1. split; [done |].
  apply (run_break p (with_sax p (handle_value j (sax p)))); [intros states; by apply Hval | done | done].
Qed.

Lemma string_reads s : text_ok s = true -> value_reads (QUOTE :: escaped (bytes_of_string s) ++ [QUOTE]) (JString s).
Proof.
  intros Hs. eapply (leaf_reads _ _ value_string (fun l => token_buffer l = bytes_of_string s)); [done | |].
  - intros l w r Hw Hl Hst _. cbn [app] in Hl, Hst. rewrite <- app_assoc in Hl, Hst. apply (token_string w); [by apply utf8b_utf8 | done ..].
  - intros states p Ht Hb. unfold parse_value. rewrite Ht. unfold get_string_token. by rewrite Hb, string_of_bytes_of_string.
Qed.

Lemma int_reads z : - 2 ^ 63 <= z < 2 ^ 64 -> value_reads (int_text z) (JInt z).
Proof.
  intros Hz. eapply leaf_reads; [| intros l w s Hw Hl Hst He; by apply (token_int w) |]; [by destruct (z <? 0) |].
  intros states p Ht Hb. unfold parse_value. rewrite Ht. destruct (z <? 0); by rewrite Hb.
Qed.

Lemma double_reads x : is_finite x = true -> valid_binary 53 1024 x = true -> value_reads (dump_float x) (JFloat x).
Proof.
  intros Hf Hv. destruct (float_text_reads x Hf Hv) as [H1 H2]. eapply leaf_reads; [| intros l w s Hw Hl Hst He; by apply (token_float w) |]; [done |].
  intros states p Ht Hb. cbn beta in Hb. unfold parse_value. rewrite Ht, Hb, H2. by rewrite Hf.
Qed.

Lemma literal_reads t j : t = literal_true /\ j = JBool true \/ t = literal_false /\ j = JBool false \/ t = literal_null /\ j = JNull -> value_reads (literal t) j.
Proof.
  intros H. eapply (leaf_reads _ _ t (fun _ => True)); [by destruct H as [[-> _] | [[-> _] | [-> _]]] | intros l w s Hw Hl Hst _; apply (token_literal w); [tauto | done ..] |].
  intros states p Ht _. unfold parse_value. rewrite Ht. by destruct H as [[-> ->] | [[-> ->] | [-> ->]]].
Qed.

(** *** The elements of an array, the members of an object *)

(** What is read before the value of an element. *)
Definition enter (array : bool) (p : parser) : string + parser :=
  if array then inr p else match parse_key false p with inl what => inl what | inr p => inr (get_token false p) end.

Definition closing (array : bool) : token_type := if array then end_array else end_object.

Lemma parse_state_next array outer p p1 t : last_token (get_token false p) = value_separator -> enter array (get_token false (get_token false p)) = inr p1 -> t = array :: outer -> parse_state false t p = Continue false t p1.
Proof. intros Hs He ->. unfold parse_state, enter in *. destruct array; rewrite Hs; [by injection He as -> |]. cbn. destruct (parse_key false _); [done |]. by injection He as ->. Qed.

Lemma parse_state_close array outer p : last_token (get_token false p) = closing array -> parse_state false (array :: outer) p = Continue true outer (with_sax (get_token false p) (end_container (sax (get_token false p)))).
Proof. intros Hs. unfold parse_state. destruct array; by rewrite Hs. Qed.

Section Elements.
Context {A : Type} (array : bool) (text_of : A -> list Z) (add_to : A -> Dom -> Dom).

Definition element_reads (x : A) : Prop := forall p0 w s, whitespace w -> feeds (m_lexer p0) (w ++ text_of x ++ s) -> (0 < chars_read_total (m_lexer p0))%nat -> number_ends s ->
  last_token (get_token false p0) <> closing array /\ exists p, enter array (get_token false p0) = inr p /\ run_reads p (add_to x (sax p0)) s.

Context (before after between : list Z) (Hbefore : whitespace before) (Hafter : whitespace after) (Hbetween : whitespace between).

Definition closing_byte : Z := if array then 93 else 125.

Lemma ends_after s : number_ends (after ++ closing_byte :: s).
Proof. unfold closing_byte. destruct Hafter as [| c l Hc _]; cbn; [by destruct array; split_and! |]. unfold is_whitespace in Hc. rewrite !orb_true_iff, !Z.eqb_eq in Hc. by repeat destruct Hc as [Hc | Hc]; subst c. Qed.

Lemma token_closing l s : feeds l (after ++ closing_byte :: s) -> (0 < chars_read_total l)%nat -> token l (closing array) s (fun _ => True).
Proof. intros Hl Ht. apply (token_bracket after l closing_byte); [unfold closing_byte; by destruct array | done | done | by left]. Qed.

Lemma elements_read l w : l <> [] -> Forall element_reads l -> whitespace w -> forall p0 s, feeds (m_lexer p0) (w ++ joined before (44 :: between) text_of l ++ after ++ closing_byte :: s) -> (0 < chars_read_total (m_lexer p0))%nat ->
  last_token (get_token false p0) <> closing array /\
  exists p, enter array (get_token false p0) = inr p /\
  exists k p1, (forall fuel states, sax_parse_internal false (k + S fuel) false (array :: states) p = sax_parse_internal false (S fuel) true states p1) /\
    feeds (m_lexer p1) s /\ (0 < chars_read_total (m_lexer p1))%nat /\ sax p1 = end_container (foldl (fun d x => add_to x d) (sax p0) l).
Proof.
  intros Hn Hl. revert w Hn. induction Hl as [| x l Hx Hl IH]; intros w Hn Hw p0 s Hf Ht; [done |]. destruct l as [| y l].
  - cbn [joined] in Hf. rewrite <- app_assoc, app_assoc in Hf. destruct (Hx p0 (w ++ before) (after ++ closing_byte :: s)) as (E1 & p & E2 & k & p1 & R1 & R2 & R3 & R4); [by apply whitespace_app | done | done | apply ends_after |].
    split; [done |]. exists p. split; [done |]. destruct (get_token_token p1 (closing array) s _ (token_closing _ s R2 R3)) as (p2 & Ep & G1 & G2 & G3 & G4 & _).
    exists (S k), (with_sax p2 (end_container (sax p2))). split_and!; [| done | done | cbn [sax with_sax foldl]; by rewrite G2, R4].
    intros fuel states. replace (S k + S fuel)%nat with (k + S (S fuel))%nat by lia. rewrite R1. cbn [sax_parse_internal]. rewrite parse_state_close by (by rewrite Ep). by rewrite Ep.
  - change (joined before (44 :: between) text_of (x :: y :: l)) with (before ++ text_of x ++ (44 :: between) ++ joined before (44 :: between) text_of (y :: l)) in Hf.
    rewrite <- !app_assoc, app_assoc in Hf. cbn [app] in Hf. destruct (Hx p0 (w ++ before) _ ltac:(by apply whitespace_app) Hf Ht) as (E1 & p & E2 & k & p1 & R1 & R2 & R3 & R4); [done |].
    split; [done |]. exists p. split; [done |]. destruct (get_token_token p1 value_separator _ _ (token_bracket [] _ 44 _ _ eq_refl (Forall_nil_2 _) R2 (or_introl R3))) as (p2 & Ep & G1 & G2 & G3 & G4 & _).
    destruct (IH between ltac:(done) Hbetween p2 s G3 G4) as (_ & p3 & E3 & k2 & p4 & S1 & S2 & S3 & S4). exists (S (k + k2)), p4. split_and!; [| done | done | by rewrite S4, G2, R4].
    intros fuel states. replace (S (k + k2) + S fuel)%nat with (k + S (k2 + S fuel))%nat by lia. rewrite R1. cbn [sax_parse_internal]. by rewrite (parse_state_next array states _ p3) by (rewrite ?Ep; done).
Qed.
End Elements.

Definition opening (array : bool) : token_type := if array then begin_array else begin_object.
Definition opening_byte (array : bool) : Z := if array then 91 else 123.
Definition start (array : bool) : Dom -> Dom := if array then start_array else start_object.

Lemma parse_value_open array states p p1 : last_token p = opening array -> last_token (get_token false (with_sax p (start array (sax p)))) <> closing array ->
  enter array (get_token false (with_sax p (start array (sax p)))) = inr p1 -> parse_value false states p = Continue false (array :: states) p1.
Proof.
  intros Ho Hc He. unfold parse_value, enter in *. destruct array; rewrite Ho; cbn in *; (rewrite bool_decide_false by done); [by injection He as -> |]. destruct (parse_key false _); [done |]. by injection He as ->.
Qed.

Lemma parse_value_empty array states p : last_token p = opening array -> last_token (get_token false (with_sax p (start array (sax p)))) = closing array ->
  parse_value false states p = Break (with_sax (get_token false (with_sax p (start array (sax p)))) (end_container (sax (get_token false (with_sax p (start array (sax p))))))).
Proof. intros Ho Hc. unfold parse_value. destruct array; rewrite Ho; cbn in *; by rewrite Hc. Qed.

Lemma token_opening array w l s : whitespace w -> feeds l (w ++ opening_byte array :: s) -> started l (w ++ opening_byte array :: s) -> token l (opening array) s (fun _ => True).
Proof. intros Hw Hl Hs. apply (token_bracket w l (opening_byte array)); [by destruct array | done ..]. Qed.

Lemma empty_reads array j : (forall d, end_container (start array d) = handle_value j d) -> value_reads [opening_byte array; closing_byte array] j.
Proof.
  intros Hj p0 w s Hw Hl Hst _. destruct (get_token_token p0 _ _ _ (token_opening array w _ _ Hw Hl Hst)) as (p & -> & H1 & H2 & H3 & H4 & _). split; [rewrite H1; by destruct array |].
  destruct (get_token_token (with_sax p (start array (sax p))) (closing array) s _ (token_closing array [] (Forall_nil_2 _) _ s H3 H4)) as (p2 & Ep & G1 & G2 & G3 & G4 & _).
  rewrite <- H2, <- Hj. change (start array (sax p)) with (sax (with_sax p (start array (sax p)))). rewrite <- G2.
  apply (run_break p (with_sax p2 (end_container (sax p2)))); [| done | done]. intros states. rewrite (parse_value_empty array) by (rewrite ?Ep; done). by rewrite Ep.
Qed.

Lemma container_reads {A} array (text_of : A -> list Z) (add_to : A -> Dom -> Dom) before after between l j : whitespace before -> whitespace after -> whitespace between -> l <> [] -> Forall (element_reads array text_of add_to) l ->
  (forall d, end_container (foldl (fun d x => add_to x d) (start array d) l) = handle_value j d) ->
  value_reads (opening_byte array :: between ++ joined before (44 :: between) text_of l ++ after ++ [closing_byte array]) j.
Proof.
  intros Hb Ha Hw' Hn Hl Hj p0 w s Hw Hf Hst _. cbn [app] in Hf, Hst. rewrite <- !app_assoc in Hf, Hst.
  destruct (get_token_token p0 _ _ _ (token_opening array w _ _ Hw Hf Hst)) as (p & -> & H1 & H2 & H3 & H4 & _). split; [rewrite H1; by destruct array |].
  destruct (elements_read array text_of add_to before after between Hb Ha Hw' l between Hn Hl Hw' (with_sax p (start array (sax p))) s H3 H4) as (E1 & p1 & E2 & k & p2 & R1 & R2 & R3 & R4).
  exists (S k), p2. split_and!; [| done | done | rewrite R4; cbn [sax with_sax]; by rewrite Hj, H2].
  intros fuel states. cbn [Nat.add sax_parse_internal]. rewrite (parse_value_open array states p p1) by done. apply R1.
Qed.

Lemma member_reads k v gap t : text_ok k = true -> whitespace gap -> value_reads t v ->
  element_reads false (fun _ : string * json => QUOTE :: escaped (bytes_of_string k) ++ QUOTE :: 58 :: gap ++ t) (fun _ d => handle_value v (dom_key k d)) (k, v).
Proof.
  intros Hk Hg Hv p0 w s Hw Hl Ht He. rewrite <- app_comm_cons, <- app_assoc, <- !app_comm_cons, <- app_assoc in Hl.
  destruct (get_token_token p0 _ _ _ (token_string w _ _ _ (utf8b_utf8 _ Hk) Hw Hl (or_introl Ht))) as (p & -> & H1 & H2 & H3 & H4 & H5). rewrite H1. split; [done |].
  set (p1 := with_sax p (dom_key k (sax p))). destruct (get_token_token p1 _ _ _ (token_bracket [] _ 58 name_separator _ eq_refl (Forall_nil_2 _) H3 (or_introl H4))) as (p2 & Ep & G1 & G2 & G3 & G4 & _).
  destruct (Hv p2 gap s Hg G3 (or_introl G4) He) as [_ R]. exists (get_token false p2). split.
  - unfold enter, parse_key. rewrite H1. cbn. unfold get_string_token. rewrite H5, string_of_bytes_of_string. fold p1. by rewrite Ep, G1.
  - rewrite G2 in R. cbn [sax with_sax p1] in R. by rewrite H2 in R.
Qed.

Lemma blanks_whitespace n : whitespace (blanks n).
Proof. apply Forall_replicate. done. Qed.

Lemma fold_array l : forall d acc s, ref_stack d = FArray acc :: s -> foldl (fun d x => handle_value x d) d l = mkDom (root d) (FArray (acc ++ l) :: s).
Proof.
  induction l as [| x l IH]; intros d acc s E; cbn [foldl]; [rewrite app_nil_r, <- E; by destruct d |].
  rewrite (IH _ (acc ++ [x]) s) by (unfold handle_value; by rewrite E). rewrite <- app_assoc. unfold handle_value. by rewrite E.
Qed.

Lemma keys_sorted_app {A} (a b : list (string * A)) : keys_sorted (a ++ b) = true -> keys_sorted a = true /\ keys_sorted b = true /\ forallb (fun x => forallb (fun y => String.ltb (fst x) (fst y)) b) a = true.
Proof.
  induction a as [| [k v] a IH]; [done |]. cbn. rewrite forallb_app, !andb_true_iff. intros [[H1 H2] H3]. destruct (IH H3) as (H4 & H5 & H6). by rewrite H1, H2, H4, H6.
Qed.

(** A member after all others: the key makes it null, the value takes its place. *)
Lemma member_added k v d m k0 s : ref_stack d = FObject m k0 :: s -> forallb (fun kv => String.ltb (fst kv) k) m = true -> handle_value v (dom_key k d) = mkDom (root d) (FObject (m ++ [(k, v)]) k :: s).
Proof.
  intros E Hm. unfold handle_value, dom_key. rewrite E. cbn [ref_stack root]. unfold subscript. rewrite find_member_above by done. rewrite (replace_member_last k JNull) by done. by rewrite replace_member_again.
Qed.

Lemma fold_object l : forall d m k s, ref_stack d = FObject m k :: s -> keys_sorted (m ++ l) = true ->
  exists k', foldl (fun d (kv : string * json) => handle_value (snd kv) (dom_key (fst kv) d)) d l = mkDom (root d) (FObject (m ++ l) k' :: s).
Proof.
  induction l as [| [k1 v] l IH]; intros d m k s E Hs; cbn [foldl]; [exists k; rewrite app_nil_r, <- E; by destruct d |].
  destruct (keys_sorted_app _ _ Hs) as (_ & _ & Hlt). cbn [fst snd]. assert (forallb (fun kv => String.ltb (fst kv) k1) m = true) as Hm.
  { rewrite forallb_forall in Hlt |- *. intros x Hx. by destruct (andb_prop _ _ (Hlt x Hx)). }
  rewrite (member_added k1 v d m k s) by done.
  destruct (IH (mkDom (root d) (FObject (m ++ [(k1, v)]) k1 :: s)) (m ++ [(k1, v)]) k1 s eq_refl) as [k' ->]; [by rewrite <- app_assoc |]. exists k'. cbn [root]. by rewrite <- app_assoc.
Qed.

(** The text of a value is read as the value. *)
Lemma text_reads pp step j : json_ok j = true -> forall cur, value_reads (text pp step cur j) j.
Proof.
  assert (forall n, whitespace (before_of pp n)) as Hb by (intros n; destruct pp; [apply blanks_whitespace | constructor]).
  assert (forall n, whitespace (after_of pp n)) as Ha by (intros n; destruct pp; [constructor; [done | apply blanks_whitespace] | constructor]).
  assert (whitespace (break_of pp)) as Hw by (destruct pp; repeat constructor).
  induction j as [j Ho Hr | l Hl | m Hm] using json_nested_ind; intros Hok cur.
  - destruct j as [| b | z | x | s | |]; try done; cbn [text].
    + apply literal_reads. tauto.
    + destruct b; apply literal_reads; tauto.
    + apply int_reads. cbn in Hok. apply andb_prop in Hok as [H1%Z.leb_le H2%Z.ltb_lt]. lia.
    + cbn in Hok. apply andb_prop in Hok as [H1 H2]. by apply double_reads.
    + by apply string_reads.
  - cbn [text]. destruct (decide (l = [])) as [-> | Hn]; [by apply (empty_reads true) |].
    apply (container_reads true (text pp step (next_of pp step cur)) handle_value); [done .. | |].
    + cbn [json_ok] in Hok. rewrite forallb_forall in Hok. rewrite Forall_forall in Hl |- *. intros x Hx p0 w s Hws Hfd Ht He.
      assert (In x l) as Hin by by apply list_elem_of_In. destruct (Hl x Hx (Hok x Hin) _ p0 w s Hws Hfd (or_introl Ht) He) as [H1 H2]. split; [done |]. by eexists.
    + intros d. cbn [start]. by rewrite (fold_array l (start_array d) [] (ref_stack d)).
  - cbn [text]. destruct (decide (m = [])) as [-> | Hn]; [by apply (empty_reads false) |].
    cbn [json_ok] in Hok. apply andb_prop in Hok as [Hs Hok]. rewrite forallb_forall in Hok.
    apply (container_reads false _ (fun kv d => handle_value (snd kv) (dom_key (fst kv) d))); [done .. | |].
    + rewrite Forall_forall in Hm |- *. intros [k v] Hx. assert (In (k, v) m) as Hin by by apply list_elem_of_In. specialize (Hok _ Hin) as [Hk Hv]%andb_prop.
      apply (member_reads k v (if pp then [32] else []) (text pp step (next_of pp step cur) v)); [done | destruct pp; repeat constructor |]. exact (Hm _ Hx Hv _).
    + intros d. cbn [start]. destruct (fold_object m (start_object d) [] "" (ref_stack d) eq_refl Hs) as [k' ->]. done.
Qed.

(** ** The round trip *)

Lemma digit_is_byte c : is_digit_byte c = true -> byte c.
Proof. unfold byte. intros H%between_true. lia. Qed.

Lemma number_next_byte st c st' : number_next st c = To st' -> byte c.
Proof.
  unfold number_next. destruct st; intros H;
    repeat match type of H with
      | (if is_digit_byte c then _ else _) = _ => destruct (is_digit_byte c) eqn:E; [by apply digit_is_byte | clear E]
      | (if between ?a ?b c then _ else _) = _ => destruct (between a b c) eqn:E; [apply between_true in E; unfold byte; lia | clear E]
      | (if (c =? ?k) then _ else _) = _ => destruct (Z.eqb_spec c k) as [-> |]; [done |]
      | (if (c =? ?k) || (c =? ?k') then _ else _) = _ => destruct (Z.eqb_spec c k) as [-> |]; [done |]; destruct (Z.eqb_spec c k') as [-> |]; [done |]; cbn in H
      end; done.
Qed.

Lemma number_bytes t nt : number_type t = Some nt -> Forall byte t /\ exists c t', t = c :: t' /\ c <> 239.
Proof.
  destruct t as [| c t]; [done |]. cbn [number_type]. destruct (_ || _) eqn:Ec; [| done]. destruct (number_run _ _ t) as [[st nt'] |] eqn:Er; [| done]. intros _.
  assert (byte c /\ c <> 239) as [Hc Hn] by (apply orb_prop in Ec as [->%Z.eqb_eq | Ec%between_true]; [done | unfold byte; lia]). split; [| by exists c, t]. constructor; [done |].
  clear -Er. revert Er. generalize (number_start c) as st0, value_unsigned as nt0. induction t as [| d t IH]; intros st0 nt0 H; [constructor |]. cbn [number_run] in H.
  destruct (number_next st0 d) as [st1 | |] eqn:E; [| done ..]. constructor; [by eapply number_next_byte | by eapply IH].
Qed.

Lemma escape_form_bytes q t : escape_form q t -> Forall byte q -> Forall byte t.
Proof.
  intros [c bs rs _ _ _ _ _ | c e He | c x y Hx Hy _ _] Hq; [done | |].
  - constructor; [done |]. constructor; [| constructor]. assert (In e [QUOTE; BACKSLASH; ch "/"; ch "b"; ch "f"; ch "n"; ch "r"; ch "t"]) as Hin.
    { cbn [In]. unfold escape_of in He. repeat match type of He with (if ?x =? ?k then _ else _) = _ => destruct (Z.eqb_spec x k) as [Hk |]; [rewrite Hk; tauto |] end. done. }
    cbn [In] in Hin. repeat destruct Hin as [<- | Hin]; by vm_compute.
  - assert (forall n, 0 <= n < 16 -> byte (hex_lower n)) as Hh by (intros n Hn; unfold hex_lower, byte; destruct (n <? 10); lia).
    repeat (apply Forall_cons_2; [first [apply Hh; lia | by vm_compute] |]). constructor.
Qed.

Lemma escaped_bytes b : utf8 b -> Forall byte (escaped b).
Proof.
  induction 1 as [| q b Hq _ IH]; [constructor |]. unfold escaped. rewrite flat_map_app. apply Forall_app_2; [| exact IH]. eapply escape_form_bytes; [by apply escaped_form | by apply utf8_sequence_bytes].
Qed.

Lemma quoted_bytes s r : text_ok s = true -> Forall byte r -> Forall byte (QUOTE :: escaped (bytes_of_string s) ++ QUOTE :: r).
Proof. intros Hs Hr. constructor; [done |]. apply Forall_app_2; [by apply escaped_bytes, utf8b_utf8 | by constructor]. Qed.

Lemma joined_bytes {A} before between (f : A -> list Z) l : Forall byte before -> Forall byte between -> Forall (fun x => Forall byte (f x)) l -> Forall byte (joined before between f l).
Proof. intros Hb Hw Hl. induction Hl as [| x l Hx Hl IH]; [constructor |]. destruct l; cbn [joined] in *; repeat apply Forall_app_2; done. Qed.

Lemma whitespace_bytes w : whitespace w -> Forall byte w.
Proof.
  intros H. eapply Forall_impl; [exact H |]. intros c Hc. cbn in Hc. unfold is_whitespace in Hc. rewrite !orb_true_iff, !Z.eqb_eq in Hc. by repeat destruct Hc as [Hc | Hc]; subst c.
Qed.

Lemma text_bytes pp step j : json_ok j = true -> forall cur, Forall byte (text pp step cur j).
Proof.
  assert (forall n, Forall byte (before_of pp n)) as Hb by (intros n; destruct pp; [apply whitespace_bytes, blanks_whitespace | constructor]).
  assert (forall n, Forall byte (after_of pp n)) as Ha by (intros n; destruct pp; [constructor; [done | apply whitespace_bytes, blanks_whitespace] | constructor]).
  assert (Forall byte (break_of pp)) as Hw by (apply whitespace_bytes; destruct pp; repeat constructor).
  induction j as [j Ho Hr | l Hl | m Hm] using json_nested_ind; intros Hok cur.
  - destruct j as [| b | z | x | s | |]; try done; cbn [text].
    + by repeat (apply Forall_cons_2; [done |]).
    + destruct b; by repeat (apply Forall_cons_2; [done |]).
    + by eapply number_bytes, int_text_type.
    + cbn in Hok. apply andb_prop in Hok as [H1 H2]. destruct (float_text_reads x H1 H2) as [H3 _]. by eapply number_bytes.
    + by apply quoted_bytes.
  - cbn [text]. destruct (decide (l = [])); [by repeat (apply Forall_cons_2; [done |]) |]. cbn [json_ok] in Hok. rewrite forallb_forall in Hok.
    constructor; [done |]. repeat apply Forall_app_2; try done; [| by constructor]. apply joined_bytes; [done | by constructor |]. rewrite Forall_forall in Hl |- *.
    intros x Hx. assert (In x l) as Hin by by apply list_elem_of_In. apply Hl; auto.
  - cbn [text]. destruct (decide (m = [])); [by repeat (apply Forall_cons_2; [done |]) |]. cbn [json_ok] in Hok. apply andb_prop in Hok as [_ Hok]. rewrite forallb_forall in Hok.
    constructor; [done |]. repeat apply Forall_app_2; try done; [| by constructor]. apply joined_bytes; [done | by constructor |]. rewrite Forall_forall in Hm |- *.
    intros [k v] Hx. assert (In (k, v) m) as Hin by by apply list_elem_of_In. specialize (Hok _ Hin) as [Hk Hv]%andb_prop.
    apply quoted_bytes; [done |]. constructor; [done |]. apply Forall_app_2; [apply whitespace_bytes; destruct pp; repeat constructor |]. by apply (Hm _ Hx Hv).
Qed.

Lemma text_first pp step cur j : json_ok j = true -> exists c t, text pp step cur j = c :: t /\ c <> 239.
Proof.
  intros Hok. destruct j as [| b | z | x | s | l | m]; cbn [text].
  - by eexists _, _.
  - destruct b; by eexists _, _.
  - by eapply number_bytes, int_text_type.
  - cbn in Hok. apply andb_prop in Hok as [H1 H2]. destruct (float_text_reads x H1 H2) as [H3 _]. by eapply number_bytes.
  - by eexists _, _.
  - destruct (decide _); by eexists _, _.
  - destruct (decide _); by eexists _, _.
Qed.

(** Only white space is left. *)
Lemma token_end w l : whitespace w -> feeds l w -> (0 < chars_read_total l)%nat -> fst (scan false l) = end_of_input.
Proof.
  intros Hw Hl Ht. unfold scan. rewrite (proj2 (Nat.eqb_neq (chars_read_total l) 0)) by lia. cbn [negb].
  assert (current (skip_whitespaces l) = eof) as Hc; [| unfold scan_current; by rewrite Hc].
  unfold skip_whitespaces. assert (length (unread l) < S (length (unread l)))%nat as Hlt by lia. revert Hlt. generalize (S (length (unread l))) as fuel. clear Ht. revert l Hl.
  induction Hw as [| c w Hc _ IH]; intros l Hl [| fuel] Hlt; try lia; cbn [skip_whitespace].
  - rewrite (get_end l Hl). change (is_whitespace eof) with false. cbn iota. by apply get_end.
  - destruct (get_spec l _ _ Hl) as (H1 & H2 & _). rewrite H1, Hc. apply IH; [by eapply moved_feeds |]. rewrite (moved_unread _ _ _ _ H2). destruct Hl as [_ Hu]. rewrite Hu in Hlt. cbn in Hlt. lia.
Qed.

(** What is written is [text]. *)
Lemma dump_is_text n j b : json_ok j = true -> dump n j = inr b -> b = text (0 <=? n) (Z.to_nat n) 0 j.
Proof. intros Hok Hd. unfold dump in Hd. rewrite dump_value_text in Hd by done. by injection Hd. Qed.

(** The text of a value, with what may follow it, is parsed as the value. *)
Lemma text_parsed quiet strict pp step j s : json_ok j = true -> Forall byte s -> number_ends s -> (strict = true -> whitespace s) ->
  parse false quiet strict (text pp step 0 j ++ s) = Some (Value j).
Proof.
  intros Hok Hs He Hst. set (input := text pp step 0 j ++ s). assert (Forall byte input) as Hb by (apply Forall_app_2; [by apply text_bytes | done]).
  set (p0 := mkParser (lexer_make input) uninitialized (mkDom JNull [])).
  destruct (text_reads pp step j Hok 0%nat p0 [] s (Forall_nil_2 _)) as (_ & k & p1 & R1 & R2 & R3 & R4); [by split; [split |] | right; destruct (text_first pp step 0 j Hok) as (c & t & E & Hc); cbn [app]; by rewrite E | done |].
  destruct (parser_make_ok input Hb) as [M1 M2]. pose proof (sax_parse_internal_ends (fuel_for input) false [] _ M1 ltac:(unfold fuel_for; lia)) as Hend.
  assert (sax_parse_internal false (k + 1) false [] (parser_make false input) = Some (inr p1)) as Hrun by (unfold parser_make; fold p0; by rewrite R1).
  unfold parse. destruct (sax_parse_internal false (fuel_for input) false [] (parser_make false input)) as [r |] eqn:E; [| done].
  assert (r = inr p1) as ->.
  { apply (sax_parse_more _ (k + 1 + fuel_for input)) in E; [| lia]. apply (sax_parse_more _ (k + 1 + fuel_for input)) in Hrun; [| lia]. rewrite Hrun in E. by injection E. }
  cbn [mbind option_bind]. rewrite R4. destruct strict; [| done]. rewrite bool_decide_true; [done |].
  pose proof (token_end s (m_lexer p1) (Hst eq_refl) R2 R3) as Ht. unfold get_token. destruct (scan false (m_lexer p1)). exact Ht.
Qed.

(** C7: What the serializer prints of a value, compact or indented by any width, is parsed as the same value: the
    doubles to the last bit, strings and keys with every control character, quote and escape, members
    in their order. The value's integers fit in 64 bits, its strings are UTF-8 and its doubles are finite: an
    infinity or a NaN is printed as null. This holds with exceptions or without them, and whatever follows the value in
    a stream, as long as it does not go on a number; a strict parse allows white space only. *)
Theorem json_round_trip quiet strict n j b s : json_ok j = true -> dump n j = inr b -> Forall byte s -> number_ends s -> (strict = true -> whitespace s) ->
  parse false quiet strict (b ++ s) = Some (Value j).
Proof. intros Hok Hd Hs He Hw. apply dump_is_text in Hd as ->; [| done]. by apply text_parsed. Qed.

Lemma dump_written n j : json_ok j = true -> exists b, dump n j = inr b.
Proof. intros Hok. unfold dump. rewrite dump_value_text by done. by eexists. Qed.

(** The text of [dump] through [json::parse] and [>>]. *)
Lemma dump_text_reads n j t : json_ok j = true -> dump_text n j = inr t -> json_parse_quiet t = Some j /\ json_read t = Some j.
Proof.
  intros Hok Hd. unfold dump_text in Hd. destruct (dump n j) as [what | b] eqn:E; [done |]. injection Hd as <-. apply dump_is_text in E as ->; [| done].
  unfold json_parse_quiet, json_read. rewrite bytes_of_string_of_bytes by by apply text_bytes. rewrite <- (app_nil_r (text _ _ _ _)). by rewrite !text_parsed by (done || by constructor).
Qed.

(** ** What the serializer refuses *)

(** The strings and keys are UTF-8. *)
Fixpoint texts_ok (j : json) : bool :=
  match j with
  | JString s => text_ok s
  | JArray l => forallb texts_ok l
  | JObject m => forallb (fun kv => text_ok (fst kv) && texts_ok (snd kv)) m
  | _ => true
  end.

(** The numbers fit their types, and the members are in order. *)
Fixpoint values_ok (j : json) : bool :=
  match j with
  | JInt z => (- 2 ^ 63 <=? z) && (z <? 2 ^ 64)
  | JFloat x => is_finite x && valid_binary 53 1024 x
  | JArray l => forallb values_ok l
  | JObject m => keys_sorted m && forallb (fun kv => values_ok (snd kv)) m
  | _ => true
  end.

Lemma forallb_and {A} (f g : A -> bool) l : forallb (fun x => f x && g x) l = forallb f l && forallb g l.
Proof. induction l as [| x l IH]; [done |]. cbn [forallb]. rewrite IH. by destruct (f x), (g x), (forallb f l). Qed.

Lemma forallb_same {A} (f g : A -> bool) l : Forall (fun x => f x = g x) l -> forallb f l = forallb g l.
Proof. induction 1 as [| x l Hx _ IH]; [done |]. cbn [forallb]. by rewrite Hx, IH. Qed.

(** What the parser builds, and the serializer prints so that it can be read. *)
Lemma json_ok_split j : json_ok j = values_ok j && texts_ok j.
Proof.
  induction j as [j Ho Ha | l Hl | m Hm] using json_nested_ind.
  - destruct j as [| b | z | x | s | |]; try done; cbn [json_ok values_ok texts_ok]; by rewrite andb_true_r.
  - cbn [json_ok values_ok texts_ok]. rewrite <- forallb_and. by apply forallb_same.
  - cbn [json_ok values_ok texts_ok]. rewrite <- andb_assoc. f_equal. rewrite <- forallb_and. apply forallb_same. eapply Forall_impl; [exact Hm |]. intros [k v] H. cbn [fst snd] in *. rewrite H. by destruct (text_ok k), (values_ok v), (texts_ok v).
Qed.

Definition written_ok {A} (r : string + A) : bool := match r with inr _ => true | inl _ => false end.

Lemma bind_ok {A B} (r : string + A) (f : A -> string + B) c : (forall a, written_ok (f a) = c) -> written_ok (bind r f) = written_ok r && c.
Proof. intros H. by destruct r as [what | a]; [| apply H]. Qed.

Lemma bind_write_ok {A} (r : string + A) (f : A -> string + list Z) : (forall a, written_ok (f a) = true) -> written_ok (bind r f) = written_ok r.
Proof. intros H. by rewrite (bind_ok r f true), andb_true_r. Qed.

Lemma elements_ok {A} before between (dump_one : A -> list Z -> string + list Z) (ok : A -> bool) l : (forall x out, x ∈ l -> written_ok (dump_one x out) = ok x) ->
  forall out, written_ok (dump_elements before between dump_one l out) = forallb ok l.
Proof.
  induction l as [| x l IH]; intros H out; [done |]. assert (forall out, written_ok (dump_elements before between dump_one l out) = forallb ok l) as IH' by (apply IH; intros y o Hy; apply H; by right).
  assert (forall out, written_ok (dump_one x out) = ok x) as Hx by (intros o; apply H; by left). cbn [dump_elements]. rewrite forallb_cons.
  destruct l as [| y l]; [unfold write; cbn [bind]; by rewrite Hx, andb_true_r |].
  rewrite (bind_ok _ _ _ IH'), bind_write_ok by done. unfold write. cbn [bind]. by rewrite Hx.
Qed.

Lemma quoted_ok s out : written_ok (bind (write [QUOTE] out) (fun out => dump_escaped strict false out (bytes_of_string s))) = text_ok s.
Proof.
  unfold write. cbn [bind]. destruct (dump_escaped_utf8 (out ++ [QUOTE]) (bytes_of_string s) (bytes_of_string_bytes s)) as [H1 H2]. unfold text_ok.
  destruct (utf8b _); [by rewrite (H1 eq_refl) | by destruct (H2 eq_refl) as [what ->]].
Qed.

Lemma dump_value_ok nb pp step j : forall cur out, written_ok (dump_value strict false 32 nb pp step cur j out) = texts_ok j.
Proof.
  induction j as [j Ho Ha | l Hl | m Hm] using json_nested_ind; intros cur out.
  - destruct j as [| b | z | x | s | |]; try done. cbn [dump_value texts_ok]. rewrite bind_write_ok by done. apply quoted_ok.
  - cbn [dump_value texts_ok]. destruct (decide (l = [])) as [-> |]; [done |]. rewrite Forall_forall in Hl.
    destruct pp; rewrite bind_write_ok by done; unfold write; cbn [bind]; apply elements_ok; intros x o Hx; by apply Hl.
  - cbn [dump_value texts_ok]. destruct (decide (m = [])) as [-> |]; [done |]. rewrite Forall_forall in Hm.
    destruct pp; rewrite bind_write_ok by done; unfold write at 1; cbn [bind]; apply elements_ok; intros [k v] o Hx; (rewrite (bind_ok _ _ (texts_ok v)) by (intros o'; by apply (Hm _ Hx)));
      rewrite bind_write_ok by done; cbn [fst snd]; by rewrite quoted_ok.
Qed.

(** [dump] throws exactly for a value with a string or a key that is not UTF-8. *)
Theorem dump_throws_iff n j : (exists what, dump n j = inl what) <-> texts_ok j = false.
Proof.
  unfold dump. pose proof (dump_value_ok (replicate 64 0) (0 <=? n) (Z.to_nat n) j 0 []) as H. destruct (dump_value _ _ _ _ _ _ _ _ _) as [what | b]; cbn in H; rewrite <- H; split; try done; [by exists what | by intros [what' Hw]].
Qed.

Lemma written_texts n j : (exists t, dump_text n j = inr t) -> texts_ok j = true.
Proof.
  intros [t Ht]. destruct (texts_ok j) eqn:E; [done |]. apply (dump_throws_iff n) in E as [what Hw]. unfold dump_text in Ht. by rewrite Hw in Ht.
Qed.

Lemma json_round_trip_witness : exists b, dump 2 dump_sample = inr b /\ parse false false true (b ++ [10]) = Some (Value dump_sample).
Proof.
  eexists. split; [vm_compute; reflexivity |].
  apply (json_round_trip false true 2 dump_sample); [vm_compute; reflexivity | vm_compute; reflexivity | by repeat (constructor; [done |]) | done | by repeat (constructor; [done |])].
Defined.
