(* ===== verification/SettingData.v ===== *)
(** * Setting data

    [Management/manager/include/SettingData.h], [src/SettingData.cpp] and
    [interface/ISettingData.h] and [.cpp]: the settings of the server, of a camera,
    its exclusion and its schedules, each with the updater that reads it from JSON.
    An updater works on the setting in place and can throw halfway, so it is a
    computation with a state that survives the exception. *)

From Stdlib Require Import SpecFloat String.
From S2P Require Import Prelude Float32 StringUtils Json Schedule.
Open Scope Z_scope.
Open Scope list_scope.

(** ** Updaters

    [None] is a thrown exception. *)

Definition M (S A : Type) : Type := S -> option A * S.
Definition ret {S A} (a : A) : M S A := fun s => (Some a, s).
Definition bind {S A B} (m : M S A) (f : A -> M S B) : M S B :=
  fun s => let '(o, s') := m s in match o with Some a => f a s' | None => (None, s') end.
Definition lift {S A} (o : option A) : M S A := fun s => (o, s).
Definition modify {S} (f : S -> S) : M S unit := fun s => (Some tt, f s).

Notation "x <- m ;; k" := (bind m (fun x => k)) (at level 100, m at next level, right associativity) : mgen_scope.
Notation "m ;;; k" := (bind m (fun _ => k)) (at level 100, right associativity) : mgen_scope.

Inductive UpdateMode := FullArray | FirstOnly.

(** What a setting type provides. *)
Class SettingType (D : Type) := {
  default_data : D;
  mode_ : UpdateMode;
  updater_ : json -> M D bool
}.

(** [ISettingData] with its data; the constructors always set the updater. *)
Record Setting (D : Type) := mkSetting { is_empty_ : bool; data : D }.
Arguments mkSetting {D}.
Arguments is_empty_ {D}.
Arguments data {D}.

Definition Setting_make {D} `{!SettingType D} : Setting D := mkSetting true default_data.
Definition IsEmpty {D} (s : Setting D) : bool := is_empty_ s.
Definition SetEmptyFlag {D} (s : Setting D) (flag : bool) : Setting D := mkSetting flag (data s).

(** The element the updater gets. *)
Definition updater_input (mode : UpdateMode) (update_json : json) : json :=
  match mode, update_json with
  | FirstOnly, JArray (first :: _) => first
  | _, _ => update_json
  end.

Definition UpdateFromJson {D} `{!SettingType D} (update_json : json) : M (Setting D) bool :=
  fun s =>
    let '(o, d) := updater_ (updater_input mode_ update_json) (data s) in
    let s := mkSetting (is_empty_ s) d in
    match o with
    | None => (None, s)
    | Some true => (Some true, SetEmptyFlag s false)
    | Some false => (Some false, s)
    end.

(** [possible_keys], in the order they are tried. *)
Definition possible_keys (key : string) : list string :=
  [key; ConvertToCamelCase key; ConvertToPascalCase key; ConvertToSnakeCase key].

Definition GetStringRegardlessOfCase (json_object : json) (key : string) : string :=
  match find (contains json_object) (possible_keys key) with Some k => k | None => key end.

(** ** Server *)

Definition DFPS_LIMIT_PER_UNIT : Z := 30.
Definition TRACKING_OBJECT_HIST_LIMIT : Z := 200.
Definition RTSP_PROXY_SYNC_DELAY_MS : Z := 100.
Definition RTSP_PROXY_PORT : Z := 555.
Definition FULL_FRAME_IMAGE_SAVE_ROOT_PATH : string := "/frame".
Definition CROP_FRAME_IMAGE_SAVE_ROOT_PATH : string := "/crop".

Record ServerSettingData := mkServer {
  service_server_id : Z;
  inference_per_cams_fps_limit : Z;
  tracking_memory_object_limit : Z;
  rtsp_proxies_sync_delay_ms : Z;
  rtsp_proxy_publish_port : Z;
  full_image_save_root_path : string;
  crop_image_save_root_path : string
}.

Definition ServerSettingData_default : ServerSettingData :=
  mkServer 0 DFPS_LIMIT_PER_UNIT TRACKING_OBJECT_HIST_LIMIT RTSP_PROXY_SYNC_DELAY_MS RTSP_PROXY_PORT
    FULL_FRAME_IMAGE_SAVE_ROOT_PATH CROP_FRAME_IMAGE_SAVE_ROOT_PATH.

Definition set_server_id v s := mkServer v (inference_per_cams_fps_limit s) (tracking_memory_object_limit s)
  (rtsp_proxies_sync_delay_ms s) (rtsp_proxy_publish_port s) (full_image_save_root_path s) (crop_image_save_root_path s).
Definition set_fps_limit v s := mkServer (service_server_id s) v (tracking_memory_object_limit s)
  (rtsp_proxies_sync_delay_ms s) (rtsp_proxy_publish_port s) (full_image_save_root_path s) (crop_image_save_root_path s).
Definition set_memory_limit v s := mkServer (service_server_id s) (inference_per_cams_fps_limit s) v
  (rtsp_proxies_sync_delay_ms s) (rtsp_proxy_publish_port s) (full_image_save_root_path s) (crop_image_save_root_path s).
Definition set_sync_delay v s := mkServer (service_server_id s) (inference_per_cams_fps_limit s)
  (tracking_memory_object_limit s) v (rtsp_proxy_publish_port s) (full_image_save_root_path s) (crop_image_save_root_path s).
Definition set_port v s := mkServer (service_server_id s) (inference_per_cams_fps_limit s)
  (tracking_memory_object_limit s) (rtsp_proxies_sync_delay_ms s) v (full_image_save_root_path s) (crop_image_save_root_path s).
Definition set_full_path v s := mkServer (service_server_id s) (inference_per_cams_fps_limit s)
  (tracking_memory_object_limit s) (rtsp_proxies_sync_delay_ms s) (rtsp_proxy_publish_port s) v (crop_image_save_root_path s).
Definition set_crop_path v s := mkServer (service_server_id s) (inference_per_cams_fps_limit s)
  (tracking_memory_object_limit s) (rtsp_proxies_sync_delay_ms s) (rtsp_proxy_publish_port s) (full_image_save_root_path s) v.

Local Open Scope mgen_scope.

Definition object_or_empty (j : json) : json := if is_null j then JObject [] else j.

Definition Impl_ServerSettingData_UpdateFromJsonObject (json_object : json) : M ServerSettingData bool :=
  if negb (is_object json_object) || negb (contains json_object "Id") || negb (contains json_object "Setting")
  then ret false
  else
    id <- lift (value get_int json_object "Id" 0) ;;
    modify (set_server_id id) ;;;
    let setting_js := object_or_empty (at_key json_object "Setting") in
    fps <- lift (value get_int setting_js "InferencePerCamsFpsLimit" DFPS_LIMIT_PER_UNIT) ;;
    modify (set_fps_limit fps) ;;;
    limit <- lift (value get_int setting_js "TrackingMemoryObjectLimit" TRACKING_OBJECT_HIST_LIMIT) ;;
    modify (set_memory_limit limit) ;;;
    delay <- lift (value get_int setting_js "RtspProxiesSyncDelayMs" RTSP_PROXY_SYNC_DELAY_MS) ;;
    modify (set_sync_delay delay) ;;;
    port <- lift (value get_int setting_js "RtspPort" RTSP_PROXY_PORT) ;;
    modify (set_port port) ;;;
    full <- lift (value get_string setting_js "FullImageSaveRootPath" FULL_FRAME_IMAGE_SAVE_ROOT_PATH) ;;
    modify (set_full_path full) ;;;
    crop <- lift (value get_string setting_js "CropImageSaveRootPath" CROP_FRAME_IMAGE_SAVE_ROOT_PATH) ;;
    modify (set_crop_path crop) ;;;
    if negb (contains setting_js "InferencePerCamsFpsLimit") && contains setting_js "DetectFps"
    then legacy <- lift (value get_int setting_js "DetectFps" DFPS_LIMIT_PER_UNIT) ;;
         modify (set_fps_limit legacy) ;;; ret true
    else ret true.

(** ** Camera *)

Record CameraSettingData := mkCamera {
  camera_id : Z; url : string; access_ip : string; access_id : string; access_pw : string; extend_data_ : json
}.

Definition CameraSettingData_default : CameraSettingData := mkCamera 0 "" "" "" "" JNull.

Definition set_camera_id v s := mkCamera v (url s) (access_ip s) (access_id s) (access_pw s) (extend_data_ s).
Definition set_url v s := mkCamera (camera_id s) v (access_ip s) (access_id s) (access_pw s) (extend_data_ s).
Definition set_access_ip v s := mkCamera (camera_id s) (url s) v (access_id s) (access_pw s) (extend_data_ s).
Definition set_access_id v s := mkCamera (camera_id s) (url s) (access_ip s) v (access_pw s) (extend_data_ s).
Definition set_access_pw v s := mkCamera (camera_id s) (url s) (access_ip s) (access_id s) v (extend_data_ s).
Definition set_extend_data v s := mkCamera (camera_id s) (url s) (access_ip s) (access_id s) (access_pw s) v.

(** The survey data, when there are any. *)
Definition update_survey (json_object : json) : M CameraSettingData unit :=
  let survey_data_key := GetStringRegardlessOfCase json_object "SurveyData" in
  if contains json_object survey_data_key then
    let survey_data_js := object_or_empty (at_key json_object survey_data_key) in
    if json_empty survey_data_js then ret tt else modify (set_extend_data survey_data_js)
  else ret tt.

(** The setting object, with the regions merged in. *)
Definition update_setting (json_object : json) : M CameraSettingData unit :=
  let setting_key := GetStringRegardlessOfCase json_object "setting" in
  let roi_key := GetStringRegardlessOfCase json_object "roi" in
  if contains json_object setting_key then
    let setting_js := object_or_empty (at_key json_object setting_key) in
    if contains json_object roi_key then
      let roi_js := object_or_empty (at_key json_object roi_key) in
      if json_empty roi_js then ret tt
      else merged <- lift (set_member setting_js roi_key roi_js) ;; modify (set_extend_data merged)
    else if json_empty setting_js then ret tt else modify (set_extend_data setting_js)
  else ret tt.

Definition Impl_CameraSettingData_UpdateFromJsonObject (json_object : json) : M CameraSettingData bool :=
  if negb (is_object json_object) then ret false
  else
    let key := GetStringRegardlessOfCase json_object in
    id <- lift (value get_int json_object (key "CameraId") 0) ;;
    modify (set_camera_id id) ;;;
    url <- lift (value get_string json_object (key "Url") "None"%string) ;;
    modify (set_url url) ;;;
    ip <- lift (value get_string json_object (key "AccessIp") "None"%string) ;;
    modify (set_access_ip ip) ;;;
    aid <- lift (value get_string json_object (key "AccessId") "None"%string) ;;
    modify (set_access_id aid) ;;;
    pw <- lift (value get_string json_object (key "AccessPassword") "None"%string) ;;
    modify (set_access_pw pw) ;;;
    extend <- lift (value Some json_object (key "ExtendData") (JObject [])) ;;
    modify (set_extend_data extend) ;;;
    update_survey json_object ;;;
    update_setting json_object ;;;
    ret true.

(** ** Exclusion *)

Record ExcludeCamSettingData := mkExclude { is_exclude : bool }.

Definition ExcludeCamSettingData_default : ExcludeCamSettingData := mkExclude false.

Definition Impl_ExcludeCamSettingData_UpdateFromJsonObject (json_object : json) : M ExcludeCamSettingData bool :=
  modify (fun _ => mkExclude (negb (json_empty json_object))) ;;; ret true.

(** ** Schedules *)

Definition IncludeArea : Z := 1.
Definition ExcludeArea : Z := 2.
Definition TwoWayLine : Z := 3.
Definition OneWayLine : Z := 4.

(** The fields without which an item is skipped, in the order they are tested. *)
Definition required_fields (obj : json) : bool :=
  is_object obj && contains obj "Id" && is_number_integer (at_key obj "Id") &&
  contains obj "Data" && is_object (at_key obj "Data") &&
  (let data := at_key obj "Data" in
   contains data "Rule" && is_object (at_key data "Rule") &&
   (let rule := at_key data "Rule" in
    contains rule "EventCode" && is_number_integer (at_key rule "EventCode") &&
    contains rule "LevelCode" && is_number_integer (at_key rule "LevelCode") &&
    contains rule "TimeRange" && is_object (at_key rule "TimeRange"))).

(** [get<int>()] of a value that passed its test. *)
Definition the_int (j : json) : Z := default 0 (get_int j).

Definition parse_weekly (time_object : json) : list Z :=
  match member time_object "Weekly" with
  | Some (JArray days) => map the_int (List.filter is_number_integer days)
  | _ => repeat WEEKLY_DAY_ON (Z.to_nat DAY_ABOUT_1_WEEK)
  end.

Definition parse_point (coords : json) : option (f32 * f32) :=
  match coords with
  | JArray (x :: y :: _) =>
      if is_number x && is_number y then
        match get_float x, get_float y with Some a, Some b => Some (a, b) | _, _ => None end
      else None
  | _ => None
  end.

Definition parse_area (each_roi_coords : json) : option (list (f32 * f32)) :=
  match each_roi_coords with
  | JArray l => match omap parse_point l with [] => None | roi => Some roi end
  | _ => None
  end.

(** The areas of one item of the region list; nothing for a malformed item. *)
Definition parse_areas (each_roi_obj : json) : ROI :=
  if negb (is_object each_roi_obj) then []
  else match member each_roi_obj "Points" with
       | Some (JArray l) => omap parse_area l
       | _ => []
       end.

(** The four region lists of a schedule. *)
Record Regions := mkRegions { r_include : ROI; r_exclude : ROI; r_two_way : ROI; r_one_way : ROI }.

Definition insert_areas (type_code : Z) (areas : ROI) (r : Regions) : Regions :=
  if type_code =? IncludeArea then mkRegions (r_include r ++ areas) (r_exclude r) (r_two_way r) (r_one_way r)
  else if type_code =? ExcludeArea then mkRegions (r_include r) (r_exclude r ++ areas) (r_two_way r) (r_one_way r)
  else if type_code =? TwoWayLine then mkRegions (r_include r) (r_exclude r) (r_two_way r ++ areas) (r_one_way r)
  else if type_code =? OneWayLine then mkRegions (r_include r) (r_exclude r) (r_two_way r) (r_one_way r ++ areas)
  else r.

Definition roi_type_code (each_roi_obj : json) : option Z :=
  i32 <$> value get_enum each_roi_obj "TypeCode" IncludeArea.

Definition parse_roi_step (acc : option Regions) (each_roi_obj : json) : option Regions :=
  r ← acc;
  match parse_areas each_roi_obj with
  | [] => Some r
  | areas => type_code ← roi_type_code each_roi_obj; Some (insert_areas type_code areas r)
  end.

Definition roi_items (obj : json) : list json :=
  match member (at_key obj "Data") "Roi" with Some (JArray l) => l | _ => [] end.

(** The whole frame when no region is included. *)
Definition whole_frame : list (f32 * f32) := [(f0, f0); (f0, f1); (f1, f1); (f1, f0)].

Definition parse_regions (obj : json) : option Regions :=
  r ← foldl parse_roi_step (Some (mkRegions [] [] [] [])) (roi_items obj);
  Some match r_include r with
       | [] => mkRegions [whole_frame] (r_exclude r) (r_two_way r) (r_one_way r)
       | _ => r
       end.

Definition parse_black_list (obj : json) : list string :=
  match member (at_key (at_key obj "Data") "BlackList") "Data" with
  | Some (JArray dates) => omap get_string dates
  | _ => []
  end.

(** Notification interval and duration. *)
Definition parse_extra (rule : json) : option (Z * Z) :=
  match member rule "ExtraSettings" with
  | Some extra_settings =>
      n ← value get_int extra_settings "NotificationDelaySec" MINIMUM_EVENT_ACTIVE_INTERVAL_SEC;
      l ← value get_int extra_settings "LoiteringDurationSec" DEFAULT_EVENT_LOITER_DURATION_SEC;
      Some (n, l)
  | None => Some (MINIMUM_EVENT_ACTIVE_INTERVAL_SEC, DEFAULT_EVENT_LOITER_DURATION_SEC)
  end.

(** An item with the required fields; [None]: an exception. *)
Definition parse_schedule (obj : json) : option ScheduleInfo :=
  let rule := at_key (at_key obj "Data") "Rule" in
  let time_object := at_key rule "TimeRange" in
  start ← value get_string time_object "Start" "00:00"%string;
  range ← value get_int time_object "Range" MIN_ABOUT_1_DAY;
  r ← parse_regions obj;
  extra ← parse_extra rule;
  let '(notification, loitering) := extra in
  Some (mkScheduleInfo (the_int (at_key obj "Id")) (EventClass_of_int (the_int (at_key rule "EventCode")))
          (the_int (at_key rule "LevelCode")) start range (parse_weekly time_object)
          (r_include r) (r_exclude r) (r_two_way r) (r_one_way r) (parse_black_list obj)
          (if notification <? 1 then MINIMUM_EVENT_ACTIVE_INTERVAL_SEC else notification) loitering).

Record ScheduleSettingData := mkSchedules { schedules : list ScheduleInfo }.

(** The schedules are swapped in at the end, so an exception leaves the setting
    as it was. *)
Definition Impl_ScheduleSettingData_UpdateFromJsonArray (json_array : json) : M ScheduleSettingData bool :=
  match json_array with
  | JArray [] => modify (fun _ => mkSchedules []) ;;; ret true
  | JArray items =>
      updated <- lift (mapM parse_schedule (List.filter required_fields items)) ;;
      modify (fun _ => mkSchedules updated) ;;; ret true
  | _ => ret false
  end.

#[export] Instance server_setting : SettingType ServerSettingData :=
  {| default_data := ServerSettingData_default; mode_ := FirstOnly;
     updater_ := Impl_ServerSettingData_UpdateFromJsonObject |}.
#[export] Instance camera_setting : SettingType CameraSettingData :=
  {| default_data := CameraSettingData_default; mode_ := FirstOnly;
     updater_ := Impl_CameraSettingData_UpdateFromJsonObject |}.
#[export] Instance exclude_setting : SettingType ExcludeCamSettingData :=
  {| default_data := ExcludeCamSettingData_default; mode_ := FirstOnly;
     updater_ := Impl_ExcludeCamSettingData_UpdateFromJsonObject |}.
#[export] Instance schedule_setting : SettingType ScheduleSettingData :=
  {| default_data := mkSchedules []; mode_ := FullArray;
     updater_ := Impl_ScheduleSettingData_UpdateFromJsonArray |}.

(** ** What the updater of schedules accepts *)

(** The member is absent or can be read. *)
Definition field_ok {A} (get : json -> option A) (j : json) (key : string) : bool :=
  match member j key with Some v => bool_decide (is_Some (get v)) | None => true end.

(** The optional fields of an item have the types the updater reads. *)
Definition optional_fields_ok (obj : json) : bool :=
  let rule := at_key (at_key obj "Data") "Rule" in
  let time_object := at_key rule "TimeRange" in
  field_ok get_string time_object "Start" && field_ok get_int time_object "Range" &&
  forallb (fun o => match parse_areas o with [] => true | _ => field_ok get_enum o "TypeCode" end) (roi_items obj) &&
  match member rule "ExtraSettings" with
  | Some e => is_object e && field_ok get_int e "NotificationDelaySec" && field_ok get_int e "LoiteringDurationSec"
  | None => true
  end.

Lemma value_is_Some {A} (get : json -> option A) j key d :
  is_object j = true -> (is_Some (value get j key d) <-> field_ok get j key = true).
Proof.
  destruct j; try done. intros _. unfold field_ok, value. cbn [member].
  destruct (find_member key m) as [v |]; [by rewrite bool_decide_eq_true |]. split; [done | by eexists].
Qed.

Lemma value_not_object {A} (get : json -> option A) j key d :
  is_object j = false -> value get j key d = None.
Proof. by destruct j. Qed.

Lemma is_Some_bind {A B} (o : option A) (f : A -> option B) :
  is_Some (o ≫= f) <-> exists a, o = Some a /\ is_Some (f a).
Proof. destruct o as [a |]; cbn; split; [intros H; by exists a | by intros (? & [= <-] & ?) | by intros [? ?] | by intros (? & ? & ?)]. Qed.

Lemma required_time_object obj :
  required_fields obj = true -> is_object (at_key (at_key (at_key obj "Data") "Rule") "TimeRange") = true.
Proof. unfold required_fields. intros H. bool_to_prop. done. Qed.

Lemma areas_object o : parse_areas o <> [] -> is_object o = true.
Proof. unfold parse_areas. by destruct (is_object o). Qed.

Lemma parse_roi_fold items r :
  is_Some (foldl parse_roi_step (Some r) items) <->
  forallb (fun o => match parse_areas o with [] => true | _ => field_ok get_enum o "TypeCode" end) items = true.
Proof.
  revert r. induction items as [| o items IH]; intros r; cbn; [split; [done | by eexists] |].
  destruct (parse_areas o) as [| a areas] eqn:Ea; [apply IH |].
  assert (is_object o = true) as Ho by (apply areas_object; by rewrite Ea).
  pose proof (value_is_Some get_enum o "TypeCode" IncludeArea Ho) as Hv. unfold roi_type_code.
  destruct (value get_enum o "TypeCode" IncludeArea) as [v |] eqn:Ev; cbn.
  - rewrite (proj1 Hv (mk_is_Some _ _ eq_refl)). apply IH.
  - destruct (field_ok get_enum o "TypeCode"); [destruct (proj2 Hv eq_refl) as [? [=]] |]. cbn.
    assert (foldl parse_roi_step None items = None) as ->; [by clear; induction items |]. split; [by intros [? ?] | done].
Qed.

Lemma parse_regions_is_Some obj :
  is_Some (parse_regions obj) <->
  forallb (fun o => match parse_areas o with [] => true | _ => field_ok get_enum o "TypeCode" end) (roi_items obj) = true.
Proof.
  unfold parse_regions. rewrite is_Some_bind, <- (parse_roi_fold (roi_items obj) (mkRegions [] [] [] [])).
  split; [intros (r & -> & _); by eexists | intros [r Hr]; exists r; split; [done | by eexists]].
Qed.

Lemma parse_extra_is_Some rule :
  is_Some (parse_extra rule) <->
  match member rule "ExtraSettings" with
  | Some e => is_object e && field_ok get_int e "NotificationDelaySec" && field_ok get_int e "LoiteringDurationSec"
  | None => true
  end = true.
Proof.
  unfold parse_extra. destruct (member rule "ExtraSettings") as [e |]; [| split; [done | by eexists]].
  destruct (is_object e) eqn:Ho; cbn.
  - rewrite andb_true_iff, <- !value_is_Some by exact Ho. rewrite is_Some_bind. split.
    + intros (n & Hn & (l & Hl & _)%is_Some_bind). by rewrite Hn, Hl.
    + intros [[n Hn] [l Hl]]. exists n. split; [exact Hn |]. rewrite is_Some_bind. exists l. split; [exact Hl | by eexists].
  - rewrite !value_not_object by exact Ho. split; [by intros [? ?] | done].
Qed.

(** An item is read exactly when its optional fields have the right types. *)
Lemma parse_schedule_is_Some obj :
  required_fields obj = true -> (is_Some (parse_schedule obj) <-> optional_fields_ok obj = true).
Proof.
  intros Hr%required_time_object. unfold parse_schedule, optional_fields_ok. cbv zeta.
  rewrite !andb_true_iff, <- !value_is_Some by exact Hr.
  rewrite <- parse_regions_is_Some, <- parse_extra_is_Some.
  split.
  - intros (st & Hst & (rg & Hrg & (r & Hre & (e & He & _)%is_Some_bind)%is_Some_bind)%is_Some_bind)%is_Some_bind.
    rewrite Hst, Hrg, Hre, He. split_and!; by eexists.
  - intros [[[[st ->] [rg ->]] [r ->]] [[n l] ->]]. cbn. by eexists.
Qed.

Lemma get_int_range j z : get_int j = Some z -> in_i32 z.
Proof.
  destruct j as [| b | z' | f | s | l | m]; cbn; try done; intros [= <-].
  - unfold in_i32. destruct b; lia.
  - auto with mgen.
  - unfold in_i32, i32_of_f, saturate32. destruct f; try (destruct s; cbn); lia.
Qed.

Lemma the_int_range j : in_i32 (the_int j).
Proof. unfold the_int. destruct (get_int j) eqn:E; [by eapply get_int_range | unfold in_i32; cbn; lia]. Qed.

Lemma value_int_range j key d z : in_i32 d -> value get_int j key d = Some z -> in_i32 z.
Proof.
  intros Hd. destruct j; cbn; try done. destruct (find_member key m) as [v |]; [apply get_int_range |]. by intros [= <-].
Qed.

(** A schedule the checkers can work with. *)
Record schedule_wf (s : ScheduleInfo) : Prop := {
  wf_roi : roi s <> [];
  wf_areas : Forall (fun area => area <> []) (roi s ++ exclude_roi s ++ two_way_roi s ++ one_way_roi s);
  wf_interval : 1 <= notification_min_interval_sec s;
  wf_ints : in_i32 (schedule_id s) /\ in_i32 (level_code s) /\ in_i32 (range_minutes s) /\
            in_i32 (notification_min_interval_sec s) /\ in_i32 (loitering_require_dur_sec s) /\
            Forall in_i32 (weekly s)
}.

Definition nonempty_areas (areas : ROI) : Prop := Forall (fun area => area <> []) areas.

Lemma parse_areas_nonempty o : nonempty_areas (parse_areas o).
Proof.
  unfold parse_areas, nonempty_areas. destruct (is_object o); cbn [negb]; [| constructor].
  destruct (member o "Points") as [[] |]; try constructor. apply Forall_forall. intros area Ha.
  apply list_elem_of_omap in Ha as (j & _ & Hj). unfold parse_area in Hj. destruct j; try done.
  destruct (omap parse_point l0); [done |]. by injection Hj as <-.
Qed.

Definition regions_ok (r : Regions) : Prop :=
  nonempty_areas (r_include r) /\ nonempty_areas (r_exclude r) /\ nonempty_areas (r_two_way r) /\ nonempty_areas (r_one_way r).

Lemma insert_areas_ok code areas r : nonempty_areas areas -> regions_ok r -> regions_ok (insert_areas code areas r).
Proof.
  intros Ha (H1 & H2 & H3 & H4). unfold insert_areas.
  repeat case_if; split_and!; cbn; try done; by apply Forall_app.
Qed.

Lemma parse_roi_fold_ok items acc r :
  (forall r0, acc = Some r0 -> regions_ok r0) -> foldl parse_roi_step acc items = Some r -> regions_ok r.
Proof.
  revert acc. induction items as [| o items IH]; intros acc Hacc; cbn; [apply Hacc |]. apply IH.
  intros r1 Hr1. destruct acc as [r0 |]; [| done]. specialize (Hacc r0 eq_refl). cbn in Hr1.
  pose proof (parse_areas_nonempty o) as Ha.
  destruct (parse_areas o) as [| a areas]; [by injection Hr1 as <- |].
  destruct (roi_type_code o) as [code |]; [| done]. injection Hr1 as <-. by apply insert_areas_ok.
Qed.

Lemma parse_regions_ok obj r : parse_regions obj = Some r -> regions_ok r /\ r_include r <> [].
Proof.
  unfold parse_regions. destruct (foldl _ _ _) as [r0 |] eqn:E; [| done]. cbn. intros [= <-].
  assert (regions_ok r0) as H0.
  { eapply parse_roi_fold_ok; [| exact E]. intros r1 [= <-]. split_and!; constructor. }
  destruct (r_include r0) eqn:Ei; [| by rewrite Ei].
  split; [| done]. destruct H0 as (_ & H2 & H3 & H4). split_and!; cbn; try done. by repeat constructor.
Qed.

Lemma parse_schedule_wf obj s :
  parse_schedule obj = Some s -> schedule_wf s /\ schedule_id s = the_int (at_key obj "Id").
Proof.
  unfold parse_schedule. cbv zeta.
  destruct (value get_string _ _ _) as [start |]; [cbn | done].
  destruct (value get_int _ _ _) as [range |] eqn:Er; [cbn | done].
  destruct (parse_regions obj) as [r |] eqn:Ereg; [cbn | done].
  destruct (parse_extra _) as [[n l] |] eqn:Ex; [cbn | done]. intros [= <-].
  apply parse_regions_ok in Ereg as ((H1 & H2 & H3 & H4) & Hne).
  apply value_int_range in Er; [| unfold in_i32, MIN_ABOUT_1_DAY; lia].
  assert (in_i32 n /\ in_i32 l) as [Hn Hl].
  { unfold parse_extra in Ex. destruct (member _ "ExtraSettings") as [e |].
    - destruct (value get_int e "NotificationDelaySec" _) as [n' |] eqn:En; [cbn in Ex | done].
      destruct (value get_int e "LoiteringDurationSec" _) as [l' |] eqn:El; [cbn in Ex | done].
      injection Ex as -> ->. apply value_int_range in En, El; [done | unfold in_i32, DEFAULT_EVENT_LOITER_DURATION_SEC; lia
        | unfold in_i32, MINIMUM_EVENT_ACTIVE_INTERVAL_SEC; lia].
    - injection Ex as <- <-. unfold in_i32, DEFAULT_EVENT_LOITER_DURATION_SEC, MINIMUM_EVENT_ACTIVE_INTERVAL_SEC. lia. }
  split; [| done]. split; cbn.
  - exact Hne.
  - rewrite !Forall_app. done.
  - unfold MINIMUM_EVENT_ACTIVE_INTERVAL_SEC. case_if; bool_to_prop; lia.
  - split_and!; try done; try apply the_int_range.
    + unfold MINIMUM_EVENT_ACTIVE_INTERVAL_SEC. case_if; [unfold in_i32; lia | done].
    + unfold parse_weekly. destruct (member _ "Weekly") as [[] |];
        try (apply Forall_map, Forall_forall; intros; apply the_int_range);
        apply Forall_forall; intros d Hd; apply list_elem_of_In, repeat_spec in Hd as ->; unfold in_i32, WEEKLY_DAY_ON; lia.
Qed.

(** The schedules of a camera are read all or not at all.  The updater throws
    exactly when an item with the required fields has an optional field of
    another type, and then the schedules stay what they were; otherwise the array
    replaces them by one schedule for each item with the required fields, in
    order, under its identifier, and each has a region, no empty region, an
    interval of at least one second and numbers that fit an [int].  What is not an
    array is refused. *)
Theorem schedules_read_all_or_nothing j d :
  let '(result, d') := Impl_ScheduleSettingData_UpdateFromJsonArray j d in
  match j with
  | JArray items =>
      (result = None <-> exists obj, obj ∈ items /\ required_fields obj = true /\ optional_fields_ok obj = false) /\
      (result = None -> d' = d) /\
      (result <> None -> result = Some true /\ Forall schedule_wf (schedules d') /\
         map schedule_id (schedules d') = map (fun obj => the_int (at_key obj "Id")) (List.filter required_fields items))
  | _ => result = Some false /\ d' = d
  end.
Proof.
  destruct j as [| | | | | items |]; try (by cbn).
  assert (forall l, (forall obj, obj ∈ l -> required_fields obj = true) ->
    (mapM parse_schedule l = None <-> exists obj, obj ∈ l /\ optional_fields_ok obj = false)) as Hnone.
  { intros l Hl. rewrite eq_None_not_Some, mapM_is_Some. split.
    - intros Hn. apply not_Forall_Exists in Hn; [| solve_decision]. apply Exists_exists in Hn as (obj & Hin & Hn).
      exists obj. split; [done |].
      change (~ is_Some (parse_schedule obj)) in Hn. rewrite parse_schedule_is_Some in Hn by auto. by apply not_true_is_false.
    - intros (obj & Hin & Ho) Hall. rewrite Forall_forall in Hall. specialize (Hall obj Hin).
      change (is_Some (parse_schedule obj)) in Hall. rewrite parse_schedule_is_Some in Hall by auto. congruence. }
  specialize (Hnone (List.filter required_fields items)).
  assert (forall obj, obj ∈ List.filter required_fields items <-> obj ∈ items /\ required_fields obj = true) as Hin.
  { intros obj. rewrite !list_elem_of_In, filter_In. done. }
  specialize (Hnone ltac:(intros obj; rewrite Hin; tauto)).
  assert (Impl_ScheduleSettingData_UpdateFromJsonArray (JArray items) d =
    match mapM parse_schedule (List.filter required_fields items) with
    | Some l => (Some true, mkSchedules l) | None => (None, d) end) as ->.
  { destruct items; [done |]. unfold Impl_ScheduleSettingData_UpdateFromJsonArray, bind, lift.
    by destruct (mapM _ _). }
  destruct (mapM parse_schedule _) as [l |] eqn:E.
  - split; [| split; [done |]].
    + split; [done |]. intros (obj & Ho & Hr & Hopt). exfalso.
      assert (Some l = None) as H; [| discriminate H]. apply Hnone. exists obj. rewrite Hin. done.
    + intros _. apply mapM_Some in E. cbn [schedules]. split; [done |]. split.
      * clear -E. induction E; constructor; [by eapply parse_schedule_wf | done].
      * clear -E. induction E as [| obj s l l' H _ IH]; [done |]. cbn. by rewrite (proj2 (parse_schedule_wf _ _ H)), IH.
  - split; [| split; done]. split; [| done]. intros _. destruct (proj1 Hnone eq_refl) as (obj & Ho%Hin & Hopt).
    exists obj. tauto.
Qed.

(** A type code written as a string passes the required fields and throws. *)
Definition demo_item (type_code : json) : json :=
  JObject [("Id", JInt 7);
    ("Data", JObject [
       ("Rule", JObject [("EventCode", JInt 202); ("LevelCode", JInt 1);
          ("TimeRange", JObject [("Start", JString "09:00"); ("Range", JInt 60)])]);
       ("Roi", JArray [JObject [("TypeCode", type_code);
          ("Points", JArray [JArray [JArray [JInt 0; JFloat (f64_of_f32 (f32_lit 1 2))]; JArray [JInt 1; JInt 1]]])]])])]%string.

Example demo_item_accepted :
  exists s, Impl_ScheduleSettingData_UpdateFromJsonArray (JArray [JNull; demo_item (JInt 3)]) (mkSchedules []) =
    (Some true, mkSchedules [s]) /\ two_way_roi s = [[(f0, f32_lit 1 2); (f1, f1)]] /\ roi s = [whole_frame].
Proof. eexists. vm_compute. split_and!; reflexivity. Qed.

Example demo_item_throws :
  Impl_ScheduleSettingData_UpdateFromJsonArray (JArray [demo_item (JString "3")]) (mkSchedules []) = (None, mkSchedules []).
Proof. vm_compute. reflexivity. Qed.

(** ** Fields are found under any spelling *)

(** A field written in snake case is found under the name the code asks for in
    Pascal case, when it is written in no other spelling: the conversions are each
    other's inverse on names. *)
Theorem snake_field_found j name :
  snake_name true name = true -> contains j name = true ->
  Forall (fun key => contains j key = false \/ key = name) (possible_keys (ConvertToPascalCase name)) ->
  GetStringRegardlessOfCase j (ConvertToPascalCase name) = name.
Proof.
  intros Hn Hc Hother. unfold GetStringRegardlessOfCase.
  assert (name ∈ possible_keys (ConvertToPascalCase name)) as Hin.
  { unfold possible_keys. rewrite (proj1 (snake_round_trip name Hn)). right. right. right. left. }
  destruct (find (contains j) (possible_keys (ConvertToPascalCase name))) as [k |] eqn:E.
  - apply find_some in E as [Hk Hck]. rewrite Forall_forall in Hother.
    destruct (Hother k ltac:(by apply list_elem_of_In)); congruence.
  - pose proof (find_none _ _ E name ltac:(by apply list_elem_of_In)) as H. congruence.
Qed.

Lemma snake_field_found_witness :
  GetStringRegardlessOfCase (JObject [("access_ip", JString "10.0.0.1")])%string "AccessIp" = "access_ip"%string.
Proof.
  refine (snake_field_found (JObject [("access_ip", JString "10.0.0.1")])%string "access_ip" _ _ _).
  - vm_compute. reflexivity.
  - vm_compute. reflexivity.
  - apply (bool_decide_unpack _). vm_compute. exact I.
Defined.
