(* ===== verification/SettingManager.v ===== *)
(** * Setting managers

    [Management/manager/include/SetterBase.h] and [SettingManagerBase.h]: the
    settings of one kind for all cameras, with the callbacks of the units that
    follow them; [Management/worker/src/SioHandler.cpp] ([SioEventBinder::Run]),
    [ApiHandler.cpp] and [Main/DETECTOR/src/DETECTOR.cpp]: the update of the
    settings on a Socket.IO event, through a request to the settings server.

    A method is a function that returns what its caller gets, [None] for an exception,
    with the new state and the callbacks it calls, in order.  All but one run under their
    locks from the first to the last access of the maps, callbacks excepted.  The
    exception is [RenewAfterReset], which gives up the lock of the map between its
    sections ([renew_prepare], [renew_rollback] or [renew_swap], [renew_trigger]); the
    function is their composition when no other thread runs in between, and
    [renewal_loses_registration] is what can happen when one does.  The order in which an [unordered_map] is visited is that of
    [map_to_list]; it shows only in the order of calls to different callbacks. *)

From Stdlib Require Import String.
From stdpp Require Import gmap pretty.
From S2P Require Import Prelude Json SettingData.
Open Scope Z_scope.
Open Scope list_scope.

Definition MISSING_UNIT_ID : Z := -99.

Section Manager.
(** The setting, and what identifies a callback. *)
Context {D : Type} `{!SettingType D} {C : Type}.

(** ** One unit *)

Record SetterBase := mkSetter {
  is_initialized_ : bool;
  setting_data_ : Setting D;
  callbacks_ : gmap string C
}.

Definition SetterBase_make : SetterBase := mkSetter false Setting_make ∅.

Definition Calls : Type := list (C * Setting D).

(** Every callback, with the data. *)
Definition invocations (s : SetterBase) : Calls :=
  map (fun p => (snd p, setting_data_ s)) (map_to_list (callbacks_ s)).

(** A refused update restores the data of an initialised setter; after an
    exception they stay as the updater left them. *)
Definition UpdateInternal (update_json : json) (s : SetterBase) : option bool * SetterBase :=
  let '(o, d) := UpdateFromJson update_json (setting_data_ s) in
  match o with
  | Some true => (Some true, mkSetter true d (callbacks_ s))
  | Some false => (Some false, mkSetter (is_initialized_ s)
                     (if is_initialized_ s then setting_data_ s else d) (callbacks_ s))
  | None => (None, mkSetter (is_initialized_ s) d (callbacks_ s))
  end.

Definition Setter_Update (update_json : json) (s : SetterBase) : option bool * SetterBase * Calls :=
  let '(o, s) := UpdateInternal update_json s in
  match o with
  | Some true => (Some true, s, invocations s)
  | _ => (o, s, [])
  end.

Definition Setter_GetSetting (s : SetterBase) : option (Setting D) :=
  if is_initialized_ s then Some (setting_data_ s) else None.

Definition with_callbacks (s : SetterBase) cbs : SetterBase := mkSetter (is_initialized_ s) (setting_data_ s) cbs.

(** The generated identifier of the callback, or the empty string. *)
Definition Setter_RegisterCallback (callback : C) (uuid : string) (s : SetterBase) : string * SetterBase :=
  if String.eqb uuid "" then (""%string, s)
  else (uuid, with_callbacks s (<[uuid := callback]> (callbacks_ s))).

Definition Setter_UnregisterCallback (uuid : string) (s : SetterBase) : bool * SetterBase :=
  if String.eqb uuid "" then (false, s)
  else (bool_decide (is_Some (callbacks_ s !! uuid)), with_callbacks s (delete uuid (callbacks_ s))).

Definition StealCallbacks (s : SetterBase) : gmap string C * SetterBase := (callbacks_ s, with_callbacks s ∅).
Definition SetCallbacks (cbs : gmap string C) (s : SetterBase) : SetterBase := with_callbacks s cbs.

Definition TriggerCallbacks (s : SetterBase) : Calls := if is_initialized_ s then invocations s else [].

(** ** All units *)

Record SettingManagerBase := mkManager { unit_key_name_ : string; settings_ : gmap Z SetterBase }.

Definition with_settings (m : SettingManagerBase) st : SettingManagerBase := mkManager (unit_key_name_ m) st.

Definition IsUnitExist (m : SettingManagerBase) (id : Z) : bool := bool_decide (is_Some (settings_ m !! id)).
Definition GetRegistedUnitList (m : SettingManagerBase) : gset Z := dom (settings_ m).

Definition GetSetting (m : SettingManagerBase) (id : Z) : option (Setting D) :=
  settings_ m !! id ≫= Setter_GetSetting.

Definition GetUnitID (unit_key_name : string) (json_object : json) : option Z :=
  if String.eqb unit_key_name "" then Some MISSING_UNIT_ID
  else if negb (is_object json_object) then Some MISSING_UNIT_ID
  else if negb (contains json_object unit_key_name) then Some MISSING_UNIT_ID
  else value get_int json_object unit_key_name MISSING_UNIT_ID.

(** The unit's setter, created when there is none. *)
Definition setter_of (m : SettingManagerBase) (id : Z) : SetterBase := default SetterBase_make (settings_ m !! id).

Definition UpdateTargetUnit (id : Z) (update_json : json) (m : SettingManagerBase)
    : option bool * SettingManagerBase * Calls :=
  if id =? MISSING_UNIT_ID then (Some false, m, [])
  else
    let '(o, s, calls) := Setter_Update update_json (setter_of m id) in
    (o, with_settings m (<[id := s]> (settings_ m)), calls).

Definition RemoveTargetUnit (id : Z) (m : SettingManagerBase) : bool * SettingManagerBase :=
  if id =? MISSING_UNIT_ID then (false, m)
  else (bool_decide (is_Some (settings_ m !! id)), with_settings m (delete id (settings_ m))).

(** The objects of each unit, in the order of the array. *)
Definition cluster_step (key : string) (acc : option (gmap Z (list json))) (object : json) : option (gmap Z (list json)) :=
  cluster ← acc;
  if negb (is_object object) || negb (contains object key) then Some cluster
  else
    unit_id ← GetUnitID key object;
    if unit_id =? MISSING_UNIT_ID then Some cluster
    else Some (<[unit_id := default [] (cluster !! unit_id) ++ [object]]> cluster).

Definition sort_cluster (key : string) (items : list json) : option (gmap Z (list json)) :=
  foldl (cluster_step key) (Some ∅) items.

(** One unit of a bulk update; an exception stops the loop. *)
Definition bulk_step (acc : option bool * SettingManagerBase * Calls) (p : Z * list json)
    : option bool * SettingManagerBase * Calls :=
  let '(o, m, calls) := acc in
  match o with
  | None => acc
  | Some all_success =>
      let '(o, m, more) := UpdateTargetUnit (fst p) (JArray (snd p)) m in
      (match o with Some ok => Some (all_success && ok) | None => None end, m, calls ++ more)
  end.

Definition UpdateBulkUnits (update_json : json) (m : SettingManagerBase) : option bool * SettingManagerBase * Calls :=
  match update_json with
  | JArray items =>
      match sort_cluster (unit_key_name_ m) items with
      | None => (None, m, [])
      | Some cluster => foldl bulk_step (Some true, m, []) (map_to_list cluster)
      end
  | _ => (Some false, m, [])
  end.

(** ** Renewal

    The new setters, the callbacks taken from the old ones, the old setters. *)
Record Preparation := mkPrep {
  p_old : gmap Z SetterBase;
  map_for_swap : gmap Z SetterBase;
  stolen_callbacks : gmap Z (gmap string C);
  preparation_ok : bool
}.

Definition prepare_step (p : Preparation) (u : Z * list json) : Preparation :=
  let '(unit_id, init_data) := u in
  if negb (preparation_ok p) then p
  else
    match Setter_Update (JArray init_data) SetterBase_make with
    | (Some true, new_setter, _) =>
        match p_old p !! unit_id with
        | Some old =>
            let '(cbs, old') := StealCallbacks old in
            mkPrep (<[unit_id := old']> (p_old p)) (<[unit_id := new_setter]> (map_for_swap p))
              (<[unit_id := cbs]> (stolen_callbacks p)) true
        | None => mkPrep (p_old p) (<[unit_id := new_setter]> (map_for_swap p)) (stolen_callbacks p) true
        end
    | (Some false, _, _) => p
    | (None, _, _) => mkPrep (p_old p) (map_for_swap p) (stolen_callbacks p) false
    end.

Definition prepare (old : gmap Z SetterBase) (cluster : gmap Z (list json)) : Preparation :=
  foldl prepare_step (mkPrep old ∅ ∅ true) (map_to_list cluster).

(** The stolen callbacks go back to the setters that are there. *)
Definition rollback (p : Preparation) (st : gmap Z SetterBase) : gmap Z SetterBase :=
  map_fold (fun unit_id cbs old => alter (SetCallbacks cbs) unit_id old) st (stolen_callbacks p).

(** The stolen callbacks go to the new setters. *)
Definition hand_over (p : Preparation) : gmap Z SetterBase :=
  map_imap (fun unit_id s =>
    Some match stolen_callbacks p !! unit_id with
         | Some cbs => if bool_decide (cbs = ∅) then s else SetCallbacks cbs s
         | None => s
         end) (map_for_swap p).

(** The section of the preparation; [None]: an exception before it. *)
Definition renew_prepare (items : list json) (m : SettingManagerBase) : option (Preparation * SettingManagerBase) :=
  cluster ← sort_cluster (unit_key_name_ m) items;
  let p := prepare (settings_ m) cluster in Some (p, with_settings m (p_old p)).

(** The section that ends a failed preparation, and the two that end a successful one. *)
Definition renew_rollback (p : Preparation) (m : SettingManagerBase) : SettingManagerBase := with_settings m (rollback p (settings_ m)).
Definition renew_swap `{!EqDecision C} (p : Preparation) (m : SettingManagerBase) : SettingManagerBase := with_settings m (hand_over p).
Definition renew_trigger (m : SettingManagerBase) : Calls := flat_map (fun u => TriggerCallbacks (snd u)) (map_to_list (settings_ m)).

Definition RenewAfterReset `{!EqDecision C} (renew_json : json) (m : SettingManagerBase)
    : bool * SettingManagerBase * Calls :=
  match renew_json with
  | JArray items =>
      match renew_prepare items m with
      | None => (false, m, [])
      | Some (p, m) =>
          if negb (preparation_ok p) then (false, renew_rollback p m, [])
          else let m := renew_swap p m in (true, m, renew_trigger m)
      end
  | _ => (false, m, [])
  end.

(** ** Callbacks *)

Definition RegisterCallback (id : Z) (callback : C) (uuid : string) (m : SettingManagerBase) : string * SettingManagerBase :=
  if id =? MISSING_UNIT_ID then (""%string, m)
  else
    let '(res, s) := Setter_RegisterCallback callback uuid (setter_of m id) in
    (res, with_settings m (<[id := s]> (settings_ m))).

Definition UnregisterCallback (id : Z) (uuid : string) (m : SettingManagerBase) : bool * SettingManagerBase :=
  if id =? MISSING_UNIT_ID then (false, m)
  else if String.eqb uuid "" then (false, m)
  else match settings_ m !! id with
       | None => (false, m)
       | Some s => let '(res, s) := Setter_UnregisterCallback uuid s in
                   (res, with_settings m (<[id := s]> (settings_ m)))
       end.

End Manager.

Arguments SetterBase : clear implicits.
Arguments SettingManagerBase : clear implicits.

(** ** Renewal *)

Section Renewal.
Context {D : Type} `{!SettingType D} {C : Type}.
Implicit Types (old : gmap Z (SetterBase D C)) (p : @Preparation D C).

Lemma update_callbacks j (s : SetterBase D C) o s' calls :
  Setter_Update j s = (o, s', calls) -> callbacks_ s' = callbacks_ s.
Proof.
  unfold Setter_Update, UpdateInternal. destruct (UpdateFromJson _ _) as [[[] |] d]; by intros [= <- <- <-].
Qed.

(** What a unit of the array becomes, before it gets its callbacks. *)
Definition renewed (init_data : list json) : option (SetterBase D C) :=
  match Setter_Update (JArray init_data) (SetterBase_make (C := C)) with
  | (Some true, s, _) => Some s
  | _ => None
  end.

Record prepared old (done : gmap Z (list json)) p : Prop := {
  pr_untouched u : stolen_callbacks p !! u = None -> p_old p !! u = old !! u;
  pr_stolen u cbs : stolen_callbacks p !! u = Some cbs ->
    exists s, old !! u = Some s /\ callbacks_ s = cbs /\ p_old p !! u = Some (with_callbacks s ∅);
  pr_swap u : preparation_ok p = true -> map_for_swap p !! u = done !! u ≫= renewed;
  pr_kept u : stolen_callbacks p !! u = match map_for_swap p !! u with
                                        | Some _ => callbacks_ <$> old !! u | None => None end
}.

Lemma prepare_step_prepared old dn p u init_data :
  dn !! u = None -> map_for_swap p !! u = None -> prepared old dn p ->
  prepared old (<[u := init_data]> dn) (prepare_step p (u, init_data)) /\
  (forall v, v <> u -> map_for_swap (prepare_step p (u, init_data)) !! v = map_for_swap p !! v).
Proof.
  intros Hd Hu [H1 H2 H3 H4]. pose proof (H4 u) as Hsu. rewrite Hu in Hsu.
  unfold prepare_step. destruct (preparation_ok p) eqn:Eok; cbn [negb].
  - destruct (Setter_Update (JArray init_data) SetterBase_make) as [[[[] |] s'] calls] eqn:Eup.
    + rewrite (H1 u Hsu). destruct (old !! u) as [s |] eqn:Eold; cbn [StealCallbacks].
      * split; [| intros v Hv; cbn; by rewrite lookup_insert_ne]. split; cbn.
        -- intros v. destruct (decide (v = u)) as [-> |]; [by rewrite lookup_insert_eq |].
           rewrite !lookup_insert_ne by done. apply H1.
        -- intros v cbs. destruct (decide (v = u)) as [-> |].
           ++ rewrite !lookup_insert_eq. intros [= <-]. by exists s.
           ++ rewrite !lookup_insert_ne by done. apply H2.
        -- intros v _. destruct (decide (v = u)) as [-> |].
           ++ rewrite !lookup_insert_eq. cbn. unfold renewed. by rewrite Eup.
           ++ rewrite !lookup_insert_ne by done. by apply H3.
        -- intros v. destruct (decide (v = u)) as [-> |].
           ++ by rewrite !lookup_insert_eq, Eold.
           ++ rewrite !lookup_insert_ne by done. apply H4.
      * split; [| intros v Hv; cbn; by rewrite lookup_insert_ne]. split; cbn.
        -- exact H1.
        -- exact H2.
        -- intros v _. destruct (decide (v = u)) as [-> |].
           ++ rewrite !lookup_insert_eq. cbn. unfold renewed. by rewrite Eup.
           ++ rewrite !lookup_insert_ne by done. by apply H3.
        -- intros v. destruct (decide (v = u)) as [-> |].
           ++ by rewrite lookup_insert_eq, Eold, Hsu.
           ++ rewrite lookup_insert_ne by done. apply H4.
    + split; [| done]. split; try done. intros v _. destruct (decide (v = u)) as [-> |].
      * rewrite lookup_insert_eq. cbn. unfold renewed. by rewrite Eup, Hu.
      * rewrite lookup_insert_ne by done. by apply H3.
    + split; [| done]. split; cbn; done.
  - split; [| done]. split; try done. by rewrite Eok.
Qed.

Lemma prepare_prepared old cluster : prepared old cluster (prepare old cluster).
Proof.
  unfold prepare.
  enough (forall l p dn, NoDup (l.*1) -> (forall u, u ∈ l.*1 -> dn !! u = None /\ map_for_swap p !! u = None) ->
    prepared old dn p -> prepared old (list_to_map l ∪ dn) (foldl prepare_step p l)) as H.
  { specialize (H (map_to_list cluster) (mkPrep old ∅ ∅ true) ∅ (NoDup_fst_map_to_list _)).
    rewrite list_to_map_to_list, (right_id_L ∅ (∪)) in H. apply H.
    - intros u _. by rewrite !lookup_empty.
    - split; cbn; intros; by rewrite ?lookup_empty in *. }
  induction l as [| [u arr] l IH]; intros p dn Hnd Hfresh Hp; cbn [foldl].
  - change (list_to_map []) with (∅ : gmap Z (list json)). by rewrite (left_id_L ∅ (∪)).
  - cbn in Hnd. apply NoDup_cons in Hnd as [Hu Hnd].
    destruct (Hfresh u ltac:(cbn; left)) as [Hd Hs].
    destruct (prepare_step_prepared old dn p u arr Hd Hs Hp) as [Hp' Hother].
    specialize (IH (prepare_step p (u, arr)) (<[u := arr]> dn) Hnd).
    assert (list_to_map ((u, arr) :: l) ∪ dn = list_to_map l ∪ <[u := arr]> dn) as ->.
    { cbn [list_to_map foldr curry uncurry fst snd]. rewrite <- insert_union_l, insert_union_r; [done |].
      apply not_elem_of_list_to_map_1. done. }
    apply IH; [| exact Hp']. intros v Hv. assert (v <> u) by congruence.
    rewrite lookup_insert_ne, Hother by done. apply Hfresh. cbn. by right.
Qed.

Lemma rollback_lookup p st u :
  rollback p st !! u = match stolen_callbacks p !! u with
                    | Some cbs => SetCallbacks cbs <$> st !! u | None => st !! u end.
Proof.
  unfold rollback. revert u. apply (map_fold_weak_ind (fun r m => forall u,
    r !! u = match m !! u with Some cbs => SetCallbacks cbs <$> st !! u | None => st !! u end)).
  - intros u. by rewrite lookup_empty.
  - intros i cbs m r Hi IH u. destruct (decide (u = i)) as [-> |].
    + by rewrite lookup_alter_eq, lookup_insert_eq, IH, Hi.
    + by rewrite lookup_alter_ne, lookup_insert_ne, IH.
Qed.

(** Nothing is lost when the preparation fails. *)
Lemma rollback_restores old cluster : rollback (prepare old cluster) (p_old (prepare old cluster)) = old.
Proof.
  destruct (prepare_prepared old cluster) as [H1 H2 _ _]. apply map_eq. intros u. rewrite rollback_lookup.
  destruct (stolen_callbacks (prepare old cluster) !! u) as [cbs |] eqn:E; [| by apply H1].
  destruct (H2 u cbs E) as (s & -> & <- & ->). by destruct s.
Qed.

Lemma renewed_no_callbacks arr s : renewed arr = Some s -> callbacks_ s = ∅.
Proof.
  unfold renewed. destruct (Setter_Update _ _) as [[[[] |] s'] calls] eqn:E; try done. intros [= <-].
  by apply update_callbacks in E.
Qed.

(** The callbacks of a unit, if it has a setter. *)
Definition callbacks_of old u : gmap string C := from_option callbacks_ ∅ (old !! u).

Lemma hand_over_lookup old cluster u :
  preparation_ok (prepare old cluster) = true ->
  hand_over (prepare old cluster) !! u =
  (fun s => with_callbacks s (callbacks_of old u)) <$> (cluster !! u ≫= renewed).
Proof.
  intros Hok. destruct (prepare_prepared old cluster) as [_ _ H3 H4].
  unfold hand_over. rewrite map_lookup_imap, H3 by exact Hok. specialize (H4 u). rewrite H3 in H4 by exact Hok.
  destruct (cluster !! u ≫= renewed) as [s |] eqn:E; cbn; [| done]. rewrite H4. unfold callbacks_of.
  assert (callbacks_ s = ∅) as Hs.
  { destruct (cluster !! u) as [arr |]; cbn in E; [by eapply renewed_no_callbacks | done]. }
  assert (s = with_callbacks s ∅) as Hs' by (rewrite <- Hs; by destruct s).
  destruct (old !! u) as [s0 |]; cbn; [| by rewrite <- Hs'].
  case_bool_decide as Hc; [| done]. by rewrite Hc, <- Hs'.
Qed.

End Renewal.

(** C36: a renewal replaces all settings or none.  When it fails, because the
    array cannot be read, everything is as before, callbacks included.  When it
    succeeds, the units are exactly those of the array whose data can be read, each
    with the data of its objects and the callbacks it had before; every such
    callback is called with the new data; a unit that is not in the array is gone,
    and its callbacks with it. *)
Theorem renewal_all_or_nothing {D} `{!SettingType D} {C} `{!EqDecision C} (j : json) (m : SettingManagerBase D C) :
  let '(ok, m', calls) := RenewAfterReset j m in
  (ok = false -> m' = m /\ calls = []) /\
  (ok = true -> unit_key_name_ m' = unit_key_name_ m /\
     exists items cluster, j = JArray items /\ sort_cluster (unit_key_name_ m) items = Some cluster /\
     (forall u, settings_ m' !! u =
        (fun s => with_callbacks s (callbacks_of (settings_ m) u)) <$> (cluster !! u ≫= renewed)) /\
     (forall u s uuid cb, settings_ m' !! u = Some s -> callbacks_ s !! uuid = Some cb -> is_initialized_ s = true ->
        (cb, setting_data_ s) ∈ calls)).
Proof.
  destruct j as [| | | | | items |]; try by cbn.
  unfold RenewAfterReset, renew_prepare. destruct (sort_cluster _ items) as [cluster |] eqn:Ec; [| by cbn]. cbn [mbind option_bind].
  unfold renew_rollback, renew_swap, renew_trigger, with_settings. cbn [settings_ unit_key_name_].
  destruct (preparation_ok (prepare (settings_ m) cluster)) eqn:Eok; cbn [negb].
  - split; [done |]. intros _. cbn [unit_key_name_ settings_ with_settings]. split; [done |].
    exists items, cluster. split_and!; try done.
    + intros u. by apply hand_over_lookup.
    + intros u s uuid cb Hs Hcb Hi. apply list_elem_of_In, in_flat_map. exists (u, s).
      split; [by apply list_elem_of_In, elem_of_map_to_list |]. cbn. unfold TriggerCallbacks. rewrite Hi.
      apply in_map_iff. exists (uuid, cb). split; [done |]. by apply list_elem_of_In, elem_of_map_to_list.
  - rewrite rollback_restores. split; [| done]. by destruct m.
Qed.

(** A callback that is registered while a renewal is between its preparation and its swap is
    lost: the new setters do not have it, whatever else was registered meanwhile. *)
Lemma renewal_loses_registration {D} `{!SettingType D} {C} `{!EqDecision C} items (m : SettingManagerBase D C) p m1 id callback uuid :
  renew_prepare items m = Some (p, m1) -> preparation_ok p = true -> callbacks_of (settings_ m) id !! uuid = None ->
  callbacks_of (settings_ (renew_swap p (snd (RegisterCallback id callback uuid m1)))) id !! uuid = None.
Proof.
  unfold renew_prepare. destruct (sort_cluster _ items) as [cluster |]; [| done]. intros [= <- _] Hok Hn. unfold renew_swap. cbn [settings_ with_settings].
  unfold callbacks_of at 1. rewrite hand_over_lookup by done. by destruct (cluster !! id ≫= renewed).
Qed.

(** ** Events

    A notification names the cameras whose settings changed; the settings are then
    requested from the server.  [GET] is the request: a status and a body, an
    empty object when the status is not known. *)

Definition IsKnownResponseCode (code : Z) : bool := (200 <=? code) && (code <=? 700).

Definition all_scalar (j : json) : bool := forallb (fun e => is_string e || is_number e) (elements_of j).

Definition CheckInterProcJsonValid (j : json) (argument_key_name : string) : bool :=
  contains j "TableName" && contains j "Argument" &&
  match at_key j "Argument" with
  | JArray l => existsb (fun object => is_object object && contains object argument_key_name &&
                           is_array (at_key object argument_key_name) && all_scalar (at_key object argument_key_name)) l
  | _ => false
  end.

(** One value of an argument; [None]: not a number. *)
Definition argument_text (v : json) : option string :=
  match v with
  | JString s => pretty <$> stoi s
  | JInt _ | JFloat _ => pretty <$> get_int v
  | _ => None
  end.

Fixpoint join_arguments (first : bool) (l : list json) : option string :=
  match l with
  | [] => Some ""%string
  | v :: l => t ← argument_text v; rest ← join_arguments false l;
              Some ((if first then "" else ",") ++ t ++ rest)%string
  end.

(** The parameters of the members, each after a question mark or an ampersand. *)
Fixpoint url_members (is_first : bool) (m : list (string * json)) : option string :=
  match m with
  | [] => Some ""%string
  | (key, v) :: m => t ← join_arguments true (elements_of v); rest ← url_members false m;
                     Some ((if is_first then "?" else "&") ++ key ++ "=" ++ t ++ rest)%string
  end.

(** The arguments in turn; outer [None]: [key()] throws on the elements of anything
    but an object; inner [None]: an argument that is not a number. *)
Fixpoint url_arguments (is_first : bool) (l : list json) : option (option string) :=
  match l with
  | [] => Some (Some ""%string)
  | elem :: l =>
      match elem with
      | JObject m =>
          match url_members is_first m with
          | None => Some None
          | Some t => rest ← url_arguments (is_first && bool_decide (length m = 0%nat)) l;
                      Some (option_map (fun r => t ++ r)%string rest)
          end
      | JNull | JArray [] => url_arguments is_first l
      | _ => None
      end
  end.

(** The empty string is the URL of a broken request. *)
Definition GetAPICommandFromJson (j : json) : option string :=
  table ← value get_string j "TableName" ""%string;
  if negb (contains j "Argument") then Some ("/" ++ table)%string
  else
    parameters ← url_arguments true (elements_of (at_key j "Argument"));
    Some match parameters with
         | Some parameters => ("/" ++ table ++ parameters)%string
         | None => ""%string
         end.

Definition unit_of (v : json) : option Z :=
  match v with
  | JString s => stoi s
  | JInt _ | JFloat _ => get_int v
  | _ => None
  end.

Definition units_of (object : json) (argument_key_name : string) : list Z :=
  if is_object object && contains object argument_key_name then
    match at_key object argument_key_name with
    | JArray units => omap unit_of units
    | _ => []
    end
  else [].

Definition ExtractUnitFromJson (j : json) (argument_key_name : string) : list Z :=
  if contains j "TableName" && contains j "Argument" then
    flat_map (fun object => units_of object argument_key_name) (elements_of (at_key j "Argument"))
  else [].

Section Events.
Context {D : Type} `{!SettingType D} {C : Type} (GET : string -> Z * json).
Implicit Types m : SettingManagerBase D C.

(** Outer [None]: an exception; inner [None]: no usable response. *)
Definition _BC_GET_Internal (req_data : json) (argument_key_name : string) : option (option json) :=
  if negb (CheckInterProcJsonValid req_data argument_key_name) then Some None
  else
    req ← GetAPICommandFromJson req_data;
    if String.eqb req "" then Some None
    else let '(code, body) := GET req in
         if IsKnownResponseCode code then Some (Some body) else Some None.

(** The update of each unit, until an exception. *)
Fixpoint update_units (target_json : json) (units : list Z) (m : SettingManagerBase D C)
    : option unit * SettingManagerBase D C * Calls :=
  match units with
  | [] => (Some tt, m, [])
  | u :: units =>
      match filterJsonArray target_json (unit_key_name_ m) u with
      | None => (None, m, [])
      | Some update_json =>
          let '(o, m, calls) := UpdateTargetUnit u update_json m in
          match o with
          | None => (None, m, calls)
          | Some _ => let '(o, m, more) := update_units target_json units m in (o, m, calls ++ more)
          end
      end
  end.

(** [SioEventBinder::Run] of an event that updates the settings of its units. *)
Definition SioEventBinder_Run (js_sio : json) (m : SettingManagerBase D C)
    : option bool * SettingManagerBase D C * Calls :=
  match _BC_GET_Internal js_sio "camera_id" with
  | None => (None, m, [])
  | Some None => (Some false, m, [])
  | Some (Some target_json) =>
      let '(o, m, calls) := update_units target_json (ExtractUnitFromJson js_sio "camera_id") m in
      ((fun _ => true) <$> o, m, calls)
  end.

End Events.

(** *** A response without a record of the unit *)

Section NoRecord.
Context {D : Type} `{!SettingType D} {C : Type} (GET : string -> Z * json).
Implicit Types m : SettingManagerBase D C.
(** What the updater makes of an empty array. *)
Context (d0 : D) (empty_array_accepted : forall d : D, updater_ (JArray []) d = (Some true, d0)).

Definition emptied (m : SettingManagerBase D C) (u : Z) : SetterBase D C :=
  mkSetter true (mkSetting false d0) (callbacks_of (settings_ m) u).

Lemma setter_of_callbacks m u : callbacks_ (setter_of m u) = callbacks_of (settings_ m) u.
Proof. unfold setter_of, callbacks_of. by destruct (settings_ m !! u). Qed.

Lemma update_unit_empty u m :
  u <> MISSING_UNIT_ID ->
  UpdateTargetUnit u (JArray []) m =
  (Some true, with_settings m (<[u := emptied m u]> (settings_ m)), invocations (emptied m u)).
Proof.
  intros Hu. unfold UpdateTargetUnit. rewrite (proj2 (Z.eqb_neq _ _) Hu).
  unfold Setter_Update, UpdateInternal, UpdateFromJson.
  assert (updater_input mode_ (JArray []) = JArray []) as -> by (by destruct mode_).
  rewrite empty_array_accepted. unfold SetEmptyFlag. cbn [data]. unfold emptied. by rewrite setter_of_callbacks.
Qed.

Lemma emptied_with m st u : callbacks_of st u = callbacks_of (settings_ m) u -> emptied (with_settings m st) u = emptied m u.
Proof. intros H. unfold emptied. cbn. by rewrite H. Qed.

Lemma invocations_complete (s : SetterBase D C) uuid cb :
  callbacks_ s !! uuid = Some cb -> (cb, setting_data_ s) ∈ invocations s.
Proof.
  intros H. apply list_elem_of_In, in_map_iff. exists (uuid, cb). split; [done |].
  by apply list_elem_of_In, elem_of_map_to_list.
Qed.

Lemma update_units_empty body units m :
  (forall u, u ∈ units -> filterJsonArray body (unit_key_name_ m) u = Some (JArray [])) ->
  let '(o, m', calls) := update_units body units m in
  o = Some tt /\
  (forall u, u ∈ units -> u <> MISSING_UNIT_ID ->
     settings_ m' !! u = Some (emptied m u) /\
     forall uuid cb, callbacks_of (settings_ m) u !! uuid = Some cb -> (cb, mkSetting false d0) ∈ calls) /\
  (forall u, u ∉ units -> settings_ m' !! u = settings_ m !! u).
Proof.
  revert m. induction units as [| u units IH]; intros m Hf; cbn [update_units].
  - split_and!; [done | by intros ? ?%elem_of_nil | done].
  - rewrite Hf by left. destruct (decide (u = MISSING_UNIT_ID)) as [Hu | Hu].
    + assert (UpdateTargetUnit u (JArray []) m = (Some false, m, [])) as -> by (subst u; reflexivity).
      specialize (IH m ltac:(intros v Hv; apply Hf; by right)).
      destruct (update_units body units m) as [[o m'] calls]. destruct IH as (H1 & H2 & H3). split_and!; [done | |].
      * intros v [-> | Hv]%elem_of_cons Hne; [done | by apply H2].
      * intros v [_ Hv]%not_elem_of_cons. by apply H3.
    + rewrite update_unit_empty by done. set (m1 := with_settings m _).
      assert (forall v, callbacks_of (settings_ m1) v = callbacks_of (settings_ m) v) as Hcb.
      { intros v. unfold callbacks_of, m1. cbn. destruct (decide (v = u)) as [-> |];
          [by rewrite lookup_insert_eq | by rewrite lookup_insert_ne]. }
      assert (forall v, emptied m1 v = emptied m v) as Hem by (intros v; unfold emptied; by rewrite Hcb).
      specialize (IH m1 ltac:(intros v Hv; apply Hf; by right)).
      destruct (update_units body units m1) as [[o m'] calls]. destruct IH as (H1 & H2 & H3). split_and!; [done | |].
      * intros v Hv Hne. destruct (decide (v ∈ units)) as [Hin | Hnin].
        -- destruct (H2 v Hin Hne) as [Hs Hc]. rewrite Hem in Hs. split; [done |]. intros uuid cb Hl.
           apply elem_of_app. right. apply (Hc uuid). by rewrite Hcb.
        -- apply elem_of_cons in Hv as [-> |]; [| done]. split.
           ++ rewrite H3 by done. unfold m1. cbn. by rewrite lookup_insert_eq.
           ++ intros uuid cb Hl. apply elem_of_app. left. by apply (invocations_complete (emptied m u) uuid).
      * intros v [Hvu Hv]%not_elem_of_cons. rewrite H3 by done. unfold m1. cbn. by rewrite lookup_insert_ne.
Qed.

(** A usable response in which no named unit has a record. *)
Definition no_record_response (js : json) (key : string) : Prop :=
  exists body, _BC_GET_Internal GET js "camera_id" = Some (Some body) /\
  forall u, u ∈ ExtractUnitFromJson js "camera_id" -> filterJsonArray body key u = Some (JArray []).

Lemma run_no_record js m :
  no_record_response js (unit_key_name_ m) ->
  let '(o, m', calls) := SioEventBinder_Run GET js m in
  o = Some true /\
  forall u, u ∈ ExtractUnitFromJson js "camera_id" -> u <> MISSING_UNIT_ID ->
    settings_ m' !! u = Some (emptied m u) /\
    forall uuid cb, callbacks_of (settings_ m) u !! uuid = Some cb -> (cb, mkSetting false d0) ∈ calls.
Proof.
  intros (body & HG & Hf). unfold SioEventBinder_Run. rewrite HG.
  pose proof (update_units_empty body _ m Hf) as H.
  destruct (update_units body _ m) as [[o m'] calls]. by destruct H as (-> & H & _).
Qed.

End NoRecord.

(** A response whose body is not an array, an error page say, has no record. *)
Lemma error_body_no_record (GET : string -> Z * json) js req code body key :
  CheckInterProcJsonValid js "camera_id" = true -> GetAPICommandFromJson js = Some req -> req <> ""%string ->
  GET req = (code, body) -> 200 <= code <= 700 -> is_array body = false ->
  no_record_response GET js key.
Proof.
  intros Hv Hr Hne HG Hc Hb. exists body. unfold _BC_GET_Internal. rewrite Hv, Hr. cbn [negb mbind option_bind].
  rewrite (proj2 (String.eqb_neq _ _) Hne), HG. unfold IsKnownResponseCode.
  rewrite (proj2 (Z.leb_le _ _)), (proj2 (Z.leb_le _ _)) by lia. split; [done |].
  intros u _. by destruct body.
Qed.

(** An error response of the settings server deletes schedules.  When the
    request that follows a notification is answered with any status from 200 to
    700 and a body that is not an array (an HTTP 404 or 500 page), every camera the
    notification names loses all its schedules, and its unit is told so. *)
Theorem error_response_clears_schedules {C} (GET : string -> Z * json) (m : SettingManagerBase ScheduleSettingData C)
    js req code body u :
  CheckInterProcJsonValid js "camera_id" = true -> GetAPICommandFromJson js = Some req -> req <> ""%string ->
  GET req = (code, body) -> 200 <= code <= 700 -> is_array body = false ->
  u ∈ ExtractUnitFromJson js "camera_id" -> u <> MISSING_UNIT_ID ->
  let '(o, m', calls) := SioEventBinder_Run GET js m in
  o = Some true /\ GetSetting m' u = Some (mkSetting false (mkSchedules [])) /\
  forall uuid cb, callbacks_of (settings_ m) u !! uuid = Some cb -> (cb, mkSetting false (mkSchedules [])) ∈ calls.
Proof.
  intros Hv Hr Hne HG Hc Hb Hu Hm.
  pose proof (run_no_record GET (mkSchedules []) (fun d => eq_refl) js m
    (error_body_no_record GET js req code body _ Hv Hr Hne HG Hc Hb)) as H.
  destruct (SioEventBinder_Run GET js m) as [[o m'] calls]. destruct H as [Ho H].
  destruct (H u Hu Hm) as [Hs Hcalls]. split_and!; [done | | exact Hcalls].
  unfold GetSetting. by rewrite Hs.
Qed.

Definition demo_event : json :=
  JObject [("Argument", JArray [JObject [("camera_id", JArray [JInt 3; JString "4"])]]);
           ("TableName", JString "schedule")]%string.

Example demo_event_url : GetAPICommandFromJson demo_event = Some "/schedule?camera_id=3,4"%string.
Proof. vm_compute. reflexivity. Qed.

Definition demo_manager : SettingManagerBase ScheduleSettingData nat :=
  let m := mkManager "CameraId" ∅ in
  let '(_, m) := RegisterCallback 4 7%nat "uuid-1" m in
  let '(_, m, _) := UpdateTargetUnit 4 (JArray [demo_item (JInt 3)]) m in m.

Lemma error_response_clears_schedules_witness :
  (exists s, GetSetting demo_manager 4 = Some (mkSetting false (mkSchedules [s]))) /\
  GetSetting (snd (fst (SioEventBinder_Run (fun _ => (500, JString "Internal Server Error"%string)) demo_event demo_manager))) 4 =
    Some (mkSetting false (mkSchedules [])).
Proof.
  split; [eexists; vm_compute; reflexivity |].
  pose proof (error_response_clears_schedules (fun _ => (500, JString "Internal Server Error"%string)) demo_manager demo_event
    "/schedule?camera_id=3,4"%string 500 (JString "Internal Server Error"%string) 4
    ltac:(vm_compute; reflexivity) demo_event_url ltac:(done) eq_refl ltac:(lia) eq_refl
    ltac:(apply (bool_decide_unpack _); vm_compute; exact I) ltac:(done)) as H.
  destruct (SioEventBinder_Run _ demo_event demo_manager) as [[o m'] calls]. exact (proj1 (proj2 H)).
Defined.
