(* ===== verification/EngineTypes.v ===== *)
(** * Engine profiles and stream types

    [BasicLibs/profile/EngineProfile.h] and [.cpp]: the profiles of the
    inference engines and the search for the engines that satisfy a request;
    [BasicLibs/core/types/EngineStreamTypes.h] and [.cpp]: requester identifiers,
    request and response messages. *)

From Stdlib Require Import SpecFloat String.
From stdpp Require Import gmap sorting.
From S2P Require Import Prelude Float32 InferObject.
Open Scope Z_scope.
Open Scope list_scope.

(** ** Profiles *)

Inductive ModelMajorType := MajorNone | MajorDetection.
Inductive ModelMinorType := MinorNone | YoloV5 | YoloV7 | YoloV8 | YoloV10.
Inductive ModelOptimizeType := OptNone | Torch_Onnx_RKNN.

#[export] Instance ModelMajorType_eq_dec : EqDecision ModelMajorType.
Proof. solve_decision. Defined.
#[export] Instance ModelMinorType_eq_dec : EqDecision ModelMinorType.
Proof. solve_decision. Defined.

Record EngineProfile := mkProfile {
  uuid : Z;                       (* InferEngineID = unsigned int *)
  profile_name : string;
  engine_file_path : string;
  classes_yml_path : string;
  model_major_type : ModelMajorType;
  model_minor_type : ModelMinorType;
  model_magic_type : string;
  priority : Z;
  inference_weight : Z;
  input_size_mutable : bool;
  input_image_w : Z;
  input_image_h : Z;
  inference_batch_size : Z;
  opt_type : ModelOptimizeType;
  input_layer_binding_name : string;
  output_layer_binding_name : string;
  confidence_threshold : f32;
  nms_threshold : f32
}.

Definition ModelMajorType_ToString (t : ModelMajorType) : string :=
  match t with MajorNone => "None(Don't care)" | MajorDetection => "Detection" end.
Definition ModelMinorType_ToString (t : ModelMinorType) : string :=
  match t with
  | MinorNone => "None(Don't care)" | YoloV5 => "YoloV5" | YoloV7 => "YoloV7"
  | YoloV8 => "YoloV8" | YoloV10 => "YoloV10"
  end.
Definition ModelOptimizeType_ToString (t : ModelOptimizeType) : string :=
  match t with OptNone => "None(Don't care)" | Torch_Onnx_RKNN => "Torch_Onnx_RKNN" end.

Definition ModelMagicTypeDontCare : string := "DontCareMagic".
Definition InferModelUUIDDontCare : Z := 16777215. (* 0xffffff *)

Record InferRequestRequirements := mkRequire {
  rq_major_type : ModelMajorType;
  rq_minor_type : ModelMinorType;
  rq_magic_type : string;
  rq_model_uuid : Z
}.

Definition InferRequestRequirements_default : InferRequestRequirements :=
  mkRequire MajorNone MinorNone ModelMagicTypeDontCare InferModelUUIDDontCare.

(** The [std::variant] of one requirement. *)
Inductive InferRequestRequireOneType := RequireMagic (magic : string) | RequireUUID (id : Z).

Definition CreateRequirementsFromSingle (single_req : InferRequestRequireOneType) : InferRequestRequirements :=
  let d := InferRequestRequirements_default in
  match single_req with
  | RequireMagic value => mkRequire (rq_major_type d) (rq_minor_type d) value (rq_model_uuid d)
  | RequireUUID value => mkRequire (rq_major_type d) (rq_minor_type d) (rq_magic_type d) value
  end.

Definition IsRequireAtLeastOne (require : InferRequestRequirements) : bool :=
  bool_decide (rq_major_type require <> MajorNone) ||
  bool_decide (rq_minor_type require <> MinorNone) ||
  negb (String.eqb (rq_magic_type require) ModelMagicTypeDontCare) ||
  negb (rq_model_uuid require =? InferModelUUIDDontCare).

(** Whether a profile satisfies one of the requirements. *)
Definition match_found (r : InferRequestRequirements) (candidate_uuid : Z) (p : EngineProfile) : bool :=
  (bool_decide (rq_major_type r <> MajorNone) && bool_decide (rq_major_type r = model_major_type p)) ||
  (bool_decide (rq_minor_type r <> MinorNone) && bool_decide (rq_minor_type r = model_minor_type p)) ||
  (negb (String.eqb (rq_magic_type r) ModelMagicTypeDontCare) &&
     String.eqb (rq_magic_type r) (model_magic_type p)) ||
  (negb (rq_model_uuid r =? InferModelUUIDDontCare) && (rq_model_uuid r =? candidate_uuid)).

(** The order of [std::pair< unsigned int, InferEngineID >]. *)
Definition pair_le (a b : Z * Z) : Prop :=
  fst a < fst b \/ (fst a = fst b /\ snd a <= snd b).

#[export] Instance pair_le_dec a b : Decision (pair_le a b).
Proof. unfold pair_le. apply _. Defined.

(** [profiles] lists the unordered map in the order it is iterated. *)
Definition SearchEngineUUID (profiles : list (Z * EngineProfile)) (requirements : InferRequestRequirements)
    : list Z :=
  if negb (IsRequireAtLeastOne requirements) then []
  else
    let candidate_pairs :=
      map (fun '(candidate_uuid, profile) => (priority profile, candidate_uuid))
        (List.filter (fun '(candidate_uuid, profile) => match_found requirements candidate_uuid profile) profiles) in
    map snd (merge_sort pair_le candidate_pairs).

Definition SearchEngineUUID_one (profiles : list (Z * EngineProfile)) (require : InferRequestRequireOneType)
    : list Z :=
  SearchEngineUUID profiles (CreateRequirementsFromSingle require).

(** ** Requester identifiers *)

Definition ENGINE_SUBSCRIBE_BASE_IDENTIFIER_JUMP_OFFSET : Z := 10000.
Definition MAJOR_OFFSET_DIGITS : Z := 10000.
Definition MAJOR_DETECTION : Z := 0.
Definition MAGIC_OFFSET_DIGITS : Z := 1.
Definition ENGINE_MAGIC_TYPE_DETECTION : Z := 0.
Definition ENGINE_SUBSCRIBE_MAJOR_IDENTIFIER_JUMP_OFFSET : Z :=
  ENGINE_SUBSCRIBE_BASE_IDENTIFIER_JUMP_OFFSET * MAJOR_OFFSET_DIGITS.
Definition DETECTION_ENGINE_IDENTIFIER_JUMP_OFFSET : Z :=
  ENGINE_SUBSCRIBE_MAJOR_IDENTIFIER_JUMP_OFFSET * MAJOR_DETECTION.
Definition ENGINE_SUBSCRIBE_MAGIC_IDENTIFIER_JUMP_OFFSET : Z :=
  ENGINE_SUBSCRIBE_BASE_IDENTIFIER_JUMP_OFFSET * MAGIC_OFFSET_DIGITS.
Definition DETECTION_MAGIC_IDENTIFIER_JUMP_OFFSET : Z :=
  ENGINE_SUBSCRIBE_MAGIC_IDENTIFIER_JUMP_OFFSET * ENGINE_MAGIC_TYPE_DETECTION.

Definition GetModelMajorTypeFromEngineIdentifier (identifier : Z) : ModelMajorType :=
  if Z.quot identifier ENGINE_SUBSCRIBE_MAJOR_IDENTIFIER_JUMP_OFFSET =? MAJOR_DETECTION
  then MajorDetection else MajorNone.

Definition GetInferenceRequesterID (base_id : Z) (major : ModelMajorType) (minor : ModelMinorType) : Z :=
  match major with
  | MajorDetection => i32 (DETECTION_ENGINE_IDENTIFIER_JUMP_OFFSET + base_id)
  | MajorNone => base_id
  end.

Definition GetInferenceRequesterID_magic (base_id : Z) (major : ModelMajorType) (minor : ModelMinorType)
    (magic : Z) : Z :=
  match major with
  | MajorDetection =>
      let ret := i32 (base_id + DETECTION_ENGINE_IDENTIFIER_JUMP_OFFSET) in
      if magic =? ENGINE_MAGIC_TYPE_DETECTION then i32 (ret + DETECTION_MAGIC_IDENTIFIER_JUMP_OFFSET) else ret
  | MajorNone => base_id
  end.

Definition GetPureIDFromInferenceRequesterID (req_id : Z) : Z :=
  Z.rem (Z.rem req_id ENGINE_SUBSCRIBE_MAJOR_IDENTIFIER_JUMP_OFFSET)
    ENGINE_SUBSCRIBE_MAGIC_IDENTIFIER_JUMP_OFFSET.
Definition GetMagicFlagFromInferenceRequesterID (req_id : Z) : Z :=
  Z.quot (Z.rem req_id ENGINE_SUBSCRIBE_MAJOR_IDENTIFIER_JUMP_OFFSET)
    ENGINE_SUBSCRIBE_MAGIC_IDENTIFIER_JUMP_OFFSET.

(** ** Messages *)

Record ResolutionKey := mkResolution { res_w : Z; res_h : Z }.
Definition ResolutionKey_ltb (a b : ResolutionKey) : bool :=
  (res_w a <? res_w b) || ((res_w a =? res_w b) && (res_h a <? res_h b)).
Definition ResolutionKey_eqb (a b : ResolutionKey) : bool :=
  (res_w a =? res_w b) && (res_h a =? res_h b).

Definition EngineHandleUUID : Type := Z * Z.
Definition GetInferEngineID (handle : EngineHandleUUID) : Z := fst handle.
Definition GetInferDeviceID (handle : EngineHandleUUID) : Z := snd handle.

Definition UNIT_ID_NOT_SET : Z := -1.

Record EngineStreamMetaData := mkMeta {
  requester_unit_id : Z;
  requestee_engine_uuid : Z;
  request_image_pixel_w : Z;
  request_image_pixel_h : Z;
  correlation_id : Z
}.

Definition EngineStreamMetaData_eqb (lhs rhs : EngineStreamMetaData) : bool :=
  (requester_unit_id lhs =? requester_unit_id rhs) &&
  (requestee_engine_uuid lhs =? requestee_engine_uuid rhs) &&
  (correlation_id lhs =? correlation_id rhs).

(** The image of a request: no image, or its bytes. *)
Record InputLayerWrapper := mkInput {
  in_meta_data : EngineStreamMetaData;
  requirements : InferRequestRequirements;
  image_data : option (list Z)
}.

Record OutputLayerWrapper := mkOutput {
  out_meta_data : EngineStreamMetaData;
  engine_handle_uuid : EngineHandleUUID;
  infer_objects_out : list InferObject
}.

Fixpoint objects_eqb (l r : list InferObject) : bool :=
  match l, r with
  | [], [] => true
  | a :: l, b :: r => InferObject_eqb a b && objects_eqb l r
  | _, _ => false
  end.

Definition OutputLayerWrapper_eqb (lhs rhs : OutputLayerWrapper) : bool :=
  EngineStreamMetaData_eqb (out_meta_data lhs) (out_meta_data rhs) &&
  ((fst (engine_handle_uuid lhs) =? fst (engine_handle_uuid rhs)) &&
   (snd (engine_handle_uuid lhs) =? snd (engine_handle_uuid rhs))) &&
  objects_eqb (infer_objects_out lhs) (infer_objects_out rhs).

(** ** Hashing

    [std::hash] of an integer is the implementation's: a parameter. *)

Definition HASH_MAGIC_NUMB : Z := 2654435769. (* 0x9e3779b9 *)

Definition hash_combine (seed h : Z) : Z :=
  Z.lxor seed (u64 (h + HASH_MAGIC_NUMB + u64 (Z.shiftl seed 6) + Z.shiftr seed 2)).

Definition hash_EngineHandleUUID (std_hash : Z -> Z) (handle : EngineHandleUUID) : Z :=
  hash_combine (hash_combine 0 (std_hash (fst handle))) (std_hash (snd handle)).

Definition hash_EngineStreamMetaData (std_hash : Z -> Z) (meta : EngineStreamMetaData) : Z :=
  hash_combine (hash_combine (std_hash (requester_unit_id meta)) (std_hash (requestee_engine_uuid meta)))
    (std_hash (correlation_id meta)).

Definition hash_OutputLayerWrapper (std_hash : Z -> Z) (hash_object : InferObject -> Z)
    (key : OutputLayerWrapper) : Z :=
  let h1 := hash_EngineStreamMetaData std_hash (out_meta_data key) in
  let h2 := foldl (fun h2 obj => hash_combine h2 (hash_object obj)) 0 (infer_objects_out key) in
  Z.lxor h1 (u64 (Z.shiftl h2 1)).

(** ** Lemmas *)

#[export] Instance pair_le_total : Total pair_le.
Proof. intros [a b] [c d]. unfold pair_le. cbn. lia. Qed.
#[export] Instance pair_le_trans : Transitive pair_le.
Proof. intros [a b] [c d] [e f]. unfold pair_le. cbn. lia. Qed.
#[export] Instance pair_le_antisymm : AntiSymm (=) pair_le.
Proof. intros [a b] [c d]. unfold pair_le. cbn. intros. f_equal; lia. Qed.

(** Sorting removes the order in which the candidates were found. *)
Lemma merge_sort_perm (l l' : list (Z * Z)) : l ≡ₚ l' -> merge_sort pair_le l = merge_sort pair_le l'.
Proof.
  intros H. apply (StronglySorted_unique pair_le).
  - apply StronglySorted_merge_sort; apply _.
  - apply StronglySorted_merge_sort; apply _.
  - by rewrite !(merge_sort_Permutation pair_le).
Qed.

Lemma filter_perm {A} (f : A -> bool) l l' : l ≡ₚ l' -> List.filter f l ≡ₚ List.filter f l'.
Proof.
  induction 1 as [| x l l' _ IH | x y l | l l' l'' _ IH1 _ IH2]; cbn; try done.
  - destruct (f x); [by constructor | done].
  - destruct (f x), (f y); try done. constructor.
  - by transitivity (List.filter f l').
Qed.

(** The search finds the right engines in the right order, whatever the
    order in which the hash map is iterated: nothing without a requirement, and
    otherwise exactly the identifiers of the profiles that satisfy one, by
    increasing priority number and then identifier. *)
Theorem search_sorted_and_complete profiles requirements :
  NoDup (map fst profiles) ->
  let found := SearchEngineUUID profiles requirements in
  (forall profiles', profiles ≡ₚ profiles' -> SearchEngineUUID profiles' requirements = found) /\
  (forall id, id ∈ found <-> IsRequireAtLeastOne requirements = true /\
     exists p, (id, p) ∈ profiles /\ match_found requirements id p = true) /\
  (forall i j id id' p p', (i < j)%nat -> found !! i = Some id -> found !! j = Some id' ->
     (id, p) ∈ profiles -> (id', p') ∈ profiles -> pair_le (priority p, id) (priority p', id')).
Proof.
  intros Hnd found. subst found. unfold SearchEngineUUID. destruct (IsRequireAtLeastOne requirements); cbn [negb].
  - set (pairs := fun l => map (fun '(id, p) => (priority p, id))
      (List.filter (fun '(id, p) => match_found requirements id p) l)).
    fold (pairs profiles).
    assert (forall id pr, (pr, id) ∈ pairs profiles <->
              exists p, priority p = pr /\ (id, p) ∈ profiles /\ match_found requirements id p = true) as Hin.
    { intros id pr. unfold pairs. rewrite list_elem_of_fmap. split.
      - intros ([id' p] & [= -> ->] & Hp%list_elem_of_In%filter_In). exists p.
        rewrite list_elem_of_In. done.
      - intros (p & <- & Hp & Hm). exists (id, p). split; [done |].
        apply list_elem_of_In, filter_In. by rewrite <- list_elem_of_In. }
    assert (forall id p p', (id, p) ∈ profiles -> (id, p') ∈ profiles -> p = p') as Huniq.
    { intros id p p' (i & Hi)%list_elem_of_lookup_1 (j & Hj)%list_elem_of_lookup_1.
      assert (i = j) as ->; [| congruence].
      apply (NoDup_lookup _ i j id Hnd); rewrite list_lookup_fmap; [by rewrite Hi | by rewrite Hj]. }
    split_and!.
    + intros l' Hp. fold (pairs l'). f_equal. apply merge_sort_perm. unfold pairs. apply fmap_Permutation, filter_perm. done.
    + intros id. rewrite list_elem_of_fmap. split.
      * intros ([pr id'] & -> & H). rewrite (merge_sort_Permutation pair_le) in H.
        apply Hin in H as (p & _ & ? & ?). split; [done | by exists p].
      * intros (_ & p & Hp & Hm). exists (priority p, id). split; [done |].
        rewrite (merge_sort_Permutation pair_le). apply Hin. by exists p.
    + intros i j id id' p p' Hij Hi Hj Hp Hp'.
      pose proof (StronglySorted_merge_sort pair_le (pairs profiles)) as Hs.
      rewrite list_lookup_fmap in Hi, Hj.
      destruct (merge_sort pair_le (pairs profiles) !! i) as [[pr x] |] eqn:Ei; [| done].
      destruct (merge_sort pair_le (pairs profiles) !! j) as [[pr' y] |] eqn:Ej; [| done].
      cbn in Hi, Hj. injection Hi as ->. injection Hj as ->.
      assert (forall pr id p, (pr, id) ∈ merge_sort pair_le (pairs profiles) -> (id, p) ∈ profiles -> priority p = pr) as Hpr.
      { intros q z pz Hz Hpz. rewrite (merge_sort_Permutation pair_le) in Hz. apply Hin in Hz as (p2 & <- & H2 & _).
        by rewrite (Huniq z pz p2). }
      rewrite (Hpr pr id p), (Hpr pr' id' p'); [| by eapply list_elem_of_lookup_2 | done | by eapply list_elem_of_lookup_2 | done].
      rewrite <- (take_drop j (merge_sort pair_le (pairs profiles))) in Hs.
      eapply (StronglySorted_app_1_elem_of pair_le); [exact Hs | |].
      * apply (list_elem_of_lookup_2 _ i). by rewrite lookup_take_lt.
      * apply (list_elem_of_lookup_2 _ 0%nat). by rewrite lookup_drop, Nat.add_0_r.
  - split_and!; [done | | by intros]. intros id. split; [by intros ?%elem_of_nil | by intros [? _]].
Qed.

Definition demo_profile (id prio : Z) (magic : string) : EngineProfile :=
  mkProfile id "p" "e" "c" MajorDetection YoloV5 magic prio 1 false 640 640 1 Torch_Onnx_RKNN "i" "o" f0 f0.
Definition demo_profiles : list (Z * EngineProfile) :=
  [(1, demo_profile 1 20 "a"); (2, demo_profile 2 10 "a"); (3, demo_profile 3 5 "b")].

Lemma search_sorted_and_complete_witness :
  SearchEngineUUID (reverse demo_profiles) (CreateRequirementsFromSingle (RequireMagic "a")) = [2; 1].
Proof.
  refine (proj1 (search_sorted_and_complete demo_profiles (CreateRequirementsFromSingle (RequireMagic "a")) _) _ _).
  - apply (bool_decide_unpack _). vm_compute. exact I.
  - symmetry. apply reverse_Permutation.
Defined.

(** A requester identifier carries the camera identifier: for cameras below
    10000 the detection identifier is recognised as one, and gives back the
    camera and the detection flag; for identifiers up to 10^8 cameras that
    differ by a multiple of 10000 get the same camera identifier back. *)
Theorem requester_id_roundtrip base minor :
  0 <= base < 100000000 ->
  let id := GetInferenceRequesterID base MajorDetection minor in
  GetInferenceRequesterID_magic base MajorDetection minor ENGINE_MAGIC_TYPE_DETECTION = id /\
  GetModelMajorTypeFromEngineIdentifier id = MajorDetection /\
  GetPureIDFromInferenceRequesterID id = base mod 10000 /\
  (base < 10000 -> GetPureIDFromInferenceRequesterID id = base /\
                   GetMagicFlagFromInferenceRequesterID id = ENGINE_MAGIC_TYPE_DETECTION).
Proof.
  intros Hb id.
  assert (id = base) as Hid.
  { unfold id, GetInferenceRequesterID. change (DETECTION_ENGINE_IDENTIFIER_JUMP_OFFSET + base) with (0 + base).
    apply i32_id. unfold in_i32. lia. }
  assert (GetPureIDFromInferenceRequesterID base = base mod 10000) as Hpure.
  { unfold GetPureIDFromInferenceRequesterID.
    change ENGINE_SUBSCRIBE_MAJOR_IDENTIFIER_JUMP_OFFSET with 100000000.
    change ENGINE_SUBSCRIBE_MAGIC_IDENTIFIER_JUMP_OFFSET with 10000.
    rewrite (Z.rem_small base) by lia. apply Z.rem_mod_nonneg; lia. }
  rewrite Hid. split_and!.
  - unfold GetInferenceRequesterID_magic. cbn [Z.eqb ENGINE_MAGIC_TYPE_DETECTION].
    change DETECTION_ENGINE_IDENTIFIER_JUMP_OFFSET with 0. change DETECTION_MAGIC_IDENTIFIER_JUMP_OFFSET with 0.
    rewrite !Z.add_0_r, i32_id; apply i32_id || idtac; unfold in_i32; rewrite ?i32_id; unfold in_i32; lia.
  - unfold GetModelMajorTypeFromEngineIdentifier. change ENGINE_SUBSCRIBE_MAJOR_IDENTIFIER_JUMP_OFFSET with 100000000.
    by rewrite Z.quot_small by lia.
  - exact Hpure.
  - intros Hlt. rewrite Hpure. split; [apply Z.mod_small; lia |].
    unfold GetMagicFlagFromInferenceRequesterID.
    change ENGINE_SUBSCRIBE_MAJOR_IDENTIFIER_JUMP_OFFSET with 100000000.
    change ENGINE_SUBSCRIBE_MAGIC_IDENTIFIER_JUMP_OFFSET with 10000.
    rewrite Z.rem_small by lia. by rewrite Z.quot_small by lia.
Qed.

Lemma requester_id_roundtrip_witness :
  GetPureIDFromInferenceRequesterID (GetInferenceRequesterID 10042 MajorDetection YoloV5) = 42.
Proof. refine (proj1 (proj2 (proj2 (requester_id_roundtrip 10042 YoloV5 _)))). lia. Defined.
