(* ===== verification/SafeQueue.v ===== *)
(** * The thread-safe queue

    [BasicLibs/core/structure/SafeQueue.h].  Every method holds the queue's
    mutex from its first to its last access, except the wait of
    [dequeue_wait_for], which gives the mutex back while it sleeps; what that
    method does to the queue happens at once, after the wait.  Concurrent use is
    therefore a sequence of the operations below, a [dequeue_wait_for] being
    placed where its wait ends (with its predicate false when it timed out). *)

From S2P Require Import Prelude.
Open Scope Z_scope.
Open Scope list_scope.

Section SafeQueue.
Context {T : Type}.

Record SafeQueue := mkQueue {
  q_ : list T;            (* front first *)
  b_terminate : bool;
  max_size_ : Z;          (* size_t, 0 = unbounded *)
  drop_count_ : Z         (* uint64_t *)
}.

Definition SafeQueue_make : SafeQueue := mkQueue [] false 0 0.

Definition SetMaxSize (q : SafeQueue) (n : Z) : SafeQueue :=
  mkQueue (q_ q) (b_terminate q) n (drop_count_ q).

Definition q_size (q : SafeQueue) : Z := Z.of_nat (length (q_ q)).
Definition q_empty (q : SafeQueue) : bool := q_size q =? 0.

(** [enqueue_copy] and [enqueue_move] store the same value. *)
Definition enqueue (q : SafeQueue) (t : T) : SafeQueue :=
  if (0 <? max_size_ q) && (max_size_ q <=? q_size q)
  then mkQueue (tail (q_ q) ++ [t]) (b_terminate q) (max_size_ q) (u64 (drop_count_ q + 1))
  else mkQueue (q_ q ++ [t]) (b_terminate q) (max_size_ q) (drop_count_ q).

(** The end of the wait: nothing when terminated, nothing when the wait timed
    out on an empty queue, otherwise the front element. *)
Definition dequeue_wait_for (q : SafeQueue) : option T * SafeQueue :=
  if b_terminate q then (None, q)
  else match q_ q with
       | [] => (None, q)
       | t :: rest => (Some t, mkQueue rest (b_terminate q) (max_size_ q) (drop_count_ q))
       end.

Definition terminate (q : SafeQueue) : SafeQueue :=
  mkQueue (q_ q) true (max_size_ q) (drop_count_ q).

(** [clear_with_action] gives the elements to the action, front first;
    [clear_without_action] drops them. *)
Definition clear_with_action (q : SafeQueue) : list T * SafeQueue :=
  (q_ q, mkQueue [] (b_terminate q) (max_size_ q) (drop_count_ q)).
Definition clear_without_action (q : SafeQueue) : SafeQueue := snd (clear_with_action q).

(** ** Histories *)

Inductive QueueOp := Enqueue (t : T) | Dequeue | Terminate | Limit (n : Z).

(** One operation and the element it hands out. *)
Definition queue_op (q : SafeQueue) (op : QueueOp) : option T * SafeQueue :=
  match op with
  | Enqueue t => (None, enqueue q t)
  | Dequeue => dequeue_wait_for q
  | Terminate => (None, terminate q)
  | Limit n => (None, SetMaxSize q n)
  end.

(** The elements handed out by a sequence of operations, and the last state. *)
Fixpoint queue_run (ops : list QueueOp) (q : SafeQueue) : list T * SafeQueue :=
  match ops with
  | [] => ([], q)
  | op :: ops =>
      let '(out, q') := queue_op q op in
      let '(outs, q'') := queue_run ops q' in
      (match out with Some t => t :: outs | None => outs end, q'')
  end.

Fixpoint enqueued (ops : list QueueOp) : list T :=
  match ops with
  | [] => []
  | Enqueue t :: ops => t :: enqueued ops
  | _ :: ops => enqueued ops
  end.

Definition is_limit (op : QueueOp) : bool := match op with Limit _ => true | _ => false end.

(** ** Lemmas *)

Lemma enqueue_size q t :
  0 < max_size_ q -> q_size q <= max_size_ q -> q_size (enqueue q t) <= max_size_ (enqueue q t).
Proof.
  unfold enqueue, q_size. intros H1 H2. case_if; cbn; rewrite length_app; cbn; bool_to_prop.
  - destruct (q_ q); cbn in *; lia.
  - lia.
Qed.

Lemma queue_op_limit q op :
  is_limit op = false -> 0 < max_size_ q -> q_size q <= max_size_ q ->
  let q' := snd (queue_op q op) in max_size_ q' = max_size_ q /\ q_size q' <= max_size_ q'.
Proof.
  intros Hop Hm Hq. destruct op as [t | | | n]; cbn; try done.
  - split; [unfold enqueue; by case_if | by apply enqueue_size].
  - unfold dequeue_wait_for, q_size in *. destruct (b_terminate q); [by split |].
    destruct (q_ q) eqn:E; cbn in *; [rewrite E; cbn; lia | lia].
Qed.

(** Every operation removes a prefix of the queue with the new element appended;
    the removed elements are handed out or counted as dropped. *)
Lemma queue_op_shape q op :
  let '(out, q') := queue_op q op in
  let new := match op with Enqueue t => [t] | _ => [] end in
  exists removed, q_ q ++ new = removed ++ q_ q' /\
    ((out = None /\ drop_count_ q' = u64 (drop_count_ q + Z.of_nat (length removed)) /\ (length removed <= 1)%nat) \/
     (exists t, out = Some t /\ removed = [t] /\ drop_count_ q' = drop_count_ q) \/
     (out = None /\ removed = [] /\ drop_count_ q' = drop_count_ q)).
Proof.
  destruct op as [t | | | n]; cbn.
  - unfold enqueue, q_size. case_if; cbn; bool_to_prop.
    + destruct (q_ q) as [| x l]; cbn in *; [lia |]. exists [x]. split; [done |]. left. done.
    + exists []. split; [done |]. right; right. done.
  - unfold dequeue_wait_for. rewrite app_nil_r.
    destruct (b_terminate q); [exists []; split; [done | right; right; done] |].
    destruct (q_ q) as [| x l] eqn:E; cbn.
    + exists []. rewrite E. split; [done | right; right; done].
    + exists [x]. split; [done |]. right; left. by exists x.
  - exists []. rewrite app_nil_r. split; [done | right; right; done].
  - exists []. rewrite app_nil_r. split; [done | right; right; done].
Qed.

Lemma u64_add_assoc a b c : u64 (u64 (a + b) + c) = u64 (a + (b + c)).
Proof. unfold wrap_u. rewrite Zplus_mod_idemp_l. f_equal. lia. Qed.
End SafeQueue.

Arguments SafeQueue : clear implicits.
Arguments QueueOp : clear implicits.

(** First in, first out, and nothing lost without being counted.  Whatever
    the interleaving of the operations of any number of threads on a queue that
    starts empty, what is enqueued is, in order, what was removed followed by
    what is still queued; what was handed out is a subsequence of what was
    removed, in order; and the difference is the drop counter (a 64-bit one). *)
Theorem queue_fifo {T} (ops : list (QueueOp T)) :
  let '(outs, q) := queue_run ops SafeQueue_make in
  exists removed, enqueued ops = removed ++ q_ q /\ outs `sublist_of` removed /\
    drop_count_ q = u64 (Z.of_nat (length removed) - Z.of_nat (length outs)).
Proof.
  assert (forall q, drop_count_ q = u64 (drop_count_ q) ->
    let '(outs, q') := queue_run ops q in
    exists removed, q_ q ++ enqueued ops = removed ++ q_ q' /\ outs `sublist_of` removed /\
      drop_count_ q' = u64 (drop_count_ q + (Z.of_nat (length removed) - Z.of_nat (length outs)))) as Hgo;
    [| specialize (Hgo SafeQueue_make eq_refl); exact Hgo].
  induction ops as [| op ops IH]; intros q Hq; cbn [queue_run].
  { exists []. rewrite app_nil_r. cbn. rewrite Z.add_0_r. done. }
  pose proof (queue_op_shape q op) as Hop. destruct (queue_op q op) as [out q1].
  destruct Hop as (removed1 & Hr1 & Hout).
  assert (drop_count_ q1 = u64 (drop_count_ q1)) as Hq1.
  { destruct Hout as [(_ & -> & _) | [(t & _ & _ & ->) | (_ & _ & ->)]]; [| done | done].
    symmetry. apply wrap_u_id. unfold wrap_u. apply Z.mod_pos_bound. lia. }
  specialize (IH q1 Hq1). destruct (queue_run ops q1) as [outs q2].
  destruct IH as (removed2 & Hr2 & Hsub & Hdrop).
  exists (removed1 ++ removed2).
  assert (q_ q ++ enqueued (op :: ops) = (removed1 ++ removed2) ++ q_ q2) as Heq.
  { rewrite <- app_assoc, <- Hr2, app_assoc, <- Hr1. destruct op; cbn; by rewrite <- ?app_assoc. }
  split; [exact Heq |]. rewrite length_app.
  destruct Hout as [(-> & Hd & _) | [(t & -> & -> & Hd) | (-> & -> & Hd)]]; rewrite Hd in Hdrop.
  - split; [by apply sublist_inserts_l | rewrite Hdrop, u64_add_assoc; f_equal; lia].
  - split; [by constructor | cbn [length]; rewrite Hdrop; f_equal; lia].
  - split; [done | rewrite Hdrop; cbn; f_equal; lia].
Qed.

(** A limited queue stays within its limit: once a positive limit is set on
    a queue that respects it, no interleaving of the operations (other than a
    change of the limit) makes the queue longer. *)
Theorem queue_bounded {T} (ops : list (QueueOp T)) q :
  0 < max_size_ q -> q_size q <= max_size_ q -> Forall (fun op => is_limit op = false) ops ->
  q_size (snd (queue_run ops q)) <= max_size_ q.
Proof.
  intros Hm Hq Hops. revert q Hm Hq. induction Hops as [| op ops Hop _ IH]; intros q Hm Hq; cbn [queue_run]; [done |].
  destruct (queue_op_limit q op Hop Hm Hq) as [H1 H2]. destruct (queue_op q op) as [out q1]. cbn in H1, H2.
  specialize (IH q1 ltac:(lia) H2). destruct (queue_run ops q1) as [outs q2]. cbn in *. lia.
Qed.

Lemma queue_bounded_witness :
  q_size (snd (queue_run [Enqueue 1; Enqueue 2; Enqueue 3; Dequeue; Enqueue 4]
                 (SetMaxSize (SafeQueue_make (T := Z)) 2))) <= 2.
Proof.
  apply (queue_bounded [Enqueue 1; Enqueue 2; Enqueue 3; Dequeue; Enqueue 4] (SetMaxSize SafeQueue_make 2));
    [vm_compute; reflexivity | vm_compute; discriminate | repeat constructor].
Defined.
