(* ===== verification/InferenceCounter.v ===== *)
(** * The inference counter

    [Management/worker/include/InferenceCounter.h] and [src/InferenceCounter.cpp]:
    per requester a counter of completed inferences, and the periodic tick that
    reads and resets them.  [counters_] is only touched under the mutex, so
    concurrent use is a sequence of the operations below.  The log line, the
    metrics registry and the disk statistics of the tick are outputs only. *)

From Stdlib Require Import SpecFloat.
From stdpp Require Import gmap.
From S2P Require Import Prelude Float32 InferObject EngineTypes.
Open Scope Z_scope.
Open Scope list_scope.

Definition DFPS_CHECK_INTERVAL_SECONDS : Z := 10.

(** UnitID to [unsigned int]. *)
Abbreviation Counters := (gmap Z Z).

Definition Regist (c : Counters) (unit_id : Z) : Counters :=
  match c !! unit_id with None => <[unit_id := 0]> c | Some _ => c end.

Definition Unregist (c : Counters) (unit_id : Z) : Counters := delete unit_id c.

Definition AddCount (c : Counters) (unit_id : Z) : Counters :=
  match c !! unit_id with None => c | Some n => <[unit_id := u32 (n + 1)]> c end.

(** The statistics of one tick; [None] when nothing is registered. *)
Record Tick := mkTick {
  all_regist_ids : gset Z;
  main_total_frames : Z;          (* unsigned int *)
  main_active_cam_ids : gset Z;
  avg_fps_per_cam : f32;
  total_fps_raw : f32;
  not_requested : list Z
}.

(** The snapshot: the counters in iteration order, and all of them reset. *)
Definition snapshot (c : Counters) : list (Z * Z) * Counters := (map_to_list c, (fun _ => 0) <$> c).

(** The loop over the snapshot: frames and active cameras of the detection
    requesters with a non-zero count. *)
Definition collect_step (acc : Z * gset Z) (p : Z * Z) : Z * gset Z :=
  let '(frames, active) := acc in
  let '(unit_id, count) := p in
  if count =? 0 then (frames, active)
  else if bool_decide (GetModelMajorTypeFromEngineIdentifier unit_id = MajorDetection)
  then (u32 (frames + count), {[ GetPureIDFromInferenceRequesterID unit_id ]} ∪ active)
  else (frames, active).

Definition tick (c : Counters) : option Tick * Counters :=
  let '(snap, c') := snapshot c in
  let all_ids : gset Z := list_to_set (map (fun p => GetPureIDFromInferenceRequesterID (fst p)) snap) in
  if Z.of_nat (size all_ids) =? 0 then (None, c')
  else
    let '(frames, active) := foldl collect_step (0, ∅) snap in
    let active_cnt := Z.of_nat (size active) in
    let interval := DFPS_CHECK_INTERVAL_SECONDS in
    let avg := if active_cnt =? 0 then f0
               else f32_div (f32_of_Z frames) (f32_of_Z (active_cnt * interval)) in
    let total := f32_div (f32_of_Z frames) (f32_of_Z interval) in
    (Some (mkTick all_ids frames active avg total
             (if active_cnt <? Z.of_nat (size all_ids) then elements (all_ids ∖ active) else [])),
     c').

(** ** Counting *)

(** Frames counted for detection requesters. *)
Definition detection_unit (unit_id : Z) : Prop :=
  GetModelMajorTypeFromEngineIdentifier unit_id = MajorDetection.

#[export] Instance detection_unit_dec u : Decision (detection_unit u).
Proof. unfold detection_unit. apply _. Defined.

Definition pending (c : Counters) : Z :=
  map_fold (fun u n acc => if decide (detection_unit u) then n + acc else acc) 0 c.

Lemma pending_insert_fresh c u n :
  c !! u = None -> pending (<[u := n]> c) = (if decide (detection_unit u) then n else 0) + pending c.
Proof.
  intros H. unfold pending. rewrite map_fold_insert_L; [| | done].
  - case_decide; lia.
  - intros. repeat case_decide; lia.
Qed.

Lemma pending_delete c u n :
  c !! u = Some n -> pending c = (if decide (detection_unit u) then n else 0) + pending (delete u c).
Proof.
  intros H. rewrite <- (insert_delete_id c u n H) at 1. apply pending_insert_fresh. apply lookup_delete_eq.
Qed.

Lemma pending_insert c u n n' :
  c !! u = Some n ->
  pending (<[u := n']> c) = (if decide (detection_unit u) then n' - n else 0) + pending c.
Proof.
  intros H. rewrite (pending_delete (<[u := n']> c) u n') by apply lookup_insert_eq.
  rewrite delete_insert_eq, (pending_delete c u n H). case_decide; lia.
Qed.

(** What one operation adds to the frames waiting to be reported, and what a
    tick reports. *)
Inductive CounterOp := OpRegist (u : Z) | OpAdd (u : Z) | OpTick.

Definition counter_op (c : Counters) (op : CounterOp) : Z * Counters :=
  match op with
  | OpRegist u => (0, Regist c u)
  | OpAdd u => (0, AddCount c u)
  | OpTick => let '(t, c') := tick c in (match t with Some t => main_total_frames t | None => 0 end, c')
  end.

(** Reported frames, frames added to registered detection requesters, and the
    last state. *)
Fixpoint counter_run (ops : list CounterOp) (c : Counters) : Z * Z * Counters :=
  match ops with
  | [] => (0, 0, c)
  | op :: ops =>
      let '(reported, c') := counter_op c op in
      let added := match op with
                   | OpAdd u => if bool_decide (is_Some (c !! u)) && bool_decide (detection_unit u) then 1 else 0
                   | _ => 0 end in
      let '(r, a, c'') := counter_run ops c' in (reported + r, added + a, c'')
  end.

Lemma pending_zero c : (forall u n, c !! u = Some n -> n = 0) -> pending c = 0.
Proof.
  induction c as [| u n c Hu IH] using map_ind; intros H; [done |].
  rewrite pending_insert_fresh by done.
  rewrite (H u n) by apply lookup_insert_eq. rewrite IH; [by case_decide |].
  intros v m Hv. apply (H v). rewrite lookup_insert_ne; [done |]. intros ->. congruence.
Qed.

Lemma pending_list c :
  pending c = foldr (fun p acc => (if decide (detection_unit (fst p)) then snd p else 0) + acc) 0 (map_to_list c).
Proof.
  unfold pending. rewrite map_fold_foldr. induction (map_to_list c) as [| [u n] l IH]; cbn; [done |].
  rewrite IH. case_decide; lia.
Qed.

Lemma collect_frames l frames active :
  (forall p, p ∈ l -> 0 <= snd p) -> 0 <= frames ->
  fst (foldl collect_step (frames, active) l) =
    u32 (frames + foldr (fun p acc => (if decide (detection_unit (fst p)) then snd p else 0) + acc) 0 l) \/
  (frames <> u32 frames).
Proof.
  revert frames active. induction l as [| [u n] l IH]; intros frames active Hl Hf; cbn [foldl foldr].
  { destruct (decide (frames = u32 frames)); [left | by right]. by rewrite Z.add_0_r. }
  destruct (decide (frames = u32 frames)) as [Hu |]; [left | by right].
  assert (0 <= n) as Hn by (apply (Hl (u, n)); left).
  assert (forall p, p ∈ l -> 0 <= snd p) as Hl' by (intros; apply Hl; by right).
  unfold collect_step at 2. cbn [fst snd].
  destruct (Z.eqb_spec n 0) as [-> | Hn0].
  - destruct (IH frames active Hl' Hf) as [-> |]; [| done]. f_equal. case_decide; lia.
  - case_bool_decide as Hd.
    + rewrite decide_True by exact Hd.
      pose proof (u32_range (frames + n)) as Hr. unfold in_u32 in Hr.
      destruct (IH (u32 (frames + n)) ({[GetPureIDFromInferenceRequesterID u]} ∪ active) Hl' ltac:(lia)) as [-> | Hne].
      * unfold wrap_u. rewrite Zplus_mod_idemp_l. f_equal. lia.
      * exfalso. apply Hne. symmetry. by apply u32_id.
    + rewrite decide_False by exact Hd. destruct (IH frames active Hl' Hf) as [-> |]; done.
Qed.

Definition counters_ok (c : Counters) : Prop := map_Forall (fun _ n => in_u32 n) c.

Lemma tick_spec c :
  counters_ok c ->
  let '(t, c') := tick c in
  pending c' = 0 /\ dom c' = dom c /\ counters_ok c' /\
  match t with Some t => main_total_frames t = u32 (pending c) | None => c = ∅ end.
Proof.
  intros Hok. unfold tick, snapshot.
  assert (pending ((fun _ => 0) <$> c) = 0) as H0.
  { apply pending_zero. intros u n Hu. rewrite lookup_fmap in Hu. destruct (c !! u); [| done]. by injection Hu as <-. }
  assert (dom ((fun _ : Z => 0) <$> c) = dom c) as Hd by apply dom_fmap_L.
  assert (counters_ok ((fun _ => 0) <$> c)) as Hok'.
  { intros u n Hu. rewrite lookup_fmap in Hu. destruct (c !! u); [| done]. injection Hu as <-. unfold in_u32; lia. }
  case_if; bool_to_prop.
  - split_and!; try done. rewrite <- map_to_list_empty_iff.
    destruct (map_to_list c) as [| p l] eqn:El; [done | exfalso].
    assert (size (list_to_set (map (fun p => GetPureIDFromInferenceRequesterID p.1) (p :: l)) : gset Z) = 0%nat) as Hs by lia.
    apply size_empty_inv in Hs. cbn in Hs. set_solver.
  - destruct (foldl collect_step (0, ∅) (map_to_list c)) as [frames active] eqn:Ef.
    split_and!; try done. cbn.
    destruct (collect_frames (map_to_list c) 0 ∅) as [Hc | Hc]; [| done | | done].
    + intros [u n] Hp%elem_of_map_to_list. specialize (Hok u n Hp). unfold in_u32 in Hok. cbn. lia.
    + rewrite Ef in Hc. cbn in Hc. by rewrite Hc, pending_list.
Qed.

(** Every inference is counted exactly once: over any interleaving of
    registrations, counts and ticks, the frames the ticks report plus those
    still pending are, modulo 2^32, the ones pending at the start plus one per
    count of a registered detection requester. *)
Theorem inferences_counted_once ops c :
  counters_ok c ->
  let '(reported, added, c') := counter_run ops c in
  u32 (reported + pending c') = u32 (pending c + added) /\ counters_ok c'.
Proof.
  revert c. induction ops as [| op ops IH]; intros c Hok; cbn [counter_run].
  { split; [by rewrite Z.add_0_r, Z.add_0_l | done]. }
  assert (let '(reported, c') := counter_op c op in
          let added := match op with
                   | OpAdd u => if bool_decide (is_Some (c !! u)) && bool_decide (detection_unit u) then 1 else 0
                   | _ => 0 end in
          u32 (reported + pending c') = u32 (pending c + added) /\ counters_ok c') as Hop.
  { destruct op as [u | u |]; cbn [counter_op].
    - unfold Regist. destruct (c !! u) as [n |] eqn:E; [by rewrite Z.add_0_r |].
      rewrite pending_insert_fresh by done. split; [f_equal; case_decide; lia |].
      apply map_Forall_insert_2; [unfold in_u32; lia | done].
    - unfold AddCount. destruct (c !! u) as [n |] eqn:E.
      + rewrite (pending_insert _ _ _ _ E). rewrite (bool_decide_true (is_Some (Some n))) by done. cbn [andb].
        split; [| apply map_Forall_insert_2; [apply u32_range | done]].
        unfold wrap_u. case_bool_decide; case_decide; try done; [| f_equal; lia].
        rewrite Z.add_0_l. replace ((n + 1) mod 2 ^ 32 - n + pending c) with ((n + 1) mod 2 ^ 32 + (pending c - n)) by lia.
        rewrite Zplus_mod_idemp_l. f_equal. lia.
      + rewrite bool_decide_false by (by intros [? ?]). cbn. by rewrite Z.add_0_r.
    - pose proof (tick_spec c Hok) as Ht. destruct (tick c) as [t c']. destruct Ht as (Hp & _ & Hok' & Ht).
      split; [| done]. rewrite Hp, !Z.add_0_r. destruct t as [t |]; [rewrite Ht; apply wrap_u_id, u32_range |].
      subst c. done. }
  destruct (counter_op c op) as [reported c1]. destruct Hop as [H1 Hok1].
  specialize (IH c1 Hok1). destruct (counter_run ops c1) as [[r a] c2]. destruct IH as [IH Hok2].
  split; [| done]. set (added := match op with OpAdd _ => _ | _ => _ end) in *.
  clearbody added. unfold wrap_u in *.
  rewrite <- Z.add_assoc, <- Zplus_mod_idemp_r, IH, Zplus_mod_idemp_r.
  rewrite Z.add_assoc, <- Zplus_mod_idemp_l, H1, Zplus_mod_idemp_l. f_equal. lia.
Qed.

Definition demo_counts : list CounterOp :=
  [OpRegist 1; OpRegist 2; OpAdd 1; OpAdd 1; OpAdd 2; OpAdd 3; OpTick; OpAdd 2].

Lemma inferences_counted_once_witness :
  u32 (3 + pending (snd (counter_run demo_counts ∅))) = u32 (0 + 4).
Proof. exact (proj1 (inferences_counted_once demo_counts ∅ ltac:(by apply map_Forall_empty))). Defined.
