(* ===== verification/LoadBalancer.v ===== *)
(** * The engine load balancer

    [Management/manager/include/EngineLoadBalancer.h] and
    [src/EngineLoadBalancer.cpp].  Queues are shared between the balancer, the
    engine handlers and the waiting units, so they live in two stores and the
    maps hold their addresses.  A method is a sequence of sections: a critical section of
    one of the two mutexes, an operation of a queue (which locks itself), a read or an
    exchange of the terminate flag.  Each section is a function below, and a method's
    result is their composition when no other thread runs in between.  [lb_step]
    interleaves the sections of all methods freely: a [Task] is a method between two of
    its sections.

    The response dispatcher thread is [dispatch_take], [dispatch_find], [dispatch_push].
    The deprecated [reply_dispatcher_] is never written and is left out.

    The load balancer: theorems.  Responses go to their requester under every interleaving, requests are
    spread evenly and bounded, a response makes the round trip, and the one race
    that leaves a subscribed unit without a queue. *)

From Stdlib Require Import SpecFloat.
From stdpp Require Import gmap.
From S2P Require Import Prelude Float32 InferObject EngineTypes SafeQueue InferenceCounter.
Open Scope Z_scope.
Open Scope list_scope.

Definition MAX_ENGINE_INFER_INPUT_QUEUE_SIZE : Z := 128.
Definition CAM_RESULT_QUEUE_SIZE : Z := 10.

Record EngineLoadBalancer := mkBalancer {
  engine_profiles_ : gmap Z EngineProfile;
  engine_handles_ : list EngineHandleUUID;
  engine_input_qs_ : gmap EngineHandleUUID nat;
  round_robin_idx_ : Z;                              (* size_t *)
  infer_respond_receiver_ : SafeQueue OutputLayerWrapper;
  cam_result_qs_ : gmap Z nat;
  subscribers_ : gset Z;
  inference_counter_ : Counters;
  is_terminate_instance_ : bool;
  input_queues : gmap nat (SafeQueue InputLayerWrapper);
  result_queues : gmap nat (SafeQueue OutputLayerWrapper)
}.

(** Functional updates of the fields the sections write. *)
Definition set_engines b handles qs := mkBalancer (engine_profiles_ b) handles qs (round_robin_idx_ b)
  (infer_respond_receiver_ b) (cam_result_qs_ b) (subscribers_ b) (inference_counter_ b)
  (is_terminate_instance_ b) (input_queues b) (result_queues b).
Definition set_round_robin b i := mkBalancer (engine_profiles_ b) (engine_handles_ b) (engine_input_qs_ b) i
  (infer_respond_receiver_ b) (cam_result_qs_ b) (subscribers_ b) (inference_counter_ b)
  (is_terminate_instance_ b) (input_queues b) (result_queues b).
Definition set_receiver b q := mkBalancer (engine_profiles_ b) (engine_handles_ b) (engine_input_qs_ b)
  (round_robin_idx_ b) q (cam_result_qs_ b) (subscribers_ b) (inference_counter_ b)
  (is_terminate_instance_ b) (input_queues b) (result_queues b).
Definition set_results b cams qs := mkBalancer (engine_profiles_ b) (engine_handles_ b) (engine_input_qs_ b)
  (round_robin_idx_ b) (infer_respond_receiver_ b) cams (subscribers_ b) (inference_counter_ b)
  (is_terminate_instance_ b) (input_queues b) qs.
Definition set_subscribers b s c := mkBalancer (engine_profiles_ b) (engine_handles_ b) (engine_input_qs_ b)
  (round_robin_idx_ b) (infer_respond_receiver_ b) (cam_result_qs_ b) s c
  (is_terminate_instance_ b) (input_queues b) (result_queues b).
Definition set_terminated b t := mkBalancer (engine_profiles_ b) (engine_handles_ b) (engine_input_qs_ b)
  (round_robin_idx_ b) (infer_respond_receiver_ b) (cam_result_qs_ b) (subscribers_ b) (inference_counter_ b)
  t (input_queues b) (result_queues b).
Definition set_inputs b qs := mkBalancer (engine_profiles_ b) (engine_handles_ b) (engine_input_qs_ b)
  (round_robin_idx_ b) (infer_respond_receiver_ b) (cam_result_qs_ b) (subscribers_ b) (inference_counter_ b)
  (is_terminate_instance_ b) qs (result_queues b).

(** ** Construction and queries *)

(** [emplace] keeps the first profile of an identifier. *)
Definition CreateProfileMap (profiles : list EngineProfile) : gmap Z EngineProfile :=
  foldl (fun m p => match m !! uuid p with None => <[uuid p := p]> m | Some _ => m end) ∅ profiles.

Definition EngineLoadBalancer_make (profiles : list EngineProfile) : EngineLoadBalancer :=
  mkBalancer (CreateProfileMap profiles) [] ∅ 0 SafeQueue_make ∅ ∅ ∅ false ∅ ∅.

Definition IsLoadEngine (b : EngineLoadBalancer) : bool :=
  if is_terminate_instance_ b then false else bool_decide (engine_input_qs_ b <> ∅).

Definition GetAvailableInferEngineID (b : EngineLoadBalancer) (require : InferRequestRequireOneType) : Z :=
  match SearchEngineUUID_one (map_to_list (engine_profiles_ b)) require with
  | [] => INFER_ENGINE_ID_NOT_SET
  | id :: _ => id
  end.

Definition GetEngineProfileTargetInferEngineID (b : EngineLoadBalancer) (id : Z) : option EngineProfile :=
  engine_profiles_ b !! id.

Definition GetRespondReceiverSize (b : EngineLoadBalancer) : Z := q_size (infer_respond_receiver_ b).

Definition GetTotalInputQueueSize (b : EngineLoadBalancer) : Z :=
  map_fold (fun _ a total => (match input_queues b !! a with Some q => q_size q | None => 0 end) + total)
    0 (engine_input_qs_ b).

Definition GetCamResultQTotalSize (b : EngineLoadBalancer) : Z :=
  map_fold (fun _ a total => (match result_queues b !! a with Some q => q_size q | None => 0 end) + total)
    0 (cam_result_qs_ b).

Definition GetCamResultQTotalDrop (b : EngineLoadBalancer) : Z :=
  map_fold (fun _ a total => u64 ((match result_queues b !! a with Some q => drop_count_ q | None => 0 end) + total))
    0 (cam_result_qs_ b).

(** ** Subscription *)

(** The section under [unit_regist_mutex_], after the terminate flag was read. *)
Definition subscribe_register (b : EngineLoadBalancer) (unit_id : Z) : bool * EngineLoadBalancer :=
  if bool_decide (unit_id ∈ subscribers_ b) then (false, b)
  else (true, set_subscribers b ({[unit_id]} ∪ subscribers_ b) (Regist (inference_counter_ b) unit_id)).

(** The section under [cam_result_qs_mutex_]: a fresh result queue, at an address not
    used before. *)
Definition subscribe_queue (b : EngineLoadBalancer) (unit_id : Z) (address : nat) : EngineLoadBalancer :=
  set_results b (<[unit_id := address]> (cam_result_qs_ b))
    (<[address := SetMaxSize SafeQueue_make CAM_RESULT_QUEUE_SIZE]> (result_queues b)).

Definition Subscribe (b : EngineLoadBalancer) (unit_id : Z) (address : nat) : bool * EngineLoadBalancer :=
  if is_terminate_instance_ b then (false, b)
  else let '(ok, b) := subscribe_register b unit_id in
  if ok then (true, subscribe_queue b unit_id address) else (false, b).

Definition unsubscribe_register (b : EngineLoadBalancer) (unit_id : Z) : EngineLoadBalancer :=
  if bool_decide (unit_id ∈ subscribers_ b)
  then set_subscribers b (subscribers_ b ∖ {[unit_id]}) (Unregist (inference_counter_ b) unit_id)
  else b.

Definition unsubscribe_queue (b : EngineLoadBalancer) (unit_id : Z) : EngineLoadBalancer :=
  match cam_result_qs_ b !! unit_id with
  | None => b
  | Some a => set_results b (delete unit_id (cam_result_qs_ b)) (alter terminate a (result_queues b))
  end.

Definition Unsubscribe (b : EngineLoadBalancer) (unit_id : Z) : EngineLoadBalancer :=
  unsubscribe_queue (unsubscribe_register b unit_id) unit_id.

(** ** Handlers and requests *)

(** [true] when the response queue is returned, [false] for [nullptr]. *)
Definition Linker (b : EngineLoadBalancer) (handle_uuid : EngineHandleUUID) (input_q : nat)
    : bool * EngineLoadBalancer :=
  if is_terminate_instance_ b then (false, b)
  else match engine_input_qs_ b !! handle_uuid with
  | Some _ => (false, b)
  | None =>
      match engine_profiles_ b !! GetInferEngineID handle_uuid with
      | None => (false, b)
      | Some _ => (true, set_engines b (engine_handles_ b ++ [handle_uuid])
                           (<[handle_uuid := input_q]> (engine_input_qs_ b)))
      end
  end.

Definition image_missing (request : InputLayerWrapper) : bool :=
  match image_data request with None | Some [] => true | Some _ => false end.

(** The section under [engine_mutex_]: the handler of the next request and the
    address of its queue ([None] inside: a null pointer). *)
Definition select_handler (b : EngineLoadBalancer)
    : option (EngineHandleUUID * option nat) * EngineLoadBalancer :=
  match engine_handles_ b with
  | [] => (None, b)
  | h0 :: _ =>
      let idx := round_robin_idx_ b mod Z.of_nat (length (engine_handles_ b)) in
      let target_handle := default h0 (engine_handles_ b !! Z.to_nat idx) in
      (Some (target_handle, engine_input_qs_ b !! target_handle),
       set_round_robin b (u64 (round_robin_idx_ b + 1)))
  end.

Definition with_requestee (request : InputLayerWrapper) (engine : Z) : InputLayerWrapper :=
  let m := in_meta_data request in
  mkInput (mkMeta (requester_unit_id m) engine (request_image_pixel_w m) (request_image_pixel_h m)
             (correlation_id m)) (requirements request) (image_data request).

(** Before the section: the flag and the image. *)
Definition request_admitted (b : EngineLoadBalancer) (request : InputLayerWrapper) : bool :=
  negb (is_terminate_instance_ b) && negb (image_missing request).

(** After it: the size of the handler's queue is read ([None]: through a null pointer),
    then the request is pushed. *)
Definition request_measure (b : EngineLoadBalancer) (address : option nat) : option (nat * bool) :=
  a ← address; q ← input_queues b !! a; Some (a, MAX_ENGINE_INFER_INPUT_QUEUE_SIZE <=? q_size q).

Definition request_enqueue (b : EngineLoadBalancer) (a : nat) (engine : Z) (request : InputLayerWrapper) : EngineLoadBalancer :=
  set_inputs b (alter (fun q => enqueue q (with_requestee request engine)) a (input_queues b)).

(** [None]: a null queue is dereferenced. *)
Definition RequestAsync (b : EngineLoadBalancer) (request : InputLayerWrapper)
    : option (bool * EngineLoadBalancer) :=
  if negb (request_admitted b request) then Some (false, b)
  else match select_handler b with
  | (None, b) => Some (false, b)
  | (Some (target_handle, address), b) =>
      '(a, full) ← request_measure b address;
      if full : bool then Some (false, b) else Some (true, request_enqueue b a (fst target_handle) request)
  end.

(** ** Responses *)

(** The section under [unit_regist_mutex_], then the one under [cam_result_qs_mutex_]:
    the address of the queue the unit waits on. *)
Definition respond_subscribed (b : EngineLoadBalancer) (unit_id : Z) : bool := bool_decide (unit_id ∈ subscribers_ b).

Definition respond_queue (b : EngineLoadBalancer) (unit_id : Z) : option nat := cam_result_qs_ b !! unit_id.

Definition respond_lookup (b : EngineLoadBalancer) (unit_id : Z) : option nat :=
  if respond_subscribed b unit_id then respond_queue b unit_id else None.

(** The end of the wait on the queue at [address]. *)
Definition respond_dequeue (b : EngineLoadBalancer) (address : nat) : option OutputLayerWrapper * EngineLoadBalancer :=
  match result_queues b !! address with
  | None => (None, b)
  | Some q => let '(out, q') := dequeue_wait_for q in
              (out, set_results b (cam_result_qs_ b) (<[address := q']> (result_queues b)))
  end.

Definition RespondAsync (b : EngineLoadBalancer) (unit_id : Z) : option OutputLayerWrapper * EngineLoadBalancer :=
  match respond_lookup b unit_id with
  | None => (None, b)
  | Some address => respond_dequeue b address
  end.

(** [dispatch] runs whatever the dispatcher thread does during the wait. *)
Definition Request (b : EngineLoadBalancer) (request : InputLayerWrapper)
    (dispatch : EngineLoadBalancer -> EngineLoadBalancer) : option (option OutputLayerWrapper * EngineLoadBalancer) :=
  if image_missing request then Some (None, b)
  else match RequestAsync b request with
  | None => None
  | Some (false, b) => Some (None, b)
  | Some (true, b) => Some (RespondAsync (dispatch b) (requester_unit_id (in_meta_data request)))
  end.

(** An iteration of the dispatcher thread: take a response, find the queue of its
    requester, push. *)
Definition dispatch_take (b : EngineLoadBalancer) : option OutputLayerWrapper * EngineLoadBalancer :=
  let '(out, q) := dequeue_wait_for (infer_respond_receiver_ b) in (out, set_receiver b q).

Definition dispatch_find (b : EngineLoadBalancer) (o : OutputLayerWrapper) : option nat :=
  cam_result_qs_ b !! requester_unit_id (out_meta_data o).

Definition dispatch_push (b : EngineLoadBalancer) (o : OutputLayerWrapper) (address : nat) : EngineLoadBalancer :=
  set_results b (cam_result_qs_ b) (alter (fun q => enqueue q o) address (result_queues b)).

Definition ReplyDispatcherThreadRunner_iteration (b : EngineLoadBalancer) : EngineLoadBalancer :=
  match dispatch_take b with
  | (None, b) => b
  | (Some o, b) => match dispatch_find b o with Some address => dispatch_push b o address | None => b end
  end.

(** A handler's response. *)
Definition handler_respond (b : EngineLoadBalancer) (o : OutputLayerWrapper) : EngineLoadBalancer :=
  set_receiver b (enqueue (infer_respond_receiver_ b) o).

(** ** Termination *)

Definition ReplyDispatcherThreadCloser (b : EngineLoadBalancer) : EngineLoadBalancer :=
  set_receiver b (terminate (infer_respond_receiver_ b)).

(** The thread that sets the flag closes the dispatcher, then clears the handlers under
    [engine_mutex_]. *)
Definition terminate_flag (b : EngineLoadBalancer) : bool * EngineLoadBalancer := (negb (is_terminate_instance_ b), set_terminated b true).

Definition terminate_clear (b : EngineLoadBalancer) : EngineLoadBalancer := set_engines b [] ∅.

Definition Terminate_ (b : EngineLoadBalancer) : bool * EngineLoadBalancer :=
  let '(first, b) := terminate_flag b in
  if first then (true, terminate_clear (ReplyDispatcherThreadCloser b)) else (false, b).

(** Three sections, under [cam_result_qs_mutex_], [unit_regist_mutex_], [cam_result_qs_mutex_]. *)
Definition destroy_terminate (b : EngineLoadBalancer) : EngineLoadBalancer :=
  set_results b (cam_result_qs_ b) (map_fold (fun _ a qs => alter terminate a qs) (result_queues b) (cam_result_qs_ b)).
Definition destroy_subscribers (b : EngineLoadBalancer) : EngineLoadBalancer := set_subscribers b ∅ (inference_counter_ b).
Definition destroy_queues (b : EngineLoadBalancer) : EngineLoadBalancer := set_results b ∅ (result_queues b).

Definition DestroySubscribersAll (b : EngineLoadBalancer) : EngineLoadBalancer :=
  destroy_queues (destroy_subscribers (destroy_terminate b)).

Definition AddInferCount (b : EngineLoadBalancer) (id : Z) : EngineLoadBalancer :=
  set_subscribers b (subscribers_ b) (AddCount (inference_counter_ b) id).

(** ** Interleaving

    What the threads still have to do. *)

Inductive Task :=
| SubscribeRegister (unit_id : Z)                    (* the flag was down *)
| SubscribeQueue (unit_id : Z)                       (* registered, no queue yet *)
| UnsubscribeQueue (unit_id : Z)                     (* unregistered, queue still there *)
| RequestSelect (r : InputLayerWrapper)              (* admitted *)
| RequestMeasure (r : InputLayerWrapper) (h : EngineHandleUUID) (address : option nat)
| RequestEnqueue (r : InputLayerWrapper) (h : EngineHandleUUID) (address : nat)
| RespondFind (unit_id : Z)                          (* subscribed, its queue not looked up yet *)
| RespondWait (unit_id : Z) (address : nat)          (* waiting on the queue *)
| DispatchFind (o : OutputLayerWrapper)
| DispatchPush (o : OutputLayerWrapper) (address : nat)
| TerminateClose
| TerminateClear
| DestroySubscribers
| DestroyQueues.

Inductive Event := Silent | Received (unit_id : Z) (o : OutputLayerWrapper).

(** A call of a method starts: its first section, and what it has still to do. *)
Inductive call_step (b : EngineLoadBalancer) : EngineLoadBalancer -> list Task -> Prop :=
| call_subscribe u : is_terminate_instance_ b = false -> call_step b b [SubscribeRegister u]
| call_unsubscribe u : call_step b (unsubscribe_register b u) [UnsubscribeQueue u]
| call_link h q ok b' : Linker b h q = (ok, b') -> call_step b b' []
| call_request r : request_admitted b r = true -> call_step b b [RequestSelect r]
| call_handler o : call_step b (handler_respond b o) []
| call_dispatch_take o b' : dispatch_take b = (o, b') -> call_step b b' (match o with Some o => [DispatchFind o] | None => [] end)
| call_respond u : respond_subscribed b u = true -> call_step b b [RespondFind u]
| call_terminate first b' : terminate_flag b = (first, b') -> call_step b b' (if first : bool then [TerminateClose] else [])
| call_destroy : call_step b (destroy_terminate b) [DestroySubscribers]
| call_count u : call_step b (AddInferCount b u) [].

(** A call in progress performs its next section; a call that has nothing left to do
    returns. *)
Inductive task_step (b : EngineLoadBalancer) : Task -> Event -> EngineLoadBalancer -> list Task -> Prop :=
| task_subscribe u ok b' : subscribe_register b u = (ok, b') ->
    task_step b (SubscribeRegister u) Silent b' (if ok : bool then [SubscribeQueue u] else [])
| task_subscribe_queue u a : result_queues b !! a = None -> task_step b (SubscribeQueue u) Silent (subscribe_queue b u a) []
| task_unsubscribe_queue u : task_step b (UnsubscribeQueue u) Silent (unsubscribe_queue b u) []
| task_select r sel b' : select_handler b = (sel, b') ->
    task_step b (RequestSelect r) Silent b' (match sel with Some (h, addr) => [RequestMeasure r h addr] | None => [] end)
| task_measure r h addr a full : request_measure b addr = Some (a, full) ->
    task_step b (RequestMeasure r h addr) Silent b (if full : bool then [] else [RequestEnqueue r h a])
| task_enqueue r h a : task_step b (RequestEnqueue r h a) Silent (request_enqueue b a (fst h) r) []
| task_find u : task_step b (RespondFind u) Silent b (match respond_queue b u with Some a => [RespondWait u a] | None => [] end)
| task_wait u a o b' : respond_dequeue b a = (o, b') ->
    task_step b (RespondWait u a) (match o with Some o => Received u o | None => Silent end) b' []
| task_dispatch_find o : task_step b (DispatchFind o) Silent b (match dispatch_find b o with Some a => [DispatchPush o a] | None => [] end)
| task_dispatch_push o a : task_step b (DispatchPush o a) Silent (dispatch_push b o a) []
| task_close : task_step b TerminateClose Silent (ReplyDispatcherThreadCloser b) [TerminateClear]
| task_clear : task_step b TerminateClear Silent (terminate_clear b) []
| task_destroy_subscribers : task_step b DestroySubscribers Silent (destroy_subscribers b) [DestroyQueues]
| task_destroy_queues : task_step b DestroyQueues Silent (destroy_queues b) [].

Inductive lb_step : EngineLoadBalancer * list Task -> Event -> EngineLoadBalancer * list Task -> Prop :=
| step_call b ts b' new : call_step b b' new -> lb_step (b, ts) Silent (b', new ++ ts)
| step_task b ts1 t ts2 e b' new : task_step b t e b' new -> lb_step (b, ts1 ++ t :: ts2) e (b', ts1 ++ new ++ ts2).

Inductive lb_trace : EngineLoadBalancer * list Task -> list Event -> EngineLoadBalancer * list Task -> Prop :=
| trace_nil st : lb_trace st [] st
| trace_cons st st' st'' e es : lb_step st e st' -> lb_trace st' es st'' -> lb_trace st (e :: es) st''.

Lemma trace_call b ts b' new es st : call_step b b' new -> lb_trace (b', new ++ ts) es st -> lb_trace (b, ts) (Silent :: es) st.
Proof. intros Hc Ht. eapply trace_cons; [by apply step_call | exact Ht]. Qed.

Lemma trace_task b t ts e b' new es st :
  task_step b t e b' new -> lb_trace (b', new ++ ts) es st -> lb_trace (b, t :: ts) (e :: es) st.
Proof. intros Hc Ht. eapply trace_cons; [by apply (step_task b []) | exact Ht]. Qed.

(** ** The methods are their sections, run without interruption *)

Lemma subscribe_sections b u a b' ts : result_queues b !! a = None -> Subscribe b u a = (true, b') ->
  lb_trace (b, ts) [Silent; Silent; Silent] (b', ts).
Proof.
  unfold Subscribe. intros Ha. destruct (is_terminate_instance_ b) eqn:Et; [done |].
  destruct (subscribe_register b u) as [[] b1] eqn:E; [| done]. intros [= <-].
  eapply trace_call; [by apply call_subscribe |]. eapply trace_task; [by eapply task_subscribe |].
  eapply trace_task; [apply (task_subscribe_queue _ _ a) | constructor].
  unfold subscribe_register in E. case_bool_decide; [done |]. by injection E as <-.
Qed.

Lemma unsubscribe_sections b u ts : lb_trace (b, ts) [Silent; Silent] (Unsubscribe b u, ts).
Proof. eapply trace_call; [apply call_unsubscribe |]. eapply trace_task; [apply task_unsubscribe_queue | constructor]. Qed.

Lemma request_sections b r b' ts : RequestAsync b r = Some (true, b') ->
  lb_trace (b, ts) [Silent; Silent; Silent; Silent] (b', ts).
Proof.
  unfold RequestAsync. destruct (request_admitted b r) eqn:Ea; [| done]. cbn [negb].
  destruct (select_handler b) as [[[h addr] |] b1] eqn:Es; [| done].
  destruct (request_measure b1 addr) as [[a []] |] eqn:Em; try done. intros [= <-].
  eapply trace_call; [by apply call_request |]. eapply trace_task; [by eapply task_select |].
  eapply trace_task; [by eapply task_measure |]. eapply trace_task; [apply task_enqueue | constructor].
Qed.

Lemma respond_sections b u o b' ts : RespondAsync b u = (Some o, b') ->
  lb_trace (b, ts) [Silent; Silent; Received u o] (b', ts).
Proof.
  unfold RespondAsync, respond_lookup. destruct (respond_subscribed b u) eqn:Es; [| done].
  destruct (respond_queue b u) as [a |] eqn:Eq; [| done]. intros Hd.
  eapply trace_call; [by apply call_respond |]. eapply trace_task; [apply task_find |]. rewrite Eq.
  eapply (trace_task _ _ _ (Received u o)); [exact (task_wait b u a (Some o) b' Hd) | constructor].
Qed.

Lemma dispatch_sections b b' o a ts : dispatch_take b = (Some o, b') -> dispatch_find b' o = Some a ->
  lb_trace (b, ts) [Silent; Silent; Silent] (ReplyDispatcherThreadRunner_iteration b, ts).
Proof.
  intros Ht Hf. unfold ReplyDispatcherThreadRunner_iteration. rewrite Ht, Hf.
  eapply trace_call; [by eapply call_dispatch_take |]. eapply trace_task; [apply task_dispatch_find |]. rewrite Hf.
  eapply trace_task; [apply task_dispatch_push | constructor].
Qed.

Lemma terminate_sections b b' ts : Terminate_ b = (true, b') -> lb_trace (b, ts) [Silent; Silent; Silent] (b', ts).
Proof.
  unfold Terminate_. destruct (terminate_flag b) as [[] b1] eqn:E; [| done]. intros [= <-].
  eapply trace_call; [by eapply call_terminate |]. eapply trace_task; [apply task_close |].
  eapply trace_task; [apply task_clear | constructor].
Qed.

Lemma destroy_sections b ts : lb_trace (b, ts) [Silent; Silent; Silent] (DestroySubscribersAll b, ts).
Proof.
  eapply trace_call; [apply call_destroy |]. eapply trace_task; [apply task_destroy_subscribers |].
  eapply trace_task; [apply task_destroy_queues | constructor].
Qed.

(** ** Routing *)

Definition requester (o : OutputLayerWrapper) : Z := requester_unit_id (out_meta_data o).

(** Each result queue ever created belongs to one unit: the map, the waiting
    units and the dispatcher refer to queues of the right unit, and the queues
    hold responses to their unit only. *)
Record routed (owner : nat -> Z) (b : EngineLoadBalancer) (ts : list Task) : Prop := {
  ro_map : forall u a, cam_result_qs_ b !! u = Some a -> is_Some (result_queues b !! a) /\ owner a = u;
  ro_queues : forall a q o, result_queues b !! a = Some q -> o ∈ q_ q -> requester o = owner a;
  ro_wait : forall u a, RespondWait u a ∈ ts -> is_Some (result_queues b !! a) /\ owner a = u;
  ro_push : forall o a, DispatchPush o a ∈ ts -> is_Some (result_queues b !! a) /\ owner a = requester o
}.

(** Sections that leave the result queues alone. *)
Lemma routed_same owner b b' ts ts' :
  cam_result_qs_ b' = cam_result_qs_ b -> result_queues b' = result_queues b ->
  (forall t, t ∈ ts' -> t ∈ ts \/ (exists u, t = SubscribeQueue u) \/ (exists u, t = UnsubscribeQueue u)) ->
  routed owner b ts -> routed owner b' ts'.
Proof.
  intros Hc Hq Ht [H1 H2 H3 H4]. split; rewrite ?Hc, ?Hq; try done.
  - intros u a [Hin | [[v Hv] | [v Hv]]]%Ht; [by apply H3 | discriminate..].
  - intros o a [Hin | [[v Hv] | [v Hv]]]%Ht; [by apply H4 | discriminate..].
Qed.

Lemma routed_tasks owner b ts ts' : (forall t, t ∈ ts' -> t ∈ ts) -> routed owner b ts -> routed owner b ts'.
Proof. intros H. apply routed_same; auto. Qed.

Lemma elem_of_middle {A} (l1 l2 : list A) t x : x ∈ l1 ++ l2 -> x ∈ l1 ++ t :: l2.
Proof. rewrite !elem_of_app, elem_of_cons. tauto. Qed.

(** Replacing the contents of one queue by responses of its unit. *)
Lemma routed_alter owner b ts f a :
  routed owner b ts ->
  (forall q o, result_queues b !! a = Some q -> o ∈ q_ (f q) -> o ∈ q_ q \/ requester o = owner a) ->
  routed owner (set_results b (cam_result_qs_ b) (alter f a (result_queues b))) ts.
Proof.
  intros [H1 H2 H3 H4] Hf.
  assert (forall a', is_Some (result_queues b !! a') -> is_Some (alter f a (result_queues b) !! a')) as Hs.
  { intros a' Ha. destruct (decide (a = a')) as [-> |]; [rewrite lookup_alter_eq; by apply fmap_is_Some | by rewrite lookup_alter_ne]. }
  split; cbn.
  - intros u a' H. destruct (H1 u a' H). auto.
  - intros a' q o. destruct (decide (a = a')) as [-> | Hne].
    + rewrite lookup_alter_eq. destruct (result_queues b !! a') as [q0 |] eqn:E; [| done]. intros [= <-] Ho.
      destruct (Hf q0 o eq_refl Ho); [by eapply H2 | done].
    + rewrite lookup_alter_ne by done. apply H2.
  - intros u a' H. destruct (H3 u a' H). auto.
  - intros o a' H. destruct (H4 o a' H). auto.
Qed.

Lemma elem_of_enqueue {T} (q : SafeQueue T) t x : x ∈ q_ (enqueue q t) -> x ∈ q_ q \/ x = t.
Proof.
  unfold enqueue. case_if; cbn; rewrite elem_of_app, list_elem_of_singleton; [| tauto].
  destruct (q_ q); cbn; [tauto |]. rewrite elem_of_cons. tauto.
Qed.

Lemma elem_of_dequeue {T} (q : SafeQueue T) x :
  (x ∈ q_ (snd (dequeue_wait_for q)) -> x ∈ q_ q) /\ (fst (dequeue_wait_for q) = Some x -> x ∈ q_ q).
Proof.
  unfold dequeue_wait_for. destruct (b_terminate q); [done |].
  destruct (q_ q) as [| y l] eqn:E; cbn; rewrite ?E; [done |].
  split; [by right | intros [= ->]; left].
Qed.

Lemma routed_dequeue owner b ts a out b' :
  routed owner b ts -> respond_dequeue b a = (out, b') ->
  routed owner b' ts /\ (forall o, out = Some o -> is_Some (result_queues b !! a) -> requester o = owner a).
Proof.
  intros Hr. unfold respond_dequeue. destruct (result_queues b !! a) as [q |] eqn:E.
  - destruct (dequeue_wait_for q) as [o1 q'] eqn:Eq. intros [= <- <-].
    pose proof (elem_of_dequeue q) as Hd. rewrite Eq in Hd. cbn in Hd. split.
    + assert (<[a := q']> (result_queues b) = alter (fun _ => q') a (result_queues b)) as ->.
      { apply map_eq. intros j. destruct (decide (a = j)) as [-> |];
          [by rewrite lookup_insert_eq, lookup_alter_eq, E | by rewrite lookup_insert_ne, lookup_alter_ne]. }
      apply routed_alter; [done |]. intros q0 o Hq0 Ho. left. rewrite E in Hq0. injection Hq0 as <-. exact (proj1 (Hd o) Ho).
    + intros o -> _. eapply ro_queues; [exact Hr | exact E |]. exact (proj2 (Hd o) eq_refl).
  - intros [= <- <-]. split; [done |]. intros o [=].
Qed.

Lemma routed_terminate_all owner b ts :
  routed owner b ts ->
  routed owner (set_results b (cam_result_qs_ b)
    (map_fold (fun _ a qs => alter terminate a qs) (result_queues b) (cam_result_qs_ b))) ts.
Proof.
  intros Hr. rewrite map_fold_foldr. induction (map_to_list (cam_result_qs_ b)) as [| [u a] l IH]; cbn [foldr].
  - by eapply routed_same; [| | | exact Hr]; auto.
  - eapply (routed_alter _ _ _ terminate a) in IH; [exact IH |]. cbn. intros q o _ Ho. by left.
Qed.

(** Allocating the queue of a new subscription. *)
Lemma routed_subscribe owner b ts u a :
  routed owner b ts -> result_queues b !! a = None ->
  routed (fun x => if decide (x = a) then u else owner x) (subscribe_queue b u a) ts.
Proof.
  intros [H1 H2 H3 H4] Ha.
  assert (forall a', is_Some (result_queues b !! a') -> a' <> a) as Hne by (intros a' [? ?] ->; congruence).
  assert (forall a', is_Some (result_queues b !! a') ->
            is_Some (<[a := SetMaxSize SafeQueue_make CAM_RESULT_QUEUE_SIZE]> (result_queues b) !! a')) as Hs.
  { intros a' Hs. rewrite lookup_insert_ne; [done | intros ->; by apply (Hne a')]. }
  split; cbn.
  - intros v a'. destruct (decide (u = v)) as [-> | Huv].
    + rewrite lookup_insert_eq. intros [= <-]. rewrite lookup_insert_eq, decide_True by done. by split; [eexists |].
    + rewrite lookup_insert_ne by done. intros H. destruct (H1 v a' H) as [Hs' <-].
      rewrite decide_False by (by apply Hne). auto.
  - intros a' q o. destruct (decide (a = a')) as [-> | Hd].
    + rewrite lookup_insert_eq. intros [= <-]. cbn. by intros ?%elem_of_nil.
    + rewrite lookup_insert_ne, decide_False by done. apply H2.
  - intros v a' H. destruct (H3 v a' H) as [Hs' <-]. rewrite decide_False by (by apply Hne). auto.
  - intros o a' H. destruct (H4 o a' H) as [Hs' ->]. rewrite decide_False by (by apply Hne). auto.
Qed.

(** A section that leaves the result queues alone, of a call that has no queue at hand. *)
Lemma routed_section owner b b' ts new :
  routed owner b ts -> cam_result_qs_ b' = cam_result_qs_ b -> result_queues b' = result_queues b ->
  Forall (fun t => match t with RespondWait _ _ | DispatchPush _ _ => False | _ => True end) new -> routed owner b' (new ++ ts).
Proof.
  intros [H1 H2 H3 H4] Hc Hq Hn. split; rewrite ?Hc, ?Hq; try done.
  - intros u a [Hin | Hin]%elem_of_app; [by rewrite Forall_forall in Hn; destruct (Hn _ Hin) | by apply H3].
  - intros o a [Hin | Hin]%elem_of_app; [by rewrite Forall_forall in Hn; destruct (Hn _ Hin) | by apply H4].
Qed.

Lemma routed_remove owner b cams ts :
  routed owner b ts -> (forall u a, cams !! u = Some a -> cam_result_qs_ b !! u = Some a) ->
  routed owner (set_results b cams (result_queues b)) ts.
Proof. intros [H1 H2 H3 H4] Hc. split; cbn; try done. intros u a H. by apply H1, Hc. Qed.

Lemma routed_unsubscribe_queue owner b ts u : routed owner b ts -> routed owner (unsubscribe_queue b u) ts.
Proof.
  intros Hr. unfold unsubscribe_queue. destruct (cam_result_qs_ b !! u) as [a |] eqn:E; [| done].
  refine (routed_remove _ (set_results b (cam_result_qs_ b) (alter terminate a (result_queues b))) (delete u (cam_result_qs_ b)) _ _ _).
  - apply routed_alter; [exact Hr |]. intros; by left.
  - cbn. intros v a' H. by apply lookup_delete_Some in H as [_ H].
Qed.

Lemma select_handler_results b sel b' : select_handler b = (sel, b') ->
  cam_result_qs_ b' = cam_result_qs_ b /\ result_queues b' = result_queues b.
Proof. unfold select_handler. destruct (engine_handles_ b); by intros [= <- <-]. Qed.

Lemma Linker_results b h q ok b' : Linker b h q = (ok, b') ->
  cam_result_qs_ b' = cam_result_qs_ b /\ result_queues b' = result_queues b.
Proof. unfold Linker. repeat case_match; by intros [= <- <-]. Qed.

Lemma call_step_routed owner b b' ts new : call_step b b' new -> routed owner b ts -> routed owner b' (new ++ ts).
Proof.
  intros Hs Hr. destruct Hs; try (by eapply routed_section; [exact Hr | done | done | repeat constructor]).
  - eapply routed_section; [exact Hr | | | by repeat constructor]; unfold unsubscribe_register; by case_bool_decide.
  - apply Linker_results in H as [Hc Hq]. eapply routed_section; [exact Hr | exact Hc | exact Hq | constructor].
  - unfold dispatch_take in H. destruct (dequeue_wait_for _) as [o' q]. injection H as <- <-.
    eapply routed_section; [exact Hr | done | done |]. destruct o'; by repeat constructor.
  - unfold terminate_flag in H. injection H as <- <-. eapply routed_section; [exact Hr | done | done |]. destruct (negb _); by repeat constructor.
  - eapply (routed_section _ (destroy_terminate b)); [by apply routed_terminate_all | done | done | by repeat constructor].
Qed.

Lemma routed_focus owner b ts1 t ts2 : routed owner b (ts1 ++ t :: ts2) ->
  routed owner b (ts1 ++ ts2) /\ match t with
    | RespondWait u a => is_Some (result_queues b !! a) /\ owner a = u
    | DispatchPush o a => is_Some (result_queues b !! a) /\ owner a = requester o
    | _ => True end.
Proof.
  intros Hr. split; [eapply routed_tasks; [apply elem_of_middle | exact Hr] |].
  destruct t; try done; [eapply ro_wait | eapply ro_push]; try exact Hr; apply elem_of_app; right; left.
Qed.

Lemma routed_swap owner b ts1 new ts2 : routed owner b (new ++ ts1 ++ ts2) -> routed owner b (ts1 ++ new ++ ts2).
Proof. apply routed_tasks. intros t. rewrite !elem_of_app. tauto. Qed.

Lemma task_step_routed owner b ts1 t ts2 e b' new :
  task_step b t e b' new -> routed owner b (ts1 ++ t :: ts2) ->
  (exists owner', routed owner' b' (ts1 ++ new ++ ts2)) /\ (forall u o, e = Received u o -> requester o = u).
Proof.
  intros Hs [Hr Ht]%routed_focus.
  assert (cam_result_qs_ b' = cam_result_qs_ b -> result_queues b' = result_queues b ->
          Forall (fun t => match t with RespondWait _ _ | DispatchPush _ _ => False | _ => True end) new ->
          exists owner', routed owner' b' (ts1 ++ new ++ ts2)) as Hsec.
  { intros Hc Hq Hn. exists owner. by eapply routed_swap, routed_section. }
  assert (routed owner b' (ts1 ++ ts2) -> new = [] -> exists owner', routed owner' b' (ts1 ++ new ++ ts2)) as Hend.
  { intros H ->. by exists owner. }
  destruct Hs; (split; [| first [done | idtac]]); try (apply Hsec; by repeat constructor).
  - unfold subscribe_register in H. case_bool_decide; injection H as <- <-; apply Hsec; by repeat constructor.
  - eexists. by apply routed_subscribe.
  - apply Hend; [by apply routed_unsubscribe_queue | done].
  - apply select_handler_results in H as [Hc Hq]. apply Hsec; [done | done |]. destruct sel as [[]|]; by repeat constructor.
  - apply Hsec; [done | done |]. destruct full; by repeat constructor.
  - exists owner. apply routed_swap. unfold respond_queue. destruct (cam_result_qs_ b !! u) as [a |] eqn:E; [| done].
    pose proof (ro_map _ _ _ Hr u a E) as [Hq Ho]. destruct Hr as [H1 H2 H3 H4]. split; try done.
    + intros v a' [[= -> ->] | ?]%elem_of_cons; [done | by apply H3].
    + intros o' a' [? | ?]%elem_of_cons; [done | by apply H4].
  - destruct (routed_dequeue _ _ _ _ _ _ Hr H) as [Hr' _]. by apply Hend.
  - intros v o' He. destruct Ht as [Hq Ho]. destruct (routed_dequeue _ _ _ _ _ _ Hr H) as [_ Hreq].
    destruct o as [o |]; [| done]. injection He as -> ->. rewrite <- Ho. by apply Hreq.
  - exists owner. apply routed_swap. unfold dispatch_find. destruct (cam_result_qs_ b !! _) as [a |] eqn:E; [| done].
    pose proof (ro_map _ _ _ Hr _ a E) as [Hq Ho]. destruct Hr as [H1 H2 H3 H4]. split; try done.
    + intros v a' [? | ?]%elem_of_cons; [done | by apply H3].
    + intros o' a' [[= -> ->] | ?]%elem_of_cons; [done | by apply H4].
  - apply Hend; [| done]. apply routed_alter; [exact Hr |]. destruct Ht as [_ Ho].
    intros q o' _ [? | ->]%elem_of_enqueue; [by left | by right].
  - apply Hend; [| done]. by apply routed_remove.
Qed.

Lemma lb_step_routed owner st e st' :
  lb_step st e st' -> routed owner (fst st) (snd st) ->
  (exists owner', routed owner' (fst st') (snd st')) /\
  (forall u o, e = Received u o -> requester o = u).
Proof.
  intros Hstep Hr. destruct Hstep as [b ts b' new Hs | b ts1 t ts2 e b' new Hs]; cbn [fst snd] in *.
  - split; [| done]. exists owner. by eapply call_step_routed.
  - by eapply task_step_routed.
Qed.

(** C15: a response reaches nobody but the unit that asked for it.  Under every
    interleaving of the sections of subscriptions, unsubscriptions, requests, the
    dispatcher thread, waiting units and termination, with responses from the handlers
    at any time - including a unit that waits on a queue that was replaced meanwhile,
    and a response whose requester has gone - each response that a unit receives names
    that unit as its requester in its metadata.  (Which image the objects of a response
    come from is the handler's affair: see the theorem on the detector's batches.) *)
Theorem responses_routed profiles es st :
  lb_trace (EngineLoadBalancer_make profiles, []) es st ->
  Forall (fun e => match e with Received u o => requester o = u | Silent => True end) es.
Proof.
  assert (exists owner, routed owner (EngineLoadBalancer_make profiles) []) as Hinit.
  { exists (fun _ => 0). split; cbn; try (intros ? ? H; by apply elem_of_nil in H); intros ? ? ?; by rewrite lookup_empty || idtac. }
  revert Hinit. generalize (EngineLoadBalancer_make profiles) as b. generalize (@nil Task) as ts.
  intros ts b Hinit Ht. remember (b, ts) as st0 eqn:E.
  assert (exists owner, routed owner (fst st0) (snd st0)) as H0 by (by rewrite E).
  clear b ts Hinit E. induction Ht as [st | st0 st1 st2 e es Hstep Ht IH]; [constructor |].
  destruct H0 as [owner H0]. destruct (lb_step_routed owner _ _ _ Hstep H0) as [H1 He].
  constructor; [| by apply IH]. destruct e as [| u o]; [done |]. by apply He.
Qed.

(** ** A concrete run *)

Definition demo_unit : Z := 5.
Definition demo_balancer : EngineLoadBalancer :=
  EngineLoadBalancer_make [demo_profile 1 10 "a"].
Definition demo_response : OutputLayerWrapper := mkOutput (mkMeta demo_unit 1 640 640 1) (1, 0) [].
Definition demo_request : InputLayerWrapper :=
  mkInput (mkMeta demo_unit 0 640 640 1) InferRequestRequirements_default (Some [0]).
Definition demo_subscribed : EngineLoadBalancer := snd (Subscribe demo_balancer demo_unit 0).

Lemma responses_routed_witness :
  Forall (fun e => match e with Received u o => requester o = u | Silent => True end)
    [Silent; Silent; Silent; Silent; Silent; Silent; Silent; Silent; Silent; Received demo_unit demo_response].
Proof.
  eapply (responses_routed [demo_profile 1 10 "a"]).
  eapply trace_call; [by apply (call_subscribe _ demo_unit) |].
  eapply trace_task; [eapply task_subscribe; vm_compute; reflexivity |].
  eapply trace_task; [by apply (task_subscribe_queue _ _ 0) |].
  eapply trace_call; [apply (call_handler _ demo_response) |].
  eapply trace_call; [apply (call_respond _ demo_unit); vm_compute; reflexivity |].
  eapply trace_task; [apply task_find |].
  eapply trace_call; [eapply call_dispatch_take; vm_compute; reflexivity |].
  eapply trace_task; [apply task_dispatch_find |].
  eapply trace_task; [apply task_dispatch_push |].
  eapply (trace_task _ _ _ (Received demo_unit demo_response)); [eapply (task_wait _ _ _ (Some demo_response)); vm_compute; reflexivity |].
  apply trace_nil.
Defined.

(** ** The race of a new subscription with an unfinished unsubscription *)

(** An unsubscription that is overtaken by a new subscription of the same
    unit, between its two sections, removes the queue of the new subscription:
    the unit is then subscribed but has no queue, nothing is left to run, a wait
    returns nothing whatever is dispatched, and subscribing again is refused. *)
Theorem resubscribe_race :
  exists es b,
    lb_trace (demo_subscribed, []) es (b, []) /\
    demo_unit ∈ subscribers_ b /\ cam_result_qs_ b !! demo_unit = None /\
    fst (RespondAsync (ReplyDispatcherThreadRunner_iteration (handler_respond b demo_response)) demo_unit) = None /\
    (forall a, fst (Subscribe b demo_unit a) = false).
Proof.
  eexists _, _. split.
  - eapply trace_call; [apply (call_unsubscribe _ demo_unit) |].
    eapply trace_call; [by apply (call_subscribe _ demo_unit) |].
    eapply trace_task; [eapply task_subscribe; vm_compute; reflexivity |].
    eapply trace_task; [by apply (task_subscribe_queue _ _ 1) |].
    eapply trace_task; [apply task_unsubscribe_queue |].
    apply trace_nil.
  - split; [apply (bool_decide_unpack _); vm_compute; exact I |].
    split; [vm_compute; reflexivity |]. split; [vm_compute; reflexivity |].
    intros a. vm_compute. reflexivity.
Qed.

(** ** Requests *)

(** What [Linker] and [RequestAsync] keep: the handles are distinct, exactly the
    linked ones, and each has an input queue within the limit. *)
Record engines_ok (b : EngineLoadBalancer) : Prop := {
  en_nodup : NoDup (engine_handles_ b);
  en_keys : forall h, h ∈ engine_handles_ b <-> is_Some (engine_input_qs_ b !! h);
  en_profile : forall h, h ∈ engine_handles_ b -> is_Some (engine_profiles_ b !! GetInferEngineID h);
  en_queue : forall h a, engine_input_qs_ b !! h = Some a -> is_Some (input_queues b !! a);
  en_bound : forall a q, input_queues b !! a = Some q -> q_size q <= MAX_ENGINE_INFER_INPUT_QUEUE_SIZE
}.

Lemma enqueue_grows {T} (q : SafeQueue T) t : q_size (enqueue q t) <= q_size q + 1.
Proof.
  unfold enqueue, q_size. case_if; cbn; rewrite length_app; cbn; [| lia]. destruct (q_ q); cbn; lia.
Qed.

Lemma alter_present {T} (f : T -> T) (m : gmap nat T) a t : m !! a = Some t -> alter f a m = <[a := f t]> m.
Proof.
  intros Ha. apply map_eq. intros j.
  destruct (decide (a = j)) as [-> |]; [by rewrite lookup_insert_eq, lookup_alter_eq, Ha | by rewrite lookup_insert_ne, lookup_alter_ne].
Qed.

Lemma select_handler_ok b :
  engines_ok b -> 
  let '(sel, b') := select_handler b in
  engines_ok b' /\
  match sel with
  | None => engine_handles_ b = []
  | Some (h, addr) =>
      engine_handles_ b !! Z.to_nat (round_robin_idx_ b mod Z.of_nat (length (engine_handles_ b))) = Some h /\
      exists a, addr = Some a /\ engine_input_qs_ b !! h = Some a /\ is_Some (input_queues b !! a)
  end.
Proof.
  intros Hok. unfold select_handler. destruct (engine_handles_ b) as [| h0 hs] eqn:E; [done |].
  assert (exists h, (h0 :: hs) !! Z.to_nat (round_robin_idx_ b mod Z.of_nat (length (h0 :: hs))) = Some h) as [h Hh].
  { apply lookup_lt_is_Some. pose proof (Z.mod_pos_bound (round_robin_idx_ b) (Z.of_nat (length (h0 :: hs)))).
    cbn [length] in *. lia. }
  split; [destruct Hok; split; done |]. rewrite Hh. split; [done |].
  assert (h ∈ engine_handles_ b) as Hin by (rewrite E; by eapply list_elem_of_lookup_2).
  apply (en_keys _ Hok) in Hin as [a Ha]. exists a. cbn. split; [done |]. split; [done |].
  by eapply en_queue.
Qed.

(** A request is either queued once at the handler whose turn it is, marked
    with that handler's engine, or leaves every queue as it was: the latter when
    the balancer is terminated, the image is missing or empty, no handler is
    linked, or the queue of the handler holds 128 requests already.  No null
    queue is ever used, and the queues stay within 128 requests. *)
Theorem request_queued_or_dropped b r :
  engines_ok b ->
  exists ok b', RequestAsync b r = Some (ok, b') /\ engines_ok b' /\
    (ok = false -> input_queues b' = input_queues b) /\
    (ok = true <-> is_terminate_instance_ b = false /\ image_missing r = false /\
       exists h a q,
         engine_handles_ b !! Z.to_nat (round_robin_idx_ b mod Z.of_nat (length (engine_handles_ b))) = Some h /\
         engine_input_qs_ b !! h = Some a /\ input_queues b !! a = Some q /\
         q_size q < MAX_ENGINE_INFER_INPUT_QUEUE_SIZE /\
         input_queues b' = <[a := enqueue q (with_requestee r (fst h))]> (input_queues b)).
Proof.
  intros Hok. unfold RequestAsync, request_admitted.
  destruct (is_terminate_instance_ b) eqn:Et; cbn [negb andb]; [exists false, b; split_and!; try done; by split; [| intros [? _]] |].
  destruct (image_missing r) eqn:Ei; cbn [negb]; [exists false, b; split_and!; try done; by split; [| intros (_ & ? & _)] |].
  pose proof (select_handler_ok b Hok) as Hs.
  assert (input_queues (snd (select_handler b)) = input_queues b) as Hin
    by (unfold select_handler; by destruct (engine_handles_ b)).
  destruct (select_handler b) as [[[h addr] |] b1]; destruct Hs as [Hok1 Hs]; cbn in Hin.
  - destruct Hs as (Hh & a & -> & Ha & [q Hq]). unfold request_measure. cbn [mbind option_bind]. rewrite Hin, Hq. cbn [mbind option_bind].
    destruct (_ <=? _) eqn:Efull; bool_to_prop.
    + exists false, b1. split_and!; try done. split; [done |].
      intros (_ & _ & h' & a' & q' & Hh' & Ha' & Hq' & Hlt & _).
      pose proof (Some_inj _ _ (eq_trans (eq_sym Hh') Hh)) as ->.
      pose proof (Some_inj _ _ (eq_trans (eq_sym Ha') Ha)) as ->.
      pose proof (Some_inj _ _ (eq_trans (eq_sym Hq') Hq)) as ->. lia.
    + exists true, (set_inputs b1 (<[a := enqueue q (with_requestee r (fst h))]> (input_queues b))).
      assert (request_enqueue b1 a (fst h) r = set_inputs b1 (<[a := enqueue q (with_requestee r (fst h))]> (input_queues b))) as ->
        by (unfold request_enqueue; by rewrite Hin, (alter_present _ _ _ _ Hq)).
      split_and!; try done.
      * destruct Hok1 as [H1 H2 H3 H4 H5]. split; cbn; try done.
        -- intros h' a' H'. destruct (decide (a = a')) as [-> |];
             [rewrite lookup_insert_eq; by eexists | rewrite lookup_insert_ne by done; rewrite <- Hin; by eapply H4].
        -- intros a' q'. destruct (decide (a = a')) as [-> |].
           ++ rewrite lookup_insert_eq. intros [= <-]. pose proof (enqueue_grows q (with_requestee r (fst h))). lia.
           ++ rewrite lookup_insert_ne by done. rewrite <- Hin. apply H5.
      * split; [| done]. intros _. split; [done |]. split; [done |]. exists h, a, q. split_and!; done.
  - exists false, b1. split_and!; try done. split; [done |].
    intros (_ & _ & h' & a' & q' & Hh' & _). rewrite Hs in Hh'. done.
Qed.

(** A queue of the handler (1, 0) linked at address 7. *)
Definition demo_linked : EngineLoadBalancer :=
  set_inputs (snd (Linker demo_subscribed (1, 0) 7)) {[ 7%nat := SafeQueue_make ]}.

Lemma demo_linked_ok : engines_ok demo_linked.
Proof.
  split.
  - apply (bool_decide_unpack _). vm_compute. exact I.
  - intros h. change (engine_handles_ demo_linked) with [(1, 0)].
    change (engine_input_qs_ demo_linked) with ({[ (1, 0) := 7%nat ]} : gmap EngineHandleUUID nat).
    rewrite list_elem_of_singleton. split.
    + intros ->. rewrite lookup_singleton_eq. by eexists.
    + intros [a Ha]. by apply lookup_singleton_Some in Ha as [<- _].
  - intros h. change (engine_handles_ demo_linked) with [(1, 0)]. rewrite list_elem_of_singleton.
    intros ->. apply (bool_decide_unpack _). vm_compute. exact I.
  - intros h a Ha. change (engine_input_qs_ demo_linked) with ({[ (1, 0) := 7%nat ]} : gmap EngineHandleUUID nat) in Ha.
    apply lookup_singleton_Some in Ha as [_ <-]. apply (bool_decide_unpack _). vm_compute. exact I.
  - intros a q Ha. change (input_queues demo_linked) with ({[ 7%nat := SafeQueue_make ]} : gmap nat (SafeQueue InputLayerWrapper)) in Ha.
    apply lookup_singleton_Some in Ha as [_ <-]. vm_compute. discriminate.
Qed.

Lemma request_queued_or_dropped_witness :
  exists ok b', RequestAsync demo_linked demo_request = Some (ok, b') /\ engines_ok b'.
Proof.
  destruct (request_queued_or_dropped demo_linked demo_request demo_linked_ok) as (ok & b' & H1 & H2 & _).
  exists ok, b'. split; [exact H1 | exact H2].
Defined.

(** The handlers selected by [n] successive requests. *)
Fixpoint select_run (n : nat) (b : EngineLoadBalancer) : list (option EngineHandleUUID) :=
  match n with
  | O => []
  | S n => let '(sel, b') := select_handler b in (fst <$> sel) :: select_run n b'
  end.

Lemma select_run_lookup n b i :
  engine_handles_ b <> [] -> (i < n)%nat -> 0 <= round_robin_idx_ b -> round_robin_idx_ b + Z.of_nat n <= 2 ^ 64 ->
  select_run n b !! i =
    Some (engine_handles_ b !! Z.to_nat ((round_robin_idx_ b + Z.of_nat i) mod Z.of_nat (length (engine_handles_ b)))).
Proof.
  revert b i. induction n as [| n IH]; intros b i Hne Hi H0 Hmax; [lia |]. cbn [select_run].
  unfold select_handler. destruct (engine_handles_ b) as [| h0 hs] eqn:E; [done |].
  destruct i as [| i].
  - cbn [lookup list_lookup]. rewrite Z.add_0_r. cbn [fmap option_fmap option_map fst]. f_equal.
    destruct ((h0 :: hs) !! _) as [h |] eqn:Eh; [done |]. exfalso. apply lookup_ge_None in Eh.
    pose proof (Z.mod_pos_bound (round_robin_idx_ b) (Z.of_nat (length (h0 :: hs))) ltac:(cbn [length]; lia)). lia.
  - cbn [lookup list_lookup].
    set (b' := set_round_robin b _). assert (round_robin_idx_ b' = round_robin_idx_ b + 1) as Hrr.
    { cbn. apply wrap_u_id. lia. }
    assert (engine_handles_ b' = h0 :: hs) as Hh by exact E.
    specialize (IH b' i ltac:(by rewrite Hh) ltac:(lia) ltac:(lia) ltac:(lia)). rewrite Hh, Hrr in IH.
    replace (round_robin_idx_ b + Z.of_nat (S i)) with (round_robin_idx_ b + 1 + Z.of_nat i) by lia.
    exact IH.
Qed.

(** Requests are spread evenly: with [n] linked handlers, any [n] successive
    selections choose every handler exactly once, as long as the 64-bit turn
    counter does not wrap in between. *)
Theorem round_robin_fair b :
  let n := length (engine_handles_ b) in
  (n > 0)%nat -> 0 <= round_robin_idx_ b -> round_robin_idx_ b + Z.of_nat n <= 2 ^ 64 ->
  select_run n b ≡ₚ map Some (engine_handles_ b).
Proof.
  intros n Hn H0 Hmax. set (hs := engine_handles_ b) in *.
  set (k := Z.to_nat (round_robin_idx_ b mod Z.of_nat n)).
  assert (k < n)%nat as Hk by (unfold k; pose proof (Z.mod_pos_bound (round_robin_idx_ b) (Z.of_nat n)); lia).
  assert (select_run n b = map Some (drop k hs ++ take k hs)) as ->.
  { apply list_eq. intros i. destruct (decide (i < n)%nat) as [Hi | Hi].
    - rewrite select_run_lookup; [| by intros Hnil; unfold n, hs in Hn; rewrite Hnil in Hn; cbn in Hn; lia | done..].
      fold hs n. rewrite list_lookup_fmap.
      assert (Z.to_nat ((round_robin_idx_ b + Z.of_nat i) mod Z.of_nat n) = if decide (k + i < n)%nat then k + i else k + i - n)%nat as ->.
      { unfold k. pose proof (Z.mod_pos_bound (round_robin_idx_ b) (Z.of_nat n) ltac:(lia)).
        rewrite <- Zplus_mod_idemp_l. set (m := round_robin_idx_ b mod Z.of_nat n) in *.
        case_decide.
        - rewrite Z.mod_small by lia. lia.
        - rewrite <- (Z.mod_unique (m + Z.of_nat i) (Z.of_nat n) 1 (m + Z.of_nat i - Z.of_nat n)) by lia. lia. }
      assert (length (drop k hs) = n - k)%nat as Hd by apply length_drop.
      case_decide.
      + rewrite lookup_app_l by lia. rewrite lookup_drop.
        destruct (hs !! (k + i)%nat) eqn:E; [done |]. apply lookup_ge_None in E. fold n in E. lia.
      + rewrite lookup_app_r by lia. rewrite Hd, lookup_take_lt by lia.
        replace (i - (n - k))%nat with (k + i - n)%nat by lia.
        destruct (hs !! (k + i - n)%nat) eqn:E; [done |]. apply lookup_ge_None in E. fold n in E. lia.
    - assert (forall m b0, length (select_run m b0) = m) as Hlen.
      { induction m as [| m IH]; intros b0; cbn; [done |]. destruct (select_handler b0). cbn. by rewrite IH. }
      rewrite !lookup_ge_None_2; [done | rewrite length_map, length_app, length_drop, length_take; fold n; lia | rewrite Hlen; lia]. }
  apply fmap_Permutation. rewrite Permutation_app_comm. by rewrite take_drop.
Qed.

Lemma round_robin_fair_witness :
  let b := snd (Linker demo_linked (1, 1) 8) in select_run 2 b ≡ₚ [Some (1, 0); Some (1, 1)].
Proof.
  intros b. refine (round_robin_fair b _ _ _); vm_compute; [lia | discriminate | discriminate].
Defined.

(** A response makes the round trip: pushed by a handler for a subscribed
    unit whose queue and the receiver are empty and open, it is what the unit
    gets after one turn of the dispatcher, and the unit's queue is empty again. *)
Theorem response_roundtrip b u a q o :
  u ∈ subscribers_ b -> cam_result_qs_ b !! u = Some a -> result_queues b !! a = Some q ->
  q_ q = [] -> b_terminate q = false -> 0 <= max_size_ q ->
  q_ (infer_respond_receiver_ b) = [] -> b_terminate (infer_respond_receiver_ b) = false ->
  0 <= max_size_ (infer_respond_receiver_ b) -> requester o = u ->
  let '(got, b') := RespondAsync (ReplyDispatcherThreadRunner_iteration (handler_respond b o)) u in
  got = Some o /\ q_ <$> result_queues b' !! a = Some [].
Proof.
  intros Hu Ha Hq Hqe Hqt Hqm Hre Hrt Hrm Ho.
  unfold ReplyDispatcherThreadRunner_iteration, handler_respond, dispatch_take, dispatch_find. cbn.
  assert (forall T (q : SafeQueue T) t, q_ q = [] -> 0 <= max_size_ q -> enqueue q t = mkQueue [t] (b_terminate q) (max_size_ q) (drop_count_ q)) as Henq.
  { intros T q0 t H1 H2. unfold enqueue, q_size. rewrite H1. case_if; [| done]. bool_to_prop.
    cbn [length] in *. lia. }
  rewrite Henq by done. unfold dequeue_wait_for at 1. cbn. rewrite Hrt. cbn. fold (requester o). rewrite Ho, Ha.
  unfold RespondAsync, respond_lookup, respond_subscribed, respond_queue, dispatch_push, respond_dequeue. cbn.
  rewrite bool_decide_true by done. rewrite Ha, lookup_alter_eq, Hq. cbn. rewrite Henq by done.
  unfold dequeue_wait_for. cbn. rewrite Hqt. cbn. rewrite lookup_insert_eq. done.
Qed.

Lemma response_roundtrip_witness :
  fst (RespondAsync (ReplyDispatcherThreadRunner_iteration (handler_respond demo_subscribed demo_response)) demo_unit)
    = Some demo_response.
Proof.
  pose proof (response_roundtrip demo_subscribed demo_unit 0 (SetMaxSize SafeQueue_make CAM_RESULT_QUEUE_SIZE) demo_response
    ltac:(apply (bool_decide_unpack _); vm_compute; exact I) eq_refl eq_refl eq_refl eq_refl ltac:(vm_compute; discriminate)
    eq_refl eq_refl ltac:(vm_compute; discriminate) eq_refl) as H.
  destruct (RespondAsync _ _) as [got b']. destruct H as [H _]. exact H.
Defined.
