(* ===== verification/SafeThread.v ===== *)
(** * The thread wrapper

    [BasicLibs/core/structure/SafeThread.h].  The atomic flag [is_running_]
    decides who starts and who stops; the thread object itself is only its
    [joinable()] state.  A runner can also clear the flag by itself, through
    [GetRunningFlag()].  [None] stands for [std::terminate]: a thread object that
    is still joinable is assigned or destroyed. *)

From stdpp Require Import base option list.
From S2P Require Import Prelude.
Open Scope list_scope.

Record SafeThread := mkThread {
  is_running_ : bool;
  joinable : bool;            (* thread_object_ *)
  thread_runner_ : bool;      (* a runner is set *)
  thread_closer_ : bool;      (* a closer is set *)
  closer_calls : nat          (* how often the closer ran *)
}.

Definition SafeThread_make : SafeThread := mkThread false false false false 0.

Definition SetThreadFunctions (t : SafeThread) (runner closer : bool) : SafeThread :=
  mkThread (is_running_ t) (joinable t) (runner || thread_runner_ t) (closer || thread_closer_ t)
    (closer_calls t).

Definition Start (t : SafeThread) : option SafeThread :=
  if is_running_ t then Some t
  else if joinable t then None
  else Some (mkThread true true (thread_runner_ t) (thread_closer_ t) (closer_calls t)).

(** The closer, then the join. *)
Definition Stop (t : SafeThread) : SafeThread :=
  if is_running_ t
  then mkThread false false (thread_runner_ t) (thread_closer_ t)
         (if thread_closer_ t then S (closer_calls t) else closer_calls t)
  else t.

(** A runner that stores [false] in the flag returned by [GetRunningFlag]. *)
Definition runner_clears (t : SafeThread) : SafeThread :=
  mkThread false (joinable t) (thread_runner_ t) (thread_closer_ t) (closer_calls t).

(** The destructor: [Stop], then the destructor of the thread object. *)
Definition destroy (t : SafeThread) : option SafeThread :=
  let t := Stop t in if joinable t then None else Some t.

(** ** Histories *)

Inductive ThreadOp := OpStart | OpStop | OpSet (runner closer : bool) | OpRunnerClears.

Definition thread_op (t : SafeThread) (op : ThreadOp) : option SafeThread :=
  match op with
  | OpStart => Start t
  | OpStop => Some (Stop t)
  | OpSet r c => Some (SetThreadFunctions t r c)
  | OpRunnerClears => Some (runner_clears t)
  end.

Fixpoint thread_run (ops : list ThreadOp) (t : SafeThread) : option SafeThread :=
  match ops with
  | [] => Some t
  | op :: ops => match thread_op t op with Some t => thread_run ops t | None => None end
  end.

Definition clears (op : ThreadOp) : bool := match op with OpRunnerClears => true | _ => false end.

(** The flag tells whether a thread has to be joined. *)
Definition flag_exact (t : SafeThread) : Prop := joinable t = is_running_ t.

Lemma thread_op_exact t op :
  flag_exact t -> clears op = false -> exists t', thread_op t op = Some t' /\ flag_exact t'.
Proof.
  unfold flag_exact. intros Ht Hc. destruct op; cbn; try done.
  - unfold Start. rewrite Ht. destruct (is_running_ t) eqn:E; eexists; split; try done. cbn. by rewrite Ht.
  - unfold Stop. destruct (is_running_ t) eqn:E; eexists; split; try done. by rewrite Ht, E.
  - eexists. split; done.
Qed.

(** A thread wrapper whose runner leaves the running flag alone never
    terminates the process: after any sequence of starts, stops and changes of
    its functions it can be destroyed, and nothing runs afterwards.  A runner
    that clears the flag itself breaks this: the destructor skips the join. *)
Theorem thread_destroyed_safely ops :
  forallb (fun op => negb (clears op)) ops = true ->
  (exists t t', thread_run ops SafeThread_make = Some t /\ destroy t = Some t' /\
     is_running_ t' = false /\ joinable t' = false) /\
  (exists t, thread_run [OpSet true true; OpStart; OpRunnerClears] SafeThread_make = Some t /\
     destroy t = None /\ Start t = None).
Proof.
  intros Hops. split; [| eexists; split_and!; reflexivity].
  assert (flag_exact SafeThread_make) as H by done. revert H Hops. generalize SafeThread_make as t.
  induction ops as [| op ops IH]; intros t Ht Hops; cbn.
  - exists t. exists (Stop t). split; [done |]. unfold destroy, Stop. rewrite <- Ht.
    destruct (joinable t) eqn:E; cbn; [done |]. rewrite E. by rewrite <- Ht.
  - cbn in Hops. bool_to_prop. destruct (thread_op_exact t op) as (t' & -> & Ht'); [done.. |]. by apply IH.
Qed.

Lemma thread_destroyed_safely_witness :
  exists t t', thread_run [OpSet true true; OpStart; OpStart; OpStop; OpStart] SafeThread_make = Some t /\
    destroy t = Some t' /\ closer_calls t' = 2.
Proof.
  destruct (thread_destroyed_safely [OpSet true true; OpStart; OpStart; OpStop; OpStart] eq_refl) as [(t & t' & H1 & H2 & _) _].
  exists t, t'. split; [exact H1 |]. split; [exact H2 |].
  vm_compute in H1. injection H1 as <-. vm_compute in H2. injection H2 as <-. reflexivity.
Defined.
