(* ===== verification/EngineHandler.v ===== *)
(** * The engine handler

    [Engine/EngineBase/include/EngineHandlerBase.h] and
    [src/EngineHandlerBase.cpp]: the life cycle of a handler and the loop of its
    inference thread.  The pure virtual functions are the class [Device]; what
    the base class needs of them is [DeviceLaws].  The loop is one
    [InferenceThread_iteration] per turn, interleaved with the arrival of
    requests and the collection of responses by the dispatcher thread. *)

From Stdlib Require Import SpecFloat.
From stdpp Require Import base option list.
From S2P Require Import Prelude Float32 InferObject EngineTypes SafeQueue LoadBalancer SafeThread.
Open Scope Z_scope.
Open Scope list_scope.

(** A call that returns or throws (the base class catches every exception), or
    whose behaviour is undefined (a division by zero, an access out of range). *)
Inductive Outcome (A : Type) := Value (a : A) | Throw | Undefined.
Arguments Value {A}.
Arguments Throw {A}.
Arguments Undefined {A}.

Abbreviation Input := InputLayerWrapper.
Abbreviation Output := OutputLayerWrapper.

(** The virtual functions; [Preprocess] also changes [current_batch_inputs_]. *)
Class Device (D : Type) := {
  InitializeDevice : D -> bool * D;
  LoadModelEngineFile : D -> bool * D;
  AllocateBuffers : D -> bool * D;
  ReleaseDeviceResources : D -> D;
  Preprocess : list Input -> Input -> D -> Outcome bool * list Input * D;
  DoInference : list Input -> D -> Outcome bool * D;
  Postprocess : list Input -> D -> Outcome (list Output) * D
}.

(** The linker: the response queue, or a null pointer, or (outer [None]) an
    exception. *)
Definition EngineLinker := EngineHandleUUID -> SafeQueue Input -> option (option (SafeQueue Output)).

Record EngineHandlerBase {D : Type} := mkHandler {
  profile_ : EngineProfile;
  device_id_ : Z;
  device : D;
  inference_thread_ : SafeThread;
  engine_linker_ : option EngineLinker;
  request_q_ : option (SafeQueue Input);
  respond_q_ : option (SafeQueue Output);
  current_batch_inputs_ : list Input;
  is_activate_handler_ : bool
}.
Arguments EngineHandlerBase : clear implicits.

Section Handler.
Context {D : Type} `{Device D}.

Definition set_device (h : EngineHandlerBase D) d := mkHandler D (profile_ h) (device_id_ h) d (inference_thread_ h)
  (engine_linker_ h) (request_q_ h) (respond_q_ h) (current_batch_inputs_ h) (is_activate_handler_ h).
Definition set_batch (h : EngineHandlerBase D) batch d := mkHandler D (profile_ h) (device_id_ h) d (inference_thread_ h)
  (engine_linker_ h) (request_q_ h) (respond_q_ h) batch (is_activate_handler_ h).
Definition set_links (h : EngineHandlerBase D) linker rq rs := mkHandler D (profile_ h) (device_id_ h) (device h)
  (inference_thread_ h) linker rq rs (current_batch_inputs_ h) (is_activate_handler_ h).
Definition set_thread (h : EngineHandlerBase D) t active := mkHandler D (profile_ h) (device_id_ h) (device h) t
  (engine_linker_ h) (request_q_ h) (respond_q_ h) (current_batch_inputs_ h) active.

Definition EngineHandlerBase_make (profile : EngineProfile) (device_id : Z) (d : D) : EngineHandlerBase D :=
  mkHandler D profile device_id d SafeThread_make None None None [] false.

Definition GetEngineHandleUUID (h : EngineHandlerBase D) : EngineHandleUUID := (uuid (profile_ h), device_id_ h).

Definition SetEngineLinker (h : EngineHandlerBase D) (linker : EngineLinker) : EngineHandlerBase D :=
  set_links h (Some linker) (request_q_ h) (respond_q_ h).

(** ** Activation *)

Definition Link (h : EngineHandlerBase D) : bool * EngineHandlerBase D :=
  match engine_linker_ h with
  | None => (false, h)
  | Some linker =>
      match linker (GetEngineHandleUUID h) SafeQueue_make with
      | Some (Some respond_q) => (true, set_links h (Some linker) (Some SafeQueue_make) (Some respond_q))
      | _ => (false, set_links h None None None)
      end
  end.

Definition InitializeDeviceAndModel (h : EngineHandlerBase D) : bool * EngineHandlerBase D :=
  let '(loaded, d) := LoadModelEngineFile (device h) in
  if loaded then let '(allocated, d) := AllocateBuffers d in (allocated, set_device h d)
  else (false, set_device h d).

(** [None]: the thread could not be started without terminating the process. *)
Definition ActivateEngine (h : EngineHandlerBase D) : option (bool * EngineHandlerBase D) :=
  if is_activate_handler_ h then Some (true, h)
  else match engine_linker_ h with
  | None => Some (false, h)
  | Some _ =>
      let '(linked, h) := Link h in
      if negb linked then Some (false, h)
      else
        let '(initialized, h) := InitializeDeviceAndModel h in
        if negb initialized then Some (false, h)
        else match Start (SetThreadFunctions (inference_thread_ h) true true) with
             | None => None
             | Some t => Some (true, set_thread h t true)
             end
  end.

(** ** The inference loop *)

Definition BuildInferenceFailureRespond (h : EngineHandlerBase D) (input_layer : Input) : Output :=
  mkOutput (in_meta_data input_layer) (GetEngineHandleUUID h) [].

(** Push the responses in order; [None]: through a null pointer. *)
Definition respond_all (h : EngineHandlerBase D) (outs : list Output) : option (EngineHandlerBase D) :=
  match outs, respond_q_ h with
  | [], _ => Some h
  | _, None => None
  | _, Some q => Some (set_links h (engine_linker_ h) (request_q_ h) (Some (foldl enqueue q outs)))
  end.

(** The end of a failed batch: a failure response for each of its inputs. *)
Definition fail_batch (h : EngineHandlerBase D) : option (EngineHandlerBase D) :=
  match respond_all h (map (BuildInferenceFailureRespond h) (current_batch_inputs_ h)) with
  | None => None
  | Some h => Some (set_batch h [] (device h))
  end.

(** [DoInference] and [Postprocess] on a full batch; [None] when a call's
    behaviour is undefined, here and below. *)
Definition run_batch (h : EngineHandlerBase D) : option (EngineHandlerBase D) :=
  let '(infer, d) := DoInference (current_batch_inputs_ h) (device h) in
  let h := set_device h d in
  match infer with
  | Value true =>
      let '(post, d) := Postprocess (current_batch_inputs_ h) (device h) in
      let h := set_device h d in
      match post with
      | Undefined => None
      | Throw => fail_batch h
      | Value output_results =>
          match respond_all h output_results with
          | None => None
          | Some h => Some (set_batch h [] (device h))
          end
      end
  | Undefined => None
  | _ => fail_batch h
  end.

(** The start of [InferenceThreadRunner]: a device that cannot be initialised
    ends the loop before its first turn. *)
Definition InferenceThread_begin (h : EngineHandlerBase D) : EngineHandlerBase D :=
  let '(initialized, d) := InitializeDevice (device h) in
  let h := set_device h d in
  if initialized then h
  else set_thread h (runner_clears (inference_thread_ h)) (is_activate_handler_ h).

(** One turn of the loop of [InferenceThreadRunner]. *)
Definition InferenceThread_iteration (h : EngineHandlerBase D) : option (EngineHandlerBase D) :=
  match request_q_ h with
  | None => None
  | Some rq =>
      let '(opt_input, rq) := dequeue_wait_for rq in
      let h := set_links h (engine_linker_ h) (Some rq) (respond_q_ h) in
      match opt_input with
      | None => Some h
      | Some input_data =>
          let prev_batched_input_size := length (current_batch_inputs_ h) in
          let '(batch_ready, batch, d) := Preprocess (current_batch_inputs_ h) input_data (device h) in
          let h := set_batch h batch d in
          match batch_ready with
          | Undefined => None
          | Throw => if (prev_batched_input_size =? length batch)%nat
                     then respond_all h [BuildInferenceFailureRespond h input_data] else Some h
          | Value false => Some h
          | Value true => run_batch h
          end
      end
  end.

(** ** Termination *)

(** The queue is terminated and emptied, a failure response for each request. *)
Definition InferenceThreadCloser (h : EngineHandlerBase D) : option (EngineHandlerBase D) :=
  match request_q_ h with
  | None => Some h
  | Some rq =>
      let '(inputs, rq) := clear_with_action (terminate rq) in
      let h := set_links h (engine_linker_ h) (Some rq) (respond_q_ h) in
      match respond_q_ h with
      | None => Some h
      | Some _ => respond_all h (map (BuildInferenceFailureRespond h) inputs)
      end
  end.

Definition TerminateEngine (h : EngineHandlerBase D) : option (EngineHandlerBase D) :=
  if negb (is_activate_handler_ h) then Some h
  else
    let h := set_thread h (inference_thread_ h) false in
    let closed := if is_running_ (inference_thread_ h) then InferenceThreadCloser h else Some h in
    match closed with
    | None => None
    | Some h =>
        let h := set_thread h (Stop (inference_thread_ h)) false in
        let h := set_device h (ReleaseDeviceResources (device h)) in
        Some (set_links h None None None)
    end.

(** ** Interleaving with the balancer *)

Inductive HandlerEvent :=
| Arrive (i : Input)      (* the balancer enqueues a request *)
| Work                    (* a turn of the inference loop *)
| Collect.                (* the dispatcher takes a response *)

Definition handler_event (h : EngineHandlerBase D) (e : HandlerEvent) : option (list Output * EngineHandlerBase D) :=
  match e with
  | Arrive i =>
      match request_q_ h with
      | None => None
      | Some rq => Some ([], set_links h (engine_linker_ h) (Some (enqueue rq i)) (respond_q_ h))
      end
  | Work => (fun h => ([], h)) <$> InferenceThread_iteration h
  | Collect =>
      match respond_q_ h with
      | None => None
      | Some rs => let '(out, rs) := dequeue_wait_for rs in
                   Some (match out with Some o => [o] | None => [] end,
                         set_links h (engine_linker_ h) (request_q_ h) (Some rs))
      end
  end.

(** The responses collected by a sequence of events, and the last state. *)
Fixpoint handler_run (es : list HandlerEvent) (h : EngineHandlerBase D)
    : option (list Output * EngineHandlerBase D) :=
  match es with
  | [] => Some ([], h)
  | e :: es =>
      match handler_event h e with
      | None => None
      | Some (outs, h) =>
          match handler_run es h with
          | None => None
          | Some (outs', h) => Some (outs ++ outs', h)
          end
      end
  end.

Definition arrivals (es : list HandlerEvent) : list Input :=
  omap (fun e => match e with Arrive i => Some i | _ => None end) es.

(** The batch that the next turn of the loop loses: the one for which [Postprocess] returns
    the empty vector. *)
Definition turn_loses (h : EngineHandlerBase D) : list Input :=
  match request_q_ h with
  | None => []
  | Some rq =>
      match fst (dequeue_wait_for rq) with
      | None => []
      | Some input_data =>
          match Preprocess (current_batch_inputs_ h) input_data (device h) with
          | (Value true, batch, d) =>
              match DoInference batch d with
              | (Value true, d) => match Postprocess batch d with (Value [], _) => batch | _ => [] end
              | _ => []
              end
          | _ => []
          end
      end
  end.

(** What is lost in the course of these events. *)
Fixpoint run_loses (es : list HandlerEvent) (h : EngineHandlerBase D) : list Input :=
  match es with
  | [] => []
  | e :: es =>
      match e with Work => turn_loses h | _ => [] end ++
      match handler_event h e with Some (_, h) => run_loses es h | None => [] end
  end.

End Handler.

(** ** What the base class needs of a device

    [dev_ok] is the implementation's own invariant, [dev_inferred] what holds in
    addition after an inference, [accepts] what it expects of a request.  [Postprocess] gives one
    response for each request of the batch or, as its documentation allows, the empty
    vector; its behaviour may be undefined, which ends the process. *)

Class DeviceLaws (D : Type) `{Device D} := {
  dev_ok : list Input -> D -> Prop;
  dev_inferred : list Input -> D -> Prop;
  accepts : Input -> Prop;
  preprocess_keeps : forall batch i d r batch' d',
    dev_ok batch d -> accepts i -> Preprocess batch i d = (r, batch', d') ->
    r <> Undefined /\ dev_ok batch' d' /\
    (map in_meta_data batch' = map in_meta_data batch ++ [in_meta_data i] \/ (r = Throw /\ batch' = batch));
  inference_keeps : forall batch d r d',
    dev_ok batch d -> DoInference batch d = (r, d') ->
    r <> Undefined /\ dev_ok batch d' /\ (r = Value true -> dev_inferred batch d');
  postprocess_keeps : forall batch d r d',
    dev_inferred batch d -> Postprocess batch d = (r, d') ->
    r = Undefined \/ dev_ok batch d' /\ forall outs, r = Value outs -> map out_meta_data outs = map in_meta_data batch \/ outs = [];
  clear_keeps : forall batch d, dev_ok batch d -> dev_ok [] d
}.

(** ** Conservation *)

Lemma enqueue_unbounded {T} (q : SafeQueue T) t : max_size_ q <= 0 ->
  enqueue q t = mkQueue (q_ q ++ [t]) (b_terminate q) (max_size_ q) (drop_count_ q).
Proof. intros Hm. unfold enqueue. by rewrite (proj2 (Z.ltb_ge 0 (max_size_ q)) Hm). Qed.

Lemma enqueue_all_unbounded {T} (q : SafeQueue T) ts : max_size_ q <= 0 ->
  foldl enqueue q ts = mkQueue (q_ q ++ ts) (b_terminate q) (max_size_ q) (drop_count_ q).
Proof.
  revert q. induction ts as [| t ts IH]; intros q Hm; cbn; [by rewrite app_nil_r; destruct q |].
  rewrite enqueue_unbounded by done. rewrite IH by done. cbn. by rewrite <- app_assoc.
Qed.

Lemma dequeue_app {T} (q : SafeQueue T) :
  let '(out, q') := dequeue_wait_for q in
  q_ q = match out with Some t => t :: q_ q' | None => q_ q' end /\ max_size_ q' = max_size_ q.
Proof. unfold dequeue_wait_for. destruct (b_terminate q); [done |]. by destruct (q_ q) eqn:E; cbn. Qed.

Section Conservation.
Context {D : Type} `{DeviceLaws D}.

Definition out_metas (outs : list Output) := map out_meta_data outs.
Definition in_metas (ins : list Input) := map in_meta_data ins.

(** A linked handler with unbounded queues. *)
Record linked (h : EngineHandlerBase D) (rq : SafeQueue Input) (rs : SafeQueue Output) : Prop := {
  lk_request : request_q_ h = Some rq;
  lk_respond : respond_q_ h = Some rs;
  lk_rq : max_size_ rq <= 0;
  lk_rs : max_size_ rs <= 0;
  lk_images : Forall accepts (q_ rq);
  lk_device : dev_ok (current_batch_inputs_ h) (device h)
}.

(** What the handler owes: responses to collect, the batch, the queue. *)
Definition owed (h : EngineHandlerBase D) (rq : SafeQueue Input) (rs : SafeQueue Output) :=
  out_metas (q_ rs) ++ in_metas (current_batch_inputs_ h) ++ in_metas (q_ rq).

Lemma respond_all_linked (h : EngineHandlerBase D) rq rs outs :
  respond_q_ h = Some rs -> request_q_ h = Some rq -> max_size_ rs <= 0 ->
  exists h', respond_all h outs = Some h' /\ request_q_ h' = Some rq /\
    respond_q_ h' = Some (mkQueue (q_ rs ++ outs) (b_terminate rs) (max_size_ rs) (drop_count_ rs)) /\
    current_batch_inputs_ h' = current_batch_inputs_ h /\ device h' = device h.
Proof.
  intros Hrs Hrq Hm. unfold respond_all. destruct outs as [| o outs].
  - exists h. rewrite app_nil_r. by destruct rs.
  - rewrite Hrs. eexists. split; [done |]. cbn. split; [done |]. split; [| done].
    f_equal. rewrite <- (enqueue_all_unbounded rs (o :: outs)) by done. done.
Qed.

(** Responses whose metadata are those of the batch, then the batch is cleared. *)
Lemma answer_batch_linked h rq rs outs :
  linked h rq rs -> out_metas outs = in_metas (current_batch_inputs_ h) ->
  exists h' rs', match respond_all h outs with None => None | Some h => Some (set_batch h [] (device h)) end = Some h' /\
    linked h' rq rs' /\ owed h' rq rs' = owed h rq rs.
Proof.
  intros [H1 H2 H3 H4 H5 H6] Ho. destruct (respond_all_linked h rq rs outs H2 H1 H4) as (h' & -> & Hq & Hr & Hb & Hd).
  eexists _, _. split; [done |]. split.
  - split; cbn; [done | exact Hr | done | done | done |]. rewrite Hd. by eapply clear_keeps.
  - unfold owed. cbn. unfold out_metas in *. rewrite map_app, Ho. by rewrite <- !app_assoc.
Qed.

Lemma fail_batch_linked h rq rs : linked h rq rs ->
  exists h' rs', fail_batch h = Some h' /\ linked h' rq rs' /\ owed h' rq rs' = owed h rq rs.
Proof.
  intros Hl. apply answer_batch_linked; [done |]. unfold out_metas, in_metas. rewrite map_map. by apply map_ext.
Qed.

(** [None]: the behaviour of [Postprocess] is undefined. *)
Lemma run_batch_linked h rq rs : linked h rq rs ->
  match run_batch h with
  | None => True
  | Some h' => exists rs', linked h' rq rs' /\
      owed h' rq rs' ++ in_metas (match DoInference (current_batch_inputs_ h) (device h) with
                                  | (Value true, d) => match Postprocess (current_batch_inputs_ h) d with (Value [], _) => current_batch_inputs_ h | _ => [] end
                                  | _ => [] end) ≡ₚ owed h rq rs
  end.
Proof.
  intros Hl. unfold run_batch. destruct (DoInference _ _) as [infer d] eqn:Ei.
  destruct Hl as [H1 H2 H3 H4 H5 H6]. destruct (inference_keeps _ _ _ _ H6 Ei) as (Hu & Hd & Hinf).
  assert (linked (set_device h d) rq rs) as Hl1 by by split.
  assert (forall d, linked (set_device h d) rq rs -> match fail_batch (set_device h d) with None => True | Some h' => exists rs', linked h' rq rs' /\ owed h' rq rs' ++ in_metas [] ≡ₚ owed h rq rs end) as Hfail.
  { intros d0 Hl0. destruct (fail_batch_linked _ _ _ Hl0) as (h' & rs' & -> & Hl' & Ho). exists rs'. split; [done |]. by rewrite app_nil_r, Ho. }
  destruct infer as [[] | |]; [| by apply Hfail.. | done]. cbn [device set_device current_batch_inputs_].
  destruct (Postprocess _ _) as [post d2] eqn:Ep. destruct (postprocess_keeps _ _ _ _ (Hinf eq_refl) Ep) as [-> | (Hd2 & Houts)]; [done |].
  assert (linked (set_device h d2) rq rs) as Hl2 by by split.
  destruct post as [outs | |]; [| by apply Hfail | done]. destruct (Houts outs eq_refl) as [Ho | ->].
  - destruct (answer_batch_linked _ _ _ outs Hl2 Ho) as (h' & rs' & Heq & Hl' & Howed). change (set_device (set_device h d) d2) with (set_device h d2).
    destruct (respond_all _ outs) as [h1 |]; [| done]. injection Heq as <-. exists rs'. split; [done |]. destruct outs as [| o outs]; cbn [in_metas map]; [| by rewrite app_nil_r, Howed].
    cbn in Ho. destruct (current_batch_inputs_ h); [| done]. cbn. by rewrite app_nil_r, Howed.
  - cbn [respond_all]. exists rs. split; [split; cbn; try done; by eapply clear_keeps |]. unfold owed. cbn. rewrite <- !app_assoc. apply Permutation_app_head. apply Permutation_app_comm.
Qed.

Lemma linked_pop (h : EngineHandlerBase D) rq rs i rest q' :
  linked h rq rs -> q_ rq = i :: rest -> q_ q' = rest -> max_size_ q' = max_size_ rq ->
  accepts i /\
  linked (set_links h (engine_linker_ h) (Some q') (respond_q_ h)) q' rs.
Proof.
  intros [H1 H2 H3 H4 H5 H6] Hq Hrest Hm. rewrite Hq in H5. inversion_clear H5. split; [done |].
  split; cbn; try done; [lia | by rewrite Hrest].
Qed.

Lemma iteration_linked h rq rs : linked h rq rs ->
  match InferenceThread_iteration h with
  | None => True
  | Some h' => exists rq' rs', linked h' rq' rs' /\ owed h' rq' rs' ++ in_metas (turn_loses h) ≡ₚ owed h rq rs
  end.
Proof.
  intros Hl. unfold InferenceThread_iteration, turn_loses. rewrite (lk_request _ _ _ Hl).
  pose proof (dequeue_app rq) as Hdq. destruct (dequeue_wait_for rq) as [[i |] q'] eqn:Edq; destruct Hdq as [Hq Hm]; cbn [fst].
  - destruct (linked_pop _ _ _ _ _ _ Hl Hq eq_refl Hm) as [Hi Hl1].
    cbn [current_batch_inputs_ set_links device]. destruct (Preprocess _ i _) as [[r batch] d] eqn:Ep.
    destruct (preprocess_keeps _ _ _ _ _ _ (lk_device _ _ _ Hl1) Hi Ep) as (Hu & Hok & Hb).
    set (h1 := set_batch _ batch d). destruct Hl1 as [G1 G2 G3 G4 G5 G6].
    assert (linked h1 q' rs) as Hl1 by by split.
    assert (owed h rq rs = out_metas (q_ rs) ++ (in_metas (current_batch_inputs_ h) ++ [in_meta_data i]) ++ in_metas (q_ q')) as Ho.
    { unfold owed. rewrite Hq. cbn. by rewrite <- !app_assoc. }
    assert (forall r', r = Value r' -> owed h1 q' rs = owed h rq rs) as Hval.
    { intros r' ->. rewrite Ho. destruct Hb as [Hb | [[=] _]]. unfold owed, in_metas at 1. cbn. by rewrite Hb. }
    destruct r as [[] | |].
    + pose proof (run_batch_linked _ _ _ Hl1) as Hr. destruct (run_batch h1) as [h' |]; [| done]. destruct Hr as (rs' & Hl' & Ho'). exists q', rs'.
      split; [done |]. rewrite <- (Hval true) by done. exact Ho'.
    + exists q', rs. split; [done |]. rewrite app_nil_r. by rewrite (Hval false).
    + cbn [in_metas map]. destruct Hb as [Hb | [_ Hb]].
      * rewrite (proj2 (Nat.eqb_neq _ _)).
        -- exists q', rs. split; [done |]. rewrite app_nil_r, Ho. unfold owed, in_metas at 1. cbn. by rewrite Hb.
        -- apply (f_equal length) in Hb. cbn [set_links current_batch_inputs_] in Hb.
           rewrite length_app, !length_map in Hb. cbn in Hb. lia.
      * rewrite (proj2 (Nat.eqb_eq _ _)) by by rewrite Hb.
        destruct (respond_all_linked h1 q' rs [BuildInferenceFailureRespond h1 i] (lk_respond _ _ _ Hl1) (lk_request _ _ _ Hl1) G4)
          as (h' & Hr & Hq' & Hr' & Hb' & Hd'). rewrite Hr. eexists q', _. split.
        -- split; [done | exact Hr' | done | done | done |]. rewrite Hb', Hd'. done.
        -- rewrite app_nil_r, Ho. unfold owed, out_metas. cbn [q_]. rewrite Hb'. cbn [current_batch_inputs_ set_batch h1]. rewrite Hb, map_app.
           cbn. rewrite <- !app_assoc. apply Permutation_app_head, Permutation_app_swap_app.
    + done.
  - set (h1 := set_links h _ _ _). exists q', rs. destruct Hl as [H1 H2 H3 H4 H5 H6].
    split; [split; cbn; try done; [lia | by rewrite <- Hq] |]. unfold owed. cbn [in_metas map]. rewrite app_nil_r. by rewrite Hq.
Qed.

(** The metadata of the requests an event brings. *)
Definition arriving (e : HandlerEvent) : list Input := match e with Arrive i => [i] | _ => [] end.

Lemma event_linked h rq rs e :
  linked h rq rs -> Forall accepts (arriving e) ->
  match handler_event h e with
  | None => e = Work
  | Some (outs, h') => exists rq' rs', linked h' rq' rs' /\
      out_metas outs ++ owed h' rq' rs' ++ in_metas (match e with Work => turn_loses h | _ => [] end) ≡ₚ owed h rq rs ++ in_metas (arriving e)
  end.
Proof.
  intros Hl Hi. destruct e as [i | |]; cbn [handler_event arriving in_metas map].
  - destruct Hl as [H1 H2 H3 H4 H5 H6]. rewrite H1. eexists _, rs. split.
    + split; cbn; [done | done | by rewrite enqueue_unbounded | done | | done].
      rewrite enqueue_unbounded by done. by apply Forall_app.
    + unfold owed. cbn. rewrite enqueue_unbounded by done. unfold in_metas. cbn. by rewrite map_app, app_nil_r, <- !app_assoc.
  - pose proof (iteration_linked _ _ _ Hl) as Ht. destruct (InferenceThread_iteration h) as [h' |]; cbn [fmap option_fmap option_map]; [| done].
    destruct Ht as (rq' & rs' & Hl' & Ho). exists rq', rs'. split; [done |]. by rewrite app_nil_r.
  - destruct Hl as [H1 H2 H3 H4 H5 H6]. rewrite H2. pose proof (dequeue_app rs) as Hd.
    destruct (dequeue_wait_for rs) as [out rs']. destruct Hd as [Hq Hm]. exists rq, rs'.
    split; [split; cbn; try done; lia |]. rewrite !app_nil_r. unfold owed. rewrite Hq. by destruct out.
Qed.

(** The requests so far are accounted for: by the responses collected or waiting, the open batch, the
    waiting requests, and what was lost. *)
Definition accounted (es : list HandlerEvent) (h : EngineHandlerBase D) (start : list EngineStreamMetaData) (outs : list Output) (h' : EngineHandlerBase D) : Prop :=
  exists rq' rs', linked h' rq' rs' /\
    out_metas outs ++ out_metas (q_ rs') ++ in_metas (current_batch_inputs_ h') ++ in_metas (q_ rq') ++ in_metas (run_loses es h) ≡ₚ start ++ in_metas (arrivals es).

Lemma arrivals_cons e es : arrivals (e :: es) = arriving e ++ arrivals es.
Proof. by destruct e. Qed.

Lemma accounted_cons e es h h1 h' rq rs rq1 rs1 outs outs' :
  handler_event h e = Some (outs, h1) -> out_metas outs ++ owed h1 rq1 rs1 ++ in_metas (match e with Work => turn_loses h | _ => [] end) ≡ₚ owed h rq rs ++ in_metas (arriving e) ->
  accounted es h1 (owed h1 rq1 rs1) outs' h' -> accounted (e :: es) h (owed h rq rs) (outs ++ outs') h'.
Proof.
  intros He Ho (rq' & rs' & Hl & Ha). exists rq', rs'. split; [done |]. cbn [run_loses]. rewrite He, arrivals_cons. unfold out_metas, in_metas in *.
  rewrite !map_app, (app_assoc (owed h rq rs)), <- Ho, <- !app_assoc. apply Permutation_app_head. set (lost := map in_meta_data (match e with Work => _ | _ => _ end)) in *.
  rewrite (Permutation_app_comm lost), !(app_assoc _ _ lost). rewrite (app_assoc (owed h1 rq1 rs1)). rewrite (Permutation_app_comm (owed h1 rq1 rs1 ++ lost)), !app_assoc.
  apply Permutation_app_tail. rewrite <- (app_assoc _ (owed h1 rq1 rs1)) || idtac. rewrite (Permutation_app_comm _ (owed h1 rq1 rs1)), <- Ha, <- !app_assoc. done.
Qed.

Lemma accounted_nil (h : EngineHandlerBase D) rq rs : linked h rq rs -> accounted [] h (owed h rq rs) [] h.
Proof. intros Hl. exists rq, rs. split; [done |]. by cbn; rewrite !app_nil_r. Qed.

(** A run accounts for every request, up to a turn whose behaviour is undefined. *)
Lemma run_linked es (h : EngineHandlerBase D) rq rs :
  linked h rq rs -> Forall accepts (arrivals es) ->
  match handler_run es h with
  | Some (outs, h') => accounted es h (owed h rq rs) outs h'
  | None => exists es1 es2 outs h1, es = es1 ++ Work :: es2 /\ handler_run es1 h = Some (outs, h1) /\
      accounted es1 h (owed h rq rs) outs h1 /\ InferenceThread_iteration h1 = None
  end.
Proof.
  revert h rq rs. induction es as [| e es IH]; intros h rq rs Hl Hi; [by apply accounted_nil |].
  rewrite arrivals_cons in Hi. apply Forall_app in Hi as [He Hi]. pose proof (event_linked _ _ _ e Hl He) as Hev. cbn [handler_run].
  destruct (handler_event h e) as [[outs h1] |] eqn:E.
  - destruct Hev as (rq1 & rs1 & Hl1 & Ho). specialize (IH h1 rq1 rs1 Hl1 Hi).
    destruct (handler_run es h1) as [[outs' h'] |]; [by eapply accounted_cons |].
    destruct IH as (es1 & es2 & outs' & h' & -> & Hr & Ha & Hn). exists (e :: es1), es2, (outs ++ outs'), h'.
    split; [done |]. cbn [handler_run]. rewrite E, Hr. split; [done |]. split; [by eapply accounted_cons | done].
  - subst e. exists [], es, [], h. split; [done |]. split; [done |]. split; [by apply accounted_nil |].
    cbn [handler_event] in E. by destruct (InferenceThread_iteration h).
Qed.

(** The closer answers the waiting requests and leaves the batch alone. *)
Lemma closer_linked h rq rs :
  linked h rq rs ->
  exists h' rq' rs', InferenceThreadCloser h = Some h' /\ linked h' rq' rs' /\ q_ rq' = [] /\ b_terminate rq' = true /\
    current_batch_inputs_ h' = current_batch_inputs_ h /\
    out_metas (q_ rs') = out_metas (q_ rs) ++ in_metas (q_ rq).
Proof.
  intros [H1 H2 H3 H4 H5 H6]. unfold InferenceThreadCloser. rewrite H1. cbn. rewrite H2.
  set (h1 := set_links h _ _ _). assert (respond_q_ h1 = Some rs) as Hr1 by done.
  destruct (respond_all_linked h1 _ rs (map (BuildInferenceFailureRespond h1) (q_ rq)) Hr1 eq_refl H4)
    as (h' & -> & Hq & Hr & Hb & Hd). eexists h', _, _. split; [done |]. split.
  - split; [exact Hq | exact Hr | done | done | done | by rewrite Hb, Hd].
  - split; [done |]. split; [done |]. split; [exact Hb |]. unfold out_metas, in_metas. cbn [q_].
    rewrite map_app. f_equal. rewrite map_map. by apply map_ext.
Qed.

End Conservation.

(** ** The handler's contract *)

(** C13: each request that reaches a running handler is answered once, whatever the
    device throws or refuses, except for what the device's contract ([DeviceLaws]: a
    request is added to the batch, or refused with an exception and the batch unchanged)
    gives up.  For every
    interleaving of arriving requests, turns of the inference loop and collected
    responses, the responses collected so far, those still in the queue, the open
    batch, the waiting requests and the batches lost are together exactly what was owed
    at the start and the requests that arrived, by their metadata.  A batch is lost in
    one case only ([run_loses]): inference succeeded and [Postprocess] returned the
    empty vector, which its documentation allows; its requests are then never
    answered.  A sequence that does not complete was accounted for in the same way up
    to a turn of the loop in which a call of the device has undefined behaviour. *)
Theorem every_request_answered {D} `{DeviceLaws D} es (h : EngineHandlerBase D) rq rs :
  linked h rq rs -> Forall accepts (arrivals es) ->
  match handler_run es h with
  | Some (outs, h') => exists rq' rs', linked h' rq' rs' /\
      out_metas outs ++ out_metas (q_ rs') ++ in_metas (current_batch_inputs_ h') ++ in_metas (q_ rq') ++ in_metas (run_loses es h) ≡ₚ
      owed h rq rs ++ in_metas (arrivals es)
  | None => exists es1 es2 outs h1, es = es1 ++ Work :: es2 /\ handler_run es1 h = Some (outs, h1) /\
      accounted es1 h (owed h rq rs) outs h1 /\ InferenceThread_iteration h1 = None
  end.
Proof. intros Hl Hi. exact (run_linked es h rq rs Hl Hi). Qed.

Lemma iteration_after_close {D} `{Device D} (h : EngineHandlerBase D) rq :
  request_q_ h = Some rq -> b_terminate rq = true ->
  exists h', InferenceThread_iteration h = Some h' /\ request_q_ h' = Some rq /\
    respond_q_ h' = respond_q_ h /\ current_batch_inputs_ h' = current_batch_inputs_ h.
Proof.
  intros Hq Ht. unfold InferenceThread_iteration, dequeue_wait_for. rewrite Hq, Ht.
  eexists. split; [done |]. done.
Qed.

Fixpoint iterations {D} `{Device D} (n : nat) (h : EngineHandlerBase D) : option (EngineHandlerBase D) :=
  match n with
  | O => Some h
  | S n => match InferenceThread_iteration h with Some h => iterations n h | None => None end
  end.

Lemma iterations_after_close {D} `{Device D} n (h : EngineHandlerBase D) rq :
  request_q_ h = Some rq -> b_terminate rq = true ->
  exists h', iterations n h = Some h' /\ respond_q_ h' = respond_q_ h /\
    current_batch_inputs_ h' = current_batch_inputs_ h.
Proof.
  revert h. induction n as [| n IH]; intros h Hq Ht; cbn; [by exists h |].
  destruct (iteration_after_close h rq Hq Ht) as (h1 & -> & Hq1 & Hr1 & Hb1).
  destruct (IH h1 Hq1 Ht) as (h' & -> & Hr' & Hb'). exists h'. rewrite Hr', Hb'. done.
Qed.

(** Stopping a handler answers every waiting request, with a failure
    response each, in order, after the responses already there; but the requests
    of a batch that is not full get no response: no later turn of the loop
    touches the batch or the response queue again. *)
Theorem stop_answers_waiting_requests {D} `{DeviceLaws D} n (h : EngineHandlerBase D) rq rs :
  linked h rq rs ->
  exists h' rs' h'', InferenceThreadCloser h = Some h' /\ iterations n h' = Some h'' /\
    respond_q_ h'' = Some rs' /\ out_metas (q_ rs') = out_metas (q_ rs) ++ in_metas (q_ rq) /\
    current_batch_inputs_ h'' = current_batch_inputs_ h.
Proof.
  intros Hl. destruct (closer_linked h rq rs Hl) as (h' & rq' & rs' & Hc & Hl' & Hq & Ht & Hb & Ho).
  destruct (iterations_after_close n h' rq' (lk_request _ _ _ Hl') Ht) as (h'' & Hi & Hr & Hb').
  exists h', rs', h''. split_and!; try done; [by rewrite Hr, (lk_respond _ _ _ Hl') | by rewrite Hb'].
Qed.

(** Activation succeeds exactly when the handler is active already, or has
    a linker that gives a response queue and a model that loads and fits; it then
    runs with both queues set.  A handler whose model fails to load after the
    link stays inactive with its queues: the balancer goes on sending it
    requests that no thread reads. *)
Theorem activation_outcome {D} `{Device D} (h : EngineHandlerBase D) :
  flag_exact (inference_thread_ h) -> is_running_ (inference_thread_ h) = is_activate_handler_ h ->
  exists ok h', ActivateEngine h = Some (ok, h') /\ is_activate_handler_ h' = ok /\
    is_running_ (inference_thread_ h') = ok /\ flag_exact (inference_thread_ h') /\
    (ok = true <-> is_activate_handler_ h = true \/
       exists linker rs, engine_linker_ h = Some linker /\
         linker (GetEngineHandleUUID h) SafeQueue_make = Some (Some rs) /\
         fst (LoadModelEngineFile (device h)) = true /\
         fst (AllocateBuffers (snd (LoadModelEngineFile (device h)))) = true) /\
    (forall linker rs, is_activate_handler_ h = false -> engine_linker_ h = Some linker ->
       linker (GetEngineHandleUUID h) SafeQueue_make = Some (Some rs) ->
       request_q_ h' = Some SafeQueue_make /\ respond_q_ h' = Some rs).
Proof.
  unfold flag_exact. intros Hf Hr. unfold ActivateEngine. destruct (is_activate_handler_ h) eqn:Ea.
  { exists true, h. split_and!; try done. split; [by left | done]. }
  unfold Link. destruct (engine_linker_ h) as [linker |] eqn:El.
  2: { exists false, h. split_and!; try done. split; [done | by intros [| (? & ? & ? & _)]]. }
  destruct (linker _ _) as [[rs |] |] eqn:Ell; cbn [negb].
  2,3: exists false; eexists; split; [done |]; split_and!; try done;
       [split; [done | intros [| (l & q & [= <-] & Hq & _)]; congruence] | intros; congruence].
  unfold InitializeDeviceAndModel. cbn [device set_links].
  destruct (LoadModelEngineFile (device h)) as [[] d] eqn:Ed.
  2: { exists false; eexists; split; [done |]; split_and!; try done;
       [split; [done | by intros [| (l & q & _ & _ & Hq & _)]] | by intros ? ? _ [= <-]; rewrite Ell; intros [= <-]]. }
  destruct (AllocateBuffers d) as [[] d2] eqn:Ed2.
  2: { exists false; eexists; split; [done |]; split_and!; try done;
       [split; [done | by intros [| (l & q & _ & _ & _ & Hq)]; [| cbn in Hq; rewrite Ed2 in Hq]] |
        by intros ? ? _ [= <-]; rewrite Ell; intros [= <-]]. }
  cbn [negb inference_thread_ set_device set_links]. unfold Start. cbn [is_running_ joinable SetThreadFunctions].
  rewrite Hf, Hr. eexists true, _. split; [done |]. split_and!; try done.
  - split; [| done]. intros _. right. exists linker, rs. cbn. rewrite Ed2. done.
  - intros ? ? _ [= <-]. rewrite Ell. by intros [= <-].
Qed.

(** ** A device that detects nothing

    Its state is the batch size; an input with no image makes it throw. *)

#[local] Instance echo_device : Device nat := {
  InitializeDevice d := (true, d);
  LoadModelEngineFile d := ((0 <? d)%nat, d);
  AllocateBuffers d := (true, d);
  ReleaseDeviceResources d := d;
  Preprocess batch i d :=
    if image_missing i then (Throw, batch, d)
    else (Value (d <=? S (length batch))%nat, batch ++ [i], d);
  DoInference batch d := (Value true, d);
  Postprocess batch d := (Value (map (fun i => mkOutput (in_meta_data i) (1, 0) []) batch), d)
}.

#[local] Instance echo_laws : DeviceLaws nat.
Proof.
  refine {| dev_ok := fun _ _ => True; dev_inferred := fun _ _ => True; accepts := fun i => image_missing i = false |}.
  - intros batch i d r batch' d' _ Hi. cbn. rewrite Hi. intros [= <- <- <-]. split; [done |]. split; [done |]. left. by rewrite map_app.
  - intros batch d r d' _. cbn. intros [= <- <-]. done.
  - intros batch d r d' _. cbn. intros [= <- <-]. right. split; [done |]. intros outs [= <-]. left. rewrite map_map. by apply map_ext.
  - done.
Defined.

Definition demo_input (u n : Z) : Input :=
  mkInput (mkMeta u 0 640 640 n) InferRequestRequirements_default (Some [0]).

Definition demo_handler : EngineHandlerBase nat :=
  SetEngineLinker (EngineHandlerBase_make (demo_profile 1 10 "a"%string) 0 2%nat) (fun _ _ => Some (Some SafeQueue_make)).

Definition demo_active : EngineHandlerBase nat :=
  match ActivateEngine demo_handler with Some (_, h) => h | None => demo_handler end.

Definition demo_arrivals : list HandlerEvent :=
  [Arrive (demo_input 1 1); Arrive (demo_input 2 1); Arrive (demo_input 1 2); Work; Work; Work; Collect].

Lemma demo_active_linked : linked demo_active SafeQueue_make SafeQueue_make.
Proof. split; try done. Qed.

Lemma every_request_answered_witness :
  exists outs h', handler_run demo_arrivals demo_active = Some (outs, h') /\ map (fun o => correlation_id (out_meta_data o)) outs = [1] /\
    length (current_batch_inputs_ h') = 1%nat /\ run_loses demo_arrivals demo_active = [].
Proof.
  pose proof (every_request_answered demo_arrivals demo_active SafeQueue_make SafeQueue_make demo_active_linked
                ltac:(repeat constructor)) as Ha.
  destruct (handler_run demo_arrivals demo_active) as [[outs h'] |] eqn:E; [| vm_compute in E; discriminate E].
  exists outs, h'. split; [reflexivity |]. vm_compute in E. injection E as <- <-. split; [reflexivity |]. split; reflexivity.
Defined.

Definition demo_waiting : EngineHandlerBase nat :=
  set_links demo_active (engine_linker_ demo_active) (Some (enqueue SafeQueue_make (demo_input 1 1))) (Some SafeQueue_make).

Lemma stop_answers_waiting_requests_witness :
  exists h' rs' h'', InferenceThreadCloser demo_waiting = Some h' /\ iterations 3 h' = Some h'' /\
    respond_q_ h'' = Some rs' /\ map out_meta_data (q_ rs') = [in_meta_data (demo_input 1 1)].
Proof.
  destruct (stop_answers_waiting_requests 3 demo_waiting (enqueue SafeQueue_make (demo_input 1 1)) SafeQueue_make
              ltac:(split; [done | done | done | done | repeat constructor | done])) as (h' & rs' & h'' & H1 & H2 & H3 & H4 & _).
  exists h', rs', h''. split; [exact H1 |]. split; [exact H2 |]. split; [exact H3 | exact H4].
Defined.

Lemma activation_outcome_witness :
  exists ok h', ActivateEngine demo_handler = Some (ok, h') /\ ok = true /\
    request_q_ h' = Some SafeQueue_make.
Proof.
  destruct (activation_outcome demo_handler eq_refl eq_refl) as (ok & h' & H1 & _ & _ & _ & H2 & H3).
  exists ok, h'. split; [exact H1 |]. split.
  - apply H2. right. exists (fun _ _ => Some (Some SafeQueue_make)), SafeQueue_make. split_and!; reflexivity.
  - exact (proj1 (H3 (fun _ _ => Some (Some SafeQueue_make)) SafeQueue_make eq_refl eq_refl eq_refl)).
Defined.
