(* ===== verification/Yolo.v ===== *)
(** * The YOLOv5 detector on the NPU: decoding and suppression

    [Engine/NPU/YoloV5_Torch_Onnx_RKNN_NPU/YoloV5_Torch_Onnx_RKNN_NPU.cpp], the
    functions of the post-processing.  An output tensor is the list of its
    [int8_t] elements and the candidate boxes are the three parallel vectors of
    the code; reading an element that is not there is [None].  [std::sort] leaves
    the order of equal confidences open: it is the class [StdSort].

    Theorems on the detector's post-processing.  The suppression keeps a candidate exactly when no better kept candidate of
    its class overlaps it; the decoding stays within the tensors. *)

From Stdlib Require Import SpecFloat.
From stdpp Require Import base option list gmap sorting.
From S2P Require Import Prelude Float32 InferObject.
Open Scope Z_scope.
Open Scope list_scope.

Definition anchor_0 : list Z := [10; 13; 16; 30; 33; 23].
Definition anchor_1 : list Z := [30; 61; 62; 45; 59; 119].
Definition anchor_2 : list Z := [116; 90; 156; 198; 373; 326].
Definition BBOX_ELEMENT_COUNT : nat := 4.
Definition CONF_ELEMENT_COUNT : nat := 1.

(** ** Overlap *)

(** [fmaxf] and [fminf] ignore a NaN. *)
Definition fmaxf (a b : f32) : f32 := if is_nan a then b else if is_nan b then a else std_max a b.
Definition fminf (a b : f32) : f32 := if is_nan a then b else if is_nan b then a else std_min a b.

Definition CalculateOverlap (xmin0 ymin0 xmax0 ymax0 xmin1 ymin1 xmax1 ymax1 : f32) : f32 :=
  let w := fmaxf f0 (f32_add (f32_sub (fminf xmax0 xmax1) (fmaxf xmin0 xmin1)) f1) in
  let h := fmaxf f0 (f32_add (f32_sub (fminf ymax0 ymax1) (fmaxf ymin0 ymin1)) f1) in
  let i := f32_mul w h in
  let area x0 y0 x1 y1 := f32_mul (f32_add (f32_sub x1 x0) f1) (f32_add (f32_sub y1 y0) f1) in
  let u := f32_sub (f32_add (area xmin0 ymin0 xmax0 ymax0) (area xmin1 ymin1 xmax1 ymax1)) i in
  if fle u f0 then f0 else f32_div i u.

(** ** Quantisation *)

Definition clip_value (val min max : f32) : f32 :=
  if fle val min then min else if fle max val then max else val.

Definition qnt_f32_to_affine (v : f32) (zp : Z) (scale : f32) : Z :=
  f_trunc (clip_value (f32_add (f32_div v scale) (f32_of_Z zp)) (f32_of_Z (-128)) (f32_of_Z 127)).

Definition deqnt_affine_to_f32 (qnt zp : Z) (scale : f32) : f32 :=
  f32_mul (f32_sub (f32_of_Z qnt) (f32_of_Z zp)) scale.

(** ** Decoding of one output layer *)

Record Candidates := mkCandidates { boxes : list f32; objProbs : list f32; classId : list Z }.

Definition push_candidate (c : Candidates) (x y w h prob : f32) (cls : Z) : Candidates :=
  mkCandidates (boxes c ++ [x; y; w; h]) (objProbs c ++ [prob]) (classId c ++ [cls]).

(** A loop whose body may fail. *)
Fixpoint foldM {A B} (f : A -> B -> option A) (l : list B) (a : A) : option A :=
  match l with
  | [] => Some a
  | b :: l => match f a b with Some a => foldM f l a | None => None end
  end.

Section Layer.
Context (input : list Z) (anchor : list Z) (grid_h grid_w : nat) (stride : Z) (zp : Z) (scale : f32) (class_num : nat).

Definition grid_len : nat := grid_h * grid_w.
Definition base_offset : nat := class_num + BBOX_ELEMENT_COUNT + CONF_ELEMENT_COUNT.
Definition cell_offset (a i j : nat) : nat := (base_offset * a) * grid_len + i * grid_w + j.

(** The class of the largest score, the first one of equals. *)
Definition best_class (offset : nat) : option (Z * nat) :=
  match input !! (offset + 5 * grid_len)%nat with
  | None => None
  | Some maxClassProbs =>
      foldM (fun best k =>
               match input !! (offset + (5 + k) * grid_len)%nat with
               | None => None
               | Some prob => Some (if fst best <? prob then (prob, k) else best)
               end)
            (seq 1 (class_num - 1)) (maxClassProbs, 0%nat)
  end.

Definition box_at (offset a i j : nat) : option (f32 * f32 * f32 * f32) :=
  match input !! offset, input !! (offset + grid_len)%nat, input !! (offset + 2 * grid_len)%nat,
        input !! (offset + 3 * grid_len)%nat, anchor !! (a * 2)%nat, anchor !! (a * 2 + 1)%nat with
  | Some q0, Some q1, Some q2, Some q3, Some aw, Some ah =>
      let d q := deqnt_affine_to_f32 q zp scale in
      let box_x := f32_sub (f32_mul (d q0) f2) (f32_lit 1 2) in
      let box_y := f32_sub (f32_mul (d q1) f2) (f32_lit 1 2) in
      let box_w := f32_mul (d q2) f2 in
      let box_h := f32_mul (d q3) f2 in
      let box_x := f32_mul (f32_add box_x (f32_of_Z (Z.of_nat j))) (f32_of_Z stride) in
      let box_y := f32_mul (f32_add box_y (f32_of_Z (Z.of_nat i))) (f32_of_Z stride) in
      let box_w := f32_mul (f32_mul box_w box_w) (f32_of_Z aw) in
      let box_h := f32_mul (f32_mul box_h box_h) (f32_of_Z ah) in
      Some (f32_sub box_x (f32_div box_w f2), f32_sub box_y (f32_div box_h f2), box_w, box_h)
  | _, _, _, _, _, _ => None
  end.

(** The body of the three loops, on the candidates and [validCount]. *)
Definition decode_cell (thres_i8 : Z) (st : Candidates * Z) (cell : nat * nat * nat) : option (Candidates * Z) :=
  let '(a, i, j) := cell in
  let '(c, validCount) := st in
  match input !! ((base_offset * a + 4) * grid_len + i * grid_w + j)%nat with
  | None => None
  | Some box_confidence =>
      if thres_i8 <=? box_confidence then
        match box_at (cell_offset a i j) a i j, best_class (cell_offset a i j) with
        | Some (x, y, w, h), Some (maxClassProbs, maxClassId) =>
            if thres_i8 <? maxClassProbs then
              Some (push_candidate c x y w h
                      (f32_mul (deqnt_affine_to_f32 maxClassProbs zp scale) (deqnt_affine_to_f32 box_confidence zp scale))
                      (Z.of_nat maxClassId), validCount + 1)
            else Some (c, validCount)
        | _, _ => None
        end
      else Some (c, validCount)
  end.

Definition grid_cells : list (nat * nat * nat) :=
  flat_map (fun a => flat_map (fun i => map (fun j => (a, i, j)) (seq 0 grid_w)) (seq 0 grid_h)) (seq 0 3).

Definition rknn_process_impl (threshold : f32) (c : Candidates) : option (Candidates * Z) :=
  foldM (decode_cell (qnt_f32_to_affine threshold zp scale)) grid_cells (c, 0).

End Layer.

(** ** Sorting *)

(** [std::sort] with [a.first > b.first] permutes its range into descending
    order when the comparison is a strict weak order, that is without NaN. *)
Class StdSort := {
  std_sort : list (f32 * Z) -> list (f32 * Z);
  std_sort_perm : forall l, Forall (fun p => is_nan (fst p) = false) l -> std_sort l ≡ₚ l;
  std_sort_desc : forall l, Forall (fun p => is_nan (fst p) = false) l ->
    Sorted (fun p q => flt (fst p) (fst q) = false) (std_sort l)
}.

Section Suppression.
Context `{StdSort}.

(** The call with [left = 0] and [right = validCount - 1]. *)
Definition sort_by_confidence_desc (input : list f32) (indices : list Z) : list f32 * list Z :=
  let pairs := std_sort (zip input indices) in (map fst pairs, map snd pairs).

(** ** Non-maximum suppression *)

Definition fget (l : list f32) (k : Z) : f32 := default f0 (l !! Z.to_nat k).
Definition zget (l : list Z) (k : Z) : Z := default 0 (l !! Z.to_nat k).

Definition box_overlap (outputLocations : list f32) (n m : Z) : f32 :=
  let x k := fget outputLocations (k * 4 + 0) in
  let y k := fget outputLocations (k * 4 + 1) in
  let xmax k := f32_add (fget outputLocations (k * 4 + 0)) (fget outputLocations (k * 4 + 2)) in
  let ymax k := f32_add (fget outputLocations (k * 4 + 1)) (fget outputLocations (k * 4 + 3)) in
  CalculateOverlap (x n) (y n) (xmax n) (ymax n) (x m) (y m) (xmax m) (ymax m).

(** The body of the inner loop. *)
Definition nms_inner (outputLocations : list f32) (classIds : list Z) (filterId : Z) (threshold : f32) (n : Z)
    (order : list Z) (j : nat) : list Z :=
  let m := zget order (Z.of_nat j) in
  if (m =? -1) || negb (zget classIds m =? filterId) then order
  else if flt threshold (box_overlap outputLocations n m) then <[j := -1]> order else order.

(** The body of the outer loop. *)
Definition nms_outer (validCount : nat) (outputLocations : list f32) (classIds : list Z) (filterId : Z) (threshold : f32)
    (order : list Z) (i : nat) : list Z :=
  let n := zget order (Z.of_nat i) in
  if (n =? -1) || negb (zget classIds n =? filterId) then order
  else foldl (nms_inner outputLocations classIds filterId threshold n) order (seq (S i) (validCount - S i)).

Definition nms (validCount : nat) (outputLocations : list f32) (classIds : list Z) (order : list Z) (filterId : Z)
    (threshold : f32) : list Z :=
  foldl (nms_outer validCount outputLocations classIds filterId threshold) order (seq 0 validCount).

Record Detection := mkDetection { d_bbox : f32 * f32 * f32 * f32; d_conf : f32; d_class_id : f32 }.

(** The distinct classes, ascending ([std::set]). *)
Definition class_set (classId : list Z) : list Z := merge_sort Z.le (elements (list_to_set classId : gset Z)).

Definition detection_at (filterBoxes objProbs : list f32) (classId : list Z) (i : nat) (n : Z) : Detection :=
  mkDetection (fget filterBoxes (n * 4 + 0), fget filterBoxes (n * 4 + 1),
               fget filterBoxes (n * 4 + 2), fget filterBoxes (n * 4 + 3))
    (fget objProbs (Z.of_nat i)) (f32_of_Z (zget classId n)).

(** Sort, then suppress class by class: the confidences and the index array. *)
Definition suppressed_order (c : Candidates) (validCount : nat) (nms_threshold : f32) : list f32 * list Z :=
  let indexArray := map Z.of_nat (seq 0 validCount) in
  let '(probs, indexArray) := sort_by_confidence_desc (objProbs c) indexArray in
  (probs, foldl (fun order cls => nms validCount (boxes c) (classId c) order cls nms_threshold)
            indexArray (class_set (classId c))).

(** The survivors. *)
Definition select_detections (c : Candidates) (validCount : nat) (nms_threshold : f32) : list Detection :=
  let '(probs, indexArray) := suppressed_order c validCount nms_threshold in
  omap (fun i => let n := zget indexArray (Z.of_nat i) in
                 if n =? -1 then None else Some (detection_at (boxes c) probs (classId c) i n))
       (seq 0 validCount).

Definition PostProcessImplRKNN (confidence_threshold nms_threshold : f32) (class_num output_index_num : nat)
    (input_0 input_1 : list Z) (input_2 : option (list Z)) (model_in_h model_in_w : nat)
    (qnt_zps : list Z) (qnt_scales : list f32) : option (list Detection) :=
  let layer input anchor (stride : nat) k c :=
    match qnt_zps !! k, qnt_scales !! k with
    | Some zp, Some scale =>
        rknn_process_impl input anchor (model_in_h / stride) (model_in_w / stride) (Z.of_nat stride) zp scale class_num
          confidence_threshold c
    | _, _ => None
    end in
  match layer input_0 anchor_0 8%nat 0%nat (mkCandidates [] [] []) with
  | None => None
  | Some (c, validCount0) =>
      match layer input_1 anchor_1 16%nat 1%nat c with
      | None => None
      | Some (c, validCount1) =>
          let third := match input_2 with
                       | Some input_2 => if (output_index_num =? 3)%nat then layer input_2 anchor_2 32%nat 2%nat c else Some (c, 0)
                       | None => Some (c, 0)
                       end in
          match third with
          | None => None
          | Some (c, validCount2) =>
              let validCount := validCount0 + validCount1 + validCount2 in
              if validCount <=? 0 then Some [] else Some (select_detections c (Z.to_nat validCount) nms_threshold)
          end
      end
  end.

End Suppression.

(** ** One suppression pass *)

Section Pass.
Context (locs : list f32) (cls : list Z) (thr : f32).

(** The kept candidate [w] removes [v] in the pass of class [f]. *)
Definition beats (f w v : Z) : Prop :=
  w <> -1 /\ v <> -1 /\ zget cls w = f /\ zget cls v = f /\ flt thr (box_overlap locs w v) = true.

#[local] Instance beats_dec f w v : Decision (beats f w v).
Proof. unfold beats. apply _. Defined.

Lemma zget_lookup (o : list Z) p v : o !! p = Some v -> zget o (Z.of_nat p) = v.
Proof. intros H. unfold zget. by rewrite Nat2Z.id, H. Qed.

(** One step of the inner loop of a kept [n]. *)
Lemma inner_step f n o j v :
  n <> -1 -> zget cls n = f -> o !! j = Some v ->
  nms_inner locs cls f thr n o j = if decide (beats f n v) then <[j := -1]> o else o.
Proof.
  intros Hn Hf Hv. unfold nms_inner. rewrite (zget_lookup _ _ _ Hv). case_decide as Hb.
  - destruct Hb as (_ & H1 & _ & H2 & H3). rewrite (proj2 (Z.eqb_neq v (-1)) H1), (proj2 (Z.eqb_eq _ _) H2), H3. done.
  - case_if; [done |]. apply orb_false_iff in E as [E1 E2]. bool_to_prop.
    case_if; [| done]. exfalso. apply Hb. done.
Qed.

(** The inner loop of a kept [n] removes what [n] beats. *)
Lemma inner_loop f n js o :
  n <> -1 -> zget cls n = f -> NoDup js -> (forall j, j ∈ js -> (j < length o)%nat) ->
  length (foldl (nms_inner locs cls f thr n) o js) = length o /\
  forall p v, o !! p = Some v ->
    foldl (nms_inner locs cls f thr n) o js !! p = Some (if decide (p ∈ js /\ beats f n v) then -1 else v).
Proof.
  intros Hn Hf. revert o. induction js as [| j js IH]; intros o Hnd Hlen; cbn [foldl].
  - split; [done |]. intros p v Hp. rewrite decide_False; [done |]. intros [Hin _]. by apply elem_of_nil in Hin.
  - apply NoDup_cons in Hnd as [Hj Hnd].
    assert (exists v, o !! j = Some v) as [vj Hvj] by (apply lookup_lt_is_Some, Hlen; left).
    rewrite (inner_step f n o j vj) by done.
    set (o1 := if decide _ then _ else _). assert (length o1 = length o) as Hl1.
    { unfold o1. case_decide; [by rewrite length_insert | done]. }
    destruct (IH o1 Hnd) as [H1 H2]; [intros j' ?; rewrite Hl1; apply Hlen; by right |].
    split; [by rewrite H1 |]. intros p v Hp. destruct (decide (p = j)) as [-> | Hpj].
    + assert (v = vj) as -> by congruence.
      rewrite (H2 j (if decide (beats f n vj) then -1 else vj)).
      * rewrite decide_False by tauto. do 2 f_equal. case_decide as Hb; [rewrite decide_True | rewrite decide_False]; try done.
        -- split; [left | done].
        -- by intros [_ ?].
      * unfold o1. case_decide; [apply list_lookup_insert_eq; by eapply lookup_lt_Some | done].
    + rewrite (H2 p v).
      * do 2 f_equal. case_decide as Hb1; [rewrite decide_True | rewrite decide_False]; try done.
        -- split; [right; tauto | tauto].
        -- intros [[-> | ?]%elem_of_cons ?]; [done | tauto].
      * unfold o1. case_decide; [by rewrite list_lookup_insert_ne | done].
Qed.

(** What a pass has done after its first [k] rows. *)
Definition pass_upto (f : Z) (k : nat) (o0 o : list Z) : Prop :=
  length o = length o0 /\
  forall p v, o0 !! p = Some v ->
    (o !! p = Some v /\ forall q w, (q < p)%nat -> (q < k)%nat -> o !! q = Some w -> ~ beats f w v) \/
    (zget cls v = f /\ v <> -1 /\ o !! p = Some (-1) /\
     exists q w, (q < p)%nat /\ (q < k)%nat /\ o !! q = Some w /\ beats f w v).

Lemma pass_row f k o0 o :
  (k < length o0)%nat -> pass_upto f k o0 o -> pass_upto f (S k) o0 (nms_outer (length o0) locs cls f thr o k).
Proof.
  intros Hk [Hlen Hp]. assert (exists n, o !! k = Some n) as [n Hn] by (apply lookup_lt_is_Some; lia).
  unfold nms_outer. rewrite (zget_lookup _ _ _ Hn). case_if.
  - split; [done |]. intros p v Hv. destruct (Hp p v Hv) as [[H1 H2] | (H1 & H2 & H3 & q & w & Hq)].
    + left. split; [done |]. intros q w Hqp Hqk Hw. destruct (decide (q = k)) as [-> |]; [| apply (H2 q w); [done | lia | done]].
      assert (w = n) as -> by congruence. intros (B1 & B2 & B3 & _).
      apply orb_true_iff in E as [E | E]; bool_to_prop; congruence.
    + right. do 3 (split; [done |]). exists q, w. destruct Hq as (? & ? & ? & ?). split_and!; try done. lia.
  - apply orb_false_iff in E as [E1 E2]. bool_to_prop.
    destruct (inner_loop f n (seq (S k) (length o0 - S k)) o) as [L1 L2]; [done | done | apply NoDup_seq | |].
    { intros j Hj. apply elem_of_seq in Hj. lia. }
    set (o' := foldl _ _ _) in *. split; [by rewrite L1 |].
    assert (forall q, (q <= k)%nat -> o' !! q = o !! q) as Hsame.
    { intros q Hq. destruct (o !! q) as [w |] eqn:Ew.
      - rewrite (L2 q w Ew), decide_False; [done |]. intros [Hin _]. apply elem_of_seq in Hin. lia.
      - apply lookup_ge_None in Ew. lia. }
    intros p v Hv. pose proof (lookup_lt_Some _ _ _ Hv) as Hpl.
    destruct (Hp p v Hv) as [[H1 H2] | (H1 & H2 & H3 & q & w & Hq1 & Hq2 & Hq3 & Hq4)].
    + specialize (L2 p v H1). destruct (decide (p ∈ seq (S k) (length o0 - S k) /\ beats f n v)) as [[Hin Hb] | Hno].
      * apply elem_of_seq in Hin. right. pose proof Hb as (_ & ? & _ & ? & _). do 3 (split; [done |]).
        exists k, n. split_and!; try done; [lia | lia | by rewrite Hsame].
      * left. split; [done |]. intros q w Hqp Hqk Hw. destruct (decide (q = k)) as [-> |].
        -- rewrite Hsame, Hn in Hw by lia. injection Hw as <-. intros Hb. apply Hno. split; [| done]. apply elem_of_seq. lia.
        -- rewrite Hsame in Hw by lia. apply (H2 q w); [done | lia | done].
    + right. do 2 (split; [done |]). split.
      * rewrite (L2 p (-1) H3). do 2 f_equal. by case_decide.
      * exists q, w. split_and!; try done; [lia | by rewrite Hsame by lia].
Qed.

Lemma pass_spec f o0 : pass_upto f (length o0) o0 (nms (length o0) locs cls o0 f thr).
Proof.
  unfold nms. assert (forall k, (k <= length o0)%nat ->
    pass_upto f k o0 (foldl (nms_outer (length o0) locs cls f thr) o0 (seq 0 k))) as H; [| by apply H].
  induction k as [| k IH]; intros Hk.
  - cbn. split; [done |]. intros p v Hv. left. split; [done |]. intros. lia.
  - rewrite seq_S, foldl_snoc. apply pass_row; [lia | apply IH; lia].
Qed.

(** ** All passes *)

(** [o] after the passes of the classes [done]. *)
Definition passes (done : list Z) (o0 o : list Z) : Prop :=
  length o = length o0 /\
  forall p v, o0 !! p = Some v ->
    (o !! p = Some v /\ forall q w, (q < p)%nat -> o !! q = Some w -> zget cls v ∈ done -> ~ beats (zget cls v) w v) \/
    (zget cls v ∈ done /\ o !! p = Some (-1) /\ exists q w, (q < p)%nat /\ o !! q = Some w /\ beats (zget cls v) w v).

Lemma passes_step done f o0 o :
  f ∉ done -> passes done o0 o -> passes (f :: done) o0 (nms (length o0) locs cls o f thr).
Proof.
  intros Hf [Hlen Hp]. rewrite <- Hlen. destruct (pass_spec f o) as [L1 L2]. set (o' := nms _ _ _ _ _ _) in *.
  split; [by rewrite L1 |].
  assert (forall q w, o' !! q = Some w -> w <> -1 -> o !! q = Some w) as Hback.
  { intros q w Hw Hne. destruct (o !! q) as [u |] eqn:Eu.
    - destruct (L2 q u Eu) as [[H _] | (_ & _ & H & _)]; congruence.
    - apply lookup_ge_None in Eu. apply lookup_lt_Some in Hw. lia. }
  intros p v Hv. destruct (Hp p v Hv) as [[H1 H2] | (H1 & H2 & q & w & Hq1 & Hq2 & Hq3)].
  - destruct (L2 p v H1) as [[G1 G2] | (G1 & G2 & G3 & q & w & Hq1 & Hq2 & Hq3 & Hq4)].
    + left. split; [done |]. intros q w Hqp Hw Hin Hb. destruct (decide (zget cls v = f)) as [Hvf | Hvf].
      * apply (G2 q w); try done; [| by rewrite <- Hvf]. apply lookup_lt_Some in Hw. lia.
      * apply elem_of_cons in Hin as [| Hin]; [done |]. destruct Hb as (B1 & Hb).
        apply (H2 q w); try done. by apply Hback.
    + right. split; [rewrite G1; left |]. split; [done |]. exists q, w. rewrite G1. done.
  - right. split; [by right |]. assert (zget cls v <> f) as Hvf by (intros <-; done).
    split.
    + destruct (L2 p (-1) H2) as [[G1 _] | (_ & ? & _)]; done.
    + exists q, w. split_and!; try done. destruct (L2 q w Hq2) as [[G1 _] | (G1 & _)]; [done |].
      destruct Hq3 as (_ & _ & Hw & _). congruence.
Qed.

Lemma passes_all fs done o0 o :
  NoDup fs -> (forall f, f ∈ fs -> f ∉ done) -> passes done o0 o ->
  exists done', (forall f, f ∈ done' <-> f ∈ fs \/ f ∈ done) /\
    passes done' o0 (foldl (fun o f => nms (length o0) locs cls o f thr) o fs).
Proof.
  revert done o. induction fs as [| f fs IH]; intros don o Hnd Hdis Hp.
  - exists don. split; [| done]. intros f. split; [by right | intros [Hf |]; [by apply elem_of_nil in Hf | done]].
  - apply NoDup_cons in Hnd as [Hf Hnd]. destruct (IH (f :: don) (nms (length o0) locs cls o f thr) Hnd) as (d & H1 & H2).
    + intros g Hg. rewrite not_elem_of_cons. split; [by intros -> | apply Hdis; by right].
    + apply passes_step; [apply Hdis; left | done].
    + exists d. split; [| done]. intros g. rewrite H1, !elem_of_cons. tauto.
Qed.

End Pass.

(** ** Sorting *)

#[local] Instance fle_flip_trans : Transitive (fun p q : f32 * Z => fle (fst q) (fst p) = true).
Proof. intros p q r H1 H2. eapply fle_trans; [exact H2 | exact H1]. Qed.

Lemma sorted_desc (l : list (f32 * Z)) :
  Forall (fun p => is_nan (fst p) = false) l -> Sorted (fun p q => flt (fst p) (fst q) = false) l ->
  StronglySorted (fun p q => fle (fst q) (fst p) = true) l.
Proof.
  intros Hn Hs. apply Sorted_StronglySorted; [exact fle_flip_trans |].
  induction Hs as [| p l Hs IH Hd]; [constructor |]. inversion_clear Hn. constructor; [by apply IH |].
  destruct Hd as [| q l Hd]; constructor. apply flt_false_fle; [done | by inversion H0 | done].
Qed.

Lemma strongly_sorted_lookup {A} (R : A -> A -> Prop) l p q a b :
  StronglySorted R l -> (p < q)%nat -> l !! p = Some a -> l !! q = Some b -> R a b.
Proof.
  intros Hs. revert p q. induction Hs as [| x l Hs IH Hall]; intros p q Hpq Hp Hq; [done |].
  destruct q as [| q]; [lia |]. destruct p as [| p].
  - cbn in Hp, Hq. injection Hp as <-. rewrite Forall_forall in Hall. apply Hall. by eapply list_elem_of_lookup_2.
  - apply (IH p q); [lia | done | done].
Qed.

(** The order of equal confidences that a stable sort gives. *)
Definition conf_ge (p q : f32 * Z) : Prop := lex_le (fkey (fst q)) (fkey (fst p)).
#[local] Instance conf_ge_dec p q : Decision (conf_ge p q).
Proof. unfold conf_ge, lex_le. destruct (fkey (fst p)) as [[? ?] ?], (fkey (fst q)) as [[? ?] ?]. apply _. Defined.
#[local] Instance conf_ge_total : Total conf_ge.
Proof.
  intros p q. unfold conf_ge, lex_le. destruct (fkey (fst p)) as [[? ?] ?], (fkey (fst q)) as [[? ?] ?]. lia.
Qed.

#[local] Instance stable_sort : StdSort.
Proof.
  refine {| std_sort := merge_sort conf_ge |}.
  - intros l _. apply (merge_sort_Permutation conf_ge).
  - intros l Hn. pose proof (Sorted_merge_sort conf_ge l) as Hs.
    assert (Forall (fun p => is_nan (fst p) = false) (merge_sort conf_ge l)) as Hn' by (by rewrite (merge_sort_Permutation conf_ge)).
    induction Hs as [| p l' Hs IH Hd]; [constructor |]. inversion_clear Hn'. constructor; [by apply IH |].
    destruct Hd as [| q l' Hd]; constructor. inversion_clear H0.
    rewrite flt_nge by done. apply negb_false_iff, fle_key. done.
Defined.

(** ** The suppression keeps the best candidates *)

Lemma class_set_spec l : NoDup (class_set l) /\ forall f, f ∈ class_set l <-> f ∈ l.
Proof.
  unfold class_set. split; [rewrite (merge_sort_Permutation Z.le); apply NoDup_elements |].
  intros f. rewrite (merge_sort_Permutation Z.le), elem_of_elements. apply elem_of_list_to_set.
Qed.

Lemma lookup_map {A B} (f : A -> B) l i : map f l !! i = f <$> l !! i.
Proof. exact (list_lookup_fmap f l i). Qed.

Lemma sort_by_confidence_spec `{StdSort} probs n :
  length probs = n -> Forall (fun x => is_nan x = false) probs ->
  let '(sorted, idx) := sort_by_confidence_desc probs (map Z.of_nat (seq 0 n)) in
  idx ≡ₚ map Z.of_nat (seq 0 n) /\ length sorted = n /\
  (forall p v, idx !! p = Some v -> sorted !! p = probs !! Z.to_nat v) /\
  (forall p q a b, (p < q)%nat -> sorted !! p = Some a -> sorted !! q = Some b -> fle b a = true).
Proof.
  intros Hlen Hn. unfold sort_by_confidence_desc. set (l := zip probs (map Z.of_nat (seq 0 n))).
  assert (length (map Z.of_nat (seq 0 n)) = n) as Hlm by by rewrite length_map, length_seq.
  assert (Forall (fun p => is_nan (fst p) = false) l) as Hl.
  { apply Forall_forall. intros [x v] Hin. apply list_elem_of_lookup_1 in Hin as [k Hk].
    apply lookup_zip_with_Some in Hk as (y & z & [= -> ->] & Hy & _). rewrite Forall_forall in Hn.
    apply Hn. by eapply list_elem_of_lookup_2. }
  pose proof (std_sort_perm l Hl) as Hp. split_and!.
  - rewrite Hp. unfold l. change (map snd) with (fmap (M:=list) (@snd f32 Z)). rewrite snd_zip; [done | lia].
  - rewrite length_map, Hp. unfold l. rewrite length_zip_with. lia.
  - intros p v Hv. rewrite lookup_map in Hv. rewrite lookup_map.
    destruct (std_sort l !! p) as [[x v'] |] eqn:E; [| done]. cbn in *. injection Hv as ->.
    apply list_elem_of_lookup_2 in E. rewrite Hp in E. apply list_elem_of_lookup_1 in E as [k Hk].
    apply lookup_zip_with_Some in Hk as (y & z & [= -> ->] & Hy & Hz).
    rewrite lookup_map in Hz. destruct (seq 0 n !! k) as [k' |] eqn:Ek; [| done].
    apply lookup_seq in Ek as [-> _]. cbn in Hz. injection Hz as <-. by rewrite Nat2Z.id.
  - intros p q a b Hpq Ha Hb. rewrite lookup_map in Ha, Hb.
    destruct (std_sort l !! p) as [pa |] eqn:Ea; [| done]. destruct (std_sort l !! q) as [pb |] eqn:Eb; [| done].
    cbn in *. injection Ha as <-. injection Hb as <-.
    apply (strongly_sorted_lookup (fun p q => fle (fst q) (fst p) = true) (std_sort l) p q); try done.
    apply sorted_desc; [by rewrite Hp | by apply std_sort_desc].
Qed.

(** The suppression is greedy by confidence.  The index array ends as the
    candidates in descending order of confidence, in which a candidate survives
    exactly when no surviving candidate of its own class before it overlaps it
    by more than the threshold, and is replaced by -1 exactly when one does;
    each surviving position has the confidence of its own candidate. *)
Theorem suppression_greedy `{StdSort} c thr :
  length (objProbs c) = length (classId c) -> Forall (fun x => is_nan x = false) (objProbs c) ->
  let n := length (classId c) in
  let '(probs, order) := suppressed_order c n thr in
  exists idx, idx ≡ₚ map Z.of_nat (seq 0 n) /\ length order = n /\
    (forall p v, idx !! p = Some v -> probs !! p = objProbs c !! Z.to_nat v) /\
    (forall p q a b, (p < q)%nat -> probs !! p = Some a -> probs !! q = Some b -> fle b a = true) /\
    (forall p v, idx !! p = Some v ->
       let removed_by w := beats (boxes c) (classId c) thr (zget (classId c) v) w v in
       (order !! p = Some v /\ forall q w, (q < p)%nat -> order !! q = Some w -> ~ removed_by w) \/
       (order !! p = Some (-1) /\ exists q w, (q < p)%nat /\ order !! q = Some w /\ removed_by w)).
Proof.
  intros Hlen Hn n. unfold suppressed_order. pose proof (sort_by_confidence_spec (objProbs c) n Hlen Hn) as Hs.
  destruct (sort_by_confidence_desc _ _) as [probs idx]. destruct Hs as (Hp & Hl & Hconf & Hdesc).
  assert (length idx = n) as Hli by by rewrite Hp, length_map, length_seq.
  destruct (class_set_spec (classId c)) as [Hnd Hin].
  destruct (passes_all (boxes c) (classId c) thr (class_set (classId c)) [] idx idx Hnd) as (don & Hdon & Hlo & Hpass).
  - intros f _. apply not_elem_of_nil.
  - split; [done |]. intros p v Hv. left. split; [done |]. intros q w _ _ Hc. by apply elem_of_nil in Hc.
  - rewrite Hli in *. exists idx. split_and!; try done. intros p v Hv.
    assert (zget (classId c) v ∈ don) as Hc.
    { apply Hdon. left. apply Hin. apply list_elem_of_lookup_2 in Hv. rewrite Hp in Hv.
      apply list_elem_of_In, in_map_iff in Hv as (k & <- & Hk). apply in_seq in Hk.
      destruct (lookup_lt_is_Some_2 (classId c) k) as [x Hx]; [unfold n in Hk; lia |].
      rewrite (zget_lookup _ _ _ Hx). by eapply list_elem_of_lookup_2. }
    destruct (Hpass p v Hv) as [[H1 H2] | (_ & H2 & H3)]; [left | right]; split; try done.
    intros q w Hq Hw. exact (H2 q w Hq Hw Hc).
Qed.

(** Two overlapping candidates of class 0 and one of class 1 over them. *)
Definition demo_candidates : Candidates :=
  mkCandidates (map f32_of_Z [10; 10; 50; 50; 12; 12; 50; 50; 10; 10; 50; 50])
    [f32_lit 1 2; f32_lit 3 4; f32_lit 1 4] [0; 0; 1].

Lemma suppression_greedy_witness :
  exists idx, idx ≡ₚ [0; 1; 2] /\ snd (suppressed_order demo_candidates 3 (f32_lit 1 2)) = [1; -1; 2] /\
    length (snd (suppressed_order demo_candidates 3 (f32_lit 1 2))) = 3%nat.
Proof.
  pose proof (suppression_greedy demo_candidates (f32_lit 1 2) eq_refl ltac:(repeat constructor)) as H.
  cbv zeta in H. change (length (classId demo_candidates)) with 3%nat in H.
  destruct (suppressed_order demo_candidates 3 (f32_lit 1 2)) as [probs order] eqn:E.
  destruct H as (idx & H1 & H2 & _). exists idx. split; [exact H1 |]. split; [| exact H2].
  vm_compute in E. by injection E as _ <-.
Defined.

(** ** The decoding stays within the tensor *)

Lemma foldM_inv {A B} (P : A -> Prop) (f : A -> B -> option A) l a :
  P a -> (forall a b, P a -> b ∈ l -> exists a', f a b = Some a' /\ P a') ->
  exists a', foldM f l a = Some a' /\ P a'.
Proof.
  revert a. induction l as [| b l IH]; intros a Ha Hf; cbn; [by exists a |].
  destruct (Hf a b Ha) as (a' & -> & Ha'); [left |]. apply IH; [done |].
  intros a1 b1 H1 Hb1. apply Hf; [done | by right].
Qed.

(** Candidates added to [c0], one per count. *)
Record decoded (class_num : nat) (c0 : Candidates) (st : Candidates * Z) : Prop := {
  dc_boxes : (length (boxes (fst st)) - length (boxes c0) = 4 * (length (classId (fst st)) - length (classId c0)))%nat;
  dc_probs : (length (objProbs (fst st)) - length (objProbs c0) = length (classId (fst st)) - length (classId c0))%nat;
  dc_count : snd st = Z.of_nat (length (classId (fst st))) - Z.of_nat (length (classId c0));
  dc_grow : (length (boxes c0) <= length (boxes (fst st)))%nat /\ (length (objProbs c0) <= length (objProbs (fst st)))%nat /\
            (length (classId c0) <= length (classId (fst st)))%nat;
  dc_class : Forall (fun k => 0 <= k < Z.of_nat class_num) (classId c0) ->
             Forall (fun k => 0 <= k < Z.of_nat class_num) (classId (fst st))
}.

Section Decode.
Context (input anchor : list Z) (gh gw : nat) (stride : Z) (zp : Z) (scale : f32) (cn : nat).
Context (Hcn : (0 < cn)%nat) (Hin : length input = (3 * base_offset cn * grid_len gh gw)%nat) (Hanchor : length anchor = 6%nat).

(** Every element of a cell's column is there. *)
Lemma element_in_bounds a i j k :
  (a < 3)%nat -> (i < gh)%nat -> (j < gw)%nat -> (k < base_offset cn)%nat ->
  exists v, input !! (cell_offset gh gw cn a i j + k * grid_len gh gw)%nat = Some v.
Proof.
  intros Ha Hi Hj Hk. apply lookup_lt_is_Some. rewrite Hin. unfold cell_offset, grid_len.
  assert (i * gw + j < gh * gw)%nat by nia. set (g := (gh * gw)%nat) in *. set (b := base_offset cn) in *.
  assert (b * a * g + k * g + g <= 3 * b * g)%nat by nia. lia.
Qed.

Lemma best_class_bounds a i j :
  (a < 3)%nat -> (i < gh)%nat -> (j < gw)%nat ->
  exists p k, best_class input gh gw cn (cell_offset gh gw cn a i j) = Some (p, k) /\ (k < cn)%nat.
Proof.
  intros Ha Hi Hj. unfold best_class.
  destruct (element_in_bounds a i j 5) as [v ->]; [done.. | unfold base_offset, BBOX_ELEMENT_COUNT, CONF_ELEMENT_COUNT; lia |].
  destruct (foldM_inv (fun best : Z * nat => snd best < cn)%nat
    (fun best k => match input !! (cell_offset gh gw cn a i j + (5 + k) * grid_len gh gw)%nat with
                   | None => None
                   | Some prob => Some (if fst best <? prob then (prob, k) else best)
                   end) (seq 1 (cn - 1)) (v, 0%nat)) as ([p k] & He & Hk); [done | |].
  - intros [p k] k' Hk Hin'. apply elem_of_seq in Hin'.
    destruct (element_in_bounds a i j (5 + k')) as [w ->]; [done.. | unfold base_offset, BBOX_ELEMENT_COUNT, CONF_ELEMENT_COUNT; lia |].
    eexists. split; [done |]. case_if; cbn in *; lia.
  - by exists p, k.
Qed.

Lemma box_at_bounds a i j :
  (a < 3)%nat -> (i < gh)%nat -> (j < gw)%nat ->
  exists b, box_at input anchor gh gw stride zp scale (cell_offset gh gw cn a i j) a i j = Some b.
Proof.
  intros Ha Hi Hj. unfold box_at.
  pose proof (element_in_bounds a i j) as Hel. unfold base_offset, BBOX_ELEMENT_COUNT, CONF_ELEMENT_COUNT in Hel.
  destruct (Hel 0%nat) as [v0 H0]; [lia.. |]. rewrite Nat.mul_0_l, Nat.add_0_r in H0. rewrite H0.
  destruct (Hel 1%nat) as [v1 H1]; [lia.. |]. rewrite Nat.mul_1_l in H1. rewrite H1.
  destruct (Hel 2%nat) as [v2 ->]; [lia.. |]. destruct (Hel 3%nat) as [v3 ->]; [lia.. |].
  destruct (lookup_lt_is_Some_2 anchor (a * 2)) as [aw ->]; [lia |].
  destruct (lookup_lt_is_Some_2 anchor (a * 2 + 1)) as [ah ->]; [lia |].
  by eexists.
Qed.

Lemma decode_cell_ok thres c0 st a i j :
  (a < 3)%nat -> (i < gh)%nat -> (j < gw)%nat -> decoded cn c0 st ->
  exists st', decode_cell input anchor gh gw stride zp scale cn thres st (a, i, j) = Some st' /\ decoded cn c0 st'.
Proof.
  intros Ha Hi Hj Hd. destruct st as [c n]. unfold decode_cell.
  destruct (element_in_bounds a i j 4) as [v Hv]; [done.. | unfold base_offset, BBOX_ELEMENT_COUNT, CONF_ELEMENT_COUNT; lia |].
  replace ((base_offset cn * a + 4) * grid_len gh gw + i * gw + j)%nat with (cell_offset gh gw cn a i j + 4 * grid_len gh gw)%nat
    by (unfold cell_offset; lia). rewrite Hv.
  case_if; [| by eexists]. destruct (box_at_bounds a i j) as [[[[x y] w] h] ->]; [done.. |].
  destruct (best_class_bounds a i j) as (p & k & -> & Hk); [done.. |]. case_if; [| by eexists].
  eexists. split; [done |]. destruct Hd as [H1 H2 H3 H4 H5]. cbn [fst snd] in *.
  split; cbn [fst snd push_candidate boxes objProbs classId]; rewrite ?length_app; cbn [length]; try lia.
  intros Hc. apply Forall_app. split; [by apply H5 |]. constructor; [lia | constructor].
Qed.

Lemma grid_cells_spec a i j : (a, i, j) ∈ grid_cells gh gw -> (a < 3)%nat /\ (i < gh)%nat /\ (j < gw)%nat.
Proof.
  unfold grid_cells. rewrite list_elem_of_In, in_flat_map. intros (a' & Ha & Hx).
  apply in_flat_map in Hx as (i' & Hi & Hx). apply in_map_iff in Hx as (j' & [= -> -> ->] & Hj).
  apply in_seq in Ha, Hi, Hj. lia.
Qed.

Lemma layer_decoded thr c :
  exists st, rknn_process_impl input anchor gh gw stride zp scale cn thr c = Some st /\ decoded cn c st.
Proof.
  apply foldM_inv.
  - split; cbn; try lia. done.
  - intros st [[a i] j] Hd Hcell. apply grid_cells_spec in Hcell as (Ha & Hi & Hj). by apply decode_cell_ok.
Qed.

End Decode.

Lemma select_classes `{StdSort} cn c n thr :
  (0 < cn)%nat -> Forall (fun k => 0 <= k < Z.of_nat cn) (classId c) ->
  Forall (fun d => exists k, 0 <= k < Z.of_nat cn /\ d_class_id d = f32_of_Z k) (select_detections c n thr).
Proof.
  intros Hcn Hc. unfold select_detections. destruct (suppressed_order _ _ _) as [probs order].
  apply Forall_forall. intros d Hd. apply list_elem_of_omap in Hd as (i & _ & Hi).
  cbn in Hi. case_if; [done |]. injection Hi as <-. exists (zget (classId c) (zget order (Z.of_nat i))). split; [| done].
  unfold zget at 1 3. destruct (classId c !! _) as [k |] eqn:Ek; cbn; [| lia].
  rewrite Forall_forall in Hc. apply Hc. by eapply list_elem_of_lookup_2.
Qed.

(** The size of the tensor of an output layer. *)
Definition tensor_ok (input : list Z) (class_num h w stride : nat) : Prop :=
  length input = (3 * base_offset class_num * grid_len (h / stride) (w / stride))%nat.

Lemma postprocess_total `{StdSort} conf nms_thr class_num n_out in0 in1 in2 h w zps scales :
  (0 < class_num)%nat -> tensor_ok in0 class_num h w 8 -> tensor_ok in1 class_num h w 16 ->
  (n_out <= length zps)%nat -> (n_out <= length scales)%nat ->
  match in2 with
  | Some in2 => n_out = 3%nat /\ tensor_ok in2 class_num h w 32
  | None => n_out = 2%nat
  end ->
  exists dets, PostProcessImplRKNN conf nms_thr class_num n_out in0 in1 in2 h w zps scales = Some dets /\
    Forall (fun d => exists k, 0 <= k < Z.of_nat class_num /\ d_class_id d = f32_of_Z k) dets.
Proof.
  intros Hcn H0 H1 Hz Hs H2. assert (2 <= n_out)%nat as Hn by (destruct in2; lia).
  assert (forall k, (k < n_out)%nat -> exists zp sc, zps !! k = Some zp /\ scales !! k = Some sc) as Hq.
  { intros k Hk. destruct (lookup_lt_is_Some_2 zps k) as [zp ?]; [lia |].
    destruct (lookup_lt_is_Some_2 scales k) as [sc ?]; [lia |]. by exists zp, sc. }
  unfold PostProcessImplRKNN.
  destruct (Hq 0%nat) as (z0 & s0 & -> & ->); [lia |]. destruct (Hq 1%nat) as (z1 & s1 & -> & ->); [lia |].
  destruct (layer_decoded in0 anchor_0 (h / 8) (w / 8) (Z.of_nat 8) z0 s0 class_num Hcn H0 eq_refl conf (mkCandidates [] [] []))
    as ([c0 n0] & -> & D0).
  destruct (layer_decoded in1 anchor_1 (h / 16) (w / 16) (Z.of_nat 16) z1 s1 class_num Hcn H1 eq_refl conf c0) as ([c1 n1] & -> & D1).
  pose proof (dc_class _ _ _ D0 ltac:(constructor)) as C0. pose proof (dc_class _ _ _ D1 C0) as C1.
  assert (forall c n, Forall (fun k => 0 <= k < Z.of_nat class_num) (classId c) ->
    exists dets, (if n <=? 0 then Some [] else Some (select_detections c (Z.to_nat n) nms_thr)) = Some dets /\
      Forall (fun d => exists k, 0 <= k < Z.of_nat class_num /\ d_class_id d = f32_of_Z k) dets) as Hfinal.
  { intros c n Hc. case_if; [exists []; split; [done | constructor] |]. eexists. split; [done |]. by apply select_classes. }
  destruct in2 as [in2 |]; [destruct H2 as [-> H2] | subst n_out]; [| by apply Hfinal].
  cbn [Nat.eqb]. destruct (Hq 2%nat) as (z2 & s2 & -> & ->); [lia |].
  destruct (layer_decoded in2 anchor_2 (h / 32) (w / 32) (Z.of_nat 32) z2 s2 class_num Hcn H2 eq_refl conf c1) as ([c2 n2] & -> & D2).
  apply Hfinal. exact (dc_class _ _ _ D2 C1).
Qed.

(** C39: the post-processing never reads outside its tensors.  When each output
    layer has an element for every anchor, attribute and cell, and a zero point
    and a scale, the result exists, with two layers or three, and each detection
    has one of the model's classes. *)
Theorem postprocess_in_bounds `{StdSort} conf nms_thr class_num n_out in0 in1 in2 h w zps scales :
  (0 < class_num)%nat -> tensor_ok in0 class_num h w 8 -> tensor_ok in1 class_num h w 16 ->
  (n_out <= length zps)%nat -> (n_out <= length scales)%nat ->
  match in2 with
  | Some in2 => n_out = 3%nat /\ tensor_ok in2 class_num h w 32
  | None => n_out = 2%nat
  end ->
  exists dets, PostProcessImplRKNN conf nms_thr class_num n_out in0 in1 in2 h w zps scales = Some dets /\
    Forall (fun d => exists k, 0 <= k < Z.of_nat class_num /\ d_class_id d = f32_of_Z k) dets.
Proof. intros. by eapply postprocess_total. Qed.

(** A 32x32 model with one class; the objectness and the class of one cell of the
    stride-16 layer are high. *)
Definition demo_layer (cells hot : nat) : list Z :=
  map (fun k => if decide (k = 4 * cells + hot \/ k = 5 * cells + hot)%nat then 100 else -128) (seq 0 (18 * cells)).

Lemma postprocess_in_bounds_witness :
  exists dets, PostProcessImplRKNN (f32_lit 1 2) (f32_lit 1 2) 1 2 (demo_layer 16 1000) (demo_layer 4 1) None 32 32
                 [-128; -128] [f32_lit 1 256; f32_lit 1 256] = Some dets /\ length dets = 1%nat.
Proof.
  destruct (postprocess_in_bounds (f32_lit 1 2) (f32_lit 1 2) 1 2 (demo_layer 16 1000) (demo_layer 4 1) None 32 32
              [-128; -128] [f32_lit 1 256; f32_lit 1 256] ltac:(lia) eq_refl eq_refl ltac:(cbn; lia) ltac:(cbn; lia) eq_refl)
    as (dets & H & _).
  exists dets. split; [exact H |]. vm_compute in H. injection H as <-. reflexivity.
Defined.
