(* ===== verification/YoloDevice.v ===== *)
(** * The YOLOv5 detector as a device of the engine handler

    [Engine/NPU/YoloV5_Torch_Onnx_RKNN_NPU/YoloV5_Torch_Onnx_RKNN_NPU.h] and
    [.cpp], the virtual functions.  The RKNN runtime and the file system are the
    class [RknnApi].  An image is shared by pointer in the code; here the request
    kept in the batch has the bytes [Preprocess] leaves in it. *)

From Stdlib Require Import SpecFloat String.
From stdpp Require Import base option list.
From S2P Require Import Prelude Float32 InferObject EngineTypes SafeQueue LoadBalancer EngineHandler Yolo.
Open Scope Z_scope.
Open Scope list_scope.

Record rknn_tensor_attr := mkAttr { dims : list Z; fmt_nchw : bool; attr_zp : Z; attr_scale : f32 }.

(** What the code calls: negative results are errors; [rknn_execute] gives the
    output buffers for the input buffers, [None] for a null pointer. *)
Class RknnApi := {
  read_engine_file : string -> option (list Z);
  rknn_init : list Z -> Z;
  rknn_query_sdk_version : Z;
  rknn_query_io_num : Z * (nat * nat);
  rknn_query_input_attr : nat -> Z * rknn_tensor_attr;
  rknn_query_output_attr : nat -> Z * rknn_tensor_attr;
  rknn_execute : list (list Z) -> list (option (list Z))
}.

Record YoloV5_RKNN := mkYolo {
  y_profile : EngineProfile;
  y_device_id : Z;
  class_num_ : nat;
  output_index_num_ : nat;
  io_num : nat * nat;                       (* n_input, n_output *)
  output_attrs : list rknn_tensor_attr;
  rknn_inputs_ : list (list Z);
  rknn_outputs_ : list (option (list Z));
  rknn_model_c : nat;
  rknn_model_w : nat;
  rknn_model_h : nat
}.

Definition YoloV5_make (profile : EngineProfile) (device_id : Z) : YoloV5_RKNN :=
  mkYolo profile device_id 0 0 (0, 0)%nat [] [] [] 0 0 0.

Definition batch_size_ (d : YoloV5_RKNN) : nat := Z.to_nat (inference_batch_size (y_profile d)).

Definition set_inputs_outputs (d : YoloV5_RKNN) ins outs := mkYolo (y_profile d) (y_device_id d) (class_num_ d)
  (output_index_num_ d) (io_num d) (output_attrs d) ins outs (rknn_model_c d) (rknn_model_w d) (rknn_model_h d).

(** ** The core of a handler *)

Inductive rknn_core_mask := RKNN_NPU_CORE_AUTO | RKNN_NPU_CORE_0 | RKNN_NPU_CORE_1 | RKNN_NPU_CORE_2.

Definition core_mask_of (device_id : Z) : rknn_core_mask :=
  if device_id =? 0 then RKNN_NPU_CORE_0
  else if device_id =? 1 then RKNN_NPU_CORE_1
  else if device_id =? 2 then RKNN_NPU_CORE_2
  else RKNN_NPU_CORE_AUTO.

(** ** Images *)

(** Exchange the first and third byte of [n] pixels; [None]: past the end. *)
Fixpoint bgrToRgbInPlace (num_pixels : nat) (data : list Z) : option (list Z) :=
  match num_pixels with
  | O => Some data
  | S n =>
      match data with
      | b :: g :: r :: rest => (fun rest => r :: g :: b :: rest) <$> bgrToRgbInPlace n rest
      | _ => None
      end
  end.

Definition with_image (input : Input) (data : list Z) : Input :=
  mkInput (in_meta_data input) (requirements input) (Some data).

Definition object_of_detection (engine : Z) (raw_result : Detection) : InferObject :=
  let '(x, y, w, h) := d_bbox raw_result in
  mkInferObject engine (i32_of_f (d_class_id raw_result)) INFER_TRACK_ID_NOT_SET (d_conf raw_result)
    (mkBBox x y w h) ltx_type pixel_int [].

Section Device.
Context `{RknnApi} `{StdSort}.

(** ** Loading *)

Definition Yolo_LoadModelEngineFile (d : YoloV5_RKNN) : bool * YoloV5_RKNN :=
  if String.eqb (engine_file_path (y_profile d)) "" then (false, d)
  else match read_engine_file (engine_file_path (y_profile d)) with
  | None => (false, d)
  | Some engine_data =>
      if rknn_init engine_data <? 0 then (false, d)
      else if rknn_query_sdk_version <? 0 then (false, d)
      else
        let '(ret, num) := rknn_query_io_num in
        let with_io n_out := mkYolo (y_profile d) (y_device_id d) (class_num_ d) n_out num (output_attrs d)
          (rknn_inputs_ d) (rknn_outputs_ d) (rknn_model_c d) (rknn_model_w d) (rknn_model_h d) in
        if ret <? 0 then (false, with_io (output_index_num_ d))
        else if negb (batch_size_ d =? fst num)%nat then (false, with_io (output_index_num_ d))
        else (true, with_io (snd num))
  end.

(** The attributes of the tensors [0 .. n-1], or the first error. *)
Fixpoint query_attrs (query : nat -> Z * rknn_tensor_attr) (ks : list nat) : option (list rknn_tensor_attr) :=
  match ks with
  | [] => Some []
  | k :: ks =>
      let '(ret, attr) := query k in
      if ret <? 0 then None else (fun l => attr :: l) <$> query_attrs query ks
  end.

(** An entry of the fixed array [dims], zero past the rank. *)
Definition dim (a : rknn_tensor_attr) (k : nat) : Z := default 0 (dims a !! k).
Definition no_attr : rknn_tensor_attr := mkAttr [] false 0 f0.

Definition Yolo_AllocateBuffers (d : YoloV5_RKNN) : bool * YoloV5_RKNN :=
  match query_attrs rknn_query_input_attr (seq 0 (fst (io_num d))) with
  | None => (false, d)
  | Some input_attrs =>
      match query_attrs rknn_query_output_attr (seq 0 (snd (io_num d))) with
      | None => (false, d)
      | Some out_attrs =>
          let out0 := default no_attr (head out_attrs) in
          let in0 := default no_attr (head input_attrs) in
          let class_num := u64 (u32 (dim out0 1) / 3 - (Z.of_nat BBOX_ELEMENT_COUNT + Z.of_nat CONF_ELEMENT_COUNT)) in
          let '(c, h, w) := if fmt_nchw in0 then (dim in0 1, dim in0 2, dim in0 3)
                            else (dim in0 3, dim in0 1, dim in0 2) in
          let size := Z.to_nat (u32 (w * h * c)) in
          (true, mkYolo (y_profile d) (y_device_id d) (Z.to_nat class_num) (output_index_num_ d) (io_num d) out_attrs
                   (rknn_inputs_ d ++ replicate (fst (io_num d)) (replicate size 0)) []
                   (Z.to_nat c) (Z.to_nat w) (Z.to_nat h))
      end
  end.

(** The buffers are freed, their entries stay; the model is the empty buffer. *)
Definition Yolo_ReleaseDeviceResources (d : YoloV5_RKNN) : YoloV5_RKNN :=
  set_inputs_outputs d (map (fun _ => []) (rknn_inputs_ d)) [].

(** ** Inference *)

Definition Yolo_Preprocess (batch : list Input) (input : Input) (d : YoloV5_RKNN) : Outcome bool * list Input * YoloV5_RKNN :=
  match image_data input with
  | None | Some [] => (Value false, batch, d)
  | Some image =>
      if (batch_size_ d =? 0)%nat then (Undefined, batch, d)
      else
        let curr_batch_input_idx := (length batch mod batch_size_ d)%nat in
        match rknn_inputs_ d !! curr_batch_input_idx with
        | None => (Value false, batch, d)
        | Some buf =>
            match bgrToRgbInPlace (rknn_model_w d * rknn_model_h d) image with
            | None => (Undefined, batch, d)
            | Some image =>
                if (length image <? length buf)%nat then (Undefined, batch, d)
                else
                  let batch := batch ++ [with_image input image] in
                  (Value (batch_size_ d <=? length batch)%nat, batch,
                   set_inputs_outputs d (<[curr_batch_input_idx := take (length buf) image]> (rknn_inputs_ d))
                     (rknn_outputs_ d))
            end
        end
  end.

(** Errors of the runtime are logged and ignored. *)
Definition Yolo_DoInference (_ : list Input) (d : YoloV5_RKNN) : Outcome bool * YoloV5_RKNN :=
  (Value true, set_inputs_outputs d (rknn_inputs_ d) (rknn_execute (rknn_inputs_ d))).

(** The raw detections; [None]: a null or too short buffer is read. *)
Definition raw_detections (d : YoloV5_RKNN) : option (list Detection) :=
  let zps := map attr_zp (output_attrs d) in
  let scales := map attr_scale (output_attrs d) in
  let run in0 in1 in2 :=
    PostProcessImplRKNN (confidence_threshold (y_profile d)) (nms_threshold (y_profile d)) (class_num_ d)
      (output_index_num_ d) in0 in1 in2 (rknn_model_h d) (rknn_model_w d) zps scales in
  if (output_index_num_ d =? 3)%nat then
    match rknn_outputs_ d with
    | Some in0 :: Some in1 :: in2 :: _ => run in0 in1 in2
    | _ => None
    end
  else if (output_index_num_ d =? 2)%nat then
    match rknn_outputs_ d with
    | Some in0 :: Some in1 :: _ => run in0 in1 None
    | _ => None
    end
  else Some [].

Definition Yolo_Postprocess (batch : list Input) (d : YoloV5_RKNN) : Outcome (list Output) * YoloV5_RKNN :=
  match batch with
  | [] => (Value [], d)
  | _ =>
      match raw_detections d with
      | None => (Undefined, d)
      | Some raw_results =>
          (Value (map (fun input_wrapper =>
                         mkOutput (in_meta_data input_wrapper) (uuid (y_profile d), y_device_id d)
                           (map (object_of_detection (uuid (y_profile d))) raw_results)) batch), d)
      end
  end.

#[export] Instance yolo_device : Device YoloV5_RKNN := {
  InitializeDevice d := (true, d);
  LoadModelEngineFile := Yolo_LoadModelEngineFile;
  AllocateBuffers := Yolo_AllocateBuffers;
  ReleaseDeviceResources := Yolo_ReleaseDeviceResources;
  Preprocess := Yolo_Preprocess;
  DoInference := Yolo_DoInference;
  Postprocess := Yolo_Postprocess
}.

End Device.

(** ** The device contract *)

Lemma bgr_total n data :
  (3 * n <= length data)%nat -> exists data', bgrToRgbInPlace n data = Some data' /\ length data' = length data.
Proof.
  revert data. induction n as [| n IH]; intros data Hl; cbn [bgrToRgbInPlace]; [by exists data |].
  destruct data as [| b [| g [| r rest]]]; cbn [length] in Hl; try lia.
  destruct (IH rest) as (d & -> & Hd); [lia |]. eexists. split; [done |]. cbn. by rewrite Hd.
Qed.

(** A model of [w] by [h] pixels, three channels, [cn] classes and [n_out] output
    layers, and a runtime that gives every output layer in full. *)
Record ModelShape := mkShape { ms_w : nat; ms_h : nat; ms_classes : nat; ms_outputs : nat }.

Class Model := {
  shape : ModelShape;
  shape_classes : (0 < ms_classes shape <= 1000)%nat;
  shape_outputs : ms_outputs shape = 2%nat \/ ms_outputs shape = 3%nat
}.

Section Contract.
Context `{RknnApi} `{StdSort} `{Model}.

Definition outputs_ok (outs : list (option (list Z))) : Prop :=
  exists in0 in1 rest, outs = Some in0 :: Some in1 :: rest /\
    tensor_ok in0 (ms_classes shape) (ms_h shape) (ms_w shape) 8 /\
    tensor_ok in1 (ms_classes shape) (ms_h shape) (ms_w shape) 16 /\
    (ms_outputs shape = 3%nat -> exists in2 rest', rest = Some in2 :: rest' /\
       tensor_ok in2 (ms_classes shape) (ms_h shape) (ms_w shape) 32).

(** What loading and allocating establish, and the inference keeps. *)
Record yolo_ready (d : YoloV5_RKNN) : Prop := {
  yr_batch : (0 < batch_size_ d)%nat;
  yr_inputs : (batch_size_ d <= length (rknn_inputs_ d))%nat;
  yr_sizes : Forall (fun buf => length buf = 3 * (ms_w shape * ms_h shape))%nat (rknn_inputs_ d);
  yr_w : rknn_model_w d = ms_w shape;
  yr_h : rknn_model_h d = ms_h shape;
  yr_classes : class_num_ d = ms_classes shape;
  yr_outputs : output_index_num_ d = ms_outputs shape;
  yr_attrs : length (output_attrs d) = ms_outputs shape
}.

(** An image of the model's size, or larger. *)
Definition fits (i : Input) : Prop :=
  exists image, image_data i = Some image /\ image <> [] /\ (3 * (ms_w shape * ms_h shape) <= length image)%nat.

Lemma yolo_preprocess batch i d :
  yolo_ready d -> fits i ->
  exists ready i' d', Yolo_Preprocess batch i d = (Value ready, batch ++ [i'], d') /\ yolo_ready d' /\
    in_meta_data i' = in_meta_data i /\ ready = (batch_size_ d <=? S (length batch))%nat.
Proof.
  intros [H1' H2' H3' H4' H5' H6' H7' H8'] (image & Hi & Hne & Hl). unfold Yolo_Preprocess. rewrite Hi.
  destruct image as [| z image]; [done |]. rewrite (proj2 (Nat.eqb_neq _ _)) by lia.
  pose proof (Nat.mod_upper_bound (length batch) (batch_size_ d)) as Hm. set (k := (length batch mod batch_size_ d)%nat) in *.
  destruct (lookup_lt_is_Some_2 (rknn_inputs_ d) k) as [buf Hb]; [lia |]. rewrite Hb.
  pose proof (Forall_lookup_1 _ _ _ _ H3' Hb) as Hbl. cbn beta in Hbl.
  destruct (bgr_total (rknn_model_w d * rknn_model_h d) (z :: image)) as (image' & -> & Hil); [rewrite H4', H5'; lia |].
  rewrite (proj2 (Nat.ltb_ge _ _)) by lia. eexists _, _, _. split; [done |]. split; [| split; [done |]].
  - split; cbn; try done; [by rewrite length_insert |]. apply Forall_insert; [done |]. rewrite length_take. lia.
  - rewrite length_app. cbn. by rewrite Nat.add_1_r.
Qed.

Lemma raw_detections_total d :
  yolo_ready d -> outputs_ok (rknn_outputs_ d) ->
  exists dets, raw_detections d = Some dets /\
    Forall (fun x => exists k, 0 <= k < Z.of_nat (ms_classes shape) /\ d_class_id x = f32_of_Z k) dets.
Proof.
  intros [_ _ _ H4' H5' H6' H7' H8'] (in0 & in1 & rest & Ho & T0 & T1 & T2). unfold raw_detections.
  rewrite H7', Ho, H4', H5', H6'. destruct shape_classes as [Hc _].
  destruct shape_outputs as [E | E]; rewrite E in *; cbn [Nat.eqb].
  - apply postprocess_total; try done; by rewrite length_map, H8'.
  - destruct (T2 eq_refl) as (in2 & rest' & -> & T2'). apply postprocess_total; try done; by rewrite length_map, H8'.
Qed.

#[export] Instance yolo_laws : DeviceLaws YoloV5_RKNN.
Proof.
  refine {| dev_ok := fun _ d => yolo_ready d; accepts := fits; dev_inferred := fun _ d => yolo_ready d |}.
  - intros batch i d r batch' d' Hd Hi. cbn. destruct (yolo_preprocess batch i d Hd Hi) as (ready & i' & d1 & -> & Hd1 & Hm & _).
    intros [= <- <- <-]. split; [done |]. split; [done |]. left. rewrite map_app. cbn. by rewrite Hm.
  - intros batch d r d' Hd. cbn. intros [= <- <-]. split; [done |]. split; [| intros _]; by destruct Hd; split.
  - intros batch d r d' Hd. cbn. unfold Yolo_Postprocess. destruct batch as [| i batch].
    + intros [= <- <-]. right. split; [done |]. intros outs [= <-]. by left.
    + destruct (raw_detections d) as [dets |]; intros [= <- <-]; [right | by left].
      split; [done |]. intros outs [= <-]. left. cbn. by rewrite map_map.
  - done.
Defined.

(** The detector answers every batch for which the post-processing returns. *)
Lemma turn_loses_nothing (h : EngineHandlerBase YoloV5_RKNN) : turn_loses h = [].
Proof.
  unfold turn_loses. destruct (request_q_ h); [| done]. destruct (fst _); [| done].
  destruct (Preprocess _ _ _) as [[[[] | |] batch] d]; try done. cbn. unfold Yolo_Postprocess.
  destruct batch as [| i0 batch]; [done |]. by destruct (raw_detections _).
Qed.

Lemma run_loses_nothing es (h : EngineHandlerBase YoloV5_RKNN) : run_loses es h = [].
Proof.
  revert h. induction es as [| e es IH]; intros h; [done |]. cbn [run_loses].
  assert (match e with Work => turn_loses h | _ => [] end = []) as -> by (destruct e; [done | apply turn_loses_nothing | done]).
  destruct (handler_event h e) as [[? h1] |]; [apply IH | done].
Qed.

(** A turn is undefined only when the runtime did not give the output layers in full. *)
Lemma undefined_turn (h : EngineHandlerBase YoloV5_RKNN) rq rs :
  linked h rq rs -> InferenceThread_iteration h = None -> exists ins, ~ outputs_ok (rknn_execute ins).
Proof.
  intros Hl. unfold InferenceThread_iteration. rewrite (lk_request _ _ _ Hl). pose proof (dequeue_app rq) as Hdq.
  destruct (dequeue_wait_for rq) as [[i |] q'] eqn:Edq; destruct Hdq as [Hq Hm]; [| done].
  destruct (linked_pop _ _ _ _ _ _ Hl Hq eq_refl Hm) as [Hi Hl1]. cbn [current_batch_inputs_ set_links device].
  destruct (yolo_preprocess (current_batch_inputs_ h) i (device h) (lk_device _ _ _ Hl1) Hi) as (ready & i' & d' & Hp & Hd & _).
  cbn [Preprocess yolo_device]. rewrite Hp. destruct ready; [| done]. unfold run_batch. cbn.
  unfold Yolo_Postprocess. destruct (_ ++ [i']) as [| i0 batch]; [by cbn |].
  set (d2 := set_inputs_outputs _ _ _). destruct (raw_detections d2) as [dets |] eqn:Er.
  - cbn. by rewrite (lk_respond _ _ _ Hl).
  - intros _. exists (rknn_inputs_ d'). intros Ho. assert (yolo_ready d2) as Hr by (by destruct Hd; split).
    destruct (raw_detections_total d2 Hr Ho) as (? & Hs & _). congruence.
Qed.

End Contract.

(** ** Theorems *)

Lemma class_id_roundtrip k : 0 <= k < 1000 -> i32_of_f (f32_of_Z k) = k.
Proof.
  intros Hk. assert (forallb (fun n => i32_of_f (f32_of_Z (Z.of_nat n)) =? Z.of_nat n) (seq 0 1000) = true) as H
    by (vm_compute; reflexivity).
  rewrite forallb_forall in H. specialize (H (Z.to_nat k)). rewrite Z2Nat.id in H by lia.
  apply Z.eqb_eq, H, in_seq. lia.
Qed.

Section Theorems.
Context `{RknnApi} `{StdSort} `{Model}.

(** After an inference each request of the batch gets one response, in the
    order of the batch, with its own metadata and this handler's identifier, and
    objects whose class is one of the model's.  All of them get the same
    objects: the detections of the whole batch, whichever image they are in. *)
Theorem batch_responses batch d :
  yolo_ready d -> outputs_ok (rknn_outputs_ d) ->
  exists objs,
    Yolo_Postprocess batch d =
      (Value (map (fun i => mkOutput (in_meta_data i) (uuid (y_profile d), y_device_id d) objs) batch), d) /\
    Forall (fun o => 0 <= class_id o < Z.of_nat (ms_classes shape) /\ infer_engine_id o = uuid (y_profile d)) objs.
Proof.
  intros Hd Ho. destruct (raw_detections_total d Hd Ho) as (dets & Hraw & Hc).
  exists (map (object_of_detection (uuid (y_profile d))) dets). unfold Yolo_Postprocess. split.
  - destruct batch; [done |]. by rewrite Hraw.
  - apply Forall_forall. intros o Hin. apply list_elem_of_In, in_map_iff in Hin as (x & <- & Hx%list_elem_of_In).
    rewrite Forall_forall in Hc. destruct (Hc x Hx) as (k & Hk & Hxk). unfold object_of_detection.
    destruct (d_bbox x) as [[[? ?] ?] ?]. cbn. rewrite Hxk, class_id_roundtrip; [done |].
    pose proof shape_classes. lia.
Qed.

(** An inference that fails leaves null output buffers: it is reported as a
    success, and the post-processing dereferences them. *)
Lemma failed_inference_undefined i batch d :
  output_index_num_ d = 2%nat \/ output_index_num_ d = 3%nat ->
  head (rknn_execute (rknn_inputs_ d)) = Some None ->
  fst (Yolo_DoInference (i :: batch) d) = Value true /\
  fst (Yolo_Postprocess (i :: batch) (snd (Yolo_DoInference (i :: batch) d))) = Undefined.
Proof.
  intros Hn Hx. split; [done |]. cbn [Yolo_DoInference snd]. unfold Yolo_Postprocess, raw_detections.
  cbn [output_index_num_ set_inputs_outputs rknn_outputs_]. destruct (rknn_execute _) as [| o outs]; [done |].
  injection Hx as ->. by destruct Hn as [-> | ->].
Qed.

(** The runtime's description of the model. *)
Record describes (batch : nat) : Prop := {
  ds_io : rknn_query_io_num = (0, (batch, ms_outputs shape));
  ds_in : forall k, exists a, rknn_query_input_attr k = (0, a) /\ fmt_nchw a = false /\
            dim a 1 = Z.of_nat (ms_h shape) /\ dim a 2 = Z.of_nat (ms_w shape) /\ dim a 3 = 3;
  ds_out : forall k, exists a, rknn_query_output_attr k = (0, a) /\ dim a 1 = 3 * (Z.of_nat (ms_classes shape) + 5)
}.

Lemma query_attrs_total query ks :
  (forall k, exists a, query k = (0, a)) -> exists l, query_attrs query ks = Some l /\ length l = length ks /\
    forall k a, head ks = Some k -> query k = (0, a) -> head l = Some a.
Proof.
  intros Hq. induction ks as [| k ks IH]; cbn [query_attrs]; [by exists [] |].
  destruct (Hq k) as [a Ha]. rewrite Ha. destruct IH as (l & -> & Hl & _). exists (a :: l). cbn. split; [done |].
  split; [by rewrite Hl |]. intros k' a' [= <-] Ha'. congruence.
Qed.

Lemma loaded_ready profile device_id d1 d2 :
  (0 < Z.to_nat (inference_batch_size profile))%nat -> describes (Z.to_nat (inference_batch_size profile)) ->
  Z.of_nat (3 * (ms_w shape * ms_h shape)) < 2 ^ 32 ->
  Yolo_LoadModelEngineFile (YoloV5_make profile device_id) = (true, d1) -> Yolo_AllocateBuffers d1 = (true, d2) ->
  yolo_ready d2.
Proof.
  intros Hb [Hio Hin Hout] Hsize Hload Halloc. unfold Yolo_LoadModelEngineFile in Hload. rewrite Hio in Hload.
  destruct (String.eqb _ _); [done |]. destruct (read_engine_file _); [| done].
  destruct (rknn_init _ <? 0); [done |]. destruct (rknn_query_sdk_version <? 0); [done |].
  change (batch_size_ (YoloV5_make profile device_id)) with (Z.to_nat (inference_batch_size profile)) in Hload.
  cbn [fst snd Z.ltb Z.compare] in Hload. rewrite Nat.eqb_refl in Hload. cbn [negb] in Hload. injection Hload as <-.
  unfold Yolo_AllocateBuffers in Halloc. cbn [io_num fst snd rknn_inputs_ YoloV5_make] in Halloc.
  destruct (query_attrs_total rknn_query_input_attr (seq 0 (Z.to_nat (inference_batch_size profile)))) as (ins & Hi1 & Hi2 & Hi3).
  { intros k. destruct (Hin k) as (a & Ha & _). by exists a. }
  destruct (query_attrs_total rknn_query_output_attr (seq 0 (ms_outputs shape))) as (outs & Ho1 & Ho2 & Ho3).
  { intros k. destruct (Hout k) as (a & Ha & _). by exists a. }
  rewrite Hi1, Ho1 in Halloc. rewrite length_seq in Hi2, Ho2.
  destruct (Hin 0%nat) as (a & Ha & Hf & Hh & Hw & Hc). destruct (Hout 0%nat) as (o & Hoa & Hoc).
  rewrite (Hi3 0%nat a) in Halloc; [| by destruct (Z.to_nat (inference_batch_size profile)); [lia |] | done].
  pose proof shape_classes. pose proof shape_outputs.
  rewrite (Ho3 0%nat o) in Halloc; [| by destruct (ms_outputs shape); [lia |] | done]. cbn [from_option id] in Halloc.
  rewrite Hf, Hh, Hw, Hc, Hoc in Halloc. injection Halloc as <-. split; cbn.
  - exact Hb.
  - by rewrite length_replicate.
  - apply Forall_replicate. rewrite length_replicate. rewrite u32_id; unfold in_u32; lia.
  - lia.
  - lia.
  - rewrite u32_id by (unfold in_u32; lia). rewrite Z.mul_comm, Z.div_mul by lia.
    rewrite (wrap_u_id 64); unfold BBOX_ELEMENT_COUNT, CONF_ELEMENT_COUNT; lia.
  - done.
  - done.
Qed.

(** Each request that arrived has its response, or is still in the handler. *)
Definition all_accounted (es : list HandlerEvent) (outs : list Output) (h : EngineHandlerBase YoloV5_RKNN) : Prop :=
  exists rq rs, request_q_ h = Some rq /\ respond_q_ h = Some rs /\
    out_metas outs ++ out_metas (q_ rs) ++ in_metas (current_batch_inputs_ h) ++ in_metas (q_ rq) ≡ₚ in_metas (arrivals es).

Lemma undefined_turn_accounted es (h0 : EngineHandlerBase YoloV5_RKNN) start outs h :
  accounted es h0 start outs h -> InferenceThread_iteration h = None -> exists ins, ~ outputs_ok (rknn_execute ins).
Proof. intros (rq & rs & Hl & _). by apply (undefined_turn h rq rs). Qed.

(** C14: the detector end to end.  A handler made for a profile, linked to a
    balancer and activated successfully on a runtime that describes the model as
    the profile does, is sent requests whose images have at least the model's size,
    as the pre-processing of the units makes them.  After any interleaving of these
    requests, inference turns and collected responses, the responses collected or
    waiting, the open batch and the request queue account for each request that
    arrived, exactly once.  The one exception is a runtime that does not give the
    output layers in full, for instance because its inference failed: the code does
    not look at the runtime's error codes and reads the missing buffers, so that the
    process ends there, with every request accounted for up to that turn. *)
Theorem detector_answers_every_request profile device_id linker rs0 h' es :
  (0 < Z.to_nat (inference_batch_size profile))%nat -> describes (Z.to_nat (inference_batch_size profile)) ->
  Z.of_nat (3 * (ms_w shape * ms_h shape)) < 2 ^ 32 ->
  linker (uuid profile, device_id) SafeQueue_make = Some (Some rs0) -> q_ rs0 = [] -> max_size_ rs0 <= 0 ->
  ActivateEngine (SetEngineLinker (EngineHandlerBase_make profile device_id (YoloV5_make profile device_id)) linker)
    = Some (true, h') ->
  Forall fits (arrivals es) ->
  match handler_run es h' with
  | Some (outs, h'') => all_accounted es outs h''
  | None => exists es1 es2 outs h1 ins, es = es1 ++ Work :: es2 /\ handler_run es1 h' = Some (outs, h1) /\
      all_accounted es1 outs h1 /\ InferenceThread_iteration h1 = None /\ ~ outputs_ok (rknn_execute ins)
  end.
Proof.
  intros Hb Hds Hsize Hlink Hq0 Hm0 Hact Hfit.
  assert (linked h' SafeQueue_make rs0 /\ current_batch_inputs_ h' = []) as [Hl Hnil].
  { unfold ActivateEngine in Hact. cbn [SetEngineLinker set_links engine_linker_ is_activate_handler_ EngineHandlerBase_make] in Hact.
    unfold Link in Hact. cbn [engine_linker_ set_links SetEngineLinker] in Hact.
    unfold GetEngineHandleUUID in Hact. cbn [profile_ device_id_ set_links SetEngineLinker EngineHandlerBase_make] in Hact.
    rewrite Hlink in Hact. cbn [negb] in Hact. unfold InitializeDeviceAndModel in Hact.
    cbn [device set_links SetEngineLinker EngineHandlerBase_make LoadModelEngineFile AllocateBuffers yolo_device] in Hact.
    destruct (Yolo_LoadModelEngineFile _) as [[] d1] eqn:E1; cbn [negb] in Hact; [| done].
    destruct (Yolo_AllocateBuffers d1) as [[] d2] eqn:E2; cbn [negb] in Hact; [| done].
    injection Hact as <-. split; [| done]. split; cbn; try done. by eapply loaded_ready. }
  assert (forall es outs h'', accounted es h' (owed h' SafeQueue_make rs0) outs h'' -> all_accounted es outs h'') as Hall.
  { intros es0 outs h'' (rq & rs & Hl' & Hp). exists rq, rs. split; [by eapply lk_request |]. split; [by eapply lk_respond |].
    rewrite run_loses_nothing in Hp. cbn [in_metas map] in Hp. rewrite app_nil_r in Hp. rewrite Hp. unfold owed. by rewrite Hq0, Hnil. }
  pose proof (run_linked es h' _ _ Hl Hfit) as Hr. destruct (handler_run es h') as [[outs h''] |]; [by apply Hall |].
  destruct Hr as (es1 & es2 & outs & h1 & He & Hr & Ha & Hn). destruct (undefined_turn_accounted _ _ _ _ _ Ha Hn) as [ins Hins].
  exists es1, es2, outs, h1, ins. split; [done |]. split; [done |]. split; [by apply Hall | done].
Qed.

End Theorems.

(** ** A runtime of a 32x32 model with one class

    It sees one object, whatever the input. *)

#[local] Existing Instance stable_sort.

#[local] Instance demo_runtime : RknnApi := {
  read_engine_file _ := Some [0];
  rknn_init _ := 0;
  rknn_query_sdk_version := 0;
  rknn_query_io_num := (0, (2, 2)%nat);
  rknn_query_input_attr _ := (0, mkAttr [1; 32; 32; 3] false (-128) (f32_lit 1 256));
  rknn_query_output_attr _ := (0, mkAttr [1; 18; 4; 4] false (-128) (f32_lit 1 256));
  rknn_execute _ := [Some (demo_layer 16 1000); Some (demo_layer 4 1)]
}.

#[local] Instance demo_model : Model.
Proof. refine {| shape := mkShape 32 32 1 2 |}; [cbn; lia | by left]. Defined.

Lemma demo_outputs : outputs_ok [Some (demo_layer 16 1000); Some (demo_layer 4 1)].
Proof. exists (demo_layer 16 1000), (demo_layer 4 1), []. split; [done |]. split; [done |]. split; [done |]. done. Qed.

Definition demo_yolo_profile : EngineProfile :=
  mkProfile 7 "yolo" "yolo.rknn" "" MajorDetection YoloV5 "" 1 1 false 32 32 2 Torch_Onnx_RKNN "" ""
    (f32_lit 1 2) (f32_lit 1 2).

Definition demo_image (u n : Z) : Input :=
  mkInput (mkMeta u 0 32 32 n) InferRequestRequirements_default (Some (replicate 3072 1)).

Definition demo_detector : YoloV5_RKNN :=
  set_inputs_outputs (snd (Yolo_AllocateBuffers (snd (Yolo_LoadModelEngineFile (YoloV5_make demo_yolo_profile 0)))))
    [replicate 3072 0; replicate 3072 0] [Some (demo_layer 16 1000); Some (demo_layer 4 1)].

Lemma demo_image_fits u n : fits (demo_image u n).
Proof. exists (replicate 3072 1). split; [done |]. split; [done |]. rewrite length_replicate. cbn. lia. Qed.

Lemma batch_responses_witness :
  exists objs, Yolo_Postprocess [demo_image 1 1; demo_image 2 1] demo_detector =
    (Value [mkOutput (mkMeta 1 0 32 32 1) (7, 0) objs; mkOutput (mkMeta 2 0 32 32 1) (7, 0) objs], demo_detector) /\
    length objs = 1%nat.
Proof.
  destruct (batch_responses [demo_image 1 1; demo_image 2 1] demo_detector) as (objs & H & _).
  - split; [apply Nat.ltb_lt; vm_compute; reflexivity | apply Nat.leb_le; vm_compute; reflexivity | | reflexivity | reflexivity | reflexivity | reflexivity | reflexivity].
    constructor; [reflexivity |]. constructor; [reflexivity | constructor].
  - exact demo_outputs.
  - exists objs. split; [exact H |].
    assert (match fst (Yolo_Postprocess [demo_image 1 1; demo_image 2 1] demo_detector) with
            | Value (o :: _) => length (infer_objects_out o) | _ => 0%nat end = 1%nat) as H1 by (vm_compute; reflexivity).
    rewrite H in H1. exact H1.
Defined.

Definition demo_linker : EngineLinker := fun _ _ => Some (Some SafeQueue_make).

Definition demo_detector_handler : EngineHandlerBase YoloV5_RKNN :=
  match ActivateEngine (SetEngineLinker (EngineHandlerBase_make demo_yolo_profile 0 (YoloV5_make demo_yolo_profile 0)) demo_linker) with
  | Some (_, h) => h
  | None => EngineHandlerBase_make demo_yolo_profile 0 (YoloV5_make demo_yolo_profile 0)
  end.

Lemma demo_describes : describes 2.
Proof.
  split; [done | |]; intros k; eexists; (split; [reflexivity |]); cbn; [split_and!; reflexivity | reflexivity].
Qed.

Definition demo_requests : list HandlerEvent := [Arrive (demo_image 1 1); Arrive (demo_image 2 1); Work; Work; Collect].

Lemma detector_answers_every_request_witness :
  exists outs h, handler_run demo_requests demo_detector_handler = Some (outs, h) /\ all_accounted demo_requests outs h.
Proof.
  assert (ActivateEngine (SetEngineLinker (EngineHandlerBase_make demo_yolo_profile 0 (YoloV5_make demo_yolo_profile 0)) demo_linker)
            = Some (true, demo_detector_handler)) as Hact by (vm_compute; reflexivity).
  assert (Forall fits (arrivals demo_requests)) as Hfit.
  { constructor; [apply demo_image_fits |]. constructor; [apply demo_image_fits | constructor]. }
  pose proof (detector_answers_every_request demo_yolo_profile 0 demo_linker SafeQueue_make demo_detector_handler demo_requests
                ltac:(cbn; lia) demo_describes ltac:(cbn; lia) eq_refl eq_refl ltac:(cbn; lia) Hact Hfit) as Ha.
  destruct (handler_run demo_requests demo_detector_handler) as [[outs h] |] eqn:E; [exists outs, h; split; [reflexivity | exact Ha] |].
  assert (match handler_run demo_requests demo_detector_handler with Some _ => true | None => false end = true) as Hs by (vm_compute; reflexivity).
  rewrite E in Hs. discriminate Hs.
Defined.
