(* ===== verification/Letterbox.v ===== *)
(** * Frame preprocessing

    [VisionCommon/include/FramePreProcessor.h] and [src/FramePreProcessor.cpp]:
    the letterbox geometry of [FrameFormattingContext], its conversion of a frame
    and the pool of buffers it shares with the consumers of the blobs.  FFmpeg is
    the class [FFmpeg]; a buffer is its identity and size, since the claims are
    about which buffer is written and where. *)

From Stdlib Require Import SpecFloat.
From stdpp Require Import base option list.
From S2P Require Import Prelude Float32 FloatBounds InferObject.
Open Scope Z_scope.
Open Scope list_scope.

Class FFmpeg := {
  av_image_get_buffer_size : Z -> Z -> Z;                (* BGR24, aligned to 32 bytes *)
  sws_getContext : Z -> Z -> Z -> Z -> Z -> bool          (* false: a null pointer *)
}.

Record RawBuffer := mkBuffer { buf_id : nat; buf_size : Z }.

#[export] Instance RawBuffer_eq_dec : EqDecision RawBuffer.
Proof. solve_decision. Defined.

Record PoolContainer := mkPool { pool : list RawBuffer; max_size : nat }.

Record FrameFormattingContext := mkContext {
  is_initialized : bool;
  need_resize : bool;
  src_w : Z; src_h : Z;
  target_w : Z; target_h : Z;
  scale_w : Z; scale_h : Z;
  top : Z; bottom : Z; left : Z; right : Z;
  sws_scale_ctx : bool;                       (* not null *)
  inference_style : ImageExpressStyle;
  original_style : ImageExpressStyle;
  pool_container : option PoolContainer;
  shared_input_blob : option RawBuffer;
  save_snapshot_mat : bool                    (* not empty *)
}.

Definition default_style : ImageExpressStyle :=
  ImageExpressStyle_make 0 0 pixel_int ltx_type false f1 0 0 0 0.

Definition FrameFormattingContext_make : FrameFormattingContext :=
  mkContext false true 0 0 0 0 0 0 0 0 0 0 false default_style default_style None None false.

(** ** The letterbox *)

Definition padding_before (pad : f32) : Z := i32_of_round (f32_sub pad (f32_lit 1 10)).
Definition padding_after (pad : f32) : Z := i32_of_round (f32_add pad (f32_lit 1 10)).

Record Letterbox := mkLetterbox {
  lb_need_resize : bool; lb_scale_factor : f32; lb_scale_w : Z; lb_scale_h : Z;
  lb_left : Z; lb_right : Z; lb_top : Z; lb_bottom : Z
}.

(** Scale to fit, then centre. *)
Definition letterbox (src_w src_h target_w target_h : Z) : Letterbox :=
  if (src_w =? target_w) && (src_h =? target_h) then mkLetterbox false f1 src_w src_h 0 0 0 0
  else
    let w_ratio := f32_div (f32_of_Z target_w) (f32_of_Z src_w) in
    let h_ratio := f32_div (f32_of_Z target_h) (f32_of_Z src_h) in
    let scale_factor := std_min w_ratio h_ratio in
    let scale_w := i32_of_round (f32_mul (f32_of_Z src_w) scale_factor) in
    let scale_h := i32_of_round (f32_mul (f32_of_Z src_h) scale_factor) in
    let total_pad_w := f32_div (f32_of_Z (i32 (target_w - scale_w))) f2 in
    let total_pad_h := f32_div (f32_of_Z (i32 (target_h - scale_h))) f2 in
    mkLetterbox true scale_factor scale_w scale_h (padding_before total_pad_w) (padding_after total_pad_w)
      (padding_before total_pad_h) (padding_after total_pad_h).

Definition InitPool (c : FrameFormattingContext) (max_sz : nat) : FrameFormattingContext :=
  mkContext (is_initialized c) (need_resize c) (src_w c) (src_h c) (target_w c) (target_h c) (scale_w c) (scale_h c)
    (top c) (bottom c) (left c) (right c) (sws_scale_ctx c) (inference_style c) (original_style c)
    (Some (mkPool [] max_sz)) (shared_input_blob c) (save_snapshot_mat c).

Definition with_pool (c : FrameFormattingContext) p : FrameFormattingContext :=
  mkContext (is_initialized c) (need_resize c) (src_w c) (src_h c) (target_w c) (target_h c) (scale_w c) (scale_h c)
    (top c) (bottom c) (left c) (right c) (sws_scale_ctx c) (inference_style c) (original_style c)
    p (shared_input_blob c) (save_snapshot_mat c).

Definition ClearPool (c : FrameFormattingContext) : FrameFormattingContext :=
  with_pool c ((fun p => mkPool [] (max_size p)) <$> pool_container c).

Definition IsResolutionChanged (c : FrameFormattingContext) (new_src_w new_src_h new_target_w new_target_h : Z) : bool :=
  negb (src_w c =? new_src_w) || negb (src_h c =? new_src_h) ||
  negb (target_w c =? new_target_w) || negb (target_h c =? new_target_h).

(** The result and the context; the second half of the function is skipped when
    the scaling context cannot be made. *)
Definition Update `{FFmpeg} (c : FrameFormattingContext) (new_src_w new_src_h new_target_w new_target_h fmt : Z)
    : bool * FrameFormattingContext :=
  let is_resolution_changed := IsResolutionChanged c new_src_w new_src_h new_target_w new_target_h in
  if is_initialized c && negb is_resolution_changed then (true, c)
  else
    let c := match pool_container c with None => InitPool c 10 | Some _ => c end in
    let c := if is_resolution_changed then ClearPool c else c in
    let l := letterbox new_src_w new_src_h new_target_w new_target_h in
    let sws := sws_getContext new_src_w new_src_h fmt (lb_scale_w l) (lb_scale_h l) in
    let finish initialized istyle ostyle :=
      mkContext initialized (lb_need_resize l) new_src_w new_src_h new_target_w new_target_h
        (lb_scale_w l) (lb_scale_h l) (lb_top l) (lb_bottom l) (lb_left l) (lb_right l) sws istyle ostyle
        (pool_container c) (shared_input_blob c) (save_snapshot_mat c) in
    if negb sws then (false, finish (is_initialized c) (inference_style c) (original_style c))
    else
      (true, finish true
         (mkStyle new_target_w new_target_h ratio_float ltx_type true (lb_scale_factor l) (lb_left l) (lb_top l)
            new_src_w new_src_h)
         (ImageExpressStyle_make new_src_w new_src_h pixel_int ltx_type false f1 0 0 0 0)).

(** ** Conversion *)

Record Rect := mkRect { rx : Z; ry : Z; rw : Z; rh : Z }.

(** [cv::Mat( rect )] throws unless this holds. *)
Definition rect_inside (w h : Z) (r : Rect) : bool :=
  (0 <=? rx r) && (0 <=? rw r) && (rx r + rw r <=? w) && (0 <=? ry r) && (0 <=? rh r) && (ry r + rh r <=? h).

Definition roi_rect (c : FrameFormattingContext) : Rect := mkRect (left c) (top c) (scale_w c) (scale_h c).

(** The areas painted grey, in order. *)
Definition grey_rects (c : FrameFormattingContext) : list Rect :=
  if need_resize c then
    (if 0 <? top c then [mkRect 0 0 (target_w c) (top c)] else []) ++
    (if 0 <? bottom c then [mkRect 0 (target_h c - bottom c) (target_w c) (bottom c)] else []) ++
    (if 0 <? left c then [mkRect 0 (top c) (left c) (scale_h c)] else []) ++
    (if 0 <? right c then [mkRect (target_w c - right c) (top c) (right c) (scale_h c)] else [])
  else [].

Definition inside_frame (c : FrameFormattingContext) : Rect -> bool := rect_inside (target_w c) (target_h c).

Definition with_images (c : FrameFormattingContext) p blob snapshot : FrameFormattingContext :=
  mkContext (is_initialized c) (need_resize c) (src_w c) (src_h c) (target_w c) (target_h c) (scale_w c) (scale_h c)
    (top c) (bottom c) (left c) (right c) (sws_scale_ctx c) (inference_style c) (original_style c) p blob snapshot.

(** A buffer of at least [required_size]: the front of the pool, grown if it is
    too small, or a new one with identity [fresh]. *)
Definition acquire (p : PoolContainer) (required_size : Z) (fresh : nat) : RawBuffer * PoolContainer :=
  match pool p with
  | b :: rest => (mkBuffer (buf_id b) (Z.max (buf_size b) required_size), mkPool rest (max_size p))
  | [] => (mkBuffer fresh required_size, p)
  end.

(** The deleter of a blob. *)
Definition release (p : PoolContainer) (b : RawBuffer) : PoolContainer :=
  if (length (pool p) <? max_size p)%nat then mkPool (pool p ++ [b]) (max_size p) else p.

(** [processed_h]: what [sws_scale] returns.  [None]: an OpenCV exception. *)
Definition Convert `{FFmpeg} (c : FrameFormattingContext) (frame : bool) (capture_save_image generate_inference_blob : bool)
    (processed_h : Z) (fresh : nat) : option (bool * FrameFormattingContext) :=
  if negb (is_initialized c) || negb (sws_scale_ctx c) || negb frame then Some (false, c)
  else
    let c := match pool_container c with None => InitPool c 10 | Some _ => c end in
    let required_size := av_image_get_buffer_size (target_w c) (target_h c) in
    let nonempty := (0 <? target_w c) && (0 <? target_h c) in
    if generate_inference_blob then
      match pool_container c with
      | None => Some (false, c)
      | Some p =>
          let '(target_vec, p) := acquire p required_size fresh in
          let c := with_pool c (Some p) in
          if negb (inside_frame c (roi_rect c)) then None
          else if processed_h <=? 0 then Some (false, c)
          else if negb (forallb (inside_frame c) (grey_rects c)) then None
          else
            let c := if capture_save_image then with_images c (pool_container c) (shared_input_blob c) nonempty else c in
            if capture_save_image && negb nonempty then Some (false, c)
            else Some (true, with_images c (pool_container c) (Some target_vec) (save_snapshot_mat c))
      end
    else if capture_save_image then
      let c := with_images c (pool_container c) None nonempty in
      if negb (inside_frame c (roi_rect c)) then None
      else if processed_h <=? 0 then Some (false, c)
      else if negb (forallb (inside_frame c) (grey_rects c)) then None else Some (true, c)
    else Some (true, c).

Definition IsReadyForInference (c : FrameFormattingContext) : bool :=
  match shared_input_blob c with Some b => 0 <? buf_size b | None => false end.

(** ** The letterbox fits the frame *)

Lemma padding_exact d : 0 <= d <= 8192 ->
  let pad := f32_div (f32_of_Z d) f2 in
  0 <= padding_before pad /\ 0 <= padding_after pad /\ padding_before pad + padding_after pad = d.
Proof.
  intros Hd. assert (forallb (fun n => let pad := f32_div (f32_of_Z (Z.of_nat n)) f2 in
    (0 <=? padding_before pad) && (0 <=? padding_after pad) && (padding_before pad + padding_after pad =? Z.of_nat n))
    (seq 0 (Z.to_nat 8193)) = true) as H by (vm_compute; reflexivity).
  rewrite forallb_forall in H. specialize (H (Z.to_nat d)). rewrite Z2Nat.id in H by lia.
  cbv zeta in H. assert (In (Z.to_nat d) (seq 0 (Z.to_nat 8193))) as Hin by (apply in_seq; lia).
  specialize (H Hin). bool_to_prop. cbv zeta. split_and!; assumption || lia.
Qed.

(** The dimensions the program meets: sources below [2 ^ 24] pixels a side,
    models up to 8192. *)
Definition dims_ok (src_w src_h target_w target_h : Z) : Prop :=
  0 < src_w < 2 ^ 24 /\ 0 < src_h < 2 ^ 24 /\ 0 < target_w <= 8192 /\ 0 < target_h <= 8192.

Record fits_frame (l : Letterbox) (tw th : Z) : Prop := {
  ff_left : 0 <= lb_left l; ff_right : 0 <= lb_right l; ff_top : 0 <= lb_top l; ff_bottom : 0 <= lb_bottom l;
  ff_sw : 0 <= lb_scale_w l; ff_sh : 0 <= lb_scale_h l;
  ff_w : lb_left l + lb_scale_w l + lb_right l = tw;
  ff_h : lb_top l + lb_scale_h l + lb_bottom l = th;
  ff_same : lb_need_resize l = false -> lb_left l = 0 /\ lb_right l = 0 /\ lb_top l = 0 /\ lb_bottom l = 0
}.

Lemma std_min_lower a b :
  is_nan a = false -> is_nan b = false -> fle (std_min a b) a = true /\ fle (std_min a b) b = true.
Proof.
  intros Ha Hb. unfold std_min. destruct (flt b a) eqn:E.
  - split; [by apply flt_fle | by apply fle_refl].
  - split; [by apply fle_refl |]. by apply flt_false_fle.
Qed.

Lemma letterbox_fits sw sh tw th : dims_ok sw sh tw th -> fits_frame (letterbox sw sh tw th) tw th.
Proof.
  intros (Hsw & Hsh & Htw & Hth). unfold letterbox. case_if.
  - bool_to_prop. subst. split; cbn; lia.
  - destruct (div_upper tw sw ltac:(lia) Hsw) as (_ & Hnw & _). destruct (div_upper th sh ltac:(lia) Hsh) as (_ & Hnh & _).
    set (wr := f32_div _ (f32_of_Z sw)) in *. set (hr := f32_div _ (f32_of_Z sh)) in *.
    destruct (std_min_lower wr hr ltac:(auto with mgen) ltac:(auto with mgen)) as [Hw Hh].
    assert (nonneg (std_min wr hr)) as Hn by (unfold std_min; by case_if).
    assert (f32_ok (std_min wr hr)) as Hok by (apply std_min_ok; unfold wr, hr; auto with mgen).
    pose proof (scaled_length_le sw tw _ Hsw ltac:(lia) Hok Hn Hw) as Bw.
    pose proof (scaled_length_le sh th _ Hsh ltac:(lia) Hok Hn Hh) as Bh.
    set (s := std_min wr hr) in *. set (scw := i32_of_round (f32_mul (f32_of_Z sw) s)) in *.
    set (sch := i32_of_round (f32_mul (f32_of_Z sh) s)) in *. clearbody scw sch.
    rewrite !i32_id by (unfold in_i32; lia).
    destruct (padding_exact (tw - scw) ltac:(lia)) as (P1 & P2 & P3). destruct (padding_exact (th - sch) ltac:(lia)) as (Q1 & Q2 & Q3).
    split; cbn [lb_left lb_right lb_top lb_bottom lb_scale_w lb_scale_h lb_need_resize]; lia || done.
Qed.

(** An initialised context holds the letterbox of its dimensions. *)
Definition geometry_ok (c : FrameFormattingContext) : Prop :=
  is_initialized c = true ->
  dims_ok (src_w c) (src_h c) (target_w c) (target_h c) /\
  letterbox (src_w c) (src_h c) (target_w c) (target_h c) =
    mkLetterbox (need_resize c) (lb_scale_factor (letterbox (src_w c) (src_h c) (target_w c) (target_h c)))
      (scale_w c) (scale_h c) (left c) (right c) (top c) (bottom c).

Lemma Update_geometry `{FFmpeg} c sw sh tw th fmt :
  geometry_ok c -> dims_ok sw sh tw th -> geometry_ok (snd (Update c sw sh tw th fmt)).
Proof.
  intros Hc Hd. unfold Update. case_if; [done |]. destruct (sws_getContext _ _ _ _ _); cbn [negb snd]; intros _;
    split; try exact Hd; cbn; by destruct (letterbox sw sh tw th).
Qed.

Definition in_rect (x y : Z) (r : Rect) : bool :=
  (rx r <=? x) && (x <? rx r + rw r) && (ry r <=? y) && (y <? ry r + rh r).

(** The rectangles painted by a conversion contain the pixel once. *)
Definition times_painted (c : FrameFormattingContext) (x y : Z) : nat :=
  length (List.filter (in_rect x y) (roi_rect c :: grey_rects c)).

(** The rectangles of a conversion lie in the frame. *)
Lemma rects_inside_frame c :
  geometry_ok c -> is_initialized c = true ->
  inside_frame c (roi_rect c) = true /\ forallb (inside_frame c) (grey_rects c) = true.
Proof.
  intros Hg Hi. destruct (Hg Hi) as [Hd Hl]. pose proof (letterbox_fits _ _ _ _ Hd) as Hf. rewrite Hl in Hf.
  destruct Hf as [F1 F2 F3 F4 F5 F6 F7 F8 F9]. cbn [lb_left lb_right lb_top lb_bottom lb_scale_w lb_scale_h lb_need_resize] in *.
  split.
  - unfold inside_frame, rect_inside, roi_rect. cbn [rx ry rw rh]. repeat (apply andb_true_iff; split); lia.
  - apply forallb_forall. intros r Hr. unfold grey_rects in Hr. destruct (need_resize c); [| done].
    rewrite !in_app_iff in Hr. unfold inside_frame, rect_inside.
    repeat case_if; cbn [In] in Hr; bool_to_prop; destruct_or! Hr; subst; cbn [rx ry rw rh]; try done;
      repeat (apply andb_true_iff; split); lia.
Qed.

(** The letterbox tiles the model's frame.  After any successful [Update],
    for every source below 2^24 pixels a side and every model up to 8192, the
    rectangle the image is scaled into and the grey bands all lie inside the
    frame, and each pixel of the frame is painted exactly once. *)
Theorem letterbox_tiles_frame c :
  geometry_ok c -> is_initialized c = true ->
  inside_frame c (roi_rect c) = true /\ forallb (inside_frame c) (grey_rects c) = true /\
  forall x y, 0 <= x < target_w c -> 0 <= y < target_h c -> times_painted c x y = 1%nat.
Proof.
  intros Hg Hi. destruct (Hg Hi) as [Hd Hl]. pose proof (letterbox_fits _ _ _ _ Hd) as Hf. rewrite Hl in Hf.
  destruct Hf as [F1 F2 F3 F4 F5 F6 F7 F8 F9]. cbn [lb_left lb_right lb_top lb_bottom lb_scale_w lb_scale_h lb_need_resize] in *.
  destruct (rects_inside_frame c Hg Hi) as [R1 R2]. split; [exact R1 |]. split; [exact R2 |].
  intros x y Hx Hy. unfold times_painted, grey_rects, roi_rect.
  destruct (need_resize c).
  - repeat case_if; bool_to_prop; cbn [app List.filter];
        repeat (case_if; cbn [length List.filter]); try done; exfalso; unfold in_rect in *; cbn [rx ry rw rh] in *; bool_to_prop;
        repeat match goal with H : _ && _ = false |- _ => apply andb_false_iff in H end; lia.
  - destruct (F9 eq_refl) as (E1 & E2 & E3 & E4). cbn [List.filter].
      assert (in_rect x y (mkRect (left c) (top c) (scale_w c) (scale_h c)) = true) as ->; [| done].
      unfold in_rect. cbn [rx ry rw rh]. repeat (apply andb_true_iff; split); lia.
Qed.

(** A conversion of an initialised context never raises an OpenCV exception. *)
Lemma Convert_no_exception `{FFmpeg} c frame cap gen ph fresh :
  geometry_ok c -> Convert c frame cap gen ph fresh <> None.
Proof.
  intros Hg. unfold Convert. destruct (is_initialized c) eqn:Hi; [| done]. case_if; [done |]. clear E.
  destruct (Hg Hi) as [Hd Hl]. pose proof (letterbox_fits _ _ _ _ Hd) as Hf. rewrite Hl in Hf.
  set (c1 := match pool_container c with None => InitPool c 10 | Some _ => c end).
  assert (forall p b s, inside_frame (with_images c1 p b s) (roi_rect (with_images c1 p b s)) = true /\
                        forallb (inside_frame (with_images c1 p b s)) (grey_rects (with_images c1 p b s)) = true) as Hin.
  { intros p b s. assert (inside_frame (with_images c1 p b s) (roi_rect (with_images c1 p b s)) = inside_frame c (roi_rect c)) as ->
      by (unfold c1; by destruct (pool_container c)).
    assert (inside_frame (with_images c1 p b s) = inside_frame c) as -> by (unfold c1; by destruct (pool_container c)).
    assert (grey_rects (with_images c1 p b s) = grey_rects c) as -> by (unfold c1; by destruct (pool_container c)).
    by apply rects_inside_frame. }
  destruct gen.
  - destruct (pool_container c1) as [p |]; [| done]. destruct (acquire _ _ _) as [b p'].
    destruct (Hin (Some p') (shared_input_blob c1) (save_snapshot_mat c1)) as [H1 H2].
    change (with_images c1 (Some p') (shared_input_blob c1) (save_snapshot_mat c1)) with (with_pool c1 (Some p')) in *.
    rewrite H1. cbn [negb]. case_if; [done |]. rewrite H2. cbn [negb]. by case_if.
  - destruct cap; [| done]. match goal with |- context [with_images c1 ?p ?b ?s] => destruct (Hin p b s) as [H1 H2] end.
    rewrite H1. cbn [negb]. case_if; [done |]. by rewrite H2.
Qed.

(** ** The buffer pool

    A world is a context, the references its consumers hold, and the next
    identity of a new buffer. *)

Record World := mkWorld { ctx : FrameFormattingContext; holders : list RawBuffer; next_id : nat }.

Definition live_ids (c : FrameFormattingContext) (hs : list RawBuffer) : list nat :=
  match shared_input_blob c with Some b => [buf_id b] | None => [] end ++ map buf_id hs.

(** A reference is dropped; the last one runs the deleter. *)
Definition drop_reference (c : FrameFormattingContext) (hs : list RawBuffer) (b : RawBuffer) : FrameFormattingContext :=
  if bool_decide (buf_id b ∈ live_ids c hs) then c
  else with_pool c ((fun p => release p b) <$> pool_container c).

(** The blob the context held before, if it holds another one now. *)
Definition replaced (c c' : FrameFormattingContext) : option RawBuffer :=
  if bool_decide (shared_input_blob c' = shared_input_blob c) then None else shared_input_blob c.

Inductive world_step `{FFmpeg} : World -> World -> Prop :=
| ws_update c hs n sw sh tw th fmt :
    world_step (mkWorld c hs n) (mkWorld (snd (Update c sw sh tw th fmt)) hs n)
| ws_convert c hs n frame cap gen ph ok c' :
    Convert c frame cap gen ph n = Some (ok, c') ->
    world_step (mkWorld c hs n)
      (mkWorld (match replaced c c' with Some b => drop_reference c' hs b | None => c' end) hs (S n))
| ws_take c hs n b : shared_input_blob c = Some b -> world_step (mkWorld c hs n) (mkWorld c (b :: hs) n)
| ws_drop c hs1 hs2 n b :
    world_step (mkWorld c (hs1 ++ b :: hs2) n) (mkWorld (drop_reference c (hs1 ++ hs2) b) (hs1 ++ hs2) n).

Definition pool_ids (c : FrameFormattingContext) : list nat :=
  match pool_container c with Some p => map buf_id (pool p) | None => [] end.

Record world_ok (w : World) : Prop := {
  wk_nodup : NoDup (pool_ids (ctx w));
  wk_fresh : Forall (fun i => i < next_id w)%nat (pool_ids (ctx w) ++ live_ids (ctx w) (holders w));
  wk_apart : forall i, i ∈ pool_ids (ctx w) -> i ∈ live_ids (ctx w) (holders w) -> False;
  wk_limit : forall p, pool_container (ctx w) = Some p -> max_size p = 10%nat /\ (length (pool p) <= 10)%nat
}.

(** The container a conversion works with. *)
Definition pool_of (c : FrameFormattingContext) : PoolContainer :=
  match pool_container c with Some p => p | None => mkPool [] 10 end.

(** What a conversion can do to the pool and the blob. *)
Lemma Convert_view `{FFmpeg} c frame cap gen ph fresh ok c' :
  Convert c frame cap gen ph fresh = Some (ok, c') ->
  let '(b, p') := acquire (pool_of c) (av_image_get_buffer_size (target_w c) (target_h c)) fresh in
  c' = c \/
  (pool_container c' = Some (pool_of c) /\ (shared_input_blob c' = shared_input_blob c \/ shared_input_blob c' = None)) \/
  (pool_container c' = Some p' /\ (shared_input_blob c' = shared_input_blob c \/ shared_input_blob c' = Some b)).
Proof.
  unfold Convert. case_if; [intros [= <- <-]; destruct (acquire _ _ _); by left |].
  set (c1 := match pool_container c with None => InitPool c 10 | Some _ => c end).
  assert (pool_container c1 = Some (pool_of c)) as Hp by (unfold c1, pool_of; by destruct (pool_container c) eqn:E').
  assert (shared_input_blob c1 = shared_input_blob c) as Hb by (unfold c1; by destruct (pool_container c)).
  assert (target_w c1 = target_w c /\ target_h c1 = target_h c) as [-> ->] by (unfold c1; by destruct (pool_container c)).
  clearbody c1. destruct gen.
  - rewrite Hp. destruct (acquire _ _ _) as [b p']. intros Heq. right. right.
    repeat case_if; simplify_eq; cbn; (split; [done |]); auto.
  - destruct (acquire _ _ _) as [b p']. intros Heq. right. left.
    repeat case_if; simplify_eq; cbn; (split; [done |]); auto.
Qed.

Section PoolInvariant.
Context `{FFmpeg}.

Lemma acquire_spec c hs n r :
  world_ok (mkWorld c hs n) ->
  let '(b, p') := acquire (pool_of c) r n in
  NoDup (map buf_id (pool p')) /\ (forall i, i ∈ map buf_id (pool p') -> i ∈ pool_ids c) /\
  (buf_id b ∉ map buf_id (pool p')) /\ (buf_id b < S n)%nat /\ (buf_id b ∉ live_ids c hs) /\ r <= buf_size b /\
  max_size p' = 10%nat /\ (length (pool p') <= 10)%nat.
Proof.
  intros [H1 H2 H3 H4]. cbn [ctx holders next_id] in *. unfold acquire, pool_of, pool_ids in *.
  destruct (pool_container c) as [p |] eqn:Ep.
  - destruct (H4 p eq_refl) as [Hm Hl]. destruct (pool p) as [| b rest] eqn:Epl; cbn [map] in *.
    + split_and!; cbn; try rewrite Epl; try done; try lia; try apply not_elem_of_nil.
      intros Hin. rewrite Forall_forall in H2. specialize (H2 n). cbn in H2. pose proof (H2 Hin). lia.
    + apply NoDup_cons in H1 as [Hb Hnd]. split_and!; cbn [buf_id buf_size pool max_size]; try done; try lia.
      * intros i Hi. by right.
      * rewrite Forall_forall in H2. assert (buf_id b < n)%nat; [| lia]. apply H2. left.
      * intros Hin. apply (H3 (buf_id b)); [left | done].
      * cbn in Hl. lia.
  - split_and!; cbn; try done; try lia; try apply NoDup_nil_2; try apply not_elem_of_nil.
    + intros Hin. rewrite Forall_forall in H2. specialize (H2 n). cbn in H2. pose proof (H2 Hin). lia.
Qed.

Lemma drop_ok c hs n b :
  world_ok (mkWorld c hs n) -> buf_id b ∉ pool_ids c -> (buf_id b < n)%nat ->
  world_ok (mkWorld (drop_reference c hs b) hs n).
Proof.
  intros [H1 H2 H3 H4] Hb Hn. unfold drop_reference. case_bool_decide as Hlive; [by split |].
  cbn [ctx holders next_id] in *. unfold pool_ids in *.
  destruct (pool_container c) as [p |] eqn:Ep; cbn [fmap option_fmap option_map]; [| by split; cbn; unfold pool_ids; cbn].
  destruct (H4 p eq_refl) as [Hm Hl]. unfold release. rewrite Hm.
  destruct (Nat.ltb_spec (length (pool p)) 10) as [Hlt | Hge].
  - split; cbn [ctx holders next_id pool_ids with_pool pool_container pool max_size].
    + rewrite map_app. cbn. apply NoDup_app. split; [done |]. split; [| apply NoDup_singleton].
      intros i Hi Hi'. apply list_elem_of_singleton in Hi' as ->. done.
    + apply Forall_app in H2 as [H2 H2']. rewrite map_app. apply Forall_app. split; [| done].
      apply Forall_app. split; [done |]. cbn. by constructor.
    + intros i Hi Hi'. rewrite map_app in Hi. apply elem_of_app in Hi as [Hi | Hi]; [by apply (H3 i) |].
      cbn in Hi. apply list_elem_of_singleton in Hi as ->. done.
    + intros p' [= <-]. cbn. rewrite length_app. cbn. split; [done | lia].
  - split; cbn [ctx holders next_id pool_ids with_pool pool_container]; done.
Qed.

(** The old blob of a conversion is neither pooled nor new. *)
Lemma old_blob c hs n b :
  world_ok (mkWorld c hs n) -> shared_input_blob c = Some b -> (buf_id b ∉ pool_ids c) /\ (buf_id b < n)%nat.
Proof.
  intros [H1 H2 H3 H4] Hb. cbn [ctx holders next_id] in *.
  assert (buf_id b ∈ live_ids c hs) as Hin by (unfold live_ids; rewrite Hb; left). split.
  - intros Hp. by apply (H3 (buf_id b)).
  - rewrite Forall_forall in H2. apply H2. apply elem_of_app. by right.
Qed.

(** [world_ok] looks at the container and at the live identities only. *)
Lemma world_ok_weaken c c' hs n p :
  world_ok (mkWorld c hs n) -> pool_container c' = Some p -> NoDup (map buf_id (pool p)) ->
  (forall i, i ∈ map buf_id (pool p) -> i ∈ pool_ids c) -> max_size p = 10%nat -> (length (pool p) <= 10)%nat ->
  (forall i, i ∈ live_ids c' hs -> i ∈ live_ids c hs \/ ((i < S n)%nat /\ i ∉ map buf_id (pool p))) ->
  world_ok (mkWorld c' hs (S n)).
Proof.
  intros [H1 H2 H3 H4] Hp Hnd Hsub Hm Hl Hlive. cbn [ctx holders next_id] in *.
  rewrite Forall_forall in H2. split; cbn [ctx holders next_id]; unfold pool_ids; rewrite Hp.
  - done.
  - apply Forall_forall. intros i Hi. apply elem_of_app in Hi as [Hi | Hi].
    + apply Nat.lt_lt_succ_r, H2, elem_of_app. left. by apply Hsub.
    + destruct (Hlive i Hi) as [Hi' | [? _]]; [| done]. apply Nat.lt_lt_succ_r, H2, elem_of_app. by right.
  - intros i Hi Hi'. destruct (Hlive i Hi') as [Hl' | [_ ?]]; [| done]. apply (H3 i); [by apply Hsub | done].
  - by intros p' [= <-].
Qed.

Lemma live_same c c' hs i :
  shared_input_blob c' = shared_input_blob c \/ shared_input_blob c' = None -> i ∈ live_ids c' hs -> i ∈ live_ids c hs.
Proof. unfold live_ids. intros [-> | ->] Hi; [done |]. cbn in Hi. apply elem_of_app. by right. Qed.

Lemma convert_ok c hs n frame cap gen ph ok c' :
  world_ok (mkWorld c hs n) -> Convert c frame cap gen ph n = Some (ok, c') ->
  world_ok (mkWorld c' hs (S n)) /\
  (forall b, shared_input_blob c = Some b -> (buf_id b ∉ pool_ids c') /\ (buf_id b < S n)%nat).
Proof.
  intros Hok Hc. pose proof (Convert_view c frame cap gen ph n ok c' Hc) as Hv.
  pose proof (acquire_spec c hs n (av_image_get_buffer_size (target_w c) (target_h c)) Hok) as Ha.
  destruct (acquire _ _ _) as [b p']. destruct Ha as (A1 & A2 & A3 & A4 & A5 & _ & A6 & A7).
  assert (world_ok (mkWorld c' hs (S n)) /\ forall i, i ∈ pool_ids c' -> i ∈ pool_ids c) as [Hw Hsub].
  { destruct Hv as [-> | [[Hp Hb] | [Hp Hb]]].
    - split; [| done]. destruct Hok as [H1 H2 H3 H4]. split; try done. cbn [ctx holders next_id] in *.
      eapply Forall_impl; [exact H2 |]. cbn. lia.
    - assert (map buf_id (pool (pool_of c)) = pool_ids c) as Hids by (unfold pool_of, pool_ids; by destruct (pool_container c)).
      split; [| unfold pool_ids at 1; rewrite Hp; by rewrite Hids]. destruct Hok as [H1 H2 H3 H4].
      apply (world_ok_weaken c c' hs n (pool_of c)); try done; cbn [ctx holders next_id] in *.
      + by rewrite Hids.
      + by rewrite Hids.
      + unfold pool_of. destruct (pool_container c) eqn:Ep; [by apply H4 | done].
      + unfold pool_of. destruct (pool_container c) eqn:Ep; [by apply H4 | cbn; lia].
      + intros i Hi. left. by eapply live_same.
    - split; [| unfold pool_ids at 1; by rewrite Hp].
      apply (world_ok_weaken c c' hs n p'); try done. intros i Hi. destruct Hb as [Hb | Hb]; [left; eapply live_same; eauto |].
      unfold live_ids in Hi. rewrite Hb in Hi. apply elem_of_cons in Hi as [-> | Hi]; [right; done |].
      left. unfold live_ids. apply elem_of_app. by right. }
  split; [done |]. intros b' Hb'. destruct (old_blob c hs n b' Hok Hb') as [O1 O2]. split; [| lia]. intros Hin. by apply O1, Hsub.
Qed.

Lemma update_ok c hs n sw sh tw th fmt :
  world_ok (mkWorld c hs n) -> world_ok (mkWorld (snd (Update c sw sh tw th fmt)) hs n).
Proof.
  intros Hok. set (c' := snd _). assert (live_ids c' hs = live_ids c hs) as Hl.
  { unfold c', Update, live_ids. case_if; [done |]. destruct (pool_container c); destruct (IsResolutionChanged _ _ _ _ _);
      destruct (sws_getContext _ _ _ _ _); done. }
  assert (c' = c \/ pool_container c' = Some (pool_of c) \/ pool_container c' = Some (mkPool [] (max_size (pool_of c)))) as Hp.
  { unfold c', Update, pool_of. case_if; [by left |]. right. destruct (pool_container c) eqn:Ep; destruct (IsResolutionChanged _ _ _ _ _);
      destruct (sws_getContext _ _ _ _ _); cbn; rewrite ?Ep; auto. }
  destruct Hok as [H1 H2 H3 H4]. cbn [ctx holders next_id] in *.
  assert (max_size (pool_of c) = 10%nat /\ (length (pool (pool_of c)) <= 10)%nat) as [Hm Hlen].
  { unfold pool_of. destruct (pool_container c) eqn:Ep; [by apply H4 | cbn; lia]. }
  assert (map buf_id (pool (pool_of c)) = pool_ids c) as Hids by (unfold pool_of, pool_ids; by destruct (pool_container c)).
  destruct Hp as [-> | [Hp | Hp]]; [by split | |]; split; cbn [ctx holders next_id]; rewrite ?Hl; unfold pool_ids; rewrite ?Hp, ?Hids;
    cbn [pool map].
  - done.
  - done.
  - done.
  - intros p [= <-]. done.
  - constructor.
  - apply Forall_app in H2 as [_ H2]. done.
  - intros i Hi. by apply elem_of_nil in Hi.
  - intros p [= <-]. split; [done | cbn; lia].
Qed.

Lemma world_step_ok w w' : world_step w w' -> world_ok w -> world_ok w'.
Proof.
  intros Hs Hok. destruct Hs as [c hs n sw sh tw th fmt | c hs n frame cap gen ph ok c' Hc | c hs n b Hb | c hs1 hs2 n b].
  - by apply update_ok.
  - destruct (convert_ok _ _ _ _ _ _ _ _ _ Hok Hc) as [Hw Hold]. unfold replaced. case_bool_decide; [done |].
    destruct (shared_input_blob c) as [b |]; [| done]. destruct (Hold b eq_refl). by apply drop_ok.
  - destruct (old_blob c hs n b Hok Hb) as [O1 O2]. destruct Hok as [H1 H2 H3 H4]. cbn [ctx holders next_id] in *.
    assert (forall i, i ∈ live_ids c (b :: hs) -> i ∈ live_ids c hs) as Hsub.
    { unfold live_ids. rewrite Hb. cbn. intros i. rewrite !elem_of_cons. tauto. }
    split; cbn [ctx holders next_id]; try done.
    + apply Forall_forall. rewrite Forall_forall in H2. intros i Hi. apply H2. rewrite elem_of_app in *. destruct Hi as [Hi | Hi%Hsub]; auto.
    + intros i Hi Hi'. by apply (H3 i), Hsub.
  - destruct Hok as [H1 H2 H3 H4]. cbn [ctx holders next_id] in *. rewrite Forall_forall in H2.
    assert (buf_id b ∈ live_ids c (hs1 ++ b :: hs2)) as Hin.
    { unfold live_ids. rewrite !elem_of_app. right. apply list_elem_of_In, in_map, in_elt. }
    assert (forall i, i ∈ live_ids c (hs1 ++ hs2) -> i ∈ live_ids c (hs1 ++ b :: hs2)) as Hsub.
    { unfold live_ids. intros i. rewrite !map_app, !elem_of_app. cbn. rewrite elem_of_cons. tauto. }
    apply drop_ok.
    + split; cbn [ctx holders next_id]; try done.
      * apply Forall_forall. intros i Hi. apply H2. rewrite elem_of_app in *. destruct Hi as [Hi | Hi%Hsub]; auto.
      * intros i Hi Hi'. by apply (H3 i), Hsub.
    + intros Hp. by apply (H3 (buf_id b)).
    + apply H2, elem_of_app. by right.
Qed.

Lemma world_steps_ok w w' : rtc world_step w w' -> world_ok w -> world_ok w'.
Proof. induction 1; [done |]. intros. by eapply IHrtc, world_step_ok. Qed.
End PoolInvariant.

(** C38: a frame is never written into a buffer that a consumer still reads.  In
    every world reached from a new context by updates, conversions, and consumers
    taking and dropping blobs, the buffer the next conversion writes is neither
    the context's blob nor one a consumer holds, is large enough for the frame,
    and at most ten buffers wait in the pool. *)
Theorem blobs_never_shared `{FFmpeg} w :
  rtc world_step (mkWorld FrameFormattingContext_make [] 0) w ->
  let required := av_image_get_buffer_size (target_w (ctx w)) (target_h (ctx w)) in
  let b := fst (acquire (pool_of (ctx w)) required (next_id w)) in
  (buf_id b ∉ live_ids (ctx w) (holders w)) /\ required <= buf_size b /\ (length (pool (pool_of (ctx w))) <= 10)%nat.
Proof.
  intros Hr required. assert (world_ok w) as Hok.
  { eapply world_steps_ok; [exact Hr |]. split; cbn; try constructor; try done. intros i Hi. by apply elem_of_nil in Hi. }
  destruct w as [c hs n]. pose proof (acquire_spec c hs n required Hok) as Ha. cbn [ctx holders next_id].
  destruct (acquire _ _ _) as [b p']. destruct Ha as (_ & _ & _ & _ & A5 & A6 & _). split; [exact A5 |]. split; [exact A6 |].
  unfold pool_of. destruct (pool_container c) as [p |] eqn:Ep; [| cbn; lia]. exact (proj2 (wk_limit _ Hok p Ep)).
Qed.

(** A frame of 1920 by 1080 for a model of 640 by 640, and a consumer that keeps
    the first blob. *)
#[local] Instance demo_ffmpeg : FFmpeg := {
  av_image_get_buffer_size w h := (w * 3 + 31) / 32 * 32 * h;
  sws_getContext _ _ _ _ _ := true
}.

Definition demo_context : FrameFormattingContext :=
  snd (Update FrameFormattingContext_make 1920 1080 640 640 0).

Lemma letterbox_tiles_frame_witness :
  roi_rect demo_context = mkRect 0 140 640 360 /\
  times_painted demo_context 0 0 = 1%nat /\ times_painted demo_context 639 320 = 1%nat.
Proof.
  split; [vm_compute; reflexivity |].
  destruct (letterbox_tiles_frame demo_context) as (_ & _ & H).
  - apply Update_geometry; [discriminate | unfold dims_ok; lia].
  - vm_compute. reflexivity.
  - assert (target_w demo_context = 640 /\ target_h demo_context = 640) as [Ew Eh] by (vm_compute; split; reflexivity).
    rewrite Ew, Eh in H. split; apply H; lia.
Defined.

Definition demo_converted : FrameFormattingContext :=
  match Convert demo_context true false true 640 0 with Some (_, c) => c | None => demo_context end.

Definition demo_world : World := mkWorld demo_converted [mkBuffer 0 1228800] 1.

Lemma blobs_never_shared_witness :
  buf_id (fst (acquire (pool_of (ctx demo_world)) 1228800 (next_id demo_world))) = 1%nat /\
  0%nat ∈ live_ids (ctx demo_world) (holders demo_world) /\
  (buf_id (fst (acquire (pool_of (ctx demo_world)) 1228800 (next_id demo_world))) ∉ live_ids (ctx demo_world) (holders demo_world)).
Proof.
  split; [vm_compute; reflexivity |]. split; [apply (bool_decide_unpack _); vm_compute; exact I |].
  assert (rtc world_step (mkWorld FrameFormattingContext_make [] 0) demo_world) as Hr.
  { eapply rtc_l; [exact (ws_update FrameFormattingContext_make [] 0 1920 1080 640 640 0) |].
    eapply rtc_l; [eapply (ws_convert _ [] 0 true false true 640 true demo_converted); vm_compute; reflexivity |].
    eapply rtc_l; [eapply (ws_take _ [] 1 (mkBuffer 0 1228800)); vm_compute; reflexivity |].
    apply rtc_refl. }
  exact (proj1 (blobs_never_shared demo_world Hr)).
Defined.
