(* ===== verification/EngineClient.v ===== *)
(** * Engine clients

    [BasicLibs/core/types/ClassChecker.h], [Management/worker/include/EngineClient.h]
    and [src/EngineClient.cpp], [VisionCommon/include/SwsContextManager.h] and
    [src/SwsContextManager.cpp]: what a camera's inference thread keeps per engine:
    its identifiers, the classes it looks for and the preprocessing contexts by
    resolution. *)

From Stdlib Require Import SpecFloat String.
From stdpp Require Import gmap.
From S2P Require Import Prelude StringUtils Json InferObject EngineTypes SafeQueue LoadBalancer Letterbox.
Open Scope Z_scope.
Open Scope list_scope.

(** ** Class names *)

Definition CLASS_TAG_NAME_NOT_SET : string := "NONE".

Record ClassChecker := mkChecker {
  engine_id_ : Z;
  id_to_name_ : gmap Z string;
  name_to_id_ : gmap string Z;
  classify_activate_ : bool;
  class_num_ : Z
}.

(** The members of [names] until the first exception. *)
Fixpoint read_names (m : list (string * json)) (c : ClassChecker) : bool * ClassChecker :=
  match m with
  | [] => (true, c)
  | (key, v) :: m =>
      match stoi key, get_string v with
      | Some id, Some name =>
          read_names m (mkChecker (engine_id_ c) (<[id := name]> (id_to_name_ c))
                          (<[ToUpperCase name := id]> (name_to_id_ c)) (classify_activate_ c) (class_num_ c))
      | _, _ => (false, c)
      end
  end.

(** [file]: the parsed file, if it can be opened and parsed. *)
Definition Initialize (file : option json) (c : ClassChecker) : bool * ClassChecker :=
  match file with
  | None => (false, c)
  | Some root =>
      match member root "classify_activate" ≫= get_bool with
      | None => (false, c)
      | Some active =>
          let c := mkChecker (engine_id_ c) (id_to_name_ c) (name_to_id_ c) active (class_num_ c) in
          if negb active then (true, c)
          else match member root "num_class" ≫= get_int with
               | None => (false, c)
               | Some n =>
                   let c := mkChecker (engine_id_ c) (id_to_name_ c) (name_to_id_ c) active n in
                   match member root "names" with
                   | Some (JObject m) => read_names m c
                   | _ => (false, c)
                   end
               end
      end
  end.

(** The constructor; its [assert] is not compiled in. *)
Definition ClassChecker_make (file : option json) (engine_id : Z) : ClassChecker :=
  snd (Initialize file (mkChecker engine_id ∅ ∅ false 0)).

Definition GetClassEqualChecker (c : ClassChecker) (id : Z) (tag : string) : bool :=
  match name_to_id_ c !! ToUpperCase tag with Some i => i =? id | None => false end.

Definition GetClassIDToNameConvertor (c : ClassChecker) (id : Z) : string :=
  default CLASS_TAG_NAME_NOT_SET (id_to_name_ c !! id).

(** ** Clients *)

(** [CameraColorMode] of [EngineActiveContext]. *)
Inductive CameraColorMode := RGB | IR | UNKNOWN.

Record EngineClient := mkClient {
  magic_name : string;
  subscribe_id : Z;
  engine_id : Z;
  input_width : Z;
  input_height : Z;
  request_meta : InputLayerWrapper;
  is_active_condition : CameraColorMode -> bool;
  target_class_ids : gmap string Z
}.

(** The first class index the checker accepts for the name. *)
Definition find_class (c : ClassChecker) (upper_target : string) : option Z :=
  option_map (fun i => i32 (Z.of_nat i))
    (find (fun i => GetClassEqualChecker c (i32 (Z.of_nat i)) upper_target) (seq 0 (Z.to_nat (u64 (class_num_ c))))).

Definition map_classes (c : ClassChecker) (target_class_names : list string) : gmap string Z :=
  foldl (fun ids name => let upper_target := ToUpperCase name in
                         match find_class c upper_target with
                         | Some i => <[upper_target := i]> ids
                         | None => ids
                         end) ∅ target_class_names.

(** [classes_file]: the class file of a profile. *)
Definition EngineClient_Init (classes_file : string -> option json) (my_unit_id : Z) (lb : EngineLoadBalancer)
    (target_magic_name : string) (magic_code : Z) (target_class_names : list string)
    (condition : CameraColorMode -> bool) : option EngineClient :=
  let id := GetAvailableInferEngineID lb (RequireMagic target_magic_name) in
  if id =? INFER_ENGINE_ID_NOT_SET then None
  else match GetEngineProfileTargetInferEngineID lb id with
       | None => None
       | Some profile =>
           let w := i32 (input_image_w profile) in
           let h := i32 (input_image_h profile) in
           let sid := GetInferenceRequesterID_magic my_unit_id (model_major_type profile) (model_minor_type profile) magic_code in
           let meta_data := mkMeta sid id (u64 w) (u64 h) 0 in
           let class_checker_inst := ClassChecker_make (classes_file (classes_yml_path profile)) (uuid profile) in
           Some (mkClient target_magic_name sid id w h
                   (mkInput meta_data (CreateRequirementsFromSingle (RequireUUID id)) None)
                   condition (map_classes class_checker_inst target_class_names))
       end.

(** [blob_bytes]: the bytes in the shared buffer. *)
Definition BuildRequest (blob_bytes : RawBuffer -> list Z) (c : EngineClient) (ctx : FrameFormattingContext)
    (correlation : Z) : InputLayerWrapper :=
  let m := in_meta_data (request_meta c) in
  mkInput (mkMeta (requester_unit_id m) (requestee_engine_uuid m) (request_image_pixel_w m) (request_image_pixel_h m) correlation)
    (requirements (request_meta c))
    (if IsReadyForInference ctx then blob_bytes <$> shared_input_blob ctx else None).

Definition GetClassID (c : EngineClient) (class_name : string) : Z :=
  default INFER_CLASS_ID_NOT_SET (target_class_ids c !! ToUpperCase class_name).

(** ** Contexts by resolution *)

Record SwsContextManager := mkContexts {
  contexts : gmap (Z * Z) FrameFormattingContext;
  current_src_w : Z;
  current_src_h : Z
}.

Definition SwsContextManager_make : SwsContextManager := mkContexts ∅ 0 0.
Definition ClearAll (m : SwsContextManager) : SwsContextManager := mkContexts ∅ 0 0.

(** The context and the table that holds it; a new source size clears the table. *)
Definition GetContext (m : SwsContextManager) (w h : Z) (frame_w frame_h : Z) : FrameFormattingContext * SwsContextManager :=
  let m := if negb (current_src_w m =? frame_w) || negb (current_src_h m =? frame_h)
           then mkContexts (contexts (ClearAll m)) frame_w frame_h else m in
  match contexts m !! (w, h) with
  | Some c => (c, m)
  | None => (FrameFormattingContext_make,
             mkContexts (<[(w, h) := FrameFormattingContext_make]> (contexts m)) (current_src_w m) (current_src_h m))
  end.

(** A write through the pointer. *)
Definition put_context (m : SwsContextManager) (w h : Z) (c : FrameFormattingContext) : SwsContextManager :=
  mkContexts (<[(w, h) := c]> (contexts m)) (current_src_w m) (current_src_h m).

(** ** Lemmas *)

Lemma find_class_spec c upper i :
  0 <= class_num_ c < 2 ^ 31 -> find_class c upper = Some i ->
  0 <= i < class_num_ c /\ name_to_id_ c !! ToUpperCase upper = Some i.
Proof.
  intros Hn. unfold find_class. rewrite (wrap_u_id 64) by lia.
  destruct (find _ _) as [k |] eqn:E; [| done]. cbn. intros [= <-].
  apply find_some in E as [Hk%in_seq Hc]. rewrite i32_id in * by (unfold in_i32; lia).
  split; [lia |]. unfold GetClassEqualChecker in Hc. destruct (name_to_id_ c !! _) as [j |]; [| done].
  bool_to_prop. by subst.
Qed.

Lemma map_classes_spec c names :
  0 <= class_num_ c < 2 ^ 31 ->
  forall name i, map_classes c names !! name = Some i ->
    0 <= i < class_num_ c /\ name_to_id_ c !! name = Some i /\ name ∈ map ToUpperCase names.
Proof.
  intros Hn. unfold map_classes.
  enough (forall ids : gmap string Z, (forall name i, ids !! name = Some i -> 0 <= i < class_num_ c /\ name_to_id_ c !! name = Some i) ->
    forall name i, foldl (fun ids name => let upper_target := ToUpperCase name in
      match find_class c upper_target with Some i => <[upper_target := i]> ids | None => ids end) ids names !! name = Some i ->
    0 <= i < class_num_ c /\ name_to_id_ c !! name = Some i /\ (name ∈ map ToUpperCase names \/ ids !! name = Some i)) as H.
  { intros name i Hl. destruct (H ∅ ltac:(done) name i Hl) as (? & ? & [? | ?]); done. }
  induction names as [| nm names IH]; intros ids Hids name i Hl; cbn in *.
  - split_and!; try apply (Hids name i Hl). by right.
  - destruct (find_class c (ToUpperCase nm)) as [k |] eqn:E.
    + apply find_class_spec in E as [Hk Hm]; [| done]. rewrite ToUpperCase_idemp in Hm.
      destruct (IH (<[ToUpperCase nm := k]> ids)) with (name := name) (i := i) as (H1 & H2 & H3).
      * intros n j. destruct (decide (n = ToUpperCase nm)) as [-> |].
        -- rewrite lookup_insert_eq. intros [= <-]. done.
        -- rewrite lookup_insert_ne by done. apply Hids.
      * exact Hl.
      * split_and!; try apply H1; try done. destruct H3 as [H3 | H3]; [left; by right |].
        destruct (decide (name = ToUpperCase nm)) as [-> |]; [left; left |]. right. by rewrite lookup_insert_ne in H3.
    + destruct (IH ids Hids name i Hl) as (H1 & H2 & [H3 | H3]); split_and!; try apply H1; try done; [left; by right | by right].
Qed.
