(* ===== verification/DetectorUnit.v ===== *)
(** * The detector unit of a camera

    [Main/DETECTOR/include/RtspDetectorUnit.h] and [src/RtspDetectorUnit.cpp].  Four
    threads pass items through bounded queues: the inference thread turns frames
    into requests, the response thread turns responses into tracks, the event
    thread turns tracks into events, the IO worker saves their images ([FrameStore]).
    One iteration of each loop is a function on the unit's state; it takes the
    clock readings and the results of libraries it meets as arguments, and returns
    [None] where the process ends (an escaping exception, a null pointer) or the
    tracker's solver does not return.  Logs, metrics and profiles are left out. *)

From Stdlib Require Import SpecFloat String Ascii.
From stdpp Require Import gmap pretty.
From S2P Require Import Prelude Float32 InferObject Geometry History Schedule Checkers Kalman Sort StringUtils Json SettingData EngineTypes SafeQueue SafeThread LoadBalancer Letterbox EngineClient.
Open Scope Z_scope.
Open Scope list_scope.

Definition MAGIC_DETECTION_ENGINE_NAME : string := "DetectionEngine".
Definition REINIT_THRESHOLD_COUNT : Z := 10.
Definition INFERENCE_WAIT_MS : Z := 5000.
Definition SERVER_IDENTIFIER_NOT_SET : Z := 0.

(** ** Data *)

(** A decoded frame; [av_id] tells frames apart. *)
Record AVFrame := mkFrame { av_width : Z; av_height : Z; av_format : Z; av_id : nat }.

Record EngineInflight := mkEngineInflight {
  ei_subscribe_id : Z;
  ei_input_width : Z;
  ei_input_height : Z;
  ei_target_class_ids : gmap string Z;
  ei_inference_style : ImageExpressStyle;
  ei_original_style : ImageExpressStyle;
  ei_magic_name : string
}.

Record InflightItem := mkInflight {
  if_frame : AVFrame;
  if_engines : list EngineInflight;
  if_correlation_id : Z;                (* uint64_t *)
  if_inference_wait_ms : Z
}.

Record EventItem := mkEventItem { ev_frame : AVFrame; ev_track_results : list InferObject }.

(** The image is the frame it shows. *)
Record IOWorkItem := mkIOWork { io_frame_path : string; io_image : AVFrame }.

(** The stable resolution and the count of frames in a row that differ from it. *)
Record Resolution := mkResolution_ { stable_frame_w_ : Z; stable_frame_h_ : Z; consecutive_mismatch_count_ : Z }.

Record Scheduling := mkScheduling {
  schedule_settings_ : list ScheduleInfo;
  is_schedule_updated_ : bool;
  scheduler_ : list Schedule
}.

Section Unit.
Context {K : Type} `{!OpenCV K} `{!FFmpeg}.

Record Tracking := mkTracking {
  trackers_ : gmap Z (SORTTracker K);
  tracker_seqs_ : gmap Z Z;             (* unsigned int *)
  class_id_person_ : Z;
  class_id_car_ : Z
}.

Record RtspDetectorUnit := mkUnit {
  id_ : Z;
  avframe_q_ : SafeQueue AVFrame;
  inflight_q_ : SafeQueue InflightItem;
  event_q_ : SafeQueue EventItem;
  io_work_queue_ : SafeQueue IOWorkItem;
  frame_count_ : Z;                     (* unsigned int *)
  resolution : Resolution;
  scheduling : Scheduling;
  tracking : Tracking;
  exclude_setting_ : Setting ExcludeCamSettingData;
  subscribe_ids_ : gset Z;
  socket_io_server_id_ : Z;
  detect_fps_limit_ : Z;
  realtime_fps_ : Z;
  is_initialized_service_ : bool
}.

Definition with_avframe_q u q := mkUnit (id_ u) q (inflight_q_ u) (event_q_ u) (io_work_queue_ u) (frame_count_ u)
  (resolution u) (scheduling u) (tracking u) (exclude_setting_ u) (subscribe_ids_ u) (socket_io_server_id_ u)
  (detect_fps_limit_ u) (realtime_fps_ u) (is_initialized_service_ u).
Definition with_inflight_q u q := mkUnit (id_ u) (avframe_q_ u) q (event_q_ u) (io_work_queue_ u) (frame_count_ u)
  (resolution u) (scheduling u) (tracking u) (exclude_setting_ u) (subscribe_ids_ u) (socket_io_server_id_ u)
  (detect_fps_limit_ u) (realtime_fps_ u) (is_initialized_service_ u).
Definition with_event_q u q := mkUnit (id_ u) (avframe_q_ u) (inflight_q_ u) q (io_work_queue_ u) (frame_count_ u)
  (resolution u) (scheduling u) (tracking u) (exclude_setting_ u) (subscribe_ids_ u) (socket_io_server_id_ u)
  (detect_fps_limit_ u) (realtime_fps_ u) (is_initialized_service_ u).
Definition with_io_work_queue u q := mkUnit (id_ u) (avframe_q_ u) (inflight_q_ u) (event_q_ u) q (frame_count_ u)
  (resolution u) (scheduling u) (tracking u) (exclude_setting_ u) (subscribe_ids_ u) (socket_io_server_id_ u)
  (detect_fps_limit_ u) (realtime_fps_ u) (is_initialized_service_ u).
Definition with_frame_count u n := mkUnit (id_ u) (avframe_q_ u) (inflight_q_ u) (event_q_ u) (io_work_queue_ u) n
  (resolution u) (scheduling u) (tracking u) (exclude_setting_ u) (subscribe_ids_ u) (socket_io_server_id_ u)
  (detect_fps_limit_ u) (realtime_fps_ u) (is_initialized_service_ u).
Definition with_resolution u r := mkUnit (id_ u) (avframe_q_ u) (inflight_q_ u) (event_q_ u) (io_work_queue_ u) (frame_count_ u)
  r (scheduling u) (tracking u) (exclude_setting_ u) (subscribe_ids_ u) (socket_io_server_id_ u)
  (detect_fps_limit_ u) (realtime_fps_ u) (is_initialized_service_ u).
Definition with_scheduling u s := mkUnit (id_ u) (avframe_q_ u) (inflight_q_ u) (event_q_ u) (io_work_queue_ u) (frame_count_ u)
  (resolution u) s (tracking u) (exclude_setting_ u) (subscribe_ids_ u) (socket_io_server_id_ u)
  (detect_fps_limit_ u) (realtime_fps_ u) (is_initialized_service_ u).
Definition with_tracking u t := mkUnit (id_ u) (avframe_q_ u) (inflight_q_ u) (event_q_ u) (io_work_queue_ u) (frame_count_ u)
  (resolution u) (scheduling u) t (exclude_setting_ u) (subscribe_ids_ u) (socket_io_server_id_ u)
  (detect_fps_limit_ u) (realtime_fps_ u) (is_initialized_service_ u).
Definition with_exclude u e := mkUnit (id_ u) (avframe_q_ u) (inflight_q_ u) (event_q_ u) (io_work_queue_ u) (frame_count_ u)
  (resolution u) (scheduling u) (tracking u) e (subscribe_ids_ u) (socket_io_server_id_ u)
  (detect_fps_limit_ u) (realtime_fps_ u) (is_initialized_service_ u).
Definition with_subscriptions u s := mkUnit (id_ u) (avframe_q_ u) (inflight_q_ u) (event_q_ u) (io_work_queue_ u) (frame_count_ u)
  (resolution u) (scheduling u) (tracking u) (exclude_setting_ u) s (socket_io_server_id_ u)
  (detect_fps_limit_ u) (realtime_fps_ u) (is_initialized_service_ u).
Definition with_service u server fps rt ok := mkUnit (id_ u) (avframe_q_ u) (inflight_q_ u) (event_q_ u) (io_work_queue_ u) (frame_count_ u)
  (resolution u) (scheduling u) (tracking u) (exclude_setting_ u) (subscribe_ids_ u) server fps rt ok.

(** The queues before [Init] are null pointers; nothing uses them before. *)
Definition RtspDetectorUnit_make (service_unit_id : Z) : RtspDetectorUnit :=
  mkUnit service_unit_id SafeQueue_make SafeQueue_make SafeQueue_make SafeQueue_make 0
    (mkResolution_ 0 0 0) (mkScheduling [] false [])
    (mkTracking ∅ ∅ INFER_CLASS_ID_NOT_SET INFER_CLASS_ID_NOT_SET)
    Setting_make ∅ SERVER_IDENTIFIER_NOT_SET 30 30 false.

(** ** Schedules added to every camera *)

Definition build_two_way_lines : ROI :=
  let q n := f32_lit n 4 in
  [[(f0, q 1); (f1, q 1)]; [(f0, q 2); (f1, q 2)]; [(f0, q 3); (f1, q 3)];
   [(q 1, f0); (q 1, f1)]; [(q 2, f0); (q 2, f1)]; [(q 3, f0); (q 3, f1)]].

Definition virtual_schedule (schedule_id : Z) (event : EventClass) : ScheduleInfo :=
  mkScheduleInfo schedule_id event 1 "00:00" (24 * 60) [1; 1; 1; 1; 1; 1; 1] [] [] build_two_way_lines [] [] 1 0.

Definition AddDebugVirtualLines_REMOVABLE (data : list ScheduleInfo) : list ScheduleInfo :=
  data ++ [virtual_schedule 99999 LineIntrusion; virtual_schedule 99998 VehicleIntrusion].

(** ** Callbacks of the settings *)

Definition on_exclude_setting (newData : Setting ExcludeCamSettingData) (u : RtspDetectorUnit) : RtspDetectorUnit :=
  with_exclude u newData.

Definition on_schedule_setting (newData : Setting ScheduleSettingData) (u : RtspDetectorUnit) : RtspDetectorUnit :=
  with_scheduling u (mkScheduling (AddDebugVirtualLines_REMOVABLE (schedules (data newData))) true (scheduler_ (scheduling u))).

(** ** Initialisation

    What [Init] finds: the managers and handlers (false: a null pointer), the server
    identifier, the frame queue, the settings. *)
Record InitEnv := mkInitEnv {
  env_load_balancer : bool;
  env_network_manager : bool;
  env_rtsp_handler : bool;
  env_sio_handler : option Z;                     (* its server identifier *)
  env_iostream_manager : bool;
  env_avframe_q : option (SafeQueue AVFrame);
  env_setting_manager : bool;
  env_exclude : option (Setting ExcludeCamSettingData);
  env_schedule : option (Setting ScheduleSettingData);
  env_server : option (Setting ServerSettingData)
}.

Definition set_queues (u : RtspDetectorUnit) (q : SafeQueue AVFrame) : RtspDetectorUnit :=
  let u := with_avframe_q u (SetMaxSize q (u64 (2 * u64 (detect_fps_limit_ u)))) in
  let u := with_io_work_queue u (SetMaxSize SafeQueue_make 30) in
  let u := with_inflight_q u (SetMaxSize SafeQueue_make 10) in
  with_event_q u (SetMaxSize SafeQueue_make 10).

Definition set_settings (e : InitEnv) (u : RtspDetectorUnit) : RtspDetectorUnit :=
  let u := match env_exclude e with Some x => with_exclude u x | None => u end in
  let settings := AddDebugVirtualLines_REMOVABLE
                    match env_schedule e with Some s => schedules (data s) | None => schedule_settings_ (scheduling u) end in
  with_scheduling u (mkScheduling settings
    (if bool_decide (settings = []) then is_schedule_updated_ (scheduling u) else true) (scheduler_ (scheduling u))).

(** The unit keeps what was set before a failing test. *)
Definition Init (e : InitEnv) (u : RtspDetectorUnit) : bool * RtspDetectorUnit :=
  if id_ u =? UNIT_ID_NOT_SET then (false, u)
  else if negb (env_load_balancer e) then (false, u)
  else if negb (env_network_manager e) then (false, u)
  else if negb (env_rtsp_handler e) then (false, u)
  else match env_sio_handler e with
  | None => (false, u)
  | Some server =>
      let u := with_service u server (detect_fps_limit_ u) (realtime_fps_ u) (is_initialized_service_ u) in
      if server =? SERVER_IDENTIFIER_NOT_SET then (false, u)
      else if negb (env_iostream_manager e) then (false, u)
      else match env_avframe_q e with
      | None => (false, u)
      | Some q =>
          let u := set_queues u q in
          if negb (env_setting_manager e) then (false, u)
          else
            let u := set_settings e u in
            let fps := match env_server e with
                       | Some s => inference_per_cams_fps_limit (data s) | None => detect_fps_limit_ u end in
            (true, with_service u server fps (Z.min fps 30) true)
      end
  end.

(** ** The inference thread *)

(** What the thread keeps in its own variables; the context for the frame's own size
    is only updated, never used. *)
Record InferenceLocal := mkLocal { detection_engines : list EngineClient; context_manager : SwsContextManager }.

Definition IsLoadable (b : EngineLoadBalancer) (target_engine_magic_name : string) : bool :=
  negb (GetAvailableInferEngineID b (RequireMagic target_engine_magic_name) =? INFER_ENGINE_ID_NOT_SET).

(** The engine client, its classes and its subscription; [address] is where the
    balancer puts the new result queue.  The result tells whether the loop is entered:
    not without a camera setting ([camera]) or a started receiver ([gst_started]). *)
Definition inference_setup (classes_file : string -> option json) (address : nat) (camera gst_started : bool)
    (u : RtspDetectorUnit) (b : EngineLoadBalancer) : bool * InferenceLocal * RtspDetectorUnit * EngineLoadBalancer :=
  let client := if IsLoadable b MAGIC_DETECTION_ENGINE_NAME
                then EngineClient_Init classes_file (id_ u) b MAGIC_DETECTION_ENGINE_NAME ENGINE_MAGIC_TYPE_DETECTION
                       ["Person"; "Car"]%string (fun _ => true)
                else None in
  let '(engines, u, b) :=
    match client with
    | None => ([], u, b)
    | Some c =>
        let t := tracking u in
        ([c], with_subscriptions (with_tracking u (mkTracking (trackers_ t) (tracker_seqs_ t) (GetClassID c "Person") (GetClassID c "Car")))
                ({[subscribe_id c]} ∪ subscribe_ids_ u),
         snd (Subscribe b (subscribe_id c) address))
    end in
  let l := mkLocal engines SwsContextManager_make in
  if negb camera then (false, l, u, b)
  else
    let u := with_avframe_q u (SetMaxSize (avframe_q_ u) (u64 (2 * u64 (detect_fps_limit_ u)))) in
    if negb gst_started then (false, l, u, b)
    else
      let r := resolution u in
      (true, l, with_resolution u (mkResolution_ (stable_frame_w_ r) (stable_frame_h_ r) 0), b).

Inductive ResolutionVerdict := SameSize | Noise | SizeChanged.

(** A frame against the stable resolution. *)
Definition check_resolution (r : Resolution) (w h : Z) : ResolutionVerdict * Resolution :=
  let r := if (stable_frame_w_ r =? 0) || (stable_frame_h_ r =? 0)
           then mkResolution_ w h (consecutive_mismatch_count_ r) else r in
  if negb (w =? stable_frame_w_ r) || negb (h =? stable_frame_h_ r) then
    let count := u64 (consecutive_mismatch_count_ r + 1) in
    if count <? REINIT_THRESHOLD_COUNT then (Noise, mkResolution_ (stable_frame_w_ r) (stable_frame_h_ r) count)
    else (SizeChanged, mkResolution_ w h 0)
  else (SameSize, mkResolution_ (stable_frame_w_ r) (stable_frame_h_ r) 0).

(** The lambda that schedules use to recognise a class. *)
Definition event_class_checker (class_id_person class_id_car : Z) (id : Z) (tag : string) : bool :=
  let upper := ToUpperCase tag in
  if String.eqb upper "PERSON" && negb (class_id_person =? INFER_CLASS_ID_NOT_SET) then id =? class_id_person
  else if String.eqb upper "CAR" && negb (class_id_car =? INFER_CLASS_ID_NOT_SET) then id =? class_id_car
  else false.

Definition ReleaseSchedules (s : Scheduling) : Scheduling :=
  mkScheduling (schedule_settings_ s) (is_schedule_updated_ s) [].

Definition ResetTrackers (t : Tracking) : Tracking :=
  mkTracking ∅ ∅ (class_id_person_ t) (class_id_car_ t).

(** New schedules after a change of settings or of resolution; [now i] is the clock
    when the [i]-th is made. *)
Definition update_schedules (need_reset : bool) (now : nat -> time_point) (u : RtspDetectorUnit) : RtspDetectorUnit :=
  if is_schedule_updated_ (scheduling u) || need_reset then
    let s := ReleaseSchedules (scheduling u) in
    let t := if need_reset then ResetTrackers (tracking u) else tracking u in
    let checker := Some (event_class_checker (class_id_person_ t) (class_id_car_ t)) in
    let r := resolution u in
    let made := imap (fun i sch => Schedule_make sch (stable_frame_w_ r) (stable_frame_h_ r) checker (now i))
                  (schedule_settings_ s) in
    with_tracking (with_scheduling u (mkScheduling (schedule_settings_ s) false (scheduler_ s ++ made))) t
  else u.

(** A [std::set] of resolutions. *)
Fixpoint set_insert (k : ResolutionKey) (l : list ResolutionKey) : list ResolutionKey :=
  match l with
  | [] => [k]
  | k' :: l => if ResolutionKey_ltb k k' then k :: k' :: l
               else if ResolutionKey_ltb k' k then k' :: set_insert k l else k' :: l
  end.

Definition engine_key (e : EngineClient) : ResolutionKey := mkResolution (input_width e) (input_height e).

(** What the libraries do in one iteration: the rows [sws_scale] returns, the
    identity of a new buffer, its bytes. *)
Record InferenceEnv := mkInferenceEnv {
  ie_now : nat -> time_point;
  ie_processed_h : ResolutionKey -> Z;
  ie_fresh : ResolutionKey -> nat;
  ie_bytes : RawBuffer -> list Z
}.

(** The style of the model: pixels. *)
Definition with_pixel_format (c : FrameFormattingContext) : FrameFormattingContext :=
  let s := inference_style c in
  mkContext (is_initialized c) (need_resize c) (src_w c) (src_h c) (target_w c) (target_h c) (scale_w c) (scale_h c)
    (top c) (bottom c) (left c) (right c) (sws_scale_ctx c)
    (mkStyle (width s) (height s) pixel_int (ref_type s) (is_padded_or_scaled s) (scale_factor_from_original s)
       (pad_x_offset s) (pad_y_offset s) (original_width s) (original_height s))
    (original_style c) (pool_container c) (shared_input_blob c) (save_snapshot_mat c).

(** One resolution; [false]: preprocessing failed, [None]: an exception. *)
Definition preprocess_one (e : InferenceEnv) (frame : AVFrame) (key : ResolutionKey) (m : SwsContextManager)
    : option (bool * SwsContextManager) :=
  let '(ctx, m) := GetContext m (res_w key) (res_h key) (av_width frame) (av_height frame) in
  let '(updated, ctx) := Update ctx (av_width frame) (av_height frame) (res_w key) (res_h key) (av_format frame) in
  if negb updated then Some (false, put_context m (res_w key) (res_h key) ctx)
  else
    match Convert (with_pixel_format ctx) true false true (ie_processed_h e key) (ie_fresh e key) with
    | None => None
    | Some (converted, ctx) =>
        let m := put_context m (res_w key) (res_h key) ctx in
        Some (converted && IsReadyForInference ctx, m)
    end.

Fixpoint preprocess (e : InferenceEnv) (frame : AVFrame) (keys : list ResolutionKey) (m : SwsContextManager)
    : option (bool * SwsContextManager) :=
  match keys with
  | [] => Some (true, m)
  | key :: keys =>
      match preprocess_one e frame key m with
      | Some (true, m) => preprocess e frame keys m
      | other => other
      end
  end.

(** The engines whose request was taken; [None]: a null queue of the balancer. *)
Fixpoint request_all (e : InferenceEnv) (frame : AVFrame) (correlation : Z) (engines : list EngineClient)
    (m : SwsContextManager) (b : EngineLoadBalancer) : option (list EngineClient * SwsContextManager * EngineLoadBalancer) :=
  match engines with
  | [] => Some ([], m, b)
  | engine :: engines =>
      let '(ctx, m) := GetContext m (input_width engine) (input_height engine) (av_width frame) (av_height frame) in
      '(req_success, b) ← RequestAsync b (BuildRequest (ie_bytes e) engine ctx correlation);
      '(requested, m, b) ← request_all e frame correlation engines m b;
      Some (if req_success : bool then engine :: requested else requested, m, b)
  end.

Definition make_engine_inflight (m : SwsContextManager) (frame : AVFrame) (engine : EngineClient) : EngineInflight :=
  let ctx := fst (GetContext m (input_width engine) (input_height engine) (av_width frame) (av_height frame)) in
  mkEngineInflight (subscribe_id engine) (input_width engine) (input_height engine) (target_class_ids engine)
    (inference_style ctx) (original_style ctx) (magic_name engine).

Inductive CycleEnd :=
| NoFrame | EngineNotLoaded | CameraExcluded | SizeMismatch | NoActiveEngine | PreprocessFailed | AllDropped
| Inflight (item : InflightItem).

(** The frame's way from the stable-resolution test on. *)
Definition infer_frame (e : InferenceEnv) (frame : AVFrame) (u : RtspDetectorUnit) (l : InferenceLocal) (b : EngineLoadBalancer)
    : option (CycleEnd * RtspDetectorUnit * InferenceLocal * EngineLoadBalancer) :=
  let '(verdict, r) := check_resolution (resolution u) (av_width frame) (av_height frame) in
  let u := with_resolution u r in
  match verdict with
  | Noise => Some (SizeMismatch, u, l, b)
  | _ =>
      let need_reset := match verdict with SizeChanged => true | _ => false end in
      let m := if need_reset then ClearAll (context_manager l) else context_manager l in
      let u := update_schedules need_reset (ie_now e) u in
      let active := List.filter (fun engine => is_active_condition engine RGB) (detection_engines l) in
      let required := foldl (fun keys engine => set_insert (engine_key engine) keys) [] active in
      match active with
      | [] => Some (NoActiveEngine, u, mkLocal (detection_engines l) m, b)
      | _ =>
          '(ok, m) ← preprocess e frame required m;
          if negb ok then Some (PreprocessFailed, u, mkLocal (detection_engines l) m, b)
          else
            let correlation := frame_count_ u in
            let u := with_frame_count u (u32 (frame_count_ u + 1)) in
            '(requested, m, b) ← request_all e frame correlation active m b;
            let l := mkLocal (detection_engines l) m in
            match requested with
            | [] => Some (AllDropped, u, l, b)
            | _ =>
                let item := mkInflight frame (map (make_engine_inflight m frame) requested) correlation INFERENCE_WAIT_MS in
                Some (Inflight item, with_inflight_q u (enqueue (inflight_q_ u) item), l, b)
            end
      end
  end.

Definition InferenceThread_iteration (e : InferenceEnv) (u : RtspDetectorUnit) (l : InferenceLocal) (b : EngineLoadBalancer)
    : option (CycleEnd * RtspDetectorUnit * InferenceLocal * EngineLoadBalancer) :=
  let '(opt_frame, q) := dequeue_wait_for (avframe_q_ u) in
  let u := with_avframe_q u q in
  match opt_frame with
  | None => Some (NoFrame, u, l, b)
  | Some frame =>
      if negb (IsLoadEngine b) then Some (EngineNotLoaded, u, l, b)
      else if negb (IsEmpty (exclude_setting_ u)) then Some (CameraExcluded, u, l, b)
      else infer_frame e frame u l b
  end.

Definition InferenceThreadCloser (u : RtspDetectorUnit) (b : EngineLoadBalancer) : RtspDetectorUnit * EngineLoadBalancer :=
  let b := foldl Unsubscribe b (set_order (subscribe_ids_ u)) in
  let u := with_avframe_q u (clear_without_action (terminate (avframe_q_ u))) in
  (with_inflight_q u (terminate (inflight_q_ u)), b).

End Unit.
