(* ===== verification/DetectorPipeline.v ===== *)
(** * The detector unit's response and event threads

    [Main/DETECTOR/src/RtspDetectorUnit.cpp], continued: the response thread pairs
    each frame with the response of the engine and tracks its objects, the event
    thread runs the schedules on the tracks and reports what they find; and the
    start and stop of the four threads. *)

From Stdlib Require Import SpecFloat String Ascii.
From stdpp Require Import gmap pretty.
From S2P Require Import Prelude Float32 InferObject Geometry History Schedule Checkers Kalman Sort StringUtils Json SettingData EngineTypes SafeQueue SafeThread LoadBalancer Letterbox EngineClient DetectorUnit.
Open Scope Z_scope.
Open Scope list_scope.

Section Pipeline.
Context {K : Type} `{!OpenCV K} `{!FFmpeg}.
Abbreviation Unit_ := (RtspDetectorUnit (K := K)).
Abbreviation Tracking_ := (Tracking (K := K)).

(** ** The response thread *)

(** Per engine of the item: the milliseconds since its request, and what the other
    threads do to the balancer while this one waits for the response. *)
Record ResponseEnv := mkResponseEnv {
  re_elapsed_ms : nat -> Z;
  re_others : nat -> EngineLoadBalancer -> EngineLoadBalancer
}.

(** A class the engine was asked for. *)
Definition target_found (e : EngineInflight) (o : InferObject) : bool :=
  existsb (fun p => snd p =? class_id o) (map_to_list (ei_target_class_ids e)).

(** The objects of a response in the coordinates of the frame; a conversion that
    fails leaves the object as it is. *)
Definition merge_response (e : EngineInflight) (objects : list InferObject) : list InferObject :=
  map (fun o => snd (ConvertInferObjectCoordinate o (ei_inference_style e) (ei_original_style e)))
      (List.filter (target_found e) objects).

(** The results of the engines, and for each response the correlation id that was
    expected and the one that came; a difference is only counted. *)
Fixpoint collect_responses (env : ResponseEnv) (item : InflightItem) (i : nat) (engines : list EngineInflight)
    (b : EngineLoadBalancer) : list InferObject * list (Z * Z) * EngineLoadBalancer :=
  match engines with
  | [] => ([], [], b)
  | e :: engines =>
      let remaining_budget := i32 (if_inference_wait_ms item - i32 (re_elapsed_ms env i)) in
      if remaining_budget <=? 0 then collect_responses env item (S i) engines b
      else
        let '(result_opt, b) := RespondAsync (re_others env i b) (ei_subscribe_id e) in
        match result_opt with
        | None => collect_responses env item (S i) engines b
        | Some response =>
            let b := AddInferCount b (ei_subscribe_id e) in
            let '(merged, pairs, b) := collect_responses env item (S i) engines b in
            (merge_response e (infer_objects_out response) ++ merged,
             (if_correlation_id item, correlation_id (out_meta_data response)) :: pairs, b)
        end
  end.

(** The classes of the objects in the order of a [std::map]. *)
Definition classes_of (objects : list InferObject) : list Z :=
  set_order (list_to_set (map class_id objects)).
Definition objects_of_class (c : Z) (objects : list InferObject) : list InferObject :=
  List.filter (fun o => class_id o =? c) objects.

Definition need_tracking (t : Tracking_) (c : Z) : bool := (c =? class_id_person_ t) || (c =? class_id_car_ t).

Definition tracker_style (frame : AVFrame) : ImageExpressStyle :=
  ImageExpressStyle_make (av_width frame) (av_height frame) pixel_int ltx_type false f1 0 0 0 0.

(** A tracker per class, made at its first object. *)
Definition ensure_tracker (frame : AVFrame) (c : Z) (t : Tracking_) : Tracking_ :=
  match trackers_ t !! c with
  | Some _ => t
  | None => mkTracking (<[c := SORTTracker_make (tracker_style frame) (tracker_style frame)]> (trackers_ t))
              (<[c := 1]> (tracker_seqs_ t)) (class_id_person_ t) (class_id_car_ t)
  end.

(** One class: its tracks, or its objects when it is not tracked. *)
Definition track_class (frame : AVFrame) (objects : list InferObject) (c : Z) (t : Tracking_)
    : option (list InferObject * Tracking_) :=
  let objects := objects_of_class c objects in
  if negb (need_tracking t c) then Some (objects, t)
  else
    let t := ensure_tracker frame c t in
    match trackers_ t !! c with
    | None => None
    | Some tracker =>
        let seq := default 0 (tracker_seqs_ t !! c) in
        match TrackObjects objects (i32 seq) tracker with
        | Diverges => None
        | Returns r tracker =>
            Some (default [] r, mkTracking (<[c := tracker]> (trackers_ t)) (<[c := u32 (seq + 1)]> (tracker_seqs_ t))
                                  (class_id_person_ t) (class_id_car_ t))
        end
    end.

Fixpoint track_classes (frame : AVFrame) (objects : list InferObject) (classes : list Z) (t : Tracking_)
    : option (list InferObject * Tracking_) :=
  match classes with
  | [] => Some ([], t)
  | c :: classes =>
      '(r, t) ← track_class frame objects c t;
      '(rest, t) ← track_classes frame objects classes t;
      Some (r ++ rest, t)
  end.

(** What an iteration did: the pairs of correlation ids, and the tracks sent as
    metadata. *)
Inductive ResponseEnd :=
| NoItem
| Responded (item : InflightItem) (pairs : list (Z * Z)) (metadata : list InferObject).

Definition ResponseThread_iteration (env : ResponseEnv) (u : Unit_) (b : EngineLoadBalancer)
    : option (ResponseEnd * Unit_ * EngineLoadBalancer) :=
  let '(opt_item, q) := dequeue_wait_for (inflight_q_ u) in
  let u := with_inflight_q u q in
  match opt_item with
  | None => Some (NoItem, u, b)
  | Some item =>
      let '(merged, pairs, b) := collect_responses env item 0 (if_engines item) b in
      '(tracks, t) ← track_classes (if_frame item) merged (classes_of merged) (tracking u);
      let u := with_tracking u t in
      let u := match tracks with
               | [] => u
               | _ => with_event_q u (enqueue (event_q_ u) (mkEventItem (if_frame item) tracks))
               end in
      Some (Responded item pairs tracks, u, b)
  end.

(** The loop ends when the queue is terminated. *)
Definition ResponseThread_ends (u : Unit_) : bool := b_terminate (inflight_q_ u).

Definition ResponseThreadCloser (u : Unit_) : Unit_ :=
  let u := with_inflight_q u (clear_without_action (inflight_q_ u)) in
  with_event_q u (terminate (event_q_ u)).

(** ** The event thread *)

(** The members of the message under [Analysis]; [Time] is also the time of the
    message itself.  Members that are the same in all messages are left out. *)
Record EventObject := mkEventObject {
  eo_Confidence : f32; eo_ClassId : Z; eo_TrackId : Z; eo_VideoWidth : Z; eo_VideoHeight : Z;
  eo_Box : list Z; eo_extended : option (string * Z)
}.

Record EventMessage := mkMessage {
  em_Source : string; em_Time : string; em_Uid : string; em_TrackId : Z; em_CameraId : Z; em_EventCode : Z;
  em_LevelCode : Z; em_ScheduleId : Z; em_ServerId : Z; em_ImagePath : string; em_Objects : list EventObject
}.

(** [localtime_r] with the seconds. *)
Record LocalTime := mkLocalTime { lt_tm : tm; lt_sec : Z }.

Definition time_text (t : LocalTime) : string :=
  (four_digits (1900 + tm_year (lt_tm t)) ++ "-" ++ two_digits (1 + tm_mon (lt_tm t)) ++ "-" ++ two_digits (tm_mday (lt_tm t)) ++ " " ++
   two_digits (tm_hour (lt_tm t)) ++ ":" ++ two_digits (tm_min (lt_tm t)) ++ ":" ++ two_digits (lt_sec t))%string.

Definition time_compact (t : LocalTime) : string :=
  (four_digits (1900 + tm_year (lt_tm t)) ++ two_digits (1 + tm_mon (lt_tm t)) ++ two_digits (tm_mday (lt_tm t)) ++ "_" ++
   two_digits (tm_hour (lt_tm t)) ++ two_digits (tm_min (lt_tm t)) ++ two_digits (lt_sec t))%string.

Definition event_object (u : Unit_) (sch : Schedule) (o : InferObject) : EventObject :=
  let b := bbox o in
  mkEventObject (score o) (class_id o) (track_id o) (stable_frame_w_ (resolution u)) (stable_frame_h_ (resolution u))
    [i32_of_f (bb_x b); i32_of_f (bb_y b); i32_of_f (f32_add (bb_x b) (bb_w b)); i32_of_f (f32_add (bb_y b) (bb_h b))]
    (SetExtendedDataToJson o (event_code (sch_info sch))).

Definition BuildNotifyJsonImpl_Analysis (u : Unit_) (sch : Schedule) (abnormal_results : list InferObject)
    (time_info : LocalTime) (image_path str_uuid : string) : EventMessage :=
  let code := EventClass_int (event_code (sch_info sch)) in
  mkMessage (pretty (socket_io_server_id_ u)) (time_text time_info)
    (time_compact time_info ++ "_" ++ pretty (id_ u) ++ "_" ++ pretty code ++ "_" ++ str_uuid)%string
    (match abnormal_results with [] => NON_TRACKING_IDX | o :: _ => track_id o end)
    (id_ u) code (level_code (sch_info sch)) (schedule_id (sch_info sch)) (socket_io_server_id_ u) image_path
    (map (event_object u sch) abnormal_results).

(** [%04d] of a camera identifier. *)
Definition four_wide (z : Z) : string := if (0 <=? z) && (z <? 10000) then four_digits z else pretty z.

(** [/frame/YYYY/MM/DD/CAM_hhmmss_uuid.jpg]; nothing when the directory cannot be
    made. *)
Definition MakeImageSavePath (u : Unit_) (root_path : string) (t : LocalTime) (uuid : string) (directory_made : bool) : option string :=
  if directory_made then
    Some (root_path ++ "/" ++ four_digits (1900 + tm_year (lt_tm t)) ++ "/" ++ two_digits (1 + tm_mon (lt_tm t)) ++ "/" ++
          two_digits (tm_mday (lt_tm t)) ++ "/" ++ four_wide (id_ u) ++ "_" ++ two_digits (tm_hour (lt_tm t)) ++
          two_digits (tm_min (lt_tm t)) ++ two_digits (lt_sec t) ++ "_" ++ uuid ++ ".jpg")%string
  else None.

(** The readings of one iteration; per schedule those of its check. *)
Record EventEnv := mkEventEnv {
  ee_path_time : LocalTime; ee_path_uuid : string; ee_directory_made : bool;
  ee_time : LocalTime;
  ee_readings : nat -> Readings; ee_black : nat -> tm; ee_week : nat -> tm; ee_range : nat -> tm;
  ee_uuid : nat -> string;
  ee_processed_h : Z; ee_fresh : nat
}.

(** The schedules in order, and a message for each that reports objects. *)
Fixpoint check_schedules (env : EventEnv) (u : Unit_) (path : string) (i : nat) (tracks : list InferObject)
    (schedules : list Schedule) : option (list EventMessage * list Schedule) :=
  match schedules with
  | [] => Some ([], [])
  | s :: schedules =>
      '(on_event_results, s) ← Check_ (ee_readings env i) (ee_black env i) (ee_week env i) (ee_range env i) tracks s;
      '(events, rest) ← check_schedules env u path (S i) tracks schedules;
      Some (match on_event_results with
            | [] => events
            | _ => BuildNotifyJsonImpl_Analysis u s on_event_results (ee_time env) path (ee_uuid env i) :: events
            end, s :: rest)
  end.

Inductive EventEnd :=
| NoEventItem | NoSchedule | NoDirectory | NoEvent
| SnapshotFailed (lost : list EventMessage)
| Emitted (messages : list EventMessage).

(** [ctx] is the thread's own conversion context. *)
Definition EventThread_iteration (env : EventEnv) (u : Unit_) (ctx : FrameFormattingContext)
    : option (EventEnd * Unit_ * FrameFormattingContext) :=
  let '(opt_item, q) := dequeue_wait_for (event_q_ u) in
  let u := with_event_q u q in
  match opt_item with
  | None => Some (NoEventItem, u, ctx)
  | Some item =>
      let frame := ev_frame item in
      match scheduler_ (scheduling u) with
      | [] => Some (NoSchedule, u, ctx)
      | schedules =>
          match MakeImageSavePath u FULL_FRAME_IMAGE_SAVE_ROOT_PATH (ee_path_time env) (ee_path_uuid env) (ee_directory_made env) with
          | None => Some (NoDirectory, u, ctx)
          | Some frame_path =>
              '(event_list, schedules) ← check_schedules env u frame_path 0 (ev_track_results item) schedules;
              let u := with_scheduling u (mkScheduling (schedule_settings_ (scheduling u))
                                            (is_schedule_updated_ (scheduling u)) schedules) in
              match event_list with
              | [] => Some (NoEvent, u, ctx)
              | _ =>
                  let ctx := snd (Update ctx (av_width frame) (av_height frame) (av_width frame) (av_height frame) (av_format frame)) in
                  '(converted, ctx) ← Convert ctx true true false (ee_processed_h env) (ee_fresh env);
                  if negb converted then Some (SnapshotFailed event_list, u, ctx)
                  else Some (Emitted event_list,
                             with_io_work_queue u (enqueue (io_work_queue_ u) (mkIOWork frame_path frame)), ctx)
              end
          end
      end
  end.

Definition EventThreadCloser (u : Unit_) : Unit_ := with_event_q u (clear_without_action (event_q_ u)).

Definition IOWorkerThreadCloser (u : Unit_) : Unit_ :=
  with_io_work_queue u (clear_without_action (terminate (io_work_queue_ u))).

(** ** Start and stop *)

Record Threads := mkThreads {
  io_worker_thread_ : SafeThread; event_thread_ : SafeThread; response_thread_ : SafeThread; inference_thread_ : SafeThread
}.

(** [None]: a thread object that still runs is assigned. *)
Definition Start_ (t : Threads) : option Threads :=
  io ← Start (io_worker_thread_ t); ev ← Start (event_thread_ t);
  rsp ← Start (response_thread_ t); inf ← Start (inference_thread_ t);
  Some (mkThreads io ev rsp inf).

(** The stages of the pipeline, one thread each. *)
Inductive Stage := InferenceStage | ResponseStage | EventStage | IOWorkerStage.

Definition thread_of (t : Threads) (s : Stage) : SafeThread :=
  match s with
  | InferenceStage => inference_thread_ t
  | ResponseStage => response_thread_ t
  | EventStage => event_thread_ t
  | IOWorkerStage => io_worker_thread_ t
  end.

Definition with_thread (t : Threads) (s : Stage) (th : SafeThread) : Threads :=
  match s with
  | InferenceStage => mkThreads (io_worker_thread_ t) (event_thread_ t) (response_thread_ t) th
  | ResponseStage => mkThreads (io_worker_thread_ t) (event_thread_ t) th (inference_thread_ t)
  | EventStage => mkThreads (io_worker_thread_ t) th (response_thread_ t) (inference_thread_ t)
  | IOWorkerStage => mkThreads th (event_thread_ t) (response_thread_ t) (inference_thread_ t)
  end.

Definition closer_of (s : Stage) (u : Unit_) (b : EngineLoadBalancer) : Unit_ * EngineLoadBalancer :=
  match s with
  | InferenceStage => InferenceThreadCloser u b
  | ResponseStage => (ResponseThreadCloser u, b)
  | EventStage => (EventThreadCloser u, b)
  | IOWorkerStage => (IOWorkerThreadCloser u, b)
  end.

(** [Stop] of one thread runs its closer when the thread is running. *)
Definition stop_stage (s : Stage) (t : Threads) (u : Unit_) (b : EngineLoadBalancer) : Threads * Unit_ * EngineLoadBalancer :=
  let '(u, b) := if is_running_ (thread_of t s) && thread_closer_ (thread_of t s) then closer_of s u b else (u, b) in
  (with_thread t s (Stop (thread_of t s)), u, b).

(** Producers first. *)
Definition stop_order : list Stage := [InferenceStage; ResponseStage; EventStage; IOWorkerStage].

Definition Stop_ (t : Threads) (u : Unit_) (b : EngineLoadBalancer) : Threads * Unit_ * EngineLoadBalancer :=
  foldl (fun '(t, u, b) s => stop_stage s t u b) (t, u, b) stop_order.

End Pipeline.
