(* ===== verification/DetectorProps.v ===== *)
(** * Properties of the detector unit

    The resolution filter, the pairing of frames with responses, the exclusion of a
    camera and the way from tracks to reported events. *)

From Stdlib Require Import SpecFloat String.
From stdpp Require Import gmap.
From S2P Require Import Prelude Float32 InferObject Geometry History Schedule Checkers Kalman Sort SortProps StringUtils Json SettingData SettingManager EngineTypes SafeQueue InferenceCounter LoadBalancer Letterbox EngineClient DetectorUnit DetectorPipeline.
Open Scope Z_scope.
Open Scope list_scope.

(** ** The resolution filter *)

Fixpoint check_run (r : Resolution) (sizes : list (Z * Z)) : list ResolutionVerdict * Resolution :=
  match sizes with
  | [] => ([], r)
  | (w, h) :: sizes =>
      let '(v, r) := check_resolution r w h in
      let '(vs, r) := check_run r sizes in (v :: vs, r)
  end.

#[export] Instance ResolutionVerdict_eq_dec : EqDecision ResolutionVerdict.
Proof. solve_decision. Defined.

(** [n] sizes in a row, from index [i], that differ from [s]. *)
Definition differ (s : Z * Z) (sizes : list (Z * Z)) (i n : nat) : Prop :=
  (i + n <= length sizes)%nat /\ forall j, (i <= j < i + n)%nat -> sizes !! j <> Some s.

Lemma check_resolution_cases W H c w h :
  W <> 0 -> H <> 0 -> 0 <= c < 10 ->
  check_resolution (mkResolution_ W H c) w h =
  if bool_decide ((w, h) = (W, H)) then (SameSize, mkResolution_ W H 0)
  else if c <? 9 then (Noise, mkResolution_ W H (c + 1)) else (SizeChanged, mkResolution_ w h 0).
Proof.
  intros HW HH Hc. unfold check_resolution. cbn [stable_frame_w_ stable_frame_h_ consecutive_mismatch_count_].
  rewrite (proj2 (Z.eqb_neq W 0)), (proj2 (Z.eqb_neq H 0)) by done.
  cbn [orb stable_frame_w_ stable_frame_h_ consecutive_mismatch_count_].
  rewrite (wrap_u_id 64) by lia. unfold REINIT_THRESHOLD_COUNT.
  case_bool_decide as E.
  - injection E as -> ->. by rewrite !Z.eqb_refl.
  - assert (negb (w =? W) || negb (h =? H) = true) as ->.
    { destruct (Z.eqb_spec w W), (Z.eqb_spec h H); cbn; congruence. }
    destruct (Z.ltb_spec (c + 1) 10), (Z.ltb_spec c 9); try lia; done.
Qed.

Lemma differ_cons s x sizes i n : differ s (x :: sizes) (S i) n <-> differ s sizes i n.
Proof.
  unfold differ. cbn [length]. split; intros [Hl Hd]; (split; [lia |]).
  - intros j Hj. apply (Hd (S j)). lia.
  - intros [| j] Hj; [lia |]. apply (Hd j). lia.
Qed.

Lemma differ_0_cons s x sizes n : differ s (x :: sizes) 0 (S n) <-> x <> s /\ differ s sizes 0 n.
Proof.
  unfold differ. cbn [length]. split.
  - intros [Hl Hd]. split; [specialize (Hd 0%nat ltac:(lia)); cbn in Hd; congruence |]. split; [lia |].
    intros j Hj. apply (Hd (S j)). lia.
  - intros (Hx & Hl & Hd). split; [lia |]. intros [| j] Hj; [cbn; congruence |]. apply (Hd j). lia.
Qed.

(** From a count of [c] frames that differ, [10 - c] more are enough. *)
Lemma check_run_spec W H c sizes :
  W <> 0 -> H <> 0 -> 0 <= c < 10 ->
  let '(vs, r) := check_run (mkResolution_ W H c) sizes in
  (SizeChanged ∈ vs <-> (exists i, differ (W, H) sizes i 10) \/ differ (W, H) sizes 0 (Z.to_nat (10 - c))) /\
  (SizeChanged ∉ vs -> stable_frame_w_ r = W /\ stable_frame_h_ r = H /\
     forall i, vs !! i = Some SameSize <-> sizes !! i = Some (W, H)).
Proof.
  intros HW HH. revert c. induction sizes as [| [w h] sizes IH]; intros c Hc.
  - cbn. split.
    + split; [by intros ?%elem_of_nil |]. unfold differ. cbn. intros [[i [Hi _]] | [Hi _]]; lia.
    + intros _. done.
  - cbn [check_run]. rewrite check_resolution_cases by done.
    replace (Z.to_nat (10 - c)) with (S (Z.to_nat (9 - c))) by lia. case_bool_decide as E.
    + specialize (IH 0 ltac:(lia)). destruct (check_run _ sizes) as [vs r]. destruct IH as [IH1 IH2]. injection E as -> ->. split.
      * rewrite elem_of_cons, IH1, differ_0_cons. split.
        -- intros [[=] | [[i Hi] | Hd]]; left; [exists (S i) | exists 1%nat]; by apply differ_cons.
        -- intros [[[| i] Hi] | [Hx _]]; [apply (differ_0_cons _ _ _ 9) in Hi as [Hx _]; done | | done].
           right. left. exists i. by apply differ_cons in Hi.
      * intros Hn. destruct IH2 as (H1 & H2 & H3); [intros Hin; apply Hn; by right |]. split_and!; [done.. |].
        intros [| i]; [done | apply H3].
    + destruct (Z.ltb_spec c 9).
      * specialize (IH (c + 1) ltac:(lia)). destruct (check_run _ sizes) as [vs r]. destruct IH as [IH1 IH2].
        replace (10 - (c + 1)) with (9 - c) in IH1 by lia. split.
        -- rewrite elem_of_cons, IH1, differ_0_cons. split.
           ++ intros [[=] | [[i Hi] | Hd]]; [left; exists (S i); by apply differ_cons | by right].
           ++ intros [[[| i] Hi] | [_ Hd]].
              ** right. right. apply (differ_0_cons _ _ _ 9) in Hi as [_ [Hl Hd]]. split; [lia |]. intros j Hj. apply Hd. lia.
              ** right. left. exists i. by apply differ_cons in Hi.
              ** by do 2 right.
        -- intros Hn. destruct IH2 as (H1 & H2 & H3); [intros Hin; apply Hn; by right |]. split_and!; [done.. |].
           intros [| i]; [cbn; split; [done | congruence] | apply H3].
      * destruct (check_run _ sizes) as [vs r]. assert (c = 9) as -> by lia. split; [| intros Hn; exfalso; apply Hn; left].
        split; [| intros _; left]. intros _. right. rewrite differ_0_cons. split; [done |]. unfold differ. cbn. split; lia.
Qed.

(** The resolution filter accepts a new resolution exactly after ten frames in
    a row that differ from the stable one: a sequence of frame sizes makes the unit
    reinitialise if and only if ten consecutive sizes differ from the stable size,
    whatever they are; otherwise the stable size stays, and exactly the frames of
    that size are used. *)
Theorem resolution_change_exact W H sizes :
  W <> 0 -> H <> 0 ->
  let '(vs, r) := check_run (mkResolution_ W H 0) sizes in
  (SizeChanged ∈ vs <-> exists i, differ (W, H) sizes i 10) /\
  (SizeChanged ∉ vs -> stable_frame_w_ r = W /\ stable_frame_h_ r = H /\
     forall i, vs !! i = Some SameSize <-> sizes !! i = Some (W, H)).
Proof.
  intros HW HH. pose proof (check_run_spec W H 0 sizes HW HH ltac:(lia)) as Hs.
  destruct (check_run _ sizes) as [vs r]. destruct Hs as [H1 H2]. split; [| exact H2].
  rewrite H1. split; [| by left]. intros [? | Hd]; [done | by exists 0%nat].
Qed.

Lemma resolution_change_exact_witness :
  SizeChanged ∈ fst (check_run (mkResolution_ 1920 1080 0) (repeat (640, 480) 9 ++ [(1920, 1080)] ++ repeat (640, 480) 10)).
Proof.
  pose proof (resolution_change_exact 1920 1080 (repeat (640, 480) 9 ++ [(1920, 1080)] ++ repeat (640, 480) 10)
    ltac:(done) ltac:(done)) as Hs.
  destruct (check_run _ _) as [vs r]. apply (proj1 Hs). exists 10%nat. split; [vm_compute; lia |].
  intros j Hj. do 20 (destruct j as [| j]; [try lia; vm_compute; discriminate |]). lia.
Defined.

Section Unit.
Context {K : Type} `{CV : !OpenCV K} `{FF : !FFmpeg}.
Abbreviation Unit_ := (RtspDetectorUnit (K := K)).

(** ** An exclusion that is withdrawn *)

(** A camera whose exclusion is withdrawn stays excluded.  When the server
    answers the notification of an exclusion with an array that has no record of
    the camera, the unit is told that it is not excluded any more, and from then on
    no iteration of its inference thread uses a frame. *)
Theorem withdrawn_exclusion_still_excludes {C} (GET : string -> Z * json) (m : SettingManagerBase ExcludeCamSettingData C)
    js (u : Unit_) uuid cb :
  no_record_response GET js (unit_key_name_ m) ->
  id_ u ∈ ExtractUnitFromJson js "camera_id" -> id_ u <> MISSING_UNIT_ID ->
  callbacks_of (settings_ m) (id_ u) !! uuid = Some cb ->
  let '(_, _, calls) := SioEventBinder_Run GET js m in
  exists newData, (cb, newData) ∈ calls /\ is_exclude (data newData) = false /\
    forall e l b, exists en u', InferenceThread_iteration e (on_exclude_setting newData u) l b = Some (en, u', l, b) /\
      (en = NoFrame \/ en = EngineNotLoaded \/ en = CameraExcluded).
Proof.
  intros Hr Hu Hm Hcb. pose proof (run_no_record GET (mkExclude false) (fun d => eq_refl) js m Hr) as H.
  destruct (SioEventBinder_Run GET js m) as [[o m'] calls]. destruct H as [_ H]. destruct (H _ Hu Hm) as [_ Hc].
  exists (mkSetting false (mkExclude false)). split; [by apply (Hc uuid) |]. split; [done |]. intros e l b.
  unfold InferenceThread_iteration. cbn [avframe_q_ on_exclude_setting with_exclude].
  destruct (dequeue_wait_for (avframe_q_ u)) as [[frame |] q]; [| do 2 eexists; by eauto].
  cbn [exclude_setting_ with_avframe_q on_exclude_setting with_exclude IsEmpty is_empty_ negb].
  destruct (IsLoadEngine b); cbn [negb]; do 2 eexists; by eauto.
Qed.

(** ** Frames and responses *)

Inductive PipeEvent :=
| Sent (id : Z)                         (* a frame with its request *)
| Answered (id : Z)                     (* a response reaches the camera's queue *)
| PushedOut (id : Z)                    (* the oldest response leaves the full queue for it *)
| Tried (id : Z) (response : option Z). (* a frame leaves the pipeline, with a response or without *)

Definition sent (evs : list PipeEvent) : list Z := omap (fun e => match e with Sent i => Some i | _ => None end) evs.
Definition answered (evs : list PipeEvent) : list Z := omap (fun e => match e with Answered i => Some i | _ => None end) evs.
Definition tried (evs : list PipeEvent) : list (Z * option Z) :=
  omap (fun e => match e with Tried i r => Some (i, r) | _ => None end) evs.

(** The responses that left the camera's queue. *)
Definition taken (evs : list PipeEvent) : list Z :=
  omap (fun e => match e with Tried _ r => r | PushedOut i => Some i | _ => None end) evs.

(** The frames processed without a response, and the responses pushed out. *)
Definition given_up (evs : list PipeEvent) : list Z := omap (fun e => match e with Tried i None => Some i | _ => None end) evs.
Definition pushed_out (evs : list PipeEvent) : list Z := omap (fun e => match e with PushedOut i => Some i | _ => None end) evs.

Definition PipeState : Type := Unit_ * InferenceLocal * EngineLoadBalancer.

Definition is_full {T} (q : SafeQueue T) : bool := (0 <? max_size_ q) && (max_size_ q <=? q_size q).

(** The item an enqueue pushes out. *)
Definition overflowing {T} (q : SafeQueue T) : list T := if is_full q then take 1 (q_ q) else [].

Definition cycle_events (q : SafeQueue InflightItem) (en : CycleEnd) : list PipeEvent :=
  match en with
  | Inflight item => map (fun dropped => Tried (if_correlation_id dropped) None) (overflowing q) ++ [Sent (if_correlation_id item)]
  | _ => []
  end.

Definition response_events (en : ResponseEnd) : list PipeEvent :=
  match en with
  | NoItem => []
  | Responded item [] _ => [Tried (if_correlation_id item) None]
  | Responded item ((expected, got) :: _) _ => [Tried expected (Some got)]
  end.

Definition answer_events (q : SafeQueue OutputLayerWrapper) (o : OutputLayerWrapper) : list PipeEvent :=
  map (fun dropped => PushedOut (correlation_id (out_meta_data dropped))) (overflowing q) ++ [Answered (correlation_id (out_meta_data o))].

(** The unit of requester [sid], whose responses arrive at [a], among the other
    threads, as long as it stays subscribed.  A wait for a response is placed where it
    ends. *)
Inductive pipe_step (sid : Z) (a : nat) : PipeState -> list PipeEvent -> PipeState -> Prop :=
| step_inference e u l b en u' l' b' :
    InferenceThread_iteration e u l b = Some (en, u', l', b') ->
    pipe_step sid a (u, l, b) (cycle_events (inflight_q_ u) en) (u', l', b')
| step_answer u l b o q : result_queues b !! a = Some q ->
    pipe_step sid a (u, l, b) (answer_events q o) (u, l, dispatch_push b o a)
| step_response env u l b en u' b' : (forall i b, re_others env i b = b) ->
    ResponseThread_iteration env u b = Some (en, u', b') ->
    pipe_step sid a (u, l, b) (response_events en) (u', l, b')
| step_unit u l b u' : inflight_q_ u' = inflight_q_ u -> frame_count_ u' = frame_count_ u ->
    pipe_step sid a (u, l, b) [] (u', l, b)
| step_balancer u l b b' : respond_lookup b' sid = respond_lookup b sid -> result_queues b' !! a = result_queues b !! a ->
    pipe_step sid a (u, l, b) [] (u, l, b').

Inductive pipe_trace (sid : Z) (a : nat) : nat -> PipeState -> list PipeEvent -> PipeState -> Prop :=
| pipe_nil st : pipe_trace sid a 0 st [] st
| pipe_cons n st st' st'' evs evs' : pipe_step sid a st evs st' -> pipe_trace sid a n st' evs' st'' ->
    pipe_trace sid a (S n) st (evs ++ evs') st''.

(** One engine, subscribed under [sid], for the thread and for all frames in flight. *)
Definition single_engine (sid : Z) (item : InflightItem) : Prop :=
  exists e, if_engines item = [e] /\ ei_subscribe_id e = sid.

Record pipe_ok (sid : Z) (a : nat) (st : PipeState) : Prop := {
  po_engine : exists c, detection_engines (snd (fst st)) = [c] /\ subscribe_id c = sid;
  po_items : Forall (single_engine sid) (q_ (inflight_q_ (fst (fst st))));
  po_lookup : respond_lookup (snd st) sid = Some a;
  po_queue : exists q, result_queues (snd st) !! a = Some q
}.

Definition inflight_ids (st : PipeState) : list Z := map if_correlation_id (q_ (inflight_q_ (fst (fst st)))).
Definition waiting_ids (a : nat) (st : PipeState) : list Z :=
  match result_queues (snd st) !! a with
  | Some q => map (fun o => correlation_id (out_meta_data o)) (q_ q)
  | None => []
  end.

Lemma enqueue_content {T} (q : SafeQueue T) t : q_ q ++ [t] = overflowing q ++ q_ (enqueue q t).
Proof.
  unfold overflowing, enqueue. fold (is_full q). destruct (is_full q) eqn:E; [| done].
  unfold is_full in E. bool_to_prop. cbn. destruct (q_ q) eqn:Eq; [| done].
  unfold q_size in *. rewrite Eq in *. cbn in *. lia.
Qed.

Lemma dequeue_content {T} (q q' : SafeQueue T) o :
  dequeue_wait_for q = (o, q') -> q_ q = match o with Some t => [t] | None => [] end ++ q_ q'.
Proof. unfold dequeue_wait_for. destruct (b_terminate q), (q_ q) eqn:E; intros [= <- <-]; cbn; congruence. Qed.

(** *** The inference thread *)

Lemma RequestAsync_keeps_results b r ok b' :
  RequestAsync b r = Some (ok, b') ->
  subscribers_ b' = subscribers_ b /\ cam_result_qs_ b' = cam_result_qs_ b /\ result_queues b' = result_queues b.
Proof.
  unfold RequestAsync, select_handler, request_measure. destruct (negb _); [by intros [= <- <-] |].
  destruct (engine_handles_ b); [by intros [= <- <-] |]. cbn.
  intros H. destruct (engine_input_qs_ b !! _) as [a |]; [| done]. cbn in H. destruct (input_queues b !! a); [| done]. cbn in H.
  destruct (_ <=? _); by injection H as <- <-.
Qed.

Lemma request_all_spec e frame cid engines m b req m' b' :
  request_all e frame cid engines m b = Some (req, m', b') ->
  sublist req engines /\
  subscribers_ b' = subscribers_ b /\ cam_result_qs_ b' = cam_result_qs_ b /\ result_queues b' = result_queues b.
Proof.
  revert m b req m' b'. induction engines as [| c engines IH]; intros m b req m' b'; cbn [request_all].
  - intros [= <- <- <-]. split; [constructor | done].
  - destruct (GetContext m _ _ _ _) as [ctx m1].
    destruct (RequestAsync b _) as [[ok b1] |] eqn:Er; [| done]. cbn [mbind option_bind].
    destruct (request_all e frame cid engines m1 b1) as [[[req1 m2] b2] |] eqn:Ea; [| done]. cbn [mbind option_bind].
    intros [= <- <- <-]. apply RequestAsync_keeps_results in Er as (R1 & R2 & R3).
    apply IH in Ea as (Hs & A1 & A2 & A3). split; [destruct ok; by constructor |]. split_and!; congruence.
Qed.

Lemma update_schedules_same need now (u : Unit_) :
  inflight_q_ (update_schedules need now u) = inflight_q_ u /\ frame_count_ (update_schedules need now u) = frame_count_ u.
Proof. unfold update_schedules. by case_if. Qed.

Record inference_spec (u : Unit_) (l : InferenceLocal) (b : EngineLoadBalancer)
    (en : CycleEnd) (u' : Unit_) (l' : InferenceLocal) (b' : EngineLoadBalancer) : Prop := {
  is_engines : detection_engines l' = detection_engines l;
  is_subscribers : subscribers_ b' = subscribers_ b;
  is_cams : cam_result_qs_ b' = cam_result_qs_ b;
  is_results : result_queues b' = result_queues b;
  is_queue : match en with
             | Inflight item =>
                 inflight_q_ u' = enqueue (inflight_q_ u) item /\ if_correlation_id item = frame_count_ u /\
                 frame_count_ u' = u32 (frame_count_ u + 1) /\
                 exists req m frame, req <> [] /\ sublist req (detection_engines l) /\ if_engines item = map (make_engine_inflight m frame) req
             | _ => inflight_q_ u' = inflight_q_ u /\
                    (frame_count_ u' = frame_count_ u \/ frame_count_ u' = u32 (frame_count_ u + 1))
             end
}.

Lemma sublist_filter {A} (f : A -> bool) l : sublist (List.filter f l) l.
Proof. induction l as [| x l IH]; cbn; [constructor |]. destruct (f x); by constructor. Qed.

Lemma infer_frame_spec e frame u l b en u' l' b' :
  infer_frame e frame u l b = Some (en, u', l', b') -> inference_spec u l b en u' l' b'.
Proof.
  unfold infer_frame. destruct (check_resolution _ _ _) as [v r].
  assert (forall need now, inflight_q_ (update_schedules need now (with_resolution u r)) = inflight_q_ u /\
            frame_count_ (update_schedules need now (with_resolution u r)) = frame_count_ u) as Hu
    by (intros need now; apply (update_schedules_same need now (with_resolution u r))).
  assert (forall need en u' l' b',
    (let m := if need : bool then ClearAll (context_manager l) else context_manager l in
     let u := update_schedules need (ie_now e) (with_resolution u r) in
      let active := List.filter (fun engine => is_active_condition engine RGB) (detection_engines l) in
      let required := foldl (fun keys engine => set_insert (engine_key engine) keys) [] active in
      match active with
      | [] => Some (NoActiveEngine, u, mkLocal (detection_engines l) m, b)
      | _ =>
          '(ok, m) ← preprocess e frame required m;
          if negb ok then Some (PreprocessFailed, u, mkLocal (detection_engines l) m, b)
          else
            let correlation := frame_count_ u in
            let u := with_frame_count u (u32 (frame_count_ u + 1)) in
            '(requested, m, b) ← request_all e frame correlation active m b;
            let l := mkLocal (detection_engines l) m in
            match requested with
            | [] => Some (AllDropped, u, l, b)
            | _ =>
                let item := mkInflight frame (map (make_engine_inflight m frame) requested) correlation INFERENCE_WAIT_MS in
                Some (Inflight item, with_inflight_q u (enqueue (inflight_q_ u) item), l, b)
            end
      end) = Some (en, u', l', b') -> inference_spec u l b en u' l' b') as Hmain.
  { intros need en0 u0 l0 b0. cbv zeta. destruct (Hu need (ie_now e)) as [Hq Hc].
    set (u1 := update_schedules need (ie_now e) (with_resolution u r)) in *.
    pose proof (sublist_filter (fun engine => is_active_condition engine RGB) (detection_engines l)) as Hsub.
    destruct (List.filter _ (detection_engines l)) as [| c active]; [intros [= <- <- <- <-]; by split; eauto |].
    destruct (preprocess _ _ _ _) as [[ok m1] |]; [| done]. cbn [mbind option_bind].
    destruct ok; cbn [negb]; [| intros [= <- <- <- <-]; by split; eauto].
    destruct (request_all _ _ _ _ _ _) as [[[req m2] b2] |] eqn:Ea; [| done]. cbn [mbind option_bind].
    apply request_all_spec in Ea as (Hs & A1 & A2 & A3).
    destruct req as [| c1 req].
    - intros [= <- <- <- <-]. split; cbn; try done. rewrite Hc. by auto.
    - intros [= <- <- <- <-]. split; cbn [detection_engines]; try done.
      cbn [inflight_q_ frame_count_ with_frame_count with_inflight_q if_correlation_id if_engines]. rewrite Hq, Hc.
      split_and!; try done. exists (c1 :: req), m2, frame. split_and!; [done | by etrans | done]. }
  destruct v; [apply (Hmain false) | | apply (Hmain true)].
  intros [= <- <- <- <-]. split; cbn; by auto.
Qed.

Lemma inference_iteration_spec e u l b en u' l' b' :
  InferenceThread_iteration e u l b = Some (en, u', l', b') -> inference_spec u l b en u' l' b'.
Proof.
  unfold InferenceThread_iteration. destruct (dequeue_wait_for (avframe_q_ u)) as [[frame |] q].
  - case_if; [intros [= <- <- <- <-]; by split; eauto |]. case_if; [intros [= <- <- <- <-]; by split; eauto |].
    intros H%infer_frame_spec. destruct H as [H1 H2 H3 H4 H5]. by split.
  - intros [= <- <- <- <-]. by split; eauto.
Qed.

(** *** The response thread *)

Lemma AddInferCount_same b s :
  subscribers_ (AddInferCount b s) = subscribers_ b /\ cam_result_qs_ (AddInferCount b s) = cam_result_qs_ b /\
  result_queues (AddInferCount b s) = result_queues b.
Proof. done. Qed.

Lemma respond_lookup_same b b' sid :
  subscribers_ b' = subscribers_ b -> cam_result_qs_ b' = cam_result_qs_ b -> respond_lookup b' sid = respond_lookup b sid.
Proof. unfold respond_lookup, respond_subscribed, respond_queue. by intros -> ->. Qed.

(** What a frame's only engine gives it. *)
Lemma collect_single env item e b a q :
  (forall i b, re_others env i b = b) -> respond_lookup b (ei_subscribe_id e) = Some a -> result_queues b !! a = Some q ->
  exists o q' b', collect_responses env item 0 [e] b =
      (match o with Some r => merge_response e (infer_objects_out r) | None => [] end,
       match o with Some r => [(if_correlation_id item, correlation_id (out_meta_data r))] | None => [] end, b') /\
    q_ q = match o with Some r => [r] | None => [] end ++ q_ q' /\
    respond_lookup b' (ei_subscribe_id e) = Some a /\ result_queues b' !! a = Some q'.
Proof.
  intros Ho Hl Hq. cbn [collect_responses]. case_if; [by exists None, q, b |].
  rewrite Ho. unfold RespondAsync. rewrite Hl. unfold respond_dequeue. rewrite Hq.
  destruct (dequeue_wait_for q) as [o q'] eqn:Ed. pose proof (dequeue_content _ _ _ Ed) as Hc.
  destruct o as [r |].
  - exists (Some r), q'. eexists. split; [by rewrite app_nil_r |]. split; [done |].
    cbn [result_queues AddInferCount set_subscribers set_results]. rewrite lookup_insert_eq. split; [| done].
    rewrite <- Hl. by apply respond_lookup_same.
  - exists None, q'. eexists. split; [done |]. split; [done |].
    cbn [result_queues set_results]. rewrite lookup_insert_eq. split; [| done].
    rewrite <- Hl. by apply respond_lookup_same.
Qed.

Lemma response_iteration_spec sid a env (u : Unit_) b en u' b' q :
  (forall i b, re_others env i b = b) ->
  Forall (single_engine sid) (q_ (inflight_q_ u)) ->
  respond_lookup b sid = Some a -> result_queues b !! a = Some q ->
  ResponseThread_iteration env u b = Some (en, u', b') ->
  exists q', result_queues b' !! a = Some q' /\ respond_lookup b' sid = Some a /\
    frame_count_ u' = frame_count_ u /\
    map if_correlation_id (q_ (inflight_q_ u)) = map fst (tried (response_events en)) ++ map if_correlation_id (q_ (inflight_q_ u')) /\
    map (fun o => correlation_id (out_meta_data o)) (q_ q) =
      omap snd (tried (response_events en)) ++ map (fun o => correlation_id (out_meta_data o)) (q_ q') /\
    Forall (single_engine sid) (q_ (inflight_q_ u')) /\ sent (response_events en) = [] /\ answered (response_events en) = [].
Proof.
  intros Ho Hs Hl Hq. unfold ResponseThread_iteration.
  destruct (dequeue_wait_for (inflight_q_ u)) as [opt_item iq] eqn:Ed. apply dequeue_content in Ed as Hd.
  destruct opt_item as [item |].
  - rewrite Hd in Hs. cbn in Hs. apply Forall_cons in Hs as [(e & He & Hsid) Hs]. rewrite He.
    rewrite <- Hsid in Hl |- *.
    destruct (collect_single env item e b a q Ho Hl Hq) as (o & q' & b1 & Hc & Hqq & Hl' & Hq'). rewrite Hc.
    destruct (track_classes _ _ _ _) as [[tracks t] |]; [| done]. cbn [mbind option_bind]. intros [= <- <- <-].
    exists q'. split; [done |]. split; [done |].
    set (u1 := with_tracking (with_inflight_q u iq) t).
    set (u2 := match tracks with [] => u1 | _ :: _ => _ end).
    assert (inflight_q_ u2 = iq /\ frame_count_ u2 = frame_count_ u) as [-> ->] by (unfold u2; by destruct tracks).
    rewrite Hd, Hqq. split; [done |]. rewrite <- Hsid in Hs. destruct o as [r |]; cbn; split_and!; done.
  - intros [= <- <- <-]. exists q. cbn. rewrite Hd. cbn. split_and!; try done. by rewrite Hd in Hs.
Qed.

(** *** Conservation *)

Lemma sent_app e1 e2 : sent (e1 ++ e2) = sent e1 ++ sent e2.
Proof. apply omap_app. Qed.
Lemma answered_app e1 e2 : answered (e1 ++ e2) = answered e1 ++ answered e2.
Proof. apply omap_app. Qed.
Lemma tried_app e1 e2 : tried (e1 ++ e2) = tried e1 ++ tried e2.
Proof. apply omap_app. Qed.
Lemma taken_app e1 e2 : taken (e1 ++ e2) = taken e1 ++ taken e2.
Proof. apply omap_app. Qed.

Lemma taken_response en : taken (response_events en) = omap snd (tried (response_events en)).
Proof. by destruct en as [| ? [| []]]. Qed.

(** Frames without a response and responses pushed out are the whole difference. *)
Lemma taken_tried evs : (length (taken evs) + length (given_up evs) = length (tried evs) + length (pushed_out evs))%nat.
Proof. induction evs as [| [| | | i [y |]] evs IH]; cbn in *; try done; unfold taken, given_up, tried, pushed_out in *; lia. Qed.

(** The events of an overflow. *)
Lemma dropped_events (l : list InflightItem) :
  let evs := map (fun d => Tried (if_correlation_id d) None) l in
  sent evs = [] /\ answered evs = [] /\ map fst (tried evs) = map if_correlation_id l /\ taken evs = [].
Proof. induction l as [| d l (H1 & H2 & H3 & H4)]; [done |]. cbn. split_and!; try done. by f_equal. Qed.

Lemma pushed_out_events (l : list OutputLayerWrapper) :
  let evs := map (fun o => PushedOut (correlation_id (out_meta_data o))) l in
  sent evs = [] /\ answered evs = [] /\ tried evs = [] /\ taken evs = map (fun o => correlation_id (out_meta_data o)) l.
Proof. induction l as [| d l (H1 & H2 & H3 & H4)]; [done |]. cbn. split_and!; try done. by f_equal. Qed.

(** Frames leave in the order they came, responses in the order they arrived. *)
Record conserved (a : nat) (st : PipeState) (evs : list PipeEvent) (st' : PipeState) : Prop := {
  cv_frames : inflight_ids st ++ sent evs = map fst (tried evs) ++ inflight_ids st';
  cv_responses : waiting_ids a st ++ answered evs = taken evs ++ waiting_ids a st'
}.

Lemma sublist_single {A} (x : A) l : l <> [] -> sublist l [x] -> l = [x].
Proof.
  intros Hne Hs. destruct l as [| z l]; [done |]. apply sublist_cons_l in Hs as (k1 & k2 & Heq & Hs).
  destruct k1 as [| z' k1]; [| by destruct k1]. injection Heq as -> <-. by apply sublist_nil_r in Hs as ->.
Qed.

Lemma step_conserved sid a st evs st' :
  pipe_step sid a st evs st' -> pipe_ok sid a st -> pipe_ok sid a st' /\ conserved a st evs st'.
Proof.
  intros Hstep [(c & Hc & Hcs) Hi Hl [q0 Hq]]. destruct Hstep as
    [e u l b en u' l' b' Hit | u l b o q Hqa | env u l b en u' b' Hre Hit | u l b u' Hiq Hfc | u l b b' Hlk Hrq];
    cbn [fst snd] in *.
  - apply inference_iteration_spec in Hit as [S1 S2 S3 S4 S5].
    assert (respond_lookup b' sid = Some a) as Hl' by (rewrite <- Hl; by apply respond_lookup_same).
    assert (waiting_ids a (u', l', b') = waiting_ids a (u, l, b)) as Hw by (unfold waiting_ids; cbn; by rewrite S4).
    destruct en as [| | | | | | | item]; cbn [cycle_events] in *; try (destruct S5 as [S5 _];
      split; [split; cbn [fst snd]; [by exists c; rewrite S1 | by rewrite S5 | done | by rewrite S4; eauto]
             | split; [unfold inflight_ids; cbn; by rewrite S5, app_nil_r | rewrite Hw; cbn; by rewrite app_nil_r]]).
    destruct S5 as (S5 & S6 & S7 & req & m & frame & Hne & Hsub & Heng).
    rewrite Hc in Hsub. apply (sublist_single c req Hne) in Hsub as ->.
    pose proof (enqueue_content (inflight_q_ u) item) as Hen. rewrite <- S5 in Hen.
    destruct (dropped_events (overflowing (inflight_q_ u))) as (D1 & D2 & D3 & D4).
    split; [split; cbn [fst snd] |].
    + exists c. by rewrite S1.
    + assert (Forall (single_engine sid) (overflowing (inflight_q_ u) ++ q_ (inflight_q_ u'))) as HF; [| by apply Forall_app in HF as [_ HF]].
      rewrite <- Hen. apply Forall_app. split; [done |]. apply Forall_singleton. eexists. split; [by rewrite Heng |]. done.
    + done.
    + rewrite S4. eauto.
    + split.
      * unfold inflight_ids. cbn [fst snd]. rewrite sent_app, tried_app, D1, map_app, D3. cbn. rewrite app_nil_r.
        rewrite <- map_app, <- Hen, map_app. done.
      * rewrite Hw, answered_app, taken_app, D2, D4. cbn. by rewrite app_nil_r.
  - split; [split; cbn [fst snd]; try done; [by exists c |] |].
    + cbn. rewrite lookup_alter_eq, Hqa. by eexists.
    + destruct (pushed_out_events (overflowing q)) as (D1 & D2 & D3 & D4). unfold answer_events. split.
      * rewrite sent_app, tried_app, D1, D3. cbn. by rewrite app_nil_r.
      * rewrite answered_app, taken_app, D2, D4. unfold waiting_ids. cbn [snd]. rewrite Hqa. cbn. rewrite lookup_alter_eq, Hqa. cbn.
        rewrite app_nil_r, <- map_app, <- enqueue_content. by rewrite map_app.
  - destruct (response_iteration_spec sid a env u b en u' b' q0 Hre Hi Hl Hq Hit) as (q' & R1 & R2 & R3 & R4 & R5 & R6 & R7 & R8).
    split; [split; cbn [fst snd]; eauto |]. split.
    + unfold inflight_ids. cbn [fst snd]. by rewrite R7, app_nil_r.
    + unfold waiting_ids. cbn [snd]. by rewrite Hq, R1, R8, app_nil_r, taken_response.
  - split; [split; cbn [fst snd]; eauto; by rewrite Hiq |]. split; [unfold inflight_ids; cbn; by rewrite Hiq, app_nil_r | cbn; by rewrite app_nil_r].
  - split; [split; cbn [fst snd]; eauto; [congruence | rewrite Hrq; eauto] |].
    split; [cbn; by rewrite app_nil_r | unfold waiting_ids; cbn; by rewrite Hrq, app_nil_r].
Qed.

Lemma trace_conserved sid a n st evs st' :
  pipe_trace sid a n st evs st' -> pipe_ok sid a st -> conserved a st evs st'.
Proof.
  induction 1 as [st | n st st1 st2 e1 e2 Hs _ IH]; intros Hok; [split; cbn; by rewrite app_nil_r |].
  destruct (step_conserved _ _ _ _ _ Hs Hok) as [Hok1 [F1 R1]]. destruct (IH Hok1) as [F2 R2]. split.
  - rewrite sent_app, tried_app, map_app, app_assoc, F1, <- !app_assoc. by rewrite F2.
  - rewrite answered_app, taken_app, app_assoc, R1, <- !app_assoc. by rewrite R2.
Qed.

(** *** Identifiers *)

Lemma step_ids sid a st evs st' :
  pipe_step sid a st evs st' -> 0 <= frame_count_ (fst (fst st)) < 2 ^ 32 - 1 ->
  frame_count_ (fst (fst st)) <= frame_count_ (fst (fst st')) <= frame_count_ (fst (fst st)) + 1 /\
  (sent evs = [] \/ (sent evs = [frame_count_ (fst (fst st))] /\ frame_count_ (fst (fst st')) = frame_count_ (fst (fst st)) + 1)).
Proof.
  intros Hstep. destruct Hstep as
    [e u l b en u' l' b' Hit | u l b o q Hqa | env u l b en u' b' Hre Hit | u l b u' Hiq Hfc |]; cbn [fst snd]; intros Hr;
    try (split; [lia | by left]).
  - apply inference_iteration_spec in Hit as [_ _ _ _ S5].
    assert (u32 (frame_count_ u + 1) = frame_count_ u + 1) as Hw by (apply u32_id; unfold in_u32; lia).
    destruct en as [| | | | | | | item]; try (destruct S5 as [_ [-> | ->]]; rewrite ?Hw; (split; [lia | by left])).
    destruct S5 as (_ & Hid & -> & _). rewrite Hw. split; [lia |]. right. cbn [cycle_events].
    destruct (dropped_events (overflowing (inflight_q_ u))) as (D1 & _). by rewrite sent_app, D1, Hid.
  - split; [lia |]. left. unfold answer_events. rewrite sent_app. by destruct (pushed_out_events (overflowing q)) as (-> & _).
  - unfold ResponseThread_iteration in Hit.
    destruct (dequeue_wait_for (inflight_q_ u)) as [[item |] q]; [| injection Hit as <- <- <-; cbn; split; [lia | by left]].
    destruct (collect_responses _ _ _ _ _) as [[mg pairs] b1].
    destruct (track_classes _ _ _ _) as [[tracks t] |]; [| done]. cbn [mbind option_bind] in Hit. injection Hit as <- <- <-.
    assert (sent (response_events (Responded item pairs tracks)) = []) as -> by (by destruct pairs as [| []]).
    destruct tracks; cbn; (split; [lia | by left]).
Qed.

Lemma trace_ids sid a n st evs st' :
  pipe_trace sid a n st evs st' -> 0 <= frame_count_ (fst (fst st)) -> frame_count_ (fst (fst st)) + Z.of_nat n < 2 ^ 32 ->
  NoDup (sent evs) /\ Forall (fun i => frame_count_ (fst (fst st)) <= i) (sent evs).
Proof.
  induction 1 as [st | n st st1 st2 e1 e2 Hs _ IH]; intros H0 Hb; [split; constructor |].
  destruct (step_ids _ _ _ _ _ Hs ltac:(lia)) as [Hf Hsent]. destruct (IH ltac:(lia) ltac:(lia)) as [Hnd Hge].
  rewrite sent_app. destruct Hsent as [-> | [-> Hc]]; cbn [app].
  - split; [done |]. eapply Forall_impl; [exact Hge |]. cbn. lia.
  - split.
    + constructor; [| done]. intros Hin. rewrite Forall_forall in Hge. specialize (Hge _ Hin). cbn in Hge. lia.
    + constructor; [lia |]. eapply Forall_impl; [exact Hge |]. cbn. lia.
Qed.

(** C19: a frame gets its own response exactly as long as the losses balance.  Start
    a camera with one engine and empty queues and let its threads and the rest of
    the program interleave as they like while it stays subscribed, the engine answering
    in the order of the requests: then a frame that is processed with a response is
    processed with its own response if and only if, until then, as many responses were
    pushed out of the camera's full result queue (of ten) as frames were processed
    without a response.  So one wait that ends too early, or one frame pushed out of the
    full queue of frames, gives every later frame the objects of an earlier one, until
    a response is lost in turn. *)
Theorem own_response_iff_none_lost sid a n (u : Unit_) l b before after st' x y :
  pipe_trace sid a n (u, l, b) (before ++ Tried x (Some y) :: after) st' -> pipe_ok sid a (u, l, b) ->
  inflight_ids (u, l, b) = [] -> waiting_ids a (u, l, b) = [] ->
  0 <= frame_count_ u -> frame_count_ u + Z.of_nat n < 2 ^ 32 ->
  answered (before ++ Tried x (Some y) :: after) `prefix_of` sent (before ++ Tried x (Some y) :: after) ->
  (x = y <-> length (given_up before) = length (pushed_out before)).
Proof.
  set (evs := before ++ Tried x (Some y) :: after). intros Htr Hok HI HR H0 Hn [rest Hpre].
  destruct (trace_conserved _ _ _ _ _ _ Htr Hok) as [HF HW]. rewrite HI in HF. rewrite HR in HW. cbn [app] in HF, HW.
  destruct (trace_ids _ _ _ _ _ _ Htr H0 Hn) as [Hnd _].
  assert (sent evs !! length (tried before) = Some x) as Hx.
  { rewrite HF. unfold evs. rewrite tried_app, map_app, <- app_assoc. rewrite <- (length_map fst (tried before)). by apply list_lookup_middle. }
  assert (sent evs !! length (taken before) = Some y) as Hy.
  { rewrite Hpre, HW. unfold evs. rewrite taken_app, <- !app_assoc. by apply list_lookup_middle. }
  pose proof (taken_tried before) as Hc. transitivity (length (taken before) = length (tried before)); [| lia].
  split; [intros ->; symmetry; by apply (NoDup_lookup _ _ _ _ Hnd Hx Hy) | intros Heq; rewrite Heq in Hy; congruence].
Qed.

End Unit.

(** ** A camera of its own: one engine, frames of 640 by 480 *)

#[local] Existing Instance SortProps.demo_cv.
#[local] Existing Instance Letterbox.demo_ffmpeg.

Definition demo_classes : json :=
  JObject [("classify_activate", JBool true); ("num_class", JInt 3);
           ("names", JObject [("0", JString "person"); ("2", JString "car")])]%string.

Definition demo_lb : EngineLoadBalancer :=
  let b := EngineLoadBalancer_make [demo_profile 1 10 MAGIC_DETECTION_ENGINE_NAME] in
  set_inputs (snd (Linker b (1, 0) 7)) {[ 7%nat := SafeQueue_make ]}.

Definition demo_setup : bool * InferenceLocal * RtspDetectorUnit (K := XYSR) * EngineLoadBalancer :=
  inference_setup (fun _ => Some demo_classes) 0 true true (RtspDetectorUnit_make 4) demo_lb.
Definition demo_local : InferenceLocal := snd (fst (fst demo_setup)).
Definition demo_lb_subscribed : EngineLoadBalancer := snd demo_setup.

(** The unit with two frames waiting. *)
Definition demo_unit : RtspDetectorUnit (K := XYSR) :=
  let u := snd (fst demo_setup) in
  let u := with_avframe_q u (enqueue (enqueue (avframe_q_ u) (mkFrame 640 480 0 1)) (mkFrame 640 480 0 2)) in
  with_inflight_q u (SetMaxSize (inflight_q_ u) 10).

Definition demo_sid : Z := Eval vm_compute in match detection_engines demo_local with [c] => subscribe_id c | _ => 0 end.

Definition demo_env : InferenceEnv := mkInferenceEnv (fun _ => 0) res_h (fun _ => 0%nat) (fun _ => [0]).
Definition demo_wait (elapsed : Z) : ResponseEnv := mkResponseEnv (fun _ => elapsed) (fun _ b => b).

Definition demo_answer (i : Z) : OutputLayerWrapper := mkOutput (mkMeta demo_sid 1 640 640 i) (1, 0) [].

Lemma withdrawn_exclusion_still_excludes_witness :
  let m := snd (RegisterCallback 4 tt "uuid-1" (mkManager "CamId" ∅)) in
  let '(_, _, calls) := SioEventBinder_Run (fun _ => (200, JArray [])) demo_event m in
  exists newData, (tt, newData) ∈ calls /\ is_exclude (data newData) = false /\
    exists en u', InferenceThread_iteration demo_env (on_exclude_setting newData demo_unit) demo_local demo_lb_subscribed =
      Some (en, u', demo_local, demo_lb_subscribed) /\ (en = NoFrame \/ en = EngineNotLoaded \/ en = CameraExcluded).
Proof.
  intros m.
  assert (no_record_response (fun _ => (200, JArray [])) demo_event (unit_key_name_ m)) as Hr.
  { exists (JArray []). split; [vm_compute; reflexivity |]. intros u _. reflexivity. }
  pose proof (withdrawn_exclusion_still_excludes (fun _ => (200, JArray [])) m demo_event demo_unit "uuid-1" tt Hr
    ltac:(apply (bool_decide_unpack _); vm_compute; exact I) ltac:(vm_compute; discriminate) ltac:(vm_compute; reflexivity)) as H.
  destruct (SioEventBinder_Run _ demo_event m) as [[o m'] calls]. destruct H as (d & Hd & Hx & Hit).
  exists d. split; [done |]. split; [done |]. exact (Hit demo_env demo_local demo_lb_subscribed).
Defined.

Definition demo_state : PipeState (K := XYSR) := (demo_unit, demo_local, demo_lb_subscribed).

(** The wait for the first frame's response ends too early; both responses come
    later, and the second frame gets the first one's. *)
Lemma own_response_iff_none_lost_witness :
  exists evs st', pipe_trace demo_sid 0 6 demo_state evs st' /\
    evs = [Sent 0; Sent 1; Tried 0 None; Answered 0; Answered 1] ++ [Tried 1 (Some 0)] /\
    (1 = 0 <-> length (given_up [Sent 0; Sent 1; Tried 0 None; Answered 0; Answered 1]) = 0%nat).
Proof.
  assert (exists evs st', pipe_trace demo_sid 0 6 demo_state evs st' /\
            evs = [Sent 0; Sent 1; Tried 0 None; Answered 0; Answered 1] ++ [Tried 1 (Some 0)]) as (evs & st' & Htr & ->).
  { eexists _, _. split.
    - eapply pipe_cons; [eapply (step_inference _ _ demo_env); vm_compute; reflexivity |].
      eapply pipe_cons; [eapply (step_inference _ _ demo_env); vm_compute; reflexivity |].
      eapply pipe_cons; [eapply (step_response _ _ (demo_wait 6000)); [done | vm_compute; reflexivity] |].
      eapply pipe_cons; [eapply (step_answer _ _ _ _ _ (demo_answer 0)); vm_compute; reflexivity |].
      eapply pipe_cons; [eapply (step_answer _ _ _ _ _ (demo_answer 1)); vm_compute; reflexivity |].
      eapply pipe_cons; [eapply (step_response _ _ (demo_wait 0)); [done | vm_compute; reflexivity] |].
      apply pipe_nil.
    - vm_compute. reflexivity. }
  eexists _, st'. split; [exact Htr |]. split; [reflexivity |].
  refine (own_response_iff_none_lost demo_sid 0 6 demo_unit demo_local demo_lb_subscribed _ [] st' 1 0 Htr _ _ _ _ _ _).
  - split; cbn [fst snd].
    + eexists. split; vm_compute; reflexivity.
    + vm_compute. constructor.
    + vm_compute. reflexivity.
    + eexists. vm_compute. reflexivity.
  - vm_compute. reflexivity.
  - vm_compute. reflexivity.
  - vm_compute. discriminate.
  - vm_compute. reflexivity.
  - apply (bool_decide_unpack _). vm_compute. exact I.
Defined.
