(* ===== verification/DetectorEvents.v ===== *)
(** * From tracks to events

    What the event thread promises: it runs the schedules of its camera side by side,
    each as if it were alone, and sends one message for each report. *)

From Stdlib Require Import SpecFloat String.
From stdpp Require Import gmap.
From S2P Require Import Prelude Float32 InferObject Geometry History Schedule Checkers CheckersProps Kalman Sort SortProps StringUtils Json SettingData EngineTypes SafeQueue LoadBalancer Letterbox EngineClient DetectorUnit DetectorPipeline.
Open Scope Z_scope.
Open Scope list_scope.

Section Events.
Context {K : Type} `{CV : !OpenCV K} `{FF : !FFmpeg}.
Abbreviation Unit_ := (RtspDetectorUnit (K := K)).
Abbreviation Job := (EventEnv * EventItem)%type.

(** ** One pass over the schedules *)

(** The call of the [k]-th schedule. *)
Definition call_of (job : Job) (k : nat) : Call :=
  mkCall (ee_readings (fst job) k) (ee_black (fst job) k) (ee_week (fst job) k) (ee_range (fst job) k)
    (ev_track_results (snd job)).

(** The message of the [k]-th schedule, if it reports. *)
Definition message_of (u : Unit_) (job : Job) (path : string) (k : nat) (s : Schedule) (res : DataLayer) : list EventMessage :=
  match res with
  | [] => []
  | _ => [BuildNotifyJsonImpl_Analysis u s res (ee_time (fst job)) path (ee_uuid (fst job) k)]
  end.

Fixpoint messages_from (u : Unit_) (job : Job) (path : string) (k : nat) (schedules : list Schedule) (results : list DataLayer)
    : list EventMessage :=
  match schedules, results with
  | s :: schedules, res :: results => message_of u job path k s res ++ messages_from u job path (S k) schedules results
  | _, _ => []
  end.

Lemma build_same u s s' res t path uuid :
  sch_info s' = sch_info s ->
  BuildNotifyJsonImpl_Analysis u s' res t path uuid = BuildNotifyJsonImpl_Analysis (K := K) u s res t path uuid.
Proof. intros H. unfold BuildNotifyJsonImpl_Analysis, event_object. by rewrite H. Qed.

Lemma check_schedules_spec env item u path k schedules events schedules' :
  check_schedules env u path k (ev_track_results item) schedules = Some (events, schedules') ->
  exists results,
    Forall2 (fun '(j, s) '(res, s') => check_call (call_of (env, item) j) s = Some (res, s'))
      (zip (seq k (length schedules)) schedules) (zip results schedules') /\
    length results = length schedules /\ length schedules' = length schedules /\
    events = messages_from u (env, item) path k schedules results.
Proof.
  revert k events schedules'. induction schedules as [| s schedules IH]; intros k events schedules'; cbn [check_schedules].
  - intros [= <- <-]. exists []. split_and!; [constructor | done..].
  - destruct (Check_ _ _ _ _ _ _) as [[res s1] |] eqn:Ec; [| done]. cbn [mbind option_bind].
    destruct (check_schedules env u path (S k) _ schedules) as [[ev rest] |] eqn:Er; [| done]. cbn [mbind option_bind].
    intros [= <- <-]. destruct (IH _ _ _ Er) as (results & HF & Hl & Hl' & ->).
    exists (res :: results). split_and!; [| cbn; lia | cbn; lia |].
    + cbn. constructor; [exact Ec | exact HF].
    + cbn [messages_from]. destruct res as [| o res]; [done |]. cbn [message_of app fst]. f_equal.
      apply build_same. by destruct (check_call_spec (call_of (env, item) k) s _ Ec) as [[-> _] _].
Qed.

(** ** The run of the thread *)

(** The messages that are sent: without its snapshot an item sends nothing. *)
Definition messages_of (en : EventEnd) : list EventMessage :=
  match en with Emitted events => events | _ => [] end.

(** What comes of an item for which the schedules report [ms]. *)
Definition outcome (ms : list EventMessage) (en : EventEnd) : Prop :=
  match ms with [] => en = NoEvent | _ => en = Emitted ms \/ en = SnapshotFailed ms end.

Abbreviation EventState := (Unit_ * FrameFormattingContext)%type.

(** What happens to the schedules: an item reaches them, with the unit as it is then and what
    comes of the item; or the inference thread puts others in their place. *)
Inductive EventEntry := Checked (u : Unit_) (job : Job) (en : EventEnd) | Renewed (schedules : list Schedule).

(** The event thread among the others: between two of its turns they do anything to the unit
    but change its identity; a change of the schedules is in the log.  Nothing in the code keeps
    such a change from falling into a turn, where it is a race on the vector. *)
Inductive event_trace : EventState -> list EventEntry -> EventState -> Prop :=
| et_end st : event_trace st [] st
| et_check env u ctx item q en u' ctx' log st' :
    dequeue_wait_for (event_q_ u) = (Some item, q) ->
    EventThread_iteration env u ctx = Some (en, u', ctx') -> en <> NoSchedule -> en <> NoDirectory ->
    event_trace (u', ctx') log st' -> event_trace (u, ctx) (Checked u (env, item) en :: log) st'
| et_skip env u ctx en u' ctx' log st' :
    EventThread_iteration env u ctx = Some (en, u', ctx') -> en = NoEventItem \/ en = NoSchedule \/ en = NoDirectory ->
    event_trace (u', ctx') log st' -> event_trace (u, ctx) log st'
| et_others u ctx u' log st' :
    scheduler_ (scheduling u') = scheduler_ (scheduling u) -> id_ u' = id_ u ->
    event_trace (u', ctx) log st' -> event_trace (u, ctx) log st'
| et_renew u ctx u' log st' :
    id_ u' = id_ u -> event_trace (u', ctx) log st' -> event_trace (u, ctx) (Renewed (scheduler_ (scheduling u')) :: log) st'.

(** What a message is made of besides the schedule. *)
Definition same_sender (u u' : Unit_) : Prop :=
  id_ u' = id_ u /\ resolution u' = resolution u /\ socket_io_server_id_ u' = socket_io_server_id_ u.

Lemma messages_sender u u' job path k schedules results :
  same_sender u u' -> messages_from u' job path k schedules results = messages_from u job path k schedules results.
Proof.
  intros (H1 & H2 & H3). revert k results. induction schedules as [| s schedules IH]; intros k [| res results]; try done.
  cbn [messages_from]. rewrite IH. f_equal. destruct res; [done |]. cbn [message_of].
  unfold BuildNotifyJsonImpl_Analysis, event_object. by rewrite H1, H2, H3.
Qed.

Lemma messages_config u job path k schedules schedules' results :
  Forall2 (fun s s' => sch_info s' = sch_info s) schedules schedules' ->
  messages_from u job path k schedules' results = messages_from u job path k schedules results.
Proof.
  intros HF. revert k results. induction HF as [| s s' schedules schedules' Hs _ IH]; intros k [| res results]; try done.
  cbn [messages_from]. rewrite IH. f_equal. destruct res; [done |]. cbn [message_of]. f_equal. by apply build_same.
Qed.

(** Where the image of a job goes. *)
Definition path_of (u : Unit_) (job : Job) : option string :=
  MakeImageSavePath u FULL_FRAME_IMAGE_SAVE_ROOT_PATH (ee_path_time (fst job)) (ee_path_uuid (fst job)) (ee_directory_made (fst job)).

Lemma iteration_checked env (u : Unit_) ctx item q en (u' : Unit_) ctx' :
  dequeue_wait_for (event_q_ u) = (Some item, q) ->
  EventThread_iteration env u ctx = Some (en, u', ctx') -> en <> NoSchedule -> en <> NoDirectory ->
  exists path results,
    path_of u (env, item) = Some path /\
    Forall2 (fun '(j, s) '(res, s') => check_call (call_of (env, item) j) s = Some (res, s'))
      (zip (seq 0 (length (scheduler_ (scheduling u)))) (scheduler_ (scheduling u))) (zip results (scheduler_ (scheduling u'))) /\
    length results = length (scheduler_ (scheduling u)) /\ length (scheduler_ (scheduling u')) = length (scheduler_ (scheduling u)) /\
    outcome (messages_from u (env, item) path 0 (scheduler_ (scheduling u)) results) en /\
    id_ u' = id_ u /\
    io_work_queue_ u' = (match en with Emitted _ => enqueue (io_work_queue_ u) (mkIOWork path (ev_frame item)) | _ => io_work_queue_ u end).
Proof.
  unfold EventThread_iteration. intros -> H Hn1 Hn2. change (scheduling (with_event_q u q)) with (scheduling u) in H.
  destruct (scheduler_ (scheduling u)) as [| s0 schedules] eqn:Es; [by injection H as <- _ _ |]. rewrite <- Es in H |- *.
  change (MakeImageSavePath (with_event_q u q)) with (MakeImageSavePath u) in H. unfold path_of. cbn [fst].
  destruct (MakeImageSavePath _ _ _ _ _) as [path |]; [| by injection H as <- _ _].
  destruct (check_schedules _ _ _ _ _ _) as [[events schedules'] |] eqn:Ec; [| done]. cbn [mbind option_bind] in H.
  apply check_schedules_spec in Ec as (results & HF & Hl & Hl' & Hev).
  exists path, results. split; [done |].
  rewrite (messages_sender u) in Hev by done.
  destruct events as [| ev events].
  - injection H as <- <- _. rewrite <- Hev. by split_and!.
  - destruct (Convert _ _ _ _ _ _) as [[converted c] |]; [| done]. cbn [mbind option_bind] in H.
    rewrite <- Hev. destruct converted; injection H as <- <- _; (split; [done |]; split; [done |]; split; [done |]; split; [by (left + right) | done]).
Qed.

Lemma iteration_skipped env (u : Unit_) ctx en (u' : Unit_) ctx' :
  EventThread_iteration env u ctx = Some (en, u', ctx') -> en = NoEventItem \/ en = NoSchedule \/ en = NoDirectory ->
  scheduling u' = scheduling u /\ id_ u' = id_ u.
Proof.
  unfold EventThread_iteration. destruct (dequeue_wait_for _) as [[item |] q]; [| by intros [= _ <- _]].
  change (scheduling (with_event_q u q)) with (scheduling u).
  destruct (scheduler_ (scheduling u)); [by intros [= _ <- _] |].
  destruct (MakeImageSavePath _ _ _ _ _); [| by intros [= _ <- _]].
  destruct (check_schedules _ _ _ _ _ _) as [[[| e es] ?] |]; [| | done]; cbn [mbind option_bind].
  - intros [= <- _ _]. by intros [|[|]].
  - destruct (Convert _ _ _ _ _ _) as [[[] ?] |]; [| | done]; cbn; intros [= <- _ _]; by intros [|[|]].
Qed.

(** The results of the [j]-th job, schedule by schedule. *)
Definition column (j : nat) (outs : list (list DataLayer)) : list DataLayer := map (fun o => default [] (o !! j)) outs.

Definition calls_of (jobs : list Job) (k : nat) : list Call := map (fun job => call_of job k) jobs.

(** The schedules on their own. *)
Record alone (schedules : list Schedule) (jobs : list Job) (outs : list (list DataLayer)) (schedules' : list Schedule)
  : Prop := {
  al_outs : length outs = length schedules;
  al_len : length schedules' = length schedules;
  al_run k s : schedules !! k = Some s -> exists out s', outs !! k = Some out /\ schedules' !! k = Some s' /\
    check_run (calls_of jobs k) s = Some (out, s')
}.

Lemma alone_cons schedules job jobs results schedules1 outs schedules' :
  Forall2 (fun '(j, s) '(res, s') => check_call (call_of job j) s = Some (res, s'))
    (zip (seq 0 (length schedules)) schedules) (zip results schedules1) ->
  length results = length schedules -> length schedules1 = length schedules ->
  alone schedules1 jobs outs schedules' -> alone schedules (job :: jobs) (zip_with cons results outs) schedules'.
Proof.
  intros HF Hr H1 [A1 A2 A3]. split.
  - rewrite length_zip_with. lia.
  - lia.
  - intros k s Hk.
    assert (k < length schedules)%nat as Hlt by (by eapply lookup_lt_Some).
    assert (is_Some (results !! k)) as [res Hres] by (apply lookup_lt_is_Some; lia).
    assert (is_Some (schedules1 !! k)) as [s1 Hs1] by (apply lookup_lt_is_Some; lia).
    assert (check_call (call_of job k) s = Some (res, s1)) as Hc.
    { assert (zip (seq 0 (length schedules)) schedules !! k = Some (k, s)) as Hz1.
      { apply lookup_zip_with_Some. exists k, s. split; [done |]. split; [| done]. apply lookup_seq. lia. }
      assert (zip results schedules1 !! k = Some (res, s1)) as Hz2 by (apply lookup_zip_with_Some; by exists res, s1).
      exact (Forall2_lookup_lr _ _ _ _ _ _ HF Hz1 Hz2). }
    destruct (A3 k s1 Hs1) as (out & s' & Ho & Hs' & Hrun). exists (res :: out), s'. split_and!; [| done |].
    + apply lookup_zip_with_Some. by exists res, out.
    + cbn [calls_of map check_run]. rewrite Hc. unfold calls_of in Hrun. by rewrite Hrun.
Qed.

Lemma checked_config schedules job results schedules1 :
  Forall2 (fun '(j, s) '(res, s') => check_call (call_of job j) s = Some (res, s'))
    (zip (seq 0 (length schedules)) schedules) (zip results schedules1) ->
  length results = length schedules -> length schedules1 = length schedules ->
  Forall2 (fun s s' => sch_info s' = sch_info s) schedules schedules1.
Proof.
  intros HF Hr H1. apply Forall2_same_length_lookup. split; [lia |]. intros k s s1 Hs Hs1.
  assert (is_Some (results !! k)) as [res Hres] by (apply lookup_lt_is_Some; apply lookup_lt_Some in Hs; lia).
  assert (zip (seq 0 (length schedules)) schedules !! k = Some (k, s)) as Hz1.
  { apply lookup_zip_with_Some. exists k, s. split; [done |]. split; [| done]. apply lookup_seq. apply lookup_lt_Some in Hs. lia. }
  assert (zip results schedules1 !! k = Some (res, s1)) as Hz2 by (apply lookup_zip_with_Some; by exists res, s1).
  pose proof (Forall2_lookup_lr _ _ _ _ _ _ HF Hz1 Hz2) as Hc. cbn in Hc.
  by destruct (check_call_spec _ _ _ Hc) as [[-> _] _].
Qed.

Lemma column_0 results outs : length outs = length results -> column 0 (zip_with cons results outs) = results.
Proof. revert outs. induction results as [| r results IH]; intros [| o outs]; try done. cbn. intros [= H]. f_equal. by apply IH. Qed.

Lemma column_S j results outs : length outs = length results -> column (S j) (zip_with cons results outs) = column j outs.
Proof. revert outs. induction results as [| r results IH]; intros [| o outs]; try done. cbn. intros [= H]. f_equal. by apply IH. Qed.

(** ** The abstract specification *)

(** The items that reach the same schedules, each with its unit and what came of it. *)
Abbreviation Seen := (Unit_ * Job * EventEnd)%type.

Definition checked (x : Seen) : EventEntry := let '(u, job, en) := x in Checked u job en.

(** The schedules run alone on these items, and each item has one message for each schedule whose
    run reports objects of it, in the order of the schedules, all with the path of its image. *)
Definition runs_alone (schedules : list Schedule) (seen : list Seen) (schedules' : list Schedule) : Prop :=
  exists outs, alone schedules (map (fun x => snd (fst x)) seen) outs schedules' /\
    forall j u job en, seen !! j = Some (u, job, en) ->
      exists path, path_of u job = Some path /\ outcome (messages_from u job path 0 schedules (column j outs)) en.

(** The same from one renewal of the schedules to the next. *)
Inductive runs_alone_between : list Schedule -> list EventEntry -> list Schedule -> Prop :=
| ra_last schedules seen schedules' : runs_alone schedules seen schedules' -> runs_alone_between schedules (map checked seen) schedules'
| ra_renewed schedules seen schedules1 schedules2 log schedules' :
    runs_alone schedules seen schedules1 -> runs_alone_between schedules2 log schedules' ->
    runs_alone_between schedules (map checked seen ++ Renewed schedules2 :: log) schedules'.

Lemma runs_alone_nil schedules : runs_alone schedules [] schedules.
Proof.
  exists (map (fun _ => []) schedules). split; [| done]. split; [by rewrite length_map | done |]. intros k s Hk. exists [], s. split; [| done].
  rewrite list_lookup_fmap. by rewrite Hk.
Qed.

Lemma runs_alone_cons env u ctx item q en u1 ctx1 seen schedules' :
  dequeue_wait_for (event_q_ u) = (Some item, q) -> EventThread_iteration env u ctx = Some (en, u1, ctx1) -> en <> NoSchedule -> en <> NoDirectory ->
  runs_alone (scheduler_ (scheduling u1)) seen schedules' -> runs_alone (scheduler_ (scheduling u)) ((u, (env, item), en) :: seen) schedules'.
Proof.
  intros Hd Hit Hn1 Hn2 (outs & Hal & Hmsg). destruct (iteration_checked _ _ _ _ _ _ _ _ Hd Hit Hn1 Hn2) as (path & results & Hp & HF & Hl & Hl' & Hm & _ & _).
  pose proof (al_outs _ _ _ _ Hal) as Ho. exists (zip_with cons results outs). split; [by eapply alone_cons |].
  intros [| j] u0 job en' Hj.
  - injection Hj as <- <- <-. exists path. split; [done |]. rewrite column_0 by lia. exact Hm.
  - destruct (Hmsg j u0 job en' Hj) as (path' & Hp' & Hm'). exists path'. split; [done |]. rewrite column_S by lia.
    erewrite <- messages_config; [exact Hm' |]. by eapply checked_config.
Qed.

(** C1: the event thread implements its schedules one by one.  However its turns are interleaved with
    what the other threads do to the unit, there are runs of every schedule alone, from each
    renewal of the schedules by the inference thread to the next one, on the items
    that reached the schedules between them, such that the schedules end as they do in
    these runs, and an item makes exactly one message for
    each schedule whose run reports objects of it, in the order of the schedules,
    all with the path of the item's image: with at least one message, either all of them are
    sent or, when the snapshot cannot be made, none is.  A renewal is taken to fall between
    two turns; the code has no lock that keeps it from falling into one. *)
Theorem event_thread_refines_schedules u ctx log u' ctx' :
  event_trace (u, ctx) log (u', ctx') -> runs_alone_between (scheduler_ (scheduling u)) log (scheduler_ (scheduling u')).
Proof.
  remember (u, ctx) as st eqn:Est. remember (u', ctx') as st' eqn:Est'. intros Htr. revert u ctx Est Est'.
  induction Htr as [st | env u0 ctx0 item q en u1 ctx1 log st' Hd Hit Hn1 Hn2 _ IH | env u0 ctx0 en u1 ctx1 log st' Hit Hen _ IH
                   | u0 ctx0 u1 log st' Hs Hi _ IH | u0 ctx0 u1 log st' Hi _ IH]; intros u ctx Est Est'.
  - subst st. injection Est' as -> ->. apply (ra_last _ []). apply runs_alone_nil.
  - injection Est as -> ->. specialize (IH u1 ctx1 eq_refl Est'). inversion IH as [s1 seen s2 Hr E1 E2 E3 | s1 seen s2 s3 log' s4 Hr Hrest E1 E2 E3]; subst.
    + apply (ra_last _ ((u, (env, item), en) :: seen)). by eapply runs_alone_cons.
    + apply (ra_renewed _ ((u, (env, item), en) :: seen) s2); [by eapply runs_alone_cons | done].
  - injection Est as -> ->. destruct (iteration_skipped _ _ _ _ _ _ Hit Hen) as [Hs _]. specialize (IH u1 ctx1 eq_refl Est'). by rewrite Hs in IH.
  - injection Est as -> ->. specialize (IH u1 ctx eq_refl Est'). by rewrite Hs in IH.
  - injection Est as -> ->. apply (ra_renewed _ [] (scheduler_ (scheduling u))); [apply runs_alone_nil | by eapply IH].
Qed.

End Events.

(** ** A camera with one line: the person crosses it in the first of two frames *)

#[local] Existing Instance SortProps.demo_cv.
#[local] Existing Instance Letterbox.demo_ffmpeg.

Definition demo_event_env (t : Z) : EventEnv :=
  mkEventEnv (mkLocalTime demo_tm 0) "u1" true (mkLocalTime demo_tm 0) (fun _ => demo_readings t)
    (fun _ => demo_tm) (fun _ => demo_tm) (fun _ => demo_tm) (fun _ => "u2"%string) 480 0.

Definition demo_item_at (y : Z) : EventItem := mkEventItem (mkFrame 640 480 0 1) (demo_layer y).

Definition demo_event_unit : RtspDetectorUnit (K := XYSR) :=
  let u := RtspDetectorUnit_make 4 in
  let u := with_event_q u (enqueue (enqueue (event_q_ u) (demo_item_at 585)) (demo_item_at 605)) in
  with_scheduling u (mkScheduling [] false [demo_after LineIntrusion [] demo_line 60 9]).

(** The first item is reported; then the inference thread makes the schedules anew, and the second item is not. *)
Lemma event_thread_refines_schedules_witness :
  exists log u' ctx', event_trace (demo_event_unit, FrameFormattingContext_make) log (u', ctx') /\
    map (fun e => match e with Checked _ _ en => Some (length (messages_of en)) | Renewed _ => None end) log = [Some 1; None; Some 0]%nat /\
    runs_alone_between (scheduler_ (scheduling demo_event_unit)) log (scheduler_ (scheduling u')).
Proof.
  assert (exists log u' ctx', event_trace (demo_event_unit, FrameFormattingContext_make) log (u', ctx') /\
    map (fun e => match e with Checked _ _ en => Some (length (messages_of en)) | Renewed _ => None end) log = [Some 1; None; Some 0]%nat) as (log & u' & ctx' & Htr & Hlog).
  { eexists _, _, _. split.
    - eapply (et_check (demo_event_env 10)); [vm_compute; reflexivity | vm_compute; reflexivity | discriminate | discriminate |].
      match goal with |- event_trace (?u, _) _ _ => eapply (et_renew u _ (with_scheduling u (mkScheduling [] false [demo_schedule LineIntrusion [] demo_line 60]))); [reflexivity |] end.
      eapply (et_check (demo_event_env 11)); [vm_compute; reflexivity | vm_compute; reflexivity | discriminate | discriminate |].
      apply et_end.
    - vm_compute. reflexivity. }
  exists log, u', ctx'. split; [exact Htr |]. split; [exact Hlog |]. exact (event_thread_refines_schedules demo_event_unit FrameFormattingContext_make log u' ctx' Htr).
Defined.
