(* ===== verification/DetectorStop.v ===== *)
(** * Stopping a camera

    The order in which the threads of a unit are stopped leaves no item behind,
    whatever the threads still do before they are joined. *)

From Stdlib Require Import String.
From stdpp Require Import gmap relations.
From S2P Require Import Prelude InferObject Kalman Sort SortProps Json SettingData EngineTypes SafeQueue SafeThread InferenceCounter LoadBalancer Letterbox EngineClient DetectorUnit DetectorPipeline.
Open Scope Z_scope.
Open Scope list_scope.

Section Stop.
Context {K : Type} `{CV : !OpenCV K} `{FF : !FFmpeg}.
Abbreviation Unit_ := (RtspDetectorUnit (K := K)).

(** ** What a thread does to the queues *)

Definition consumed {T} (q q' : SafeQueue T) : Prop := q' = q \/ q' = snd (dequeue_wait_for q).
Definition produced {T} (q q' : SafeQueue T) : Prop := q' = q \/ exists t, q' = enqueue q t.

(** A thread takes from its own queue and puts into the next one. *)
Record acts (s : Stage) (u u' : Unit_) : Prop := {
  ac_avframe : match s with InferenceStage => consumed | _ => eq end (avframe_q_ u) (avframe_q_ u');
  ac_inflight : match s with InferenceStage => produced | ResponseStage => consumed | _ => eq end (inflight_q_ u) (inflight_q_ u');
  ac_event : match s with ResponseStage => produced | EventStage => consumed | _ => eq end (event_q_ u) (event_q_ u');
  ac_io : match s with EventStage => produced | IOWorkerStage => consumed | _ => eq end (io_work_queue_ u) (io_work_queue_ u');
  ac_ids : subscribe_ids_ u' = subscribe_ids_ u
}.

Lemma update_schedules_queues need now (u : Unit_) :
  let u' := update_schedules need now u in
  avframe_q_ u' = avframe_q_ u /\ inflight_q_ u' = inflight_q_ u /\ event_q_ u' = event_q_ u /\
  io_work_queue_ u' = io_work_queue_ u /\ subscribe_ids_ u' = subscribe_ids_ u.
Proof. unfold update_schedules. by case_if. Qed.

Lemma infer_frame_acts e frame (u : Unit_) l b en u' l' b' :
  infer_frame e frame u l b = Some (en, u', l', b') ->
  avframe_q_ u' = avframe_q_ u /\ produced (inflight_q_ u) (inflight_q_ u') /\ event_q_ u' = event_q_ u /\
  io_work_queue_ u' = io_work_queue_ u /\ subscribe_ids_ u' = subscribe_ids_ u.
Proof.
  unfold infer_frame. destruct (check_resolution _ _ _) as [v r].
  set (need := match v with SizeChanged => true | _ => false end).
  pose proof (update_schedules_queues need (ie_now e) (with_resolution u r)) as Hu. cbv zeta in Hu.
  set (u1 := update_schedules need (ie_now e) (with_resolution u r)) in *. cbn in Hu. destruct Hu as (H1 & H2 & H3 & H4 & H5).
  assert (forall w : Unit_, avframe_q_ w = avframe_q_ u1 -> produced (inflight_q_ u1) (inflight_q_ w) -> event_q_ w = event_q_ u1 ->
            io_work_queue_ w = io_work_queue_ u1 -> subscribe_ids_ w = subscribe_ids_ u1 ->
            avframe_q_ w = avframe_q_ u /\ produced (inflight_q_ u) (inflight_q_ w) /\ event_q_ w = event_q_ u /\
            io_work_queue_ w = io_work_queue_ u /\ subscribe_ids_ w = subscribe_ids_ u) as Hw.
  { intros w. rewrite H1, H2, H3, H4, H5. done. }
  intros H. assert (v = Noise \/ v <> Noise) as [-> | Hv] by (destruct v; by auto).
  - injection H as <- <- <- <-. split_and!; try done. by left.
  - revert H. destruct v; [| done |]; cbv zeta; fold need u1;
      (destruct (List.filter _ (detection_engines l)) as [| c active];
        [intros [= <- <- <- <-]; apply Hw; try done; by left |];
       destruct (preprocess _ _ _ _) as [[[] m1] |]; [| intros [= <- <- <- <-]; apply Hw; try done; by left | done];
       cbn [mbind option_bind negb];
       destruct (request_all _ _ _ _ _ _) as [[[[| c1 req] m2] b2] |]; [| | done]; cbn [mbind option_bind];
         intros [= <- <- <- <-]; apply Hw; try done; [by left | right; eexists; reflexivity]).
Qed.

Lemma inference_acts e (u : Unit_) l b en u' l' b' :
  InferenceThread_iteration e u l b = Some (en, u', l', b') -> acts InferenceStage u u'.
Proof.
  unfold InferenceThread_iteration. destruct (dequeue_wait_for (avframe_q_ u)) as [o q] eqn:Ed.
  assert (consumed (avframe_q_ u) q) as Hq by (right; by rewrite Ed).
  destruct o as [frame |]; [| intros [= <- <- <- <-]; split; try done; by left].
  repeat case_if; try (intros [= <- <- <- <-]; split; try done; by left).
  intros (H1 & H2 & H3 & H4 & H5)%infer_frame_acts. split; cbn in *; try done. by rewrite H1.
Qed.

Lemma response_acts env (u : Unit_) b en u' b' :
  ResponseThread_iteration env u b = Some (en, u', b') -> acts ResponseStage u u'.
Proof.
  unfold ResponseThread_iteration. destruct (dequeue_wait_for (inflight_q_ u)) as [o q] eqn:Ed.
  assert (consumed (inflight_q_ u) q) as Hq by (right; by rewrite Ed).
  destruct o as [item |]; [| intros [= <- <- <-]; split; try done; by left].
  destruct (collect_responses _ _ _ _ _) as [[mg pairs] b1].
  destruct (track_classes _ _ _ _) as [[tracks t] |]; [| done]. cbn [mbind option_bind].
  intros [= <- <- <-]. destruct tracks; split; cbn; try done; [by left | right; eexists; reflexivity].
Qed.

Lemma event_acts env (u : Unit_) ctx en u' ctx' :
  EventThread_iteration env u ctx = Some (en, u', ctx') -> acts EventStage u u'.
Proof.
  unfold EventThread_iteration. destruct (dequeue_wait_for (event_q_ u)) as [o q] eqn:Ed.
  assert (consumed (event_q_ u) q) as Hq by (right; by rewrite Ed).
  destruct o as [item |]; [| intros [= <- <- <-]; split; try done; by left].
  change (scheduling (with_event_q u q)) with (scheduling u).
  destruct (scheduler_ (scheduling u)); [intros [= <- <- <-]; split; try done; by left |].
  destruct (MakeImageSavePath _ _ _ _ _); [| intros [= <- <- <-]; split; try done; by left].
  destruct (check_schedules _ _ _ _ _ _) as [[[| e es] ?] |]; [| | done]; cbn [mbind option_bind].
  - intros [= <- <- <-]; split; try done; by left.
  - destruct (Convert _ _ _ _ _ _) as [[[] ?] |]; [| | done]; cbn; intros [= <- <- <-]; split; cbn; try done;
      [right; eexists; reflexivity | by left].
Qed.

(** ** A shutdown with the threads at work

    One step of the running threads, of the camera that goes on delivering frames,
    or of the rest of the program, which never renews the unit's subscriptions. *)
Inductive at_work (alive : list Stage) : Unit_ * EngineLoadBalancer -> Unit_ * EngineLoadBalancer -> Prop :=
| aw_thread s u u' b : s ∈ alive -> acts s u u' -> at_work alive (u, b) (u', b)
| aw_camera u b frame : at_work alive (u, b) (with_avframe_q u (enqueue (avframe_q_ u) frame), b)
| aw_balancer u b b' : (forall sid, sid ∈ subscribe_ids_ u -> sid ∈ subscribers_ b' -> sid ∈ subscribers_ b) ->
    at_work alive (u, b) (u, b').

(** The stages still to be stopped, in order: the thread's flag is cleared and its
    closer runs among the others' steps; then it ends its iteration and is joined. *)
Inductive shutdown : list Stage -> Threads * Unit_ * EngineLoadBalancer -> Threads * Unit_ * EngineLoadBalancer -> Prop :=
| sd_done t u b u' b' : rtc (at_work []) (u, b) (u', b') -> shutdown [] (t, u, b) (t, u', b')
| sd_stop s rest t u b u1 b1 t2 u2 b2 u3 b3 st' :
    rtc (at_work (s :: rest)) (u, b) (u1, b1) ->
    stop_stage s t u1 b1 = (t2, u2, b2) ->
    rtc (at_work (s :: rest)) (u2, b2) (u3, b3) ->
    shutdown rest (t2, u3, b3) st' -> shutdown (s :: rest) (t, u, b) st'.

(** What holds while the stages of [rest] are not stopped yet. *)
Definition quiet {T} (q : SafeQueue T) : Prop := b_terminate q = true /\ q_ q = [].

Lemma consumed_terminated {T} (q q' : SafeQueue T) : b_terminate q = true -> consumed q q' -> q' = q.
Proof. intros Ht [-> | ->]; [done |]. unfold dequeue_wait_for. by rewrite Ht. Qed.

Lemma produced_terminated {T} (q q' : SafeQueue T) : b_terminate q = true -> produced q q' -> b_terminate q' = true.
Proof. intros Ht [-> | [t ->]]; [done |]. unfold enqueue. by case_if. Qed.

(** The stages before [s] are stopped. *)
Record stopped_before (rest : list Stage) (u : Unit_) (b : EngineLoadBalancer) : Prop := {
  sb_unsubscribed : InferenceStage ∉ rest -> forall sid, sid ∈ subscribe_ids_ u -> sid ∉ subscribers_ b;
  sb_avframe : InferenceStage ∉ rest -> b_terminate (avframe_q_ u) = true;
  sb_inflight : InferenceStage ∉ rest -> b_terminate (inflight_q_ u) = true;
  sb_inflight_empty : InferenceStage ∉ rest -> ResponseStage ∉ rest -> q_ (inflight_q_ u) = [];
  sb_event : ResponseStage ∉ rest -> b_terminate (event_q_ u) = true;
  sb_event_empty : ResponseStage ∉ rest -> EventStage ∉ rest -> q_ (event_q_ u) = [];
  sb_io : EventStage ∉ rest -> IOWorkerStage ∉ rest -> quiet (io_work_queue_ u)
}.

(** A thread still at work is not stopped, or the one after it is not. *)
Definition covered (rest : list Stage) (s : Stage) : Prop :=
  s ∈ rest \/ match s with
              | InferenceStage => ResponseStage ∈ rest
              | ResponseStage => EventStage ∈ rest
              | EventStage => IOWorkerStage ∈ rest
              | IOWorkerStage => True
              end.

(** The queue a thread did not touch, only read, or only filled. *)
Ltac same_queue Hs :=
  match goal with
  | A : ?q = ?q' |- context [?q'] => rewrite <- A; by auto
  | A : consumed ?q ?q' |- context [?q'] =>
      rewrite (consumed_terminated q q' ltac:(unfold quiet in *; tauto) A); by auto
  | A : produced ?q ?q' |- b_terminate ?q' = true => exact (produced_terminated q q' ltac:(by auto) A)
  | A : produced _ ?q' |- context [?q'] => exfalso; destruct Hs; by auto
  end.

Lemma at_work_keeps alive rest st st' :
  (forall s, s ∈ alive -> covered rest s) ->
  at_work alive st st' -> stopped_before rest (fst st) (snd st) -> stopped_before rest (fst st') (snd st').
Proof.
  intros Hcov Hw [I1 I2 I3 I4 I5 I6 I7]. destruct Hw as [s u u' b Hs [A1 A2 A3 A4 A5] | u b frame | u b b' Hb]; cbn [fst snd] in *.
  - apply Hcov in Hs. clear Hcov. unfold covered in Hs.
    split; rewrite ?A5; [exact I1 | intros H; specialize (I2 H) | intros H; specialize (I3 H) | intros H H'; specialize (I3 H); specialize (I4 H H')
      | intros H; specialize (I5 H) | intros H H'; specialize (I5 H); specialize (I6 H H') | intros H H'; specialize (I7 H H')];
      destruct s; cbn in *; same_queue Hs.
  - split; cbn; try done. intros H. unfold enqueue. case_if; cbn; by auto.
  - split; try done. intros H sid Hsid Hin. apply (I1 H sid Hsid). by apply Hb.
Qed.

Lemma rtc_keeps alive rest st st' :
  (forall s, s ∈ alive -> covered rest s) ->
  rtc (at_work alive) st st' -> stopped_before rest (fst st) (snd st) -> stopped_before rest (fst st') (snd st').
Proof. intros Hcov. induction 1; [done |]. intros. eauto using at_work_keeps. Qed.

Lemma at_work_ids rest st st' : rtc (at_work rest) st st' -> subscribe_ids_ (fst st') = subscribe_ids_ (fst st).
Proof. induction 1 as [| st st1 st2 Hw _ IH]; [done |]. rewrite IH. destruct Hw as [s u u' b Hs [A1 A2 A3 A4 A5] | |]; done. Qed.

(** ** The closers *)


Lemma unsubscribe_all ids b sid :
  (sid ∈ subscribers_ (foldl Unsubscribe b ids) -> sid ∈ subscribers_ b /\ sid ∉ ids).
Proof.
  revert b. induction ids as [| i ids IH]; intros b; cbn [foldl]; [by split; [| apply not_elem_of_nil] |].
  intros [Hs Hn]%IH.
  assert (subscribers_ (Unsubscribe b i) = subscribers_ b ∖ {[i]}) as Hu.
  { unfold Unsubscribe, unsubscribe_queue, unsubscribe_register. case_bool_decide as Hi; cbn.
    - by destruct (cam_result_qs_ b !! i).
    - rewrite difference_disjoint_L by (apply disjoint_singleton_r; exact Hi). by destruct (cam_result_qs_ b !! i). }
  rewrite Hu in Hs. apply elem_of_difference in Hs as [Hs Hi]. rewrite elem_of_singleton in Hi.
  split; [done |]. by apply not_elem_of_cons.
Qed.

Lemma stop_stage_thread s (t : Threads) (u : Unit_) b t' u' b' :
  stop_stage s t u b = (t', u', b') ->
  thread_of t' s = Stop (thread_of t s) /\ forall s', s' <> s -> thread_of t' s' = thread_of t s'.
Proof.
  unfold stop_stage. destruct (is_running_ _ && _); [destruct (closer_of s u b) as [u1 b1] |];
    intros [= <- _ _]; destruct s; (split; [done | by intros []]).
Qed.

#[export] Instance Stage_eq_dec : EqDecision Stage.
Proof. solve_decision. Defined.

(** Facts about lists of stages. *)
Ltac stages := apply (bool_decide_unpack _); vm_compute; exact I.
Ltac no_stage := match goal with H : ?s ∉ ?l |- _ => exfalso; apply H; stages end.

(** A running thread's stop, after those before it, adds its stage to those that are
    stopped. *)
Lemma stop_stage_next s rest (t : Threads) (u : Unit_) b t' u' b' pre :
  stop_order = pre ++ s :: rest ->
  is_running_ (thread_of t s) = true -> thread_closer_ (thread_of t s) = true ->
  stop_stage s t u b = (t', u', b') ->
  stopped_before (s :: rest) u b -> stopped_before rest u' b' /\ subscribe_ids_ u' = subscribe_ids_ u.
Proof.
  intros Ho Hr Hc. unfold stop_stage. rewrite Hr, Hc. cbn [andb].
  destruct (closer_of s u b) as [u1 b1] eqn:Ecl. intros [= _ <- <-] [I1 I2 I3 I4 I5 I6 I7].
  unfold stop_order in Ho.
  destruct pre as [| p0 [| p1 [| p2 [| p3 [| p4 pre]]]]]; cbn in Ho; simplify_eq; cbn in Ecl; injection Ecl as <- <-;
    (split; [| done]); split; cbn; try done; try (intros; no_stage); intros;
    try (first [apply I1 | apply I2 | apply I3 | apply I4 | apply I5 | apply I6]; (done || stages)).
  intros [_ Hn]%unsubscribe_all. apply Hn. by apply set_order_elem.
Qed.

Lemma stopped_nothing (u : Unit_) b : stopped_before stop_order u b.
Proof. split; intros; no_stage. Qed.

Definition running (t : Threads) (rest : list Stage) : Prop :=
  forall s, s ∈ rest -> is_running_ (thread_of t s) = true /\ thread_closer_ (thread_of t s) = true.

Definition joined (t : Threads) (s : Stage) : Prop := is_running_ (thread_of t s) = false /\ joinable (thread_of t s) = false.

Lemma stopping_covered pre s rest :
  stop_order = pre ++ s :: rest -> forall s', s' ∈ s :: rest -> covered rest s'.
Proof.
  intros Ho s' [-> | Hs']%elem_of_cons; [| by left]. right. unfold stop_order in Ho.
  destruct pre as [| p0 [| p1 [| p2 [| p3 [| p4 pre]]]]]; cbn in Ho; simplify_eq; try done; cbn; stages.
Qed.

Lemma shutdown_spec rest st st' :
  shutdown rest st st' -> forall pre, stop_order = pre ++ rest -> running (fst (fst st)) rest -> 
  (forall s, s ∈ pre -> joined (fst (fst st)) s) ->
  stopped_before rest (snd (fst st)) (snd st) ->
  (forall s, joined (fst (fst st')) s) /\ stopped_before [] (snd (fst st')) (snd st') /\
  subscribe_ids_ (snd (fst st')) = subscribe_ids_ (snd (fst st)).
Proof.
  induction 1 as [t u b u' b' Hw | s rest t u b u1 b1 t2 u2 b2 u3 b3 st' Hw1 Hs Hw2 _ IH]; cbn [fst snd] in *;
    intros pre Ho Hrun Hj Hsb.
  - split; [| split; [exact (rtc_keeps [] [] _ _ ltac:(by intros ? ?%elem_of_nil) Hw Hsb) | exact (at_work_ids _ _ _ Hw)]].
    intros s. apply Hj. rewrite app_nil_r in Ho. rewrite <- Ho. destruct s; stages.
  - destruct (stop_stage_thread _ _ _ _ _ _ _ Hs) as [Ht Hothers].
    assert (NoDup (pre ++ s :: rest)) as Hnd by (rewrite <- Ho; stages).
    apply NoDup_app in Hnd as (_ & Hpre & Hnd%NoDup_cons). destruct Hnd as [Hsr _].
    destruct (Hrun s ltac:(left)) as [Hr Hc].
    pose proof (rtc_keeps _ _ _ _ (fun s' H => or_introl H) Hw1 Hsb) as Hsb1. cbn [fst snd] in Hsb1.
    destruct (stop_stage_next _ _ _ _ _ _ _ _ pre Ho Hr Hc Hs Hsb1) as [Hsb2 Hids].
    pose proof (at_work_ids _ _ _ Hw1) as Hi1. pose proof (at_work_ids _ _ _ Hw2) as Hi2. cbn [fst snd] in Hi1, Hi2.
    destruct (IH (pre ++ [s])) as (H1 & H2 & H3).
    + by rewrite <- app_assoc.
    + intros s' Hs'. rewrite Hothers by (intros ->; done). apply Hrun. by right.
    + intros s' [Hs' | ->%list_elem_of_singleton]%elem_of_app.
      * assert (s' <> s) as Hne by (intros ->; apply (Hpre s Hs'); left). unfold joined. rewrite Hothers by done. by apply Hj.
      * unfold joined. rewrite Ht. unfold Stop. by rewrite Hr.
    + eapply (rtc_keeps (s :: rest) rest (u2, b2) (u3, b3)); [| exact Hw2 | exact Hsb2]. by apply (stopping_covered pre).
    + split_and!; [done | done |]. congruence.
Qed.

(** C10: stopping a camera leaves nothing behind.  Stop the threads of a running unit in
    the order of [Stop], while the threads that are not joined yet go on working, the
    camera goes on delivering frames and the rest of the program uses the balancer:
    in the end every thread is joined; the unit has no subscription; its four queues
    are terminated, so that nobody waits on them, and no frame in flight, no event and
    no image is left in them. *)
Theorem stop_leaves_nothing t (u : Unit_) b t' u' b' :
  running t stop_order -> shutdown stop_order (t, u, b) (t', u', b') ->
  (forall s, joined t' s) /\ (forall sid : Z, sid ∈ subscribe_ids_ u -> sid ∉ subscribers_ b') /\
  b_terminate (avframe_q_ u') = true /\ quiet (inflight_q_ u') /\ quiet (event_q_ u') /\ quiet (io_work_queue_ u').
Proof.
  intros Hrun Hsd. destruct (shutdown_spec _ _ _ Hsd [] eq_refl Hrun) as (Hj & [I1 I2 I3 I4 I5 I6 I7] & Hids).
  - by intros s ?%elem_of_nil.
  - apply stopped_nothing.
  - cbn [fst snd] in *. split; [exact Hj |]. rewrite <- Hids.
    split; [exact (I1 ltac:(stages)) |]. split; [apply I2; stages |].
    split; [split; [apply I3 | apply I4]; stages |]. split; [split; [apply I5 | apply I6]; stages |]. apply I7; stages.
Qed.

(** [Stop] alone is a shutdown in which the threads do nothing more. *)
Lemma Stop__shutdown t (u : Unit_) b : shutdown stop_order (t, u, b) (Stop_ t u b).
Proof.
  unfold Stop_. generalize stop_order as l. revert t u b. 
  intros t u b l. revert t u b. induction l as [| s l IH]; intros t u b; cbn [foldl].
  - by constructor.
  - destruct (stop_stage s t u b) as [[t1 u1] b1] eqn:E. by eapply sd_stop; [done | exact E | done |].
Qed.

End Stop.

(** ** A camera with work in all its queues *)

#[local] Existing Instance SortProps.demo_cv.
#[local] Existing Instance Letterbox.demo_ffmpeg.

Definition demo_threads : Threads :=
  let th := SetThreadFunctions SafeThread_make true true in
  default (mkThreads th th th th) (Start_ (mkThreads th th th th)).

Definition demo_busy_unit : RtspDetectorUnit (K := XYSR) :=
  let frame := mkFrame 640 480 0 1 in
  let u := with_subscriptions (RtspDetectorUnit_make 4) {[ 5 ]} in
  let u := with_inflight_q u (enqueue SafeQueue_make (mkInflight frame [] 0 0)) in
  let u := with_event_q u (enqueue SafeQueue_make (mkEventItem frame [])) in
  with_io_work_queue u (enqueue SafeQueue_make (mkIOWork "a.jpg" frame)).

Definition demo_subscribed_lb : EngineLoadBalancer := snd (Subscribe (EngineLoadBalancer_make []) 5 0).

Lemma stop_leaves_nothing_witness :
  5 ∈ subscribers_ demo_subscribed_lb /\
  let '(t', u', b') := Stop_ demo_threads demo_busy_unit demo_subscribed_lb in
  (5 ∉ subscribers_ b') /\ quiet (inflight_q_ u') /\ quiet (event_q_ u') /\ quiet (io_work_queue_ u').
Proof.
  split; [apply (bool_decide_unpack _); vm_compute; exact I |].
  pose proof (Stop__shutdown demo_threads demo_busy_unit demo_subscribed_lb) as Hsd.
  destruct (Stop_ demo_threads demo_busy_unit demo_subscribed_lb) as [[t' u'] b'].
  destruct (stop_leaves_nothing demo_threads demo_busy_unit demo_subscribed_lb t' u' b') as (_ & Hn & _ & H1 & H2 & H3).
  - intros s _. destruct s; vm_compute; split; reflexivity.
  - exact Hsd.
  - split; [| by split_and!]. apply Hn. apply (bool_decide_unpack _). vm_compute. exact I.
Defined.

(** Another order would leave an event behind: stop the event thread first, and
    the response thread adds one more before it ends. *)
Example event_thread_first_leaves_an_event :
  exists t' u' b', shutdown [EventStage; ResponseStage] (demo_threads, demo_busy_unit, demo_subscribed_lb) (t', u', b') /\
    q_ (event_q_ u') <> [].
Proof.
  destruct (stop_stage EventStage demo_threads demo_busy_unit demo_subscribed_lb) as [[t1 u1] b1] eqn:E1.
  set (u2 := with_event_q u1 (enqueue (event_q_ u1) (mkEventItem (mkFrame 640 480 0 1) []))).
  destruct (stop_stage ResponseStage t1 u2 b1) as [[t2 u3] b3] eqn:E2.
  exists t2, u3, b3. split.
  - eapply sd_stop; [apply rtc_refl | exact E1 | | eapply sd_stop; [apply rtc_refl | exact E2 | apply rtc_refl | by apply sd_done]].
    apply rtc_once. apply (aw_thread _ ResponseStage); [by right; left |].
    split; try done; [by left | right; by eexists].
  - subst u2. vm_compute in E1. injection E1 as <- <- <-. vm_compute in E2. injection E2 as _ <- _. discriminate.
Qed.
