(* ===== verification/DetectorTracking.v ===== *)
(** * Tracking in the response thread

    The trackers of a unit, one for each tracked class, over the responses of its
    engines and the changes of resolution. *)

From Stdlib Require Import SpecFloat String.
From stdpp Require Import gmap.
From S2P Require Import Prelude Float32 InferObject Kalman Sort SortProps Json SettingData EngineTypes SafeQueue LoadBalancer Letterbox EngineClient DetectorUnit DetectorPipeline.
Open Scope Z_scope.
Open Scope list_scope.

Section Tracking.
Context {K : Type} `{CV : !OpenCV K} `{FF : !FFmpeg}.
Abbreviation Unit_ := (RtspDetectorUnit (K := K)).
Abbreviation Tracking_ := (Tracking (K := K)).

(** A tracker and a sequence number for the same classes, all of them tracked; every
    tracker keeps its own invariant. *)
Record tracking_ok (t : Tracking_) : Prop := {
  tr_dom : dom (trackers_ t) = dom (tracker_seqs_ t);
  tr_classes c : c ∈ dom (trackers_ t) -> need_tracking t c = true;
  tr_inv c s : trackers_ t !! c = Some s -> sort_inv s
}.

(** The next track identifier of a class. *)
Definition next_id_of (t : Tracking_) (c : Z) : Z :=
  from_option kalman_tracker_create_count_ 1 (trackers_ t !! c).

(** No counter reaches its reset with these objects. *)
Definition room (t : Tracking_) (objects : list InferObject) (c : Z) : Prop :=
  next_id_of t c + Z.of_nat (length (objects_of_class c objects)) <= TRACK_ID_CYCLE_THRESHOLD.

(** The results of one class. *)
Definition class_result (t : Tracking_) (objects : list InferObject) (p : Z * list InferObject) : Prop :=
  let '(c, r) := p in
  if need_tracking t c
  then NoDup (map track_id r) /\ (length r <= length (objects_of_class c objects))%nat
  else r = objects_of_class c objects.

Lemma fresh_tracker_inv style : sort_inv (K := K) (SORTTracker_make style style).
Proof. split; cbn; try constructor; unfold TRACK_ID_CYCLE_THRESHOLD; lia. Qed.

Lemma ensure_tracker_ok frame c (t : Tracking_) :
  need_tracking t c = true -> tracking_ok t ->
  let t' := ensure_tracker frame c t in
  tracking_ok t' /\ (exists s, trackers_ t' !! c = Some s) /\ need_tracking t' = need_tracking t /\
  forall c', next_id_of t' c' = next_id_of t c'.
Proof.
  intros Hn [H1 H2 H3]. unfold ensure_tracker. destruct (trackers_ t !! c) as [s |] eqn:E; [by split_and!; eauto |].
  split_and!; [split; cbn | | done |].
  - by rewrite !dom_insert_L, H1.
  - intros c'. rewrite dom_insert_L, elem_of_union, elem_of_singleton. intros [-> | Hin]; [exact Hn | by apply H2].
  - intros c' s. destruct (decide (c' = c)) as [-> |]; [rewrite lookup_insert_eq; intros [= <-]; apply fresh_tracker_inv |].
    rewrite lookup_insert_ne by done. apply H3.
  - cbn. rewrite lookup_insert_eq. by eexists.
  - intros c'. unfold next_id_of. cbn. destruct (decide (c' = c)) as [-> |]; [by rewrite lookup_insert_eq, E |].
    by rewrite lookup_insert_ne.
Qed.

(** The objects of a call that returns nothing count as no results. *)
Lemma no_results_ok r n :
  (forall results, r = Some results -> NoDup (map track_id results) /\ (length results <= n)%nat) ->
  NoDup (map track_id (default [] r)) /\ (length (default [] r) <= n)%nat.
Proof. destruct r; cbn; [intros H; by destruct (H _ eq_refl) | intros _; split; [constructor | lia]]. Qed.

Lemma track_class_ok frame objects c (t t' : Tracking_) r :
  tracking_ok t -> room t objects c -> track_class frame objects c t = Some (r, t') ->
  tracking_ok t' /\ class_result t objects (c, r) /\ need_tracking t' = need_tracking t /\
  forall c', c' <> c -> next_id_of t' c' = next_id_of t c'.
Proof.
  intros Hok Hroom. unfold track_class. cbn [class_result]. destruct (need_tracking t c) eqn:En; cbn [negb];
    [| intros [= <- <-]; done].
  destruct (ensure_tracker_ok frame c t En Hok) as ([H1 H2 H3] & (s & Hs) & Hn & Hid).
  set (t1 := ensure_tracker frame c t) in *. rewrite Hs.
  destruct (TrackObjects _ _ s) as [| ro s'] eqn:Et; [done |]. intros [= <- <-].
  assert (kalman_tracker_create_count_ s + Z.of_nat (length (objects_of_class c objects)) <= TRACK_ID_CYCLE_THRESHOLD) as Hc.
  { unfold room in Hroom. rewrite <- Hid in Hroom. unfold next_id_of in Hroom. by rewrite Hs in Hroom. }
  destruct (TrackObjects_inv _ _ _ _ _ (H3 c s Hs) Hc Et) as [Hinv Hres].
  assert (c ∈ dom (trackers_ t1)) as Hcd by (by apply elem_of_dom_2 in Hs).
  split; [split; cbn | split; [| split; [exact Hn |]]].
  - rewrite !dom_insert_L. by rewrite H1.
  - intros c'. rewrite dom_insert_L, elem_of_union, elem_of_singleton. intros [-> | Hin]; [by apply H2 | by apply H2].
  - intros c' s2. destruct (decide (c' = c)) as [-> |]; [by rewrite lookup_insert_eq; intros [= <-] |].
    rewrite lookup_insert_ne by done. apply H3.
  - by apply no_results_ok.
  - intros c' Hne. rewrite <- Hid. unfold next_id_of. cbn. by rewrite lookup_insert_ne.
Qed.

Lemma track_classes_ok frame objects classes (t t' : Tracking_) r :
  NoDup classes -> tracking_ok t -> (forall c, c ∈ classes -> room t objects c) ->
  track_classes frame objects classes t = Some (r, t') ->
  tracking_ok t' /\ need_tracking t' = need_tracking t /\
  exists parts, r = concat (map snd parts) /\ map fst parts = classes /\ Forall (class_result t objects) parts.
Proof.
  intros Hnd. revert t t' r. induction Hnd as [| c classes Hc _ IH]; intros t t' r Hok Hroom; cbn [track_classes].
  - intros [= <- <-]. split_and!; try done. by exists [].
  - destruct (track_class frame objects c t) as [[r1 t1] |] eqn:E1; [| done]. cbn [mbind option_bind].
    destruct (track_classes frame objects classes t1) as [[r2 t2] |] eqn:E2; [| done]. cbn [mbind option_bind]. intros [= <- <-].
    destruct (track_class_ok _ _ _ _ _ _ Hok (Hroom c ltac:(left)) E1) as (Hok1 & Hr1 & Hn1 & Hid1).
    destruct (IH t1 t2 r2 Hok1) as (Hok2 & Hn2 & parts & -> & Hf & HF); [| exact E2 |].
    + intros c' Hc'. unfold room. rewrite Hid1 by (intros ->; done). by apply Hroom; right.
    + split_and!; [done | congruence |]. exists ((c, r1) :: parts). cbn. split_and!; [done | by rewrite Hf |].
      constructor; [exact Hr1 |]. eapply Forall_impl; [exact HF |]. intros [c' r']. unfold class_result. by rewrite Hn1.
Qed.

Lemma set_order_NoDup (X : gset Z) : NoDup (set_order X).
Proof. unfold set_order. rewrite (sorting.merge_sort_Permutation Z.le). apply NoDup_elements. Qed.

(** C12: the response thread keeps its trackers in order.  As long as no track counter
    reaches its reset, an iteration leaves a tracker and a sequence number for the same
    classes, all of them tracked, each tracker with distinct live identifiers; and what
    it sends on is, class by class in increasing order, the tracks of a tracked class,
    with distinct identifiers and no more of them than objects found, or the objects
    of another class as they were found. *)
Theorem tracking_stays_consistent env (u : Unit_) b item pairs tracks u' b' :
  ResponseThread_iteration env u b = Some (Responded item pairs tracks, u', b') ->
  tracking_ok (tracking u) ->
  let merged := fst (fst (collect_responses env item 0 (if_engines item) b)) in
  (forall c, room (tracking u) merged c) ->
  tracking_ok (tracking u') /\
  exists parts, tracks = concat (map snd parts) /\ map fst parts = classes_of merged /\
    Forall (class_result (tracking u) merged) parts.
Proof.
  intros H Hok merged Hroom. unfold ResponseThread_iteration in H.
  destruct (dequeue_wait_for (inflight_q_ u)) as [[item' |] q]; [| done].
  destruct (collect_responses env item' 0 _ b) as [[mg prs] b1] eqn:Ec.
  change (tracking (with_inflight_q u q)) with (tracking u) in H.
  destruct (track_classes _ _ _ _) as [[tr t] |] eqn:Et; [| done]. cbn [mbind option_bind] in H.
  injection H as -> -> -> <- <-. subst merged. rewrite Ec in *. cbn [fst] in *.
  destruct (track_classes_ok _ _ _ _ _ _ (set_order_NoDup _) Hok (fun c _ => Hroom c) Et) as (Hok' & _ & Hparts).
  split; [| exact Hparts]. by destruct tracks.
Qed.

(** After a change of resolution there are no trackers, which is in order, too. *)
Lemma ResetTrackers_ok (t : Tracking_) : tracking_ok (ResetTrackers t).
Proof. split; cbn; [done | |]; intros; [set_solver | done]. Qed.

(** Room for all the objects in every tracker is room for those of each class. *)
Lemma room_for_all (t : Tracking_) objects :
  map_Forall (fun _ s => kalman_tracker_create_count_ s + Z.of_nat (length objects) <= TRACK_ID_CYCLE_THRESHOLD) (trackers_ t) ->
  1 + Z.of_nat (length objects) <= TRACK_ID_CYCLE_THRESHOLD -> forall c, room t objects c.
Proof.
  intros Hall H1 c. unfold room, next_id_of.
  assert (length (objects_of_class c objects) <= length objects)%nat as Hl by apply List.filter_length_le.
  destruct (trackers_ t !! c) as [s |] eqn:E; cbn; [| lia]. pose proof (Hall c s E) as H. cbn in H. lia.
Qed.

End Tracking.

(** ** Two frames with two persons and a chair *)

#[local] Existing Instance SortProps.demo_cv.
#[local] Existing Instance Letterbox.demo_ffmpeg.

Definition demo_found (class x y : Z) : InferObject :=
  mkInferObject 0 class (-1) f1 (mkBBox (f32_of_Z x) (f32_of_Z y) (f32_of_Z 100) (f32_of_Z 200)) ltx_type pixel_int [].

Definition demo_style : ImageExpressStyle := ImageExpressStyle_make 640 480 pixel_int ltx_type false f1 0 0 0 0.

Definition demo_engine : EngineInflight :=
  mkEngineInflight 5 640 480 (list_to_map [("PERSON"%string, 0); ("CAR"%string, 2); ("CHAIR"%string, 56)]) demo_style demo_style "e".

Definition demo_reply (i dx : Z) : OutputLayerWrapper :=
  mkOutput (mkMeta 5 1 640 480 i) (1, 0) [demo_found 0 (10 + dx) 20; demo_found 56 300 20; demo_found 0 (400 + dx) 100].

Definition demo_two_frames : RtspDetectorUnit (K := XYSR) :=
  let u := RtspDetectorUnit_make 4 in
  let u := with_tracking u (mkTracking ∅ ∅ 0 2) in
  let frame := mkFrame 640 480 0 1 in
  with_inflight_q u (mkQueue [mkInflight frame [demo_engine] 0 5000; mkInflight frame [demo_engine] 1 5000] false 10 0).

Definition demo_two_replies : EngineLoadBalancer :=
  let b := snd (Subscribe (EngineLoadBalancer_make []) 5 0) in
  dispatch_push (dispatch_push b (demo_reply 0 0) 0) (demo_reply 1 3) 0.

Definition demo_at_once : ResponseEnv := mkResponseEnv (fun _ => 1) (fun _ b => b).

(** After the first frame. *)
Definition demo_first : RtspDetectorUnit (K := XYSR) * EngineLoadBalancer :=
  match ResponseThread_iteration demo_at_once demo_two_frames demo_two_replies with
  | Some (_, u, b) => (u, b)
  | None => (demo_two_frames, demo_two_replies)
  end.

Definition demo_person_tracker : SORTTracker XYSR :=
  default (SORTTracker_make demo_style demo_style) (trackers_ (tracking (fst demo_first)) !! 0).

Lemma demo_trackers : trackers_ (tracking (fst demo_first)) = {[ 0 := demo_person_tracker ]}.
Proof. vm_compute. reflexivity. Qed.

Lemma demo_person_tracker_inv : sort_inv demo_person_tracker.
Proof. split; apply (bool_decide_unpack _); vm_compute; exact I. Qed.

Lemma demo_first_ok : tracking_ok (tracking (fst demo_first)).
Proof.
  split; rewrite demo_trackers.
  - rewrite dom_singleton_L. vm_compute. reflexivity.
  - intros c. rewrite dom_singleton_L, elem_of_singleton. intros ->. vm_compute. reflexivity.
  - intros c s. rewrite lookup_singleton_Some. intros [_ <-]. apply demo_person_tracker_inv.
Qed.

Lemma tracking_stays_consistent_witness :
  exists tracks u' b', ResponseThread_iteration demo_at_once (fst demo_first) (snd demo_first) =
      Some (Responded (mkInflight (mkFrame 640 480 0 1) [demo_engine] 1 5000) [(1, 1)] tracks, u', b') /\
    map track_id tracks = [1; 2; -1] /\ tracking_ok (tracking u').
Proof.
  eexists _, _, _. split; [vm_compute; reflexivity |]. split; [vm_compute; reflexivity |].
  refine (proj1 (tracking_stays_consistent demo_at_once (fst demo_first) (snd demo_first) _ _ _ _ _ _ demo_first_ok _)).
  - vm_compute. reflexivity.
  - apply room_for_all; [| vm_compute; discriminate].
    rewrite demo_trackers, map_Forall_singleton. vm_compute. discriminate.
Defined.
