(* ===== verification/FrameStore.v ===== *)
(** * The image store of a camera

    [Main/DETECTOR/src/RtspDetectorUnit.cpp], the cleaning of [/frame] and the IO worker
    that saves the images.  The disk is a map from paths below [/frame] (lists of names,
    [[]] is [/frame] itself) to what is there; what the operating system does is the class
    [FileSystem].  The removal of a tree that fails may have removed a part of it.  Links
    are not followed, and a listing does not fail. *)

From Stdlib Require Import SpecFloat String Ascii.
From stdpp Require Import gmap sorting.
From S2P Require Import Prelude Float32 Json SafeQueue Kalman Sort SettingData DetectorUnit.
Open Scope Z_scope.
Open Scope list_scope.

Abbreviation path := (list string).

Inductive Node := Directory | Regular (last_write_time : Z) | Other.

Abbreviation Disk := (@gmap (list string) (@list_eq_dec string String.eq_dec) (@list_countable string String.eq_dec String.countable) Node).

(** [statvfs]: the blocks and those available.  [removable]: the system lets the entry
    go, with everything below it.  [spared]: when the removal of a tree fails, what it
    leaves, a tree again.  [sort_files]: [std::sort] by time; the order of equal times is open.
    [imwrite]: OpenCV's, with the disk after it. *)
Class FileSystem := {
  statvfs : Disk -> option (Z * Z);
  removable : path -> bool;
  spared : path -> path -> bool;
  spared_root p : spared p p = true;
  spared_tree p q x : spared p (p ++ q ++ [x]) = true -> spared p (p ++ q) = true;
  sort_files : list (string * Z) -> list (string * Z);
  sort_files_perm l : sort_files l ≡ₚ l;
  sort_files_sorted l : Sorted (fun a b => snd a <= snd b) (sort_files l);
  imwrite : Disk -> string -> AVFrame -> bool * Disk
}.

Definition FRAME_DISK_FULL_PCT : f64 := f64_of_Z 90.
Definition FRAME_DISK_EMERGENCY_PCT : f64 := f64_of_Z 80.
Definition FRAME_RETENTION_DAYS : Z := 7.
Definition FRAME_CLEANUP_INTERVAL : Z := 3600 * 1000000000.
Definition FRAME_EMERGENCY_INTERVAL : Z := 5 * 60 * 1000000000.

Definition exists_ (fs : Disk) (p : path) : bool := bool_decide (is_Some (fs !! p)).
Definition is_directory (fs : Disk) (p : path) : bool := match fs !! p with Some Directory => true | _ => false end.

(** The name of [q] in the directory [p]. *)
Fixpoint name_in (p q : path) : option string :=
  match p, q with
  | [], [x] => Some x
  | a :: p, b :: q => if String.eqb a b then name_in p q else None
  | _, _ => None
  end.

(** The names a [directory_iterator] lists, in some order. *)
Definition children (fs : Disk) (p : path) : list string := omap (fun '(q, _) => name_in p q) (map_to_list fs).
Definition is_empty (fs : Disk) (p : path) : bool := match children fs p with [] => true | _ => false end.

Definition below (p q : path) : Prop := p `prefix_of` q.

Section Store.
Context `{FileSystem}.

(** [fs::remove_all]; the result tells that something was removed and nothing failed. *)
Definition remove_all (fs : Disk) (p : path) : bool * Disk :=
  if removable p then (exists_ fs p, filter (fun '(q, _) => ~ below p q) fs)
  else (false, filter (fun '(q, _) => ~ below p q \/ spared p q = true) fs).

(** [fs::remove] of a file or an empty directory; [false]: an error. *)
Definition remove (fs : Disk) (p : path) : bool * Disk :=
  if negb (removable p) || (is_directory fs p && negb (is_empty fs p)) then (false, fs) else (true, delete p fs).

Definition GetFrameDiskUsedPercent (fs : Disk) : f64 :=
  match statvfs fs with
  | None => f64_of_Z (-1)
  | Some (f_blocks, f_bavail) =>
      if f_blocks =? 0 then f64_of_Z (-1)
      else f64_div (f64_mul (f64_of_Z 100) (f64_of_Z (u64 (f_blocks - f_bavail)))) (f64_of_Z f_blocks)
  end.

(** ** Regular cleaning *)

(** The days from 1970-01-01 to the given day of the Gregorian calendar, and [timegm];
    months out of range count from the given year on. *)
Definition days_from_civil (y m d : Z) : Z :=
  let y := if m <=? 2 then y - 1 else y in
  let era := y / 400 in
  let yoe := y - era * 400 in
  let doy := (153 * (m + (if 2 <? m then -3 else 9)) + 2) / 5 + d - 1 in
  let doe := yoe * 365 + yoe / 4 - yoe / 100 + doy in
  era * 146097 + doe - 719468.

Definition timegm (tm_year tm_mon tm_mday tm_hour tm_min tm_sec : Z) : Z :=
  ((days_from_civil (1900 + tm_year + tm_mon / 12) (tm_mon mod 12 + 1) tm_mday * 24 + tm_hour) * 60 + tm_min) * 60 + tm_sec.

(** The last second of the day a directory is named after; [stoi] reads a number at the
    start of a name.  [from_time_t] counts nanoseconds in 64 bits: the product overflows
    for the years after 2262, and wraps. *)
Definition parse_dir_time (y m d : string) : option time_point :=
  year ← stoi y; month ← stoi m; day ← stoi d;
  let tt := timegm (i32 (year - 1900)) (i32 (month - 1)) day 23 59 59 in
  if tt =? -1 then None else Some (wrap_s 64 (tt * 1000000000)).

Definition expired (cutoff : time_point) (y m d : string) : bool :=
  match parse_dir_time y m d with Some t => t <? cutoff | None => false end.

Definition cleanup_day (cutoff : time_point) (y m : string) (acc : Disk * Z) (d : string) : Disk * Z :=
  let '(fs, deleted) := acc in
  if negb (is_directory fs [y; m; d]) then acc
  else if expired cutoff y m d then
    let '(removed, fs) := remove_all fs [y; m; d] in (fs, if removed then deleted + 1 else deleted)
  else acc.

(** An empty directory goes. *)
Definition prune (fs : Disk) (p : path) : Disk := if is_empty fs p then snd (remove fs p) else fs.

Definition cleanup_month (cutoff : time_point) (y : string) (acc : Disk * Z) (m : string) : Disk * Z :=
  if negb (is_directory (fst acc) [y; m]) then acc
  else
    let '(fs, deleted) := foldl (cleanup_day cutoff y m) acc (children (fst acc) [y; m]) in
    (prune fs [y; m], deleted).

Definition cleanup_year (cutoff : time_point) (acc : Disk * Z) (y : string) : Disk * Z :=
  if negb (is_directory (fst acc) [y]) then acc
  else
    let '(fs, deleted) := foldl (cleanup_month cutoff y) acc (children (fst acc) [y]) in
    (prune fs [y], deleted).

(** [now] is the system clock. *)
Definition CleanupOldFrameDirs (retention_days : Z) (now : time_point) (fs : Disk) : Disk * Z :=
  let cutoff := now - i32 (24 * retention_days) * 3600 * 1000000000 in
  if negb (exists_ fs []) then (fs, 0)
  else foldl (cleanup_year cutoff) (fs, 0) (children fs []).

(** ** Emergency cleaning *)

Definition day_dirs (fs : Disk) : list path :=
  flat_map (fun y => if is_directory fs [y] then
    flat_map (fun m => if is_directory fs [y; m] then
      flat_map (fun d => if is_directory fs [y; m; d] then [[y; m; d]] else [])
        (children fs [y; m]) else []) (children fs [y]) else []) (children fs []).

(** Paths compare name by name. *)
Fixpoint path_leb (p q : path) : bool :=
  match p, q with
  | [], _ => true
  | _, [] => false
  | a :: p, b :: q => match String.compare a b with Lt => true | Gt => false | Eq => path_leb p q end
  end.

Definition path_le (p q : path) : Prop := path_leb p q = true.
#[export] Instance path_le_dec : RelDecision path_le := fun p q => decide (path_leb p q = true).

Definition high (pct : f64) : bool := fle FRAME_DISK_EMERGENCY_PCT pct.

(** While the disk is high and more than one day is left, the oldest goes. *)
Fixpoint delete_oldest (dirs : list path) (pct : f64) (fs : Disk) (deleted_day_dirs : Z) : list path * f64 * Disk * Z :=
  match dirs with
  | oldest :: ((_ :: _) as rest) =>
      if high pct then
        let fs := snd (remove_all fs oldest) in
        delete_oldest rest (GetFrameDiskUsedPercent fs) fs (deleted_day_dirs + 1)
      else (dirs, pct, fs, deleted_day_dirs)
  | _ => (dirs, pct, fs, deleted_day_dirs)
  end.

(** The regular files of a directory with their times. *)
Definition regular_files (fs : Disk) (p : path) : list (string * Z) :=
  omap (fun x => match fs !! (p ++ [x]) with Some (Regular t) => Some (x, t) | _ => None end) (children fs p).

Definition delete_file (p : path) (acc : Disk * Z) (x : string) : Disk * Z :=
  let '(fs, deleted_files) := acc in
  let '(ok, fs) := remove fs (p ++ [x]) in (fs, if ok : bool then deleted_files + 1 else deleted_files).

(** The older half of the only day left. *)
Definition delete_half (p : path) (fs : Disk) : Disk * Z :=
  let files := sort_files (regular_files fs p) in
  foldl (delete_file p) (fs, 0) (map fst (take (length files / 2) files)).

Definition prune_month (y : string) (fs : Disk) (m : string) : Disk := if is_directory fs [y; m] then prune fs [y; m] else fs.

Definition prune_year (fs : Disk) (y : string) : Disk :=
  if is_directory fs [y] then prune (foldl (prune_month y) fs (children fs [y])) [y] else fs.

Record EmergencyCleanupResult := mkEmergency { deleted_day_dirs : Z; deleted_files : Z }.

(** [owns_lock]: no other worker is cleaning. *)
Definition EmergencyCleanupIfDiskHigh (owns_lock : bool) (fs : Disk) : EmergencyCleanupResult * Disk :=
  if negb owns_lock then (mkEmergency 0 0, fs)
  else
    let pct := GetFrameDiskUsedPercent fs in
    if flt pct FRAME_DISK_EMERGENCY_PCT then (mkEmergency 0 0, fs)
    else if negb (exists_ fs []) then (mkEmergency 0 0, fs)
    else
      let '(dirs, pct, fs, days) := delete_oldest (merge_sort path_le (day_dirs fs)) pct fs 0 in
      let '(fs, files) := match dirs with
                          | [day] => if high pct then delete_half day fs else (fs, 0)
                          | _ => (fs, 0)
                          end in
      (mkEmergency days files, foldl prune_year fs (children fs [])).

(** ** The IO worker *)

(** The clocks of the thread; it starts with the epoch of the steady clock. *)
Record CleanupTimes := mkTimes { last_cleanup : time_point; last_emergency : time_point }.

Definition CleanupTimes_make : CleanupTimes := mkTimes 0 0.

Record IOEnv := mkIOEnv { io_steady_now : time_point; io_system_now : time_point; io_owns_lock : bool }.

Inductive IOEnd := NoWork | DiskFull (item : IOWorkItem) | Written (item : IOWorkItem) (ok : bool).

Definition clean (e : IOEnv) (times : CleanupTimes) (fs : Disk) : CleanupTimes * Disk :=
  let now := io_steady_now e in
  let '(t1, fs) := if FRAME_CLEANUP_INTERVAL <? now - last_cleanup times
                   then (now, fst (CleanupOldFrameDirs FRAME_RETENTION_DAYS (io_system_now e) fs))
                   else (last_cleanup times, fs) in
  let '(t2, fs) := if FRAME_EMERGENCY_INTERVAL <? now - last_emergency times
                   then (now, snd (EmergencyCleanupIfDiskHigh (io_owns_lock e) fs))
                   else (last_emergency times, fs) in
  (mkTimes t1 t2, fs).

Definition IOWorkerThread_iteration {K} (e : IOEnv) (u : RtspDetectorUnit (K := K)) (times : CleanupTimes) (fs : Disk)
    : IOEnd * RtspDetectorUnit (K := K) * CleanupTimes * Disk :=
  let '(opt_item, q) := dequeue_wait_for (io_work_queue_ u) in
  let u := with_io_work_queue u q in
  let '(times, fs) := clean e times fs in
  match opt_item with
  | None => (NoWork, u, times, fs)
  | Some item =>
      if fle FRAME_DISK_FULL_PCT (GetFrameDiskUsedPercent fs) then (DiskFull item, u, times, fs)
      else let '(ok, fs) := imwrite fs (io_frame_path item) (io_image item) in (Written item ok, u, times, fs)
  end.

End Store.
