(* ===== verification/FrameStoreProps.v ===== *)
(** * Properties of the image store

    What the two cleanings delete and, above all, what they keep. *)

From Stdlib Require Import SpecFloat String.
From stdpp Require Import gmap sorting.
From S2P Require Import Prelude Float32 Json SafeQueue DetectorUnit FrameStore.
Open Scope Z_scope.
Open Scope list_scope.

(** ** Paths and listings *)

Lemma name_in_spec p q x : name_in p q = Some x <-> q = p ++ [x].
Proof.
  revert q. induction p as [| a p IH]; intros [| b q]; cbn; try (split; congruence).
  - destruct q; split; congruence.
  - destruct (String.eqb_spec a b) as [-> | Hne]; [| split; congruence]. rewrite IH. split; congruence.
Qed.

Lemma children_spec fs p x : x ∈ children fs p <-> is_Some (fs !! (p ++ [x])).
Proof.
  unfold children. rewrite list_elem_of_omap. split.
  - intros ([q n] & Hq%elem_of_map_to_list & ->%name_in_spec). by eexists.
  - intros [n Hn]. exists (p ++ [x], n). split; [by apply elem_of_map_to_list | by apply name_in_spec].
Qed.

Lemma children_NoDup fs p : NoDup (children fs p).
Proof.
  assert (forall l : list (path * Node), NoDup l.*1 -> NoDup (omap (fun '(q, _) => name_in p q) l)) as H;
    [| exact (H _ (NoDup_fst_map_to_list fs))].
  induction l as [| [q n] l IH]; cbn; [constructor |]. intros [Hq Hnd]%NoDup_cons. specialize (IH Hnd).
  destruct (name_in p q) as [x |] eqn:E; [| done]. apply name_in_spec in E as ->. constructor; [| done].
  intros ([q' n'] & Hl & ->%name_in_spec)%list_elem_of_omap. apply Hq. apply list_elem_of_fmap. by exists (p ++ [x], n').
Qed.

(** Everything is in a directory. *)
Definition well_formed (fs : Disk) : Prop := forall p x n, fs !! (p ++ [x]) = Some n -> fs !! p = Some Directory.

Lemma well_formed_prefix fs p q : well_formed fs -> is_Some (fs !! (p ++ q)) -> q <> [] -> fs !! p = Some Directory.
Proof.
  intros Hwf. induction q as [| x q IH] using rev_ind; [done |]. rewrite app_assoc. intros [n Hn] _.
  apply Hwf in Hn. destruct q as [| y q]; [by rewrite app_nil_r in Hn |]. apply IH; [by rewrite Hn | done].
Qed.

Section Store.
Context `{FS : FileSystem}.

(** The removal of [p] takes the entry [q] below it. *)
Definition taken (p q : path) : bool := removable p || negb (spared p q).

Lemma remove_all_lookup fs p q : snd (remove_all fs p) !! q = if decide (below p q /\ taken p q = true) then None else fs !! q.
Proof.
  unfold remove_all, taken. destruct (removable p); cbn [snd orb]; rewrite map_lookup_filter; case_decide as E.
  - destruct E as [Hb _]. destruct (fs !! q); cbn; [| done]. by rewrite option_guard_False by tauto.
  - destruct (fs !! q); cbn; [| done]. rewrite option_guard_True; [done |]. intros Hb. by apply E.
  - destruct E as [Hb Hs]. apply negb_true_iff in Hs. destruct (fs !! q); cbn; [| done]. rewrite option_guard_False; [done |].
    rewrite Hs. by intros [? | ?].
  - destruct (fs !! q); cbn; [| done]. rewrite option_guard_True; [done |].
    destruct (decide (below p q)) as [Hb | Hb]; [right | by left]. apply not_false_iff_true. intros Hs. apply E. by rewrite Hs.
Qed.

(** What a removal leaves is a tree. *)
Lemma remove_all_well_formed fs p : well_formed fs -> well_formed (snd (remove_all fs p)).
Proof.
  intros Hwf q x n. rewrite !remove_all_lookup. case_decide as E1; [done |]. intros Hq. rewrite decide_False; [by eapply Hwf |].
  intros [[k ->] Ht]. apply E1. split; [exists (k ++ [x]); by rewrite app_assoc |]. unfold taken in *.
  destruct (removable p); [done |]. cbn in *. apply negb_true_iff in Ht. apply negb_true_iff, not_true_iff_false. intros Hs.
  rewrite <- app_assoc in Hs. apply spared_tree in Hs. congruence.
Qed.

Lemma remove_lookup fs p q : q <> p -> snd (remove fs p) !! q = fs !! q.
Proof. intros Hne. unfold remove. case_if; cbn; [done |]. by rewrite lookup_delete_ne. Qed.

Lemma prune_lookup fs p q : q <> p -> prune fs p !! q = fs !! q.
Proof. unfold prune. case_if; [apply remove_lookup | done]. Qed.

(** ** Regular cleaning *)

(** The day of an entry has expired and its removal takes the entry. *)
Definition doomed (cutoff : time_point) (fs : Disk) (q : path) : bool :=
  match q with
  | y :: m :: d :: _ => is_directory fs [y; m; d] && expired cutoff y m d && taken [y; m; d] q
  | _ => false
  end.

Definition cleaned (cutoff : time_point) (fs : Disk) (q : path) : option Node := if doomed cutoff fs q then None else fs !! q.

Definition agree_below (p : path) (fs fs' : Disk) : Prop := forall q, below p q -> fs !! q = fs' !! q.

(** A loop over names that treats what is below each name on its own. *)
Lemma foldl_below (cutoff : time_point) (fs0 : Disk) (p : path) (step : Disk * Z -> string -> Disk * Z) (names : list string) (acc : Disk * Z) :
  NoDup names ->
  (forall acc x, agree_below (p ++ [x]) (fst acc) fs0 -> forall q, (3 <= length q)%nat -> below (p ++ [x]) q ->
     fst (step acc x) !! q = cleaned cutoff fs0 q) ->
  (forall acc x q, ~ below (p ++ [x]) q -> fst (step acc x) !! q = fst acc !! q) ->
  agree_below p (fst acc) fs0 ->
  forall q, (forall x, x ∈ names -> below (p ++ [x]) q -> (3 <= length q)%nat -> fst (foldl step acc names) !! q = cleaned cutoff fs0 q) /\
            ((forall x, x ∈ names -> ~ below (p ++ [x]) q) -> fst (foldl step acc names) !! q = fst acc !! q).
Proof.
  intros Hnd Hstep Hout Hagree q.
  assert (forall x z, x <> z -> below (p ++ [x]) q -> ~ below (p ++ [z]) q) as Hdisj.
  { intros x z Hne [k1 ->] [k2 Hk]. rewrite <- !app_assoc in Hk. apply app_inv_head in Hk. by injection Hk. }
  assert (forall names acc, (forall x, x ∈ names -> ~ below (p ++ [x]) q) -> fst (foldl step acc names) !! q = fst acc !! q) as Hskip.
  { clear -Hout. induction names as [| x names IH]; intros acc Hn; cbn [foldl]; [done |].
    rewrite IH by (intros z Hz; apply Hn; by right). apply Hout. apply Hn. left. }
  split; [| apply Hskip]. intros x Hx Hb Hl.
  assert (agree_below (p ++ [x]) (fst acc) fs0) as Hax.
  { intros q' [k ->]. apply Hagree. exists ([x] ++ k). by rewrite <- app_assoc. }
  clear Hagree. revert acc Hax. induction Hnd as [| z names Hz _ IH]; intros acc Hax; [by apply elem_of_nil in Hx |].
  cbn [foldl]. apply elem_of_cons in Hx as [-> | Hx].
  - rewrite Hskip; [by apply Hstep |]. intros z' Hz'. apply (Hdisj z); [by intros -> | done].
  - assert (x <> z) as Hne by (by intros ->). apply IH; [done |]. intros q' Hq'. rewrite Hout; [by apply Hax |].
    destruct Hq' as [k ->]. intros [k2 Hk]. rewrite <- !app_assoc in Hk. apply app_inv_head in Hk. by injection Hk.
Qed.

Lemma agree_below_mono (p : path) (x : string) (fs fs' : Disk) : agree_below p fs fs' -> agree_below (p ++ [x]) fs fs'.
Proof. intros H q [k ->]. apply H. exists ([x] ++ k). by rewrite <- app_assoc. Qed.

Lemma below_length (p q : path) : below p q -> (length p <= length q)%nat.
Proof. intros [k ->]. rewrite length_app. lia. Qed.

Section Cleaning.
Context (cutoff : time_point) (fs0 : Disk) (Hwf : well_formed fs0).

Lemma not_there (p q : path) : below p q -> fs0 !! p <> Some Directory -> p <> q -> fs0 !! q = None.
Proof.
  intros [k ->] Hd Hne. destruct (fs0 !! (p ++ k)) eqn:E; [| done]. exfalso. apply Hd.
  eapply (well_formed_prefix fs0 p k Hwf); [by rewrite E | intros ->; apply Hne; by rewrite app_nil_r].
Qed.

Lemma not_doomed (q : path) : fs0 !! q = None -> cleaned cutoff fs0 q = None.
Proof. unfold cleaned. by destruct (doomed _ _ _). Qed.

(** What a loop over a listing does to the entries at the level of the days or below. *)
Lemma listing_cleaned (p : path) (step : Disk * Z -> string -> Disk * Z) acc :
  (length p < 3)%nat ->
  (forall acc x, agree_below (p ++ [x]) (fst acc) fs0 -> forall q, (3 <= length q)%nat -> below (p ++ [x]) q ->
     fst (step acc x) !! q = cleaned cutoff fs0 q) ->
  (forall acc x q, ~ below (p ++ [x]) q -> fst (step acc x) !! q = fst acc !! q) ->
  agree_below p (fst acc) fs0 ->
  (forall q, (3 <= length q)%nat -> below p q -> fst (foldl step acc (children (fst acc) p)) !! q = cleaned cutoff fs0 q) /\
  (forall q, ~ below p q \/ q = p -> fst (foldl step acc (children (fst acc) p)) !! q = fst acc !! q).
Proof.
  intros Hp Hstep Hout Hagree. pose proof (foldl_below cutoff fs0 p step _ acc (children_NoDup (fst acc) p) Hstep Hout Hagree) as H.
  split; intros q Hq.
  - intros Hb. destruct (H q) as [H1 H2]. destruct Hb as [[| x k] ->]; [rewrite app_nil_r in Hq; lia |].
    assert (below (p ++ [x]) (p ++ x :: k)) as Hx by (exists k; by rewrite <- app_assoc).
    destruct (decide (x ∈ children (fst acc) p)) as [Hin | Hnin]; [by apply (H1 x) |].
    assert (fs0 !! (p ++ [x]) = None) as Hnone.
    { rewrite children_spec, <- eq_None_not_Some, (Hagree (p ++ [x])) in Hnin by (by exists [x]). done. }
    assert (fs0 !! (p ++ x :: k) = None) as Hnone'.
    { destruct (decide (k = [])) as [-> |]; [done |]. apply (not_there (p ++ [x])); [done | by rewrite Hnone |].
      intros Heq%(f_equal length). rewrite !length_app in Heq. cbn in Heq. destruct k; cbn in *; [done | lia]. }
    rewrite not_doomed by done. rewrite H2, Hagree; [done | by eexists |].
    intros z Hz [k2 Hk]. rewrite <- app_assoc in Hk. apply app_inv_head in Hk. injection Hk as <- _. done.
  - apply (H q). intros x _ Hb. destruct Hq as [Hn | ->].
    + apply Hn. destruct Hb as [k ->]. exists ([x] ++ k). by rewrite <- app_assoc.
    + apply below_length in Hb. rewrite length_app in Hb. cbn in Hb. lia.
Qed.

Lemma day_cleaned y m acc d :
  agree_below ([y; m] ++ [d]) (fst acc) fs0 ->
  forall q, (3 <= length q)%nat -> below ([y; m] ++ [d]) q -> fst (cleanup_day cutoff y m acc d) !! q = cleaned cutoff fs0 q.
Proof.
  intros Ha q _ Hb. destruct acc as [fs n]. cbn in *.
  assert (is_directory fs [y; m; d] = is_directory fs0 [y; m; d]) as Hd.
  { unfold is_directory. by rewrite (Ha [y; m; d]) by (by exists []). }
  destruct Hb as [k ->]. unfold cleanup_day, cleaned. cbn [app doomed]. rewrite Hd.
  destruct (is_directory fs0 [y; m; d]); cbn [negb andb fst]; [| by apply Ha; eexists].
  destruct (expired cutoff y m d); cbn [andb fst]; [| by apply Ha; eexists].
  pose proof (remove_all_lookup fs [y; m; d] (y :: m :: d :: k)) as Hr.
  destruct (remove_all fs [y; m; d]) as [r fs']. cbn in *. rewrite Hr.
  destruct (taken _ _) eqn:Et; [by rewrite decide_True by (split; [by exists k | done]) |].
  rewrite decide_False by (by intros [_ ?]). by apply Ha; eexists.
Qed.

Lemma day_outside y m acc d q : ~ below ([y; m] ++ [d]) q -> fst (cleanup_day cutoff y m acc d) !! q = fst acc !! q.
Proof.
  intros Hb. destruct acc as [fs n]. unfold cleanup_day. case_if; [done |]. case_if; [| done].
  pose proof (remove_all_lookup fs [y; m; d] q) as Hr. destruct (remove_all fs [y; m; d]) as [r fs']. cbn in *.
  rewrite Hr. by rewrite decide_False by (intros [? _]; done).
Qed.

Lemma month_cleaned y acc m :
  agree_below ([y] ++ [m]) (fst acc) fs0 ->
  forall q, (3 <= length q)%nat -> below ([y] ++ [m]) q -> fst (cleanup_month cutoff y acc m) !! q = cleaned cutoff fs0 q.
Proof.
  intros Ha q Hl Hb. unfold cleanup_month. cbn [app] in *.
  assert (q <> [y; m]) as Hne by (intros ->; cbn in Hl; lia).
  destruct (is_directory (fst acc) [y; m]) eqn:Ed; cbn [negb].
  - destruct (listing_cleaned [y; m] (cleanup_day cutoff y m) acc) as [H1 _]; [cbn; lia | apply day_cleaned | apply day_outside | done |].
    specialize (H1 q Hl Hb). destruct (foldl _ _ _) as [fs n]. cbn in *. by rewrite prune_lookup.
  - rewrite (Ha q Hb), not_doomed by (apply (not_there [y; m]); try done; unfold is_directory in Ed;
      rewrite (Ha [y; m]) in Ed by (by exists []); intros E; by rewrite E in Ed).
    apply (not_there [y; m]); try done. unfold is_directory in Ed. rewrite (Ha [y; m]) in Ed by (by exists []). intros E. by rewrite E in Ed.
Qed.

(** Loops over listings that are kept below each name keep what is not below. *)
Lemma foldl_outside (p : path) (step : Disk * Z -> string -> Disk * Z) names acc q :
  (forall acc x, ~ below (p ++ [x]) q -> fst (step acc x) !! q = fst acc !! q) ->
  ~ below p q \/ q = p -> fst (foldl step acc names) !! q = fst acc !! q.
Proof.
  intros Hout Hq. revert acc. induction names as [| x names IH]; intros acc; cbn; [done |]. rewrite IH. apply Hout.
  intros Hb. destruct Hq as [Hn | ->].
  - apply Hn. destruct Hb as [k ->]. exists ([x] ++ k). by rewrite <- app_assoc.
  - apply below_length in Hb. rewrite length_app in Hb. cbn in Hb. lia.
Qed.

Lemma month_outside y acc m q : ~ below ([y] ++ [m]) q -> fst (cleanup_month cutoff y acc m) !! q = fst acc !! q.
Proof.
  intros Hb. unfold cleanup_month. case_if; [done |].
  pose proof (foldl_outside [y; m] (cleanup_day cutoff y m) (children (fst acc) [y; m]) acc q
    (fun acc x => day_outside y m acc x q) (or_introl Hb)) as H.
  destruct (foldl _ _ _) as [fs n]. cbn in *. rewrite prune_lookup; [done |]. intros ->. apply Hb. by exists [].
Qed.

Lemma year_cleaned acc y :
  agree_below ([] ++ [y]) (fst acc) fs0 ->
  forall q, (3 <= length q)%nat -> below ([] ++ [y]) q -> fst (cleanup_year cutoff acc y) !! q = cleaned cutoff fs0 q.
Proof.
  intros Ha q Hl Hb. unfold cleanup_year. cbn [app] in *.
  assert (q <> [y]) as Hne by (intros ->; cbn in Hl; lia).
  destruct (is_directory (fst acc) [y]) eqn:Ed; cbn [negb].
  - destruct (listing_cleaned [y] (cleanup_month cutoff y) acc) as [H1 _]; [cbn; lia | apply month_cleaned | apply month_outside | done |].
    specialize (H1 q Hl Hb). destruct (foldl _ _ _) as [fs n]. cbn in *. by rewrite prune_lookup.
  - assert (fs0 !! q = None) as Hn.
    { apply (not_there [y]); try done. unfold is_directory in Ed. rewrite (Ha [y]) in Ed by (by exists []). intros E. by rewrite E in Ed. }
    by rewrite (Ha q Hb), not_doomed.
Qed.

Lemma year_outside acc y q : ~ below ([] ++ [y]) q -> fst (cleanup_year cutoff acc y) !! q = fst acc !! q.
Proof.
  intros Hb. unfold cleanup_year. case_if; [done |].
  pose proof (foldl_outside [y] (cleanup_month cutoff y) (children (fst acc) [y]) acc q
    (fun acc x => month_outside y acc x q) (or_introl Hb)) as H.
  destruct (foldl _ _ _) as [fs n]. cbn in *. rewrite prune_lookup; [done |]. intros ->. apply Hb. by exists [].
Qed.

End Cleaning.

(** C18: the regular cleaning deletes the expired days and nothing else.  On a disk in
    which everything lies in a directory, an entry at the level of the days, or below,
    is gone after the cleaning if and only if its day has expired and the removal of
    the day takes it; every other such entry is unchanged.  A day has expired when the
    end of the day its directory is named after, in the code's 64-bit nanoseconds, is
    before the cutoff, the retention time ago.  A removal takes everything of a day that
    the system lets go, and a part of it, perhaps, when the system fails to remove it. *)
Theorem cleanup_deletes_expired_days (retention_days : Z) (now : time_point) (fs : Disk) (q : path) :
  well_formed fs -> (3 <= length q)%nat ->
  let cutoff := now - i32 (24 * retention_days) * 3600 * 1000000000 in
  let fs' := fst (CleanupOldFrameDirs retention_days now fs) in
  (doomed cutoff fs q = false -> fs' !! q = fs !! q) /\
  (doomed cutoff fs q = true -> fs' !! q = None) /\
  (forall y m d k, q = y :: m :: d :: k -> removable [y; m; d] = true ->
     fs' !! q = if is_directory fs [y; m; d] && expired cutoff y m d then None else fs !! q).
Proof.
  intros Hwf Hq cutoff fs'.
  assert (fs' !! q = cleaned cutoff fs q) as Hc.
  2: { unfold cleaned in Hc. split; [intros Hd; by rewrite Hd in Hc |]. split; [intros Hd; by rewrite Hd in Hc |].
       intros y m d k -> Hr. rewrite Hc. unfold doomed, taken. by rewrite Hr, andb_true_r. }
  unfold fs', CleanupOldFrameDirs. fold cutoff. unfold exists_. case_bool_decide as He; cbn [negb fst].
  - destruct (listing_cleaned cutoff fs Hwf [] (cleanup_year cutoff) (fs, 0)) as [H _]; cbn; try lia.
    + by apply year_cleaned.
    + by apply year_outside.
    + done.
    + apply H; [done | by exists q].
  - assert (fs !! q = None) as Hn; [| by rewrite not_doomed].
    apply (not_there fs Hwf []); [by exists q | by intros E; apply He; rewrite E | intros <-; cbn in Hq; lia].
Qed.

(** ** Emergency cleaning *)

Lemma day_dirs_spec (fs : Disk) (p : path) :
  well_formed fs -> p ∈ day_dirs fs <-> length p = 3%nat /\ fs !! p = Some Directory.
Proof.
  intros Hwf. unfold day_dirs.
  assert (forall (p : path) x, x ∈ children fs p <-> is_Some (fs !! (p ++ [x]))) as Hc by apply children_spec.
  assert (forall q : path, is_directory fs q = true <-> fs !! q = Some Directory) as Hd.
  { intros q. unfold is_directory. by destruct (fs !! q) as [[] |]. }
  rewrite list_elem_of_In, in_flat_map. split.
  - intros (y & _ & H). destruct (is_directory fs [y]); [| done]. apply in_flat_map in H as (m & _ & H).
    destruct (is_directory fs [y; m]); [| done]. apply in_flat_map in H as (d & _ & H).
    destruct (is_directory fs [y; m; d]) eqn:E; [| done]. destruct H as [<- | []]. split; [done |]. by apply Hd.
  - intros [Hl Hp]. destruct p as [| y [| m [| d [| ? ?]]]]; try done.
    assert (fs !! [y; m] = Some Directory) as Hm by exact (Hwf [y; m] d _ Hp).
    assert (fs !! [y] = Some Directory) as Hy by exact (Hwf [y] m _ Hm).
    exists y. split; [apply list_elem_of_In, (Hc []); cbn; by rewrite Hy |]. rewrite (proj2 (Hd _) Hy).
    apply in_flat_map. exists m. split; [apply list_elem_of_In, (Hc [y]); cbn; by rewrite Hm |]. rewrite (proj2 (Hd _) Hm).
    apply in_flat_map. exists d. split; [apply list_elem_of_In, (Hc [y; m]); cbn; by rewrite Hp |].
    rewrite (proj2 (Hd _) Hp). by left.
Qed.

Lemma path_leb_total p q : path_leb p q = true \/ path_leb q p = true.
Proof.
  revert q. induction p as [| a p IH]; intros [| b q]; cbn; [by left | by left | by right |].
  rewrite (String.compare_antisym b a). destruct (String.compare a b); cbn; [apply IH | by left | by right].
Qed.

#[local] Instance path_le_total : Total path_le := path_leb_total.

Lemma days_spec (fs : Disk) : well_formed fs ->
  (forall p, p ∈ merge_sort path_le (day_dirs fs) <-> length p = 3%nat /\ fs !! p = Some Directory) /\
  Sorted path_le (merge_sort path_le (day_dirs fs)).
Proof.
  intros Hwf. split; [| apply (Sorted_merge_sort path_le)]. intros p.
  rewrite (merge_sort_Permutation path_le (day_dirs fs)). by apply day_dirs_spec.
Qed.

Section Removable.
Context (all_removable : forall p, removable p = true).

(** The disk without the first [k] directories. *)
Definition without (dirs : list path) (fs : Disk) (k : nat) : Disk :=
  foldl (fun fs p => snd (remove_all fs p)) fs (take k dirs).

Lemma without_lookup dirs (fs : Disk) k q :
  without dirs fs k !! q = if decide (Exists (fun p => below p q) (take k dirs)) then None else fs !! q.
Proof.
  unfold without. generalize (take k dirs) as l. clear dirs k. intros l. revert fs.
  induction l as [| p l IH]; intros fs; cbn [foldl]; [by rewrite decide_False by (by intros ?%Exists_nil) |].
  rewrite IH, remove_all_lookup. destruct (decide (Exists _ l)) as [He | He].
  - by rewrite decide_True by (apply Exists_cons; by right).
  - destruct (decide (below p q /\ taken p q = true)) as [[Hb _] | Hb].
    + by rewrite decide_True by (apply Exists_cons; by left).
    + rewrite decide_False; [done |]. intros [H | H]%Exists_cons; [| done]. apply Hb. unfold taken. by rewrite all_removable.
Qed.

Lemma delete_oldest_cons p p' dirs pct fs n :
  delete_oldest (p :: p' :: dirs) pct fs n =
  if high pct then
    let fs := snd (remove_all fs p) in delete_oldest (p' :: dirs) (GetFrameDiskUsedPercent fs) fs (n + 1)
  else (p :: p' :: dirs, pct, fs, n).
Proof. done. Qed.

Lemma delete_oldest_spec dirs (fs : Disk) n :
  dirs <> [] ->
  exists k, (k < length dirs)%nat /\
    delete_oldest dirs (GetFrameDiskUsedPercent fs) fs n =
      (drop k dirs, GetFrameDiskUsedPercent (without dirs fs k), without dirs fs k, n + Z.of_nat k) /\
    (forall j, (j < k)%nat -> high (GetFrameDiskUsedPercent (without dirs fs j)) = true) /\
    (S k = length dirs \/ high (GetFrameDiskUsedPercent (without dirs fs k)) = false).
Proof.
  revert fs n. induction dirs as [| p dirs IH]; intros fs n; [done |]. intros _.
  destruct dirs as [| p' dirs].
  - exists 0%nat. cbn. rewrite Z.add_0_r. split_and!; [lia | done | lia | by left].
  - rewrite delete_oldest_cons. destruct (high (GetFrameDiskUsedPercent fs)) eqn:Eh; cbv zeta.
    + destruct (IH (snd (remove_all fs p)) (n + 1) ltac:(done)) as (k & Hk & Hd & Hj & Hs).
      exists (S k). change (without (p :: p' :: dirs) fs (S k)) with (without (p' :: dirs) (snd (remove_all fs p)) k).
      rewrite Hd. split_and!; [cbn in *; lia | f_equal; lia | |].
      * intros [| j] Hj'; [exact Eh |]. apply (Hj j). lia.
      * destruct Hs as [Hs | Hs]; [left; cbn in *; lia | by right].
    + exists 0%nat. rewrite Z.add_0_r. cbn. split_and!; [lia | done | lia | by right].
Qed.

Lemma delete_files_lookup p names acc q :
  (forall x, x ∈ names -> fst acc !! (p ++ [x]) <> Some Directory) ->
  fst (foldl (delete_file p) acc names) !! q =
    if decide (Exists (fun x => q = p ++ [x]) names) then None else fst acc !! q.
Proof.
  revert acc. induction names as [| x names IH]; intros [fs n] Hn; cbn [foldl]; [by rewrite decide_False by (by intros ?%Exists_nil) |].
  assert (delete_file p (fs, n) x = (delete (p ++ [x]) fs, n + 1)) as ->.
  { unfold delete_file, remove. rewrite all_removable. unfold is_directory.
    specialize (Hn x ltac:(left)). cbn in Hn. by destruct (fs !! (p ++ [x])) as [[] |]. }
  rewrite IH; cbn [fst].
  - destruct (decide (Exists _ names)) as [He | He]; [by rewrite decide_True by (apply Exists_cons; by right) |].
    destruct (decide (q = p ++ [x])) as [-> | Hne].
    + rewrite lookup_delete_eq, decide_True; [done |]. apply Exists_cons. by left.
    + rewrite lookup_delete_ne by done. rewrite decide_False; [done |]. by intros [? | ?]%Exists_cons.
  - intros x' Hx'. destruct (decide (x' = x)) as [-> | Hne]; [by rewrite lookup_delete_eq |].
    rewrite lookup_delete_ne; [apply Hn; by right |]. intros Heq. apply app_inv_head in Heq. congruence.
Qed.

Lemma prune_years_lookup names (fs : Disk) q :
  (3 <= length q)%nat -> foldl prune_year fs names !! q = fs !! q.
Proof.
  intros Hq.
  assert (forall y m (fs : Disk), prune_month y fs m !! q = fs !! q) as Hm.
  { intros y m fs'. unfold prune_month. case_if; [| done]. apply prune_lookup. intros ->. cbn in Hq. lia. }
  assert (forall y l (fs : Disk), foldl (prune_month y) fs l !! q = fs !! q) as Hms.
  { intros y. induction l as [| m l IH]; intros fs'; cbn; [done |]. by rewrite IH, Hm. }
  assert (forall y (fs : Disk), prune_year fs y !! q = fs !! q) as Hy.
  { intros y fs'. unfold prune_year. case_if; [| done]. rewrite prune_lookup; [apply Hms |]. intros ->. cbn in Hq. lia. }
  revert fs. induction names as [| y names IH]; intros fs; cbn; [done |]. by rewrite IH, Hy.
Qed.

(** The names of files that a cleaning of the directory [p] takes away: at most half,
    none of them newer than one that stays. *)
Record older_half (fs : Disk) (p : path) (gone : list string) : Prop := {
  oh_files x : x ∈ gone -> exists t, (x, t) ∈ regular_files fs p;
  oh_half : (2 * length gone <= length (regular_files fs p))%nat;
  oh_older x t x' t' : (x, t) ∈ regular_files fs p -> (x', t') ∈ regular_files fs p -> x ∈ gone -> x' ∉ gone -> t <= t'
}.

Lemma regular_files_spec (fs : Disk) p x t : (x, t) ∈ regular_files fs p <-> fs !! (p ++ [x]) = Some (Regular t).
Proof.
  unfold regular_files. rewrite list_elem_of_omap. split.
  - intros (x' & _ & H). destruct (fs !! (p ++ [x'])) as [[| t' |] |] eqn:E; try done. by injection H as -> ->.
  - intros H. exists x. rewrite H. split; [| done]. apply children_spec. by rewrite H.
Qed.

Lemma half_older (fs : Disk) p :
  older_half fs p (map fst (take (length (sort_files (regular_files fs p)) / 2) (sort_files (regular_files fs p)))).
Proof.
  pose proof (sort_files_perm (regular_files fs p)) as Hperm. pose proof (sort_files_sorted (regular_files fs p)) as Hs.
  set (l := sort_files (regular_files fs p)) in *. set (n := (length l / 2)%nat).
  assert (StronglySorted (fun a b : string * Z => snd a <= snd b) (take n l ++ drop n l)) as Hss.
  { rewrite take_drop. apply Sorted_StronglySorted; [| exact Hs]. intros a b c ? ?. by etrans. }
  assert (forall x t, (x, t) ∈ l -> (x ∈ map fst (take n l) -> (x, t) ∈ take n l)) as Hin.
  { intros x t Hl Hx. apply list_elem_of_fmap in Hx as ([x' t'] & -> & Ht).
    assert ((x', t') ∈ l) as Hl' by (rewrite <- (take_drop n l); apply elem_of_app; by left).
    rewrite Hperm, regular_files_spec in Hl, Hl'. cbn in *. rewrite Hl in Hl'. by injection Hl' as ->. }
  split.
  - intros x ([x' t] & -> & Hx)%list_elem_of_fmap. exists t. rewrite <- Hperm, <- (take_drop n l). apply elem_of_app. by left.
  - rewrite length_map, length_take, <- Hperm. subst n. pose proof (Nat.div_mod_eq (length l) 2). lia.
  - intros x t x' t' Hx Hx' Hg Hk. rewrite <- Hperm in Hx, Hx'. specialize (Hin x t Hx Hg).
    assert ((x', t') ∈ drop n l) as Hd.
    { rewrite <- (take_drop n l) in Hx'. apply elem_of_app in Hx' as [Ht | Hd]; [| done]. exfalso. apply Hk.
      apply list_elem_of_fmap. by exists (x', t'). }
    exact (StronglySorted_app_1_elem_of (fun a b : string * Z => snd a <= snd b) _ _ _ _ Hss Hin Hd).
Qed.

Lemma last_drop {A} (l : list A) k x : S k = length l -> drop k l = [x] -> list.last l = Some x.
Proof. intros Hl Hd. rewrite <- (take_drop k l), Hd. by rewrite last_snoc. Qed.

(** C11: the emergency cleaning deletes from the oldest day on, and never the newest.
    The days are the directories at the third level, in the order of their paths.
    When the disk of a camera is at 80 % or more and the system lets everything go: the
    cleaning takes away the first [k] days, the disk is
    still at 80 % before each of these removals and below it after the last one
    unless only the newest day is left; the newest day stays, and it loses files only
    when it is the only one left, at most half of them, each at least as old as any
    that stays; nothing else at the level of the days or below changes. *)
Theorem emergency_keeps_the_newest (fs : Disk) newest :
  well_formed fs -> exists_ fs [] = true -> flt (GetFrameDiskUsedPercent fs) FRAME_DISK_EMERGENCY_PCT = false ->
  let days := merge_sort path_le (day_dirs fs) in
  list.last days = Some newest ->
  let '(res, fs') := EmergencyCleanupIfDiskHigh true fs in
  (forall p, p ∈ days <-> length p = 3%nat /\ fs !! p = Some Directory) /\ Sorted path_le days /\
  exists k gone, let left := without days fs k in
    deleted_day_dirs res = Z.of_nat k /\ (k < length days)%nat /\
    (forall j, (j < k)%nat -> high (GetFrameDiskUsedPercent (without days fs j)) = true) /\
    (S k = length days \/ high (GetFrameDiskUsedPercent left) = false /\ gone = []) /\
    older_half left newest gone /\
    (forall q, (3 <= length q)%nat -> fs' !! q =
       if decide (Exists (fun x => q = newest ++ [x]) gone) then None else left !! q).
Proof.
  intros Hwf He Hp days Hlast. unfold EmergencyCleanupIfDiskHigh. rewrite Hp, He. cbn [negb]. fold days.
  destruct (days_spec fs Hwf) as [Hd1 Hd2]. fold days in Hd1, Hd2.
  assert (days <> []) as Hne by (intros E; by rewrite E in Hlast).
  destruct (delete_oldest_spec days fs 0 Hne) as (k & Hk & -> & Hj & Hs).
  set (left := without days fs k) in *. rewrite Z.add_0_l.
  assert (older_half left newest []) as Hnone.
  { split; [by intros ? ?%elem_of_nil | cbn; lia | by intros ? ? ? ? ? ? ?%elem_of_nil]. }
  assert (forall (fs' : Disk) q, (3 <= length q)%nat -> fs' = foldl prune_year left (children left []) ->
            fs' !! q = if decide (Exists (fun x => q = newest ++ [x]) []) then None else left !! q) as Hkeep.
  { intros fs' q Hq ->. rewrite prune_years_lookup by done. by rewrite decide_False by (by intros ?%Exists_nil). }
  destruct (drop k days) as [| day [| day' rest]] eqn:Ed.
  - apply (f_equal length) in Ed. rewrite length_drop in Ed. cbn in Ed. lia.
  - assert (S k = length days) as Hlen by (apply (f_equal length) in Ed; rewrite length_drop in Ed; cbn in Ed; lia).
    assert (day = newest) as -> by (pose proof (last_drop days k day Hlen Ed) as Hl; rewrite Hlast in Hl; by injection Hl as <-).
    destruct (high (GetFrameDiskUsedPercent left)) eqn:Eh.
    + unfold delete_half. set (gone := map fst _).
      destruct (foldl (delete_file newest) (left, 0) gone) as [fs1 files] eqn:Ef. split; [exact Hd1 |]. split; [exact Hd2 |]. exists k, gone. fold left.
      split_and!; try done; [by left | apply half_older |]. intros q Hq. rewrite prune_years_lookup by done.
      change fs1 with (fst (fs1, files)). rewrite <- Ef. apply delete_files_lookup. intros x Hx. cbn.
      destruct (oh_files _ _ _ (half_older left newest) x Hx) as [t Ht]. apply regular_files_spec in Ht. by rewrite Ht.
    + split; [exact Hd1 |]. split; [exact Hd2 |]. exists k, []. fold left. split_and!; try done; [by right | intros q Hq; by apply Hkeep].
  - split; [exact Hd1 |]. split; [exact Hd2 |]. exists k, []. fold left. split_and!; try done; [| intros q Hq; by apply Hkeep].
    destruct Hs as [Hs | Hs]; [| by right]. apply (f_equal length) in Ed. rewrite length_drop in Ed. cbn in Ed. lia.
Qed.

End Removable.
End Store.

(** ** A small disk *)

(** Eight blocks, one per entry; everything can be removed. *)
Definition used_blocks (fs : Disk) : Z := Z.of_nat (length (map_to_list fs)).

#[local] Instance time_le_dec : RelDecision (fun a b : string * Z => snd a <= snd b) := fun a b => decide (snd a <= snd b).
#[local] Instance time_le_total : Total (fun a b : string * Z => snd a <= snd b).
Proof. intros a b. lia. Qed.

#[local] Instance demo_fs : FileSystem := {
  statvfs fs := Some (8, Z.max 0 (8 - used_blocks fs));
  removable _ := true;
  spared _ _ := true;
  spared_root _ := eq_refl;
  spared_tree _ _ _ _ := eq_refl;
  sort_files l := merge_sort (fun a b : string * Z => snd a <= snd b) l;
  sort_files_perm l := merge_sort_Permutation _ l;
  sort_files_sorted l := Sorted_merge_sort _ l;
  imwrite fs _ _ := (true, fs)
}.

Definition demo_disk : Disk := list_to_map [
  ([], Directory); (["2024"], Directory); (["2024"; "01"], Directory);
  (["2024"; "01"; "05"], Directory); (["2024"; "01"; "05"; "a.jpg"], Regular 5);
  (["2024"; "01"; "20"], Directory); (["2024"; "01"; "20"; "b.jpg"], Regular 9); (["2024"; "01"; "20"; "c.jpg"], Regular 7);
  (["2024"; "01"; "20"; "d.jpg"], Regular 8)]%string.

(** Noon of 2024-01-20. *)
Definition demo_now : time_point := timegm 124 0 20 12 0 0 * 1000000000.

Lemma demo_disk_well_formed : well_formed demo_disk.
Proof.
  intros p x n Hn. assert (map_Forall (fun q _ => match rev q with [] => true | _ :: r => is_directory demo_disk (rev r) end = true) demo_disk) as Hall.
  { apply (bool_decide_unpack _). vm_compute. exact I. }
  specialize (Hall _ _ Hn). cbv beta in Hall. rewrite rev_app_distr in Hall. cbn [rev app] in Hall.
  rewrite rev_involutive in Hall. unfold is_directory in Hall.
  revert Hall. generalize (demo_disk !! p). by intros [[] |].
Qed.

Lemma cleanup_deletes_expired_days_witness :
  let fs' := fst (CleanupOldFrameDirs FRAME_RETENTION_DAYS demo_now demo_disk) in
  fs' !! ["2024"; "01"; "05"; "a.jpg"]%string = None /\ fs' !! ["2024"; "01"; "20"; "b.jpg"]%string = Some (Regular 9).
Proof.
  destruct (cleanup_deletes_expired_days FRAME_RETENTION_DAYS demo_now demo_disk ["2024"; "01"; "05"; "a.jpg"]%string demo_disk_well_formed)
    as (_ & H1 & _); [cbn; lia |].
  destruct (cleanup_deletes_expired_days FRAME_RETENTION_DAYS demo_now demo_disk ["2024"; "01"; "20"; "b.jpg"]%string demo_disk_well_formed)
    as (H2 & _); [cbn; lia |].
  split; [apply H1; vm_compute; reflexivity |]. etransitivity; [apply H2; vm_compute; reflexivity |]. vm_compute. reflexivity.
Defined.

(** A directory named after a day of the year 2500 has expired in 2024: the nanoseconds
    of its end do not fit. *)
Lemma far_future_expires :
  expired (demo_now - i32 (24 * FRAME_RETENTION_DAYS) * 3600 * 1000000000) "2500" "01" "20" = true /\
  expired (demo_now - i32 (24 * FRAME_RETENTION_DAYS) * 3600 * 1000000000) "2260" "01" "20" = false.
Proof. vm_compute. split; reflexivity. Qed.

Lemma emergency_keeps_the_newest_witness :
  exists k gone, older_half (without (merge_sort path_le (day_dirs demo_disk)) demo_disk k) ["2024"; "01"; "20"]%string gone.
Proof.
  assert (list.last (merge_sort path_le (day_dirs demo_disk)) = Some ["2024"; "01"; "20"]%string) as Hl by (vm_compute; reflexivity).
  assert (flt (GetFrameDiskUsedPercent demo_disk) FRAME_DISK_EMERGENCY_PCT = false) as Hp by (vm_compute; reflexivity).
  pose proof (emergency_keeps_the_newest (fun _ => eq_refl) demo_disk _ demo_disk_well_formed eq_refl Hp Hl) as H.
  destruct (EmergencyCleanupIfDiskHigh true demo_disk) as [res fs'].
  destruct H as (_ & _ & k & gone & _ & _ & _ & _ & Ho & _). by exists k, gone.
Defined.

(** What is left of the small disk: the older day goes, then the oldest of three files of the other. *)
Example demo_emergency :
  let '(res, fs') := EmergencyCleanupIfDiskHigh true demo_disk in
  deleted_day_dirs res = 1 /\ deleted_files res = 1 /\ fs' !! ["2024"; "01"; "05"]%string = None /\
  fs' !! ["2024"; "01"; "20"; "c.jpg"]%string = None /\ fs' !! ["2024"; "01"; "20"; "d.jpg"]%string = Some (Regular 8).
Proof. vm_compute. split_and!; reflexivity. Qed.
