(* ===== verification/RtpPayload.v ===== *)
(** * Metadata documents as RTP packets

    [Protocol/RTSP_GST/include/OnvifMetadataPayloader.h] and
    [src/OnvifMetadataPayloader.cpp]: an ONVIF metadata document is cut into packets,
    each with an RTP header, and pushed into a GStreamer source.  Bytes are numbers from
    0 to 255.  What GStreamer answers for the n-th packet of a document is an
    argument; the metrics are left out.  [None]: a read behind the document.

    The theorems take the side of a receiver that goes by sequence numbers and markers
    (RFC 3550): whatever is lost or reordered it gets a whole document or nothing, except
    when a packet had no buffer, whose number is then used again; and no character is
    cut. *)

From stdpp Require Import list.
From S2P Require Import Prelude.
Open Scope Z_scope.
Open Scope list_scope.

Abbreviation u8 := (wrap_u 8).
Abbreviation u16 := (wrap_u 16).

Record Config := mkConfig { cfg_ssrc : Z; payload_type : Z; mtu : Z }.

Definition Config_default : Config := mkConfig 0 97 1400.

(** [appsrc_]: the source is there. *)
Record OnvifMetadataPayloader := mkPayloader {
  appsrc_ : bool;
  cfg_ : Config;
  ssrc_ : Z;
  base_time_ : time_point;
  seq_num_ : Z;
  packet_count_ : Z;
  byte_count_ : Z;
  drop_count_ : Z
}.

(** The random numbers are 32 and 16 bits wide. *)
Definition OnvifMetadataPayloader_make (appsrc : bool) (cfg : Config) (now : time_point) (random_ssrc random_seq : Z)
    : OnvifMetadataPayloader :=
  mkPayloader appsrc cfg (if cfg_ssrc cfg =? 0 then random_ssrc else cfg_ssrc cfg) now random_seq 0 0 0.

Definition with_seq (p : OnvifMetadataPayloader) (s : Z) : OnvifMetadataPayloader :=
  mkPayloader (appsrc_ p) (cfg_ p) (ssrc_ p) (base_time_ p) s (packet_count_ p) (byte_count_ p) (drop_count_ p).

Definition count_packet (p : OnvifMetadataPayloader) (total_size : Z) : OnvifMetadataPayloader :=
  mkPayloader (appsrc_ p) (cfg_ p) (ssrc_ p) (base_time_ p) (seq_num_ p) (u64 (packet_count_ p + 1)) (u64 (byte_count_ p + total_size)) (drop_count_ p).

Definition count_drop (p : OnvifMetadataPayloader) : OnvifMetadataPayloader :=
  mkPayloader (appsrc_ p) (cfg_ p) (ssrc_ p) (base_time_ p) (seq_num_ p) (packet_count_ p) (byte_count_ p) (u64 (drop_count_ p + 1)).

(** The clock of the stream, 90 kHz since the start. *)
Definition Now90kHz (p : OnvifMetadataPayloader) (now : time_point) : Z :=
  let now_ns := now - base_time_ p in
  let ticks := Z.quot (wrap_s 64 (now_ns * 90)) 1000000 in
  u32 (Z.land ticks 0xFFFFFFFF).

Definition WriteRtpHeader (p : OnvifMetadataPayloader) (marker : bool) (timestamp : Z) : list Z * OnvifMetadataPayloader :=
  let seq := seq_num_ p in
  ([0x80;
    Z.lor (if marker then 0x80 else 0x00) (Z.land (payload_type (cfg_ p)) 0x7F);
    u8 (Z.shiftr seq 8);
    u8 (Z.land seq 0xFF);
    u8 (Z.shiftr timestamp 24);
    u8 (Z.shiftr timestamp 16);
    u8 (Z.shiftr timestamp 8);
    u8 (Z.land timestamp 0xFF);
    u8 (Z.shiftr (ssrc_ p) 24);
    u8 (Z.shiftr (ssrc_ p) 16);
    u8 (Z.shiftr (ssrc_ p) 8);
    u8 (Z.land (ssrc_ p) 0xFF)], with_seq p (u16 (seq + 1))).

(** No buffer, a buffer that cannot be mapped, or the flow after the push. *)
Inductive GstAnswer := NoBuffer | NotMapped | Pushed (flow_ok : bool).

(** The packet that the source accepted, if it did. *)
Definition PushPacket (answer : GstAnswer) (p : OnvifMetadataPayloader) (payload : list Z) (marker : bool) (ts : Z)
    : option (list Z) * OnvifMetadataPayloader :=
  if negb (appsrc_ p) then (None, p)
  else
    let total_size := 12 + Z.of_nat (length payload) in
    match answer with
    | NoBuffer | NotMapped => (None, p)
    | Pushed flow_ok =>
        let '(header, p) := WriteRtpHeader p marker ts in
        if flow_ok then (Some (header ++ payload), count_packet p total_size) else (None, p)
    end.

Definition is_continuation (b : Z) : bool := Z.land b 0xC0 =? 0x80.

(** Back from [chunk] to a byte that starts a character, or to the start. *)
Fixpoint back_off (data : list Z) (chunk : nat) : option nat :=
  match chunk with
  | O => Some O
  | S chunk' => b ← data !! chunk; if is_continuation b then back_off data chunk' else Some chunk
  end.

Definition SafeUtf8Chunk (data : list Z) (max_chunk remaining : nat) : option nat :=
  if (remaining <=? max_chunk)%nat then Some remaining
  else chunk ← back_off data max_chunk; Some (if (chunk =? 0)%nat then max_chunk else chunk).

(** The turns of the loop from packet [i] on; [data] is the rest of the document. *)
Fixpoint push_loop (fuel : nat) (gst : nat -> GstAnswer) (payload_max : nat) (ts : Z) (i : nat) (data : list Z)
    (p : OnvifMetadataPayloader) : option (bool * list (list Z) * OnvifMetadataPayloader) :=
  match data with
  | [] => Some (true, [], p)
  | _ =>
      match fuel with
      | O => None
      | S fuel =>
          chunk ← SafeUtf8Chunk data payload_max (length data);
          let marker := (chunk =? length data)%nat in
          match PushPacket (gst i) p (take chunk data) marker ts with
          | (None, p) => Some (false, [], count_drop p)
          | (Some packet, p) =>
              '(ok, packets, p) ← push_loop fuel gst payload_max ts (S i) (drop chunk data) p;
              Some (ok, packet :: packets, p)
          end
      end
  end.

(** The result, the packets pushed, and the payloader after it. *)
Definition PushXml (gst : nat -> GstAnswer) (now : time_point) (xml_document : list Z) (p : OnvifMetadataPayloader)
    : option (bool * list (list Z) * OnvifMetadataPayloader) :=
  if negb (appsrc_ p) || (match xml_document with [] => true | _ => false end) then Some (false, [], count_drop p)
  else
    let payload_max := if 12 <? mtu (cfg_ p) then mtu (cfg_ p) - 12 else 1 in
    push_loop (length xml_document) gst (Z.to_nat payload_max) (Now90kHz p now) 0 xml_document p.

(** ** A receiver *)

Record Rtp := mkRtp { rtp_marker : bool; rtp_payload_type : Z; rtp_seq : Z; rtp_timestamp : Z; rtp_ssrc : Z; rtp_payload : list Z }.

#[export] Instance Rtp_eq_dec : EqDecision Rtp.
Proof. solve_decision. Defined.

Definition parse_rtp (packet : list Z) : option Rtp :=
  match packet with
  | b0 :: b1 :: s1 :: s0 :: t3 :: t2 :: t1 :: t0 :: c3 :: c2 :: c1 :: c0 :: payload =>
      if b0 =? 0x80 then
        Some (mkRtp (Z.testbit b1 7) (b1 mod 128) (s1 * 256 + s0)
                (((t3 * 256 + t2) * 256 + t1) * 256 + t0) (((c3 * 256 + c2) * 256 + c1) * 256 + c0) payload)
      else None
  | _ => None
  end.

(** From the packet with the sequence number [s] up to the first with a marker. *)
Fixpoint reassemble (n : nat) (s : Z) (arrived : list Rtp) : option (list Z) :=
  match n with
  | O => None
  | S n =>
      r ← List.find (fun r => rtp_seq r =? s) arrived;
      if rtp_marker r then Some (rtp_payload r)
      else rest ← reassemble n (u16 (s + 1)) arrived; Some (rtp_payload r ++ rest)
  end.

(** The document that starts at sequence number [s], from what has arrived in any order. *)
Definition receive (s : Z) (arrived : list (list Z)) : option (list Z) :=
  reassemble (length arrived) s (omap parse_rtp arrived).

(** ** Headers *)

Lemma bytes_of_32 z : 0 <= z < 2 ^ 32 ->
  ((u8 (Z.shiftr z 24) * 256 + u8 (Z.shiftr z 16)) * 256 + u8 (Z.shiftr z 8)) * 256 + u8 (Z.land z 0xFF) = z.
Proof.
  intros Hz. unfold wrap_u. rewrite !Z.shiftr_div_pow2 by lia. change 0xFF with (Z.ones 8). rewrite Z.land_ones by lia.
  change (2 ^ 24) with (256 * (256 * 256)). change (2 ^ 16) with (256 * 256). change (2 ^ 8) with 256.
  rewrite <- !Z.div_div by lia. change (2 ^ 32) with 4294967296 in Hz. Z.to_euclidean_division_equations. lia.
Qed.

Lemma bytes_of_16 z : 0 <= z < 2 ^ 16 -> u8 (Z.shiftr z 8) * 256 + u8 (Z.land z 0xFF) = z.
Proof.
  intros Hz. unfold wrap_u. rewrite !Z.shiftr_div_pow2 by lia. change 0xFF with (Z.ones 8). rewrite Z.land_ones by lia.
  change (2 ^ 8) with 256. change (2 ^ 16) with 65536 in Hz. Z.to_euclidean_division_equations. lia.
Qed.

(** The fields of a payloader have their widths. *)
Definition widths_ok (p : OnvifMetadataPayloader) : Prop := 0 <= seq_num_ p < 2 ^ 16 /\ in_u32 (ssrc_ p).

Lemma u16_range z : 0 <= u16 z < 2 ^ 16.
Proof. apply Z.mod_pos_bound. lia. Qed.

Lemma u16_add a b : u16 (u16 a + b) = u16 (a + b).
Proof. apply Z.add_mod_idemp_l. lia. Qed.

Lemma marker_byte (marker : bool) (t : Z) :
  Z.testbit (Z.lor (if marker then 0x80 else 0x00) (Z.land t 0x7F)) 7 = marker /\
  Z.lor (if marker then 0x80 else 0x00) (Z.land t 0x7F) mod 128 = t mod 128.
Proof.
  assert (Z.land t 0x7F = t mod 128) as Hm by (change 0x7F with (Z.ones 7); by rewrite Z.land_ones by lia).
  assert (Z.testbit (t mod 128) 7 = false) as Ht.
  { rewrite <- Hm, Z.land_spec. change (Z.testbit 0x7F 7) with false. apply andb_false_r. }
  split.
  - rewrite Z.lor_spec, Hm, Ht, orb_false_r. by destruct marker.
  - rewrite Hm. change 128 with (2 ^ 7). rewrite <- !Z.land_ones, Z.land_lor_distr_l by lia.
    rewrite <- Z.land_assoc. change (Z.land (Z.ones 7) (Z.ones 7)) with (Z.ones 7). destruct marker; cbn [Z.land Z.lor]; done.
Qed.

(** The packet that a receiver reads. *)
Definition rtp_of (p : OnvifMetadataPayloader) (marker : bool) (ts : Z) (payload : list Z) : Rtp :=
  mkRtp marker (payload_type (cfg_ p) mod 128) (seq_num_ p) ts (ssrc_ p) payload.

Lemma header_round_trip p marker ts payload :
  widths_ok p -> in_u32 ts ->
  parse_rtp (fst (WriteRtpHeader p marker ts) ++ payload) = Some (rtp_of p marker ts payload).
Proof.
  intros [Hs Hc] Ht. unfold WriteRtpHeader, parse_rtp, rtp_of. cbn [fst app].
  destruct (marker_byte marker (payload_type (cfg_ p))) as [-> ->].
  rewrite bytes_of_16, !bytes_of_32 by done. reflexivity.
Qed.

(** What a call of [PushPacket] that is accepted does. *)
Lemma push_packet_spec answer p payload marker ts :
  appsrc_ p = true -> widths_ok p -> in_u32 ts ->
  match PushPacket answer p payload marker ts with
  | (Some packet, p') => answer = Pushed true /\ parse_rtp packet = Some (rtp_of p marker ts payload) /\
      length packet = (12 + length payload)%nat /\ drop 12 packet = payload /\
      appsrc_ p' = true /\ widths_ok p' /\ cfg_ p' = cfg_ p /\ ssrc_ p' = ssrc_ p /\ seq_num_ p' = u16 (seq_num_ p + 1)
  | (None, _) => answer <> Pushed true
  end.
Proof.
  intros Ha Hw Ht. unfold PushPacket. rewrite Ha. cbn [negb]. destruct answer as [| | [|]]; try done.
  pose proof (header_round_trip p marker ts payload Hw Ht) as Hh. destruct Hw as [Hs Hc].
  destruct (WriteRtpHeader p marker ts) as [header p'] eqn:E. cbn [fst] in Hh. unfold WriteRtpHeader in E. injection E as <- <-.
  split_and!; try done. split; [apply u16_range | done].
Qed.

(** ** Cutting a document *)

Lemma back_off_spec data chunk :
  (chunk < length data)%nat ->
  exists c, back_off data chunk = Some c /\ (c <= chunk)%nat /\
    (c = 0%nat \/ exists b, data !! c = Some b /\ is_continuation b = false) /\
    (forall j b, (c < j <= chunk)%nat -> data !! j = Some b -> is_continuation b = true).
Proof.
  induction chunk as [| chunk IH]; intros Hl; cbn [back_off].
  - exists 0%nat. split_and!; [done | lia | by left | lia].
  - destruct (lookup_lt_is_Some_2 data (S chunk) Hl) as [b Hb]. rewrite Hb. cbn [mbind option_bind].
    destruct (is_continuation b) eqn:Ec.
    + destruct (IH ltac:(lia)) as (c & -> & Hc & Hs & Hj). exists c. split_and!; [done | lia | done |].
      intros j b' Hjc Hb'. destruct (decide (j = S chunk)) as [-> | Hne]; [by simplify_eq | apply (Hj j); [lia | done]].
    + exists (S chunk). split_and!; [done | lia | right; by exists b | lia].
Qed.

Lemma chunk_spec data m :
  data <> [] -> (0 < m)%nat ->
  exists chunk, SafeUtf8Chunk data m (length data) = Some chunk /\ (0 < chunk <= length data)%nat /\ (chunk <= m)%nat.
Proof.
  intros Hd Hm. assert (0 < length data)%nat by (destruct data; cbn; [done | lia]). unfold SafeUtf8Chunk.
  destruct (Nat.leb_spec (length data) m) as [Hle | Hgt]; [exists (length data); split_and!; try done; lia |].
  destruct (back_off_spec data m Hgt) as (c & -> & Hc & _ & _). cbn [mbind option_bind].
  eexists. split; [reflexivity |]. destruct (Nat.eqb_spec c 0); lia.
Qed.

(** The payloads that the loop cuts, up to a push that fails. *)
Inductive cut (m : nat) : list Z -> list (list Z) -> Prop :=
| cut_end data : cut m data []
| cut_next data chunk payloads :
    data <> [] -> SafeUtf8Chunk data m (length data) = Some chunk ->
    cut m (drop chunk data) payloads -> cut m data (take chunk data :: payloads).

(** The packets of the loop as a receiver reads them: numbered in order, with a marker on
    the last one of a complete document only. *)
Record stream (s : Z) (complete : bool) (data : list Z) (rs : list Rtp) : Prop := {
  st_seq i r : rs !! i = Some r -> rtp_seq r = u16 (s + Z.of_nat i);
  st_doc : if complete then exists init last, rs = init ++ [last] /\ Forall (fun r => rtp_marker r = false) init /\
             rtp_marker last = true /\ concat (map rtp_payload rs) = data
           else Forall (fun r => rtp_marker r = false) rs
}.

Lemma stream_cons s r ok data rs :
  rtp_seq r = s -> 0 <= s < 2 ^ 16 -> rtp_marker r = false -> stream (u16 (s + 1)) ok data rs ->
  stream s ok (rtp_payload r ++ data) (r :: rs).
Proof.
  intros Hr Hs Hm [Hseq Hdoc]. split.
  - intros [| i] r' Hi; cbn in Hi; [simplify_eq; rewrite Z.add_0_r; by rewrite wrap_u_id |].
    rewrite (Hseq i r' Hi), u16_add. f_equal. lia.
  - destruct ok; [| by constructor]. destruct Hdoc as (init & last & -> & Hi & Hl & <-).
    exists (r :: init), last. split_and!; [done | by constructor | done | done].
Qed.

Lemma stream_last r : 0 <= rtp_seq r < 2 ^ 16 -> rtp_marker r = true -> stream (rtp_seq r) true (rtp_payload r) [r].
Proof.
  intros Hs Hm. split.
  - intros [| i] r' Hi; cbn in Hi; [simplify_eq; rewrite Z.add_0_r; by rewrite wrap_u_id | by destruct i].
  - exists [], r. split_and!; [done | constructor | done | cbn; apply app_nil_r].
Qed.

(** Packets carry the constants of their stream. *)
Definition of_stream (p : OnvifMetadataPayloader) (ts : Z) (r : Rtp) : Prop :=
  rtp_payload_type r = payload_type (cfg_ p) mod 128 /\ rtp_timestamp r = ts /\ rtp_ssrc r = ssrc_ p.

(** What is known of the packets of a run of the loop. *)
Record pushed (gst : nat -> GstAnswer) (p : OnvifMetadataPayloader) (m : nat) (ts : Z) (i : nat) (data : list Z)
    (ok : bool) (packets : list (list Z)) : Prop := {
  pu_rtp : exists rs, mapM parse_rtp packets = Some rs /\ stream (seq_num_ p) ok data rs /\ Forall (of_stream p ts) rs;
  pu_size : Forall (fun packet => (length packet <= 12 + m)%nat) packets;
  pu_cut : cut m data (map (drop 12) packets);
  pu_good j : (j < length packets)%nat -> gst (i + j)%nat = Pushed true;
  pu_bad : ok = false -> gst (i + length packets)%nat <> Pushed true
}.

Lemma push_loop_spec gst m ts fuel i data p :
  (0 < m)%nat -> in_u32 ts -> appsrc_ p = true -> widths_ok p -> data <> [] -> (length data <= fuel)%nat ->
  exists ok packets p', push_loop fuel gst m ts i data p = Some (ok, packets, p') /\ pushed gst p m ts i data ok packets.
Proof.
  intros Hm Ht. revert i data p. induction fuel as [| fuel IH]; intros i data p Ha Hw Hd Hf; [destruct data; cbn in *; [done | lia] |].
  destruct (chunk_spec data m Hd Hm) as (chunk & Hchunk & Hpos & Hle).
  assert (push_loop (S fuel) gst m ts i data p =
    match PushPacket (gst i) p (take chunk data) (chunk =? length data)%nat ts with
    | (None, p) => Some (false, [], count_drop p)
    | (Some packet, p) => '(ok, packets, p) ← push_loop fuel gst m ts (S i) (drop chunk data) p; Some (ok, packet :: packets, p)
    end) as ->.
  { destruct data as [| b data]; [done |]. cbn [push_loop]. by rewrite Hchunk. }
  pose proof (push_packet_spec (gst i) p (take chunk data) (chunk =? length data)%nat ts Ha Hw Ht) as Hp.
  destruct (PushPacket _ _ _ _ _) as [[packet |] p1].
  2: { exists false, [], (count_drop p1). split; [done |]. split; cbn; [| done | constructor | lia | by rewrite Nat.add_0_r].
       exists []. split_and!; [done | by split | done]. }
  destruct Hp as (Hg & Hparse & Hlen & Hdrop & Ha1 & Hw1 & Hc1 & Hss1 & Hs1).
  set (r := rtp_of p _ ts (take chunk data)) in *.
  assert (of_stream p ts r) as Hof by done.
  assert (length packet <= 12 + m)%nat as Hsize by (rewrite Hlen, length_take; lia).
  destruct (Nat.eqb_spec chunk (length data)) as [-> | Hne].
  - rewrite drop_ge, take_ge in * by lia. exists true, [packet], p1.
    split; [destruct fuel; reflexivity |]. split; [| by constructor | | | done].
    + exists [r]. cbn. rewrite Hparse. split_and!; [done | | by constructor].
      pose proof (stream_last r (proj1 Hw) eq_refl) as Hl. cbn in Hl. by rewrite take_ge in Hl by lia.
    + cbn. rewrite Hdrop. rewrite <- (take_ge data (length data)) at 2 by lia. eapply cut_next; [done | done | constructor].
    + cbn. intros j Hj. assert (j = 0%nat) as -> by lia. by rewrite Nat.add_0_r.
  - destruct (IH (S i) (drop chunk data) p1 Ha1 Hw1) as (ok & packets & p2 & -> & [(rs & Hrs & Hst & Hall) Hsz Hcut Hgood Hbad]).
    { intros E%(f_equal length). rewrite length_drop in E. cbn in E. lia. }
    { rewrite length_drop. lia. }
    exists ok, (packet :: packets), p2. split; [done |]. split.
    + exists (r :: rs). cbn. rewrite Hparse. cbn. rewrite Hrs. cbn. split_and!; [done | |].
      * rewrite <- (take_drop chunk data). rewrite Hs1 in Hst. by apply (stream_cons (seq_num_ p) r); [| apply Hw | |].
      * constructor; [done |]. unfold of_stream in *. by rewrite Hc1, Hss1 in Hall.
    + by constructor.
    + cbn. rewrite Hdrop. by eapply cut_next.
    + cbn. intros [| j] Hj; [by rewrite Nat.add_0_r |]. rewrite <- Nat.add_succ_comm. apply Hgood. lia.
    + cbn. rewrite <- Nat.add_succ_comm. exact Hbad.
Qed.

(** ** Putting it together again *)

Lemma reassemble_unmarked n s arrived : Forall (fun r => rtp_marker r = false) arrived -> reassemble n s arrived = None.
Proof.
  intros Ha. revert s. induction n as [| n IH]; intros s; cbn [reassemble]; [done |].
  destruct (List.find _ arrived) as [r |] eqn:E; cbn [mbind option_bind]; [| done].
  apply find_some in E as [Hr _]. apply list_elem_of_In in Hr. rewrite Forall_forall in Ha. rewrite (Ha r Hr), IH. done.
Qed.

Section Reassembly.
Context (s : Z) (data : list Z) (rs arrived : list Rtp).
Context (Hstream : stream s true data rs) (Hlen : Z.of_nat (length rs) <= 65536) (Harrived : arrived ⊆+ rs).

Lemma seq_inj i j r : rs !! i = Some r -> (j < length rs)%nat -> rtp_seq r = u16 (s + Z.of_nat j) -> i = j.
Proof.
  intros Hi Hj Heq. pose proof (lookup_lt_Some _ _ _ Hi). rewrite (st_seq _ _ _ _ Hstream i r Hi) in Heq.
  unfold wrap_u in Heq. change (2 ^ 16) with 65536 in Heq. Z.to_euclidean_division_equations. lia.
Qed.

Lemma stream_NoDup : NoDup rs.
Proof.
  apply NoDup_alt. intros i j r Hi Hj. apply (seq_inj i j r Hi); [by eapply lookup_lt_Some |]. exact (st_seq _ _ _ _ Hstream j r Hj).
Qed.

Lemma find_packet i r :
  rs !! i = Some r ->
  (r ∈ arrived -> List.find (fun r => rtp_seq r =? u16 (s + Z.of_nat i)) arrived = Some r) /\
  (r ∉ arrived -> List.find (fun r => rtp_seq r =? u16 (s + Z.of_nat i)) arrived = None).
Proof.
  intros Hi. pose proof (lookup_lt_Some _ _ _ Hi) as Hl. destruct (List.find _ arrived) as [r' |] eqn:E.
  - apply find_some in E as [Hin Hs%Z.eqb_eq]. apply list_elem_of_In in Hin.
    assert (r' ∈ rs) as [k Hk]%list_elem_of_lookup_1 by (by eapply elem_of_submseteq).
    assert (k = i) as -> by (by eapply seq_inj). simplify_eq. split; [done | by intros Hn].
  - split; [| done]. intros Hin. apply list_elem_of_In in Hin. pose proof (find_none _ _ E _ Hin) as Hn. cbn in Hn.
    by rewrite (st_seq _ _ _ _ Hstream i r Hi), Z.eqb_refl in Hn.
Qed.

Lemma marker_last i r : rs !! i = Some r -> rtp_marker r = (S i =? length rs)%nat.
Proof.
  destruct (st_doc _ _ _ _ Hstream) as (init & last & Hrs & Hi & Hl & _). rewrite Hrs, length_app. change (length [last]) with 1%nat. intros Hr.
  apply lookup_app_Some in Hr as [Hr | [Hge Hr]].
  - apply lookup_lt_Some in Hr as Hlt. rewrite Forall_lookup in Hi. rewrite (Hi _ _ Hr). symmetry. apply Nat.eqb_neq. lia.
  - apply list_lookup_singleton_Some in Hr as [Hr ->]. rewrite Hl. symmetry. apply Nat.eqb_eq. lia.
Qed.

Lemma reassemble_step n i r :
  rs !! i = Some r ->
  reassemble (S n) (u16 (s + Z.of_nat i)) arrived =
    r' ← List.find (fun r => rtp_seq r =? u16 (s + Z.of_nat i)) arrived;
    if rtp_marker r' then Some (rtp_payload r')
    else rest ← reassemble n (u16 (s + Z.of_nat (S i))) arrived; Some (rtp_payload r' ++ rest).
Proof. intros _. cbn [reassemble]. rewrite u16_add. by replace (s + Z.of_nat i + 1) with (s + Z.of_nat (S i)) by lia. Qed.

Lemma reassemble_all n i :
  (forall r, r ∈ rs -> r ∈ arrived) -> (i < length rs)%nat -> (length rs - i <= n)%nat ->
  reassemble n (u16 (s + Z.of_nat i)) arrived = Some (concat (map rtp_payload (drop i rs))).
Proof.
  intros Hall. revert i. induction n as [| n IH]; intros i Hi Hn; [lia |].
  destruct (lookup_lt_is_Some_2 rs i Hi) as [r Hr]. rewrite (reassemble_step n i r Hr).
  rewrite (proj1 (find_packet i r Hr)) by (apply Hall; by eapply list_elem_of_lookup_2). cbn [mbind option_bind].
  rewrite (drop_S _ _ _ Hr), (marker_last i r Hr). cbn [map concat]. destruct (Nat.eqb_spec (S i) (length rs)) as [E | Hne].
  - by rewrite drop_ge, app_nil_r by lia.
  - by rewrite IH by lia.
Qed.

Lemma reassemble_missing n i k r : rs !! k = Some r -> r ∉ arrived -> (i <= k)%nat -> reassemble n (u16 (s + Z.of_nat i)) arrived = None.
Proof.
  intros Hr Hn. revert i. induction n as [| n IH]; intros i Hi; [done |]. pose proof (lookup_lt_Some _ _ _ Hr) as Hk.
  destruct (lookup_lt_is_Some_2 rs i ltac:(lia)) as [ri Hri]. rewrite (reassemble_step n i ri Hri).
  destruct (List.find _ arrived) as [r' |] eqn:E; cbn [mbind option_bind]; [| done].
  assert (i <> k) as Hne by (intros ->; simplify_eq; by rewrite (proj2 (find_packet k r Hr) Hn) in E).
  apply find_some in E as [Hin Hs%Z.eqb_eq]. apply list_elem_of_In in Hin.
  assert (r' ∈ rs) as [j Hj]%list_elem_of_lookup_1 by (by eapply elem_of_submseteq).
  assert (j = i) as -> by (eapply seq_inj; [exact Hj | lia | done]).
  rewrite (marker_last i r' Hj). destruct (Nat.eqb_spec (S i) (length rs)); [lia |]. by rewrite IH by lia.
Qed.

Lemma reassemble_spec :
  0 <= s < 2 ^ 16 ->
  reassemble (length arrived) s arrived = if (length arrived =? length rs)%nat then Some data else None.
Proof.
  intros Hs. assert (u16 (s + Z.of_nat 0) = s) as Hs0 by (rewrite Z.add_0_r; by apply wrap_u_id). rewrite <- Hs0 at 1.
  destruct (st_doc _ _ _ _ Hstream) as (init & last & Hrs & _ & _ & Hd).
  assert (0 < length rs)%nat by (rewrite Hrs, length_app; cbn; lia).
  destruct (Nat.eqb_spec (length arrived) (length rs)) as [E | Hne].
  - assert (arrived ≡ₚ rs) as Hp by (apply submseteq_length_Permutation; [done | lia]).
    rewrite reassemble_all; [by rewrite drop_0, Hd | intros r; by rewrite Hp | lia | lia].
  - destruct (decide (Forall (fun r => r ∈ arrived) rs)) as [Hall | Hex].
    + exfalso. apply Hne. rewrite Forall_forall in Hall. apply submseteq_length in Harrived as Hle.
      pose proof (submseteq_length _ _ (NoDup_submseteq _ _ stream_NoDup Hall)). lia.
    + apply not_Forall_Exists in Hex; [| intros r; apply _]. apply Exists_exists in Hex as (r & [k Hk]%list_elem_of_lookup_1 & Hn).
      by apply (reassemble_missing _ 0 k r); [| | lia].
Qed.

End Reassembly.

Lemma receive_spec s ok data packets rs arrived :
  mapM parse_rtp packets = Some rs -> stream s ok data rs -> 0 <= s < 2 ^ 16 -> Z.of_nat (length packets) <= 65536 ->
  arrived ⊆+ packets ->
  receive s arrived = if ok && (length arrived =? length packets)%nat then Some data else None.
Proof.
  intros Hrs%mapM_Some Hst Hs Hlen Harr. unfold receive.
  assert (omap parse_rtp packets = rs) as Ho by (clear -Hrs; by induction Hrs as [| pk r pks rs H _ IH]; cbn; [| rewrite H, IH]).
  apply submseteq_Permutation in Harr as [k Hk].
  assert (omap parse_rtp arrived ⊆+ rs) as Hsub by (rewrite <- Ho, Hk, omap_app; by apply submseteq_inserts_r).
  assert (length (omap parse_rtp arrived) = length arrived) as Hla.
  { assert (Forall (fun pk => is_Some (parse_rtp pk)) arrived) as Hp.
    { apply Forall_forall. intros pk Hpk. assert (pk ∈ packets) as [i Hi]%list_elem_of_lookup_1 by (rewrite Hk; apply elem_of_app; by left).
      destruct (Forall2_lookup_l _ _ _ _ _ Hrs Hi) as (r & _ & Hr). by exists r. }
    clear -Hp. induction Hp as [| pk pks [r Hr] _ IH]; cbn; [done | by rewrite Hr; cbn; rewrite IH]. }
  pose proof (Forall2_length _ _ _ Hrs) as Hl. rewrite <- Hla, Hl. destruct ok; cbn [andb].
  - apply reassemble_spec; [done | by rewrite <- Hl | done | done].
  - apply reassemble_unmarked. apply Forall_forall. intros r Hr.
    pose proof (st_doc _ _ _ _ Hst) as Hd. cbn in Hd. rewrite Forall_forall in Hd. apply Hd. by eapply elem_of_submseteq.
Qed.

Lemma push_xml_spec gst now xml p :
  appsrc_ p = true -> widths_ok p -> xml <> [] ->
  let m := Z.to_nat (if 12 <? mtu (cfg_ p) then mtu (cfg_ p) - 12 else 1) in
  exists ok packets p', PushXml gst now xml p = Some (ok, packets, p') /\ pushed gst p m (Now90kHz p now) 0 xml ok packets.
Proof.
  intros Ha Hw Hx m. unfold PushXml. rewrite Ha. cbn [negb orb]. destruct xml as [| b xml]; [done |].
  apply push_loop_spec; [| apply u32_range | done | done | done | done].
  subst m. destruct (Z.ltb_spec 12 (mtu (cfg_ p))); lia.
Qed.

(** ** One document after another *)

Record Document := mkDocument { d_gst : nat -> GstAnswer; d_now : time_point; d_xml : list Z }.

(** A push: its first sequence number, the document, the result, the packets. *)
Record Sending := mkSending { sn_seq : Z; sn_document : Document; sn_ok : bool; sn_packets : list (list Z) }.

Fixpoint push_all (l : list Document) (p : OnvifMetadataPayloader) : option (list Sending * OnvifMetadataPayloader) :=
  match l with
  | [] => Some ([], p)
  | d :: l =>
      '(ok, packets, p1) ← PushXml (d_gst d) (d_now d) (d_xml d) p;
      '(sends, p2) ← push_all l p1;
      Some (mkSending (seq_num_ p) d ok packets :: sends, p2)
  end.

(** The packet that ended a push had got its header: its number is used up. *)
Definition uses_number (a : GstAnswer) : bool := match a with Pushed _ => true | _ => false end.

Definition number_lost (x : Sending) : bool := negb (sn_ok x) && uses_number (d_gst (sn_document x) (length (sn_packets x))).

Definition numbers (x : Sending) : nat := (length (sn_packets x) + if number_lost x then 1 else 0)%nat.

Lemma push_loop_seq gst m ts fuel i data p ok packets p' :
  appsrc_ p = true -> widths_ok p -> push_loop fuel gst m ts i data p = Some (ok, packets, p') ->
  appsrc_ p' = true /\ widths_ok p' /\ cfg_ p' = cfg_ p /\
  seq_num_ p' = u16 (seq_num_ p + Z.of_nat (length packets + if negb ok && uses_number (gst (i + length packets)%nat) then 1 else 0)).
Proof.
  revert i data p ok packets p'. induction fuel as [| fuel IH]; intros i data p ok packets p' Ha Hw; destruct data as [| b data]; cbn [push_loop]; try done.
  1, 2: intros [= <- <- <-]; cbn; rewrite Z.add_0_r; split_and!; try done; by rewrite wrap_u_id by (done || apply Hw).
  destruct (SafeUtf8Chunk _ _ _) as [chunk |]; [| done]. cbn [mbind option_bind]. set (payload := take _ _). set (marker := Nat.eqb _ _).
  unfold PushPacket. rewrite Ha. cbn [negb]. destruct (gst i) as [| | flow] eqn:Eg.
  1, 2: intros [= <- <- <-]; cbn [length negb andb count_drop appsrc_ cfg_ seq_num_]; rewrite Nat.add_0_r, Eg; cbn; rewrite Z.add_0_r; split_and!; try done; by rewrite wrap_u_id by (done || apply Hw).
  assert (widths_ok (snd (WriteRtpHeader p marker ts))) as Hw1 by (split; [apply u16_range | apply Hw]).
  destruct (WriteRtpHeader p marker ts) as [header p1] eqn:Eh. assert (seq_num_ p1 = u16 (seq_num_ p + 1) /\ appsrc_ p1 = appsrc_ p /\ cfg_ p1 = cfg_ p) as (Hs1 & Ha1 & Hc1)
    by (unfold WriteRtpHeader in Eh; by injection Eh as <- <-). cbn [snd] in Hw1.
  destruct flow.
  - destruct (push_loop _ _ _ _ _ _ _) as [[[ok1 packets1] p2] |] eqn:El; [| done]. cbn [mbind option_bind]. intros [= <- <- <-].
    apply IH in El as (E1 & E2 & E3 & E4); [| cbn; congruence | done]. split_and!; try done; [cbn in E3; congruence |]. rewrite E4. cbn [count_packet seq_num_ length].
    rewrite Hs1, u16_add, <- Nat.add_succ_comm. f_equal. lia.
  - intros [= <- <- <-]. cbn [length negb andb count_drop appsrc_ cfg_ seq_num_]. rewrite Nat.add_0_r, Eg, Hs1. split_and!; try done; congruence.
Qed.

Lemma parse_payload packet r : parse_rtp packet = Some r -> rtp_payload r = drop 12 packet.
Proof. do 12 (destruct packet as [| ? packet]; [done |]). cbn. case_match; [by intros [= <-] | done]. Qed.

(** The numbers from [s] on, each with the packet that carries it, if any does. *)
Inductive sent_from : Z -> list Sending -> list (option (list Z)) -> Prop :=
| sent_nil s : sent_from s [] []
| sent_cons x l rs slots :
    0 <= sn_seq x < 2 ^ 16 -> mapM parse_rtp (sn_packets x) = Some rs -> stream (sn_seq x) (sn_ok x) (d_xml (sn_document x)) rs ->
    sent_from (u16 (sn_seq x + Z.of_nat (numbers x))) l slots ->
    sent_from (sn_seq x) (x :: l) (map Some (sn_packets x) ++ (if number_lost x then [None] else []) ++ slots).

Lemma push_all_spec l p : appsrc_ p = true -> widths_ok p -> Forall (fun d => d_xml d <> []) l ->
  exists sends p' slots, push_all l p = Some (sends, p') /\ map sn_document sends = l /\ sent_from (seq_num_ p) sends slots /\
    Forall (fun x => (12 < mtu (cfg_ p) -> Forall (fun packet => Z.of_nat (length packet) <= mtu (cfg_ p)) (sn_packets x)) /\
      (forall j, (j < length (sn_packets x))%nat -> d_gst (sn_document x) j = Pushed true) /\
      (sn_ok x = false -> d_gst (sn_document x) (length (sn_packets x)) <> Pushed true)) sends.
Proof.
  revert p. induction l as [| d l IH]; intros p Ha Hw Hx; [exists [], p, []; split_and!; try done; constructor |].
  apply Forall_cons in Hx as [Hd Hx]. cbn [push_all].
  destruct (push_xml_spec (d_gst d) (d_now d) (d_xml d) p Ha Hw Hd) as (ok & packets & p1 & E & [(rs & Hrs & Hst & _) Hsz _ Hg Hb]).
  rewrite E. cbn [mbind option_bind].
  assert (appsrc_ p1 = true /\ widths_ok p1 /\ cfg_ p1 = cfg_ p /\ seq_num_ p1 = u16 (seq_num_ p + Z.of_nat (numbers (mkSending (seq_num_ p) d ok packets)))) as (Ha1 & Hw1 & Hc1 & Hs1).
  { unfold PushXml in E. rewrite Ha in E. destruct (d_xml d) as [| b xml]; [done |]. cbn [negb orb] in E. by apply push_loop_seq in E. }
  destruct (IH p1 Ha1 Hw1 Hx) as (sends & p' & slots & -> & Hm & Hsent & Hall). cbn [mbind option_bind].
  eexists _, p', _. split; [done |]. split; [cbn; by rewrite Hm |]. split.
  - apply (sent_cons (mkSending (seq_num_ p) d ok packets) sends rs slots); [apply Hw | exact Hrs | exact Hst |]. cbn [sn_seq]. by rewrite <- Hs1.
  - constructor; [| by rewrite Hc1 in Hall]. cbn [sn_packets sn_document sn_ok]. split; [| by split].
    intros Hm12. eapply Forall_impl; [exact Hsz |]. intros packet. cbn beta. rewrite (proj2 (Z.ltb_lt _ _) Hm12). lia.
Qed.

Lemma sent_seq s l slots o pk : sent_from s l slots -> slots !! o = Some (Some pk) -> exists r, parse_rtp pk = Some r /\ rtp_seq r = u16 (s + Z.of_nat o).
Proof.
  intros Hs. revert o. induction Hs as [s | x l rs slots Hr Hrs Hst _ IH]; intros o; [done |].
  apply mapM_Some in Hrs. intros [Ho | [Hge Ho]]%lookup_app_Some.
  - rewrite list_lookup_fmap in Ho. apply fmap_Some in Ho as (pk' & Ho & [= <-]).
    destruct (Forall2_lookup_l _ _ _ _ _ Hrs Ho) as (r & Hrl & Hp). exists r. split; [done |]. by apply (st_seq _ _ _ _ Hst).
  - rewrite length_map in Hge, Ho. assert (exists k, o = (numbers x + k)%nat /\ slots !! k = Some (Some pk)) as (k & -> & Hk).
    { unfold numbers. destruct (number_lost x).
      - destruct (o - length (sn_packets x))%nat as [| k] eqn:Ek; [done |]. exists k. split; [lia | done].
      - exists (o - length (sn_packets x))%nat. split; [lia | done]. }
    destruct (IH k Hk) as (r & Hp & Hseq). exists r. split; [done |]. rewrite Hseq, u16_add. f_equal. lia.
Qed.

Lemma sent_length s l slots : sent_from s l slots -> length slots = sum_list (map numbers l).
Proof.
  induction 1 as [| x l rs slots _ _ _ _ IH]; [done |]. cbn. rewrite !length_app, length_map, IH. unfold numbers, sum_list. cbn. destruct (number_lost x); cbn; lia.
Qed.

Lemma sent_packets s l slots pk : sent_from s l slots -> pk ∈ concat (map sn_packets l) -> Some pk ∈ slots.
Proof.
  induction 1 as [| x l rs slots _ _ _ _ IH]; cbn [map concat]; [by intros ?%elem_of_nil |]. rewrite !elem_of_app. intros [H | H]; [left | right; right; auto].
  by apply list_elem_of_fmap_2.
Qed.

(** The numbers of the push [x], and those that follow. *)
Lemma sent_split s l slots k x : sent_from s l slots -> 0 <= s < 2 ^ 16 -> l !! k = Some x ->
  exists o rs rest, sn_seq x = u16 (s + Z.of_nat o) /\ (o <= length slots)%nat /\
    drop o slots = map Some (sn_packets x) ++ (if number_lost x then [None] else []) ++ rest /\
    mapM parse_rtp (sn_packets x) = Some rs /\ stream (sn_seq x) (sn_ok x) (d_xml (sn_document x)) rs.
Proof.
  intros Hs. revert k. induction Hs as [s | y l rs slots Hr Hrs Hst _ IH]; intros k H0; [done |]. destruct k as [| k]; cbn.
  - intros [= ->]. exists 0%nat, rs, slots. rewrite Z.add_0_r, wrap_u_id by done. split_and!; try done. lia.
  - intros Hk. destruct (IH k (u16_range _) Hk) as (o & rs' & rest & Hx & Ho & Hd & Hrs' & Hst').
    exists (numbers y + o)%nat, rs', rest. split; [rewrite Hx, u16_add; f_equal; lia |].
    assert (length (map Some (sn_packets y) ++ (if number_lost y then [None] else [])) = numbers y) as Hl
      by (rewrite length_app, length_map; unfold numbers; by destruct (number_lost y)).
    rewrite app_assoc. split; [rewrite length_app, Hl; lia |]. split; [| done]. rewrite <- Hd, <- Hl, drop_app_ge by lia. f_equal. lia.
Qed.

(** *** What a receiver reads from a numbered sequence *)

Section Follow.
Context (s : Z) (slots : list (option (list Z))) (arrived : list (list Z)).
Context (Hseq : forall o pk, slots !! o = Some (Some pk) -> exists r, parse_rtp pk = Some r /\ rtp_seq r = u16 (s + Z.of_nat o)).
Context (Hlen : Z.of_nat (length slots) < 65536) (Harr : forall pk, pk ∈ arrived -> Some pk ∈ slots).

Fixpoint follow (slots : list (option (list Z))) : option (list Z) :=
  match slots with
  | Some pk :: slots =>
      if decide (pk ∈ arrived) then
        r ← parse_rtp pk;
        if rtp_marker r then Some (rtp_payload r) else rest ← follow slots; Some (rtp_payload r ++ rest)
      else None
  | _ => None
  end.

Lemma slot_inj o o' pk r : slots !! o = Some (Some pk) -> parse_rtp pk = Some r -> (o' <= length slots)%nat -> rtp_seq r = u16 (s + Z.of_nat o') -> o = o'.
Proof.
  intros Ho Hp Hl Hs. pose proof (lookup_lt_Some _ _ _ Ho). destruct (Hseq o pk Ho) as (r' & Hp' & Hs'). rewrite Hp in Hp'. injection Hp' as <-.
  rewrite Hs in Hs'. unfold wrap_u in Hs'. change (2 ^ 16) with 65536 in Hs'. Z.to_euclidean_division_equations. lia.
Qed.

Lemma find_slot o : (o <= length slots)%nat ->
  List.find (fun r => rtp_seq r =? u16 (s + Z.of_nat o)) (omap parse_rtp arrived) =
  match slots !! o with Some (Some pk) => if decide (pk ∈ arrived) then parse_rtp pk else None | _ => None end.
Proof.
  intros Ho. destruct (List.find _ _) as [r |] eqn:E.
  - apply find_some in E as [Hin Hs%Z.eqb_eq]. apply list_elem_of_In, list_elem_of_omap in Hin as (pk & Hpk & Hp).
    apply Harr in Hpk as Hk. apply list_elem_of_lookup_1 in Hk as [k Hk]. assert (k = o) as <- by (by eapply slot_inj). by rewrite Hk, decide_True.
  - destruct (slots !! o) as [[pk |] |] eqn:Eo; try done. case_decide as Hin; [| done]. destruct (Hseq o pk Eo) as (r & Hp & Hs).
    assert (r ∈ omap parse_rtp arrived) as Hr by (apply list_elem_of_omap; by exists pk). apply list_elem_of_In in Hr.
    pose proof (find_none _ _ E _ Hr) as Hn. cbn in Hn. by rewrite Hs, Z.eqb_refl in Hn.
Qed.

(** The packets that can still be read. *)
Definition pending (o : nat) : nat := length (filter (fun pk => Some pk ∈ drop o slots) arrived).

Lemma filter_fewer {A} (P Q : A -> Prop) `{!forall x, Decision (P x)} `{!forall x, Decision (Q x)} (l : list A) x :
  (forall y, Q y -> P y) -> x ∈ l -> P x -> ~ Q x -> (length (filter Q l) < length (filter P l))%nat.
Proof.
  intros Hpq Hx Hp Hq. assert (forall l, length (filter Q l) <= length (filter P l))%nat as Hle.
  { clear l Hx. induction l as [| y l IH]; [done |]. rewrite !filter_cons. destruct (decide (Q y)), (decide (P y)); cbn; naive_solver lia. }
  induction l as [| y l IH]; [by apply elem_of_nil in Hx |]. rewrite !filter_cons. apply elem_of_cons in Hx as [<- | Hx].
  - rewrite decide_False, decide_True by done. cbn. specialize (Hle l). lia.
  - specialize (IH Hx). destruct (decide (Q y)), (decide (P y)); cbn; naive_solver lia.
Qed.

Lemma pending_step o pk : slots !! o = Some (Some pk) -> pk ∈ arrived -> (pending (S o) < pending o)%nat.
Proof.
  intros Ho Hin. apply (filter_fewer _ _ _ pk); [| done | |].
  - intros pk' H. rewrite (drop_S _ _ _ Ho). by right.
  - rewrite (drop_S _ _ _ Ho). left.
  - intros [k Hk]%list_elem_of_lookup_1. rewrite lookup_drop in Hk. destruct (Hseq o pk Ho) as (r & Hp & Hs).
    pose proof (lookup_lt_Some _ _ _ Ho). assert (S o + k = o)%nat; [| lia]. eapply slot_inj; [exact Hk | exact Hp | lia | exact Hs].
Qed.

Lemma reassemble_follow n o : (o <= length slots)%nat -> (pending o <= n)%nat ->
  reassemble n (u16 (s + Z.of_nat o)) (omap parse_rtp arrived) = follow (drop o slots).
Proof.
  revert o. induction n as [| n IH]; intros o Ho Hn; cbn [reassemble].
  - destruct (slots !! o) as [[pk |] |] eqn:E; [| by rewrite (drop_S _ _ _ E) | by rewrite drop_ge by (by apply lookup_ge_None)].
    rewrite (drop_S _ _ _ E). cbn. case_decide as Hin; [| done]. pose proof (pending_step o pk E Hin). lia.
  - rewrite find_slot by done. destruct (slots !! o) as [[pk |] |] eqn:E; [| by rewrite (drop_S _ _ _ E) | by rewrite drop_ge by (by apply lookup_ge_None)].
    rewrite (drop_S _ _ _ E). cbn [follow]. case_decide as Hin; [| done]. destruct (parse_rtp pk) as [r |]; [| done]. cbn [mbind option_bind].
    destruct (rtp_marker r); [done |]. rewrite u16_add. replace (s + Z.of_nat o + 1) with (s + Z.of_nat (S o)) by lia.
    pose proof (pending_step o pk E Hin). rewrite IH; [done | apply lookup_lt_Some in E; lia | lia].
Qed.

Lemma receive_follow o : (o <= length slots)%nat -> receive (u16 (s + Z.of_nat o)) arrived = follow (drop o slots).
Proof.
  intros Ho. unfold receive. apply reassemble_follow; [done |]. unfold pending. apply length_filter.
Qed.

Lemma follow_unmarked pks rs rest : mapM parse_rtp pks = Some rs -> Forall (fun r => rtp_marker r = false) rs ->
  follow (map Some pks ++ rest) =
    if decide (Forall (fun pk => pk ∈ arrived) pks) then (fun d => concat (map rtp_payload rs) ++ d) <$> follow rest else None.
Proof.
  intros Hrs%mapM_Some. induction Hrs as [| pk r pks rs Hp _ IH]; intros Hm.
  - rewrite decide_True by constructor. cbn. by destruct (follow rest).
  - apply Forall_cons in Hm as [Hr Hm]. cbn [map app follow]. rewrite Hp. cbn [mbind option_bind]. rewrite Hr, (IH Hm).
    destruct (decide (pk ∈ arrived)) as [Hin | Hn]; [| by rewrite decide_False by (by intros [? _]%Forall_cons)].
    destruct (decide (Forall _ pks)) as [Hall | Hn]; [rewrite decide_True by (by constructor) | by rewrite decide_False by (by intros [_ ?]%Forall_cons)].
    destruct (follow rest); cbn; [| done]. by rewrite app_assoc.
Qed.

Lemma follow_document pks rs rest n d : mapM parse_rtp pks = Some rs -> stream n true d rs ->
  follow (map Some pks ++ rest) = if decide (Forall (fun pk => pk ∈ arrived) pks) then Some d else None.
Proof.
  intros Hrs [_ (init & last & -> & Hi & Hl & <-)]. apply mapM_Some in Hrs. apply Forall2_app_inv_r in Hrs as (pks1 & pks2 & H1 & H2 & ->).
  apply Forall2_cons_inv_r in H2 as (pk & pks3 & Hp & H3 & ->). apply Forall2_nil_inv_r in H3 as ->.
  rewrite map_app, <- app_assoc. rewrite (follow_unmarked pks1 init) by (done || by apply mapM_Some). cbn [map app follow]. rewrite Hp. cbn [mbind option_bind]. rewrite Hl.
  destruct (decide (Forall _ pks1)) as [Hall | Hn]; [| by rewrite decide_False by (by intros [? _]%Forall_app)].
  destruct (decide (pk ∈ arrived)) as [Hin | Hn].
  - rewrite decide_True by (apply Forall_app; split; [done | by constructor]). cbn. rewrite map_app, concat_app. cbn. by rewrite app_nil_r.
  - by rewrite decide_False by (by intros [_ [? _]%Forall_cons]%Forall_app).
Qed.
End Follow.

(** C35: a receiver gets the whole document or nothing, with one exception.  Documents
    are pushed one after another, each cut into packets within the configured size, when
    that leaves room for a payload, until all are accepted or one is not.  As long as fewer
    than 65536 sequence numbers are used, a receiver that gets some of the packets, in any
    order, and reads from the first number of a push on, gets the document of a successful
    push when all its packets arrived and nothing otherwise; and nothing from a push that
    the source gave up at a packet with a header, whose number is then missing.  The
    exception is a push given up because the next packet had no buffer or could not be
    mapped: that number is used again by the next push, so that a receiver takes the part
    that was sent for the beginning of the document that comes next, and gets a document
    that was never sent. *)
Theorem document_or_nothing l p :
  appsrc_ p = true -> widths_ok p -> Forall (fun d => d_xml d <> []) l ->
  exists sends p', push_all l p = Some (sends, p') /\ map sn_document sends = l /\
    Forall (fun x => (12 < mtu (cfg_ p) -> Forall (fun packet => Z.of_nat (length packet) <= mtu (cfg_ p)) (sn_packets x)) /\
      (forall j, (j < length (sn_packets x))%nat -> d_gst (sn_document x) j = Pushed true) /\
      (sn_ok x = false -> d_gst (sn_document x) (length (sn_packets x)) <> Pushed true)) sends /\
    (Z.of_nat (sum_list (map numbers sends)) < 65536 ->
     forall arrived k x, arrived ⊆+ concat (map sn_packets sends) -> sends !! k = Some x ->
       receive (sn_seq x) arrived =
         if decide (Forall (fun packet => packet ∈ arrived) (sn_packets x)) then
           if sn_ok x then Some (d_xml (sn_document x))
           else if number_lost x then None
           else (fun rest => concat (map (drop 12) (sn_packets x)) ++ rest) <$> receive (u16 (sn_seq x + Z.of_nat (length (sn_packets x)))) arrived
         else None).
Proof.
  intros Ha Hw Hx. destruct (push_all_spec l p Ha Hw Hx) as (sends & p' & slots & Hp & Hm & Hsent & Hall).
  exists sends, p'. do 3 (split; [done |]). intros Hn arrived k x Harr Hk. rewrite <- (sent_length _ _ _ Hsent) in Hn.
  destruct (sent_split _ _ _ k x Hsent (proj1 Hw) Hk) as (o & rs & rest & Hs & Ho & Hd & Hrs & Hst).
  assert (forall pk, pk ∈ arrived -> Some pk ∈ slots) as Hin.
  { intros pk Hpk. apply (sent_packets _ _ _ pk Hsent). by eapply elem_of_submseteq. }
  pose proof (receive_follow (seq_num_ p) slots arrived (fun o pk => sent_seq _ _ _ o pk Hsent) Hn Hin) as Hrec.
  assert (map rtp_payload rs = map (drop 12) (sn_packets x)) as Hpay.
  { clear -Hrs. apply mapM_Some in Hrs. induction Hrs as [| pk r pks rs Hp _ IH]; [done |]. cbn. by rewrite IH, (parse_payload _ _ Hp). }
  rewrite Hs, (Hrec o Ho), Hd. destruct (sn_ok x) eqn:Eok.
  - by rewrite (follow_document arrived _ rs _ _ (d_xml (sn_document x)) Hrs Hst).
  - rewrite (follow_unmarked arrived _ rs _ Hrs (st_doc _ _ _ _ Hst)), Hpay. case_decide; [| done].
    destruct (number_lost x); [done |]. cbn [app] in *. rewrite u16_add. replace (seq_num_ p + Z.of_nat o + Z.of_nat (length (sn_packets x))) with (seq_num_ p + Z.of_nat (o + length (sn_packets x))) by lia.
    rewrite Hrec.
    + rewrite <- drop_drop, Hd, drop_app_ge by (by rewrite length_map). by rewrite length_map, Nat.sub_diag.
    + apply (f_equal length) in Hd. rewrite length_drop, length_app, length_map in Hd. lia.
Qed.

(** ** Characters *)

(** One byte that starts a character, and up to three that continue it. *)
Definition utf8_char (c : list Z) : bool :=
  match c with
  | [] => false
  | b :: r => negb (is_continuation b) && forallb is_continuation r && (length r <=? 3)%nat
  end.

Lemma utf8_char_inv c : utf8_char c = true ->
  exists b r, c = b :: r /\ is_continuation b = false /\ Forall (fun b => is_continuation b = true) r /\ (length r <= 3)%nat.
Proof.
  destruct c as [| b r]; [done |]. cbn. rewrite !andb_true_iff, negb_true_iff, forallb_forall, Nat.leb_le. intros [[H1 H2] H3].
  exists b, r. split_and!; try done. apply Forall_forall. intros x Hx. apply H2. by apply list_elem_of_In.
Qed.

(** A byte that starts a character is where some characters end. *)
Lemma boundary (cs : list (list Z)) n b :
  Forall (fun c => utf8_char c = true) cs -> concat cs !! n = Some b -> is_continuation b = false ->
  exists k, take n (concat cs) = concat (take k cs) /\ drop n (concat cs) = concat (drop k cs).
Proof.
  intros Hcs. revert n. induction Hcs as [| c cs Hc _ IH]; intros n Hn Hb; [by destruct n |].
  destruct (decide (n = 0%nat)) as [-> | Hn0]; [by exists 0%nat |]. cbn [concat] in *.
  destruct (utf8_char_inv c Hc) as (b0 & r & -> & _ & Hr & _).
  apply lookup_app_Some in Hn as [Hn | [Hge Hn]].
  - exfalso. destruct n as [| n]; [done |]. cbn in Hn. rewrite Forall_lookup in Hr. by rewrite (Hr _ _ Hn) in Hb.
  - destruct (IH _ Hn Hb) as (k & H1 & H2). exists (S k). cbn [take drop concat].
    by rewrite take_app_ge, drop_app_ge, H1, H2.
Qed.

Lemma chunk_at_boundary cs m chunk :
  Forall (fun c => utf8_char c = true) cs -> (4 <= m)%nat -> concat cs <> [] ->
  SafeUtf8Chunk (concat cs) m (length (concat cs)) = Some chunk ->
  exists k, take chunk (concat cs) = concat (take k cs) /\ drop chunk (concat cs) = concat (drop k cs).
Proof.
  intros Hcs Hm Hne. unfold SafeUtf8Chunk. destruct (Nat.leb_spec (length (concat cs)) m) as [Hle | Hgt].
  - intros [= <-]. exists (length cs). by rewrite !firstn_all, !skipn_all.
  - destruct (back_off_spec (concat cs) m Hgt) as (c & -> & Hc & Hstart & Hback). cbn [mbind option_bind].
    destruct (Nat.eqb_spec c 0) as [-> | Hc0].
    + exfalso. destruct cs as [| c1 cs]; [done |]. inversion Hcs as [| ? ? H1 H2]; subst.
      destruct (utf8_char_inv c1 H1) as (b0 & r & -> & _ & _ & Hr).
      destruct cs as [| c2 cs]; [cbn in Hgt; rewrite app_nil_r in Hgt; lia |]. inversion H2 as [| ? ? H3 _]; subst.
      destruct (utf8_char_inv c2 H3) as (b1 & r1 & -> & Hb1 & _ & _).
      rewrite (Hback (S (length r)) b1) in Hb1; [done | lia |]. cbn [concat].
      rewrite (lookup_app_r (b0 :: r)) by (cbn; lia). cbn [length]. by rewrite Nat.sub_diag.
    + intros [= <-]. destruct Hstart as [-> | (b & Hb & Hcont)]; [done |]. by apply (boundary cs c b).
Qed.

Lemma cut_characters m data payloads :
  cut m data payloads -> (4 <= m)%nat -> forall cs, data = concat cs -> Forall (fun c => utf8_char c = true) cs ->
  Forall (fun payload => exists cs, Forall (fun c => utf8_char c = true) cs /\ payload = concat cs) payloads.
Proof.
  intros Hcut Hm. induction Hcut as [| data chunk payloads Hd Hchunk _ IH]; intros cs -> Hcs; [constructor |].
  destruct (chunk_at_boundary cs m chunk Hcs Hm Hd Hchunk) as (k & H1 & H2). constructor.
  - exists (take k cs). split; [by apply Forall_take | done].
  - apply (IH (drop k cs)); [done | by apply Forall_drop].
Qed.

(** No character is cut.  A document made of UTF-8 characters is cut between
    characters: the payload of every packet is itself made of whole characters, when
    the configured size leaves room for at least four bytes. *)
Theorem characters_never_split gst now cs p :
  appsrc_ p = true -> widths_ok p -> 16 <= mtu (cfg_ p) -> cs <> [] -> Forall (fun c => utf8_char c = true) cs ->
  exists ok packets p', PushXml gst now (concat cs) p = Some (ok, packets, p') /\
    Forall (fun packet => exists cs, Forall (fun c => utf8_char c = true) cs /\ drop 12 packet = concat cs) packets.
Proof.
  intros Ha Hw Hm Hne Hcs.
  assert (concat cs <> []) as Hx.
  { destruct cs as [| c cs]; [done |]. inversion Hcs as [| ? ? H1 _]; subst. destruct (utf8_char_inv c H1) as (b & r & -> & _). done. }
  destruct (push_xml_spec gst now _ p Ha Hw Hx) as (ok & packets & p' & Hp & [_ _ Hcut _ _]).
  exists ok, packets, p'. split; [done |]. rewrite (proj2 (Z.ltb_lt 12 _)) in Hcut by lia.
  rewrite <- (Forall_map (drop 12) (fun payload => exists cs, Forall (fun c => utf8_char c = true) cs /\ payload = concat cs)).
  apply (cut_characters _ _ _ Hcut ltac:(lia) cs); done.
Qed.

(** ** A small document *)

Definition demo_payloader : OnvifMetadataPayloader := OnvifMetadataPayloader_make true (mkConfig 0 97 16) 0 0xCAFE 65534.

(** "aé漢b", seven bytes: the packets hold three and four of them. *)
Definition demo_characters : list (list Z) := [[0x61]; [0xC3; 0xA9]; [0xE6; 0xBC; 0xA2]; [0x62]].

Definition accept_all (n : nat) : GstAnswer := Pushed true.

Example demo_packets :
  (fun '(ok, packets, p') => (ok, map (drop 12) packets, seq_num_ p')) <$> PushXml accept_all 1000000000 (concat demo_characters) demo_payloader
  = Some (true, [[0x61; 0xC3; 0xA9]; [0xE6; 0xBC; 0xA2; 0x62]], 0).
Proof. vm_compute. reflexivity. Qed.

Definition demo_documents : list Document := [mkDocument accept_all 1000000000 (concat demo_characters)].

Lemma document_or_nothing_witness :
  exists x p', push_all demo_documents demo_payloader = Some ([x], p') /\
    receive 65534 (rev (sn_packets x)) = Some (concat demo_characters) /\ receive 65534 (take 1 (sn_packets x)) = None.
Proof.
  destruct (document_or_nothing demo_documents demo_payloader) as (sends & p' & Hp & _ & _ & Hr).
  { reflexivity. }
  { unfold widths_ok, in_u32. vm_compute. split_and!; congruence. }
  { by repeat constructor. }
  vm_compute in Hp. injection Hp as <- <-. eexists _, _. split; [vm_compute; reflexivity |].
  pose proof (fun arrived H => Hr ltac:(vm_compute; reflexivity) arrived 0%nat _ H eq_refl) as Hr0. cbn [map concat sn_packets] in Hr0. rewrite app_nil_r in Hr0. split.
  - etransitivity; [refine (Hr0 _ _); apply Permutation_submseteq; symmetry; apply Permutation_rev |]. vm_compute. reflexivity.
  - etransitivity; [refine (Hr0 _ _); apply sublist_submseteq, sublist_take |]. vm_compute. reflexivity.
Defined.

(** A document of six "A" is given up after its first packet for want of a buffer; the next
    document is "CC".  Put together they make "AAAACC", which was never sent. *)
Lemma unbuffered_mixes_documents :
  let l := [mkDocument (fun j => if (j =? 0)%nat then Pushed true else NoBuffer) 0 [65; 65; 65; 65; 65; 65]; mkDocument accept_all 1000000000 [67; 67]] in
  (fun r => receive 65534 (concat (map sn_packets (fst r)))) <$> push_all l demo_payloader = Some (Some [65; 65; 65; 65; 67; 67]).
Proof. vm_compute. reflexivity. Qed.

Lemma characters_never_split_witness :
  exists ok packets p', PushXml accept_all 0 (concat demo_characters) demo_payloader = Some (ok, packets, p') /\
    Forall (fun packet => exists cs, Forall (fun c => utf8_char c = true) cs /\ drop 12 packet = concat cs) packets.
Proof.
  apply (characters_never_split accept_all 0 demo_characters demo_payloader).
  - reflexivity.
  - unfold widths_ok, in_u32. vm_compute. split_and!; congruence.
  - vm_compute. congruence.
  - discriminate.
  - repeat constructor.
Defined.
