(* ===== verification/RtspReceiver.v ===== *)
(** * The RTSP receiver

    [Protocol/RTSP_GST/include/GstRtspReceiver.h] and [src/GstRtspReceiver.cpp]: the
    GStreamer pipeline of a camera.  What GStreamer answers is an argument of each
    method; what it hands out and takes back is counted in [Gst], the references that
    the program holds.  Giving back a reference twice is [None], as is assigning to a
    thread that is still joinable.  The text of the pipeline, the probes and the statistics of the
    jitter buffer are in [RtspPipeline]; logs and metrics are left out. *)

From stdpp Require Import gmap.
From S2P Require Import Prelude.
Open Scope Z_scope.
Open Scope list_scope.

(** ** References to GStreamer objects *)

Inductive RefKind := RPipeline | RSink | RRawSink | RWatch | RTimer.

#[export] Instance RefKind_eq_dec : EqDecision RefKind.
Proof. solve_decision. Defined.

#[export] Instance RefKind_countable : Countable RefKind :=
  inj_countable' (fun k => match k with RPipeline => 0 | RSink => 1 | RRawSink => 2 | RWatch => 3 | RTimer => 4 end)%nat
    (fun n => match n with 0 => RPipeline | 1 => RSink | 2 => RRawSink | 3 => RWatch | _ => RTimer end)%nat
    (fun k => match k with RPipeline | RSink | RRawSink | RWatch | RTimer => eq_refl end).

(** The references held, each with the number of its pipeline. *)
Record Gst := mkGst { g_next : nat; g_refs : gset (RefKind * nat) }.

Definition take_ref (r : RefKind * nat) (g : Gst) : Gst := mkGst (g_next g) ({[r]} ∪ g_refs g).

(** [gst_object_unref], [g_source_remove]. *)
Definition drop_ref (r : RefKind * nat) (g : Gst) : option Gst :=
  if decide (r ∈ g_refs g) then Some (mkGst (g_next g) (g_refs g ∖ {[r]})) else None.

Definition drop_opt (k : RefKind) (o : option nat) (g : Gst) : option Gst :=
  match o with Some i => drop_ref (k, i) g | None => Some g end.

(** ** The receiver *)

Record GstRtspReceiver := mkReceiver {
  enable_raw_passthrough : bool;
  pipeline_ : option nat;
  appsink_ : option nat;
  raw_appsink_ : option nat;
  bus_watch_id_ : option nat;
  jitter_timer_id_ : option nat;
  loop_joinable : bool;
  running_ : bool;
  frame_count_ : Z;
  reconnect_count_ : Z;
  error_count_ : Z;
  reset_source_count_ : Z;
  last_frame_ns_ : time_point
}.

Definition GstRtspReceiver_make (raw : bool) : GstRtspReceiver := mkReceiver raw None None None None None false false 0 0 0 0 0.

Definition with_objects (r : GstRtspReceiver) (p s w b t : option nat) : GstRtspReceiver :=
  mkReceiver (enable_raw_passthrough r) p s w b t (loop_joinable r) (running_ r) (frame_count_ r) (reconnect_count_ r) (error_count_ r)
    (reset_source_count_ r) (last_frame_ns_ r).

Definition with_thread_state (r : GstRtspReceiver) (joinable running : bool) : GstRtspReceiver :=
  mkReceiver (enable_raw_passthrough r) (pipeline_ r) (appsink_ r) (raw_appsink_ r) (bus_watch_id_ r) (jitter_timer_id_ r) joinable running
    (frame_count_ r) (reconnect_count_ r) (error_count_ r) (reset_source_count_ r) (last_frame_ns_ r).

Definition with_counts (r : GstRtspReceiver) (frames reconnects errors resets : Z) (last : time_point) : GstRtspReceiver :=
  mkReceiver (enable_raw_passthrough r) (pipeline_ r) (appsink_ r) (raw_appsink_ r) (bus_watch_id_ r) (jitter_timer_id_ r) (loop_joinable r)
    (running_ r) frames reconnects errors resets last.

(** Whether the description parses, and whether the sinks are found in it. *)
Record BuildAnswers := mkBuild { ba_launch : bool; ba_sink : bool; ba_raw_sink : bool }.

Definition BuildPipeline (a : BuildAnswers) (r : GstRtspReceiver) (g : Gst) : option (bool * GstRtspReceiver * Gst) :=
  if negb (ba_launch a) then Some (false, with_objects r None (appsink_ r) (raw_appsink_ r) (bus_watch_id_ r) (jitter_timer_id_ r), g)
  else
    let i := g_next g in
    let g := take_ref (RPipeline, i) (mkGst (S i) (g_refs g)) in
    if negb (ba_sink a) then
      g ← drop_ref (RPipeline, i) g;
      Some (false, with_objects r None None (raw_appsink_ r) (bus_watch_id_ r) (jitter_timer_id_ r), g)
    else
      let g := take_ref (RSink, i) g in
      if enable_raw_passthrough r && negb (ba_raw_sink a) then
        g ← drop_ref (RSink, i) g;
        g ← drop_ref (RPipeline, i) g;
        Some (false, with_objects r None None None (bus_watch_id_ r) (jitter_timer_id_ r), g)
      else
        let '(raw, g) := if enable_raw_passthrough r then (Some i, take_ref (RRawSink, i) g) else (raw_appsink_ r, g) in
        let g := take_ref (RTimer, i) (take_ref (RWatch, i) g) in
        Some (true, with_objects r (Some i) (Some i) raw (Some i) (Some i), g).

(** [state_ok]: the pipeline reaches [NULL] in time; else it is given up on purpose. *)
Definition TeardownPipeline (state_ok : bool) (r : GstRtspReceiver) (g : Gst) : option (GstRtspReceiver * Gst) :=
  match pipeline_ r with
  | None => Some (r, g)
  | Some i =>
      g ← drop_opt RTimer (jitter_timer_id_ r) g;
      g ← drop_opt RWatch (bus_watch_id_ r) g;
      g ← drop_opt RSink (appsink_ r) g;
      g ← drop_opt RRawSink (raw_appsink_ r) g;
      g ← (if state_ok then drop_ref (RPipeline, i) g else Some g);
      Some (with_objects r None None None None None, g)
  end.

(** With the answers to the build, the change to [PLAYING], and the teardown after its failure. *)
Record StartAnswers := mkStart { sa_build : BuildAnswers; sa_playing : bool; sa_state_ok : bool }.

Definition Start (a : StartAnswers) (r : GstRtspReceiver) (g : Gst) : option (bool * GstRtspReceiver * Gst) :=
  if running_ r then Some (false, r, g)
  else
    let r := with_thread_state r (loop_joinable r) true in
    '(built, r, g) ← BuildPipeline (sa_build a) r g;
    if negb built then Some (false, with_thread_state r (loop_joinable r) false, g)
    else if negb (sa_playing a) then
      '(r, g) ← TeardownPipeline (sa_state_ok a) r g;
      Some (false, with_thread_state r (loop_joinable r) false, g)
    else if loop_joinable r then None
    else Some (true, with_thread_state r true true, g).

(** The [Stop] of which the join returns.  The join waits for the thread of the main loop,
    which does not end when the stop comes before the loop runs: [StopRace] below has this. *)
Definition Stop (state_ok : bool) (r : GstRtspReceiver) (g : Gst) : option (GstRtspReceiver * Gst) :=
  if negb (running_ r) then Some (r, g)
  else TeardownPipeline state_ok (with_thread_state r false false) g.

Record ResetAnswers := mkReset { ra_first_state_ok : bool; ra_start : StartAnswers }.

Definition ResetSourceOnly (a : ResetAnswers) (r : GstRtspReceiver) (g : Gst) : option (bool * GstRtspReceiver * Gst) :=
  match pipeline_ r with
  | None => Some (false, r, g)
  | Some _ =>
      let r := with_counts r (frame_count_ r) (reconnect_count_ r) (error_count_ r) (u64 (reset_source_count_ r + 1)) (last_frame_ns_ r) in
      '(r, g) ← TeardownPipeline (ra_first_state_ok a) r g;
      '(built, r, g) ← BuildPipeline (sa_build (ra_start a)) r g;
      if negb built then Some (false, r, g)
      else if negb (sa_playing (ra_start a)) then
        '(r, g) ← TeardownPipeline (sa_state_ok (ra_start a)) r g;
        Some (false, r, g)
      else Some (true, r, g)
  end.

(** ** Samples *)

Record Plane := mkPlane { linesize : Z; plane_bytes : list Z }.
Record Image := mkImage { im_width : Z; im_height : Z; im_y : Plane; im_u : Plane; im_v : Plane; im_pts : option Z }.

(** What a sample has: a buffer and caps, the format the caps name, the bytes when the
    buffer can be mapped, and a valid time stamp. *)
Record Sample := mkSample {
  s_complete : bool;
  s_info : option (bool * Z * Z);
  s_map : option (list Z);
  s_pts : option Z
}.

(** [None]: a copy that leaves its source or its destination. *)
Definition memcpy (dst src : list Z) (n : Z) : option (list Z) :=
  if (n <=? Z.of_nat (length dst)) && (n <=? Z.of_nat (length src)) then Some (take (Z.to_nat n) src ++ drop (Z.to_nat n) dst) else None.

(** [alloc]: [av_frame_alloc] and [av_frame_get_buffer], with the planes for a size.
    The outer [None] is undefined behaviour, the inner one no frame. *)
Definition ConvertSampleToAVFrame (alloc : Z -> Z -> option (Plane * Plane * Plane)) (s : Sample) : option (option Image) :=
  if negb (s_complete s) then Some None
  else match s_info s with
  | None => Some None
  | Some (is_i420, width, height) =>
      if negb is_i420 then Some None
      else match alloc width height with
      | None => Some None
      | Some (py, pu, pv) =>
          match s_map s with
          | None => Some None
          | Some src =>
              let y_sz := u64 (width * height) in
              let u_sz := u64 (Z.quot width 2 * Z.quot height 2) in
              let v_sz := u_sz in
              if Z.of_nat (length src) <? u64 (y_sz + u_sz + v_sz) then Some None
              else
                d0 ← memcpy (plane_bytes py) src y_sz;
                d1 ← memcpy (plane_bytes pu) (drop (Z.to_nat y_sz) src) u_sz;
                d2 ← memcpy (plane_bytes pv) (drop (Z.to_nat (y_sz + u_sz)) src) v_sz;
                Some (Some (mkImage width height (mkPlane (linesize py) d0) (mkPlane (linesize pu) d1) (mkPlane (linesize pv) d2) (s_pts s)))
          end
      end
  end.

(** The receiver after a sample, and the frame for the callback. *)
Definition OnNewSample {F} (converted : option F) (now_ns : time_point) (r : GstRtspReceiver) : option F * GstRtspReceiver :=
  match converted with
  | None => (None, r)
  | Some frame => (Some frame, with_counts r (u64 (frame_count_ r + 1)) (reconnect_count_ r) (error_count_ r) (reset_source_count_ r) now_ns)
  end.

(** ** Bus messages *)

(** The messages that do something; [cause]: of a time-out, when the message has one. *)
Inductive BusMessage := BusError | BusEos | BusSourceTimeout (cause : option Z) | BusOther.
Inductive Trigger := OnError | OnTimeout | OnEos.

Definition RTSPSRC_TIMEOUT_CAUSE_RTCP : Z := 0.

Definition OnBusMessage (msg : BusMessage) (r : GstRtspReceiver) : option Trigger * GstRtspReceiver :=
  match msg with
  | BusError => (Some OnError, with_counts r (frame_count_ r) (reconnect_count_ r) (u64 (error_count_ r + 1)) (reset_source_count_ r) (last_frame_ns_ r))
  | BusEos => (Some OnEos, with_counts r (frame_count_ r) (u64 (reconnect_count_ r + 1)) (error_count_ r) (reset_source_count_ r) (last_frame_ns_ r))
  | BusSourceTimeout cause =>
      if default (-1) cause =? RTSPSRC_TIMEOUT_CAUSE_RTCP then (None, r)
      else (Some OnTimeout, with_counts r (frame_count_ r) (u64 (reconnect_count_ r + 1)) (error_count_ r) (reset_source_count_ r) (last_frame_ns_ r))
  | BusOther => (None, r)
  end.

(** ** Nothing is lost and nothing is given back twice *)

Inductive ReceiverOp := OpStart (a : StartAnswers) | OpStop (state_ok : bool) | OpReset (a : ResetAnswers).

Definition receiver_op (op : ReceiverOp) (st : GstRtspReceiver * Gst) : option (GstRtspReceiver * Gst) :=
  let '(r, g) := st in
  match op with
  | OpStart a => '(_, r, g) ← Start a r g; Some (r, g)
  | OpStop ok => Stop ok r g
  | OpReset a => '(_, r, g) ← ResetSourceOnly a r g; Some (r, g)
  end.

Fixpoint receiver_run (ops : list ReceiverOp) (st : GstRtspReceiver * Gst) : option (GstRtspReceiver * Gst) :=
  match ops with
  | [] => Some st
  | op :: ops => st ← receiver_op op st; receiver_run ops st
  end.

(** The teardowns of an operation that may run into the time-out. *)
Definition timeouts (op : ReceiverOp) : nat :=
  let late (ok : bool) := if ok then 0%nat else 1%nat in
  match op with
  | OpStart a => late (sa_state_ok a)
  | OpStop ok => late ok
  | OpReset a => late (ra_first_state_ok a) + late (sa_state_ok (ra_start a))
  end.

Definition ref_opt (k : RefKind) (o : option nat) : gset (RefKind * nat) := match o with Some i => {[(k, i)]} | None => ∅ end.

(** What the receiver's fields refer to. *)
Definition held (r : GstRtspReceiver) : gset (RefKind * nat) :=
  ref_opt RTimer (jitter_timer_id_ r) ∪ (ref_opt RWatch (bus_watch_id_ r) ∪ (ref_opt RSink (appsink_ r) ∪
    (ref_opt RRawSink (raw_appsink_ r) ∪ ref_opt RPipeline (pipeline_ r)))).

Definition abandoned (l : gset nat) : gset (RefKind * nat) := set_map (fun i => (RPipeline, i)) l.

(** A whole pipeline or none. *)
Definition objects_ok (r : GstRtspReceiver) (g : Gst) : Prop :=
  (pipeline_ r = None /\ appsink_ r = None /\ raw_appsink_ r = None /\ bus_watch_id_ r = None /\ jitter_timer_id_ r = None) \/
  exists i, (i < g_next g)%nat /\ pipeline_ r = Some i /\ appsink_ r = Some i /\
    raw_appsink_ r = (if enable_raw_passthrough r then Some i else None) /\ bus_watch_id_ r = Some i /\ jitter_timer_id_ r = Some i.

(** [leaked]: the pipelines given up on purpose. *)
Record refs_ok (leaked : gset nat) (r : GstRtspReceiver) (g : Gst) : Prop := {
  rf_objects : objects_ok r g;
  rf_refs : g_refs g = held r ∪ abandoned leaked;
  rf_old i : i ∈ leaked -> (i < g_next g)%nat /\ pipeline_ r <> Some i
}.

Lemma drop_ref_eq x (g : Gst) S : g_refs g = {[x]} ∪ S -> x ∉ S -> drop_ref x g = Some (mkGst (g_next g) S).
Proof.
  intros Hg Hx. unfold drop_ref. rewrite Hg, decide_True by set_solver. do 2 f_equal. set_solver.
Qed.

Lemma abandoned_kind k i l : (k, i) ∈ abandoned l -> k = RPipeline /\ i ∈ l.
Proof. unfold abandoned. rewrite elem_of_map. intros (j & [= -> ->] & Hj). done. Qed.

Lemma drop_opt_eq k o (g : Gst) S :
  g_refs g = ref_opt k o ∪ S -> (forall i, (k, i) ∉ S) -> drop_opt k o g = Some (mkGst (g_next g) S).
Proof.
  intros Hg HS. destruct o as [i |]; cbn in *; [by apply drop_ref_eq |]. destruct g as [n refs]. cbn in *. f_equal. f_equal. set_solver.
Qed.

Lemma teardown_spec leaked r g ok :
  refs_ok leaked r g ->
  exists leaked' r' g', TeardownPipeline ok r g = Some (r', g') /\ refs_ok leaked' r' g' /\
    (size leaked' <= size leaked + (if ok then 0 else 1))%nat /\ pipeline_ r' = None /\ g_next g' = g_next g /\
    running_ r' = running_ r /\ loop_joinable r' = loop_joinable r /\ enable_raw_passthrough r' = enable_raw_passthrough r.
Proof.
  intros [Ho Hg Hold]. unfold TeardownPipeline. destruct (pipeline_ r) as [i |] eqn:Ep.
  2: { exists leaked, r, g. split; [done |]. split; [split; try done; by rewrite Ep |]. split; [lia | done]. }
  destruct Ho as [(? & _) | (j & Hj & Hp & Hs & Hr & Hw & Ht)]; [congruence |]. rewrite Ep in Hp. injection Hp as <-.
  unfold held in Hg. rewrite Ep in Hg. rewrite <- !(assoc_L (∪)) in Hg.
  assert (forall k, k <> RPipeline -> forall j, (k, j) ∉ abandoned leaked) as Hab by (intros k Hk j' [-> _]%abandoned_kind; done).
  assert (forall k k' o, k <> k' -> forall j, (k, j) ∉ ref_opt k' o) as Hro.
  { intros k k' o Hk j' Hin. destruct o; cbn in Hin; [apply elem_of_singleton in Hin; congruence | by apply elem_of_empty in Hin]. }
  assert (forall k, k <> RPipeline -> forall j, (k, j) ∉ ref_opt RPipeline (Some i) ∪ abandoned leaked) as H5.
  { intros k Hk j' [Hin | Hin]%elem_of_union; [by eapply Hro in Hin | by eapply Hab in Hin]. }
  assert (forall k, k <> RPipeline -> k <> RRawSink -> forall j, (k, j) ∉ ref_opt RRawSink (raw_appsink_ r) ∪ (ref_opt RPipeline (Some i) ∪ abandoned leaked)) as H4.
  { intros k Hk Hk' j' [Hin | Hin]%elem_of_union; [by eapply Hro in Hin | by eapply H5 in Hin]. }
  erewrite drop_opt_eq; [| exact Hg |].
  2: { intros j' [Hin | [Hin | Hin]%elem_of_union]%elem_of_union; [by eapply Hro in Hin | by eapply Hro in Hin | by eapply H4 in Hin]. }
  cbn [mbind option_bind g_next]. erewrite drop_opt_eq; [| reflexivity |].
  2: { intros j' [Hin | Hin]%elem_of_union; [by eapply Hro in Hin | by eapply H4 in Hin]. }
  cbn [mbind option_bind g_next]. erewrite drop_opt_eq; [| reflexivity | by apply H4].
  cbn [mbind option_bind g_next]. erewrite drop_opt_eq; [| reflexivity | by apply H5].
  cbn [mbind option_bind g_next]. destruct ok.
  - erewrite drop_ref_eq; [| reflexivity | intros [_ Hin]%abandoned_kind; by destruct (Hold i Hin)].
    cbn [mbind option_bind]. exists leaked. do 2 eexists. split; [done |]. split_and!; try done; [| lia]. split; [by left | | by intros i' Hi'; split; [apply Hold |]].
    cbn. unfold held. cbn. set_solver.
  - cbn [mbind option_bind]. exists ({[i]} ∪ leaked). do 2 eexists. split; [done |]. split_and!; try done.
    + split; [by left | |].
      * cbn. unfold held, abandoned. cbn. rewrite set_map_union_L, set_map_singleton_L. set_solver.
      * intros i' [->%elem_of_singleton | Hi']%elem_of_union; [done | by split; [apply Hold |]].
    + assert (i ∉ leaked) as Hni by (intros Hin; by destruct (Hold i Hin)). rewrite size_union, size_singleton by set_solver. lia.
Qed.

Lemma abandoned_only_old leaked r g x : refs_ok leaked r g -> pipeline_ r = None -> x ∈ g_refs g -> exists i, x = (RPipeline, i) /\ (i < g_next g)%nat.
Proof.
  intros [Ho Hg Hold] Hp Hx. rewrite Hg in Hx. destruct Ho as [(_ & H1 & H2 & H3 & H4) | (i & _ & ? & _)]; [| congruence].
  unfold held in Hx. rewrite Hp, H1, H2, H3, H4 in Hx. destruct x as [k i].
  assert ((k, i) ∈ abandoned leaked) as [-> Hi]%abandoned_kind by set_solver. exists i. split; [done | by apply Hold].
Qed.

Lemma build_spec leaked a r g :
  refs_ok leaked r g -> pipeline_ r = None ->
  exists b r' g', BuildPipeline a r g = Some (b, r', g') /\ refs_ok leaked r' g' /\ (b = false -> pipeline_ r' = None) /\
    running_ r' = running_ r /\ loop_joinable r' = loop_joinable r.
Proof.
  intros Hok Hp. assert (forall k, (k, g_next g) ∉ g_refs g) as Hfresh.
  { intros k Hin. destruct (abandoned_only_old leaked r g _ Hok Hp Hin) as (i & [= -> ->] & Hi). lia. }
  destruct Hok as [Ho Hg Hold]. destruct Ho as [(_ & Hs & Hr & Hw & Ht) | (i & _ & ? & _)]; [| congruence].
  assert (held r = ∅) as Hh by (unfold held; by rewrite Hp, Hs, Hr, Hw, Ht). rewrite Hh, (left_id_L ∅ (∪)) in Hg.
  assert (forall S n, S = abandoned leaked -> (g_next g <= n)%nat -> refs_ok leaked (with_objects r None None None None None) (mkGst n S)) as Hnone.
  { intros S n -> Hn. split; [by left | cbn; unfold held; cbn; set_solver |]. cbn. intros i Hi. split; [| done]. destruct (Hold i Hi). lia. }
  unfold BuildPipeline. rewrite Hs, Hr, Hw, Ht. set (n := g_next g) in *. destruct (ba_launch a); cbn [negb].
  2: { do 3 eexists. split; [done |]. split_and!; try done. destruct g as [m refs]. by apply Hnone. }
  destruct (ba_sink a); cbn [negb].
  2: { erewrite drop_ref_eq; [| reflexivity | apply Hfresh]. do 3 eexists. split; [done |]. split_and!; try done. by apply Hnone; [| cbn; lia]. }
  destruct (enable_raw_passthrough r && negb (ba_raw_sink a)) eqn:Er.
  - erewrite drop_ref_eq; [| reflexivity | cbn; set_solver]. cbn [mbind option_bind].
    erewrite drop_ref_eq; [| reflexivity | cbn; set_solver]. do 3 eexists. split; [done |]. split_and!; try done. by apply Hnone; [| cbn; lia].
  - destruct (enable_raw_passthrough r) eqn:Eraw; (do 3 eexists; split; [done |]; split_and!; try done); split; cbn.
    + right. exists n. split_and!; cbn; rewrite ?Eraw; try done; lia.
    + unfold held. cbn. rewrite Hg. set_solver.
    + intros i Hi. destruct (Hold i Hi) as [Hlt _]. split; [lia |]. intros [= ->]. lia.
    + right. exists n. split_and!; cbn; rewrite ?Eraw; try done; lia.
    + unfold held. cbn. rewrite Hg. set_solver.
    + intros i Hi. destruct (Hold i Hi) as [Hlt _]. split; [lia |]. intros [= ->]. lia.
Qed.

(** A receiver that does not run has no pipeline, and its thread is joined. *)
Definition idle_ok (r : GstRtspReceiver) : Prop := loop_joinable r = running_ r /\ (running_ r = false -> pipeline_ r = None).

Lemma refs_ok_same leaked r r' g :
  refs_ok leaked r g -> enable_raw_passthrough r' = enable_raw_passthrough r -> pipeline_ r' = pipeline_ r -> appsink_ r' = appsink_ r ->
  raw_appsink_ r' = raw_appsink_ r -> bus_watch_id_ r' = bus_watch_id_ r -> jitter_timer_id_ r' = jitter_timer_id_ r -> refs_ok leaked r' g.
Proof. intros [H1 H2 H3] E0 E1 E2 E3 E4 E5. split; unfold objects_ok, held in *; by rewrite ?E0, ?E1, ?E2, ?E3, ?E4, ?E5. Qed.

Lemma receiver_op_ok leaked op r g :
  refs_ok leaked r g -> idle_ok r ->
  exists leaked' r' g', receiver_op op (r, g) = Some (r', g') /\ refs_ok leaked' r' g' /\ idle_ok r' /\
    (size leaked' <= size leaked + timeouts op)%nat.
Proof.
  intros Hok Hidle. pose proof Hidle as [Hj Hi]. destruct op as [a | ok | a]; cbn [receiver_op].
  - unfold Start. destruct (running_ r) eqn:Er.
    { exists leaked, r, g. split; [done |]. split; [done |]. split; [exact Hidle | lia]. }
    destruct (build_spec leaked (sa_build a) (with_thread_state r (loop_joinable r) true) g) as (b & r1 & g1 & -> & Hok1 & Hp1 & Hr1 & Hj1).
    { by apply (refs_ok_same leaked r). } { by apply Hi. }
    cbn in Hr1, Hj1. cbn [mbind option_bind]. destruct b; cbn [negb].
    2: { do 3 eexists. split; [done |]. split; [by apply (refs_ok_same leaked r1) |]. split; [split; cbn; [congruence | intros _; by apply Hp1] | lia]. }
    destruct (sa_playing a); cbn [negb].
    + rewrite Hj1, Hj. do 3 eexists. split; [done |]. split; [by apply (refs_ok_same leaked r1) |]. split; [by split | lia].
    + destruct (teardown_spec leaked r1 g1 (sa_state_ok a) Hok1) as (leaked2 & r2 & g2 & -> & Hok2 & Hsz & Hp2 & _ & Hr2 & Hj2 & _).
      cbn [mbind option_bind]. do 3 eexists. split; [done |]. split; [by apply (refs_ok_same leaked2 r2) |]. split; [split; cbn; [congruence | done] |].
      cbn [timeouts]. destruct (sa_state_ok a); lia.
  - unfold Stop. destruct (running_ r) eqn:Er; cbn [negb].
    2: { exists leaked, r, g. split; [done |]. split; [done |]. split; [exact Hidle | lia]. }
    destruct (teardown_spec leaked (with_thread_state r false false) g ok) as (leaked2 & r2 & g2 & -> & Hok2 & Hsz & Hp2 & _ & Hr2 & Hj2 & _).
    { by apply (refs_ok_same leaked r). }
    exists leaked2, r2, g2. split; [done |]. split; [done |]. split; [split; [by rewrite Hj2, Hr2 | done] |]. cbn [timeouts]. destruct ok; lia.
  - unfold ResetSourceOnly. destruct (pipeline_ r) eqn:Ep.
    2: { exists leaked, r, g. split; [done |]. split; [done |]. split; [exact Hidle | lia]. }
    set (r0 := with_counts _ _ _ _ _ _).
    destruct (teardown_spec leaked r0 g (ra_first_state_ok a)) as (leaked1 & r1 & g1 & -> & Hok1 & Hsz1 & Hp1 & _ & Hr1 & Hj1 & _).
    { by apply (refs_ok_same leaked r). }
    cbn [mbind option_bind]. destruct (build_spec leaked1 (sa_build (ra_start a)) r1 g1 Hok1 Hp1) as (b & r2 & g2 & -> & Hok2 & Hp2 & Hr2 & Hj2).
    assert (running_ r = true) as Er by (destruct (running_ r); [done | discriminate (Hi eq_refl)]).
    cbn [mbind option_bind]. cbn [timeouts]. destruct b; cbn [negb].
    2: { do 3 eexists. split; [done |]. split; [exact Hok2 |]. split; [| destruct (ra_first_state_ok a); lia]. split; [rewrite Hj2, Hr2, Hj1, Hr1; exact Hj | intros _; by apply Hp2]. }
    destruct (sa_playing (ra_start a)); cbn [negb].
    + do 3 eexists. split; [done |]. split; [exact Hok2 |]. split; [| destruct (ra_first_state_ok a); lia].
      split; [rewrite Hj2, Hr2, Hj1, Hr1; exact Hj |]. rewrite Hr2, Hr1. cbn. congruence.
    + destruct (teardown_spec leaked1 r2 g2 (sa_state_ok (ra_start a)) Hok2) as (leaked3 & r3 & g3 & -> & Hok3 & Hsz3 & Hp3 & _ & Hr3 & Hj3 & _).
      cbn [mbind option_bind]. do 3 eexists. split; [done |].
      split; [exact Hok3 |]. split; [| destruct (ra_first_state_ok a), (sa_state_ok (ra_start a)); lia].
      split; [rewrite Hj3, Hr3, Hj2, Hr2, Hj1, Hr1; exact Hj | done].
Qed.

(** C40: a receiver neither loses nor gives back twice what it has of GStreamer.  Whatever
    is called in whatever order, and whatever fails on the way, the references held are
    exactly those of the receiver's current pipeline and of pipelines it has given up
    because they did not stop in time, at most one for each teardown that ran into its
    time-out; and a receiver that does not run holds nothing else.  A [Stop] is one that
    returns: its join waits for the thread of the loop, which an early stop can leave
    waiting for ever (see the race below). *)
Theorem receiver_resources raw ops :
  exists r g leaked, receiver_run ops (GstRtspReceiver_make raw, mkGst 0 ∅) = Some (r, g) /\
    g_refs g = held r ∪ abandoned leaked /\ (size leaked <= sum_list_with timeouts ops)%nat /\
    (running_ r = false -> held r = ∅ /\ loop_joinable r = false).
Proof.
  assert (forall ops leaked r g, refs_ok leaked r g -> idle_ok r -> exists leaked' r' g', receiver_run ops (r, g) = Some (r', g') /\
    refs_ok leaked' r' g' /\ idle_ok r' /\ (size leaked' <= size leaked + sum_list_with timeouts ops)%nat) as Hgo.
  { clear. induction ops as [| op ops IH]; intros leaked r g Hok Hi; [exists leaked, r, g; split; [done |]; split; [done |]; split; [done | cbn; lia] |].
    destruct (receiver_op_ok leaked op r g Hok Hi) as (l1 & r1 & g1 & H1 & Hok1 & Hi1 & Hs1).
    cbn [receiver_run]. rewrite H1. cbn [mbind option_bind].
    destruct (IH l1 r1 g1 Hok1 Hi1) as (l2 & r2 & g2 & H2 & Hok2 & Hi2 & Hs2). exists l2, r2, g2. split; [done |]. split; [done |]. split; [done | cbn; lia]. }
  destruct (Hgo ops ∅ (GstRtspReceiver_make raw) (mkGst 0 ∅)) as (leaked & r & g & Hr & [Ho Hg _] & [Hj Hp] & Hs).
  - split; [by left | reflexivity | by intros i ?%elem_of_empty].
  - by split.
  - exists r, g, leaked. split_and!; [done | done | rewrite size_empty in Hs; lia |]. intros Hrun. split; [| congruence].
    specialize (Hp Hrun). destruct Ho as [(_ & H1 & H2 & H3 & H4) | (i & _ & ? & _)]; [| congruence]. unfold held. by rewrite Hp, H1, H2, H3, H4.
Qed.

(** ** Frames *)

(** FFmpeg's buffers: lines of at least the width, and one for each row. *)
Definition plane_ok (p : Plane) (width height : Z) : Prop :=
  width <= linesize p /\ Z.of_nat (length (plane_bytes p)) = linesize p * height.

Definition alloc_ok (alloc : Z -> Z -> option (Plane * Plane * Plane)) : Prop :=
  forall w h py pu pv, alloc w h = Some (py, pu, pv) ->
    plane_ok py w h /\ plane_ok pu (Z.quot (w + 1) 2) (Z.quot (h + 1) 2) /\ plane_ok pv (Z.quot (w + 1) 2) (Z.quot (h + 1) 2).

(** The brightness at a place of the frame, as every reader of the frame finds it. *)
Definition luma (im : Image) (x y : Z) : option Z := plane_bytes (im_y im) !! Z.to_nat (y * linesize (im_y im) + x).

Lemma memcpy_ok dst src n : 0 <= n -> n <= Z.of_nat (length dst) -> n <= Z.of_nat (length src) ->
  exists d, memcpy dst src n = Some d /\ forall k, 0 <= k < n -> d !! Z.to_nat k = src !! Z.to_nat k.
Proof.
  intros Hn Hd Hs. unfold memcpy. rewrite (proj2 (Z.leb_le _ _) Hd), (proj2 (Z.leb_le _ _) Hs). eexists. split; [done |].
  intros k Hk. rewrite lookup_app_l by (rewrite length_take; lia). apply lookup_take_lt. lia.
Qed.

Lemma half_plane p w h : 0 <= w -> 0 <= h -> plane_ok p (Z.quot (w + 1) 2) (Z.quot (h + 1) 2) ->
  Z.quot w 2 * Z.quot h 2 <= Z.of_nat (length (plane_bytes p)).
Proof.
  intros Hw Hh [H1 ->]. assert (Z.quot w 2 <= Z.quot (w + 1) 2) by (apply Z.quot_le_mono; lia).
  assert (Z.quot h 2 <= Z.quot (h + 1) 2) by (apply Z.quot_le_mono; lia).
  pose proof (Z.quot_pos w 2 Hw ltac:(lia)). pose proof (Z.quot_pos h 2 Hh ltac:(lia)). nia.
Qed.

(** What a frame shows.  The conversion of a sample never leaves a buffer; it
    gives up a sample that is too short; and in the frame it makes, the brightness at
    [(x, y)] is the byte [y * linesize + x] of the sample, which the code takes for
    lines of [width] bytes.  In a sample of such lines this is the pixel [(x, y)] exactly
    when the lines of the frame have no padding either; else each line is shifted against
    the one above, by the padding. *)
Theorem frame_shows_sample alloc s w h py pu pv src :
  alloc_ok alloc -> 0 <= w < 2 ^ 31 -> 0 <= h < 2 ^ 31 -> s_complete s = true -> s_info s = Some (true, w, h) ->
  alloc w h = Some (py, pu, pv) -> s_map s = Some src ->
  exists result, ConvertSampleToAVFrame alloc s = Some result /\
    match result with
    | None => Z.of_nat (length src) < w * h + 2 * (Z.quot w 2 * Z.quot h 2)
    | Some im => im_width im = w /\ im_height im = h /\ linesize (im_y im) = linesize py /\
        forall x y, 0 <= x < w -> 0 <= y < h -> y * linesize py + x < w * h ->
          luma im x y = src !! Z.to_nat (y * w + (x + y * (linesize py - w)))
    end.
Proof.
  intros Hal Hw Hh Hc Hi Ha Hm. destruct (Hal _ _ _ _ _ Ha) as (Hy & Hu & Hv).
  pose proof (Z.quot_le_upper_bound w 2 (2 ^ 30) ltac:(lia) ltac:(lia)). pose proof (Z.quot_le_upper_bound h 2 (2 ^ 30) ltac:(lia) ltac:(lia)).
  pose proof (Z.quot_pos w 2 ltac:(lia) ltac:(lia)). pose proof (Z.quot_pos h 2 ltac:(lia) ltac:(lia)).
  unfold ConvertSampleToAVFrame. rewrite Hc, Hi, Ha, Hm. cbn [negb].
  assert (u64 (w * h) = w * h) as -> by (apply wrap_u_id; nia).
  assert (u64 (Z.quot w 2 * Z.quot h 2) = Z.quot w 2 * Z.quot h 2) as -> by (apply wrap_u_id; nia).
  set (c := Z.quot w 2 * Z.quot h 2) in *. assert (0 <= c <= 2 ^ 60) by (subst c; nia).
  assert (0 <= w * h < 2 ^ 62) by nia.
  rewrite (wrap_u_id 64 (w * h + c + c)) by lia. destruct (Z.ltb_spec (Z.of_nat (length src)) (w * h + c + c)) as [Hlt | Hge].
  { exists None. split; [done |]. lia. }
  destruct (memcpy_ok (plane_bytes py) src (w * h)) as (d0 & -> & Hd0); [lia | destruct Hy as [Hy1 ->]; nia | lia |].
  destruct (memcpy_ok (plane_bytes pu) (drop (Z.to_nat (w * h)) src) c) as (d1 & -> & _); [lia | by apply half_plane; [lia | lia |] | rewrite length_drop; lia |].
  destruct (memcpy_ok (plane_bytes pv) (drop (Z.to_nat (w * h + c)) src) c) as (d2 & -> & _); [lia | by apply half_plane; [lia | lia |] | rewrite length_drop; lia |].
  eexists. split; [reflexivity |]. cbn. split_and!; [done | done | done |]. intros x y Hx Hy' Hin. unfold luma. cbn.
  rewrite Hd0 by (destruct Hy; nia). do 2 f_equal. lia.
Qed.

(** A frame of two lines of three pixels in lines of four bytes. *)
Definition padded_alloc (w h : Z) : option (Plane * Plane * Plane) :=
  let plane w h := mkPlane (w + 1) (replicate (Z.to_nat ((w + 1) * h)) 0) in
  if (0 <=? w) && (0 <=? h) then Some (plane w h, plane (Z.quot (w + 1) 2) (Z.quot (h + 1) 2), plane (Z.quot (w + 1) 2) (Z.quot (h + 1) 2)) else None.

Lemma padded_alloc_ok : alloc_ok padded_alloc.
Proof.
  intros w h py pu pv. unfold padded_alloc. destruct (Z.leb_spec 0 w); [| done]. destruct (Z.leb_spec 0 h); [| done]. cbn [andb].
  intros [= <- <- <-]. pose proof (Z.quot_pos (w + 1) 2 ltac:(lia) ltac:(lia)). pose proof (Z.quot_pos (h + 1) 2 ltac:(lia) ltac:(lia)).
  split_and!; (split; cbn [linesize plane_bytes]; [lia | rewrite length_replicate; rewrite Z2Nat.id; nia]).
Qed.

Definition demo_sample : Sample := mkSample true (Some (true, 3, 2)) (Some [11; 12; 13; 21; 22; 23; 50; 60]) None.

Lemma frame_shows_sample_witness :
  exists im, ConvertSampleToAVFrame padded_alloc demo_sample = Some (Some im) /\ luma im 0 1 = Some 22.
Proof.
  destruct (frame_shows_sample padded_alloc demo_sample 3 2 (mkPlane 4 (replicate 8 0)) (mkPlane 3 (replicate 3 0)) (mkPlane 3 (replicate 3 0))
    [11; 12; 13; 21; 22; 23; 50; 60] padded_alloc_ok) as (result & Hr & H); try done.
  destruct result as [im |]; [| exfalso; vm_compute in H; discriminate]. exists im. split; [exact Hr |].
  destruct H as (_ & _ & _ & H). rewrite (H 0 1); [reflexivity | lia | lia | cbn; lia].
Defined.

(** ** Stopping while the loop's thread starts *)

(** The main loop of [MainLoopThreadFunc] as [Stop] finds it. *)
Inductive LoopState := NoLoop | Created | Looping | Finished.
Inductive StopPc := NotCalled | Joining | Returned.

Record StopRace := mkRace { sr_loop : LoopState; sr_quit : bool; sr_stop : StopPc }.

Definition race_start : StopRace := mkRace NoLoop false NotCalled.

(** [remembers]: whether a quit before the loop runs has an effect, which GLib leaves open. *)
Inductive race_step (remembers : bool) : StopRace -> StopRace -> Prop :=
| race_new stop quit : race_step remembers (mkRace NoLoop quit stop) (mkRace Created quit stop)
| race_run stop quit : race_step remembers (mkRace Created quit stop) (mkRace (if quit && remembers then Finished else Looping) quit stop)
| race_stop_early quit : race_step remembers (mkRace NoLoop quit NotCalled) (mkRace NoLoop quit Joining)
| race_stop_created quit : race_step remembers (mkRace Created quit NotCalled) (mkRace Created true Joining)
| race_stop_looping quit : race_step remembers (mkRace Looping quit NotCalled) (mkRace Finished true Joining)
| race_join quit : race_step remembers (mkRace Finished quit Joining) (mkRace Finished quit Returned).

(** Stopping a receiver too early hangs.  When [Stop] comes before the new thread
    has made its main loop, the join never returns, whatever happens afterwards; once
    the loop runs, [Stop] can always return. *)
Theorem early_stop_hangs remembers :
  (exists st, rtc (race_step remembers) race_start st /\ sr_stop st = Joining /\
     forall st', rtc (race_step remembers) st st' -> sr_stop st' = Joining) /\
  (forall st, rtc (race_step remembers) (mkRace Looping false NotCalled) st ->
     exists st', rtc (race_step remembers) st st' /\ sr_stop st' = Returned).
Proof.
  split.
  - exists (mkRace NoLoop false Joining). split; [eapply rtc_once; constructor |]. split; [done |].
    assert (forall st st', rtc (race_step remembers) st st' -> sr_stop st = Joining /\ sr_quit st = false /\ sr_loop st <> Finished ->
              sr_stop st' = Joining /\ sr_quit st' = false /\ sr_loop st' <> Finished) as Hinv.
    { induction 1 as [| st1 st2 st3 Hs _ IH]; [done |]. intros (H1 & H2 & H3). apply IH. destruct Hs; cbn in *; subst; done. }
    intros st' Hst'. by apply (Hinv _ _ Hst').
  - intros st Hst.
    assert (forall st st', rtc (race_step remembers) st st' -> sr_loop st = Looping /\ sr_stop st = NotCalled \/ sr_loop st = Finished /\ sr_stop st <> NotCalled ->
              sr_loop st' = Looping /\ sr_stop st' = NotCalled \/ sr_loop st' = Finished /\ sr_stop st' <> NotCalled) as Hinv.
    { induction 1 as [| st1 st2 st3 Hs _ IH]; [done |]. intros H. apply IH. destruct Hs; cbn in *; naive_solver. }
    destruct (Hinv _ _ Hst (or_introl (conj eq_refl eq_refl))) as [[H1 H2] | [H1 H2]]; destruct st as [loop quit stop]; cbn in *; subst.
    + exists (mkRace Finished true Returned). split; [| done]. eapply rtc_l; [constructor | eapply rtc_once; constructor].
    + destruct stop; [done | |]; exists (mkRace Finished quit Returned); (split; [| done]); [eapply rtc_once; constructor | reflexivity].
Qed.
