(* ===== verification/RtspClient.v ===== *)
(** * The RTSP client of a camera

    [Protocol/RTSP_GST/include/GstRtspClient.h] and [src/GstRtspClient.cpp]: it owns the
    receiver of a camera, puts its frames into the queue of the detector unit, and
    restarts it when the stream breaks off.  The reconnection worker is one function per
    turn of its loop; what other threads do meanwhile (frames, bus messages, a stop, the
    detector unit taking a frame) is a list of events for each place where the worker
    waits.  How long it sleeps is computed but takes no time here.  [None] comes from
    the receiver and never happens ([worker_never_gives_up]). *)

From stdpp Require Import gmap.
From S2P Require Import Prelude SafeQueue RtspReceiver.
Open Scope Z_scope.
Open Scope list_scope.

Definition WATCHDOG_STALE_SEC : Z := 12.

Record ClientConfig := mkClientConfig {
  cam_id : Z;
  reconnect_initial_sec : Z;
  reconnect_max_sec : Z;
  queue_max_size : Z;
  cfg_raw_passthrough : bool
}.

(** The atomic flags. *)
Record ClientFlags := mkFlags { is_running : bool; shutdown_ : bool; reconnect_pending_ : bool; eos_reconnect_pending_ : bool }.

Record ClientStats := mkStats {
  client_reconnect_count_ : Z;
  enqueue_drop_count_ : Z;
  last_cb_ns_ : Z;
  frame_interval_sum_ns_ : Z;
  frame_interval_count_ : Z
}.

Section Client.
Context {F : Type}.

(** [gst_]: GStreamer's side. *)
Record GstRtspClient := mkClient {
  client_cfg_ : ClientConfig;
  queue_ : option (SafeQueue F);
  receiver_ : option GstRtspReceiver;
  gst_ : Gst;
  flags_ : ClientFlags;
  stats_ : ClientStats;
  backoff_sec_ : Z;
  worker_joinable : bool
}.

Definition GstRtspClient_make (cfg : ClientConfig) (queue : option (SafeQueue F)) (g : Gst) : GstRtspClient :=
  mkClient cfg (option_map (fun q => SetMaxSize q (queue_max_size cfg)) queue) None g (mkFlags false false false false)
    (mkStats 0 0 0 0 0) (reconnect_initial_sec cfg) false.

Definition with_receiver (c : GstRtspClient) (r : option GstRtspReceiver) (g : Gst) : GstRtspClient :=
  mkClient (client_cfg_ c) (queue_ c) r g (flags_ c) (stats_ c) (backoff_sec_ c) (worker_joinable c).
Definition with_flags (c : GstRtspClient) (f : ClientFlags) : GstRtspClient :=
  mkClient (client_cfg_ c) (queue_ c) (receiver_ c) (gst_ c) f (stats_ c) (backoff_sec_ c) (worker_joinable c).
Definition with_frames (c : GstRtspClient) (q : option (SafeQueue F)) (s : ClientStats) : GstRtspClient :=
  mkClient (client_cfg_ c) q (receiver_ c) (gst_ c) (flags_ c) s (backoff_sec_ c) (worker_joinable c).
Definition with_backoff (c : GstRtspClient) (b : Z) : GstRtspClient :=
  mkClient (client_cfg_ c) (queue_ c) (receiver_ c) (gst_ c) (flags_ c) (stats_ c) b (worker_joinable c).
Definition with_worker (c : GstRtspClient) (j : bool) : GstRtspClient :=
  mkClient (client_cfg_ c) (queue_ c) (receiver_ c) (gst_ c) (flags_ c) (stats_ c) (backoff_sec_ c) j.

Definition set_pending (c : GstRtspClient) (b : bool) : GstRtspClient :=
  with_flags c (mkFlags (is_running (flags_ c)) (shutdown_ (flags_ c)) b (eos_reconnect_pending_ (flags_ c))).
Definition set_eos (c : GstRtspClient) (b : bool) : GstRtspClient :=
  with_flags c (mkFlags (is_running (flags_ c)) (shutdown_ (flags_ c)) (reconnect_pending_ (flags_ c)) b).
Definition set_life (c : GstRtspClient) (running shutdown : bool) : GstRtspClient :=
  with_flags c (mkFlags running shutdown (reconnect_pending_ (flags_ c)) (eos_reconnect_pending_ (flags_ c))).

Definition shut (c : GstRtspClient) : bool := shutdown_ (flags_ c).
Definition pending (c : GstRtspClient) : bool := reconnect_pending_ (flags_ c).

Definition count_reconnect (c : GstRtspClient) : GstRtspClient :=
  let s := stats_ c in
  with_frames c (queue_ c) (mkStats (u64 (client_reconnect_count_ s + 1)) (enqueue_drop_count_ s) (last_cb_ns_ s)
    (frame_interval_sum_ns_ s) (frame_interval_count_ s)).

(** ** Callbacks of the receiver *)

(** The callback for a frame: measures the interval, and queues the frame when none is
    waiting. *)
Definition frame_cb (now_cb_ns : time_point) (frame : F) (c : GstRtspClient) : GstRtspClient :=
  match queue_ c with
  | None => c
  | Some q =>
      let s := stats_ c in
      let last_cb := last_cb_ns_ s in
      let interval := now_cb_ns - last_cb in
      let counted := negb (last_cb =? 0) && (0 <? interval) && (interval <? 1000000000) in
      let sum := if counted then u64 (frame_interval_sum_ns_ s + interval) else frame_interval_sum_ns_ s in
      let n := if counted then u64 (frame_interval_count_ s + 1) else frame_interval_count_ s in
      if 0 <? q_size q then
        with_frames c (Some q) (mkStats (client_reconnect_count_ s) (u64 (enqueue_drop_count_ s + 1)) now_cb_ns sum n)
      else with_frames c (Some (enqueue q frame)) (mkStats (client_reconnect_count_ s) (enqueue_drop_count_ s) now_cb_ns sum n)
  end.

Definition RequestReconnect (c : GstRtspClient) : GstRtspClient :=
  if shut c then c else if pending c then c else set_pending c true.

Definition trigger (t : Trigger) (c : GstRtspClient) : GstRtspClient :=
  match t with
  | OnError | OnTimeout => RequestReconnect c
  | OnEos => RequestReconnect (set_eos c true)
  end.

(** What other threads do: a decoded frame, a bus message, the first part of [Stop], and
    the detector unit that takes a frame. *)
Inductive ClientEvent :=
| EFrame (now_ns now_cb_ns : time_point) (frame : F)
| EBus (msg : BusMessage)
| EStop
| ETake.

Definition client_event (c : GstRtspClient) (e : ClientEvent) : GstRtspClient :=
  match e with
  | EFrame now_ns now_cb_ns frame =>
      match receiver_ c with
      | None => c
      | Some r => frame_cb now_cb_ns frame (with_receiver c (Some (snd (OnNewSample (Some frame) now_ns r))) (gst_ c))
      end
  | EBus msg =>
      match receiver_ c with
      | None => c
      | Some r =>
          let '(t, r) := OnBusMessage msg r in
          let c := with_receiver c (Some r) (gst_ c) in
          match t with Some t => trigger t c | None => c end
      end
  | EStop => if is_running (flags_ c) then set_life c false true else c
  | ETake => with_frames c (option_map (fun q => snd (dequeue_wait_for q)) (queue_ c)) (stats_ c)
  end.

Definition events (c : GstRtspClient) (es : list ClientEvent) : GstRtspClient := foldl client_event c es.

(** ** The receiver *)

(** A receiver that is still there is destroyed by the assignment. *)
Definition StartReceiver (old_state_ok : bool) (a : StartAnswers) (c : GstRtspClient) : option (bool * GstRtspClient) :=
  g ← match receiver_ c with
      | Some old => '(_, g) ← RtspReceiver.Stop old_state_ok old (gst_ c); Some g
      | None => Some (gst_ c)
      end;
  '(ok, r, g) ← RtspReceiver.Start a (GstRtspReceiver_make (cfg_raw_passthrough (client_cfg_ c))) g;
  Some (ok, with_receiver c (if ok : bool then Some r else None) g).

Definition StopReceiver (state_ok : bool) (c : GstRtspClient) : option GstRtspClient :=
  match receiver_ c with
  | None => Some c
  | Some rx => '(_, g) ← RtspReceiver.Stop state_ok rx (gst_ c); Some (with_receiver c None g)
  end.

Definition GetFrameCount (c : GstRtspClient) : Z := match receiver_ c with Some r => frame_count_ r | None => 0 end.

(** ** The reconnection worker *)

(** What meets the worker in one turn, place by place. *)
Record TurnEnv := mkTurn {
  te_wait : list ClientEvent;
  te_now : time_point;
  te_flags : list ClientEvent;
  te_desync : list ClientEvent;
  te_reset : ResetAnswers;
  te_backoff : list ClientEvent;
  te_stop_ok : bool;
  te_release : list ClientEvent;
  te_start : StartAnswers;
  te_watch : list (list ClientEvent)
}.

(** How a turn ends; [wait_sec] is what it waited before a restart. *)
Inductive TurnEnd := Ended | Idle | ResetDone | Flowing (wait_sec : Z) | NoFrames (wait_sec : Z) | StartFailed (wait_sec : Z).

(** The sleeps, in milliseconds. *)
Definition desync_ms (c : GstRtspClient) : Z := Z.rem (cam_id (client_cfg_ c)) 4 * 500.
Definition reconnect_jitter_ms (ticks : Z) : Z := Z.rem (Z.quot ticks 1000) 1300.
Definition release_ms (ticks : Z) (c : GstRtspClient) : Z := 3000 + desync_ms c + reconnect_jitter_ms ticks.

(** The frame-age watchdog, when no reconnection is pending. *)
Definition stale (now_ns : time_point) (c : GstRtspClient) : bool :=
  let last_ns := match receiver_ c with Some r => last_frame_ns_ r | None => 0 end in
  (0 <? last_ns) && (WATCHDOG_STALE_SEC <=? Z.quot (now_ns - last_ns) 1000000000).

Definition watchdog (now_ns : time_point) (c : GstRtspClient) : GstRtspClient :=
  if pending c then c else if stale now_ns c then set_pending (set_eos c true) true else c.

(** Up to sixty looks at the frame counter. *)
Fixpoint watch_flow (n : nat) (es : list (list ClientEvent)) (c : GstRtspClient) : bool * GstRtspClient :=
  match n with
  | O => (false, c)
  | S n =>
      if shut c then (false, c)
      else
        let c := events c (default [] (head es)) in
        if 0 <? GetFrameCount c then (true, c) else watch_flow n (tail es) c
  end.

Definition back_off (c : GstRtspClient) : GstRtspClient :=
  set_pending (with_backoff c (Z.min (i32 (backoff_sec_ c * 2)) (reconnect_max_sec (client_cfg_ c)))) true.

Definition forget_backoff (c : GstRtspClient) : GstRtspClient := with_backoff c (reconnect_initial_sec (client_cfg_ c)).

(** From the wait before a restart on. *)
Definition full_restart (e : TurnEnv) (is_eos : bool) (c : GstRtspClient) : option (TurnEnd * GstRtspClient) :=
  let wait_sec := if is_eos then 0 else backoff_sec_ c in
  let c := events c (te_backoff e) in
  if shut c then Some (Ended, c)
  else
    c ← StopReceiver (te_stop_ok e) c;
    let c := events c (te_release e) in
    if shut c then Some (Ended, c)
    else
      '(started, c) ← StartReceiver true (te_start e) c;
      if started : bool then
        let '(flowing, c) := watch_flow 60 (te_watch e) c in
        if flowing then Some (Flowing wait_sec, forget_backoff (count_reconnect c))
        else Some (NoFrames wait_sec, back_off c)
      else Some (StartFailed wait_sec, back_off c).

Definition ReconnectWorker_turn (e : TurnEnv) (c : GstRtspClient) : option (TurnEnd * GstRtspClient) :=
  if shut c then Some (Ended, c)
  else
    let c := events c (te_wait e) in
    if shut c then Some (Ended, c)
    else
      let c := watchdog (te_now e) c in
      if negb (pending c) then Some (Idle, c)
      else
        let c := events (set_pending c false) (te_flags e) in
        let is_eos := eos_reconnect_pending_ (flags_ c) in
        let c := set_eos c false in
        if is_eos then
          let c := events c (te_desync e) in
          if shut c then Some (Ended, c)
          else
            '(inplace_ok, c) ← match receiver_ c with
                                | Some r => '(ok, r, g) ← ResetSourceOnly (te_reset e) r (gst_ c); Some (ok, with_receiver c (Some r) g)
                                | None => Some (false, c)
                                end;
            if inplace_ok : bool then Some (ResetDone, forget_backoff (count_reconnect c))
            else full_restart e true c
        else full_restart e false c.

(** ** Start and stop *)

(** [running]: the events and turns of the worker while the client runs; its loop ends
    by itself once [shutdown_] is set. *)
Fixpoint ReconnectWorker (turns : list TurnEnv) (c : GstRtspClient) : option GstRtspClient :=
  match turns with
  | [] => Some c
  | e :: turns =>
      '(fin, c) ← ReconnectWorker_turn e c;
      match fin with Ended => Some c | _ => ReconnectWorker turns c end
  end.

Definition Start (a : StartAnswers) (c : GstRtspClient) : option (bool * GstRtspClient) :=
  if is_running (flags_ c) then Some (false, c)
  else
    let c := with_worker (set_life c true false) true in
    '(ok, c) ← StartReceiver true a c;
    if negb ok then Some (false, with_worker (set_life c false true) false) else Some (true, c).

(** [Stop] sets the flags ([EStop]), joins the worker, whose turn ends at its next look at
    [shutdown_], and then does the rest. *)
Definition Stop_after_join (state_ok : bool) (c : GstRtspClient) : option GstRtspClient :=
  StopReceiver state_ok (with_worker c false).

End Client.
