(* ===== verification/RtspClientProps.v ===== *)
(** * Properties of the RTSP client

    The reconnection worker: it never gives up, it backs off, it notices a stream that
    has gone silent, and nothing of GStreamer is left when it is stopped. *)

From stdpp Require Import gmap.
From S2P Require Import Prelude SafeQueue RtspReceiver RtspClient.
Open Scope Z_scope.
Open Scope list_scope.

(** ** The receiver's resources *)

Lemma teardown_keeps ok r g r' g' :
  TeardownPipeline ok r g = Some (r', g') -> running_ r' = running_ r /\ frame_count_ r' = frame_count_ r.
Proof.
  unfold TeardownPipeline. destruct (pipeline_ r) as [i |]; [| by intros [= <- <-]].
  destruct (drop_opt RTimer _ _) as [g1 |]; cbn; [| done]. destruct (drop_opt RWatch _ _) as [g2 |]; cbn; [| done].
  destruct (drop_opt RSink _ _) as [g3 |]; cbn; [| done]. destruct (drop_opt RRawSink _ _) as [g4 |]; cbn; [| done].
  destruct (if ok then _ else _) as [g5 |]; cbn; [| done]. by intros [= <- <-].
Qed.

Lemma build_keeps a r g b r' g' :
  BuildPipeline a r g = Some (b, r', g') -> running_ r' = running_ r /\ frame_count_ r' = frame_count_ r.
Proof.
  unfold BuildPipeline. destruct (negb (ba_launch a)); [by intros [= <- <- <-] |].
  destruct (negb (ba_sink a)); [destruct (drop_ref _ _); cbn; [by intros [= <- <- <-] | done] |].
  destruct (_ && _).
  - destruct (drop_ref _ _) as [g1 |]; cbn; [| done]. destruct (drop_ref _ _) as [g2 |]; cbn; [| done]. by intros [= <- <- <-].
  - destruct (enable_raw_passthrough r); by intros [= <- <- <-].
Qed.

Lemma stop_not_running ok r g r' g' : RtspReceiver.Stop ok r g = Some (r', g') -> running_ r' = false.
Proof.
  unfold RtspReceiver.Stop. destruct (running_ r) eqn:E; cbn [negb]; [| by intros [= <- <-]].
  by intros [-> _]%teardown_keeps.
Qed.

(** A start keeps the count of frames; when it fails the receiver does not run. *)
Lemma start_keeps a r g b r' g' :
  RtspReceiver.Start a r g = Some (b, r', g') -> running_ r = false -> frame_count_ r' = frame_count_ r /\ (b = false -> running_ r' = false).
Proof.
  unfold RtspReceiver.Start. intros H Hr. rewrite Hr in H.
  destruct (BuildPipeline _ _ _) as [[[built r1] g1] |] eqn:E; cbn in H; [| done]. apply build_keeps in E as [_ E]. cbn in E.
  destruct built; cbn in H; [| by injection H as <- <- <-]. destruct (sa_playing a); cbn in H.
  - destruct (loop_joinable r1); [done |]. by injection H as <- <- <-.
  - destruct (TeardownPipeline _ _ _) as [[r2 g2] |] eqn:E2; cbn in H; [| done]. apply teardown_keeps in E2 as [_ E2].
    injection H as <- <- <-. cbn. split; [congruence | done].
Qed.

Section Client.
Context {F : Type}.
Abbreviation Client := (GstRtspClient (F := F)).

(** The references held are those of the receiver and of pipelines given up. *)
Definition client_ok (leaked : gset nat) (c : Client) : Prop :=
  match receiver_ c with
  | Some r => refs_ok leaked r (gst_ c) /\ idle_ok r
  | None => g_refs (gst_ c) = abandoned leaked /\ forall i, i ∈ leaked -> (i < g_next (gst_ c))%nat
  end.

Lemma receiver_gone leaked r g : refs_ok leaked r g -> pipeline_ r = None -> g_refs g = abandoned leaked /\ forall i, i ∈ leaked -> (i < g_next g)%nat.
Proof.
  intros [Ho Hg Hold] Hp. split; [| intros i Hi; by apply Hold]. rewrite Hg.
  destruct Ho as [(_ & H1 & H2 & H3 & H4) | (i & _ & ? & _)]; [| congruence].
  unfold held. rewrite Hp, H1, H2, H3, H4. cbn. set_solver.
Qed.

(** The fields the receiver's restarts do not touch. *)
Definition same_rest (c c' : Client) : Prop :=
  client_cfg_ c' = client_cfg_ c /\ queue_ c' = queue_ c /\ flags_ c' = flags_ c /\ stats_ c' = stats_ c /\
  backoff_sec_ c' = backoff_sec_ c /\ worker_joinable c' = worker_joinable c.

Lemma stop_receiver_ok leaked ok (c : Client) :
  client_ok leaked c -> exists leaked' c', StopReceiver ok c = Some c' /\ client_ok leaked' c' /\ receiver_ c' = None /\
    same_rest c c' /\ (size leaked' <= size leaked + timeouts (OpStop ok))%nat.
Proof.
  intros Hok. unfold StopReceiver. unfold client_ok in Hok. destruct (receiver_ c) as [rx |] eqn:Er.
  - destruct Hok as [H1 H2]. destruct (receiver_op_ok leaked (OpStop ok) rx (gst_ c) H1 H2) as (l & r & g & Hs & Hr & [_ Hi] & Hsz).
    cbn [receiver_op] in Hs. rewrite Hs. cbn [mbind option_bind]. do 2 eexists. split; [done |]. split; [| split; [done |]; split; [done | exact Hsz]].
    unfold client_ok. cbn. apply (receiver_gone l r g Hr). apply Hi. by eapply stop_not_running.
  - exists leaked, c. split; [done |]. split; [unfold client_ok; by rewrite Er |]. split; [done |]. split; [done | lia].
Qed.

Lemma start_receiver_ok leaked old a (c : Client) :
  client_ok leaked c -> exists leaked' ok c', StartReceiver old a c = Some (ok, c') /\ client_ok leaked' c' /\ same_rest c c' /\
    (if ok then GetFrameCount c' = 0 else receiver_ c' = None) /\
    (size leaked' <= size leaked + timeouts (OpStop old) + timeouts (OpStart a))%nat.
Proof.
  intros Hok. unfold StartReceiver.
  assert (exists leaked1 g1, (match receiver_ c with Some r => '(_, g) ← RtspReceiver.Stop old r (gst_ c); Some g | None => Some (gst_ c) end) = Some g1 /\
            g_refs g1 = abandoned leaked1 /\ (forall i, i ∈ leaked1 -> (i < g_next g1)%nat) /\ (size leaked1 <= size leaked + timeouts (OpStop old))%nat)
    as (l1 & g1 & -> & Hg1 & Hl1 & Hsz1).
  { unfold client_ok in Hok. destruct (receiver_ c) as [rx |]; [| exists leaked, (gst_ c); destruct Hok; split_and!; [done | done | done | lia]].
    destruct Hok as [H1 H2]. destruct (receiver_op_ok leaked (OpStop old) rx (gst_ c) H1 H2) as (l & r & g & Hs & Hr & [_ Hi] & Hsz).
    cbn [receiver_op] in Hs. rewrite Hs. exists l, g. split; [done |].
    destruct (receiver_gone l r g Hr) as [Hg Hl]; [by eapply Hi, stop_not_running |]. done. }
  cbn [mbind option_bind]. set (r0 := GstRtspReceiver_make _).
  assert (refs_ok l1 r0 g1) as H0.
  { split; [by left | rewrite Hg1; unfold held; cbn; set_solver | intros i Hi; split; [by apply Hl1 | done]]. }
  destruct (receiver_op_ok l1 (OpStart a) r0 g1 H0) as (l2 & r2 & g2 & Hs & Hr2 & Hi2 & Hsz2); [by split |].
  cbn [receiver_op] in Hs. destruct (RtspReceiver.Start a r0 g1) as [[[ok r] g] |] eqn:Es; cbn [mbind option_bind] in *; [| done].
  injection Hs as -> ->. exists l2, ok. eexists. split; [done |]. destruct ok.
  - split; [by split |]. split; [done |]. split; [| lia]. cbn. by apply start_keeps in Es as [Es _].
  - split; [| split; [done |]; split; [done | lia]]. unfold client_ok. cbn. apply (receiver_gone l2 r2 g2 Hr2), Hi2. by apply start_keeps in Es as [_ Es]; [apply Es |].
Qed.

Lemma reset_ok leaked a (c : Client) r :
  client_ok leaked c -> receiver_ c = Some r ->
  exists leaked' ok r' g', ResetSourceOnly a r (gst_ c) = Some (ok, r', g') /\ client_ok leaked' (with_receiver c (Some r') g') /\
    (size leaked' <= size leaked + timeouts (OpReset a))%nat.
Proof.
  unfold client_ok. intros Hok Er. rewrite Er in Hok. destruct Hok as [H1 H2].
  destruct (receiver_op_ok leaked (OpReset a) r (gst_ c) H1 H2) as (l & r' & g' & Hs & Hr & Hi & Hsz).
  cbn [receiver_op] in Hs. destruct (ResetSourceOnly a r (gst_ c)) as [[[ok r1] g1] |]; cbn in Hs; [| done].
  injection Hs as -> ->. exists l, ok, r', g'. done.
Qed.

(** Changes outside the receiver and GStreamer keep the resources. *)
Lemma client_ok_same leaked (c c' : Client) :
  receiver_ c' = receiver_ c -> gst_ c' = gst_ c -> client_ok leaked c -> client_ok leaked c'.
Proof. unfold client_ok. by intros -> ->. Qed.

Lemma client_ok_counts leaked (c : Client) r a b d e t :
  client_ok leaked c -> receiver_ c = Some r -> client_ok leaked (with_receiver c (Some (with_counts r a b d e t)) (gst_ c)).
Proof.
  unfold client_ok. intros Hok Er. rewrite Er in Hok. destruct Hok as [H1 [H2 H3]]. cbn. split; [by apply (refs_ok_same leaked r) | by split].
Qed.

Lemma RequestReconnect_ok leaked (c : Client) : client_ok leaked c -> client_ok leaked (RequestReconnect c).
Proof. unfold RequestReconnect. destruct (shut c); [done |]. destruct (pending c); [done |]. by apply client_ok_same. Qed.

Lemma trigger_ok leaked t (c : Client) : client_ok leaked c -> client_ok leaked (trigger t c).
Proof. intros Hok. destruct t; cbn; apply RequestReconnect_ok; [done | done | by apply (client_ok_same leaked c)]. Qed.

Lemma client_event_ok leaked (c : Client) e : client_ok leaked c -> client_ok leaked (client_event c e).
Proof.
  intros Hok. destruct e as [now now_cb frame | msg | |]; cbn [client_event].
  - destruct (receiver_ c) as [r |] eqn:Er; [| done].
    pose proof (client_ok_counts leaked c r (u64 (frame_count_ r + 1)) (reconnect_count_ r) (error_count_ r) (reset_source_count_ r) now Hok Er) as H.
    unfold frame_cb. cbn. destruct (queue_ c) as [q |]; [| exact H]. destruct (0 <? q_size q); exact H.
  - destruct (receiver_ c) as [r |] eqn:Er; [| done].
    assert (client_ok leaked (with_receiver c (Some (snd (OnBusMessage msg r))) (gst_ c))) as H.
    { destruct msg as [| | cause |]; cbn; try by apply client_ok_counts.
      - destruct (_ =? _); cbn; [| by apply client_ok_counts]. unfold client_ok in *. cbn. by rewrite Er in Hok.
      - unfold client_ok in *. cbn. by rewrite Er in Hok. }
    destruct (OnBusMessage msg r) as [[t |] r']; cbn in *; [by apply trigger_ok | done].
  - destruct (is_running _); [by apply (client_ok_same leaked c) | done].
  - by apply (client_ok_same leaked c).
Qed.

Lemma events_ok leaked (c : Client) es : client_ok leaked c -> client_ok leaked (events c es).
Proof. revert c. induction es as [| e es IH]; intros c Hok; cbn; [done |]. by apply IH, client_event_ok. Qed.

(** ** What events leave alone *)

Record kept (c c' : Client) : Prop := {
  k_cfg : client_cfg_ c' = client_cfg_ c;
  k_backoff : backoff_sec_ c' = backoff_sec_ c;
  k_shut : shut c = true -> shut c' = true;
  k_pending : pending c = true -> pending c' = true
}.

#[local] Instance kept_preorder : PreOrder kept.
Proof. split; [by intros c | intros c1 c2 c3 [] []; split; [congruence | congruence | auto | auto]]. Qed.

Lemma RequestReconnect_kept c : kept c (RequestReconnect c).
Proof. unfold RequestReconnect. destruct (shut c) eqn:E; [done |]. destruct (pending c); [done |]. by split; cbn; [| | rewrite E |]. Qed.

Lemma client_event_kept c e : kept c (client_event c e).
Proof.
  destruct e as [now now_cb frame | msg | |]; cbn [client_event].
  - destruct (receiver_ c) as [r |]; [| done]. unfold frame_cb. cbn. destruct (queue_ c) as [q |]; [| done].
    by destruct (0 <? q_size q).
  - destruct (receiver_ c) as [r |]; [| done]. destruct (OnBusMessage msg r) as [[t |] r']; [| done].
    destruct t; cbn [trigger]; (etransitivity; [| apply RequestReconnect_kept]); done.
  - destruct (is_running _); done.
  - done.
Qed.

Lemma events_kept c es : kept c (events c es).
Proof. revert c. induction es as [| e es IH]; intros c; cbn; [done |]. etransitivity; [apply client_event_kept | apply IH]. Qed.

Lemma watch_flow_spec n es leaked c flowing c' :
  watch_flow n es c = (flowing, c') -> client_ok leaked c -> client_ok leaked c' /\ kept c c' /\ (flowing = true -> 0 < GetFrameCount c').
Proof.
  revert es c. induction n as [| n IH]; intros es c; cbn [watch_flow]; [by intros [= <- <-] |].
  destruct (shut c); [by intros [= <- <-] |]. intros H Hok.
  pose proof (events_ok leaked c (default [] (head es)) Hok) as Hok1. pose proof (events_kept c (default [] (head es))) as Hk1.
  destruct (Z.ltb_spec 0 (GetFrameCount (events c (default [] (head es))))) as [Hlt | _].
  - injection H as <- <-. done.
  - destruct (IH _ _ H Hok1) as (H1 & H2 & H3). split_and!; [done | by etransitivity | done].
Qed.

(** ** A turn *)

(** How a turn that began with the backoff [b] leaves the client. *)
Definition turn_result (b : Z) (fin : TurnEnd) (c' : Client) : Prop :=
  match fin with
  | Ended => shut c' = true /\ backoff_sec_ c' = b
  | Idle => pending c' = false /\ backoff_sec_ c' = b
  | ResetDone => backoff_sec_ c' = reconnect_initial_sec (client_cfg_ c')
  | Flowing w => 0 < GetFrameCount c' /\ backoff_sec_ c' = reconnect_initial_sec (client_cfg_ c') /\ (w = 0 \/ w = b)
  | NoFrames w | StartFailed w =>
      pending c' = true /\ backoff_sec_ c' = Z.min (i32 (b * 2)) (reconnect_max_sec (client_cfg_ c')) /\ (w = 0 \/ w = b)
  end.

(** The teardowns of a turn that may run into the time-out. *)
Definition turn_timeouts (e : TurnEnv (F := F)) : nat :=
  timeouts (OpReset (te_reset e)) + timeouts (OpStop (te_stop_ok e)) + timeouts (OpStart (te_start e)).

Lemma full_restart_spec leaked e is_eos c :
  client_ok leaked c ->
  exists fin c' leaked', full_restart e is_eos c = Some (fin, c') /\ client_ok leaked' c' /\
    client_cfg_ c' = client_cfg_ c /\ fin <> Idle /\ turn_result (backoff_sec_ c) fin c' /\
    (size leaked' <= size leaked + timeouts (OpStop (te_stop_ok e)) + timeouts (OpStart (te_start e)))%nat.
Proof.
  intros Hok. unfold full_restart. set (w := if is_eos then 0 else backoff_sec_ c).
  assert (w = 0 \/ w = backoff_sec_ c) as Hw by (destruct is_eos; auto). clearbody w.
  pose proof (events_ok leaked c (te_backoff e) Hok) as Hok1. destruct (events_kept c (te_backoff e)) as [K1 K2 _ Kp].
  set (c1 := events c (te_backoff e)) in *. destruct (shut c1) eqn:Es1; [exists Ended, c1, leaked; cbn [turn_result]; cbn [timeouts]; split_and!; done || lia |].
  destruct (stop_receiver_ok leaked (te_stop_ok e) c1 Hok1) as (l2 & c2 & -> & Hok2 & _ & (S1 & _ & _ & _ & S2 & _) & Z1).
  cbn [mbind option_bind]. pose proof (events_ok l2 c2 (te_release e) Hok2) as Hok3. destruct (events_kept c2 (te_release e)) as [K3 K4 _ _].
  set (c3 := events c2 (te_release e)) in *. destruct (shut c3) eqn:Es3.
  { exists Ended, c3, l2. cbn [turn_result]. cbn [timeouts] in *. split_and!; try done; congruence || lia. }
  destruct (start_receiver_ok l2 true (te_start e) c3 Hok3) as (l4 & started & c4 & -> & Hok4 & (S3 & _ & _ & _ & S4 & _) & _ & Z2).
  cbn [timeouts] in Z1, Z2 |- *.
  cbn [mbind option_bind]. destruct started.
  - destruct (watch_flow 60 (te_watch e) c4) as [flowing c5] eqn:Ew.
    destruct (watch_flow_spec _ _ _ _ _ _ Ew Hok4) as (Hok5 & [K5 K6 _] & Hf). destruct flowing.
    + exists (Flowing w), (forget_backoff (count_reconnect c5)), l4. split; [done |]. split; [by apply (client_ok_same l4 c5) |].
      split; [cbn; congruence |]. split; [done |]. split; [| lia]. split; [by apply Hf | done].
    + exists (NoFrames w), (back_off c5), l4. split; [done |]. split; [by apply (client_ok_same l4 c5) |].
      split; [cbn; congruence |]. split; [done |]. split; [| lia]. cbn. split_and!; [done | | done]. do 2 f_equal. congruence.
  - exists (StartFailed w), (back_off c4), l4. split; [done |]. split; [by apply (client_ok_same l4 c4) |].
    split; [cbn; congruence |]. split; [done |]. split; [| lia]. cbn. split_and!; [done | | done]. do 2 f_equal. congruence.
Qed.

Lemma turn_spec leaked e c :
  client_ok leaked c ->
  exists fin c' leaked', ReconnectWorker_turn e c = Some (fin, c') /\ client_ok leaked' c' /\
    client_cfg_ c' = client_cfg_ c /\ turn_result (backoff_sec_ c) fin c' /\
    (shut (events c (te_wait e)) = false -> shut c = false ->
     (fin = Idle <-> pending (events c (te_wait e)) || stale (te_now e) (events c (te_wait e)) = false)) /\
    (size leaked' <= size leaked + turn_timeouts e)%nat.
Proof.
  intros Hok. unfold turn_timeouts. unfold ReconnectWorker_turn. destruct (shut c) eqn:Es; [exists Ended, c, leaked; split_and!; done || lia |].
  pose proof (events_ok leaked c (te_wait e) Hok) as Hok1. destruct (events_kept c (te_wait e)) as [K1 K2 _ Kp].
  set (c1 := events c (te_wait e)) in *. destruct (shut c1) eqn:Es1; [exists Ended, c1, leaked; cbn [turn_result]; split_and!; done || lia |].
  assert (client_ok leaked (watchdog (te_now e) c1) /\ client_cfg_ (watchdog (te_now e) c1) = client_cfg_ c /\
          backoff_sec_ (watchdog (te_now e) c1) = backoff_sec_ c /\ pending (watchdog (te_now e) c1) = pending c1 || stale (te_now e) c1) as (Hok2 & K3 & K4 & Hp).
  { unfold watchdog. destruct (pending c1) eqn:Ep; [done |]. destruct (stale (te_now e) c1); [| done].
    split; [by apply (client_ok_same leaked c1) | done]. }
  set (c2 := watchdog (te_now e) c1) in *. rewrite <- Hp. destruct (pending c2) eqn:Ep2; cbn [negb]; [| exists Idle, c2, leaked; cbn [turn_result]; split_and!; done || lia].
  pose proof (events_ok leaked (set_pending c2 false) (te_flags e) (client_ok_same leaked c2 _ eq_refl eq_refl Hok2)) as Hok3.
  destruct (events_kept (set_pending c2 false) (te_flags e)) as [K5 K6 _ _]. cbn in K5, K6.
  set (c3 := events (set_pending c2 false) (te_flags e)) in *.
  assert (client_ok leaked (set_eos c3 false)) as Hok4 by (by apply (client_ok_same leaked c3)).
  assert (client_cfg_ (set_eos c3 false) = client_cfg_ c) as K7 by (cbn; congruence).
  assert (backoff_sec_ (set_eos c3 false) = backoff_sec_ c) as K8 by (cbn; congruence).
  set (c4 := set_eos c3 false) in *.
  destruct (eos_reconnect_pending_ (flags_ c3)).
  - pose proof (events_ok leaked c4 (te_desync e) Hok4) as Hok5. destruct (events_kept c4 (te_desync e)) as [K9 K10 _ _].
    set (c5 := events c4 (te_desync e)) in *. destruct (shut c5) eqn:Es5.
    { exists Ended, c5, leaked. split; [done |]. split; [done |]. split; [congruence |]. split; [split; [done | congruence] |]. split; [done | lia]. }
    assert (exists l ok c6, (match receiver_ c5 with
              | Some r => '(ok, r, g) ← ResetSourceOnly (te_reset e) r (gst_ c5); Some (ok, with_receiver c5 (Some r) g)
              | None => Some (false, c5) end) = Some (ok, c6) /\ client_ok l c6 /\ client_cfg_ c6 = client_cfg_ c /\ backoff_sec_ c6 = backoff_sec_ c /\
              (size l <= size leaked + timeouts (OpReset (te_reset e)))%nat)
      as (l & ok & c6 & -> & Hok6 & K11 & K12 & Z0).
    { destruct (receiver_ c5) as [r |] eqn:Er.
      - destruct (reset_ok leaked (te_reset e) c5 r Hok5 Er) as (l & ok & r' & g' & -> & Hok6 & Z0). exists l, ok, (with_receiver c5 (Some r') g').
        split; [done |]. split; [done |]. cbn. split_and!; congruence || exact Z0.
      - exists leaked, false, c5. split_and!; [done | done | congruence | congruence | lia]. }
    cbn [mbind option_bind]. destruct ok.
    + exists ResetDone, (forget_backoff (count_reconnect c6)), l. split; [done |]. split; [by apply (client_ok_same l c6) |]. split_and!; done || lia.
    + destruct (full_restart_spec l e true c6 Hok6) as (fin & c7 & l7 & -> & H1 & H2 & H3 & H4 & H5). rewrite K12 in H4. exists fin, c7, l7.
      split_and!; [done | done | congruence | done | intros; split; [done | intros; congruence] | lia].
  - destruct (full_restart_spec leaked e false c4 Hok4) as (fin & c7 & l7 & -> & H1 & H2 & H3 & H4 & H5). rewrite K8 in H4. exists fin, c7, l7.
    split_and!; [done | done | congruence | done | intros; split; [done | intros; congruence] | lia].
Qed.

(** ** Runs of the worker *)

(** [ReconnectWorker] with the ends of its turns. *)
Fixpoint worker_ends (turns : list (TurnEnv (F := F))) (c : Client) : option (list TurnEnd * Client) :=
  match turns with
  | [] => Some ([], c)
  | e :: turns =>
      '(fin, c) ← ReconnectWorker_turn e c;
      match fin with
      | Ended => Some ([Ended], c)
      | _ => '(fins, c) ← worker_ends turns c; Some (fin :: fins, c)
      end
  end.

Lemma worker_ends_run turns c : ReconnectWorker turns c = snd <$> worker_ends turns c.
Proof.
  revert c. induction turns as [| e turns IH]; intros c; cbn; [done |]. destruct (ReconnectWorker_turn e c) as [[fin c'] |]; cbn; [| done].
  destruct fin; cbn; try done; rewrite IH; by destruct (worker_ends turns c') as [[]|].
Qed.

Definition restarted (fin : TurnEnd) : bool := match fin with ResetDone | Flowing _ => true | _ => false end.
Definition failed (fin : TurnEnd) : bool := match fin with NoFrames _ | StartFailed _ => true | _ => false end.
Definition waited (fin : TurnEnd) : option Z := match fin with Flowing w | NoFrames w | StartFailed w => Some w | _ => None end.

(** The failures since the last success. *)
Definition failures (fins : list TurnEnd) : nat :=
  foldl (fun n fin => if restarted fin then 0%nat else if failed fin then S n else n) 0%nat fins.

Lemma worker_ends_total leaked turns c :
  client_ok leaked c ->
  exists fins c' leaked', worker_ends turns c = Some (fins, c') /\ client_ok leaked' c' /\ client_cfg_ c' = client_cfg_ c /\
    (length fins = length turns \/ shut c' = true) /\ (size leaked' <= size leaked + sum_list_with turn_timeouts turns)%nat.
Proof.
  revert leaked c. induction turns as [| e turns IH]; intros leaked c Hok; cbn [worker_ends sum_list_with]; [exists [], c, leaked; split_and!; [done | done | done | by left | lia] |].
  destruct (turn_spec leaked e c Hok) as (fin & c1 & l1 & -> & Hok1 & Hcfg & Ht & _ & Hz). cbn [mbind option_bind].
  destruct fin; [exists [Ended], c1, l1; split_and!; [done | done | done | right; apply Ht | cbn [sum_list_with]; lia] | ..].
  all: destruct (IH l1 c1 Hok1) as (fins & c2 & l2 & -> & Hok2 & Hcfg2 & Hl & Hz2); cbn [mbind option_bind]; do 2 eexists; exists l2.
  all: (split; [done |]; split; [done |]; split; [congruence |]; split; [cbn; destruct Hl; [left; by f_equal | by right] | cbn [sum_list_with]; lia]).
Qed.

(** A request that is pending is not forgotten until a restart succeeds. *)
Lemma pending_turn leaked e c fin c' :
  client_ok leaked c -> pending c = true -> ReconnectWorker_turn e c = Some (fin, c') -> fin <> Idle /\ (failed fin = true -> pending c' = true).
Proof.
  intros Hok Hp Ht. destruct (turn_spec leaked e c Hok) as (fin1 & c1 & l1 & Ht1 & _ & _ & Hr & Hi & _). rewrite Ht in Ht1. injection Ht1 as <- <-.
  split; [| by destruct fin; cbn in *; intuition]. intros ->. pose proof (k_pending _ _ (events_kept c (te_wait e)) Hp) as Hp1.
  unfold ReconnectWorker_turn in Ht. destruct (shut c) eqn:E1; [done |]. destruct (shut (events c (te_wait e))) eqn:E2; [done |].
  destruct Hi as [Hi _]; [done | done |]. rewrite Hp1 in Hi. by specialize (Hi eq_refl).
Qed.

Lemma pending_run leaked turns c fins c' i :
  client_ok leaked c -> pending c = true -> worker_ends turns c = Some (fins, c') -> fins !! i = Some Idle ->
  exists j fin, (j < i)%nat /\ fins !! j = Some fin /\ restarted fin = true.
Proof.
  revert leaked c fins i. induction turns as [| e turns IH]; intros leaked c fins i Hok Hp; cbn; [by intros [= <- <-] |].
  destruct (turn_spec leaked e c Hok) as (fin & c1 & l1 & Et & Hok1 & _ & _ & _). rewrite Et. cbn [mbind option_bind].
  destruct (pending_turn leaked e c fin c1 Hok Hp Et) as [Hni Hf]. intros Hw Hi.
  destruct (restarted fin) eqn:Er.
  - destruct fin; try discriminate Er; destruct (worker_ends turns c1) as [[fins1 c2] |]; cbn in Hw; try discriminate Hw; injection Hw as <- <-;
      (destruct i as [| i]; [discriminate Hi |]; exists 0%nat; eexists; split_and!; [lia | reflexivity | done]).
  - destruct fin; try discriminate Er; [injection Hw as <- <-; by destruct i as [| []] | done | |];
      destruct (worker_ends turns c1) as [[fins1 c2] |] eqn:Ew; cbn in Hw; try discriminate Hw; injection Hw as <- <-;
      (destruct i as [| i]; [discriminate Hi |]; destruct (IH l1 c1 fins1 i Hok1 (Hf eq_refl) Ew Hi) as (j & fin & ? & ? & ?);
       exists (S j), fin; split_and!; [lia | done | done]).
Qed.

Lemma worker_ends_nil turns (c c' : Client) : worker_ends turns c = Some ([], c') -> turns = [] /\ c' = c.
Proof.
  destruct turns as [| e turns]; cbn; [by intros [= <-] |]. destruct (ReconnectWorker_turn e c) as [[fin c1] |]; cbn; [| done].
  destruct fin; try done; by destruct (worker_ends turns c1) as [[]|].
Qed.

Lemma last_failed_pending leaked turns c fins c' fin :
  client_ok leaked c -> worker_ends turns c = Some (fins, c') -> last fins = Some fin -> failed fin = true -> pending c' = true.
Proof.
  revert leaked c fins. induction turns as [| e turns IH]; intros leaked c fins Hok; cbn; [by intros [= <- <-] |].
  destruct (turn_spec leaked e c Hok) as (fin1 & c1 & l1 & Et & Hok1 & _ & Ht & _). rewrite Et. cbn [mbind option_bind].
  intros Hw Hl Hf. destruct fin1; [injection Hw as <- <-; by injection Hl as <- | ..].
  all: destruct (worker_ends turns c1) as [[fins1 c2] |] eqn:Ew; cbn in Hw; try discriminate Hw; injection Hw as <- <-.
  all: destruct fins1 as [| f fins1]; [| exact (IH l1 c1 _ Hok1 Ew Hl Hf)].
  all: destruct (worker_ends_nil turns c1 c2 Ew) as [_ ->]; injection Hl as <-; try discriminate Hf; apply Ht.
Qed.

(** ** The backoff *)

Definition backoff_after (cfg : ClientConfig) (n : nat) : Z := Z.min (reconnect_initial_sec cfg * 2 ^ Z.of_nat n) (reconnect_max_sec cfg).

Definition limits_ok (cfg : ClientConfig) : Prop := 0 < reconnect_initial_sec cfg <= reconnect_max_sec cfg /\ reconnect_max_sec cfg < 2 ^ 30.

Lemma backoff_step cfg n : limits_ok cfg -> Z.min (i32 (backoff_after cfg n * 2)) (reconnect_max_sec cfg) = backoff_after cfg (S n).
Proof.
  intros [[H1 H2] H3]. unfold backoff_after. rewrite Nat2Z.inj_succ, Z.pow_succ_r by lia.
  assert (0 < reconnect_initial_sec cfg * 2 ^ Z.of_nat n) by (apply Z.mul_pos_pos; [lia | apply Z.pow_pos_nonneg; lia]).
  replace (reconnect_initial_sec cfg * (2 * 2 ^ Z.of_nat n)) with (reconnect_initial_sec cfg * 2 ^ Z.of_nat n * 2) by ring.
  rewrite i32_id; [lia | unfold in_i32; lia].
Qed.

Lemma backoff_run leaked turns c fins c' n :
  client_ok leaked c -> limits_ok (client_cfg_ c) -> backoff_sec_ c = backoff_after (client_cfg_ c) n -> worker_ends turns c = Some (fins, c') ->
  backoff_sec_ c' = backoff_after (client_cfg_ c) (foldl (fun n fin => if restarted fin then 0%nat else if failed fin then S n else n) n fins).
Proof.
  revert leaked c fins n. induction turns as [| e turns IH]; intros leaked c fins n Hok Hl Hb; cbn; [by intros [= <- <-] |].
  destruct (turn_spec leaked e c Hok) as (fin & c1 & l1 & -> & Hok1 & Hcfg & Ht & _). cbn [mbind option_bind].
  assert (backoff_sec_ c1 = backoff_after (client_cfg_ c) (if restarted fin then 0%nat else if failed fin then S n else n)) as Hb1.
  { assert (reconnect_initial_sec (client_cfg_ c) = backoff_after (client_cfg_ c) 0) as H0 by (unfold backoff_after; destruct Hl as [[] _]; lia).
    rewrite <- Hcfg in *. destruct fin; cbn in Ht |- *; deex; try congruence; rewrite <- backoff_step by done; congruence. }
  intros Hw. destruct fin; [injection Hw as <- <-; exact Hb1 | ..].
  all: destruct (worker_ends turns c1) as [[fins1 c2] |] eqn:Ew; cbn in Hw; try discriminate Hw; injection Hw as <- <-; cbn.
  all: rewrite <- Hcfg; apply (IH l1 c1 fins1); [done | by rewrite Hcfg | by rewrite Hb1, Hcfg | done].
Qed.

(** ** Sessions *)

(** A client as [Start] leaves it. *)
Lemma start_spec cfg (q : option (SafeQueue F)) a :
  exists started c leaked, Start a (GstRtspClient_make cfg q (mkGst 0 ∅)) = Some (started, c) /\ client_ok leaked c /\
    client_cfg_ c = cfg /\ backoff_sec_ c = reconnect_initial_sec cfg /\ worker_joinable c = started /\ shut c = negb started /\
    (size leaked <= timeouts (OpStart a))%nat.
Proof.
  unfold Start. cbn [is_running flags_ GstRtspClient_make]. set (c0 := with_worker _ true).
  destruct (start_receiver_ok ∅ true a c0) as (l & ok & c1 & -> & Hok & (S1 & S2 & S3 & S4 & S5 & S6) & _ & Hz).
  { unfold client_ok. cbn. split; [done | by intros i ?%elem_of_empty]. }
  cbn [mbind option_bind]. cbn [timeouts] in Hz |- *. rewrite size_empty in Hz. destruct ok; cbn [negb].
  - exists true, c1, l. unfold shut. rewrite S1, S3, S5, S6. split_and!; done || lia.
  - exists false. eexists. exists l. split; [done |]. split; [by apply (client_ok_same l c1) |]. cbn. rewrite S1, S5. split_and!; done || lia.
Qed.

(** A session of a client never fails and leaves nothing behind.  However the start,
    the teardowns, the resets and the restarts end, and whatever frames, messages
    and stops come in between, every method returns (no reference of
    GStreamer is given back twice, no thread object is overwritten while joinable); and
    after [Stop] there is no receiver, no worker, and no reference but to the pipelines that
    did not stop in time, at most one for each teardown that ran into its time-out. *)
Theorem session_leaves_nothing cfg (q : option (SafeQueue F)) a turns stop_ok :
  exists started c1 c2 c3 leaked, Start a (GstRtspClient_make cfg q (mkGst 0 ∅)) = Some (started, c1) /\
    ReconnectWorker turns c1 = Some c2 /\ Stop_after_join stop_ok c2 = Some c3 /\
    receiver_ c3 = None /\ worker_joinable c3 = false /\ g_refs (gst_ c3) = abandoned leaked /\
    (size leaked <= timeouts (OpStart a) + sum_list_with turn_timeouts turns + timeouts (OpStop stop_ok))%nat.
Proof.
  destruct (start_spec cfg q a) as (started & c1 & l1 & Hs & Hok1 & _ & _ & _ & _ & Z1).
  destruct (worker_ends_total l1 turns c1 Hok1) as (fins & c2 & l2 & Hw & Hok2 & _ & _ & Z2).
  destruct (stop_receiver_ok l2 stop_ok (with_worker c2 false)) as (l3 & c3 & Hs3 & Hok3 & Hn & (_ & _ & _ & _ & _ & Hj) & Z3); [by apply (client_ok_same l2 c2) |].
  exists started, c1, c2, c3, l3. split; [done |]. split; [by rewrite worker_ends_run, Hw |]. split; [done |].
  split; [done |]. split; [exact Hj |]. unfold client_ok in Hok3. rewrite Hn in Hok3. split; [apply Hok3 | lia].
Qed.

(** C20: the reconnection never gives up.  The worker of a started client runs on until
    it is told to stop; and once a reconnection is requested, by the bus, by the
    watchdog or by a failed attempt, each of its turns is an attempt until one succeeds: a
    turn in which it does nothing comes only after a reset or a restart that worked. *)
Theorem worker_never_gives_up cfg (q : option (SafeQueue F)) a before turns started c1 ends1 c2 :
  Start a (GstRtspClient_make cfg q (mkGst 0 ∅)) = Some (started, c1) -> worker_ends before c1 = Some (ends1, c2) ->
  exists ends c3, worker_ends turns c2 = Some (ends, c3) /\ ReconnectWorker turns c2 = Some c3 /\
    (length ends = length turns \/ shut c3 = true) /\
    (pending c2 = true \/ (exists fin, last ends1 = Some fin /\ failed fin = true) -> forall i, ends !! i = Some Idle ->
      exists j fin, (j < i)%nat /\ ends !! j = Some fin /\ restarted fin = true).
Proof.
  intros Hs Hw1. destruct (start_spec cfg q a) as (st & c & l1 & Hs' & Hok1 & _). rewrite Hs in Hs'. injection Hs' as <- <-.
  destruct (worker_ends_total l1 before c1 Hok1) as (ends1' & c2' & l2 & Hw & Hok2 & _). rewrite Hw1 in Hw. injection Hw as <- <-.
  destruct (worker_ends_total l2 turns c2 Hok2) as (ends & c3 & l3 & Hw3 & _ & _ & Hl & _).
  exists ends, c3. split; [done |]. split; [by rewrite worker_ends_run, Hw3 |]. split; [done |]. intros Hp i Hi.
  apply (pending_run l2 turns c2 ends c3 i Hok2); [| done | done]. destruct Hp as [Hp | (fin & Hlast & Hf)]; [done |].
  exact (last_failed_pending l1 before c1 ends1 c2 fin Hok1 Hw1 Hlast Hf).
Qed.

(** The backoff.  With limits that make sense, the time the worker waits before a restart
    is always the initial one doubled for each failure since the last success, up to the
    maximum; it is nothing when the stream only came to its end.  The doubling never
    overflows. *)
Theorem backoff_law cfg (q : option (SafeQueue F)) a turns e started c1 ends c2 fin c3 w :
  limits_ok cfg -> Start a (GstRtspClient_make cfg q (mkGst 0 ∅)) = Some (started, c1) -> worker_ends turns c1 = Some (ends, c2) ->
  ReconnectWorker_turn e c2 = Some (fin, c3) -> waited fin = Some w ->
  w = 0 \/ w = Z.min (reconnect_initial_sec cfg * 2 ^ Z.of_nat (failures ends)) (reconnect_max_sec cfg).
Proof.
  intros Hl Hs Hw Ht Hwait. destruct (start_spec cfg q a) as (st & c & l1 & Hs' & Hok1 & Hcfg & Hb & _). rewrite Hs in Hs'. injection Hs' as <- <-.
  destruct (worker_ends_total l1 turns c1 Hok1) as (ends' & c2' & l2 & Hw' & Hok2 & Hcfg2 & _). rewrite Hw in Hw'. injection Hw' as <- <-.
  assert (backoff_sec_ c2 = backoff_after cfg (failures ends)) as Hb2.
  { rewrite <- Hcfg. apply (backoff_run l1 turns c1 ends c2 0 Hok1); [by rewrite Hcfg | | done].
    rewrite Hb, Hcfg. unfold backoff_after. destruct Hl as [[] _]. lia. }
  destruct (turn_spec l2 e c2 Hok2) as (fin' & c3' & l3 & Ht' & _ & _ & Hr & _). rewrite Ht in Ht'. injection Ht' as <- <-.
  fold (backoff_after cfg (failures ends)). rewrite <- Hb2.
  destruct fin; cbn in Hwait; try discriminate Hwait; injection Hwait as <-; cbn in Hr; apply Hr.
Qed.

(** The watchdog fires exactly on a stream gone silent.  A turn of the worker does
    nothing if and only if nobody asked for a reconnection and the last frame is younger
    than twelve seconds, or there never was one: a camera that stays
    silent from the beginning is not restarted. *)
Theorem watchdog_exact cfg (q : option (SafeQueue F)) a turns e started c1 ends c2 :
  Start a (GstRtspClient_make cfg q (mkGst 0 ∅)) = Some (started, c1) -> worker_ends turns c1 = Some (ends, c2) ->
  let seen := events c2 (te_wait e) in
  shut c2 = false -> shut seen = false ->
  exists fin c3, ReconnectWorker_turn e c2 = Some (fin, c3) /\
    (fin = Idle <-> pending seen = false /\
       forall r, receiver_ seen = Some r -> 0 < last_frame_ns_ r -> te_now e - last_frame_ns_ r < 12000000000).
Proof.
  intros Hs Hw seen H1 H2. destruct (start_spec cfg q a) as (st & c & l1 & Hs' & Hok1 & _). rewrite Hs in Hs'. injection Hs' as <- <-.
  destruct (worker_ends_total l1 turns c1 Hok1) as (ends' & c2' & l2 & Hw' & Hok2 & _). rewrite Hw in Hw'. injection Hw' as <- <-.
  destruct (turn_spec l2 e c2 Hok2) as (fin & c3 & l3 & Ht & _ & _ & _ & Hi & _). exists fin, c3. split; [done |].
  rewrite (Hi H2 H1), orb_false_iff. fold seen. apply and_iff_compat_l. unfold stale, WATCHDOG_STALE_SEC.
  destruct (receiver_ seen) as [r |]; [| by split].
  split.
  - intros Hst r' [= <-] Hpos. apply andb_false_iff in Hst as [Hst | Hst]; bool_to_prop; [lia |].
    destruct (Z.lt_ge_cases (te_now e - last_frame_ns_ r) 12000000000) as [| Hge]; [done |].
    pose proof (Z.quot_le_mono 12000000000 (te_now e - last_frame_ns_ r) 1000000000 ltac:(lia) Hge) as Hq. change (Z.quot 12000000000 1000000000) with 12 in Hq. lia.
  - intros Hall. destruct (Z.ltb_spec 0 (last_frame_ns_ r)) as [Hpos | _]; [| done]. specialize (Hall r eq_refl Hpos). cbn.
    apply Z.leb_gt.
    destruct (Z.le_gt_cases 0 (te_now e - last_frame_ns_ r)) as [Hage | Hage]; [apply Z.quot_lt_upper_bound; lia |].
    pose proof (Z.quot_le_mono (te_now e - last_frame_ns_ r) 0 1000000000 ltac:(lia) ltac:(lia)) as Hq. change (Z.quot 0 1000000000) with 0 in Hq. lia.
Qed.
End Client.

(** ** Examples *)

(** A camera that reports an error and cannot be reached for two turns, and then can. *)
Definition demo_cfg : ClientConfig := mkClientConfig 1 2 60 10 false.
Definition reachable (ok : bool) : StartAnswers := mkStart (mkBuild true true true) ok true.
Definition demo_turn (ok : bool) (wait : list (ClientEvent (F := unit))) (watch : list (list ClientEvent)) : TurnEnv :=
  mkTurn wait 20000000000 [] [] (mkReset true (reachable ok)) [] true [] (reachable ok) watch.
Definition demo_queue : option (SafeQueue unit) := Some (mkQueue [] false 0 0).
Definition demo_start : GstRtspClient := match Start (reachable true) (GstRtspClient_make demo_cfg demo_queue (mkGst 0 ∅)) with Some (_, c) => c | None => GstRtspClient_make demo_cfg None (mkGst 0 ∅) end.
Definition demo_outage : list TurnEnv := [demo_turn false [EBus BusError] []; demo_turn false [] []].
Definition demo_after : GstRtspClient := match worker_ends demo_outage demo_start with Some (_, c) => c | None => demo_start end.

Lemma demo_start_eq : Start (reachable true) (GstRtspClient_make demo_cfg demo_queue (mkGst 0 ∅)) = Some (true, demo_start).
Proof. vm_compute. reflexivity. Qed.

Lemma demo_after_eq : worker_ends demo_outage demo_start = Some ([StartFailed 2; StartFailed 4], demo_after).
Proof. vm_compute. reflexivity. Qed.

Lemma worker_never_gives_up_witness :
  exists ends c3, worker_ends [demo_turn true [] [[]; [EFrame 15000000000 1 ()]]; demo_turn true [] []] demo_after = Some (ends, c3) /\
    ends = [Flowing 8; Idle] /\ exists j fin, (j < 1)%nat /\ ends !! j = Some fin /\ restarted fin = true.
Proof.
  destruct (worker_never_gives_up demo_cfg demo_queue (reachable true) demo_outage [demo_turn true [] [[]; [EFrame 15000000000 1 ()]]; demo_turn true [] []]
    true demo_start [StartFailed 2; StartFailed 4] demo_after
    demo_start_eq demo_after_eq) as (ends & c3 & H1 & _ & _ & H2).
  exists ends, c3. split; [done |]. assert (ends = [Flowing 8; Idle]) as -> by (vm_compute in H1; congruence).
  split; [done |]. apply H2; [left; vm_compute; reflexivity | reflexivity].
Defined.

Lemma backoff_law_witness : 8 = 0 \/ 8 = Z.min (2 * 2 ^ Z.of_nat 2) 60.
Proof.
  eapply (backoff_law demo_cfg demo_queue (reachable true) demo_outage (demo_turn true [] [[]; [EFrame 15000000000 1 ()]]) true demo_start
    [StartFailed 2; StartFailed 4] demo_after (Flowing 8)); 
    [split; cbn; lia | exact demo_start_eq | exact demo_after_eq | vm_compute; reflexivity | reflexivity].
Defined.

(** The first frame came at 5 s; at 20 s the watchdog acts, with a frame at 9 s it does not. *)
Lemma watchdog_exact_witness :
  (exists fin c, ReconnectWorker_turn (demo_turn true [EFrame 5000000000 1 ()] []) demo_start = Some (fin, c) /\ fin <> Idle) /\
  (exists c, ReconnectWorker_turn (demo_turn true [EFrame 9000000000 1 ()] []) demo_start = Some (Idle, c)).
Proof.
  split.
  - destruct (watchdog_exact demo_cfg demo_queue (reachable true) [] (demo_turn true [EFrame 5000000000 1 ()] []) true demo_start [] demo_start
      demo_start_eq eq_refl eq_refl eq_refl) as (fin & c & H1 & H2). exists fin, c. split; [done |]. intros [_ H]%H2.
    specialize (H (default (GstRtspReceiver_make false) (receiver_ (events demo_start [EFrame 5000000000 1 ()])))).
    vm_compute in H. by specialize (H eq_refl eq_refl).
  - destruct (watchdog_exact demo_cfg demo_queue (reachable true) [] (demo_turn true [EFrame 9000000000 1 ()] []) true demo_start [] demo_start
      demo_start_eq eq_refl eq_refl eq_refl) as (fin & c & H1 & H2). assert (fin = Idle) as ->; [| by exists c].
    apply H2. split; [reflexivity |]. intros r Hr _. vm_compute in Hr. injection Hr as <-. reflexivity.
Defined.
