(* ===== verification/ReplyDispatcher.v ===== *)
(** * Replies by request

    [BasicLibs/core/structure/ReplyDispatcher.h]: a table from the UUID of a request to its
    reply, split into buckets with a lock each.  Entries are shared objects of a heap:
    a thread keeps its entry when the table forgets it.  The methods are made of the
    critical sections of the code; [pc_step] interleaves them.  The cleaner
    ([ReplyDispatcherWithCleaner.h]) calls [remove_expired] from time to time.  What
    [std::hash] gives and what a reply is after its value has been moved away are parameters. *)

From stdpp Require Import gmap list.
From S2P Require Import Prelude.
Open Scope Z_scope.
Open Scope list_scope.

Section Dispatcher.
Context {K : Type} `{Countable K} {T : Type}.
Context (hash : K -> Z) (moved : T -> T).

Record ReplyEntry := mkEntry { data : option T; created_time : time_point }.

Record ReplyDispatcher := mkDispatcher { _buckets : list (gmap K nat); heap : list ReplyEntry }.

Definition ReplyDispatcher_make (shard_count : nat) : ReplyDispatcher := mkDispatcher (replicate shard_count ∅) [].

Definition _get_bucket (d : ReplyDispatcher) (uuid : K) : nat := Z.to_nat (hash uuid mod Z.of_nat (length (_buckets d))).

Definition table (d : ReplyDispatcher) (uuid : K) : gmap K nat := default ∅ (_buckets d !! _get_bucket d uuid).

(** ** Critical sections *)

(** [try_emplace] of a new entry. *)
Definition enter (now : time_point) (uuid : K) (d : ReplyDispatcher) : nat * ReplyDispatcher :=
  match table d uuid !! uuid with
  | Some e => (e, d)
  | None =>
      let e := length (heap d) in
      (e, mkDispatcher (alter <[uuid := e]> (_get_bucket d uuid) (_buckets d)) (heap d ++ [mkEntry None now]))
  end.

Definition set_data (e : nat) (v : option T) (d : ReplyDispatcher) : ReplyDispatcher :=
  mkDispatcher (_buckets d) (alter (fun entry => mkEntry v (created_time entry)) e (heap d)).

(** A move out of an [optional] leaves it engaged, with a value moved from. *)
Definition take_data (e : nat) (d : ReplyDispatcher) : option (T * ReplyDispatcher) :=
  match heap d !! e ≫= data with
  | Some v => Some (v, set_data e (Some (moved v)) d)
  | None => None
  end.

Definition erase (uuid : K) (d : ReplyDispatcher) : ReplyDispatcher :=
  mkDispatcher (alter (delete uuid) (_get_bucket d uuid) (_buckets d)) (heap d).

(** Empties a bucket; the entries it had. *)
Definition clear_bucket (i : nat) (d : ReplyDispatcher) : list nat * ReplyDispatcher :=
  ((map_to_list (default ∅ (_buckets d !! i))).*2, mkDispatcher (<[i := ∅]> (_buckets d)) (heap d)).

Definition expire_bucket (now expiration : Z) (i : nat) (d : ReplyDispatcher) : ReplyDispatcher :=
  let kept e := match heap d !! e with Some entry => now - created_time entry <=? expiration | None => true end in
  mkDispatcher (alter (filter (fun ue => kept ue.2 = true)) i (_buckets d)) (heap d).

(** ** Methods, when no other thread intervenes *)

Definition set_reply (now : time_point) (uuid : K) (reply_data : T) (d : ReplyDispatcher) : ReplyDispatcher :=
  let '(e, d) := enter now uuid d in set_data e (Some reply_data) d.

(** Nothing arrives while it waits. *)
Definition wait_and_get (now : time_point) (uuid : K) (d : ReplyDispatcher) : option T * ReplyDispatcher :=
  let '(e, d) := enter now uuid d in
  match take_data e d with
  | Some (v, d) => (Some v, erase uuid d)
  | None => (None, d)
  end.

Definition terminate (d : ReplyDispatcher) : ReplyDispatcher :=
  foldl (fun d i => let '(es, d) := clear_bucket i d in foldl (fun d e => set_data e None d) d es) d (seq 0 (length (_buckets d))).

Definition is_exist_in_entry (uuid : K) (d : ReplyDispatcher) : bool := bool_decide (is_Some (table d uuid !! uuid)).

Definition remove_expired (now expiration : Z) (d : ReplyDispatcher) : ReplyDispatcher :=
  foldl (fun d i => expire_bucket now expiration i d) d (seq 0 (length (_buckets d))).

Definition total_size (d : ReplyDispatcher) : nat := sum_list_with size (_buckets d).

Definition remove (uuid : K) (d : ReplyDispatcher) : ReplyDispatcher :=
  match table d uuid !! uuid with Some _ => erase uuid d | None => d end.

(** ** The cleaner *)

(** Times in milliseconds; the clock of the entries is taken in milliseconds too. *)
Record ReplyDispatcherWithCleaner := mkWithCleaner {
  dispatcher_ : ReplyDispatcher;
  expiration_time_ms_ : Z;
  interval_time_ms_ : Z
}.

Definition StartAutoCleanup (expiration_ms interval_ms : Z) (c : ReplyDispatcherWithCleaner) : ReplyDispatcherWithCleaner :=
  mkWithCleaner (dispatcher_ c) expiration_ms (if interval_ms <? 100 then 100 else interval_ms).

(** A turn of the cleaner's loop; [running]: the flag before the turn and after the wait.  The
    result says whether it goes on. *)
Definition CleanupRunner_iteration (running running_after_wait : bool) (now : time_point) (c : ReplyDispatcherWithCleaner)
    : bool * ReplyDispatcherWithCleaner :=
  if running then
    (running_after_wait, mkWithCleaner (remove_expired now (expiration_time_ms_ c) (dispatcher_ c)) (expiration_time_ms_ c) (interval_time_ms_ c))
  else (false, c).

(** ** Threads *)

Inductive Call := Setting (uuid : K) (v : T) | Getting (uuid : K) | Removing (uuid : K) | Terminating | Expiring (expiration : Z).

Inductive Pc :=
| Begin (c : Call)
| SetPut (uuid : K) (v : T) (e : nat)
| GetWait (uuid : K) (e : nat)
| GetErase (uuid : K) (v : T)
| TermBucket (i : nat)
| TermNotify (i : nat) (es : list nat)
| ExpBucket (now expiration : Z) (i : nat)
| Got (uuid : K) (answer : option T)
| Finished.

(** A section of a thread, at the time [now].  A wait that has timed out looks at the
    entry once more. *)
Inductive pc_step (now : time_point) : ReplyDispatcher -> Pc -> ReplyDispatcher -> Pc -> Prop :=
| set_enter d uuid v e d' : enter now uuid d = (e, d') -> pc_step now d (Begin (Setting uuid v)) d' (SetPut uuid v e)
| set_put d uuid v e : pc_step now d (SetPut uuid v e) (set_data e (Some v) d) Finished
| get_enter d uuid e d' : enter now uuid d = (e, d') -> pc_step now d (Begin (Getting uuid)) d' (GetWait uuid e)
| get_take d uuid e v d' : take_data e d = Some (v, d') -> pc_step now d (GetWait uuid e) d' (GetErase uuid v)
| get_timeout d uuid e : take_data e d = None -> pc_step now d (GetWait uuid e) d (Got uuid None)
| get_erase d uuid v : pc_step now d (GetErase uuid v) (erase uuid d) (Got uuid (Some v))
| remove_step d uuid : pc_step now d (Begin (Removing uuid)) (remove uuid d) Finished
| term_start d : pc_step now d (Begin Terminating) d (TermBucket 0)
| term_bucket d i es d' : (i < length (_buckets d))%nat -> clear_bucket i d = (es, d') -> pc_step now d (TermBucket i) d' (TermNotify i es)
| term_notify d i e es : pc_step now d (TermNotify i (e :: es)) (set_data e None d) (TermNotify i es)
| term_next d i : pc_step now d (TermNotify i []) d (TermBucket (S i))
| term_end d i : (length (_buckets d) <= i)%nat -> pc_step now d (TermBucket i) d Finished
| exp_start d expiration : pc_step now d (Begin (Expiring expiration)) d (ExpBucket now expiration 0)
| exp_bucket d start expiration i :
    (i < length (_buckets d))%nat -> pc_step now d (ExpBucket start expiration i) (expire_bucket start expiration i d) (ExpBucket start expiration (S i))
| exp_end d start expiration i : (length (_buckets d) <= i)%nat -> pc_step now d (ExpBucket start expiration i) d Finished.

Inductive step : ReplyDispatcher * list Pc -> ReplyDispatcher * list Pc -> Prop :=
| step_thread now j d p pool d' p' : pool !! j = Some p -> pc_step now d p d' p' -> step (d, pool) (d', <[j := p']> pool).

(** From a new dispatcher with these calls still to come, in any order. *)
Definition reachable (shard_count : nat) (calls : list Call) : ReplyDispatcher * list Pc -> Prop :=
  rtc step (ReplyDispatcher_make shard_count, Begin <$> calls).
End Dispatcher.
