(* ===== verification/ReplyDispatcherProps.v ===== *)
(** * Properties of the reply dispatcher

    Used by one thread, the dispatcher is a plain table, whatever the number of buckets
    and the hash; used by many, it never mixes up replies. *)

From stdpp Require Import gmap list.
From S2P Require Import Prelude ReplyDispatcher.
Open Scope Z_scope.
Open Scope list_scope.

Section Props.
Context {K : Type} `{Countable K} {T : Type}.
Context (hash : K -> Z) (moved : T -> T).
Abbreviation Dispatcher := (ReplyDispatcher (K := K) (T := T)).
Abbreviation table := (table hash).
Abbreviation _get_bucket := (_get_bucket hash).

(** ** Buckets *)

Lemma get_bucket_lt (d : Dispatcher) u : _buckets d <> [] -> (_get_bucket d u < length (_buckets d))%nat.
Proof.
  intros Hn. unfold ReplyDispatcher._get_bucket. destruct (_buckets d) as [| b bs]; [done |].
  pose proof (Z.mod_pos_bound (hash u) (Z.of_nat (length (b :: bs))) ltac:(cbn [length]; lia)). lia.
Qed.

Definition find (d : Dispatcher) (u : K) : option nat := table d u !! u.

(** A change of the bucket of [u]. *)
Lemma table_alter (d : Dispatcher) u u' f (h : list (ReplyEntry (T := T))) :
  _buckets d <> [] ->
  table (mkDispatcher (alter f (_get_bucket d u) (_buckets d)) h) u' =
    if decide (_get_bucket d u' = _get_bucket d u) then f (table d u') else table d u'.
Proof.
  intros Hn. set (d' := mkDispatcher _ h).
  assert (_get_bucket d' u' = _get_bucket d u') as Hb by (unfold ReplyDispatcher._get_bucket, d'; cbn; by rewrite length_alter).
  unfold ReplyDispatcher.table. rewrite Hb. unfold d'. cbn [_buckets]. destruct (decide _) as [E | E].
  - rewrite E, list_lookup_alter_eq. by destruct (lookup_lt_is_Some_2 (_buckets d) (_get_bucket d u) (get_bucket_lt d u Hn)) as [b ->].
  - by rewrite list_lookup_alter_ne.
Qed.

(** ** The abstract table *)

Record placed (d : Dispatcher) : Prop := {
  pl_some : _buckets d <> [];
  pl_bucket i b u e : _buckets d !! i = Some b -> b !! u = Some e -> i = _get_bucket d u
}.

(** What the table says, entry by entry. *)
Abbreviation Spec := (gmap K (option T * time_point)).

Record refines (d : Dispatcher) (M : Spec) : Prop := {
  rf_placed : placed d;
  rf_value u : M !! u = find d u ≫= fun e => (fun en => (data en, created_time en)) <$> heap d !! e;
  rf_alloc u e : find d u = Some e -> (e < length (heap d))%nat;
  rf_inj u u' e : find d u = Some e -> find d u' = Some e -> u = u'
}.

Lemma placed_alter (d : Dispatcher) u f (h : list (ReplyEntry (T := T))) :
  placed d -> (forall b u' e, f b !! u' = Some e -> u' = u \/ b !! u' = Some e) -> placed (mkDispatcher (alter f (_get_bucket d u) (_buckets d)) h).
Proof.
  intros [Hn Hp] Hf. assert (forall u', _get_bucket (mkDispatcher (alter f (_get_bucket d u) (_buckets d)) h) u' = _get_bucket d u') as Hb.
  { intros u'. unfold ReplyDispatcher._get_bucket. cbn. by rewrite length_alter. }
  split; cbn [_buckets].
  - intros E. apply (f_equal length) in E. rewrite length_alter in E. by destruct (_buckets d).
  - intros i b u' e Hi He. rewrite Hb. destruct (decide (i = _get_bucket d u)) as [-> | Hne].
    + rewrite list_lookup_alter_eq in Hi. apply fmap_Some in Hi as (b0 & Hi & ->). destruct (Hf _ _ _ He) as [-> | He']; [done | by eapply Hp].
    + rewrite list_lookup_alter_ne in Hi by done. by eapply Hp.
Qed.

Lemma placed_filter (d : Dispatcher) i (P : K * nat -> Prop) `{forall x, Decision (P x)} (h : list (ReplyEntry (T := T))) :
  placed d -> placed (mkDispatcher (alter (filter P) i (_buckets d)) h).
Proof.
  intros [Hn Hp]. split; cbn [_buckets].
  - intros E. apply (f_equal length) in E. rewrite length_alter in E. by destruct (_buckets d).
  - intros j b u e Hj He. replace (_get_bucket _ u) with (_get_bucket d u) by (unfold ReplyDispatcher._get_bucket; cbn; by rewrite length_alter).
    rewrite list_lookup_alter in Hj. destruct (decide (i = j)) as [-> | _]; [| by eapply Hp].
    apply fmap_Some in Hj as (b0 & Hj & ->). apply map_lookup_filter_Some in He as [He _]. by eapply Hp.
Qed.

Lemma find_alter (d : Dispatcher) u u' f o (h : list (ReplyEntry (T := T))) :
  placed d -> (forall b, f b !! u = o) -> (forall b u', u' <> u -> f b !! u' = b !! u') ->
  find (mkDispatcher (alter f (_get_bucket d u) (_buckets d)) h) u' = if decide (u' = u) then o else find d u'.
Proof.
  intros [Hn _] Hu Hne. unfold find. rewrite table_alter by done. destruct (decide (u' = u)) as [-> | Hu'].
  - by rewrite decide_True, Hu.
  - destruct (decide _); [by apply Hne | done].
Qed.

Lemma find_insert (d : Dispatcher) u u' e (h : list (ReplyEntry (T := T))) :
  placed d -> find (mkDispatcher (alter <[u := e]> (_get_bucket d u) (_buckets d)) h) u' = if decide (u' = u) then Some e else find d u'.
Proof. intros Hp. apply find_alter; [done | intros b; apply lookup_insert_eq | intros b v Hv; by apply lookup_insert_ne]. Qed.

Lemma find_delete (d : Dispatcher) u u' (h : list (ReplyEntry (T := T))) :
  placed d -> find (mkDispatcher (alter (delete u) (_get_bucket d u) (_buckets d)) h) u' = if decide (u' = u) then None else find d u'.
Proof. intros Hp. apply find_alter; [done | intros b; apply lookup_delete_eq | intros b v Hv; by apply lookup_delete_ne]. Qed.

Definition enter_spec (now : time_point) (u : K) (M : Spec) : Spec := match M !! u with Some _ => M | None => <[u := (None, now)]> M end.

Lemma enter_refines now u (d d' : Dispatcher) M e :
  refines d M -> enter hash now u d = (e, d') -> refines d' (enter_spec now u M) /\ find d' u = Some e.
Proof.
  intros [Hp Hv Ha Hi]. unfold enter, enter_spec. fold (find d u). rewrite (Hv u). destruct (find d u) as [e' |] eqn:Ef; intros [= <- <-].
  - cbn [mbind option_bind]. destruct (lookup_lt_is_Some_2 (heap d) e' (Ha u e' Ef)) as [en ->]. by split.
  - cbn [mbind option_bind]. split; [| by rewrite find_insert, decide_True]. split.
    + apply placed_alter; [done |]. intros b u' e' He. destruct (decide (u' = u)) as [-> | Hne]; [by left |]. right. by rewrite lookup_insert_ne in He.
    + intros u'. rewrite find_insert by done. cbn [heap]. destruct (decide (u' = u)) as [-> | Hne].
      * rewrite lookup_insert_eq. cbn [mbind option_bind]. by rewrite list_lookup_middle.
      * rewrite lookup_insert_ne by done. rewrite Hv. destruct (find d u') as [e' |] eqn:Ef'; [| done]. cbn [mbind option_bind].
        by rewrite lookup_app_l by (by eapply Ha).
    + intros u' e'. rewrite find_insert by done. cbn [heap]. rewrite length_app. cbn. destruct (decide _); [intros [= <-]; lia |].
      intros Hf%Ha. lia.
    + intros u1 u2 e'. rewrite !find_insert by done. destruct (decide (u1 = u)) as [-> |], (decide (u2 = u)) as [-> |]; try done.
      * intros [= <-] Hf%Ha. lia.
      * intros Hf%Ha [= <-]. lia.
      * apply Hi.
Qed.

Lemma set_data_refines (d : Dispatcher) M u e v :
  refines d M -> find d u = Some e -> refines (set_data e v d) (alter (fun x => (v, x.2)) u M).
Proof.
  intros [Hp Hv Ha Hi] Hf. split.
  - by destruct Hp.
  - intros u'. change (find (set_data e v d) u') with (find d u'). cbn [set_data heap]. destruct (decide (u' = u)) as [-> | Hne].
    + rewrite lookup_alter_eq, Hv, Hf. cbn [mbind option_bind]. rewrite list_lookup_alter_eq. by destruct (heap d !! e).
    + rewrite lookup_alter_ne by done. rewrite Hv. destruct (find d u') as [e' |] eqn:Hf'; [| done]. cbn [mbind option_bind].
      rewrite list_lookup_alter_ne; [done |]. intros <-. apply Hne. by eapply Hi.
  - intros u' e' Hf'. cbn [set_data heap]. rewrite length_alter. by eapply Ha.
  - exact Hi.
Qed.

Lemma erase_refines (d : Dispatcher) M u : refines d M -> refines (erase hash u d) (delete u M).
Proof.
  intros [Hp Hv Ha Hi]. unfold erase. split.
  - apply placed_alter; [done |]. intros b u' e' He. right. by apply lookup_delete_Some in He as [_ He].
  - intros u'. rewrite find_delete by done. destruct (decide (u' = u)) as [-> | Hne]; [by rewrite lookup_delete_eq |]. by rewrite lookup_delete_ne, Hv.
  - intros u' e'. rewrite find_delete by done. destruct (decide _); [done | apply Ha].
  - intros u1 u2 e'. rewrite !find_delete by done. destruct (decide _), (decide _); try done. apply Hi.
Qed.

(** *** Loops over the buckets *)

Lemma foldl_set_data_buckets (es : list nat) (d : Dispatcher) : _buckets (foldl (fun d e => set_data e None d) d es) = _buckets d.
Proof. revert d. induction es as [| e es IH]; intros d; cbn; [done |]. by rewrite IH. Qed.

Lemma terminate_buckets (d : Dispatcher) : _buckets (terminate d) = replicate (length (_buckets d)) ∅.
Proof.
  unfold terminate. enough (forall n k (d : Dispatcher) rest, _buckets d = replicate k ∅ ++ rest -> length rest = n ->
    _buckets (foldl (fun d i => let '(es, d) := clear_bucket i d in foldl (fun d e => set_data e None d) d es) d (seq k n)) = replicate (k + n) ∅) as Hgo.
  { apply (Hgo _ 0%nat d (_buckets d)); done. }
  clear d. induction n as [| n IH]; intros k d rest Hb Hl; cbn [seq foldl].
  - apply nil_length_inv in Hl as ->. by rewrite Hb, app_nil_r, Nat.add_0_r.
  - destruct rest as [| b rest]; [done |]. cbn in Hl. unfold clear_bucket at 2. rewrite <- Nat.add_succ_comm. apply (IH _ _ rest); [| lia].
    rewrite foldl_set_data_buckets. cbn [_buckets]. rewrite Hb, replicate_S_end, <- app_assoc.
    rewrite insert_app_r_alt by (rewrite length_replicate; lia). by rewrite length_replicate, Nat.sub_diag.
Qed.

Lemma terminate_refines (d : Dispatcher) M : refines d M -> refines (terminate d) ∅.
Proof.
  intros [[Hn _] _ _ _].
  assert (forall u, find (terminate d) u = None) as Hf.
  { intros u. unfold find, ReplyDispatcher.table. rewrite terminate_buckets. destruct (replicate _ _ !! _) as [b |] eqn:E; [| done].
    by apply lookup_replicate in E as [-> _]. }
  split.
  - split; [rewrite terminate_buckets; by destruct (_buckets d) |]. intros i b u e Hi He. rewrite terminate_buckets in Hi.
    by apply lookup_replicate in Hi as [-> _].
  - intros u. by rewrite Hf.
  - intros u e. by rewrite Hf.
  - intros u u' e. by rewrite Hf.
Qed.

(** What is kept when [remove_expired] runs at [now]. *)
Definition fresh (now expiration : Z) (x : option T * time_point) : bool := now - x.2 <=? expiration.

Lemma remove_expired_buckets now expiration (d : Dispatcher) :
  remove_expired now expiration d =
    mkDispatcher ((fun b => filter (fun ue => match heap d !! ue.2 with Some en => now - created_time en <=? expiration | None => true end = true) b) <$> _buckets d) (heap d).
Proof.
  unfold remove_expired. enough (forall rest pre, let f := fun b : gmap K nat =>
      filter (fun ue => match heap d !! ue.2 with Some en => now - created_time en <=? expiration | None => true end = true) b in
    foldl (fun d i => expire_bucket now expiration i d) (mkDispatcher (pre ++ rest) (heap d)) (seq (length pre) (length rest)) = mkDispatcher (pre ++ (f <$> rest)) (heap d)) as Hgo.
  { pose proof (Hgo (_buckets d) []) as H1. cbn in H1. by destruct d. }
  induction rest as [| b rest IH]; intros pre f; cbn [length seq foldl]; [done |].
  unfold expire_bucket at 2. cbn [_buckets heap]. rewrite alter_app_r_alt by lia. rewrite Nat.sub_diag. cbn [alter list_alter].
  specialize (IH (pre ++ [f b])). cbn zeta in IH. rewrite length_app, Nat.add_1_r in IH. rewrite cons_middle, app_assoc. fold f.
  etransitivity; [exact IH |]. by rewrite <- app_assoc.
Qed.

Lemma remove_expired_refines now expiration (d : Dispatcher) M :
  refines d M -> refines (remove_expired now expiration d) (filter (fun ux => fresh now expiration ux.2 = true) M).
Proof.
  intros [Hp Hv Ha Hi]. rewrite remove_expired_buckets. set (f := fun b : gmap K nat => filter _ b).
  set (d' := mkDispatcher (f <$> _buckets d) (heap d)).
  assert (forall u, _get_bucket d' u = _get_bucket d u) as Hb by (intros u; unfold ReplyDispatcher._get_bucket, d'; cbn; by rewrite length_fmap).
  assert (forall u e, find d' u = Some e <-> find d u = Some e /\ match heap d !! e with Some en => now - created_time en <=? expiration | None => true end = true) as Hf.
  { intros u e. unfold find, ReplyDispatcher.table. rewrite Hb. unfold d'. cbn [_buckets]. rewrite list_lookup_fmap.
    destruct (_buckets d !! _) as [b |]; cbn; [apply map_lookup_filter_Some | by split; [| intros []]]. }
  split.
  - destruct Hp as [Hn Hp]. split; [unfold d'; cbn; by destruct (_buckets d) |]. intros i b u e Hib He. rewrite Hb. unfold d' in Hib. cbn in Hib.
    rewrite list_lookup_fmap in Hib. apply fmap_Some in Hib as (b0 & Hib & ->). apply map_lookup_filter_Some in He as [He _]. by eapply Hp.
  - intros u. apply option_eq. intros [v t]. rewrite map_lookup_filter_Some. cbn [snd]. unfold fresh. cbn [snd]. rewrite Hv. split.
    + intros [Hx Hfresh]. destruct (find d u) as [e |] eqn:Ef; [| done]. cbn [mbind option_bind] in Hx.
      destruct (heap d !! e) as [en |] eqn:Ee; [| done]. injection Hx as <- <-. rewrite (proj2 (Hf u e)); [cbn; by rewrite Ee |]. by rewrite Ee.
    + destruct (find d' u) as [e |] eqn:Ef; [| done]. apply Hf in Ef as [-> Hk]. cbn [mbind option_bind]. unfold d'. cbn [heap].
      destruct (heap d !! e) as [en |]; [| done]. intros [= <- <-]. done.
  - intros u e [Hf1 _]%Hf. by eapply Ha.
  - intros u u' e [H1 _]%Hf [H2 _]%Hf. by eapply Hi.
Qed.

(** *** Sizes *)

Lemma union_list_lookup (bs : list (gmap K nat)) u e : (⋃ bs) !! u = Some e -> exists i b, bs !! i = Some b /\ b !! u = Some e.
Proof.
  induction bs as [| b bs IH]; cbn; [done |]. intros [Hb | [_ Hb]]%lookup_union_Some_raw; [by exists 0%nat, b |].
  destruct (IH Hb) as (i & b' & ? & ?). by exists (S i), b'.
Qed.

Lemma sizes_union (bs : list (gmap K nat)) (g : K -> nat) k :
  (forall i b u e, bs !! i = Some b -> b !! u = Some e -> g u = (k + i)%nat) -> sum_list_with size bs = size (⋃ bs).
Proof.
  revert k. induction bs as [| b bs IH]; intros k Hg; cbn; [by rewrite map_size_empty |].
  rewrite map_size_disj_union; [by rewrite (IH (S k)) by (intros i b' u e Hi He; rewrite (Hg (S i) b' u e Hi He); lia) |].
  apply map_disjoint_spec. intros u e e' He He'. pose proof (Hg 0%nat b u e eq_refl He) as E1.
  apply union_list_lookup in He' as (i & b' & Hi & He'). pose proof (Hg (S i) b' u e' Hi He'). lia.
Qed.

Lemma union_list_some (bs : list (gmap K nat)) i b u : bs !! i = Some b -> is_Some (b !! u) -> is_Some ((⋃ bs) !! u).
Proof.
  revert i. induction bs as [| b0 bs IH]; intros i Hi Hb; [done |]. cbn. rewrite lookup_union_is_Some. destruct i as [| i]; [injection Hi as ->; by left |].
  right. by eapply IH.
Qed.

Lemma total_size_refines (d : Dispatcher) M : refines d M -> total_size d = size M.
Proof.
  intros [[Hn Hp] Hv Ha _]. unfold total_size.
  rewrite (sizes_union (_buckets d) (fun u => _get_bucket d u) 0) by (intros i b u e Hi He; by rewrite <- (Hp i b u e Hi He)).
  rewrite <- !(size_dom (D := gset K)). f_equal. apply set_eq. intros u. rewrite !elem_of_dom, Hv. unfold find, ReplyDispatcher.table.
  destruct (lookup_lt_is_Some_2 (_buckets d) (_get_bucket d u) (get_bucket_lt d u Hn)) as [b Hb]. split.
  - intros [e He]. apply union_list_lookup in He as (i & b' & Hi & He). rewrite (Hp i b' u e Hi He) in Hi.
    assert (find d u = Some e) as Hf by (unfold find, ReplyDispatcher.table; by rewrite Hi). rewrite Hi. cbn. rewrite He. cbn.
    destruct (lookup_lt_is_Some_2 (heap d) e (Ha u e Hf)) as [en ->]. by eexists.
  - rewrite Hb. cbn. intros [x Hx]. apply (union_list_some (_buckets d) _ b u Hb). by destruct (b !! u).
Qed.

(** ** One thread *)

Inductive Op := OSet (now : time_point) (u : K) (v : T) | OGet (now : time_point) (u : K) | ORemove (u : K) | OTerminate
  | OExpire (now expiration : Z) | OExist (u : K) | OSize.

Inductive Answer := Nothing | Reply (v : option T) | Exists (b : bool) | Size (n : nat).

Definition run_op (d : Dispatcher) (op : Op) : Answer * Dispatcher :=
  match op with
  | OSet now u v => (Nothing, set_reply hash now u v d)
  | OGet now u => let '(v, d) := wait_and_get hash moved now u d in (Reply v, d)
  | ORemove u => (Nothing, remove hash u d)
  | OTerminate => (Nothing, terminate d)
  | OExpire now expiration => (Nothing, remove_expired now expiration d)
  | OExist u => (Exists (is_exist_in_entry hash u d), d)
  | OSize => (Size (total_size d), d)
  end.

(** The same on a plain table: a request has its reply, and the time at which it was first
    heard of. *)
Definition run_spec (M : Spec) (op : Op) : Answer * Spec :=
  match op with
  | OSet now u v => (Nothing, alter (fun x => (Some v, x.2)) u (enter_spec now u M))
  | OGet now u =>
      match M !! u with
      | Some (Some v, _) => (Reply (Some v), delete u M)
      | _ => (Reply None, enter_spec now u M)
      end
  | ORemove u => (Nothing, delete u M)
  | OTerminate => (Nothing, ∅)
  | OExpire now expiration => (Nothing, filter (fun ux => fresh now expiration ux.2 = true) M)
  | OExist u => (Exists (bool_decide (is_Some (M !! u))), M)
  | OSize => (Size (size M), M)
  end.

Fixpoint run_ops {S} (run : S -> Op -> Answer * S) (s : S) (ops : list Op) : list Answer :=
  match ops with
  | [] => []
  | op :: ops => let '(a, s) := run s op in a :: run_ops run s ops
  end.

Lemma find_some_iff (d : Dispatcher) M u : refines d M -> is_Some (M !! u) <-> is_Some (find d u).
Proof.
  intros [_ Hv Ha _]. rewrite Hv. destruct (find d u) as [e |] eqn:Ef; [| by split; intros []]. cbn [mbind option_bind].
  destruct (lookup_lt_is_Some_2 (heap d) e (Ha u e Ef)) as [en ->]. split; intros _; by eexists.
Qed.

Lemma find_erase (d : Dispatcher) u e v : placed d -> erase hash u (set_data e v d) = set_data e v (erase hash u d).
Proof. done. Qed.

Lemma run_op_refines (d : Dispatcher) M op :
  refines d M -> fst (run_op d op) = fst (run_spec M op) /\ refines (snd (run_op d op)) (snd (run_spec M op)).
Proof.
  intros HR. destruct op as [now u v | now u | u | | now expiration | u |]; cbn [run_op run_spec].
  - unfold set_reply. destruct (enter hash now u d) as [e d'] eqn:Ee. destruct (enter_refines now u d d' M e HR Ee) as [HR' Hf].
    split; [done |]. by apply set_data_refines.
  - unfold wait_and_get. destruct (enter hash now u d) as [e d'] eqn:Ee. destruct (enter_refines now u d d' M e HR Ee) as [HR' Hf].
    pose proof (rf_value _ _ HR' u) as Hv. rewrite Hf in Hv. cbn [mbind option_bind] in Hv.
    destruct (lookup_lt_is_Some_2 (heap d') e (rf_alloc _ _ HR' u e Hf)) as [en Hen]. rewrite Hen in Hv. cbn in Hv. unfold take_data. rewrite Hen. cbn.
    assert (enter_spec now u M !! u = Some (data en, created_time en) -> forall v t, data en = Some v -> M !! u = Some (Some v, created_time en) /\ (t = tt)) as Hin.
    { unfold enter_spec. destruct (M !! u) as [x |] eqn:Em; [| rewrite lookup_insert_eq; intros [= E1 _] v [] E2; congruence].
      intros E v [] Ev. split; [congruence | done]. }
    destruct (data en) as [v |] eqn:Ed.
    + destruct (Hin Hv v tt eq_refl) as [Hm _]. rewrite Hm. split; [done |]. cbn [snd].
      assert (enter_spec now u M = M) as Hsame by (unfold enter_spec; by rewrite Hm). rewrite Hsame in HR'.
      pose proof (erase_refines _ _ u (set_data_refines d' M u e (Some (moved v)) HR' Hf)) as HR2.
      by rewrite delete_alter_eq in HR2.
    + assert (match M !! u with Some (Some v, _) => (Reply (Some v), delete u M) | _ => (Reply None, enter_spec now u M) end = (Reply None, enter_spec now u M)) as ->; [| done].
      unfold enter_spec in *. destruct (M !! u) as [[[v |] t] |] eqn:Em; try done. rewrite Em in Hv. congruence.
  - unfold remove. fold (find d u). pose proof (find_some_iff d M u HR) as Hiff. destruct (find d u) as [e |]; (split; [done |]); cbn [snd]; [by apply erase_refines |].
    rewrite delete_id; [done |]. destruct (M !! u); [| done]. destruct Hiff as [Hiff _]. by destruct Hiff.
  - split; [done |]. by eapply terminate_refines.
  - split; [done |]. by apply remove_expired_refines.
  - split; [| done]. cbn. f_equal. apply bool_decide_ext. symmetry. by apply find_some_iff.
  - split; [| done]. cbn. f_equal. by apply total_size_refines.
Qed.

Lemma make_refines n : (0 < n)%nat -> refines (ReplyDispatcher_make n) ∅.
Proof.
  intros Hn. assert (forall u, find (ReplyDispatcher_make n) u = None) as Hf.
  { intros u. unfold find, ReplyDispatcher.table, ReplyDispatcher_make. cbn [_buckets]. destruct (replicate _ _ !! _) as [b |] eqn:E; [| done].
    by apply lookup_replicate in E as [-> _]. }
  split; [split; cbn | ..].
  - by destruct n; [lia |].
  - intros i b u e Hi He. by apply lookup_replicate in Hi as [-> _].
  - intros u. by rewrite Hf.
  - intros u e. by rewrite Hf.
  - intros u u' e. by rewrite Hf.
Qed.

(** C23: the dispatcher is a table.  Used by one thread, it answers as a
    plain map from requests to replies does, whatever the number of buckets, the hash and
    the order of the calls: the split into buckets cannot be seen. *)
Theorem sharding_transparent n ops :
  (0 < n)%nat -> run_ops run_op (ReplyDispatcher_make n) ops = run_ops run_spec ∅ ops.
Proof.
  intros Hn. assert (forall ops d M, refines d M -> run_ops run_op d ops = run_ops run_spec M ops) as Hgo; [| by apply Hgo, make_refines].
  clear ops. induction ops as [| op ops IH]; intros d M HR; cbn; [done |]. destruct (run_op_refines d M op HR) as [Ha HR'].
  destruct (run_op d op) as [a d'], (run_spec M op) as [a' M']. cbn in Ha, HR'. subst a'. f_equal. by apply IH.
Qed.

(** ** Many threads *)

Section Threads.
Context (calls : list (Call (K := K) (T := T))).
Abbreviation Pool := (list (Pc (K := K) (T := T))).

(** [v] as it is after some moves, and untouched. *)
Definition comes_from (u : K) (r : T) : Prop := exists v k, Setting u v ∈ calls /\ r = Nat.iter k moved v.
Definition untouched (u : K) (r : T) : Prop := Setting u r ∈ calls.

(** At most one thread waits for the reply to [u]. *)
Definition sole (u : K) : Prop := forall i j, calls !! i = Some (Getting u) -> calls !! j = Some (Getting u) -> i = j.

Definition before_take (p : Pc (K := K) (T := T)) : Prop := match p with GetErase _ _ | Got _ (Some _) => False | _ => True end.

(** What a thread at [p] has in hand; [owner] says for whom an entry was made. *)
Definition pc_ok (owner : list K) (j : nat) (p : Pc (K := K) (T := T)) : Prop :=
  match p with
  | Begin c => calls !! j = Some c
  | SetPut u v e => calls !! j = Some (Setting u v) /\ owner !! e = Some u
  | GetWait u e => calls !! j = Some (Getting u) /\ owner !! e = Some u
  | GetErase u r | Got u (Some r) => calls !! j = Some (Getting u) /\ comes_from u r /\ (sole u -> untouched u r)
  | Got u None => calls !! j = Some (Getting u)
  | TermBucket _ | TermNotify _ _ => calls !! j = Some Terminating
  | ExpBucket _ _ _ => exists expiration, calls !! j = Some (Expiring expiration)
  | Finished => True
  end.

Definition data_ok (owner : list K) (h : list (ReplyEntry (T := T))) (pool : Pool) : Prop :=
  forall e en u r, h !! e = Some en -> owner !! e = Some u -> data en = Some r ->
    comes_from u r /\ (sole u -> (forall j p, pool !! j = Some p -> calls !! j = Some (Getting u) -> before_take p) -> untouched u r).

Definition owned (owner : list K) (d : Dispatcher) : Prop :=
  forall i b u e, _buckets d !! i = Some b -> b !! u = Some e -> owner !! e = Some u.

Record inv (owner : list K) (s : Dispatcher * Pool) : Prop := {
  i_placed : placed s.1;
  i_length : length owner = length (heap s.1);
  i_owned : owned owner s.1;
  i_pcs j p : s.2 !! j = Some p -> pc_ok owner j p;
  i_data : data_ok owner (heap s.1) s.2
}.

Lemma inv_update owner owner' d pool d' j p p' :
  inv owner (d, pool) -> pool !! j = Some p -> owner `prefix_of` owner' -> placed d' -> length owner' = length (heap d') -> owned owner' d' ->
  pc_ok owner' j p' -> data_ok owner' (heap d') (<[j := p']> pool) -> inv owner' (d', <[j := p']> pool).
Proof.
  intros Hi Hj Hpre Hp Hl Ho Hpc Hd. split; cbn [fst snd]; try done. intros i q Hq. destruct (decide (i = j)) as [-> | Hne].
  - rewrite list_lookup_insert_eq in Hq by (by eapply lookup_lt_Some). by injection Hq as <-.
  - rewrite list_lookup_insert_ne in Hq by done. apply (i_pcs _ _ Hi) in Hq.
    destruct q as [| | | | | | | u [r |] |]; cbn in Hq |- *; deex; try done; try (by eexists); split; eauto using prefix_lookup_Some.
Qed.

(** A step that leaves the values alone, and is not a move out of an entry. *)
Lemma data_ok_same owner h pool j p p' :
  data_ok owner h pool -> pool !! j = Some p -> (before_take p' -> before_take p) -> data_ok owner h (<[j := p']> pool).
Proof.
  intros Hd Hj Hb e en u r He Ho Hr. destruct (Hd e en u r He Ho Hr) as [H1 H2]. split; [done |]. intros Hs Hall. apply H2; [done |].
  intros i q Hq Hc. destruct (decide (i = j)) as [-> | Hne].
  - rewrite Hj in Hq. injection Hq as <-. apply Hb. apply (Hall j); [| done]. apply list_lookup_insert_eq. by eapply lookup_lt_Some.
  - apply (Hall i); [| done]. by rewrite list_lookup_insert_ne.
Qed.

(** The buckets only lose entries. *)
Lemma owned_sub owner d d' :
  owned owner d -> (forall i b' u e, _buckets d' !! i = Some b' -> b' !! u = Some e -> exists b, _buckets d !! i = Some b /\ b !! u = Some e) -> owned owner d'.
Proof. intros Ho Hsub i b' u e Hi He. destruct (Hsub i b' u e Hi He) as (b & Hb & Hbu). by eapply Ho. Qed.

Lemma sub_alter (d : Dispatcher) f k (h : list (ReplyEntry (T := T))) :
  (forall b u e, f b !! u = Some e -> b !! u = Some e) ->
  forall i b' u e, _buckets (mkDispatcher (alter f k (_buckets d)) h) !! i = Some b' -> b' !! u = Some e -> exists b, _buckets d !! i = Some b /\ b !! u = Some e.
Proof.
  intros Hf i b' u e Hi He. cbn in Hi. rewrite list_lookup_alter in Hi. destruct (decide (k = i)) as [-> | _]; [| by exists b'].
  apply fmap_Some in Hi as (b & Hb & ->). exists b. split; [done | by apply Hf].
Qed.

Lemma placed_clear (d : Dispatcher) i (h : list (ReplyEntry (T := T))) : placed d -> placed (mkDispatcher (<[i := ∅]> (_buckets d)) h).
Proof.
  intros [Hn Hp]. split; cbn [_buckets].
  - intros E. apply (f_equal length) in E. rewrite length_insert in E. by destruct (_buckets d).
  - intros j b u e Hj He. replace (_get_bucket _ u) with (_get_bucket d u) by (unfold ReplyDispatcher._get_bucket; cbn; by rewrite length_insert).
    apply list_lookup_insert_Some in Hj as [(_ & <- & _) | [_ Hj]]; [done | by eapply Hp].
Qed.

(** A new entry for [u], or the one that is there. *)
Lemma enter_inv owner d pool j p p' now u e d' :
  inv owner (d, pool) -> pool !! j = Some p -> (before_take p' -> before_take p) -> enter hash now u d = (e, d') ->
  (forall owner', owner `prefix_of` owner' -> owner' !! e = Some u -> pc_ok owner' j p') -> exists owner', inv owner' (d', <[j := p']> pool).
Proof.
  intros Hi Hj Hb He Hpc. pose proof Hi as [Hp Hl Ho _ Hd]. cbn [fst snd] in *. unfold enter in He. destruct (table d u !! u) as [e0 |] eqn:Et; injection He as <- <-.
  - exists owner. apply (inv_update owner owner d pool d j p p'); try done.
    + apply Hpc; [done |]. unfold ReplyDispatcher.table in Et. destruct (_buckets d !! _) as [b |] eqn:Eb; [by eapply Ho | done].
    + by eapply data_ok_same.
  - exists (owner ++ [u]). apply (inv_update owner (owner ++ [u]) d pool _ j p p'); try done.
    + by eexists.
    + apply placed_alter; [done |]. intros b u' e' He. destruct (decide (u' = u)) as [-> | Hne]; [by left |]. right. by rewrite lookup_insert_ne in He.
    + cbn [heap]. rewrite !length_app. cbn. lia.
    + intros i b u' e' Hib He. cbn [_buckets] in Hib. rewrite list_lookup_alter in Hib. destruct (decide (_ = i)) as [Ei | _].
      * apply fmap_Some in Hib as (b0 & Hb0 & ->). destruct (decide (u' = u)) as [-> | Hne].
        -- rewrite lookup_insert_eq in He. injection He as <-. rewrite <- Hl. by apply list_lookup_middle.
        -- rewrite lookup_insert_ne in He by done. apply lookup_app_l_Some. by eapply Ho.
      * apply lookup_app_l_Some. by eapply Ho.
    + apply Hpc; [by eexists |]. rewrite <- Hl. by apply list_lookup_middle.
    + cbn [heap]. apply data_ok_same with p; [| done | done]. intros e en u' r He Hu Hr.
      apply lookup_app_Some in He as [He | [Hge He]].
      * apply (Hd e en u' r He); [| done]. rewrite lookup_app_l in Hu; [done |]. rewrite Hl. by eapply lookup_lt_Some.
      * apply list_lookup_singleton_Some in He as [_ <-]. discriminate Hr.
Qed.

Lemma data_ok_set owner h pool j p p' e v u :
  data_ok owner h pool -> pool !! j = Some p -> (before_take p' -> before_take p) -> owner !! e = Some u ->
  (forall r, v = Some r -> untouched u r) ->
  data_ok owner (alter (fun en => mkEntry v (created_time en)) e h) (<[j := p']> pool).
Proof.
  intros Hd Hj Hb Ho Hv. apply data_ok_same with p; [| done | done]. intros e' en u' r He Hu Hr. rewrite list_lookup_alter in He.
  destruct (decide (e = e')) as [<- | _]; [| by eapply Hd]. apply fmap_Some in He as (en0 & _ & ->). cbn in Hr.
  rewrite Ho in Hu. injection Hu as <-. split; [| intros _ _; by apply Hv]. exists r, 0%nat. split; [by apply Hv | done].
Qed.

Lemma data_ok_none owner h pool j p p' e :
  data_ok owner h pool -> pool !! j = Some p -> (before_take p' -> before_take p) ->
  data_ok owner (alter (fun en => mkEntry None (created_time en)) e h) (<[j := p']> pool).
Proof.
  intros Hd Hj Hb. apply data_ok_same with p; [| done | done]. intros e' en u' r He Hu Hr. rewrite list_lookup_alter in He.
  destruct (decide (e = e')) as [<- | _]; [| by eapply Hd]. by apply fmap_Some in He as (en0 & _ & ->).
Qed.

(** A move out of the entry of the thread's own request. *)
Lemma take_inv owner d pool j u e v d' :
  inv owner (d, pool) -> pool !! j = Some (GetWait u e) -> take_data moved e d = Some (v, d') -> inv owner (d', <[j := GetErase u v]> pool).
Proof.
  intros Hi Hj Ht. pose proof Hi as [Hp Hl Ho Hpcs Hd]. cbn [fst snd] in *. destruct (Hpcs _ _ Hj) as [Hc Hu].
  unfold take_data in Ht. destruct (heap d !! e) as [en |] eqn:Ee; cbn in Ht; [| done]. destruct (data en) as [v' |] eqn:Ev; [| done]. injection Ht as <- <-.
  destruct (Hd e en u v' Ee Hu Ev) as [Hfrom Hunt]. apply (inv_update owner owner d pool _ j (GetWait u e)); try done.
  - by destruct Hp.
  - cbn. by rewrite length_alter.
  - cbn. split; [done |]. split; [done |]. intros Hs. apply Hunt; [done |]. intros i p Hip Hci. rewrite (Hs i j Hci Hc) in Hip. rewrite Hj in Hip. by injection Hip as <-.
  - cbn [heap set_data]. intros e' en' u' r He Hu' Hr. destruct (decide (u' = u)) as [-> | Hne].
    + split; [| intros _ Hall; exfalso; refine (Hall j (GetErase u v') _ Hc); apply list_lookup_insert_eq; by eapply lookup_lt_Some].
      rewrite list_lookup_alter in He. destruct (decide (e = e')) as [<- | _].
      * rewrite Ee in He. injection He as <-. cbn in Hr. injection Hr as <-. destruct Hfrom as (v & n & Hin & ->). by exists v, (S n).
      * by destruct (Hd e' en' u r He Hu' Hr).
    + rewrite list_lookup_alter in He. destruct (decide (e = e')) as [<- | _]; [rewrite Hu in Hu'; congruence |].
      destruct (Hd e' en' u' r He Hu' Hr) as [H1 H2]. split; [done |]. intros Hs Hall. apply H2; [done |]. intros i p Hip Hci.
      assert (i <> j) as Hij by (intros ->; rewrite Hc in Hci; congruence). apply (Hall i); [by rewrite list_lookup_insert_ne | done].
Qed.

Lemma erase_placed (d : Dispatcher) u : placed d -> placed (erase hash u d).
Proof. intros Hp. apply placed_alter; [done |]. intros b u' e' He. right. by apply lookup_delete_Some in He as [_ He]. Qed.

Lemma erase_owned owner (d : Dispatcher) u : owned owner d -> owned owner (erase hash u d).
Proof. intros Ho. apply (owned_sub owner d); [done |]. apply sub_alter. intros b u' e He. by apply lookup_delete_Some in He as [_ He]. Qed.

Lemma inv_step owner s s' : inv owner s -> step hash moved s s' -> exists owner', inv owner' s'.
Proof.
  intros Hi Hstep. destruct Hstep as [now j d p pool d' p' Hj Hpc]. pose proof Hi as [Hp Hl Ho Hpcs Hd]. cbn [fst snd] in *.
  pose proof (Hpcs _ _ Hj) as Hok. destruct Hpc; cbn [pc_ok] in Hok.
  - by eapply enter_inv.
  - exists owner. destruct Hok as [Hc Hu]. apply (inv_update owner owner d pool _ j (SetPut uuid v e)); try done.
    + by destruct Hp.
    + cbn. by rewrite length_alter.
    + apply (data_ok_set owner (heap d) pool j (SetPut uuid v e) Finished e (Some v) uuid); try done. intros r [= <-]. unfold untouched. by eapply list_elem_of_lookup_2.
  - by eapply enter_inv.
  - exists owner. by eapply take_inv.
  - exists owner. apply (inv_update owner owner d pool d j (GetWait uuid e)); try done; [by destruct Hok | by eapply data_ok_same].
  - exists owner. apply (inv_update owner owner d pool _ j (GetErase uuid v)); try done; [by apply erase_placed | by apply erase_owned | by eapply data_ok_same].
  - exists owner. unfold remove. destruct (table d uuid !! uuid); (apply (inv_update owner owner d pool _ j (Begin (Removing uuid))); try done);
      first [by apply erase_placed | by apply erase_owned | by eapply data_ok_same].
  - exists owner. apply (inv_update owner owner d pool d j (Begin Terminating)); try done. by eapply data_ok_same.
  - exists owner. unfold clear_bucket in *. simplify_eq. apply (inv_update owner owner d pool _ j (TermBucket i)); try done; [by apply placed_clear | | by eapply data_ok_same].
    apply (owned_sub owner d); [done |]. intros k b' u e Hk He. cbn in Hk. apply list_lookup_insert_Some in Hk as [(_ & <- & _) | [_ Hk]]; [done | by exists b'].
  - exists owner. apply (inv_update owner owner d pool _ j (TermNotify i (e :: es))); try done.
    + by destruct Hp.
    + cbn. by rewrite length_alter.
    + by eapply data_ok_none.
  - exists owner. apply (inv_update owner owner d pool d j (TermNotify i [])); try done. by eapply data_ok_same.
  - exists owner. apply (inv_update owner owner d pool d j (TermBucket i)); try done. by eapply data_ok_same.
  - exists owner. apply (inv_update owner owner d pool d j (Begin (Expiring expiration))); try done; [by eexists | by eapply data_ok_same].
  - exists owner. apply (inv_update owner owner d pool _ j (ExpBucket start expiration i)); try done; [by apply placed_filter | | by eapply data_ok_same].
    apply (owned_sub owner d); [done |]. apply sub_alter. intros b u e He. by apply map_lookup_filter_Some in He as [He _].
  - exists owner. apply (inv_update owner owner d pool d j (ExpBucket start expiration i)); try done. by eapply data_ok_same.
Qed.

Lemma inv_reachable n s : (0 < n)%nat -> reachable hash moved n calls s -> exists owner, inv owner s.
Proof.
  intros Hn Hr. assert (forall s s', rtc (step hash moved) s s' -> forall owner, inv owner s -> exists owner', inv owner' s') as Hgo.
  { induction 1 as [s1 | s1 s2 s3 H1 _ IH]; intros owner Hi; [by exists owner |]. destruct (inv_step owner s1 s2 Hi H1) as [owner' Hi']. by eapply IH. }
  apply (Hgo _ _ Hr []). split; cbn [fst snd].
  - apply (rf_placed _ _ (make_refines n Hn)).
  - done.
  - intros i b u e Hi He. by apply lookup_replicate in Hi as [-> _].
  - intros j p Hj. rewrite list_lookup_fmap in Hj. by apply fmap_Some in Hj as (c & Hc & ->).
  - by intros e en u r He.
Qed.

(** *** A reply that is there *)

Definition has_data (h : list (ReplyEntry (T := T))) (e : nat) : Prop := exists en r, h !! e = Some en /\ data en = Some r.
Definition present (d : Dispatcher) (u : K) : Prop := exists e, find d u = Some e /\ has_data (heap d) e.

Lemma find_enter now u u' (d d' : Dispatcher) e :
  placed d -> enter hash now u d = (e, d') ->
  find d' u' = (if decide (u' = u) then Some e else find d u') /\ (forall e', has_data (heap d) e' -> has_data (heap d') e') /\
  (forall e', find d u = Some e' -> e' = e).
Proof.
  intros Hp He. unfold enter in He. fold (find d u) in He. destruct (find d u) as [e0 |] eqn:Ef; injection He as <- <-.
  - split; [destruct (decide (u' = u)) as [-> |]; done |]. split; [done | congruence].
  - split; [by apply find_insert |]. split; [| done]. intros e' (en & r & He & Hr). exists en, r. split; [by apply lookup_app_l_Some | done].
Qed.

Lemma has_data_set h e e' v :
  has_data h e' -> has_data (alter (fun en => mkEntry (Some v) (created_time en)) e h) e'.
Proof.
  intros (en & r & He & Hr). unfold has_data. rewrite list_lookup_alter. destruct (decide (e = e')) as [-> |]; [| by exists en, r].
  rewrite He. cbn. by do 2 eexists.
Qed.

Lemma has_data_put h e v : (e < length h)%nat -> has_data (alter (fun en => mkEntry (Some v) (created_time en)) e h) e.
Proof. intros [en Hen]%lookup_lt_is_Some_2. unfold has_data. rewrite list_lookup_alter_eq, Hen. cbn. by do 2 eexists. Qed.

(** Nobody takes the entry of [u] out of the table but its waiter [g]. *)
Context (u : K) (g : nat) (Hg : calls !! g = Some (Getting u)) (Hsole : sole u).
Context (Hquiet : forall j c, calls !! j = Some c -> match c with Removing u' => u' <> u | Terminating | Expiring _ => False | _ => True end).

Record kept (s : Dispatcher * Pool) : Prop := {
  k_put j v e : s.2 !! j = Some (SetPut u v e) -> find s.1 u = Some e;
  k_wait e : s.2 !! g = Some (GetWait u e) -> find s.1 u = Some e;
  k_there j v : calls !! j = Some (Setting u v) -> s.2 !! j = Some Finished -> present s.1 u
}.

Definition waiting (p : Pc (K := K) (T := T)) : Prop := match p with Begin _ | GetWait _ _ => True | _ => False end.

(** A step of a thread that leaves the entry of [u] in place. *)
Lemma kept_step d d' pool j p p' :
  kept (d, pool) -> pool !! j = Some p -> (forall e, find d u = Some e -> find d' u = Some e) -> (forall e, has_data (heap d) e -> has_data (heap d') e) ->
  (forall v e, p' = SetPut u v e -> find d' u = Some e) -> (forall e, j = g -> p' = GetWait u e -> find d' u = Some e) ->
  (forall v, calls !! j = Some (Setting u v) -> p' = Finished -> present d' u) -> kept (d', <[j := p']> pool).
Proof.
  intros [H1 H2 H3] Hj Hf Hh Hput Hwait Hthere. assert (forall i q, <[j := p']> pool !! i = Some q -> i = j /\ q = p' \/ pool !! i = Some q) as Hl.
  { intros i q [(<- & <- & _) | [_ Hq]]%list_lookup_insert_Some; [by left | by right]. }
  split; cbn [fst snd] in *.
  - intros i v e [[-> Hq] | Hi]%Hl; [by eapply Hput | by eapply Hf, H1].
  - intros e [[-> Hq] | Hi]%Hl; [by eapply Hwait | by eapply Hf, H2].
  - intros i v Hc [[-> Hq] | Hi]%Hl; [by eapply Hthere |]. destruct (H3 i v Hc Hi) as (e & He & Hd). exists e. split; [by apply Hf | by apply Hh].
Qed.

Lemma data_same_find (d : Dispatcher) e v u' : find (set_data e v d) u' = find d u'.
Proof. done. Qed.

(** A step of another thread. *)
Lemma kept_other owner now d d' pool j p p' :
  inv owner (d, pool) -> kept (d, pool) -> j <> g -> pool !! j = Some p -> pc_step hash moved now d p d' p' -> kept (d', <[j := p']> pool).
Proof.
  intros Hi Hk Hne Hj Hpc. pose proof Hi as [Hp Hl _ Hpcs _]. pose proof (Hpcs _ _ Hj) as Hok. cbn [fst snd] in *.
  assert (forall u', calls !! j = Some (Getting u') -> u' <> u) as Hother by (intros u' Hc ->; apply Hne; by eapply Hsole).
  destruct Hpc; cbn [pc_ok] in Hok.
  - match goal with H : enter _ _ _ _ = _ |- _ => rename H into He end.
    assert (find d' u = if decide (u = uuid) then Some e else find d u) as Hf by (by apply (find_enter now uuid u d d' e)).
    destruct (find_enter now uuid u d d' e Hp He) as (_ & Hh & Hold).
    eapply kept_step; try done.
    + intros e' Hfe. rewrite Hf. destruct (decide (u = uuid)) as [-> |]; [by rewrite (Hold e' Hfe) | done].
    + intros v' e' [= -> _ <-]. by rewrite Hf, decide_True.
  - destruct Hok as [Hc Ho]. eapply kept_step; try done; [intros e'; apply has_data_set |]. intros v' Hc' _. rewrite Hc in Hc'. injection Hc' as -> ->.
    exists e. split; [by eapply (k_put _ Hk) |]. apply has_data_put. rewrite <- Hl. by eapply lookup_lt_Some.
  - match goal with H : enter _ _ _ _ = _ |- _ => rename H into He end.
    pose proof (Hother _ Hok) as Hu. destruct (find_enter now uuid u d d' e Hp He) as (Hf & Hh & _). rewrite decide_False in Hf by done.
    eapply kept_step; try done. intros e' Hfe. by rewrite Hf.
  - match goal with H : take_data _ _ _ = _ |- _ => rename H into Ht end. unfold take_data in Ht. destruct (_ ≫= _); [| done]. injection Ht as <- <-.
    eapply kept_step; try done. intros e'. apply has_data_set.
  - eapply kept_step; done.
  - destruct Hok as [Hc _]. pose proof (Hother _ Hc) as Hu. eapply kept_step; try done. intros e Hf. unfold erase. rewrite find_delete by done. by rewrite decide_False.
  - pose proof (Hquiet _ _ Hok) as Hu. cbn in Hu. unfold remove. destruct (table d uuid !! uuid); eapply kept_step; try done; try congruence.
    intros e Hf. unfold erase. rewrite find_delete by done. by rewrite decide_False.
  - by destruct (Hquiet _ _ Hok).
  - by destruct (Hquiet _ _ Hok).
  - by destruct (Hquiet _ _ Hok).
  - by destruct (Hquiet _ _ Hok).
  - by destruct (Hquiet _ _ Hok).
  - by destruct (Hquiet _ _ Hok).
  - destruct Hok as [? Hok]. by destruct (Hquiet _ _ Hok).
  - destruct Hok as [? Hok]. by destruct (Hquiet _ _ Hok).
Qed.

(** A step of the waiter itself. *)
Lemma kept_waiter owner now d d' pool p p' :
  inv owner (d, pool) -> kept (d, pool) -> pool !! g = Some p -> waiting p -> pc_step hash moved now d p d' p' ->
  (waiting p' /\ kept (d', <[g := p']> pool)) \/ (exists r, p' = GetErase u r) \/ (p' = Got u None /\ ~ present d u).
Proof.
  intros Hi Hk Hp Hw Hpc. pose proof Hi as [Hpl _ _ Hpcs _]. pose proof (Hpcs _ _ Hp) as Hok. cbn [fst snd] in *.
  destruct Hpc; cbn [waiting pc_ok] in *; try done; try (rewrite Hg in Hok; discriminate Hok); deex; rewrite Hg in *; simplify_eq.
  - left. split; [done |]. match goal with H : enter _ _ _ _ = _ |- _ => rename H into He end. destruct (find_enter now u u d d' e Hpl He) as (Hf & Hh & Hold).
    rewrite decide_True in Hf by done. eapply kept_step; try done.
    + intros e' Hfe. by rewrite Hf, (Hold e' Hfe).
    + intros e' _ [= <-]. done.
  - right. left. by eexists.
  - right. right. split; [done |]. intros (e' & He' & (en & r & Hen & Hr)). pose proof (k_wait _ Hk e Hp) as Hw2; cbn [fst] in Hw2; rewrite Hw2 in He'. injection He' as <-.
    match goal with H : take_data _ _ _ = _ |- _ => unfold take_data in H; rewrite Hen in H; cbn in H; rewrite Hr in H; discriminate H end.
Qed.

Definition answered (pool : Pool) : Prop := exists p, pool !! g = Some p /\ ((exists r, p = GetErase u r) \/ (exists r, p = Got u (Some r))).

Lemma not_missed_step owner s s' :
  inv owner s -> (exists j v, calls !! j = Some (Setting u v) /\ s.2 !! j = Some Finished) ->
  (answered s.2 \/ (exists p, s.2 !! g = Some p /\ waiting p) /\ kept s) -> step hash moved s s' ->
  (exists j v, calls !! j = Some (Setting u v) /\ s'.2 !! j = Some Finished) /\ (answered s'.2 \/ (exists p, s'.2 !! g = Some p /\ waiting p) /\ kept s').
Proof.
  intros Hi (js & v & Hc & Hjs) Hst Hstep. destruct Hstep as [now j d p pool d' p' Hj Hpc]. cbn [fst snd] in *.
  assert (js <> j) as Hne by (intros ->; rewrite Hj in Hjs; injection Hjs as ->; inversion Hpc).
  split; [exists js, v; by rewrite list_lookup_insert_ne |].
  destruct (decide (j = g)) as [-> | Hng].
  - destruct Hst as [(q & Hq & Ha) | [(q & Hq & Hw) Hk]]; rewrite Hj in Hq; injection Hq as <-.
    + left. exists p'. rewrite list_lookup_insert_eq by (by eapply lookup_lt_Some). split; [done |].
      destruct Ha as [[r ->] | [r ->]]; inversion Hpc; subst. right. by eexists.
    + destruct (kept_waiter owner now d d' pool p p' Hi Hk Hj Hw Hpc) as [[Hw' Hk'] | [[r ->] | [_ Hno]]].
      * right. split; [| done]. exists p'. by rewrite list_lookup_insert_eq by (by eapply lookup_lt_Some).
      * left. exists (GetErase u r). rewrite list_lookup_insert_eq by (by eapply lookup_lt_Some). split; [done |]. left. by eexists.
      * destruct Hno. by eapply (k_there _ Hk js v).
  - destruct Hst as [(q & Hq & Ha) | [(q & Hq & Hw) Hk]].
    + left. exists q. by rewrite list_lookup_insert_ne.
    + right. split; [exists q; by rewrite list_lookup_insert_ne |]. by eapply kept_other.
Qed.

Lemma kept_from_start n s :
  (0 < n)%nat -> reachable hash moved n calls s -> (exists p, s.2 !! g = Some p /\ waiting p) -> kept s.
Proof.
  intros Hn Hr. unfold reachable in Hr. set (s0 := (ReplyDispatcher_make n, Begin <$> calls)) in Hr.
  assert (forall s, rtc (step hash moved) s0 s -> (exists owner, inv owner s) /\ ((exists p, s.2 !! g = Some p /\ waiting p) -> kept s)) as Hgo; [| by apply Hgo].
  clear s Hr. apply rtc_ind_r.
  - split; [apply (inv_reachable n); [done | constructor] |]. intros _.
    assert (forall j p, s0.2 !! j = Some p -> exists c, p = Begin c) as Hb.
    { intros j p Hj. cbn in Hj. rewrite list_lookup_fmap in Hj. apply fmap_Some in Hj as (c & _ & ->). by exists c. }
    split; [intros j v e Hj | intros e Hj | intros j v _ Hj]; by destruct (Hb _ _ Hj).
  - intros s s' Hr Hstep [[owner Hi] Hk]. split; [by eapply inv_step |]. intros (p' & Hp' & Hw').
    destruct Hstep as [now j d p pool d' q Hj Hpc]. cbn [fst snd] in *. destruct (decide (j = g)) as [-> | Hng].
    + rewrite list_lookup_insert_eq in Hp' by (by eapply lookup_lt_Some). injection Hp' as ->.
      assert (waiting p) as Hw by (inversion Hpc; subst; done).
      destruct (kept_waiter owner now d d' pool p p' Hi ltac:(apply Hk; by exists p) Hj Hw Hpc) as [[_ Hk'] | [[r ->] | [-> _]]]; done.
    + rewrite list_lookup_insert_ne in Hp' by done. eapply kept_other; try done. apply Hk. by exists p'.
Qed.
End Threads.

(** C22: replies are never mixed up.  Whatever threads set, wait, remove, terminate and
    clean, interleaved in any way, a reply that a waiter gets was set for the UUID it waits
    for; and when it is the only one to wait for it, it gets the value as it was set,
    not one that another waiter has already moved away. *)
Theorem replies_reach_their_waiters n calls d pool j u r :
  (0 < n)%nat -> reachable hash moved n calls (d, pool) -> pool !! j = Some (Got u (Some r)) ->
  calls !! j = Some (Getting u) /\ (exists v k, Setting u v ∈ calls /\ r = Nat.iter k moved v) /\
  ((forall i, calls !! i = Some (Getting u) -> i = j) -> Setting u r ∈ calls).
Proof.
  intros Hn Hr Hj. destruct (inv_reachable calls n (d, pool) Hn Hr) as [owner Hi]. destruct (i_pcs _ _ _ Hi j _ Hj) as (H1 & H2 & H3).
  split; [done |]. split; [done |]. intros Hs. apply H3. intros i k Hi1 Hk1. by rewrite (Hs i Hi1), (Hs k Hk1).
Qed.

(** A reply that is there is not missed.  When a reply has been set before its only
    waiter comes, the waiter never times out, whatever the other threads do
    meanwhile, unless one of them removes that UUID, terminates the dispatcher or cleans it. *)
Theorem reply_not_missed n calls d0 pool0 d pool u g js v :
  (0 < n)%nat -> reachable hash moved n calls (d0, pool0) -> rtc (step hash moved) (d0, pool0) (d, pool) ->
  (forall j c, calls !! j = Some c -> match c with Removing u' => u' <> u | Terminating | Expiring _ => False | Getting u' => u' = u -> j = g | Setting _ _ => True end) ->
  calls !! g = Some (Getting u) -> pool0 !! g = Some (Begin (Getting u)) -> calls !! js = Some (Setting u v) -> pool0 !! js = Some Finished ->
  pool !! g <> Some (Got u None).
Proof.
  intros Hn Hr Hrun Hq Hg Hg0 Hs Hs0.
  assert (sole calls u) as Hsole by (intros i j Hi Hj; rewrite (Hq _ _ Hi eq_refl), (Hq _ _ Hj eq_refl); done).
  assert (forall j c, calls !! j = Some c -> match c with Removing u' => u' <> u | Terminating | Expiring _ => False | _ => True end) as Hquiet
    by (intros j c Hc; specialize (Hq j c Hc); by destruct c).
  assert (forall s s', rtc (step hash moved) s s' -> (exists owner, inv calls owner s) ->
    (exists j v, calls !! j = Some (Setting u v) /\ s.2 !! j = Some Finished) -> (answered u g s.2 \/ (exists p, s.2 !! g = Some p /\ waiting p) /\ kept calls u g s) ->
    answered u g s'.2 \/ (exists p, s'.2 !! g = Some p /\ waiting p)) as Hgo.
  { induction 1 as [s1 | s1 s2 s3 H1 _ IH]; intros [owner Hi] Hset Hst; [by destruct Hst as [| []]; [left | right] |].
    destruct (not_missed_step calls u g Hg Hsole Hquiet owner s1 s2 Hi Hset Hst H1) as [Hset2 Hst2]. apply IH; [by eapply inv_step | done | done]. }
  intros Hbad. destruct (Hgo _ _ Hrun) as [(p & Hp & Ha) | (p & Hp & Hw)]; cbn [fst snd] in *.
  - by apply (inv_reachable calls n).
  - by exists js, v.
  - right. split; [by eexists |]. apply (kept_from_start calls u g Hg Hsole Hquiet n (d0, pool0) Hn Hr). by eexists.
  - rewrite Hbad in Hp. injection Hp as <-. by destruct Ha as [[]|[]].
  - rewrite Hbad in Hp. by injection Hp as <-.
Qed.



End Props.

(** After a turn of the cleaner no entry is older than the limit, so requests that timed out
    do not pile up. *)
Lemma cleaner_bounds_age {K} `{Countable K} {T} (hash : K -> Z) now after (c : ReplyDispatcherWithCleaner (K := K) (T := T)) M :
  refines hash (dispatcher_ c) M ->
  exists M', refines hash (dispatcher_ (snd (CleanupRunner_iteration true after now c))) M' /\
    forall u x, M' !! u = Some x <-> M !! u = Some x /\ now - x.2 <= expiration_time_ms_ c.
Proof.
  intros HR. eexists. split; [by apply remove_expired_refines |]. intros u x. rewrite map_lookup_filter_Some. unfold fresh. cbn.
  by rewrite Z.leb_le.
Qed.

(** [terminate] notifies the waiters, but what they wait for is a reply: they wait on,
    until their time is over. *)
Lemma terminate_wakes_nobody {K} `{Countable K} {T} (hash : K -> Z) (moved : T -> T) now d i e es d1 p1 now' u d2 p2 :
  pc_step hash moved now d (TermNotify i (e :: es)) d1 p1 -> pc_step hash moved now' d1 (GetWait u e) d2 p2 -> p2 = Got u None.
Proof.
  intros H1 H2. inversion H1; subst. inversion H2; subst; [exfalso | done].
  match goal with H : take_data _ _ _ = _ |- _ => unfold take_data in H; cbn in H; rewrite list_lookup_alter_eq in H; destruct (heap d !! e); discriminate H end.
Qed.

(** ** Examples *)

Definition demo_hash (u : Z) : Z := u * 31.
Definition demo_moved (_ : Z) : Z := 0.

Lemma sharding_transparent_witness :
  (0 < 4)%nat /\ run_ops (run_op demo_hash demo_moved) (ReplyDispatcher_make 4) [OGet 0 7; OSet 5 7 42; OSet 6 11 43; OSize; OGet 7 7; OSize; OExpire 100 50; OSize] =
    [Reply None; Nothing; Nothing; Size 2; Reply (Some 42); Size 1; Nothing; Size 0].
Proof.
  split; [lia |]. rewrite (sharding_transparent demo_hash demo_moved 4); [vm_compute; reflexivity | lia].
Defined.

Definition demo_calls : list (Call (K := Z) (T := Z)) := [Setting 7 42; Getting 7].

Lemma demo_run : exists d0 d, reachable demo_hash demo_moved 4 demo_calls (d0, [Finished; Begin (Getting 7)]) /\
  rtc (step demo_hash demo_moved) (d0, [Finished; Begin (Getting 7)]) (d, [Finished; Got 7 (Some 42)]).
Proof.
  do 2 eexists. split.
  - eapply rtc_l; [eapply (step_thread _ _ 3 0); [reflexivity | eapply set_enter; reflexivity] |]. cbn [fmap list_fmap list_insert insert demo_calls].
    eapply rtc_l; [eapply (step_thread _ _ 3 0); [reflexivity | eapply set_put] |]. apply rtc_refl.
  - eapply rtc_l; [eapply (step_thread _ _ 3 1); [reflexivity | eapply get_enter; vm_compute; reflexivity] |]. cbn [list_insert insert].
    eapply rtc_l; [eapply (step_thread _ _ 3 1); [reflexivity | eapply get_take; vm_compute; reflexivity] |]. cbn [list_insert insert].
    eapply rtc_l; [eapply (step_thread _ _ 3 1); [reflexivity | eapply get_erase] |]. apply rtc_refl.
Qed.

Lemma replies_reach_their_waiters_witness : Setting 7 42 ∈ demo_calls.
Proof.
  destruct demo_run as (d0 & d & H1 & H2). refine (proj2 (proj2 (replies_reach_their_waiters demo_hash demo_moved 4 demo_calls d [Finished; Got 7 (Some 42)] 1 7 42 _ _ eq_refl)) _).
  - lia.
  - unfold reachable in *. by etransitivity.
  - intros [| [| i]] Hi; [discriminate Hi | reflexivity | discriminate Hi].
Defined.

Lemma reply_not_missed_witness : exists d pool, reachable demo_hash demo_moved 4 demo_calls (d, pool) /\ pool !! 1%nat <> Some (Got 7 None).
Proof.
  destruct demo_run as (d0 & d & H1 & H2). exists d, [Finished; Got 7 (Some 42)]. split; [unfold reachable in *; by etransitivity |].
  apply (reply_not_missed demo_hash demo_moved 4 demo_calls d0 [Finished; Begin (Getting 7)] d _ 7 1 0 42); try done; [lia |].
  intros [| [| j]] c Hc; [injection Hc as <- | injection Hc as <- | discriminate Hc]; done.
Defined.

(** A second waiter for the same request gets what the first one left behind. *)
Example second_waiter_gets_leftovers : exists d,
  reachable demo_hash demo_moved 4 [Setting 7 42; Getting 7; Getting 7] (d, [Finished; GetErase 7 42; GetErase 7 0]).
Proof.
  eexists. unfold reachable. cbn [fmap list_fmap].
  eapply rtc_l; [eapply (step_thread _ _ 3 1); [reflexivity | eapply get_enter; reflexivity] |]. cbn [list_insert insert].
  eapply rtc_l; [eapply (step_thread _ _ 3 2); [reflexivity | eapply get_enter; vm_compute; reflexivity] |]. cbn [list_insert insert].
  eapply rtc_l; [eapply (step_thread _ _ 3 0); [reflexivity | eapply set_enter; vm_compute; reflexivity] |]. cbn [list_insert insert].
  eapply rtc_l; [eapply (step_thread _ _ 3 0); [reflexivity | eapply set_put] |]. cbn [list_insert insert].
  eapply rtc_l; [eapply (step_thread _ _ 3 1); [reflexivity | eapply get_take; vm_compute; reflexivity] |]. cbn [list_insert insert].
  eapply rtc_l; [eapply (step_thread _ _ 3 2); [reflexivity | eapply get_take; vm_compute; reflexivity] |]. apply rtc_refl.
Qed.
