(* ===== verification/SettingFacade.v ===== *)
(** * All settings, and who listens to them

    [Management/manager/include/SettingManager.h] and [src/SettingManager.cpp]: the facade
    that reads the settings of the server and of its cameras at start-up and holds a
    manager for each kind; [BasicLibs/core/types/DeviceCluster.cpp]: the set of
    cameras; [Management/worker/src/SettingMonitor.cpp]: the subscriptions of a unit.
    [GET] is a request to the server ([SettingManager]).  The record of the facade is
    called [Facade], because a file has the name of its class. *)

From Stdlib Require Import SpecFloat Ascii String.
From stdpp Require Import gmap pretty.
From S2P Require Import Prelude Sort Json SettingData SettingManager.
Open Scope Z_scope.
Open Scope list_scope.

(** ** The cameras of the server *)

Definition JSON_PARSE_ID_VALUE_NOT_SET : Z := -1.

Record CameraCluster_DETECTOR := mkCluster { camera_set_ : gset Z; camera_key_name_ : string }.

Fixpoint insert_ids (key : string) (l : list json) : M (gset Z) unit :=
  match l with
  | [] => ret tt
  | object :: l =>
      if is_object object && contains object key
      then bind (lift (value get_int object key JSON_PARSE_ID_VALUE_NOT_SET)) (fun id => bind (modify (fun s => {[id]} ∪ s)) (fun _ => insert_ids key l))
      else insert_ids key l
  end.

(** An identifier of another type throws, after the ones before it are in. *)
Definition AddClusterData (j : json) : M CameraCluster_DETECTOR bool := fun c =>
  if String.eqb (camera_key_name_ c) "" then (Some false, c)
  else match j with
  | JArray l =>
      match insert_ids (camera_key_name_ c) l (camera_set_ c) with
      | (Some _, s) => (Some true, mkCluster (s ∖ {[JSON_PARSE_ID_VALUE_NOT_SET]}) (camera_key_name_ c))
      | (None, s) => (None, mkCluster s (camera_key_name_ c))
      end
  | _ => (Some false, c)
  end.

(** ** The facade *)

Definition SERVER_SERVICE_ID_NOT_SET : Z := -1.

(** The settings that can be subscribed to. *)
Inductive SettingKind := Excludes | Schedules.

(** The subscriptions of a monitor. *)
Abbreviation SettingMonitor := (gmap string (SettingKind * Z)).

Section Facade.
(** What identifies a callback. *)
Context {C : Type} `{!EqDecision C} (GET : string -> Z * json) (my_local_ip : string).

Record Facade := mkFacade {
  server_setting : option (SetterBase ServerSettingData C);
  camera_settings : option (SettingManagerBase CameraSettingData C);
  exclude_cam_settings : option (SettingManagerBase ExcludeCamSettingData C);
  schedule_settings : option (SettingManagerBase ScheduleSettingData C);
  camera_cluster : option CameraCluster_DETECTOR;
  server_service_id : Z;
  initialization_succeeded : bool
}.

Definition Facade_make : Facade := mkFacade None None None None None SERVER_SERVICE_ID_NOT_SET false.

Definition with_server s f := mkFacade s (camera_settings f) (exclude_cam_settings f) (schedule_settings f) (camera_cluster f) (server_service_id f) (initialization_succeeded f).
Definition with_cameras s f := mkFacade (server_setting f) s (exclude_cam_settings f) (schedule_settings f) (camera_cluster f) (server_service_id f) (initialization_succeeded f).
Definition with_excludes s f := mkFacade (server_setting f) (camera_settings f) s (schedule_settings f) (camera_cluster f) (server_service_id f) (initialization_succeeded f).
Definition with_schedules s f := mkFacade (server_setting f) (camera_settings f) (exclude_cam_settings f) s (camera_cluster f) (server_service_id f) (initialization_succeeded f).
Definition with_cluster s f := mkFacade (server_setting f) (camera_settings f) (exclude_cam_settings f) (schedule_settings f) s (server_service_id f) (initialization_succeeded f).
Definition with_service_id i f := mkFacade (server_setting f) (camera_settings f) (exclude_cam_settings f) (schedule_settings f) (camera_cluster f) i (initialization_succeeded f).
Definition with_succeeded b f := mkFacade (server_setting f) (camera_settings f) (exclude_cam_settings f) (schedule_settings f) (camera_cluster f) (server_service_id f) b.

Definition GetCameraIDSet (f : Facade) : gset Z := match camera_cluster f with Some c => camera_set_ c | None => ∅ end.
Definition GetScheduleSetting (f : Facade) (id : Z) : option (Setting ScheduleSettingData) := schedule_settings f ≫= fun m => GetSetting m id.
Definition GetExcludeCamSetting (f : Facade) (id : Z) : option (Setting ExcludeCamSettingData) := exclude_cam_settings f ≫= fun m => GetSetting m id.
Definition GetCameraSetting (f : Facade) (id : Z) : option (Setting CameraSettingData) := camera_settings f ≫= fun m => GetSetting m id.
Definition GetServerSetting (f : Facade) : option (Setting ServerSettingData) := server_setting f ≫= Setter_GetSetting.

(** *** Requests *)

Definition IsGoodResponse (code : Z) : bool := code =? 200.

Fixpoint comma_separated (ids : list Z) : string :=
  match ids with
  | [] => ""
  | [id] => pretty id
  | id :: ids => (pretty id ++ "," ++ comma_separated ids)%string
  end.

Definition server_by_ip_url : string := ("/server?ip=" ++ my_local_ip)%string.
Definition server_by_id_url (id : Z) : string := ("/server?id=" ++ pretty id)%string.
Definition cluster_url (id : Z) : string := ("/cluster?server_id=" ++ pretty id)%string.
Definition exception_url (cams : gset Z) : string := ("/exception?camera_id=" ++ comma_separated (set_order cams))%string.
Definition schedule_url (cams : gset Z) : string := ("/schedule?camera_id=" ++ comma_separated (set_order cams))%string.
Definition camera_url (cams : gset Z) : string := ("/camera/media?camera_id=" ++ comma_separated (set_order cams))%string.

(** The address of the search server, or the empty string. *)
Definition GetSearchServerIP (server_setting_json_array : json) : option string :=
  match server_setting_json_array with
  | JArray (object :: _) =>
      if negb (contains object "Setting") then Some ""%string
      else
        search_server_id ← value get_int (at_key object "Setting") "SearchServerId" 0;
        if search_server_id =? 0 then Some ""%string
        else
          let '(code, body) := GET (server_by_id_url search_server_id) in
          if negb (IsGoodResponse code) then Some ""%string
          else match body with
               | JArray (front :: _) => if contains front "Ip" then value get_string front "Ip" ""%string else Some ""%string
               | _ => Some ""%string
               end
  | _ => Some ""%string
  end.

(** [js.front()["Setting"]["SearchServerIp"] = ip]. *)
Definition set_search_ip (ip : string) (front : json) (rest : list json) : option json :=
  setting ← set_member (at_key front "Setting") "SearchServerIp" (JString ip);
  front ← set_member front "Setting" setting;
  Some (JArray (front :: rest)).

(** *** Initialisation *)

Local Open Scope mgen_scope.

Definition get : M Facade Facade := fun f => (Some f, f).

(** A setter whose update throws is not kept. *)
Definition SetServerSetting (init_json : json) : M Facade unit := fun f =>
  match Setter_Update init_json SetterBase_make with
  | (None, _, _) => (None, f)
  | (Some _, s, _) => (Some tt, with_server (Some s) f)
  end.

(** A manager that cannot be filled is kept empty. *)
Definition manager_from {D} `{!SettingType D} (init_json : json) : SettingManagerBase D C :=
  let '(_, m, _) := RenewAfterReset init_json (mkManager "CameraId" ∅) in m.

Definition SetCameraCluster_DETECTOR : M Facade bool :=
  f <- get ;;
  if server_service_id f =? SERVER_SERVICE_ID_NOT_SET then ret false
  else
    let '(code, body) := GET (cluster_url (server_service_id f)) in
    if negb (IsGoodResponse code) then ret false
    else if negb (is_array body) then ret false
    else
      fun f => let '(o, c) := AddClusterData body (mkCluster ∅ "CameraId") in (o, with_cluster (Some c) f).

(** A list of settings, if the server gives one. *)
Definition get_array (url : string) : option json :=
  let '(code, body) := GET url in if IsGoodResponse code && is_array body then Some body else None.

Definition InitializeImpl_DETECTOR_BaseForm : M Facade bool :=
  let '(code, body) := GET server_by_ip_url in
  if negb (IsGoodResponse code) then ret false
  else match body with
  | JArray (front :: rest) =>
      if negb (is_object front && contains front "Id") then ret false
      else
        id <- lift (value get_int front "Id" SERVER_SERVICE_ID_NOT_SET) ;;
        modify (with_service_id id) ;;;
        if id =? SERVER_SERVICE_ID_NOT_SET then ret false
        else
          ip <- lift (GetSearchServerIP body) ;;
          setter_js <- lift (if String.eqb ip "" then Some body else set_search_ip ip front rest) ;;
          SetServerSetting setter_js ;;;
          ok <- SetCameraCluster_DETECTOR ;;
          if negb ok then ret false
          else
            f <- get ;;
            let cams := GetCameraIDSet f in
            match (if bool_decide (cams = ∅) then Some (JArray []) else get_array (camera_url cams)) with
            | None => ret false
            | Some camera_body =>
                modify (with_cameras (Some (manager_from camera_body))) ;;;
                match get_array (exception_url cams) with
                | None => ret false
                | Some exclude_body =>
                    modify (with_excludes (Some (manager_from exclude_body))) ;;;
                    match get_array (schedule_url cams) with
                    | None => ret false
                    | Some schedule_body => modify (with_schedules (Some (manager_from schedule_body))) ;;; ret true
                    end
                end
            end
  | _ => ret false
  end.

Definition Initialize (service_tag : string) (f : Facade) : bool * Facade :=
  if initialization_succeeded f then (true, f)
  else
    let '(o, f) := if String.eqb service_tag "DETECTOR" then InitializeImpl_DETECTOR_BaseForm f else (Some false, f) in
    match o with
    | Some true => (true, with_succeeded true f)
    | _ => (false, with_succeeded false f)
    end.

(** ** Callbacks *)

Definition RegisterSettingCallback (kind : SettingKind) (camera_id : Z) (callback : C) (uuid : string) (f : Facade) : string * Facade :=
  match kind with
  | Excludes =>
      match exclude_cam_settings f with
      | Some m => let '(res, m) := RegisterCallback camera_id callback uuid m in (res, with_excludes (Some m) f)
      | None => (""%string, f)
      end
  | Schedules =>
      match schedule_settings f with
      | Some m => let '(res, m) := RegisterCallback camera_id callback uuid m in (res, with_schedules (Some m) f)
      | None => (""%string, f)
      end
  end.

Definition UnregisterSettingCallback (kind : SettingKind) (camera_id : Z) (uuid : string) (f : Facade) : bool * Facade :=
  match kind with
  | Excludes =>
      match exclude_cam_settings f with
      | Some m => let '(res, m) := UnregisterCallback camera_id uuid m in (res, with_excludes (Some m) f)
      | None => (false, f)
      end
  | Schedules =>
      match schedule_settings f with
      | Some m => let '(res, m) := UnregisterCallback camera_id uuid m in (res, with_schedules (Some m) f)
      | None => (false, f)
      end
  end.

(** ** The monitor of a unit

    An entry stands for the function that takes the callback back. *)

Definition SubscribeSetting (kind : SettingKind) (callback : C) (unit_id : Z) (uuid : string) (f : Facade) (active_subscriptions_ : SettingMonitor)
    : string * Facade * SettingMonitor :=
  let '(received_uuid, f) := RegisterSettingCallback kind unit_id callback uuid f in
  if String.eqb received_uuid "" then (""%string, f, active_subscriptions_)
  else (received_uuid, f, <[received_uuid := (kind, unit_id)]> active_subscriptions_).

Definition Unsubscribe (uuid_to_remove : string) (f : Facade) (active_subscriptions_ : SettingMonitor) : bool * Facade * SettingMonitor :=
  if String.eqb uuid_to_remove "" then (false, f, active_subscriptions_)
  else match active_subscriptions_ !! uuid_to_remove with
       | Some (kind, unit_id) =>
           let '(res, f) := UnregisterSettingCallback kind unit_id uuid_to_remove f in
           (res, f, delete uuid_to_remove active_subscriptions_)
       | None => (false, f, active_subscriptions_)
       end.

(** Every function is called; the result of each is dropped. *)
Definition ClearAllSubscriptions (f : Facade) (active_subscriptions_ : SettingMonitor) : Facade * SettingMonitor :=
  (foldl (fun f p => snd (UnregisterSettingCallback (fst (snd p)) (snd (snd p)) (fst p) f)) f (map_to_list active_subscriptions_), ∅).
End Facade.

Arguments Facade : clear implicits.
