(* ===== verification/SettingFacadeProps.v ===== *)
(** * Properties of the facade and of the monitors

    What starting up reads, and that a unit that has cleared its subscriptions is never
    called again. *)

From Stdlib Require Import SpecFloat Ascii String.
From stdpp Require Import gmap pretty.
From S2P Require Import Prelude Sort Json SettingData SettingManager SettingFacade.
Open Scope Z_scope.
Open Scope list_scope.

(** ** Callbacks of a manager *)

Section Manager.
Context {D : Type} `{!SettingType D} {C : Type} `{!EqDecision C}.
Implicit Types m : SettingManagerBase D C.

(** No callback appears, and only registered ones are called. *)
Definition no_new m m' (calls : list (C * Setting D)) : Prop :=
  (forall u uuid cb, callbacks_of (settings_ m') u !! uuid = Some cb -> callbacks_of (settings_ m) u !! uuid = Some cb) /\
  (forall cb d, (cb, d) ∈ calls -> exists u uuid, callbacks_of (settings_ m) u !! uuid = Some cb).

Lemma no_new_refl m : no_new m m [].
Proof. split; [done | by intros cb d ?%elem_of_nil]. Qed.

Lemma no_new_trans m1 m2 m3 c1 c2 : no_new m1 m2 c1 -> no_new m2 m3 c2 -> no_new m1 m3 (c1 ++ c2).
Proof.
  intros [H1 H2] [H3 H4]. split; [intros; by apply H1, H3 |]. intros cb d [Hin | Hin]%elem_of_app; [by eapply H2 |].
  destruct (H4 cb d Hin) as (u & uuid & Hu). exists u, uuid. by apply H1.
Qed.

Lemma invocations_in (s : SetterBase D C) cb d : (cb, d) ∈ invocations s -> exists uuid, callbacks_ s !! uuid = Some cb.
Proof.
  unfold invocations. intros ([uuid cb'] & [= -> ->] & Hin)%list_elem_of_fmap. exists uuid. by apply elem_of_map_to_list.
Qed.

Lemma callbacks_of_insert (st : gmap Z (SetterBase D C)) id s u :
  callbacks_of (<[id := s]> st) u = if decide (u = id) then callbacks_ s else callbacks_of st u.
Proof. unfold callbacks_of. destruct (decide (u = id)) as [-> |]; [by rewrite lookup_insert_eq | by rewrite lookup_insert_ne]. Qed.

Lemma setter_of_callbacks_of m u : callbacks_ (setter_of m u) = callbacks_of (settings_ m) u.
Proof. unfold setter_of, callbacks_of. by destruct (settings_ m !! u). Qed.

Lemma update_target_no_new id j m o m' calls : UpdateTargetUnit id j m = (o, m', calls) -> no_new m m' calls.
Proof.
  unfold UpdateTargetUnit. destruct (id =? MISSING_UNIT_ID); [intros [= <- <- <-]; apply no_new_refl |].
  destruct (Setter_Update j (setter_of m id)) as [[o' s] calls'] eqn:E. intros [= <- <- <-].
  pose proof (update_callbacks _ _ _ _ _ E) as Hcb. rewrite setter_of_callbacks_of in Hcb. split.
  - intros u uuid cb. cbn. rewrite callbacks_of_insert. destruct (decide (u = id)) as [-> |]; [by rewrite Hcb | done].
  - intros cb d Hin. unfold Setter_Update in E. destruct (UpdateInternal j (setter_of m id)) as [[[] |] s0]; injection E as <- <- <-;
      [| by apply elem_of_nil in Hin | by apply elem_of_nil in Hin].
    apply invocations_in in Hin as [uuid Hu]. exists id, uuid. by rewrite <- Hcb.
Qed.

Lemma remove_target_no_new id m : no_new m (snd (RemoveTargetUnit id m)) [].
Proof.
  unfold RemoveTargetUnit. destruct (id =? MISSING_UNIT_ID); [apply no_new_refl |]. split; [| by intros cb d ?%elem_of_nil].
  intros u uuid cb. cbn. unfold callbacks_of. destruct (decide (u = id)) as [-> |]; [by rewrite lookup_delete_eq | by rewrite lookup_delete_ne].
Qed.

Lemma renew_no_new j m ok m' calls : RenewAfterReset j m = (ok, m', calls) -> no_new m m' calls.
Proof.
  unfold RenewAfterReset. destruct j as [| | | | | items |]; try (intros [= <- <- <-]; apply no_new_refl).
  unfold renew_prepare. destruct (sort_cluster _ items) as [cluster |]; [| intros [= <- <- <-]; apply no_new_refl]. cbn [mbind option_bind].
  unfold renew_rollback, renew_swap, renew_trigger, with_settings. cbn [settings_ unit_key_name_].
  destruct (preparation_ok (prepare (settings_ m) cluster)) eqn:Eok; cbn [negb]; intros [= <- <- <-].
  2: { rewrite rollback_restores. destruct m. apply no_new_refl. }
  assert (forall u s, hand_over (prepare (settings_ m) cluster) !! u = Some s -> callbacks_ s = callbacks_of (settings_ m) u) as Hh.
  { intros u s Hs. rewrite hand_over_lookup in Hs by done. by apply fmap_Some in Hs as (s0 & _ & ->). }
  split; cbn.
  - intros u uuid cb. unfold callbacks_of at 1. destruct (hand_over _ !! u) as [s |] eqn:E; cbn; [| by rewrite lookup_empty]. by rewrite (Hh u s E).
  - intros cb d Hin. apply list_elem_of_In, in_flat_map in Hin as ([u s] & Hu & Hin). apply list_elem_of_In, elem_of_map_to_list in Hu.
    cbn in Hin. unfold TriggerCallbacks in Hin. destruct (is_initialized_ s); [| done].
    apply list_elem_of_In, invocations_in in Hin as [uuid Hcb]. exists u, uuid. by rewrite <- (Hh u s Hu).
Qed.

Lemma update_units_no_new body units m o m' calls : update_units body units m = (o, m', calls) -> no_new m m' calls.
Proof.
  revert m o m' calls. induction units as [| u units IH]; intros m o m' calls; cbn [update_units]; [intros [= <- <- <-]; apply no_new_refl |].
  destruct (filterJsonArray _ _ _) as [j |]; [| intros [= <- <- <-]; apply no_new_refl].
  destruct (UpdateTargetUnit u j m) as [[[b |] m1] c1] eqn:E1; apply update_target_no_new in E1; [| by intros [= <- <- <-]].
  destruct (update_units body units m1) as [[o2 m2] c2] eqn:E2. intros [= <- <- <-]. eapply no_new_trans; [done | by eapply IH].
Qed.

Lemma run_no_new GET js m o m' calls : SioEventBinder_Run GET js m = (o, m', calls) -> no_new m m' calls.
Proof.
  unfold SioEventBinder_Run. destruct (_BC_GET_Internal GET js "camera_id") as [[body |] |]; try (intros [= <- <- <-]; apply no_new_refl).
  destruct (update_units body _ m) as [[o1 m1] c1] eqn:E. intros [= <- <- <-]. by eapply update_units_no_new.
Qed.

(** A registration, with the identifier it returns. *)
Lemma register_callbacks id cb uuid m res m' :
  RegisterCallback id cb uuid m = (res, m') ->
  (res = ""%string /\ no_new m m' []) \/
  (res = uuid /\ uuid <> ""%string /\ id <> MISSING_UNIT_ID /\
   forall u, callbacks_of (settings_ m') u = if decide (u = id) then <[uuid := cb]> (callbacks_of (settings_ m) u) else callbacks_of (settings_ m) u).
Proof.
  unfold RegisterCallback. destruct (Z.eqb_spec id MISSING_UNIT_ID) as [| Hid]; [intros [= <- <-]; left; split; [done | apply no_new_refl] |].
  unfold Setter_RegisterCallback. destruct (String.eqb_spec uuid "") as [| Hu]; intros [= <- <-].
  - left. split; [done |]. split; [| by intros ? ? ?%elem_of_nil]. intros u uuid' cb'. cbn. rewrite callbacks_of_insert.
    destruct (decide (u = id)) as [-> |]; [by rewrite setter_of_callbacks_of | done].
  - right. split; [done |]. split; [done |]. split; [done |]. intros u. cbn. rewrite callbacks_of_insert.
    destruct (decide (u = id)) as [-> |]; [| done]. cbn. by rewrite setter_of_callbacks_of.
Qed.

Lemma unregister_callbacks id uuid m :
  id <> MISSING_UNIT_ID -> uuid <> ""%string ->
  forall u, callbacks_of (settings_ (snd (UnregisterCallback id uuid m))) u =
    if decide (u = id) then delete uuid (callbacks_of (settings_ m) u) else callbacks_of (settings_ m) u.
Proof.
  intros Hid Hu u. unfold UnregisterCallback. rewrite (proj2 (Z.eqb_neq _ _) Hid), (proj2 (String.eqb_neq _ _) Hu).
  destruct (settings_ m !! id) as [s |] eqn:E.
  - unfold Setter_UnregisterCallback. rewrite (proj2 (String.eqb_neq _ _) Hu). cbn. rewrite callbacks_of_insert.
    destruct (decide (u = id)) as [-> |]; [| done]. cbn. unfold callbacks_of. by rewrite E.
  - cbn. destruct (decide (u = id)) as [-> |]; [| done]. unfold callbacks_of. rewrite E. cbn. by rewrite delete_empty.
Qed.

Lemma unregister_no_new id uuid m : no_new m (snd (UnregisterCallback id uuid m)) [].
Proof.
  destruct (decide (id = MISSING_UNIT_ID)) as [-> | Hid]; [unfold UnregisterCallback; rewrite Z.eqb_refl; apply no_new_refl |].
  destruct (decide (uuid = ""%string)) as [-> | Hu]; [unfold UnregisterCallback; rewrite (proj2 (Z.eqb_neq _ _) Hid); apply no_new_refl |].
  split; [| by intros ? ? ?%elem_of_nil]. intros u uuid' cb. rewrite unregister_callbacks by done.
  destruct (decide (u = id)) as [-> |]; [| done]. by intros [_ ?]%lookup_delete_Some.
Qed.
End Manager.

(** ** The facade *)

Section World.
Context {C : Type} `{!EqDecision C} (GET : string -> Z * json) (my_local_ip : string).
Abbreviation Facade := (Facade C).

Definition registered (f : Facade) (k : SettingKind) (u : Z) : gmap string C :=
  match k with
  | Excludes => from_option (fun m => callbacks_of (settings_ m) u) ∅ (exclude_cam_settings f)
  | Schedules => from_option (fun m => callbacks_of (settings_ m) u) ∅ (schedule_settings f)
  end.

Definition other (k : SettingKind) : SettingKind := match k with Excludes => Schedules | Schedules => Excludes end.

Lemma register_cases k id cb uuid (f : Facade) res f' :
  RegisterSettingCallback k id cb uuid f = (res, f') ->
  (res = ""%string /\ forall k' u uuid' cb', registered f' k' u !! uuid' = Some cb' -> registered f k' u !! uuid' = Some cb') \/
  (res = uuid /\ uuid <> ""%string /\ id <> MISSING_UNIT_ID /\
   forall k' u uuid' cb', registered f' k' u !! uuid' = Some cb' -> (k' = k /\ u = id /\ uuid' = uuid /\ cb' = cb) \/ registered f k' u !! uuid' = Some cb').
Proof.
  intros H.
  assert (forall D (H0 : SettingType D) (m m' : SettingManagerBase D C), RegisterCallback id cb uuid m = (res, m') ->
    (res = ""%string /\ no_new m m' []) \/ (res = uuid /\ uuid <> ""%string /\ id <> MISSING_UNIT_ID /\
     forall u uuid' cb', callbacks_of (settings_ m') u !! uuid' = Some cb' -> (u = id /\ uuid' = uuid /\ cb' = cb) \/ callbacks_of (settings_ m) u !! uuid' = Some cb')) as Hm.
  { intros D H0 m m' [[-> Hn] | (-> & Hu & Hid & Hcb)]%register_callbacks; [by left | right]. split_and!; try done.
    intros u uuid' cb'. rewrite Hcb. destruct (decide (u = id)) as [-> |]; [| by right].
    intros [[<- <-] | [Hne Hin]]%lookup_insert_Some; [by left | by right]. }
  unfold RegisterSettingCallback in H. destruct k.
  - destruct (exclude_cam_settings f) as [m |] eqn:E; [| injection H as <- <-; by left].
    destruct (RegisterCallback id cb uuid m) as [r m'] eqn:Er. injection H as -> <-. destruct (Hm _ _ m m' Er) as [(-> & Hn & _) | (-> & Hu & Hid & Hcb)].
    + left. split; [done |]. intros [|] u uuid' cb'; cbn; rewrite ?E; cbn; [apply Hn | done].
    + right. split_and!; try done. intros [|] u uuid' cb'; cbn; rewrite ?E; cbn; [intros [Hl | Hr]%Hcb; [by left | by right] | by right].
  - destruct (schedule_settings f) as [m |] eqn:E; [| injection H as <- <-; by left].
    destruct (RegisterCallback id cb uuid m) as [r m'] eqn:Er. injection H as -> <-. destruct (Hm _ _ m m' Er) as [(-> & Hn & _) | (-> & Hu & Hid & Hcb)].
    + left. split; [done |]. intros [|] u uuid' cb'; cbn; rewrite ?E; cbn; [done | apply Hn].
    + right. split_and!; try done. intros [|] u uuid' cb'; cbn; rewrite ?E; cbn; [by right | intros [Hl | Hr]%Hcb; [by left | by right]].
Qed.

Lemma unregister_cases k id uuid (f : Facade) k' u uuid' cb' :
  registered (snd (UnregisterSettingCallback k id uuid f)) k' u !! uuid' = Some cb' ->
  registered f k' u !! uuid' = Some cb' /\ (id <> MISSING_UNIT_ID -> uuid <> ""%string -> ~ (k' = k /\ u = id /\ uuid' = uuid)).
Proof.
  assert (forall D (H0 : SettingType D) (m : SettingManagerBase D C), callbacks_of (settings_ (snd (UnregisterCallback id uuid m))) u !! uuid' = Some cb' ->
    callbacks_of (settings_ m) u !! uuid' = Some cb' /\ (id <> MISSING_UNIT_ID -> uuid <> ""%string -> ~ (u = id /\ uuid' = uuid))) as Hm.
  { intros D H0 m Hin. split; [by apply (proj1 (unregister_no_new id uuid m)) |]. intros Hid Hu [-> ->].
    rewrite unregister_callbacks in Hin by done. rewrite decide_True in Hin by done. by rewrite lookup_delete_eq in Hin. }
  unfold UnregisterSettingCallback. destruct k.
  - destruct (exclude_cam_settings f) as [m |] eqn:E; [| cbn; intros Hin; split; [done |]; intros _ _ (-> & _ & _); cbn in Hin; rewrite E in Hin; discriminate Hin].
    destruct (UnregisterCallback id uuid m) as [r m'] eqn:Er. specialize (Hm _ _ m). rewrite Er in Hm. destruct k'; cbn; rewrite ?E; cbn.
    + intros [H1 H2]%Hm. split; [done |]. intros Hid Hu (_ & Hx). by apply H2.
    + intros Hin. split; [done |]. by intros _ _ [? _].
  - destruct (schedule_settings f) as [m |] eqn:E; [| cbn; intros Hin; split; [done |]; intros _ _ (-> & _ & _); cbn in Hin; rewrite E in Hin; discriminate Hin].
    destruct (UnregisterCallback id uuid m) as [r m'] eqn:Er. specialize (Hm _ _ m). rewrite Er in Hm. destruct k'; cbn; rewrite ?E; cbn.
    + intros Hin. split; [done |]. by intros _ _ [? _].
    + intros [H1 H2]%Hm. split; [done |]. intros Hid Hu (_ & Hx). by apply H2.
Qed.

Lemma manager_from_callbacks {D} `{!SettingType D} (j : json) u : callbacks_of (settings_ (manager_from (C := C) (D := D) j)) u = ∅.
Proof.
  unfold manager_from. destruct (RenewAfterReset j (mkManager "CameraId" ∅)) as [[ok m] calls] eqn:E. apply renew_no_new in E as [E _].
  apply map_empty. intros uuid. destruct (callbacks_of (settings_ m) u !! uuid) as [cb |] eqn:Ecb; [| done]. by apply E in Ecb.
Qed.

(** Starting up registers nothing. *)
Lemma initialize_no_new tag (f : Facade) k u uuid cb :
  registered (snd (Initialize GET my_local_ip tag f)) k u !! uuid = Some cb -> registered f k u !! uuid = Some cb.
Proof.
  assert (forall f' o, InitializeImpl_DETECTOR_BaseForm GET my_local_ip f = (o, f') ->
    (exclude_cam_settings f' = exclude_cam_settings f \/ exists j, exclude_cam_settings f' = Some (manager_from j)) /\
    (schedule_settings f' = schedule_settings f \/ exists j, schedule_settings f' = Some (manager_from j))) as Himpl.
  { intros f' o. unfold InitializeImpl_DETECTOR_BaseForm, SetCameraCluster_DETECTOR, SetServerSetting, bind, ret, lift, modify, get.
    repeat case_match; intros Hf; simplify_eq/=; eauto 10. }
  unfold Initialize. destruct (initialization_succeeded f); [done |].
  destruct (String.eqb tag "DETECTOR"); [| done]. destruct (InitializeImpl_DETECTOR_BaseForm GET my_local_ip f) as [o f'] eqn:E.
  destruct (Himpl f' o eq_refl) as [He Hs]. intros Hin.
  assert (registered f' k u !! uuid = Some cb) as Hin' by (destruct o as [[]|]; exact Hin). clear Hin. destruct k; cbn in Hin' |- *.
  - destruct He as [<- | [j Hj]]; [done |]. rewrite Hj in Hin'. cbn in Hin'. rewrite manager_from_callbacks in Hin'. discriminate Hin'.
  - destruct Hs as [<- | [j Hj]]; [done |]. rewrite Hj in Hin'. cbn in Hin'. rewrite manager_from_callbacks in Hin'. discriminate Hin'.
Qed.

(** ** A unit among others

    What the unit with the monitor does, and what everyone else does. *)
Inductive Op :=
| Subscribe_ (k : SettingKind) (cb : C) (u : Z) (uuid : string)
| Unsubscribe_ (uuid : string)
| Clear
| Register_ (k : SettingKind) (u : Z) (cb : C) (uuid : string)
| Unregister_ (k : SettingKind) (u : Z) (uuid : string)
| Notify (k : SettingKind) (js : json)
| Renew_ (k : SettingKind) (js : json)
| Update_ (k : SettingKind) (u : Z) (js : json)
| Remove_ (k : SettingKind) (u : Z)
| Startup (tag : string).

(** A change of the manager of a kind, with the callbacks it calls. *)
Definition on_manager (k : SettingKind) (op : forall D, SettingType D -> SettingManagerBase D C -> SettingManagerBase D C * list (C * Setting D))
    (f : Facade) : list C * Facade :=
  match k with
  | Excludes => match exclude_cam_settings f with Some m => let '(m, calls) := op _ _ m in (calls.*1, with_excludes (Some m) f) | None => ([], f) end
  | Schedules => match schedule_settings f with Some m => let '(m, calls) := op _ _ m in (calls.*1, with_schedules (Some m) f) | None => ([], f) end
  end.

Definition run_op (op : Op) (w : Facade * SettingMonitor) : list C * (Facade * SettingMonitor) :=
  let '(f, mon) := w in
  match op with
  | Subscribe_ k cb u uuid => let '(_, f, mon) := SubscribeSetting k cb u uuid f mon in ([], (f, mon))
  | Unsubscribe_ uuid => let '(_, f, mon) := Unsubscribe uuid f mon in ([], (f, mon))
  | Clear => ([], ClearAllSubscriptions f mon)
  | Register_ k u cb uuid => ([], (snd (RegisterSettingCallback k u cb uuid f), mon))
  | Unregister_ k u uuid => ([], (snd (UnregisterSettingCallback k u uuid f), mon))
  | Notify k js => let '(cs, f) := on_manager k (fun D _ m => let '(_, m, c) := SioEventBinder_Run GET js m in (m, c)) f in (cs, (f, mon))
  | Renew_ k js => let '(cs, f) := on_manager k (fun D _ m => let '(_, m, c) := RenewAfterReset js m in (m, c)) f in (cs, (f, mon))
  | Update_ k u js => let '(cs, f) := on_manager k (fun D _ m => let '(_, m, c) := UpdateTargetUnit u js m in (m, c)) f in (cs, (f, mon))
  | Remove_ k u => let '(cs, f) := on_manager k (fun D _ m => (snd (RemoveTargetUnit u m), [])) f in (cs, (f, mon))
  | Startup tag => ([], (snd (Initialize GET my_local_ip tag f), mon))
  end.

Fixpoint run_all (ops : list Op) (w : Facade * SettingMonitor) : list C * (Facade * SettingMonitor) :=
  match ops with
  | [] => ([], w)
  | op :: ops => let '(c1, w) := run_op op w in let '(c2, w) := run_all ops w in (c1 ++ c2, w)
  end.

Lemma on_manager_no_new k op f calls f' :
  (forall D H m, no_new m (fst (op D H m)) (snd (op D H m))) -> on_manager k op f = (calls, f') ->
  (forall k' u uuid cb, registered f' k' u !! uuid = Some cb -> registered f k' u !! uuid = Some cb) /\
  (forall cb, cb ∈ calls -> exists k' u uuid, registered f k' u !! uuid = Some cb).
Proof.
  intros Hop. unfold on_manager. destruct k; destruct (match _ with Some _ => _ | None => _ end) as [cs f1] eqn:E; intros [= <- <-].
  - destruct (exclude_cam_settings f) as [m |] eqn:Em; [| injection E as <- <-; split; [done | by intros cb ?%elem_of_nil]].
    specialize (Hop _ _ m). destruct (op _ _ m) as [m' c]. injection E as <- <-. destruct Hop as [H1 H2]. cbn in H1, H2. split.
    + intros [|] u uuid cb; cbn; rewrite ?Em; cbn; [apply H1 | done].
    + intros cb ([cb' d] & -> & Hin)%list_elem_of_fmap. destruct (H2 cb' d Hin) as (u & uuid & Hu). exists Excludes, u, uuid. cbn. by rewrite Em.
  - destruct (schedule_settings f) as [m |] eqn:Em; [| injection E as <- <-; split; [done | by intros cb ?%elem_of_nil]].
    specialize (Hop _ _ m). destruct (op _ _ m) as [m' c]. injection E as <- <-. destruct Hop as [H1 H2]. cbn in H1, H2. split.
    + intros [|] u uuid cb; cbn; rewrite ?Em; cbn; [done | apply H1].
    + intros cb ([cb' d] & -> & Hin)%list_elem_of_fmap. destruct (H2 cb' d Hin) as (u & uuid & Hu). exists Schedules, u, uuid. cbn. by rewrite Em.
Qed.

(** [mine]: the callbacks that point into the unit. *)
Context (mine : C -> bool).

Definition op_ok (op : Op) : Prop := match op with Register_ _ _ cb _ => mine cb = false | _ => True end.
Definition subscribed (ops : list Op) : list string := omap (fun op => match op with Subscribe_ _ _ _ uuid => Some uuid | _ => None end) ops.

(** The monitor knows where the unit's callbacks are. *)
Record tracked (w : Facade * SettingMonitor) : Prop := {
  tr_known k u uuid cb : mine cb = true -> registered w.1 k u !! uuid = Some cb -> w.2 !! uuid = Some (k, u);
  tr_valid k u uuid : w.2 !! uuid = Some (k, u) -> u <> MISSING_UNIT_ID /\ uuid <> ""%string
}.

Lemma tracked_sub f f' mon :
  (forall k u uuid cb, registered f' k u !! uuid = Some cb -> mine cb = true -> registered f k u !! uuid = Some cb) -> tracked (f, mon) -> tracked (f', mon).
Proof. intros Hs [H1 H2]. split; [| exact H2]. cbn in *. intros k u uuid cb Hm Hin. by eapply H1, Hs. Qed.

Lemma clear_spec (l : list (string * (SettingKind * Z))) (f : Facade) k u uuid cb :
  (forall uuid k u, (uuid, (k, u)) ∈ l -> u <> MISSING_UNIT_ID /\ uuid <> ""%string) ->
  registered (foldl (fun f p => snd (UnregisterSettingCallback (fst (snd p)) (snd (snd p)) (fst p) f)) f l) k u !! uuid = Some cb ->
  registered f k u !! uuid = Some cb /\ (uuid, (k, u)) ∉ l.
Proof.
  revert f. induction l as [| [uuid1 [k1 u1]] l IH]; intros f Hv; cbn [foldl]; [intros Hin; split; [done | by intros ?%elem_of_nil] |].
  intros [Hin Hni]%IH; [| intros ? ? ? Hl; apply (Hv _ k0); by right]. cbn [fst snd] in Hin. apply unregister_cases in Hin as [Hin Hne]. split; [done |].
  intros [Heq | Hl]%elem_of_cons; [| done]. injection Heq as -> -> ->. destruct (Hv uuid1 k1 u1) as [H1 H2]; [by left |]. by destruct (Hne H1 H2).
Qed.

Lemma clear_tracked f mon : tracked (f, mon) -> forall k u uuid cb, registered (fst (ClearAllSubscriptions f mon)) k u !! uuid = Some cb -> mine cb = false.
Proof.
  intros [H1 H2] k u uuid cb Hin. cbn in *. apply clear_spec in Hin as [Hin Hni].
  - destruct (mine cb) eqn:Em; [| done]. destruct Hni. apply elem_of_map_to_list. by eapply H1.
  - intros uuid' k' u' Hl. apply elem_of_map_to_list in Hl. by eapply H2.
Qed.

Lemma run_op_tracked op f mon calls w :
  op_ok op -> (forall uuid, uuid ∈ subscribed [op] -> mon !! uuid = None) -> tracked (f, mon) -> run_op op (f, mon) = (calls, w) ->
  tracked w /\ (forall uuid, is_Some (w.2 !! uuid) -> is_Some (mon !! uuid) \/ uuid ∈ subscribed [op]) /\
  (forall cb, cb ∈ calls -> exists k u uuid, registered f k u !! uuid = Some cb).
Proof.
  intros Hok Hfresh Ht. pose proof Ht as [Hk Hv]. cbn [fst snd] in *.
  assert (forall (f' : Facade) (cs : list C), (forall k' u uuid cb, registered f' k' u !! uuid = Some cb -> registered f k' u !! uuid = Some cb) ->
    (forall cb, cb ∈ cs -> exists k' u uuid, registered f k' u !! uuid = Some cb) ->
    tracked (f', mon) /\ (forall uuid, is_Some (mon !! uuid) -> is_Some (mon !! uuid) \/ uuid ∈ subscribed [op]) /\
    (forall cb, cb ∈ cs -> exists k u uuid, registered f k u !! uuid = Some cb)) as Hsub.
  { intros f' cs H1 H2. split; [| split; [by left | done]]. apply (tracked_sub f); [| done]. intros. by apply H1. }
  assert (forall cb, cb ∈ @nil C -> exists k' u uuid, registered f k' u !! uuid = Some cb) as Hnil by (by intros cb ?%elem_of_nil).
  destruct op as [k cb u uuid | uuid | | k u cb uuid | k u uuid | k js | k js | k u js | k u | tag]; cbn [run_op].
  - unfold SubscribeSetting. destruct (RegisterSettingCallback k u cb uuid f) as [res f'] eqn:Er. apply register_cases in Er as [[-> Hs] | (-> & Hu & Hid & Hs)].
    + cbn. intros [= <- <-]. by apply Hsub.
    + rewrite (proj2 (String.eqb_neq _ _) Hu). intros [= <- <-]. split; [| split; [| done]].
      * split; cbn.
        -- intros k' u' uuid' cb' Hm Hin. destruct (Hs _ _ _ _ Hin) as [(-> & -> & -> & _) | Hold]; [by rewrite lookup_insert_eq |].
           rewrite lookup_insert_ne; [by eapply Hk |]. intros <-. apply (Hk _ _ _ _ Hm) in Hold. rewrite Hfresh in Hold; [done |]. cbn. by left.
        -- intros k' u' uuid' [[<- [= <- <-]] | [_ Hin]]%lookup_insert_Some; [done | by eapply Hv].
      * cbn. intros uuid'. destruct (decide (uuid' = uuid)) as [-> |]; [right; by left |]. rewrite lookup_insert_ne by done. by left.
  - unfold Unsubscribe. destruct (String.eqb uuid ""); [intros [= <- <-]; by apply Hsub |].
    destruct (mon !! uuid) as [[k u] |] eqn:Em; [| intros [= <- <-]; by apply Hsub].
    destruct (UnregisterSettingCallback k u uuid f) as [res f'] eqn:Eu. intros [= <- <-]. destruct (Hv _ _ _ Em) as [Hid Hu]. split; [| split; [| done]].
    + split; cbn.
      * intros k' u' uuid' cb' Hm Hin. pose proof (unregister_cases k u uuid f k' u' uuid' cb') as Hc. rewrite Eu in Hc. destruct (Hc Hin) as [Hold Hne].
        specialize (Hne Hid Hu). pose proof (Hk _ _ _ _ Hm Hold) as Hmon. rewrite lookup_delete_ne; [done |]. intros <-. rewrite Em in Hmon. injection Hmon as <- <-. by destruct Hne.
      * intros k' u' uuid' [_ Hin]%lookup_delete_Some. by eapply Hv.
    + cbn. intros uuid' [x [_ Hin]%lookup_delete_Some]. left. by eexists.
  - intros [= <- <-]. split; [| split; [| done]].
    + split; [| by cbn]. cbn [fst snd ClearAllSubscriptions]. intros k u uuid cb Hm Hin. rewrite (clear_tracked f mon Ht k u uuid cb Hin) in Hm. done.
    + cbn. intros uuid [x Hx]. by rewrite lookup_empty in Hx.
  - intros [= <- <-]. split; [| split; [by left | done]]. apply (tracked_sub f); [| done]. intros k' u' uuid' cb' Hin Hm.
    destruct (RegisterSettingCallback k u cb uuid f) as [res f'] eqn:Er. apply register_cases in Er as [[_ Hs] | (_ & _ & _ & Hs)]; [by apply Hs |].
    destruct (Hs _ _ _ _ Hin) as [(_ & _ & _ & ->) | Hold]; [cbn in Hok; congruence | done].
  - intros [= <- <-]. apply Hsub; [| done]. intros k' u' uuid' cb' Hin. by apply unregister_cases in Hin as [Hin _].
  - destruct (on_manager _ _ f) as [cs f'] eqn:E. intros [= <- <-]. apply on_manager_no_new in E as [H1 H2]; [by apply Hsub |].
    intros D H m. destruct (SioEventBinder_Run GET js m) as [[o m'] c] eqn:Em. by eapply run_no_new.
  - destruct (on_manager _ _ f) as [cs f'] eqn:E. intros [= <- <-]. apply on_manager_no_new in E as [H1 H2]; [by apply Hsub |].
    intros D H m. destruct (RenewAfterReset js m) as [[o m'] c] eqn:Em. by eapply renew_no_new.
  - destruct (on_manager _ _ f) as [cs f'] eqn:E. intros [= <- <-]. apply on_manager_no_new in E as [H1 H2]; [by apply Hsub |].
    intros D H m. destruct (UpdateTargetUnit u js m) as [[o m'] c] eqn:Em. by eapply update_target_no_new.
  - destruct (on_manager _ _ f) as [cs f'] eqn:E. intros [= <- <-]. apply on_manager_no_new in E as [H1 H2]; [by apply Hsub |].
    intros D H m. apply remove_target_no_new.
  - intros [= <- <-]. apply Hsub; [| done]. intros k' u' uuid' cb' Hin. by apply initialize_no_new in Hin.
Qed.

Lemma run_all_tracked ops w calls w' :
  Forall op_ok ops -> NoDup (subscribed ops) -> (forall uuid, uuid ∈ subscribed ops -> w.2 !! uuid = None) -> tracked w ->
  run_all ops w = (calls, w') -> tracked w'.
Proof.
  revert w calls. induction ops as [| op ops IH]; intros [f mon] calls Hok Hnd Hfresh Ht; cbn [run_all]; [by intros [= _ <-] |].
  destruct (run_op op (f, mon)) as [c1 w1] eqn:E1. destruct (run_all ops w1) as [c2 w2] eqn:E2. intros [= _ <-].
  apply Forall_cons in Hok as [Hok Hoks]. assert (subscribed (op :: ops) = subscribed [op] ++ subscribed ops) as Hs by (destruct op; done).
  rewrite Hs in Hnd, Hfresh. apply NoDup_app in Hnd as (_ & Hdis & Hnd).
  destruct (run_op_tracked op f mon c1 w1 Hok) as (Ht1 & Hdom & _); [intros uuid Hu; apply Hfresh, elem_of_app; by left | done | done |].
  eapply IH; try done. intros uuid Hu. destruct (w1.2 !! uuid) as [x |] eqn:Ex; [| done].
  destruct (Hdom uuid ltac:(by eexists)) as [[y Hy] | Hin]; [| by destruct (Hdis uuid Hin)]. rewrite Hfresh in Hy; [done |]. apply elem_of_app. by right.
Qed.

Lemma run_all_clean ops f mon :
  Forall op_ok ops -> subscribed ops = [] -> (forall k u uuid cb, registered f k u !! uuid = Some cb -> mine cb = false) -> mon = ∅ ->
  Forall (fun cb => mine cb = false) (fst (run_all ops (f, mon))).
Proof.
  revert f mon. induction ops as [| op ops IH]; intros f mon Hok Hs Hclean ->; cbn [run_all]; [constructor |].
  destruct (run_op op (f, ∅)) as [c1 [f1 mon1]] eqn:E1. apply Forall_cons in Hok as [Hok Hoks].
  assert (subscribed [op] = [] /\ subscribed ops = []) as [Hs1 Hs2] by (by destruct op).
  assert (tracked (f, ∅)) as Ht by (split; [intros k u uuid cb Hm Hin; cbn in Hin; rewrite (Hclean k u uuid cb Hin) in Hm; discriminate Hm | by intros k u uuid Hin]).
  destruct (run_op_tracked op f ∅ c1 (f1, mon1) Hok) as ([Hk1 _] & Hdom & Hcalls); [by rewrite Hs1 | done | done |]. cbn [fst snd] in *.
  assert (mon1 = ∅) as ->.
  { apply map_empty. intros uuid. destruct (mon1 !! uuid) as [x |] eqn:Ex; [| done]. destruct (Hdom uuid ltac:(by eexists)) as [[y Hy] | Hin]; [by rewrite lookup_empty in Hy |].
    rewrite Hs1 in Hin. by apply elem_of_nil in Hin. }
  destruct (run_all ops (f1, ∅)) as [c2 w2] eqn:E2. cbn [fst]. apply Forall_app. split.
  - apply Forall_forall. intros cb Hin. destruct (Hcalls cb Hin) as (k & u & uuid & Hu). by eapply Hclean.
  - replace c2 with (fst (run_all ops (f1, ∅))) by (by rewrite E2). apply IH; try done. intros k u uuid cb Hin.
    destruct (mine cb) eqn:Em; [| done]. apply (Hk1 k u uuid cb Em) in Hin. by rewrite lookup_empty in Hin.
Qed.

(** C24: a unit that has cleared its subscriptions is never called again.  Whatever it
    subscribed to and gave up, whatever notifications, renewals, restarts and subscriptions of
    others came in between, in any order, once it has cleared its subscriptions no
    later change of the settings calls back into it.  This needs that the random
    identifiers of its own subscriptions differ, and that an operation of a manager is one
    step: a change that has taken its copy of the callbacks before the unit clears them
    still calls it, and the sections of a renewal are not interleaved. *)
Theorem unsubscribed_never_called before after calls w :
  Forall op_ok (before ++ after) -> NoDup (subscribed before) -> subscribed after = [] ->
  run_all before (Facade_make, ∅) = (calls, w) ->
  Forall (fun cb => mine cb = false) (fst (run_all after (snd (run_op Clear w)))).
Proof.
  intros [Hok1 Hok2]%Forall_app Hnd Hs Hrun. destruct w as [f mon].
  assert (tracked (f, mon)) as Ht.
  { eapply run_all_tracked; [exact Hok1 | exact Hnd | | | exact Hrun]; [done |]. split; [by intros [|] u uuid cb _ Hin | by intros k u uuid Hin]. }
  cbn [run_op snd]. pose proof (clear_tracked f mon Ht) as Hclean. destruct (ClearAllSubscriptions f mon) as [f' mon'] eqn:E. cbn [fst] in Hclean.
  apply run_all_clean; [done | done | done |]. by injection E as _ <-.
Qed.
End World.

(** ** Examples *)

(** A server with one camera that answers every request. *)
Definition demo_GET (url : string) : Z * json :=
  if String.eqb url "/server?ip=10.0.0.1" then (200, JArray [JObject [("Id", JInt 5); ("Setting", JObject [])]%string])
  else if String.eqb url "/cluster?server_id=5" then (200, JArray [JObject [("CameraId", JInt 7)]%string])
  else (200, JArray []).

Definition demo_exclusion (b : bool) : json := JArray [JObject [("CameraId", JInt 7); ("IsExclude", JBool b)]%string].

Example demo_startup : let '(ok, f) := Initialize demo_GET "10.0.0.1" "DETECTOR" (Facade_make (C := bool)) in
  ok = true /\ server_service_id f = 5 /\ GetCameraIDSet f = {[7]}.
Proof. vm_compute. done. Qed.

Definition demo_before : list (Op (C := bool)) :=
  [Startup "DETECTOR"; Subscribe_ Excludes true 7 "a"; Register_ Excludes 7 false "b"; Update_ Excludes 7 (demo_exclusion true); Renew_ Excludes (demo_exclusion false)].

(** [true] stands for the unit's callback, [false] for one of someone else. *)
Lemma unsubscribed_never_called_witness :
  fst (run_all demo_GET "10.0.0.1" demo_before (Facade_make, ∅)) = [true; false; true; false] /\
  Forall (fun cb => cb = false) (fst (run_all demo_GET "10.0.0.1" [Update_ Excludes 7 (demo_exclusion true)]
    (snd (run_op demo_GET "10.0.0.1" Clear (snd (run_all demo_GET "10.0.0.1" demo_before (Facade_make, ∅))))))).
Proof.
  split; [vm_compute; reflexivity |].
  destruct (run_all demo_GET "10.0.0.1" demo_before (Facade_make, ∅)) as [calls w] eqn:E. cbn [snd].
  apply (unsubscribed_never_called demo_GET "10.0.0.1" (fun cb => cb) demo_before _ calls w); [| | done | exact E].
  - by repeat constructor.
  - apply (bool_decide_unpack _). vm_compute. exact I.
Defined.


