(* ===== verification/ServiceGraph.v ===== *)
(** * The graph of service blocks

    [BasicLibs/profile/ServiceBlockProfile.h] and [.cpp], [ServiceProfile.h] and
    [ServiceProfileBuilder.cpp]: the blocks of a service, the streams between them, the
    order in which they can run, and the validation at start-up.  An [unordered_map]
    is visited in the order of [map_to_list]; the theorems hold for every graph, whatever
    its identifiers.  An in-degree is at most the number of blocks, so its [int] is a [Z].
    [ToDOTGraph], a drawing for the log, is left out. *)

From stdpp Require Import gmap list.
From S2P Require Import Prelude.
Open Scope Z_scope.
Open Scope list_scope.

Definition SERVICE_BLOCK_ID_NOT_SET : Z := -1.
Definition SERVICE_BLOCK_ID_BOOT_LOADER : Z := 0.
Definition SERVICE_BLOCK_ID_EXTERN_SERV : Z := 99.

Inductive ServiceStreamType := StreamNone | InternalQueueing | StreamSocketIO | StreamRTSP | StreamGRPC.
Inductive ServiceBlockModuleType := DETECTOR_RTSP | DETECTOR_SocketIO.
Inductive ServiceBlockBuildType := Unique | ByUnit.

#[export] Instance ServiceStreamType_eq_dec : EqDecision ServiceStreamType.
Proof. solve_decision. Defined.
#[export] Instance ServiceStreamType_countable : Countable ServiceStreamType :=
  inj_countable' (fun t => match t with StreamNone => 0 | InternalQueueing => 1 | StreamSocketIO => 2 | StreamRTSP => 3 | StreamGRPC => 4 end)%nat
    (fun n => match n with 0 => StreamNone | 1 => InternalQueueing | 2 => StreamSocketIO | 3 => StreamRTSP | _ => StreamGRPC end)%nat
    (fun t => match t with StreamNone | InternalQueueing | StreamSocketIO | StreamRTSP | StreamGRPC => eq_refl end).
#[export] Instance ServiceBlockModuleType_eq_dec : EqDecision ServiceBlockModuleType.
Proof. solve_decision. Defined.

(** ** A block *)

Record ServiceBlockProfile := mkBlock {
  service_block_id_ : Z;
  module_type_ : ServiceBlockModuleType;
  build_type_ : ServiceBlockBuildType;
  input_sources_ : gmap Z ServiceStreamType;
  output_targets_ : gmap Z ServiceStreamType
}.

Definition ServiceBlockProfile_make (block_id : Z) (module_type : ServiceBlockModuleType) (build_type : ServiceBlockBuildType) : ServiceBlockProfile :=
  mkBlock block_id module_type build_type ∅ ∅.

Definition with_inputs (b : ServiceBlockProfile) i : ServiceBlockProfile := mkBlock (service_block_id_ b) (module_type_ b) (build_type_ b) i (output_targets_ b).
Definition with_outputs (b : ServiceBlockProfile) o : ServiceBlockProfile := mkBlock (service_block_id_ b) (module_type_ b) (build_type_ b) (input_sources_ b) o.

Definition AddInput (from_id : Z) (t : ServiceStreamType) (b : ServiceBlockProfile) : ServiceBlockProfile := with_inputs b (<[from_id := t]> (input_sources_ b)).
Definition RemoveInput (from_id : Z) (b : ServiceBlockProfile) : ServiceBlockProfile := with_inputs b (delete from_id (input_sources_ b)).
Definition AddOutput (to_id : Z) (t : ServiceStreamType) (b : ServiceBlockProfile) : ServiceBlockProfile := with_outputs b (<[to_id := t]> (output_targets_ b)).
Definition RemoveOutput (to_id : Z) (b : ServiceBlockProfile) : ServiceBlockProfile := with_outputs b (delete to_id (output_targets_ b)).

Definition GetInputStreamType (from_id : Z) (b : ServiceBlockProfile) : option ServiceStreamType := input_sources_ b !! from_id.
Definition GetOutputStreamType (to_id : Z) (b : ServiceBlockProfile) : option ServiceStreamType := output_targets_ b !! to_id.
Definition HasInput (from_id : Z) (b : ServiceBlockProfile) : bool := bool_decide (is_Some (input_sources_ b !! from_id)).
Definition HasOutput (to_id : Z) (b : ServiceBlockProfile) : bool := bool_decide (is_Some (output_targets_ b !! to_id)).

(** No input but those from outside. *)
Definition IsSource (b : ServiceBlockProfile) : bool :=
  bool_decide (input_sources_ b = ∅) || forallb (fun p => fst p =? SERVICE_BLOCK_ID_EXTERN_SERV) (map_to_list (input_sources_ b)).
Definition IsSink (b : ServiceBlockProfile) : bool := bool_decide (output_targets_ b = ∅).

(** ** The graph *)

Record EntireServiceBlockProfileGraph := mkGraph {
  blocks_ : gmap Z ServiceBlockProfile;
  extern_streams_ : gmap Z ServiceStreamType;
  reverse_input_map_ : gmap Z (gset Z)
}.

Abbreviation Graph := EntireServiceBlockProfileGraph.

Definition Graph_make : Graph := mkGraph ∅ ∅ ∅.

Definition HasBlock (id : Z) (g : Graph) : bool := bool_decide (is_Some (blocks_ g !! id)).

Definition AddServiceBlock (id : Z) (module_type : ServiceBlockModuleType) (build_type : ServiceBlockBuildType) (g : Graph) : bool * Graph :=
  if HasBlock id g then (false, g)
  else (true, mkGraph (<[id := ServiceBlockProfile_make id module_type build_type]> (blocks_ g)) (extern_streams_ g) (reverse_input_map_ g)).

Definition add_reverse (to_id from_id : Z) (r : gmap Z (gset Z)) : gmap Z (gset Z) := <[to_id := {[from_id]} ∪ default ∅ (r !! to_id)]> r.

Definition AddStreamPipeline (from_id to_id : Z) (t : ServiceStreamType) (g : Graph) : bool * Graph :=
  if negb (HasBlock from_id g) || negb (HasBlock to_id g) then (false, g)
  else (true, mkGraph (alter (AddOutput to_id t) from_id (alter (AddInput from_id t) to_id (blocks_ g))) (extern_streams_ g)
                (add_reverse to_id from_id (reverse_input_map_ g))).

Definition AddInputFromExtern (to_id : Z) (t : ServiceStreamType) (g : Graph) : bool * Graph :=
  if negb (HasBlock to_id g) then (false, g)
  else (true, mkGraph (alter (AddInput SERVICE_BLOCK_ID_EXTERN_SERV t) to_id (blocks_ g)) (extern_streams_ g)
                (add_reverse to_id SERVICE_BLOCK_ID_EXTERN_SERV (reverse_input_map_ g))).

Definition AddOutputToExtern (from_id : Z) (t : ServiceStreamType) (g : Graph) : bool * Graph :=
  if negb (HasBlock from_id g) then (false, g)
  else (true, mkGraph (blocks_ g) (<[from_id := t]> (extern_streams_ g)) (reverse_input_map_ g)).

Definition GetBlockProfile (id : Z) (g : Graph) : option ServiceBlockProfile := blocks_ g !! id.
Definition GetBlockProfile_of_type (t : ServiceBlockModuleType) (g : Graph) : option ServiceBlockProfile :=
  snd <$> List.find (fun p => bool_decide (module_type_ (snd p) = t)) (map_to_list (blocks_ g)).
Definition GetAllBlockIDs (g : Graph) : list Z := (map_to_list (blocks_ g)).*1.
Definition GetExternServiceStreamList (g : Graph) : gset ServiceStreamType := list_to_set (map_to_list (extern_streams_ g)).*2.

(** ** The order of execution *)

Definition targets (b : ServiceBlockProfile) : list Z := (map_to_list (output_targets_ b)).*1.

(** [in_degree[id]++], from zero when the entry is new. *)
Definition increment (d : gmap Z Z) (id : Z) : gmap Z Z := <[id := default 0 (d !! id) + 1]> d.

Definition initial_in_degree (g : Graph) : gmap Z Z :=
  foldl (fun d p => foldl increment d (targets (snd p)))
    (foldl (fun d p => <[fst p := 0]> d) ∅ (map_to_list (blocks_ g))) (map_to_list (blocks_ g)).

(** [--in_degree[next_id] == 0]: the block can run. *)
Definition relax (dq : gmap Z Z * list Z) (next_id : Z) : gmap Z Z * list Z :=
  let '(d, q) := dq in
  let n := default 0 (d !! next_id) - 1 in
  (<[next_id := n]> d, if n =? 0 then q ++ [next_id] else q).

(** [None]: [at()] throws, or the fuel is used up. *)
Fixpoint order_loop (fuel : nat) (g : Graph) (in_degree : gmap Z Z) (q order : list Z) : option (list Z) :=
  match q with
  | [] => Some order
  | curr :: q =>
      match fuel with
      | O => None
      | S fuel =>
          b ← blocks_ g !! curr;
          let '(in_degree, q) := foldl relax (in_degree, q) (targets b) in
          order_loop fuel g in_degree q (order ++ [curr])
      end
  end.

Definition GetExecutionOrder (g : Graph) : option (list Z) :=
  let in_degree := initial_in_degree g in
  let q := (filter (fun p => snd p = 0) (map_to_list in_degree)).*1 in
  order_loop (size (blocks_ g)) g in_degree q [].

Definition DetectCycle (g : Graph) : option bool :=
  order ← GetExecutionOrder g; Some (negb (length order =? size (blocks_ g))%nat).

(** ** Validation and the graph of the program *)

Definition Validate (g : Graph) : option bool :=
  cycle ← DetectCycle g;
  exec_order ← GetExecutionOrder g;
  let all_ids := GetAllBlockIDs g in
  let has_source := existsb (fun id => match GetBlockProfile id g with Some b => IsSource b | None => false end) all_ids in
  Some (negb cycle && (length exec_order =? length all_ids)%nat && has_source).

Record ServiceProfile := mkService { service_name_ : string; service_graph_ : Graph }.

(** With the next number of a block.  The results of the additions are not looked at.
    Inner [None]: the program exits. *)
Definition Build (unique_block_id : Z) : option (option ServiceProfile * Z) :=
  let rtsp_id := unique_block_id in
  let g := snd (AddServiceBlock rtsp_id DETECTOR_RTSP ByUnit Graph_make) in
  let g := snd (AddInputFromExtern rtsp_id StreamRTSP g) in
  let g := snd (AddOutputToExtern rtsp_id StreamRTSP g) in
  let sio_id := i32 (unique_block_id + 1) in
  let g := snd (AddServiceBlock sio_id DETECTOR_SocketIO Unique g) in
  let g := snd (AddInputFromExtern sio_id StreamSocketIO g) in
  let g := snd (AddStreamPipeline rtsp_id sio_id InternalQueueing g) in
  let g := snd (AddOutputToExtern sio_id StreamSocketIO g) in
  valid ← Validate g;
  Some (if valid : bool then Some (mkService "DETECTOR" g) else None, i32 (unique_block_id + 2)).
