(* ===== verification/ServiceGraphProps.v ===== *)
(** * Properties of the graph of blocks

    The order of execution is topological, and cycles are found exactly. *)

From Stdlib Require Import Sorting.Sorted.
From stdpp Require Import gmap list relations.
From S2P Require Import Prelude ServiceGraph.
Open Scope Z_scope.
Open Scope list_scope.

(** ** Well-formed graphs *)

Definition edge (g : Graph) (u v : Z) : Prop := exists b, blocks_ g !! u = Some b /\ is_Some (output_targets_ b !! v).

(** Streams end at blocks, and both ends know of them. *)
Record graph_ok (g : Graph) : Prop := {
  go_target u v : edge g u v -> is_Some (blocks_ g !! v);
  go_input u v bu bv : blocks_ g !! u = Some bu -> blocks_ g !! v = Some bv -> u <> SERVICE_BLOCK_ID_EXTERN_SERV ->
    input_sources_ bv !! u = output_targets_ bu !! v;
  go_source u v b : blocks_ g !! v = Some b -> u <> SERVICE_BLOCK_ID_EXTERN_SERV -> is_Some (input_sources_ b !! u) -> is_Some (blocks_ g !! u)
}.

Lemma has_block id g : HasBlock id g = true <-> is_Some (blocks_ g !! id).
Proof. unfold HasBlock. by rewrite bool_decide_eq_true. Qed.

Lemma elem_targets v b : v ∈ targets b <-> is_Some (output_targets_ b !! v).
Proof.
  unfold targets. rewrite list_elem_of_fmap. split.
  - intros ([w t] & -> & Hin). exists t. by apply elem_of_map_to_list.
  - intros [t Ht]. exists (v, t). split; [done |]. by apply elem_of_map_to_list.
Qed.

Lemma edge_targets g u b v : blocks_ g !! u = Some b -> edge g u v <-> v ∈ targets b.
Proof. intros Hu. rewrite elem_targets. split; [intros (b' & Hb & Ht); congruence | by exists b]. Qed.

(** ** Counting predecessors *)

(** The blocks with a stream to [v] that are not in [done]. *)
Definition waits_for (g : Graph) (done : list Z) (v : Z) : list (Z * ServiceBlockProfile) :=
  filter (fun p => v ∈ targets (snd p) /\ fst p ∉ done) (map_to_list (blocks_ g)).

Definition cnt (g : Graph) (done : list Z) (v : Z) : Z := Z.of_nat (length (waits_for g done v)).

Lemma increments_spec l d v : NoDup l -> default 0 (foldl increment d l !! v) = default 0 (d !! v) + (if decide (v ∈ l) then 1 else 0).
Proof.
  revert d. induction l as [| x l IH]; intros d Hnd; cbn [foldl]; [rewrite decide_False; [lia | apply not_elem_of_nil] |].
  apply NoDup_cons in Hnd as [Hx Hnd]. rewrite IH by done. unfold increment. destruct (decide (v = x)) as [-> | Hne].
  - rewrite lookup_insert_eq. destruct (decide (x ∈ l)); [done |]. rewrite decide_True by left. cbn. lia.
  - rewrite lookup_insert_ne by done. destruct (decide (v ∈ l)) as [Hv | Hv]; [rewrite decide_True by (by right) | rewrite decide_False by (rewrite elem_of_cons; tauto)]; lia.
Qed.

Lemma increments_some l d v : is_Some (foldl increment d l !! v) <-> is_Some (d !! v) \/ v ∈ l.
Proof.
  revert d. induction l as [| x l IH]; intros d; cbn [foldl].
  - split; [by left | intros [? | ?%elem_of_nil]; done].
  - rewrite IH. unfold increment. rewrite elem_of_cons. destruct (decide (v = x)) as [-> | Hne].
    + rewrite lookup_insert_eq. split; [by right; left | left; by eexists].
    + rewrite lookup_insert_ne by done. tauto.
Qed.

Lemma targets_NoDup b : NoDup (targets b).
Proof. apply NoDup_fst_map_to_list. Qed.

Lemma zero_table_spec (l : list (Z * ServiceBlockProfile)) (d : gmap Z Z) v :
  foldl (fun d p => <[fst p := 0]> d) d l !! v = (if decide (v ∈ l.*1) then Some 0 else d !! v).
Proof.
  revert d. induction l as [| [i b] l IH]; intros d; cbn [foldl fmap list_fmap fst]; [done |]. rewrite IH.
  destruct (decide (v ∈ l.*1)); [by rewrite decide_True by (by right) |]. destruct (decide (v = i)) as [-> | Hne].
  - rewrite lookup_insert_eq. by rewrite decide_True by left.
  - rewrite lookup_insert_ne, decide_False by (done || rewrite elem_of_cons; tauto). done.
Qed.

Lemma all_increments_spec (l : list (Z * ServiceBlockProfile)) d v :
  default 0 (foldl (fun d p => foldl increment d (targets (snd p))) d l !! v) =
    default 0 (d !! v) + Z.of_nat (length (filter (fun p => v ∈ targets (snd p) /\ fst p ∉ []) l)).
Proof.
  revert d. induction l as [| [i b] l IH]; intros d; cbn [foldl]; [cbn; lia |].
  rewrite IH, increments_spec by apply targets_NoDup. cbn [snd]. rewrite filter_cons. cbn [fst snd].
  destruct (decide (v ∈ targets b)); [rewrite decide_True by (split; [done | apply not_elem_of_nil]) | rewrite decide_False by tauto]; cbn [length]; lia.
Qed.

Lemma all_increments_some (l : list (Z * ServiceBlockProfile)) d v :
  is_Some (foldl (fun d p => foldl increment d (targets (snd p))) d l !! v) <-> is_Some (d !! v) \/ exists p, p ∈ l /\ v ∈ targets (snd p).
Proof.
  revert d. induction l as [| [i b] l IH]; intros d; cbn [foldl].
  - split; [by left | intros [? | (p & ?%elem_of_nil & _)]; done].
  - rewrite IH, increments_some. cbn [snd]. split.
    + intros [[? | ?] | (p & Hp & Hv)]; [by left | right; exists (i, b); split; [left | done] | right; exists p; split; [by right | done]].
    + intros [? | (p & [-> | Hp]%elem_of_cons & Hv)]; [by left; left | by left; right | right; by exists p].
Qed.

Lemma elem_block_ids g v : v ∈ GetAllBlockIDs g <-> is_Some (blocks_ g !! v).
Proof.
  unfold GetAllBlockIDs. rewrite list_elem_of_fmap. split.
  - intros ([w b] & -> & Hin). exists b. by apply elem_of_map_to_list.
  - intros [b Hb]. exists (v, b). split; [done | by apply elem_of_map_to_list].
Qed.

(** The table of in-degrees counts all predecessors. *)
Lemma initial_spec g v :
  graph_ok g -> initial_in_degree g !! v = (if decide (is_Some (blocks_ g !! v)) then Some (cnt g [] v) else None).
Proof.
  intros [Hok _ _]. unfold initial_in_degree. set (d0 := foldl _ ∅ _).
  assert (d0 !! v = if decide (v ∈ GetAllBlockIDs g) then Some 0 else None) as Hd0.
  { unfold d0. rewrite zero_table_spec. by rewrite lookup_empty. }
  pose proof (all_increments_spec (map_to_list (blocks_ g)) d0 v) as Hsum. fold (waits_for g [] v) in Hsum.
  pose proof (all_increments_some (map_to_list (blocks_ g)) d0 v) as Hsome. rewrite Hd0 in Hsum, Hsome.
  fold (cnt g [] v) in Hsum. destruct (foldl _ d0 _ !! v) as [x |].
  - destruct (decide (is_Some (blocks_ g !! v))) as [Hv | Hv].
    + rewrite decide_True in Hsum by (by apply elem_block_ids). cbn in Hsum. f_equal. lia.
    + destruct Hv. destruct Hsome as [[Hs | ([i b] & Hp & Hin)] _]; [by eexists | |].
      * destruct (decide (v ∈ GetAllBlockIDs g)) as [?%elem_block_ids |]; [done | by destruct Hs].
      * apply (Hok i v). exists b. split; [by apply elem_of_map_to_list | by apply elem_targets].
  - rewrite decide_False; [done |]. intros Hv%elem_block_ids. destruct Hsome as [_ []]; [left; rewrite decide_True by done; by eexists | done].
Qed.

(** ** One block runs *)

Lemma filter_ext_in {A} (P Q : A -> Prop) `{!forall x, Decision (P x), !forall x, Decision (Q x)} (l : list A) :
  (forall x, x ∈ l -> P x <-> Q x) -> filter P l = filter Q l.
Proof.
  induction l as [| x l IH]; intros Hpq; [done |]. rewrite !filter_cons, IH by (intros y Hy; apply Hpq; by right).
  assert (P x <-> Q x) by (apply Hpq; left). repeat case_decide; tauto.
Qed.

Lemma relax_spec l d q :
  NoDup l -> exists d', foldl relax (d, q) l = (d', q ++ filter (fun v => default 0 (d !! v) = 1) l) /\
    forall v, d' !! v = if decide (v ∈ l) then Some (default 0 (d !! v) - 1) else d !! v.
Proof.
  revert d q. induction l as [| x l IH]; intros d q Hnd; cbn [foldl].
  - exists d. rewrite app_nil_r. done.
  - apply NoDup_cons in Hnd as [Hx Hnd]. unfold relax at 2. cbv zeta. edestruct IH as (d' & -> & Hd'); [done |]. exists d'. split.
    + rewrite (filter_ext_in _ (fun v => default 0 (d !! v) = 1) l); [| intros y Hy; rewrite lookup_insert_ne; [done |]; by intros ->].
      rewrite filter_cons. destruct (decide (default 0 (d !! x) = 1)) as [E | E]; destruct (Z.eqb_spec (default 0 (d !! x) - 1) 0); [| lia.. | done].
      by rewrite <- app_assoc.
    + intros v. rewrite Hd'. destruct (decide (v = x)) as [-> | Hne].
      * rewrite decide_False by done. rewrite decide_True by left. by rewrite lookup_insert_eq.
      * rewrite lookup_insert_ne by done. destruct (decide (v ∈ l)); [by rewrite decide_True by (by right) | rewrite decide_False; [done |]].
        rewrite elem_of_cons. tauto.
Qed.

(** Running [c] takes one away from the counts of its targets. *)
Lemma waits_split (l : list (Z * ServiceBlockProfile)) done c v :
  c ∉ done ->
  length (filter (fun p => v ∈ targets (snd p) /\ fst p ∉ done) l) =
    (length (filter (fun p => v ∈ targets (snd p) /\ fst p ∉ (done ++ [c])) l) + length (filter (fun p => v ∈ targets (snd p) /\ fst p = c) l))%nat.
Proof.
  intros Hc. induction l as [| [i b] l IH]; [done |]. rewrite !filter_cons. cbn [fst snd].
  assert (~ i ∈ done ++ [c] <-> ~ i ∈ done /\ i <> c) as Hi by (rewrite elem_of_app, list_elem_of_singleton; tauto).
  destruct (decide (i = c)) as [-> |]; repeat case_decide; cbn [length]; try lia; tauto.
Qed.

Lemma filter_none {A} (P : A -> Prop) `{!forall x, Decision (P x)} (l : list A) : (forall x, x ∈ l -> ~ P x) -> filter P l = [].
Proof.
  induction l as [| x l IH]; intros Hn; [done |]. rewrite filter_cons, decide_False by (apply Hn; left). apply IH. intros y Hy. apply Hn. by right.
Qed.

Lemma waits_one g c b v :
  blocks_ g !! c = Some b -> filter (fun p => v ∈ targets (snd p) /\ fst p = c) (map_to_list (blocks_ g)) = if decide (v ∈ targets b) then [(c, b)] else [].
Proof.
  intros Hb%elem_of_map_to_list. pose proof (NoDup_fst_map_to_list (blocks_ g)) as Hnd.
  induction (map_to_list (blocks_ g)) as [| [i b'] l IH]; [by apply elem_of_nil in Hb |].
  cbn [fmap list_fmap fst] in Hnd. apply NoDup_cons in Hnd as [Hi Hnd]. rewrite filter_cons. cbn [fst snd]. apply elem_of_cons in Hb as [[= <- <-] | Hb].
  - assert (filter (fun p => v ∈ targets p.2 /\ p.1 = c) l = []) as ->.
    { apply filter_none. intros p Hp [_ <-]. apply Hi, list_elem_of_fmap. by exists p. }
    repeat case_decide; tauto.
  - rewrite decide_False; [by apply IH |]. intros [_ ->]. apply Hi, list_elem_of_fmap. by exists (c, b).
Qed.

Lemma cnt_step g done c b v :
  blocks_ g !! c = Some b -> c ∉ done -> cnt g done v = cnt g (done ++ [c]) v + (if decide (v ∈ targets b) then 1 else 0).
Proof.
  intros Hb Hc. unfold cnt, waits_for. rewrite (waits_split _ _ c), (waits_one g c b) by done. destruct (decide (v ∈ targets b)); cbn [length]; lia.
Qed.

Lemma unlisted_predecessor g done v : cnt g done v <> 0 -> exists u, (u ∉ done) /\ edge g u v.
Proof.
  unfold cnt. destruct (waits_for g done v) as [| [u b] l] eqn:E; [done |]. intros _.
  assert ((u, b) ∈ waits_for g done v) as [[Ht Hu] Hin]%list_elem_of_filter by (rewrite E; left). cbn in Ht, Hu.
  apply elem_of_map_to_list in Hin. exists u. split; [done |]. by apply (edge_targets g u b).
Qed.

Lemma cnt_zero g done v : cnt g done v = 0 <-> forall u, edge g u v -> u ∈ done.
Proof.
  split.
  - unfold cnt. intros Hz u (b & Hu & Ht). destruct (decide (u ∈ done)) as [| Hn]; [done |]. exfalso.
    assert ((u, b) ∈ waits_for g done v) as Hin by (apply list_elem_of_filter; cbn; split; [split; [by apply elem_targets | done] | by apply elem_of_map_to_list]).
    destruct (waits_for g done v); [by apply elem_of_nil in Hin | cbn in Hz; lia].
  - intros H. destruct (decide (cnt g done v = 0)) as [| Hz]; [done |]. destruct (unlisted_predecessor g done v Hz) as (u & Hu & He). by destruct (Hu (H u He)).
Qed.

(** ** The loop *)

Record order_inv (g : Graph) (d : gmap Z Z) (q order : list Z) : Prop := {
  oi_nodup : NoDup (order ++ q);
  oi_blocks v : v ∈ order ++ q -> is_Some (blocks_ g !! v);
  oi_degree v : is_Some (blocks_ g !! v) -> d !! v = Some (cnt g order v);
  oi_ready v : is_Some (blocks_ g !! v) -> v ∈ order ++ q <-> cnt g order v = 0;
  oi_sorted i u v : order !! i = Some v -> edge g u v -> u ∈ take i order
}.

Lemma order_inv_step g d c q order b :
  graph_ok g -> order_inv g d (c :: q) order -> blocks_ g !! c = Some b ->
  let dq := foldl relax (d, q) (targets b) in order_inv g (fst dq) (snd dq) (order ++ [c]).
Proof.
  intros [Hok _ _] [Hnd Hbl Hdeg Hrdy Hsort] Hb. destruct (relax_spec (targets b) d q (targets_NoDup b)) as (d' & -> & Hd'). cbn [fst snd].
  assert (c ∉ order) as Hc by (apply NoDup_app in Hnd as (_ & Hdis & _); intros Hin; by apply (Hdis c Hin); left).
  assert (forall v, v ∈ targets b -> is_Some (blocks_ g !! v)) as Htb by (intros v Hv; apply (Hok c v); by apply (edge_targets g c b)).
  assert (forall v, is_Some (blocks_ g !! v) -> d' !! v = Some (cnt g (order ++ [c]) v)) as Hdeg'.
  { intros v Hv. rewrite Hd', Hdeg by done. rewrite (cnt_step g order c b) by done. cbn [from_option id]. destruct (decide (v ∈ targets b)); f_equal; unfold id; lia. }
  assert (forall v, v ∈ filter (fun v => default 0 (d !! v) = 1) (targets b) <-> v ∈ targets b /\ cnt g order v = 1) as Hnew.
  { intros v. rewrite list_elem_of_filter. split; [intros [E Hv] | intros [Hv E]]; (split; [done |]) || split; rewrite ?Hdeg in * by auto; done. }
  set (new := filter _ _) in *. assert ((order ++ [c]) ++ q ++ new = (order ++ c :: q) ++ new) as Happ by (by rewrite <- !app_assoc). split.
  - rewrite Happ. apply NoDup_app. split; [done |]. split.
    + intros v Hv [Ht E]%Hnew. apply Hrdy in Hv; [lia | by apply Hbl].
    + apply NoDup_filter, targets_NoDup.
  - intros v. rewrite Happ. intros [Hv | [Hv _]%Hnew]%elem_of_app; auto.
  - done.
  - intros v Hv. rewrite Happ, elem_of_app, Hnew, Hrdy by done. rewrite (cnt_step g order c b v) by done.
    assert (0 <= cnt g (order ++ [c]) v) by (unfold cnt; lia). destruct (decide (v ∈ targets b)); intuition lia.
  - intros i u v Hi He. apply lookup_app_Some in Hi as [Hi | [Hle Hi]].
    + rewrite take_app_le by (apply lookup_lt_Some in Hi; lia). by eapply Hsort.
    + apply list_lookup_singleton_Some in Hi as [Hi <-]. rewrite take_app_ge by lia. replace (i - length order)%nat with 0%nat by lia. cbn. rewrite app_nil_r.
      revert u He. apply cnt_zero. apply Hrdy; [by eexists |]. apply elem_of_app. right. left.
Qed.

Lemma order_inv_initial g :
  graph_ok g -> order_inv g (initial_in_degree g) (filter (fun p => snd p = 0) (map_to_list (initial_in_degree g))).*1 [].
Proof.
  intros Hg. assert (forall v, v ∈ (filter (fun p => snd p = 0) (map_to_list (initial_in_degree g))).*1 <-> is_Some (blocks_ g !! v) /\ cnt g [] v = 0) as Hq.
  { intros v. rewrite list_elem_of_fmap. split.
    - intros ([w n] & -> & [Hn Hin]%list_elem_of_filter). cbn in Hn |- *. subst n. apply elem_of_map_to_list in Hin. rewrite initial_spec in Hin by done.
      destruct (decide (is_Some (blocks_ g !! w))); [by injection Hin | done].
    - intros [Hv E]. exists (v, 0). split; [done |]. apply list_elem_of_filter. split; [done |]. apply elem_of_map_to_list.
      by rewrite initial_spec, decide_True, E by done. }
  split; cbn [app].
  - apply (sublist_NoDup _ (map_to_list (initial_in_degree g)).*1); [apply NoDup_fst_map_to_list | apply fmap_sublist, sublist_filter].
  - by intros v [? _]%Hq.
  - intros v Hv. by rewrite initial_spec, decide_True by done.
  - intros v Hv. rewrite Hq. tauto.
  - done.
Qed.

Lemma order_inv_length g d q order : order_inv g d q order -> (length (order ++ q) <= size (blocks_ g))%nat.
Proof.
  intros [Hnd Hbl _ _ _]. rewrite <- length_map_to_list, <- (length_fmap fst). apply submseteq_length, NoDup_submseteq; [done |].
  intros v Hv. by apply elem_block_ids, Hbl.
Qed.

(** Fuel for every block is enough, and the invariant holds at the end. *)
Lemma order_loop_inv fuel g d q order :
  graph_ok g -> order_inv g d q order -> (size (blocks_ g) <= length order + fuel)%nat -> exists d' order', order_loop fuel g d q order = Some order' /\ order_inv g d' [] order'.
Proof.
  intros Hg. revert d q order. induction fuel as [| fuel IH]; intros d q order Hinv Hf; (destruct q as [| c q]; [by exists d, order |]).
  all: pose proof (order_inv_length _ _ _ _ Hinv) as Hlen; rewrite length_app in Hlen; cbn in Hlen.
  { lia. }
  destruct (oi_blocks _ _ _ _ Hinv c) as [b Hb]; [apply elem_of_app; right; left |].
  cbn [order_loop]. rewrite Hb. cbn [mbind option_bind]. pose proof (order_inv_step g d c q order b Hg Hinv Hb) as Hnext.
  destruct (foldl relax (d, q) (targets b)) as [d' q']. apply IH; [exact Hnext |]. rewrite length_app. cbn. lia.
Qed.

Lemma execution_order_inv g : graph_ok g -> exists d order, GetExecutionOrder g = Some order /\ order_inv g d [] order.
Proof. intros Hg. apply order_loop_inv; [done | by apply order_inv_initial | cbn; lia]. Qed.

(** ** Cycles *)

Lemma chain_repeats {A} `{EqDecision A} (R : relation A) (l : list A) : StronglySorted R l -> NoDup l \/ exists x, R x x.
Proof.
  induction 1 as [| x l _ IH Hall]; [left; constructor |]. destruct (decide (x ∈ l)) as [Hx | Hx].
  - right. exists x. by apply (proj1 (Forall_forall _ _) Hall).
  - destruct IH as [Hnd | ?]; [left; by constructor | by right].
Qed.

(** Blocks of a set with a predecessor in the set each: walking back, one meets a cycle. *)
Lemma walk_back (E : relation Z) (S : list Z) v :
  v ∈ S -> (forall v, v ∈ S -> exists u, u ∈ S /\ E u v) -> exists u, tc E u u.
Proof.
  intros Hv Hpred. assert (forall n, exists u l, length (u :: l) = Datatypes.S n /\ StronglySorted (tc E) (u :: l) /\ forall w, w ∈ u :: l -> w ∈ S) as Hchain.
  { induction n as [| n (u & l & Hlen & Hsort & Hin)].
    - exists v, []. split; [done |]. split; [by repeat constructor |]. by intros w ->%list_elem_of_singleton.
    - destruct (Hpred u) as (t & Ht & Htu); [apply Hin; left |]. exists t, (u :: l). split; [cbn in *; lia |]. split.
      + constructor; [done |]. apply StronglySorted_inv in Hsort as [_ Hall]. constructor; [by apply tc_once |].
        eapply Forall_impl; [exact Hall |]. intros w Hw. by eapply tc_l.
      + intros w [-> | Hw]%elem_of_cons; auto. }
  destruct (Hchain (length S)) as (u & l & Hlen & Hsort & Hin). destruct (chain_repeats _ _ Hsort) as [Hnd | ?]; [| done].
  exfalso. assert (length (u :: l) <= length S)%nat by (by apply submseteq_length, NoDup_submseteq). lia.
Qed.

Lemma sorted_no_cycle (E : relation Z) (order : list Z) :
  NoDup order -> (forall i u v, order !! i = Some v -> E u v -> u ∈ take i order) -> forall u i v, tc E u v -> order !! i = Some v -> u ∈ take i order.
Proof.
  intros Hnd Hs u i v Ht. revert i. induction Ht as [u v He | u w v He _ IH]; intros i Hi; [by eapply Hs |].
  specialize (IH i Hi). apply list_elem_of_lookup in IH as [j Hj]. apply lookup_take_Some in Hj as [Hj Hlt].
  specialize (Hs j u w Hj He). apply list_elem_of_lookup in Hs as [k Hk]. apply lookup_take_Some in Hk as [Hk ?].
  apply list_elem_of_lookup. exists k. apply lookup_take_Some. split; [done | lia].
Qed.

(** ** Graphs made by the operations *)

Inductive built : Graph -> Prop :=
| built_make : built Graph_make
| built_block g id m b : built g -> built (snd (AddServiceBlock id m b g))
| built_stream g f t ty : built g -> built (snd (AddStreamPipeline f t ty g))
| built_input g t ty : built g -> built (snd (AddInputFromExtern t ty g))
| built_output g f ty : built g -> built (snd (AddOutputToExtern f ty g)).

Lemma block_added id m ty g : graph_ok g -> graph_ok (snd (AddServiceBlock id m ty g)).
Proof.
  intros [Ht Hi Hs]. unfold AddServiceBlock. destruct (HasBlock id g) eqn:E; [done |]. cbn [snd].
  assert (blocks_ g !! id = None) as Hid by (apply eq_None_not_Some; rewrite <- has_block; by rewrite E).
  split; unfold edge; cbn [blocks_].
  - intros u v (b & [[<- <-] | [_ Hb]]%lookup_insert_Some & Hv); [by destruct Hv |]. apply lookup_insert_is_Some'. right. apply (Ht u). by exists b.
  - intros u v bu bv [[<- <-] | [Hu Hbu]]%lookup_insert_Some [[<- <-] | [Hv Hbv]]%lookup_insert_Some Hne; cbn [input_sources_ output_targets_ ServiceBlockProfile_make]; rewrite ?lookup_empty; [done | | | by eapply Hi].
    + apply eq_None_not_Some. intros Hin. apply (Hs id v bv Hbv Hne) in Hin. rewrite Hid in Hin. by destruct Hin.
    + symmetry. apply eq_None_not_Some. intros Hout. destruct (Ht u id) as [? ?]; [by exists bu | congruence].
  - intros u v b [[<- <-] | [_ Hb]]%lookup_insert_Some Hne Hin; [by destruct Hin |]. apply lookup_insert_is_Some'. right. by eapply Hs.
Qed.

(** What a stream changes. *)
Lemma stream_lookup f t ty g u b' :
  alter (AddOutput t ty) f (alter (AddInput f ty) t (blocks_ g)) !! u = Some b' ->
  exists b, blocks_ g !! u = Some b /\ (forall v, output_targets_ b' !! v = if decide (u = f /\ v = t) then Some ty else output_targets_ b !! v) /\
    (forall w, input_sources_ b' !! w = if decide (u = t /\ w = f) then Some ty else input_sources_ b !! w).
Proof.
  intros [(<- & b1 & Hb1 & ->) | [Hf Hb1]]%lookup_alter_Some; apply lookup_alter_Some in Hb1 as [(<- & b & Hb & ->) | [Ht Hb]]; (eexists; split; [exact Hb |]).
  all: split; intros w; cbn; case_decide as E; destruct_and?; subst; rewrite ?lookup_insert_eq; try done.
  all: rewrite lookup_insert_ne; [done | intros <-; tauto].
Qed.

Lemma stream_added f t ty g : graph_ok g -> graph_ok (snd (AddStreamPipeline f t ty g)).
Proof.
  intros [Ht Hi Hs]. unfold AddStreamPipeline. destruct (HasBlock f g) eqn:Ef, (HasBlock t g) eqn:Et; [| done..]. cbn [negb orb snd].
  apply has_block in Ef, Et. assert (forall v, is_Some (blocks_ g !! v) -> is_Some (alter (AddOutput t ty) f (alter (AddInput f ty) t (blocks_ g)) !! v)) as Hdom
    by (intros v Hv; by rewrite !lookup_alter_is_Some).
  split; unfold edge; cbn [blocks_].
  - intros u v (b' & Hb' & Hv). apply Hdom. destruct (stream_lookup _ _ _ _ _ _ Hb') as (b & Hb & Hout & _). rewrite Hout in Hv.
    destruct (decide (u = f /\ v = t)) as [[-> ->] |]; [done |]. apply (Ht u). by exists b.
  - intros u v bu' bv' Hbu' Hbv' Hne. destruct (stream_lookup _ _ _ _ _ _ Hbu') as (bu & Hbu & Hout & _). destruct (stream_lookup _ _ _ _ _ _ Hbv') as (bv & Hbv & _ & Hin).
    rewrite Hout, Hin. rewrite (Hi u v bu bv) by done. repeat case_decide; done || tauto.
  - intros u v b' Hb' Hne Hin. apply Hdom. destruct (stream_lookup _ _ _ _ _ _ Hb') as (b & Hb & _ & Hi'). rewrite Hi' in Hin.
    destruct (decide (v = t /\ u = f)) as [[-> ->] |]; [done |]. by eapply Hs.
Qed.

Lemma extern_input_added t ty g : graph_ok g -> graph_ok (snd (AddInputFromExtern t ty g)).
Proof.
  intros [Ht Hi Hs]. unfold AddInputFromExtern. destruct (HasBlock t g); [| done]. cbn [negb snd].
  assert (forall u b', alter (AddInput SERVICE_BLOCK_ID_EXTERN_SERV ty) t (blocks_ g) !! u = Some b' -> exists b, blocks_ g !! u = Some b /\
    output_targets_ b' = output_targets_ b /\ forall w, w <> SERVICE_BLOCK_ID_EXTERN_SERV -> input_sources_ b' !! w = input_sources_ b !! w) as Hl.
  { intros u b' [(<- & b & Hb & ->) | [_ Hb]]%lookup_alter_Some; [exists b | by exists b']. split; [done |].
    split; [done |]. intros w Hw. cbn. by rewrite lookup_insert_ne. }
  assert (forall v, is_Some (blocks_ g !! v) -> is_Some (alter (AddInput SERVICE_BLOCK_ID_EXTERN_SERV ty) t (blocks_ g) !! v)) as Hdom
    by (intros v Hv; by rewrite lookup_alter_is_Some).
  split; unfold edge; cbn [blocks_].
  - intros u v (b' & (b & Hb & Hout & _)%Hl & Hv). apply Hdom, (Ht u). exists b. by rewrite <- Hout.
  - intros u v bu' bv' (bu & Hbu & -> & _)%Hl (bv & Hbv & _ & Hin)%Hl Hne. rewrite Hin by done. by apply Hi.
  - intros u v b' (b & Hb & _ & Hin)%Hl Hne. rewrite Hin by done. intros Hsome. apply Hdom. by eapply Hs.
Qed.

Lemma built_ok g : built g -> graph_ok g.
Proof.
  induction 1; [| by apply block_added | by apply stream_added | by apply extern_input_added |].
  - split; unfold edge; cbn; intros; rewrite ?lookup_empty in *; [by destruct H as (? & ? & _) | done..].
  - unfold AddOutputToExtern. destruct (HasBlock f g); [| done]. by destruct IHbuilt; split.
Qed.

(** ** The theorems *)

(** The order of execution always exists (the loop ends and no look-up throws); it lists
    blocks of the graph, each at most once, and every block after all the blocks with a
    stream to it. *)
Theorem execution_order_topological g :
  built g ->
  exists order, GetExecutionOrder g = Some order /\ NoDup order /\ (forall v, v ∈ order -> is_Some (blocks_ g !! v)) /\
    forall i u v, order !! i = Some v -> edge g u v -> exists j, (j < i)%nat /\ order !! j = Some u.
Proof.
  intros Hg%built_ok. destruct (execution_order_inv g Hg) as (d & order & E & [Hnd Hbl _ _ Hs]). rewrite app_nil_r in Hnd, Hbl.
  exists order. split; [done |]. split; [done |]. split; [done |]. intros i u v Hi He. specialize (Hs i u v Hi He).
  apply list_elem_of_lookup in Hs as [j Hj]. apply lookup_take_Some in Hj as [Hj Hlt]. by exists j.
Qed.

(** C21: the detection of cycles is exact: it answers for every graph, and says yes just when
    some block is downstream of itself. *)
Theorem cycle_detection_exact g :
  built g -> exists answer, DetectCycle g = Some answer /\ (answer = true <-> exists u, tc (edge g) u u).
Proof.
  intros Hg%built_ok. destruct (execution_order_inv g Hg) as (d & order & E & Hinv). pose proof (order_inv_length _ _ _ _ Hinv) as Hlen.
  destruct Hinv as [Hnd Hbl _ Hrdy Hs]. rewrite app_nil_r in Hnd, Hbl, Hlen. unfold DetectCycle. rewrite E. cbn [mbind option_bind]. eexists. split; [done |].
  assert (length (GetAllBlockIDs g) = size (blocks_ g)) as Hids by (unfold GetAllBlockIDs; by rewrite length_fmap, length_map_to_list).
  rewrite negb_true_iff, Nat.eqb_neq. split.
  - intros Hne. assert (exists v, v ∈ GetAllBlockIDs g /\ v ∉ order) as (v & Hv & Hno).
    { destruct (decide (Forall (fun v => v ∈ order) (GetAllBlockIDs g))) as [Hall | Hex%not_Forall_Exists]; [| by apply Exists_exists in Hex | tc_solve].
      rewrite Forall_forall in Hall. assert (length (GetAllBlockIDs g) <= length order)%nat; [| lia].
      apply submseteq_length, NoDup_submseteq; [apply NoDup_fst_map_to_list | done]. }
    apply (walk_back (edge g) (filter (fun v => v ∉ order) (GetAllBlockIDs g)) v); [by apply list_elem_of_filter |].
    intros w [Hw Hwb%elem_block_ids]%list_elem_of_filter. destruct (unlisted_predecessor g order w) as (u & Hu & He).
    + intros Ec. apply Hw. specialize (Hrdy w Hwb). rewrite app_nil_r in Hrdy. by apply Hrdy.
    + exists u. split; [| done]. destruct He as (b & Hb & _). apply list_elem_of_filter. split; [done |]. apply elem_block_ids. by exists b.
  - intros [u Hu] Hfull. assert (u ∈ order) as Hin.
    { assert (order ≡ₚ GetAllBlockIDs g) as ->.
      - apply submseteq_length_Permutation; [| lia]. apply NoDup_submseteq; [done |]. intros v Hv. by apply elem_block_ids, Hbl.
      - apply elem_block_ids. assert (exists w, edge g u w) as (w & b & Hb & _) by (inversion Hu; eauto). by exists b. }
    apply list_elem_of_lookup in Hin as [i Hi]. pose proof (sorted_no_cycle _ _ Hnd Hs u i u Hu Hi) as Hlt.
    apply list_elem_of_lookup in Hlt as [j Hj]. apply lookup_take_Some in Hj as [Hj ?]. pose proof (NoDup_lookup _ _ _ _ Hnd Hi Hj). lia.
Qed.

(** Two blocks, with a stream between them and perhaps one back. *)
Definition two_blocks : Graph := snd (AddStreamPipeline 1 2 InternalQueueing (snd (AddServiceBlock 2 DETECTOR_SocketIO Unique (snd (AddServiceBlock 1 DETECTOR_RTSP ByUnit Graph_make))))).
Definition round_trip : Graph := snd (AddStreamPipeline 2 1 InternalQueueing two_blocks).

Lemma round_trip_built : built round_trip.
Proof. repeat constructor. Qed.

Lemma round_trip_cycle : tc (edge round_trip) 1 1.
Proof. apply tc_l with 2; [| apply tc_once]; (eexists; split; [vm_compute; reflexivity | vm_compute; by eexists]). Qed.

Lemma two_blocks_built : built two_blocks.
Proof. repeat constructor. Qed.

Lemma execution_order_topological_witness :
  (exists order, GetExecutionOrder two_blocks = Some order /\ NoDup order /\ (forall v, v ∈ order -> is_Some (blocks_ two_blocks !! v)) /\
    forall i u v, order !! i = Some v -> edge two_blocks u v -> exists j, (j < i)%nat /\ order !! j = Some u) /\ GetExecutionOrder two_blocks = Some [1; 2].
Proof. split; [apply (execution_order_topological two_blocks), two_blocks_built | vm_compute; reflexivity]. Defined.

Lemma cycle_detection_exact_witness :
  (exists answer, DetectCycle round_trip = Some answer /\ (answer = true <-> exists u, tc (edge round_trip) u u)) /\
  DetectCycle round_trip = Some true /\ DetectCycle two_blocks = Some false.
Proof. split; [apply (cycle_detection_exact round_trip), round_trip_built |]. split; vm_compute; reflexivity. Defined.

(** The graph of the program passes its own validation. *)
Example build_valid : match Build 0 with Some (Some p, _) => GetExecutionOrder (service_graph_ p) = Some [0; 1] | _ => False end.
Proof. vm_compute. reflexivity. Qed.
