(* ===== verification/GrpcServer.v ===== *)
(** * The gRPC server for events

    [Protocol/GRPC/include/GrpcEventServerBase.h], [src/GrpcEventServerBase.cpp] and
    [include/GrpcUnaryHandler.h].  A call data object per call, kept alive by the table
    of the server and by the thread that waits for its reply; its address is the tag that
    gRPC gives back.  gRPC itself is the environment: a tag has at most one operation under
    way ([slots]); [Shutdown] of the server cancels the waiting receptions and returns when the
    admitted calls are complete; nothing may be started on a completion queue that is shut down.
    [None] is the end of the process: a freed object or a null pointer is used, or that
    rule is broken.  The threads that deliver tags are interchangeable, so an event says
    which tag comes next.  Messages are a type with their UUID. *)

From Stdlib Require Import Ascii String.
From stdpp Require Import gmap list.
From S2P Require Import Prelude SafeQueue.
Open Scope Z_scope.
Open Scope list_scope.

(** ** UUIDs *)

Definition is_hex (c : ascii) : bool :=
  let n := nat_of_ascii c in ((48 <=? n) && (n <=? 57) || (65 <=? n) && (n <=? 70) || (97 <=? n) && (n <=? 102))%nat.

(** Groups of hexadecimal digits with hyphens between them. *)
Fixpoint match_groups (groups : list nat) (s : list ascii) : bool :=
  match groups with
  | [] => false
  | [n] => (length s =? n)%nat && forallb is_hex s
  | n :: groups =>
      (length (take n s) =? n)%nat && forallb is_hex (take n s) &&
      match drop n s with
      | c :: s => Ascii.eqb c "-" && match_groups groups s
      | [] => false
      end
  end.

Definition isValidUUID (uuid : string) : bool := match_groups [8; 4; 4; 4; 12]%nat (list_ascii_of_string uuid).

(** ** Calls *)

Inductive Rpc := SendEventOnlyJson | SendEventWithImages | RequestEventOnlyJson | RequestEventWithImages
| SendCounterDelta | SendHeartbeat | RequestCounterSnapshot.

#[export] Instance Rpc_eq_dec : EqDecision Rpc.
Proof. solve_decision. Defined.

(** Which handler class serves it: [GrpcUnaryAsyncProcessHandler], or the direct one. *)
Definition is_async (r : Rpc) : bool := match r with RequestEventOnlyJson | RequestEventWithImages => true | _ => false end.

(** The handlers that [Run] makes, in its order. *)
Definition all_rpcs : list Rpc :=
  [SendEventOnlyJson; SendEventWithImages; RequestEventOnlyJson; RequestEventWithImages; SendCounterDelta; SendHeartbeat; RequestCounterSnapshot].

Inductive CallStatus := CREATE | PROCESS | FINISH.

Section Server.
Context {Req Rsp : Type} (uuid_of : Req -> string) (default_rsp : Rsp).

Inductive Answer := AnswerOk (r : Rsp) | InvalidArgument | DeadlineExceeded.

(** What the setters gave a kind of call: the queue, the post-processor, and whether there
    is a dispatcher. *)
Record Endpoint := mkEndpoint { in_queue_ : option nat; handler_ : option (Req -> Rsp); has_dispatcher : bool }.

Context (ep : Rpc -> Endpoint).

Record CallData := mkCall { cd_rpc : Rpc; status_ : CallStatus; request_ : option Req }.

(** Where a call data object is: waiting for a request, in the completion queue with its
    [ok], with the thread that waits for its reply, or sending its answer. *)
Inductive Slot := Receiving | Ready (ok : bool) | InThread | Sending.

Inductive Phase := Serving | ShuttingDown | CqClosed | Cleared.

#[export] Instance Phase_eq_dec : EqDecision Phase.
Proof. solve_decision. Defined.

(** [owned]: a [weak_ptr] to the server can be locked, i.e. its destructor has not begun.
    [answers]: every call of [Finish]. *)
Record Server := mkServer {
  heap : list CallData;
  alive_handlers_ : gset nat;
  slots : gmap nat Slot;
  queues : gmap nat (SafeQueue Req);
  phase : Phase;
  owned : bool;
  answers : list (nat * Answer)
}.

Definition with_heap (s : Server) h : Server := mkServer h (alive_handlers_ s) (slots s) (queues s) (phase s) (owned s) (answers s).
Definition with_alive (s : Server) a : Server := mkServer (heap s) a (slots s) (queues s) (phase s) (owned s) (answers s).
Definition with_slots (s : Server) m : Server := mkServer (heap s) (alive_handlers_ s) m (queues s) (phase s) (owned s) (answers s).
Definition with_queues (s : Server) q : Server := mkServer (heap s) (alive_handlers_ s) (slots s) q (phase s) (owned s) (answers s).
Definition with_phase (s : Server) p : Server := mkServer (heap s) (alive_handlers_ s) (slots s) (queues s) p (owned s) (answers s).

Definition Server_make (q : gmap nat (SafeQueue Req)) : Server := mkServer [] ∅ ∅ q Serving true [].

(** Kept by the table or by its thread. *)
Definition is_live (s : Server) (t : nat) : bool := bool_decide (t ∈ alive_handlers_ s) || match slots s !! t with Some InThread => true | _ => false end.

Definition set_status (t : nat) (st : CallStatus) (s : Server) : Server :=
  with_heap s (alter (fun c => mkCall (cd_rpc c) st (request_ c)) t (heap s)).

(** An operation is started for [t]. *)
Definition start_op (t : nat) (sl : Slot) (s : Server) : option Server :=
  match slots s !! t with
  | Some _ => None
  | None => match phase s with CqClosed | Cleared => None | _ => Some (with_slots s (<[t := sl]> (slots s))) end
  end.

Definition Finish (t : nat) (a : Answer) (s : Server) : option Server :=
  s ← start_op t Sending s;
  Some (mkServer (heap s) (alive_handlers_ s) (slots s) (queues s) (phase s) (owned s) (answers s ++ [(t, a)])).

Definition RegisterHandler (t : nat) (s : Server) : Server := with_alive s ({[t]} ∪ alive_handlers_ s).
Definition UnregisterHandler (t : nat) (s : Server) : Server := with_alive s (alive_handlers_ s ∖ {[t]}).
Definition ClearAllHandlers (s : Server) : Server := with_alive s ∅.

Definition TryUnregister (t : nat) (s : Server) : Server := if owned s then UnregisterHandler t s else s.

(** A reception on a server that has been shut down is cancelled at once. *)
Definition request_func_ (t : nat) (s : Server) : option Server :=
  start_op t (match phase s with Serving => Receiving | _ => Ready false end) s.

Definition Proceed_CREATE (t : nat) (s : Server) : option Server := request_func_ t (set_status t PROCESS s).

Definition CreateAndRegister (rpc : Rpc) (s : Server) : option Server :=
  if owned s then
    let t := length (heap s) in
    Proceed_CREATE t (RegisterHandler t (with_heap s (heap s ++ [mkCall rpc CREATE None])))
  else Some s.

Definition enqueue_request (q : option nat) (r : Req) (s : Server) : Server :=
  match q with
  | Some q => with_queues s (alter (fun queue => enqueue queue r) q (queues s))
  | None => s
  end.

(** [Proceed] of the direct handler, for a request. *)
Definition process_direct (t : nat) (rpc : Rpc) (r : Req) (s : Server) : option Server :=
  let s := enqueue_request (in_queue_ (ep rpc)) r s in
  let reply := match handler_ (ep rpc) with Some h => h r | None => default_rsp end in
  Finish t (AnswerOk reply) (set_status t FINISH s).

(** [Proceed] of the other one, up to the start of its thread. *)
Definition process_async (t : nat) (rpc : Rpc) (r : Req) (s : Server) : option Server :=
  if String.eqb (uuid_of r) "" then Finish t InvalidArgument (set_status t FINISH s)
  else if negb (isValidUUID (uuid_of r)) then Finish t InvalidArgument (set_status t FINISH s)
  else
    let s := enqueue_request (in_queue_ (ep rpc)) r s in
    match slots s !! t with
    | Some _ => None
    | None => Some (with_slots s (<[t := InThread]> (slots s)))
    end.

Definition Proceed (t : nat) (ok : bool) (s : Server) : option Server :=
  if negb (is_live s t) then None
  else
    c ← heap s !! t;
    match status_ c with
    | CREATE => Proceed_CREATE t s
    | PROCESS =>
        if negb ok then Some (TryUnregister t s)
        else
          r ← request_ c;
          s ← CreateAndRegister (cd_rpc c) s;
          if is_async (cd_rpc c) then process_async t (cd_rpc c) r s else process_direct t (cd_rpc c) r s
    | FINISH => Some (TryUnregister t s)
    end.

(** The thread of a call, when [wait_and_get] returns. *)
Definition reply_thread (t : nat) (result : option Rsp) (s : Server) : option Server :=
  c ← heap s !! t;
  if negb (has_dispatcher (ep (cd_rpc c))) then None
  else
    let s := with_slots (set_status t FINISH s) (delete t (slots s)) in
    Finish t (match result with Some r => AnswerOk r | None => DeadlineExceeded end) s.

Definition Run (s : Server) : option Server := foldl (fun s rpc => s ← s; CreateAndRegister rpc s) (Some s) all_rpcs.

(** ** What happens *)

Inductive Event :=
| EvRequest (t : nat) (r : Req)             (* a call comes in: gRPC fills in the request *)
| EvNext (t : nat)                          (* [Next] hands out a tag; [Proceed] *)
| EvReply (t : nat) (result : option Rsp)   (* a thread has its reply, or its time-out *)
| EvSent (t : nat) (ok : bool)              (* an answer is out *)
| EvRelease                                 (* the last reference to the server goes *)
| EvShutdown                                (* [server_->Shutdown()] begins *)
| EvClose                                   (* it returns; [cq_->Shutdown()] *)
| EvClear.                                  (* the queue is drained; [ClearAllHandlers] *)

(** A call that gRPC has admitted and that is not complete. *)
Definition uncompleted (s : Server) (t : nat) (sl : Slot) : bool :=
  match sl with
  | InThread | Sending => true
  | Ready ok => ok && match heap s !! t with Some c => match status_ c with FINISH => false | _ => true end | None => false end
  | Receiving => false
  end.

Definition cancel (sl : Slot) : Slot := match sl with Receiving => Ready false | _ => sl end.

(** An event that is not possible changes nothing. *)
Definition event (s : Server) (e : Event) : option Server :=
  match e with
  | EvRequest t r =>
      match slots s !! t with
      | Some Receiving =>
          if negb (is_live s t) then None
          else Some (with_slots (with_heap s (alter (fun c => mkCall (cd_rpc c) (status_ c) (Some r)) t (heap s))) (<[t := Ready true]> (slots s)))
      | _ => Some s
      end
  | EvNext t => match slots s !! t with Some (Ready ok) => Proceed t ok (with_slots s (delete t (slots s))) | _ => Some s end
  | EvReply t result => match slots s !! t with Some InThread => reply_thread t result s | _ => Some s end
  | EvSent t ok => match slots s !! t with Some Sending => Some (with_slots s (<[t := Ready ok]> (slots s))) | _ => Some s end
  | EvRelease => Some (mkServer (heap s) (alive_handlers_ s) (slots s) (queues s) (phase s) false (answers s))
  | EvShutdown => match phase s with Serving => Some (with_slots (with_phase s ShuttingDown) (cancel <$> slots s)) | _ => Some s end
  | EvClose =>
      match phase s with
      | ShuttingDown => if existsb (fun p => uncompleted s p.1 p.2) (map_to_list (slots s)) then Some s else Some (with_phase s CqClosed)
      | _ => Some s
      end
  | EvClear =>
      match phase s with
      | CqClosed => if bool_decide (slots s = ∅) then Some (ClearAllHandlers (with_phase s Cleared)) else Some s
      | _ => Some s
      end
  end.

Fixpoint events (s : Server) (l : list Event) : option Server :=
  match l with
  | [] => Some s
  | e :: l => s ← event s e; events s l
  end.
End Server.

Arguments Endpoint : clear implicits.
Arguments Server : clear implicits.
Arguments Answer : clear implicits.
Arguments Event : clear implicits.
