(* ===== verification/GrpcServerProps.v ===== *)
(** * Properties of the gRPC server

    No freed call object is ever used, every call is answered once, a handler is always
    waiting for the next call, and stopping leaves nothing behind.  The one thing that ends
    the process is the thread of a valid request that wants a reply when its kind has no
    reply dispatcher; the program sets none. *)

From Stdlib Require Import Ascii String.
From stdpp Require Import gmap list.
From S2P Require Import Prelude SafeQueue GrpcServer.
Open Scope Z_scope.
Open Scope list_scope.

Lemma list_alter_id_at {A} (f : A -> A) (l : list A) i x : l !! i = Some x -> f x = x -> alter f i l = l.
Proof.
  intros Hx Hf. apply list_eq. intros j. destruct (decide (i = j)) as [<- |].
  - by rewrite list_lookup_alter_eq, Hx; cbn; rewrite Hf.
  - by rewrite list_lookup_alter_ne.
Qed.

Section Props.
Context {Req Rsp : Type} (uuid_of : Req -> string) (default_rsp : Rsp) (ep : Rpc -> Endpoint Req Rsp).
Local Abbreviation Server := (Server Req Rsp).
Local Abbreviation event := (event uuid_of default_rsp ep).
Local Abbreviation events := (events uuid_of default_rsp ep).
Local Abbreviation Proceed := (Proceed uuid_of default_rsp ep).

(** A valid call waits for its reply in a thread that has no dispatcher to ask. *)
Definition no_dispatcher (s : Server) (t : nat) : Prop :=
  slots s !! t = Some InThread /\ exists c r, heap s !! t = Some c /\ request_ c = Some r /\
    is_async (cd_rpc c) = true /\ isValidUUID (uuid_of r) = true /\ has_dispatcher (ep (cd_rpc c)) = false.

Definition is_open (p : Phase) : Prop := p = Serving \/ p = ShuttingDown.

Definition slot_ok (p : Phase) (sl : Slot) (c : CallData) : Prop :=
  match sl with
  | Receiving => status_ c = PROCESS /\ request_ c = None /\ p = Serving
  | Ready true => status_ c = PROCESS /\ is_Some (request_ c) /\ is_open p \/ status_ c = FINISH
  | Ready false => status_ c = PROCESS /\ request_ c = None /\ p <> Serving \/ status_ c = FINISH
  | InThread => status_ c = PROCESS /\ is_async (cd_rpc c) = true /\ is_open p /\
      exists r, request_ c = Some r /\ isValidUUID (uuid_of r) = true
  | Sending => status_ c = FINISH /\ is_open p
  end.

(** The answers a call can get. *)
Definition answer_ok (rpc : Rpc) (r : Req) (a : Answer Rsp) : Prop :=
  if is_async rpc then
    if isValidUUID (uuid_of r) then a = DeadlineExceeded \/ exists x, a = AnswerOk x else a = InvalidArgument
  else a = AnswerOk match handler_ (ep rpc) with Some h => h r | None => default_rsp end.

(** The answers given to [t]. *)
Definition answers_of (s : Server) (t : nat) : list (nat * Answer Rsp) := filter (fun p => fst p = t) (answers s).

Definition answered_ok (s : Server) (t : nat) : Prop :=
  match heap s !! t with
  | Some c =>
      match status_ c with
      | FINISH => exists r a, request_ c = Some r /\ answers_of s t = [(t, a)] /\ answer_ok (cd_rpc c) r a
      | _ => answers_of s t = []
      end
  | None => answers_of s t = []
  end.

(** Waiting for a request of this kind, or about to be handed one. *)
Definition waiting (s : Server) (rpc : Rpc) (t : nat) : Prop :=
  exists c, heap s !! t = Some c /\ cd_rpc c = rpc /\ status_ c = PROCESS /\
    (slots s !! t = Some Receiving \/ exists ok, slots s !! t = Some (Ready ok)).

Record inv (s : Server) : Prop := {
  i_slot t sl : slots s !! t = Some sl -> t ∈ alive_handlers_ s /\ exists c, heap s !! t = Some c /\ slot_ok (phase s) sl c;
  i_alive t : t ∈ alive_handlers_ s -> (t < length (heap s))%nat /\ (owned s = true -> is_Some (slots s !! t));
  i_cleared : phase s = Cleared -> slots s = ∅ /\ alive_handlers_ s = ∅;
  i_waiting rpc : phase s = Serving -> owned s = true -> exists t, forall t', waiting s rpc t' <-> t' = t;
  i_answered t : answered_ok s t;
  i_done t c : heap s !! t = Some c -> slots s !! t = None -> status_ c = FINISH \/ request_ c = None
}.

(** ** What a request does *)

(** The new handler for the next request, where the server can still be locked. *)
Definition next_heap (s : Server) (rpc : Rpc) : list CallData := if owned s then heap s ++ [mkCall rpc PROCESS None] else heap s.
Definition next_alive (s : Server) : gset nat := if owned s then {[length (heap s)]} ∪ alive_handlers_ s else alive_handlers_ s.
Definition next_slots (s : Server) (m : gmap nat Slot) : gmap nat Slot :=
  if owned s then <[length (heap s) := match phase s with Serving => Receiving | _ => Ready false end]> m else m.

(** What becomes of the call: the answer is on its way, or its thread waits for the reply. *)
Inductive outcome (rpc : Rpc) (r : Req) : Slot -> CallStatus -> list (Answer Rsp) -> Prop :=
| out_answered a : is_async rpc && isValidUUID (uuid_of r) = false -> answer_ok rpc r a -> outcome rpc r Sending FINISH [a]
| out_thread : is_async rpc = true -> isValidUUID (uuid_of r) = true -> outcome rpc r InThread PROCESS [].

Definition served (s : Server) (t : nat) (rpc : Rpc) (sl : Slot) (st : CallStatus) (l : list (Answer Rsp)) q : Server :=
  mkServer (alter (fun c => mkCall (cd_rpc c) st (request_ c)) t (next_heap s rpc)) (next_alive s)
    (<[t := sl]> (next_slots s (delete t (slots s)))) q (phase s) (owned s) (answers s ++ map (pair t) l).

Lemma heap_fresh (s : Server) : inv s -> slots s !! length (heap s) = None.
Proof.
  intros Hs. destruct (slots s !! length (heap s)) as [sl |] eqn:E; [| done]. destruct (i_slot s Hs _ _ E) as [_ (c & Hc & _)].
  apply lookup_lt_Some in Hc. lia.
Qed.

Lemma create_and_register (s : Server) rpc :
  is_open (phase s) -> slots s !! length (heap s) = None ->
  CreateAndRegister rpc s = Some (mkServer (next_heap s rpc) (next_alive s) (next_slots s (slots s)) (queues s) (phase s) (owned s) (answers s)).
Proof.
  intros Hp Hf. unfold CreateAndRegister, next_heap, next_alive, next_slots. destruct (owned s) eqn:Eo; [| destruct s; cbn in *; by subst].
  unfold Proceed_CREATE, request_func_, start_op, set_status, RegisterHandler, with_heap, with_alive, with_slots. cbn.
  rewrite Hf, Eo. rewrite alter_app_r_alt by lia. rewrite Nat.sub_diag. cbn. by destruct Hp as [E | E]; rewrite E.
Qed.

Lemma proceed_request (s : Server) t c r :
  inv s -> slots s !! t = Some (Ready true) -> heap s !! t = Some c -> status_ c = PROCESS -> request_ c = Some r -> is_open (phase s) ->
  exists sl st l q, Proceed t true (with_slots s (delete t (slots s))) = Some (served s t (cd_rpc c) sl st l q) /\ outcome (cd_rpc c) r sl st l.
Proof.
  intros Hs Hsl Hc Hst Hr Hp. pose proof (heap_fresh s Hs) as Hf. pose proof (lookup_lt_Some _ _ _ Hc) as Hlt.
  destruct (i_slot s Hs _ _ Hsl) as [Ha _].
  assert (next_slots s (delete t (slots s)) !! t = None) as Hnone.
  { unfold next_slots. destruct (owned s); rewrite ?lookup_insert_ne by lia; apply lookup_delete_eq. }
  unfold GrpcServer.Proceed, is_live. cbn [alive_handlers_ with_slots heap]. rewrite bool_decide_true by done. cbn [orb negb].
  rewrite Hc. cbn [mbind option_bind]. rewrite Hst, Hr. cbn [negb mbind option_bind].
  rewrite create_and_register by (cbn; done || (rewrite lookup_delete_ne by lia; done)). cbn [mbind option_bind].
  change (next_heap (with_slots s (delete t (slots s))) (cd_rpc c)) with (next_heap s (cd_rpc c)).
  change (next_alive (with_slots s (delete t (slots s)))) with (next_alive s).
  change (next_slots (with_slots s (delete t (slots s)))) with (next_slots s). cbn [slots with_slots queues phase owned answers].
  assert (forall q a, Finish t a (set_status t FINISH (mkServer (next_heap s (cd_rpc c)) (next_alive s) (next_slots s (delete t (slots s))) q (phase s) (owned s) (answers s))) =
            Some (served s t (cd_rpc c) Sending FINISH [a] q)) as Hfin.
  { intros q a. unfold Finish, start_op. cbn [slots set_status with_heap phase]. rewrite Hnone. unfold served. by destruct Hp as [E | E]; rewrite E. }
  destruct (is_async (cd_rpc c)) eqn:Ea.
  - unfold process_async. destruct (String.eqb_spec (uuid_of r) "") as [Hu | Hu].
    + rewrite Hfin. do 4 eexists. split; [done |]. constructor; [by rewrite Ea, Hu |]. unfold answer_ok. by rewrite Ea, Hu.
    + destruct (isValidUUID (uuid_of r)) eqn:Ev; cbn [negb].
      * unfold enqueue_request. destruct (in_queue_ (ep (cd_rpc c))); cbn [slots with_queues]; rewrite Hnone;
          (do 4 eexists; split; [| by apply out_thread]); unfold served, with_slots; cbn;
          (replace (alter _ t (next_heap s (cd_rpc c))) with (next_heap s (cd_rpc c));
            [by rewrite app_nil_r | symmetry; apply list_alter_id_at with c; [| by destruct c; cbn in *; subst]]);
          unfold next_heap; (destruct (owned s); [by rewrite lookup_app_l | done]).
      * rewrite Hfin. do 4 eexists. split; [done |]. constructor; [by rewrite Ea, Ev |]. unfold answer_ok. by rewrite Ea, Ev.
  - unfold process_direct, enqueue_request, with_queues. destruct (in_queue_ (ep (cd_rpc c))); cbn [heap alive_handlers_ slots queues phase owned answers]; rewrite Hfin; (do 4 eexists; split; [done |]; constructor; [by rewrite Ea |]; unfold answer_ok; by rewrite Ea).
Qed.

(** Looking into the new state. *)
Lemma served_heap (s : Server) t c sl st l q u :
  inv s -> heap s !! t = Some c ->
  heap (served s t (cd_rpc c) sl st l q) !! u =
    if decide (u = t) then Some (mkCall (cd_rpc c) st (request_ c))
    else if decide (owned s = true /\ u = length (heap s)) then Some (mkCall (cd_rpc c) PROCESS None) else heap s !! u.
Proof.
  intros Hs Hc. pose proof (lookup_lt_Some _ _ _ Hc) as Hlt. cbn. unfold next_heap. destruct (decide (u = t)) as [-> | Hne].
  - rewrite list_lookup_alter_eq. destruct (owned s); [rewrite lookup_app_l by done |]; by rewrite Hc.
  - rewrite list_lookup_alter_ne by done. destruct (owned s); [| by rewrite decide_False by (intros [? ?]; done)].
    destruct (decide (u = length (heap s))) as [-> | Hn]; [rewrite decide_True by done; by rewrite lookup_app_r, Nat.sub_diag by lia | rewrite decide_False by tauto].
    destruct (decide (u < length (heap s))%nat); [by rewrite lookup_app_l |]. rewrite !lookup_ge_None_2; rewrite ?length_app; cbn; done || lia.
Qed.

Lemma served_slots (s : Server) t rpc sl st l q u :
  (t < length (heap s))%nat ->
  slots (served s t rpc sl st l q) !! u =
    if decide (u = t) then Some sl
    else if decide (owned s = true /\ u = length (heap s)) then Some (match phase s with Serving => Receiving | _ => Ready false end) else slots s !! u.
Proof.
  intros Hlt. cbn. unfold next_slots. destruct (decide (u = t)) as [-> | Hne]; [by rewrite lookup_insert_eq |].
  rewrite lookup_insert_ne by done. destruct (owned s).
  - destruct (decide (u = length (heap s))) as [-> | Hn]; [rewrite decide_True by done; by rewrite lookup_insert_eq |].
    by rewrite decide_False, lookup_insert_ne, lookup_delete_ne by (done || tauto).
  - rewrite decide_False by (intros [? ?]; done). by rewrite lookup_delete_ne.
Qed.
Lemma answers_served (s : Server) t rpc sl st l q u :
  answers_of (served s t rpc sl st l q) u = answers_of s u ++ (if decide (u = t) then map (pair t) l else []).
Proof.
  unfold answers_of. cbn. rewrite filter_app. f_equal. induction l as [| a l IH]; [by destruct (decide (u = t)) |].
  cbn [map]. rewrite filter_cons. cbn [fst]. rewrite IH. destruct (decide (u = t)), (decide (t = u)); congruence || done.
Qed.

Lemma alive_served (s : Server) t rpc sl st l q u :
  u ∈ alive_handlers_ (served s t rpc sl st l q) <-> u ∈ alive_handlers_ s \/ owned s = true /\ u = length (heap s).
Proof. cbn. unfold next_alive. destruct (owned s); [set_solver | naive_solver]. Qed.

Lemma served_slot (s : Server) t c r sl st l q :
  inv s -> slots s !! t = Some (Ready true) -> heap s !! t = Some c -> request_ c = Some r -> is_open (phase s) -> outcome (cd_rpc c) r sl st l ->
  let s' := served s t (cd_rpc c) sl st l q in
  forall u sl', slots s' !! u = Some sl' -> u ∈ alive_handlers_ s' /\ exists c', heap s' !! u = Some c' /\ slot_ok (phase s') sl' c'.
Proof.
  intros Hs Hsl Hc Hr Hp Ho s' u sl'. subst s'. rewrite served_slots by (by eapply lookup_lt_Some). rewrite alive_served, served_heap by done. cbn [phase served].
  destruct (decide (u = t)) as [-> | Hne].
  - intros [= <-]. split; [left; by apply (i_slot s Hs _ _ Hsl) |]. eexists. split; [done |].
    destruct Ho; cbn; [by split |]. split; [done |]. split; [done |]. split; [done |]. by exists r.
  - destruct (decide (owned s = true /\ u = length (heap s))) as [Hn | Hn].
    + intros [= <-]. split; [by right |]. eexists. split; [done |]. destruct (phase s); cbn; [by split | | |]; left; done.
    + intros Hu. destruct (i_slot s Hs _ _ Hu) as [Ha Hx]. split; [by left | done].
Qed.

Lemma served_waiting (s : Server) t c r sl st l q rpc :
  inv s -> slots s !! t = Some (Ready true) -> heap s !! t = Some c -> status_ c = PROCESS -> outcome (cd_rpc c) r sl st l ->
  phase s = Serving -> owned s = true ->
  exists w, forall u, waiting (served s t (cd_rpc c) sl st l q) rpc u <-> u = w.
Proof.
  intros Hs Hsl Hc Hst Ho Hp Hown. pose proof (lookup_lt_Some _ _ _ Hc) as Hlt.
  assert (waiting s (cd_rpc c) t) as Ht by (exists c; eauto 10).
  assert (forall u, waiting (served s t (cd_rpc c) sl st l q) rpc u <-> u <> t /\ (u = length (heap s) /\ rpc = cd_rpc c \/ u <> length (heap s) /\ waiting s rpc u)) as Hw.
  { intros u. unfold waiting at 1. rewrite served_slots, served_heap by done. rewrite Hown, Hp. destruct (decide (u = t)) as [-> | Hne].
    - split; [| naive_solver]. intros (c' & _ & _ & _ & [H | [ok H]]); destruct Ho; discriminate.
    - destruct (decide (true = true /\ u = length (heap s))) as [[_ ->] | Hn].
      + split; [intros (c' & [= <-] & <- & _); naive_solver |]. intros [_ [[_ ->] | [? _]]]; [| done]. eexists. split; [done |]. cbn. eauto.
      + unfold waiting. naive_solver. }
  destruct (i_waiting s Hs rpc Hp Hown) as [w Hu]. destruct (decide (rpc = cd_rpc c)) as [-> | Hr].
  - exists (length (heap s)). intros u. rewrite Hw, Hu. apply Hu in Ht. subst w. split; [naive_solver |]. intros ->. split; [lia | by left].
  - exists w. intros u. rewrite Hw, Hu. split; [naive_solver |]. intros ->. assert (waiting s rpc w) as Hww by (by apply Hu).
    split; [intros ->; destruct Hww as (c' & Hc' & Hr' & _); congruence |]. right. split; [| done].
    intros ->. destruct Hww as (c' & Hc' & _). apply lookup_lt_Some in Hc'. lia.
Qed.

Lemma served_inv (s : Server) t c r sl st l q :
  inv s -> slots s !! t = Some (Ready true) -> heap s !! t = Some c -> status_ c = PROCESS -> request_ c = Some r -> is_open (phase s) ->
  outcome (cd_rpc c) r sl st l -> inv (served s t (cd_rpc c) sl st l q).
Proof.
  intros Hs Hsl Hc Hst Hr Hp Ho. pose proof (lookup_lt_Some _ _ _ Hc) as Hlt. split.
  - by apply (served_slot s t c r).
  - intros u. rewrite alive_served. intros Hu. split.
    + cbn. rewrite length_alter. unfold next_heap. destruct Hu as [Hu | [-> ->]]; [apply (i_alive s Hs) in Hu as [Hu _]; destruct (owned s); rewrite ?length_app; cbn; lia | rewrite length_app; cbn; lia].
    + intros Hown. rewrite served_slots by done. destruct (decide (u = t)); [by eexists |]. destruct (decide _) as [| Hn]; [by eexists |].
      destruct Hu as [Hu | Hu]; [by apply (i_alive s Hs) in Hu as [_ Hu]; apply Hu | done].
  - cbn. intros E. rewrite E in Hp. by destruct Hp.
  - intros rpc. cbn [phase owned served]. by eapply served_waiting.
  - intros u. pose proof (i_answered s Hs u) as Ha. unfold answered_ok in *. rewrite served_heap, answers_served by done. destruct (decide (u = t)) as [-> | Hne].
    + rewrite Hc, Hst in Ha. rewrite Ha. cbn. destruct Ho; [| done]. exists r, a. by rewrite Hr.
    + rewrite app_nil_r. destruct (decide _) as [[_ ->] | Hn]; [| done]. rewrite lookup_ge_None_2 in Ha by lia. done.
  - intros u c'. rewrite served_heap, served_slots by done. destruct (decide (u = t)); [done |]. destruct (decide _); [done |]. apply (i_done s Hs).
Qed.

(** ** The other events *)

Lemma not_waiting_others (s s' : Server) t :
  (forall u, u <> t -> heap s' !! u = heap s !! u /\ slots s' !! u = slots s !! u) ->
  (forall rpc, ~ waiting s rpc t) -> (forall rpc, ~ waiting s' rpc t) -> forall rpc u, waiting s' rpc u <-> waiting s rpc u.
Proof.
  intros Hsame Hn Hn' rpc u. destruct (decide (u = t)) as [-> | Hne]; [split; intros H; [by destruct (Hn' rpc) | by destruct (Hn rpc)] |].
  destruct (Hsame u Hne) as [Hh Hs]. unfold waiting. by rewrite Hh, Hs.
Qed.

Lemma finished_not_waiting (s : Server) t c rpc : heap s !! t = Some c -> status_ c = FINISH -> ~ waiting s rpc t.
Proof. intros Hc Hst (c' & Hc' & _ & Hp & _). congruence. Qed.

(** A call object is given up. *)
Lemma removed_inv (s : Server) t c ok :
  inv s -> slots s !! t = Some (Ready ok) -> heap s !! t = Some c -> status_ c = FINISH \/ ok = false ->
  inv (TryUnregister t (with_slots s (delete t (slots s)))).
Proof.
  intros Hs Hsl Hc Hwhy. unfold TryUnregister. cbn [owned with_slots].
  set (s' := if owned s then _ else _). assert (heap s' = heap s /\ phase s' = phase s /\ owned s' = owned s /\ answers s' = answers s /\ slots s' = delete t (slots s) /\
    alive_handlers_ s' = if owned s then alive_handlers_ s ∖ {[t]} else alive_handlers_ s) as (Hh & Hp & How & Han & Hsl' & Hal).
  { subst s'. by destruct (owned s) eqn:E; cbn; rewrite ?E. }
  clearbody s'. split.
  - intros u sl. rewrite Hsl', Hal, Hh, Hp. intros [Hne Hu]%lookup_delete_Some. destruct (i_slot s Hs _ _ Hu) as [Ha Hx]. split; [| done]. destruct (owned s); set_solver.
  - intros u. rewrite Hal, Hh, How, Hsl'. intros Hu. assert (u ∈ alive_handlers_ s) as Hu' by (destruct (owned s); set_solver).
    destruct (i_alive s Hs u Hu') as [Hl Hsome]. split; [done |]. intros E. rewrite E in Hu. rewrite lookup_delete_ne by set_solver. by apply Hsome.
  - rewrite Hp, Hsl', Hal. intros E. destruct (i_cleared s Hs E) as [-> ->]. rewrite delete_empty. split; [done |]. destruct (owned s); set_solver.
  - intros rpc. rewrite Hp, How. intros E1 E2. assert (status_ c = FINISH) as Hst.
    { destruct Hwhy as [? | ->]; [done |]. destruct (i_slot s Hs _ _ Hsl) as (_ & c' & Hc' & Hok). rewrite Hc in Hc'. injection Hc' as <-. by destruct Hok as [(_ & _ & ?) | ?]. }
    destruct (i_waiting s Hs rpc E1 E2) as [w Hw]. exists w. intros u. rewrite <- Hw.
    apply (not_waiting_others s s' t); [intros v Hv; by rewrite Hh, Hsl', lookup_delete_ne | intros r'; by eapply finished_not_waiting |].
    intros r'. eapply (finished_not_waiting s' t c); [by rewrite Hh | done].
  - intros u. pose proof (i_answered s Hs u) as Ha. unfold answered_ok, answers_of in *. by rewrite Hh, Han.
  - intros u c'. rewrite Hh, Hsl'. destruct (decide (u = t)) as [-> | Hne]; [| rewrite lookup_delete_ne by done; apply (i_done s Hs)].
    intros Hc' _. rewrite Hc in Hc'. injection Hc' as <-. destruct (i_slot s Hs _ _ Hsl) as (_ & c' & Hc' & Hok). rewrite Hc in Hc'. injection Hc' as <-.
    destruct Hwhy as [? | ->]; [by left |]. destruct Hok as [(_ & ? & _) | ?]; [by right | by left].
Qed.

Lemma request_inv (s : Server) t r :
  inv s -> slots s !! t = Some Receiving ->
  is_live s t = true /\ inv (with_slots (with_heap s (alter (fun c => mkCall (cd_rpc c) (status_ c) (Some r)) t (heap s))) (<[t := Ready true]> (slots s))).
Proof.
  intros Hs Hsl. destruct (i_slot s Hs _ _ Hsl) as (Ha & c & Hc & Hst & _ & Hp). split; [unfold is_live; by rewrite bool_decide_true |]. split; cbn.
  - intros u sl. destruct (decide (u = t)) as [-> | Hne].
    + rewrite lookup_insert_eq, list_lookup_alter_eq, Hc. intros [= <-]. split; [done |]. eexists. split; [done |]. cbn. left. split; [done |]. split; [done | by left].
    + rewrite lookup_insert_ne, list_lookup_alter_ne by done. apply (i_slot s Hs).
  - intros u Hu. rewrite length_alter. destruct (i_alive s Hs u Hu) as [Hl Hsome]. split; [done |]. intros E.
    destruct (decide (u = t)) as [-> |]; [rewrite lookup_insert_eq; by eexists | rewrite lookup_insert_ne by done; auto].
  - intros E. congruence.
  - intros rpc E1 E2. destruct (i_waiting s Hs rpc E1 E2) as [w Hw]. exists w. intros u. rewrite <- Hw. unfold waiting. cbn. destruct (decide (u = t)) as [-> | Hne].
    + rewrite list_lookup_alter_eq, lookup_insert_eq, Hc, Hsl. cbn. split; intros (c' & [= <-] & ? & ? & _); (eexists; split; [done |]; cbn in *; eauto 10).
    + by rewrite list_lookup_alter_ne, lookup_insert_ne.
  - intros u. pose proof (i_answered s Hs u) as Hans. unfold answered_ok, answers_of in *. cbn. destruct (decide (u = t)) as [-> | Hne].
    + rewrite list_lookup_alter_eq, Hc in *. cbn. by rewrite Hst in *.
    + by rewrite list_lookup_alter_ne.
  - intros u c'. destruct (decide (u = t)) as [-> | Hne]; [by rewrite lookup_insert_eq |]. rewrite list_lookup_alter_ne, lookup_insert_ne by done. apply (i_done s Hs).
Qed.

Lemma reply_inv (s : Server) t result :
  inv s -> slots s !! t = Some InThread ->
  match reply_thread ep t result s with
  | None => no_dispatcher s t
  | Some s' => inv s' /\ phase s' = phase s /\ slots s' = <[t := Sending]> (delete t (slots s)) /\ forall u, u <> t -> heap s' !! u = heap s !! u
  end.
Proof.
  intros Hs Hsl. destruct (i_slot s Hs _ _ Hsl) as (Ha & c & Hc & Hst & Has & Hp & r & Hr & Hv).
  unfold reply_thread. rewrite Hc. cbn [mbind option_bind]. destruct (has_dispatcher (ep (cd_rpc c))) eqn:Hd; cbn [negb]; [| split; [done |]; by exists c, r].
  set (a := match result with Some r => AnswerOk r | None => DeadlineExceeded end).
  set (s' := mkServer (alter (fun c => mkCall (cd_rpc c) FINISH (request_ c)) t (heap s)) (alive_handlers_ s) (<[t := Sending]> (delete t (slots s))) (queues s) (phase s) (owned s) (answers s ++ [(t, a)])).
  assert (Finish t a (with_slots (set_status t FINISH s) (delete t (slots s))) = Some s') as ->.
  { unfold Finish, start_op. cbn [slots with_slots set_status with_heap phase]. rewrite lookup_delete_eq. subst s'. by destruct Hp as [E | E]; rewrite E; cbn; rewrite ?E. }
  split; [| split; [done |]; split; [done |]; intros u Hu; by apply list_lookup_alter_ne]. split; cbn.
  - intros u sl. destruct (decide (u = t)) as [-> | Hne].
    + rewrite lookup_insert_eq, list_lookup_alter_eq, Hc. intros [= <-]. split; [done |]. eexists. by split.
    + rewrite lookup_insert_ne, lookup_delete_ne, list_lookup_alter_ne by done. apply (i_slot s Hs).
  - intros u Hu. rewrite length_alter. destruct (i_alive s Hs u Hu) as [Hl Hsome]. split; [done |]. intros E.
    destruct (decide (u = t)) as [-> |]; [rewrite lookup_insert_eq; by eexists | rewrite lookup_insert_ne, lookup_delete_ne by done; auto].
  - intros E. rewrite E in Hp. by destruct Hp.
  - intros rpc E1 E2. destruct (i_waiting s Hs rpc E1 E2) as [w Hw]. exists w. intros u. rewrite <- Hw. apply (not_waiting_others s s' t).
    + intros v Hvt. subst s'. cbn. by rewrite list_lookup_alter_ne, lookup_insert_ne, lookup_delete_ne.
    + intros r' (c' & _ & _ & _ & [? | [ok ?]]); congruence.
    + intros r'. eapply (finished_not_waiting s' t); [subst s'; cbn; by rewrite list_lookup_alter_eq, Hc | done].
  - intros u. pose proof (i_answered s Hs u) as Hans. unfold answered_ok, answers_of in *. cbn [answers heap s']. rewrite filter_app, filter_cons. cbn [fst]. rewrite filter_nil.
    destruct (decide (u = t)) as [-> | Hne].
    + rewrite list_lookup_alter_eq, Hc in *. rewrite decide_True by done. cbn. rewrite Hst in Hans. rewrite Hans. exists r, a. split; [done |]. split; [done |].
      unfold answer_ok. rewrite Has, Hv. subst a. destruct result; eauto.
    + rewrite list_lookup_alter_ne, decide_False, app_nil_r by congruence. done.
  - intros u c'. destruct (decide (u = t)) as [-> | Hne]; [by rewrite lookup_insert_eq |]. rewrite list_lookup_alter_ne, lookup_insert_ne, lookup_delete_ne by done. apply (i_done s Hs).
Qed.

Lemma sent_inv (s : Server) t ok : inv s -> slots s !! t = Some Sending -> inv (with_slots s (<[t := Ready ok]> (slots s))).
Proof.
  intros Hs Hsl. destruct (i_slot s Hs _ _ Hsl) as (Ha & c & Hc & Hst & Hp). split; cbn.
  - intros u sl [[<- <-] | [_ Hu]]%lookup_insert_Some; [| by apply (i_slot s Hs)]. split; [done |]. exists c. split; [done |]. destruct ok; by right.
  - intros u Hu. destruct (i_alive s Hs u Hu) as [Hl Hsome]. split; [done |]. intros E. apply lookup_insert_is_Some'. right. auto.
  - intros E. rewrite E in Hp. by destruct Hp.
  - intros rpc E1 E2. destruct (i_waiting s Hs rpc E1 E2) as [w Hw]. exists w. intros u. rewrite <- Hw. apply (not_waiting_others s _ t).
    + intros v Hv. cbn. by rewrite lookup_insert_ne.
    + intros r'. by eapply finished_not_waiting.
    + intros r'. by eapply finished_not_waiting.
  - intros u. apply (i_answered s Hs).
  - intros u c'. destruct (decide (u = t)) as [-> | Hne]; [by rewrite lookup_insert_eq |]. rewrite lookup_insert_ne by done. apply (i_done s Hs).
Qed.

Lemma shutdown_inv (s : Server) : inv s -> phase s = Serving -> inv (with_slots (with_phase s ShuttingDown) (cancel <$> slots s)).
Proof.
  intros Hs Hp. split; cbn; [| | done | done | |].
  - intros u sl. rewrite lookup_fmap. intros (sl0 & Hu & ->)%fmap_Some. destruct (i_slot s Hs _ _ Hu) as (Ha & c & Hc & Hok). split; [done |]. exists c. split; [done |].
    rewrite Hp in Hok. destruct sl0 as [| [] | |]; cbn in *; unfold is_open in *; naive_solver.
  - intros u Hu. destruct (i_alive s Hs u Hu) as [Hl Hsome]. split; [done |]. intros E. rewrite lookup_fmap. by apply fmap_is_Some, Hsome.
  - intros u. apply (i_answered s Hs).
  - intros u c'. rewrite lookup_fmap. intros Hc Hn%fmap_None. by apply (i_done s Hs u).
Qed.

Lemma close_inv (s : Server) :
  inv s -> phase s = ShuttingDown -> existsb (fun p => uncompleted s p.1 p.2) (map_to_list (slots s)) = false -> inv (with_phase s CqClosed).
Proof.
  intros Hs Hp Hun. split; cbn; [| | done | done | |].
  - intros u sl Hu. destruct (i_slot s Hs _ _ Hu) as (Ha & c & Hc & Hok). split; [done |]. exists c. split; [done |].
    assert (uncompleted s u sl = false) as Hc0.
    { destruct (uncompleted s u sl) eqn:E; [| done]. rewrite <- not_true_iff_false, existsb_exists in Hun. destruct Hun. exists (u, sl). split; [| done].
      apply list_elem_of_In. by apply elem_of_map_to_list. }
    rewrite Hp in Hok. unfold uncompleted in Hc0. rewrite Hc in Hc0. destruct sl as [| [] | |]; cbn in *; [by destruct Hok as (_ & _ & ?) | | | done | done].
    + right. by destruct (status_ c).
    + destruct Hok as [(? & ? & _) | ?]; [by left | by right].
  - intros u Hu. apply (i_alive s Hs u Hu).
  - intros u. apply (i_answered s Hs).
  - intros u. apply (i_done s Hs).
Qed.

(** What [Next] does to a tag. *)
Lemma next_spec (s : Server) t ok :
  inv s -> slots s !! t = Some (Ready ok) ->
  let s0 := with_slots s (delete t (slots s)) in
  exists c, heap s !! t = Some c /\
    ((status_ c = FINISH \/ ok = false) /\ Proceed t ok s0 = Some (TryUnregister t s0) \/
     ok = true /\ is_open (phase s) /\ status_ c = PROCESS /\ exists r sl st l q, request_ c = Some r /\ Proceed t ok s0 = Some (served s t (cd_rpc c) sl st l q) /\ outcome (cd_rpc c) r sl st l).
Proof.
  intros Hs Hsl s0. destruct (i_slot s Hs _ _ Hsl) as (Ha & c & Hc & Hok). exists c. split; [done |].
  destruct (status_ c) eqn:Hst; [exfalso; cbn in Hok; rewrite Hst in Hok; destruct ok; naive_solver | |].
  - destruct ok.
    + right. destruct Hok as [(_ & [r Hr] & Hp) | ?]; [| congruence]. split; [done |]. split; [done |]. split; [done |].
      destruct (proceed_request s t c r Hs Hsl Hc Hst Hr Hp) as (sl & st & l & q & ? & ?). by exists r, sl, st, l, q.
    + left. split; [by right |]. subst s0. unfold GrpcServer.Proceed, is_live. cbn [alive_handlers_ with_slots heap]. rewrite bool_decide_true by done. cbn [orb negb].
      rewrite Hc. cbn [mbind option_bind]. by rewrite Hst.
  - left. split; [by left |]. subst s0. unfold GrpcServer.Proceed, is_live. cbn [alive_handlers_ with_slots heap]. rewrite bool_decide_true by done. cbn [orb negb].
    rewrite Hc. cbn [mbind option_bind]. by rewrite Hst.
Qed.

(** Nothing else ends the process. *)
Lemma event_inv (s : Server) e : inv s ->
  match event s e with Some s' => inv s' | None => exists t result, e = EvReply t result /\ no_dispatcher s t end.
Proof.
  intros Hs. destruct e as [t r | t | t result | t ok | | | |]; cbn [GrpcServer.event].
  - destruct (slots s !! t) as [[] |] eqn:Hsl; try done. by destruct (request_inv s t r Hs Hsl) as [-> Hi].
  - destruct (slots s !! t) as [[| ok | |] |] eqn:Hsl; try done. destruct (next_spec s t ok Hs Hsl) as (c & Hc & [[Hwhy ->] | (-> & Hp & Hst & r & sl & st & l & q & Hr & -> & Ho)]);
      [by eapply removed_inv | by eapply served_inv].
  - destruct (slots s !! t) as [[] |] eqn:Hsl; try done. pose proof (reply_inv s t result Hs Hsl) as H. destruct (reply_thread _ _ _ _); [by destruct H | by exists t, result].
  - destruct (slots s !! t) as [[] |] eqn:Hsl; try done. by apply sent_inv.
  - destruct Hs as [H1 H2 H3 H4 H5 H6]. split; cbn; [done | | done | done | done | done]. intros t Ht. by split; [apply H2 |].
  - destruct (phase s) eqn:Hp; try done. by apply shutdown_inv.
  - destruct (phase s) eqn:Hp; try done. destruct (existsb _ _) eqn:E; [done |]. by apply close_inv.
  - destruct (phase s) eqn:Hp; try done. destruct (bool_decide (slots s = ∅)) eqn:E; [| done]. apply bool_decide_eq_true in E.
    destruct Hs as [H1 H2 H3 H4 H5 H6]. split; cbn; [intros t sl; by rewrite E, lookup_empty | intros t; set_solver | done | done | done | done].
Qed.

Lemma events_inv (s : Server) l : inv s ->
  match events s l with
  | Some s' => inv s'
  | None => exists l1 t result l2 s1, l = l1 ++ EvReply t result :: l2 /\ events s l1 = Some s1 /\ no_dispatcher s1 t
  end.
Proof.
  revert s. induction l as [| e l IH]; intros s Hs; [done |]. pose proof (event_inv s e Hs) as He. cbn.
  destruct (event s e) as [s1 |] eqn:Ee; cbn; [| destruct He as (t & result & -> & Hn); by exists [], t, result, l, s].
  specialize (IH s1 He). destruct (events s1 l); [done |]. destruct IH as (l1 & t & result & l2 & s2 & -> & E2 & Hn).
  exists (e :: l1), t, result, l2, s2. split; [done |]. split; [| done]. cbn. by rewrite Ee.
Qed.

(** ** The start *)

Definition run_server q : Server :=
  mkServer ((fun rpc => mkCall rpc PROCESS None) <$> all_rpcs) {[0; 1; 2; 3; 4; 5; 6]}%nat
    (<[0%nat := Receiving]> (<[1%nat := Receiving]> (<[2%nat := Receiving]> (<[3%nat := Receiving]> (<[4%nat := Receiving]> (<[5%nat := Receiving]> {[6%nat := Receiving]}))))))
    q Serving true [].

Lemma run_state q : Run (Server_make q) = Some (run_server q).
Proof. vm_compute. reflexivity. Qed.

Lemma server_run_inv q : exists s, Run (Server_make q) = Some s /\ inv s /\ phase s = Serving /\ owned s = true.
Proof.
  exists (run_server q). split; [apply run_state |]. split; [| done]. unfold run_server. split.
  - cbn [slots alive_handlers_ heap phase]. intros t sl. rewrite !lookup_insert_Some, lookup_singleton_Some. intros H.
    assert (t ∈ seq 0 7 /\ sl = Receiving) as [Ht ->] by (rewrite elem_of_seq; naive_solver lia). rewrite elem_of_seq in Ht.
    do 7 (destruct t as [| t]; [split; [set_solver |]; eexists; split; [done |]; by split |]). lia.
  - cbn [slots alive_handlers_ heap owned]. intros t Ht. rewrite !elem_of_union, !elem_of_singleton in Ht. split; [cbn; lia |]. intros _.
    destruct_or?; subst; vm_compute; by eexists.
  - done.
  - intros rpc _ _. unfold waiting. cbn. exists (match rpc with SendEventOnlyJson => 0 | SendEventWithImages => 1 | RequestEventOnlyJson => 2 | RequestEventWithImages => 3
      | SendCounterDelta => 4 | SendHeartbeat => 5 | RequestCounterSnapshot => 6 end)%nat.
    intros t'. split.
    + intros (c & Hc & <- & _). do 7 (destruct t' as [| t']; [by injection Hc as <- |]). done.
    + intros ->. destruct rpc; (eexists; split; [done |]; split; [done |]; split; [done |]; left; done).
  - intros t. unfold answered_ok, answers_of. cbn. do 7 (destruct t as [| t]; [done |]). done.
  - cbn. intros t c. do 7 (destruct t as [| t]; [done |]). done.
Qed.

(** ** Draining *)

Definition finished (s : Server) (t : nat) : bool := match heap s !! t with Some c => match status_ c with FINISH => true | _ => false end | None => false end.

(** What a call object has still to go through. *)
Definition weight (finished : bool) (sl : Slot) : nat :=
  match sl with Receiving => 1 | Ready true => if finished then 2 else 7 | Ready false => 2 | InThread => 4 | Sending => 3 end.

Definition weights (s : Server) : gmap nat nat := map_imap (fun t sl => Some (weight (finished s t) sl)) (slots s).

Definition total (m : gmap nat nat) : nat := sum_list_with id (map_to_list m).*2.

Lemma weights_lookup (s : Server) t : weights s !! t = weight (finished s t) <$> slots s !! t.
Proof. unfold weights. rewrite map_lookup_imap. by destruct (slots s !! t). Qed.

Lemma total_delete m t w : m !! t = Some w -> total m = (w + total (delete t m))%nat.
Proof. intros H. unfold total. by rewrite <- (map_to_list_delete m t w H). Qed.

Lemma total_insert m t w : m !! t = None -> total (<[t := w]> m) = (w + total m)%nat.
Proof. intros H. unfold total. by rewrite map_to_list_insert. Qed.

(** An event at [t] changes the weight of [t] only. *)
Lemma weights_at (s s' : Server) t :
  (forall u, u <> t -> slots s' !! u = slots s !! u /\ heap s' !! u = heap s !! u) ->
  delete t (weights s') = delete t (weights s).
Proof.
  intros Hu. apply map_eq. intros u. destruct (decide (t = u)) as [-> | Hne]; [by rewrite !lookup_delete_eq |].
  rewrite !lookup_delete_ne, !weights_lookup by done. destruct (Hu u (not_eq_sym Hne)) as [-> Hh]. unfold finished. by rewrite Hh.
Qed.

Lemma total_at (s s' : Server) t sl :
  slots s !! t = Some sl -> delete t (weights s') = delete t (weights s) ->
  (total (weights s') + weight (finished s t) sl = total (weights s) + default 0 (weights s' !! t))%nat.
Proof.
  intros Hsl Hd. rewrite (total_delete (weights s) t (weight (finished s t) sl)) by (by rewrite weights_lookup, Hsl).
  rewrite <- Hd. destruct (weights s' !! t) as [w |] eqn:E; [rewrite (total_delete _ _ _ E); cbn; lia |].
  rewrite delete_id by done. cbn. lia.
Qed.

Lemma served_weights (s : Server) t c r sl st l q :
  inv s -> phase s <> Serving -> heap s !! t = Some c -> outcome (cd_rpc c) r sl st l ->
  (total (weights (served s t (cd_rpc c) sl st l q)) <= 6 + total (delete t (weights s)))%nat.
Proof.
  intros Hs Hp Hc Ho. pose proof (heap_fresh s Hs) as Hf. pose proof (lookup_lt_Some _ _ _ Hc) as Hlt.
  set (s' := served _ _ _ _ _ _ _).
  assert (weights s' = <[t := weight (finished s' t) sl]> (if owned s then <[length (heap s) := 2%nat]> (delete t (weights s)) else delete t (weights s))) as ->.
  { apply map_eq. intros u. rewrite weights_lookup. unfold s' at 2. rewrite served_slots by done. destruct (decide (u = t)) as [-> | Hne]; [by rewrite lookup_insert_eq |].
    rewrite lookup_insert_ne by done. assert (forall m : gmap nat nat, delete t m !! u = m !! u) as Hdel by (intros m; by rewrite lookup_delete_ne).
    destruct (decide (owned s = true /\ u = length (heap s))) as [[Ho1 ->] | Hn].
    - rewrite Ho1, lookup_insert_eq. by destruct (phase s).
    - assert (finished s' u = finished s u) as -> by (unfold finished, s'; rewrite served_heap by done; by rewrite !decide_False).
      destruct (owned s); [rewrite lookup_insert_ne by (intros <-; by apply Hn) |]; by rewrite Hdel, weights_lookup. }
  assert (weight (finished s' t) sl <= 4)%nat by (destruct Ho; cbn; lia).
  assert (weights s !! length (heap s) = None) as Hwf by (by rewrite weights_lookup, Hf).
  rewrite total_insert; [destruct (owned s); [rewrite total_insert by (rewrite lookup_delete_ne by lia; done) |]; lia |].
  destruct (owned s); rewrite ?lookup_insert_ne by lia; apply lookup_delete_eq.
Qed.

Lemma next_decreases (s s' : Server) t ok :
  inv s -> phase s <> Serving -> slots s !! t = Some (Ready ok) -> event s (EvNext t) = Some s' ->
  phase s' = phase s /\ (total (weights s') < total (weights s))%nat.
Proof.
  intros Hs Hp Hsl. cbn [GrpcServer.event]. rewrite Hsl.
  destruct (next_spec s t ok Hs Hsl) as (c & Hc & [[_ ->] | (-> & _ & Hst & r & sl & st & l & q & _ & -> & Ho)]); intros [= <-].
  - set (s' := TryUnregister _ _). assert (heap s' = heap s /\ slots s' = delete t (slots s) /\ phase s' = phase s) as (Hh & Hs' & Hp')
      by (unfold s', TryUnregister; cbn; by destruct (owned s)).
    split; [done |]. assert (delete t (weights s') = delete t (weights s)) as Hd.
    { apply weights_at. intros u Hu. by rewrite Hh, Hs', lookup_delete_ne. }
    pose proof (total_at s s' t _ Hsl Hd) as Ht. rewrite (weights_lookup s'), Hs', lookup_delete_eq in Ht. cbn [fmap option_fmap option_map default] in Ht.
    destruct ok, (finished s t); cbn in Ht; lia.
  - split; [done |]. pose proof (served_weights s t c r sl st l q Hs Hp Hc Ho). rewrite (total_delete (weights s) t 7); [lia |].
    rewrite weights_lookup, Hsl. unfold finished. by rewrite Hc, Hst.
Qed.

Lemma reply_decreases (s s' : Server) t result :
  inv s -> slots s !! t = Some InThread -> event s (EvReply t result) = Some s' -> phase s' = phase s /\ (total (weights s') < total (weights s))%nat.
Proof.
  intros Hs Hsl. cbn [GrpcServer.event]. rewrite Hsl. intros He. pose proof (reply_inv s t result Hs Hsl) as H. rewrite He in H.
  destruct H as (_ & Hp & Hs' & Hh). split; [done |]. assert (delete t (weights s') = delete t (weights s)) as Hd.
  { apply weights_at. intros u Hu. rewrite Hs', lookup_insert_ne, lookup_delete_ne by done. by split; [| apply Hh]. }
  pose proof (total_at s s' t _ Hsl Hd) as Ht. rewrite (weights_lookup s'), Hs', lookup_insert_eq in Ht. cbn in Ht. lia.
Qed.

Lemma sent_decreases (s s' : Server) t ok :
  inv s -> slots s !! t = Some Sending -> event s (EvSent t ok) = Some s' -> phase s' = phase s /\ (total (weights s') < total (weights s))%nat.
Proof.
  intros Hs Hsl. cbn [GrpcServer.event]. rewrite Hsl. intros [= <-]. split; [done |]. set (s' := with_slots _ _).
  assert (delete t (weights s') = delete t (weights s)) as Hd by (apply weights_at; intros u Hu; cbn; by rewrite lookup_insert_ne).
  pose proof (total_at s s' t _ Hsl Hd) as Ht. rewrite (weights_lookup s') in Ht. cbn [slots with_slots s'] in Ht. rewrite lookup_insert_eq in Ht.
  destruct (i_slot s Hs _ _ Hsl) as (_ & c & Hc & Hst & _). assert (finished s' t = true) as Hfin by (unfold finished; cbn; by rewrite Hc, Hst).
  rewrite Hfin in Ht. destruct ok; cbn in Ht; lia.
Qed.

(** What is left to do. *)
Definition remaining (s : Server) : nat :=
  (total (weights s) + match phase s with Serving => 3 | ShuttingDown => 2 | CqClosed => 1 | Cleared => 0 end)%nat.

Definition unmoved (s s' : Server) : Prop := slots s' = slots s /\ phase s' = phase s.

#[local] Instance Slot_eq_dec : EqDecision Slot.
Proof. solve_decision. Defined.

(** The events of a run that change something. *)
Fixpoint moved (s : Server) (l : list (Event Req Rsp)) : nat :=
  match l with
  | [] => 0
  | e :: l => match event s e with Some s' => (if decide (slots s' = slots s /\ phase s' = phase s) then 0 else 1) + moved s' l | None => 0 end
  end.

(** Once the shutdown has begun, every change is a step towards its end. *)
Lemma event_decreases (s s' : Server) e : inv s -> phase s <> Serving -> event s e = Some s' ->
  phase s' <> Serving /\ (unmoved s s' /\ remaining s' = remaining s \/ (remaining s' < remaining s)%nat).
Proof.
  intros Hs Hp He. set (goal := phase s' <> Serving /\ _).
  assert (phase s' = phase s /\ (total (weights s') < total (weights s))%nat -> goal) as Hdec.
  { intros [Hp' Hl]. split; [by rewrite Hp' |]. right. unfold remaining. rewrite Hp'. lia. }
  assert (s' = s -> goal) as Hsame by (intros ->; split; [done | by left]).
  destruct e as [t r | t | t result | t ok | | | |]; pose proof He as He'; cbn [GrpcServer.event] in He'.
  - destruct (slots s !! t) as [[] |] eqn:Hsl; try (apply Hsame; congruence). by destruct (i_slot s Hs _ _ Hsl) as (_ & c & _ & _ & _ & ?).
  - destruct (slots s !! t) as [[| ok | |] |] eqn:Hsl; try (apply Hsame; congruence). apply Hdec. by eapply next_decreases.
  - destruct (slots s !! t) as [[] |] eqn:Hsl; try (apply Hsame; congruence). apply Hdec. by eapply reply_decreases.
  - destruct (slots s !! t) as [[] |] eqn:Hsl; try (apply Hsame; congruence). apply Hdec. by eapply sent_decreases.
  - injection He' as <-. split; [done | by left].
  - destruct (phase s) eqn:E; try (apply Hsame; congruence).
  - destruct (phase s) eqn:E; try (apply Hsame; congruence). destruct (existsb _ _); [apply Hsame; congruence |].
    injection He' as <-. split; [done |]. right. unfold remaining. rewrite E. change (weights (with_phase s CqClosed)) with (weights s). cbn. lia.
  - destruct (phase s) eqn:E; try (apply Hsame; congruence). destruct (bool_decide _); [| apply Hsame; congruence].
    injection He' as <-. split; [done |]. right. unfold remaining. rewrite E. change (weights (ClearAllHandlers (with_phase s Cleared))) with (weights s). cbn. lia.
Qed.

Lemma moved_bounded l (s s' : Server) : inv s -> phase s <> Serving -> events s l = Some s' ->
  inv s' /\ phase s' <> Serving /\ (moved s l + remaining s' <= remaining s)%nat.
Proof.
  revert s. induction l as [| e l IH]; intros s Hs Hp; cbn; [intros [= <-]; done |].
  pose proof (event_inv s e Hs) as Hi. destruct (event s e) as [s1 |] eqn:Ee; [| done]. cbn. intros He.
  destruct (event_decreases s s1 e Hs Hp Ee) as [Hp1 Hd]. destruct (IH s1 Hi Hp1 He) as (H1 & H2 & H3). split; [done |]. split; [done |].
  case_decide as Hu; [lia |]. destruct Hd as [[Hd _] | Hd]; [by destruct Hu | lia].
Qed.

(** Until the end something can always happen. *)
Lemma can_move (s : Server) : inv s -> phase s <> Serving -> phase s <> Cleared ->
  exists e, forall s', event s e = Some s' -> ~ unmoved s s'.
Proof.
  intros Hs Hp Hc. destruct (decide (slots s = ∅)) as [Hem | (t & sl & Hsl)%map_choose].
  - destruct (phase s) eqn:E; try done.
    + exists EvClose. intros s'. cbn. rewrite E, Hem, map_to_list_empty. intros [= <-] [_ Hp']. cbn in Hp'. congruence.
    + exists EvClear. intros s'. cbn. rewrite E, bool_decide_true by done. intros [= <-] [_ Hp']. cbn in Hp'. congruence.
  - destruct sl as [| ok | |].
    + by destruct (i_slot s Hs _ _ Hsl) as (_ & c & _ & _ & _ & ?).
    + exists (EvNext t). intros s'. cbn [GrpcServer.event]. rewrite Hsl.
      destruct (next_spec s t ok Hs Hsl) as (c & Hc' & [[_ ->] | (_ & _ & _ & r & sl & st & l & q & _ & -> & Ho)]); intros [= <-] [Hu _].
      * assert (slots s !! t = None) as Hn; [| congruence]. rewrite <- Hu. unfold TryUnregister. cbn. destruct (owned s); apply lookup_delete_eq.
      * assert (slots s !! t = Some sl) as Hn; [| destruct Ho; congruence].
        rewrite <- Hu, served_slots by (by eapply lookup_lt_Some). by rewrite decide_True.
    + exists (EvReply t None). intros s' He [Hu _]. cbn [GrpcServer.event] in He. rewrite Hsl in He.
      pose proof (reply_inv s t None Hs Hsl) as H. rewrite He in H. destruct H as (_ & _ & Hs' & _).
      assert (slots s !! t = Some Sending) as Hn; [| congruence]. rewrite <- Hu, Hs'. apply lookup_insert_eq.
    + exists (EvSent t true). intros s'. cbn [GrpcServer.event]. rewrite Hsl. intros [= <-] [Hu _].
      assert (slots s !! t = Some (Ready true)) as Hn; [| congruence]. rewrite <- Hu. apply lookup_insert_eq.
Qed.

(** The end is a state of rest. *)
Lemma cleared_rests (s : Server) : slots s = ∅ -> phase s = Cleared -> forall e, exists s', event s e = Some s' /\ unmoved s s'.
Proof.
  intros Hem Hp e. unfold unmoved. destruct e; cbn [GrpcServer.event]; rewrite ?Hem, ?Hp, ?lookup_empty; (eexists; split; [reflexivity |]); done.
Qed.

(** ** The theorems *)

(** The server after [Run] and these events. *)
Definition after_run q l : option Server := s ← Run (Server_make q); events s l.

Lemma after_run_inv q l :
  match after_run q l with
  | Some s => inv s
  | None => exists l1 t result l2 s1, l = l1 ++ EvReply t result :: l2 /\ after_run q l1 = Some s1 /\ no_dispatcher s1 t
  end.
Proof. unfold after_run. destruct (server_run_inv q) as (s & -> & Hs & _). by apply events_inv. Qed.

(** While the server serves, exactly one call object of each kind is waiting for the next
    call or holds one that is about to be processed: no kind of call is ever left without a
    handler, and handlers do not pile up. *)
Theorem one_handler_waits q l s :
  after_run q l = Some s -> phase s = Serving -> owned s = true ->
  forall rpc, exists t, forall t', waiting s rpc t' <-> t' = t.
Proof. intros E Hp Ho rpc. pose proof (after_run_inv q l) as Hs. rewrite E in Hs. by apply (i_waiting s Hs). Qed.

(** C25: every call is answered once and as its kind wants: the answer of the
    post-processor, [INVALID_ARGUMENT] for a missing or malformed UUID, else the reply or
    the time-out; a call without an answer is still being processed.  This holds after any
    sequence of calls, deliveries, replies and shutdown steps that the process survives.
    It survives all of them, in whatever order, but one: the thread of a valid call that
    wants a reply uses a null pointer when no reply dispatcher was set for its kind.  (The
    program sets none: such a call ends it.) *)
Theorem calls_answered_once q l :
  match after_run q l with
  | Some s => forall t c r, heap s !! t = Some c -> request_ c = Some r ->
      (exists a, answers_of s t = [(t, a)] /\ answer_ok (cd_rpc c) r a) \/ answers_of s t = [] /\ is_Some (slots s !! t)
  | None => exists l1 t result l2 s1, l = l1 ++ EvReply t result :: l2 /\ after_run q l1 = Some s1 /\ no_dispatcher s1 t
  end.
Proof.
  pose proof (after_run_inv q l) as Hs. destruct (after_run q l) as [s |]; [| done]. intros t c r Hc Hr.
  pose proof (i_answered s Hs t) as Ha. pose proof (i_done s Hs t c Hc) as Hdone. unfold answered_ok in Ha. rewrite Hc in Ha.
  destruct (slots s !! t) as [sl |]; destruct (status_ c); try (destruct Ha as (r' & a & Hr' & Hl & Hok); left; exists a; split; [done |]; congruence).
  1, 2: right; split; [done | by eexists]. all: destruct (Hdone eq_refl); congruence.
Qed.

(** C26: stopping comes to an end.  Once the shutdown has begun, every run of the server
    that the process survives makes at most [remaining] changes, and it can only come to
    rest - a state in which every event is survived and changes nothing - when the
    completion queue is drained and the handlers are cleared: then no call object is kept
    and every call that had come in is answered.  (What a run may meet instead is a reply
    thread without a dispatcher, which ends the process.) *)
Theorem server_stops q l0 s l s' :
  after_run q l0 = Some s -> phase s <> Serving -> events s l = Some s' ->
  (moved s l <= remaining s)%nat /\
  ((forall e, exists s'', event s' e = Some s'' /\ unmoved s' s'') ->
   phase s' = Cleared /\ alive_handlers_ s' = ∅ /\ slots s' = ∅ /\
   forall t c r, heap s' !! t = Some c -> request_ c = Some r -> exists a, answers_of s' t = [(t, a)]).
Proof.
  intros E Hp El. pose proof (after_run_inv q l0) as Hs. rewrite E in Hs. destruct (moved_bounded l s s' Hs Hp El) as (Hs' & Hp' & Hm).
  split; [lia |]. intros Hrest. destruct (decide (phase s' = Cleared)) as [Hcl | Hncl].
  - destruct (i_cleared s' Hs' Hcl) as [Hem Hal]. do 3 (split; [done |]).
    intros t c r Hc Hr. pose proof (i_answered s' Hs' t) as Ha. unfold answered_ok in Ha. rewrite Hc in Ha.
    destruct (i_done s' Hs' t c Hc) as [Hst | ?]; [by rewrite Hem, lookup_empty | | congruence]. rewrite Hst in Ha. destruct Ha as (r' & a & _ & Hl & _). by exists a.
  - destruct (can_move s' Hs' Hp' Hncl) as [e He]. destruct (Hrest e) as (s2 & E2 & Hu). by destruct (He s2 E2).
Qed.

(** A call that wants a reply ends the process when no dispatcher was set for it, as
    in the program, which sets none: its thread uses the null pointer. *)
Theorem reply_without_dispatcher q r result :
  has_dispatcher (ep RequestEventOnlyJson) = false -> isValidUUID (uuid_of r) = true -> after_run q [EvRequest 2 r; EvNext 2; EvReply 2 result] = None.
Proof.
  intros Hd Hv. destruct (server_run_inv q) as (s0 & E0 & Hs0 & Hp0 & _). unfold after_run. rewrite E0. cbn [mbind option_bind].
  assert (s0 = run_server q) as Es0 by (rewrite run_state in E0; by injection E0). assert (slots s0 !! 2%nat = Some Receiving) as Hsl by (by rewrite Es0).
  destruct (request_inv s0 2 r Hs0 Hsl) as [Hl Hs1]. cbn [GrpcServer.events GrpcServer.event]. rewrite Hsl, Hl. cbn [negb mbind option_bind].
  set (s1 := with_slots _ _) in *. assert (slots s1 !! 2%nat = Some (Ready true)) as Hsl1 by apply lookup_insert_eq. rewrite Hsl1.
  assert (heap s1 !! 2%nat = Some (mkCall RequestEventOnlyJson PROCESS (Some r))) as Hh1 by (subst s1; by rewrite Es0).
  destruct (proceed_request s1 2 (mkCall RequestEventOnlyJson PROCESS (Some r)) r Hs1 Hsl1 Hh1) as (sl & st & l & q' & -> & Ho); [done | done | by left |].
  inversion Ho as [a Hno _ | _ _]; subst sl st l; [cbn [cd_rpc is_async andb] in Hno; congruence |]. cbn [mbind option_bind]. rewrite served_slots by (by eapply lookup_lt_Some).
  rewrite decide_True by done. unfold reply_thread. rewrite (served_heap s1 2 (mkCall RequestEventOnlyJson PROCESS (Some r)) _ _ _ _ _ Hs1 Hh1).
  rewrite decide_True by done. cbn [mbind option_bind cd_rpc]. by rewrite Hd.
Qed.
End Props.

(** ** A server with messages that are their UUIDs *)

Definition demo_uuid : string := "0123abcd-0123-4567-89ab-0123456789AB".

Definition demo_ep (dispatcher : bool) (_ : Rpc) : Endpoint string bool := mkEndpoint None None dispatcher.

Definition demo_run (l : list (Event string bool)) : option (Server string bool) := after_run (fun u => u) false (demo_ep true) ∅ l.

(** A call without a reply, and one that waits for its reply. *)
Definition demo_events : list (Event string bool) := [EvRequest 0 demo_uuid; EvNext 0; EvRequest 2 demo_uuid; EvNext 2].

Definition demo_state : Server string bool := default (Server_make ∅) (demo_run demo_events).

Lemma demo_state_eq : after_run (fun u => u) false (demo_ep true) ∅ demo_events = Some demo_state.
Proof. vm_compute. reflexivity. Qed.

Lemma demo_phase : phase demo_state = Serving /\ owned demo_state = true.
Proof. split; vm_compute; reflexivity. Qed.

Lemma one_handler_waits_witness : forall rpc, exists t, forall t', waiting demo_state rpc t' <-> t' = t.
Proof. exact (one_handler_waits (fun u => u) false (demo_ep true) ∅ demo_events demo_state demo_state_eq (proj1 demo_phase) (proj2 demo_phase)). Defined.

Lemma demo_call_0 : heap demo_state !! 0%nat = Some (mkCall SendEventOnlyJson FINISH (Some demo_uuid)).
Proof. vm_compute. reflexivity. Qed.

Lemma calls_answered_once_witness :
  (exists a, answers_of demo_state 0 = [(0%nat, a)] /\ answer_ok (fun u => u) false (demo_ep true) SendEventOnlyJson demo_uuid a) \/
  answers_of demo_state 0 = [] /\ is_Some (slots demo_state !! 0%nat).
Proof.
  pose proof (calls_answered_once (fun u => u) false (demo_ep true) ∅ demo_events) as H. rewrite demo_state_eq in H.
  exact (H 0%nat _ demo_uuid demo_call_0 eq_refl).
Defined.

(** The shutdown with the two calls under way, and its run to the end. *)
Definition demo_down : Server string bool := default (Server_make ∅) (demo_run (demo_events ++ [EvRelease; EvShutdown])).

Definition demo_drain : list (Event string bool) :=
  [EvReply 2 (Some true); EvSent 0 true; EvSent 2 true; EvNext 0; EvNext 1; EvNext 2; EvNext 3; EvNext 4; EvNext 5; EvNext 6; EvNext 7; EvNext 8; EvClose; EvClear].

Definition demo_end : Server string bool := default (Server_make ∅) (events (fun u => u) false (demo_ep true) demo_down demo_drain).

Lemma server_stops_witness :
  phase demo_end = Cleared /\ alive_handlers_ demo_end = ∅ /\ slots demo_end = ∅ /\
    forall t c r, heap demo_end !! t = Some c -> request_ c = Some r -> exists a, answers_of demo_end t = [(t, a)].
Proof.
  refine (proj2 (server_stops (fun u => u) false (demo_ep true) ∅ (demo_events ++ [EvRelease; EvShutdown]) demo_down demo_drain demo_end _ _ _) _).
  - vm_compute. reflexivity.
  - vm_compute. discriminate.
  - vm_compute. reflexivity.
  - apply cleared_rests; vm_compute; reflexivity.
Defined.

Lemma demo_uuid_valid : isValidUUID demo_uuid = true.
Proof. vm_compute. reflexivity. Qed.

Lemma reply_without_dispatcher_witness :
  after_run (fun u => u) false (demo_ep false) ∅ [EvRequest 2 demo_uuid; EvNext 2; EvReply 2 (Some true)] = None.
Proof. exact (reply_without_dispatcher (fun u => u) false (demo_ep false) ∅ demo_uuid (Some true) eq_refl demo_uuid_valid). Defined.
