(* ===== verification/RtspServer.v ===== *)
(** * The RTSP server and the handler of all streams

    [Protocol/RTSP_GST/include/GstRtspProxyServer.h], [src/GstRtspProxyServer.cpp] and
    [Management/worker/include/RtspHandler.h], [src/RtspHandler.cpp]: the server that gives the
    streams of the cameras to viewers, and the handler that owns it and the clients of
    the cameras.  What GStreamer keeps is [Rtsp]: the references that the program holds,
    the mount points, the requests of viewers whose media is being built, and the contexts of
    the factories, which the program owns and the signal handlers use.  [None] is the end of
    the process: a thread object is destroyed or assigned while joinable, or a context is
    used or given back twice.  The text of the factories, permissions and logs are
    left out; a client of a camera ([RtspClient]) is a parameter. *)

From stdpp Require Import gmap pretty.
From S2P Require Import Prelude RtpPayload.
Open Scope Z_scope.
Open Scope list_scope.

(** ** What GStreamer holds *)

Inductive ServerRef := RefServer | RefMounts | RefAuth | RefAdminToken | RefUserToken | RefLoop.

#[export] Instance ServerRef_eq_dec : EqDecision ServerRef.
Proof. solve_decision. Defined.

Record FactoryContext := mkContext { ctx_cam_id : Z; include_metadata : bool }.

(** [describing]: the contexts of the factories that media is being made from.
    [appsrc_refs]: references to sources, taken for each media and never given back. *)
Record Rtsp := mkRtsp {
  server_refs : list ServerRef;
  factories : gmap string nat;
  describing : list nat;
  contexts : gmap nat FactoryContext;
  next_context : nat;
  appsrc_refs : nat
}.

Definition Rtsp_make : Rtsp := mkRtsp [] ∅ [] ∅ 0 0.

Definition with_refs (g : Rtsp) l : Rtsp := mkRtsp l (factories g) (describing g) (contexts g) (next_context g) (appsrc_refs g).

Definition take_ref (r : ServerRef) (g : Rtsp) : Rtsp := with_refs g (r :: server_refs g).

Fixpoint remove_one (r : ServerRef) (l : list ServerRef) : option (list ServerRef) :=
  match l with
  | [] => None
  | x :: l => if decide (x = r) then Some l else l ← remove_one r l; Some (x :: l)
  end.

Definition drop_ref (r : ServerRef) (g : Rtsp) : option Rtsp := l ← remove_one r (server_refs g); Some (with_refs g l).

(** Where the pointer is set. *)
Definition drop_if (b : bool) (r : ServerRef) (g : Rtsp) : option Rtsp := if b then drop_ref r g else Some g.

(** ** The server *)

Record GstRtspProxyServer := mkProxy {
  require_auth : bool;
  server_ : bool;
  mounts_ : bool;
  auth_ : bool;                       (* with both tokens *)
  loop_ : bool;
  loop_joinable : bool;
  server_source_id_ : bool;
  mount_paths_ : gmap Z string;
  factory_ctxs_ : gmap Z nat;
  running_ : bool;
  shutdown_ : bool
}.

Definition GstRtspProxyServer_make (auth : bool) : GstRtspProxyServer := mkProxy auth false false false false false false ∅ ∅ false false.

Definition with_flags (p : GstRtspProxyServer) running shutdown : GstRtspProxyServer :=
  mkProxy (require_auth p) (server_ p) (mounts_ p) (auth_ p) (loop_ p) (loop_joinable p) (server_source_id_ p) (mount_paths_ p) (factory_ctxs_ p) running shutdown.
Definition with_objects (p : GstRtspProxyServer) server mounts auth loop joinable source : GstRtspProxyServer :=
  mkProxy (require_auth p) server mounts auth loop joinable source (mount_paths_ p) (factory_ctxs_ p) (running_ p) (shutdown_ p).
Definition with_cameras (p : GstRtspProxyServer) paths ctxs : GstRtspProxyServer :=
  mkProxy (require_auth p) (server_ p) (mounts_ p) (auth_ p) (loop_ p) (loop_joinable p) (server_source_id_ p) paths ctxs (running_ p) (shutdown_ p).

Definition SetupAuthentication (g : Rtsp) : Rtsp := take_ref RefUserToken (take_ref RefAdminToken (take_ref RefAuth g)).

(** Whether there is a server object, and whether the loop's thread attaches it in time.
    A thread that is late goes on all the same. *)
Definition Start (created attached : bool) (p : GstRtspProxyServer) (g : Rtsp) : option (bool * GstRtspProxyServer * Rtsp) :=
  if running_ p then Some (false, p, g)
  else
    let p := with_flags p true false in
    if negb created then Some (false, with_flags (with_objects p false (mounts_ p) (auth_ p) (loop_ p) (loop_joinable p) (server_source_id_ p)) false false, g)
    else
      let g := take_ref RefMounts (take_ref RefServer g) in
      let g := if require_auth p then SetupAuthentication g else g in
      if loop_joinable p then None
      else if attached then
        Some (true, with_objects p true true (require_auth p || auth_ p) true true true, take_ref RefLoop g)
      else Some (false, with_flags (with_objects p true true (require_auth p || auth_ p) (loop_ p) true (server_source_id_ p)) false false, g).

(** The context of an erased camera is freed. *)
Definition free_context (id : nat) (g : Rtsp) : Rtsp :=
  mkRtsp (server_refs g) (factories g) (describing g) (delete id (contexts g)) (next_context g) (appsrc_refs g).
Definition remove_factory (path : string) (g : Rtsp) : Rtsp :=
  mkRtsp (server_refs g) (delete path (factories g)) (describing g) (contexts g) (next_context g) (appsrc_refs g).

Definition mount_path (cam_id : Z) : string := ("/" ++ pretty cam_id)%string.

Definition RegisterCamera (cam_id : Z) (metadata : bool) (p : GstRtspProxyServer) (g : Rtsp) : bool * GstRtspProxyServer * Rtsp :=
  if negb (running_ p) then (false, p, g)
  else match factory_ctxs_ p !! cam_id with
  | Some _ => (false, p, g)
  | None =>
      let path := mount_path cam_id in
      let id := next_context g in
      (true, with_cameras p (<[cam_id := path]> (mount_paths_ p)) (<[cam_id := id]> (factory_ctxs_ p)),
        mkRtsp (server_refs g) (<[path := id]> (factories g)) (describing g) (<[id := mkContext cam_id metadata]> (contexts g)) (S id) (appsrc_refs g))
  end.

Definition UnregisterCamera (cam_id : Z) (p : GstRtspProxyServer) (g : Rtsp) : bool * GstRtspProxyServer * Rtsp :=
  match mount_paths_ p !! cam_id with
  | None => (false, p, g)
  | Some path =>
      let g := remove_factory path g in
      let g := match factory_ctxs_ p !! cam_id with Some id => free_context id g | None => g end in
      (true, with_cameras p (delete cam_id (mount_paths_ p)) (delete cam_id (factory_ctxs_ p)), g)
  end.

Definition GetCameraCount (p : GstRtspProxyServer) : nat := size (mount_paths_ p).

Definition remove_all_cameras (p : GstRtspProxyServer) (g : Rtsp) : GstRtspProxyServer * Rtsp :=
  let g := if mounts_ p then foldl (fun g q => remove_factory q.2 g) g (map_to_list (mount_paths_ p)) else g in
  (with_cameras p ∅ ∅, foldl (fun g q => free_context q.2 g) g (map_to_list (factory_ctxs_ p))).

(** The ten steps; the loop's thread gives its loop back before the join returns. *)
Definition Stop (p : GstRtspProxyServer) (g : Rtsp) : option (GstRtspProxyServer * Rtsp) :=
  if negb (running_ p) then Some (p, g)
  else
    let p := with_flags p false true in
    let '(p, g) := remove_all_cameras p g in
    g ← drop_if (mounts_ p) RefMounts g;
    g ← drop_if (auth_ p) RefAuth g;
    g ← drop_if (auth_ p) RefAdminToken g;
    g ← drop_if (auth_ p) RefUserToken g;
    g ← drop_if (loop_joinable p && loop_ p) RefLoop g;
    g ← drop_if (server_ p) RefServer g;
    Some (with_objects p false false false (loop_ p && negb (loop_joinable p)) false (server_source_id_ p && negb (loop_ p)), g).

(** The destructor: [Stop], then that of the thread object. *)
Definition destroy (p : GstRtspProxyServer) (g : Rtsp) : option Rtsp :=
  '(p, g) ← Stop p g; if loop_joinable p then None else Some g.

(** ** Media for viewers *)

Record CameraSink := mkSink { sink_cam_id : Z; sink_video_src : option nat; sink_meta_src : option nat }.

(** The elements found in the media, by name. *)
Definition OnMediaConfigure (id : nat) (pay0 pay1 : option nat) (g : Rtsp) : option (CameraSink * Rtsp) :=
  ctx ← contexts g !! id;
  let meta := if include_metadata ctx then pay1 else None in
  let found := (length (option_list pay0) + length (option_list meta))%nat in
  Some (mkSink (ctx_cam_id ctx) pay0 meta,
    mkRtsp (server_refs g) (factories g) (describing g) (contexts g) (next_context g) (appsrc_refs g + found)).

(** ** The handler *)

Inductive RtspState := RtspCreate | RtspReady | RtspRun | RtspStop.

#[export] Instance RtspState_eq_dec : EqDecision RtspState.
Proof. solve_decision. Defined.

Record CamSink := mkCamSink { video_src : option nat; meta_payloader : option OnvifMetadataPayloader }.

Section Handler.
Context {C : Type}.

(** [stopped]: the clients on which [Stop] was called. *)
Record RtspHandler := mkHandler {
  is_init_done_ : bool;
  is_rtsp_proxy_static_with_init_ : bool;
  state_ : RtspState;
  clients_ : gmap Z C;
  proxy_server_ : option GstRtspProxyServer;
  cam_sinks_ : gmap Z CamSink;
  gst : Rtsp;
  stopped : list C
}.

Definition RtspHandler_make (static : bool) : RtspHandler := mkHandler false static RtspCreate ∅ None ∅ Rtsp_make [].

Definition with_state (h : RtspHandler) init st : RtspHandler :=
  mkHandler init (is_rtsp_proxy_static_with_init_ h) st (clients_ h) (proxy_server_ h) (cam_sinks_ h) (gst h) (stopped h).
Definition with_clients (h : RtspHandler) c s : RtspHandler :=
  mkHandler (is_init_done_ h) (is_rtsp_proxy_static_with_init_ h) (state_ h) c (proxy_server_ h) (cam_sinks_ h) (gst h) s.
Definition with_proxy (h : RtspHandler) p g : RtspHandler :=
  mkHandler (is_init_done_ h) (is_rtsp_proxy_static_with_init_ h) (state_ h) (clients_ h) p (cam_sinks_ h) g (stopped h).
Definition with_sinks (h : RtspHandler) s : RtspHandler :=
  mkHandler (is_init_done_ h) (is_rtsp_proxy_static_with_init_ h) (state_ h) (clients_ h) (proxy_server_ h) s (gst h) (stopped h).

(** A server that does not start is destroyed at once. *)
Definition Initialize (created attached : bool) (h : RtspHandler) : option (bool * RtspHandler) :=
  if is_init_done_ h then Some (true, h)
  else
    '(ok, p, g) ← Start created attached (GstRtspProxyServer_make true) (gst h);
    if negb ok then g ← destroy p g; Some (false, with_proxy h None g)
    else Some (true, with_state (with_proxy h (Some p) g) true RtspReady).

Definition IsProxySettingStaticUseInitData (h : RtspHandler) : bool := is_rtsp_proxy_static_with_init_ h.

Definition RunRTSP (h : RtspHandler) : bool * RtspHandler :=
  if decide (state_ h = RtspRun) then (true, h) else (true, with_state h (is_init_done_ h) RtspRun).

(** Through a [unique_ptr] to the server, whose reset runs its destructor. *)
Definition StopRTSP (h : RtspHandler) : option RtspHandler :=
  if decide (state_ h = RtspStop) then Some h
  else
    let h := with_clients h ∅ (stopped h ++ (map_to_list (clients_ h)).*2) in
    h ← match proxy_server_ h with
        | Some p => '(p, g) ← Stop p (gst h); g ← destroy p g; Some (with_proxy h None g)
        | None => Some h
        end;
    Some (with_state (with_sinks h ∅) (is_init_done_ h) RtspStop).

(** [payloader]: a new one, for the sources found. *)
Definition OnProxySinkReady (new_payloader : OnvifMetadataPayloader) (sink : CameraSink) (h : RtspHandler) : RtspHandler :=
  let entry := default (mkCamSink None None) (cam_sinks_ h !! sink_cam_id sink) in
  with_sinks h (<[sink_cam_id sink := mkCamSink (sink_video_src sink)
    (match sink_meta_src sink with Some _ => Some new_payloader | None => meta_payloader entry end)]> (cam_sinks_ h)).

(** The result and the packets. *)
Definition SendOnvifMetadata (answers : nat -> GstAnswer) (now : Z) (cam_id : Z) (xml_document : list Z) (h : RtspHandler) : option (bool * list (list Z) * RtspHandler) :=
  match cam_sinks_ h !! cam_id ≫= meta_payloader with
  | None => Some (false, [], h)
  | Some p =>
      '(ok, packets, p) ← PushXml answers now xml_document p;
      Some (ok, packets, with_sinks h (alter (fun e => mkCamSink (video_src e) (Some p)) cam_id (cam_sinks_ h)))
  end.

(** The result, and the source with the bytes pushed into it. *)
Definition ForwardVideoRtp (answer : GstAnswer) (cam_id : Z) (data : list Z) (h : RtspHandler) : bool * option (nat * list Z) :=
  match data with
  | [] => (false, None)
  | _ =>
      match cam_sinks_ h !! cam_id ≫= video_src with
      | None => (false, None)
      | Some src => match answer with NoBuffer | NotMapped => (false, None) | Pushed flow_ok => (flow_ok, Some (src, data)) end
      end
  end.

(** [None] for the client: a null pointer. *)
Definition RegisterClient (cam_id : Z) (client : option C) (h : RtspHandler) : RtspHandler :=
  match client with
  | None => h
  | Some c =>
      let h := with_clients h (<[cam_id := c]> (clients_ h)) (stopped h ++ option_list (clients_ h !! cam_id)) in
      match proxy_server_ h with
      | Some p => let '(_, p, g) := RegisterCamera cam_id true p (gst h) in with_proxy h (Some p) g
      | None => h
      end
  end.

(** The client is stopped, which is taken to return ([stopped] records it; its join is that
    of [RtspReceiver.Stop]), and its server entries are removed. *)
Definition UnregisterClient (cam_id : Z) (h : RtspHandler) : RtspHandler :=
  match clients_ h !! cam_id with
  | None => h
  | Some c =>
      let h := with_clients h (delete cam_id (clients_ h)) (stopped h ++ [c]) in
      let h := match proxy_server_ h with
               | Some p => let '(_, p, g) := UnregisterCamera cam_id p (gst h) in with_proxy h (Some p) g
               | None => h
               end in
      with_sinks h (delete cam_id (cam_sinks_ h))
  end.

Definition GetProxyIDs (h : RtspHandler) : gset Z := dom (clients_ h).
Definition GetProxyPtr (cam_id : Z) (h : RtspHandler) : option C := clients_ h !! cam_id.

(** ** What happens *)

Inductive HandlerEvent :=
| HInitialize (created attached : bool)
| HRun
| HRegister (cam_id : Z) (client : option C)
| HUnregister (cam_id : Z)
| HStop
| HDescribe (path : string)                       (* a viewer asks for a mount point *)
| HConfigure (i : nat) (pay0 pay1 : option nat) (payloader : OnvifMetadataPayloader)   (* its media is made *).

Definition handler_event (h : RtspHandler) (e : HandlerEvent) : option RtspHandler :=
  match e with
  | HInitialize created attached => '(_, h) ← Initialize created attached h; Some h
  | HRun => Some (snd (RunRTSP h))
  | HRegister cam c => Some (RegisterClient cam c h)
  | HUnregister cam => Some (UnregisterClient cam h)
  | HStop => StopRTSP h
  | HDescribe path =>
      match factories (gst h) !! path with
      | Some id => let g := gst h in
          Some (with_proxy h (proxy_server_ h) (mkRtsp (server_refs g) (factories g) (describing g ++ [id]) (contexts g) (next_context g) (appsrc_refs g)))
      | None => Some h
      end
  | HConfigure i pay0 pay1 payloader =>
      match describing (gst h) !! i with
      | Some id =>
          let g := gst h in
          '(sink, g) ← OnMediaConfigure id pay0 pay1 (mkRtsp (server_refs g) (factories g) (delete i (describing g)) (contexts g) (next_context g) (appsrc_refs g));
          Some (OnProxySinkReady payloader sink (with_proxy h (proxy_server_ h) g))
      | None => Some h
      end
  end.

Fixpoint handler_events (h : RtspHandler) (l : list HandlerEvent) : option RtspHandler :=
  match l with
  | [] => Some h
  | e :: l => h ← handler_event h e; handler_events h l
  end.
End Handler.

Arguments RtspHandler : clear implicits.
Arguments HandlerEvent : clear implicits.
