(* ===== verification/RtspServerProps.v ===== *)
(** * Properties of the RTSP server and its handler

    What the handler takes it gives back, every client is stopped once, cameras with a
    mount point have a client; and two ways in which the process ends. *)

From stdpp Require Import gmap pretty.
From S2P Require Import Prelude RtpPayload RtspServer.
Open Scope Z_scope.
Open Scope list_scope.

Section Props.
Context {C : Type}.
Local Abbreviation RtspHandler := (RtspHandler C).
Local Abbreviation HandlerEvent := (HandlerEvent C).

(** What the server keeps in GStreamer is what its tables say. *)
Record mounted (p : GstRtspProxyServer) (g : Rtsp) : Prop := {
  m_paths cam : mount_paths_ p !! cam = (fun _ => mount_path cam) <$> factory_ctxs_ p !! cam;
  m_factories path id : factories g !! path = Some id <-> exists cam, path = mount_path cam /\ factory_ctxs_ p !! cam = Some id;
  m_contexts id : is_Some (contexts g !! id) <-> exists cam, factory_ctxs_ p !! cam = Some id;
  m_context_of cam id : factory_ctxs_ p !! cam = Some id -> exists meta, contexts g !! id = Some (mkContext cam meta);
  m_next cam id : factory_ctxs_ p !! cam = Some id -> (id < next_context g)%nat
}.

Definition all_refs : list ServerRef := [RefLoop; RefUserToken; RefAdminToken; RefAuth; RefMounts; RefServer].

Definition serving (p : GstRtspProxyServer) : Prop :=
  running_ p = true /\ server_ p = true /\ mounts_ p = true /\ auth_ p = true /\ loop_ p = true /\ loop_joinable p = true /\ server_source_id_ p = true.

Record inv (h : RtspHandler) : Prop := {
  i_proxy p : proxy_server_ h = Some p -> serving p /\ server_refs (gst h) = all_refs /\ mounted p (gst h) /\ dom (mount_paths_ p) ⊆ dom (clients_ h);
  i_none : proxy_server_ h = None -> server_refs (gst h) = [] /\ factories (gst h) = ∅ /\ contexts (gst h) = ∅;
  i_stop : state_ h = RtspStop -> proxy_server_ h = None;
  i_init : is_Some (proxy_server_ h) -> is_init_done_ h = true;
  i_describing id : id ∈ describing (gst h) -> is_Some (contexts (gst h) !! id)
}.

Lemma mount_path_inj c c' : mount_path c = mount_path c' -> c = c'.
Proof. unfold mount_path. intros H. injection H as H. by apply (inj pretty). Qed.

Lemma register_mounted cam meta p g :
  running_ p = true -> mounted p g -> let '(_, p', g') := RegisterCamera cam meta p g in
  mounted p' g' /\ server_refs g' = server_refs g /\ describing g' = describing g /\ (forall id, is_Some (contexts g !! id) -> is_Some (contexts g' !! id)) /\
  dom (mount_paths_ p') = {[cam]} ∪ dom (mount_paths_ p) /\ (serving p -> serving p').
Proof.
  intros Hr Hm. unfold RegisterCamera. rewrite Hr. cbn [negb]. destruct (factory_ctxs_ p !! cam) as [id0 |] eqn:E.
  - split; [done |]. do 3 (split; [done |]). split; [| done]. assert (cam ∈ dom (mount_paths_ p)); [| set_solver].
    apply elem_of_dom. rewrite (m_paths p g Hm), E. by eexists.
  - destruct Hm as [H1 H2 H3 H4 H5]. split.
    + split; cbn [mount_paths_ factory_ctxs_ with_cameras factories contexts next_context].
      * intros c. destruct (decide (c = cam)) as [-> |]; [by rewrite !lookup_insert_eq | by rewrite !lookup_insert_ne].
      * intros path id. rewrite lookup_insert_Some, H2. split.
        -- intros [[<- <-] | [Hne (c & -> & Hc)]]; [exists cam; by rewrite lookup_insert_eq |]. exists c. rewrite lookup_insert_ne by (intros ->; done). done.
        -- intros (c & -> & [[<- <-] | [Hne Hc]]%lookup_insert_Some); [by left |]. right. split; [by intros ?%mount_path_inj | by exists c].
      * intros id. rewrite lookup_insert_is_Some', H3. split.
        -- intros [-> | [c Hc]]; [exists cam; by rewrite lookup_insert_eq |]. exists c. rewrite lookup_insert_ne by congruence. done.
        -- intros (c & [[<- <-] | [Hne Hc]]%lookup_insert_Some); [by left | right; by exists c].
      * intros c id [[<- <-] | [Hne Hc]]%lookup_insert_Some; [exists meta; by rewrite lookup_insert_eq |].
        rewrite lookup_insert_ne by (intros <-; apply H5 in Hc; lia). by apply H4.
      * intros c id [[<- <-] | [Hne Hc%H5]]%lookup_insert_Some; lia.
    + cbn. do 2 (split; [done |]). split; [intros id Hid; apply lookup_insert_is_Some'; by right |]. split; [by rewrite dom_insert_L | done].
Qed.

Lemma unregister_mounted cam p g :
  mounted p g -> let '(_, p', g') := UnregisterCamera cam p g in
  mounted p' g' /\ server_refs g' = server_refs g /\ describing g' = describing g /\ dom (mount_paths_ p') = dom (mount_paths_ p) ∖ {[cam]} /\ (serving p -> serving p').
Proof.
  intros Hm. unfold UnregisterCamera. rewrite (m_paths p g Hm). destruct (factory_ctxs_ p !! cam) as [id |] eqn:E; cbn [fmap option_fmap option_map].
  2: { do 3 (split; [done |]). split; [| done]. assert (cam ∉ dom (mount_paths_ p)); [| set_solver]. rewrite not_elem_of_dom, (m_paths p g Hm). by rewrite E. }
  destruct Hm as [H1 H2 H3 H4 H5]. assert (forall c, factory_ctxs_ p !! c = Some id -> c = cam) as Hinj.
  { intros c Hc. destruct (H4 _ _ Hc) as [m1 E1], (H4 _ _ E) as [m2 E2]. congruence. }
  split; [split; cbn [mount_paths_ factory_ctxs_ with_cameras factories contexts next_context free_context remove_factory] |].
  - intros c. destruct (decide (c = cam)) as [-> |]; [by rewrite !lookup_delete_eq | by rewrite !lookup_delete_ne].
  - intros path i. rewrite lookup_delete_Some, H2. split.
    + intros [Hne (c & -> & Hc)]. exists c. split; [done |]. rewrite lookup_delete_ne; [done |]. by intros <-.
    + intros (c & -> & [Hne Hc]%lookup_delete_Some). split; [by intros ?%mount_path_inj | by exists c].
  - intros i. rewrite lookup_delete_is_Some, H3. split.
    + intros [Hne [c Hc]]. exists c. rewrite lookup_delete_ne; [done |]. intros <-. congruence.
    + intros (c & [Hne Hc]%lookup_delete_Some). split; [| by exists c]. intros ->. by apply Hinj in Hc.
  - intros c i [Hne Hc]%lookup_delete_Some. rewrite lookup_delete_ne; [by apply H4 |]. intros ->. by apply Hinj in Hc.
  - intros c i [Hne Hc]%lookup_delete_Some. by eapply H5.
  - cbn. do 2 (split; [done |]). split; [by rewrite dom_delete_L | done].
Qed.

(** ** Stopping *)

Lemma remove_factories (l : list (Z * string)) g :
  let g' := foldl (fun g q => remove_factory q.2 g) g l in
  server_refs g' = server_refs g /\ contexts g' = contexts g /\ describing g' = describing g /\
  forall path, factories g' !! path = if decide (path ∈ l.*2) then None else factories g !! path.
Proof.
  revert g. induction l as [| [c path0] l IH]; intros g; [done |]. cbn [foldl fmap list_fmap snd]. destruct (IH (remove_factory path0 g)) as (-> & -> & -> & H).
  do 3 (split; [done |]). intros path. rewrite H. cbn. destruct (decide (path ∈ l.*2)); [by rewrite decide_True by by right |].
  destruct (decide (path = path0)) as [-> |]; [rewrite lookup_delete_eq, decide_True by left | rewrite lookup_delete_ne, decide_False by (done || rewrite elem_of_cons; tauto)]; done.
Qed.

Lemma free_contexts (l : list (Z * nat)) g :
  let g' := foldl (fun g q => free_context q.2 g) g l in
  server_refs g' = server_refs g /\ factories g' = factories g /\ describing g' = describing g /\
  forall id, contexts g' !! id = if decide (id ∈ l.*2) then None else contexts g !! id.
Proof.
  revert g. induction l as [| [c id0] l IH]; intros g; [done |]. cbn [foldl fmap list_fmap snd]. destruct (IH (free_context id0 g)) as (-> & -> & -> & H).
  do 3 (split; [done |]). intros id. rewrite H. cbn. destruct (decide (id ∈ l.*2)); [by rewrite decide_True by by right |].
  destruct (decide (id = id0)) as [-> |]; [rewrite lookup_delete_eq, decide_True by left | rewrite lookup_delete_ne, decide_False by (done || rewrite elem_of_cons; tauto)]; done.
Qed.

Lemma elem_of_values {K V} `{Countable K} (m : gmap K V) v : v ∈ (map_to_list m).*2 <-> exists k, m !! k = Some v.
Proof.
  rewrite list_elem_of_fmap. split; [intros ([k v'] & -> & Hin); exists k; by apply elem_of_map_to_list | intros [k Hk]; exists (k, v); split; [done | by apply elem_of_map_to_list]].
Qed.

Lemma remove_all_spec p g :
  mounts_ p = true -> mounted p g -> let '(p', g') := remove_all_cameras p g in
  p' = with_cameras p ∅ ∅ /\ factories g' = ∅ /\ contexts g' = ∅ /\ server_refs g' = server_refs g /\ describing g' = describing g.
Proof.
  intros Hmo Hm. unfold remove_all_cameras. rewrite Hmo. destruct (remove_factories (map_to_list (mount_paths_ p)) g) as (Hr1 & Hc1 & Hd1 & Hf1).
  set (g1 := foldl _ g _) in *. destruct (free_contexts (map_to_list (factory_ctxs_ p)) g1) as (Hr2 & Hf2 & Hd2 & Hc2). set (g2 := foldl _ g1 _) in *.
  split; [done |]. rewrite Hr2, Hr1, Hd2, Hd1, Hf2. split; [| split; [| done]].
  - apply map_eq. intros path. rewrite Hf1, lookup_empty. case_decide as Hin; [done |]. apply eq_None_not_Some. intros [id Hid]. destruct Hin. apply elem_of_values.
    apply (m_factories p g Hm) in Hid as (c & -> & Hc). exists c. by rewrite (m_paths p g Hm), Hc.
  - apply map_eq. intros id. rewrite Hc2, Hc1, lookup_empty. case_decide as Hin; [done |]. apply eq_None_not_Some. intros Hid. destruct Hin. apply elem_of_values. by apply (m_contexts p g Hm).
Qed.

(** A serving server gives everything back, and can then be destroyed. *)
Lemma stop_spec p g :
  serving p -> server_refs g = all_refs -> mounted p g ->
  exists p' g', Stop p g = Some (p', g') /\ destroy p' g' = Some g' /\ server_refs g' = [] /\ factories g' = ∅ /\ contexts g' = ∅ /\ describing g' = describing g.
Proof.
  intros (Hr & Hs & Hmo & Ha & Hl & Hj & Hso) Hrefs Hm. unfold Stop. rewrite Hr. cbn [negb].
  pose proof (remove_all_spec (with_flags p false true) g Hmo ltac:(by destruct Hm; split)) as Hall.
  destruct (remove_all_cameras (with_flags p false true) g) as [p1 g1]. destruct Hall as (-> & Hf & Hc & Hr1 & Hd).
  cbn [mounts_ auth_ loop_ loop_joinable server_ with_cameras with_flags]. rewrite Hmo, Ha, Hl, Hj, Hs. rewrite Hrefs in Hr1.
  unfold drop_if, drop_ref. rewrite Hr1. cbn. do 2 eexists. split; [done |]. split; [done |]. cbn. by rewrite Hd.
Qed.

(** ** What happens *)

(** The server gets attached in time, and nothing is taken away while media is being made. *)
Definition calm (h : RtspHandler) (e : HandlerEvent) : Prop :=
  match e with
  | HInitialize created attached => created = true -> attached = true
  | HUnregister _ | HStop => describing (gst h) = []
  | _ => True
  end.

Inductive calm_reach (static : bool) : RtspHandler -> Prop :=
| calm_start : calm_reach static (RtspHandler_make static)
| calm_step h e h' : calm_reach static h -> calm h e -> handler_event h e = Some h' -> calm_reach static h'.

Lemma make_inv static : inv (RtspHandler_make static).
Proof. split; cbn; [done | done | done | by intros [? ?] | by intros id ?%elem_of_nil]. Qed.

Lemma initialize_inv created attached (h : RtspHandler) : inv h -> (created = true -> attached = true) -> exists ok h', Initialize created attached h = Some (ok, h') /\ inv h'.
Proof.
  intros Hi Hc. unfold Initialize. destruct (is_init_done_ h) eqn:Ed; [by exists true, h |].
  assert (proxy_server_ h = None) as Hn by (destruct (proxy_server_ h) eqn:E; [| done]; rewrite (i_init h Hi) in Ed by (rewrite E; by eexists); done).
  destruct (i_none h Hi Hn) as (Hr & Hf & Hx). pose proof (i_describing h Hi) as Hd. unfold Start. cbn [running_ GstRtspProxyServer_make]. destruct created; cbn [negb].
  - rewrite Hc by done. cbn. do 2 eexists. split; [done |]. split; cbn; [| done | done | done | done].
    intros p [= <-]. split; [by repeat split |]. split; [by rewrite Hr |]. split; [| set_solver]. split; cbn; [done | | | done | done].
    + intros path id. rewrite Hf, lookup_empty. split; [done |]. by intros (? & _ & ?).
    + intros id. rewrite Hx, lookup_empty. split; [by intros [? ?] | by intros [? ?]].
  - cbn. do 2 eexists. split; [done |]. split; cbn; [done | done | done | by intros [? ?] | done].
Qed.

Lemma register_inv cam c (h : RtspHandler) : inv h -> inv (RegisterClient cam c h).
Proof.
  intros Hi. unfold RegisterClient. destruct c as [c |]; [| done]. cbn [proxy_server_ with_clients gst]. destruct (proxy_server_ h) as [p |] eqn:Ep.
  - destruct (i_proxy h Hi p Ep) as (Hs & Hr & Hm & Hd). pose proof (register_mounted cam true p (gst h) ltac:(apply Hs) Hm) as Hreg.
    destruct (RegisterCamera cam true p (gst h)) as [[ok p'] g']. destruct Hreg as (Hm' & Hr' & Hde & Hctx & Hdom & Hs'). split; cbn; [| done | | |].
    + intros p0 [= <-]. split; [by apply Hs' |]. split; [by rewrite Hr' |]. split; [done |]. rewrite Hdom, dom_insert_L. set_solver.
    + intros E. by rewrite (i_stop h Hi E) in Ep.
    + intros _. apply (i_init h Hi). rewrite Ep. by eexists.
    + intros id. rewrite Hde. intros Hid. by apply Hctx, (i_describing h Hi).
  - split; cbn; [congruence | intros _; by apply (i_none h Hi) | done | rewrite Ep; by intros [? ?] | apply (i_describing h Hi)].
Qed.

Lemma unregister_inv cam (h : RtspHandler) : inv h -> describing (gst h) = [] -> inv (UnregisterClient cam h).
Proof.
  intros Hi Hq. unfold UnregisterClient. destruct (clients_ h !! cam) as [c |]; [| done]. cbn [proxy_server_ with_clients gst]. destruct (proxy_server_ h) as [p |] eqn:Ep.
  - destruct (i_proxy h Hi p Ep) as (Hs & Hr & Hm & Hd). pose proof (unregister_mounted cam p (gst h) Hm) as Hun.
    destruct (UnregisterCamera cam p (gst h)) as [[ok p'] g']. destruct Hun as (Hm' & Hr' & Hde & Hdom & Hs'). split; cbn; [| done | | |].
    + intros p0 [= <-]. split; [by apply Hs' |]. split; [by rewrite Hr' |]. split; [done |]. rewrite Hdom, dom_delete_L. set_solver.
    + intros E. by rewrite (i_stop h Hi E) in Ep.
    + intros _. apply (i_init h Hi). rewrite Ep. by eexists.
    + intros id. rewrite Hde, Hq. by intros ?%elem_of_nil.
  - split; cbn; [congruence | intros _; by apply (i_none h Hi) | done | rewrite Ep; by intros [? ?] | apply (i_describing h Hi)].
Qed.

(** After a stop that is not the second one. *)
Lemma stop_inv (h : RtspHandler) :
  inv h -> describing (gst h) = [] -> exists h', StopRTSP h = Some h' /\ inv h' /\ state_ h' = RtspStop /\
    (state_ h <> RtspStop -> clients_ h' = ∅ /\ cam_sinks_ h' = ∅ /\ proxy_server_ h' = None /\ server_refs (gst h') = [] /\ factories (gst h') = ∅ /\ contexts (gst h') = ∅).
Proof.
  intros Hi Hq. unfold StopRTSP. destruct (decide (state_ h = RtspStop)) as [E | E]; [by exists h |]. cbn [proxy_server_ with_clients gst].
  destruct (proxy_server_ h) as [p |] eqn:Ep.
  - destruct (i_proxy h Hi p Ep) as (Hs & Hr & Hm & Hd). destruct (stop_spec p (gst h) Hs Hr Hm) as (p' & g' & -> & Hdes & H1 & H2 & H3 & H4). cbn [mbind option_bind]. rewrite Hdes. cbn [mbind option_bind].
    eexists. split; [done |]. split; [| done]. split; cbn; [done | done | done | by intros [? ?] | rewrite H4, Hq; by intros id ?%elem_of_nil].
  - cbn [mbind option_bind]. destruct (i_none h Hi Ep) as (H1 & H2 & H3). eexists. split; [done |]. split; [| done].
    split; cbn; [congruence | done | done | rewrite Ep; by intros [? ?] | rewrite Hq; by intros id ?%elem_of_nil].
Qed.

Lemma calm_event (h : RtspHandler) e : inv h -> calm h e -> exists h', handler_event h e = Some h' /\ inv h'.
Proof.
  intros Hi Hc. destruct e as [created attached | | cam c | cam | | path | i pay0 pay1 payloader]; cbn [handler_event calm] in *.
  - destruct (initialize_inv created attached h Hi Hc) as (ok & h' & -> & ?). by exists h'.
  - eexists. split; [done |]. unfold RunRTSP. destruct (decide _); [done |]. cbn. destruct Hi. by split.
  - eexists. split; [done |]. by apply register_inv.
  - eexists. split; [done |]. by apply unregister_inv.
  - destruct (stop_inv h Hi Hc) as (h' & ? & ? & _). by exists h'.
  - destruct (factories (gst h) !! path) as [id |] eqn:Ef; [| by exists h]. eexists. split; [done |].
    assert (is_Some (contexts (gst h) !! id)) as Hid.
    { destruct (proxy_server_ h) as [p |] eqn:Ep; [| destruct (i_none h Hi Ep) as (_ & Hf & _); by rewrite Hf in Ef]. destruct (i_proxy h Hi p Ep) as (_ & _ & Hm & _).
      apply (m_contexts p _ Hm). destruct (proj1 (m_factories p _ Hm path id) Ef) as (c & _ & Hx). by exists c. }
    destruct Hi as [H1 H2 H3 H4 H5]. split; cbn; [| done | done | done |].
    + intros p Ep. destruct (H1 p Ep) as (? & ? & Hm & ?). split; [done |]. split; [done |]. split; [by destruct Hm; split | done].
    + intros id' [Hin | ->%list_elem_of_singleton]%elem_of_app; auto.
  - destruct (describing (gst h) !! i) as [id |] eqn:Ed; [| by exists h].
    destruct (i_describing h Hi id) as [ctx Hctx]; [by eapply list_elem_of_lookup_2 |]. unfold OnMediaConfigure. cbn [contexts]. rewrite Hctx. cbn [mbind option_bind].
    eexists. split; [done |]. destruct Hi as [H1 H2 H3 H4 H5]. split; cbn; [| done | done | done |].
    + intros p Ep. destruct (H1 p Ep) as (? & ? & Hm & ?). split; [done |]. split; [done |]. split; [by destruct Hm; split | done].
    + intros id' Hin. apply H5. rewrite delete_take_drop in Hin. apply elem_of_app in Hin as [Hin | Hin].
      * apply list_elem_of_lookup in Hin as [j Hj]. apply lookup_take_Some in Hj as [Hj _]. by eapply list_elem_of_lookup_2.
      * apply list_elem_of_lookup in Hin as [j Hj]. rewrite lookup_drop in Hj. by eapply list_elem_of_lookup_2.
Qed.

Lemma calm_reach_inv static (h : RtspHandler) : calm_reach static h -> inv h.
Proof.
  induction 1 as [| h e h' _ IH Hc E]; [apply make_inv |]. destruct (calm_event h e IH Hc) as (h2 & E2 & Hi). rewrite E in E2. by injection E2 as <-.
Qed.

(** ** Every client is stopped once *)

(** The clients handed over. *)
Definition registered (l : list HandlerEvent) : list C := omap (fun e => match e with HRegister _ c => c | _ => None end) l.

Definition owned_clients (h : RtspHandler) : list C := (map_to_list (clients_ h)).*2 ++ stopped h.

Lemma register_clients cam c (h : RtspHandler) : owned_clients (RegisterClient cam (Some c) h) ≡ₚ c :: owned_clients h.
Proof.
  assert (forall h0 : RtspHandler, clients_ h0 = <[cam := c]> (clients_ h) -> stopped h0 = stopped h ++ option_list (clients_ h !! cam) -> owned_clients h0 ≡ₚ c :: owned_clients h) as Hx.
  { intros h0 Hc Hs. unfold owned_clients. rewrite Hc, Hs. destruct (clients_ h !! cam) as [c0 |] eqn:E; cbn [option_list].
    - rewrite <- (insert_delete_id (clients_ h) cam c0 E) at 2. rewrite <- insert_delete_eq, !map_to_list_insert by apply lookup_delete_eq. cbn. rewrite app_assoc.
      rewrite (Permutation_app_comm _ [c0]). done.
    - rewrite map_to_list_insert by done. cbn. by rewrite app_nil_r. }
  apply Hx; unfold RegisterClient; cbn [proxy_server_ with_clients]; destruct (proxy_server_ h) as [p |]; try done; by destruct (RegisterCamera _ _ _ _) as [[? ?] ?].
Qed.

Lemma unregister_clients cam (h : RtspHandler) : owned_clients (UnregisterClient cam h) ≡ₚ owned_clients h.
Proof.
  destruct (clients_ h !! cam) as [c |] eqn:E; unfold UnregisterClient; rewrite E; [| done].
  assert (forall h0 : RtspHandler, clients_ h0 = delete cam (clients_ h) -> stopped h0 = stopped h ++ [c] -> owned_clients h0 ≡ₚ owned_clients h) as Hx.
  { intros h0 Hc Hs. unfold owned_clients. rewrite Hc, Hs. rewrite <- (map_to_list_delete (clients_ h) cam c E). cbn. rewrite app_assoc, (Permutation_app_comm _ [c]). done. }
  apply Hx; cbn [proxy_server_ with_clients]; destruct (proxy_server_ h) as [p |]; try done; by destruct (UnregisterCamera _ _ _) as [[? ?] ?].
Qed.

Lemma event_clients (h h' : RtspHandler) e : handler_event h e = Some h' -> owned_clients h' ≡ₚ registered [e] ++ owned_clients h.
Proof.
  destruct e as [created attached | | cam [c |] | cam | | path | i pay0 pay1 payloader]; cbn [handler_event registered omap list_omap app].
  - unfold Initialize. destruct (is_init_done_ h); [by intros [= <-] |]. destruct (Start _ _ _ _) as [[[[] p] g] |]; [by intros [= <-] | | done]. cbn. by destruct (destroy p g); [intros [= <-] |].
  - intros [= <-]. unfold RunRTSP. by destruct (decide _).
  - intros [= <-]. by apply register_clients.
  - by intros [= <-].
  - intros [= <-]. by apply unregister_clients.
  - unfold StopRTSP. destruct (decide _); [by intros [= <-] |]. cbn [proxy_server_ with_clients gst].
    assert (stopped h ++ (map_to_list (clients_ h)).*2 ≡ₚ owned_clients h) as Hp by apply Permutation_app_comm.
    destruct (proxy_server_ h) as [p |]; [| by intros [= <-]]. destruct (Stop p (gst h)) as [[p1 g1] |]; [| done]. cbn. by destruct (destroy p1 g1); [intros [= <-] |].
  - destruct (factories (gst h) !! path); by intros [= <-].
  - destruct (describing (gst h) !! i); [| by intros [= <-]]. unfold OnMediaConfigure. cbn. by destruct (contexts (gst h) !! _); [intros [= <-] |].
Qed.

(** ** The theorems *)

(** The handler owns its clients: however viewers and detector units come and go, every
    client that was handed over is in the table or was stopped, exactly once; a stop leaves none. *)
Theorem clients_stopped_once static l (h : RtspHandler) :
  handler_events (RtspHandler_make static) l = Some h -> (map_to_list (clients_ h)).*2 ++ stopped h ≡ₚ registered l.
Proof.
  assert (forall h0 : RtspHandler, handler_events h0 l = Some h -> owned_clients h ≡ₚ registered l ++ owned_clients h0) as Hg.
  { induction l as [| e l IH]; intros h0; [by intros [= <-] |]. cbn [handler_events]. destruct (handler_event h0 e) as [h1 |] eqn:E; [| done]. cbn. intros Hl.
    rewrite (IH h1 Hl), (event_clients h0 h1 e E). unfold registered. destruct e as [| | ? [] | | | |]; cbn; try done. by rewrite Permutation_middle. }
  intros Hl. apply Hg in Hl. rewrite Hl. cbn. by rewrite app_nil_r.
Qed.

(** As long as the server is attached in time and no camera is taken away while a viewer's
    media is being made, no order of events ends the process: references are given back once, contexts
    live as long as they are used, no joinable thread is destroyed. *)
Theorem handler_never_fails static (h : RtspHandler) e : calm_reach static h -> calm h e -> exists h', handler_event h e = Some h'.
Proof. intros Hr Hc. destruct (calm_event h e (calm_reach_inv _ _ Hr) Hc) as (h' & ? & _). by exists h'. Qed.

(** A stop gives everything back: no client, no stream of a viewer, no server, no
    reference, mount point or context is left. *)
Theorem stop_gives_back static (h : RtspHandler) :
  calm_reach static h -> describing (gst h) = [] -> state_ h <> RtspStop ->
  exists h', StopRTSP h = Some h' /\ clients_ h' = ∅ /\ cam_sinks_ h' = ∅ /\ proxy_server_ h' = None /\
    server_refs (gst h') = [] /\ factories (gst h') = ∅ /\ contexts (gst h') = ∅.
Proof. intros Hr Hq Hs. destruct (stop_inv h (calm_reach_inv _ _ Hr) Hq) as (h' & ? & _ & _ & Hx). exists h'. split; [done |]. by apply Hx. Qed.

(** A server whose loop does not attach it within five seconds ends the process: the
    handler destroys it, its [Stop] does nothing because it is not running, and its thread
    is still joinable. *)
Theorem late_attach_terminates (h : RtspHandler) : is_init_done_ h = false -> Initialize true false h = None.
Proof. intros Hd. unfold Initialize. rewrite Hd. done. Qed.

(** A camera that is taken away while the media of a viewer is being made ends the process:
    the context that the signal handler then uses is freed. *)
Theorem unregister_frees_used_context static (h : RtspHandler) cam p pay0 pay1 payloader :
  calm_reach static h -> describing (gst h) = [] -> proxy_server_ h = Some p -> cam ∈ dom (mount_paths_ p) ->
  handler_events h [HDescribe (mount_path cam); HUnregister cam; HConfigure 0 pay0 pay1 payloader] = None.
Proof.
  intros Hr Hq Ep Hcam. destruct (i_proxy h (calm_reach_inv _ _ Hr) p Ep) as (_ & _ & Hm & Hsub).
  assert (is_Some (clients_ h !! cam)) as [c Hc] by (apply elem_of_dom; set_solver). apply elem_of_dom in Hcam as [path Hpath].
  pose proof (m_paths p _ Hm cam) as Hp. rewrite Hpath in Hp. destruct (factory_ctxs_ p !! cam) as [id |] eqn:Eid; [| done]. cbn in Hp. injection Hp as ->.
  assert (factories (gst h) !! mount_path cam = Some id) as Hf by (apply (m_factories p _ Hm); by exists cam).
  cbn [handler_events handler_event]. rewrite Hf. cbn [mbind option_bind]. unfold UnregisterClient. cbn [clients_ with_proxy]. rewrite Hc.
  cbn [proxy_server_ with_clients with_proxy gst]. rewrite Ep. unfold UnregisterCamera. rewrite Hpath, Eid. cbn. rewrite Hq. cbn. unfold OnMediaConfigure. cbn. by rewrite lookup_delete_eq.
Qed.

(** A client handed over after the stop is not stopped by another one. *)
Lemma late_client_not_stopped cam c (h : RtspHandler) : state_ h = RtspStop -> StopRTSP (RegisterClient cam (Some c) h) = Some (RegisterClient cam (Some c) h).
Proof.
  intros E. unfold StopRTSP. rewrite decide_True; [done |]. unfold RegisterClient. cbn [proxy_server_ with_clients]. destruct (proxy_server_ h); [| done]. by destruct (RegisterCamera _ _ _ _) as [[? ?] ?].
Qed.
End Props.

(** ** A handler with one camera *)

Definition demo_events : list (HandlerEvent Z) := [HInitialize true true; HRegister 7 (Some 70); HRun].

Definition demo_handler : RtspHandler Z := default (RtspHandler_make true) (handler_events (RtspHandler_make true) demo_events).

Lemma demo_handler_eq : handler_events (RtspHandler_make true) demo_events = Some demo_handler.
Proof. vm_compute. reflexivity. Qed.

Lemma demo_reach : calm_reach true demo_handler.
Proof.
  eapply (calm_step true _ HRun); [eapply (calm_step true _ (HRegister 7 (Some 70))); [eapply (calm_step true _ (HInitialize true true)); [apply calm_start | done |] | done |] | done |]; vm_compute; reflexivity.
Qed.

Lemma demo_facts : describing (gst demo_handler) = [] /\ state_ demo_handler <> RtspStop.
Proof. by split; [vm_compute | vm_compute]. Qed.

Lemma demo_mounted : exists p, proxy_server_ demo_handler = Some p /\ 7 ∈ dom (mount_paths_ p).
Proof. eexists. split; [vm_compute; reflexivity |]. apply elem_of_dom. vm_compute. by eexists. Qed.

Lemma clients_stopped_once_witness : (map_to_list (clients_ demo_handler)).*2 ++ stopped demo_handler ≡ₚ [70].
Proof. exact (clients_stopped_once true demo_events demo_handler demo_handler_eq). Defined.

Lemma handler_never_fails_witness : exists h, handler_event demo_handler (HUnregister 7) = Some h.
Proof. exact (handler_never_fails true demo_handler (HUnregister 7) demo_reach (proj1 demo_facts)). Defined.

Lemma stop_gives_back_witness :
  exists h', StopRTSP demo_handler = Some h' /\ clients_ h' = ∅ /\ cam_sinks_ h' = ∅ /\ proxy_server_ h' = None /\
    server_refs (gst h') = [] /\ factories (gst h') = ∅ /\ contexts (gst h') = ∅.
Proof. exact (stop_gives_back true demo_handler demo_reach (proj1 demo_facts) (proj2 demo_facts)). Defined.

Lemma late_attach_terminates_witness : Initialize true false (RtspHandler_make (C := Z) true) = None.
Proof. exact (late_attach_terminates (RtspHandler_make true) eq_refl). Defined.

Lemma unregister_frees_used_context_witness :
  handler_events demo_handler [HDescribe (mount_path 7); HUnregister 7; HConfigure 0 None None demo_payloader] = None.
Proof. destruct demo_mounted as (p & Ep & Hcam). exact (unregister_frees_used_context true demo_handler 7 p None None demo_payloader demo_reach (proj1 demo_facts) Ep Hcam). Defined.
