(* ===== verification/OnvifMetadata.v ===== *)
(** * The metadata document of a frame

    [ConvertTrackingBoxesToMetaData] and [SendDetectResultToMetaData] of
    [Main/DETECTOR/src/RtspDetectorUnit.cpp]: the tracked objects of a frame as an ONVIF
    document, handed to the payloader of the camera ([RtspServer], [RtpPayload]).  [snprintf]
    and the streams print a number as the C standard says; a NaN is printed without a sign.

    The theorem takes the side of a viewer: what it puts together from the packets is a
    well-formed document with exactly the objects of the frame. *)

From Stdlib Require Import SpecFloat Ascii String.
From stdpp Require Import gmap pretty.
From S2P Require Import Prelude Float32 StringUtils InferObject Schedule DetectorPipeline RtpPayload RtspServer.
Open Scope Z_scope.
Open Scope list_scope.

(** ** Numbers *)

(** [n / 2 ^ k], to the nearest, ties to even. *)
Definition div_pow2_even (n k : Z) : Z :=
  let q := n / 2 ^ k in let r := n mod 2 ^ k in
  if 2 * r <? 2 ^ k then q else if 2 ^ k <? 2 * r then q + 1 else if Z.even q then q else q + 1.

Definition hundredths (m : positive) (e : Z) : Z := if 0 <=? e then Z.pos m * 2 ^ e * 100 else div_pow2_even (Z.pos m * 100) (- e).

(** [std::fixed] with two digits. *)
Definition fixed2 (x : f32) : string :=
  match x with
  | S754_nan => "nan"
  | S754_infinity s => if s then "-inf" else "inf"
  | S754_zero s => if s then "-0.00" else "0.00"
  | S754_finite s m e => let h := hundredths m e in ((if s then "-" else "") ++ pretty (h / 100) ++ "." ++ two_digits (h mod 100))%string
  end.

(** [setw(3)] of a number below 1000. *)
Definition three_digits (z : Z) : string := String (digit_char (z / 100 mod 10)) (two_digits (z mod 100)).

(** [ms]: the milliseconds of the second. *)
Definition utc_time (t : LocalTime) (ms : Z) : string :=
  (four_digits (1900 + tm_year (lt_tm t)) ++ "-" ++ two_digits (1 + tm_mon (lt_tm t)) ++ "-" ++ two_digits (tm_mday (lt_tm t)) ++ "T" ++
   two_digits (tm_hour (lt_tm t)) ++ ":" ++ two_digits (tm_min (lt_tm t)) ++ ":" ++ two_digits (lt_sec t) ++ "." ++ three_digits ms)%string.

(** ** The document *)

Definition quote : string := String "034" "".

Definition attribute (name value : string) : string := (name ++ "=" ++ quote ++ value ++ quote)%string.

Definition xml_header (t : LocalTime) (ms : Z) : string :=
  ("<?xml " ++ attribute "version" "1.0" ++ " " ++ attribute "encoding" "UTF-8" ++ "?>" ++
   "<tt:MetadataStream " ++ attribute "xmlns:tt" "http://www.onvif.org/ver10/schema" ++ ">" ++
   "<tt:VideoAnalytics>" ++
   "<tt:Frame " ++ attribute "UtcTime" (utc_time t ms) ++ ">")%string.

Definition postXml : string := "</tt:Frame></tt:VideoAnalytics></tt:MetadataStream>".

Definition objectxml (o : InferObject) : string :=
  let b := bbox o in
  ("<tt:Object " ++ attribute "ObjectId" (pretty (class_id o)) ++ ">" ++
     "<tt:Appearance>" ++
       "<tt:Shape>" ++
         "<tt:BoundingBox " ++ attribute "left" (pretty (i32_of_f (bb_x b))) ++ " " ++
           attribute "top" (pretty (i32_of_f (bb_y b))) ++ " " ++
           attribute "right" (pretty (i32_of_f (f32_add (bb_w b) (bb_x b)))) ++ " " ++
           attribute "bottom" (pretty (i32_of_f (f32_add (bb_h b) (bb_y b)))) ++ " />" ++
         "<tt:TrackId " ++ attribute "trackid" (pretty (track_id o)) ++ " />" ++
         "<tt:CenterOfGravity " ++ attribute "x" "60.0" ++ " " ++ attribute "y" "50.0" ++ " />" ++
       "</tt:Shape>" ++
       "<tt:Class>" ++
         "<tt:ClassCandidate>" ++
         "<tt:Type>MaybeUnused</tt:Type>" ++
         "<tt:Likelihood>" ++ fixed2 (score o) ++ "</tt:Likelihood>" ++
         "</tt:ClassCandidate>" ++
       "</tt:Class>" ++
     "</tt:Appearance>" ++
   "</tt:Object>")%string.

Definition objects_xml (l : list InferObject) : string := foldr (fun o s => (objectxml o ++ s)%string) ""%string l.

(** The document, and the size that is returned. *)
Definition ConvertTrackingBoxesToMetaData (t : LocalTime) (ms : Z) (infer_objects : list InferObject) : string * Z :=
  let s := (xml_header t ms ++ objects_xml infer_objects ++ postXml)%string in (s, Z.of_nat (String.length s) + 1).

Definition bytes (s : string) : list Z := map (fun c => Z.of_nat (nat_of_ascii c)) (list_ascii_of_string s).

Section Send.
Context {Client : Type}.

(** The packets that are pushed, and the handler of the streams, where there is one. *)
Definition SendDetectResultToMetaData (answers : nat -> GstAnswer) (now : Z) (t : LocalTime) (ms : Z) (cam : Z) (results : list InferObject)
    (rtsp_handler_ : option (RtspHandler Client)) : option (list (list Z) * option (RtspHandler Client)) :=
  match rtsp_handler_ with
  | None => Some ([], None)
  | Some h =>
      let metadata_xml := fst (ConvertTrackingBoxesToMetaData t ms results) in
      if String.eqb metadata_xml "" then Some ([], Some h)
      else '(_, packets, h) ← SendOnvifMetadata answers now cam (bytes metadata_xml) h; Some (packets, Some h)
  end.
End Send.

(** ** A viewer

    A document is read as its tags, each with the text behind it. *)

Definition is_special (c : ascii) : bool := Ascii.eqb c "<" || Ascii.eqb c ">".

(** What comes before the first of these characters, and the rest from it on. *)
Fixpoint span_until (c : ascii) (s : string) : string * string :=
  match s with
  | EmptyString => (EmptyString, EmptyString)
  | String d s' => if Ascii.eqb d c then (EmptyString, s) else let '(a, b) := span_until c s' in (String d a, b)
  end.

Definition Tag : Type := string * string.

(** At the start of a tag. *)
Fixpoint read_tags (fuel : nat) (s : string) : option (list Tag) :=
  match s with
  | EmptyString => Some []
  | String c s =>
      match fuel with
      | O => None
      | S fuel =>
          if Ascii.eqb c "<" then
            match span_until ">" s with
            | (tag, String _ s) => let '(text, s) := span_until "<" s in l ← read_tags fuel s; Some ((tag, text) :: l)
            | _ => None
            end
          else None
      end
  end.

Definition read_document (s : string) : option (list Tag) := read_tags (String.length s) s.

Definition name_of (tag : string) : string := fst (span_until " " tag).

Definition last_is (c : ascii) (s : string) : bool := match rev (list_ascii_of_string s) with d :: _ => Ascii.eqb d c | [] => false end.

(** Every element is closed by its own tag. *)
Fixpoint balanced (open : list string) (l : list Tag) : bool :=
  match l with
  | [] => match open with [] => true | _ => false end
  | (tag, _) :: l =>
      match tag with
      | String "?" _ => balanced open l
      | String "/" name => match open with o :: open => String.eqb o name && balanced open l | [] => false end
      | _ => if last_is "/" tag then balanced open l else balanced (name_of tag :: open) l
      end
  end.

(** The boxes, the tracks and the likelihoods of the objects. *)
Definition boxes_of (l : list Tag) : list string := omap (fun p => if String.prefix "tt:BoundingBox " p.1 then Some p.1 else None) l.
Definition tracks_of (l : list Tag) : list string := omap (fun p => if String.prefix "tt:TrackId " p.1 then Some p.1 else None) l.
Definition likelihoods_of (l : list Tag) : list string := omap (fun p => if String.eqb p.1 "tt:Likelihood" then Some p.2 else None) l.

(** ** Reading what was printed *)

Definition plain : string -> Prop := chars (fun c => is_special c = false).

Lemma plain_app a b : plain (a ++ b) <-> plain a /\ plain b.
Proof. apply chars_app. Qed.

Lemma span_plain c s rest : (c = "<" \/ c = ">")%char -> plain s -> span_until c (s ++ String c rest) = (s, String c rest).
Proof.
  intros Hc. induction s as [| d s IH]; intros Hs; rewrite ?append_cons, ?append_nil_l; cbn [span_until]; [by rewrite Ascii.eqb_refl |].
  apply Forall_cons in Hs as [Hd Hs]. rewrite (IH Hs). destruct (Ascii.eqb_spec d c) as [-> | _]; [by destruct Hc as [-> | ->] | done].
Qed.

Lemma span_end c s : (c = "<" \/ c = ">")%char -> plain s -> span_until c s = (s, "")%string.
Proof.
  intros Hc. induction s as [| d s IH]; intros Hs; cbn [span_until]; [done |]. apply Forall_cons in Hs as [Hd Hs]. rewrite (IH Hs).
  destruct (Ascii.eqb_spec d c) as [-> | _]; [by destruct Hc as [-> | ->] | done].
Qed.

Fixpoint print_tags (l : list Tag) : string :=
  match l with [] => "" | (tag, text) :: l => "<" ++ tag ++ ">" ++ text ++ print_tags l end%string.

Lemma print_tags_app l1 l2 : print_tags (l1 ++ l2) = (print_tags l1 ++ print_tags l2)%string.
Proof. induction l1 as [| [tag text] l1 IH]; [done |]. cbn [app print_tags]. rewrite IH. by rewrite !append_assoc'. Qed.

Definition plain_tag (p : Tag) : Prop := plain p.1 /\ plain p.2.

Lemma read_print fuel l : Forall plain_tag l -> (length l <= fuel)%nat -> read_tags fuel (print_tags l) = Some l.
Proof.
  intros Hl. revert fuel. induction Hl as [| [tag text] l [Ht Hx] Hl IH]; intros fuel Hf; [by destruct fuel |].
  destruct fuel as [| fuel]; [cbn in Hf; lia |]. cbn [print_tags]. rewrite append_cons, append_nil_l. cbn [read_tags]. rewrite Ascii.eqb_refl. cbn [fst snd] in Ht, Hx.
  rewrite append_cons, append_nil_l, (span_plain ">" tag) by (by first [right | done]).
  assert (span_until "<" (text ++ print_tags l) = (text, print_tags l)) as ->.
  { destruct l as [| [tag' text'] l]; [cbn [print_tags]; rewrite append_nil; apply span_end; [by left | done] |].
    cbn [print_tags]. rewrite append_cons, append_nil_l. apply span_plain; [by left | done]. }
  rewrite IH; [done |]. cbn in Hf. lia.
Qed.

Lemma print_length l : (length l <= String.length (print_tags l))%nat.
Proof.
  assert (forall a b, String.length (a ++ b) = (String.length a + String.length b)%nat) as Ha by (intros a b; induction a as [| x a IH]; [done | exact (f_equal S IH)]).
  induction l as [| [tag text] l IH]; [cbn; lia |]. cbn [print_tags length]. rewrite !Ha. cbn [String.length]. lia.
Qed.

Lemma read_document_print l : Forall plain_tag l -> read_document (print_tags l) = Some l.
Proof. intros Hl. apply read_print; [done | apply print_length]. Qed.

(** ** The document as tags *)

Definition frame_tags (t : LocalTime) (ms : Z) : list Tag :=
  [("?xml " ++ attribute "version" "1.0" ++ " " ++ attribute "encoding" "UTF-8" ++ "?", "");
   ("tt:MetadataStream " ++ attribute "xmlns:tt" "http://www.onvif.org/ver10/schema", "");
   ("tt:VideoAnalytics", "");
   ("tt:Frame " ++ attribute "UtcTime" (utc_time t ms), "")]%string.

Definition end_tags : list Tag := [("/tt:Frame", ""); ("/tt:VideoAnalytics", ""); ("/tt:MetadataStream", "")]%string.

Definition box_tag (o : InferObject) : string :=
  let b := bbox o in
  ("tt:BoundingBox " ++ attribute "left" (pretty (i32_of_f (bb_x b))) ++ " " ++ attribute "top" (pretty (i32_of_f (bb_y b))) ++ " " ++
   attribute "right" (pretty (i32_of_f (f32_add (bb_w b) (bb_x b)))) ++ " " ++ attribute "bottom" (pretty (i32_of_f (f32_add (bb_h b) (bb_y b)))) ++ " /")%string.

Definition track_tag (o : InferObject) : string := ("tt:TrackId " ++ attribute "trackid" (pretty (track_id o)) ++ " /")%string.

Definition object_tags (o : InferObject) : list Tag :=
  [("tt:Object " ++ attribute "ObjectId" (pretty (class_id o)), ""); ("tt:Appearance", ""); ("tt:Shape", "");
   (box_tag o, ""); (track_tag o, ""); ("tt:CenterOfGravity " ++ attribute "x" "60.0" ++ " " ++ attribute "y" "50.0" ++ " /", "");
   ("/tt:Shape", ""); ("tt:Class", ""); ("tt:ClassCandidate", ""); ("tt:Type", "MaybeUnused"); ("/tt:Type", "");
   ("tt:Likelihood", fixed2 (score o)); ("/tt:Likelihood", ""); ("/tt:ClassCandidate", ""); ("/tt:Class", ""); ("/tt:Appearance", ""); ("/tt:Object", "")]%string.

Definition document_tags (t : LocalTime) (ms : Z) (l : list InferObject) : list Tag := frame_tags t ms ++ flat_map object_tags l ++ end_tags.

Lemma print_object o : objectxml o = print_tags (object_tags o).
Proof.
  unfold objectxml, object_tags, box_tag, track_tag, attribute. cbn [print_tags]. rewrite !append_assoc', ?append_cons, ?append_nil_l, ?append_nil. reflexivity.
Qed.

Lemma print_document t ms l : fst (ConvertTrackingBoxesToMetaData t ms l) = print_tags (document_tags t ms l).
Proof.
  unfold document_tags. rewrite !print_tags_app. cbn [ConvertTrackingBoxesToMetaData fst].
  assert (objects_xml l = print_tags (flat_map object_tags l)) as ->.
  { induction l as [| o l IH]; [done |]. cbn [flat_map objects_xml foldr]. rewrite print_tags_app, <- print_object. f_equal. exact IH. }
  by f_equal.
Qed.

(** *** Nothing that is printed can be taken for a tag *)

Lemma plain_pretty (z : Z) : plain (pretty z).
Proof. apply chars_pretty; [| done]. intros d Hd. exact (proj1 (negb_true_iff _) (digits_are_forallb (fun c => negb (is_special c)) eq_refl d Hd)). Qed.

Lemma plain_digit z : is_special (digit_char (z mod 10)) = false.
Proof.
  pose proof (Z.mod_pos_bound z 10 ltac:(lia)). assert (exists n : nat, z mod 10 = Z.of_nat n /\ (n < 10)%nat) as (n & -> & Hn) by (exists (Z.to_nat (z mod 10)); lia).
  do 10 (destruct n as [| n]; [done |]). lia.
Qed.

Lemma plain_two_digits z : plain (two_digits z).
Proof. repeat constructor; apply plain_digit. Qed.

Lemma plain_four_digits z : plain (four_digits z).
Proof. apply plain_app. split; apply plain_two_digits. Qed.

Lemma plain_fixed2 x : plain (fixed2 x).
Proof.
  destruct x as [[] | [] | | [] m e]; try (repeat constructor; fail); cbn [fixed2]; rewrite !plain_app; split_and!; try apply plain_pretty; try apply plain_two_digits; repeat constructor.
Qed.

Lemma plain_utc_time t ms : plain (utc_time t ms).
Proof. unfold utc_time. rewrite !plain_app. split_and!; try apply plain_four_digits; try apply plain_two_digits; try (repeat constructor; apply plain_digit); repeat constructor. Qed.

(** Of a text that is given: by computing. *)
Ltac plain_text := repeat constructor.

Lemma plain_attribute name value : plain name -> plain value -> plain (attribute name value).
Proof. intros Hn Hv. unfold attribute. rewrite !plain_app. split_and!; try done; plain_text. Qed.

Ltac plain_tags := repeat apply Forall_cons_2; [.. | apply Forall_nil_2]; (split; cbn [fst snd]; rewrite ?plain_app; repeat match goal with |- _ /\ _ => split end; try (apply plain_attribute); auto using plain_pretty, plain_fixed2, plain_utc_time; plain_text).

Lemma document_plain t ms l : Forall plain_tag (document_tags t ms l).
Proof.
  unfold document_tags. apply Forall_app. split; [unfold frame_tags; plain_tags |]. apply Forall_app. split; [| unfold end_tags; plain_tags].
  induction l as [| o l IH]; [constructor |]. cbn [flat_map]. apply Forall_app. split; [| exact IH]. unfold object_tags, box_tag, track_tag. plain_tags.
Qed.

(** *** It is well formed, and has the objects in their order *)

Lemma last_is_app c a b : b <> ""%string -> last_is c (a ++ b) = last_is c b.
Proof.
  intros Hb. unfold last_is. rewrite list_of_append, rev_app_distr. destruct (rev (list_ascii_of_string b)) as [| x l] eqn:E; [| done].
  apply (f_equal (@length ascii)) in E. rewrite length_rev in E. by destruct b.
Qed.

Lemma attribute_last a name value : last_is "/" (a ++ attribute name value) = false.
Proof. unfold attribute. rewrite <- !append_assoc'. by rewrite last_is_app. Qed.

Lemma empty_last a : last_is "/" (a ++ " /") = true.
Proof. by rewrite last_is_app. Qed.

Lemma box_last o : last_is "/" (box_tag o) = true.
Proof. unfold box_tag. rewrite <- !append_assoc'. apply empty_last. Qed.

Lemma track_last o : last_is "/" (track_tag o) = true.
Proof. unfold track_tag. rewrite <- !append_assoc'. apply empty_last. Qed.

(** A tag that is not an instruction and does not close an element. *)
Definition starts_element (tag : string) : bool := match tag with String c _ => negb (Ascii.eqb c "?" || Ascii.eqb c "/") | EmptyString => true end.

Lemma balanced_element open tag text l :
  starts_element tag = true -> balanced open ((tag, text) :: l) = if last_is "/" tag then balanced open l else balanced (name_of tag :: open) l.
Proof.
  intros Hs. cbn [balanced]. destruct tag as [| c s]; [done |]. cbn [starts_element] in Hs.
  destruct c as [[] [] [] [] [] [] [] []]; first [discriminate Hs | reflexivity].
Qed.

Lemma balanced_instruction open s text l : balanced open ((String "?" s, text) :: l) = balanced open l.
Proof. done. Qed.

Lemma balanced_close open name text l : balanced (name :: open) (("/" ++ name, text)%string :: l) = balanced open l.
Proof. change ("/" ++ name)%string with (String "/" name). cbn [balanced]. by rewrite String.eqb_refl. Qed.

Ltac element last := rewrite balanced_element by reflexivity; rewrite last; cbn iota.
Ltac opening t := rewrite balanced_element by reflexivity; replace (last_is "/" t) with false by reflexivity; cbn iota.
Ltac closing name := etrans; [exact (balanced_close _ name "" _) |].

Lemma object_balanced open o l : balanced open (object_tags o ++ l) = balanced open l.
Proof.
  unfold object_tags. cbn [app]. element attribute_last. opening "tt:Appearance"%string. opening "tt:Shape"%string. element box_last. element track_last.
  rewrite balanced_element by reflexivity. replace (last_is "/" _) with true by reflexivity. cbn iota. closing "tt:Shape"%string.
  opening "tt:Class"%string. opening "tt:ClassCandidate"%string. opening "tt:Type"%string. closing "tt:Type"%string.
  opening "tt:Likelihood"%string. closing "tt:Likelihood"%string. closing "tt:ClassCandidate"%string. closing "tt:Class"%string. closing "tt:Appearance"%string. closing "tt:Object"%string. done.
Qed.

Lemma document_balanced t ms l : balanced [] (document_tags t ms l) = true.
Proof.
  unfold document_tags, frame_tags. cbn [app]. etrans; [exact (balanced_instruction [] _ _ _) |]. element attribute_last. opening "tt:VideoAnalytics"%string. element attribute_last.
  assert (forall open rest, balanced open (flat_map object_tags l ++ rest) = balanced open rest) as ->.
  { induction l as [| o l IH]; intros open rest; [done |]. cbn [flat_map]. rewrite <- app_assoc, object_balanced. apply IH. }
  unfold end_tags. closing "tt:Frame"%string. closing "tt:VideoAnalytics"%string. closing "tt:MetadataStream"%string. done.
Qed.

Lemma document_objects t ms l :
  boxes_of (document_tags t ms l) = map box_tag l /\ tracks_of (document_tags t ms l) = map track_tag l /\ likelihoods_of (document_tags t ms l) = map (fun o => fixed2 (score o)) l.
Proof.
  unfold document_tags, boxes_of, tracks_of, likelihoods_of. rewrite !omap_app.
  induction l as [| o l (IH1 & IH2 & IH3)]; [by split_and! |]. cbn [flat_map map]. rewrite !omap_app. split_and!.
  - exact (f_equal (cons (box_tag o)) IH1).
  - exact (f_equal (cons (track_tag o)) IH2).
  - exact (f_equal (cons (fixed2 (score o))) IH3).
Qed.

(** ** The way to the viewer *)

Section Viewer.
Context {Client : Type}.

(** The text of bytes. *)
Definition text_of (l : list Z) : string := string_of_list_ascii (map (fun b => ascii_of_nat (Z.to_nat b)) l).

Lemma text_of_bytes s : text_of (bytes s) = s.
Proof.
  unfold text_of, bytes. rewrite map_map. rewrite <- (string_of_list_ascii_of_string s) at 2. f_equal.
  induction (list_ascii_of_string s) as [| c l IH]; [done |]. cbn [map]. rewrite IH. by rewrite Nat2Z.id, ascii_nat_embedding.
Qed.

(** C34: a viewer sees the objects of the frame: the packets that are pushed for a frame's
    tracks fit, and a viewer who gets some of them, in any order, puts together nothing, or a
    text that reads as a document whose elements are closed in order and whose boxes, tracks
    and likelihoods are exactly those of the tracked objects, in their order; and when all
    packets are accepted and arrive, there is such a text.  (The packets fit when the
    configured size, 1400 in the program, leaves room for a payload; a viewer can tell them
    apart when they are no more than 65536.) *)
Theorem viewer_sees_objects answers now t ms cam results (h : RtspHandler Client) p :
  cam_sinks_ h !! cam ≫= meta_payloader = Some p -> appsrc_ p = true -> widths_ok p ->
  exists packets h', SendDetectResultToMetaData answers now t ms cam results (Some h) = Some (packets, Some h') /\
    (12 < mtu (cfg_ p) -> Forall (fun packet => Z.of_nat (length packet) <= mtu (cfg_ p)) packets) /\
    (Z.of_nat (length packets) <= 65536 -> (forall j, answers j = Pushed true) -> is_Some (receive (seq_num_ p) packets)) /\
    (Z.of_nat (length packets) <= 65536 -> forall arrived document, arrived ⊆+ packets -> receive (seq_num_ p) arrived = Some document ->
       exists l, read_document (text_of document) = Some l /\ balanced [] l = true /\
         boxes_of l = map box_tag results /\ tracks_of l = map track_tag results /\ likelihoods_of l = map (fun o => fixed2 (score o)) results).
Proof.
  intros Hp Ha Hw. unfold SendDetectResultToMetaData. set (doc := fst (ConvertTrackingBoxesToMetaData t ms results)).
  assert (doc = print_tags (document_tags t ms results)) as Hdoc by apply print_document. destruct (String.eqb_spec doc "") as [E | Hne]; [by rewrite Hdoc in E |].
  unfold SendOnvifMetadata. rewrite Hp. assert (bytes doc <> []) as Hb by (intros E; apply Hne; by rewrite <- (text_of_bytes doc), E).
  destruct (push_xml_spec answers now (bytes doc) p Ha Hw Hb) as (ok & packets & p' & -> & [(rs & Hrs & Hst & _) Hsize _ _ Hbad]). cbn [mbind option_bind].
  do 2 eexists. split; [reflexivity |]. split_and!.
  - intros Hm. eapply Forall_impl; [exact Hsize |]. intros packet Hl. cbn in Hl. rewrite (proj2 (Z.ltb_lt 12 (mtu (cfg_ p))) Hm) in Hl. lia.
  - intros Hn Hall. rewrite (receive_spec (seq_num_ p) ok (bytes doc) packets rs packets Hrs Hst (proj1 Hw) Hn (reflexivity _)), Nat.eqb_refl.
    destruct ok; [by eexists | by specialize (Hbad eq_refl (Hall _))].
  - intros Hn arrived document Hsub. rewrite (receive_spec (seq_num_ p) ok (bytes doc) packets rs arrived Hrs Hst (proj1 Hw) Hn Hsub).
    destruct (ok && (length arrived =? length packets)%nat); [| done]. intros [= <-]. exists (document_tags t ms results). rewrite text_of_bytes, Hdoc.
    split; [apply read_document_print, document_plain |]. split; [apply document_balanced |]. apply document_objects.
Qed.
End Viewer.

(** ** Two objects *)

Definition demo_object (id : Z) : InferObject :=
  mkInferObject 1 id (10 + id) (f32_div (f32_of_Z 7) (f32_of_Z 8)) (mkBBox (f32_of_Z 3) (f32_of_Z 4) (f32_of_Z 20) (f32_of_Z 30)) ltx_type pixel_int [].

Definition demo_payloader : OnvifMetadataPayloader := mkPayloader true (mkConfig 0 97 600) 1 0 65530 0 0 0.

Definition demo_streams : RtspHandler Z := with_sinks (RtspHandler_make true) {[7 := mkCamSink None (Some demo_payloader)]}.

Definition demo_time : LocalTime := mkLocalTime (mkTm 125 11 4 15 30 0) 9.

Example demo_box : box_tag (demo_object 2) = ("tt:BoundingBox " ++ attribute "left" "3" ++ " " ++ attribute "top" "4" ++ " " ++ attribute "right" "23" ++ " " ++ attribute "bottom" "34" ++ " /")%string /\
  fixed2 (score (demo_object 2)) = "0.88"%string /\ fixed2 (f32_div (f32_of_Z 1) (f32_of_Z 8)) = "0.12"%string /\ utc_time demo_time 45 = "2025-12-04T15:30:09.045"%string.
Proof. vm_compute. by split_and!. Qed.

Lemma demo_metadata_packets : (fun r => length (fst r)) <$> SendDetectResultToMetaData (fun _ => Pushed true) 0 demo_time 45 7 [demo_object 2; demo_object 5] (Some demo_streams) = Some 2%nat.
Proof. vm_compute. reflexivity. Qed.

Lemma viewer_sees_objects_witness :
  exists packets h' document l, SendDetectResultToMetaData (fun _ => Pushed true) 0 demo_time 45 7 [demo_object 2; demo_object 5] (Some demo_streams) = Some (packets, Some h') /\
    receive 65530 packets = Some document /\ read_document (text_of document) = Some l /\ boxes_of l = map box_tag [demo_object 2; demo_object 5].
Proof.
  destruct (viewer_sees_objects (fun _ => Pushed true) 0 demo_time 45 7 [demo_object 2; demo_object 5] demo_streams demo_payloader) as (packets & h' & E & _ & Hall & Hread).
  - vm_compute. reflexivity.
  - reflexivity.
  - unfold widths_ok, in_u32. cbn. lia.
  - assert (length packets = 2%nat) as Hl by (pose proof demo_metadata_packets as Hp; rewrite E in Hp; by injection Hp).
    destruct (Hall ltac:(rewrite Hl; lia) (fun _ => eq_refl)) as [document Hd]. destruct (Hread ltac:(rewrite Hl; lia) packets document (reflexivity _) Hd) as (l & Hr & _ & Hb & _).
    exists packets, h', document, l. split; [exact E |]. split; [exact Hd |]. split; [exact Hr | exact Hb].
Defined.
