(* ===== verification/GrpcClient.v ===== *)
(** * The gRPC client for events

    [Protocol/GRPC/include/GrpcEventClientBase.h], [src/GrpcEventClientBase.cpp], the makers
    of messages in [src/GrpcProtoMaker.cpp] and [UUID::generate] of [utils/UUIDGenerator.h].
    Every call is an object on the heap whose address is the tag of its operation; the
    thread that gets the tag back deletes it.  gRPC is the environment: it completes each
    operation once, with a status and a response.  [None] is the end of the process: a freed
    call is used, or a rule of gRPC's documentation is broken (no operation is started on
    a queue that is shut down; a queue is drained before it is destroyed).  Counts, logs
    and the durations in them are left out. *)

From Stdlib Require Import Ascii String.
From stdpp Require Import gmap list.
From S2P Require Import Prelude SafeThread GrpcServer.
Open Scope Z_scope.
Open Scope list_scope.

(** ** Making UUIDs *)

(** One hexadecimal digit, as [std::hex] writes it. *)
Definition hex_digit (x : Z) : ascii := ascii_of_nat (Z.to_nat (if x <? 10 then 48 + x else 87 + x)).

(** The digits of a 32-bit number; 8 are enough. *)
Fixpoint hex_digits (fuel : nat) (x : Z) : list ascii :=
  match fuel with
  | O => []
  | S fuel => if x <? 16 then [hex_digit x] else hex_digits fuel (x / 16) ++ [hex_digit (x mod 16)]
  end.

(** [std::setw] with the fill character 0. *)
Definition setw_hex (width : nat) (x : Z) : list ascii :=
  let d := hex_digits 8 x in repeat "0"%char (width - length d) ++ d.

(** From six random numbers. *)
Definition generate (r32 r16 r16' r16'' r16''' r32' : Z) : string :=
  let c := Z.lor (Z.land r16' 4095) 16384 in
  let d := Z.lor (Z.land r16'' 16383) 32768 in
  string_of_list_ascii
    (setw_hex 8 r32 ++ "-"%char :: setw_hex 4 r16 ++ "-"%char :: setw_hex 4 c ++ "-"%char :: setw_hex 4 d ++
     "-"%char :: setw_hex 4 r16''' ++ setw_hex 8 r32').

(** ** Messages *)

Record EventDataOnlyJson := mkOnlyJson { oj_uuid : string; oj_json_data : string }.

Record RawImageData := mkRawImage { ri_data : list Z; ri_size : Z; ri_width : Z; ri_height : Z }.

Record EventDataWithRawImages := mkRawImages { wi_uuid : string; wi_json_data : string; wi_images : list RawImageData }.

Definition MakeEventOnlyJsonProto (uuid json_data : string) : EventDataOnlyJson := mkOnlyJson uuid json_data.

Definition MakeEventDataWithRawImagesProto (uuid json_data : string) (images : list RawImageData) : EventDataWithRawImages :=
  mkRawImages uuid json_data (map (fun i => mkRawImage (ri_data i) (ri_size i) (ri_width i) (ri_height i)) images).

(** The size is read after the bytes were copied, not moved, so it is theirs. *)
Definition MakeRawImageDataProto (encoded_img_buffer : list Z) (image_w image_h : Z) : RawImageData :=
  mkRawImage encoded_img_buffer (i32 (Z.of_nat (length encoded_img_buffer))) image_w image_h.

(** ** Calls *)

Section Client.
Context {Snapshot : Type}.

Inductive CallKind := SendCall | JsonResponseCall | CounterSnapshotCall.

(** What gRPC fills in: the status and, for the kinds that have one, the response. *)
Record Completion := mkCompletion { status_ok : bool; response_json : string; response_snapshot : Snapshot }.

(** [callback]: one is set. *)
Record Call := mkCall { kind : CallKind; trace_id : string; callback : bool; freed : bool }.

Inductive CqSlot := Pending | Completed (c : Completion).

(** What a callback was called with. *)
Inductive Result := JsonResult (json_data : string) | SnapshotResult (s : Snapshot).

(** [results]: the callbacks that ran, with the call they belong to. *)
Record Client := mkClient {
  calls : list Call;
  cq_ : gmap nat CqSlot;
  cq_shutdown : bool;
  grpc_client_thread_ : SafeThread;
  results : list (nat * Result)
}.

Definition Client_make : Client := mkClient [] ∅ false (SetThreadFunctions SafeThread_make true true) [].

(** A call is allocated, prepared and started. *)
Definition start_call (k : CallKind) (trace : string) (cb : bool) (c : Client) : option Client :=
  if cq_shutdown c then None
  else Some (mkClient (calls c ++ [mkCall k trace cb false]) (<[length (calls c) := Pending]> (cq_ c)) (cq_shutdown c)
         (grpc_client_thread_ c) (results c)).

(** For the messages with a UUID. *)
Definition start_checked (k : CallKind) (uuid : string) (cb : bool) (c : Client) : option (bool * Client) :=
  if negb (isValidUUID uuid) then Some (false, c) else c ← start_call k uuid cb c; Some (true, c).

Definition SendEventOnlyJson (event_data : EventDataOnlyJson) (c : Client) : option (bool * Client) :=
  start_checked SendCall (oj_uuid event_data) false c.
Definition SendEventWithImages (event_data : EventDataWithRawImages) (c : Client) : option (bool * Client) :=
  start_checked SendCall (wi_uuid event_data) false c.
Definition RequestEventOnlyJson (event_data : EventDataOnlyJson) (on_result : bool) (c : Client) : option (bool * Client) :=
  start_checked JsonResponseCall (oj_uuid event_data) on_result c.
Definition RequestEventWithImages (event_data : EventDataWithRawImages) (on_result : bool) (c : Client) : option (bool * Client) :=
  start_checked JsonResponseCall (wi_uuid event_data) on_result c.

(** [trace]: a new UUID. *)
Definition SendCounterDelta (trace : string) (c : Client) : option (bool * Client) :=
  c ← start_call SendCall trace false c; Some (true, c).
Definition SendHeartbeat (trace : string) (c : Client) : option (bool * Client) :=
  c ← start_call SendCall trace false c; Some (true, c).
Definition RequestCounterSnapshot (trace : string) (on_result : bool) (c : Client) : option (bool * Client) :=
  c ← start_call CounterSnapshotCall trace on_result c; Some (true, c).

(** ** The thread *)

(** The callback of a completed call. *)
Definition result_of (call : Call) (k : Completion) : option Result :=
  if status_ok k && callback call
  then match kind call with
       | SendCall => None
       | JsonResponseCall => Some (JsonResult (response_json k))
       | CounterSnapshotCall => Some (SnapshotResult (response_snapshot k))
       end
  else None.

(** [AsyncNext] hands out [t]: its callback, then [delete]. *)
Definition complete_call (t : nat) (c : Client) : option Client :=
  match cq_ c !! t with
  | Some (Completed k) =>
      call ← calls c !! t;
      if freed call then None
      else Some (mkClient (<[t := mkCall (kind call) (trace_id call) (callback call) true]> (calls c)) (delete t (cq_ c)) (cq_shutdown c)
             (grpc_client_thread_ c) (results c ++ match result_of call k with Some r => [(t, r)] | None => [] end))
  | _ => Some c
  end.

(** One turn of the loop; without a tag, its wait timed out. *)
Definition asyncCompleteRpc_turn (got_tag : option nat) (c : Client) : option Client :=
  if negb (is_running_ (grpc_client_thread_ c)) then Some c
  else match got_tag with Some t => complete_call t c | None => Some c end.

Definition with_thread (c : Client) t : Client := mkClient (calls c) (cq_ c) (cq_shutdown c) t (results c).

Definition Client_Start (c : Client) : option (bool * Client) :=
  t ← SafeThread.Start (grpc_client_thread_ c); Some (true, with_thread c t).

(** The flag is cleared, the queue is shut down, the thread is joined; the turn that was
    under way may still get a tag. *)
Definition Client_Stop (last_tag : option nat) (c : Client) : option Client :=
  if is_running_ (grpc_client_thread_ c) then
    c ← match last_tag with Some t => complete_call t c | None => Some c end;
    Some (mkClient (calls c) (cq_ c) true (SafeThread.Stop (grpc_client_thread_ c)) (results c))
  else Some c.

(** The destructor. *)
Definition Client_destroy (last_tag : option nat) (c : Client) : option Client :=
  c ← Client_Stop last_tag c;
  t ← SafeThread.destroy (grpc_client_thread_ c);
  if decide (cq_ c = ∅) then Some (with_thread c t) else None.

(** ** What happens *)

Inductive ClientEvent :=
| CSend (k : CallKind) (uuid : string) (cb : bool)   (* one of the calls *)
| CComplete (t : nat) (k : Completion)               (* gRPC completes an operation *)
| CTurn (got_tag : option nat)
| CStart
| CStop (last_tag : option nat).

Definition client_event (c : Client) (e : ClientEvent) : option Client :=
  match e with
  | CSend k uuid cb => snd <$> start_checked k uuid cb c
  | CComplete t k =>
      match cq_ c !! t with
      | Some Pending => Some (mkClient (calls c) (<[t := Completed k]> (cq_ c)) (cq_shutdown c) (grpc_client_thread_ c) (results c))
      | _ => Some c
      end
  | CTurn got_tag => asyncCompleteRpc_turn got_tag c
  | CStart => snd <$> Client_Start c
  | CStop last_tag => Client_Stop last_tag c
  end.

Fixpoint client_events (c : Client) (l : list ClientEvent) : option Client :=
  match l with
  | [] => Some c
  | e :: l => c ← client_event c e; client_events c l
  end.
End Client.

Arguments Client : clear implicits.
Arguments Completion : clear implicits.
Arguments ClientEvent : clear implicits.
Arguments CqSlot : clear implicits.
Arguments Result : clear implicits.
