(* ===== verification/GrpcClientProps.v ===== *)
(** * Properties of the gRPC client

    Every call is deleted once, its callback runs at most once and with its own response; a
    new UUID is one the server accepts.  The queue is not drained on a stop: calls that
    are not complete then are never deleted. *)

From Stdlib Require Import Ascii String.
From stdpp Require Import gmap list.
From S2P Require Import Prelude SafeThread GrpcServer GrpcClient.
Open Scope Z_scope.
Open Scope list_scope.

(** ** UUIDs *)

Lemma hex_digit_is_hex x : 0 <= x < 16 -> is_hex (hex_digit x) = true.
Proof.
  intros Hx. assert (exists n : nat, x = Z.of_nat n /\ (n < 16)%nat) as (n & -> & Hn) by (exists (Z.to_nat x); lia).
  do 16 (destruct n as [| n]; [vm_compute; reflexivity |]). lia.
Qed.

Lemma hex_digits_spec (fuel w : nat) x : (1 <= w)%nat -> 0 <= x < 16 ^ Z.of_nat w -> (length (hex_digits fuel x) <= w)%nat /\ forallb is_hex (hex_digits fuel x) = true.
Proof.
  revert w x. induction fuel as [| fuel IH]; intros w x Hw Hx; cbn [hex_digits]; [by split; [cbn; lia |] |].
  case_if; bool_to_prop.
  - cbn. rewrite hex_digit_is_hex by lia. split; [lia | done].
  - destruct w as [| [| w]]; [lia | cbn in Hx; lia |].
    assert (0 <= x / 16 < 16 ^ Z.of_nat (S w)) as Hd.
    { split; [by apply Z.div_pos; lia |]. apply Z.div_lt_upper_bound; [lia |]. rewrite (Nat2Z.inj_succ (S w)), Z.pow_succ_r in Hx by lia. lia. }
    destruct (IH (S w) (x / 16) ltac:(lia) Hd) as [Hl Hh].
    rewrite length_app, forallb_app, Hh. cbn [length forallb]. rewrite hex_digit_is_hex by (by apply Z.mod_pos_bound). split; [lia | done].
Qed.

Lemma setw_hex_spec (w : nat) x : (1 <= w)%nat -> 0 <= x < 16 ^ Z.of_nat w -> length (setw_hex w x) = w /\ forallb is_hex (setw_hex w x) = true.
Proof.
  intros Hw Hx. destruct (hex_digits_spec 8 w x Hw Hx) as [Hl Hh]. unfold setw_hex.
  rewrite length_app, repeat_length, forallb_app, Hh. split; [lia |]. rewrite andb_true_r.
  induction (w - length (hex_digits 8 x))%nat as [| n IH]; [done | exact IH].
Qed.

Lemma match_groups_cons n groups a s :
  groups <> [] -> length a = n -> forallb is_hex a = true -> match_groups groups s = true -> match_groups (n :: groups) (a ++ "-"%char :: s) = true.
Proof.
  intros Hg <- Ha Hs. destruct groups as [| m groups]; [done |]. cbn [match_groups].
  by rewrite take_app_length, drop_app_length, Nat.eqb_refl, Ha.
Qed.

Lemma masked_range x n b : 0 <= n <= 16 -> 0 <= b < 2 ^ 16 -> 0 <= Z.lor (Z.land x (Z.ones n)) b < 16 ^ Z.of_nat 4.
Proof.
  intros Hn Hb. change (16 ^ Z.of_nat 4) with (2 ^ 16). rewrite Z.land_ones by lia.
  assert (0 <= x mod 2 ^ n < 2 ^ 16) as Hl.
  { pose proof (Z.mod_pos_bound x (2 ^ n) ltac:(lia)). pose proof (Z.pow_le_mono_r 2 n 16 ltac:(lia) ltac:(lia)). lia. }
  set (a := x mod 2 ^ n) in *. assert (0 <= Z.lor a b) by (apply Z.lor_nonneg; lia). split; [done |].
  assert (forall z, 0 <= z < 2 ^ 16 -> Z.log2 z < 16) as Hlog.
  { intros z Hz. destruct (decide (z = 0)) as [-> |]; [done | by apply Z.log2_lt_pow2; lia]. }
  destruct (decide (Z.lor a b = 0)) as [-> |]; [lia |]. apply Z.log2_lt_pow2; [lia |]. rewrite Z.log2_lor by lia. apply Z.max_lub_lt; by apply Hlog.
Qed.

Definition is_u16 (x : Z) : Prop := 0 <= x < 16 ^ Z.of_nat 4.
Definition is_u32 (x : Z) : Prop := 0 <= x < 16 ^ Z.of_nat 8.

(** Whatever the random numbers, the UUID that is made is one that both ends accept. *)
Lemma generate_valid a b c d e f :
  is_u32 a -> is_u16 b -> is_u16 c -> is_u16 d -> is_u16 e -> is_u32 f -> isValidUUID (generate a b c d e f) = true.
Proof.
  unfold is_u16, is_u32. intros Ha Hb Hc Hd He Hf. unfold isValidUUID, generate. rewrite list_ascii_of_string_of_list_ascii.
  destruct (setw_hex_spec 8 a) as [La Xa]; [lia | done |]. destruct (setw_hex_spec 4 b) as [Lb Xb]; [lia | done |].
  destruct (setw_hex_spec 4 (Z.lor (Z.land c 4095) 16384)) as [Lc Xc]; [lia | apply (masked_range _ 12); lia |].
  destruct (setw_hex_spec 4 (Z.lor (Z.land d 16383) 32768)) as [Ld Xd]; [lia | apply (masked_range _ 14); lia |].
  destruct (setw_hex_spec 4 e) as [Le Xe]; [lia | done |]. destruct (setw_hex_spec 8 f) as [Lf Xf]; [lia | done |].
  do 4 (apply match_groups_cons; [done | done | done |]).
  cbn [match_groups]. by rewrite length_app, Le, Lf, forallb_app, Xe, Xf.
Qed.

(** ** Calls *)

Section Props.
Context {Snapshot : Type}.
Local Abbreviation Client := (Client Snapshot).
Local Abbreviation ClientEvent := (ClientEvent Snapshot).

Definition is_send (e : ClientEvent) : bool := match e with CSend _ _ _ => true | _ => false end.

(** No call is made once the client was stopped. *)
Fixpoint sends_before_stop (l : list ClientEvent) : bool :=
  match l with
  | [] => true
  | CStop _ :: l => forallb (fun e => negb (is_send e)) l
  | _ :: l => sends_before_stop l
  end.

Definition results_of (c : Client) (t : nat) : list (nat * Result Snapshot) := filter (fun p => fst p = t) (results c).

(** The state of a call, when [l] has happened. *)
Definition call_ok (l : list ClientEvent) (c : Client) (t : nat) (call : Call) : Prop :=
  if freed call then
    cq_ c !! t = None /\ exists k, CComplete t k ∈ l /\ results_of c t = match result_of call k with Some r => [(t, r)] | None => [] end
  else
    results_of c t = [] /\ exists s, cq_ c !! t = Some s /\ match s with Pending => True | Completed k => CComplete t k ∈ l end.

Record inv (l : list ClientEvent) (c : Client) : Prop := {
  i_calls : forall t call, calls c !! t = Some call -> call_ok l c t call;
  i_slots : forall t, is_Some (cq_ c !! t) -> is_Some (calls c !! t);
  i_results : forall t, results_of c t <> [] -> is_Some (calls c !! t);
  i_thread : flag_exact (grpc_client_thread_ c)
}.

Lemma Client_make_inv : inv [] Client_make.
Proof. split; try done. intros t [s Hs]. cbn in Hs. by rewrite lookup_empty in Hs. Qed.

Lemma call_ok_more l l' c t call : call_ok l c t call -> call_ok (l ++ l') c t call.
Proof.
  unfold call_ok. destruct (freed call).
  - intros (Hq & k & Hk & Hr). split; [done |]. exists k. split; [by apply elem_of_app; left | done].
  - intros (Hr & s & Hs & Hk). split; [done |]. exists s. split; [done |]. destruct s; [done | by apply elem_of_app; left].
Qed.

(** The calls, the queue and the results are as before. *)
Lemma inv_same l l' (c c' : Client) :
  inv l c -> calls c' = calls c -> cq_ c' = cq_ c -> results c' = results c -> flag_exact (grpc_client_thread_ c') -> inv (l ++ l') c'.
Proof.
  intros [H1 H2 H3 _] Ec Eq Er Ht. split; unfold results_of in *; rewrite ?Ec, ?Eq, ?Er; try done.
  intros t call Hc. unfold call_ok, results_of. rewrite Eq, Er. by apply call_ok_more, H1.
Qed.

Lemma start_call_inv l k trace cb (c : Client) : inv l c -> cq_shutdown c = false -> exists c', start_call k trace cb c = Some c' /\ inv l c' /\ cq_shutdown c' = false.
Proof.
  intros [H1 H2 H3 H4] Hs. unfold start_call. rewrite Hs. eexists. split; [done |]. split; [| done].
  assert (cq_ c !! length (calls c) = None) as Hq.
  { destruct (cq_ c !! length (calls c)) eqn:E; [| done]. destruct (H2 (length (calls c))) as [x Hx]; [by rewrite E |]. apply lookup_lt_Some in Hx. lia. }
  assert (results_of c (length (calls c)) = []) as Hr.
  { destruct (results_of c (length (calls c))) eqn:E; [done |]. destruct (H3 (length (calls c))) as [x Hx]; [by rewrite E |]. apply lookup_lt_Some in Hx. lia. }
  split; cbn [calls cq_ results grpc_client_thread_]; unfold results_of in *; cbn [results]; [| | | done].
  - intros t call [Hc | [Hn Hc]]%lookup_app_Some.
    + pose proof (H1 t call Hc) as Hok. unfold call_ok, results_of in *. cbn [cq_ results]. apply lookup_lt_Some in Hc. by rewrite lookup_insert_ne by lia.
    + assert (t = length (calls c)) as -> by (apply list_lookup_singleton_Some in Hc as [? _]; lia).
      rewrite Nat.sub_diag in Hc. injection Hc as <-. unfold call_ok, results_of. cbn [freed cq_ results]. split; [done |]. exists Pending. by rewrite lookup_insert_eq.
  - intros t Ht. destruct (decide (t = length (calls c))) as [-> | Hn]; [by rewrite lookup_app_r, Nat.sub_diag by lia; eexists |].
    rewrite lookup_insert_ne in Ht by done. destruct (H2 t Ht) as [x Hx]. exists x. by apply lookup_app_l_Some.
  - intros t Ht. destruct (H3 t Ht) as [x Hx]. exists x. by apply lookup_app_l_Some.
Qed.

Lemma complete_call_inv l t (c : Client) :
  inv l c -> exists c', complete_call t c = Some c' /\ inv l c' /\ cq_shutdown c' = cq_shutdown c /\ grpc_client_thread_ c' = grpc_client_thread_ c.
Proof.
  intros Hi. pose proof Hi as [H1 H2 H3 H4]. unfold complete_call. destruct (cq_ c !! t) as [[| k] |] eqn:Eq; [by exists c | | by exists c].
  destruct (H2 t) as [call Hc]; [by rewrite Eq |]. rewrite Hc. cbn [mbind option_bind]. pose proof (H1 t call Hc) as Hok. unfold call_ok in Hok.
  destruct (freed call) eqn:Ef; [destruct Hok as [? _]; congruence |]. destruct Hok as (Hr & s & Hs & Hk). rewrite Eq in Hs. injection Hs as <-.
  eexists. split; [done |]. split; [| done]. pose proof (lookup_lt_Some _ _ _ Hc) as Hlt.
  assert (forall r, filter (fun p : nat * Result Snapshot => p.1 = t) (results c ++ r) = filter (fun p => p.1 = t) r) as Hft.
  { intros r. rewrite filter_app. unfold results_of in Hr. by rewrite Hr. }
  assert (forall t', t' <> t -> filter (fun p : nat * Result Snapshot => p.1 = t') (results c ++ match result_of call k with Some r => [(t, r)] | None => [] end) =
            filter (fun p => p.1 = t') (results c)) as Hfo.
  { intros t' Hn. rewrite filter_app. destruct (result_of call k); [| by rewrite app_nil_r]. rewrite (filter_cons_False (fun p : nat * Result Snapshot => p.1 = t')) by (cbn; congruence). by rewrite app_nil_r. }
  split; cbn [calls cq_ results grpc_client_thread_]; [| | | done].
  - intros t' call' Hc'. destruct (decide (t' = t)) as [-> | Hn].
    + rewrite list_lookup_insert_eq in Hc' by done. injection Hc' as <-. unfold call_ok, results_of. cbn [freed cq_ results].
      split; [by rewrite lookup_delete_eq |]. exists k. split; [done |]. rewrite Hft. unfold result_of. cbn [callback kind].
      destruct (status_ok k && callback call); [| done]. destruct (kind call); [done | |]; by rewrite filter_cons_True.
    + rewrite list_lookup_insert_ne in Hc' by done. pose proof (H1 t' call' Hc') as Hok'. unfold call_ok, results_of in *. cbn [cq_ results].
      by rewrite lookup_delete_ne, Hfo by done.
  - intros t' [s Hs]. apply lookup_delete_Some in Hs as [Hn Hs]. destruct (H2 t') as [x Hx]; [by eexists |]. exists x. by rewrite list_lookup_insert_ne.
  - intros t' Ht. unfold results_of in Ht. cbn [results] in Ht. destruct (decide (t' = t)) as [-> | Hn]; [eexists; by apply list_lookup_insert_eq |].
    rewrite Hfo in Ht by done. destruct (H3 t' Ht) as [x Hx]. exists x. by rewrite list_lookup_insert_ne.
Qed.

Definition is_stop (e : ClientEvent) : bool := match e with CStop _ => true | _ => false end.

Lemma client_event_inv l e (c : Client) :
  inv l c -> (is_send e = true -> cq_shutdown c = false) ->
  exists c', client_event c e = Some c' /\ inv (l ++ [e]) c' /\ (is_stop e = false -> cq_shutdown c' = cq_shutdown c).
Proof.
  intros Hi Hs. destruct e as [k uuid cb | t k | got | | last]; cbn [client_event is_send is_stop] in *.
  - unfold start_checked. destruct (isValidUUID uuid); cbn [negb].
    + destruct (start_call_inv l k uuid cb c Hi (Hs eq_refl)) as (c' & -> & Hi' & Hs'). exists c'. split; [done |].
      split; [apply (inv_same l _ c'); by try apply Hi' | intros _; by rewrite Hs', Hs].
    + exists c. split; [done |]. split; [apply (inv_same l _ c); by try apply Hi | done].
  - destruct (cq_ c !! t) as [[| k'] |] eqn:Eq; (eexists; split; [done |]); (split; [| done]); try (apply (inv_same l _ c); by try apply Hi).
    pose proof Hi as [H1 H2 H3 H4]. split; cbn [calls cq_ results grpc_client_thread_]; [| | done | done].
    + intros t' call Hc. pose proof (H1 t' call Hc) as Hok. apply (call_ok_more _ [CComplete t k]) in Hok. unfold call_ok, results_of in *. cbn [cq_ results].
      destruct (decide (t' = t)) as [-> | Hn]; [| by rewrite lookup_insert_ne]. rewrite lookup_insert_eq.
      destruct (freed call); [destruct Hok as [? _]; congruence |]. split; [apply Hok |]. exists (Completed k). split; [done |]. apply elem_of_app. right. by left.
    + intros t' Ht. destruct (decide (t' = t)) as [-> | Hn]; [apply H2; by rewrite Eq |]. rewrite lookup_insert_ne in Ht by done. by apply H2.
  - unfold asyncCompleteRpc_turn. case_if; [exists c; split; [done |]; split; [apply (inv_same l _ c); by try apply Hi | done] |].
    destruct got as [t |]; [| exists c; split; [done |]; split; [apply (inv_same l _ c); by try apply Hi | done]].
    destruct (complete_call_inv l t c Hi) as (c' & -> & Hi' & Es & _). exists c'. split; [done |]. split; [apply (inv_same l _ c'); by try apply Hi' | done].
  - unfold Client_Start. destruct (thread_op_exact (grpc_client_thread_ c) OpStart) as (t & Et & Hx); [by apply Hi | done |]. cbn [thread_op] in Et. rewrite Et.
    cbn. eexists. split; [done |]. split; [| done]. by apply (inv_same l _ c).
  - unfold Client_Stop. destruct (is_running_ (grpc_client_thread_ c)) eqn:Er; [| exists c; split; [done |]; split; [apply (inv_same l _ c); by try apply Hi | done]].
    assert (exists c', match last with Some t => complete_call t c | None => Some c end = Some c' /\ inv l c') as (c' & -> & Hi').
    { destruct last as [t |]; [| by exists c]. destruct (complete_call_inv l t c Hi) as (c' & -> & Hi' & _). by exists c'. }
    cbn [mbind option_bind]. eexists. split; [done |]. split; [| done].
    destruct (thread_op_exact (grpc_client_thread_ c') OpStop) as (t & Et & Hx); [by apply Hi' | done |]. cbn [thread_op] in Et. injection Et as <-.
    by apply (inv_same l _ c').
Qed.

Lemma client_events_inv l0 l (c : Client) :
  inv l0 c -> (if cq_shutdown c then forallb (fun e => negb (is_send e)) l else sends_before_stop l) = true ->
  exists c', client_events c l = Some c' /\ inv (l0 ++ l) c'.
Proof.
  revert l0 c. induction l as [| e l IH]; intros l0 c Hi Hl; [exists c; by rewrite app_nil_r |]. cbn [client_events].
  destruct (client_event_inv l0 e c Hi) as (c' & -> & Hi' & Hs).
  { intros He. destruct (cq_shutdown c) eqn:E; [| done]. cbn in Hl. by rewrite He in Hl. }
  cbn [mbind option_bind]. rewrite cons_middle, app_assoc. apply IH; [done |].
  destruct (is_stop e) eqn:Es.
  - destruct e; try done. destruct (cq_shutdown c); cbn [forallb is_send negb andb sends_before_stop] in Hl; destruct (cq_shutdown c'); try done.
    all: clear -Hl; induction l as [| e l IHl]; [done |]; cbn in Hl |- *; apply andb_true_iff in Hl as [He Hl]; destruct e; try done; by apply IHl.
  - rewrite Hs by done. destruct (cq_shutdown c); [by cbn in Hl; apply andb_true_iff in Hl as [_ Hl] |]. by destruct e.
Qed.

(** C27: whatever order gRPC completes the calls in, no event ends the process as long as no
    call is made after the stop; a call that was handed back is deleted once and had its
    callback, when it has one and its status is good, with its own response; the callback of
    a call that is still under way has not run. *)
Theorem calls_complete_once l :
  sends_before_stop l = true ->
  exists c, client_events Client_make l = Some c /\
    forall t call, calls c !! t = Some call ->
      if freed call then
        cq_ c !! t = None /\ exists k, CComplete t k ∈ l /\ results_of c t = match result_of call k with Some r => [(t, r)] | None => [] end
      else results_of c t = [] /\ is_Some (cq_ c !! t).
Proof.
  intros Hl. destruct (client_events_inv [] l Client_make Client_make_inv Hl) as (c & Hc & Hi). exists c. split; [done |].
  intros t call Ht. pose proof (i_calls _ _ Hi t call Ht) as Hok. unfold call_ok in Hok. destruct (freed call); [done |]. destruct Hok as (? & s & Hs & _). split; [done | by exists s].
Qed.

Definition quiescent (e : ClientEvent) : bool := match e with CSend _ _ _ | CStart => false | _ => true end.

(** A call that is under way when the client stops is never deleted, and its callback never
    runs, whatever gRPC does later. *)
Lemma stopped_calls_stay l (c : Client) :
  is_running_ (grpc_client_thread_ c) = false -> forallb quiescent l = true ->
  exists c', client_events c l = Some c' /\ calls c' = calls c /\ results c' = results c /\ dom (cq_ c') = dom (cq_ c) /\ is_running_ (grpc_client_thread_ c') = false.
Proof.
  revert c. induction l as [| e l IH]; intros c Hr Hl; [by exists c |]. cbn [forallb] in Hl. apply andb_true_iff in Hl as [He Hl].
  assert (exists c1, client_event c e = Some c1 /\ calls c1 = calls c /\ results c1 = results c /\ dom (cq_ c1) = dom (cq_ c) /\ is_running_ (grpc_client_thread_ c1) = false) as (c1 & E1 & Ec & Er & Eq & Ht).
  { destruct e as [| t k | got | | last]; try done; cbn [client_event].
    - destruct (cq_ c !! t) as [[| k'] |] eqn:E; try (by exists c). eexists. split; [done |]. cbn. split_and!; try done. rewrite dom_insert_L. apply elem_of_dom_2 in E. set_solver.
    - unfold asyncCompleteRpc_turn. rewrite Hr. by exists c.
    - unfold Client_Stop. rewrite Hr. by exists c. }
  cbn [client_events]. rewrite E1. cbn [mbind option_bind]. destruct (IH c1 Ht Hl) as (c' & -> & ? & ? & ? & ?). exists c'. split_and!; congruence.
Qed.

(** The destructor of a running client breaks the rule of the queue, that it is drained, exactly
    when a call is still under way after the last turn of the thread. *)
Theorem undrained_destroy last (c c' : Client) :
  flag_exact (grpc_client_thread_ c) -> is_running_ (grpc_client_thread_ c) = true -> Client_Stop last c = Some c' ->
  (Client_destroy last c = None <-> exists t, is_Some (cq_ c' !! t)).
Proof.
  intros Hx Hr Hst. unfold Client_destroy. rewrite Hst. cbn [mbind option_bind].
  assert (is_running_ (grpc_client_thread_ c') = false /\ joinable (grpc_client_thread_ c') = false) as [Hr' Hj'].
  { unfold Client_Stop in Hst. rewrite Hr in Hst. destruct (match last with Some t => complete_call t c | None => Some c end) as [c1 |] eqn:E1; [| done].
    cbn in Hst. injection Hst as <-. cbn. assert (grpc_client_thread_ c1 = grpc_client_thread_ c) as ->; [| unfold SafeThread.Stop; by rewrite Hr].
    destruct last as [t |]; [| by injection E1 as <-]. unfold complete_call in E1. destruct (cq_ c !! t) as [[| k] |]; try by injection E1 as <-.
    destruct (calls c !! t); [| done]. cbn in E1. destruct (freed _); [done |]. by injection E1 as <-. }
  unfold SafeThread.destroy, SafeThread.Stop. rewrite Hr', Hj'. cbn. destruct (decide (cq_ c' = ∅)) as [-> | Hn].
  - split; [done |]. intros [t [s Hs]]. by rewrite lookup_empty in Hs.
  - split; [| done]. intros _. destruct (map_choose _ Hn) as (t & s & Hs). exists t. by exists s.
Qed.
End Props.

(** ** A client with two calls *)

Definition demo_uuid : string := "0123abcd-0123-4567-89ab-0123456789ab".

Definition demo_events : list (ClientEvent Z) :=
  [CStart; CSend JsonResponseCall demo_uuid true; CSend SendCall demo_uuid false; CSend SendCall "x" false;
   CComplete 0 (mkCompletion true "reply" 0); CTurn (Some 0%nat); CTurn None].

Definition demo_client : Client Z := default Client_make (client_events Client_make demo_events).

Lemma calls_complete_once_witness :
  exists c, client_events Client_make demo_events = Some c /\
    forall t call, calls c !! t = Some call ->
      if freed call then
        cq_ c !! t = None /\ exists k, CComplete t k ∈ demo_events /\ results_of c t = match result_of call k with Some r => [(t, r)] | None => [] end
      else results_of c t = [] /\ is_Some (cq_ c !! t).
Proof. exact (calls_complete_once demo_events eq_refl). Defined.

Example demo_results : results demo_client = [(0%nat, JsonResult "reply")] /\ length (calls demo_client) = 2%nat.
Proof. by vm_compute. Qed.

Lemma undrained_destroy_witness :
  exists c', Client_Stop None demo_client = Some c' /\ (Client_destroy None demo_client = None <-> exists t, is_Some (cq_ c' !! t)).
Proof.
  exists (default Client_make (Client_Stop None demo_client)).
  assert (Client_Stop None demo_client = Some (default Client_make (Client_Stop None demo_client))) as E by (vm_compute; reflexivity).
  split; [exact E |]. exact (undrained_destroy None demo_client _ ltac:(vm_compute; reflexivity) ltac:(vm_compute; reflexivity) E).
Defined.
