(* ===== verification/IOStreamManager.v ===== *)
(** * The registry of queues

    [Management/manager/include/IOStreamManager.h], [src/IOStreamManager.cpp].  The queues and
    the dispatchers are shared objects: they live in [heap] and [dispatchers], and the
    tables and those who asked for a queue hold its address.  Every method holds the
    mutex from begin to end.  A key is a string or a number of any integral type.

    Properties of the registry of queues.  The five tables are one map from a type and a key to a queue; a queue is always of the
    element type that is asked for; the end wakes everybody who waits on a registered queue;
    when the registry is ready every camera has a queue of its own. *)

From Stdlib Require Import String.
From stdpp Require Import gmap.
From S2P Require Import Prelude Json SafeQueue SafeThread GrpcClient RtspServer.
Open Scope Z_scope.
Open Scope list_scope.

Inductive QueueType := SIO_EVENT | GRPC_CLIENT_RSP | GRPC_SERVER_REQ_JSON | GRPC_SERVER_REQ_IMAGE | RTSP_AVFRAME.

#[export] Instance QueueType_eq_dec : EqDecision QueueType.
Proof. solve_decision. Defined.

#[export] Instance QueueType_countable : Countable QueueType.
Proof.
  refine (inj_countable' (fun t => match t with SIO_EVENT => 0 | GRPC_CLIENT_RSP => 1 | GRPC_SERVER_REQ_JSON => 2 | GRPC_SERVER_REQ_IMAGE => 3 | RTSP_AVFRAME => 4 end)%nat
    (fun n => match n with 0 => SIO_EVENT | 1 => GRPC_CLIENT_RSP | 2 => GRPC_SERVER_REQ_JSON | 3 => GRPC_SERVER_REQ_IMAGE | _ => RTSP_AVFRAME end)%nat _).
  by intros [].
Defined.

Inductive Key := KeyString (s : string) | KeyInt (k : Z).

(** The element types of the queues: the template argument of [GetSafeQueue]. *)
Inductive Elem := EJson | EOnlyJson | ERawImages | EAVFrame.

#[export] Instance Elem_eq_dec : EqDecision Elem.
Proof. solve_decision. Defined.

Section IOStream.
Context {Frame Client : Type}.

Inductive AnyQueue :=
| JsonQueue (q : SafeQueue json)
| GrpcEventJsonQueue (q : SafeQueue EventDataOnlyJson)
| GrpcEventImageQueue (q : SafeQueue EventDataWithRawImages)
| AVFramePtrQueue (q : SafeQueue Frame).

Definition elem_of_queue (q : AnyQueue) : Elem :=
  match q with JsonQueue _ => EJson | GrpcEventJsonQueue _ => EOnlyJson | GrpcEventImageQueue _ => ERawImages | AVFramePtrQueue _ => EAVFrame end.

Definition terminate_queue (q : AnyQueue) : AnyQueue :=
  match q with
  | JsonQueue q => JsonQueue (terminate q)
  | GrpcEventJsonQueue q => GrpcEventJsonQueue (terminate q)
  | GrpcEventImageQueue q => GrpcEventImageQueue (terminate q)
  | AVFramePtrQueue q => AVFramePtrQueue (terminate q)
  end.

Definition is_terminated (q : AnyQueue) : bool :=
  match q with JsonQueue q => b_terminate q | GrpcEventJsonQueue q => b_terminate q | GrpcEventImageQueue q => b_terminate q | AVFramePtrQueue q => b_terminate q end.

(** [dispatchers]: the cleaner's thread of each. *)
Record IOStreamManager := mkIOStream {
  heap : list AnyQueue;
  dispatchers : list SafeThread;
  sio_event_internal_q_map_ : gmap string nat;
  grpc_client_respond_internal_q_map_ : gmap string nat;
  grpc_server_request_json_internal_q_map_ : gmap string nat;
  grpc_server_request_image_internal_q_map_ : gmap string nat;
  grpc_server_respond_dispatcher_map_ : gmap string nat;
  rtsp_proxy_frame_internal_q_map_ : gmap Z nat;
  is_ready_socket_io_pipeline_ : bool;
  is_ready_rtsp_pipeline_ : bool
}.

Definition IOStreamManager_make : IOStreamManager := mkIOStream [] [] ∅ ∅ ∅ ∅ ∅ ∅ false false.

Definition with_heap (m : IOStreamManager) h d : IOStreamManager :=
  mkIOStream h d (sio_event_internal_q_map_ m) (grpc_client_respond_internal_q_map_ m) (grpc_server_request_json_internal_q_map_ m)
    (grpc_server_request_image_internal_q_map_ m) (grpc_server_respond_dispatcher_map_ m) (rtsp_proxy_frame_internal_q_map_ m)
    (is_ready_socket_io_pipeline_ m) (is_ready_rtsp_pipeline_ m).

Definition with_sio_q (m : IOStreamManager) x : IOStreamManager :=
  mkIOStream (heap m) (dispatchers m) x (grpc_client_respond_internal_q_map_ m) (grpc_server_request_json_internal_q_map_ m)
    (grpc_server_request_image_internal_q_map_ m) (grpc_server_respond_dispatcher_map_ m) (rtsp_proxy_frame_internal_q_map_ m)
    (is_ready_socket_io_pipeline_ m) (is_ready_rtsp_pipeline_ m).

Definition with_client_q (m : IOStreamManager) x : IOStreamManager :=
  mkIOStream (heap m) (dispatchers m) (sio_event_internal_q_map_ m) x (grpc_server_request_json_internal_q_map_ m)
    (grpc_server_request_image_internal_q_map_ m) (grpc_server_respond_dispatcher_map_ m) (rtsp_proxy_frame_internal_q_map_ m)
    (is_ready_socket_io_pipeline_ m) (is_ready_rtsp_pipeline_ m).

Definition with_json_q (m : IOStreamManager) x : IOStreamManager :=
  mkIOStream (heap m) (dispatchers m) (sio_event_internal_q_map_ m) (grpc_client_respond_internal_q_map_ m) x
    (grpc_server_request_image_internal_q_map_ m) (grpc_server_respond_dispatcher_map_ m) (rtsp_proxy_frame_internal_q_map_ m)
    (is_ready_socket_io_pipeline_ m) (is_ready_rtsp_pipeline_ m).

Definition with_image_q (m : IOStreamManager) x : IOStreamManager :=
  mkIOStream (heap m) (dispatchers m) (sio_event_internal_q_map_ m) (grpc_client_respond_internal_q_map_ m) (grpc_server_request_json_internal_q_map_ m)
    x (grpc_server_respond_dispatcher_map_ m) (rtsp_proxy_frame_internal_q_map_ m) (is_ready_socket_io_pipeline_ m) (is_ready_rtsp_pipeline_ m).

Definition with_dispatcher (m : IOStreamManager) x : IOStreamManager :=
  mkIOStream (heap m) (dispatchers m) (sio_event_internal_q_map_ m) (grpc_client_respond_internal_q_map_ m) (grpc_server_request_json_internal_q_map_ m)
    (grpc_server_request_image_internal_q_map_ m) x (rtsp_proxy_frame_internal_q_map_ m) (is_ready_socket_io_pipeline_ m) (is_ready_rtsp_pipeline_ m).

Definition with_frame_q (m : IOStreamManager) x : IOStreamManager :=
  mkIOStream (heap m) (dispatchers m) (sio_event_internal_q_map_ m) (grpc_client_respond_internal_q_map_ m) (grpc_server_request_json_internal_q_map_ m)
    (grpc_server_request_image_internal_q_map_ m) (grpc_server_respond_dispatcher_map_ m) x (is_ready_socket_io_pipeline_ m) (is_ready_rtsp_pipeline_ m).

Definition with_ready (m : IOStreamManager) sio rtsp : IOStreamManager :=
  mkIOStream (heap m) (dispatchers m) (sio_event_internal_q_map_ m) (grpc_client_respond_internal_q_map_ m) (grpc_server_request_json_internal_q_map_ m)
    (grpc_server_request_image_internal_q_map_ m) (grpc_server_respond_dispatcher_map_ m) (rtsp_proxy_frame_internal_q_map_ m) sio rtsp.

(** ** Queues *)

(** The old queue of the key, if any, is only let go. *)
Definition RegisterSafeQueue (type : QueueType) (key : Key) (m : IOStreamManager) : bool * IOStreamManager :=
  let a := length (heap m) in
  let put (q : AnyQueue) := with_heap m (heap m ++ [q]) (dispatchers m) in
  match key with
  | KeyString k =>
      match type with
      | SIO_EVENT => (true, with_sio_q (put (JsonQueue SafeQueue_make)) (<[k := a]> (sio_event_internal_q_map_ m)))
      | GRPC_CLIENT_RSP => (true, with_client_q (put (JsonQueue SafeQueue_make)) (<[k := a]> (grpc_client_respond_internal_q_map_ m)))
      | GRPC_SERVER_REQ_JSON => (true, with_json_q (put (GrpcEventJsonQueue SafeQueue_make)) (<[k := a]> (grpc_server_request_json_internal_q_map_ m)))
      | GRPC_SERVER_REQ_IMAGE => (true, with_image_q (put (GrpcEventImageQueue SafeQueue_make)) (<[k := a]> (grpc_server_request_image_internal_q_map_ m)))
      | RTSP_AVFRAME => (false, m)
      end
  | KeyInt key =>
      let k := i32 key in
      match type with
      | RTSP_AVFRAME => (true, with_frame_q (put (AVFramePtrQueue SafeQueue_make)) (<[k := a]> (rtsp_proxy_frame_internal_q_map_ m)))
      | _ => (false, m)
      end
  end.

(** The variant: no alternative, or a pointer to queues of one element type. *)
Definition GetSafeQueueAuto (type : QueueType) (key : Key) (m : IOStreamManager) : option (Elem * nat) :=
  match key with
  | KeyString k =>
      match type with
      | SIO_EVENT => a ← sio_event_internal_q_map_ m !! k; Some (EJson, a)
      | GRPC_CLIENT_RSP => a ← grpc_client_respond_internal_q_map_ m !! k; Some (EJson, a)
      | GRPC_SERVER_REQ_JSON => a ← grpc_server_request_json_internal_q_map_ m !! k; Some (EOnlyJson, a)
      | GRPC_SERVER_REQ_IMAGE => a ← grpc_server_request_image_internal_q_map_ m !! k; Some (ERawImages, a)
      | RTSP_AVFRAME => None
      end
  | KeyInt key =>
      let k := i32 key in
      match type with
      | RTSP_AVFRAME => a ← rtsp_proxy_frame_internal_q_map_ m !! k; Some (EAVFrame, a)
      | _ => None
      end
  end.

Definition GetSafeQueueAs (e : Elem) (variant : option (Elem * nat)) : option nat :=
  match variant with Some (e', a) => if decide (e' = e) then Some a else None | None => None end.

Definition GetSafeQueue (e : Elem) (type : QueueType) (key : Key) (m : IOStreamManager) : option nat :=
  GetSafeQueueAs e (GetSafeQueueAuto type key m).

(** Whether a key was erased, and the table without it. *)
Definition erase {K} `{Countable K} (k : K) (t : gmap K nat) : bool * gmap K nat := (bool_decide (is_Some (t !! k)), delete k t).

Definition UnregisterSafeQueue (type : QueueType) (key : Key) (m : IOStreamManager) : bool * IOStreamManager :=
  match key with
  | KeyString k =>
      match type with
      | SIO_EVENT => let '(b, t) := erase k (sio_event_internal_q_map_ m) in (b, with_sio_q m t)
      | GRPC_CLIENT_RSP => let '(b, t) := erase k (grpc_client_respond_internal_q_map_ m) in (b, with_client_q m t)
      | GRPC_SERVER_REQ_JSON => let '(b, t) := erase k (grpc_server_request_json_internal_q_map_ m) in (b, with_json_q m t)
      | GRPC_SERVER_REQ_IMAGE => let '(b, t) := erase k (grpc_server_request_image_internal_q_map_ m) in (b, with_image_q m t)
      | RTSP_AVFRAME => (false, m)
      end
  | KeyInt key =>
      let k := i32 key in
      match type with
      | RTSP_AVFRAME => let '(b, t) := erase k (rtsp_proxy_frame_internal_q_map_ m) in (b, with_frame_q m t)
      | _ => (false, m)
      end
  end.

(** ** Dispatchers *)

Definition RegisterDispatcher (key : Key) (m : IOStreamManager) : bool * IOStreamManager :=
  match key with
  | KeyString k =>
      (true, with_dispatcher (with_heap m (heap m) (dispatchers m ++ [SafeThread_make]))
               (<[k := length (dispatchers m)]> (grpc_server_respond_dispatcher_map_ m)))
  | KeyInt _ => (false, m)
  end.

Definition GetDispatcher (key : string) (m : IOStreamManager) : option nat := grpc_server_respond_dispatcher_map_ m !! key.

(** ** The end *)

(** The loop over one table. *)
Definition for_all {K A} `{Countable K} (f : A -> A) (t : gmap K nat) (h : list A) : list A :=
  foldl (fun h p => alter f p.2 h) h (map_to_list t).

Definition ClearAll (m : IOStreamManager) : IOStreamManager :=
  let h := for_all terminate_queue (sio_event_internal_q_map_ m) (heap m) in
  let h := for_all terminate_queue (grpc_client_respond_internal_q_map_ m) h in
  let h := for_all terminate_queue (grpc_server_request_json_internal_q_map_ m) h in
  let h := for_all terminate_queue (grpc_server_request_image_internal_q_map_ m) h in
  let d := for_all SafeThread.Stop (grpc_server_respond_dispatcher_map_ m) (dispatchers m) in
  let h := for_all terminate_queue (rtsp_proxy_frame_internal_q_map_ m) h in
  mkIOStream h d ∅ ∅ ∅ ∅ ∅ ∅ (is_ready_socket_io_pipeline_ m) (is_ready_rtsp_pipeline_ m).

(** ** The queues of the cameras *)

Definition register_proxies (unit_ids : list Z) (m : IOStreamManager) : gset Z * IOStreamManager :=
  foldl (fun '(success_set, m) id =>
    let '(ok, m) := RegisterSafeQueue RTSP_AVFRAME (KeyInt id) m in
    (if ok then {[id]} ∪ success_set else success_set, m)) (∅, m) unit_ids.

Definition RegisterRtspProxies (unit_set : gset Z) (m : IOStreamManager) : gset Z * IOStreamManager := register_proxies (elements unit_set) m.

Definition UnregisterRtspProxies (unit_set : gset Z) (m : IOStreamManager) : gset Z * IOStreamManager :=
  foldl (fun '(success_set, m) id =>
    let '(ok, m) := UnregisterSafeQueue RTSP_AVFRAME (KeyInt id) m in
    (if ok then {[id]} ∪ success_set else success_set, m)) (∅, m) (elements unit_set).

(** What the network manager gives out; the setting manager is the program's only one. *)
Record Handlers := mkHandlers { api_handler_ : bool; sio_handler_ : bool; rtsp_handler_ : option (RtspHandler Client) }.

Definition ReadyImpl_SIO (network_manager : option Handlers) (m : IOStreamManager) : bool * IOStreamManager :=
  match network_manager with
  | None => (false, m)
  | Some n => if negb (api_handler_ n) || negb (sio_handler_ n) then (false, m) else (true, with_ready m true (is_ready_rtsp_pipeline_ m))
  end.

(** [camera_ids]: of the setting manager, when there is one. *)
Definition ReadyImpl_RTSP (camera_ids : option (gset Z)) (network_manager : option Handlers) (m : IOStreamManager) : bool * IOStreamManager :=
  match network_manager with
  | None => (false, m)
  | Some n =>
      match rtsp_handler_ n with
      | None => (false, m)
      | Some h =>
          if negb (IsProxySettingStaticUseInitData h) then (true, m)
          else match camera_ids with
               | None => (false, m)
               | Some mvas_side =>
                   let register_proxy_ids := GetProxyIDs h ∪ mvas_side in
                   let '(registed, m) := RegisterRtspProxies register_proxy_ids m in
                   if decide (registed = register_proxy_ids) then (true, with_ready m (is_ready_socket_io_pipeline_ m) true) else (false, m)
               end
      end
  end.

Definition Ready (camera_ids : option (gset Z)) (network_manager : option Handlers) (m : IOStreamManager) : bool * IOStreamManager :=
  match network_manager with
  | None => (false, m)
  | Some n =>
      let '(ok, m) := if sio_handler_ n && negb (is_ready_socket_io_pipeline_ m) then ReadyImpl_SIO network_manager m else (true, m) in
      if negb ok then (false, m)
      else if match rtsp_handler_ n with Some _ => negb (is_ready_rtsp_pipeline_ m) | None => false end
           then ReadyImpl_RTSP camera_ids network_manager m else (true, m)
  end.
End IOStream.

Arguments AnyQueue : clear implicits.
Arguments IOStreamManager : clear implicits.
Arguments Handlers : clear implicits.

(** ** One map *)

(** The key as the tables keep it. *)
Definition norm (key : Key) : Key := match key with KeyString s => KeyString s | KeyInt k => KeyInt (i32 k) end.

Definition supported (type : QueueType) (key : Key) : bool :=
  match type, key with RTSP_AVFRAME, KeyInt _ => true | RTSP_AVFRAME, KeyString _ => false | _, KeyString _ => true | _, KeyInt _ => false end.

Definition elem_of_type (type : QueueType) : Elem :=
  match type with SIO_EVENT | GRPC_CLIENT_RSP => EJson | GRPC_SERVER_REQ_JSON => EOnlyJson | GRPC_SERVER_REQ_IMAGE => ERawImages | RTSP_AVFRAME => EAVFrame end.

#[export] Instance Key_eq_dec : EqDecision Key.
Proof. solve_decision. Defined.

#[export] Instance Key_countable : Countable Key.
Proof.
  refine (inj_countable' (fun k => match k with KeyString s => inl s | KeyInt z => inr z end)
    (fun s => match s with inl s => KeyString s | inr z => KeyInt z end) _).
  by intros [].
Defined.

(** What a client of the registry sees: addresses by type and key, and the next address. *)
Definition Registry : Type := gmap (QueueType * Key) nat * nat.

Inductive RegistryOp := OpRegister (type : QueueType) (key : Key) | OpUnregister (type : QueueType) (key : Key)
| OpGet (e : Elem) (type : QueueType) (key : Key) | OpClearAll.

Inductive RegistryOut := OutBool (b : bool) | OutQueue (a : option nat) | OutNone.

Definition spec_op (s : Registry) (op : RegistryOp) : RegistryOut * Registry :=
  let '(t, next) := s in
  match op with
  | OpRegister type key => if supported type key then (OutBool true, (<[(type, norm key) := next]> t, S next)) else (OutBool false, s)
  | OpUnregister type key => (OutBool (bool_decide (is_Some (t !! (type, norm key)))), (delete (type, norm key) t, next))
  | OpGet e type key => (OutQueue (if decide (elem_of_type type = e) then t !! (type, norm key) else None), s)
  | OpClearAll => (OutNone, (∅, next))
  end.

Fixpoint spec_run (s : Registry) (ops : list RegistryOp) : list RegistryOut :=
  match ops with
  | [] => []
  | op :: ops => let '(out, s) := spec_op s op in out :: spec_run s ops
  end.

Section Props.
Context {Frame Client : Type}.
Local Abbreviation Manager := (IOStreamManager Frame).

Definition registry_op (m : Manager) (op : RegistryOp) : RegistryOut * Manager :=
  match op with
  | OpRegister type key => let '(b, m) := RegisterSafeQueue type key m in (OutBool b, m)
  | OpUnregister type key => let '(b, m) := UnregisterSafeQueue type key m in (OutBool b, m)
  | OpGet e type key => (OutQueue (GetSafeQueue e type key m), m)
  | OpClearAll => (OutNone, ClearAll m)
  end.

Fixpoint registry_run (m : Manager) (ops : list RegistryOp) : list RegistryOut :=
  match ops with
  | [] => []
  | op :: ops => let '(out, m) := registry_op m op in out :: registry_run m ops
  end.

(** The address that a type and a key lead to. *)
Definition lookup_queue (m : Manager) (type : QueueType) (key : Key) : option nat := snd <$> GetSafeQueueAuto type key m.

Lemma GetSafeQueueAuto_lookup type key (m : Manager) : GetSafeQueueAuto type key m = (fun a => (elem_of_type type, a)) <$> lookup_queue m type key.
Proof. unfold lookup_queue, GetSafeQueueAuto. destruct type, key; cbn; try done; by destruct (_ !! _). Qed.

Lemma GetSafeQueue_lookup e type key (m : Manager) : GetSafeQueue e type key m = if decide (elem_of_type type = e) then lookup_queue m type key else None.
Proof. unfold GetSafeQueue. rewrite GetSafeQueueAuto_lookup. destruct (lookup_queue m type key); cbn; [done | by case_decide]. Qed.

Lemma unsupported_lookup type key (m : Manager) : supported type key = false -> lookup_queue m type key = None.
Proof. by destruct type, key. Qed.

Definition fresh_queue (type : QueueType) : AnyQueue Frame :=
  match type with
  | SIO_EVENT | GRPC_CLIENT_RSP => JsonQueue SafeQueue_make
  | GRPC_SERVER_REQ_JSON => GrpcEventJsonQueue SafeQueue_make
  | GRPC_SERVER_REQ_IMAGE => GrpcEventImageQueue SafeQueue_make
  | RTSP_AVFRAME => AVFramePtrQueue SafeQueue_make
  end.

Lemma register_spec type key (m : Manager) :
  exists m', RegisterSafeQueue type key m = (supported type key, m') /\
    if supported type key then
      heap m' = heap m ++ [fresh_queue type] /\
      forall t k, lookup_queue m' t k = if decide (t = type /\ norm k = norm key) then Some (length (heap m)) else lookup_queue m t k
    else m' = m.
Proof.
  destruct type, key as [s | z]; (eexists; split; [reflexivity |]); cbn [supported]; try done; (split; [reflexivity |]); intros t k;
    (case_decide as Hd; [destruct Hd as [-> Hk]; destruct k; cbn in Hk; try done; injection Hk as Hk; unfold lookup_queue; cbn; rewrite ?Hk, lookup_insert_eq; done |]);
    unfold lookup_queue; destruct t, k; cbn; try done; rewrite lookup_insert_ne; try done; intros Hk; apply Hd; split; try done; cbn; congruence.
Qed.

Lemma unregister_spec type key (m : Manager) :
  exists m', UnregisterSafeQueue type key m = (bool_decide (is_Some (lookup_queue m type key)), m') /\ heap m' = heap m /\
    forall t k, lookup_queue m' t k = if decide (t = type /\ norm k = norm key) then None else lookup_queue m t k.
Proof.
  assert (forall (o : option nat) (e : Elem), bool_decide (is_Some o) = bool_decide (is_Some (snd <$> (a ← o; Some (e, a))))) as Hb by (by intros []).
  destruct type, key as [s | z]; cbn [UnregisterSafeQueue erase]; (eexists; split; [first [reflexivity | by apply f_equal2; [apply Hb | reflexivity]] |]); (split; [reflexivity |]); intros t k;
    (case_decide as Hd; [destruct Hd as [-> Hk]; destruct k; cbn in Hk; try done; injection Hk as Hk; unfold lookup_queue; cbn; try rewrite Hk, lookup_delete_eq; done |]);
    unfold lookup_queue; destruct t, k; cbn; try done; rewrite lookup_delete_ne; try done; intros Hk; apply Hd; split; try done; cbn; congruence.
Qed.

(** ** The loops of [ClearAll] *)

Definition alter_all {A} (f : A -> A) (l : list nat) (h : list A) : list A := foldl (fun h a => alter f a h) h l.

Lemma for_all_alter {K A} `{Countable K} (f : A -> A) (t : gmap K nat) (h : list A) : for_all f t h = alter_all f (map_to_list t).*2 h.
Proof. unfold for_all, alter_all. generalize (map_to_list t) as l. intros l. revert h. induction l as [| p l IH]; intros h; [done | apply IH]. Qed.

Lemma alter_all_app {A} (f : A -> A) l1 l2 (h : list A) : alter_all f l2 (alter_all f l1 h) = alter_all f (l1 ++ l2) h.
Proof. unfold alter_all. by rewrite foldl_app. Qed.

Lemma alter_all_lookup {A} (f : A -> A) l (h : list A) (a : nat) :
  (forall x, f (f x) = f x) -> alter_all f l h !! a = if decide (a ∈ l) then f <$> h !! a else h !! a.
Proof.
  intros Hf. revert h. induction l as [| b l IH]; intros h; cbn [alter_all foldl]; [by case_decide as H; [apply elem_of_nil in H |] |].
  change (foldl (fun h a => alter f a h) (alter f b h) l) with (alter_all f l (alter f b h)). rewrite IH.
  destruct (decide (a = b)) as [-> | Hn].
  - rewrite list_lookup_alter_eq, (decide_True (P := b ∈ b :: l)) by left. case_decide; [| done]. destruct (h !! b); cbn; by rewrite ?Hf.
  - rewrite list_lookup_alter_ne by done. destruct (decide (a ∈ l)); [by rewrite decide_True by (by right) |]. rewrite decide_False; [done |]. by intros [? | ?]%elem_of_cons.
Qed.

Lemma alter_all_length {A} (f : A -> A) l (h : list A) : length (alter_all f l h) = length h.
Proof. revert h. induction l as [| a l IH]; intros h; [done |]. cbn [alter_all foldl]. etrans; [apply IH | apply length_alter]. Qed.

(** The addresses in the tables. *)
Definition registered (m : Manager) : list nat :=
  (map_to_list (sio_event_internal_q_map_ m)).*2 ++ (map_to_list (grpc_client_respond_internal_q_map_ m)).*2 ++
  (map_to_list (grpc_server_request_json_internal_q_map_ m)).*2 ++ (map_to_list (grpc_server_request_image_internal_q_map_ m)).*2 ++
  (map_to_list (rtsp_proxy_frame_internal_q_map_ m)).*2.

Lemma ClearAll_heap (m : Manager) : heap (ClearAll m) = alter_all terminate_queue (registered m) (heap m).
Proof. unfold ClearAll, registered. cbn [heap]. rewrite !for_all_alter, !alter_all_app. by rewrite <- ?app_assoc. Qed.

Lemma ClearAll_length (m : Manager) : length (heap (ClearAll m)) = length (heap m).
Proof. by rewrite ClearAll_heap, alter_all_length. Qed.

Lemma elem_of_table {K} `{Countable K} (t : gmap K nat) a : a ∈ (map_to_list t).*2 <-> exists k, t !! k = Some a.
Proof.
  rewrite list_elem_of_fmap. split; [intros ([k b] & -> & Hin); exists k; by apply elem_of_map_to_list in Hin |].
  intros [k Hk]. exists (k, a). split; [done | by apply elem_of_map_to_list].
Qed.

(** The keys of the cameras are numbers of 32 bits. *)
Definition keys_in_range (m : Manager) : Prop := forall k a, rtsp_proxy_frame_internal_q_map_ m !! k = Some a -> i32 k = k.

Lemma registered_lookup (m : Manager) a : keys_in_range m -> a ∈ registered m <-> exists t k, lookup_queue m t k = Some a.
Proof.
  intros Hr. unfold registered. rewrite !elem_of_app, !elem_of_table. split.
  - intros [[k Hk] | [[k Hk] | [[k Hk] | [[k Hk] | [k Hk]]]]].
    + exists SIO_EVENT, (KeyString k). unfold lookup_queue. cbn. by rewrite Hk.
    + exists GRPC_CLIENT_RSP, (KeyString k). unfold lookup_queue. cbn. by rewrite Hk.
    + exists GRPC_SERVER_REQ_JSON, (KeyString k). unfold lookup_queue. cbn. by rewrite Hk.
    + exists GRPC_SERVER_REQ_IMAGE, (KeyString k). unfold lookup_queue. cbn. by rewrite Hk.
    + exists RTSP_AVFRAME, (KeyInt k). unfold lookup_queue. cbn. by rewrite (Hr k a Hk), Hk.
  - intros (t & k & Hk). unfold lookup_queue in Hk. destruct t, k as [k | k]; cbn in Hk; try done; destruct (_ !! _) eqn:E; cbn in Hk; try done; injection Hk as ->; eauto 8.
Qed.

Lemma terminate_queue_twice (q : AnyQueue Frame) : terminate_queue (terminate_queue q) = terminate_queue q.
Proof. by destruct q. Qed.

(** ** The theorems *)

(** The map that a client sees is the tables. *)
Definition shows (m : Manager) (s : Registry) : Prop := (forall t k, lookup_queue m t k = s.1 !! (t, norm k)) /\ s.2 = length (heap m).

Lemma op_shows (m : Manager) s op : shows m s -> fst (registry_op m op) = fst (spec_op s op) /\ shows (snd (registry_op m op)) (snd (spec_op s op)).
Proof.
  destruct s as [t next]. intros [Hl Hn]. cbn [fst snd] in Hl, Hn. destruct op as [type key | type key | e type key |]; cbn [registry_op spec_op].
  - destruct (register_spec type key m) as (m' & -> & Hm). destruct (supported type key); cbn [fst snd]; [| by subst m'].
    destruct Hm as [Hh Hq]. split; [done |]. split; cbn [fst snd]; [| rewrite Hh, length_app; cbn; lia].
    intros t' k. rewrite Hq. subst next. case_decide as Hd.
    + destruct Hd as [-> ->]. by rewrite lookup_insert_eq.
    + rewrite lookup_insert_ne; [apply Hl | intros [= <- Hk]; by apply Hd].
  - destruct (unregister_spec type key m) as (m' & -> & Hh & Hq). cbn [fst snd]. split; [by rewrite Hl |]. split; cbn [fst snd]; [| by rewrite Hh].
    intros t' k. rewrite Hq. case_decide as Hd; [destruct Hd as [-> ->]; by rewrite lookup_delete_eq |].
    rewrite lookup_delete_ne; [apply Hl | intros [= <- Hk]; by apply Hd].
  - rewrite GetSafeQueue_lookup, Hl. by split.
  - cbn [fst snd]. split; [done |]. split; cbn [fst snd]; [| by rewrite ClearAll_length]. intros t' k. rewrite lookup_empty. by destruct t', k.
Qed.

(** C28: the registry is one map from a type and a key to a queue: every sequence of
    registrations, removals, searches and clearings gives the answers of that map, where a key
    that does not fit its type, or an element type that does not, finds nothing. *)
Theorem registry_refines_map ops : registry_run IOStreamManager_make ops = spec_run (∅, 0%nat) ops.
Proof.
  assert (forall (m : Manager) s, shows m s -> registry_run m ops = spec_run s ops) as Hg.
  { induction ops as [| op ops IH]; intros m s Hs; [done |]. cbn [registry_run spec_run]. destruct (op_shows m s op Hs) as [Ho Hs'].
    destruct (registry_op m op) as [o m'], (spec_op s op) as [o' s']. cbn [fst snd] in *. subst o'. f_equal. by apply IH. }
  apply Hg. split; [| done]. intros t k. cbn [fst]. rewrite lookup_empty. by destruct t, k.
Qed.

(** The queue of a type has the type's elements. *)
Definition typed (m : Manager) : Prop := forall t k a, lookup_queue m t k = Some a -> exists q, heap m !! a = Some q /\ elem_of_queue q = elem_of_type t.

Lemma op_typed (m : Manager) op : typed m -> typed (snd (registry_op m op)).
Proof.
  intros Hm. destruct op as [type key | type key | e type key |]; cbn [registry_op].
  - destruct (register_spec type key m) as (m' & -> & Hs). cbn [snd]. destruct (supported type key); [| by subst m']. destruct Hs as [Hh Hq].
    intros t k a. rewrite Hq, Hh. case_decide as Hd.
    + intros [= <-]. destruct Hd as [-> _]. exists (fresh_queue type). rewrite lookup_app_r, Nat.sub_diag by lia. split; [done |]. by destruct type.
    + intros Ha. destruct (Hm t k a Ha) as (q & Hq' & He). exists q. split; [by apply lookup_app_l_Some | done].
  - destruct (unregister_spec type key m) as (m' & -> & Hh & Hq). cbn [snd]. intros t k a. rewrite Hq, Hh. case_decide; [done |]. apply Hm.
  - done.
  - intros t k a. by destruct t, k.
Qed.

(** What a thread that was given a queue finds at its address. *)
Lemma GetSafeQueue_typed ops e type key a :
  let m := foldl (fun m op => snd (registry_op m op)) IOStreamManager_make ops in
  GetSafeQueue e type key m = Some a -> exists q, heap m !! a = Some q /\ elem_of_queue q = e.
Proof.
  intros m. assert (typed m) as Hm.
  { unfold m. assert (typed IOStreamManager_make) as H0 by (intros t k a'; by destruct t, k). revert H0. generalize (@IOStreamManager_make Frame) as m0.
    induction ops as [| op ops IH]; intros m0 H0; [done |]. cbn [foldl]. apply IH. by apply op_typed. }
  rewrite GetSafeQueue_lookup. case_decide as He; [| done]. intros Ha. destruct (Hm _ _ _ Ha) as (q & Hq & Hqe). exists q. split; [done | congruence].
Qed.

Lemma op_keys (m : Manager) op : keys_in_range m -> keys_in_range (snd (registry_op m op)).
Proof.
  assert (forall z, i32 (i32 z) = i32 z) as Hi by (intros z; apply i32_id, i32_range).
  intros Hm. destruct op as [type key | type key | e type key |]; cbn [registry_op]; try done.
  - destruct type, key; cbn; try done. intros k' a Ha. cbn [rtsp_proxy_frame_internal_q_map_ with_frame_q] in Ha. apply lookup_insert_Some in Ha as [[<- _] | [_ Ha]]; [apply Hi | by eapply Hm].
  - destruct type, key; cbn; try done. intros k' a Ha. cbn [rtsp_proxy_frame_internal_q_map_ with_frame_q] in Ha. apply lookup_delete_Some in Ha as [_ Ha]. by eapply Hm.
Qed.

Lemma run_keys ops : keys_in_range (foldl (fun m op => snd (registry_op m op)) IOStreamManager_make ops).
Proof.
  assert (keys_in_range IOStreamManager_make) as H0 by done. revert H0. generalize (@IOStreamManager_make Frame) as m0.
  induction ops as [| op ops IH]; intros m0 H0; [done |]. cbn [foldl]. apply IH. by apply op_keys.
Qed.

Lemma ClearAll_empty (m : Manager) t k e : GetSafeQueue e t k (ClearAll m) = None.
Proof. rewrite GetSafeQueue_lookup. case_decide; [| done]. by destruct t, k. Qed.

(** The end reaches everyone: [ClearAll] terminates every registered queue, so that nobody
    who holds one waits on it any more, leaves the others as they are, stops the cleaner of every
    dispatcher, and leaves nothing to be found. *)
Theorem clear_all_wakes_everyone ops :
  let m := foldl (fun m op => snd (registry_op m op)) IOStreamManager_make ops in
  (forall t k a q, lookup_queue m t k = Some a -> heap m !! a = Some q -> heap (ClearAll m) !! a = Some (terminate_queue q)) /\
  (forall a, (forall t k, lookup_queue m t k <> Some a) -> heap (ClearAll m) !! a = heap m !! a) /\
  (forall key a th, GetDispatcher key m = Some a -> dispatchers m !! a = Some th -> dispatchers (ClearAll m) !! a = Some (SafeThread.Stop th)) /\
  (forall t k e, GetSafeQueue e t k (ClearAll m) = None).
Proof.
  intros m. pose proof (run_keys ops) as Hk. fold m in Hk.
  assert (forall th, SafeThread.Stop (SafeThread.Stop th) = SafeThread.Stop th) as Hth by (intros [[] j r c n]; reflexivity).
  rewrite ClearAll_heap. split_and!.
  - intros t k a q Hl Hq. rewrite alter_all_lookup, decide_True, Hq; [done | apply registered_lookup; [done | by exists t, k] | apply terminate_queue_twice].
  - intros a Hn. rewrite alter_all_lookup, decide_False; [done | | apply terminate_queue_twice]. intros (t & k & Ha)%registered_lookup; [| done]. by apply (Hn t k).
  - intros key a th Hg Hd. unfold ClearAll. cbn [dispatchers]. rewrite for_all_alter, alter_all_lookup, decide_True, Hd; [done | apply elem_of_table; by exists key | done].
  - intros t k e. apply ClearAll_empty.
Qed.

(** ** Ready *)

Lemma register_proxies_spec l (m : Manager) :
  NoDup l -> Forall in_i32 l ->
  exists m', register_proxies l m = (list_to_set l, m') /\ length (heap m') = (length (heap m) + length l)%nat /\ forall i id, l !! i = Some id -> lookup_queue m' RTSP_AVFRAME (KeyInt id) = Some (length (heap m) + i)%nat /\ heap m' !! (length (heap m) + i)%nat = Some (AVFramePtrQueue SafeQueue_make).
Proof.
  induction l as [| x l IH] using rev_ind; intros Hd Hr; [exists m; split; [done |]; split; [cbn; lia | done] |].
  apply NoDup_app in Hd as (Hd & Hx & _). apply Forall_app in Hr as [Hr Hrx]. apply Forall_cons in Hrx as [Hrx _]. destruct (IH Hd Hr) as (m1 & E1 & Hlen & Hq).
  unfold register_proxies in *. rewrite foldl_app, E1. cbn [foldl]. destruct (register_spec RTSP_AVFRAME (KeyInt x) m1) as (m2 & -> & Hh & Hq2). cbn [supported].
  exists m2. split; [f_equal; set_solver |]. rewrite Hh, !length_app, Hlen. cbn [length]. split; [lia |].
  intros i id [Hi | [Hi Hid]]%lookup_app_Some.
  - destruct (Hq i id Hi) as [H1 H2]. rewrite Hq2. split; [| by apply lookup_app_l_Some]. case_decide as Hdx; [| done].
    destruct Hdx as [_ Hk]. cbn in Hk. injection Hk as Hk. pose proof (Forall_lookup_1 _ _ _ _ Hr Hi). rewrite !i32_id in Hk by done. subst id.
    exfalso. apply (Hx x); [by eapply list_elem_of_lookup_2 | by left].
  - destruct (i - length l)%nat eqn:Ei; [| by destruct n]. injection Hid as <-. assert (i = length l) as -> by lia. rewrite Hq2, decide_True by done.
    split; [by rewrite Hlen |]. rewrite lookup_app_r by lia. by replace (length (heap m) + length l - length (heap m1))%nat with O by lia.
Qed.

(** Ready means ready: with its handlers there, [Ready] succeeds, and then every camera that
    the settings or the handler of the streams know has its own queue of frames, empty and
    open. *)
Lemma ready_gives_queues cams (n : Handlers Client) h (m : Manager) :
  api_handler_ n = true -> sio_handler_ n = true -> rtsp_handler_ n = Some h -> IsProxySettingStaticUseInitData h = true ->
  is_ready_rtsp_pipeline_ m = false -> (forall id, id ∈ GetProxyIDs h ∪ cams -> in_i32 id) ->
  exists m', Ready (Some cams) (Some n) m = (true, m') /\ forall id, id ∈ GetProxyIDs h ∪ cams ->
      exists a, GetSafeQueue EAVFrame RTSP_AVFRAME (KeyInt id) m' = Some a /\ heap m' !! a = Some (AVFramePtrQueue SafeQueue_make) /\ forall id', id' ∈ GetProxyIDs h ∪ cams -> GetSafeQueue EAVFrame RTSP_AVFRAME (KeyInt id') m' = Some a -> id' = id.
Proof.
  intros Ha Hs Hh Hst Hr Hin. set (ids := GetProxyIDs h ∪ cams) in *.
  assert (exists m1, (if sio_handler_ n && negb (is_ready_socket_io_pipeline_ m) then ReadyImpl_SIO (Some n) m else (true, m)) = (true, m1) /\ is_ready_rtsp_pipeline_ m1 = false) as (m1 & E1 & Hr1).
  { rewrite Hs. destruct (is_ready_socket_io_pipeline_ m); cbn; [by exists m |]. rewrite Ha, Hs. cbn. by eexists. }
  unfold Ready. rewrite E1, Hh, Hr1. cbn [negb]. unfold ReadyImpl_RTSP. rewrite Hh, Hst. cbn [negb]. fold ids. unfold RegisterRtspProxies.
  destruct (register_proxies_spec (elements ids) m1) as (m2 & -> & Hlen & Hq); [apply NoDup_elements | apply Forall_forall; intros id Hid; apply Hin; by apply elem_of_elements |].
  rewrite decide_True by apply list_to_set_elements_L. eexists. split; [reflexivity |].
  assert (forall id, GetSafeQueue EAVFrame RTSP_AVFRAME (KeyInt id) (with_ready m2 (is_ready_socket_io_pipeline_ m2) true) = lookup_queue m2 RTSP_AVFRAME (KeyInt id)) as Hg by (intros id; by rewrite GetSafeQueue_lookup).
  intros id Hid. apply elem_of_elements in Hid. apply list_elem_of_lookup_1 in Hid as [i Hi]. destruct (Hq i id Hi) as [H1 H2]. eexists. rewrite Hg. split; [exact H1 |]. split; [exact H2 |].
  intros id' Hid' Ha'. apply elem_of_elements in Hid'. apply list_elem_of_lookup_1 in Hid' as [j Hj]. rewrite Hg in Ha'. destruct (Hq j id' Hj) as [H1' _]. rewrite H1' in Ha'.
  injection Ha' as Ha'. assert (j = i) as -> by lia. congruence.
Qed.
End Props.

(** ** Two cameras *)

Definition demo_handlers : Handlers Z := mkHandlers true true (Some (RegisterClient 7 (Some 70) (RtspHandler_make true))).

Lemma demo_ready :
  exists m', Ready (Some {[3; 7]}) (Some demo_handlers) (IOStreamManager_make (Frame := Z)) = (true, m') /\ exists a, GetSafeQueue EAVFrame RTSP_AVFRAME (KeyInt 7) m' = Some a.
Proof.
  assert (forall id, id ∈ GetProxyIDs (RegisterClient 7 (Some 70) (RtspHandler_make true)) ∪ {[3; 7]} -> in_i32 id) as Hr.
  { intros id Hid. assert (id = 7 \/ id = 3 \/ id = 7) as Hc by (apply elem_of_union in Hid as [Hid | Hid]; [left; cbn in Hid; rewrite dom_singleton_L in Hid || idtac; set_solver | set_solver]). unfold in_i32. lia. }
  destruct (ready_gives_queues {[3; 7]} demo_handlers (RegisterClient 7 (Some 70) (RtspHandler_make true)) (IOStreamManager_make (Frame := Z))
    eq_refl eq_refl eq_refl eq_refl eq_refl Hr) as (m' & E & Hq).
  exists m'. split; [exact E |]. destruct (Hq 7 ltac:(set_solver)) as (a & Ha & _). exists a. exact Ha.
Defined.
