(* ===== verification/Logger.v ===== *)
(** * Logging

    [BasicLibs/core/logger]: the identifiers that tie the lines of one event together
    ([CorrelationContext]), the lines themselves and the loggers that write them
    ([MgenLogger]).  Clocks, the file system and the console are arguments and outputs.
    A line is read back by a small reader of JSON objects whose values are strings, with the
    escapes of RFC 8259. *)

From Stdlib Require Import SpecFloat Ascii String.
From stdpp Require Import gmap pretty.
From S2P Require Import Prelude Float32 StringUtils Schedule OnvifMetadata.
Open Scope Z_scope.
Open Scope list_scope.

(** ** Correlation identifiers *)

(** One identifier for each thread, and the counter they share ([uint64_t]). *)
Record Correlation := mkCorrelation { current_correlation_id : gmap nat string; sequence_counter : Z }.

Definition Correlation_make : Correlation := mkCorrelation ∅ 0.

Definition Get (thread : nat) (c : Correlation) : string := default ""%string (current_correlation_id c !! thread).
Definition Set_ (thread : nat) (id : string) (c : Correlation) : Correlation :=
  mkCorrelation (<[thread := id]> (current_correlation_id c)) (sequence_counter c).

(** A buffer of 64 bytes with its end mark. *)
Definition NewId (prefix : string) (unix_ms : Z) (c : Correlation) : string * Correlation :=
  (String.substring 0 63 (prefix ++ "-" ++ pretty unix_ms ++ "-" ++ pretty (sequence_counter c)),
   mkCorrelation (current_correlation_id c) (u64 (sequence_counter c + 1))).

(** The constructor of a scope gives the identifier to restore, the destructor takes it. *)
Definition CorrelationScope_make (thread : nat) (prefix : string) (unix_ms : Z) (c : Correlation) : string * Correlation :=
  let previous_ := Get thread c in
  let '(id, c) := NewId prefix unix_ms c in (previous_, Set_ thread id c).
Definition CorrelationScope_destroy (thread : nat) (previous_ : string) (c : Correlation) : Correlation := Set_ thread previous_ c.

(** ** Lines *)

Inductive LogLevel := TRACE | DEBUG | INFO | WARN | ERROR.

Definition LogLevel_int (l : LogLevel) : Z := match l with TRACE => 0 | DEBUG => 1 | INFO => 2 | WARN => 3 | ERROR => 4 end.

(** Of a build without DEBUG_MODE. *)
Definition LOG_LEVEL_CUTOFF : LogLevel := INFO.
Definition cut_off (l : LogLevel) : bool := LogLevel_int l <? LogLevel_int LOG_LEVEL_CUTOFF.

Definition LogLevelName (l : LogLevel) : string :=
  match l with TRACE => "TRACE" | DEBUG => "DEBUG" | INFO => "INFO" | WARN => "WARN" | ERROR => "ERROR" end.

Definition quote : ascii := ascii_of_nat 34.
Definition backslash : ascii := ascii_of_nat 92.
Definition newline : ascii := ascii_of_nat 10.

Definition hex_digit (n : nat) : ascii := ascii_of_nat (if (n <? 10)%nat then 48 + n else 87 + n).

Definition escape_char (c : ascii) : string :=
  match nat_of_ascii c with
  | 34 => String backslash (String quote "")
  | 92 => String backslash (String backslash "")
  | 8 => String backslash "b"
  | 12 => String backslash "f"
  | 10 => String backslash "n"
  | 13 => String backslash "r"
  | 9 => String backslash "t"
  | n => if (n <? 32)%nat then String backslash ("u00" ++ String (hex_digit (n / 16)) (String (hex_digit (n mod 16)) "")) else String c ""
  end%nat.

Fixpoint JsonEscape (s : string) : string :=
  match s with EmptyString => EmptyString | String c s => (escape_char c ++ JsonEscape s)%string end.

(** [%02d] of a number that is not negative. *)
Definition pad2 (z : Z) : string := if (0 <=? z) && (z <? 100) then two_digits z else pretty z.

Definition timeStampISO8601 (utc : tm) (sec millis : Z) : string :=
  (four_digits (tm_year utc + 1900) ++ "-" ++ two_digits (tm_mon utc + 1) ++ "-" ++ two_digits (tm_mday utc) ++ "T" ++
   two_digits (tm_hour utc) ++ ":" ++ two_digits (tm_min utc) ++ ":" ++ two_digits sec ++ "." ++ three_digits millis ++ "Z")%string.

(** [%06.3f] of the seconds: the double of the nanoseconds divided by that of [10 ^ 9]. *)
Definition thousandths (x : f64) : Z :=
  match x with
  | S754_finite _ m e => if 0 <=? e then Z.pos m * 2 ^ e * 1000 else div_pow2_even (Z.pos m * 1000) (- e)
  | _ => 0
  end.
Definition fractional_seconds (sec ns : Z) : string :=
  let t := thousandths (f64_div (f64_of_Z (sec * 1000000000 + ns)) (f64_of_Z 1000000000)) in
  (pad2 (t / 1000) ++ "." ++ three_digits (t mod 1000))%string.

Definition carriage_return : ascii := ascii_of_nat 13.

(** The date of the day in UTC, with the hour of Seoul. *)
Definition timeStamp (gmt : tm) (sec ns : Z) : string :=
  String carriage_return (" " ++ pad2 (tm_year gmt - 100) ++ "-" ++ pad2 (tm_mon gmt + 1) ++ "-" ++ pad2 (tm_mday gmt) ++ " " ++
    pad2 ((tm_hour gmt + 9) mod 24) ++ ":" ++ pad2 (tm_min gmt) ++ ":" ++ fractional_seconds sec ns ++ " |").

(** The readings of a call: the time and the identifier of its thread. *)
Record LineEnv := mkLineEnv { le_tm : tm; le_sec : Z; le_ns : Z; le_cid : string }.

Definition quoted (s : string) : string := String quote (s ++ String quote "").

Definition FormatJsonLine (env : LineEnv) (msg : string) (level : LogLevel) : string :=
  ("{" ++ quoted "ts" ++ ":" ++ quoted (timeStampISO8601 (le_tm env) (le_sec env) (le_ns env / 1000000)) ++
   "," ++ quoted "lvl" ++ ":" ++ quoted (LogLevelName level) ++
   "," ++ quoted "msg" ++ ":" ++ quoted (JsonEscape msg) ++
   (if String.eqb (le_cid env) "" then "" else "," ++ quoted "correlation_id" ++ ":" ++ quoted (JsonEscape (le_cid env))) ++
   "}" ++ String newline "")%string.

Definition off_color_prefix (l : LogLevel) : string := (" [" ++ LogLevelName l ++ "] ")%string.
Definition color_code (l : LogLevel) : string := match l with TRACE => "37" | DEBUG => "36" | INFO => "32" | WARN => "33" | ERROR => "31" end.
Definition escape : ascii := ascii_of_nat 27.
Definition on_color_prefix (l : LogLevel) : string :=
  (" [" ++ String escape ("[" ++ color_code l ++ ";1m") ++ LogLevelName l ++ String escape "[0m" ++ "] ")%string.

Definition text_line (prefix : LogLevel -> string) (env : LineEnv) (msg : string) (level : LogLevel) : string :=
  (timeStamp (le_tm env) (le_sec env) (le_ns env) ++ prefix level ++ msg ++ String newline "")%string.

(** [vsnprintf] into the buffer of the thread: up to the first zero byte, at most
    MAX_LOG_MSG_LEN - 1 bytes.  [formatted]: what the format gives. *)
Definition MAX_LOG_MSG_LEN : Z := 204800.
Fixpoint until_zero (n : nat) (s : string) : string :=
  match n, s with
  | S n, String c s => if Ascii.eqb c zero then EmptyString else String c (until_zero n s)
  | _, _ => EmptyString
  end.
Definition GetLogString (formatted : string) : string := until_zero (Z.to_nat (MAX_LOG_MSG_LEN - 1)) formatted.

(** ** Configuration *)

Inductive LogType := NotSet | Console | File.
Definition DEFAULT_REOPEN_SECS : Z := 3600.

Record LoggerConfig := mkConfig {
  log_print_out_type : LogType; log_prefix_colored : bool; log_reopen_seconds : Z; (* unsigned int *)
  log_save_file_name : string; enable_json : bool
}.

Definition LoggerConfig_make : LoggerConfig := mkConfig Console true DEFAULT_REOPEN_SECS "" true.
Definition setLogType (flag : LogType) (c : LoggerConfig) : LoggerConfig :=
  mkConfig flag (log_prefix_colored c) (log_reopen_seconds c) (log_save_file_name c) (enable_json c).
Definition setPrefixUseColor (flag : bool) (c : LoggerConfig) : LoggerConfig :=
  mkConfig (log_print_out_type c) flag (log_reopen_seconds c) (log_save_file_name c) (enable_json c).
Definition setReOpenIntervals (reopen_sec : Z) (c : LoggerConfig) : LoggerConfig :=
  mkConfig (log_print_out_type c) (log_prefix_colored c) (u32 reopen_sec) (log_save_file_name c) (enable_json c).
Definition setLogSaveFile (file_name : string) (c : LoggerConfig) : LoggerConfig :=
  mkConfig (log_print_out_type c) (log_prefix_colored c) (log_reopen_seconds c) file_name (enable_json c).
Definition setEnableJson (flag : bool) (c : LoggerConfig) : LoggerConfig :=
  mkConfig (log_print_out_type c) (log_prefix_colored c) (log_reopen_seconds c) (log_save_file_name c) flag.

(** [InitLogger] of Main.cpp. *)
Definition APPLICATION_LOG_PATH : string := "/DetectBase/logs/DetectBase.log".
Definition InitLogger_config (release : bool) : LoggerConfig :=
  if release then setReOpenIntervals (60 * 60 * 24 * 28) (setLogSaveFile APPLICATION_LOG_PATH (setLogType File LoggerConfig_make))
  else setPrefixUseColor true (setLogType Console LoggerConfig_make).

(** ** Loggers *)

Record ConsoleLogger := mkConsole { prefixes : LogLevel -> string; console_json_enabled_ : bool; cout : list string }.

(** [written]: what went into the file; the stream is good while no write or open failed. *)
Record FileLogger := mkFile {
  file_name : string; is_open : bool; good : bool; re_open_intervals : Z; last_re_open : Z; json_enabled_ : bool; written : list string
}.

(** What the file system answers: the directory is there, it can be made (otherwise an exception),
    the file opens. *)
Record ReopenEnv := mkReopen { now : Z; dir_exists : bool; dir_created : bool; opened : bool }.

Definition with_stream (l : FileLogger) (o g : bool) (last : Z) (w : list string) : FileLogger :=
  mkFile (file_name l) o g (re_open_intervals l) last (json_enabled_ l) w.

Definition due (env : ReopenEnv) (l : FileLogger) : bool := re_open_intervals l * 1000000000 <? now env - last_re_open l.

(** [parent_path] is empty. *)
Fixpoint has_slash (s : string) : bool := match s with EmptyString => false | String c s => Ascii.eqb c "/"%char || has_slash s end.

(** [true]: an exception. *)
Definition reOpen (env : ReopenEnv) (l : FileLogger) : bool * FileLogger :=
  if String.eqb (file_name l) "" then (false, l)
  else if due env l then
    let l := with_stream l false (good l) (now env) (written l) in
    if has_slash (file_name l) && negb (dir_exists env) && negb (dir_created env) then (true, l)
    else if opened env then (false, with_stream l true true (last_re_open l) (written l))
    else (false, with_stream l false false (last_re_open l) (written l))
  else (false, l).

Definition FileLogger_make (cfg : LoggerConfig) (env : ReopenEnv) : bool * FileLogger :=
  let l := mkFile "" false true DEFAULT_REOPEN_SECS 0 (enable_json cfg) [] in
  if String.eqb (log_save_file_name cfg) "" then (false, l)
  else reOpen env (mkFile (log_save_file_name cfg) false true (log_reopen_seconds cfg) 0 (enable_json cfg) []).

(** [file_stream << msg]: nothing is written where the stream is closed or has failed. *)
Definition write (msg : string) (l : FileLogger) : FileLogger :=
  if is_open l && good l then with_stream l true true (last_re_open l) (written l ++ [msg])
  else with_stream l (is_open l) false (last_re_open l) (written l).

Definition file_line (env : LineEnv) (msg : string) (level : LogLevel) (l : FileLogger) : string :=
  if json_enabled_ l then FormatJsonLine env msg level else text_line off_color_prefix env msg level.

Definition FileLogger_log (env : LineEnv) (renv : ReopenEnv) (msg : string) (level : LogLevel) (l : FileLogger) : bool * FileLogger :=
  if cut_off level then (false, l) else reOpen renv (write (file_line env msg level l) l).

Definition FileLogger_logClose (l : FileLogger) : FileLogger := if is_open l then with_stream l false (good l) (last_re_open l) (written l) else l.

Definition ConsoleLogger_make (cfg : LoggerConfig) : ConsoleLogger :=
  mkConsole (if log_prefix_colored cfg then on_color_prefix else off_color_prefix) (enable_json cfg) [].

Definition ConsoleLogger_log (env : LineEnv) (msg : string) (level : LogLevel) (l : ConsoleLogger) : ConsoleLogger :=
  if cut_off level then l
  else mkConsole (prefixes l) (console_json_enabled_ l)
         (cout l ++ [if console_json_enabled_ l then FormatJsonLine env msg level else text_line (prefixes l) env msg level]).

Inductive Logger := ToConsole (l : ConsoleLogger) | ToFile (l : FileLogger).

(** [true]: the constructor of the logger throws. *)
Definition produce (cfg : LoggerConfig) (env : ReopenEnv) : bool * option Logger :=
  match log_print_out_type cfg with
  | Console => (false, Some (ToConsole (ConsoleLogger_make cfg)))
  | File => let '(thrown, l) := FileLogger_make cfg env in (thrown, if thrown then None else Some (ToFile l))
  | NotSet => (false, None)
  end.

(** The singleton: [None] until its initialisation returns; then it stays, a null pointer too. *)
Abbreviation Singleton := (option (option Logger)).

Definition get_logger (cfg : LoggerConfig) (env : ReopenEnv) (s : Singleton) : bool * Singleton :=
  match s with
  | Some _ => (false, s)
  | None => let '(thrown, l) := produce cfg env in if thrown then (true, None) else (false, Some l)
  end.

(** An exception is caught and counted; the flag says so. *)
Definition logInternal (env : LineEnv) (renv : ReopenEnv) (message : string) (level : LogLevel) (s : Singleton) : bool * Singleton :=
  let '(thrown, s) := get_logger LoggerConfig_make renv s in
  if thrown then (true, s)
  else
    match s with
    | Some (Some (ToConsole l)) => (false, Some (Some (ToConsole (ConsoleLogger_log env message level l))))
    | Some (Some (ToFile l)) => let '(thrown, l) := FileLogger_log env renv message level l in (thrown, Some (Some (ToFile l)))
    | _ => (false, s)
    end.

(** ** A reader of lines *)

Definition hex_value (c : ascii) : option nat :=
  let n := nat_of_ascii c in
  (if (48 <=? n) && (n <=? 57) then Some (n - 48) else if (97 <=? n) && (n <=? 102) then Some (n - 87) else if (65 <=? n) && (n <=? 70) then Some (n - 55) else None)%nat.

(** A character given by four digits; one byte is enough here. *)
Definition unicode (a b c d : ascii) : option ascii :=
  a ← hex_value a; b ← hex_value b; c ← hex_value c; d ← hex_value d;
  let n := (((a * 16 + b) * 16 + c) * 16 + d)%nat in if (n <? 128)%nat then Some (ascii_of_nat n) else None.

Definition simple_escape (c : ascii) : option ascii :=
  match nat_of_ascii c with
  | 34 | 92 | 47 => Some c
  | 98 => Some (ascii_of_nat 8) | 102 => Some (ascii_of_nat 12) | 110 => Some (ascii_of_nat 10) | 114 => Some (ascii_of_nat 13) | 116 => Some (ascii_of_nat 9)
  | _ => None
  end%nat.

Definition then_char (c : ascii) (r : option (string * string)) : option (string * string) := '(t, rest) ← r; Some (String c t, rest).

(** The text up to the closing quotation mark, and what follows. *)
Fixpoint read_string (s : string) : option (string * string) :=
  match s with
  | EmptyString => None
  | String c s =>
      if Ascii.eqb c quote then Some (EmptyString, s)
      else if Ascii.eqb c backslash then
        match s with
        | String e s =>
            if Ascii.eqb e "u" then
              match s with
              | String a (String b (String x (String y s))) => match unicode a b x y with Some d => then_char d (read_string s) | None => None end
              | _ => None
              end
            else match simple_escape e with Some d => then_char d (read_string s) | None => None end
        | EmptyString => None
        end
      else if (nat_of_ascii c <? 32)%nat then None
      else then_char c (read_string s)
  end.

Definition expect (c : ascii) (s : string) : option string := match s with String d s => if Ascii.eqb d c then Some s else None | EmptyString => None end.

Definition read_member (s : string) : option (string * string * string) :=
  s ← expect quote s; '(key, s) ← read_string s; s ← expect ":" s; s ← expect quote s; '(v, s) ← read_string s; Some (key, v, s).

Fixpoint read_members (fuel : nat) (s : string) : option (list (string * string) * string) :=
  match fuel with
  | O => None
  | S fuel =>
      '(key, v, s) ← read_member s;
      match s with
      | String c s =>
          if Ascii.eqb c "," then '(l, s) ← read_members fuel s; Some ((key, v) :: l, s)
          else if Ascii.eqb c "}" then Some ([(key, v)], s) else None
      | EmptyString => None
      end
  end.

(** One line, of four members at most. *)
Definition read_line (s : string) : option (list (string * string) * string) :=
  s ← expect "{" s; '(l, s) ← read_members 4 s; s ← expect newline s; Some (l, s).

Fixpoint read_lines (n : nat) (s : string) : option (list (list (string * string))) :=
  match n with
  | O => if String.eqb s "" then Some [] else None
  | S n => '(l, s) ← read_line s; rest ← read_lines n s; Some (l :: rest)
  end.

Definition line_fields (env : LineEnv) (msg : string) (level : LogLevel) : list (string * string) :=
  [("ts", timeStampISO8601 (le_tm env) (le_sec env) (le_ns env / 1000000)); ("lvl", LogLevelName level); ("msg", msg)]%string ++
  if String.eqb (le_cid env) "" then [] else [("correlation_id", le_cid env)]%string.

(** ** Properties of lines *)

Lemma read_escaped c r : read_string (escape_char c ++ r) = then_char c (read_string r).
Proof. destruct c as [[] [] [] [] [] [] [] []]; reflexivity. Qed.

Lemma read_quoted s r : read_string (JsonEscape s ++ String quote r) = Some (s, r).
Proof.
  induction s as [| c s IH]; [reflexivity |]. cbn [JsonEscape]. rewrite append_assoc', read_escaped. unfold then_char. by rewrite IH.
Qed.

(** Text without anything to escape. *)
Definition clean (s : string) : Prop := JsonEscape s = s.

Lemma JsonEscape_app a b : JsonEscape (a ++ b) = (JsonEscape a ++ JsonEscape b)%string.
Proof. induction a as [| c a IH]; [reflexivity |]. rewrite append_cons. cbn [JsonEscape]. by rewrite IH, append_assoc'. Qed.

Lemma clean_app a b : clean a -> clean b -> clean (a ++ b).
Proof. unfold clean. intros Ha Hb. by rewrite JsonEscape_app, Ha, Hb. Qed.

Lemma clean_digit z s : clean s -> clean (String (digit_char (z mod 10)) s).
Proof.
  unfold clean. intros Hs. cbn [JsonEscape]. rewrite Hs. pose proof (Z.mod_pos_bound z 10 ltac:(lia)) as Hz.
  assert (z mod 10 = 0 \/ z mod 10 = 1 \/ z mod 10 = 2 \/ z mod 10 = 3 \/ z mod 10 = 4 \/ z mod 10 = 5 \/ z mod 10 = 6 \/ z mod 10 = 7 \/ z mod 10 = 8 \/ z mod 10 = 9) as Hd by lia.
  by destruct Hd as [-> | [-> | [-> | [-> | [-> | [-> | [-> | [-> | [-> | ->]]]]]]]]].
Qed.

Lemma clean_two_digits z : clean (two_digits z).
Proof. by apply clean_digit, clean_digit. Qed.

Lemma clean_time utc sec millis : clean (timeStampISO8601 utc sec millis).
Proof.
  unfold timeStampISO8601, four_digits, three_digits. repeat first [apply clean_app | apply clean_two_digits | apply clean_digit | reflexivity].
Qed.

Lemma clean_level l : clean (LogLevelName l).
Proof. by destruct l. Qed.

Lemma read_member_quoted key v r : clean key -> read_member (quoted key ++ ":" ++ quoted (JsonEscape v) ++ r) = Some (key, v, r).
Proof.
  unfold clean. intros Hk. unfold read_member, quoted. rewrite <- Hk at 1. rewrite !append_cons, !append_assoc', !append_cons, ?append_nil_l. cbn [expect].
  change (Ascii.eqb quote quote) with true. cbn [mbind option_bind]. rewrite read_quoted. cbn [mbind option_bind expect].
  rewrite ?append_cons. change (Ascii.eqb ":" ":") with true. cbn [mbind option_bind expect]. change (Ascii.eqb quote quote) with true. cbn [mbind option_bind].
  by rewrite read_quoted.
Qed.

Lemma read_members_more n key v r : clean key ->
  read_members (S n) (quoted key ++ ":" ++ quoted (JsonEscape v) ++ "," ++ r) = ('(l, s) ← read_members n r; Some ((key, v) :: l, s)).
Proof. intros Hk. cbn [read_members]. rewrite read_member_quoted by done. reflexivity. Qed.

Lemma read_members_last n key v r : clean key -> read_members (S n) (quoted key ++ ":" ++ quoted (JsonEscape v) ++ "}" ++ r) = Some ([(key, v)], r).
Proof. intros Hk. cbn [read_members]. rewrite read_member_quoted by done. reflexivity. Qed.

Lemma read_line_format env msg level r : read_line (FormatJsonLine env msg level ++ r) = Some (line_fields env msg level, r).
Proof.
  unfold FormatJsonLine, line_fields. pose proof (clean_time (le_tm env) (le_sec env) (le_ns env / 1000000)) as Ht. pose proof (clean_level level) as Hl.
  set (ts := timeStampISO8601 _ _ _) in *. set (lvl := LogLevelName level) in *. clearbody ts lvl. unfold clean in Ht, Hl. rewrite <- Ht at 1. rewrite <- Hl at 1.
  assert (forall s, read_line ("{" ++ s) = ('(l, s) ← read_members 4 s; s ← expect newline s; Some (l, s))) as Hs by reflexivity.
  destruct (String.eqb (le_cid env) ""); rewrite !append_assoc', ?append_nil_l, Hs, !read_members_more by reflexivity;
    rewrite read_members_last by reflexivity; reflexivity.
Qed.

Definition concat_lines (l : list string) : string := foldr (fun a b => (a ++ b)%string) ""%string l.

Lemma read_lines_format (l : list (LineEnv * string * LogLevel)) :
  read_lines (length l) (concat_lines (map (fun e => FormatJsonLine (fst (fst e)) (snd (fst e)) (snd e)) l)) =
  Some (map (fun e => line_fields (fst (fst e)) (snd (fst e)) (snd e)) l).
Proof.
  induction l as [| e l IH]; [reflexivity |]. cbn [length read_lines map concat_lines foldr]. rewrite read_line_format. cbn [mbind option_bind].
  fold (concat_lines (map (fun e => FormatJsonLine (fst (fst e)) (snd (fst e)) (snd e)) l)). by rewrite IH.
Qed.

(** ** The file of several threads

    The write of a line and the reopening that follows it take the lock separately: the
    steps of the threads come in any order. *)

Inductive LogStep := LWrite (env : LineEnv) (msg : string) (level : LogLevel) | LReopen (env : ReopenEnv).

Definition log_step (l : FileLogger) (e : LogStep) : FileLogger :=
  match e with
  | LWrite env msg level => if cut_off level then l else write (file_line env msg level l) l
  | LReopen env => snd (reOpen env l)
  end.

Definition log_steps (l : FileLogger) (es : list LogStep) : FileLogger := fold_left log_step es l.

(** The file can be opened whenever it is tried. *)
Definition can_open (e : LogStep) : Prop := match e with LReopen env => opened env = true /\ (dir_exists env = true \/ dir_created env = true) | LWrite _ _ _ => True end.

Definition logged (es : list LogStep) : list (LineEnv * string * LogLevel) :=
  omap (fun e => match e with LWrite env msg level => if cut_off level then None else Some (env, msg, level) | LReopen _ => None end) es.

Lemma reOpen_can_open env l : can_open (LReopen env) -> is_open l && good l = true ->
  is_open (snd (reOpen env l)) && good (snd (reOpen env l)) = true /\ written (snd (reOpen env l)) = written l /\ json_enabled_ (snd (reOpen env l)) = json_enabled_ l.
Proof.
  intros [Ho Hd] Hg. unfold reOpen. destruct (String.eqb (file_name l) ""); [done |]. destruct (due env l); [| done].
  rewrite Ho. destruct (has_slash (file_name (with_stream l false (good l) (now env) (written l)))); [| done]. by destruct Hd as [-> | ->]; destruct (dir_exists env).
Qed.

Lemma log_steps_written es l : is_open l && good l = true -> json_enabled_ l = true -> Forall can_open es ->
  written (log_steps l es) = written l ++ map (fun e => FormatJsonLine (fst (fst e)) (snd (fst e)) (snd e)) (logged es).
Proof.
  intros Hg Hj H. revert l Hg Hj. induction H as [| e es He _ IH]; intros l Hg Hj; [by rewrite app_nil_r |]. cbn [log_steps fold_left logged omap list_omap].
  fold (log_steps (log_step l e) es). destruct e as [env msg level | env]; cbn [log_step].
  - destruct (cut_off level); [by apply IH |]. unfold write. rewrite Hg. rewrite IH by done. cbn [written with_stream map fst snd]. unfold file_line. rewrite Hj.
    by rewrite <- app_assoc.
  - destruct (reOpen_can_open env l He Hg) as (Hg' & Hw & Hj'). rewrite IH by (try done; by rewrite Hj'). by rewrite Hw.
Qed.

(** The logger of the program. *)
Lemma service_logger_opens env :
  due env (mkFile APPLICATION_LOG_PATH false true 2419200 0 true []) = true -> can_open (LReopen env) ->
  exists l, FileLogger_make (InitLogger_config true) env = (false, l) /\ is_open l && good l = true /\ json_enabled_ l = true /\ written l = [].
Proof.
  intros Hd [Ho Hc]. unfold FileLogger_make. cbn [InitLogger_config log_save_file_name setReOpenIntervals setLogSaveFile setLogType log_reopen_seconds enable_json LoggerConfig_make].
  change (String.eqb APPLICATION_LOG_PATH "") with false. cbn iota. unfold reOpen. cbn [file_name]. change (String.eqb APPLICATION_LOG_PATH "") with false. cbn iota.
  change (u32 (60 * 60 * 24 * 28)) with 2419200. rewrite Hd, Ho. cbn [with_stream file_name]. change (has_slash APPLICATION_LOG_PATH) with true. cbn [andb].
  assert (negb (dir_exists env) && negb (dir_created env) = false) as -> by (destruct Hc as [-> | ->]; [done | apply andb_false_r]). by eexists.
Qed.

(** The log of the service says what was logged.  Whatever the threads log, quotation
    marks, line ends and control characters included, and however their writes and the
    reopenings of the file are interleaved, the file is read back as one record for each line
    of at least the level INFO, in the order of the writes, with its time, its level, its
    message and the identifier of its event. *)
Theorem log_reads_back env0 es :
  now env0 > 2419200 * 1000000000 -> can_open (LReopen env0) -> Forall can_open es ->
  exists l, FileLogger_make (InitLogger_config true) env0 = (false, l) /\
    read_lines (length (logged es)) (concat_lines (written (log_steps l es))) = Some (map (fun e => line_fields (fst (fst e)) (snd (fst e)) (snd e)) (logged es)).
Proof.
  intros Hn Hc Hes. destruct (service_logger_opens env0) as (l & E & Hg & Hj & Hw); [| done |].
  { unfold due. cbn [re_open_intervals last_re_open]. apply Z.ltb_lt. lia. }
  exists l. split; [done |]. rewrite log_steps_written by done. rewrite Hw. apply read_lines_format.
Qed.

Definition demo_line_env (cid : string) : LineEnv := mkLineEnv (mkTm 126 5 12 16 5 5) 59 999600000 cid.
Definition demo_reopen : ReopenEnv := mkReopen 1800000000000000000 false true true.

Lemma log_reads_back_witness :
  let tricky := String quote (String backslash (String newline "x")) in
  exists l, FileLogger_make (InitLogger_config true) demo_reopen = (false, l) /\
    read_lines 1 (concat_lines (written (log_steps l [LWrite (demo_line_env "evt-1-0") tricky WARN; LWrite (demo_line_env "") "y" DEBUG; LReopen demo_reopen]))) =
    Some [[("ts", "2026-06-12T16:05:59.999Z"); ("lvl", "WARN"); ("msg", tricky); ("correlation_id", "evt-1-0")]%string].
Proof.
  intros tricky.
  destruct (log_reads_back demo_reopen [LWrite (demo_line_env "evt-1-0") tricky WARN; LWrite (demo_line_env "") "y" DEBUG; LReopen demo_reopen]) as (l & E & Hr).
  - reflexivity.
  - split; [reflexivity | by right].
  - constructor; [exact I | constructor; [exact I | constructor; [split; [reflexivity | by right] | constructor]]].
  - exists l. split; [exact E |]. exact Hr.
Defined.

(** What is logged while the file cannot be opened is lost, the line that finds it can be opened
    again included: the line is written first. *)
Lemma lost_while_closed l env renv msg level : is_open l = false -> written (snd (FileLogger_log env renv msg level l)) = written l.
Proof.
  intros Ho. unfold FileLogger_log. destruct (cut_off level); [done |]. unfold write. rewrite Ho. cbn [andb]. unfold reOpen.
  destruct (String.eqb _ ""); [done |]. destruct (due _ _); [| done]. destruct (_ && _ && _); [done |]. by destruct (opened renv).
Qed.

(** The next attempt is made by the first line after the interval, not earlier. *)
Lemma reopened_when_due l env renv msg level :
  file_name l <> ""%string -> cut_off level = false -> can_open (LReopen renv) -> due renv l = true ->
  let l' := snd (FileLogger_log env renv msg level l) in is_open l' = true /\ good l' = true /\ last_re_open l' = now renv.
Proof.
  intros Hf Hl [Ho Hd] Hdue. unfold FileLogger_log. rewrite Hl. unfold reOpen, write.
  destruct (is_open l && good l); cbn [file_name with_stream]; rewrite (proj2 (String.eqb_neq _ _) Hf); unfold due in *; cbn [re_open_intervals last_re_open with_stream];
    rewrite Hdue, Ho; (destruct (has_slash (file_name l)); [| done]); by destruct Hd as [-> | ->]; destruct (dir_exists renv).
Qed.

(** The first configuration stays. *)
Lemma first_configuration_stays cfg env s : is_Some s -> get_logger cfg env s = (false, s).
Proof. by intros [l ->]. Qed.

(** ** The time of the text lines

    On 12 June at 16:05:59.9996 UTC it is 13 June in Seoul: the hour is that of Seoul, the day is not,
    and the seconds are rounded to 60. *)
Example text_time_wrong : timeStamp (mkTm 126 5 12 16 5 5) 59 999600000 = String carriage_return " 26-06-12 01:05:60.000 |".
Proof. vm_compute. reflexivity. Qed.

(** From 15:00 UTC on, the day is never the day of Seoul. *)
Lemma text_time_next_day gmt sec ns : 15 <= tm_hour gmt < 24 ->
  exists rest, timeStamp gmt sec ns =
    String carriage_return (" " ++ pad2 (tm_year gmt - 100) ++ "-" ++ pad2 (tm_mon gmt + 1) ++ "-" ++ pad2 (tm_mday gmt) ++ " " ++ pad2 (tm_hour gmt - 15) ++ ":" ++ rest).
Proof. intros H. unfold timeStamp. replace ((tm_hour gmt + 9) mod 24) with (tm_hour gmt - 15) by (apply (Z.mod_unique_pos _ _ 1); lia). by eexists. Qed.

(** ** The identifiers of several threads *)

(** What the threads do; a scope is destroyed in the thread that made it, the last one first. *)
Inductive CorrEvent := CSet (thread : nat) (id : string) | COpen (thread : nat) (prefix : string) (unix_ms : Z) | CClose (thread : nat).

(** The open scopes of each thread, the last one at the head. *)
Abbreviation Scopes := (gmap nat (list string)).
Definition scopes_of (t : nat) (sc : Scopes) : list string := default [] (sc !! t).

Definition corr_event (st : Correlation * Scopes) (e : CorrEvent) : option (Correlation * Scopes) :=
  let '(c, sc) := st in
  match e with
  | CSet t id => Some (Set_ t id c, sc)
  | COpen t prefix ms => let '(previous_, c) := CorrelationScope_make t prefix ms c in Some (c, <[t := previous_ :: scopes_of t sc]> sc)
  | CClose t => match scopes_of t sc with previous_ :: l => Some (CorrelationScope_destroy t previous_ c, <[t := l]> sc) | [] => None end
  end.

Fixpoint corr_events (st : Correlation * Scopes) (es : list CorrEvent) : option (Correlation * Scopes) :=
  match es with [] => Some st | e :: es => st ← corr_event st e; corr_events st es end.

(** What a thread does between two points of its code: scopes are closed again, and outside of them it
    sets nothing. *)
Fixpoint balanced (t d : nat) (es : list CorrEvent) : bool :=
  match es with
  | [] => (d =? 0)%nat
  | CSet t' _ :: es => (negb (t' =? t) || (0 <? d))%nat && balanced t d es
  | COpen t' _ _ :: es => balanced t (if t' =? t then S d else d)%nat es
  | CClose t' :: es => if (t' =? t)%nat then match d with O => false | S d => balanced t d es end else balanced t d es
  end.

Lemma Get_Set t t' id c : Get t (Set_ t' id c) = if decide (t = t') then id else Get t c.
Proof. unfold Get, Set_. cbn. destruct (decide (t = t')) as [-> |]; [by rewrite lookup_insert_eq | by rewrite lookup_insert_ne]. Qed.

Lemma scopes_insert t t' l sc : scopes_of t (<[t' := l]> sc) = if decide (t = t') then l else scopes_of t sc.
Proof. unfold scopes_of. destruct (decide (t = t')) as [-> |]; [by rewrite lookup_insert_eq | by rewrite lookup_insert_ne]. Qed.

(** The identifier the thread had before its first open scope. *)
Definition base (t : nat) (c : Correlation) (ds : list string) : string := List.last ds (Get t c).

Lemma base_ne t c ds x y : base t c (x :: ds) = List.last (x :: ds) y.
Proof. unfold base. revert x. induction ds as [| z ds IH]; intros x; [done |]. change (List.last (z :: ds) (Get t c) = List.last (z :: ds) y). apply IH. Qed.

Lemma base_open t c c' ds : base t c' (Get t c :: ds) = base t c ds.
Proof. destruct ds as [| x ds]; [done |]. change (List.last (x :: ds) (Get t c') = List.last (x :: ds) (Get t c)). by rewrite <- !(base_ne t c). Qed.

Lemma base_close t c p ds : base t c (p :: ds) = List.last ds p.
Proof. revert p. induction ds as [| x ds IH]; intros p; [done |]. change (base t c (x :: ds) = List.last (x :: ds) p). by rewrite (base_ne t c ds x p). Qed.

Lemma scope_restores_from t es c sc ds rest c' sc' :
  scopes_of t sc = ds ++ rest -> balanced t (length ds) es = true -> corr_events (c, sc) es = Some (c', sc') ->
  Get t c' = base t c ds /\ scopes_of t sc' = rest.
Proof.
  revert c sc ds. induction es as [| e es IH]; intros c sc ds Hs Hb H.
  - injection H as <- <-. cbn in Hb. apply Nat.eqb_eq in Hb. by destruct ds.
  - cbn [corr_events] in H. destruct e as [t' id | t' prefix ms | t']; cbn [corr_event balanced] in H, Hb.
    + apply andb_prop in Hb as [Ht Hb]. destruct (IH (Set_ t' id c) sc ds Hs Hb H) as [-> ->]. split; [| done].
      destruct (Nat.eqb_spec t' t) as [-> | Hne]; [destruct ds as [| x ds]; [done |]; apply base_ne |].
      unfold base. by rewrite Get_Set, decide_False by done.
    + cbn [CorrelationScope_make NewId mbind option_bind] in H. set (c1 := Set_ t' _ _) in H.
      destruct (Nat.eqb_spec t' t) as [-> | Hne].
      * eapply (IH c1 _ (Get t c :: ds)) in H as [-> ->]; [split; [| done] | by rewrite scopes_insert, decide_True, Hs by done | exact Hb]. apply base_open.
      * eapply (IH c1 _ ds) in H as [-> ->]; [split; [| done] | by rewrite scopes_insert, decide_False by done | exact Hb].
        unfold base, c1. by rewrite Get_Set, decide_False by done.
    + destruct (scopes_of t' sc) as [| p l] eqn:E; [done |]. cbn [mbind option_bind] in H. set (c1 := CorrelationScope_destroy t' p c) in H.
      destruct (Nat.eqb_spec t' t) as [-> | Hne].
      * destruct ds as [| x ds]; [done |]. rewrite Hs in E. injection E as <- <-.
        eapply (IH c1 _ ds) in H as [-> ->]; [split; [| done] | by rewrite scopes_insert, decide_True by done | exact Hb].
        rewrite base_close. unfold base, c1, CorrelationScope_destroy. by rewrite Get_Set, decide_True.
      * eapply (IH c1 _ ds) in H as [-> ->]; [split; [| done] | by rewrite scopes_insert, decide_False by done | exact Hb].
        unfold base, c1, CorrelationScope_destroy. by rewrite Get_Set, decide_False by done.
Qed.

(** A thread that has closed its scopes has the identifier it had before, whatever the others did. *)
Lemma scope_restores t es c sc c' sc' :
  balanced t 0 es = true -> corr_events (c, sc) es = Some (c', sc') -> Get t c' = Get t c /\ scopes_of t sc' = scopes_of t sc.
Proof. intros Hb H. exact (scope_restores_from t es c sc [] (scopes_of t sc) c' sc' eq_refl Hb H). Qed.

(** *** No two events have the same identifier *)

Lemma substring_shorter n s : (String.length (String.substring 0 n s) < n)%nat -> String.substring 0 n s = s.
Proof.
  revert s. induction n as [| n IH]; intros s H; [lia |]. destruct s as [| c s]; [done |]. cbn in *. f_equal. apply IH. lia.
Qed.

(** The identifiers that were issued. *)
Fixpoint issued (c : Correlation) (l : list (string * Z)) : list string :=
  match l with [] => [] | (prefix, ms) :: l => let '(id, c) := NewId prefix ms c in id :: issued c l end.

Lemma issued_number c l k id : 0 <= sequence_counter c -> sequence_counter c + Z.of_nat (length l) <= 2 ^ 64 -> issued c l !! k = Some id ->
  (String.length id < 63)%nat -> exists a, id = (a ++ "-" ++ pretty (sequence_counter c + Z.of_nat k))%string.
Proof.
  revert c k. induction l as [| [prefix ms] l IH]; intros c k H0 Hm Hk Hl; [done |]. cbn [issued NewId length] in *. destruct k as [| k].
  - injection Hk as <-. rewrite Z.add_0_r. pose proof (substring_shorter _ _ Hl) as ->. exists (prefix ++ "-" ++ pretty ms)%string. by rewrite !append_assoc'.
  - cbn in Hk. destruct l as [| p l]; [done |]. cbn [length] in *. assert (u64 (sequence_counter c + 1) = sequence_counter c + 1) as Hu by (apply Z.mod_small; lia).
    rewrite Hu in Hk. destruct (IH (mkCorrelation (current_correlation_id c) (sequence_counter c + 1)) k) as [a Ha]; [cbn; lia | cbn [sequence_counter length]; lia | exact Hk | done |].
    exists a. rewrite Ha. cbn [sequence_counter]. do 3 f_equal. lia.
Qed.

(** Of all identifiers of a run, those that fit their buffer are different from each other, whatever
    the prefixes and the clock. *)
Lemma identifiers_unique l j k id :
  Z.of_nat (length l) <= 2 ^ 64 -> (String.length id < 63)%nat -> issued Correlation_make l !! j = Some id -> issued Correlation_make l !! k = Some id -> j = k.
Proof.
  intros Hm Hl Hj Hk. destruct (issued_number Correlation_make l j id) as [a Ha]; [done | cbn; lia | done | done |].
  destruct (issued_number Correlation_make l k id) as [b Hb]; [done | cbn; lia | done | done |]. cbn [sequence_counter Correlation_make] in *.
  rewrite Ha in Hb. apply last_part in Hb; [| by apply chars_pretty_nonneg; [apply digits_are_not | lia] ..]. apply pretty_Z_inj in Hb. lia.
Qed.
