(* ===== verification/Metrics.v ===== *)
(** * Metrics

    [BasicLibs/core/metrics/MetricsRegistry.h], [MetricsRegistry.cpp]: the families of metrics
    of the process and the server that shows them.  The metrics themselves are those of
    prometheus-cpp: [registry] is what was registered there, in this order, and a family is its
    place; [measures] is what was asked of the families.  Every operation holds the lock
    from its first to its last line. *)

From Stdlib Require Import String.
From stdpp Require Import gmap.
From S2P Require Import Prelude Float32.
Open Scope list_scope.

Inductive Kind := Counter | Gauge | Histogram.

#[export] Instance Kind_eq_dec : EqDecision Kind.
Proof. solve_decision. Defined.

Abbreviation Labels := (list (string * string)).

Inductive Measure :=
| Increment (family : nat) (labels : Labels) (value : f64)
| Set_ (family : nat) (labels : Labels) (value : f64)
| Decrement (family : nat) (labels : Labels) (value : f64)
| Observe (family : nat) (labels : Labels) (buckets : list f64) (value : f64).

Record MetricsRegistry := mkMetrics {
  registry : list (Kind * string * string);
  exposer : option Z;
  counter_families : gmap string nat; gauge_families : gmap string nat; histogram_families : gmap string nat;
  histogram_buckets : gmap string (list f64);
  initialized : bool; port : Z;
  measures : list Measure
}.

Definition MetricsRegistry_make : MetricsRegistry := mkMetrics [] None ∅ ∅ ∅ ∅ false 0 [].

Definition with_exposer (m : MetricsRegistry) e i p : MetricsRegistry :=
  mkMetrics (registry m) e (counter_families m) (gauge_families m) (histogram_families m) (histogram_buckets m) i p (measures m).
Definition with_measure (m : MetricsRegistry) (x : Measure) : MetricsRegistry :=
  mkMetrics (registry m) (exposer m) (counter_families m) (gauge_families m) (histogram_families m) (histogram_buckets m) (initialized m) (port m) (measures m ++ [x]).

(** [bound]: the server could take the port. *)
Definition Initialize (p : Z) (bound : bool) (m : MetricsRegistry) : MetricsRegistry :=
  if initialized m then m
  else if (p <=? 0)%Z then with_exposer m (exposer m) true p
  else with_exposer m (if bound then Some p else None) true p.

Definition Shutdown (m : MetricsRegistry) : MetricsRegistry := with_exposer m None false (port m).

Definition families (k : Kind) (m : MetricsRegistry) : gmap string nat :=
  match k with Counter => counter_families m | Gauge => gauge_families m | Histogram => histogram_families m end.

Definition RegisterCounter (name help : string) (m : MetricsRegistry) : MetricsRegistry :=
  match counter_families m !! name with
  | Some _ => m
  | None => mkMetrics (registry m ++ [(Counter, name, help)]) (exposer m) (<[name := length (registry m)]> (counter_families m)) (gauge_families m) (histogram_families m)
              (histogram_buckets m) (initialized m) (port m) (measures m)
  end.

Definition RegisterGauge (name help : string) (m : MetricsRegistry) : MetricsRegistry :=
  match gauge_families m !! name with
  | Some _ => m
  | None => mkMetrics (registry m ++ [(Gauge, name, help)]) (exposer m) (counter_families m) (<[name := length (registry m)]> (gauge_families m)) (histogram_families m)
              (histogram_buckets m) (initialized m) (port m) (measures m)
  end.

Definition RegisterHistogram (name help : string) (buckets : list f64) (m : MetricsRegistry) : MetricsRegistry :=
  match histogram_families m !! name with
  | Some _ => m
  | None => mkMetrics (registry m ++ [(Histogram, name, help)]) (exposer m) (counter_families m) (gauge_families m) (<[name := length (registry m)]> (histogram_families m))
              (<[name := buckets]> (histogram_buckets m)) (initialized m) (port m) (measures m)
  end.

(** A name that is not registered is not measured. *)
Definition measure_of (k : Kind) (name : string) (x : nat -> Measure) (m : MetricsRegistry) : MetricsRegistry :=
  match families k m !! name with Some f => with_measure m (x f) | None => m end.

Definition IncrementCounter (name : string) (labels : Labels) (value : f64) := measure_of Counter name (fun f => Increment f labels value).
Definition SetGauge (name : string) (labels : Labels) (value : f64) := measure_of Gauge name (fun f => Set_ f labels value).
Definition IncrementGauge (name : string) (labels : Labels) (value : f64) := measure_of Gauge name (fun f => Increment f labels value).
Definition DecrementGauge (name : string) (labels : Labels) (value : f64) := measure_of Gauge name (fun f => Decrement f labels value).
Definition ObserveHistogram (name : string) (labels : Labels) (value : f64) (m : MetricsRegistry) : MetricsRegistry :=
  measure_of Histogram name (fun f => Observe f labels (default [] (histogram_buckets m !! name)) value) m.

Inductive MetricsOp :=
| MInitialize (p : Z) (bound : bool) | MShutdown
| MRegisterCounter (name help : string) | MRegisterGauge (name help : string) | MRegisterHistogram (name help : string) (buckets : list f64)
| MIncrementCounter (name : string) (labels : Labels) (value : f64) | MSetGauge (name : string) (labels : Labels) (value : f64)
| MIncrementGauge (name : string) (labels : Labels) (value : f64) | MDecrementGauge (name : string) (labels : Labels) (value : f64)
| MObserveHistogram (name : string) (labels : Labels) (value : f64).

Definition metrics_op (m : MetricsRegistry) (o : MetricsOp) : MetricsRegistry :=
  match o with
  | MInitialize p bound => Initialize p bound m
  | MShutdown => Shutdown m
  | MRegisterCounter name help => RegisterCounter name help m
  | MRegisterGauge name help => RegisterGauge name help m
  | MRegisterHistogram name help buckets => RegisterHistogram name help buckets m
  | MIncrementCounter name labels value => IncrementCounter name labels value m
  | MSetGauge name labels value => SetGauge name labels value m
  | MIncrementGauge name labels value => IncrementGauge name labels value m
  | MDecrementGauge name labels value => DecrementGauge name labels value m
  | MObserveHistogram name labels value => ObserveHistogram name labels value m
  end.

Definition metrics_ops (m : MetricsRegistry) (l : list MetricsOp) : MetricsRegistry := fold_left metrics_op l m.

(** ** Properties *)

Definition kind_name (e : Kind * string * string) : Kind * string := fst e.

(** The kind of family a measure is for. *)
Definition measure_family (x : Measure) : nat := match x with Increment f _ _ | Set_ f _ _ | Decrement f _ _ | Observe f _ _ _ => f end.
Definition fits (k : Kind) (x : Measure) : Prop :=
  match x with Increment _ _ _ => k <> Histogram | Set_ _ _ _ | Decrement _ _ _ => k = Gauge | Observe _ _ _ _ => k = Histogram end.

(** The tables are what was registered, no kind and name was registered twice, every measure is for a
    family of its kind, and the server runs only while the registry is initialised. *)
Record sound (m : MetricsRegistry) : Prop := {
  ms_families k name f : families k m !! name = Some f <-> kind_name <$> registry m !! f = Some (k, name);
  ms_once : NoDup (map kind_name (registry m));
  ms_buckets name : is_Some (histogram_buckets m !! name) <-> is_Some (histogram_families m !! name);
  ms_measures x : x ∈ measures m -> exists k name, kind_name <$> registry m !! measure_family x = Some (k, name) /\ fits k x;
  ms_exposer : is_Some (exposer m) -> initialized m = true /\ exposer m = Some (port m)
}.

Lemma sound_make : sound MetricsRegistry_make.
Proof.
  split; cbn.
  - intros [] name f; cbn; by split.
  - apply NoDup_nil_2.
  - intros name. by split; intros [].
  - by intros x Hx%elem_of_nil.
  - by intros [].
Qed.

(** What a registration of a new kind and name does. *)
Lemma sound_register m m' k name help :
  sound m -> families k m !! name = None -> registry m' = registry m ++ [(k, name, help)] ->
  (forall k', families k' m' = if decide (k' = k) then <[name := length (registry m)]> (families k m) else families k' m) ->
  (forall n, is_Some (histogram_buckets m' !! n) <-> is_Some (histogram_families m' !! n)) ->
  exposer m' = exposer m -> initialized m' = initialized m -> port m' = port m -> measures m' = measures m -> sound m'.
Proof.
  intros [H1 H2 H3 H4 H5] Hn Hr Hf Hb He Hi Hp Hm. split.
  - intros k' name' f. rewrite Hf, Hr. assert (forall k', kind_name <$> (registry m ++ [(k, name, help)]) !! f = Some (k', name') <->
      (f = length (registry m) /\ k' = k /\ name' = name) \/ kind_name <$> registry m !! f = Some (k', name')) as Hl.
    { intros k2. destruct (decide (f < length (registry m))%nat) as [Hlt | Hge].
      - rewrite lookup_app_l by done. split; [by right | by intros [[-> _] | ?]; [lia |]].
      - rewrite lookup_app_r by lia. rewrite (lookup_ge_None_2 (registry m)) by lia. destruct (decide (f = length (registry m))) as [-> |].
        + rewrite Nat.sub_diag. cbn. split; [intros [= -> ->]; by left | by intros [(_ & -> & ->) |]].
        + rewrite lookup_ge_None_2 by (cbn; lia). split; [done | by intros [(? & _) |]]. }
    rewrite Hl. destruct (decide (k' = k)) as [-> | Hk]; [| rewrite H1; naive_solver].
    destruct (decide (name' = name)) as [-> | Hne].
    + rewrite lookup_insert_eq. split; [intros [= <-]; by left | intros [(-> & _) | Hx]; [done | apply H1 in Hx; congruence]].
    + rewrite lookup_insert_ne by done. rewrite H1. naive_solver.
  - rewrite Hr, map_app. apply NoDup_app. split_and!; [done | | cbn; repeat constructor; by intros ?%elem_of_nil].
    intros x Hx Hy. apply list_elem_of_singleton in Hy. cbn in Hy. subst x. apply list_elem_of_fmap in Hx as (e & He' & Hin).
    apply list_elem_of_lookup_1 in Hin as [f Hin]. assert (families k m !! name = Some f) as Hc by (apply H1; rewrite Hin; cbn; by rewrite <- He'). congruence.
  - done.
  - intros x Hx. rewrite Hm in Hx. destruct (H4 x Hx) as (k' & n' & Hl & Hfit). exists k', n'. split; [| done]. rewrite Hr.
    destruct (registry m !! measure_family x) as [e |] eqn:E; [| done]. by rewrite (lookup_app_l_Some _ _ _ _ E).
  - by rewrite He, Hi, Hp.
Qed.

Lemma sound_measure m k name x : sound m -> (forall f, measure_family (x f) = f /\ fits k (x f)) -> sound (measure_of k name x m).
Proof.
  intros Hs Hx. unfold measure_of. destruct (families k m !! name) as [f |] eqn:E; [| done]. destruct Hs as [H1 H2 H3 H4 H5]. split; cbn; [intros k' n' f'; exact (H1 k' n' f') | done | done | | done].
  - intros y [Hy | Hy]%elem_of_app; [by apply H4 |]. apply list_elem_of_singleton in Hy as ->. exists k, name. destruct (Hx f) as [-> Hfit].
    split; [by apply H1 | done].
Qed.

(** Whatever is done with the registry, it stays sound. *)
Lemma metrics_sound l : sound (metrics_ops MetricsRegistry_make l).
Proof.
  assert (forall m, sound m -> sound (metrics_ops m l)) as Hg; [| apply Hg, sound_make].
  induction l as [| o l IH]; intros m Hs; [done |]. apply IH. clear IH.
  destruct o as [p bound | | name help | name help | name help buckets | name labels v | name labels v | name labels v | name labels v | name labels v]; cbn [metrics_op].
  - unfold Initialize. destruct (initialized m) eqn:Ei; [done |]. destruct Hs as [H1 H2 H3 H4 H5].
    destruct (p <=? 0)%Z; (split; cbn; [intros k n f; exact (H1 k n f) | done | done | done |]).
    + intros He. destruct (H5 He) as [? _]. congruence.
    + intros [x Hx]. by destruct bound.
  - destruct Hs as [H1 H2 H3 H4 H5]. split; cbn; [intros k n f; exact (H1 k n f) | done | done | done | by intros []].
  - unfold RegisterCounter. destruct (counter_families m !! name) eqn:E; [done |].
    eapply (sound_register m _ Counter); try done; [by intros [] | exact (ms_buckets m Hs)].
  - unfold RegisterGauge. destruct (gauge_families m !! name) eqn:E; [done |].
    eapply (sound_register m _ Gauge); try done; [by intros [] | exact (ms_buckets m Hs)].
  - unfold RegisterHistogram. destruct (histogram_families m !! name) eqn:E; [done |].
    eapply (sound_register m _ Histogram); try done; [by intros [] |]. intros n. cbn.
    destruct (decide (n = name)) as [-> |]; [rewrite !lookup_insert_eq; by split; eexists | rewrite !lookup_insert_ne by done; exact (ms_buckets m Hs n)].
  - apply sound_measure; [done |]. by intros f.
  - apply sound_measure; [done |]. by intros f.
  - apply sound_measure; [done |]. by intros f.
  - apply sound_measure; [done |]. by intros f.
  - apply sound_measure; [done |]. by intros f.
Qed.

(** A second registration and a second initialisation change nothing. *)
Lemma register_twice name help help' m : RegisterCounter name help' (RegisterCounter name help m) = RegisterCounter name help m.
Proof. unfold RegisterCounter at 2 3. destruct (counter_families m !! name) eqn:E; unfold RegisterCounter; [by rewrite E |]. cbn. by rewrite lookup_insert_eq. Qed.

Lemma initialize_twice p b p' b' m : Initialize p' b' (Initialize p b m) = Initialize p b m.
Proof. unfold Initialize at 2 3. destruct (initialized m) eqn:E; [unfold Initialize; by rewrite E |]. by destruct (p <=? 0)%Z. Qed.

(** ** The families of the program

    A measure of a name that nothing registers is lost without a trace: every name that is measured has
    to be registered by the part that starts first. *)

(** [Service_DETECTOR::Initialize]. *)
Definition service_metrics : list MetricsOp :=
  [MInitialize 9090 true;
   MRegisterGauge "detectbase_dfps_total" "Total detection FPS across all cameras";
   MRegisterGauge "detectbase_camera_count" "Camera count by state (registered/active)";
   MRegisterCounter "detectbase_events_total" "Total intrusion events detected";
   MRegisterCounter "detectbase_errors_total" "Total errors by category";
   MRegisterCounter "detectbase_setting_partial_failure_total" "Setting reset partial failures (per unit_id, graceful degradation)";
   MRegisterCounter "detectbase_socketio_reconnect_total" "SocketIO reconnect attempts";
   MRegisterGauge "detectbase_frame_disk_used_bytes" "Bytes used on /frame mount";
   MRegisterGauge "detectbase_frame_disk_capacity_bytes" "Total capacity of /frame mount";
   MRegisterGauge "detectbase_frame_disk_used_pct" "Used percent of /frame mount";
   MRegisterCounter "detectbase_imwrite_skipped_total" "imwrite skipped (preemptive disk-full guard)";
   MRegisterCounter "detectbase_frame_cleanup_deleted_total" "Day folders deleted by regular (7-day retention) cleanup";
   MRegisterCounter "detectbase_frame_emergency_cleanup_total" "Items deleted by emergency cleanup (disk >= 80%). type=day_dir or half_files";
   MRegisterGauge "detectbase_grpc_client_enabled" "GRPC client enabled (1) or disabled (0)";
   MRegisterGauge "detectbase_grpc_client_peer_count" "Number of active GRPC peers";
   MRegisterCounter "detectbase_grpc_send_total" "GRPC RPC send attempts (fire-and-forget aggregate)";
   MRegisterGauge "detectbase_grpc_server_enabled" "GRPC server enabled (1) or disabled (0)";
   MRegisterCounter "detectbase_grpc_recv_total" "GRPC RPC receive count by type";
   MRegisterCounter "detectbase_grpc_send_success_total" "GRPC RPC send completions with OK status";
   MRegisterCounter "detectbase_grpc_send_failed_total" "GRPC RPC send completions with FAIL status"]%string.

(** [RegisterMetricsOnce] of the receivers. *)
Definition receiver_metrics : list MetricsOp :=
  [MRegisterCounter "detectbase_gst_rtsp_frames_total" "GStreamer RTSP frames received and decoded";
   MRegisterCounter "detectbase_gst_rtsp_reconnect_total" "GStreamer RTSP reconnect attempts";
   MRegisterCounter "detectbase_gst_rtsp_errors_total" "GStreamer RTSP bus error events";
   MRegisterCounter "detectbase_gst_rtsp_bus_message_total" "GStreamer RTSP bus message count by cam_id and type (debug trace)";
   MRegisterCounter "detectbase_gst_rtsp_reset_attempt_total" "GstRtspReceiver::ResetSourceOnly attempt count by cam_id and result (debug trace)";
   MRegisterGauge "detectbase_gst_rtsp_last_frame_age_sec" "Seconds since last frame received per cam_id (debug trace)";
   MRegisterCounter "detectbase_gst_rtsp_rtcp_timeout_total" "GstRTSPSrcTimeout cause=RTCP occurrences per cam_id (measurement — behavior unchanged)";
   MRegisterCounter "detectbase_gst_rtsp_depay_buffer_total" "RTP/pre-decode buffers passing rtph264depay src pad per cam_id (stuck-stage trace)";
   MRegisterCounter "detectbase_gst_rtsp_decoded_total" "Decoded frames reaching appsink per cam_id (stuck-stage trace)";
   MRegisterCounter "detectbase_gst_rtsp_rtp_in_total" "Buffers entering rtph264depay sink pad per cam_id (rtspsrc output — stuck-stage trace)";
   MRegisterGauge "detectbase_gst_rtsp_jb_num_pushed" "rtpjitterbuffer num-pushed per cam_id";
   MRegisterGauge "detectbase_gst_rtsp_jb_num_lost" "rtpjitterbuffer num-lost per cam_id";
   MRegisterGauge "detectbase_gst_rtsp_jb_rtx_count" "rtpjitterbuffer rtx-count per cam_id"]%string.

Definition client_metrics : list MetricsOp :=
  [MRegisterCounter "detectbase_gst_rtsp_client_reconnect_total" "GstRtspClient successful reconnect attempts";
   MRegisterCounter "detectbase_gst_rtsp_client_enqueue_drop_total" "GstRtspClient frame drops (queue full)"]%string.

Definition payloader_metrics : list MetricsOp :=
  [MRegisterCounter "detectbase_onvif_metadata_packets_total" "ONVIF metadata RTP packets sent";
   MRegisterCounter "detectbase_onvif_metadata_bytes_total" "ONVIF metadata RTP bytes sent (incl. 12-byte RTP header)";
   MRegisterCounter "detectbase_onvif_metadata_drops_total" "ONVIF metadata push failures (appsrc null / GST_FLOW_* error)"]%string.

Definition unit_metrics : list MetricsOp :=
  [MRegisterCounter "detectbase_correlation_mismatch_total"
     "Correlation ID mismatch between inflight frame and NPU response per cam_id (frame ordering defense counter)"]%string.

(** The names that [IncrementCounter] and [SetGauge] are called with, anywhere in the program. *)
Definition measured : list (Kind * string) :=
  [(Gauge, "detectbase_dfps_total"); (Gauge, "detectbase_camera_count"); (Gauge, "detectbase_frame_disk_used_bytes"); (Gauge, "detectbase_frame_disk_capacity_bytes");
   (Gauge, "detectbase_frame_disk_used_pct"); (Gauge, "detectbase_grpc_client_enabled"); (Gauge, "detectbase_grpc_client_peer_count");
   (Gauge, "detectbase_grpc_server_enabled"); (Gauge, "detectbase_gst_rtsp_last_frame_age_sec"); (Gauge, "detectbase_gst_rtsp_jb_num_pushed");
   (Gauge, "detectbase_gst_rtsp_jb_num_lost"); (Gauge, "detectbase_gst_rtsp_jb_rtx_count");
   (Counter, "detectbase_events_total"); (Counter, "detectbase_errors_total"); (Counter, "detectbase_setting_partial_failure_total");
   (Counter, "detectbase_socketio_reconnect_total"); (Counter, "detectbase_imwrite_skipped_total"); (Counter, "detectbase_frame_cleanup_deleted_total");
   (Counter, "detectbase_frame_emergency_cleanup_total"); (Counter, "detectbase_grpc_send_total"); (Counter, "detectbase_grpc_recv_total");
   (Counter, "detectbase_grpc_send_success_total"); (Counter, "detectbase_grpc_send_failed_total"); (Counter, "detectbase_gst_rtsp_frames_total");
   (Counter, "detectbase_gst_rtsp_reconnect_total"); (Counter, "detectbase_gst_rtsp_errors_total"); (Counter, "detectbase_gst_rtsp_bus_message_total");
   (Counter, "detectbase_gst_rtsp_reset_attempt_total"); (Counter, "detectbase_gst_rtsp_rtcp_timeout_total"); (Counter, "detectbase_gst_rtsp_depay_buffer_total");
   (Counter, "detectbase_gst_rtsp_decoded_total"); (Counter, "detectbase_gst_rtsp_rtp_in_total"); (Counter, "detectbase_gst_rtsp_client_reconnect_total");
   (Counter, "detectbase_gst_rtsp_client_enqueue_drop_total"); (Counter, "detectbase_onvif_metadata_packets_total"); (Counter, "detectbase_onvif_metadata_bytes_total");
   (Counter, "detectbase_onvif_metadata_drops_total"); (Counter, "detectbase_correlation_mismatch_total")]%string.

Definition registers (o : MetricsOp) : option (Kind * string) :=
  match o with
  | MRegisterCounter name _ => Some (Counter, name) | MRegisterGauge name _ => Some (Gauge, name) | MRegisterHistogram name _ _ => Some (Histogram, name)
  | _ => None
  end.

Lemma registered_stays k name o m : is_Some (families k m !! name) -> is_Some (families k (metrics_op m o) !! name).
Proof.
  assert (forall t n f, is_Some (t !! name) -> is_Some ((<[n := f]> t : gmap string nat) !! name)) as Hi.
  { intros t n f H. destruct (decide (n = name)) as [-> |]; [rewrite lookup_insert_eq; by eexists | by rewrite lookup_insert_ne]. }
  assert (forall k' n x, families k (measure_of k' n x m) = families k m) as Hm by (intros; unfold measure_of; destruct (families k' m !! n); by destruct k).
  intros H. destruct o; cbn [metrics_op]; try (unfold IncrementCounter, SetGauge, IncrementGauge, DecrementGauge, ObserveHistogram; by rewrite Hm).
  - unfold Initialize. destruct (initialized m); [done |]. destruct (p <=? 0)%Z; by destruct k.
  - by destruct k.
  - unfold RegisterCounter. destruct (counter_families m !! _); [done |]. destruct k; [by apply Hi | done | done].
  - unfold RegisterGauge. destruct (gauge_families m !! _); [done |]. destruct k; [done | by apply Hi | done].
  - unfold RegisterHistogram. destruct (histogram_families m !! _); [done |]. destruct k; [done | done | by apply Hi].
Qed.

Lemma register_registers k name o m : registers o = Some (k, name) -> is_Some (families k (metrics_op m o) !! name).
Proof.
  intros H. destruct o; try done; cbn in H; injection H as <- <-; cbn [metrics_op].
  - unfold RegisterCounter. destruct (counter_families m !! _) eqn:E; [by eexists |]. cbn. rewrite lookup_insert_eq. by eexists.
  - unfold RegisterGauge. destruct (gauge_families m !! _) eqn:E; [by eexists |]. cbn. rewrite lookup_insert_eq. by eexists.
  - unfold RegisterHistogram. destruct (histogram_families m !! _) eqn:E; [by eexists |]. cbn. rewrite lookup_insert_eq. by eexists.
Qed.

(** In a run in which the service and its parts have been started, among anything else and in any order,
    no measure of the program is lost. *)
Lemma every_measure_registered l :
  service_metrics ++ receiver_metrics ++ client_metrics ++ payloader_metrics ++ unit_metrics ⊆ l ->
  forall k name, (k, name) ∈ measured -> is_Some (families k (metrics_ops MetricsRegistry_make l) !! name).
Proof.
  intros Hl k name Hin.
  assert (exists o, o ∈ l /\ registers o = Some (k, name)) as (o & Ho & Hr).
  { assert (forallb (fun kn => existsb (fun o => bool_decide (registers o = Some kn))
        (service_metrics ++ receiver_metrics ++ client_metrics ++ payloader_metrics ++ unit_metrics)) measured = true) as Hc by (vm_compute; reflexivity).
    rewrite forallb_forall in Hc. apply list_elem_of_In in Hin. specialize (Hc _ Hin). apply existsb_exists in Hc as (o & Ho & Hr%bool_decide_eq_true).
    exists o. split; [by apply Hl, list_elem_of_In | done]. }
  apply list_elem_of_split in Ho as (l1 & l2 & ->). unfold metrics_ops. rewrite fold_left_app. cbn [fold_left].
  generalize (register_registers k name o (fold_left metrics_op l1 MetricsRegistry_make) Hr). generalize (metrics_op (fold_left metrics_op l1 MetricsRegistry_make) o). clear.
  induction l2 as [| o l IH]; intros m H; [done |]. cbn [fold_left]. by apply IH, registered_stays.
Qed.
