(* ===== verification/RtspPipeline.v ===== *)
(** * The pipeline of a receiver

    What [Protocol/RTSP_GST/src/GstRtspReceiver.cpp] gives to GStreamer and what it looks at while
    the pipeline runs: the text of the pipeline that [BuildPipeline] hands to [gst_parse_launch],
    the raw samples, the levels of the queues, the probes, and the jitter buffer whose
    statistics a timer reads.  [RtspReceiver] has the life of the pipeline. *)

From Stdlib Require Import String Ascii.
From stdpp Require Import gmap pretty.
From S2P Require Import Prelude Float32 StringUtils Metrics.
Open Scope Z_scope.
Open Scope list_scope.

(** ** The configuration *)

Record Config := mkConfig {
  url : string; user_id : string; user_pw : string;
  latency_ms : Z; timeout_us : Z; tcp_timeout_us : Z;
  do_retransmission : bool; keepalive : bool; appsink_max_buffers : Z;
  rcv_cam_id : Z; raw_passthrough : bool
}.

(** [GstRtspClient::StartReceiver]: the other fields keep their defaults. *)
Definition receiver_config (rtsp_url id pw : string) (latency cam_id : Z) (raw : bool) : Config :=
  mkConfig rtsp_url id pw latency 2000000 5000000 true true 2 cam_id raw.

(** ** The text of the pipeline *)

Section Text.
Local Open Scope string_scope.

Definition bool_text (b : bool) : string := if b then "true" else "false".

(** The source, which both pipelines have. *)
Definition source_desc (c : Config) (rest : string) : string :=
  "rtspsrc name=src location=" ++ url c ++ " latency=" ++ pretty (latency_ms c) ++ " " ++
  "    timeout=" ++ pretty (timeout_us c) ++ " tcp-timeout=" ++ pretty (tcp_timeout_us c) ++ " do-retransmission=" ++ bool_text (do_retransmission c) ++ " " ++
  "    keepalive=true udp-buffer-size=2097152 " ++
  "    user-id=" ++ user_id c ++ " user-pw=" ++ user_pw c ++ " " ++ rest.

Definition pipeline_desc (c : Config) : string :=
  if raw_passthrough c then
    source_desc c
     ("  ! rtph264depay name=depay ! h264parse " ++
      "  ! tee name=tee_h264 " ++
      "tee_h264. ! queue max-size-buffers=4 leaky=downstream " ++
      "  ! avdec_h264 ! videoconvert ! video/x-raw,format=I420 " ++
      "  ! appsink name=sink emit-signals=true sync=false max-buffers=" ++ pretty (appsink_max_buffers c) ++ " drop=true " ++
      "tee_h264. ! queue max-size-buffers=8 leaky=downstream " ++
      "  ! rtph264pay pt=96 config-interval=1 " ++
      "  ! appsink name=raw_sink emit-signals=true sync=false max-buffers=20 drop=true")
  else
    source_desc c
     ("  ! rtph264depay name=depay ! h264parse " ++
      "  ! queue name=decodeq max-size-buffers=4 leaky=downstream " ++
      "  ! avdec_h264 ! videoconvert ! video/x-raw,format=I420 " ++
      "  ! appsink name=sink emit-signals=true sync=false max-buffers=" ++ pretty (appsink_max_buffers c) ++ " drop=true").
End Text.

(** ** Samples and levels *)

(** What [OnNewRawSample] does with a sample, in its order. *)
Inductive RawCall := GetBuffer | MapBuffer | RawCallback (data : list Z) | UnmapBuffer | UnrefSample.

(** [sample]: one was pulled, with its buffer if it has one, and the bytes if they can be mapped.  An
    exception of the callback is caught. *)
Definition OnNewRawSample (has_cb : bool) (sample : option (option (option (list Z)))) : list RawCall :=
  match sample with
  | None => []
  | Some buf =>
      GetBuffer :: match buf with
                   | Some map => if has_cb then MapBuffer :: match map with Some data => [RawCallback data; UnmapBuffer] | None => [] end else []
                   | None => []
                   end ++ [UnrefSample]
  end.

(** The levels of the sinks that there are; the sum is 32 bits wide. *)
Definition GetAppSinkQueuedBuffers (appsink raw_appsink : option Z) : Z :=
  let total := 0 in
  let total := match appsink with Some level => u32 (total + level) | None => total end in
  match raw_appsink with Some level => u32 (total + level) | None => total end.

(** ** The probes *)

Definition cam_labels (cam_id : Z) : list (string * string) := [("cam_id"%string, pretty cam_id)].

Definition OnDepayBufferProbe (c : Config) (m : MetricsRegistry) : MetricsRegistry :=
  IncrementCounter "detectbase_gst_rtsp_depay_buffer_total" (cam_labels (rcv_cam_id c)) (f64_of_Z 1) m.

Definition OnRtpInProbe (c : Config) (m : MetricsRegistry) : MetricsRegistry :=
  IncrementCounter "detectbase_gst_rtsp_rtp_in_total" (cam_labels (rcv_cam_id c)) (f64_of_Z 1) m.

(** ** The jitter buffer *)

(** The fields of the structure with the statistics, those that are in it. *)
Record JitterStats := mkStatsOf { num_pushed : option Z; num_lost : option Z; num_late : option Z; rtx_count : option Z }.

(** Only the first jitter buffer after the build is kept, without a reference to it. *)
Definition OnNewJitterbuffer (jb : nat) (jitterbuffer : option nat) : option nat :=
  match jitterbuffer with None => Some jb | Some _ => jitterbuffer end.

(** The element whose statistics a turn of the timer reads. *)
Definition timer_reads (running : bool) (jitterbuffer : option nat) : option nat := if running then jitterbuffer else None.

(** [stats]: the property of the element. *)
Definition OnJitterStatsTimer (c : Config) (running : bool) (jitterbuffer : option nat) (stats : nat -> option JitterStats) (m : MetricsRegistry) : MetricsRegistry :=
  match timer_reads running jitterbuffer ≫= stats with
  | None => m
  | Some s =>
      let labels := cam_labels (rcv_cam_id c) in
      let gauge name (v : option Z) := SetGauge name labels (f64_of_Z (default 0 v)) in
      gauge "detectbase_gst_rtsp_jb_rtx_count"%string (rtx_count s)
        (gauge "detectbase_gst_rtsp_jb_num_lost"%string (num_lost s)
           (gauge "detectbase_gst_rtsp_jb_num_pushed"%string (num_pushed s) m))
  end.

(** The elements that are alive, against the one that the receiver remembers.  [ManagerGone]: the
    source gives up its manager with these elements, as it does when it opens its streams again. *)
Record JitterWorld := mkJitter { built : bool; jitterbuffer_ : option nat; alive : gset nat }.

Inductive jitter_step : JitterWorld -> JitterWorld -> Prop :=
| JitterBuild w : built w = false -> jitter_step w (mkJitter true None ∅)
| JitterNew w jb : built w = true -> jb ∉ alive w -> jitter_step w (mkJitter true (OnNewJitterbuffer jb (jitterbuffer_ w)) ({[jb]} ∪ alive w))
| JitterTeardown w : built w = true -> jitter_step w (mkJitter false None ∅).

Inductive ManagerGone (w : JitterWorld) : JitterWorld -> Prop :=
| Manager_gone d : built w = true -> d ⊆ alive w -> ManagerGone w (mkJitter true (jitterbuffer_ w) (alive w ∖ d)).

(** * Theorems *)

(** ** The words of the pipeline *)

(** The words of a text, between its spaces; [w] is the word that was begun. *)
Fixpoint words_from (w : string) (s : string) : list string :=
  match s with
  | EmptyString => if String.eqb w "" then [] else [w]
  | String c s => if Ascii.eqb c " " then (if String.eqb w "" then [] else [w]) ++ words_from "" s else words_from (w ++ String c "") s
  end.

Definition words (s : string) : list string := words_from "" s.

(** No spaces. *)
Definition one_word (s : string) : Prop := without " " s.

(** The words that a part of a text ends, and the word it leaves open. *)
Fixpoint scan_words (w s : string) : list string * string :=
  match s with
  | EmptyString => ([], w)
  | String c s =>
      if Ascii.eqb c " " then let '(l, w') := scan_words "" s in ((if String.eqb w "" then [] else [w]) ++ l, w') else scan_words (w ++ String c "") s
  end.

Lemma words_from_app a w s : words_from w (a ++ s)%string = fst (scan_words w a) ++ words_from (snd (scan_words w a)) s.
Proof.
  revert w. induction a as [| c a IH]; intros w; [done |]. rewrite append_cons. cbn [words_from scan_words].
  destruct (Ascii.eqb c " "); [| apply IH]. rewrite IH. destruct (scan_words "" a) as [l w']. cbn [fst snd]. by rewrite <- app_assoc.
Qed.

Lemma scan_one_word x w : one_word x -> scan_words w x = ([], w ++ x)%string.
Proof.
  revert w. induction x as [| c x IH]; intros w Hx; [by rewrite append_nil |]. apply chars_cons in Hx as [Hc Hx]. cbn [scan_words].
  rewrite (proj2 (Ascii.eqb_neq c " ") Hc), IH by done. by rewrite append_assoc'.
Qed.

Lemma one_word_pretty (z : Z) : one_word (pretty z).
Proof. apply chars_pretty; [by apply digits_are_not | done]. Qed.

Lemma one_word_bool b : one_word (bool_text b).
Proof. destruct b; repeat constructor; done. Qed.

#[local] Hint Resolve one_word_pretty one_word_bool : mgen.

(** The words of the source, with the values of the configuration. *)
Definition source_words (c : Config) : list string :=
  ["rtspsrc"; "name=src"; "location=" ++ url c; "latency=" ++ pretty (latency_ms c); "timeout=" ++ pretty (timeout_us c); "tcp-timeout=" ++ pretty (tcp_timeout_us c);
   "do-retransmission=" ++ bool_text (do_retransmission c); "keepalive=true"; "udp-buffer-size=2097152"; "user-id=" ++ user_id c; "user-pw=" ++ user_pw c]%string.

Definition decode_words : list string := ["!"; "avdec_h264"; "!"; "videoconvert"; "!"; "video/x-raw,format=I420"]%string.
Definition sink_words (c : Config) : list string := ["!"; "appsink"; "name=sink"; "emit-signals=true"; "sync=false"; "max-buffers=" ++ pretty (appsink_max_buffers c); "drop=true"]%string.
Definition raw_words : list string := ["tee_h264."; "!"; "queue"; "max-size-buffers=8"; "leaky=downstream"; "!"; "rtph264pay"; "pt=96"; "config-interval=1"; "!"; "appsink"; "name=raw_sink"; "emit-signals=true"; "sync=false"; "max-buffers=20"; "drop=true"]%string.

Definition pipeline_words (c : Config) : list string :=
  source_words c ++ ["!"; "rtph264depay"; "name=depay"; "!"; "h264parse"]%string ++
  (if raw_passthrough c then ["!"; "tee"; "name=tee_h264"; "tee_h264."; "!"; "queue"; "max-size-buffers=4"; "leaky=downstream"]%string ++ decode_words ++ sink_words c ++ raw_words
   else ["!"; "queue"; "name=decodeq"; "max-size-buffers=4"; "leaky=downstream"]%string ++ decode_words ++ sink_words c).

(** The description has exactly the words that are meant, each value of the configuration in the word
    of its property, if address, user and password have no space. *)
Theorem description_words c : one_word (url c) -> one_word (user_id c) -> one_word (user_pw c) -> words (pipeline_desc c) = pipeline_words c.
Proof.
  intros Hu Hi Hp. unfold words, pipeline_desc, pipeline_words, source_words, source_desc, sink_words. destruct (raw_passthrough c); rewrite !words_from_app, (scan_one_word (url c)), (scan_one_word (user_id c)), (scan_one_word (user_pw c)), !(scan_one_word (pretty _)), (scan_one_word (bool_text _)) by auto with mgen; reflexivity.
Qed.

(** A space in the password ends its word: what follows is a word of its own for [gst_parse_launch]. *)
Lemma password_splits c a b : one_word (url c) -> one_word (user_id c) -> one_word a -> one_word b -> b <> ""%string -> user_pw c = (a ++ String " " b)%string ->
  words (pipeline_desc c) = take 10 (pipeline_words c) ++ [("user-pw=" ++ a)%string; b] ++ drop 11 (pipeline_words c).
Proof.
  intros Hu Hi Ha Hb Hne Hp. unfold words, pipeline_desc, pipeline_words, source_words, source_desc, sink_words. rewrite Hp. change (String " " b) with (" " ++ b)%string. rewrite !(append_assoc' a), !(append_assoc' " ").
  destruct b as [| ch b]; [done |].
  destruct (raw_passthrough c); rewrite !words_from_app, (scan_one_word (url c)), (scan_one_word (user_id c)), (scan_one_word a), (scan_one_word (String ch b)), !(scan_one_word (pretty _)), (scan_one_word (bool_text _)) by auto with mgen; reflexivity.
Qed.

(** ** Raw samples *)

(** A sample that was pulled is given back once, at the end; a buffer that was mapped for the callback is unmapped
    after it; the callback sees exactly the bytes of the buffer. *)
Lemma raw_sample_balanced has_cb sample :
  match sample with
  | None => OnNewRawSample has_cb sample = []
  | Some buf => exists l, OnNewRawSample has_cb sample = l ++ [UnrefSample] /\ (UnrefSample ∉ l) /\
      (forall data, (RawCallback data ∈ l) <-> (has_cb = true /\ buf = Some (Some data))) /\ (forall l1 l2 data, l = l1 ++ RawCallback data :: l2 -> l2 = [UnmapBuffer])
  end.
Proof.
  destruct sample as [buf |]; [| done]. destruct buf as [[data |] |]; destruct has_cb; cbn [OnNewRawSample].
  - exists [GetBuffer; MapBuffer; RawCallback data; UnmapBuffer]. split; [done |]. split; [set_solver |]. split; [set_solver |].
    intros l1 l2 d H. destruct l1 as [| ? [| ? [| ? [| ? [| ? l1]]]]]; by simplify_list_eq.
  - exists [GetBuffer]. split; [done |]. split; [set_solver |]. split; [set_solver |]. intros l1 l2 d H. destruct l1 as [| ? [| ? l1]]; by simplify_list_eq.
  - exists [GetBuffer; MapBuffer]. split; [done |]. split; [set_solver |]. split; [set_solver |]. intros l1 l2 d H. destruct l1 as [| ? [| ? [| ? l1]]]; by simplify_list_eq.
  - exists [GetBuffer]. split; [done |]. split; [set_solver |]. split; [set_solver |]. intros l1 l2 d H. destruct l1 as [| ? [| ? l1]]; by simplify_list_eq.
  - exists [GetBuffer]. split; [done |]. split; [set_solver |]. split; [set_solver |]. intros l1 l2 d H. destruct l1 as [| ? [| ? l1]]; by simplify_list_eq.
  - exists [GetBuffer]. split; [done |]. split; [set_solver |]. split; [set_solver |]. intros l1 l2 d H. destruct l1 as [| ? [| ? l1]]; by simplify_list_eq.
Qed.

(** ** The jitter buffer *)

Definition jitter_start : JitterWorld := mkJitter false None ∅.

(** As long as the source keeps its manager, the timer reads an element that is alive. *)
Theorem timer_reads_alive w running jb : rtc jitter_step jitter_start w -> timer_reads running (jitterbuffer_ w) = Some jb -> jb ∈ alive w.
Proof.
  intros Hr. assert (forall jb, jitterbuffer_ w = Some jb -> jb ∈ alive w) as Hw; [| by destruct running; [apply Hw |]].
  revert Hr. apply (rtc_ind_r (fun w => forall jb, jitterbuffer_ w = Some jb -> jb ∈ alive w)); [done |]. intros w1 w2 _ Hs IH jb' H. destruct Hs as [w1 | w1 j Hb Hj | w1]; cbn in H; [done | | done].
  unfold OnNewJitterbuffer in H. cbn [alive]. destruct (jitterbuffer_ w1) as [j' |] eqn:E; injection H as <-; [specialize (IH _ eq_refl); set_solver | set_solver].
Qed.

(** When the source gives up its manager and makes a new one, the pointer to the first jitter buffer
    stays: the timer reads an element that is gone, and the new one is never looked at. *)
Lemma timer_reads_freed : exists w1 w2 w3, rtc jitter_step jitter_start w1 /\ ManagerGone w1 w2 /\ jitter_step w2 w3 /\
  timer_reads true (jitterbuffer_ w3) = Some 1%nat /\ (1%nat ∉ alive w3) /\ (2%nat ∈ alive w3).
Proof.
  exists (mkJitter true (Some 1%nat) ({[1%nat]} ∪ ∅)), (mkJitter true (Some 1%nat) (({[1%nat]} ∪ ∅) ∖ {[1%nat]})), (mkJitter true (Some 1%nat) ({[2%nat]} ∪ (({[1%nat]} ∪ ∅) ∖ {[1%nat]}))). split.
  - eapply rtc_l; [by apply JitterBuild |]. eapply rtc_l; [refine (JitterNew (mkJitter true None ∅) 1%nat eq_refl _); set_solver |]. apply rtc_refl.
  - split; [refine (Manager_gone (mkJitter true (Some 1%nat) ({[1%nat]} ∪ ∅)) {[1%nat]} eq_refl _); cbn; set_solver |].
    split; [refine (JitterNew (mkJitter true (Some 1%nat) (({[1%nat]} ∪ ∅) ∖ {[1%nat]})) 2%nat eq_refl _); cbn; set_solver |]. cbn. set_solver.
Qed.

(** A password that adds an element to the pipeline. *)
Example password_adds_a_sink :
  words (pipeline_desc (receiver_config "rtsp://10.0.0.9/live" "admin" "a ! fakesink name=sink" 200 7 false)) =
    take 10 (pipeline_words (receiver_config "rtsp://10.0.0.9/live" "admin" "" 200 7 false)) ++ ["user-pw=a"; "!"; "fakesink"; "name=sink"]%string ++ drop 11 (pipeline_words (receiver_config "rtsp://10.0.0.9/live" "admin" "" 200 7 false)).
Proof. vm_compute. reflexivity. Qed.
