(* ===== verification/Profiling.v ===== *)
(** * Profiles of the threads of a unit

    The inference, response and event threads of [Main/DETECTOR/src/RtspDetectorUnit.cpp] measure
    their stages and the queues: every cycle adds to a profile, and every hundred cycles the
    means and the largest values are written to the log and a new profile begins.  The
    readings of a cycle (times in microseconds, sizes of queues, counters of other parts) are its
    argument; a profile gives each field its value, an [uint64_t]. *)

From S2P Require Import Prelude.
Open Scope Z_scope.
Open Scope list_scope.

(** [sum += x] and [if( x > max ) max = x]. *)
Definition plus (sum x : Z) : Z := u64 (sum + x).
Definition peak (max x : Z) : Z := if max <? x then x else max.

Definition WINDOW : Z := 100.

(** ** Inference thread *)

Inductive InfField :=
| inf_dq_us | inf_pre_us | inf_req_us | inf_push_us | inf_avframe_size_sum | inf_avframe_size_max | inf_inflight_size_sum | inf_inflight_size_max | inf_count.

Definition InfProf : Type := InfField -> Z.
Definition InfProf_make : InfProf := fun _ => 0.

Record InfCycle := mkInfCycle { ic_dq : Z; ic_pre : Z; ic_req : Z; ic_push : Z; ic_avframe : Z; ic_inflight : Z; ic_gst_buf : Z; ic_cam_int : Z }.

Definition inf_add (c : InfCycle) (p : InfProf) : InfProf := fun f =>
  match f with
  | inf_dq_us => plus (p f) (ic_dq c) | inf_pre_us => plus (p f) (ic_pre c) | inf_req_us => plus (p f) (ic_req c) | inf_push_us => plus (p f) (ic_push c)
  | inf_avframe_size_sum => plus (p f) (ic_avframe c) | inf_avframe_size_max => peak (p f) (ic_avframe c)
  | inf_inflight_size_sum => plus (p f) (ic_inflight c) | inf_inflight_size_max => peak (p f) (ic_inflight c)
  | inf_count => plus (p f) 1
  end.

(** The numbers of the log line, in their order. *)
Definition inf_report (c : InfCycle) (p : InfProf) : list Z :=
  let n := p inf_count in
  [n; p inf_dq_us / n; p inf_pre_us / n; p inf_req_us / n; p inf_push_us / n; u64 (p inf_dq_us + p inf_pre_us + p inf_req_us + p inf_push_us) / n;
   p inf_avframe_size_sum / n; p inf_avframe_size_max; p inf_inflight_size_sum / n; p inf_inflight_size_max; ic_gst_buf c; ic_cam_int c].

(** ** Response thread *)

Inductive RspField :=
| rsp_ifq_us | rsp_resp_us | rsp_trk_us | rsp_meta_us | rsp_ev_us | rsp_io_size_sum | rsp_io_size_max | rsp_trk_cnt_sum | rsp_trk_cnt_max
| rsp_lb_resp_size_sum | rsp_lb_resp_size_max | rsp_lb_input_size_sum | rsp_lb_input_size_max | rsp_sched_count | rsp_trk_obj_count
| rsp_sio_emit_count | rsp_grpc_send_count | rsp_avf_alive_sum | rsp_avf_alive_max | rsp_reset_cnt_total | rsp_kalman_alive_sum | rsp_kalman_alive_max
| rsp_kalman_created_total | rsp_lb_pending_sum | rsp_lb_pending_max | rsp_ev_path_count | rsp_ev_json_kb_sum | rsp_ev_push_count | rsp_anon_mb_sample
| rsp_avframe_drop_total | rsp_inflight_drop_total | rsp_event_drop_total | rsp_io_drop_total | rsp_resp_wait_us_sum | rsp_resp_wait_us_max
| rsp_resp_merge_us_sum | rsp_resp_merge_us_max | rsp_resp_obj_count_sum | rsp_resp_obj_count_max | rsp_event_q_size_sum | rsp_event_q_size_max | rsp_count.

Definition RspProf : Type := RspField -> Z.
Definition RspProf_make : RspProf := fun _ => 0.

(** [rc_event]: there are tracks, which go to the event thread.  [rc_jemalloc]: allocated, active,
    resident, mapped. *)
Record RspCycle := mkRspCycle {
  rc_event : bool; rc_ifq : Z; rc_resp : Z; rc_trk : Z; rc_meta : Z; rc_ev : Z; rc_resp_wait : Z; rc_resp_merge : Z; rc_resp_obj : Z; rc_io_size : Z; rc_trk_cnt : Z;
  rc_lb_resp : Z; rc_lb_input : Z; rc_sched : Z; rc_trackers : Z; rc_avf_alive : Z; rc_kalman_alive : Z; rc_kalman_created : Z; rc_cam_result_q : Z;
  rc_dispatcher_entries : Z; rc_reset : Z; rc_drops : Z * Z * Z * Z; rc_event_q_size : Z; rc_anon_kb : Z; rc_jemalloc : Z * Z * Z * Z
}.

(** After the responses, whatever the tracks are. *)
Definition rsp_responses (c : RspCycle) (p : RspProf) : RspProf := fun f =>
  match f with
  | rsp_resp_wait_us_sum => plus (p f) (rc_resp_wait c) | rsp_resp_wait_us_max => peak (p f) (rc_resp_wait c)
  | rsp_resp_merge_us_sum => plus (p f) (rc_resp_merge c) | rsp_resp_merge_us_max => peak (p f) (rc_resp_merge c)
  | rsp_resp_obj_count_sum => plus (p f) (rc_resp_obj c) | rsp_resp_obj_count_max => peak (p f) (rc_resp_obj c)
  | _ => p f
  end.

(** What both ends of a cycle add. *)
Definition rsp_stages (c : RspCycle) (p : RspProf) : RspProf := fun f =>
  match f with
  | rsp_ifq_us => plus (p f) (rc_ifq c) | rsp_resp_us => plus (p f) (rc_resp c) | rsp_trk_us => plus (p f) (rc_trk c)
  | rsp_meta_us => plus (p f) (rc_meta c) | rsp_ev_us => plus (p f) (rc_ev c)
  | rsp_io_size_sum => plus (p f) (rc_io_size c) | rsp_io_size_max => peak (p f) (rc_io_size c)
  | rsp_trk_cnt_sum => plus (p f) (rc_trk_cnt c) | rsp_trk_cnt_max => peak (p f) (rc_trk_cnt c)
  | rsp_lb_resp_size_sum => plus (p f) (rc_lb_resp c) | rsp_lb_resp_size_max => peak (p f) (rc_lb_resp c)
  | rsp_lb_input_size_sum => plus (p f) (rc_lb_input c) | rsp_lb_input_size_max => peak (p f) (rc_lb_input c)
  | rsp_sched_count => rc_sched c | rsp_trk_obj_count => rc_trackers c
  | rsp_avf_alive_sum => plus (p f) (rc_avf_alive c) | rsp_avf_alive_max => peak (p f) (rc_avf_alive c)
  | rsp_kalman_alive_sum => plus (p f) (rc_kalman_alive c) | rsp_kalman_alive_max => peak (p f) (rc_kalman_alive c)
  | rsp_kalman_created_total => rc_kalman_created c | rsp_reset_cnt_total => rc_reset c
  | rsp_count => plus (p f) 1
  | _ => p f
  end.

(** Without tracks: the queues of the cameras and the losses of the queues are read too. *)
Definition rsp_empty_path (c : RspCycle) (p : RspProf) : RspProf := fun f =>
  let '(avf, inf, ev, io) := rc_drops c in
  match f with
  | rsp_lb_pending_sum => plus (p f) (rc_cam_result_q c) | rsp_lb_pending_max => peak (p f) (rc_cam_result_q c)
  | rsp_avframe_drop_total => avf | rsp_inflight_drop_total => inf | rsp_event_drop_total => ev | rsp_io_drop_total => io
  | _ => rsp_stages c p f
  end.

(** With tracks: the entries of the dispatcher are read instead. *)
Definition rsp_event_path (c : RspCycle) (p : RspProf) : RspProf := fun f =>
  match f with
  | rsp_event_q_size_sum => plus (p f) (rc_event_q_size c) | rsp_event_q_size_max => peak (p f) (rc_event_q_size c)
  | rsp_ev_path_count => plus (p f) 1
  | rsp_lb_pending_sum => plus (p f) (rc_dispatcher_entries c) | rsp_lb_pending_max => peak (p f) (rc_dispatcher_entries c)
  | _ => rsp_stages c p f
  end.

Definition rsp_add (c : RspCycle) (p : RspProf) : RspProf :=
  let p := rsp_responses c p in if rc_event c then rsp_event_path c p else rsp_empty_path c p.

Definition rsp_report (c : RspCycle) (p : RspProf) : list Z :=
  let n := p rsp_count in let '(alloc, active, resident, mapped) := rc_jemalloc c in
  [n; p rsp_ifq_us / n; p rsp_resp_us / n; p rsp_trk_us / n; p rsp_meta_us / n; p rsp_ev_us / n;
   u64 (p rsp_ifq_us + p rsp_resp_us + p rsp_trk_us + p rsp_meta_us + p rsp_ev_us) / n; p rsp_resp_wait_us_sum / n; p rsp_resp_wait_us_max;
   p rsp_resp_merge_us_sum / n; p rsp_resp_merge_us_max; p rsp_resp_obj_count_sum / n; p rsp_resp_obj_count_max; p rsp_event_q_size_sum / n;
   p rsp_event_q_size_max; p rsp_io_size_sum / n; p rsp_io_size_max; p rsp_trk_cnt_sum / n; p rsp_trk_cnt_max; p rsp_lb_resp_size_sum / n;
   p rsp_lb_resp_size_max; p rsp_lb_input_size_sum / n; p rsp_lb_input_size_max; p rsp_sched_count; p rsp_trk_obj_count; p rsp_sio_emit_count;
   p rsp_grpc_send_count; alloc / 1024; active / 1024; resident / 1024; mapped / 1024; p rsp_avf_alive_sum / n; p rsp_avf_alive_max;
   p rsp_reset_cnt_total; p rsp_kalman_alive_sum / n; p rsp_kalman_alive_max; p rsp_kalman_created_total; p rsp_lb_pending_sum / n; p rsp_lb_pending_max;
   p rsp_ev_path_count; p rsp_ev_json_kb_sum; p rsp_ev_push_count; rc_anon_kb c / 1024; p rsp_avframe_drop_total; p rsp_inflight_drop_total;
   p rsp_event_drop_total; p rsp_io_drop_total].

(** ** Event thread *)

Inductive EvtField :=
| evt_pop_us | evt_sched_us | evt_conv_us | evt_sio_us | evt_grpc_us | evt_event_q_size_sum | evt_event_q_size_max | evt_io_q_size_sum | evt_io_q_size_max
| evt_json_bytes_sum | evt_json_bytes_max | evt_event_list_size_sum | evt_event_list_size_max | evt_sio_emit_count | evt_grpc_send_count
| evt_empty_cycle_count | evt_event_drop_total | evt_io_drop_total | evt_count.

Definition EvtProf : Type := EvtField -> Z.
Definition EvtProf_make : EvtProf := fun _ => 0.

(** A cycle without schedules or without a directory, one in which nothing was reported, one with
    events.  A cycle whose snapshot fails adds nothing. *)
Inductive EvtEnd := EvtSkipped | EvtQuiet | EvtReported.

Record EvtCycle := mkEvtCycle {
  vc_end : EvtEnd; vc_pop : Z; vc_sched : Z; vc_conv : Z; vc_sio : Z; vc_grpc : Z; vc_event_q : Z; vc_io_q : Z; vc_json : Z; vc_events : Z;
  vc_sio_emit : Z; vc_grpc_send : Z; vc_event_drop : Z; vc_io_drop : Z
}.

Definition evt_add (c : EvtCycle) (p : EvtProf) : EvtProf := fun f =>
  match vc_end c with
  | EvtSkipped => match f with evt_empty_cycle_count => plus (p f) 1 | _ => p f end
  | EvtQuiet =>
      match f with
      | evt_pop_us => plus (p f) (vc_pop c) | evt_sched_us => plus (p f) (vc_sched c)
      | evt_event_q_size_sum => plus (p f) (vc_event_q c) | evt_event_q_size_max => peak (p f) (vc_event_q c)
      | evt_empty_cycle_count => plus (p f) 1
      | _ => p f
      end
  | EvtReported =>
      match f with
      | evt_pop_us => plus (p f) (vc_pop c) | evt_sched_us => plus (p f) (vc_sched c) | evt_conv_us => plus (p f) (vc_conv c)
      | evt_sio_us => plus (p f) (vc_sio c) | evt_grpc_us => plus (p f) (vc_grpc c)
      | evt_event_q_size_sum => plus (p f) (vc_event_q c) | evt_event_q_size_max => peak (p f) (vc_event_q c)
      | evt_io_q_size_sum => plus (p f) (vc_io_q c) | evt_io_q_size_max => peak (p f) (vc_io_q c)
      | evt_json_bytes_sum => plus (p f) (vc_json c) | evt_json_bytes_max => peak (p f) (vc_json c)
      | evt_event_list_size_sum => plus (p f) (vc_events c) | evt_event_list_size_max => peak (p f) (vc_events c)
      | evt_sio_emit_count => plus (p f) (vc_sio_emit c) | evt_grpc_send_count => plus (p f) (vc_grpc_send c)
      | evt_count => plus (p f) 1
      | _ => p f
      end
  end.

Definition evt_report (c : EvtCycle) (p : EvtProf) : list Z :=
  let n := p evt_count in let denom := Z.max (u64 (n + p evt_empty_cycle_count)) 1 in
  [n; p evt_empty_cycle_count; p evt_pop_us / denom; p evt_sched_us / denom; p evt_conv_us / n; p evt_sio_us / n; p evt_grpc_us / n;
   p evt_event_q_size_sum / denom; p evt_event_q_size_max; p evt_io_q_size_sum / n; p evt_io_q_size_max; p evt_json_bytes_sum / n; p evt_json_bytes_max;
   p evt_event_list_size_sum / n; p evt_event_list_size_max; p evt_sio_emit_count; p evt_grpc_send_count; vc_event_drop c; vc_io_drop c].

(** ** Cycles *)

Section Cycles.
Context {P S : Type} (fresh : P) (add : S -> P -> P) (count : P -> Z) (report : S -> P -> list Z).

(** A cycle adds to the profile; at a hundred there is a line in the log and a new profile. *)
Definition cycle (st : list (list Z) * P) (c : S) : list (list Z) * P :=
  let p := add c (snd st) in
  if WINDOW <=? count p then (fst st ++ [report c p], fresh) else (fst st, p).

Definition cycles (l : list S) : list (list Z) * P := fold_left cycle l ([], fresh).
End Cycles.

Definition inf_cycles := cycles InfProf_make inf_add (fun p => p inf_count) inf_report.
Definition rsp_cycles := cycles RspProf_make rsp_add (fun p => p rsp_count) rsp_report.
Definition evt_cycles := cycles EvtProf_make evt_add (fun p => p evt_count) evt_report.

(** ** Properties *)

Section Windows.
Context {P S : Type} (fresh : P) (add : S -> P -> P) (count : P -> Z) (report : S -> P -> list Z) (weight : S -> Z).
Context (Hfresh : count fresh = 0) (Hw : forall s, weight s = 0 \/ weight s = 1) (Hadd : forall s p, 0 <= count p < WINDOW -> count (add s p) = count p + weight s).

Definition profile_of (w : list S) : P := fold_left (fun p s => add s p) w fresh.
Definition weights (w : list S) : Z := foldr (fun s z => weight s + z) 0 w.

(** A window is its cycles and the one that completes it. *)
Definition window_line (w : list S * S) : list Z := report (snd w) (profile_of (fst w ++ [snd w])).
Definition whole (w : list S * S) : Prop := weight (snd w) = 1 /\ weights (fst w) = WINDOW - 1.

Lemma weights_app a b : weights (a ++ b) = weights a + weights b.
Proof. induction a as [| s a IH]; cbn; [done |]. fold (weights (a ++ b)) (weights a). lia. Qed.

Lemma weights_nonneg w : 0 <= weights w.
Proof. induction w as [| s w IH]; cbn; [done |]. fold (weights w). destruct (Hw s); lia. Qed.

Lemma profile_count w : weights w < WINDOW -> count (profile_of w) = weights w.
Proof.
  induction w as [| s w IH] using rev_ind; [done |]. rewrite weights_app. change (weights [s]) with (weight s + 0). intros H. pose proof (weights_nonneg w). unfold profile_of in *.
  assert (weights w < WINDOW) as Hlt by (destruct (Hw s); lia). specialize (IH Hlt). rewrite fold_left_app. cbn [fold_left]. rewrite Hadd; lia.
Qed.

(** The lines of the log are the profiles of successive windows of a hundred counted cycles, and the
    current profile is that of the rest. *)
Lemma cycles_windows l :
  exists ws rest, l = concat (map (fun w => fst w ++ [snd w]) ws) ++ rest /\ Forall whole ws /\ weights rest < WINDOW /\
    cycles fresh add count report l = (map window_line ws, profile_of rest).
Proof.
  induction l as [| s l (ws & rest & -> & Hws & Hr & E)] using rev_ind; [by exists [], [] |].
  unfold cycles in *. rewrite fold_left_app, E. cbn [fold_left]. unfold cycle. cbn [fst snd].
  pose proof (weights_nonneg rest) as Hp. pose proof (profile_count rest Hr) as Hc. rewrite (Hadd s (profile_of rest)) by (rewrite Hc; by split). rewrite Hc. destruct (Z.leb_spec WINDOW (weights rest + weight s)) as [Hf | Hn].
  - exists (ws ++ [(rest, s)]), []. split_and!.
    + rewrite map_app, concat_app. cbn. by rewrite !app_nil_r, app_assoc.
    + apply Forall_app. split; [done |]. constructor; [| constructor]. unfold whole. cbn [fst snd]. destruct (Hw s); lia.
    + done.
    + rewrite map_app. cbn. do 3 f_equal. unfold window_line, profile_of. cbn. by rewrite fold_left_app.
  - exists ws, (rest ++ [s]). split_and!; [by rewrite app_assoc | done | rewrite weights_app; change (weights [s]) with (weight s + 0); lia |]. f_equal. unfold profile_of. by rewrite fold_left_app.
Qed.
End Windows.

Lemma cycles_inf l : exists ws rest, l = concat (map (fun w => fst w ++ [snd w]) ws) ++ rest /\ Forall (whole (fun _ => 1)) ws /\ weights (fun _ => 1) rest < WINDOW /\
    inf_cycles l = (map (window_line InfProf_make inf_add inf_report) ws, profile_of InfProf_make inf_add rest).
Proof.
  apply cycles_windows; [done | by right |]. intros c p Hp. unfold WINDOW in Hp. cbn. unfold plus. apply Z.mod_small. lia.
Qed.

Lemma cycles_rsp l : exists ws rest, l = concat (map (fun w => fst w ++ [snd w]) ws) ++ rest /\ Forall (whole (fun _ => 1)) ws /\ weights (fun _ => 1) rest < WINDOW /\
    rsp_cycles l = (map (window_line RspProf_make rsp_add rsp_report) ws, profile_of RspProf_make rsp_add rest).
Proof.
  apply cycles_windows; [done | by right |]. intros c p Hp. unfold WINDOW in Hp. unfold rsp_add.
  assert (plus (p rsp_count) 1 = p rsp_count + 1) by (apply Z.mod_small; lia). destruct (rc_event c); [done |]. unfold rsp_empty_path. by destruct (rc_drops c) as [[[avf inf] ev] io].
Qed.

Definition counts (c : EvtCycle) : Z := match vc_end c with EvtReported => 1 | _ => 0 end.

(** Only the cycles with events count. *)
Lemma cycles_evt l : exists ws rest, l = concat (map (fun w => fst w ++ [snd w]) ws) ++ rest /\ Forall (whole counts) ws /\ weights counts rest < WINDOW /\
    evt_cycles l = (map (window_line EvtProf_make evt_add evt_report) ws, profile_of EvtProf_make evt_add rest).
Proof.
  apply cycles_windows; [done | intros c; unfold counts; destruct (vc_end c); auto |]. intros c p Hp. unfold WINDOW in Hp. unfold evt_add, counts.
  destruct (vc_end c); try lia. apply Z.mod_small. lia.
Qed.

(** *** Means and largest values *)

Definition sum_of {S} (x : S -> Z) (w : list S) : Z := foldr (fun s z => x s + z) 0 w.
Definition max_of {S} (x : S -> Z) (w : list S) : Z := foldr (fun s z => Z.max (x s) z) 0 w.

Section Meter.
Context {F S : Type} (fresh : F -> Z) (add : S -> (F -> Z) -> (F -> Z)) (f_sum f_max : F) (x : S -> Z).
Context (H0 : fresh f_sum = 0 /\ fresh f_max = 0) (Hsum : forall s p, add s p f_sum = plus (p f_sum) (x s)) (Hmax : forall s p, add s p f_max = peak (p f_max) (x s)).

Lemma sum_of_app a b : sum_of x (a ++ b) = sum_of x a + sum_of x b.
Proof. induction a as [| s a IH]; cbn; [done |]. fold (sum_of x (a ++ b)) (sum_of x a). lia. Qed.

Lemma max_of_app a b : max_of x (a ++ b) = Z.max (max_of x a) (max_of x b).
Proof. induction a as [| s a IH]; cbn; [unfold max_of; induction b as [| s b IH]; cbn in *; lia |]. fold (max_of x (a ++ b)) (max_of x a). lia. Qed.

Lemma meter_sum w : (forall s, s ∈ w -> 0 <= x s) -> sum_of x w < 2 ^ 64 -> profile_of fresh add w f_sum = sum_of x w.
Proof.
  induction w as [| s w IH] using rev_ind; intros Hx Hs; [apply H0 |]. rewrite sum_of_app in *. cbn in Hs |- *.
  assert (0 <= x s) by (apply Hx, elem_of_app; right; left). assert (forall v, (forall s, s ∈ v -> 0 <= x s) -> 0 <= sum_of x v) as Hpos.
  { clear. induction v as [| s v IH]; intros Hv; cbn; [done |]. fold (sum_of x v). pose proof (Hv s ltac:(left)). specialize (IH ltac:(intros; apply Hv; by right)). lia. }
  unfold profile_of in *. rewrite fold_left_app. cbn [fold_left]. rewrite Hsum, IH by (intros; (apply Hx, elem_of_app; by left) || lia).
  assert (0 <= sum_of x w) by (apply Hpos; intros; apply Hx, elem_of_app; by left). unfold plus, u64. rewrite Z.mod_small by lia. lia.
Qed.

Lemma meter_max w : profile_of fresh add w f_max = max_of x w.
Proof.
  induction w as [| s w IH] using rev_ind; [apply H0 |]. rewrite max_of_app. unfold profile_of in *. rewrite fold_left_app. cbn [fold_left max_of foldr]. rewrite Hmax, IH.
  assert (0 <= max_of x w) by (clear; induction w; cbn; [done | fold (max_of x w); lia]). unfold peak. destruct (Z.ltb_spec (max_of x w) (x s)); lia.
Qed.

(** The mean of a window is the mean of its readings, rounded down, and not above the largest of them. *)
Lemma meter_mean w n : (forall s, s ∈ w -> 0 <= x s) -> sum_of x w < 2 ^ 64 -> n = Z.of_nat (length w) -> 0 < n ->
  profile_of fresh add w f_sum / n = sum_of x w / n /\ sum_of x w / n <= profile_of fresh add w f_max.
Proof.
  intros Hx Hs -> Hn. rewrite meter_sum, meter_max by done. split; [done |]. apply Z.div_le_upper_bound; [done |]. clear.
  induction w as [| s w IH]; cbn; [done |]. fold (sum_of x w) (max_of x w). fold (sum_of x w) (max_of x w) in IH.
  assert (0 <= max_of x w) by (clear; induction w; cbn; [done | fold (max_of x w); lia]). nia.
Qed.
End Meter.

(** The queue of the frames in the inference thread, for instance. *)
Lemma avframe_mean w : (forall c, c ∈ w -> 0 <= ic_avframe c) -> sum_of ic_avframe w < 2 ^ 64 -> w <> [] ->
  let p := profile_of InfProf_make inf_add w in let n := Z.of_nat (length w) in
  p inf_avframe_size_sum / n = sum_of ic_avframe w / n /\ sum_of ic_avframe w / n <= p inf_avframe_size_max.
Proof. intros Hx Hs Hn. apply (meter_mean InfProf_make inf_add); try done. destruct w; [done | cbn; lia]. Qed.

(** *** What the response thread does not measure *)

Lemma rsp_untouched f w : f = rsp_sio_emit_count \/ f = rsp_grpc_send_count \/ f = rsp_ev_json_kb_sum \/ f = rsp_ev_push_count -> profile_of RspProf_make rsp_add w f = 0.
Proof.
  intros Hf. induction w as [| c w IH] using rev_ind; [done |]. unfold profile_of in *. rewrite fold_left_app. cbn [fold_left]. etrans; [| exact IH].
  unfold rsp_add, rsp_event_path, rsp_empty_path. destruct (rc_event c), (rc_drops c) as [[[avf inf] ev] io], Hf as [-> | [-> | [-> | ->]]]; reflexivity.
Qed.

(** In a window in which every cycle has tracks, the losses of the queues are shown as none, whatever
    they are. *)
Lemma rsp_losses_not_shown f w : f = rsp_avframe_drop_total \/ f = rsp_inflight_drop_total \/ f = rsp_event_drop_total \/ f = rsp_io_drop_total ->
  Forall (fun c => rc_event c = true) w -> profile_of RspProf_make rsp_add w f = 0.
Proof.
  intros Hf. induction w as [| c w IH] using rev_ind; [done |]. intros [Hw Hc]%Forall_app. apply Forall_cons in Hc as [Hc _]. unfold profile_of in *. rewrite fold_left_app.
  cbn [fold_left]. etrans; [| exact (IH Hw)]. unfold rsp_add. rewrite Hc. destruct Hf as [-> | [-> | [-> | ->]]]; reflexivity.
Qed.
