(* ===== verification/Profiles.v ===== *)
(** * The profiles of the network and of the engines

    [BasicLibs/profile/NetworkProfileParser.h], [.cpp] and [EngineProfileParser.h], [.cpp]
    read the two settings files of the program; [BasicLibs/utils/ip_utils.cpp] finds the
    address of the machine, [file_utils.cpp] puts paths together;
    [Engine/NPU/EngineBuilder] makes the handlers of the engines.  Files and
    the network interfaces are [Files]; the text of a file is read by the parser of [JsonParser]; a file does not change while it is read.  The outer
    [None] is an exception, which nobody catches.  Messages are values of [CheckError]. *)

From Stdlib Require Import SpecFloat Ascii String.
From stdpp Require Import gmap pretty.
From S2P Require Import Prelude Float32 StringUtils Json JsonLexer JsonParser InferObject EngineTypes SafeQueue SafeThread EngineHandler.
Open Scope Z_scope.
Open Scope list_scope.

(** ** Files and interfaces *)

(** A network interface: its name and its address, when it has one of the internet. *)
Record Interface := mkInterface { if_name : string; if_inet : option string }.

Class Files := {
  IsValidFile : string -> bool;
  opened : string -> bool;
  contents : string -> string;             (* what a stream over the file reads *)
  current_path : string;
  interfaces : option (list Interface)   (* none: [getifaddrs] fails *)
}.

(** [settings_ifs >> settings_json]: the parser of json.hpp; none: it throws. *)
Definition parse_file `{Files} (path : string) : option json := json_read (contents path).

Definition starts_with (p s : string) : bool := String.prefix p s.
Definition find_in (needle s : string) : bool := match String.index 0 needle s with Some _ => true | None => false end.

Definition ends_with_slash (s : string) : bool := String.eqb (String.substring (String.length s - 1) 1 s) "/".

(** [path /= file]. *)
Definition ConcatPath (dir file : string) : string :=
  if starts_with "/" file then file
  else if String.eqb dir "" || ends_with_slash dir then (dir ++ file)%string else (dir ++ "/" ++ file)%string.

Definition is_alnum (c : ascii) : bool := is_digit c || is_lower c || is_upper c.

Definition iface_pattern (name : string) : bool :=
  existsb (fun p => starts_with p name && forallb is_alnum (list_ascii_of_string (String.substring (String.length p) (String.length name) name)))
    ["eth"; "eno"; "ens"; "enp"; "wlan"]%string.

Definition is_physical (i : Interface) : bool :=
  match if_inet i with
  | None => false
  | Some _ =>
      negb (String.eqb (if_name i) "lo" || find_in "docker" (if_name i) || find_in "br-" (if_name i) || find_in "veth" (if_name i)) &&
      iface_pattern (if_name i)
  end.

Section Parsers.
Context `{!Files}.

Definition GetAbsolutePath (p : string) : string := ConcatPath current_path p.

Definition getPhysicalIPAddress : string :=
  match interfaces with
  | None => ""
  | Some l => match List.find is_physical l with Some i => default "" (if_inet i) | None => "" end
  end.

(** ** The network *)

Inductive CheckError := NotAFile (path : string) | NotOpened (path : string) | NotParsed | Missing (key : string).

Record GrpcPeerEndpoint := mkPeer { peer_name : string; peer_ip : string; peer_port : Z }.

Record NetworkProfile := mkNetwork {
  local_ip : string;
  mvas_ip : string;
  mvas_api_port : Z;     (* unsigned int *)
  mvas_sio_port : Z;
  grpc_client_enabled : bool;
  grpc_peers : list GrpcPeerEndpoint;
  grpc_server_enabled : bool;
  grpc_server_bind_address : string;
  grpc_server_port : Z
}.

(** [get<unsigned int>()]. *)
Definition get_unsigned (j : json) : option Z := match j with JBool b => Some (if b then 1 else 0) | _ => get_enum j end.

(** [value( key, default )] of type [int], stored in an [unsigned int]. *)
Definition unsigned_value (j : json) (key : string) (default_value : Z) : option Z := v ← value get_int j key default_value; Some (u32 v).

Definition port_value (j : json) (key : string) : option Z := unsigned_value j key 0.

Definition Network_CheckParsable (path : string) : option (option CheckError) :=
  if negb (IsValidFile path) then Some (Some (NotAFile path))
  else if negb (opened path) then Some (Some (NotOpened path))
  else match parse_file path with
  | None => Some (Some NotParsed)
  | Some settings_json =>
      v_1 ← value get_string settings_json "MVAS_IP" "";
      if String.eqb v_1 "" then Some (Some (Missing "MVAS_IP"))
      else
        v_2 ← port_value settings_json "SocketIO_Port";
        if v_2 =? 0 then Some (Some (Missing "SocketIO_Port"))
        else
          v_3 ← port_value settings_json "REST_API_Port";
          if v_3 =? 0 then Some (Some (Missing "REST_API_Port")) else Some None
  end.

Fixpoint parse_peers (l : list json) : option (list GrpcPeerEndpoint) :=
  match l with
  | [] => Some []
  | peer_js :: l =>
      if negb (is_object peer_js) then parse_peers l
      else
        name ← value get_string peer_js "name" "";
        ip ← value get_string peer_js "ip" "";
        port ← value get_unsigned peer_js "port" 0;
        if String.eqb ip "" || (port =? 0) then parse_peers l
        else
          rest ← parse_peers l;
          Some (mkPeer (if String.eqb name "" then (ip ++ ":" ++ pretty port)%string else name) ip port :: rest)
  end.

(** The inner [None]: [std::nullopt]. *)
Definition Network_Parse (path : string) : option (option NetworkProfile) :=
  check ← Network_CheckParsable path;
  match check with
  | Some _ => Some None
  | None =>
      if negb (opened path) then Some None
      else
        settings_json ← parse_file path;
        ip ← value get_string settings_json "LocalIP" "";
        let ip := if String.eqb ip "" then getPhysicalIPAddress else ip in
        mvas ← value get_string settings_json "MVAS_IP" "";
        sio_port ← port_value settings_json "SocketIO_Port";
        api_port ← port_value settings_json "REST_API_Port";
        client ← value get_bool settings_json "GRPC_Client_Enabled" false;
        peers ← (if client then match member settings_json "GRPC_Peers" with Some (JArray l) => parse_peers l | _ => Some [] end else Some []);
        server ← value get_bool settings_json "GRPC_Server_Enabled" false;
        '(address, port) ← (if server then
          address ← value get_string settings_json "GRPC_Server_BindAddress" "0.0.0.0";
          port ← value get_unsigned settings_json "GRPC_Server_Port" 0;
          Some (address, port)
          else Some ("0.0.0.0", 0));
        Some (Some (mkNetwork ip mvas api_port sio_port (client && match peers with [] => false | _ => true end) peers
          (server && negb (port =? 0)) address port))
  end.

(** ** The engines *)

Definition keyword : string := "DETECTBASE_ENGINE_FILES_ROOT_PATH/".

Definition ResolvePath (raw_path detectbase_root : string) : string :=
  if starts_with keyword raw_path
  then ConcatPath detectbase_root (String.substring (String.length keyword) (String.length raw_path) raw_path)
  else raw_path.

(** The paths of an engine. *)
Record EnginePaths := mkPaths { profile_path : string; classes_path : string; engine_path : string }.

Definition engine_paths (engine_entry : json) (detectbase_root : string) : option EnginePaths :=
  profile ← value get_string engine_entry "ProfilePath" "";
  classes ← value get_string engine_entry "ClassesPath" "";
  engine ← value get_string engine_entry "EngineFilePath" "";
  Some (mkPaths (ResolvePath profile detectbase_root) (ResolvePath classes detectbase_root) (ResolvePath engine detectbase_root)).

Fixpoint check_engines (engines : list json) (detectbase_root : string) : option (option CheckError) :=
  match engines with
  | [] => Some None
  | engine_entry :: engines =>
      enabled ← value get_bool engine_entry "Enable" false;
      if negb enabled then check_engines engines detectbase_root
      else
        p ← engine_paths engine_entry detectbase_root;
        if negb (IsValidFile (GetAbsolutePath (profile_path p))) then Some (Some (NotAFile (profile_path p)))
        else if negb (IsValidFile (GetAbsolutePath (engine_path p))) then Some (Some (NotAFile (engine_path p)))
        else if negb (IsValidFile (GetAbsolutePath (classes_path p))) then Some (Some (NotAFile (classes_path p)))
        else check_engines engines detectbase_root
  end.

Definition Engine_CheckParsable (path : string) : option (option CheckError) :=
  if negb (IsValidFile path) then Some (Some (NotAFile path))
  else if negb (opened path) then Some (Some (NotOpened path))
  else match parse_file path with
  | None => Some (Some NotParsed)
  | Some settings_json =>
      root ← value get_string settings_json "DETECTBASE_ENGINE_FILES_ROOT_PATH" "";
      if String.eqb root "" then Some (Some (Missing "DETECTBASE_ENGINE_FILES_ROOT_PATH"))
      else match member settings_json "Engines" with
           | Some (JArray engines) => check_engines engines root
           | _ => Some (Some (Missing "Engines"))
           end
  end.

Definition ParseModelMajorType (type : string) : ModelMajorType :=
  if String.eqb (ToUpperCase type) (ToUpperCase "Detection") then MajorDetection else MajorNone.

Definition ParseModelMinorType (type : string) : ModelMinorType :=
  let upper_type := ToUpperCase type in
  if String.eqb upper_type (ToUpperCase "YoloV5") then YoloV5
  else if String.eqb upper_type (ToUpperCase "YoloV7") then YoloV7
  else if String.eqb upper_type (ToUpperCase "YoloV8") then YoloV8
  else if String.eqb upper_type (ToUpperCase "YoloV10") then YoloV10
  else MinorNone.

Definition ParseModelOptimizeType (type : string) : ModelOptimizeType :=
  if String.eqb (ToUpperCase type) (ToUpperCase "Torch_Onnx_RKNN") then Torch_Onnx_RKNN else OptNone.

Definition INFER_ENGINE_ID_INITIAL : Z := 1.

(** The atomic counter; 32 bits. *)
Definition GenerateUniqueID (unique_id_counter : Z) : Z * Z := (unique_id_counter, u32 (unique_id_counter + 1)).

(** The literals [0.45f] and [0.5f]. *)
Definition DEFAULT_CONFIDENCE : f32 := f32_div (f32_of_Z 45) (f32_of_Z 100).
Definition DEFAULT_NMS : f32 := f32_div (f32_of_Z 1) (f32_of_Z 2).

Definition read_profile (id : Z) (p : EnginePaths) (profile_json : json) : option EngineProfile :=
  name ← value get_string profile_json "ProfileName" "";
  major ← value get_string profile_json "ModelMajorType" "";
  minor ← value get_string profile_json "ModelMinorType" "";
  magic ← value get_string profile_json "ModelMagicType" "";
  prio ← unsigned_value profile_json "Priority" 99;
  weight ← unsigned_value profile_json "InferenceWeight" 100;
  mutable ← value get_bool profile_json "InputSizeMutable" false;
  w ← unsigned_value profile_json "InputImageWidth" 640;
  h ← unsigned_value profile_json "InputImageHeight" 640;
  batch ← unsigned_value profile_json "InferenceBatchSize" 1;
  opt ← value get_string profile_json "ModelOptimizeType" "None";
  input ← value get_string profile_json "InputLayerBindingName" "images";
  output ← value get_string profile_json "OutputLayerBindingName" "output";
  confidence ← value get_float profile_json "ConfidenceThreshold" DEFAULT_CONFIDENCE;
  nms ← value get_float profile_json "NmsThreshold" DEFAULT_NMS;
  Some (mkProfile id name (engine_path p) (classes_path p) (ParseModelMajorType major) (ParseModelMinorType minor) magic
    prio weight mutable w h batch (ParseModelOptimizeType opt) input output confidence nms).

(** The result, and the counter, which also moves when the reading is given up. *)
Fixpoint parse_engines (engines : list json) (detectbase_root : string) (counter : Z) : option (option (list EngineProfile)) * Z :=
  match engines with
  | [] => (Some (Some []), counter)
  | engine_entry :: engines =>
      match value get_bool engine_entry "Enable" false with
      | None => (None, counter)
      | Some false => parse_engines engines detectbase_root counter
      | Some true =>
          match engine_paths engine_entry detectbase_root with
          | None => (None, counter)
          | Some p =>
              if negb (opened (profile_path p)) then (Some None, counter)
              else match parse_file (profile_path p) with
              | None => (None, counter)
              | Some profile_json =>
                  let '(id, counter) := GenerateUniqueID counter in
                  match read_profile id p profile_json with
                  | None => (None, counter)
                  | Some profile =>
                      let '(r, counter) := parse_engines engines detectbase_root counter in
                      (o ← r; Some (l ← o; Some (profile :: l)), counter)
                  end
              end
          end
      end
  end.

Definition Engine_Parse (path : string) (counter : Z) : option (option (list EngineProfile)) * Z :=
  match Engine_CheckParsable path with
  | None => (None, counter)
  | Some (Some _) => (Some None, counter)
  | Some None =>
      if negb (opened path) then (Some None, counter)
      else match parse_file path with
      | None => (None, counter)
      | Some settings_json =>
          match value get_string settings_json "DETECTBASE_ENGINE_FILES_ROOT_PATH" "" with
          | None => (None, counter)
          | Some root =>
              match member settings_json "Engines" with
              | Some (JArray engines) => parse_engines engines root counter
              | _ => (Some None, counter)
              end
          end
      end
  end.
End Parsers.

(** ** The handlers *)

Section Builder.
(** [new_device]: what the constructor of the YOLOv5 handler adds to its base. *)
Context {D : Type} (new_device : EngineProfile -> Z -> D).

Definition GetAvailableDeviceIDs : list Z := [0; 1; 2].

Definition IsProfileSupported (p : EngineProfile) : bool := match opt_type p with Torch_Onnx_RKNN => true | OptNone => false end.

Definition CreateNpuEngineHandler (p : EngineProfile) (device_id : Z) : option (EngineHandlerBase D) :=
  match model_major_type p with
  | MajorDetection =>
      match model_minor_type p with
      | YoloV5 => Some (EngineHandlerBase_make p device_id (new_device p device_id))
      | _ => None
      end
  | MajorNone => None
  end.

Definition CreateAndLinkHandler (p : EngineProfile) (device_id : Z) (linker : EngineLinker) : option (EngineHandlerBase D) :=
  match CreateNpuEngineHandler p device_id with
  | None => None
  | Some handler_base => Some (SetEngineLinker handler_base linker)
  end.

Definition build_profile (linker : EngineLinker) (p : EngineProfile) : list (EngineHandlerBase D) :=
  if negb (IsProfileSupported p) then [] else omap (fun npu_id => CreateAndLinkHandler p npu_id linker) GetAvailableDeviceIDs.

Definition BuildHandlers (profiles_to_build : list EngineProfile) (linker : EngineLinker) : list (EngineHandlerBase D) :=
  flat_map (build_profile linker) profiles_to_build.
End Builder.
