(* ===== verification/ProfilesProps.v ===== *)
(** * Properties of the profiles

    A profile that was read is complete; a settings file written from a profile is read back
    as this profile; engine identifiers are never given twice; every supported profile gets
    one handler for each core; and a value of an unexpected type ends the process. *)

From Stdlib Require Import SpecFloat Ascii String.
From stdpp Require Import gmap pretty.
From S2P Require Import Prelude Float32 StringUtils Json JsonParser JsonDump JsonText InferObject EngineTypes SafeQueue SafeThread InferenceCounter LoadBalancer EngineHandler Profiles.
Open Scope Z_scope.
Open Scope list_scope.

(** Take an option monad's computation apart. *)
Ltac bind_cases H :=
  repeat match type of H with
  | (mbind _ ?o = Some _) => let E := fresh "E" in destruct o eqn:E; cbn [mbind option_bind] in H; [| discriminate H]
  | (match ?o with Some _ => _ | None => None end = Some _) => let E := fresh "E" in destruct o eqn:E; [| discriminate H]
  end.

Section Props.
Context `{FS : !Files}.

(** ** The network *)

Definition peer_ok (p : GrpcPeerEndpoint) : Prop := peer_name p <> "" /\ peer_ip p <> "" /\ peer_port p <> 0.

Record network_ok (p : NetworkProfile) : Prop := {
  n_mvas : mvas_ip p <> "";
  n_api : mvas_api_port p <> 0 /\ in_u32 (mvas_api_port p);
  n_sio : mvas_sio_port p <> 0 /\ in_u32 (mvas_sio_port p);
  n_peers : Forall peer_ok (grpc_peers p);
  n_client : grpc_client_enabled p = true <-> grpc_peers p <> [];
  n_server : grpc_server_enabled p = true -> grpc_server_port p <> 0
}.

Lemma string_app_nonempty a b : b <> ""%string -> (a ++ b)%string <> ""%string.
Proof. by destruct a, b. Qed.

Lemma parse_peers_ok l peers : parse_peers l = Some peers -> Forall peer_ok peers.
Proof.
  revert peers. induction l as [| js l IH]; intros peers H; cbn [parse_peers] in H; [by injection H as <- |].
  destruct (is_object js); cbn [negb] in H; [| by apply IH]. bind_cases H. rename s into name, s0 into ip, z into port.
  destruct (String.eqb ip "" || (port =? 0)) eqn:Eo; [by apply IH |]. bind_cases H. injection H as <-. bool_to_prop.
  constructor; [| by apply IH]. apply String.eqb_neq in H. split_and!; cbn; [| done | done].
  destruct (String.eqb name "") eqn:En; [apply string_app_nonempty; done | by apply String.eqb_neq].
Qed.

Lemma port_value_range j key v : port_value j key = Some v -> in_u32 v.
Proof. unfold port_value, unsigned_value. intros H. bind_cases H. injection H as <-. apply u32_range. Qed.

(** What a file that can be parsed has. *)
Lemma Network_check_spec path :
  Network_CheckParsable path = Some None ->
  exists j mvas sio api, parse_file path = Some j /\ opened path = true /\ value get_string j "MVAS_IP" "" = Some mvas /\ mvas <> ""%string /\
    port_value j "SocketIO_Port" = Some sio /\ sio <> 0 /\ port_value j "REST_API_Port" = Some api /\ api <> 0.
Proof.
  unfold Network_CheckParsable. intros H. destruct (negb (IsValidFile path)); [done |]. destruct (opened path); cbn [negb] in H; [| done]. destruct (parse_file path) as [j |]; [| done].
  destruct (value get_string j "MVAS_IP" "") as [mvas |] eqn:E1; [| done]. cbn [mbind option_bind] in H. destruct (String.eqb mvas "") eqn:E2; [done |].
  destruct (port_value j "SocketIO_Port") as [sio |] eqn:E3; [| done]. cbn [mbind option_bind] in H. destruct (sio =? 0) eqn:E4; [done |].
  destruct (port_value j "REST_API_Port") as [api |] eqn:E5; [| done]. cbn [mbind option_bind] in H. destruct (api =? 0) eqn:E6; [done |].
  exists j, mvas, sio, api. bool_to_prop. apply String.eqb_neq in E2. done.
Qed.

(** A network profile that was read is complete: the server is named with both its ports,
    the gRPC client is on exactly when it has a peer, every peer has a name, an address and a
    port, and a gRPC server that is on has a port. *)
Theorem network_profile_complete path p : Network_Parse path = Some (Some p) -> network_ok p.
Proof.
  unfold Network_Parse. intros H. destruct (Network_CheckParsable path) as [[e |] |] eqn:Ec; cbn [mbind option_bind] in H; try done.
  destruct (Network_check_spec path Ec) as (j & mvas & sio & api & Ej & Eo & Em & Hm & Es & Hs & Ea & Ha).
  rewrite Eo, Ej in H. cbn [negb mbind option_bind] in H. destruct (value get_string j "LocalIP" "") as [ip |]; [| done]. cbn [mbind option_bind] in H.
  rewrite Em, Es, Ea in H. cbn [mbind option_bind] in H. destruct (value get_bool j "GRPC_Client_Enabled" false) as [client |]; [| done]. cbn [mbind option_bind] in H.
  destruct (if client then _ else _) as [peers |] eqn:Ep; [| done]. cbn [mbind option_bind] in H.
  destruct (value get_bool j "GRPC_Server_Enabled" false) as [server |]; [| done]. cbn [mbind option_bind] in H.
  destruct (if server then _ else _) as [[address port] |]; [| done]. cbn [mbind option_bind] in H. injection H as <-.
  assert (Forall peer_ok peers /\ (client = false -> peers = [])) as [Hpeers Hoff].
  { destruct client; [| by injection Ep as <-]. split; [| done]. destruct (member j "GRPC_Peers") as [[| | | | | l |] |]; try (by injection Ep as <-). by apply parse_peers_ok in Ep. }
  split; cbn; try done.
  - split; [done | by eapply port_value_range].
  - split; [done | by eapply port_value_range].
  - destruct client, peers; cbn; done || by rewrite Hoff.
  - intros [_ Hp]%andb_true_iff. apply negb_true_iff in Hp. by apply Z.eqb_neq.
Qed.

(** *** Reading back *)

Definition peer_json (p : GrpcPeerEndpoint) : json :=
  JObject [("ip", JString (peer_ip p)); ("name", JString (peer_name p)); ("port", JInt (peer_port p))]%string.

(** The settings file of a profile. *)
Definition network_json (p : NetworkProfile) : json :=
  JObject [("GRPC_Client_Enabled", JBool (grpc_client_enabled p)); ("GRPC_Peers", JArray (map peer_json (grpc_peers p)));
    ("GRPC_Server_BindAddress", JString (grpc_server_bind_address p)); ("GRPC_Server_Enabled", JBool (grpc_server_enabled p));
    ("GRPC_Server_Port", JInt (grpc_server_port p)); ("LocalIP", JString (local_ip p)); ("MVAS_IP", JString (mvas_ip p));
    ("REST_API_Port", JInt (mvas_api_port p)); ("SocketIO_Port", JInt (mvas_sio_port p))]%string.

Lemma parse_peers_json l : Forall peer_ok l -> Forall (fun p => in_u32 (peer_port p)) l -> parse_peers (map peer_json l) = Some l.
Proof.
  induction l as [| [name ip port] l IH]; intros Ho Hr; [done |]. apply Forall_cons in Ho as [(Hn & Hi & Hp) Ho]. apply Forall_cons in Hr as [Hx Hr].
  cbn in Hn, Hi, Hp, Hx. cbn [map parse_peers peer_json is_object negb]. cbn -[u32]. rewrite u32_id by done.
  rewrite (proj2 (String.eqb_neq ip "") Hi), (proj2 (Z.eqb_neq port 0) Hp), (proj2 (String.eqb_neq name "") Hn), IH by done. done.
Qed.

Lemma u32_of_i32 z : in_u32 z -> u32 (i32 z) = z.
Proof.
  intros Hz. unfold wrap_u, wrap_s, in_u32 in *. rewrite Zminus_mod_idemp_l. etrans; [| exact (Z.mod_small z (2 ^ 32) Hz)]. f_equal. lia.
Qed.

(** A profile that could be written is one that can be read. *)
Lemma network_values_ok p : in_u32 (mvas_api_port p) -> in_u32 (mvas_sio_port p) -> in_u32 (grpc_server_port p) -> Forall (fun p => in_u32 (peer_port p)) (grpc_peers p) ->
  values_ok (network_json p) = true.
Proof.
  unfold in_u32. intros H1 H2 H3 Hp. unfold network_json. cbn -[peer_json]. rewrite !andb_true_iff, !Z.leb_le, !Z.ltb_lt.
  split; [by vm_compute |]. split; [| lia]. apply forallb_forall. intros j (q & <- & Hq)%in_map_iff. rewrite List.Forall_forall in Hp. specialize (Hp q Hq).
  cbn. rewrite !andb_true_iff, Z.leb_le, Z.ltb_lt. split; [by vm_compute | lia].
Qed.

(** C32: the text of a settings file that is written from a complete profile, whatever its indentation, is read
    back as this profile, the server's address being the default one when the server is off. The text
    goes through the serializer and the parser of the program. *)
Theorem network_profile_roundtrip path p n :
  IsValidFile path = true -> opened path = true -> dump_text n (network_json p) = inr (contents path) ->
  network_ok p -> Forall (fun p => in_u32 (peer_port p)) (grpc_peers p) -> in_u32 (grpc_server_port p) -> local_ip p <> ""%string ->
  (grpc_server_enabled p = false -> grpc_server_bind_address p = "0.0.0.0" /\ grpc_server_port p = 0) ->
  Network_Parse path = Some (Some p).
Proof.
  intros Hv Ho Ht [Hm [Ha Har] [Hs Hsr] Hp Hc Hserver] Hpr Hgr Hl Hoff.
  assert (parse_file path = Some (network_json p)) as Hj.
  { apply (dump_text_reads n); [| exact Ht]. rewrite json_ok_split, network_values_ok by done. apply (written_texts n). by exists (contents path). }
  clear Ht. destruct p as [lip mip api sio client peers server addr port].
  cbn [local_ip mvas_ip mvas_api_port mvas_sio_port grpc_client_enabled grpc_peers grpc_server_enabled grpc_server_bind_address grpc_server_port] in *.
  assert (Network_CheckParsable path = Some None) as Hcheck.
  { unfold Network_CheckParsable. rewrite Hv, Ho, Hj. cbn -[u32 i32]. rewrite (proj2 (String.eqb_neq mip "") Hm), !u32_of_i32 by done.
    by rewrite (proj2 (Z.eqb_neq sio 0) Hs), (proj2 (Z.eqb_neq api 0) Ha). }
  unfold Network_Parse. rewrite Hcheck, Ho, Hj. cbn -[u32 i32 parse_peers]. rewrite (proj2 (String.eqb_neq lip "") Hl), !u32_of_i32, parse_peers_json by done.
  destruct client; cbn -[u32].
  - destruct peers as [| q peers]; [by destruct (proj1 Hc eq_refl) |]. destruct server; cbn -[u32].
    + by rewrite u32_id, (proj2 (Z.eqb_neq port 0) (Hserver eq_refl)) by done.
    + by destruct (Hoff eq_refl) as [-> ->].
  - assert (peers = []) as -> by (destruct peers; [done | assert (false = true) by (by apply Hc); done]). destruct server; cbn -[u32].
    + by rewrite u32_id, (proj2 (Z.eqb_neq port 0) (Hserver eq_refl)) by done.
    + by destruct (Hoff eq_refl) as [-> ->].
Qed.

(** A port written as a string throws out of the check, whose result was to be a message. *)
Lemma check_throws path m :
  IsValidFile path = true -> opened path = true -> parse_file path = Some (JObject m) ->
  find_member "MVAS_IP" m = Some (JString "http://a") -> find_member "SocketIO_Port" m = Some (JString "3335") -> Network_Parse path = None.
Proof. intros Hv Ho Hj Hm Hs. unfold Network_Parse, Network_CheckParsable. rewrite Hv, Ho, Hj. unfold value. rewrite Hm. cbn. unfold port_value, unsigned_value, value. by rewrite Hs. Qed.

(** ** The engines *)

(** The identifiers given out from [counter] on. *)
Definition ids_from (counter : Z) (n : nat) : list Z := map (fun i => u32 (counter + Z.of_nat i)) (seq 0 n).

Lemma ids_from_S counter n : in_u32 counter -> ids_from counter (S n) = counter :: ids_from (u32 (counter + 1)) n.
Proof.
  intros Hc. unfold ids_from. cbn [seq map]. rewrite Z.add_0_r, (u32_id counter) by done. f_equal. rewrite <- seq_shift, map_map. apply map_ext. intros i.
  unfold wrap_u. rewrite Zplus_mod_idemp_l. f_equal. lia.
Qed.

Lemma ids_from_NoDup counter n : Z.of_nat n <= 2 ^ 32 -> NoDup (ids_from counter n).
Proof.
  intros Hn. unfold ids_from. apply NoDup_fmap_2_strong; [| apply NoDup_seq]. intros i j [_ Hi]%elem_of_seq [_ Hj]%elem_of_seq E. unfold wrap_u in E.
  assert ((Z.of_nat i - Z.of_nat j) mod 2 ^ 32 = 0) as H0.
  { replace (Z.of_nat i - Z.of_nat j) with ((counter + Z.of_nat i) - (counter + Z.of_nat j)) by lia. rewrite Zminus_mod. rewrite E. by rewrite Z.sub_diag. }
  apply Z.mod_divide in H0 as [q Hq]; [| lia]. assert (q = 0) by nia. lia.
Qed.

Lemma parse_engines_ids engines root counter l counter' :
  parse_engines engines root counter = (Some (Some l), counter') -> in_u32 counter ->
  map uuid l = ids_from counter (length l) /\ counter' = u32 (counter + Z.of_nat (length l)) .
Proof.
  revert counter l counter'. induction engines as [| e engines IH]; intros counter l counter' H Hc; cbn [parse_engines] in H.
  - injection H as <- <-. split; [done |]. cbn. by rewrite Z.add_0_r, u32_id.
  - destruct (value get_bool e "Enable" false) as [[] |]; [| by apply IH | done]. destruct (engine_paths e root) as [p |]; [| done].
    destruct (opened (profile_path p)); cbn [negb] in H; [| done]. destruct (parse_file (profile_path p)) as [j |]; [| done].
    cbn [GenerateUniqueID] in H. destruct (read_profile counter p j) as [profile |] eqn:Er; [| done].
    destruct (parse_engines engines root (u32 (counter + 1))) as [[[l' |] |] c'] eqn:E; cbn in H; try done. injection H as <- <-.
    destruct (IH _ _ _ E (u32_range _)) as [Hm Hcc]. assert (uuid profile = counter) as Hu by (unfold read_profile in Er; bind_cases Er; by injection Er as <-).
    cbn [map length]. rewrite Hm, Hu, ids_from_S by done. split; [done |]. rewrite Hcc. unfold wrap_u. rewrite Zplus_mod_idemp_l. f_equal. lia.
Qed.

Lemma Engine_Parse_ids path counter l counter' :
  Engine_Parse path counter = (Some (Some l), counter') -> in_u32 counter ->
  map uuid l = ids_from counter (length l) /\ counter' = u32 (counter + Z.of_nat (length l)).
Proof.
  unfold Engine_Parse. intros H Hc. destruct (Engine_CheckParsable path) as [[e |] |]; try done. destruct (negb (opened path)); [done |].
  destruct (parse_file path) as [j |]; [| done]. destruct (value get_string j _ "") as [root |]; [| done]. destruct (member j "Engines") as [[| | | | | engines |] |]; try done.
  by eapply parse_engines_ids.
Qed.

(** ** Engines and their links *)

Context {D : Type} (new_device : EngineProfile -> Z -> D).

(** What the builder can make a handler of: [IsProfileSupported] looks at the first only. *)
Definition buildable (p : EngineProfile) : bool :=
  match opt_type p, model_major_type p, model_minor_type p with Torch_Onnx_RKNN, MajorDetection, YoloV5 => true | _, _, _ => false end.

Definition cores_of (p : EngineProfile) : list EngineHandleUUID := if buildable p then map (pair (uuid p)) GetAvailableDeviceIDs else [].

Lemma build_profile_uuids linker p : map GetEngineHandleUUID (build_profile new_device linker p) = cores_of p.
Proof.
  unfold build_profile, cores_of, buildable, IsProfileSupported, CreateAndLinkHandler, CreateNpuEngineHandler.
  destruct (opt_type p); [done |]. destruct (model_major_type p); [done |]. by destruct (model_minor_type p).
Qed.

Lemma BuildHandlers_uuids linker l : map GetEngineHandleUUID (BuildHandlers new_device l linker) = flat_map cores_of l.
Proof.
  unfold BuildHandlers. induction l as [| p l IH]; [done |]. cbn [flat_map]. by rewrite map_app, IH, build_profile_uuids.
Qed.

Lemma BuildHandlers_linked linker l : Forall (fun h => engine_linker_ h = Some linker) (BuildHandlers new_device l linker).
Proof.
  unfold BuildHandlers. induction l as [| p l IH]; [done |]. cbn [flat_map]. apply Forall_app. split; [| done].
  unfold build_profile, CreateAndLinkHandler, CreateNpuEngineHandler. destruct (IsProfileSupported p); [| done]. cbn [negb GetAvailableDeviceIDs omap list_omap].
  destruct (model_major_type p); [done |]. destruct (model_minor_type p); try done. by repeat constructor.
Qed.

Lemma cores_NoDup l : NoDup (map uuid l) -> NoDup (flat_map cores_of l).
Proof.
  induction l as [| p l IH]; intros Hl; [constructor |]. cbn [map] in Hl. apply NoDup_cons in Hl as [Hp Hl]. cbn [flat_map]. apply NoDup_app. split_and!.
  - unfold cores_of. destruct (buildable p); [| constructor]. repeat (constructor; [intros H; repeat (apply elem_of_cons in H as [H | H]; [congruence |]); by apply elem_of_nil in H |]). constructor.
  - intros [i d] Hx Hy. assert (i = uuid p) as ->.
    { unfold cores_of in Hx. destruct (buildable p); [| by apply elem_of_nil in Hx]. repeat (apply elem_of_cons in Hx as [Hx | Hx]; [congruence |]). by apply elem_of_nil in Hx. }
    apply Hp. apply list_elem_of_In in Hy. apply in_flat_map in Hy as (q & Hq & Hy). apply list_elem_of_In, in_map_iff. exists q. split; [| done].
    unfold cores_of in Hy. destruct (buildable q); [| done]. cbn in Hy. destruct Hy as [[= ? ?] | [[= ? ?] | [[= ? ?] | []]]]; done.
  - by apply IH.
Qed.

(** Each handler links itself with a queue of its own. *)
Fixpoint link_all (b : EngineLoadBalancer) (uuids : list EngineHandleUUID) (address : nat) : list bool * EngineLoadBalancer :=
  match uuids with
  | [] => ([], b)
  | u :: uuids => let '(ok, b) := Linker b u address in let '(oks, b) := link_all b uuids (S address) in (ok :: oks, b)
  end.

Lemma CreateProfileMap_lookup l p : p ∈ l -> is_Some (CreateProfileMap l !! uuid p).
Proof.
  unfold CreateProfileMap.
  assert (forall m : gmap Z EngineProfile, (is_Some (m !! uuid p) \/ p ∈ l) -> is_Some (foldl (fun (m : gmap Z EngineProfile) p => match m !! uuid p with None => <[uuid p := p]> m | Some _ => m end) m l !! uuid p)) as Hg; [| intros Hp; apply Hg; by right].
  induction l as [| q l IH]; intros m; cbn [foldl]; [by intros [? | ?%elem_of_nil] |]. intros H. apply IH.
  destruct H as [H | [-> | H]%elem_of_cons]; [left | left | by right].
  - destruct (m !! uuid q) eqn:E; [done |]. destruct (decide (uuid q = uuid p)) as [-> |]; [by rewrite lookup_insert_eq | by rewrite lookup_insert_ne].
  - destruct (m !! uuid q) eqn:E; [by rewrite E | by rewrite lookup_insert_eq].
Qed.

Lemma link_all_spec uuids (b : EngineLoadBalancer) address :
  is_terminate_instance_ b = false -> NoDup uuids -> Forall (fun u => engine_input_qs_ b !! u = None /\ is_Some (engine_profiles_ b !! GetInferEngineID u)) uuids ->
  exists b', link_all b uuids address = (repeat true (length uuids), b') /\ engine_handles_ b' = engine_handles_ b ++ uuids.
Proof.
  revert b address. induction uuids as [| u uuids IH]; intros b address Ht Hd Hf; [exists b; by rewrite app_nil_r |].
  apply NoDup_cons in Hd as [Hu Hd]. apply Forall_cons in Hf as [[Hq [p Hp]] Hf]. cbn [link_all]. unfold Linker at 1. rewrite Ht, Hq, Hp.
  destruct (IH (set_engines b (engine_handles_ b ++ [u]) (<[u := address]> (engine_input_qs_ b))) (S address)) as (b' & -> & Hb'); [done | done | |].
  - eapply Forall_impl; [apply Forall_and; split; [exact Hf | apply Forall_forall; exact (fun x Hx => Hx)] |]. cbn. intros x [[H1 H2] Hx].
    split; [| done]. rewrite lookup_insert_ne; [done | congruence].
  - exists b'. split; [done |]. rewrite Hb'. cbn. by rewrite <- app_assoc.
Qed.

(** C33: the engines of a settings file are all linked: the identifiers that the file's
    profiles get are new and distinct; the handlers made are, for each profile that the
    builder can make one of - for the RKNN runtime, a detection model, YoloV5 - one for each
    of the three device identifiers that the code names, in this order, and none for any
    other profile, a supported one with another model included; and the balancer made of
    these profiles accepts the link of every handler.  (Whether a handler's model then
    loads is the affair of its activation.) *)
Theorem engines_all_linked path counter l counter' linker :
  Engine_Parse path counter = (Some (Some l), counter') -> in_u32 counter -> Z.of_nat (length l) <= 2 ^ 32 ->
  let handlers := BuildHandlers new_device l linker in
  let uuids := map GetEngineHandleUUID handlers in
  NoDup (map uuid l) /\ uuids = flat_map cores_of l /\ NoDup uuids /\ Forall (fun h => engine_linker_ h = Some linker) handlers /\
  exists b, link_all (EngineLoadBalancer_make l) uuids 0 = (repeat true (length uuids), b) /\ engine_handles_ b = uuids.
Proof.
  intros H Hc Hl handlers uuids. destruct (Engine_Parse_ids _ _ _ _ H Hc) as [Hids _].
  assert (NoDup (map uuid l)) as Hnd by (rewrite Hids; by apply ids_from_NoDup). assert (uuids = flat_map cores_of l) as Hu by apply BuildHandlers_uuids.
  assert (NoDup uuids) as Hn by (rewrite Hu; by apply cores_NoDup). split_and!; try done; [apply BuildHandlers_linked |].
  destruct (link_all_spec uuids (EngineLoadBalancer_make l) 0) as (b & Hb & Hh); [done | done | | by exists b].
  apply Forall_forall. intros u Hin. split; [apply lookup_empty |]. cbn [engine_profiles_ EngineLoadBalancer_make].
  rewrite Hu in Hin. apply list_elem_of_In, in_flat_map in Hin as (p & Hp & Hin). assert (GetInferEngineID u = uuid p) as ->.
  { unfold cores_of in Hin. destruct (buildable p); [| done]. cbn in Hin. by destruct Hin as [<- | [<- | [<- | []]]]. }
  apply CreateProfileMap_lookup. by apply list_elem_of_In.
Qed.
End Props.

(** ** A machine with two engines *)

Definition demo_network : NetworkProfile :=
  mkNetwork "10.0.0.2" "http://10.0.0.1" 8005 3335 true [mkPeer "b" "10.0.0.3" 50000; mkPeer "c" "10.0.0.4" 50001] true "127.0.0.1" 50002.

Definition engine_entry (enabled : bool) (name : string) : json :=
  JObject [("ClassesPath", JString "/c.yml"); ("Enable", JBool enabled); ("EngineFilePath", JString "/e.rknn"); ("ProfilePath", JString name)]%string.

Definition demo_profile (optimize : string) : json :=
  JObject [("ModelMajorType", JString "detection"); ("ModelMinorType", JString "yolov5"); ("ModelOptimizeType", JString optimize); ("ProfileName", JString "p")]%string.

(** A file with a value. *)
Definition file_text (j : json) : string := match dump_text 4 j with inr t => t | inl _ => "" end.

#[local] Instance demo_files : Files := {
  IsValidFile _ := true;
  opened _ := true;
  contents p :=
    file_text (
      if String.eqb p "/network" then network_json demo_network
      else if String.eqb p "/engines" then
        JObject [("DETECTBASE_ENGINE_FILES_ROOT_PATH", JString "/root"); ("Engines", JArray [engine_entry true "/p"; engine_entry false "/q"; engine_entry true "/r"])]%string
      else demo_profile (if String.eqb p "/p" then "Torch_Onnx_RKNN" else "None"));
  current_path := "/";
  interfaces := None
}.

Definition demo_engines : list EngineProfile :=
  match fst (Engine_Parse "/engines" INFER_ENGINE_ID_INITIAL) with Some (Some l) => l | _ => [] end.

Lemma demo_network_read : Network_Parse "/network" = Some (Some demo_network).
Proof. vm_compute. reflexivity. Qed.

Lemma demo_engines_read : Engine_Parse "/engines" INFER_ENGINE_ID_INITIAL = (Some (Some demo_engines), 3).
Proof. vm_compute. reflexivity. Qed.

Lemma demo_network_ok : network_ok demo_network.
Proof. split; cbn; unfold in_u32; try done. by repeat constructor. Qed.

Lemma network_profile_complete_witness : network_ok demo_network.
Proof. exact (network_profile_complete "/network" demo_network demo_network_read). Defined.

Lemma network_profile_roundtrip_witness : Network_Parse "/network" = Some (Some demo_network).
Proof.
  apply (network_profile_roundtrip (FS := demo_files) "/network" demo_network 4 eq_refl eq_refl).
  - vm_compute. reflexivity.
  - exact demo_network_ok.
  - unfold in_u32. repeat constructor; cbn; lia.
  - unfold in_u32. cbn. lia.
  - done.
  - done.
Defined.

Lemma engines_all_linked_witness :
  length (BuildHandlers (fun _ _ => tt) demo_engines (fun _ _ => None)) = 3%nat /\
  NoDup (map GetEngineHandleUUID (BuildHandlers (fun _ _ => tt) demo_engines (fun _ _ => None))).
Proof.
  split; [vm_compute; reflexivity |].
  destruct (engines_all_linked (fun _ _ => tt) "/engines" INFER_ENGINE_ID_INITIAL demo_engines 3 (fun _ _ => None) demo_engines_read) as (_ & _ & Hn & _).
  - unfold in_u32, INFER_ENGINE_ID_INITIAL. lia.
  - vm_compute. discriminate.
  - exact Hn.
Defined.
