(* ===== verification/SioParser.v ===== *)
(** * Socket.IO messages

    [Protocol/SocketIO/include/sio_message.h] and [Protocol/SocketIO/src/sio_parser.cpp]:
    the messages of the client library, which share their parts by pointers, and the
    conversions between them and JSON values.  The messages live in a [store]; a pointer
    is an index of it, or null.  JSON to messages is a loop over an explicit stack of
    the values that wait; the property below says that it ends, and what the receiver
    of the message reads. *)

From Stdlib Require Import Ascii String Sorted.
From stdpp Require Import list.
From S2P Require Import Prelude Float32 Json.
Open Scope nat_scope.
Open Scope list_scope.

(** ** Messages *)

Abbreviation ptr := (option nat).

Inductive flag := flag_integer | flag_double | flag_string | flag_binary | flag_array | flag_object | flag_boolean | flag_null.

(** A map is the list of its members in the order of their names. *)
Inductive message :=
| int_message (v : Z)
| double_message (v : f64)
| string_message (v : string)
| binary_message (v : option string)
| array_message (v : list ptr)
| object_message (v : list (string * ptr))
| bool_message (v : bool)
| null_message.

Definition get_flag (m : message) : flag :=
  match m with
  | int_message _ => flag_integer | double_message _ => flag_double | string_message _ => flag_string | binary_message _ => flag_binary
  | array_message _ => flag_array | object_message _ => flag_object | bool_message _ => flag_boolean | null_message => flag_null
  end.

Abbreviation store := (list message).

(** [create]: a new message. *)
Definition create (m : message) (s : store) : ptr * store := (Some (length s), s ++ [m]).

(** [map[key] = v]. *)
Fixpoint map_assign {A} (key : string) (v : A) (m : list (string * A)) : list (string * A) :=
  match m with
  | [] => [(key, v)]
  | (k, w) :: m => if String.eqb k key then (k, v) :: m
                   else if String.ltb key k then (key, v) :: (k, w) :: m
                   else (k, w) :: map_assign key v m
  end.

Fixpoint map_find {A} (key : string) (m : list (string * A)) : option A :=
  match m with [] => None | (k, v) :: m => if String.eqb k key then Some v else map_find key m end.

(** [array_message::push]: a null pointer is not added. *)
Definition array_push (p : ptr) (v : list ptr) : list ptr := match p with Some _ => v ++ [p] | None => v end.

(** [object_message::at]: null where there is no member. *)
Definition object_at (key : string) (m : list (string * ptr)) : ptr := default None (map_find key m).
Definition object_has (key : string) (m : list (string * ptr)) : bool := match map_find key m with Some _ => true | None => false end.

(** [message::list], the arguments of an event. *)
Definition list_make (p : ptr) : list ptr := array_push p [].
Definition list_push (p : ptr) (l : list ptr) : list ptr := array_push p l.

Definition to_array_message (event_name : string) (l : list ptr) (s : store) : ptr * store :=
  let '(name, s) := create (string_message event_name) s in create (array_message (name :: l)) s.

(** ** JSON to messages *)

Inductive Assign := AssignMember (obj : ptr) (key : string) | AssignElement (arr : ptr).

Record WorkItem := mkItem { assign : Assign; node : json }.

(** [None]: not a message of the kind. *)
Definition run_assign (a : Assign) (v : ptr) (s : store) : option store :=
  match a with
  | AssignMember obj key =>
      o ← obj; m ← s !! o;
      match m with object_message members => Some (<[o := object_message (map_assign key v members)]> s) | _ => None end
  | AssignElement arr =>
      o ← arr; m ← s !! o;
      match m with array_message l => Some (<[o := array_message (l ++ [v])]> s) | _ => None end
  end.

(** The message of a value without its members or elements. *)
Definition node_message (j : json) : message :=
  match j with
  | JNull => null_message
  | JBool b => bool_message b
  | JInt z => double_message (f64_of_Z z)
  | JFloat f => double_message f
  | JString s => string_message s
  | JArray _ => array_message []
  | JObject _ => object_message []
  end.

(** The stack after the members or elements of [j] were pushed, the last of them at
    the head. *)
Definition push_children (p : ptr) (j : json) (stk : list WorkItem) : list WorkItem :=
  match j with
  | JObject m => fold_left (fun stk kv => mkItem (AssignMember p (fst kv)) (snd kv) :: stk) m stk
  | JArray l => fold_left (fun stk child => mkItem (AssignElement p) child :: stk) l stk
  | _ => stk
  end.

Definition build_turn (item : WorkItem) (stk : list WorkItem) (s : store) : option (list WorkItem * store) :=
  let '(value_msg, s) := create (node_message (node item)) s in
  s ← run_assign (assign item) value_msg s;
  Some (push_children value_msg (node item) stk, s).

(** [None]: out of fuel, or an assignment to something else. *)
Fixpoint build_loop (fuel : nat) (stk : list WorkItem) (s : store) : option store :=
  match stk with
  | [] => Some s
  | item :: stk =>
      match fuel with
      | O => None
      | S fuel => '(stk, s) ← build_turn item stk s; build_loop fuel stk s
      end
  end.

Definition buildSioFromJson (fuel : nat) (root_json : json) (s : store) : option (ptr * store) :=
  let '(root_msg, s) := create (node_message root_json) s in
  s ← build_loop fuel (push_children root_msg root_json []) s;
  Some (root_msg, s).

(** How many values there are. *)
Fixpoint json_size (j : json) : nat :=
  match j with
  | JArray l => S (list_sum (map json_size l))
  | JObject m => S (list_sum (map (fun kv => json_size (snd kv)) m))
  | _ => 1
  end.

Definition createObject (o : json) (s : store) : option (ptr * store) :=
  if is_object o then buildSioFromJson (json_size o) o s else Some (create (object_message []) s).

Definition createArray (a : json) (s : store) : option (ptr * store) :=
  if is_array a then buildSioFromJson (json_size a) a s else Some (create (array_message []) s).

(** ** Messages to JSON

    [parse] is [json::parse] of a text, nothing where it is discarded.  [None]: out of
    fuel, or a pointer to no message. *)

Section CreateJson.
Context (parse : string -> option json).

Fixpoint createJson (fuel : nat) (s : store) (sio : ptr) : option json :=
  match sio, fuel with
  | None, _ => Some JNull
  | Some _, O => None
  | Some a, S fuel =>
      m ← s !! a;
      match m with
      | array_message v => JArray <$> mapM (createJson fuel s) v
      | object_message m =>
          fold_left (fun j kv => j ← j; v ← createJson fuel s (snd kv); set_member j (fst kv) v) m (Some (JObject []))
      | int_message v => Some (JInt v)
      | double_message v => Some (JFloat v)
      | bool_message v => Some (JBool v)
      | string_message str => Some (default (JString str) (parse str))
      | null_message => Some JNull
      | binary_message _ => Some JNull
      end
  end.

(** What the receiver of a value reads: numbers are doubles, texts are parsed, and the
    elements of every array are in the opposite order. *)
Fixpoint transmitted (j : json) : json :=
  match j with
  | JInt z => JFloat (f64_of_Z z)
  | JString s => default (JString s) (parse s)
  | JArray l => JArray (rev (map transmitted l))
  | JObject m => JObject (map (fun kv => (fst kv, transmitted (snd kv))) m)
  | _ => j
  end.

End CreateJson.

(** ** Maps in the order of their keys *)

Lemma map_assign_first {A} k (v : A) m : forallb (fun kv => String.ltb k (fst kv)) m = true -> map_assign k v m = (k, v) :: m.
Proof. destruct m as [| [k' w] m]; [done |]. cbn. intros [H _]%andb_prop. by rewrite (ltb_neq k k' H), H. Qed.

(** ** The loop *)

(** Where the elements of one parent go. *)
Abbreviation kind := (option string).
Definition target (p : nat) (k : kind) : Assign := match k with Some key => AssignMember (Some p) key | None => AssignElement (Some p) end.

Definition put (k : kind) (v : ptr) (m : message) : option message :=
  match k, m with
  | Some key, object_message l => Some (object_message (map_assign key v l))
  | None, array_message l => Some (array_message (l ++ [v]))
  | _, _ => None
  end.

Fixpoint puts (l : list (kind * ptr)) (m : message) : option message :=
  match l with [] => Some m | (k, v) :: l => m ← put k v m; puts l m end.

Lemma run_assign_target p k v s : run_assign (target p k) v s = (m ← s !! p; m ← put k v m; Some (<[p := m]> s)).
Proof. destruct k as [key |]; cbn; destruct (s !! p) as [[] |]; done. Qed.

Lemma run_assign_length a v s s' : run_assign a v s = Some s' -> length s' = length s.
Proof.
  destruct a as [obj key | arr]; cbn; [destruct obj as [o |] | destruct arr as [o |]]; cbn; try done;
    destruct (s !! o) as [[] |]; cbn; try done; intros [= <-]; apply length_insert.
Qed.

Lemma run_assign_app a v s s' t : run_assign a v s = Some s' -> run_assign a v (s ++ t) = Some (s' ++ t).
Proof.
  destruct a as [obj key | arr]; cbn; [destruct obj as [o |] | destruct arr as [o |]]; cbn; try done;
    destruct (s !! o) as [m |] eqn:E; cbn; try done; rewrite (lookup_app_l_Some _ _ _ _ E); cbn;
    (destruct m; try done); intros [= <-]; rewrite insert_app_l; try done; by eapply lookup_lt_Some.
Qed.

Lemma puts_elements rs l : puts (map (fun r => (None, r)) rs) (array_message l) = Some (array_message (l ++ rs)).
Proof. revert l. induction rs as [| r rs IH]; intros l; cbn; [by rewrite app_nil_r | by rewrite IH, <- app_assoc]. Qed.

(** The children of a value, in the order in which they leave the stack. *)
Definition children (j : json) : list (kind * json) :=
  match j with
  | JArray l => map (fun c => (None, c)) (rev l)
  | JObject m => map (fun kv => (Some (fst kv), snd kv)) (rev m)
  | _ => []
  end.

Definition child_item (p : nat) (c : kind * json) : WorkItem := mkItem (target p (fst c)) (snd c).

Lemma fold_push {A B} (f : A -> B) l stk : fold_left (fun stk x => f x :: stk) l stk = map f (rev l) ++ stk.
Proof. revert stk. induction l as [| x l IH]; intros stk; cbn; [done |]. by rewrite IH, map_app, <- app_assoc. Qed.

Lemma push_children_eq p j stk : push_children (Some p) j stk = map (child_item p) (children j) ++ stk.
Proof.
  destruct j as [| | | | | l | m]; cbn; try done.
  - rewrite (fold_push (fun child => mkItem (AssignElement (Some p)) child)), map_map. by f_equal.
  - rewrite (fold_push (fun kv => mkItem (AssignMember (Some p) (fst kv)) (snd kv))), map_map. by f_equal.
Qed.

(** What building [j] at the address [base] adds to the store, wherever that is: the
    messages are read as [transmitted], and the value leaves the stack. *)
Definition reads (new : store) (base : nat) (p : ptr) (j : json) : Prop :=
  forall parse s0 ext fuel, length s0 = base -> json_size j <= fuel ->
    createJson parse fuel (s0 ++ new ++ ext) p = Some (transmitted parse j).

Definition built (j : json) : Prop :=
  forall base, exists new, reads new base (Some base) j /\
    forall s a stk s' fuel, length s = base -> run_assign a (Some base) s = Some s' ->
      build_loop (json_size j + fuel) (mkItem a j :: stk) s = build_loop fuel stk (s' ++ new).

Lemma reads_before new more base p j : reads new base p j -> reads (new ++ more) base p j.
Proof. intros H parse s0 ext fuel Hl Hf. rewrite <- (app_assoc new). by apply H. Qed.

Lemma reads_after new more base p j : reads more (base + length new) p j -> reads (new ++ more) base p j.
Proof.
  intros H parse s0 ext fuel Hl Hf. rewrite <- app_assoc, (app_assoc s0). apply H; [| done]. rewrite length_app. lia.
Qed.

Definition sizes (cs : list (kind * json)) : nat := list_sum (map (fun c => json_size (snd c)) cs).

Lemma children_built cs : Forall (fun c => built (snd c)) cs ->
  forall base, exists new rs, Forall2 (fun c r => reads new base r (snd c)) cs rs /\
    forall s p m m' stk fuel, length s = base -> s !! p = Some m -> puts (zip (map fst cs) rs) m = Some m' ->
      build_loop (sizes cs + fuel) (map (child_item p) cs ++ stk) s = build_loop fuel stk (<[p := m']> s ++ new).
Proof.
  induction 1 as [| [k c] cs Hc _ IH]; intros base.
  - exists [], []. split; [constructor |]. intros s p m m' stk fuel Hl Hp [= <-]. cbn. by rewrite app_nil_r, list_insert_id.
  - destruct (Hc base) as (new1 & Hr1 & Hb1), (IH (base + length new1)) as (new2 & rs & Hr2 & Hb2).
    exists (new1 ++ new2), (Some base :: rs). split.
    + constructor; [by apply reads_before |]. eapply Forall2_impl; [exact Hr2 |]. intros ? ?. apply reads_after.
    + intros s p m m' stk fuel Hl Hp Hputs. cbn [map zip zip_with fst puts] in Hputs.
      destruct (put k (Some base) m) as [m1 |] eqn:Em; [| done]. cbn [mbind option_bind] in Hputs. pose proof (lookup_lt_Some _ _ _ Hp) as Hlt.
      change (sizes ((k, c) :: cs)) with (json_size c + sizes cs). rewrite <- Nat.add_assoc. cbn [map app child_item fst snd].
      rewrite (Hb1 s (target p k) _ (<[p := m1]> s)); [| done | rewrite run_assign_target, Hp; cbn [mbind option_bind]; by rewrite Em].
      rewrite (Hb2 _ p m1 m'); [| rewrite length_app, length_insert; lia | apply lookup_app_l_Some, list_lookup_insert_eq; lia | done].
      rewrite insert_app_l by (rewrite length_insert; lia). by rewrite list_insert_insert_eq, app_assoc.
Qed.

Lemma build_children j base : Forall (fun c => built (snd c)) (children j) ->
  exists new rs, Forall2 (fun c r => reads new (S base) r (snd c)) (children j) rs /\
    forall s m stk fuel, length s = base -> puts (zip (map fst (children j)) rs) (node_message j) = Some m ->
      build_loop (sizes (children j) + fuel) (push_children (Some base) j stk) (s ++ [node_message j]) = build_loop fuel stk (s ++ m :: new).
Proof.
  intros Hc. destruct (children_built _ Hc (S base)) as (new & rs & Hr & Hb). exists new, rs. split; [done |].
  intros s m stk fuel Hl Hputs. rewrite push_children_eq.
  rewrite (Hb _ base (node_message j) m); [| rewrite length_app; cbn; lia | by rewrite lookup_app_r, Hl, Nat.sub_diag by lia | done].
  rewrite insert_app_r_alt by lia. rewrite Hl, Nat.sub_diag. cbn. by rewrite <- app_assoc.
Qed.

(** ** The messages of arrays and objects *)

Lemma puts_app l1 l2 m : puts (l1 ++ l2) m = (m ← puts l1 m; puts l2 m).
Proof. revert m. induction l1 as [| [k v] l1 IH]; intros m; cbn; [done |]. destruct (put k v m); cbn; [apply IH | done]. Qed.

Lemma puts_members {A} (m : list (string * A)) rs : keys_sorted m = true -> length rs = length m ->
  puts (zip (map (fun kv => Some (fst kv)) (rev m)) (rev rs)) (object_message []) = Some (object_message (zip (map fst m) rs)).
Proof.
  revert rs. induction m as [| [k v] m IH]; intros [| r rs]; cbn; try done. intros [Hk Hs]%andb_prop [= Hl].
  rewrite map_app, zip_with_app by (rewrite length_map, !length_rev; lia). rewrite puts_app, IH by done. cbn. do 2 f_equal.
  apply map_assign_first. rewrite forallb_forall in *. intros [k' r'] Hin. cbn. apply in_combine_l in Hin as Hin'.
  apply in_map_iff in Hin' as ([k2 w] & <- & Hw). by apply (Hk (k2, w)).
Qed.

Lemma reverse_is_rev {A} (l : list A) : reverse l = rev l.
Proof. symmetry. apply rev_alt. Qed.

(** Elements are read in the order of the vector, members in the order of the map. *)
Lemma read_elements parse fuel s cs rs :
  Forall2 (fun c r => createJson parse fuel s r = Some (transmitted parse c)) cs rs ->
  mapM (createJson parse fuel s) rs = Some (map (transmitted parse) cs).
Proof. induction 1 as [| c r cs rs Hr _ IH]; cbn; [done |]. by rewrite Hr, IH. Qed.

Lemma read_members parse fuel s (m : list (string * json)) rs acc :
  keys_sorted m = true -> forallb (fun a => forallb (fun kv => String.ltb (fst a) (fst kv)) m) acc = true ->
  Forall2 (fun kv r => createJson parse fuel s r = Some (transmitted parse (snd kv))) m rs ->
  fold_left (fun j kv => j ← j; v ← createJson parse fuel s (snd kv); set_member j (fst kv) v) (zip (map fst m) rs) (Some (JObject acc)) =
  Some (JObject (acc ++ map (fun kv => (fst kv, transmitted parse (snd kv))) m)).
Proof.
  intros Hs Ha Hr. revert acc Hs Ha. induction Hr as [| [k v] r m rs Hv _ IH]; intros acc Hs Ha; cbn; [by rewrite app_nil_r |].
  cbn [snd] in Hv. rewrite Hv. cbn. cbn in Hs. apply andb_prop in Hs as [Hk Hs]. rewrite forallb_forall in Ha.
  rewrite replace_member_last by (apply forallb_forall; intros a Hin; specialize (Ha a Hin); cbn in Ha; by apply andb_prop in Ha as [? _]).
  rewrite IH; [by rewrite <- app_assoc | done |]. rewrite forallb_app. apply andb_true_intro. split; [| by cbn; rewrite Hk].
  apply forallb_forall. intros a Hin. specialize (Ha a Hin). cbn in Ha. by apply andb_prop in Ha as [_ ?].
Qed.

(** The message of a value with its members or elements [rs]. *)
Definition finished (j : json) (rs : list ptr) : message :=
  match j with
  | JArray _ => array_message rs
  | JObject m => object_message (zip (map fst m) (rev rs))
  | _ => node_message j
  end.

Lemma list_sum_rev l : list_sum (rev l) = list_sum l.
Proof. induction l as [| x l IH]; [done |]. change (rev (x :: l)) with (rev l ++ [x]). rewrite list_sum_app, IH. change (list_sum (x :: l)) with (x + list_sum l). cbn. lia. Qed.

Lemma sizes_children j : S (sizes (children j)) = json_size j.
Proof.
  unfold sizes. destruct j as [| | | | | l | m]; cbn; try done; f_equal; rewrite map_map; cbn.
  - by rewrite map_rev, list_sum_rev.
  - by rewrite map_rev, list_sum_rev.
Qed.

Lemma child_size j c : c ∈ children j -> json_size (snd c) < json_size j.
Proof.
  intros Hin. rewrite <- (sizes_children j). induction (children j) as [| c' cs IH]; [by apply elem_of_nil in Hin |].
  change (sizes (c' :: cs)) with (json_size (snd c') + sizes cs). apply elem_of_cons in Hin as [-> | Hin]; [lia | specialize (IH Hin); lia].
Qed.

Lemma puts_finished j rs : wf_json j = true -> length rs = length (children j) ->
  puts (zip (map fst (children j)) rs) (node_message j) = Some (finished j rs).
Proof.
  destruct j as [| | | | | l | m]; cbn; intros Hw Hl; try by destruct rs.
  - rewrite length_map, length_rev in Hl. rewrite map_map. cbn.
    assert (zip (map (fun _ : json => None) (rev l)) rs = map (fun r => (None, r)) rs) as ->; [| apply puts_elements].
    rewrite <- (length_rev l) in Hl. revert Hl. generalize (rev l) as l'. induction rs as [| r rs IH]; intros [| x l'] Hl; try done.
    cbn. f_equal. apply IH. by injection Hl.
  - apply andb_prop in Hw as [Hs _]. rewrite length_map, length_rev in Hl. rewrite map_map. cbn [fst].
    rewrite <- (rev_involutive rs) at 1. apply puts_members; [done | by rewrite length_rev].
Qed.

Lemma read_finished parse j fuel s a rs : wf_json j = true -> s !! a = Some (finished j rs) ->
  Forall2 (fun c r => createJson parse fuel s r = Some (transmitted parse (snd c))) (children j) rs ->
  createJson parse (S fuel) s (Some a) = Some (transmitted parse j).
Proof.
  intros Hw Ha Hr. cbn. rewrite Ha. cbn [mbind option_bind]. destruct j as [| | | | | l | m]; cbn [finished node_message children transmitted] in *; try done.
  - rewrite Forall2_fmap_l in Hr. cbn in Hr. rewrite (read_elements parse fuel s (rev l) rs Hr). by rewrite map_rev.
  - rewrite Forall2_fmap_l in Hr. cbn in Hr. cbn in Hw. apply andb_prop in Hw as [Hs _]. apply Forall2_reverse in Hr.
    rewrite !reverse_is_rev, rev_involutive in Hr. by rewrite (read_members parse fuel s m (rev rs) [] Hs eq_refl Hr).
Qed.

Lemma wf_children j : wf_json j = true -> Forall (fun c => wf_json (snd c) = true) (children j).
Proof.
  destruct j as [| | | | | l | m]; cbn; intros Hw; try constructor.
  - apply Forall_fmap, Forall_forall. intros c Hc%list_elem_of_In%in_rev. cbn. rewrite forallb_forall in Hw. by apply Hw.
  - apply andb_prop in Hw as [_ Hw]. apply Forall_fmap, Forall_forall. intros c Hc%list_elem_of_In%in_rev. cbn.
    rewrite forallb_forall in Hw. by apply (Hw c).
Qed.

(** A value whose children are built is built, under a parent or as the root. *)
Lemma built_root j base : wf_json j = true -> Forall (fun c => built (snd c)) (children j) ->
  exists new, reads new base (Some base) j /\
    forall s stk fuel, length s = base ->
      build_loop (sizes (children j) + fuel) (push_children (Some base) j stk) (s ++ [node_message j]) = build_loop fuel stk (s ++ new).
Proof.
  intros Hw Hc. destruct (build_children j base Hc) as (new & rs & Hr & Hb). exists (finished j rs :: new). split.
  - intros parse s0 ext fuel Hl Hf. destruct fuel as [| fuel]; [rewrite <- (sizes_children j) in Hf; lia |].
    apply (read_finished parse j fuel _ _ rs Hw); [by rewrite lookup_app_r, Hl, Nat.sub_diag by lia |].
    apply Forall2_same_length_lookup. split; [by eapply Forall2_length |].
    intros i c r Hci Hri. pose proof (Forall2_lookup_lr _ _ _ i c r Hr Hci Hri) as Hread. pose proof (list_elem_of_lookup_2 _ _ _ Hci) as Hcin. cbn in Hread. cbn [app]. rewrite (cons_middle _ s0), app_assoc.
    apply Hread; [rewrite length_app; cbn; lia | pose proof (child_size j c Hcin); lia].
  - intros s stk fuel Hl. apply (Hb s); [done |]. apply puts_finished; [done |]. symmetry. by eapply Forall2_length.
Qed.

Lemma children_all j (P : json -> Prop) : (forall l, j = JArray l -> Forall P l) -> (forall m, j = JObject m -> Forall (fun kv => P (snd kv)) m) ->
  Forall (fun c => P (snd c)) (children j).
Proof.
  intros Ha Ho. destruct j as [| | | | | l | m]; cbn; try constructor.
  - apply Forall_fmap. cbn. rewrite <- reverse_is_rev. by apply Forall_reverse, Ha.
  - apply Forall_fmap. cbn. rewrite <- reverse_is_rev. by apply Forall_reverse, Ho.
Qed.

Lemma all_built j : wf_json j = true -> built j.
Proof.
  assert (forall j, Forall (fun c => wf_json (snd c) = true -> built (snd c)) (children j) -> wf_json j = true -> built j) as Hstep.
  { clear. intros j Hc Hw base. assert (Forall (fun c => built (snd c)) (children j)) as Hb.
    { pose proof (wf_children j Hw) as Hwc. apply Forall_forall. intros c Hin. rewrite Forall_forall in Hc, Hwc. by apply Hc, Hwc. }
    destruct (built_root j base Hw Hb) as (new & Hr & Hl). exists new. split; [done |]. intros s a stk s' fuel Hs Ha.
    rewrite <- (sizes_children j). cbn [build_loop plus]. unfold build_turn. cbn [node assign create]. rewrite Hs, (run_assign_app _ _ _ _ _ Ha).
    cbn [mbind option_bind]. apply Hl. by rewrite (run_assign_length _ _ _ _ Ha). }
  revert j. apply (json_nested_ind (fun j => wf_json j = true -> built j)).
  - intros j Ho Ha. apply Hstep. apply (children_all j (fun j => wf_json j = true -> built j)); by intros ? ->.
  - intros l Hl. apply Hstep. apply (children_all (JArray l) (fun j => wf_json j = true -> built j)); [by intros ? [= <-] | done].
  - intros m Hm. apply Hstep. apply (children_all (JObject m) (fun j => wf_json j = true -> built j)); [done | by intros ? [= <-]].
Qed.

Lemma buildSioFromJson_reads j s : wf_json j = true ->
  exists p s', buildSioFromJson (json_size j) j s = Some (p, s ++ s') /\ forall parse fuel, json_size j <= fuel -> createJson parse fuel (s ++ s') p = Some (transmitted parse j).
Proof.
  intros Hw. assert (Forall (fun c => built (snd c)) (children j)) as Hb.
  { eapply Forall_impl; [exact (wf_children j Hw) |]. intros c. apply all_built. }
  destruct (built_root j (length s) Hw Hb) as (new & Hr & Hl). exists (Some (length s)), new. unfold buildSioFromJson. cbn [create].
  rewrite <- (sizes_children j). replace (S (sizes (children j))) with (sizes (children j) + 1) by lia. rewrite Hl by done. split; [done |].
  intros parse fuel Hf. rewrite <- (app_nil_r new). apply Hr; [done |]. rewrite <- (sizes_children j). lia.
Qed.

(** Any value with members or elements becomes a message that the receiver reads. *)
Lemma createObject_reads j s : is_object j = true -> wf_json j = true ->
  exists p s', createObject j s = Some (p, s ++ s') /\
    forall parse fuel, json_size j <= fuel -> createJson parse fuel (s ++ s') p = Some (transmitted parse j).
Proof. unfold createObject. intros ->. apply buildSioFromJson_reads. Qed.

Lemma createArray_reads j s : is_array j = true -> wf_json j = true ->
  exists p s', createArray j s = Some (p, s ++ s') /\
    forall parse fuel, json_size j <= fuel -> createJson parse fuel (s ++ s') p = Some (transmitted parse j).
Proof. unfold createArray. intros ->. apply buildSioFromJson_reads. Qed.

(** Anything else becomes an empty message. *)
Lemma createObject_other o s : is_object o = false -> createObject o s = Some (Some (length s), s ++ [object_message []]).
Proof. unfold createObject. by intros ->. Qed.

Lemma createArray_other a s : is_array a = false -> createArray a s = Some (Some (length s), s ++ [array_message []]).
Proof. unfold createArray. by intros ->. Qed.

(** ** Reading ends where the messages are no cycle *)

Definition pointers (m : message) : list ptr :=
  match m with array_message v => v | object_message v => map snd v | _ => [] end.

Definition below (rank : nat -> nat) (s : store) (n : nat) (p : ptr) : Prop :=
  match p with Some a => a < length s /\ rank a < n | None => True end.

Definition acyclic (rank : nat -> nat) (s : store) : Prop :=
  forall a m, s !! a = Some m -> Forall (below rank s (rank a)) (pointers m).

Lemma set_member_object m key v : set_member (JObject m) key v = Some (JObject (replace_member key v m)).
Proof. done. Qed.

Lemma createJson_total parse rank s fuel p : acyclic rank s -> below rank s fuel p -> is_Some (createJson parse fuel s p).
Proof.
  intros Hs. revert p. induction fuel as [| fuel IH]; intros [a |] Hp; [destruct Hp; lia | by eexists | | by eexists].
  destruct Hp as [Ha Hf]. cbn [createJson]. destruct (lookup_lt_is_Some_2 s a Ha) as [m Hm]. rewrite Hm. cbn [mbind option_bind].
  pose proof (Hs a m Hm) as Hb. assert (forall q, q ∈ pointers m -> is_Some (createJson parse fuel s q)) as Hc.
  { intros q Hq. apply IH. rewrite Forall_forall in Hb. specialize (Hb q Hq). destruct q as [b |]; [| done]. cbn in *. lia. }
  destruct m as [| | | | v | v | |]; cbn in Hc; try by eexists.
  - assert (is_Some (mapM (createJson parse fuel s) v)) as [l ->]; [| by eexists].
    apply mapM_is_Some_2, Forall_forall. exact Hc.
  - clear -Hc. assert (forall acc, is_Some (fold_left (fun j kv => j ← j; v ← createJson parse fuel s (snd kv); set_member j (fst kv) v) v (Some (JObject acc)))) as Hg;
      [| apply Hg]. induction v as [| [k q] v IH]; intros acc; cbn [fold_left snd fst]; [by eexists |].
    destruct (Hc q) as [x Hx]; [cbn; left |]. rewrite Hx. cbn [mbind option_bind]. rewrite set_member_object. apply IH. intros q' Hq'. apply Hc. cbn. by right.
Qed.

(** ** The order of arrays *)

Definition plain : string -> option json := fun _ => None.

(** Numbers as the receiver has them. *)
Fixpoint doubles (j : json) : json :=
  match j with
  | JInt z => JFloat (f64_of_Z z)
  | JArray l => JArray (map doubles l)
  | JObject m => JObject (map (fun kv => (fst kv, doubles (snd kv))) m)
  | _ => j
  end.

(** Sent back by the same conversion, the order is the first one again. *)
Lemma transmitted_twice j : transmitted plain (transmitted plain j) = doubles j.
Proof.
  revert j. apply json_nested_ind.
  - by intros [].
  - intros l Hl. cbn. rewrite map_rev, rev_involutive, map_map. f_equal. apply map_ext_in. rewrite Forall_forall in Hl. intros c Hc%list_elem_of_In. by apply Hl.
  - intros m Hm. cbn. rewrite map_map. f_equal. apply map_ext_in. rewrite Forall_forall in Hm. intros [k c] Hc%list_elem_of_In. cbn. f_equal. by apply (Hm (k, c)).
Qed.

Example demo_reversed :
  (fun r => createJson plain 20 (snd r) (fst r)) <$> createObject (JObject [("Box", JArray [JNull; JBool true; JArray [JNull; JBool false]])]%string) [null_message] =
  Some (Some (JObject [("Box", JArray [JArray [JBool false; JNull]; JBool true; JNull])]%string)).
Proof. vm_compute. reflexivity. Qed.
