(* ===== verification/SioHandler.v ===== *)
(** * The Socket.IO connection

    [Management/worker/include/SioHandler.h], [src/SioHandler.cpp]: the connection to the
    server's broker, the thread that sends what the units emit, and the binders that say
    what an incoming event does; what a binder does when it runs is [SioEventBinder_Run] of
    [SettingManager].  The client library is not in the repository's own code: whether it
    connects in time is an argument, [sent] is what was given to its socket, and
    [listeners] are the events it calls back for.  [None] is the end of the process: a
    null pointer is used, or a joinable thread is assigned or destroyed. *)

From Stdlib Require Import Ascii String.
From stdpp Require Import gmap pretty.
From S2P Require Import Prelude Json SafeQueue SafeThread.
Open Scope Z_scope.
Open Scope list_scope.

Inductive DETECTOR := EventNotifycation | ExceptionUpdate | ScheduleUpdate.

Definition GetEventNameStringFromEventNameEnumValue (tag : DETECTOR) : string :=
  match tag with EventNotifycation => "EventNotifycation" | ExceptionUpdate => "ExceptionUpdate" | ScheduleUpdate => "ScheduleUpdate" end.

(** The name of the event that carries the notifications of a unit. *)
Definition DETECTOR_MESSAGE : string := "Message".

(** ** Settings of the connection *)

Record SioSetting := mkSioSetting {
  sio_service_ip : string;
  sio_service_port : Z;        (* int *)
  my_server_id : Z;
  my_local_ip : string;
  sio_root_namespace : string;
  sio_conn_source : string;
  sio_conn_user_type : string;
  sio_conn_service_type : string;
  sio_conn_auth_token : string
}.

(** [env_token]: the environment variable MGEN_SIO_AUTH_TOKEN. *)
Definition SetDefaultConnectionQuery (env_token : option string) (s : SioSetting) : SioSetting :=
  mkSioSetting (sio_service_ip s) (sio_service_port s) (my_server_id s) (my_local_ip s) "/" "App" "Server" "DetectBase"
    (default "detectbase-token" env_token).

Definition AppendHttpIfNotEixst (origin : string) : string := if String.prefix "http://" origin then origin else ("http://" ++ origin)%string.

(** A buffer of 128 bytes with its end mark. *)
Definition connection_url (s : SioSetting) : string :=
  AppendHttpIfNotEixst (String.substring 0 127 (sio_service_ip s ++ ":" ++ pretty (sio_service_port s) ++ sio_root_namespace s)).

Definition connection_query (s : SioSetting) : list (string * string) :=
  [("connectSource", sio_conn_source s); ("serviceType", sio_conn_service_type s); ("userId", pretty (my_server_id s)); ("userType", sio_conn_user_type s)]%string.

(** ** Binders *)

Inductive EventType := InterprotocolSettingUpdateTargetUnit.

(** Which of the functions and targets are set. *)
Record SioEventBinder := mkBinder {
  event_name_tag : DETECTOR;
  event_type : EventType;
  str_event_name : string;
  inter_proc : bool;
  update_units_extractor : bool;
  in_scope_direct_processor : bool;
  multi_unit_setting_manager : bool;
  internal_queue : bool;
  need_interprotocol_mode : bool;
  need_setting_update_mode : bool;
  need_internal_enqueueing_mode : bool;
  need_target_unit_extractor_mode : bool
}.

Definition SioEventBinder_make (tag : DETECTOR) (type : EventType) : SioEventBinder :=
  match type with
  | InterprotocolSettingUpdateTargetUnit =>
      mkBinder tag type (GetEventNameStringFromEventNameEnumValue tag) false false false false false true true false true
  end.

Definition SetInterProtocolFunc (b : SioEventBinder) : SioEventBinder :=
  mkBinder (event_name_tag b) (event_type b) (str_event_name b) true (update_units_extractor b) (in_scope_direct_processor b)
    (multi_unit_setting_manager b) (internal_queue b) (need_interprotocol_mode b) (need_setting_update_mode b) (need_internal_enqueueing_mode b)
    (need_target_unit_extractor_mode b).

Definition SetTargetUnitsExtractor (b : SioEventBinder) : SioEventBinder :=
  mkBinder (event_name_tag b) (event_type b) (str_event_name b) (inter_proc b) true (in_scope_direct_processor b)
    (multi_unit_setting_manager b) (internal_queue b) (need_interprotocol_mode b) (need_setting_update_mode b) (need_internal_enqueueing_mode b)
    (need_target_unit_extractor_mode b).

(** [ptr]: the manager is there. *)
Definition SetMultiUintsSettingManager (ptr : bool) (b : SioEventBinder) : SioEventBinder :=
  mkBinder (event_name_tag b) (event_type b) (str_event_name b) (inter_proc b) (update_units_extractor b) (in_scope_direct_processor b)
    ptr (internal_queue b) (need_interprotocol_mode b) (need_setting_update_mode b) (need_internal_enqueueing_mode b)
    (need_target_unit_extractor_mode b).

Definition IsRunnable (b : SioEventBinder) : bool :=
  (negb (need_interprotocol_mode b) || inter_proc b) &&
  (if need_setting_update_mode b then update_units_extractor b && multi_unit_setting_manager b
   else if need_internal_enqueueing_mode b then internal_queue b
   else in_scope_direct_processor b).

(** ** The handler *)

Definition EmitMessage : Type := string * json.

Definition EMIT_QUEUE_SIZE : Z := 1000.

Record SioHandler := mkSio {
  setting : SioSetting;
  conn_finish : bool;
  current_socket : bool;
  event_binders : gmap string SioEventBinder;
  listeners : gset string;
  emit_queue : SafeQueue EmitMessage;
  emit_control_thread : SafeThread;
  b_terminated_instance : bool;
  sent : list EmitMessage
}.

Definition SioHandler_make (s : SioSetting) : SioHandler :=
  mkSio s false false ∅ ∅ (SetMaxSize SafeQueue_make EMIT_QUEUE_SIZE) SafeThread_make false [].

Definition with_emit (h : SioHandler) q th sn : SioHandler :=
  mkSio (setting h) (conn_finish h) (current_socket h) (event_binders h) (listeners h) q th (b_terminated_instance h) sn.

(** [open]: the listener for the open connection was called within ten seconds. *)
Definition Initialize (opens : bool) (h : SioHandler) : option (bool * SioHandler) :=
  let conn := conn_finish h || opens in
  let h := mkSio (setting h) conn (current_socket h) (event_binders h) (listeners h) (emit_queue h) (emit_control_thread h) (b_terminated_instance h) (sent h) in
  if negb conn then Some (false, h)
  else
    th ← SafeThread.Start (SetThreadFunctions (emit_control_thread h) true true);
    Some (true, mkSio (setting h) conn true (event_binders h) (listeners h) (emit_queue h) th (b_terminated_instance h) (sent h)).

Definition Emit (m : EmitMessage) (h : SioHandler) : SioHandler := with_emit h (enqueue (emit_queue h) m) (emit_control_thread h) (sent h).

(** What the socket takes. *)
Definition sendable (m : EmitMessage) : bool := is_object (snd m) || is_array (snd m).

(** One turn of the thread. *)
Definition EmitControlThreadRunner_turn (h : SioHandler) : option SioHandler :=
  if negb (is_running_ (emit_control_thread h)) then Some h
  else
    let '(opt_message, q) := dequeue_wait_for (emit_queue h) in
    match opt_message with
    | None => Some (with_emit h q (emit_control_thread h) (sent h))
    | Some m =>
        if sendable m
        then if current_socket h then Some (with_emit h q (emit_control_thread h) (sent h ++ [m])) else None
        else Some (with_emit h q (emit_control_thread h) (sent h))
    end.

Definition EmitControlThreadCloser (h : SioHandler) : SioHandler := with_emit h (terminate (emit_queue h)) (emit_control_thread h) (sent h).

(** The closer runs only where the thread does. *)
Definition TerminateSocketIO (h : SioHandler) : SioHandler :=
  if b_terminated_instance h then h
  else
    let running := is_running_ (emit_control_thread h) in
    let h := with_emit h (emit_queue h) (SafeThread.Stop (emit_control_thread h)) (sent h) in
    let h := if running then EmitControlThreadCloser h else h in
    mkSio (setting h) (conn_finish h) (current_socket h) (event_binders h) (listeners h) (emit_queue h) (emit_control_thread h) true (sent h).

Definition RegistEvent (b : SioEventBinder) (h : SioHandler) : option SioHandler :=
  if negb (current_socket h) then None
  else Some (mkSio (setting h) (conn_finish h) (current_socket h) (<[str_event_name b := b]> (event_binders h)) ({[str_event_name b]} ∪ listeners h)
         (emit_queue h) (emit_control_thread h) (b_terminated_instance h) (sent h)).

(** The binder that an incoming event runs. *)
Definition received (recv_event_name : string) (h : SioHandler) : option SioEventBinder :=
  if decide (recv_event_name ∈ listeners h) then event_binders h !! recv_event_name else None.

Definition GetID (h : SioHandler) : Z := my_server_id (setting h).

(** ** What happens *)

Inductive SioEvent := SEmit (m : EmitMessage) | STurn | STerminate.

Definition sio_event (h : SioHandler) (e : SioEvent) : option SioHandler :=
  match e with
  | SEmit m => Some (Emit m h)
  | STurn => EmitControlThreadRunner_turn h
  | STerminate => Some (TerminateSocketIO h)
  end.

Fixpoint sio_events (h : SioHandler) (l : list SioEvent) : option SioHandler :=
  match l with
  | [] => Some h
  | e :: l => h ← sio_event h e; sio_events h l
  end.

(** ** Properties *)

Fixpoint emitted (l : list SioEvent) : list EmitMessage :=
  match l with [] => [] | SEmit m :: l => m :: emitted l | _ :: l => emitted l end.

Lemma emitted_app l1 l2 : emitted (l1 ++ l2) = emitted l1 ++ emitted l2.
Proof. induction l1 as [| [] l1 IH]; cbn; [done | by rewrite IH | done | done]. Qed.

(** After [es] were emitted: [taken] left the queue in this order. *)
Record in_order (es taken : list EmitMessage) (h : SioHandler) : Prop := {
  o_limit : max_size_ (emit_queue h) = EMIT_QUEUE_SIZE /\ q_size (emit_queue h) <= EMIT_QUEUE_SIZE;
  o_socket : current_socket h = true;
  o_sent : sent h = List.filter sendable taken;
  o_order : exists gone, es = gone ++ q_ (emit_queue h) /\ taken `sublist_of` gone;
  o_all : Z.of_nat (length es) <= EMIT_QUEUE_SIZE -> es = taken ++ q_ (emit_queue h)
}.

Lemma enqueue_limit {T} (q : SafeQueue T) m : 0 < max_size_ q -> q_size q <= max_size_ q ->
  max_size_ (enqueue q m) = max_size_ q /\ q_size (enqueue q m) <= max_size_ q /\ q_ (enqueue q m) = if max_size_ q <=? q_size q then tail (q_ q) ++ [m] else q_ q ++ [m].
Proof.
  intros H0 Hs. pose proof (enqueue_size q m H0 Hs) as Hl. unfold enqueue in *. rewrite (proj2 (Z.ltb_lt 0 (max_size_ q)) H0) in *. cbn [andb] in *.
  by destruct (max_size_ q <=? q_size q).
Qed.

Lemma sio_event_order es taken (h h' : SioHandler) e :
  in_order es taken h -> sio_event h e = Some h' -> exists more, in_order (es ++ emitted [e]) (taken ++ more) h'.
Proof.
  intros [[Hm Hs] Hc Hse (gone & He & Hsub) Ha] H. destruct e as [m | |]; cbn [sio_event emitted] in *.
  - injection H as <-. exists []. rewrite app_nil_r. destruct (enqueue_limit (emit_queue h) m) as (Hm' & Hs' & Hq); [by rewrite Hm | by rewrite Hm |].
    rewrite Hm in Hm', Hs', Hq. split; cbn [emit_queue current_socket sent Emit with_emit]; [by split | done | done | |].
    + rewrite Hq. destruct (EMIT_QUEUE_SIZE <=? q_size (emit_queue h)) eqn:Ef.
      * destruct (q_ (emit_queue h)) as [| x l] eqn:Ex; [unfold q_size in Ef; rewrite Ex in Ef; cbn in Ef; bool_to_prop; unfold EMIT_QUEUE_SIZE in *; lia |].
        exists (gone ++ [x]). split; [rewrite He; cbn; by rewrite <- !app_assoc |]. etrans; [exact Hsub | apply sublist_inserts_r; done].
      * exists gone. split; [by rewrite He, <- app_assoc | done].
    + intros Hle. rewrite length_app in Hle. cbn [length] in Hle. rewrite Hq. destruct (EMIT_QUEUE_SIZE <=? q_size (emit_queue h)) eqn:Ef; [| rewrite Ha by lia; by rewrite <- app_assoc].
      bool_to_prop. rewrite He, length_app in Hle. unfold q_size in Ef. lia.
  - rewrite app_nil_r. unfold EmitControlThreadRunner_turn in H. destruct (negb (is_running_ (emit_control_thread h))); [injection H as <-; exists []; rewrite app_nil_r; by split; try exists gone |].
    unfold dequeue_wait_for in H. destruct (b_terminate (emit_queue h)) eqn:Et; [injection H as <-; exists []; rewrite app_nil_r; by split; try exists gone |].
    destruct (q_ (emit_queue h)) as [| x l] eqn:Ex; [injection H as <-; exists []; rewrite app_nil_r; split; cbn; try rewrite Ex; try done; by exists gone |].
    exists [x]. assert (in_order es (taken ++ [x]) (with_emit h (mkQueue l (b_terminate (emit_queue h)) (max_size_ (emit_queue h)) (drop_count_ (emit_queue h))) (emit_control_thread h)
      (sent h ++ if sendable x then [x] else []))) as Hi.
    { split; cbn; [split; [done |]; unfold q_size in *; rewrite Ex in Hs; cbn in *; lia | done | rewrite List.filter_app, <- Hse; cbn; by destruct (sendable x) | |].
      - exists (gone ++ [x]). split; [by rewrite He, <- app_assoc | by apply sublist_app].
      - intros Hle. rewrite Ha by done. by rewrite <- app_assoc. }
    rewrite Et in Hi. destruct (sendable x); [rewrite Hc in H |]; injection H as <-; [exact Hi | by rewrite app_nil_r in Hi].
  - injection H as <-. rewrite app_nil_r. exists []. rewrite app_nil_r. unfold TerminateSocketIO. destruct (b_terminated_instance h); [by split; try exists gone |].
    destruct (is_running_ (emit_control_thread h)); split; cbn; try done; by exists gone.
Qed.

(** Once closed, nothing is sent; what was waiting is lost. *)
Lemma terminated_sends_nothing (h h' : SioHandler) l :
  b_terminated_instance h = true -> is_running_ (emit_control_thread h) = false -> sio_events h l = Some h' -> sent h' = sent h.
Proof.
  intros Ht Hr. assert (forall h0, b_terminated_instance h0 = true -> is_running_ (emit_control_thread h0) = false -> sio_events h0 l = Some h' -> sent h' = sent h0) as Hg; [| by apply Hg].
  clear. induction l as [| e l IH]; intros h0 Ht Hr H; [by injection H as <- |]. cbn [sio_events] in H.
  destruct e; cbn [sio_event] in H.
  - by rewrite (IH (Emit m h0) Ht Hr H).
  - unfold EmitControlThreadRunner_turn in H. rewrite Hr in H. by apply IH.
  - unfold TerminateSocketIO in H. rewrite Ht in H. by apply IH.
Qed.

Definition closed_ok (h : SioHandler) : Prop := b_terminated_instance h = true -> is_running_ (emit_control_thread h) = false.

Lemma sio_event_closed (h h' : SioHandler) e :
  closed_ok h -> sio_event h e = Some h' -> closed_ok h' /\ (e = STerminate -> b_terminated_instance h' = true).
Proof.
  intros Hc H. destruct e; cbn [sio_event] in H.
  - by injection H as <-.
  - unfold EmitControlThreadRunner_turn in H. repeat case_match; simplify_eq; by split.
  - injection H as <-. unfold TerminateSocketIO. destruct (b_terminated_instance h) eqn:E; [by split |].
    unfold closed_ok, SafeThread.Stop. destruct (is_running_ (emit_control_thread h)) eqn:Er; split; try done; cbn; by rewrite ?Er.
Qed.

Lemma sio_events_closed l (h h' : SioHandler) : closed_ok h -> sio_events h l = Some h' -> closed_ok h'.
Proof.
  revert h. induction l as [| e l IH]; intros h Hc H; [by injection H as <- |]. cbn [sio_events] in H.
  destruct (sio_event h e) as [h1 |] eqn:E; [| done]. apply (IH h1); [| done]. by eapply sio_event_closed.
Qed.

Lemma sio_events_app (h : SioHandler) l1 l2 : sio_events h (l1 ++ l2) = h1 ← sio_events h l1; sio_events h1 l2.
Proof. revert h. induction l1 as [| e l1 IH]; intros h; [done |]. cbn. destruct (sio_event h e); cbn; [apply IH | done]. Qed.

(** The termination is the last moment at which something is sent. *)
Lemma terminated_prefix (h h' : SioHandler) l1 l2 : closed_ok h -> sio_events h (l1 ++ STerminate :: l2) = Some h' ->
  exists h1, sio_events h l1 = Some h1 /\ sent h' = sent h1.
Proof.
  intros Hc. rewrite sio_events_app. destruct (sio_events h l1) as [h1 |] eqn:E1; [| done]. cbn [mbind option_bind]. intros H.
  exists h1. split; [done |]. pose proof (sio_events_closed _ _ _ Hc E1) as Hc1. change (STerminate :: l2) with ([STerminate] ++ l2) in H.
  destruct (sio_event_closed h1 (TerminateSocketIO h1) STerminate Hc1 eq_refl) as [Hc2 Ht]. specialize (Ht eq_refl).
  rewrite (terminated_sends_nothing (TerminateSocketIO h1) h' l2 Ht (Hc2 Ht)) by exact H.
  unfold TerminateSocketIO. destruct (b_terminated_instance h1); [done |]. by destruct (is_running_ (emit_control_thread h1)).
Qed.

(** C29: the events of the units are handed over to the socket in the order in which they were
    emitted: what was handed over, and what waits, are in this order, the waiting ones are
    the newest of all, at most a thousand; and while no more than a thousand were emitted,
    none is dropped from the queue and all that left it were handed over, except those
    that are neither an object nor an array.  A termination ends this: what waits then, and
    what is emitted later, is never handed over.  (What the client library does with an
    event is not part of the program.) *)
Theorem events_sent_in_order setting l :
  exists h0, Initialize true (SioHandler_make setting) = Some (true, h0) /\
    exists h taken gone, sio_events h0 l = Some h /\ sent h = List.filter sendable taken /\ emitted l = gone ++ q_ (emit_queue h) /\
      taken `sublist_of` gone /\ q_size (emit_queue h) <= EMIT_QUEUE_SIZE /\ (Z.of_nat (length (emitted l)) <= EMIT_QUEUE_SIZE -> taken = gone) /\
      forall l1 l2, l = l1 ++ STerminate :: l2 -> exists h1, sio_events h0 l1 = Some h1 /\ sent h = sent h1.
Proof.
  eexists. split; [reflexivity |]. match goal with |- context [sio_events ?x l] => set (h0 := x) end.
  assert (forall es taken (h : SioHandler), in_order es taken h -> exists h' more, sio_events h l = Some h' /\ in_order (es ++ emitted l) (taken ++ more) h') as Hg.
  { induction l as [| e l IH]; intros es taken h Hi; [exists h, []; by rewrite !app_nil_r |]. cbn [sio_events].
    assert (exists h1, sio_event h e = Some h1) as [h1 E1].
    { destruct e as [m | |]; cbn; [by eexists | | by eexists]. unfold EmitControlThreadRunner_turn. rewrite (o_socket _ _ _ Hi). repeat case_match; by eexists. }
    destruct (sio_event_order es taken h h1 e Hi E1) as [more Hi1]. rewrite E1. cbn [mbind option_bind]. destruct (IH _ _ _ Hi1) as (h' & more' & E' & Hi').
    exists h', (more ++ more'). split; [done |]. rewrite app_assoc. change (e :: l) with ([e] ++ l). by rewrite emitted_app, app_assoc. }
  destruct (Hg [] [] h0) as (h & taken & E & [[Hm Hs] _ Hse (gone & He & Hsub) Ha]).
  { split; cbn; try done. by exists []. }
  exists h, taken, gone. split_and!; try done.
  - intros Hle. specialize (Ha Hle). cbn [app] in *. rewrite He in Ha. by apply app_inv_tail in Ha.
  - intros l1 l2 ->. apply (terminated_prefix h0 h l1 l2); [by intros ? | exact E].
Qed.

(** A binder that is runnable has what its mode uses. *)
Lemma setting_binder_runnable tag ptr :
  IsRunnable (SetMultiUintsSettingManager ptr (SetTargetUnitsExtractor (SetInterProtocolFunc (SioEventBinder_make tag InterprotocolSettingUpdateTargetUnit)))) = ptr.
Proof. by destruct ptr. Qed.

(** An event that was bound runs its own binder. *)
Lemma registered_received b (h h' : SioHandler) : RegistEvent b h = Some h' -> received (str_event_name b) h' = Some b.
Proof. unfold RegistEvent. destruct (current_socket h); [| done]. intros [= <-]. unfold received. cbn. rewrite decide_True by set_solver. apply lookup_insert_eq. Qed.
