(* ===== verification/EventDelivery.v ===== *)
(** * Events on the wire

    From a unit to the receiver and back: the JSON value of an event
    ([BuildNotifyJsonBase] and [BuildNotifyJsonImpl_Analysis] of
    [Main/DETECTOR/src/RtspDetectorUnit.cpp]), the message that the thread of
    [Management/worker/src/SioHandler.cpp] makes of it, what a receiver reads there, and the
    listener of that file for the events of the server. *)

From Stdlib Require Import Ascii String.
From stdpp Require Import gmap pretty.
From S2P Require Import Prelude Float32 FloatBounds Json InferObject Schedule Checkers Kalman Sort SortProps Letterbox DetectorUnit DetectorPipeline DetectorEvents SafeQueue SioHandler SioParser.
Open Scope Z_scope.
Open Scope list_scope.

(** ** The value of an event *)

(** [object[key] = value] in turn. *)
Definition object_of (l : list (string * json)) : json := JObject (fold_left (fun m kv => replace_member (fst kv) (snd kv) m) l []).

Definition event_object_json (o : EventObject) : json :=
  object_of ([("Confidence", JFloat (f64_of_f32 (eo_Confidence o))); ("ClassId", JInt (eo_ClassId o)); ("TrackId", JInt (eo_TrackId o));
    ("VideoWidth", JInt (eo_VideoWidth o)); ("VideoHeight", JInt (eo_VideoHeight o)); ("Box", JArray (map JInt (eo_Box o)))]%string ++
    match eo_extended o with Some (key, v) => [(key, JInt v)] | None => [] end).

Definition BroadCast : Z := 1.

Definition BuildNotifyJsonBase (message_type : string) (trans_type : Z) (time source destination : string) : json :=
  let data := object_of [("MessageType", JString message_type); ("Message", JNull)]%string in
  object_of [("TransmissionMethod", JInt trans_type); ("Time", JString time); ("Source", JString source);
    ("Destination", JString destination); ("Data", data)]%string.

(** [j[key] = v] of an object or of null. *)
Definition assign_key (key : string) (v j : json) : json := default j (set_member j key v).

Definition analysis_json (e : EventMessage) : json :=
  object_of [("Time", JString (em_Time e)); ("Uid", JString (em_Uid e)); ("TrackId", JInt (em_TrackId e)); ("CameraId", JInt (em_CameraId e));
    ("EventCode", JInt (em_EventCode e)); ("LevelCode", JInt (em_LevelCode e)); ("ScheduleId", JInt (em_ScheduleId e));
    ("ServerId", JInt (em_ServerId e)); ("ImagePath", JString (em_ImagePath e)); ("Objects", JArray (map event_object_json (em_Objects e)));
    ("Confirm", JInt 0); ("Checker", JString "")]%string.

Definition message_json (e : EventMessage) : json :=
  let notify := BuildNotifyJsonBase (GetEventNameStringFromEventNameEnumValue EventNotifycation) BroadCast (em_Time e) (em_Source e) "" in
  let data := at_key notify "Data" in
  assign_key "Data" (assign_key "Message" (assign_key "Analysis" (analysis_json e) (at_key data "Message")) data) notify.

(** The events of one item, in the order of the list. *)
Definition emit_events (events : list EventMessage) (h : SioHandler) : SioHandler :=
  fold_left (fun h e => Emit (DETECTOR_MESSAGE, message_json e) h) events h.

(** ** To the socket and from it *)

(** What a turn of the thread gives to the socket; inner [None]: nothing is sent. *)
Definition EmitControlThreadRunner_message (m : EmitMessage) (s : store) : option (option (ptr * store)) :=
  let '(_, event_data) := m in
  if is_object event_data then Some <$> createObject event_data s
  else if is_array event_data then Some <$> createArray event_data s
  else Some None.

(** The acknowledgement of an event. *)
Definition ack_data (recv_event_name : string) : json :=
  object_of [("receivedEvent", JString recv_event_name); ("status", JString "success")]%string.

(** The listener of an event: the answer, and what the binder runs with.  [None]: the event has
    no binder. *)
Definition on_event (parse : string -> option json) (fuel : nat) (h : SioHandler) (recv_event_name : string) (data : ptr) (isAck : bool)
    (ack_resp : list ptr) (s : store) : option (option (SioEventBinder * json) * list ptr * store) :=
  match received recv_event_name h with
  | None => Some (None, ack_resp, s)
  | Some binder =>
      sio_js ← createJson parse fuel s data;
      if isAck then
        '(ack, s) ← createObject (ack_data recv_event_name) s;
        Some (Some (binder, sio_js), list_push ack ack_resp, s)
      else Some (Some (binder, sio_js), ack_resp, s)
  end.

(** ** What a receiver reads *)

Record ReceivedObject := mkReceivedObject {
  ro_Confidence : f64; ro_ClassId : Z; ro_TrackId : Z; ro_VideoWidth : Z; ro_VideoHeight : Z; ro_Box : list Z; ro_Direction : option Z; ro_Duration : option Z
}.

Definition read_double (j : json) : option f64 := match j with JFloat f => Some f | _ => None end.
Definition read_optional (j : json) (key : string) : option (option Z) :=
  if contains j key then Some <$> get_int (at_key j key) else Some None.

Definition read_object (j : json) : option ReceivedObject :=
  confidence ← read_double (at_key j "Confidence"); class_id ← get_int (at_key j "ClassId"); track_id ← get_int (at_key j "TrackId");
  w ← get_int (at_key j "VideoWidth"); h ← get_int (at_key j "VideoHeight"); box ← mapM get_int (elements_of (at_key j "Box"));
  direction ← read_optional j "Direction"; duration ← read_optional j "Duration";
  Some (mkReceivedObject confidence class_id track_id w h box direction duration).

Record ReceivedEvent := mkReceivedEvent {
  re_Source : string; re_Time : string; re_Uid : string; re_TrackId : Z; re_CameraId : Z; re_EventCode : Z;
  re_LevelCode : Z; re_ScheduleId : Z; re_ServerId : Z; re_ImagePath : string; re_Objects : list ReceivedObject
}.

Definition read_event (j : json) : option ReceivedEvent :=
  source ← get_string (at_key j "Source");
  let a := at_key (at_key (at_key j "Data") "Message") "Analysis" in
  time ← get_string (at_key a "Time"); uid ← get_string (at_key a "Uid"); track_id ← get_int (at_key a "TrackId");
  camera_id ← get_int (at_key a "CameraId"); event_code ← get_int (at_key a "EventCode"); level_code ← get_int (at_key a "LevelCode");
  schedule_id ← get_int (at_key a "ScheduleId"); server_id ← get_int (at_key a "ServerId"); path ← get_string (at_key a "ImagePath");
  objects ← mapM read_object (elements_of (at_key a "Objects"));
  Some (mkReceivedEvent source time uid track_id camera_id event_code level_code schedule_id server_id path objects).

(** What there is to read: the corners of a box and the objects come in the opposite order. *)
Definition received_object (o : EventObject) : ReceivedObject :=
  let extended key := match eo_extended o with Some (k, v) => if String.eqb k key then Some v else None | None => None end in
  mkReceivedObject (f64_of_f32 (eo_Confidence o)) (eo_ClassId o) (eo_TrackId o) (eo_VideoWidth o) (eo_VideoHeight o) (rev (eo_Box o))
    (extended "Direction"%string) (extended "Duration"%string).

Definition received_event (e : EventMessage) : ReceivedEvent :=
  mkReceivedEvent (em_Source e) (em_Time e) (em_Uid e) (em_TrackId e) (em_CameraId e) (em_EventCode e) (em_LevelCode e) (em_ScheduleId e)
    (em_ServerId e) (em_ImagePath e) (rev (map received_object (em_Objects e))).

(** ** Properties *)

Definition int_range (z : Z) : Prop := - 2 ^ 31 <= z < 2 ^ 31.

(** The integers are [int]s, the extension is one of the two the code adds. *)
Record object_in_range (o : EventObject) : Prop := {
  or_ints : Forall int_range [eo_ClassId o; eo_TrackId o; eo_VideoWidth o; eo_VideoHeight o];
  or_box : Forall int_range (eo_Box o);
  or_extended : match eo_extended o with Some (key, v) => (key = "Direction" \/ key = "Duration")%string /\ int_range v | None => True end
}.

Record event_in_range (e : EventMessage) : Prop := {
  er_ints : Forall int_range [em_TrackId e; em_CameraId e; em_EventCode e; em_LevelCode e; em_ScheduleId e; em_ServerId e];
  er_objects : Forall object_in_range (em_Objects e)
}.

Lemma get_int_double z : int_range z -> get_int (JFloat (f64_of_Z z)) = Some z.
Proof.
  intros Hz. unfold int_range in Hz. destruct (f64_of_Z_exact z ltac:(lia)) as [Ht Hf]. cbn [get_int]. unfold i32_of_f, saturate32.
  destruct (f64_of_Z z); try done; rewrite Ht; f_equal; lia.
Qed.

(** The members in their order. *)
Lemma event_object_members o : object_in_range o ->
  event_object_json o = JObject ([("Box", JArray (map JInt (eo_Box o))); ("ClassId", JInt (eo_ClassId o)); ("Confidence", JFloat (f64_of_f32 (eo_Confidence o)))]%string ++
    match eo_extended o with Some (key, v) => [(key, JInt v)] | None => [] end ++
    [("TrackId", JInt (eo_TrackId o)); ("VideoHeight", JInt (eo_VideoHeight o)); ("VideoWidth", JInt (eo_VideoWidth o))]%string).
Proof. intros [_ _ Hx]. unfold event_object_json. by destruct (eo_extended o) as [[key v] |]; [destruct Hx as [[-> | ->] _] |]. Qed.

Lemma analysis_members e :
  analysis_json e = JObject [("CameraId", JInt (em_CameraId e)); ("Checker", JString ""); ("Confirm", JInt 0); ("EventCode", JInt (em_EventCode e));
    ("ImagePath", JString (em_ImagePath e)); ("LevelCode", JInt (em_LevelCode e)); ("Objects", JArray (map event_object_json (em_Objects e)));
    ("ScheduleId", JInt (em_ScheduleId e)); ("ServerId", JInt (em_ServerId e)); ("Time", JString (em_Time e)); ("TrackId", JInt (em_TrackId e));
    ("Uid", JString (em_Uid e))]%string.
Proof. reflexivity. Qed.

Lemma message_members e :
  message_json e = JObject [("Data", JObject [("Message", JObject [("Analysis", analysis_json e)]); ("MessageType", JString "EventNotifycation")]);
    ("Destination", JString ""); ("Source", JString (em_Source e)); ("Time", JString (em_Time e)); ("TransmissionMethod", JInt 1)]%string.
Proof. reflexivity. Qed.

Lemma event_object_wf o : object_in_range o -> wf_json (event_object_json o) = true.
Proof.
  intros Ho. assert (forallb wf_json (map JInt (eo_Box o)) = true) as Hb by (induction (eo_Box o); done).
  rewrite event_object_members by done. destruct Ho as [_ _ Hx].
  destruct (eo_extended o) as [[key v] |]; [destruct Hx as [[-> | ->] _] |]; cbn -[map keys_sorted]; by rewrite Hb.
Qed.

Lemma message_wf e : event_in_range e -> wf_json (message_json e) = true.
Proof.
  intros [_ Ho]. assert (forallb wf_json (map event_object_json (em_Objects e)) = true) as Hl.
  { apply forallb_forall. intros j (o & <- & Hin)%in_map_iff. apply event_object_wf. rewrite Forall_forall in Ho. by apply Ho, list_elem_of_In. }
  rewrite message_members, analysis_members. cbn -[map keys_sorted]. by rewrite Hl.
Qed.

Lemma mapM_rev_map {A B C} (f : B -> option C) (g : A -> B) (k : A -> C) l :
  Forall (fun x => f (g x) = Some (k x)) l -> mapM f (rev (map g l)) = Some (rev (map k l)).
Proof.
  intros H. rewrite <- !map_rev. assert (Forall (fun x => f (g x) = Some (k x)) (rev l)) as Hr by (rewrite <- reverse_is_rev; by apply Forall_reverse).
  clear H. induction Hr as [| x l' Hx _ IH]; cbn; [done |]. by rewrite Hx, IH.
Qed.

Lemma read_transmitted_object o : object_in_range o -> read_object (transmitted plain (event_object_json o)) = Some (received_object o).
Proof.
  intros Ho. rewrite event_object_members by done. destruct Ho as [Hi Hb Hx]. repeat (apply Forall_cons in Hi as [? Hi]).
  assert (mapM get_int (rev (map (transmitted plain) (map JInt (eo_Box o)))) = Some (rev (eo_Box o))) as Hbox.
  { pose proof (mapM_rev_map get_int (fun z => JFloat (f64_of_Z z)) (fun z => z) (eo_Box o)) as Hm. rewrite map_id in Hm. rewrite map_map. apply Hm.
    eapply Forall_impl; [exact Hb |]. intros z. apply get_int_double. }
  unfold received_object. destruct (eo_extended o) as [[key v] |]; [destruct Hx as [[-> | ->] Hv] |];
    unfold read_object; cbn -[get_int f64_of_Z mapM rev]; rewrite !get_int_double by done; cbn -[get_int f64_of_Z mapM rev]; by rewrite Hbox.
Qed.

Lemma read_transmitted e : event_in_range e -> read_event (transmitted plain (message_json e)) = Some (received_event e).
Proof.
  intros [Hi Ho]. repeat (apply Forall_cons in Hi as [? Hi]).
  assert (mapM read_object (rev (map (transmitted plain) (map event_object_json (em_Objects e)))) = Some (rev (map received_object (em_Objects e)))) as Hobj.
  { rewrite map_map. apply mapM_rev_map. eapply Forall_impl; [exact Ho |]. intros o. apply read_transmitted_object. }
  rewrite message_members, analysis_members. unfold read_event, received_event. cbn -[get_int f64_of_Z mapM rev].
  rewrite !get_int_double by done. cbn -[get_int f64_of_Z mapM rev]. by rewrite Hobj.
Qed.

(** ** The events of a unit *)

Section UnitEvents.
Context {K : Type} `{!OpenCV K} `{!FFmpeg}.
Implicit Types (u : RtspDetectorUnit (K := K)) (sch : Schedule).

(** The fields of type [int]. *)
Definition ints_in_range u sch (objects : list InferObject) : Prop :=
  Forall int_range [id_ u; socket_io_server_id_ u; stable_frame_w_ (resolution u); stable_frame_h_ (resolution u);
    EventClass_int (event_code (sch_info sch)); level_code (sch_info sch); schedule_id (sch_info sch)] /\
  Forall (fun o => int_range (class_id o) /\ int_range (track_id o)) objects.

Lemma i32_of_f_range f : int_range (i32_of_f f).
Proof. unfold int_range, i32_of_f, saturate32. destruct f as [b | b | | b m e]; [| destruct b | |]; lia. Qed.

Lemma event_object_in_range u sch o : ints_in_range u sch [o] -> object_in_range (event_object u sch o).
Proof.
  intros [Hi Ho]. repeat (apply Forall_cons in Hi as [? Hi]). apply Forall_cons in Ho as [[] _]. split.
  - by repeat (constructor; [assumption |]).
  - cbn. by repeat (constructor; [apply i32_of_f_range |]).
  - cbn. unfold SetExtendedDataToJson. destruct (extend_data o) as [| f l]; [done |]. pose proof (i32_of_f_range f).
    destruct (event_code (sch_info sch)); auto.
Qed.

Lemma built_in_range u sch objects t path uuid :
  ints_in_range u sch objects -> event_in_range (BuildNotifyJsonImpl_Analysis u sch objects t path uuid).
Proof.
  intros [Hi Ho]. split; cbn.
  - pose proof Hi as Hi'. repeat (apply Forall_cons in Hi as [? Hi]). constructor; [| by repeat (constructor; [assumption |])].
    destruct objects as [| o objects]; [done |]. by apply Forall_cons in Ho as [[] _].
  - apply Forall_fmap. eapply Forall_impl; [exact Ho |]. intros o Hx. apply event_object_in_range. split; [done | by constructor].
Qed.

(** The corners of a box, the lower right one first, each with the ordinate first. *)
Definition reversed_box (o : InferObject) : list Z :=
  let b := bbox o in
  [i32_of_f (f32_add (bb_y b) (bb_h b)); i32_of_f (f32_add (bb_x b) (bb_w b)); i32_of_f (bb_y b); i32_of_f (bb_x b)].

(** C30: an event reaches its receiver whole, but its arrays are turned around.  The
    thread makes a message of every event of a unit, the loop over the stack ends, and what
    is read from the message are the identifiers, times, numbers and texts of the event; the
    objects come last first, and the box of an object as [y2, x2, y1, x1] instead of
    [x1, y1, x2, y2]. *)
Theorem event_arrives_reversed u sch objects t path uuid s :
  ints_in_range u sch objects ->
  let e := BuildNotifyJsonImpl_Analysis u sch objects t path uuid in
  exists p s', EmitControlThreadRunner_message (DETECTOR_MESSAGE, message_json e) s = Some (Some (p, s ++ s')) /\
    (forall fuel, (json_size (message_json e) <= fuel)%nat -> (createJson plain fuel (s ++ s') p ≫= read_event) = Some (received_event e)) /\
    map ro_TrackId (re_Objects (received_event e)) = rev (map track_id objects) /\
    map ro_Box (re_Objects (received_event e)) = rev (map reversed_box objects).
Proof.
  intros Hi e. pose proof (built_in_range u sch objects t path uuid Hi) as He. fold e in He.
  destruct (createObject_reads (message_json e) s) as (p & s' & E & Hread); [done | by apply message_wf |].
  exists p, s'. split_and!.
  - unfold EmitControlThreadRunner_message. rewrite (message_members e) in *. cbn [is_object]. by rewrite E.
  - intros fuel Hf. rewrite Hread by done. cbn [mbind option_bind]. by apply read_transmitted.
  - cbn. by rewrite map_rev, !map_map.
  - cbn. by rewrite map_rev, !map_map.
Qed.

End UnitEvents.

(** A person at (495, 315) to (505, 325): the receiver reads its box as 325, 505, 315, 495. *)
Lemma event_arrives_reversed_witness :
  exists p s' r, EmitControlThreadRunner_message (DETECTOR_MESSAGE, message_json (BuildNotifyJsonImpl_Analysis demo_event_unit
      (demo_schedule LineIntrusion [] demo_line 60) (demo_layer 320) (mkLocalTime demo_tm 0) "/x.jpg" "u1")) [null_message] = Some (Some (p, null_message :: s')) /\
    (createJson plain 100 (null_message :: s') p ≫= read_event) = Some r /\ map ro_Box (re_Objects r) = [[325; 505; 315; 495]].
Proof.
  destruct (event_arrives_reversed demo_event_unit (demo_schedule LineIntrusion [] demo_line 60) (demo_layer 320) (mkLocalTime demo_tm 0) "/x.jpg" "u1" [null_message])
    as (p & s' & E & Hr & _ & Hb).
  - split; [by repeat (constructor; [by vm_compute |]) | by constructor; [split; vm_compute |]].
  - exists p, s'. eexists. split; [exact E |]. split; [apply Hr; vm_compute; lia |]. rewrite Hb. by vm_compute.
Defined.

(** ** The events in the queue *)

Lemma events_sendable e : sendable (DETECTOR_MESSAGE, message_json e) = true.
Proof. unfold sendable. cbn [snd]. by rewrite message_members. Qed.

Lemma emit_events_events events h : sio_events h (map (fun e => SEmit (DETECTOR_MESSAGE, message_json e)) events) = Some (emit_events events h).
Proof. revert h. induction events as [| e events IH]; intros h; [done |]. cbn. apply IH. Qed.

(** ** The listener *)

(** An event with a binder is answered when it asks for it, and the binder runs with the value
    of the message. *)
Lemma on_event_runs parse fuel (h : SioHandler) name data isAck acks s binder js :
  received name h = Some binder -> createJson parse fuel s data = Some js ->
  exists acks' s', on_event parse fuel h name data isAck acks s = Some (Some (binder, js), acks', s ++ s') /\
    if isAck then exists p, acks' = acks ++ [p] /\ forall fuel, (json_size (ack_data name) <= fuel)%nat -> createJson plain fuel (s ++ s') p = Some (ack_data name)
    else acks' = acks.
Proof.
  intros Hb Hj. unfold on_event. rewrite Hb, Hj. cbn [mbind option_bind]. destruct isAck; [| exists acks, []; by rewrite app_nil_r].
  destruct (createObject_reads (ack_data name) s) as (p & s' & E & Hr); [done | done |]. rewrite E. cbn [mbind option_bind].
  assert (exists a, p = Some a) as [a ->].
  { destruct p as [a |]; [by exists a |]. specialize (Hr plain _ (Nat.le_refl _)). by cbn in Hr. }
  exists (acks ++ [Some a]), s'. split; [done |]. exists (Some a). split; [done |]. intros fuel' Hf. by rewrite Hr.
Qed.

Lemma on_event_unbound parse fuel (h : SioHandler) name data isAck acks s : received name h = None -> on_event parse fuel h name data isAck acks s = Some (None, acks, s).
Proof. unfold on_event. by intros ->. Qed.

(** A notification of the server, [{"Argument": [{"camera_id": [3, "4"]}], "TableName": "schedule"}], as a
    message: its elements are read in their order. *)
Definition demo_notification : store :=
  [int_message 3; string_message "4"; array_message [Some 0%nat; Some 1%nat]; object_message [("camera_id", Some 2%nat)]; array_message [Some 3%nat];
   string_message "schedule"; object_message [("Argument", Some 4%nat); ("TableName", Some 5%nat)]]%string.

Example demo_notification_read :
  createJson (fun s => if String.eqb s "4" then Some (JInt 4) else None) 7 demo_notification (Some 6%nat) =
  Some (JObject [("Argument", JArray [JObject [("camera_id", JArray [JInt 3; JInt 4])]]); ("TableName", JString "schedule")]%string).
Proof. vm_compute. reflexivity. Qed.
