(* ===== verification/NetworkManager.v ===== *)
(** * The network manager

    [Management/manager/include/NetworkManager.h], [src/NetworkManager.cpp]: the connections
    of the program.  The settings come from [SettingFacade], the connection to the broker is
    [SioHandler], the streams are [RtspServer], the peers [GrpcClient].  Arguments say
    what the outside does: whether the broker answers in time, which peers make the constructor
    of their client throw.  [None] is the end of the process, as in these files.

    Properties of the network manager.  Connecting succeeds exactly when every stage does, and stops at the first that does not;
    closing leaves no connection and can be repeated; a notification goes to every peer. *)

From Stdlib Require Import String.
From stdpp Require Import gmap pretty.
From S2P Require Import Prelude Json SafeQueue SafeThread SettingData SettingManager SettingFacade Profiles SioHandler RtspServer GrpcServer GrpcClient RtspServerProps GrpcClientProps.
Open Scope Z_scope.
Open Scope list_scope.

Record ApiSetting := mkApiSetting { api_service_ip : string; api_service_port : Z; api_my_local_ip : string }.

Record RtspSetting := mkRtspSetting { rtsp_my_local_ip : string; is_rtsp_proxy_static_with_init : bool; proxy_server_port : string }.

Section Network.
(** What identifies a callback, a client of a camera, the snapshot of a counter. *)
Context {C : Type} `{!EqDecision C} {Camera Snapshot : Type} (GET : string -> Z * json).

Record NetworkManager := mkManager {
  init_profile_ : NetworkProfile;
  entire_service_tag_name_ : string;
  api_handler_ : option ApiSetting;
  sio_handler_ : option SioHandler;
  rtsp_handler_ : option (RtspHandler Camera);
  rtsp_setting_ : option RtspSetting;      (* what the handler was made with *)
  grpc_clients_ : list (Client Snapshot)
}.

Definition NetworkManager_make (profile : NetworkProfile) : NetworkManager := mkManager profile "" None None None None [].

Definition with_tag (n : NetworkManager) t := mkManager (init_profile_ n) t (api_handler_ n) (sio_handler_ n) (rtsp_handler_ n) (rtsp_setting_ n) (grpc_clients_ n).
Definition with_api (n : NetworkManager) a := mkManager (init_profile_ n) (entire_service_tag_name_ n) a (sio_handler_ n) (rtsp_handler_ n) (rtsp_setting_ n) (grpc_clients_ n).
Definition with_sio (n : NetworkManager) s := mkManager (init_profile_ n) (entire_service_tag_name_ n) (api_handler_ n) s (rtsp_handler_ n) (rtsp_setting_ n) (grpc_clients_ n).
Definition with_rtsp (n : NetworkManager) r st := mkManager (init_profile_ n) (entire_service_tag_name_ n) (api_handler_ n) (sio_handler_ n) r st (grpc_clients_ n).
Definition with_peers (n : NetworkManager) c := mkManager (init_profile_ n) (entire_service_tag_name_ n) (api_handler_ n) (sio_handler_ n) (rtsp_handler_ n) (rtsp_setting_ n) c.

(** ** The peers *)

(** [throws]: the constructor of the client throws, or its start. *)
Fixpoint connect_peers (throws : GrpcPeerEndpoint -> bool) (peers : list GrpcPeerEndpoint) : option (list (Client Snapshot)) :=
  match peers with
  | [] => Some []
  | peer :: peers =>
      if throws peer then connect_peers throws peers
      else
        '(started, client) ← Client_Start Client_make;
        rest ← connect_peers throws peers;
        Some (if (started : bool) then client :: rest else rest)
  end.

Definition InitializeGrpcClients (throws : GrpcPeerEndpoint -> bool) (n : NetworkManager) : option (bool * NetworkManager) :=
  match grpc_clients_ n with
  | _ :: _ => Some (true, n)
  | [] =>
      if negb (grpc_client_enabled (init_profile_ n)) then Some (true, n)
      else match grpc_peers (init_profile_ n) with
           | [] => Some (true, n)
           | peers => clients ← connect_peers throws peers; Some (true, with_peers n clients)
           end
  end.

(** [last]: the tag that the turn under way of a client's thread still gets. *)
Fixpoint stop_clients (last : nat -> option nat) (i : nat) (l : list (Client Snapshot)) : option (list (Client Snapshot)) :=
  match l with
  | [] => Some []
  | c :: l => c ← Client_Stop (last i) c; l ← stop_clients last (S i) l; Some (c :: l)
  end.

Fixpoint destroy_clients (l : list (Client Snapshot)) : option unit :=
  match l with
  | [] => Some tt
  | c :: l => _ ← Client_destroy None c; destroy_clients l
  end.

Definition CloseGrpcClients (last : nat -> option nat) (n : NetworkManager) : option NetworkManager :=
  match grpc_clients_ n with
  | [] => Some n
  | l => l ← stop_clients last 0 l; _ ← destroy_clients l; Some (with_peers n [])
  end.

Definition IsGrpcClientEnabled (n : NetworkManager) : bool := match grpc_clients_ n with [] => false | _ => true end.
Definition GetGrpcPeerCount (n : NetworkManager) : nat := length (grpc_clients_ n).

(** [uuids]: the new UUID for each peer.  The result of the call is not looked at. *)
Fixpoint broadcast (json_payload : string) (uuids : nat -> string) (i : nat) (l : list (Client Snapshot)) : option (list (Client Snapshot)) :=
  match l with
  | [] => Some []
  | c :: l =>
      '(_, c) ← SendEventOnlyJson (MakeEventOnlyJsonProto (uuids i) json_payload) c;
      l ← broadcast json_payload uuids (S i) l;
      Some (c :: l)
  end.

Definition BroadcastEventOnlyJsonToGrpcPeers (json_payload : string) (uuids : nat -> string) (n : NetworkManager) : option (nat * NetworkManager) :=
  l ← broadcast json_payload uuids 0 (grpc_clients_ n); Some (length (grpc_clients_ n), with_peers n l).

(** ** Settings of the connections *)

Definition BuildAPISetting (n : NetworkManager) : option ApiSetting :=
  let p := init_profile_ n in
  if String.eqb (mvas_ip p) "" then None
  else if String.eqb (local_ip p) "" then None
  else if mvas_api_port p =? 0 then None
  else Some (mkApiSetting (mvas_ip p) (i32 (mvas_api_port p)) (local_ip p)).

Definition BuildSocketIOSetting (env_token : option string) (my_service_id : Z) (n : NetworkManager) : option SioSetting :=
  let p := init_profile_ n in
  if String.eqb (mvas_ip p) "" then None
  else if String.eqb (local_ip p) "" then None
  else if mvas_sio_port p =? 0 then None
  else Some (SetDefaultConnectionQuery env_token (mkSioSetting (mvas_ip p) (i32 (mvas_sio_port p)) my_service_id (local_ip p) "" "" "" "" "")).

Definition BuildRtspSetting (static : bool) (f : Facade C) (n : NetworkManager) : option RtspSetting :=
  Some (mkRtspSetting (local_ip (init_profile_ n)) static
    match GetServerSetting f with Some s => pretty (rtsp_proxy_publish_port (data s)) | None => "555" end).

(** ** Connecting *)

Definition CreateApiHandler (s : ApiSetting) (n : NetworkManager) : bool * NetworkManager := (true, with_api n (Some s)).

Definition CreateSioHandler (opens : bool) (s : SioSetting) (n : NetworkManager) : option (bool * NetworkManager) :=
  '(ok, h) ← SioHandler.Initialize opens (SioHandler_make s); Some (ok, with_sio n (Some h)).

Definition CreateRtspHandler (created attached : bool) (s : RtspSetting) (n : NetworkManager) : option (bool * NetworkManager) :=
  '(ok, h) ← RtspServer.Initialize created attached (RtspHandler_make (is_rtsp_proxy_static_with_init s)); Some (ok, with_rtsp n (Some h) (Some s)).

(** What the outside does while the program connects. *)
Record ConnEnv := mkConnEnv { broker_opens : bool; sio_token : option string; peer_throws : GrpcPeerEndpoint -> bool }.

Definition ConnMVAS (env : ConnEnv) (entire_service_tag : string) (n : NetworkManager) (f : Facade C) : option (bool * NetworkManager * Facade C) :=
  match BuildAPISetting n with
  | None => Some (false, n, f)
  | Some api_setting =>
      let '(_, n) := CreateApiHandler api_setting n in
      let '(ok, f) := SettingFacade.Initialize GET (api_my_local_ip api_setting) entire_service_tag f in
      if negb ok then Some (false, n, f)
      else match BuildSocketIOSetting (sio_token env) (server_service_id f) n with
      | None => Some (false, n, f)
      | Some sio_setting =>
          '(ok, n) ← CreateSioHandler (broker_opens env) sio_setting n;
          if negb ok then Some (false, n, f)
          else
            '(_, n) ← InitializeGrpcClients (peer_throws env) n;
            Some (true, with_tag n entire_service_tag, f)
      end
  end.

Definition InitializeRTSP (created attached : bool) (camera_xml_is_static_in_service : bool) (f : Facade C) (n : NetworkManager) : option (bool * NetworkManager) :=
  match BuildRtspSetting camera_xml_is_static_in_service f n with
  | None => Some (false, n)
  | Some rtsp_setting => CreateRtspHandler created attached rtsp_setting n
  end.

Definition InitializeRTSPWithStaticCameraList (created attached : bool) (f : Facade C) (n : NetworkManager) : option (bool * NetworkManager) :=
  InitializeRTSP created attached true f n.

(** ** The end *)

Definition CloseNetworkAll (last : nat -> option nat) (n : NetworkManager) : option NetworkManager :=
  let n := match sio_handler_ n with Some h => with_sio n (Some (TerminateSocketIO h)) | None => n end in
  n ← match rtsp_handler_ n with Some h => h ← StopRTSP h; Some (with_rtsp n (Some h) (rtsp_setting_ n)) | None => Some n end;
  CloseGrpcClients last n.
End Network.

Arguments NetworkManager : clear implicits.

(** The facts about one way out of [ConnMVAS]. *)
Ltac stage := cbn in *; split_and!; try split; try done; try tauto; try (by intros [? ?]); try (by intros (_ & ? & _)); try (by eexists).

Section Props.
Context {C : Type} `{!EqDecision C} {Camera Snapshot : Type} (GET : string -> Z * json).
Local Abbreviation Manager := (NetworkManager Camera Snapshot).

(** ** Connecting *)

Definition api_settings_ok (p : NetworkProfile) : Prop := mvas_ip p <> ""%string /\ local_ip p <> ""%string /\ mvas_api_port p <> 0.

Lemma BuildAPISetting_spec (n : Manager) :
  BuildAPISetting n = None /\ ~ api_settings_ok (init_profile_ n) \/
  (exists s, BuildAPISetting n = Some s /\ api_my_local_ip s = local_ip (init_profile_ n)) /\ api_settings_ok (init_profile_ n).
Proof.
  unfold BuildAPISetting, api_settings_ok. destruct (String.eqb_spec (mvas_ip (init_profile_ n)) ""); [left; split; [done | tauto] |].
  destruct (String.eqb_spec (local_ip (init_profile_ n)) ""); [left; split; [done | tauto] |].
  destruct (mvas_api_port (init_profile_ n) =? 0) eqn:E; bool_to_prop; [left; split; [done | tauto] |]. right. split; [by eexists | done].
Qed.

Lemma BuildSocketIOSetting_spec token id (n : Manager) :
  api_settings_ok (init_profile_ n) ->
  BuildSocketIOSetting token id n = None /\ mvas_sio_port (init_profile_ n) = 0 \/
  (exists s, BuildSocketIOSetting token id n = Some s /\ my_server_id s = id) /\ mvas_sio_port (init_profile_ n) <> 0.
Proof.
  intros (Hm & Hl & _). unfold BuildSocketIOSetting. rewrite (proj2 (String.eqb_neq _ _) Hm), (proj2 (String.eqb_neq _ _) Hl).
  destruct (mvas_sio_port (init_profile_ n) =? 0) eqn:E; bool_to_prop; [by left |]. right. split; [by eexists | done].
Qed.

Lemma connect_peers_spec throws peers :
  exists l, connect_peers (Snapshot := Snapshot) throws peers = Some l /\ length l = length (List.filter (fun p => negb (throws p)) peers) /\
    Forall (fun c => is_running_ (grpc_client_thread_ c) = true /\ flag_exact (grpc_client_thread_ c) /\ cq_ c = ∅ /\ cq_shutdown c = false) l.
Proof.
  induction peers as [| peer peers (l & E & Hl & Hf)]; [by exists [] |]. cbn [connect_peers List.filter]. destruct (throws peer); cbn [negb]; [by exists l |].
  unfold Client_Start. cbn. rewrite E. cbn. eexists. split; [done |]. split; [cbn; by rewrite Hl |]. by constructor.
Qed.

Lemma InitializeGrpcClients_spec throws (n : Manager) :
  grpc_clients_ n = [] ->
  exists l, InitializeGrpcClients throws n = Some (true, with_peers n l) /\
    length l = (if grpc_client_enabled (init_profile_ n) then length (List.filter (fun p => negb (throws p)) (grpc_peers (init_profile_ n))) else 0%nat).
Proof.
  intros He. unfold InitializeGrpcClients. rewrite He. assert (n = with_peers n []) as Hn by (unfold with_peers; rewrite <- He; by destruct n).
  destruct (grpc_client_enabled (init_profile_ n)); cbn [negb]; [| exists []; by rewrite <- Hn].
  destruct (grpc_peers (init_profile_ n)) as [| p l] eqn:Ep; [exists []; by rewrite <- Hn |].
  destruct (connect_peers_spec throws (p :: l)) as (cl & -> & Hl & _). by exists cl.
Qed.

(** Connecting always comes to an end, and succeeds exactly when the profile names the
    server and its ports, the settings can be read and the broker answers: the stages are
    tried in this order, the first that fails leaves the later connections unmade, and a
    peer that cannot be connected is only left out. *)
Theorem connecting_exact env tag p (f : Facade C) :
  let '(ok, f1) := SettingFacade.Initialize GET (local_ip p) tag f in
  exists b n f', ConnMVAS GET env tag (NetworkManager_make (Camera := Camera) (Snapshot := Snapshot) p) f = Some (b, n, f') /\
    (b = true <-> api_settings_ok p /\ ok = true /\ mvas_sio_port p <> 0 /\ broker_opens env = true) /\
    (is_Some (api_handler_ n) <-> api_settings_ok p) /\
    (is_Some (sio_handler_ n) <-> api_settings_ok p /\ ok = true /\ mvas_sio_port p <> 0) /\
    (api_settings_ok p -> f' = f1) /\ (~ api_settings_ok p -> f' = f) /\
    (b = true -> entire_service_tag_name_ n = tag /\ (exists h, sio_handler_ n = Some h /\ current_socket h = true /\ GetID h = server_service_id f1) /\
       length (grpc_clients_ n) = if grpc_client_enabled p then length (List.filter (fun q => negb (peer_throws env q)) (grpc_peers p)) else 0%nat).
Proof.
  destruct (SettingFacade.Initialize GET (local_ip p) tag f) as [ok f1] eqn:Ei. set (n0 := NetworkManager_make p). unfold ConnMVAS.
  destruct (BuildAPISetting_spec n0) as [[-> Hno] | [(s & -> & Hs) Hok]].
  - do 3 eexists. split; [done |]. stage.
  - change (init_profile_ n0) with p in *. cbn [CreateApiHandler]. rewrite Hs, Ei. destruct ok; cbn [negb]; [| do 3 eexists; split; [done |]; stage].
    set (n1 := with_api n0 (Some s)). destruct (BuildSocketIOSetting_spec (sio_token env) (server_service_id f1) n1 Hok) as [[-> Hport] | [(st & -> & Hid) Hport]];
      change (init_profile_ n1) with p in Hport.
    + do 3 eexists. split; [done |]. stage.
    + unfold CreateSioHandler, SioHandler.Initialize. cbn [conn_finish SioHandler_make orb]. destruct (broker_opens env) eqn:Eb; cbn [negb].
      * unfold SafeThread.Start. cbn -[InitializeGrpcClients].
        match goal with |- context [InitializeGrpcClients _ ?x] => destruct (InitializeGrpcClients_spec (peer_throws env) x eq_refl) as (l & -> & Hl) end.
        do 3 eexists. split; [reflexivity |]. stage. split; [by eexists | exact Hl].
      * cbn [mbind option_bind]. do 3 eexists. split; [reflexivity |]. stage.
Qed.

(** ** Closing *)

(** What every connection to the broker has: its thread runs only before the end. *)
Definition sio_sound (h : SioHandler) : Prop := flag_exact (emit_control_thread h) /\ (b_terminated_instance h = true -> is_running_ (emit_control_thread h) = false).

Lemma sio_make_sound st : sio_sound (SioHandler_make st).
Proof. by split. Qed.

Lemma sio_initialize_sound opens (h h' : SioHandler) b :
  sio_sound h -> b_terminated_instance h = false -> SioHandler.Initialize opens h = Some (b, h') -> sio_sound h' /\ b_terminated_instance h' = false.
Proof.
  intros [Hx Ht] Hb. unfold SioHandler.Initialize. destruct (conn_finish h || opens); cbn [negb]; [| by intros [= <- <-]].
  destruct (thread_op_exact (SetThreadFunctions (emit_control_thread h) true true) OpStart) as (t & Et & Hx'); [by unfold flag_exact in * | done |].
  cbn [thread_op] in Et. cbn -[SafeThread.Start SetThreadFunctions]. rewrite Et. cbn. intros [= <- <-]. cbn. split; [split; [done |] |]; cbn; congruence.
Qed.

Lemma terminate_sound (h : SioHandler) :
  sio_sound h -> sio_sound (TerminateSocketIO h) /\ b_terminated_instance (TerminateSocketIO h) = true /\ is_running_ (emit_control_thread (TerminateSocketIO h)) = false.
Proof.
  intros [Hx Ht]. unfold TerminateSocketIO. destruct (b_terminated_instance h) eqn:Eb; [split; [by split; [| intros _; apply Ht] |]; by auto |].
  assert (is_running_ (SafeThread.Stop (emit_control_thread h)) = false) as Hr by (unfold SafeThread.Stop; by destruct (is_running_ (emit_control_thread h)) eqn:E).
  destruct (thread_op_exact (emit_control_thread h) OpStop Hx eq_refl) as (t & Et & Hx'). cbn [thread_op] in Et. injection Et as <-.
  destruct (is_running_ (emit_control_thread h)); cbn; by repeat split.
Qed.

Lemma sio_event_sound (h h' : SioHandler) e : sio_sound h -> sio_event h e = Some h' -> sio_sound h'.
Proof.
  intros Hs. destruct e as [m | |]; cbn [sio_event].
  - by intros [= <-].
  - unfold EmitControlThreadRunner_turn. repeat case_match; by intros [= <-].
  - intros [= <-]. by apply terminate_sound.
Qed.

(** The peers' calls are all complete. *)
Definition drained (c : Client Snapshot) : Prop := flag_exact (grpc_client_thread_ c) /\ cq_ c = ∅.

Lemma stop_drained last (c : Client Snapshot) : drained c -> exists c', Client_Stop last c = Some c' /\ drained c' /\ is_running_ (grpc_client_thread_ c') = false.
Proof.
  intros [Hx Hq]. unfold Client_Stop. destruct (is_running_ (grpc_client_thread_ c)) eqn:Er; [| by exists c].
  assert (match last with Some t => complete_call t c | None => Some c end = Some c) as ->.
  { destruct last as [t |]; [| done]. unfold complete_call. by rewrite Hq, lookup_empty. }
  cbn [mbind option_bind]. eexists. split; [done |]. destruct (thread_op_exact (grpc_client_thread_ c) OpStop Hx eq_refl) as (t & Et & Hx'). cbn [thread_op] in Et. injection Et as <-.
  split; [by split |]. cbn. unfold SafeThread.Stop. by rewrite Er.
Qed.

Lemma stop_clients_drained last i (l : list (Client Snapshot)) :
  Forall drained l -> exists l', stop_clients last i l = Some l' /\ destroy_clients l' = Some tt.
Proof.
  intros Hl. revert i. induction Hl as [| c l Hc _ IH]; intros i; [by exists [] |]. cbn [stop_clients].
  destruct (stop_drained (last i) c Hc) as (c' & -> & [Hx Hq] & Hr). cbn [mbind option_bind]. destruct (IH (S i)) as (l' & -> & Hd). cbn [mbind option_bind]. eexists. split; [done |].
  cbn [destroy_clients]. unfold Client_destroy, Client_Stop. rewrite Hr. cbn [mbind option_bind]. unfold SafeThread.destroy, SafeThread.Stop. rewrite Hr. unfold flag_exact in Hx. rewrite Hx, Hr.
  cbn [mbind option_bind]. by rewrite decide_True.
Qed.

(** No connection is left. *)
Definition closed (n : Manager) : Prop :=
  (forall h, sio_handler_ n = Some h -> b_terminated_instance h = true /\ is_running_ (emit_control_thread h) = false) /\
  (forall h, rtsp_handler_ n = Some h -> state_ h = RtspStop) /\ grpc_clients_ n = [].

(** The connections of a manager that can be closed: no viewer's media is being made, and the
    peers' calls are complete. *)
Record net_sound (n : Manager) : Prop := {
  ns_sio : forall h, sio_handler_ n = Some h -> sio_sound h;
  ns_rtsp : forall h, rtsp_handler_ n = Some h -> exists static, calm_reach static h /\ describing (gst h) = [];
  ns_peers : Forall drained (grpc_clients_ n)
}.

(** Closing leaves no connection, wherever connecting had come to: the broker's
    connection is terminated and its thread joined, the streams are stopped, no peer is left; and a
    second closing, which the destructor does, changes nothing. *)
Lemma closing_leaves_nothing last (n : Manager) :
  net_sound n -> exists n', CloseNetworkAll last n = Some n' /\ closed n' /\ CloseNetworkAll last n' = Some n'.
Proof.
  intros [Hs Hr Hg]. unfold CloseNetworkAll at 1.
  set (n1 := match sio_handler_ n with Some h => with_sio n (Some (TerminateSocketIO h)) | None => n end).
  assert (rtsp_handler_ n1 = rtsp_handler_ n /\ grpc_clients_ n1 = grpc_clients_ n /\
    forall h, sio_handler_ n1 = Some h -> b_terminated_instance h = true /\ is_running_ (emit_control_thread h) = false) as (E1 & E2 & H1).
  { unfold n1. destruct (sio_handler_ n) as [h |] eqn:E; cbn; split_and!; try done; [intros h' [= <-]; by apply terminate_sound, Hs | by rewrite E]. }
  assert (exists n2, match rtsp_handler_ n1 with Some h => h ← StopRTSP h; Some (with_rtsp n1 (Some h) (rtsp_setting_ n1)) | None => Some n1 end = Some n2 /\
    sio_handler_ n2 = sio_handler_ n1 /\ grpc_clients_ n2 = grpc_clients_ n1 /\ forall h, rtsp_handler_ n2 = Some h -> state_ h = RtspStop) as (n2 & -> & F1 & F2 & H2).
  { rewrite E1. destruct (rtsp_handler_ n) as [h |] eqn:E; [| exists n1; split_and!; try done; by rewrite E1].
    destruct (Hr h eq_refl) as (static & Hc & Hq). destruct (stop_inv h (calm_reach_inv _ _ Hc) Hq) as (h' & -> & _ & Hst & _). eexists. split; [done |]. cbn. split_and!; try done. by intros h0 [= <-]. }
  cbn [mbind option_bind].
  assert (exists n3, CloseGrpcClients last n2 = Some n3 /\ sio_handler_ n3 = sio_handler_ n2 /\ rtsp_handler_ n3 = rtsp_handler_ n2 /\ grpc_clients_ n3 = []) as (n3 & E3 & G1 & G2 & G3).
  { unfold CloseGrpcClients. destruct (grpc_clients_ n2) as [| c l] eqn:E; [by exists n2 |]. assert (grpc_clients_ n = c :: l) as Eg by congruence. rewrite Eg in Hg.
    destruct (stop_clients_drained last 0 (c :: l) Hg) as (l' & -> & Hd). cbn [mbind option_bind]. rewrite Hd. cbn. by eexists. }
  exists n3. split; [done |]. assert (closed n3) as Hcl by (split_and!; [rewrite G1, F1; exact H1 | rewrite G2; exact H2 | exact G3]). split; [done |].
  destruct Hcl as (C1 & C2 & C3). unfold CloseNetworkAll.
  assert (match sio_handler_ n3 with Some h => with_sio n3 (Some (TerminateSocketIO h)) | None => n3 end = n3) as ->.
  { destruct (sio_handler_ n3) as [h |] eqn:E; [| done]. destruct (C1 h eq_refl) as [Ht _]. unfold TerminateSocketIO. rewrite Ht. unfold with_sio. rewrite <- E. by destruct n3. }
  assert (match rtsp_handler_ n3 with Some h => h ← StopRTSP h; Some (with_rtsp n3 (Some h) (rtsp_setting_ n3)) | None => Some n3 end = Some n3) as ->.
  { destruct (rtsp_handler_ n3) as [h |] eqn:E; [| done]. unfold StopRTSP. rewrite decide_True by by apply C2. cbn. unfold with_rtsp. rewrite <- E. by destruct n3. }
  cbn. unfold CloseGrpcClients. by rewrite C3.
Qed.

(** Whatever connecting comes to, the manager can be closed. *)
Lemma sound_sio (n : Manager) h : net_sound n -> sio_sound h -> net_sound (with_sio n (Some h)).
Proof. intros [_ Hr Hp] Hh. split; [by intros ? [= <-] | exact Hr | exact Hp]. Qed.

Lemma peers_sound throws (n : Manager) :
  net_sound n -> grpc_clients_ n = [] -> exists n', InitializeGrpcClients throws n = Some (true, n') /\ net_sound n' /\ api_handler_ n' = api_handler_ n /\ sio_handler_ n' = sio_handler_ n /\ rtsp_handler_ n' = rtsp_handler_ n.
Proof.
  intros Hn He. unfold InitializeGrpcClients. rewrite He. destruct (grpc_client_enabled (init_profile_ n)); cbn [negb]; [| by exists n].
  destruct (grpc_peers (init_profile_ n)) as [| p l]; [by exists n |]. destruct (connect_peers_spec throws (p :: l)) as (cl & -> & _ & Hf). eexists. split; [done |].
  split_and!; try done. split; [apply Hn | apply Hn |]. eapply Forall_impl; [exact Hf |]. intros c (_ & Hx & Hq & _). by split.
Qed.

Lemma ConnMVAS_sound env tag (n : Manager) (f : Facade C) :
  sio_handler_ n = None -> rtsp_handler_ n = None -> grpc_clients_ n = [] ->
  exists ok n' f', ConnMVAS GET env tag n f = Some (ok, n', f') /\ net_sound n' /\ rtsp_handler_ n' = None /\
    (ok = true -> is_Some (api_handler_ n') /\ (exists h, sio_handler_ n' = Some h /\ current_socket h = true) /\ exists ip, SettingFacade.Initialize GET ip tag f = (true, f')).
Proof.
  intros Es Er Eg.
  assert (forall a, net_sound (with_api n a)) as Hn by (intros a; split; cbn; [by rewrite Es | by rewrite Er | rewrite Eg; constructor]).
  assert (net_sound n) as Hn0 by (split; [by rewrite Es | by rewrite Er | rewrite Eg; constructor]).
  unfold ConnMVAS. destruct (BuildAPISetting n) as [s |]; [| by do 3 eexists]. cbn [CreateApiHandler].
  destruct (SettingFacade.Initialize GET (api_my_local_ip s) tag f) as [[] f1] eqn:Ei; cbn [negb]; [| by do 3 eexists].
  destruct (BuildSocketIOSetting (sio_token env) (server_service_id f1) (with_api n (Some s))) as [st |]; [| by do 3 eexists].
  unfold CreateSioHandler. destruct (SioHandler.Initialize (broker_opens env) (SioHandler_make st)) as [[ok h] |] eqn:Eh.
  - destruct (sio_initialize_sound _ _ _ _ (sio_make_sound st) eq_refl Eh) as [Hh _]. cbn [mbind option_bind]. destruct ok; cbn [negb].
    + assert (current_socket h = true) as Hc.
      { revert Eh. unfold SioHandler.Initialize. destruct (broker_opens env); cbn; [| done]. by intros [= <-]. }
      destruct (peers_sound (peer_throws env) (with_sio (with_api n (Some s)) (Some h)) (sound_sio _ h (Hn _) Hh) Eg) as (n2 & -> & [H1 H2 H3] & Ha & Hs & Hr).
      cbn [mbind option_bind]. do 3 eexists. split; [done |]. split; [by split |]. split; [cbn; by rewrite Hr |]. intros _. cbn. rewrite Ha, Hs. split; [by eexists |]. split; [by eexists | by eexists].
    + do 3 eexists. split; [done |]. split; [by apply sound_sio |]. by split.
  - exfalso. revert Eh. unfold SioHandler.Initialize. by destruct (broker_opens env).
Qed.

Lemma InitializeRTSP_sound created attached static (f : Facade C) (n : Manager) :
  net_sound n -> rtsp_handler_ n = None -> (created = true -> attached = true) ->
  exists ok n', InitializeRTSP created attached static f n = Some (ok, n') /\ net_sound n' /\ api_handler_ n' = api_handler_ n /\ sio_handler_ n' = sio_handler_ n /\
    exists h, rtsp_handler_ n' = Some h /\ IsProxySettingStaticUseInitData h = static /\ GetProxyIDs h = ∅.
Proof.
  intros [H1 _ H3] Hr Hc. unfold InitializeRTSP, BuildRtspSetting, CreateRtspHandler. cbn [is_rtsp_proxy_static_with_init].
  destruct (RtspServer.Initialize created attached (RtspHandler_make static)) as [[ok h] |] eqn:Eh.
  - assert (describing (gst h) = [] /\ IsProxySettingStaticUseInitData h = static /\ GetProxyIDs h = ∅) as (Hd & Hs & Hp).
    { revert Eh. unfold RtspServer.Initialize. cbn. destruct created; [rewrite Hc by done |]; cbn; intros [= <- <-]; cbn; split_and!; try done; unfold GetProxyIDs; cbn; apply dom_empty_L. }
    cbn [mbind option_bind]. do 2 eexists. split; [done |]. split_and!; try done; [| by exists h]. split; [done | | done]. intros h' [= <-]. exists static. split; [| done].
    eapply (calm_step static _ (HInitialize created attached)); [apply calm_start | done |]. cbn [handler_event]. by rewrite Eh.
  - exfalso. revert Eh. unfold RtspServer.Initialize. cbn. destruct created; cbn; [by rewrite Hc | done].
Qed.

(** ** Notifications *)

Lemma broadcast_spec payload uuids i (l : list (Client Snapshot)) :
  Forall (fun c => cq_shutdown c = false) l -> (forall j, isValidUUID (uuids j) = true) ->
  exists l', broadcast payload uuids i l = Some l' /\
    Forall2 (fun c c' => exists u, isValidUUID u = true /\ calls c' = calls c ++ [mkCall SendCall u false false] /\ cq_ c' = <[length (calls c) := Pending]> (cq_ c) /\ cq_shutdown c' = false) l l'.
Proof.
  intros Hl Hu. revert i. induction Hl as [| c l Hc _ IH]; intros i; [exists []; by split |]. cbn [broadcast].
  unfold SendEventOnlyJson, start_checked. cbn [oj_uuid MakeEventOnlyJsonProto]. rewrite Hu. cbn [negb]. unfold start_call. rewrite Hc. cbn [mbind option_bind].
  destruct (IH (S i)) as (l' & -> & Hf). cbn [mbind option_bind]. eexists. split; [done |]. constructor; [| done]. exists (uuids i). by rewrite Hu.
Qed.

(** A notification goes to every peer: while the peers are not stopped, exactly one call is
    started for each, its number is the number of peers, and nothing else changes; the new
    UUIDs pass the client's own test whatever the random numbers are. *)
Theorem notification_reaches_every_peer payload (random : nat -> Z * Z * Z * Z * Z * Z) (n : Manager) :
  Forall (fun c => cq_shutdown c = false) (grpc_clients_ n) ->
  (forall j, let '(a, b, c, d, e, f) := random j in is_u32 a /\ is_u16 b /\ is_u16 c /\ is_u16 d /\ is_u16 e /\ is_u32 f) ->
  let uuids j := let '(a, b, c, d, e, f) := random j in generate a b c d e f in
  exists l, BroadcastEventOnlyJsonToGrpcPeers payload uuids n = Some (GetGrpcPeerCount n, with_peers n l) /\
    Forall2 (fun c c' => exists u, isValidUUID u = true /\ calls c' = calls c ++ [mkCall SendCall u false false] /\ cq_ c' = <[length (calls c) := Pending]> (cq_ c) /\ cq_shutdown c' = false)
      (grpc_clients_ n) l.
Proof.
  intros Hl Hr uuids. destruct (broadcast_spec payload uuids 0 (grpc_clients_ n) Hl) as (l & E & Hf).
  { intros j. unfold uuids. specialize (Hr j). destruct (random j) as [[[[[a b] c] d] e] f]. destruct Hr as (? & ? & ? & ? & ? & ?). by apply generate_valid. }
  exists l. unfold BroadcastEventOnlyJsonToGrpcPeers. rewrite E. by split.
Qed.
End Props.

(** ** A connected manager *)

Definition demo_profile : NetworkProfile := mkNetwork "10.0.0.2" "10.0.0.1" 8005 3335 true [mkPeer "b" "10.0.0.3" 50000; mkPeer "c" "10.0.0.4" 50001] false "0.0.0.0" 0.

Definition demo_sio : SioHandler := default (SioHandler_make (mkSioSetting "" 0 1 "" "/" "" "" "" "")) (snd <$> SioHandler.Initialize true (SioHandler_make (mkSioSetting "10.0.0.1" 3335 1 "10.0.0.2" "/" "" "" "" ""))).

Definition demo_peers : list (Client Z) := default [] (connect_peers (fun _ => false) (grpc_peers demo_profile)).

Definition demo_manager : NetworkManager Z Z :=
  mkManager demo_profile "DETECTOR" (Some (mkApiSetting "10.0.0.1" 8005 "10.0.0.2")) (Some demo_sio) (Some (RtspHandler_make true)) None demo_peers.

Lemma demo_sio_sound : sio_sound demo_sio.
Proof. split; [reflexivity | discriminate]. Qed.

Lemma demo_peers_drained : Forall drained demo_peers.
Proof. repeat constructor. Qed.

Lemma demo_manager_closes :
  exists n', CloseNetworkAll (fun _ => None) demo_manager = Some n' /\ closed n' /\ CloseNetworkAll (fun _ => None) n' = Some n'.
Proof.
  apply (closing_leaves_nothing (fun _ => None) demo_manager). split.
  - intros h [= <-]. exact demo_sio_sound.
  - intros h [= <-]. exists true. split; [apply calm_start | reflexivity].
  - exact demo_peers_drained.
Defined.

Lemma notification_reaches_every_peer_witness :
  exists l, BroadcastEventOnlyJsonToGrpcPeers "{}" (fun _ => generate 1 2 3 4 5 6) demo_manager = Some (2%nat, with_peers demo_manager l).
Proof.
  destruct (notification_reaches_every_peer "{}" (fun _ => (1, 2, 3, 4, 5, 6)) demo_manager) as (l & E & _).
  - repeat constructor.
  - intros j. unfold is_u32, is_u16. cbn. lia.
  - exists l. exact E.
Defined.
