(* ===== verification/ApiHandler.v ===== *)
(** * The REST client

    [Protocol/REST/src/rest_impl.cpp] and [Management/worker/src/ApiHandler.cpp]: requests with a
    limit of time, the bodies of their answers, the addresses of the requests, and the callback
    by which a notification of the server becomes a request.  The transfer itself is done by
    libcurl under restclient-cpp: [transfer] is its answer to an address with a limit in seconds, none
    where it is not positive; [parse] is the JSON parser, nothing where it throws. *)

From Stdlib Require Import Ascii String.
From stdpp Require Import gmap pretty.
From S2P Require Import Prelude StringUtils Sort Json SettingData SettingManager SettingFacade NetworkManager.
Open Scope Z_scope.
Open Scope list_scope.

Record Response := mkResponse { code : Z; body : string; headers : list (string * string) }.

(** [requests]: what was asked for, with its limit; [reported]: the failures that were logged. *)
Record Connection := mkConnection { baseUrl : string; timeout : Z; requests : list (string * Z); reported : list (string * Z) }.

Definition Connection_make (base : string) : Connection := mkConnection base 0 [] [].
Definition Connection_SetTimeout (seconds : Z) (c : Connection) : Connection := mkConnection (baseUrl c) seconds (requests c) (reported c).
Definition Connection_report (url : string) (code : Z) (c : Connection) : Connection := mkConnection (baseUrl c) (timeout c) (requests c) (reported c ++ [(url, code)]).

Record ApiHandler := mkHandler { setting : ApiSetting; conn : Connection }.

Definition DEFAULT_REST_API_GET_TIMEOUT_SECS : Z := 3.

(** The seconds of a time point of the steady clock, in nanoseconds since its epoch. *)
Definition GetIntSecondsFromTimePoint (timeoutTime : Z) : Z := i32 (Z.quot timeoutTime 1000000000).

Section Requests.
Context (transfer : string -> Z -> Response) (parse : string -> option json).

Definition Connection_get (url : string) (c : Connection) : Response * Connection :=
  (transfer (baseUrl c ++ url) (timeout c), mkConnection (baseUrl c) (timeout c) (requests c ++ [(url, timeout c)]) (reported c)).

Definition Connection_GET_or_throw_if_timeout (url : string) (timeoutSeconds : Z) (c : Connection) : Response * Connection :=
  let prev_timeout := timeout c in
  let c := if (timeoutSeconds <? prev_timeout) || (prev_timeout <=? 0) then Connection_SetTimeout timeoutSeconds c else c in
  let '(resp, c) := Connection_get url c in
  let c := Connection_SetTimeout prev_timeout c in
  (resp, if code resp <=? 0 then Connection_report url (code resp) c else c).

(** The overloads: a number of seconds of the library, a time point; both become an [int]. *)
Definition Connection_GET_for (url : string) (timeoutDuration : Z) (c : Connection) : Response * Connection :=
  Connection_GET_or_throw_if_timeout url (i32 timeoutDuration) c.
Definition Connection_GET_until (url : string) (timeoutTime : Z) (c : Connection) : Response * Connection :=
  Connection_GET_or_throw_if_timeout url (GetIntSecondsFromTimePoint timeoutTime) c.

(** [perform]: what libcurl answers to a head request within a second, none without a handle. *)
Definition is_rest_api_alive (perform : string -> option bool) (c : Connection) : bool := default false (perform (baseUrl c ++ "/")%string).

Definition get_json_from_resp_body (resp_body : string) : json :=
  if String.eqb resp_body "" then JObject [] else default (JObject []) (parse resp_body).

(** [ApiHandler]. *)
Definition ApiHandler_make (s : ApiSetting) : ApiHandler :=
  mkHandler s (Connection_SetTimeout 3 (Connection_make ("http://" ++ api_service_ip s ++ ":" ++ pretty (api_service_port s)))).

(** The answer of the handler to that of its connection. *)
Definition answered (h : ApiHandler) (rc : Response * Connection) : Z * json * ApiHandler :=
  let '(resp, c) := rc in
  let h := mkHandler (setting h) c in
  if IsKnownResponseCode (code resp) then (code resp, get_json_from_resp_body (body resp), h) else (code resp, JObject [], h).

Definition GET_or_throw_if_timeout (url : string) (timeoutSeconds : Z) (h : ApiHandler) : Z * json * ApiHandler :=
  answered h (Connection_GET_or_throw_if_timeout url timeoutSeconds (conn h)).
Definition GET_for (url : string) (timeoutDuration : Z) (h : ApiHandler) : Z * json * ApiHandler := answered h (Connection_GET_for url timeoutDuration (conn h)).
Definition GET_until (url : string) (timeoutTime : Z) (h : ApiHandler) : Z * json * ApiHandler := answered h (Connection_GET_until url timeoutTime (conn h)).

Definition IsAlive (perform : string -> option bool) (h : ApiHandler) : bool := is_rest_api_alive perform (conn h).

Definition SetTimeout (seconds : Z) (h : ApiHandler) : ApiHandler := mkHandler (setting h) (Connection_SetTimeout seconds (conn h)).
Definition GetMyLocalIp (h : ApiHandler) : string := api_my_local_ip (setting h).

(** [checker] and [url_builder] are bound by [BuildCallback_GET]; [None]: the builder throws. *)
Definition BC_GET_Internal (checker : json -> bool) (url_builder : json -> option string) (req_data : json) (h : ApiHandler) : option (option json * ApiHandler) :=
  if negb (checker req_data) then Some (None, h)
  else
    req ← url_builder req_data;
    if String.eqb req "" then Some (None, h)
    else let '(c, b, h) := GET_or_throw_if_timeout req 3 h in
         Some (if IsKnownResponseCode c then Some b else None, h).
End Requests.

(** ** Addresses *)

Inductive URL := NOT_SET | API_GET_SERVER_BY_IP | API_GET_SERVER_BY_ID | API_GET_CLUSTER | API_GET_EXCEPTION_CAMERA | API_GET_SCHEDULE | API_GET_CAMERA.

Definition make_api_url_basic (u : URL) : string :=
  match u with
  | NOT_SET => "" | API_GET_SERVER_BY_IP => "/server?ip=" | API_GET_SERVER_BY_ID => "/server?id=" | API_GET_CLUSTER => "/cluster?server_id="
  | API_GET_EXCEPTION_CAMERA => "/exception?camera_id=" | API_GET_SCHEDULE => "/schedule?camera_id=" | API_GET_CAMERA => "/camera/media?camera_id="
  end.

(** The values with a comma before each but the first. *)
Fixpoint make_api_url_param_from (i : nat) (values : list string) : string :=
  match values with [] => "" | v :: values => ((if (i =? 0)%nat then "" else ",") ++ v ++ make_api_url_param_from (S i) values)%string end.
Definition make_api_url_param (values : list string) : string := make_api_url_param_from 0 values.
Definition MakeURL (u : URL) (params : list Z) : string := (make_api_url_basic u ++ make_api_url_param (map pretty params))%string.

(** A set of units is listed in its order; a value stands for itself. *)
Definition make_api_url_param_set (units : gset Z) : string := make_api_url_param (map pretty (set_order units)).
Definition make_api_url_param_single (single_value : string) : string := single_value.
Definition MakeURL_set (u : URL) (units : gset Z) : string := (make_api_url_basic u ++ make_api_url_param_set units)%string.
Definition MakeURL_single (u : URL) (v : string) : string := (make_api_url_basic u ++ make_api_url_param_single v)%string.

(** ** Properties *)

(** A request asks once, with a limit that is neither longer than it may wait nor longer than the
    connection allows, and leaves the connection with the limit it had. *)
Lemma request_limited transfer url t c resp c' :
  Connection_GET_or_throw_if_timeout transfer url t c = (resp, c') ->
  timeout c' = timeout c /\ baseUrl c' = baseUrl c /\
  exists used, requests c' = requests c ++ [(url, used)] /\ resp = transfer (baseUrl c ++ url)%string used /\
    (0 < t -> 0 < used <= t /\ (0 < timeout c -> used <= timeout c)).
Proof.
  unfold Connection_GET_or_throw_if_timeout, Connection_get. intros H.
  destruct (Z.ltb_spec t (timeout c)), (Z.leb_spec (timeout c) 0); cbn in H; injection H as <- <-; destruct (_ <=? _); cbn; (split_and!; [done .. |]);
    eexists; (split_and!; [done .. |]); lia.
Qed.

(** A limit that is not positive is no limit. *)
Lemma request_without_limit transfer url c : 0 < timeout c ->
  fst (Connection_GET_or_throw_if_timeout transfer url 0 c) = transfer (baseUrl c ++ url)%string 0.
Proof. intros H. unfold Connection_GET_or_throw_if_timeout, Connection_get. by rewrite (proj2 (Z.ltb_lt _ _) H). Qed.

(** What is reported of a request: only an answer without a positive code. *)
Lemma request_reported transfer url t c resp c' :
  Connection_GET_or_throw_if_timeout transfer url t c = (resp, c') -> reported c' = reported c ++ (if code resp <=? 0 then [(url, code resp)] else []).
Proof.
  unfold Connection_GET_or_throw_if_timeout, Connection_get. intros H. destruct (_ || _); cbn in H; injection H as <- <-; destruct (_ <=? _); cbn; by rewrite ?app_nil_r.
Qed.

(** The code that the comment gives for a request that ran out of time is not reported. *)
Example timeout_not_reported : reported (snd (Connection_GET_or_throw_if_timeout (fun _ _ => mkResponse 28 "" []) "/server?ip=" 3 (Connection_make "http://"))) = [].
Proof. reflexivity. Qed.

(** The other overload takes the time of a clock that runs since the start of the machine for a
    duration: a deadline three seconds away is a limit of a day when the machine runs for a day. *)
Example deadline_is_not_a_duration : GetIntSecondsFromTimePoint ((86400 + 3) * 1000000000) = 86403.
Proof. reflexivity. Qed.

(** A body that cannot be read is an empty object. *)
Lemma unreadable_body parse b : parse b = None -> get_json_from_resp_body parse b = JObject [].
Proof. intros H. unfold get_json_from_resp_body. rewrite H. by destruct (String.eqb b ""). Qed.

(** An answer that is not known is no body, whatever was read. *)
Lemma unknown_answer_empty parse h resp c : IsKnownResponseCode (code resp) = false -> answered parse h (resp, c) = (code resp, JObject [], mkHandler (setting h) c).
Proof. intros H. unfold answered. by rewrite H. Qed.

(** The handler of a service keeps its connection and its limit through every request. *)
Lemma handler_kept transfer parse url t h a h' : GET_or_throw_if_timeout transfer parse url t h = (a, h') -> setting h' = setting h /\ timeout (conn h') = timeout (conn h) /\ baseUrl (conn h') = baseUrl (conn h).
Proof.
  unfold GET_or_throw_if_timeout. destruct (Connection_GET_or_throw_if_timeout transfer url t (conn h)) as [resp c] eqn:E.
  destruct (request_limited transfer url t (conn h) resp c E) as (H1 & H2 & _). unfold answered. by destruct (IsKnownResponseCode _); intros [= <- <-].
Qed.

(** What a request answers, as the settings ask for it. *)
Definition answers transfer parse (h : ApiHandler) (url : string) : Z * json := fst (GET_or_throw_if_timeout transfer parse url 3 h).

(** The answers of a handler depend on its address and its limit alone: after any request, they are
    those that the settings would have had before it. *)
Lemma answers_of_connection transfer parse h h' : timeout (conn h') = timeout (conn h) -> baseUrl (conn h') = baseUrl (conn h) -> forall url, answers transfer parse h' url = answers transfer parse h url.
Proof.
  intros H1 H2 url. unfold answers, GET_or_throw_if_timeout, Connection_GET_or_throw_if_timeout, Connection_get. rewrite H1.
  destruct (_ || _); cbn; rewrite H2, ?H1; unfold answered; by destruct (IsKnownResponseCode _).
Qed.

Lemma answers_stable transfer parse h req t a h' : GET_or_throw_if_timeout transfer parse req t h = (a, h') -> forall url, answers transfer parse h' url = answers transfer parse h url.
Proof. intros H. destruct (handler_kept _ _ _ _ _ _ _ H) as (_ & H1 & H2). by apply answers_of_connection. Qed.

(** The callback of a notification is the one the settings are renewed with. *)
Lemma callback_refines transfer parse h js key :
  fst <$> BC_GET_Internal transfer parse (fun j => CheckInterProcJsonValid j key) GetAPICommandFromJson js h =
  _BC_GET_Internal (answers transfer parse h) js key.
Proof.
  unfold BC_GET_Internal, _BC_GET_Internal, answers. destruct (negb _); [done |]. destruct (GetAPICommandFromJson js) as [req |]; [| done]. cbn [mbind option_bind].
  destruct (String.eqb req ""); [done |]. destruct (GET_or_throw_if_timeout transfer parse req 3 h) as [[c b] h']. cbn. by destruct (IsKnownResponseCode c).
Qed.

(** *** Different cameras, different addresses *)

Lemma number_without_comma (z : Z) : without "," (pretty z).
Proof. apply chars_pretty; [by apply digits_are_not | done]. Qed.

Lemma param_from_shape i l : rest_at "," (make_api_url_param_from (S i) l).
Proof. destruct l as [| v l]; [by left |]. right. cbn [make_api_url_param_from Nat.eqb]. rewrite append_cons, append_nil_l. by eexists. Qed.

Lemma param_from_inj i (l l' : list Z) : make_api_url_param_from (S i) (map pretty l) = make_api_url_param_from (S i) (map pretty l') -> l = l'.
Proof.
  revert i l'. induction l as [| z l IH]; intros i [| z' l'] H; [done | | |]; cbn [map make_api_url_param_from Nat.eqb] in H.
  - by rewrite append_cons in H.
  - by rewrite append_cons in H.
  - rewrite !append_cons, !append_nil_l in H. injection H as H.
    destruct (first_part _ _ _ _ _ (number_without_comma z) (number_without_comma z') (param_from_shape _ _) (param_from_shape _ _) H) as [Hz Hl].
    apply pretty_Z_inj in Hz as ->. by rewrite (IH _ _ Hl).
Qed.

(** The address of a request determines the units it asks for. *)
Lemma MakeURL_injective u (l l' : list Z) : MakeURL u l = MakeURL u l' -> l = l'.
Proof.
  unfold MakeURL, make_api_url_param. intros H.
  apply append_cancel in H. destruct l as [| z l], l' as [| z' l']; cbn [map make_api_url_param_from Nat.eqb] in H; rewrite ?append_nil_l in H; [done | | |].
  - exfalso. destruct (pretty z') as [| c s] eqn:E; [by apply (pretty_not_empty z') | by rewrite append_cons in H].
  - exfalso. destruct (pretty z) as [| c s] eqn:E; [by apply (pretty_not_empty z) | by rewrite append_cons in H].
  - destruct (first_part _ _ _ _ _ (number_without_comma z) (number_without_comma z') (param_from_shape _ _) (param_from_shape _ _) H) as [Hz Hl].
    apply pretty_Z_inj in Hz as ->. by rewrite (param_from_inj _ _ _ Hl).
Qed.

(** The addresses that the settings ask for. *)
Lemma param_comma_separated (l : list Z) : make_api_url_param (map pretty l) = comma_separated l.
Proof.
  assert (forall i (l : list Z), make_api_url_param_from (S i) (map pretty l) = match l with [] => "" | _ => ("," ++ comma_separated l)%string end) as Hg.
  { clear. intros i l. revert i. induction l as [| z [| z' l] IH]; intros i; [done | |]; cbn [map make_api_url_param_from Nat.eqb comma_separated].
    - by rewrite append_nil.
    - f_equal. f_equal. exact (IH (S i)). }
  unfold make_api_url_param. destruct l as [| z [| z' l]]; cbn [map make_api_url_param_from Nat.eqb comma_separated]; rewrite ?append_nil_l; [done | by rewrite append_nil |].
  f_equal. exact (Hg 0%nat (z' :: l)).
Qed.

(** The settings ask for the addresses that [MakeURL] gives. *)
Lemma facade_addresses (ip : string) (id : Z) (cams : gset Z) :
  server_by_ip_url ip = MakeURL_single API_GET_SERVER_BY_IP ip /\ server_by_id_url id = MakeURL API_GET_SERVER_BY_ID [id] /\ cluster_url id = MakeURL API_GET_CLUSTER [id] /\
  exception_url cams = MakeURL_set API_GET_EXCEPTION_CAMERA cams /\ schedule_url cams = MakeURL_set API_GET_SCHEDULE cams /\ camera_url cams = MakeURL_set API_GET_CAMERA cams.
Proof.
  assert (make_api_url_param [pretty id] = pretty id) as He by exact (param_comma_separated [id]).
  unfold MakeURL, MakeURL_set, make_api_url_param_set. cbn [map]. by rewrite He, param_comma_separated.
Qed.

(** Different sets of cameras are asked for at different addresses. *)
Lemma MakeURL_set_injective u (cams cams' : gset Z) : MakeURL_set u cams = MakeURL_set u cams' -> cams = cams'.
Proof.
  intros H. pose proof (MakeURL_injective u _ _ H) as He. apply set_eq. intros x. by rewrite <- (set_order_elem cams), He, set_order_elem.
Qed.
