(* ===== verification/JsonMessages.v ===== *)
(** * Values as texts in the program

    Where the program turns JSON values into texts and back: the bodies of the REST answers, the
    texts inside Socket.IO messages, and the events that go to the gRPC peers.  The parser and the
    serializer are those of [JsonParser] and [JsonDump], the parameters of the components that use
    them. *)

From Stdlib Require Import SpecFloat Ascii String.
From stdpp Require Import gmap pretty.
From S2P Require Import Prelude Float32 FloatBounds StringUtils Json JsonLexer JsonParser JsonDump JsonText InferObject Schedule Checkers DetectorUnit DetectorPipeline DetectorEvents SioParser EventDelivery ApiHandler.
Open Scope Z_scope.
Open Scope list_scope.

(** ** What a text holds *)

Lemma json_parse_quiet_ok t j : json_parse_quiet t = Some j -> json_ok j = true.
Proof.
  unfold json_parse_quiet. destruct (parse_result false true (bytes_of_string t) (bytes_of_string_bytes t)) as (r & -> & Hj & _). destruct r as [v | |]; [| done | done]. intros [= <-]. by apply Hj.
Qed.

Lemma json_read_ok t j : json_read t = Some j -> json_ok j = true.
Proof.
  unfold json_read. destruct (parse_result true false (bytes_of_string t) (bytes_of_string_bytes t)) as (r & -> & Hj & _). destruct r as [v | |]; [| done | done]. intros [= <-]. by apply Hj.
Qed.

Lemma dump_text_written n j : json_ok j = true -> exists t, dump_text n j = inr t.
Proof. intros Hj. unfold dump_text. destruct (dump_written n j Hj) as [b ->]. by eexists. Qed.

(** A text that was read is printed, compact or indented, as a text that is read as the same value. *)
Theorem reprinted_reads_same t j n : json_read t = Some j -> exists t', dump_text n j = inr t' /\ json_read t' = Some j /\ json_parse_quiet t' = Some j.
Proof.
  intros Hr%json_read_ok. destruct (dump_text_written n j Hr) as [t' Ht]. exists t'. split; [done |]. destruct (dump_text_reads n j t' Hr Ht). done.
Qed.

(** ** The bodies of the answers *)

(** Whatever the server answers, the value of the answer can be printed: the lines of the log that show
    an answer never throw. *)
Lemma answer_printable b n : exists t, dump_text n (get_json_from_resp_body json_read b) = inr t.
Proof.
  apply dump_text_written. unfold get_json_from_resp_body. destruct (String.eqb b ""); [done |]. destruct (json_read b) as [j |] eqn:E; [by apply (json_read_ok b) | done].
Qed.

(** A printed value is the answer that is read. *)
Lemma answer_reads n j t : json_ok j = true -> dump_text n j = inr t -> t <> ""%string -> get_json_from_resp_body json_read t = j.
Proof. intros Hj Ht Hne. unfold get_json_from_resp_body. rewrite (proj2 (String.eqb_neq t "") Hne). by destruct (dump_text_reads n j t Hj Ht) as [_ ->]. Qed.

(** ** Texts inside messages *)

(** A string that is the text of a value arrives as the value. *)
Lemma text_arrives_as_value n j t : json_ok j = true -> dump_text n j = inr t -> transmitted json_parse_quiet (JString t) = j.
Proof. intros Hj Ht. cbn [transmitted]. by destruct (dump_text_reads n j t Hj Ht) as [-> _]. Qed.

Lemma keys_sorted_map {A B} (f : A -> B) (m : list (string * A)) : keys_sorted (map (fun kv => (fst kv, f (snd kv))) m) = keys_sorted m.
Proof. induction m as [| [k v] m IH]; [done |]. cbn. rewrite IH. f_equal. clear. induction m as [| kv m IH]; [done |]. cbn. by rewrite IH. Qed.

Lemma f64_of_Z_ok z : - 2 ^ 63 <= z < 2 ^ 64 -> is_finite (f64_of_Z z) = true /\ valid_binary 53 1024 (f64_of_Z z) = true.
Proof.
  intros Hz. split; [| by apply (binary_normalize_valid 53 1024)]. unfold f64_of_Z. destruct z as [| p | p]; [done | |]; cbn [binary_normalize]; unfold binary_round;
    pose proof (shl_align_spec p 0 (fexp 53 1024 (Zpos (digits2_pos p) + 0))) as Hs; destruct (shl_align p 0 _) as [mz ez]; destruct Hs as [Hez Hmz];
    pose proof (Zdigits2_bounds (Zpos p) ltac:(lia)) as [Hb _]; cbn [Zdigits2] in Hb;
    (assert (Zpos (digits2_pos p) <= 65) as Hd by (apply Z.nlt_ge; intros Hc; pose proof (Z.pow_le_mono_r 2 65 (Zpos (digits2_pos p) - 1) ltac:(lia) ltac:(lia)); lia));
    (assert (Zdigits2 (Zpos mz) + ez = Zpos (digits2_pos p)) as Hsum by (rewrite Hmz, Zdigits2_mul_pow2 by lia; cbn [Zdigits2]; lia));
    apply binary_round_aux_finite; try lia; rewrite Hsum, fexp_alt in *; change (SpecFloat.emin 53 1024) with (-1074) in *; rewrite ?fexp_alt in *; change (SpecFloat.emin 53 1024) with (-1074) in *; lia.
Qed.

(** What arrives in a message of a value that can be printed can be printed. *)
Lemma transmitted_ok j : json_ok j = true -> json_ok (transmitted json_parse_quiet j) = true.
Proof.
  induction j as [j Ho Ha | l Hl | m Hm] using json_nested_ind; intros Hj.
  - destruct j as [| b | z | x | s | |]; try done; cbn [transmitted].
    + cbn in Hj. apply andb_prop in Hj as [H1%Z.leb_le H2%Z.ltb_lt]. destruct (f64_of_Z_ok z ltac:(lia)) as [H3 H4]. cbn [json_ok]. by rewrite H3, H4.
    + destruct (json_parse_quiet s) as [v |] eqn:E; [by apply (json_parse_quiet_ok s) | done].
  - change (forallb json_ok l = true) in Hj. change (forallb json_ok (rev (map (transmitted json_parse_quiet) l)) = true). rewrite forallb_forall in Hj |- *. rewrite Forall_forall in Hl. intros y Hy%in_rev.  apply in_map_iff in Hy as (x & <- & Hx). apply Hl; [by apply list_elem_of_In | auto].
  - change (keys_sorted m && forallb (fun kv => text_ok (fst kv) && json_ok (snd kv)) m = true) in Hj.
    change (keys_sorted (map (fun kv => (fst kv, transmitted json_parse_quiet (snd kv))) m) && forallb (fun kv => text_ok (fst kv) && json_ok (snd kv)) (map (fun kv => (fst kv, transmitted json_parse_quiet (snd kv))) m) = true).
    apply andb_prop in Hj as [Hs Hj]. rewrite keys_sorted_map, Hs, andb_true_l. rewrite forallb_forall in Hj |- *. rewrite Forall_forall in Hm. intros y (x & <- & Hx)%in_map_iff.
    specialize (Hj x Hx) as [H1 H2]%andb_prop. cbn [fst snd]. rewrite H1. apply Hm; [by apply list_elem_of_In | done].
Qed.

(** ** Events as texts *)

(** A string of ASCII characters. *)
Definition ascii (s : string) : Prop := chars (fun c => (N_of_ascii c <? 128)%N = true) s.

Lemma ascii_text s : ascii s -> text_ok s = true.
Proof.
  unfold ascii, chars, text_ok, bytes_of_string. induction 1 as [| c l Hc _ IH]; [done |]. cbn [map]. assert (0 <= Z.of_nat (nat_of_ascii c) < 128) as H by (apply N.ltb_lt in Hc; unfold nat_of_ascii; lia).
  rewrite <- (utf8b_app [Z.of_nat (nat_of_ascii c)] _) in IH; [exact IH |]. exists []. split; [unfold utf8_ranges; by rewrite (proj2 (between_true 0 127 _)) by lia | constructor].
Qed.

Lemma text_ok_app a b : text_ok a = true -> text_ok b = true -> text_ok (a ++ b)%string = true.
Proof.
  unfold text_ok, bytes_of_string. rewrite list_of_append, map_app. generalize (map (fun c => Z.of_nat (nat_of_ascii c)) (list_ascii_of_string a)) as x. generalize (map (fun c => Z.of_nat (nat_of_ascii c)) (list_ascii_of_string b)) as y.
  intros y x Hx%utf8b_utf8 Hy. induction Hx as [| q s Hq _ IH]; [done |]. rewrite <- app_assoc. by rewrite utf8b_app.
Qed.

Lemma ascii_app a b : ascii a -> ascii b -> ascii (a ++ b)%string.
Proof. intros Ha Hb. by apply chars_app. Qed.

Lemma ascii_pretty (z : Z) : ascii (pretty z).
Proof. apply chars_pretty; [by apply (digits_are_forallb (fun c => (N_of_ascii c <? 128)%N)) | done]. Qed.

Lemma ascii_two_digits z : ascii (two_digits z).
Proof.
  assert (forall d, 0 <= d < 10 -> (N_of_ascii (digit_char d) <? 128)%N = true) as Hd.
  { intros d Hd. assert (forallb (fun n => (N_of_ascii (digit_char (Z.of_nat n)) <? 128)%N) (seq 0 10) = true) as H by (by vm_compute). rewrite forallb_forall in H. specialize (H (Z.to_nat d) ltac:(apply in_seq; lia)). by rewrite Z2Nat.id in H by lia. }
  unfold two_digits. apply chars_cons. split; [apply Hd, Z.mod_pos_bound; lia |]. apply chars_cons. split; [apply Hd, Z.mod_pos_bound; lia | apply chars_nil].
Qed.

Lemma ascii_four_digits z : ascii (four_digits z).
Proof. apply ascii_app; apply ascii_two_digits. Qed.

#[local] Hint Resolve ascii_app ascii_pretty ascii_two_digits ascii_four_digits : core.

Lemma ascii_literal s : forallb (fun c => (N_of_ascii c <? 128)%N) (list_ascii_of_string s) = true -> ascii s.
Proof. intros H. apply Forall_forall. intros c Hc. rewrite forallb_forall in H. by apply H, list_elem_of_In. Qed.

Lemma ascii_time_text t : ascii (time_text t) /\ ascii (time_compact t).
Proof. unfold time_text, time_compact. split; repeat apply ascii_app; auto; by apply ascii_literal. Qed.

(** A widened float is finite. *)
Lemma widened_ok x : is_finite x = true -> f32_ok x -> is_finite (f64_of_f32 x) = true /\ valid_binary 53 1024 (f64_of_f32 x) = true.
Proof.
  intros Hf Hv. destruct x as [s | s | | s m e]; try done. unfold f64_of_f32, binary_round. pose proof (shl_align_spec m e (fexp 53 1024 (Zpos (digits2_pos m) + e))) as Hs. destruct (shl_align m e _) as [mz ez]. destruct Hs as [Hez Hmz].
  assert (-149 <= e <= 104 /\ Zpos (digits2_pos m) <= 24) as [He Hd].
  { pose proof Hv as Hv'. unfold f32_ok in Hv'. cbn [valid_binary] in Hv'. unfold bounded in Hv'. apply andb_prop in Hv' as [Hc Hb%Z.leb_le]. apply canonical_mantissa_inv in Hc. cbn [Zdigits2] in Hc. change (SpecFloat.emin 24 128) with (-149) in Hc. lia. }
  assert (Zdigits2 (Zpos mz) + ez = Zpos (digits2_pos m) + e) as Hsum by (rewrite Hmz, Zdigits2_mul_pow2 by lia; cbn [Zdigits2]; lia).
  assert (ez <= fexp 53 1024 (Zdigits2 (Zpos mz) + ez)) as Hle by (rewrite Hsum; lia).
  assert (fexp 53 1024 (Zdigits2 (Zpos mz) + ez) + 1 <= 1024 - 53) as Hbig by (rewrite Hsum, fexp_alt; change (SpecFloat.emin 53 1024) with (-1074); lia).
  split; [by apply binary_round_aux_finite | by apply binary_round_aux_valid].
Qed.

Lemma JInt_ok z : int_range z -> json_ok (JInt z) = true.
Proof. intros Hz. unfold int_range in Hz. cbn [json_ok]. apply andb_true_intro. split; [apply Z.leb_le | apply Z.ltb_lt]; lia. Qed.

Lemma json_ok_object m : keys_sorted m = true -> Forall (fun kv => text_ok (fst kv) = true /\ json_ok (snd kv) = true) m -> json_ok (JObject m) = true.
Proof.
  intros Hs Hm. change (keys_sorted m && forallb (fun kv => text_ok (fst kv) && json_ok (snd kv)) m = true). rewrite Hs. apply forallb_forall. intros kv Hkv%list_elem_of_In. rewrite Forall_forall in Hm. destruct (Hm kv Hkv) as [-> ->]. done.
Qed.

Lemma json_ok_array {A} (f : A -> json) l : Forall (fun x => json_ok (f x) = true) l -> json_ok (JArray (map f l)) = true.
Proof. intros H. change (forallb json_ok (map f l) = true). apply forallb_forall. intros j (x & <- & Hx%list_elem_of_In)%in_map_iff. rewrite Forall_forall in H. by apply H. Qed.

(** An object whose keys are written out. *)
Ltac members_ok := apply json_ok_object; [reflexivity |]; repeat (apply Forall_cons_2; [split; [reflexivity | cbn [snd]] |]); try apply Forall_nil_2.

Definition confidence_ok (o : EventObject) : Prop := is_finite (eo_Confidence o) = true /\ f32_ok (eo_Confidence o).

Lemma event_object_ok o : object_in_range o -> confidence_ok o -> json_ok (event_object_json o) = true.
Proof.
  intros Ho [Hc1 Hc2]. rewrite event_object_members by done. destruct Ho as [Hi Hb Hx]. repeat (apply Forall_cons in Hi as [? Hi]). destruct (widened_ok _ Hc1 Hc2) as [Hf Hv].
  assert (json_ok (JArray (map JInt (eo_Box o))) = true) as Hbox by (apply json_ok_array; eapply Forall_impl; [exact Hb | intros z; apply JInt_ok]).
  assert (json_ok (JFloat (f64_of_f32 (eo_Confidence o))) = true) as Hconf by (apply andb_true_intro; done).
  destruct (eo_extended o) as [[key v] |]; [destruct Hx as [[-> | ->] Hv'] |]; cbn [app]; members_ok; auto using JInt_ok.
Qed.

(** The texts of an event. *)
Definition event_texts_ok (e : EventMessage) : Prop := text_ok (em_Source e) = true /\ text_ok (em_Time e) = true /\ text_ok (em_Uid e) = true /\ text_ok (em_ImagePath e) = true.

Lemma message_ok e : event_in_range e -> event_texts_ok e -> Forall confidence_ok (em_Objects e) -> json_ok (message_json e) = true.
Proof.
  intros [Hi Ho] (T1 & T2 & T3 & T4) Hc. repeat (apply Forall_cons in Hi as [? Hi]).
  assert (json_ok (JArray (map event_object_json (em_Objects e))) = true) as Hobj.
  { apply json_ok_array. rewrite Forall_forall in Ho, Hc |- *. intros o Hin. apply event_object_ok; auto. }
  assert (json_ok (analysis_json e) = true) as Ha by (rewrite analysis_members; members_ok; auto using JInt_ok).
  rewrite message_members. members_ok; auto; members_ok; auto; members_ok; auto.
Qed.

(** ** Reading an event in its order *)

Definition sent_object (o : EventObject) : ReceivedObject :=
  let extended key := match eo_extended o with Some (k, v) => if String.eqb k key then Some v else None | None => None end in
  mkReceivedObject (f64_of_f32 (eo_Confidence o)) (eo_ClassId o) (eo_TrackId o) (eo_VideoWidth o) (eo_VideoHeight o) (eo_Box o)
    (extended "Direction"%string) (extended "Duration"%string).

Definition sent_event (e : EventMessage) : ReceivedEvent :=
  mkReceivedEvent (em_Source e) (em_Time e) (em_Uid e) (em_TrackId e) (em_CameraId e) (em_EventCode e) (em_LevelCode e) (em_ScheduleId e)
    (em_ServerId e) (em_ImagePath e) (map sent_object (em_Objects e)).

Lemma get_int_of_int z : int_range z -> get_int (JInt z) = Some z.
Proof. intros Hz. cbn. f_equal. by apply i32_id. Qed.

Lemma mapM_map {A B C} (f : B -> option C) (g : A -> B) (k : A -> C) l : Forall (fun x => f (g x) = Some (k x)) l -> mapM f (map g l) = Some (map k l).
Proof. induction 1 as [| x l Hx _ IH]; [done |]. cbn. by rewrite Hx, IH. Qed.

Lemma read_sent_object o : object_in_range o -> read_object (event_object_json o) = Some (sent_object o).
Proof.
  intros Ho. rewrite event_object_members by done. destruct Ho as [Hi Hb Hx]. repeat (apply Forall_cons in Hi as [? Hi]).
  assert (mapM get_int (map JInt (eo_Box o)) = Some (eo_Box o)) as Hbox.
  { pose proof (mapM_map get_int JInt (fun z => z) (eo_Box o)) as Hm. rewrite map_id in Hm. apply Hm. eapply Forall_impl; [exact Hb |]. intros z. apply get_int_of_int. }
  unfold sent_object. destruct (eo_extended o) as [[key v] |]; [destruct Hx as [[-> | ->] Hv] |];
    unfold read_object; cbn -[get_int f64_of_f32 mapM map]; rewrite !get_int_of_int by done; cbn -[get_int f64_of_f32 mapM map]; by rewrite Hbox.
Qed.

Lemma read_sent e : event_in_range e -> read_event (message_json e) = Some (sent_event e).
Proof.
  intros [Hi Ho]. repeat (apply Forall_cons in Hi as [? Hi]).
  assert (mapM read_object (map event_object_json (em_Objects e)) = Some (map sent_object (em_Objects e))) as Hobj by (apply mapM_map; eapply Forall_impl; [exact Ho |]; intros o; apply read_sent_object).
  rewrite message_members, analysis_members. unfold read_event, sent_event. cbn -[get_int mapM map]. rewrite !get_int_of_int by done. cbn -[get_int mapM map]. by rewrite Hobj.
Qed.

Section UnitEvents.
Context {K : Type} `{!OpenCV K} `{!FFmpeg}.
Implicit Types (u : RtspDetectorUnit (K := K)) (sch : Schedule).

Lemma built_texts_ok u sch objects t path uuid : text_ok path = true -> text_ok uuid = true -> event_texts_ok (BuildNotifyJsonImpl_Analysis u sch objects t path uuid).
Proof.
  intros Hp Hu. destruct (ascii_time_text t) as [H1 H2]. split_and!; [apply ascii_text, ascii_pretty | by apply ascii_text | | done]. cbn [em_Uid BuildNotifyJsonImpl_Analysis].
  repeat (apply text_ok_app; [first [by (apply ascii_text; auto) | by (apply ascii_text, ascii_literal)] |]). done.
Qed.

(** C31: The text of an event that goes to the gRPC peers is always written, and a reader finds the event whole and in its
    order, the box of every object as [x1, y1, x2, y2]: only the messages of Socket.IO turn the arrays around. This is for
    finite scores, a path and an identifier in UTF-8, and integers of their widths. *)
Theorem event_text_whole u sch objects t path uuid : ints_in_range u sch objects -> text_ok path = true -> text_ok uuid = true -> Forall (fun o => is_finite (score o) = true /\ f32_ok (score o)) objects ->
  let e := BuildNotifyJsonImpl_Analysis u sch objects t path uuid in
  exists text, dump_text (-1) (message_json e) = inr text /\ json_parse_quiet text = Some (message_json e) /\ (json_parse_quiet text ≫= read_event) = Some (sent_event e).
Proof.
  intros Hi Hp Hu Hs e. pose proof (built_in_range u sch objects t path uuid Hi) as He. fold e in He.
  assert (json_ok (message_json e) = true) as Hok by (apply message_ok; [done | by apply built_texts_ok | unfold e; cbn; by apply Forall_fmap]).
  destruct (dump_text_written (-1) _ Hok) as [text Ht]. exists text. destruct (dump_text_reads (-1) _ text Hok Ht) as [Hq _]. rewrite Hq. split_and!; [done | done |]. cbn [mbind option_bind]. by apply read_sent.
Qed.
End UnitEvents.

(** A person at (495, 315) to (505, 325): the text holds its box in this order. *)
Lemma event_text_whole_witness :
  exists text r, dump_text (-1) (message_json (BuildNotifyJsonImpl_Analysis demo_event_unit (demo_schedule LineIntrusion [] demo_line 60) (demo_layer 320) (mkLocalTime demo_tm 0) "/x.jpg" "u1")) = inr text /\
    (json_parse_quiet text ≫= read_event) = Some r /\ map ro_Box (re_Objects r) = [[495; 315; 505; 325]].
Proof.
  destruct (event_text_whole demo_event_unit (demo_schedule LineIntrusion [] demo_line 60) (demo_layer 320) (mkLocalTime demo_tm 0) "/x.jpg" "u1") as (text & Et & _ & Er).
  - split; [by repeat (constructor; [by vm_compute |]) | by constructor; [split; vm_compute |]].
  - by vm_compute.
  - by vm_compute.
  - by constructor; [split; vm_compute |].
  - exists text. eexists. split; [exact Et |]. split; [exact Er |]. by vm_compute.
Defined.
