(* ===== verification/Service.v ===== *)
(** * The service: its units, its parts, and its life

    [Main/DETECTOR/include/RtspDetectorBlock.h], [src/RtspDetectorBlock.cpp]: the units of all
    cameras; [Main/DETECTOR/include/DETECTOR.h], [src/DETECTOR.cpp]: how the parts are made,
    connected, started and closed; [Main/BASE/src/Main.cpp]: the program around it.  Every part is
    the one of its own file.  [None] is the end of the process: an exception nobody catches, a
    null pointer, a joinable thread that is assigned or destroyed, a freed object.  A unit's
    queue of frames is the one the registry holds for its camera; what the frames do to it
    later is in [DetectorUnit].  The gRPC server ([GrpcServer]) is on or off here; delays,
    metrics and logs are left out. *)

From Stdlib Require Import SpecFloat Ascii String.
From stdpp Require Import gmap.
From S2P Require Import Prelude Float32 InferObject Kalman Sort Json SettingData SettingManager SettingFacade EngineTypes SafeQueue SafeThread InferenceCounter LoadBalancer EngineHandler Letterbox EngineClient DetectorUnit DetectorPipeline ServiceGraph Profiles SioHandler RtspServer GrpcClient IOStreamManager NetworkManager.
Open Scope Z_scope.
Open Scope list_scope.

(** ** The block of units *)

Section Block.
Context {K : Type} `{CV : !OpenCV K}.

(** A unit and its threads. *)
Record ServiceUnit := mkServiceUnit { su_unit : RtspDetectorUnit (K := K); su_threads : Threads }.

Definition ServiceUnit_make (id : Z) : ServiceUnit :=
  mkServiceUnit (RtspDetectorUnit_make id) (mkThreads SafeThread_make SafeThread_make SafeThread_make SafeThread_make).

(** [Init] sets the functions of the threads once it has its queue of frames, before it
    looks for the settings. *)
Definition set_functions (t : Threads) : Threads :=
  let set th := SetThreadFunctions th true true in
  mkThreads (set (io_worker_thread_ t)) (set (event_thread_ t)) (set (response_thread_ t)) (set (inference_thread_ t)).

Definition with_settings_there (e : InitEnv) : InitEnv :=
  mkInitEnv (env_load_balancer e) (env_network_manager e) (env_rtsp_handler e) (env_sio_handler e) (env_iostream_manager e) (env_avframe_q e)
    true (env_exclude e) (env_schedule e) (env_server e).

Definition unit_init (e : InitEnv) (s : ServiceUnit) : bool * ServiceUnit :=
  let has_queue := fst (Init (with_settings_there e) (su_unit s)) in
  let '(ok, u) := Init e (su_unit s) in
  (ok, mkServiceUnit u (if has_queue then set_functions (su_threads s) else su_threads s)).

Definition unit_start (e : InitEnv) (s : ServiceUnit) : option (bool * ServiceUnit) :=
  let '(ok, s) := if is_initialized_service_ (su_unit s) then (true, s) else unit_init e s in
  if negb ok then Some (false, s)
  else t ← Start_ (su_threads s); Some (true, mkServiceUnit (su_unit s) t).

Definition unit_stop (s : ServiceUnit) (b : EngineLoadBalancer) : bool * ServiceUnit * EngineLoadBalancer :=
  let '(t, u, b) := Stop_ (su_threads s) (su_unit s) b in (true, mkServiceUnit u t, b).

(** The units in the order of the set of cameras; the result, and the units. *)
Definition BuildServiceUnit (cam_set : gset Z) (service_units_ : list ServiceUnit) : bool * list ServiceUnit :=
  let l := service_units_ ++ map ServiceUnit_make (set_order cam_set) in
  ((length l =? size cam_set)%nat, l).

(** Some or all units, of a block that has any. *)
Definition block_result (success_need_all_success : bool) (results : list bool) : bool :=
  let success_count := length (List.filter id results) in
  match results with
  | [] => false
  | _ => if success_need_all_success then (success_count =? length results)%nat else negb (success_count =? 0)%nat
  end.

Definition Block_Init (env : Z -> InitEnv) (need_all : bool) (l : list ServiceUnit) : bool * list ServiceUnit :=
  let r := map (fun s => unit_init (env (id_ (su_unit s))) s) l in (block_result need_all r.*1, r.*2).

Fixpoint start_units (env : Z -> InitEnv) (l : list ServiceUnit) : option (list bool * list ServiceUnit) :=
  match l with
  | [] => Some ([], [])
  | s :: l => '(ok, s) ← unit_start (env (id_ (su_unit s))) s; '(oks, l) ← start_units env l; Some (ok :: oks, s :: l)
  end.

Definition Block_Start (env : Z -> InitEnv) (need_all : bool) (l : list ServiceUnit) : option (bool * list ServiceUnit) :=
  '(oks, l) ← start_units env l; Some (block_result need_all oks, l).

Fixpoint stop_units (l : list ServiceUnit) (b : EngineLoadBalancer) : list bool * list ServiceUnit * EngineLoadBalancer :=
  match l with
  | [] => ([], [], b)
  | s :: l => let '(ok, s, b) := unit_stop s b in let '(oks, l, b) := stop_units l b in (ok :: oks, s :: l, b)
  end.

Definition Block_Stop (need_all : bool) (l : list ServiceUnit) (b : EngineLoadBalancer) : bool * list ServiceUnit * EngineLoadBalancer :=
  let '(oks, l, b) := stop_units l b in (block_result need_all oks, l, b).
End Block.

Arguments ServiceUnit : clear implicits.

(** ** The service *)

Section Service.
Context {K : Type} `{CV : !OpenCV K} {D : Type} `{DV : !Device D} (new_device : EngineProfile -> Z -> D) `{FL : !Files}.
Context {C : Type} `{!EqDecision C} {Camera Snapshot : Type} (GET : string -> Z * json).

Definition NetworkProfileJsonPath : string := "/DetectBase/settings/NetworkSettings.json".
Definition EngineProfilesJsonPath : string := "/DetectBase/settings/EngineSettings.json".

Record Service := mkServiceState {
  service_profile_ : ServiceProfile;
  network_profile_ : option NetworkProfile;
  engine_profiles_ : list EngineProfile;
  network_manager_ : option (NetworkManager Camera Snapshot);
  io_stream_manager_ : option (IOStreamManager AVFrame);
  load_balancer_ : option EngineLoadBalancer;
  engines_ : list (EngineHandlerBase D);
  detector_block_ : option (list (ServiceUnit K));
  grpc_server_ : bool;
  is_quit_ : bool;
  facade : Facade C             (* of the program's only setting manager *)
}.

Definition Service_make (p : ServiceProfile) (f : Facade C) : Service := mkServiceState p None [] None None None [] None false false f.

Definition with_profiles (s : Service) n e := mkServiceState (service_profile_ s) n e (network_manager_ s) (io_stream_manager_ s) (load_balancer_ s) (engines_ s) (detector_block_ s) (grpc_server_ s) (is_quit_ s) (facade s).
Definition with_managers (s : Service) n i b := mkServiceState (service_profile_ s) (network_profile_ s) (engine_profiles_ s) n i b (engines_ s) (detector_block_ s) (grpc_server_ s) (is_quit_ s) (facade s).
Definition with_engines (s : Service) e b := mkServiceState (service_profile_ s) (network_profile_ s) (engine_profiles_ s) (network_manager_ s) (io_stream_manager_ s) b e (detector_block_ s) (grpc_server_ s) (is_quit_ s) (facade s).
Definition with_block (s : Service) l b := mkServiceState (service_profile_ s) (network_profile_ s) (engine_profiles_ s) (network_manager_ s) (io_stream_manager_ s) b (engines_ s) l (grpc_server_ s) (is_quit_ s) (facade s).
Definition with_grpc (s : Service) g q := mkServiceState (service_profile_ s) (network_profile_ s) (engine_profiles_ s) (network_manager_ s) (io_stream_manager_ s) (load_balancer_ s) (engines_ s) (detector_block_ s) g q (facade s).
Definition with_facade (s : Service) f := mkServiceState (service_profile_ s) (network_profile_ s) (engine_profiles_ s) (network_manager_ s) (io_stream_manager_ s) (load_balancer_ s) (engines_ s) (detector_block_ s) (grpc_server_ s) (is_quit_ s) f.

(** What the outside does. *)
Record ServiceEnv := mkServiceEnv { conn : ConnEnv; rtsp_created : bool; rtsp_attached : bool; engine_id_counter : Z }.

(** *** Engines *)

(** The linker is a closure over the balancer: it answers as [Linker] does. *)
Definition balancer_linker (b : EngineLoadBalancer) : EngineLinker :=
  fun uuid _ => Some (if fst (Linker b uuid 0) then Some (infer_respond_receiver_ b) else None).

Definition activate_engine (address : nat) (h : EngineHandlerBase D) (b : EngineLoadBalancer) : option (bool * EngineHandlerBase D * EngineLoadBalancer) :=
  if is_activate_handler_ h then Some (true, h, b)
  else
    let '(_, b') := Linker b (GetEngineHandleUUID h) address in
    '(ok, h) ← ActivateEngine (SetEngineLinker h (balancer_linker b)); Some (ok, h, b').

(** Up to the first that fails. *)
Fixpoint activate_engines (address : nat) (l : list (EngineHandlerBase D)) (b : EngineLoadBalancer) : option (bool * list (EngineHandlerBase D) * EngineLoadBalancer) :=
  match l with
  | [] => Some (true, [], b)
  | h :: l =>
      '(ok, h, b) ← activate_engine address h b;
      if negb ok then Some (false, h :: l, b)
      else '(ok, l, b) ← activate_engines (S address) l b; Some (ok, h :: l, b)
  end.

(** *** Events of the server *)

Definition update_binder (tag : DETECTOR) (manager_there : bool) : SioEventBinder :=
  SetMultiUintsSettingManager manager_there (SetTargetUnitsExtractor (SetInterProtocolFunc (SioEventBinder_make tag InterprotocolSettingUpdateTargetUnit))).

Definition bind_if_runnable (b : SioEventBinder) (h : SioHandler) : option SioHandler := if IsRunnable b then RegistEvent b h else Some h.

Definition SocketIOEventBind (f : Facade C) (n : NetworkManager Camera Snapshot) : option (bool * NetworkManager Camera Snapshot) :=
  match api_handler_ n, sio_handler_ n with
  | Some _, Some h =>
      h ← bind_if_runnable (update_binder ExceptionUpdate (bool_decide (is_Some (exclude_cam_settings f)))) h;
      h ← bind_if_runnable (update_binder ScheduleUpdate (bool_decide (is_Some (schedule_settings f)))) h;
      Some (true, with_sio n (Some h))
  | _, _ => Some (false, n)
  end.

(** *** What a unit finds *)

Definition frame_queue (io : IOStreamManager AVFrame) (id : Z) : option (SafeQueue AVFrame) :=
  a ← GetSafeQueue EAVFrame RTSP_AVFRAME (KeyInt id) io;
  q ← heap io !! a;
  match q with AVFramePtrQueue q => Some q | _ => None end.

Definition handlers_of (n : NetworkManager Camera Snapshot) : Handlers Camera :=
  mkHandlers (bool_decide (is_Some (api_handler_ n))) (bool_decide (is_Some (sio_handler_ n))) (rtsp_handler_ n).

Definition init_env (s : Service) (id : Z) : InitEnv :=
  mkInitEnv (bool_decide (is_Some (load_balancer_ s))) (bool_decide (is_Some (network_manager_ s)))
    match network_manager_ s with Some n => bool_decide (is_Some (rtsp_handler_ n)) | None => false end
    (n ← network_manager_ s; h ← sio_handler_ n; Some (GetID h))
    (bool_decide (is_Some (io_stream_manager_ s)))
    (io ← io_stream_manager_ s; frame_queue io id)
    true (GetExcludeCamSetting (facade s) id) (GetScheduleSetting (facade s) id) (GetServerSetting (facade s)).

(** *** Initialisation, in its five steps *)

(** The two settings files. *)
Definition load_profiles (env : ServiceEnv) (s : Service) : option (bool * Service) :=
  check ← Network_CheckParsable NetworkProfileJsonPath;
  match check with
  | Some _ => Some (false, s)
  | None =>
      network ← Network_Parse NetworkProfileJsonPath;
      match network with
      | None => Some (false, s)
      | Some network =>
          let s := with_profiles s (Some network) (engine_profiles_ s) in
          check ← Engine_CheckParsable EngineProfilesJsonPath;
          match check with
          | Some _ => Some (false, s)
          | None =>
              engines ← fst (Engine_Parse EngineProfilesJsonPath (engine_id_counter env));
              match engines with
              | None => Some (false, s)
              | Some engines => Some (true, with_profiles s (network_profile_ s) engines)
              end
          end
      end
  end.

(** The managers, the balancer and the engines. *)
Definition create_parts (network : NetworkProfile) (s : Service) : bool * Service :=
  let b := EngineLoadBalancer_make (engine_profiles_ s) in
  let s := with_managers s (Some (NetworkManager_make network)) (Some IOStreamManager_make) (Some b) in
  let engines := BuildHandlers new_device (engine_profiles_ s) (balancer_linker b) in
  let s := with_engines s engines (load_balancer_ s) in
  (match engines with [] => false | _ => true end, s).

(** The connections. *)
Definition connect (env : ServiceEnv) (n : NetworkManager Camera Snapshot) (s : Service) : option (bool * Service) :=
  '(ok, n, f) ← ConnMVAS GET (conn env) (service_name_ (service_profile_ s)) n (facade s);
  let s := with_facade (with_managers s (Some n) (io_stream_manager_ s) (load_balancer_ s)) f in
  if negb ok then Some (false, s)
  else
    '(ok, n) ← InitializeRTSPWithStaticCameraList (rtsp_created env) (rtsp_attached env) f n;
    Some (ok, with_managers s (Some n) (io_stream_manager_ s) (load_balancer_ s)).

(** The queues, the engines, the events. *)
Definition prepare (n : NetworkManager Camera Snapshot) (io : IOStreamManager AVFrame) (b : EngineLoadBalancer) (s : Service) : option (bool * Service) :=
  let '(ok, io) := Ready (Some (GetCameraIDSet (facade s))) (Some (handlers_of n)) io in
  let s := with_managers s (Some n) (Some io) (Some b) in
  if negb ok then Some (false, s)
  else
    '(ok, l, b) ← activate_engines 0 (engines_ s) b;
    let s := with_engines s l (Some b) in
    if negb ok then Some (false, s)
    else
      '(ok, n) ← SocketIOEventBind (facade s) n;
      Some (ok, with_managers s (Some n) (Some io) (Some b)).

(** The units. *)
Definition build_units (s : Service) : bool * Service :=
  match GetBlockProfile_of_type DETECTOR_RTSP (service_graph_ (service_profile_ s)) with
  | None => (false, s)
  | Some _ =>
      let '(built, l) := BuildServiceUnit (GetCameraIDSet (facade s)) [] in
      let s := with_block s (Some l) (load_balancer_ s) in
      if negb built then (false, s)
      else
        let '(ok, l) := Block_Init (init_env s) false l in
        (ok, with_block s (Some l) (load_balancer_ s))
  end.

Definition Service_Initialize (env : ServiceEnv) (s : Service) : option (bool * Service) :=
  '(ok, s) ← load_profiles env s;
  if negb ok then Some (false, s)
  else
    network ← network_profile_ s;
    let '(ok, s) := create_parts network s in
    if negb ok then Some (false, s)
    else
      n ← network_manager_ s;
      '(ok, s) ← connect env n s;
      if negb ok then Some (false, s)
      else
        n ← network_manager_ s; io ← io_stream_manager_ s; b ← load_balancer_ s;
        '(ok, s) ← prepare n io b s;
        if negb ok then Some (false, s)
        else
          let '(ok, s) := build_units s in
          if negb ok then Some (false, s)
          else Some (true, with_grpc s (grpc_server_enabled network) (is_quit_ s)).

(** *** Work and the end *)

Definition Service_Run (s : Service) : option (bool * Service) :=
  n ← network_manager_ s;
  match rtsp_handler_ n with
  | None => Some (false, s)
  | Some h =>
      let '(ok, h) := RunRTSP h in
      let s := with_managers s (Some (with_rtsp n (Some h) (rtsp_setting_ n))) (io_stream_manager_ s) (load_balancer_ s) in
      if negb ok then Some (false, s)
      else
        l ← detector_block_ s;
        '(ok, l) ← Block_Start (init_env s) false l;
        Some (ok, with_block s (Some l) (load_balancer_ s))
  end.

(** What the end waits for without a limit: the calls that the gRPC server still has must complete, and
    the receiver of a camera must stop (its [Stop] joins a loop that may never end). *)
Record Waits := mkWaits { grpc_calls_complete : bool; receiver_stops : Camera -> bool }.

Definition cameras_stop (w : Waits) (n : NetworkManager Camera Snapshot) : bool :=
  match rtsp_handler_ n with
  | Some h => if decide (RtspServer.state_ h = RtspStop) then true else forallb (receiver_stops w) (map_to_list (clients_ h)).*2
  | None => true
  end.

(** [None]: the process ends, or it waits for ever.  [last]: for the clients of the peers, see
    [stop_clients]. *)
Definition Service_Quit (w : Waits) (last : nat -> option nat) (s : Service) : option Service :=
  if is_quit_ s then Some s
  else if grpc_server_ s && negb (grpc_calls_complete w) then None
  else
    let s := with_grpc s false true in
    engines ← mapM TerminateEngine (engines_ s);
    let s := with_engines s engines (load_balancer_ s) in
    let s := with_managers s (network_manager_ s) (io_stream_manager_ s) ((fun b => snd (Terminate_ b)) <$> load_balancer_ s) in
    let s := match detector_block_ s, load_balancer_ s with
             | Some l, Some b => let '(_, l, b) := Block_Stop false l b in with_block s (Some l) (Some b)
             | _, _ => s
             end in
    network ← match network_manager_ s with Some n => if negb (cameras_stop w n) then None else n ← CloseNetworkAll last n; Some (Some n) | None => Some None end;
    Some (with_managers s network (ClearAll <$> io_stream_manager_ s) (load_balancer_ s)).

(** [main] after its arguments and its lock: the exit code, and the service before it is
    destroyed, which quits once more.  [work] is what happens until the signal comes. *)
Definition service_main (env : ServiceEnv) (work : Service -> Service) (w : Waits) (last : nat -> option nat) (s : Service) : option (Z * Service) :=
  '(ok, s) ← Service_Initialize env s;
  if negb ok then s ← Service_Quit w last s; Some (1, s)
  else
    '(ok, s) ← Service_Run s;
    if negb ok then s ← Service_Quit w last s; Some (1, s)
    else s ← Service_Quit w last (work s); Some (0, s).

(** ** The program *)

(** The exit code that the first argument decides. *)
Definition check_arguments (arguments : list string) : option Z :=
  match arguments with
  | [] => None
  | a :: _ =>
      if String.eqb a "--version" || String.eqb a "-v" then Some 0
      else if String.eqb a "--help" || String.eqb a "-h" then Some 0
      else Some 2
  end.

(** [lock]: the file could not be opened, or it is held by another instance, or it is ours. *)
Definition main (arguments : list string) (lock : option bool) (env : ServiceEnv) (work : Service -> Service) (w : Waits) (last : nat -> option nat) (s : Service) : option (Z * option Service) :=
  match check_arguments arguments with
  | Some code => Some (code, None)
  | None =>
      match lock with
      | None => Some (4, None)
      | Some false => Some (3, None)
      | Some true => '(code, s) ← service_main env work w last s; Some (code, Some s)
      end
  end.
End Service.

(** What a turn of the waiting loop sees: the flag of the signal at its head, [is_quit_] when the wait ends, and the
    flag again. *)
Record Observed := mkObserved { sees_signal : bool; sees_quit : bool; sees_signal_after : bool }.

(** [WaitUntilQuitSignal] up to its [Quit]: the turns it took to leave the loop; [None]: it still waits. *)
Fixpoint WaitUntilQuitSignal (turns : list Observed) : option nat :=
  match turns with
  | [] => None
  | t :: turns =>
      if sees_signal t then Some 0%nat
      else if sees_quit t || sees_signal_after t then Some 1%nat
      else S <$> WaitUntilQuitSignal turns
  end.

(** The flags that the handlers of the interrupt signal set; the first handler is there during the
    initialisation. *)
Record Signals := mkSignals { g_terminate_flag : bool; g_force_exit_count : Z }.

Definition ExitSignalHandler (g : Signals) : Signals := mkSignals true (g_force_exit_count g).

Definition IgnoreSignalHandler (g : Signals) : Signals :=
  let g := mkSignals (g_terminate_flag g) (g_force_exit_count g + 1) in
  if g_force_exit_count g <=? 5 then g else ExitSignalHandler g.

Arguments Service : clear implicits.
Arguments Waits : clear implicits.
