(* ===== verification/ServiceProps.v ===== *)
(** * Properties of the service

    However far the start came, the program ends with nothing left running; a start that
    succeeds has every camera's unit ready; and quitting twice is quitting once. *)

From Stdlib Require Import SpecFloat Ascii String.
From stdpp Require Import gmap.
From S2P Require Import Prelude Float32 InferObject Kalman Sort SortProps Json SettingData SettingManager SettingFacade EngineTypes SafeQueue SafeThread InferenceCounter LoadBalancer EngineHandler Letterbox EngineClient DetectorUnit DetectorPipeline DetectorStop ServiceGraph Profiles ProfilesProps SioHandler RtspServer RtspServerProps GrpcClient GrpcClientProps IOStreamManager NetworkManager Service.
Open Scope Z_scope.
Open Scope list_scope.

(** ** Threads *)

Lemma start_exact th : flag_exact th -> exists th', SafeThread.Start th = Some th' /\ flag_exact th'.
Proof. intros H. exact (thread_op_exact th OpStart H eq_refl). Qed.


Section Units.
Context {K : Type} `{CV : !OpenCV K}.

Definition threads_exact (t : Threads) : Prop := forall s, flag_exact (thread_of t s).

Lemma set_functions_exact t : threads_exact t -> threads_exact (set_functions t).
Proof. intros H s. specialize (H s). by destruct s. Qed.

Lemma unit_init_exact e (s : ServiceUnit K) : threads_exact (su_threads s) -> threads_exact (su_threads (snd (unit_init e s))).
Proof. intros H. unfold unit_init. destruct (Init e (su_unit s)). cbn. case_if; [by apply set_functions_exact | done]. Qed.

Lemma Start__exact t : threads_exact t -> exists t', Start_ t = Some t' /\ threads_exact t'.
Proof.
  intros H. unfold Start_. destruct (start_exact (io_worker_thread_ t) (H IOWorkerStage)) as (io & -> & Hio). destruct (start_exact (event_thread_ t) (H EventStage)) as (ev & -> & Hev).
  destruct (start_exact (response_thread_ t) (H ResponseStage)) as (rsp & -> & Hrsp). destruct (start_exact (inference_thread_ t) (H InferenceStage)) as (inf & -> & Hinf).
  eexists. split; [done |]. by intros [].
Qed.

Lemma unit_start_exact e (s : ServiceUnit K) : threads_exact (su_threads s) -> exists ok s', unit_start e s = Some (ok, s') /\ threads_exact (su_threads s').
Proof.
  intros H. unfold unit_start. pose proof (unit_init_exact e s H) as Hi. destruct (unit_init e s) as [ok s0]. cbn in Hi.
  destruct (is_initialized_service_ (su_unit s)); [| destruct ok; [| by exists false, s0]]; cbn [negb].
  - destruct (Start__exact _ H) as (t & -> & Ht). cbn. by do 2 eexists.
  - destruct (Start__exact _ Hi) as (t & -> & Ht). cbn. by do 2 eexists.
Qed.



Definition units_exact (l : list (ServiceUnit K)) : Prop := Forall (fun s => threads_exact (su_threads s)) l.

Lemma start_units_exact env l : units_exact l -> exists oks l', start_units env l = Some (oks, l') /\ units_exact l'.
Proof.
  induction 1 as [| s l Hs _ (oks & l' & E & Hl)]; [exists [], []; split; [done | constructor] |]. cbn [start_units]. destruct (unit_start_exact (env (id_ (su_unit s))) s Hs) as (ok & s' & -> & Hs').
  cbn [mbind option_bind]. rewrite E. cbn. do 2 eexists. split; [done | by constructor].
Qed.


Lemma ServiceUnit_make_exact id : threads_exact (su_threads (ServiceUnit_make (K := K) id)).
Proof. by intros []. Qed.

Lemma Block_Init_exact env need l : units_exact l -> units_exact (snd (Block_Init env need l)).
Proof.
  intros H. unfold Block_Init, units_exact. cbn [snd]. rewrite Forall_fmap, Forall_map. eapply Forall_impl; [exact H |]. intros s Hs. cbn. by apply unit_init_exact.
Qed.
End Units.

(** ** Engines *)

Section Engines.
Context {D : Type} `{DV : !Device D}.

(** The thread of a handler runs only while it is active, and does not end by itself. *)
Definition engine_sound (h : EngineHandlerBase D) : Prop :=
  flag_exact (EngineHandler.inference_thread_ h) /\ (is_running_ (EngineHandler.inference_thread_ h) = true -> is_activate_handler_ h = true).




Lemma activate_sound address (h : EngineHandlerBase D) b :
  engine_sound h -> exists ok h' b', activate_engine address h b = Some (ok, h', b') /\ engine_sound h' /\ (ok = true -> is_activate_handler_ h' = true).
Proof.
  intros [Hx Ha]. unfold activate_engine. destruct (is_activate_handler_ h) eqn:Eh; [do 3 eexists; split; [done |]; split; [by split; [| congruence] | done] |].
  assert (is_running_ (EngineHandler.inference_thread_ h) = false) as Hr by (destruct (is_running_ (EngineHandler.inference_thread_ h)); [by specialize (Ha eq_refl) | done]).
  destruct (Linker b (GetEngineHandleUUID h) address) as [l b'].
  set (h0 := SetEngineLinker h (balancer_linker b)). assert (EngineHandler.inference_thread_ h0 = EngineHandler.inference_thread_ h /\ is_activate_handler_ h0 = false) as [Et0 Ea0] by done.
  unfold ActivateEngine. rewrite Ea0. cbn [engine_linker_ h0 SetEngineLinker set_links].
  assert (forall ok h1, Link h0 = (ok, h1) -> EngineHandler.inference_thread_ h1 = EngineHandler.inference_thread_ h /\ is_activate_handler_ h1 = false) as Hl.
  { intros ok h1. unfold Link. repeat case_match; intros [= <- <-]; by split. }
  destruct (Link h0) as [linked h1]. destruct (Hl linked h1 eq_refl) as [Et1 Ea1].
  assert (forall h2, EngineHandler.inference_thread_ h2 = EngineHandler.inference_thread_ h -> is_activate_handler_ h2 = false -> engine_sound h2) as Hsound.
  { intros h2 E1 E2. unfold engine_sound. rewrite E1, E2. split; [done | congruence]. }
  destruct linked; cbn [negb]; [| do 3 eexists; split; [done |]; split; [by apply Hsound | done]].
  assert (forall ok h2, InitializeDeviceAndModel h1 = (ok, h2) -> EngineHandler.inference_thread_ h2 = EngineHandler.inference_thread_ h /\ is_activate_handler_ h2 = false) as Hi.
  { intros ok h2. unfold InitializeDeviceAndModel. destruct (LoadModelEngineFile (device h1)) as [[] d]; [destruct (AllocateBuffers d) |]; intros [= <- <-]; by split. }
  destruct (InitializeDeviceAndModel h1) as [initialized h2]. destruct (Hi initialized h2 eq_refl) as [Et2 Ea2].
  destruct initialized; cbn [negb]; [| do 3 eexists; split; [done |]; split; [by apply Hsound | done]].
  destruct (start_exact (SetThreadFunctions (EngineHandler.inference_thread_ h2) true true)) as (t & -> & Hxt); [rewrite Et2; exact Hx |].
  cbn [mbind option_bind]. do 3 eexists. split; [done |]. split; [by split | done].
Qed.

Lemma activate_engines_sound address (l : list (EngineHandlerBase D)) b :
  Forall engine_sound l -> exists ok l' b', activate_engines address l b = Some (ok, l', b') /\ Forall engine_sound l' /\ length l' = length l /\
    (ok = true -> Forall (fun h => is_activate_handler_ h = true) l').
Proof.
  intros Hl. revert address b. induction Hl as [| h l Hh Hl IH]; intros address b; [exists true, [], b; by split_and! |]. cbn [activate_engines].
  destruct (activate_sound address h b Hh) as (ok & h' & b' & -> & Hh' & Hact). cbn [mbind option_bind]. destruct ok; cbn [negb].
  - destruct (IH (S address) b') as (ok & l' & b'' & -> & Hl' & Hlen & Hall). cbn [mbind option_bind]. do 3 eexists. split; [done |].
    split; [by constructor |]. split; [cbn; by rewrite Hlen |]. intros Hok. constructor; [by apply Hact | by apply Hall].
  - do 3 eexists. split; [done |]. split; [by constructor |]. by split.
Qed.


Lemma BuildHandlers_sound new_device profiles linker : Forall engine_sound (BuildHandlers (D := D) new_device profiles linker).
Proof.
  unfold BuildHandlers. induction profiles as [| p l IH]; [constructor |]. cbn [flat_map]. apply Forall_app. split; [| done]. unfold build_profile.
  destruct (IsProfileSupported p); cbn [negb]; [| constructor]. unfold CreateAndLinkHandler, CreateNpuEngineHandler, GetAvailableDeviceIDs. cbn.
  destruct (model_major_type p); [constructor |]. destruct (model_minor_type p); repeat apply Forall_cons_2; try apply Forall_nil_2; by split.
Qed.
End Engines.

(** ** Settings *)

Section Settings.
Context {C : Type} `{!EqDecision C} (GET : string -> Z * json).

Lemma insert_ids_range key l (s s' : gset Z) r : insert_ids key l s = (r, s') -> (forall id, id ∈ s -> in_i32 id) -> forall id, id ∈ s' -> in_i32 id.
Proof.
  revert s. induction l as [| o l IH]; intros s H Hs; cbn [insert_ids] in H; [by injection H as <- <- |].
  destruct (is_object o && contains o key); [| by eapply IH]. unfold bind, lift, modify in H. destruct (value get_int o key JSON_PARSE_ID_VALUE_NOT_SET) as [z |] eqn:Ez; [| by injection H as <- <-].
  eapply IH; [exact H |]. intros id [->%elem_of_singleton | Hid]%elem_of_union; [| by apply Hs]. unfold value in Ez. destruct o; try done.
  destruct (find_member key m) as [v |]; [by eapply get_int_range | injection Ez as <-; unfold in_i32, JSON_PARSE_ID_VALUE_NOT_SET; lia].
Qed.

(** What a successful start leaves. *)
Record facade_ready (f : Facade C) : Prop := {
  fr_excludes : is_Some (exclude_cam_settings f);
  fr_schedules : is_Some (schedule_settings f);
  fr_cams : forall id, id ∈ GetCameraIDSet f -> in_i32 id /\ id <> -1
}.

Lemma cluster_ids j c : AddClusterData j (mkCluster ∅ "CameraId") = (Some true, c) -> forall id, id ∈ camera_set_ c -> in_i32 id /\ id <> -1.
Proof.
  unfold AddClusterData. cbn [camera_key_name_ camera_set_]. change (String.eqb "CameraId" "") with false. cbn iota. destruct j; try done.
  destruct (insert_ids "CameraId" l ∅) as [[[] |] s] eqn:E; [| done]. intros [= <-] id. cbn. intros [Hid Hn]%elem_of_difference. split.
  - eapply insert_ids_range; [exact E | | exact Hid]. intros x Hx. by apply elem_of_empty in Hx.
  - intros ->. apply Hn. by apply elem_of_singleton.
Qed.

Lemma initialize_ready ip tag (f f' : Facade C) :
  initialization_succeeded f = false -> SettingFacade.Initialize GET ip tag f = (true, f') -> facade_ready f'.
Proof.
  assert (forall f0 f1 : Facade C, InitializeImpl_DETECTOR_BaseForm GET ip f0 = (Some true, f1) ->
    is_Some (exclude_cam_settings f1) /\ is_Some (schedule_settings f1) /\ exists c j, camera_cluster f1 = Some c /\ AddClusterData j (mkCluster ∅ "CameraId") = (Some true, c)) as Himpl.
  { intros f0 f1. unfold InitializeImpl_DETECTOR_BaseForm, SetCameraCluster_DETECTOR, SetServerSetting, bind, ret, lift, modify, get.
    repeat case_match; intros Hf; simplify_eq/=; (split; [by eexists | split; [by eexists | bool_to_prop; subst; do 2 eexists; split; [done | eassumption]]]). }
  unfold SettingFacade.Initialize. intros ->. destruct (String.eqb tag "DETECTOR"); [| done]. destruct (InitializeImpl_DETECTOR_BaseForm GET ip f) as [[[] |] f1] eqn:E; try done.
  intros [= <-]. destruct (Himpl f f1 E) as (H1 & H2 & c & j & Hc & Hj). split; [done | done |]. unfold GetCameraIDSet. cbn. rewrite Hc. by eapply cluster_ids.
Qed.
End Settings.

(** ** The balancer at the end *)




Section Balancer.
Context {K : Type} `{CV : !OpenCV K}.



End Balancer.

(** ** The service *)



Section Service.
Context {K : Type} `{CV : !OpenCV K} {D : Type} `{DV : !Device D} (new_device : EngineProfile -> Z -> D) `{FL : !Files}.
Context {C : Type} `{!EqDecision C} {Camera Snapshot : Type} (GET : string -> Z * json).
Local Abbreviation ServiceState := (Service K D C Camera Snapshot).
Local Abbreviation Manager := (NetworkManager Camera Snapshot).

(** A service that can be closed, however far its start came. *)
Record service_sound (s : ServiceState) : Prop := {
  s_open : is_quit_ s = false;
  s_engines : Forall engine_sound (engines_ s);
  s_network : forall n, network_manager_ s = Some n -> net_sound n;
  s_units : forall l, detector_block_ s = Some l -> units_exact l /\ is_Some (load_balancer_ s)
}.





(** *** The steps of the start *)

(** The settings files have values of the expected types. *)
Definition files_well_typed (env : ServiceEnv) : Prop :=
  Network_Parse NetworkProfileJsonPath <> None /\ fst (Engine_Parse EngineProfilesJsonPath (engine_id_counter env)) <> None.

Lemma load_profiles_spec env (s : ServiceState) :
  files_well_typed env -> exists ok n e, load_profiles env s = Some (ok, with_profiles s n e) /\ (ok = true -> is_Some n).
Proof.
  assert (s = with_profiles s (network_profile_ s) (engine_profiles_ s)) as Hs by (by destruct s).
  intros [Hn He]. unfold load_profiles, Network_Parse, Engine_Parse in *.
  destruct (Network_CheckParsable NetworkProfileJsonPath) as [[e |] |] eqn:Ec; [| | done]; cbn [mbind option_bind] in *; [do 3 eexists; rewrite <- Hs; by split |].
  match goal with |- context [mbind _ ?x] => destruct x as [[network |] |] eqn:Ep end; [| by do 3 eexists; rewrite <- Hs | done]. cbn [mbind option_bind].
  destruct (Engine_CheckParsable EngineProfilesJsonPath) as [[e |] |] eqn:Ee; [| | done]; cbn [mbind option_bind fst] in *; [do 3 eexists; by split |].
  match goal with |- context [mbind _ (fst ?x)] => destruct x as [[[engines |] |] c] eqn:Ep2 end; cbn [fst mbind option_bind] in *; [do 3 eexists; split; [done | by eexists] | by do 3 eexists | done].
Qed.

Lemma create_parts_spec network (s : ServiceState) :
  is_quit_ s = false -> detector_block_ s = None ->
  exists ok s', create_parts new_device network s = (ok, s') /\ service_sound s' /\ facade s' = facade s /\ detector_block_ s' = None /\ is_Some (load_balancer_ s') /\
    network_manager_ s' = Some (NetworkManager_make network) /\ io_stream_manager_ s' = Some IOStreamManager_make /\ (ok = true -> engines_ s' <> []).
Proof.
  intros Hq Hb. do 2 eexists. split; [reflexivity |]. split_and!; try done; cbn; try by eexists.
  - split; cbn; [done | apply BuildHandlers_sound | | by rewrite Hb]. intros n [= <-]. split; cbn; [done | done | constructor].
  - by case_match.
Qed.

(** What [connect] leaves when it succeeds. *)
Record connected (s : ServiceState) (f : Facade C) (n : Manager) : Prop := {
  c_settings : exists ip tag, SettingFacade.Initialize GET ip tag f = (true, facade s);
  c_api : is_Some (api_handler_ n);
  c_sio : exists h, sio_handler_ n = Some h /\ current_socket h = true;
  c_rtsp : exists h, rtsp_handler_ n = Some h /\ IsProxySettingStaticUseInitData h = true /\ GetProxyIDs h = ∅
}.

Lemma connect_spec env network (s : ServiceState) :
  service_sound s -> detector_block_ s = None -> is_Some (load_balancer_ s) -> (rtsp_created env = true -> rtsp_attached env = true) ->
  exists ok s' n, connect GET env (NetworkManager_make network) s = Some (ok, s') /\ service_sound s' /\ detector_block_ s' = None /\ load_balancer_ s' = load_balancer_ s /\
    network_manager_ s' = Some n /\ io_stream_manager_ s' = io_stream_manager_ s /\ engines_ s' = engines_ s /\ net_sound n /\ (ok = true -> connected s' (facade s) n).
Proof.
  intros [Ho He Hn Hu] Hd [b Hb] Hc. unfold connect.
  destruct (ConnMVAS_sound GET (conn env) (service_name_ (service_profile_ s)) (NetworkManager_make network : Manager) (facade s) eq_refl eq_refl eq_refl) as (ok & n & f & -> & Hns & Hr & Hok).
  cbn [mbind option_bind]. destruct ok; cbn [negb].
  - destruct (InitializeRTSP_sound (rtsp_created env) (rtsp_attached env) true f n Hns Hr Hc) as (ok' & n' & E & Hns' & Ha & Hs & Hrt).
    unfold InitializeRTSPWithStaticCameraList. rewrite E. cbn [mbind option_bind]. exists ok'. do 2 eexists. split; [reflexivity |]. split_and!; try done; cbn.
    + split; cbn; [done | done | by intros ? [= <-] | by rewrite Hd].
    + destruct (Hok eq_refl) as (H1 & (h & H2 & H2') & ip & H3). intros _. split; cbn; [by do 2 eexists | by rewrite Ha | rewrite Hs; by exists h | exact Hrt].
  - exists false. do 2 eexists. split; [reflexivity |]. split_and!; try done. split; cbn; [done | done | by intros ? [= <-] | by rewrite Hd].
Qed.

(** The events of the server that the handler knows. *)
Definition events_bound (h : SioHandler) : Prop := forall tag, tag ∈ [ExceptionUpdate; ScheduleUpdate] ->
  exists b, received (GetEventNameStringFromEventNameEnumValue tag) h = Some b /\ IsRunnable b = true.

Lemma bind_event_spec (f : Facade C) (n : Manager) h :
  facade_ready f -> net_sound n -> is_Some (api_handler_ n) -> sio_handler_ n = Some h -> current_socket h = true ->
  exists h', SocketIOEventBind f n = Some (true, with_sio n (Some h')) /\ net_sound (with_sio n (Some h')) /\ events_bound h' /\ GetID h' = GetID h.
Proof.
  intros [[x Hx] [y Hy] _] Hn [a Ha] Hs Hc. unfold SocketIOEventBind. rewrite Ha, Hs, Hx, Hy. cbn [bool_decide]. rewrite !bool_decide_true by by eexists.
  assert (sio_sound h) as Hh by by apply Hn. unfold bind_if_runnable. cbn. unfold RegistEvent. rewrite Hc. cbn. rewrite ?Hc. cbn. eexists. split; [reflexivity |]. split_and!; [| | done].
  - apply sound_sio; [done | by destruct Hh]. 
  - intros tag Ht. repeat (apply elem_of_cons in Ht as [-> | Ht]); [| | by apply elem_of_nil in Ht]; unfold received; cbn; rewrite decide_True by set_solver.
    + rewrite lookup_insert_ne, lookup_insert_eq by done. by eexists.
    + rewrite lookup_insert_eq. by eexists.
Qed.

(** Every camera of the settings has a queue of frames. *)
Definition cameras_queued (io : IOStreamManager AVFrame) (cams : gset Z) : Prop := forall id, id ∈ cams -> is_Some (frame_queue io id).

(** What is there when the units are built. *)
Record prepared (s : ServiceState) : Prop := {
  q_active : Forall (fun h => is_activate_handler_ h = true) (engines_ s);
  q_parts : exists n io h, network_manager_ s = Some n /\ io_stream_manager_ s = Some io /\ is_Some (load_balancer_ s) /\ is_Some (rtsp_handler_ n) /\
    sio_handler_ n = Some h /\ events_bound h /\ cameras_queued io (GetCameraIDSet (facade s))
}.

Lemma prepare_spec (n : Manager) b (s : ServiceState) :
  service_sound s -> detector_block_ s = None -> net_sound n ->
  (exists h, rtsp_handler_ n = Some h /\ IsProxySettingStaticUseInitData h = true /\ GetProxyIDs h = ∅) ->
  is_Some (api_handler_ n) -> (exists h, sio_handler_ n = Some h /\ current_socket h = true) -> facade_ready (facade s) ->
  exists ok s', prepare n IOStreamManager_make b s = Some (ok, s') /\ service_sound s' /\ detector_block_ s' = None /\ facade s' = facade s /\
    length (engines_ s') = length (engines_ s) /\ (ok = true -> prepared s').
Proof.
  intros [Ho He Hn Hu] Hd Hns (rt & Hrt & Hst & Hids) Ha (sio & Hs & Hc) Hf. unfold prepare.
  destruct (ready_gives_queues (Frame := AVFrame) (GetCameraIDSet (facade s)) (handlers_of n) rt IOStreamManager_make) as (io & -> & Hq);
    [cbn; by rewrite bool_decide_true | cbn; rewrite Hs; by rewrite bool_decide_true by by eexists | done | done | done | |].
  { intros id. rewrite Hids, (left_id_L ∅ (∪)). intros Hid. by apply (fr_cams _ Hf). }
  cbn [negb]. destruct (activate_engines_sound 0 (engines_ s) b He) as (ok & l & b' & E & Hl & Hlen & Hact).
  change (engines_ (with_managers s (Some n) (Some io) (Some b))) with (engines_ s). rewrite E. cbn [mbind option_bind].
  assert (forall n', net_sound n' -> service_sound (with_managers (with_engines (with_managers s (Some n) (Some io) (Some b)) l (Some b')) (Some n') (Some io) (Some b'))) as Hsound.
  { intros n' Hn'. split; cbn; [done | done | by intros ? [= <-] | by rewrite Hd]. }
  destruct ok; cbn [negb]; [| do 2 eexists; split; [reflexivity |]; split_and!; try done; exact (Hsound n Hns)].
  destruct (bind_event_spec (facade s) n sio Hf Hns Ha Hs Hc) as (h' & Eb & Hns' & Hbound & _).
  change (facade (with_engines _ _ _)) with (facade s). rewrite Eb. cbn [mbind option_bind]. do 2 eexists. split; [reflexivity |]. split_and!; try done; [by apply Hsound |].
  intros _. split; cbn; [by apply Hact |]. do 3 eexists. split_and!; try done; cbn.
  intros id Hid. destruct (Hq id) as (a & Hg & Hheap & _); [set_solver |]. unfold frame_queue. rewrite Hg. cbn [mbind option_bind]. rewrite Hheap. by eexists.
Qed.

(** *** Units *)

(** Initialised, and every thread has its function. *)
Definition unit_ready (u : ServiceUnit K) : Prop := is_initialized_service_ (su_unit u) = true /\ forall st, thread_runner_ (thread_of (su_threads u) st) = true.

(** What the units of a service find is the same for all but their own queue and settings. *)
Lemma unit_init_spec (s : ServiceState) (id : Z) n h io q :
  is_Some (load_balancer_ s) -> network_manager_ s = Some n -> is_Some (rtsp_handler_ n) -> sio_handler_ n = Some h ->
  io_stream_manager_ s = Some io -> frame_queue io id = Some q -> id <> UNIT_ID_NOT_SET ->
  let u := unit_init (init_env s id) (ServiceUnit_make (K := K) id) in
  u.1 = negb (GetID h =? SERVER_IDENTIFIER_NOT_SET) /\ id_ (su_unit u.2) = id /\ (u.1 = true -> unit_ready u.2).
Proof.
  intros Hb Hn Hr Hh Hio Hq Hid. unfold unit_init, Init, init_env, with_settings_there. cbn. rewrite (proj2 (Z.eqb_neq _ _) Hid), Hn. cbn. rewrite Hh, Hio.
  cbn. rewrite (bool_decide_true (is_Some (load_balancer_ s))), (bool_decide_true (is_Some (rtsp_handler_ n))), Hq by done. cbn.
  destruct (GetID h =? SERVER_IDENTIFIER_NOT_SET); cbn; split_and!; try done; [by case_match |]. intros _. split; [done |]. by intros [].
Qed.

(** Every camera has its unit, in order, and every unit is ready. *)
Definition units_ready (s : ServiceState) : Prop :=
  exists l, detector_block_ s = Some l /\ l <> [] /\ map (fun u => id_ (su_unit u)) l = set_order (GetCameraIDSet (facade s)) /\
    Forall unit_ready l.

Lemma units_made_exact l : units_exact (map (ServiceUnit_make (K := K)) l).
Proof. unfold units_exact. rewrite Forall_map. apply Forall_forall. intros id _. apply ServiceUnit_make_exact. Qed.

Lemma build_units_spec (s : ServiceState) :
  service_sound s -> detector_block_ s = None -> facade_ready (facade s) -> prepared s ->
  exists ok s', build_units s = (ok, s') /\ service_sound s' /\ facade s' = facade s /\ (ok = true -> prepared s' /\ engines_ s' = engines_ s /\ units_ready s').
Proof.
  intros [Ho He Hn Hu] Hd Hf [Hact (n & io & h & En & Eio & Hb & Hr & Hh & Hev & Hq)]. unfold build_units.
  destruct (GetBlockProfile_of_type DETECTOR_RTSP (service_graph_ (service_profile_ s))); [| by do 2 eexists].
  unfold BuildServiceUnit. cbn [app]. rewrite length_map, set_order_length, Nat.eqb_refl. cbn [negb]. set (cams := GetCameraIDSet (facade s)) in *. set (l := map ServiceUnit_make (set_order cams)).
  unfold Block_Init. change (init_env (with_block s (Some l) (load_balancer_ s))) with (init_env s).
  set (r := map (fun u => unit_init (init_env s (id_ (su_unit u))) u) l).
  assert (r = map (fun id => unit_init (init_env s id) (ServiceUnit_make id)) (set_order cams)) as Hrl by (unfold r, l; rewrite map_map; done).
  assert (Forall (fun u => u.1 = negb (GetID h =? SERVER_IDENTIFIER_NOT_SET) /\ (u.1 = true -> unit_ready u.2)) r /\ map (fun u => id_ (su_unit u.2)) r = set_order cams) as [Hall Hids].
  { rewrite Hrl, map_map. assert (forall id, id ∈ set_order cams -> id ∈ cams) as Hin by (intros id; by apply set_order_elem).
    assert (forall id, id ∈ cams -> let u := unit_init (init_env s id) (ServiceUnit_make (K := K) id) in
      u.1 = negb (GetID h =? SERVER_IDENTIFIER_NOT_SET) /\ id_ (su_unit u.2) = id /\ (u.1 = true -> unit_ready u.2)) as Hone.
    { intros id Hid. destruct (Hq id Hid) as [q Eq]. eapply unit_init_spec; try done. by apply (fr_cams _ Hf). }
    clear - Hin Hone. induction (set_order cams) as [| id ids IH]; [by split; [constructor |] |].
    destruct (Hone id) as (H1 & H2 & H3); [apply Hin; by left |]. destruct IH as [IH1 IH2]; [intros x Hx; apply Hin; by right |].
    cbn [map]. split; [constructor; [by split | exact IH1] |]. by rewrite H2, IH2. }
  set (s' := with_block _ _ _). exists (block_result false r.*1), s'. split; [done |]. split_and!; [| done |].
  - split; cbn; [done | done | done |]. intros l0 [= <-]. split; [| done]. change (r.*2) with (snd (Block_Init (init_env s) false l)). apply Block_Init_exact, units_made_exact.
  - intros Hok. split; [split; [done | by do 3 eexists] |]. split; [done |]. exists (r.*2). split; [done |].
    assert (r <> []) as Hne by (intros ->; done). split; [by intros ?%fmap_nil_inv |]. split.
    + etrans; [| exact Hids]. change (r.*2) with (map snd r). by rewrite map_map.
    + rewrite Forall_fmap. assert ((GetID h =? SERVER_IDENTIFIER_NOT_SET) = false) as Hid.
      { destruct (GetID h =? SERVER_IDENTIFIER_NOT_SET); [| done]. exfalso. assert (List.filter id r.*1 = []) as Hfil.
        { clear -Hall. induction Hall as [| u r [Hu _] _ IH]; [done |]. cbn. by rewrite Hu. }
        unfold block_result in Hok. rewrite Hfil in Hok. by destruct (r.*1). }
      rewrite Hid in Hall. eapply Forall_impl; [exact Hall |]. intros u [H1 H2]. by apply H2.
Qed.

(** *** The whole start *)

(** What a started service has. *)
Record service_ready (s : ServiceState) : Prop := {
  y_engines : engines_ s <> [] /\ Forall (fun h => is_activate_handler_ h = true) (engines_ s);
  y_events : exists n h, network_manager_ s = Some n /\ is_Some (rtsp_handler_ n) /\ sio_handler_ n = Some h /\ events_bound h;
  y_units : units_ready s
}.

Lemma initialize_spec env p (f : Facade C) :
  files_well_typed env -> (rtsp_created env = true -> rtsp_attached env = true) -> initialization_succeeded f = false ->
  exists ok s, Service_Initialize new_device GET env (Service_make p f : ServiceState) = Some (ok, s) /\ service_sound s /\ (ok = true -> service_ready s).
Proof.
  intros Hfiles Hrtsp Hfresh. set (s0 := Service_make p f : ServiceState). unfold Service_Initialize.
  assert (forall n e, service_sound (with_profiles s0 n e)) as Hs0 by (intros n e; split; cbn; [done | constructor | done | done]).
  destruct (load_profiles_spec env s0 Hfiles) as (ok & network & e & -> & Hnet). cbn [mbind option_bind]. destruct ok; cbn [negb]; [| by do 2 eexists]. destruct (Hnet eq_refl) as [net ->].
  cbn [network_profile_ with_profiles mbind option_bind].
  destruct (create_parts_spec net (with_profiles s0 (Some net) e) eq_refl eq_refl) as (ok & s1 & -> & H1 & Hf1 & Hd1 & Hb1 & Hn1 & Hio1 & Hok1).
  destruct ok; cbn [negb]; [| by do 2 eexists]. rewrite Hn1. cbn [mbind option_bind].
  destruct (connect_spec env net s1 H1 Hd1 Hb1 Hrtsp) as (ok & s2 & n & -> & H2 & Hd2 & Hb2 & Hn2 & Hio2 & He2 & Hns & Hc). cbn [mbind option_bind].
  destruct ok; cbn [negb]; [| by do 2 eexists]. destruct (Hc eq_refl) as [(ip & tag & Hset) Hapi Hsio Hrt]. destruct Hb1 as [b Eb]. rewrite Hn2, Hio2, Hio1, Hb2, Eb. cbn [mbind option_bind].
  assert (facade_ready (facade s2)) as Hfr by (eapply (initialize_ready GET); [exact Hfresh |]; rewrite Hf1 in Hset; exact Hset).
  destruct (prepare_spec n b s2 H2 Hd2 Hns Hrt Hapi Hsio Hfr) as (ok & s3 & -> & H3 & Hd3 & Hf3 & Hlen3 & Hok3). cbn [mbind option_bind].
  destruct ok; cbn [negb]; [| by do 2 eexists]. specialize (Hok3 eq_refl). rewrite <- Hf3 in Hfr.
  destruct (build_units_spec s3 H3 Hd3 Hfr Hok3) as (ok & s4 & -> & H4 & Hf4 & Hok4). destruct ok; cbn [negb]; [| by do 2 eexists].
  destruct (Hok4 eq_refl) as ([Hact (nn & io & h & Q1 & Q2 & Q3 & Q4 & Q5 & Q6 & Q7)] & He4 & Hunits). do 2 eexists. split; [reflexivity |]. split; [by destruct H4 |].
  intros _. split; cbn; [split; [| done] | by exists nn, h | done]. rewrite He4. specialize (Hok1 eq_refl). rewrite He2 in Hlen3. intros E. rewrite E in Hlen3. by destruct (engines_ s1).
Qed.

(** *** Running *)

Lemma start_runs th th' : SafeThread.Start th = Some th' -> is_running_ th' = true /\ thread_runner_ th' = thread_runner_ th.
Proof. unfold SafeThread.Start. repeat case_match; try done; by intros [= <-]. Qed.

(** Every thread runs its function. *)
Definition all_running (t : Threads) : Prop := forall st, is_running_ (thread_of t st) = true /\ thread_runner_ (thread_of t st) = true.

Lemma unit_start_runs e (u : ServiceUnit K) :
  threads_exact (su_threads u) -> unit_ready u ->
  exists u', unit_start e u = Some (true, u') /\ threads_exact (su_threads u') /\ su_unit u' = su_unit u /\ all_running (su_threads u').
Proof.
  intros Hx [Hi Hr]. unfold unit_start. rewrite Hi. cbn [negb]. destruct (Start__exact _ Hx) as (t & Et & Ht). rewrite Et. cbn. eexists. split; [done |]. split_and!; try done.
  unfold Start_ in Et. destruct (SafeThread.Start (io_worker_thread_ _)) as [io |] eqn:E1; [| done]. destruct (SafeThread.Start (event_thread_ _)) as [ev |] eqn:E2; [| done].
  destruct (SafeThread.Start (response_thread_ _)) as [rsp |] eqn:E3; [| done]. destruct (SafeThread.Start (inference_thread_ _)) as [inf |] eqn:E4; [| done]. injection Et as <-.
  apply start_runs in E1 as [], E2 as [], E3 as [], E4 as []. intros []; cbn; split; try done; [rewrite H6; apply (Hr InferenceStage) | rewrite H4; apply (Hr ResponseStage) | rewrite H2; apply (Hr EventStage) | rewrite H0; apply (Hr IOWorkerStage)].
Qed.

Lemma start_units_run env (l : list (ServiceUnit K)) :
  units_exact l -> Forall unit_ready l ->
  exists l', start_units env l = Some (map (fun _ => true) l, l') /\ units_exact l' /\ map (fun u => su_unit u) l' = map (fun u => su_unit u) l /\ Forall (fun u => all_running (su_threads u)) l'.
Proof.
  intros Hx Hr. induction l as [| u l IH]; [exists []; by split_and! |]. apply Forall_cons in Hx as [Hxu Hx]. apply Forall_cons in Hr as [Hru Hr]. cbn [start_units map].
  destruct (unit_start_runs (env (id_ (su_unit u))) u Hxu Hru) as (u' & -> & H1 & H2 & H3). cbn [mbind option_bind]. destruct (IH Hx Hr) as (l' & -> & G1 & G2 & G3). cbn [mbind option_bind].
  eexists. split; [done |]. split_and!; [by constructor | cbn; by rewrite H2, G2 | by constructor].
Qed.

Lemma all_true_result need {A} (l : list A) : l <> [] -> block_result need (map (fun _ => true) l) = true.
Proof.
  intros Hl. unfold block_result. assert (List.filter id (map (fun _ : A => true) l) = map (fun _ => true) l) as -> by (clear; induction l; cbn; congruence).
  destruct l as [| a l]; [done |]. cbn [map]. destruct need; [apply Nat.eqb_refl | done].
Qed.

(** A running service: the streams are on, and every camera's unit works. *)
Definition service_running (s : ServiceState) : Prop :=
  (exists n h, network_manager_ s = Some n /\ rtsp_handler_ n = Some h /\ state_ h = RtspRun) /\
  exists l, detector_block_ s = Some l /\ l <> [] /\ map (fun u => id_ (su_unit u)) l = set_order (GetCameraIDSet (facade s)) /\ Forall (fun u => all_running (su_threads u)) l.

Lemma run_spec (s : ServiceState) : service_sound s -> service_ready s -> exists s', Service_Run s = Some (true, s') /\ service_sound s' /\ service_running s'.
Proof.
  intros [Ho He Hn Hu] [_ (n & sio & En & [h Eh] & _) (l & El & Hne & Hids & Hready)]. unfold Service_Run. rewrite En. cbn [mbind option_bind]. rewrite Eh.
  destruct (RunRTSP h) as [ok h'] eqn:Er. assert (ok = true /\ state_ h' = RtspRun /\ (exists static, calm_reach static h' /\ describing (gst h') = [])) as (-> & Hrun & Hcalm).
  { destruct (ns_rtsp n (Hn n En) h Eh) as (static & Hc & Hd). assert (h' = snd (RunRTSP h)) as Eh' by by rewrite Er. unfold RunRTSP in Er.
    split_and!; [by case_decide; injection Er | by case_decide; injection Er as <- <- |]. exists static. split.
    - eapply (calm_step static h HRun); [done | done |]. cbn [handler_event]. by rewrite Eh'.
    - by case_decide; injection Er as <- <-. }
  cbn [negb]. cbn [detector_block_ with_managers]. rewrite El. cbn [mbind option_bind]. unfold Block_Start.
  destruct (Hu l El) as [Hx Hb]. match goal with |- context [start_units ?e l] => destruct (start_units_run e l Hx Hready) as (l' & -> & Hx' & Hsame & Hruns) end.
  cbn [mbind option_bind]. rewrite all_true_result by done. eexists. split; [done |]. split.
  - split; cbn; [done | done | | by intros ? [= <-]]. intros n' [= <-]. destruct (Hn n En) as [S1 _ S3]. split; cbn; [done | by intros ? [= <-] | done].
  - split; [by do 2 eexists |]. exists l'. split; [done |]. assert (map (fun u => id_ (su_unit u)) l' = map (fun u => id_ (su_unit u)) l) as ->.
    { change (fun u : ServiceUnit K => id_ (su_unit u)) with (fun u : ServiceUnit K => id_ ((fun u => su_unit u) u)). rewrite <- !(map_map (fun u => su_unit u) id_). by rewrite Hsame. }
    split_and!; try done. intros ->. destruct l; [by apply Hne | done].
Qed.

(** *** Work *)






(** ** The theorems *)

(** C3: a start that succeeds has everything: at least one engine, all of them active, both events
    of the server bound to binders that can run, and, although one camera's unit would be
    enough for the code, one unit for each camera of the settings, in order and each ready; and
    then the run that follows cannot fail: the streams are on and every thread of every unit runs.
    A start that fails has left a service that can be closed.  It takes settings files whose
    values have their types, and a server of the streams that is attached in time. *)
Theorem start_is_complete env p (f : Facade C) :
  files_well_typed env -> (rtsp_created env = true -> rtsp_attached env = true) -> initialization_succeeded f = false ->
  exists ok s, Service_Initialize new_device GET env (Service_make p f : ServiceState) = Some (ok, s) /\ service_sound s /\
    (ok = true -> service_ready s /\ exists s', Service_Run s = Some (true, s') /\ service_sound s' /\ service_running s').
Proof.
  intros Hf Hr Hi. destruct (initialize_spec env p f Hf Hr Hi) as (ok & s & E & Hs & Hok). exists ok, s. split; [done |]. split; [done |].
  intros Ht. specialize (Hok Ht). split; [done |]. by apply run_spec.
Qed.


End Service.

(** Five interrupts during the initialisation are ignored, the sixth is remembered. *)
Lemma interrupts_during_start n : Nat.iter n IgnoreSignalHandler (mkSignals false 0) = mkSignals (5 <? Z.of_nat n) (Z.of_nat n).
Proof.
  induction n as [| n IH]; [done |]. cbn [Nat.iter nat_rect] in *. change (nat_rect _ _ _ n) with (Nat.iter n IgnoreSignalHandler (mkSignals false 0)). rewrite IH. unfold IgnoreSignalHandler, ExitSignalHandler.
  cbn [g_force_exit_count g_terminate_flag]. replace (Z.of_nat (S n)) with (Z.of_nat n + 1) by lia. destruct (Z.of_nat n + 1 <=? 5) eqn:E; f_equal; bool_to_prop; destruct (5 <? Z.of_nat n) eqn:E1, (5 <? Z.of_nat n + 1) eqn:E2; bool_to_prop; lia.
Qed.

Definition nothing_seen (t : Observed) : bool := negb (sees_signal t || sees_quit t || sees_signal_after t).

(** The loop waits exactly as long as it sees neither the signal nor the end, and leaves in the turn that sees one. *)
Lemma waits_until_told turns :
  (WaitUntilQuitSignal turns = None <-> Forall (fun t => nothing_seen t = true) turns) /\
  (forall k t, turns !! k = Some t -> nothing_seen t = false -> exists m, WaitUntilQuitSignal turns = Some m /\ (m <= S k)%nat).
Proof.
  induction turns as [| [a b c] turns [IH1 IH2]]; [split; [split; [by constructor | done] | done] |]. cbn [WaitUntilQuitSignal sees_signal sees_quit sees_signal_after]. split.
  - rewrite Forall_cons, <- IH1. unfold nothing_seen. destruct a, b, c, (WaitUntilQuitSignal turns); cbn; naive_solver.
  - intros k t Hk Ht. destruct a; [exists 0%nat; split; [done | lia] |]. destruct (b || c) eqn:E; [exists 1%nat; split; [done | lia] |].
    destruct k as [| k]; cbn in Hk; [injection Hk as <-; unfold nothing_seen in Ht; cbn in Ht; by rewrite E in Ht |].
    destruct (IH2 k t Hk Ht) as (m & -> & Hm). exists (S m). split; [done | lia].
Qed.

(** ** A machine with one camera and three cores *)

#[local] Existing Instance SortProps.demo_cv.
#[local] Existing Instance EngineHandler.echo_device.

#[local] Instance demo_disk : Files := {
  IsValidFile _ := true;
  opened _ := true;
  contents p :=
    file_text (
      if String.eqb p NetworkProfileJsonPath then network_json demo_network
      else if String.eqb p EngineProfilesJsonPath then
        JObject [("DETECTBASE_ENGINE_FILES_ROOT_PATH", JString "/root"); ("Engines", JArray [engine_entry true "/p"])]%string
      else ProfilesProps.demo_profile "Torch_Onnx_RKNN");
  current_path := "/";
  interfaces := None
}.

(** A server that knows the machine and its camera 7. *)
Definition demo_server (url : string) : Z * json :=
  if String.eqb url "/server?ip=10.0.0.2" then (200, JArray [JObject [("Id", JInt 5); ("Setting", JObject [])]%string])
  else if String.eqb url "/cluster?server_id=5" then (200, JArray [JObject [("CameraId", JInt 7)]%string])
  else (200, JArray []).

Definition demo_service_profile : ServiceProfile := match Build 0 with Some (Some p, _) => p | _ => mkService "" Graph_make end.

(** The peer "c" does not answer; [opens]: the broker does. *)
Definition demo_env (opens : bool) : ServiceEnv :=
  mkServiceEnv (mkConnEnv opens None (fun p => String.eqb (peer_name p) "c")) true true INFER_ENGINE_ID_INITIAL.

Local Abbreviation demo_initialize opens :=
  (Service_Initialize (K := XYSR) (D := nat) (C := bool) (Camera := Z) (Snapshot := Z) (fun _ _ => 2%nat) demo_server (demo_env opens) (Service_make demo_service_profile Facade_make)).

Lemma demo_files_typed opens : files_well_typed (demo_env opens).
Proof. split; vm_compute; discriminate. Qed.

Lemma demo_starts : fst <$> demo_initialize true = Some true.
Proof. vm_compute. reflexivity. Qed.


Lemma start_is_complete_witness :
  exists s s', demo_initialize true = Some (true, s) /\ service_ready s /\ Service_Run s = Some (true, s') /\ service_running s'.
Proof.
  destruct (start_is_complete (K := XYSR) (D := nat) (Camera := Z) (Snapshot := Z) (fun _ _ => 2%nat) demo_server (demo_env true) demo_service_profile (Facade_make (C := bool)))
    as (ok & s & E & _ & H).
  - exact (demo_files_typed true).
  - reflexivity.
  - reflexivity.
  - pose proof demo_starts as Hs. rewrite E in Hs. cbn in Hs. injection Hs as ->. destruct (H eq_refl) as (Hy & s' & Hr & _ & Hrun). exists s, s'. split; [exact E |]. split; [exact Hy |]. split; [exact Hr | exact Hrun].
Defined.






